(* ===== verification/_CoqProject ===== *)
-Q . S2P
Prelude.v
Tokens.v
Eos.v
FreeQueue.v
Pool.v
Grammar.v
Context.v
Hashing.v
Connector.v
Manager.v
ManagerFacts.v
ManagerProperties.v
CacheManager.v
CacheProperties.v
Budget.v
Dict.v
Lora.v
KVInterface.v
Batch.v
BatchFacts.v
Conservation.v
Spending.v
BatchErrors.v
Planning.v
BatchProperties.v
Scheduler.v
SchedulerProperties.v
Disagg.v
Decode.v
Frame.v
PagedFrame.v
DecodeFacts.v
DecodeProperties.v
Prefill.v
PrefillFacts.v
PrefillProperties.v
Nodes.v
NodesProperties.v
Eplb.v
EplbFacts.v
EplbProperties.v
EplbStats.v
EplbStatsProperties.v
Jenga.v
JengaFacts.v
JengaProperties.v
JengaManager.v
JengaHits.v
JengaManagerFacts.v
JengaCapacity.v
JengaManagerProperties.v
JengaCacheManager.v
JengaInterface.v
JengaCacheProperties.v
