(* ===== verification/Prelude.v ===== *)
(** * The MAX serving core: a verification library

    The program serves large language models. A server accepts requests, batches them,
    keeps the keys and values the model computed for their tokens in a paged cache, runs
    the model, and streams tokens back. This library models the part that decides: the
    state of a request, the KV cache, the batch constructor, the schedulers of one node
    and of a prefill and a decode node, the LoRA adapters, and the placement of experts.
    Paths are under src/max/python/max/; [paged] is pipelines/kv_cache/paged_kv_cache/
    and [sched] is serve/scheduler/.

    ** The parts and how they interact

    - [Prelude] (this file): the outcome of a Python call and the state monad, with the
      tactics and the lemmas on lists, ranges and dictionaries the other files share.
    - [Tokens], [Eos], [Grammar], [Context] (pipelines/context/tokens.py,
      eos_tracking.py, context.py, status.py, outputs.py): a request. [TokenBuffer] holds
      its tokens with the window the next step computes and the window not yet streamed;
      [EOSTracker] detects its end; [GrammarEnforcement] decides when a grammar constrains
      it; [TextContext] puts these together, with the placeholders of schedule-ahead
      decoding.
    - [FreeQueue], [Pool] ([paged]block_utils.py, block_pool.py): the blocks of one
      device, their reference counts, the doubly linked free list and the prefix cache.
    - [Hashing] ([paged]block_utils.py, _core_mojo): the keys of the prefix cache.
    - [Connector] (pipelines/kv_cache/kv_connector.py and null_connector.py): the class
      of external cache tiers, whose loads complete when they are posted or later, the
      null tier, and one of host memory that completes them at once.
    - [Manager], [ManagerFacts], [ManagerProperties] ([paged]block_manager.py): the block
      manager over one pool per replica, its invariant, its properties over whole runs.
    - [CacheManager], [CacheProperties] ([paged]cache_manager.py): the cache the scheduler
      and the kernels see.
    - [Jenga], [JengaFacts], [JengaProperties] ([paged]jenga_block_pool.py): a pool of
      huge blocks that several caches divide into pages of their own size.
      [JengaManager], [JengaHits], [JengaManagerFacts], [JengaCapacity] and
      [JengaManagerProperties] ([paged]jenga_block_manager.py): the manager of these
      caches, its prefix hits over several attention groups, its invariant, the longest
      request it holds, and its properties over whole runs. [JengaCacheManager],
      [JengaInterface] and [JengaCacheProperties] ([paged]jenga_cache_manager.py): the
      cache the scheduler and the kernels see when this manager serves it.
    - [Budget] ([sched]batch_constructor/token_budget.py), [Dict] (Python's ordered
      dictionaries), [Lora] (pipelines/lora/).
    - [KVInterface]: the class [KVCache] of the calls the batch constructor makes on a
      cache, its laws [KVCacheLaws], and the instance for [PagedKVCacheManager]
      (the one for [JengaKVCacheManager] is in [JengaInterface]).
    - [Batch] ([sched]batch_constructor/text_batch_constructor.py, grammar_gate.py,
      [sched]config.py): the batch constructor, over any [KVCache]. [BatchFacts],
      [Conservation], [Spending], [BatchErrors], [Planning] and [BatchProperties] prove
      its properties.
    - [Scheduler], [SchedulerProperties] ([sched]text_generation_scheduler.py): the
      iteration of a single node.
    - [Disagg], [Decode], [Prefill] ([sched]base.py, di_dispatchers.py,
      decode_scheduler.py, prefill_scheduler.py): the two nodes of disaggregated serving.
      [Frame] and [PagedFrame] say what the constructor leaves alone; [DecodeFacts],
      [DecodeProperties], [PrefillFacts], [PrefillProperties] treat each node; [Nodes] and
      [NodesProperties] run the two with the sockets between them.
    - [Eplb], [EplbFacts], [EplbProperties] (pipelines/lib/eplb_rebalance.py): which
      device slots hold the copies of each expert of a mixture-of-experts model.
      [EplbStats], [EplbStatsProperties] (pipelines/lib/eplb_stats.py): the counts of the
      experts' use, as snapshots and dictionaries, and the placement made from them.

    A method that changes an object is a function of the monad [M S] on the object's
    state; [Raise e] is an exception and keeps the state reached when it was raised. A
    class of the source is a Module with its fields in a Record [t]. Objects shared by
    reference (requests, blocks) live in a map from their identity; what refers to them
    holds the identity.

    ** What the theorems show

    - A request: its buffer stays well formed and each generated token is streamed once;
      schedule-ahead decoding ends in the state of sequential decoding; a stop string is
      found at its earliest end; a speculative walk of the grammar rolls back.
    - Memory: no block is leaked or freed twice; the manager's references are the pools'
      counts over any run; a block another request may see is not written; a prefix hit
      adopts the longest cached prefix; an allocation leaves the request the blocks the
      step needs, so the kernels' inputs can be built, all pages in range; the linked
      list refines a deque; hashing by increments equals hashing from scratch.
    - Caches of several page sizes: the references are the pools' counts over any run and
      no two pages in use share bytes; no call of the pool fails while a page is left; a
      prefix hit is the longest that every attention group can serve; an allocation gives
      every cache its pages or draws none; a step publishes what was computed and leaves
      later pages alone; a first request longer than the promised length is refused, one within it
      is served if no sliding window is shorter than it, and can be refused otherwise.
    - Batches: the constructor holds every request once whatever is called; batches are
      disjoint, bounded and within the token budget; token generation goes oldest first;
      missing memory is reported only when nothing could free any; a deferred prompt is
      bound to a replica by its deadline, though that replica can skip the step that
      binds it; an iteration ends.
    - Nodes: every request sent to a scheduler is queued, held or answered, once; blocks
      the decode node reserved stay claimed and those the prefill node transfers stay
      claimed until the transfer lands; run together, the nodes meet the assumptions
      each makes on the other, and a transfer joins blocks claimed on both sides unless
      its request is cancelled. A run with a cancellation in which that fails is given.
    - Adapters: active adapters have slots of their own, and routing covers a batch.
    - Experts: a plan exists for every load, gives each expert a slot, keeps its two maps
      inverse and groups on their nodes; the greedy choice of copies has the least peak. A
      snapshot survives its dictionary.

    ** Bounds and fuel

    Integers are unbounded as Python's are; the conversions to 32 and 64 bits that the
    source makes (hashes, tokens handed to the hashers) are written out. Loops over data
    are structural. The passes of the batch constructor take fuel, computed from the
    queues they empty, and [iteration_terminates] shows that it is enough; the decode
    node's reservation loop has as much fuel as requests wait, of which each round takes
    one; the Jenga manager's passes over the window groups have as much as there are
    hashes, its bisection as much as its range is long. [OutOfFuel] is the outcome of no
    Python program.

    ** Classes and hypotheses

    Code that is not in the repository, or that runs elsewhere, is a class: numpy's
    uninitialised memory, the digests, the external tier, the grammar compiler and its
    threads, the pipelines that execute batches, the transfer engine, floating-point
    numbers. A theorem that uses what such code documents has it as a law of the class,
    and its witness has an instance. The theorems about runs of a manager are about calls
    that its callers make: they are over admissible runs, a predicate stated next to them
    (replicas exist, a step's context has processed no more than its blocks hold). The nodes' sockets deliver in order and lose nothing,
    each at any time; requests have distinct ids.

    ** Not modelled

    - Device work: buffers and their copies, model execution, samplers, LoRA weights.
    - Observation: logging, metrics, tracing, [__repr__]. Of calls made only to build a
      log message those that change state are kept.
    - Views that alias a numpy array: no modelled code writes through one.
    - The digest sha256 in Mojo, a parameter; the pixel-generation context.
    - In the paged cache: the metrics, and theorems about copies from another replica,
      whose code is modelled; requests without a claim (dummies) are outside the
      invariant of runs.
    - In the batch constructor: the padding of data-parallel batches ([dp_padder] is
      [None]); a release while a batch executes and [clear_tg_reqs] are modelled but are
      no steps of the runs the theorems speak of.
    - Time: one argument [now] stands for every call of [time.monotonic] in an iteration,
      where the source reads the clock anew: planning, arrivals of requests whose grammar
      is ready, time limits.
    - In the Jenga manager: dummy requests are modelled and are no steps of its runs; the
      slabs and device buffers of jenga_cache_manager.py, of which only the sizes are.
    - The transfer engine, HTTP, tokenizers, parsers of tool calls,
      memory planning, model graphs and kernels. *)

From stdpp Require Export prelude gmap gmultiset strings.
From Stdlib Require Export ZArith Lia.

(** ** Outcomes: a Python call returns a value or raises *)

Inductive exn :=
| ValueError | TypeError | IndexError | KeyError | AssertionError
| RuntimeError | OverflowError | ZeroDivisionError | InsufficientBlocksError
| AttributeError | NotImplementedError
(** ends the process *)
| SystemExit
(** not a Python exception: the loop's fuel ran out *)
| OutOfFuel.

#[export] Instance exn_eq_dec : EqDecision exn.
Proof. solve_decision. Defined.

Inductive outcome (A : Type) :=
| Ok (a : A)
| Raise (e : exn).
Arguments Ok {A} a.
Arguments Raise {A} e.

#[export] Instance outcome_eq_dec {A} `{EqDecision A} : EqDecision (outcome A).
Proof. solve_decision. Defined.

(** A method of an object with state [S]: the state survives an exception,
    with every mutation made before the raise. *)
Definition M (S A : Type) : Type := S → outcome A * S.

Section Monad.
Context {S : Type}.

Definition ret {A} (a : A) : M S A := λ s, (Ok a, s).
Definition bind {A B} (m : M S A) (f : A → M S B) : M S B := λ s,
  match m s with
  | (Ok a, s') => f a s'
  | (Raise e, s') => (Raise e, s')
  end.
Definition raise {A} (e : exn) : M S A := λ s, (Raise e, s).
Definition get : M S S := λ s, (Ok s, s).
Definition gets {A} (f : S → A) : M S A := λ s, (Ok (f s), s).
Definition put (s : S) : M S unit := λ _, (Ok tt, s).
Definition modify (f : S → S) : M S unit := λ s, (Ok tt, f s).
Definition of_outcome {A} (o : outcome A) : M S A := λ s, (o, s).
Definition of_option {A} (e : exn) (o : option A) : M S A :=
  match o with Some a => ret a | None => raise e end.
(** [if b: raise e] *)
Definition raise_if (b : bool) (e : exn) : M S unit :=
  if b then raise e else ret tt.
(** [assert b] *)
Definition py_assert (b : bool) : M S unit :=
  if b then ret tt else raise AssertionError.
Definition when (b : bool) (m : M S unit) : M S unit :=
  if b then m else ret tt.
(** [try: m except: h] where [h] decides which exceptions it handles. *)
Definition catch {A} (m : M S A) (h : exn → option (M S A)) : M S A := λ s,
  match m s with
  | (Raise e, s') =>
      match h e with Some k => k s' | None => (Raise e, s') end
  | r => r
  end.
(** [try: m finally: k] for a [k] that does not raise. *)
Definition finally {A} (m : M S A) (k : S → S) : M S A := λ s,
  let '(o, s') := m s in (o, k s').
(** [for x in l: f x] *)
Fixpoint for_each {A} (l : list A) (f : A → M S unit) : M S unit :=
  match l with
  | [] => ret tt
  | x :: l' => bind (f x) (λ _, for_each l' f)
  end.
(** A list comprehension whose body has effects. *)
Fixpoint for_map {A B} (l : list A) (f : A → M S B) : M S (list B) :=
  match l with
  | [] => ret []
  | x :: l' => bind (f x) (λ y, bind (for_map l' f) (λ ys, ret (y :: ys)))
  end.
(** A [for] loop that threads local variables [B]. *)
Fixpoint for_fold {A B} (l : list A) (b : B) (f : B → A → M S B) : M S B :=
  match l with
  | [] => ret b
  | x :: l' => bind (f b x) (λ b', for_fold l' b' f)
  end.
End Monad.

(** Run a method of a component of the state. *)
Definition zoom {S T A} (g : S → T) (p : T → S → S) (m : M T A) : M S A := λ s,
  let '(o, t) := m (g s) in (o, p t s).

Declare Scope py_scope.
Delimit Scope py_scope with py.
Notation "'let!' x := m 'in' k" := (bind m (λ x, k))
  (at level 10, x binder, m at level 100, k at level 200) : py_scope.
Notation "m ;; k" := (bind m (λ _, k))
  (at level 100, k at level 200, right associativity) : py_scope.
Open Scope py_scope.

(** ** Running methods *)

Section Runs.
Context {S : Type}.

Lemma bind_ok {A B} (m : M S A) (f : A → M S B) s s' b :
  bind m f s = (Ok b, s') ↔ ∃ a s1, m s = (Ok a, s1) ∧ f a s1 = (Ok b, s').
Proof.
  unfold bind. destruct (m s) as [[a|e] s1] eqn:E; naive_solver.
Qed.

Lemma bind_raise {A B} (m : M S A) (f : A → M S B) s s' e :
  bind m f s = (Raise e, s') ↔
  m s = (Raise e, s') ∨ ∃ a s1, m s = (Ok a, s1) ∧ f a s1 = (Raise e, s').
Proof.
  unfold bind. destruct (m s) as [[a|e'] s1] eqn:E; naive_solver.
Qed.

Lemma bind_run {A B} (m : M S A) (f : A → M S B) s s1 a :
  m s = (Ok a, s1) → bind m f s = f a s1.
Proof. unfold bind. by intros ->. Qed.

Lemma bind_assoc {A B C} (m : M S A) (f : A → M S B) (g : B → M S C) s :
  bind (bind m f) g s = bind m (λ a, bind (f a) g) s.
Proof. unfold bind. by destruct (m s) as [[]]. Qed.

Lemma ret_ok {A} (a b : A) (s s' : S) : ret a s = (Ok b, s') ↔ a = b ∧ s = s'.
Proof. unfold ret. naive_solver. Qed.

Lemma raise_if_ok b e (s s' : S) u :
  raise_if b e s = (Ok u, s') ↔ b = false ∧ s = s'.
Proof. destruct u, b; unfold raise_if, raise, ret; naive_solver. Qed.

Lemma py_assert_ok b (s s' : S) u :
  py_assert b s = (Ok u, s') ↔ b = true ∧ s = s'.
Proof. destruct u, b; unfold py_assert, raise, ret; naive_solver. Qed.

Lemma for_each_app {A} (l1 l2 : list A) (f : A → M S unit) s :
  for_each (l1 ++ l2) f s = (for_each l1 f;; for_each l2 f) s.
Proof.
  revert s. induction l1 as [|x l1 IH]; intros s; [done|]. simpl.
  unfold bind in *. destruct (f x s) as [[?|?] s1]; [|done]. apply IH.
Qed.
End Runs.

(** [preserves I m]: whether [m] returns or raises, it leaves [I] true. *)
Definition preserves {S A} (I : S → Prop) (m : M S A) : Prop :=
  ∀ s, I s → I (m s).2.

(** [triple P m Q]: from [P], [m] returns (it does not raise) in [Q]. *)
Definition triple {S A} (P : S → Prop) (m : M S A) (Q : A → S → Prop) : Prop :=
  ∀ s, P s → ∃ a s', m s = (Ok a, s') ∧ Q a s'.

Section Logic.
Context {S : Type} (I : S → Prop).

Lemma preserves_ret {A} (a : A) : preserves I (ret a).
Proof. intros s Hs; exact Hs. Qed.
Lemma preserves_raise {A} e : preserves I (raise (A:=A) e).
Proof. intros s Hs; exact Hs. Qed.
Lemma preserves_gets {A} (f : S → A) : preserves I (gets f).
Proof. intros s Hs; exact Hs. Qed.
Lemma preserves_get : preserves I get.
Proof. intros s Hs; exact Hs. Qed.
Lemma preserves_of_outcome {A} (o : outcome A) : preserves I (of_outcome o).
Proof. intros s Hs; exact Hs. Qed.
Lemma preserves_of_option {A} e (o : option A) : preserves I (of_option e o).
Proof. destruct o; intros s Hs; exact Hs. Qed.
Lemma preserves_raise_if b e : preserves I (raise_if b e).
Proof. destruct b; intros s Hs; exact Hs. Qed.
Lemma preserves_assert b : preserves I (py_assert b).
Proof. destruct b; intros s Hs; exact Hs. Qed.
Lemma preserves_bind {A B} (m : M S A) (f : A → M S B) :
  preserves I m → (∀ a, preserves I (f a)) → preserves I (bind m f).
Proof.
  intros Hm Hf s Hs. unfold bind. specialize (Hm s Hs).
  destruct (m s) as [[a|e] s1]; [by apply Hf | done].
Qed.
Lemma preserves_when b m : preserves I m → preserves I (when b m).
Proof. destruct b; [done|]. intros _ s Hs; exact Hs. Qed.
Lemma preserves_if {A} (b : bool) (m1 m2 : M S A) :
  preserves I m1 → preserves I m2 → preserves I (if b then m1 else m2).
Proof. by destruct b. Qed.
Lemma preserves_modify f : (∀ s, I s → I (f s)) → preserves I (modify f).
Proof. by intros H s Hs; apply H. Qed.
Lemma preserves_for_each {A} (l : list A) f :
  (∀ x, x ∈ l → preserves I (f x)) → preserves I (for_each l f).
Proof.
  induction l as [|x l IH]; intros H; [apply preserves_ret|].
  apply preserves_bind; [apply H; left|intros _]. apply IH. intros y Hy. apply H. by right.
Qed.
Lemma preserves_for_map {A B} (l : list A) (f : A → M S B) :
  (∀ x, x ∈ l → preserves I (f x)) → preserves I (for_map l f).
Proof.
  induction l as [|x l IH]; intros H; [apply preserves_ret|].
  apply preserves_bind; [apply H; left|intros y].
  apply preserves_bind; [|intros; apply preserves_ret].
  apply IH. intros z Hz. apply H. by right.
Qed.
Lemma preserves_for_fold {A B} (l : list A) (b : B) f :
  (∀ b x, x ∈ l → preserves I (f b x)) → preserves I (for_fold l b f).
Proof.
  revert b. induction l as [|x l IH]; intros b H; [apply preserves_ret|].
  apply preserves_bind; [apply H; left|intros b']. apply IH. intros c z Hz. apply H. by right.
Qed.
Lemma preserves_catch {A} (m : M S A) h :
  preserves I m → (∀ e k, h e = Some k → preserves I k) → preserves I (catch m h).
Proof.
  intros Hm Hh s Hs. unfold catch. specialize (Hm s Hs).
  destruct (m s) as [[a|e] s1]; [done|]. destruct (h e) as [k|] eqn:E; [|done].
  by eapply Hh.
Qed.
End Logic.

(** [total m]: [m] never raises. *)
Definition total {S A} (m : M S A) : Prop := ∀ s, ∃ a s', m s = (Ok a, s').

Section Total.
Context {S : Type}.

Lemma total_ret {A} (a : A) : total (S:=S) (ret a).
Proof. intros s. by exists a, s. Qed.
Lemma total_get : total (S:=S) get.
Proof. intros s. by exists s, s. Qed.
Lemma total_gets {A} (f : S → A) : total (gets f).
Proof. intros s. by exists (f s), s. Qed.
Lemma total_modify (f : S → S) : total (modify f).
Proof. intros s. by exists tt, (f s). Qed.
Lemma total_bind {A B} (m : M S A) (f : A → M S B) :
  total m → (∀ a, total (f a)) → total (bind m f).
Proof. intros Hm Hf s. destruct (Hm s) as (a & s1 & E). unfold bind. rewrite E. apply Hf. Qed.
Lemma total_when b (m : M S unit) : total m → total (when b m).
Proof. destruct b; [done|]. intros _. apply total_ret. Qed.
Lemma total_if {A} (b : bool) (m1 m2 : M S A) : total m1 → total m2 → total (if b then m1 else m2).
Proof. by destruct b. Qed.
End Total.

Create HintDb total_db.
#[export] Hint Resolve total_ret total_get total_gets total_modify total_when total_if : total_db.

Ltac solve_total :=
  repeat first
    [ progress intros
    | solve [eauto 2 with total_db]
    | apply total_bind | apply total_when
    | match goal with |- total (match ?x with _ => _ end) => destruct x end ].

Create HintDb preserves_db.
#[export] Hint Resolve preserves_ret preserves_raise preserves_gets preserves_get
  preserves_of_outcome preserves_of_option preserves_raise_if preserves_assert
  preserves_bind preserves_when preserves_if preserves_for_each preserves_for_map
  preserves_for_fold : preserves_db.

(** Split a [preserves] goal along the structure of the method. *)
Ltac solve_preserves :=
  repeat first
    [ progress intros
    | solve [eauto 2 with preserves_db]
    | apply preserves_bind
    | apply preserves_for_each | apply preserves_for_map | apply preserves_for_fold
    | apply preserves_when
    | match goal with |- preserves _ (match ?x with _ => _ end) => destruct x end ].

(** Run the first command of a sequence whose result is known. *)
Ltac mstep E := rewrite (bind_run _ _ _ _ _ E); cbv beta.

Lemma py_assert_true {S} b (s : S) : b = true → py_assert b s = (Ok tt, s).
Proof. by intros ->. Qed.
Lemma raise_if_false {S} b e (s : S) : b = false → raise_if b e s = (Ok tt, s).
Proof. by intros ->. Qed.
Lemma when_false {S} b m (s : S) : b = false → when b m s = (Ok tt, s).
Proof. by intros ->. Qed.

(** A loop over entries that all pass leaves the state alone. *)
Lemma for_each_noop {S A} (l : list A) (f : A → M S unit) s :
  (∀ x, x ∈ l → f x s = (Ok tt, s)) → for_each l f s = (Ok tt, s).
Proof.
  induction l as [|x l IH]; intros Hl; [done|]. simpl. mstep (Hl x ltac:(left)).
  apply IH. intros y Hy. apply Hl. by right.
Qed.

(** Compute a method one step: unfold the monad's operations. *)
Ltac run_unfold :=
  cbv beta iota zeta delta
    [bind ret raise get gets put modify raise_if py_assert when zoom of_outcome
     of_option finally fst snd].

(** Split the boolean test the method branches on next. *)
Ltac split_test :=
  match goal with
  | |- context [if ?c then _ else _] =>
      match c with context [if _ then _ else _] => fail 1 | _ => destruct c eqn:? end
  end.

(** Compute a method under hypotheses that decide each of its tests. *)
Ltac decide_tests :=
  repeat match goal with
  | |- context [if ?c then _ else _] =>
      first [ replace c with true by lia | replace c with false by lia ]
  end.
Ltac run := repeat (progress (run_unfold; simpl; decide_tests)).

(** ** Python integers, lists and slices *)

Open Scope Z_scope.

(** A Python [bytes] object: its bytes, each in [0, 256). *)
Abbreviation bytes := (list Z).

Definition len {A} (l : list A) : Z := Z.of_nat (length l).

(** [ceildiv] of max/support/math.py; [/] on [Z] floors, as Python's [//]. *)
Definition ceildiv (a b : Z) : Z := - (a / - b).

(** [l[i]]: a negative index counts from the end; out of range raises. *)
Definition py_index {A} (l : list A) (i : Z) : option A :=
  let j := if i <? 0 then len l + i else i in
  if (j <? 0) || (len l <=? j) then None else l !! Z.to_nat j.

(** The position a slice bound denotes: negative bounds count from the end,
    then the bound is clamped to [0, len l]. *)
Definition clamp_index (n i : Z) : Z :=
  let j := if i <? 0 then n + i else i in Z.max 0 (Z.min n j).

(** [l[a:b]] *)
Definition slice {A} (l : list A) (a b : Z) : list A :=
  let lo := clamp_index (len l) a in
  let hi := clamp_index (len l) b in
  take (Z.to_nat (hi - lo)) (drop (Z.to_nat lo) l).
(** [l[:b]] and [l[a:]] *)
Definition slice_to {A} (l : list A) (b : Z) : list A := slice l 0 b.
Definition slice_from {A} (l : list A) (a : Z) : list A := slice l a (len l).

(** [l[i] = x] for an index already known to be in range. *)
Definition list_set {A} (l : list A) (i : Z) (x : A) : list A :=
  <[Z.to_nat i := x]> l.

(** int64 is the element type of every token array. *)
Definition int64 (x : Z) : bool := (- 2 ^ 63 <=? x) && (x <? 2 ^ 63).

(** [a[i] = x] on a one-dimensional int64 array: the index is checked first,
    then the value must fit the element type. *)
Definition np_store (l : list Z) (i x : Z) : outcome (list Z) :=
  let j := if i <? 0 then len l + i else i in
  if (j <? 0) || (len l <=? j) then Raise IndexError
  else if negb (int64 x) then Raise OverflowError
  else Ok (list_set l j x).

(** [range(a, b)] *)
Definition zrange (a b : Z) : list Z := (λ i, a + Z.of_nat i) <$> seq 0 (Z.to_nat (b - a)).

(** [sum(l)] *)
Definition zsum (l : list Z) : Z := foldr Z.add 0 l.

Lemma len_nonneg {A} (l : list A) : 0 ≤ len l.
Proof. unfold len. lia. Qed.
Lemma len_app {A} (l1 l2 : list A) : len (l1 ++ l2) = len l1 + len l2.
Proof. unfold len. rewrite length_app. lia. Qed.
Lemma len_cons {A} (x : A) l : len (x :: l) = len l + 1.
Proof. unfold len. simpl. lia. Qed.
Lemma len_nil {A} : len (@nil A) = 0.
Proof. done. Qed.
Lemma len_singleton {A} (x : A) : len [x] = 1.
Proof. done. Qed.
Lemma len_pos {A} (l : list A) : l ≠ [] → 0 < len l.
Proof. destruct l; [done|]. unfold len. simpl. lia. Qed.
Lemma len_eqb_0 {A} (l : list A) : l ≠ [] → (len l =? 0) = false.
Proof. intros H%len_pos. lia. Qed.
Lemma len_0_nil {A} (l : list A) : len l = 0 → l = [].
Proof. destruct l; [done|]. unfold len. simpl. lia. Qed.
Lemma len_fmap {A B} (f : A → B) l : len (f <$> l) = len l.
Proof. unfold len. by rewrite length_fmap. Qed.
Lemma len_list_set {A} (l : list A) i x : len (list_set l i x) = len l.
Proof. unfold len, list_set. by rewrite length_insert. Qed.

Lemma ceildiv_spec a b : 0 < b → b * (ceildiv a b - 1) < a ≤ b * ceildiv a b.
Proof.
  intros Hb. unfold ceildiv.
  pose proof (Z.div_mod a (- b)) as H. pose proof (Z.mod_neg_bound a (- b)). lia.
Qed.
Lemma ceildiv_unique a b c : 0 < b → b * (c - 1) < a ≤ b * c → c = ceildiv a b.
Proof. intros Hb Hc. pose proof (ceildiv_spec a b Hb). nia. Qed.

Lemma clamp_index_id n i : 0 ≤ i ≤ n → clamp_index n i = i.
Proof. intros. unfold clamp_index. destruct (i <? 0) eqn:E; lia. Qed.

Lemma slice_inside {A} (l : list A) a b :
  0 ≤ a ≤ len l → 0 ≤ b ≤ len l →
  slice l a b = take (Z.to_nat (b - a)) (drop (Z.to_nat a) l).
Proof. intros. unfold slice. by rewrite !clamp_index_id. Qed.

Lemma slice_to_inside {A} (l : list A) b :
  0 ≤ b ≤ len l → slice_to l b = take (Z.to_nat b) l.
Proof.
  intros. unfold slice_to. rewrite slice_inside; [|lia|done].
  rewrite drop_0. f_equal. lia.
Qed.

Lemma slice_from_inside {A} (l : list A) a :
  0 ≤ a ≤ len l → slice_from l a = drop (Z.to_nat a) l.
Proof.
  intros H. unfold slice_from. rewrite slice_inside; [|done|unfold len in *; lia].
  apply take_ge. rewrite length_drop. unfold len in *. lia.
Qed.

Lemma len_slice {A} (l : list A) a b :
  0 ≤ a ≤ b → b ≤ len l → len (slice l a b) = b - a.
Proof.
  intros. rewrite slice_inside by lia. unfold len in *.
  rewrite length_take, length_drop. lia.
Qed.

Lemma slice_app {A} (l : list A) a b c :
  0 ≤ a ≤ b → b ≤ c ≤ len l → slice l a b ++ slice l b c = slice l a c.
Proof.
  intros. rewrite !slice_inside by lia.
  replace (Z.to_nat (c - a)) with (Z.to_nat (b - a) + Z.to_nat (c - b))%nat by lia.
  rewrite <- take_take_drop. do 2 f_equal. rewrite drop_drop. f_equal. lia.
Qed.

Lemma slice_nil {A} (l : list A) a b : 0 ≤ b ≤ a → a ≤ len l → slice l a b = [].
Proof.
  intros. rewrite slice_inside by lia. by replace (Z.to_nat (b - a)) with 0%nat by lia.
Qed.

Lemma py_index_inside {A} (l : list A) i : 0 ≤ i < len l → py_index l i = l !! Z.to_nat i.
Proof.
  intros. unfold py_index. replace (i <? 0) with false by lia.
  by replace ((i <? 0) || (len l <=? i)) with false by lia.
Qed.
Lemma py_index_neg {A} (l : list A) i :
  1 ≤ i ≤ len l → py_index l (- i) = l !! Z.to_nat (len l - i).
Proof.
  intros. unfold py_index. replace (- i <? 0) with true by lia.
  replace ((len l + - i <? 0) || (len l <=? len l + - i)) with false by lia.
  f_equal.
Qed.

Lemma np_store_inside l i x :
  0 ≤ i < len l → int64 x = true → np_store l i x = Ok (list_set l i x).
Proof.
  intros ? Hx. unfold np_store. replace (i <? 0) with false by lia.
  replace ((i <? 0) || (len l <=? i)) with false by lia. by rewrite Hx.
Qed.

Lemma slice_list_set_outside {A} (l : list A) i x a b :
  0 ≤ a ≤ b → b ≤ len l → 0 ≤ i < a ∨ b ≤ i →
  slice (list_set l i x) a b = slice l a b.
Proof.
  intros. rewrite !slice_inside by (rewrite ?len_list_set; lia). unfold list_set.
  apply list_eq. intros k. destruct (decide (k < Z.to_nat (b - a))%nat).
  - rewrite !lookup_take_lt, !lookup_drop by done. rewrite list_lookup_insert_ne; [done|lia].
  - by rewrite !lookup_take_ge by lia.
Qed.

Lemma elem_of_zrange a b i : i ∈ zrange a b ↔ a ≤ i < b.
Proof.
  unfold zrange. rewrite list_elem_of_fmap. split.
  - intros (j & -> & Hj%elem_of_seq). lia.
  - intros. exists (Z.to_nat (i - a)). split; [lia|]. apply elem_of_seq. lia.
Qed.
Lemma NoDup_zrange a b : NoDup (zrange a b).
Proof. apply NoDup_fmap_2; [intros ???; lia | apply NoDup_seq]. Qed.
Lemma len_zrange a b : a ≤ b → len (zrange a b) = b - a.
Proof. intros. unfold len, zrange. rewrite length_fmap, length_seq. lia. Qed.
Lemma zrange_cons a b : a < b → zrange a b = a :: zrange (a + 1) b.
Proof.
  intros. unfold zrange. replace (Z.to_nat (b - a)) with (S (Z.to_nat (b - (a + 1)))) by lia.
  cbn [seq]. rewrite fmap_cons. f_equal; [lia|].
  rewrite <- seq_shift, <- list_fmap_compose. apply list_fmap_ext. intros; simpl; lia.
Qed.
Lemma zrange_empty a b : b ≤ a → zrange a b = [].
Proof. intros. unfold zrange. by replace (Z.to_nat (b - a)) with 0%nat by lia. Qed.
Lemma zrange_app a b c : a ≤ b ≤ c → zrange a c = zrange a b ++ zrange b c.
Proof.
  intros Hab. unfold zrange. replace (Z.to_nat (c - a)) with (Z.to_nat (b - a) + Z.to_nat (c - b))%nat by lia.
  pose proof (fmap_add_seq (Z.to_nat (b - a)) 0 (Z.to_nat (c - b))) as E. rewrite Nat.add_0_r in E.
  rewrite seq_app, fmap_app, Nat.add_0_l, <- E. f_equal. rewrite <- list_fmap_compose. apply list_fmap_ext. intros j x _. simpl. lia.
Qed.

Lemma suffix_shorter {A} (s w l : list A) :
  s `suffix_of` l → w `suffix_of` l → (length s ≤ length w)%nat → s `suffix_of` w.
Proof.
  intros [k1 ->] [k2 E] Hle. exists (drop (length k2) k1).
  pose proof (f_equal (drop (length k2)) E) as E'. rewrite drop_app_length in E'.
  rewrite <- E'. pose proof (f_equal length E) as El. rewrite !length_app in El.
  by rewrite drop_app_le by lia.
Qed.

Lemma zsum_app l1 l2 : zsum (l1 ++ l2) = zsum l1 + zsum l2.
Proof. induction l1; simpl; [done|]. unfold zsum in *. simpl. lia. Qed.

Lemma filter_ext_in {A} (P Q : A → Prop) `{!∀ x, Decision (P x), !∀ x, Decision (Q x)} (l : list A) :
  (∀ x, x ∈ l → P x ↔ Q x) → filter P l = filter Q l.
Proof.
  induction l as [|x l IH]; intros Hext; [done|].
  rewrite !filter_cons, IH by (intros; apply Hext; by right).
  assert (P x ↔ Q x) by (apply Hext; left). repeat case_decide; tauto.
Qed.
