(* ===== verification/Tokens.v ===== *)
(** * Token buffers (max/pipelines/context/tokens.py)

    [Range] and [TokenBuffer]: the in-place token array of a request with its
    processing window, its streaming window and its chunking flag. *)

From S2P Require Import Prelude.

(** ** The half-open index range *)
Module Range.

Record t := mk { start : Z; end_ : Z }.

Definition init (start end_ : Z) : M unit t :=
  raise_if (start >? end_) ValueError;;
  raise_if (start <? 0) ValueError;;
  raise_if (end_ <? 0) ValueError;;
  ret (mk start end_).

(** [__len__] *)
Definition length (r : t) : Z := Z.max 0 (end_ r - start r).

Definition bump_start (amount : Z) : M t unit :=
  let! r := get in
  let new_start := start r + amount in
  raise_if (new_start <? 0) ValueError;;
  raise_if (new_start >? end_ r) ValueError;;
  modify (λ r, mk new_start (end_ r)).

Definition bump_end (amount : Z) : M t unit :=
  let! r := get in
  let new_end := end_ r + amount in
  raise_if (new_end <? 0) ValueError;;
  raise_if (new_end <? start r) ValueError;;
  modify (λ r, mk (start r) new_end).

Definition advance : M t unit := modify (λ r, mk (end_ r) (end_ r)).

End Range.

(** A numpy array as the constructor receives it. *)
Record ndarray := { ndim : Z; is_int64 : bool; data : list Z }.

(** numpy's uninitialised allocation: the length is all the code relies on. *)
Class NumPy := {
  np_empty : nat → list Z;
  length_np_empty n : length (np_empty n) = n
}.

(** An allocator that zero-fills, to run the model. *)
#[export] Program Instance zeros_numpy : NumPy | 10 := {| np_empty n := repeat 0 n |}.
Next Obligation. intros. apply repeat_length. Qed.

(** ** The token buffer *)
Module TokenBuffer.

Record t := mk {
  array : list Z;
  _processing_range : Range.t;
  _processing_offset : Z;
  _completion_range : Range.t;
  _prompt_length : Z;
  _current_length : Z;
  _actively_chunked : bool
}.

Definition set_array (a : list Z) (b : t) : t :=
  mk a (_processing_range b) (_processing_offset b) (_completion_range b)
     (_prompt_length b) (_current_length b) (_actively_chunked b).
Definition set_processing (r : Range.t) (b : t) : t :=
  mk (array b) r (_processing_offset b) (_completion_range b)
     (_prompt_length b) (_current_length b) (_actively_chunked b).
Definition set_offset (o : Z) (b : t) : t :=
  mk (array b) (_processing_range b) o (_completion_range b)
     (_prompt_length b) (_current_length b) (_actively_chunked b).
Definition set_completion (r : Range.t) (b : t) : t :=
  mk (array b) (_processing_range b) (_processing_offset b) r
     (_prompt_length b) (_current_length b) (_actively_chunked b).
Definition set_prompt_length (n : Z) (b : t) : t :=
  mk (array b) (_processing_range b) (_processing_offset b) (_completion_range b)
     n (_current_length b) (_actively_chunked b).
Definition set_current_length (n : Z) (b : t) : t :=
  mk (array b) (_processing_range b) (_processing_offset b) (_completion_range b)
     (_prompt_length b) n (_actively_chunked b).
Definition set_chunked (c : bool) (b : t) : t :=
  mk (array b) (_processing_range b) (_processing_offset b) (_completion_range b)
     (_prompt_length b) (_current_length b) c.

Definition on_processing {A} (m : M Range.t A) : M t A :=
  zoom _processing_range set_processing m.
Definition on_completion {A} (m : M Range.t A) : M t A :=
  zoom _completion_range set_completion m.

Definition init (a : ndarray) : M unit t :=
  raise_if (negb (ndim a =? 1)) ValueError;;
  raise_if (negb (is_int64 a)) ValueError;;
  let n := len (data a) in
  raise_if (n =? 0) ValueError;;
  let! pr := Range.init 0 n in
  let! cr := Range.init n n in
  ret (mk (data a) pr 0 cr n n false).

(** Token access *)
Definition all (b : t) : list Z := slice_to (array b) (_current_length b).
Definition prompt (b : t) : list Z := slice_to (array b) (_prompt_length b).
Definition generated (b : t) : list Z :=
  slice (array b) (_prompt_length b) (_current_length b).
Definition active (b : t) : list Z :=
  slice (array b) (Range.start (_processing_range b) + _processing_offset b)
        (Range.end_ (_processing_range b)).

(** [__getitem__] at an integer index *)
Definition getitem (index : Z) : M t Z :=
  let! b := get in
  let key := if index <? 0 then _current_length b + index else index in
  raise_if ((key <? 0) || (key >=? _current_length b)) IndexError;;
  of_option IndexError (py_index (array b) key).

(** [__getitem__] at a slice *)
Definition getslice (b : t) (lo hi : Z) : list Z := slice (all b) lo hi.

(** Lengths; [length] is [__len__] *)
Definition length (b : t) : Z := len (all b).
Definition prompt_length (b : t) : Z := _prompt_length b.
Definition processed_length (b : t) : Z := Range.start (_processing_range b).
Definition generated_length (b : t) : Z := _current_length b - _prompt_length b.
Definition active_length (b : t) : Z :=
  Range.length (_processing_range b) - _processing_offset b.
Definition current_position (b : t) : Z := processed_length b + active_length b.
Definition actively_chunked (b : t) : bool := _actively_chunked b.

Definition apply_processing_offset (value : Z) : M t unit :=
  let! b := get in
  let new_start := Range.start (_processing_range b) + value in
  raise_if (new_start <? 0) ValueError;;
  raise_if (new_start >? Range.end_ (_processing_range b)) ValueError;;
  modify (set_offset value).

Definition rewind_processing (n : Z) : M t unit :=
  raise_if (n <? 0) ValueError;;
  on_processing (Range.bump_start (- n)).

Definition skip_processing (n : Z) : M t unit :=
  raise_if (n <? 0) ValueError;;
  let! b := get in
  raise_if (n >=? active_length b) ValueError;;
  on_processing (Range.bump_start n).

Definition chunk (chunk_size : Z) : M t unit :=
  let! b := get in
  raise_if ((chunk_size <=? 0) || (chunk_size >=? active_length b)) ValueError;;
  on_processing (Range.bump_end (chunk_size - active_length b));;
  modify (set_chunked true).

Definition advance_chunk : M t unit :=
  let! b := get in
  raise_if (negb (actively_chunked b)) ValueError;;
  when (negb (_processing_offset b =? 0)) (apply_processing_offset 0);;
  on_processing Range.advance;;
  modify (λ b, set_processing
    (Range.mk (Range.start (_processing_range b)) (_current_length b)) b);;
  modify (set_chunked false).

(** [while new_size <= target: new_size *= 2] *)
Fixpoint double_until (fuel : nat) (new_size target : Z) : option Z :=
  if new_size <=? target then
    match fuel with
    | O => None
    | S fuel' => double_until fuel' (new_size * 2) target
    end
  else Some new_size.

Section Growth.
Context `{NumPy}.

Definition _expand_capacity (min_capacity : option Z) : M t unit :=
  let! b := get in
  let target := default (_current_length b) min_capacity in
  when (target >=? len (array b))
    (let! new_size := of_option OutOfFuel
        (double_until (S (Z.to_nat target)) (len (array b)) target) in
     let new_array := np_empty (Z.to_nat new_size) in
     modify (set_array (slice_to (array b) (_current_length b)
                          ++ slice_from new_array (_current_length b)))).

Definition advance_with_token (token : Z) : M t unit :=
  let! b := get in
  raise_if (actively_chunked b) ValueError;;
  on_processing Range.advance;;
  on_processing (Range.bump_end 1);;
  on_completion (Range.bump_end 1);;
  _expand_capacity None;;
  let! b := get in
  let! a := of_outcome (np_store (array b) (_current_length b) token) in
  modify (set_array a);;
  modify (λ b, set_current_length (_current_length b + 1) b);;
  let! b := get in
  when (negb (_processing_offset b =? 0)) (apply_processing_offset 0).

End Growth.

Definition overwrite_token_at_offset_from_end (offset_from_end token : Z) : M t unit :=
  let! b := get in
  raise_if ((offset_from_end <? 1) || (offset_from_end >? _current_length b)) ValueError;;
  let! a := of_outcome (np_store (array b) (_current_length b - offset_from_end) token) in
  modify (set_array a).

Definition overwrite_last_token (token : Z) : M t unit :=
  overwrite_token_at_offset_from_end 1 token.

Definition has_outstanding_generated_tokens (b : t) : bool :=
  Range.length (_completion_range b) >? 0.

Definition consume_recently_generated_tokens (num_trailing_to_exclude : Z) : M t (list Z) :=
  let! b := get in
  let cr := _completion_range b in
  raise_if (Range.start cr =? Range.end_ cr) ValueError;;
  raise_if (Range.end_ cr >? _current_length b) ValueError;;
  let consume_end := Range.end_ cr - num_trailing_to_exclude in
  raise_if (consume_end <? Range.start cr) ValueError;;
  let generated_tokens := slice (array b) (Range.start cr) consume_end in
  let amount := consume_end - Range.start cr in
  on_completion (Range.bump_start amount);;
  ret generated_tokens.

Definition reset_as_new_prompt (num_trailing_tokens_to_delete : Z) : M t unit :=
  let! b := get in
  raise_if (Range.end_ (_processing_range b) >? _current_length b) ValueError;;
  when (negb (num_trailing_tokens_to_delete =? 0))
    (raise_if (num_trailing_tokens_to_delete >? generated_length b) ValueError;;
     modify (λ b, set_current_length
       (_current_length b - num_trailing_tokens_to_delete) b));;
  let! b := get in
  let n := _current_length b in
  let! pr := of_outcome (Range.init 0 n tt).1 in
  modify (set_processing pr);;
  let! cr := of_outcome (Range.init n n tt).1 in
  modify (set_completion cr);;
  modify (set_prompt_length n);;
  modify (set_chunked false).

(** ** Well-formed buffers *)

Record wf (b : t) : Prop := {
  wf_prompt : 0 < _prompt_length b;
  wf_current : _prompt_length b ≤ _current_length b;
  wf_array : _current_length b ≤ len (array b);
  wf_pstart : 0 ≤ Range.start (_processing_range b);
  wf_offset : 0 ≤ _processing_offset b;
  wf_window : Range.start (_processing_range b) + _processing_offset b
              ≤ Range.end_ (_processing_range b);
  wf_pend : Range.end_ (_processing_range b) ≤ _current_length b;
  wf_unchunked : _actively_chunked b = false →
                 Range.end_ (_processing_range b) = _current_length b;
  wf_cstart : _prompt_length b ≤ Range.start (_completion_range b);
  wf_crange : Range.start (_completion_range b) ≤ Range.end_ (_completion_range b);
  wf_cend : Range.end_ (_completion_range b) = _current_length b
}.

(** The calls a client can make. *)
Inductive op :=
| AdvanceWithToken (token : Z)
| AdvanceChunk
| Chunk (n : Z)
| Skip (n : Z)
| Rewind (n : Z)
| Overwrite (offset_from_end token : Z)
| Consume (num_trailing_to_exclude : Z)
| Reset (num_trailing_tokens_to_delete : Z)
| ApplyOffset (value : Z).

Definition exec `{NumPy} (o : op) : M t (list Z) :=
  match o with
  | AdvanceWithToken x => advance_with_token x;; ret []
  | AdvanceChunk => advance_chunk;; ret []
  | Chunk n => chunk n;; ret []
  | Skip n => skip_processing n;; ret []
  | Rewind n => rewind_processing n;; ret []
  | Overwrite k x => overwrite_token_at_offset_from_end k x;; ret []
  | Consume n => consume_recently_generated_tokens n
  | Reset n => reset_as_new_prompt n;; ret []
  | ApplyOffset v => apply_processing_offset v;; ret []
  end.

(** What a caller must respect: tokens fit int64, offsets are not negative,
    and no processing offset is pending at a reset. *)
Definition op_ok (o : op) (b : t) : Prop :=
  match o with
  | AdvanceWithToken x => int64 x = true
  | Reset n => 0 ≤ n ∧ _processing_offset b = 0
  | ApplyOffset v => 0 ≤ v
  | _ => True
  end.

(** ** What each operation does, branch by branch *)

Ltac open_buffer b :=
  destruct b as [arr [ps pe] off [cs ce] pl cl ch];
  repeat match goal with H : wf _ |- _ => destruct H; simpl in * end;
  unfold current_position, processed_length, active_length, generated_length,
    actively_chunked, Range.length in *; simpl in *.

Ltac run_buffer :=
  unfold rewind_processing, skip_processing, chunk, advance_chunk,
    apply_processing_offset, on_processing, on_completion,
    Range.bump_start, Range.bump_end, Range.advance, set_processing, set_offset,
    set_completion, set_chunked, set_current_length, set_prompt_length, set_array,
    processed_length, active_length, generated_length, actively_chunked, Range.length;
  run.

Ltac split_if :=
  match goal with |- context [if ?c then _ else _] => destruct c eqn:? end.

Lemma rewind_run n b :
  wf b →
  rewind_processing n b =
    if (0 <=? n) && (n <=? processed_length b)
    then (Ok tt, set_processing (Range.mk (processed_length b - n)
                                          (Range.end_ (_processing_range b))) b)
    else (Raise ValueError, b).
Proof.
  intros Hwf. open_buffer b. split_if.
  - run_buffer. do 3 f_equal; lia.
  - destruct (n <? 0) eqn:?; run_buffer; done.
Qed.

Lemma skip_run n b :
  wf b →
  skip_processing n b =
    if (0 <=? n) && (n <? active_length b)
    then (Ok tt, set_processing (Range.mk (processed_length b + n)
                                          (Range.end_ (_processing_range b))) b)
    else (Raise ValueError, b).
Proof.
  intros Hwf. open_buffer b. split_if.
  - run_buffer. done.
  - destruct (n <? 0) eqn:?; run_buffer; done.
Qed.

Lemma chunk_run n b :
  wf b →
  chunk n b =
    if (0 <? n) && (n <? active_length b)
    then (Ok tt, set_chunked true (set_processing
            (Range.mk (processed_length b)
                      (processed_length b + _processing_offset b + n)) b))
    else (Raise ValueError, b).
Proof.
  intros Hwf. open_buffer b. split_if; run_buffer; [|done].
  do 3 f_equal; lia.
Qed.

Lemma apply_offset_run v b :
  wf b →
  apply_processing_offset v b =
    if (0 <=? processed_length b + v)
       && (processed_length b + v <=? Range.end_ (_processing_range b))
    then (Ok tt, set_offset v b) else (Raise ValueError, b).
Proof.
  intros Hwf. open_buffer b. split_if; [by run_buffer|].
  destruct (ps + v <? 0) eqn:?; run_buffer; done.
Qed.

Lemma advance_chunk_run b :
  wf b →
  advance_chunk b =
    if _actively_chunked b
    then (Ok tt, set_chunked false (set_offset 0 (set_processing
            (Range.mk (Range.end_ (_processing_range b)) (_current_length b)) b)))
    else (Raise ValueError, b).
Proof.
  intros Hwf. open_buffer b. destruct ch; [|by run_buffer].
  destruct (off =? 0) eqn:?; run_buffer; [|done].
  by replace off with 0 by lia.
Qed.

Lemma overwrite_run k x b :
  wf b →
  overwrite_token_at_offset_from_end k x b =
    if (k <? 1) || (k >? _current_length b) then (Raise ValueError, b)
    else if int64 x
    then (Ok tt, set_array (list_set (array b) (_current_length b - k) x) b)
    else (Raise OverflowError, b).
Proof.
  intros Hwf. unfold overwrite_token_at_offset_from_end. open_buffer b. split_if; [by run|].
  assert (0 ≤ cl - k < len arr) by lia.
  destruct (int64 x) eqn:Hx.
  - run. by rewrite np_store_inside.
  - run. unfold np_store. rewrite Hx. by run.
Qed.

Lemma consume_run n b :
  wf b →
  consume_recently_generated_tokens n b =
    let cs := Range.start (_completion_range b) in
    let ce := _current_length b in
    if (cs =? ce) || (ce - n <? cs) || (n <? 0) then (Raise ValueError, b)
    else (Ok (slice (array b) cs (ce - n)),
          set_completion (Range.mk (ce - n) ce) b).
Proof.
  intros Hwf. unfold consume_recently_generated_tokens, on_completion, Range.bump_start.
  open_buffer b. subst ce. cbv zeta.
  destruct (cs =? cl) eqn:?; [by run|]. destruct (cl - n <? cs) eqn:?; [by run|].
  destruct (n <? 0) eqn:?; simpl; [by run|]. run.
  unfold set_completion; simpl. do 3 f_equal; lia.
Qed.

Lemma reset_run n b :
  wf b → 0 ≤ n →
  reset_as_new_prompt n b =
    let m := _current_length b - n in
    if n >? generated_length b then (Raise ValueError, b)
    else (Ok tt, mk (array b) (Range.mk 0 m) (_processing_offset b) (Range.mk m m)
                    m m false).
Proof.
  intros Hwf Hn. unfold reset_as_new_prompt, Range.init. open_buffer b. cbv zeta.
  destruct (n >? cl - pl) eqn:?; [by run|].
  destruct (n =? 0) eqn:?; run; [|done].
  replace (cl - n) with cl by lia. done.
Qed.

(** *** Growing the backing array *)

Lemma double_until_done fuel size target :
  target < size → double_until fuel size target = Some size.
Proof. intros. destruct fuel; simpl; by replace (size <=? target) with false by lia. Qed.

Lemma double_until_enough fuel size target :
  0 < size → target + 1 - size ≤ Z.of_nat fuel →
  ∃ k r, double_until fuel size target = Some r ∧ r = size * 2 ^ k ∧ 0 ≤ k
       ∧ target < r ∧ (size ≤ target → r ≤ 2 * target).
Proof.
  revert size. induction fuel as [|fuel IH]; intros size Hs Hf;
    (destruct (decide (target < size));
      [exists 0, size; rewrite double_until_done by done; split_and!; try done; lia|]); [lia|].
  simpl. replace (size <=? target) with true by lia.
  destruct (decide (target < size * 2)).
  - exists 1, (size * 2). rewrite double_until_done by done. split_and!; try done; lia.
  - destruct (IH (size * 2)) as (k & r & -> & -> & ? & ? & Hle); [lia..|].
    exists (k + 1), (size * 2 * 2 ^ k). rewrite Z.pow_add_r by lia.
    split_and!; try done; try lia.
Qed.

#[local] Arguments double_until : simpl never.

Section Facts.
Context `{NumPy}.

Lemma expand_capacity_run b :
  0 < len (array b) → 0 ≤ _current_length b ≤ len (array b) →
  ∃ a', _expand_capacity None b = (Ok tt, set_array a' b) ∧
    _current_length b < len a' ∧
    take (Z.to_nat (_current_length b)) a' = take (Z.to_nat (_current_length b)) (array b) ∧
    len a' ≤ Z.max (len (array b)) (2 * _current_length b).
Proof.
  intros Hpos Hcl. unfold _expand_capacity. simpl.
  destruct (_current_length b >=? len (array b)) eqn:E.
  - set (cl := _current_length b) in *.
    destruct (double_until_enough (S (Z.to_nat cl)) (len (array b)) cl)
      as (k & r & Hr & _ & _ & Hlt & Hle); [lia..|].
    unfold bind, get, when, of_option. simpl. fold cl. rewrite E, Hr. unfold ret, modify.
    eexists. split; [done|].
    assert (Hn : len (np_empty (Z.to_nat r)) = r)
      by (unfold len; rewrite length_np_empty; lia).
    rewrite slice_to_inside, slice_from_inside by lia.
    unfold len in *. rewrite length_app, length_drop, length_take, length_np_empty in *.
    split_and!; [lia| |lia].
    rewrite take_app_le by (rewrite length_take; lia).
    by rewrite take_take, Nat.min_id.
  - exists (array b). split_and!; [|lia|done|lia].
    unfold bind, get, when. simpl. rewrite E. by destruct b.
Qed.

Lemma advance_with_token_run x b :
  wf b → int64 x = true →
  if _actively_chunked b
  then advance_with_token x b = (Raise ValueError, b)
  else ∃ a', advance_with_token x b =
        (Ok tt, mk a' (Range.mk (_current_length b) (_current_length b + 1)) 0
             (Range.mk (Range.start (_completion_range b)) (_current_length b + 1))
             (_prompt_length b) (_current_length b + 1) false)
      ∧ _current_length b < len a'
      ∧ take (Z.to_nat (_current_length b)) a'
        = take (Z.to_nat (_current_length b)) (array b)
      ∧ a' !! Z.to_nat (_current_length b) = Some x.
Proof.
  intros Hwf Hx. open_buffer b. destruct ch; [done|].
  assert (pe = cl) as -> by auto. subst ce.
  destruct (expand_capacity_run
    (mk arr (Range.mk cl (cl + 1)) off (Range.mk cs (cl + 1)) pl cl false))
    as (a' & Hrun & Hlen & Htake & _); simpl; [lia..|].
  exists (list_set a' cl x). simpl in *. split_and!.
  - unfold advance_with_token. run_buffer. rewrite Hrun. simpl.
    rewrite np_store_inside by (done || lia). unfold set_array; simpl.
    destruct (off =? 0) eqn:?; run; [|done]. by replace off with 0 by lia.
  - by rewrite len_list_set.
  - rewrite <- Htake. unfold list_set. by rewrite take_insert_ge by lia.
  - unfold list_set. apply list_lookup_insert_eq. unfold len in *. lia.
Qed.

(** The grown array does not depend on the token stored. *)
Lemma advance_with_token_uniform b :
  wf b → _actively_chunked b = false →
  ∃ a', _current_length b < len a' ∧ ∀ x, int64 x = true →
    advance_with_token x b =
      (Ok tt, mk (list_set a' (_current_length b) x)
             (Range.mk (_current_length b) (_current_length b + 1)) 0
             (Range.mk (Range.start (_completion_range b)) (_current_length b + 1))
             (_prompt_length b) (_current_length b + 1) false).
Proof.
  intros Hwf Hch. open_buffer b. subst ch.
  assert (pe = cl) as -> by auto. subst ce.
  destruct (expand_capacity_run
    (mk arr (Range.mk cl (cl + 1)) off (Range.mk cs (cl + 1)) pl cl false))
    as (a' & Hrun & Hlen & Htake & _); simpl; [lia..|].
  exists a'. simpl in *. split; [done|]. intros x Hx.
  unfold advance_with_token. run_buffer. rewrite Hrun. simpl.
  rewrite np_store_inside by (done || lia). unfold set_array; simpl.
  destruct (off =? 0) eqn:?; run; [|done]. by replace off with 0 by lia.
Qed.

(** *** Well-formedness is an invariant *)

Lemma init_wf a b s : init a tt = (Ok b, s) → wf b ∧ all b = data a ∧ prompt b = data a.
Proof.
  unfold init, Range.init. set (n := len (data a)).
  assert (0 ≤ n) by apply len_nonneg. run_unfold.
  destruct (negb (ndim a =? 1)); [done|]. destruct (negb (is_int64 a)); [done|].
  destruct (n =? 0) eqn:?; [done|]. run. intros [= <- <-]. split.
  - constructor; simpl; lia || done.
  - unfold all, prompt; simpl. rewrite slice_to_inside by (subst n; lia).
    rewrite take_ge; [done|]. subst n; unfold len; lia.
Qed.

Lemma exec_wf o b : wf b → op_ok o b → wf (exec o b).2.
Proof.
  intros Hwf Hok. destruct o as [x| |n|n|n|k x|n|n|v]; unfold exec.
  1: { pose proof (advance_with_token_run x b Hwf Hok) as Hrun.
       destruct (_actively_chunked b); unfold bind; [by rewrite Hrun|].
       destruct Hrun as (a' & -> & ? & _ & _). destruct Hwf. constructor; simpl; lia. }
  all: unfold bind;
    rewrite ?advance_chunk_run, ?chunk_run, ?skip_run, ?rewind_run, ?overwrite_run,
      ?consume_run, ?apply_offset_run by done;
    rewrite ?reset_run by (done || apply Hok); cbv zeta;
    repeat split_if; try done; open_buffer b; simpl in *; destruct_and?;
    constructor; simpl; rewrite ?len_list_set; try done; try lia; auto with lia.
Qed.

(** *** The views of a well-formed buffer *)

Lemma all_take b : wf b → all b = take (Z.to_nat (_current_length b)) (array b).
Proof. intros []. unfold all. apply slice_to_inside. lia. Qed.

Lemma length_all b : wf b → length b = _current_length b.
Proof.
  intros Hwf. unfold length. rewrite all_take by done. destruct Hwf.
  unfold len in *. rewrite length_take. lia.
Qed.

Lemma all_prompt_generated b : wf b → all b = prompt b ++ generated b.
Proof.
  intros []. unfold all, prompt, generated, slice_to. by rewrite slice_app by lia.
Qed.

Lemma slice_take {A} (l : list A) n a b :
  0 ≤ a ≤ b → b ≤ n ≤ len l → slice l a b = slice (take (Z.to_nat n) l) a b.
Proof.
  intros. assert (len (take (Z.to_nat n) l) = n)
    by (unfold len in *; rewrite length_take; lia).
  rewrite !slice_inside by lia.
  rewrite skipn_firstn_comm, take_take. f_equal. lia.
Qed.

Lemma slice_all b lo hi :
  wf b → 0 ≤ lo ≤ hi → hi ≤ _current_length b → slice (array b) lo hi = slice (all b) lo hi.
Proof.
  intros Hwf ??. rewrite all_take by done. destruct Hwf. apply slice_take; lia.
Qed.

Lemma slice_snoc {A} (l : list A) x lo hi :
  0 ≤ lo ≤ hi → hi ≤ len l → slice (l ++ [x]) lo hi = slice l lo hi.
Proof.
  intros. assert (l = take (Z.to_nat (len l)) (l ++ [x])) as E.
  { rewrite take_app_le by (unfold len; lia). rewrite take_ge; [done|unfold len; lia]. }
  rewrite E at 2. apply slice_take; [lia|]. rewrite len_app. pose proof (len_nonneg [x]). lia.
Qed.

Lemma slice_snoc_end {A} (l : list A) x lo :
  0 ≤ lo ≤ len l → slice (l ++ [x]) lo (len l + 1) = slice l lo (len l) ++ [x].
Proof.
  intros. rewrite <- (slice_app _ lo (len l)) by (rewrite ?len_app, ?len_singleton; lia).
  rewrite slice_snoc by lia. f_equal.
  rewrite slice_inside by (rewrite ?len_app, ?len_singleton; lia).
  replace (len l + 1 - len l) with 1 by lia. unfold len.
  by rewrite Nat2Z.id, drop_app_length.
Qed.

Lemma advance_all x b b' :
  wf b → int64 x = true → advance_with_token x b = (Ok tt, b') →
  all b' = all b ++ [x] ∧ _current_length b' = _current_length b + 1 ∧
  _prompt_length b' = _prompt_length b ∧
  Range.start (_completion_range b') = Range.start (_completion_range b) ∧
  Range.start (_processing_range b') = _current_length b ∧
  _processing_offset b' = 0 ∧ _actively_chunked b = false ∧ _actively_chunked b' = false.
Proof.
  intros Hwf Hx Hrun. pose proof (advance_with_token_run x b Hwf Hx) as H'.
  destruct (_actively_chunked b) eqn:Hch; [by rewrite H' in Hrun|].
  destruct H' as (a' & H' & Hlen & Htake & Hget). rewrite H' in Hrun.
  injection Hrun as <-. simpl. split_and!; try done.
  rewrite (all_take b) by done. unfold all; simpl. destruct Hwf.
  rewrite slice_to_inside by lia.
  replace (Z.to_nat (_current_length b + 1)) with (S (Z.to_nat (_current_length b))) by lia.
  rewrite (take_S_r _ _ x) by done. by rewrite Htake.
Qed.

End Facts.

Lemma generated_drop b : wf b → generated b = drop (Z.to_nat (_prompt_length b)) (all b).
Proof.
  intros Hwf. rewrite all_prompt_generated by done. unfold prompt. destruct Hwf.
  rewrite slice_to_inside by lia. symmetry. apply drop_app_length'.
  rewrite length_take. unfold len in *. lia.
Qed.

Lemma len_generated b : wf b → len (generated b) = _current_length b - _prompt_length b.
Proof.
  intros Hwf. rewrite generated_drop by done. pose proof (length_all b Hwf) as Hl.
  unfold length, len in *. rewrite length_drop. destruct Hwf. lia.
Qed.

Lemma advance_generated `{NumPy} x b b' :
  wf b → int64 x = true → advance_with_token x b = (Ok tt, b') →
  generated b' = generated b ++ [x].
Proof.
  intros Hwf Hx E. pose proof (exec_wf (AdvanceWithToken x) b Hwf Hx) as Hwf'.
  unfold exec, bind in Hwf'. rewrite E in Hwf'. simpl in Hwf'.
  destruct (advance_all x b b' Hwf Hx E) as (Ha & Hc & Hp & _).
  rewrite !generated_drop, Ha, Hp by done. apply drop_app_le.
  pose proof (length_all b Hwf) as Hl. unfold length, len in Hl. destruct Hwf. lia.
Qed.

(** Overwriting [k] from the end of a generated suffix of length at least [k]. *)
Lemma overwrite_generated k x b l1 y l2 :
  wf b → int64 x = true → generated b = l1 ++ y :: l2 → k = len l2 + 1 →
  ∃ b', overwrite_token_at_offset_from_end k x b = (Ok tt, b') ∧ wf b' ∧
    generated b' = l1 ++ x :: l2 ∧ prompt b' = prompt b ∧
    _processing_range b' = _processing_range b ∧ _processing_offset b' = _processing_offset b ∧
    _completion_range b' = _completion_range b ∧ _prompt_length b' = _prompt_length b ∧
    _current_length b' = _current_length b ∧ _actively_chunked b' = _actively_chunked b.
Proof.
  intros Hwf Hx Hg Hk. pose proof (len_generated b Hwf) as Hl. pose proof (len_nonneg l1).
  pose proof (len_nonneg l2). rewrite Hg, len_app, len_cons in Hl.
  pose proof (exec_wf (Overwrite k x) b Hwf I) as Hwf'.
  pose proof (overwrite_run k x b Hwf) as Hrun. rewrite Hx in Hrun.
  replace ((k <? 1) || (k >? _current_length b)) with false in Hrun by (destruct Hwf; lia).
  unfold exec, bind in Hwf'. rewrite Hrun in Hwf'. simpl in Hwf'.
  eexists. split; [exact Hrun|]. split; [done|]. split_and!; try done.
  - rewrite generated_drop, all_take by done. simpl.
    rewrite generated_drop, all_take in Hg by done. destruct Hwf.
    unfold list_set, len in *. rewrite take_insert_lt by lia.
    rewrite drop_insert_ge by lia. rewrite Hg.
    replace (_ - _)%nat with (Datatypes.length l1) by lia.
    by rewrite insert_app_r_alt, Nat.sub_diag by lia.
  - unfold prompt. simpl. destruct Hwf. unfold list_set.
    rewrite !slice_to_inside by (rewrite ?len_list_set; unfold len in *; rewrite ?length_insert; lia).
    apply take_insert_ge. lia.
Qed.

Lemma consume_generated n b :
  wf b → 0 ≤ n →
  Range.start (_completion_range b) < _current_length b →
  Range.start (_completion_range b) ≤ _current_length b - n →
  ∃ b', consume_recently_generated_tokens n b =
      (Ok (slice (generated b) (Range.start (_completion_range b) - _prompt_length b)
             (_current_length b - n - _prompt_length b)), b') ∧ wf b' ∧
    b' = set_completion (Range.mk (_current_length b - n) (_current_length b)) b.
Proof.
  intros Hwf Hn H1 H2. rewrite consume_run by done. cbv zeta.
  replace (_ || _) with false by (destruct Hwf; lia).
  pose proof (exec_wf (Consume n) b Hwf I) as Hwf'. unfold exec in Hwf'.
  rewrite consume_run in Hwf' by done. cbv zeta in Hwf'.
  replace (_ || _) with false in Hwf' by (destruct Hwf; lia).
  eexists. split; [|split; [exact Hwf'|done]]. do 2 f_equal.
  pose proof (len_generated b Hwf) as Hl. destruct Hwf.
  rewrite (slice_inside (generated b)) by lia. unfold generated.
  rewrite !slice_inside by lia. rewrite skipn_firstn_comm, take_take, drop_drop. f_equal; [lia|].
  f_equal. lia.
Qed.

(** The tokens already handed to the client, and those not yet. *)
Definition streamed (b : t) : list Z :=
  slice (array b) (_prompt_length b) (Range.start (_completion_range b)).
Definition unstreamed (b : t) : list Z :=
  slice (array b) (Range.start (_completion_range b)) (_current_length b).

(** Calls that may run while a client streams: everything but a reset, and
    overwrites only of tokens that were not handed out. *)
Definition stream_ok (o : op) (b : t) : Prop :=
  op_ok o b ∧
  match o with
  | Reset _ => False
  | Overwrite k x => k ≤ _current_length b - Range.start (_completion_range b)
  | _ => True
  end.

Section Streaming.
Context `{NumPy}.

(** Run a sequence of calls, collecting everything [consume] returned. *)
Fixpoint run_ops (os : list op) (b : t) : list Z * t :=
  match os with
  | [] => ([], b)
  | o :: os' =>
      let '(r, b1) := exec o b in
      let '(outs, b2) := run_ops os' b1 in
      (match r with Ok l => l | Raise _ => [] end ++ outs, b2)
  end.

Fixpoint trace_ok (P : op → t → Prop) (os : list op) (b : t) : Prop :=
  match os with
  | [] => True
  | o :: os' => P o b ∧ trace_ok P os' (exec o b).2
  end.

Lemma run_ops_wf os b : wf b → trace_ok op_ok os b → wf (run_ops os b).2.
Proof.
  revert b. induction os as [|o os IH]; intros b Hwf Hok; simpl; [done|].
  destruct Hok as [Ho Hok]. pose proof (exec_wf o b Hwf Ho) as Hwf'.
  destruct (exec o b) as [r b1]. specialize (IH b1 Hwf' Hok).
  by destruct (run_ops os b1).
Qed.

Lemma exec_streamed o b :
  wf b → stream_ok o b →
  _prompt_length (exec o b).2 = _prompt_length b ∧
  streamed (exec o b).2
  = streamed b ++ match (exec o b).1 with Ok l => l | Raise _ => [] end.
Proof.
  intros Hwf [Hok Hs]. destruct o as [x| |n|n|n|k x|n|n|v]; unfold exec; try done.
  1: { pose proof (advance_with_token_run x b Hwf Hok) as Hrun.
       destruct (advance_with_token x b) as [[[]|e] b'] eqn:E; unfold bind; rewrite E; simpl.
       - destruct (advance_all x b b' Hwf Hok E) as (Hall & Hcl & Hpl & Hcs & _).
         assert (wf b') as Hwf'.
         { pose proof (exec_wf (AdvanceWithToken x) b Hwf Hok) as W.
           unfold exec, bind in W. by rewrite E in W. }
         split; [done|]. rewrite app_nil_r. unfold streamed. rewrite Hpl, Hcs.
         pose proof (length_all b Hwf) as Hlen. unfold length in Hlen.
         destruct (Hwf) as []; destruct (Hwf') as [].
         rewrite (slice_all b'), (slice_all b), Hall, slice_snoc by (done || lia). done.
       - rewrite app_nil_r. destruct (_actively_chunked b); [by simplify_eq|].
         destruct Hrun as (? & ? & _). simplify_eq. }
  all: unfold bind;
    rewrite ?advance_chunk_run, ?chunk_run, ?skip_run, ?rewind_run, ?overwrite_run,
      ?consume_run, ?apply_offset_run by done; cbv zeta;
    repeat split_if; simpl; rewrite ?app_nil_r; try done; unfold streamed; simpl.
  - destruct Hwf. split; [done|]. apply slice_list_set_outside; lia.
  - destruct Hwf. split; [done|]. rewrite slice_app by lia. done.
Qed.

Lemma run_ops_streamed os b :
  wf b → trace_ok stream_ok os b →
  wf (run_ops os b).2 ∧ _prompt_length (run_ops os b).2 = _prompt_length b ∧
  streamed (run_ops os b).2 = streamed b ++ (run_ops os b).1.
Proof.
  revert b. induction os as [|o os IH]; intros b Hwf Hok; simpl; [by rewrite app_nil_r|].
  destruct Hok as [Ho Hok]. destruct (exec_streamed o b Hwf Ho) as [Hp Hs].
  pose proof (exec_wf o b Hwf (proj1 Ho)) as Hwf'.
  destruct (exec o b) as [r b1]; simpl in *. specialize (IH b1 Hwf' Hok).
  destruct (run_ops os b1) as [outs b2]; simpl in *. destruct IH as (? & ? & ->).
  rewrite Hs, <- app_assoc. split_and!; congruence || done.
Qed.

(** Chunked prefill: cut the pending window with the given chunk sizes,
    advancing after each cut, and collect the windows the model sees. *)
Fixpoint prefill (sizes : list Z) : M t (list (list Z)) :=
  match sizes with
  | [] => let! b := get in ret [active b]
  | n :: ns =>
      chunk n;;
      let! b := get in
      advance_chunk;;
      let! ws := prefill ns in
      ret (active b :: ws)
  end.

Lemma chunk_step n b :
  wf b → _actively_chunked b = false → 0 < n < active_length b →
  ∃ w b', chunk n b = (Ok tt, w) ∧ advance_chunk w = (Ok tt, b') ∧ wf b' ∧
    _actively_chunked b' = false ∧ active b = active w ++ active b' ∧
    len (active w) = n ∧ active_length b' = active_length b - n ∧ all b' = all b.
Proof.
  intros Hwf Hch Hn. pose proof (exec_wf (Chunk n) b Hwf I) as Hw.
  unfold exec, bind in Hw. rewrite chunk_run in * by done.
  replace ((0 <? n) && (n <? active_length b)) with true in * by lia. simpl in Hw.
  eexists _, _. split; [done|].
  pose proof (exec_wf AdvanceChunk _ Hw I) as Hb'. unfold exec, bind in Hb'.
  rewrite advance_chunk_run in * by done. simpl in *. split; [done|]. split; [done|].
  split; [done|]. open_buffer b. unfold active; simpl.
  assert (pe = cl) as -> by auto.
  split_and!; try done; try lia.
  - rewrite Z.add_0_r, slice_app by lia. done.
  - rewrite len_slice by lia. lia.
Qed.

Lemma prefill_run sizes b :
  wf b → _actively_chunked b = false → Forall (λ n, 0 < n) sizes →
  zsum sizes < active_length b →
  ∃ ws b', prefill sizes b = (Ok ws, b') ∧ concat ws = active b ∧
    len <$> ws = sizes ++ [active_length b - zsum sizes] ∧ all b' = all b.
Proof.
  revert b. induction sizes as [|n ns IH]; intros b Hwf Hch Hpos Hsum; simpl.
  - eexists _, b. split; [done|]. simpl. rewrite app_nil_r. split; [done|]. split; [|done].
    f_equal. open_buffer b. unfold active; simpl in *. rewrite len_slice by lia. lia.
  - apply Forall_cons in Hpos as [Hn Hpos]. unfold zsum in Hsum; simpl in Hsum.
    fold (zsum ns) in Hsum.
    assert (0 ≤ zsum ns) as H0.
    { clear -Hpos. induction Hpos; unfold zsum in *; simpl; lia. }
    destruct (chunk_step n b Hwf Hch) as (w & b1 & Hc & Ha & Hwf1 & Hch1 & Hact & Hlen & Hal & Hall);
      [lia|].
    destruct (IH b1 Hwf1 Hch1 Hpos) as (ws & b' & Hrun & Hcat & Hlens & Hall'); [lia|].
    exists (active w :: ws), b'.
    split; [unfold bind; rewrite Hc; simpl; by rewrite Ha, Hrun|]. rewrite fmap_cons, Hlens, Hlen. cbn [concat app].
    rewrite Hcat. split; [done|]. split; [|congruence].
    unfold zsum; simpl. fold (zsum ns). do 3 f_equal. lia.
Qed.

End Streaming.

End TokenBuffer.

(** ** Properties *)

Module TokenProperties.
Import TokenBuffer.

(** A five-token prompt, to run the model on. *)
Definition sample_array : ndarray :=
  {| ndim := 1; is_int64 := true; data := [11; 12; 13; 14; 15] |}.
Definition sample_buffer : t :=
  mk [11; 12; 13; 14; 15] (Range.mk 0 5) 0 (Range.mk 5 5) 5 5 false.

(** C40: whatever sequence of calls a client makes on a buffer built by the
    constructor (each within its contract), the buffer stays well formed, so its
    views agree: [all] is the prompt followed by the generated tokens, and
    [active_length] is the length of [active]. *)
Theorem token_buffer_reachable_wf `{NumPy} a b0 s os :
  init a tt = (Ok b0, s) → trace_ok op_ok os b0 →
  let b := (run_ops os b0).2 in
  wf b ∧ all b = prompt b ++ generated b ∧
  length b = prompt_length b + generated_length b ∧
  active_length b = len (active b) ∧ current_position b ≤ length b.
Proof.
  intros Hinit Hok b. destruct (init_wf _ _ _ Hinit) as [Hwf _].
  pose proof (run_ops_wf os b0 Hwf Hok) as Hb. fold b in Hb.
  split; [done|]. split; [by apply all_prompt_generated|].
  rewrite (length_all b Hb). clearbody b. open_buffer b. unfold prompt_length, active; simpl.
  rewrite len_slice by lia. lia.
Qed.

Lemma token_buffer_reachable_wf_witness :
  wf (run_ops [Chunk 2; AdvanceChunk; Skip 1; Reset 0; AdvanceWithToken 7; Consume 0]
        sample_buffer).2.
Proof.
  apply (token_buffer_reachable_wf sample_array sample_buffer tt).
  - vm_compute. reflexivity.
  - vm_compute. repeat split; discriminate.
Defined.

(** Chunked prefill is exact. Cutting the pending window with any positive
    chunk sizes that leave something over, and advancing after each cut, never
    raises; the windows the model is given are disjoint, have exactly the
    requested sizes, and concatenate to the window before the first cut, and the
    stored tokens do not change. *)
Theorem chunked_prefill_covers `{NumPy} sizes b :
  wf b → _actively_chunked b = false → Forall (λ n, 0 < n) sizes →
  zsum sizes < active_length b →
  ∃ ws b', prefill sizes b = (Ok ws, b') ∧ concat ws = active b ∧
    len <$> ws = sizes ++ [active_length b - zsum sizes] ∧ all b' = all b.
Proof. apply prefill_run. Qed.

Lemma chunked_prefill_covers_witness :
  ∃ ws b', prefill [2; 1] sample_buffer = (Ok ws, b') ∧ concat ws = active sample_buffer ∧
    len <$> ws = [2; 1] ++ [active_length sample_buffer - zsum [2; 1]]
    ∧ all b' = all sample_buffer.
Proof.
  apply (chunked_prefill_covers [2; 1] sample_buffer).
  - constructor; vm_compute; congruence.
  - reflexivity.
  - repeat constructor.
  - vm_compute. reflexivity.
Defined.

(** C30: streaming hands out every generated token exactly once and in order. From
    the constructor on, over any sequence of calls (resets apart, and overwrites
    only of tokens not handed out yet), what the [consume] calls returned,
    followed by what is still unconsumed, is the generated sequence. *)
Theorem streaming_exactly_once `{NumPy} a b0 s os :
  init a tt = (Ok b0, s) → trace_ok stream_ok os b0 →
  let '(outs, b) := run_ops os b0 in
  outs ++ unstreamed b = generated b.
Proof.
  intros Hinit Hok. destruct (init_wf _ _ _ Hinit) as [Hwf _].
  destruct (run_ops_streamed os b0 Hwf Hok) as (Hb & Hpl & Hs).
  destruct (run_ops os b0) as [outs b]; simpl in *.
  assert (streamed b0 = []) as E0.
  { unfold streamed. revert Hinit. unfold init, Range.init.
    pose proof (len_nonneg (data a)). run_unfold.
    destruct (negb (ndim a =? 1)); [done|]. destruct (negb (is_int64 a)); [done|].
    destruct (len (data a) =? 0) eqn:?; [done|]. run. intros [= <- <-]. simpl.
    apply slice_nil; lia. }
  rewrite E0 in Hs. simpl in Hs. subst outs. unfold streamed, unstreamed, generated.
  destruct Hb. apply slice_app; lia.
Qed.

Lemma streaming_exactly_once_witness :
  let '(outs, b) := run_ops [AdvanceWithToken 7; Consume 0; AdvanceWithToken (-999);
                             AdvanceWithToken 9; Consume 2; Overwrite 2 8; Consume 1]
                            sample_buffer in
  outs ++ unstreamed b = generated b.
Proof.
  apply (streaming_exactly_once sample_array sample_buffer tt).
  - vm_compute. reflexivity.
  - vm_compute. repeat split; try discriminate.
Defined.

(** Appending a token. A chunked buffer refuses and is unchanged; otherwise
    the token becomes the last one, the rest of the sequence is untouched
    whatever the reallocated array held, the window is exactly the new token,
    and a pending processing offset is cleared. *)
Theorem advance_with_token_appends `{NumPy} x b :
  wf b → int64 x = true →
  if _actively_chunked b then advance_with_token x b = (Raise ValueError, b)
  else ∃ b', advance_with_token x b = (Ok tt, b') ∧
    all b' = all b ++ [x] ∧ prompt b' = prompt b ∧ generated b' = generated b ++ [x] ∧
    active b' = [x] ∧ processed_length b' = length b ∧ unstreamed b' = unstreamed b ++ [x].
Proof.
  intros Hwf Hx. pose proof (advance_with_token_run x b Hwf Hx) as Hrun.
  destruct (_actively_chunked b) eqn:Hch; [done|].
  destruct Hrun as (a' & Hrun & _).
  pose proof (exec_wf (AdvanceWithToken x) b Hwf Hx) as Hwf'.
  unfold exec, bind in Hwf'. rewrite Hrun in Hwf'. simpl in Hwf'.
  eexists. split; [done|]. revert Hrun Hwf'. generalize (mk a' (Range.mk (_current_length b)
    (_current_length b + 1)) 0 (Range.mk (Range.start (_completion_range b))
    (_current_length b + 1)) (_prompt_length b) (_current_length b + 1) false).
  intros b' Hrun Hwf'.
  destruct (advance_all x b b' Hwf Hx Hrun) as (Hall & Hcl & Hpl & Hcs & Hps & Hoff & _ & Hch').
  pose proof (length_all b Hwf) as Hl. unfold length in Hl. pose proof (wf_unchunked b' Hwf' Hch').
  split; [done|]. unfold prompt, generated, active, unstreamed, slice_to, processed_length, length.
  rewrite !(slice_all b), !(slice_all b') by (done || (destruct Hwf, Hwf'; lia)).
  rewrite Hall, Hpl, Hcs, Hps, Hoff, H0, Hcl, <- Hl, Z.add_0_r.
  destruct Hwf. rewrite !slice_snoc_end, slice_snoc, (slice_nil _ (len (all b)) (len (all b))) by lia. done.
Qed.

Lemma advance_with_token_appends_witness :
  ∃ b', advance_with_token 7 sample_buffer = (Ok tt, b') ∧
    all b' = all sample_buffer ++ [7] ∧ prompt b' = prompt sample_buffer ∧
    generated b' = generated sample_buffer ++ [7] ∧ active b' = [7] ∧
    processed_length b' = length sample_buffer ∧
    unstreamed b' = unstreamed sample_buffer ++ [7].
Proof.
  apply (advance_with_token_appends 7 sample_buffer).
  - constructor; vm_compute; congruence.
  - reflexivity.
Defined.

(** A reset turns the sequence, less the deleted trailing tokens, into the
    prompt, with nothing generated, streamed or chunked. The whole prompt becomes
    active only when no processing offset was pending: the reset keeps a stale
    [_processing_offset]. *)
Theorem reset_as_new_prompt_spec n b :
  wf b → 0 ≤ n ≤ generated_length b →
  ∃ b', reset_as_new_prompt n b = (Ok tt, b') ∧
    all b' = slice_to (all b) (length b - n) ∧ prompt b' = all b' ∧ generated b' = [] ∧
    unstreamed b' = [] ∧ processed_length b' = 0 ∧ actively_chunked b' = false ∧
    (active b' = all b' ↔ _processing_offset b = 0).
Proof.
  intros Hwf Hn. pose proof (length_all b Hwf) as Hl. rewrite reset_run by (done || lia).
  cbv zeta. replace (n >? generated_length b) with false by lia. eexists. split; [done|].
  unfold generated_length in Hn. destruct (Hwf).
  unfold all, prompt, generated, unstreamed, active, processed_length, actively_chunked.
  cbn [array _prompt_length _current_length _completion_range _processing_range
       _processing_offset _actively_chunked Range.start Range.end_].
  rewrite Hl, Z.add_0_l. set (m := _current_length b - n).
  assert (0 < m ≤ _current_length b) as Hm by (subst m; lia).
  rewrite !slice_nil by lia. unfold slice_to.
  assert (len (slice (array b) 0 (_current_length b)) = _current_length b) as Hl'
    by (rewrite len_slice; lia).
  split_and!; try done.
  - rewrite (slice_inside _ 0 (_current_length b)) in * by lia.
    rewrite Z.sub_0_r, drop_0 in *. apply slice_take; lia.
  - split; [|by intros ->]. intros E. apply (f_equal len) in E.
    rewrite (len_slice _ 0 m) in E by lia.
    destruct (decide (_processing_offset b ≤ m)).
    + rewrite len_slice in E by lia. lia.
    + exfalso. unfold slice in E.
      rewrite (clamp_index_id _ m) in E by lia. unfold clamp_index in E.
      replace (_processing_offset b <? 0) with false in E by lia.
      replace (Z.to_nat _) with 0%nat in E by lia. simpl in E. unfold len in E at 1. simpl in E. lia.
Qed.

Lemma reset_as_new_prompt_spec_witness :
  ∃ b', reset_as_new_prompt 0 (set_offset 2 sample_buffer) = (Ok tt, b') ∧
    all b' = slice_to (all (set_offset 2 sample_buffer)) (length (set_offset 2 sample_buffer) - 0)
    ∧ prompt b' = all b' ∧ generated b' = [] ∧
    unstreamed b' = [] ∧ processed_length b' = 0 ∧ actively_chunked b' = false ∧
    (active b' = all b' ↔ 2 = 0).
Proof.
  apply (reset_as_new_prompt_spec 0 (set_offset 2 sample_buffer)).
  - constructor; vm_compute; congruence.
  - split; vm_compute; congruence.
Defined.

End TokenProperties.
