(* ===== verification/Eos.v ===== *)
(** * End-of-sequence tracking (max/pipelines/context/eos_tracking.py)

    Single-token, token-sequence and stop-string checks of [EOSTracker]. A Python
    [str] is the list of its code points. *)

From S2P Require Import Prelude.

Module EOSTracker.

Record t := mk {
  eos_token_ids : gset Z;
  eos_sequences : list (list Z);
  eos_stop_strings : list (list Z);
  _max_stop_length : Z;
  _max_eos_seq_len : Z;
  _continuation_tail : list Z
}.

(** [max((len(s) for s in l), default=d)] *)
Definition max_len (d : Z) (l : list (list Z)) : Z :=
  match l with
  | [] => d
  | s :: l' => foldl (λ m (s : list Z), Z.max m (len s)) (len s) l'
  end.

(** The model and its [model_post_init] hook. *)
Definition init (ids : gset Z) (seqs stops : list (list Z)) : t :=
  mk ids seqs stops (max_len 0 stops) (max_len 1 seqs) [].

Definition set_tail (s : list Z) (t : t) : EOSTracker.t :=
  mk (eos_token_ids t) (eos_sequences t) (eos_stop_strings t)
     (_max_stop_length t) (_max_eos_seq_len t) s.

(** The loop body over [eos_sequences] *)
Definition ends_with (generated_tokens eos : list Z) : bool :=
  if len generated_tokens <? len eos then false
  else bool_decide
    (slice_from generated_tokens (len generated_tokens - len eos) = eos).

Definition is_eos_from_tokens (t : t) (generated_tokens : list Z) : outcome bool :=
  if len generated_tokens =? 0 then Raise ValueError else
  match py_index generated_tokens (-1) with
  | None => Raise IndexError
  | Some last =>
      if bool_decide (last ∈ eos_token_ids t) then Ok true
      else Ok (existsb (ends_with generated_tokens) (eos_sequences t))
  end.

(** [for offset in range(...): if is_eos_from_tokens(...): return offset] *)
Fixpoint first_hit (test : Z → outcome bool) (offsets : list Z) : outcome (option Z) :=
  match offsets with
  | [] => Ok None
  | o :: os =>
      match test o with
      | Raise e => Raise e
      | Ok true => Ok (Some o)
      | Ok false => first_hit test os
      end
  end.

Definition first_eos_offset (t : t) (prior_generated new_tokens : list Z) : outcome (option Z) :=
  let keep := _max_eos_seq_len t - 1 in
  let tail :=
    if keep =? 0 then slice_to prior_generated 0
    else slice_from prior_generated (Z.max 0 (len prior_generated - keep)) in
  let span := tail ++ new_tokens in
  first_hit (λ offset, is_eos_from_tokens t (slice_to span (len tail + offset + 1)))
            (zrange 0 (len new_tokens)).

(** [s.find(sub)]: the lowest index at which [sub] occurs, or -1. *)
Fixpoint find_from (i : Z) (s sub : list Z) : Z :=
  if bool_decide (sub `prefix_of` s) then i
  else match s with
       | [] => -1
       | _ :: s' => find_from (i + 1) s' sub
       end.
Definition find (s sub : list Z) : Z := find_from 0 s sub.

(** The search loop over the stop strings: the earliest occurrence wins. *)
Fixpoint best_match (tail : list Z) (best_pos : Z) (best : option (list Z))
    (stops : list (list Z)) : option (list Z) :=
  match stops with
  | [] => best
  | s :: stops' =>
      let pos := find tail s in
      if (0 <=? pos) && (pos <? best_pos)
      then best_match tail pos (Some s) stops'
      else best_match tail best_pos best stops'
  end.

Definition is_eos_from_string (next_token_decoded : list Z) : M t (option (list Z)) :=
  let! t := get in
  if len (eos_stop_strings t) =? 0 then ret None else
  modify (λ t, set_tail (_continuation_tail t ++ next_token_decoded) t);;
  let! t := get in
  when (len (_continuation_tail t) >? 8 * _max_stop_length t)
    (modify (λ t, set_tail (slice_from (_continuation_tail t) (- _max_stop_length t)) t));;
  let! t := get in
  let tail := _continuation_tail t in
  ret (best_match tail (len tail) None (eos_stop_strings t)).

(** ** Token checks *)

Lemma ends_with_spec gen eos : ends_with gen eos = true ↔ eos `suffix_of` gen.
Proof.
  unfold ends_with. pose proof (len_nonneg eos). split.
  - destruct (len gen <? len eos) eqn:E; [done|]. intros Heq%bool_decide_eq_true.
    rewrite slice_from_inside in Heq by lia. exists (take (Z.to_nat (len gen - len eos)) gen).
    rewrite <- Heq at 2. by rewrite take_drop.
  - intros [k ->]. rewrite len_app. pose proof (len_nonneg k).
    replace (len k + len eos <? len eos) with false by lia.
    apply bool_decide_eq_true. rewrite slice_from_inside by (rewrite len_app; lia).
    replace (len k + len eos - len eos) with (len k) by lia. unfold len.
    by rewrite Nat2Z.id, drop_app_length.
Qed.

Lemma py_index_last (l : list Z) : py_index l (-1) = last l.
Proof.
  destruct l as [|x l _] using rev_ind; [done|].
  replace (-1) with (- (1)) by lia.
  rewrite py_index_neg by (rewrite len_app, len_singleton; pose proof (len_nonneg l); lia).
  rewrite len_app, len_singleton, last_snoc.
  replace (Z.to_nat (len l + 1 - 1)) with (length l) by (unfold len; lia).
  by rewrite lookup_app_r, Nat.sub_diag.
Qed.

(** What ends a sequence, as a relation on the generated tokens. *)
Definition ends (t : t) (gen : list Z) : Prop :=
  (∃ x, last gen = Some x ∧ x ∈ eos_token_ids t) ∨
  (∃ s, s ∈ eos_sequences t ∧ s `suffix_of` gen).

Lemma is_eos_nonempty t gen :
  gen ≠ [] → ∃ b, is_eos_from_tokens t gen = Ok b ∧ (b = true ↔ ends t gen).
Proof.
  intros Hne. unfold is_eos_from_tokens. rewrite py_index_last.
  assert (len gen ≠ 0) by (destruct gen; [done|rewrite len_cons; pose proof (len_nonneg gen); lia]).
  replace (len gen =? 0) with false by lia.
  destruct (last gen) as [x|] eqn:E; [|by apply last_None in E].
  assert (existsb (ends_with gen) (eos_sequences t) = true ↔
          ∃ s, s ∈ eos_sequences t ∧ s `suffix_of` gen) as Hex.
  { rewrite existsb_exists. split; intros (s & Hin & Hs); exists s;
      rewrite list_elem_of_In, ends_with_spec in *; done. }
  unfold ends. rewrite E.
  case_bool_decide; eexists; (split; [done|]); [split; eauto|].
  rewrite Hex. split; [auto|]. intros [(y & [= <-] & ?)|]; done.
Qed.

Lemma max_len_ge d l s : s ∈ l → len s ≤ max_len d l.
Proof.
  assert (∀ m (l : list (list Z)), m ≤ foldl (λ m (s : list Z), Z.max m (len s)) m l ∧
            ∀ s, s ∈ l → len s ≤ foldl (λ m (s : list Z), Z.max m (len s)) m l) as Hf.
  { intros m l0. revert m. induction l0 as [|x l0 IH]; intros m; simpl.
    - split; [lia|]. by intros ? ?%elem_of_nil.
    - destruct (IH (Z.max m (len x))) as [H1 H2]. split; [lia|].
      intros s0 [->|?]%elem_of_cons; [lia|auto]. }
  destruct l as [|x l]; simpl; [by intros ?%elem_of_nil|].
  intros [->|Hs]%elem_of_cons; [apply (proj1 (Hf _ _))|]. by apply (proj2 (Hf (len x) l)).
Qed.

(** Cutting a prefix off the history does not change the answer as long as the
    longest stop sequence, and one token, remain. *)
Lemma ends_cut t gen k :
  (∀ s, s ∈ eos_sequences t → s `suffix_of` gen → len s ≤ len (drop k gen)) →
  drop k gen ≠ [] → ends t gen ↔ ends t (drop k gen).
Proof.
  intros Hlong Hne. unfold ends.
  assert (last (drop k gen) = last gen) as ->.
  { rewrite <- (take_drop k gen) at 2. rewrite last_app.
    destruct (last (drop k gen)) eqn:E; [done|]. by apply last_None in E. }
  split; (intros [?|(s & Hin & Hs)]; [by left|right; exists s; split; [done|]]).
  - specialize (Hlong s Hin Hs). destruct Hs as [p ->].
    exists (drop k p). rewrite drop_app.
    unfold len in Hlong. rewrite length_drop, length_app in Hlong.
    destruct s as [|y s]; [by rewrite drop_nil|]. simpl in Hlong.
    by replace (k - length p)%nat with 0%nat by lia.
  - destruct Hs as [p Hp]. exists (take k gen ++ p).
    by rewrite <- app_assoc, <- Hp, take_drop.
Qed.

Lemma first_hit_ext f g os :
  (∀ o, o ∈ os → f o = g o) → first_hit f os = first_hit g os.
Proof.
  induction os as [|o os IH]; intros H; simpl; [done|].
  rewrite H by left. rewrite IH by (intros; apply H; by right). done.
Qed.

Lemma is_eos_iff t g1 g2 :
  g1 ≠ [] → g2 ≠ [] → (ends t g1 ↔ ends t g2) →
  is_eos_from_tokens t g1 = is_eos_from_tokens t g2.
Proof.
  intros H1 H2 H. destruct (is_eos_nonempty t g1 H1) as (b1 & -> & E1).
  destruct (is_eos_nonempty t g2 H2) as (b2 & -> & E2).
  destruct b1, b2; naive_solver.
Qed.

Lemma first_hit_ok f os :
  (∀ o, o ∈ os → ∃ b, f o = Ok b) → ∃ r, first_hit f os = Ok r.
Proof.
  induction os as [|o os IH]; intros H; simpl; [by eauto|].
  destruct (H o) as [b ->]; [by left|]. destruct b; [by eauto|].
  apply IH. intros. apply H. by right.
Qed.

Lemma slice_to_app_r {A} (l k : list A) n :
  0 ≤ n ≤ len k → slice_to (l ++ k) (len l + n) = l ++ slice_to k n.
Proof.
  intros. pose proof (len_nonneg l).
  rewrite !slice_to_inside by (rewrite ?len_app; lia).
  replace (Z.to_nat (len l + n)) with (length l + Z.to_nat n)%nat by (unfold len; lia).
  by rewrite take_app_add.
Qed.

(** The look-back of [first_eos_offset] is a suffix of the history that is either
    all of it or long enough for every stop sequence. *)
Lemma look_back_drop (prior : list Z) keep :
  ∃ k, (k ≤ length prior)%nat ∧ (k = 0%nat ∨ keep ≤ len (drop k prior)) ∧
    (if keep =? 0 then slice_to prior 0
     else slice_from prior (Z.max 0 (len prior - keep))) = drop k prior.
Proof.
  destruct (decide (keep ≤ 0)) as [Hk|Hk].
  - exists (length prior). split; [done|]. rewrite drop_all. split; [right; by rewrite len_nil|].
    destruct (keep =? 0) eqn:E.
    + rewrite slice_to_inside by (pose proof (len_nonneg prior); lia). done.
    + unfold slice_from, slice, clamp_index. pose proof (len_nonneg prior).
      decide_tests. by replace (Z.to_nat (_ - _)) with 0%nat by lia.
  - replace (keep =? 0) with false by lia. pose proof (len_nonneg prior).
    rewrite slice_from_inside by lia. eexists. split; [|split; [|done]].
    + unfold len in *. lia.
    + unfold len in *. rewrite length_drop. lia.
Qed.

(** The reference: test every prefix of the committed span after the whole
    history, as one-token-at-a-time decoding does. *)
Definition one_at_a_time (t : t) (prior new_tokens : list Z) : outcome (option Z) :=
  first_hit (λ o, is_eos_from_tokens t (prior ++ slice_to new_tokens (o + 1)))
            (zrange 0 (len new_tokens)).

(** ** Stop strings *)

Lemma find_from_spec i s sub :
  (find_from i s sub = -1 ∧ ¬ ∃ k, sub `prefix_of` drop k s) ∨
  (∃ k, find_from i s sub = i + Z.of_nat k ∧ (k ≤ length s)%nat ∧ sub `prefix_of` drop k s ∧
        ∀ j, (j < k)%nat → ¬ sub `prefix_of` drop j s).
Proof.
  revert i. induction s as [|c s IH]; intros i; simpl; case_bool_decide as Hp.
  1, 3: right; exists 0%nat; split_and!; [lia|lia|by rewrite drop_0|intros; lia].
  - left. split; [done|]. intros [k Hk]. by rewrite drop_nil in Hk.
  - destruct (IH (i + 1)) as [[-> Hno]|(k & -> & Hk & Hpre & Hmin)].
    + left. split; [done|]. intros [[|k] Hk]; [by rewrite drop_0 in Hk|]. eauto.
    + right. exists (S k). simpl. split_and!; try done; try lia.
      intros [|j] Hj; [by rewrite drop_0|]. apply Hmin. lia.
Qed.

(** [occurs s p sub]: [sub] occurs in [s] at position [p], and not before. *)
Definition occurs_at (s sub : list Z) (p : Z) : Prop :=
  0 ≤ p ≤ len s ∧ sub `prefix_of` drop (Z.to_nat p) s ∧
  ∀ j, (j < Z.to_nat p)%nat → ¬ sub `prefix_of` drop j s.

Lemma find_spec s sub :
  (find s sub = -1 ∧ ∀ p, ¬ occurs_at s sub p) ∨ occurs_at s sub (find s sub).
Proof.
  unfold find. destruct (find_from_spec 0 s sub) as [[-> H]|(k & -> & H)].
  - left. split; [done|]. intros p (_ & Hp & _). eauto.
  - right. unfold occurs_at, len. rewrite Z.add_0_l, Nat2Z.id. split; [lia|apply H].
Qed.

Lemma occurs_at_unique s sub p q : occurs_at s sub p → occurs_at s sub q → p = q.
Proof.
  intros (Hp & Hp1 & Hp2) (Hq & Hq1 & Hq2).
  destruct (decide (Z.to_nat p < Z.to_nat q)%nat); [by edestruct Hq2|].
  destruct (decide (Z.to_nat q < Z.to_nat p)%nat); [by edestruct Hp2|]. lia.
Qed.

Lemma best_match_spec tail bp best stops :
  match best_match tail bp best stops with
  | None => best = None ∧ ∀ s p, s ∈ stops → occurs_at tail s p → bp ≤ p
  | Some s =>
      (Some s = best ∧ ∀ s' p, s' ∈ stops → occurs_at tail s' p → bp ≤ p) ∨
      ∃ p, s ∈ stops ∧ occurs_at tail s p ∧ p < bp ∧
           ∀ s' p', s' ∈ stops → occurs_at tail s' p' → p ≤ p'
  end.
Proof.
  revert bp best. induction stops as [|x stops IH]; intros bp best; simpl.
  { destruct best; [left|]; (split; [done|]); by intros ??? %elem_of_nil. }
  destruct ((0 <=? find tail x) && (find tail x <? bp)) eqn:E.
  - destruct (find_spec tail x) as [[Hf _]|Hf]; [lia|]. specialize (IH (find tail x) (Some x)).
    destruct (best_match _ _ _ stops) as [s|]; [|by destruct IH].
    right. destruct IH as [[[= <-] Hmin]|(p & Hin & Hocc & Hlt & Hmin)].
    + exists (find tail s). split_and!; [by left|done|lia|].
      intros s' p' [->|Hin]%elem_of_cons Ho; [|by eapply Hmin].
      rewrite (occurs_at_unique _ _ _ _ Ho Hf). lia.
    + exists p. split_and!; [by right|done|lia|].
      intros s' p' [->|Hin']%elem_of_cons Ho; [|by eapply Hmin].
      rewrite (occurs_at_unique _ _ _ _ Ho Hf). lia.
  - assert (∀ p, occurs_at tail x p → bp ≤ p) as Hx.
    { intros p Hp. destruct (find_spec tail x) as [[_ Hn]|Hf]; [by destruct (Hn p)|].
      rewrite (occurs_at_unique _ _ _ _ Hp Hf). destruct Hf as [? _]. lia. }
    specialize (IH bp best). destruct (best_match _ _ _ stops) as [s|].
    + destruct IH as [[-> Hmin]|(p & Hin & Hocc & Hlt & Hmin)].
      * left. split; [done|]. intros s' p' [->|Hin]%elem_of_cons Ho; eauto.
      * right. exists p. split_and!; [by right|done|done|].
        intros s' p' [->|Hin']%elem_of_cons Ho; [|eauto]. specialize (Hx _ Ho). lia.
    + destruct IH as [-> Hmin]. split; [done|].
      intros s' p' [->|Hin]%elem_of_cons Ho; eauto.
Qed.

(** The text a call searches: everything kept so far plus the new piece, or only
    its last [_max_stop_length] characters once that grew too long. *)
Definition window (t : t) (piece : list Z) : list Z :=
  let tail := _continuation_tail t ++ piece in
  if len tail >? 8 * _max_stop_length t
  then slice_from tail (- _max_stop_length t) else tail.

Lemma is_eos_from_string_run t piece :
  is_eos_from_string piece t =
    if len (eos_stop_strings t) =? 0 then (Ok None, t)
    else (Ok (best_match (window t piece) (len (window t piece)) None (eos_stop_strings t)),
          set_tail (window t piece) t).
Proof.
  unfold is_eos_from_string, window. run_unfold. destruct (len _ =? 0); [done|].
  simpl. by destruct (len (_continuation_tail t ++ piece) >? 8 * _max_stop_length t).
Qed.

(** Feed decoded pieces one after the other until a stop string is reported. *)
Fixpoint feed (pieces : list (list Z)) (t : t) : EOSTracker.t :=
  match pieces with
  | [] => t
  | p :: ps => feed ps (is_eos_from_string p t).2
  end.

Lemma slice_from_neg {A} (l : list A) m :
  0 < m ≤ len l → slice_from l (- m) = drop (Z.to_nat (len l - m)) l.
Proof.
  intros. unfold slice_from, slice, clamp_index.
  replace (- m <? 0) with true by lia. replace (len l <? 0) with false by lia.
  replace (Z.max 0 (Z.min (len l) (len l + - m))) with (len l - m) by lia.
  apply take_ge. rewrite length_drop. unfold len in *. lia.
Qed.

Lemma window_suffix t piece :
  0 < _max_stop_length t →
  window t piece `suffix_of` _continuation_tail t ++ piece ∧
  (len (_continuation_tail t ++ piece) ≤ len (window t piece)
   ∨ _max_stop_length t ≤ len (window t piece)).
Proof.
  intros Hm. unfold window. set (tl := _continuation_tail t ++ piece).
  destruct (len tl >? 8 * _max_stop_length t) eqn:E; [|split; [done|left; lia]].
  rewrite slice_from_neg by lia. split; [apply suffix_drop|right].
  unfold len in *. rewrite length_drop. lia.
Qed.

Lemma feed_tail pieces t text :
  0 < _max_stop_length t → eos_stop_strings t ≠ [] →
  _continuation_tail t `suffix_of` text →
  len text ≤ len (_continuation_tail t) ∨ _max_stop_length t ≤ len (_continuation_tail t) →
  let t' := feed pieces t in
  eos_stop_strings t' = eos_stop_strings t ∧ _max_stop_length t' = _max_stop_length t ∧
  _continuation_tail t' `suffix_of` text ++ concat pieces ∧
  (len (text ++ concat pieces) ≤ len (_continuation_tail t')
   ∨ _max_stop_length t ≤ len (_continuation_tail t')).
Proof.
  revert t text. induction pieces as [|p ps IH]; intros t text Hm Hne Hsuf Hlen; simpl.
  { by rewrite app_nil_r. }
  rewrite is_eos_from_string_run.
  destruct (eos_stop_strings t) as [|s0 ss] eqn:Es; [done|].
  rewrite len_eqb_0 by done.
  simpl. destruct (window_suffix t p Hm) as [Hw Hwl].
  destruct (IH (set_tail (window t p) t) (text ++ p)) as (E1 & E2 & E3 & E4); simpl; try done.
  - by rewrite Es.
  - etransitivity; [exact Hw|]. destruct Hsuf as [k ->]. exists k. by rewrite app_assoc.
  - rewrite !len_app in *. pose proof (len_nonneg p). lia.
  - rewrite <- app_assoc in E3, E4. simpl in *. by rewrite Es in *.
Qed.

End EOSTracker.

(** ** Properties *)

Module EosProperties.
Import EOSTracker.

(** The token check raises on an empty history and otherwise answers [true]
    exactly when the last token is an end-of-sequence id or some stop sequence is
    a suffix of the history. *)
Theorem is_eos_from_tokens_spec t gen :
  is_eos_from_tokens t [] = Raise ValueError ∧
  (gen ≠ [] → ∃ b, is_eos_from_tokens t gen = Ok b ∧
     (b = true ↔
      (∃ x, last gen = Some x ∧ x ∈ eos_token_ids t) ∨
      (∃ s, s ∈ eos_sequences t ∧ s `suffix_of` gen))).
Proof. split; [done|]. apply is_eos_nonempty. Qed.

Lemma is_eos_from_tokens_spec_witness :
  ∃ b, is_eos_from_tokens (init {[2]} [[5; 6]] []) [1; 5; 6] = Ok b ∧ b = true.
Proof.
  destruct (proj2 (is_eos_from_tokens_spec (init {[2]} [[5; 6]] []) [1; 5; 6]))
    as (b & H & _); [discriminate|].
  exists b. split; [exact H|]. vm_compute in H. congruence.
Defined.

(** The bounded look-back is enough. For a tracker built by its constructor,
    scanning a committed span with only the last [_max_eos_seq_len - 1] prior
    tokens reports the same first terminating offset as testing every prefix of
    the span after the whole history, stop sequences that straddle the boundary
    included; and it never raises. *)
Theorem first_eos_offset_one_at_a_time ids seqs stops prior new_tokens :
  let t := init ids seqs stops in
  first_eos_offset t prior new_tokens = one_at_a_time t prior new_tokens ∧
  ∃ r, first_eos_offset t prior new_tokens = Ok r.
Proof.
  intros t.
  assert (∀ o, o ∈ zrange 0 (len new_tokens) → slice_to new_tokens (o + 1) ≠ []) as Hne.
  { intros o Ho%elem_of_zrange E. apply (f_equal len) in E.
    rewrite slice_to_inside in E by lia. unfold len in *.
    rewrite length_take in E. simpl in E. lia. }
  assert (first_eos_offset t prior new_tokens = one_at_a_time t prior new_tokens) as ->.
  { unfold first_eos_offset, one_at_a_time.
    destruct (look_back_drop prior (_max_eos_seq_len t - 1)) as (k & Hk & Hlong & ->).
    apply first_hit_ext. intros o Ho. specialize (Hne o Ho). apply elem_of_zrange in Ho.
    rewrite <- Z.add_assoc, slice_to_app_r by lia. set (w := slice_to new_tokens (o + 1)) in *.
    symmetry.
    assert (drop k (prior ++ w) = drop k prior ++ w) as <- by (by rewrite drop_app_le).
    assert (drop k (prior ++ w) ≠ []) as Hne'.
    { rewrite drop_app_le by done. by intros [_ ?]%app_eq_nil. }
    apply is_eos_iff; [by intros [_ ?]%app_eq_nil|done|]. apply ends_cut; [|done].
    intros s Hs Hsuf. destruct Hlong as [->|Hlong].
    - rewrite drop_0. destruct Hsuf as [q Hq]. apply (f_equal len) in Hq.
      rewrite Hq, len_app. pose proof (len_nonneg q). lia.
    - assert (len s ≤ _max_eos_seq_len t) by (by apply max_len_ge).
      rewrite drop_app_le, len_app by done. destruct w as [|y w']; [done|].
      rewrite len_cons. pose proof (len_nonneg w'). lia. }
  split; [done|]. apply first_hit_ok. intros o Ho.
  destruct (is_eos_nonempty t (prior ++ slice_to new_tokens (o + 1))) as (b & -> & _); [|by eauto].
  intros [_ ?]%app_eq_nil. by eapply Hne.
Qed.

(** What a stop-string call answers. It searches the kept tail plus the new
    piece, cut to its last [_max_stop_length] characters when that is longer than
    eight times as much, and returns a stop string whose first occurrence there is
    the earliest of all; [None] when no non-empty stop string occurs there. *)
Theorem is_eos_from_string_earliest piece t t' r :
  eos_stop_strings t ≠ [] → is_eos_from_string piece t = (Ok r, t') →
  _continuation_tail t' = window t piece ∧
  match r with
  | Some s => s ∈ eos_stop_strings t ∧ ∃ p, occurs_at (window t piece) s p ∧
      ∀ s' p', s' ∈ eos_stop_strings t → occurs_at (window t piece) s' p' → p ≤ p'
  | None => ∀ s p, s ∈ eos_stop_strings t → s ≠ [] → ¬ occurs_at (window t piece) s p
  end.
Proof.
  intros Hne. rewrite is_eos_from_string_run.
  rewrite len_eqb_0 by done.
  intros [= <- <-]. split; [done|].
  pose proof (best_match_spec (window t piece) (len (window t piece)) None (eos_stop_strings t)) as H.
  destruct (best_match _ _ _ _) as [s|].
  - destruct H as [[? _]|(p & ? & ? & _ & ?)]; [done|]. eauto.
  - intros s p Hin Hs Hocc. destruct H as [_ H]. specialize (H s p Hin Hocc).
    destruct Hocc as (Hp & [k Hpre] & _). apply Hs.
    rewrite drop_ge in Hpre by (unfold len in *; lia). by destruct s.
Qed.

Lemma is_eos_from_string_earliest_witness :
  let t := init ∅ [] [[98; 99]; [97; 98]] in
  _continuation_tail (is_eos_from_string [120; 97; 98; 99] t).2 = window t [120; 97; 98; 99].
Proof.
  intros t.
  apply (is_eos_from_string_earliest [120; 97; 98; 99] t _ (Some [97; 98])).
  - discriminate.
  - vm_compute. reflexivity.
Defined.

(** A stop string that the decoded text ends with is always caught, however
    the text was cut into pieces: the kept tail is a suffix of the text long
    enough for the longest stop string. *)
Theorem stop_string_at_end_caught ids seqs stops pieces piece s :
  s ∈ stops → s ≠ [] → s `suffix_of` concat pieces ++ piece →
  ∃ s' t', is_eos_from_string piece (feed pieces (init ids seqs stops)) = (Ok (Some s'), t')
           ∧ s' ∈ stops.
Proof.
  intros Hin Hs Hsuf. set (t0 := init ids seqs stops).
  assert (len s ≤ _max_stop_length t0) as Hmax by (by apply max_len_ge).
  pose proof (len_pos s Hs) as Hpos.
  assert (stops ≠ []) as Hst by (intros ->; by apply elem_of_nil in Hin).
  destruct (feed_tail pieces t0 []) as (E1 & E2 & E3 & E4); [lia|done|done|left; done|].
  rewrite app_nil_l in E3, E4. set (t := feed pieces t0) in *. change (eos_stop_strings t0) with stops in E1.
  destruct (window_suffix t piece) as [Hw Hwl]; [lia|].
  assert (s `suffix_of` window t piece) as Hsw.
  { eapply suffix_shorter; [exact Hsuf| |].
    - etransitivity; [exact Hw|]. destruct E3 as [k ->]. exists k. by rewrite app_assoc.
    - destruct Hsuf as [k Hk]. apply (f_equal len) in Hk. rewrite !len_app in *.
      pose proof (len_nonneg k). unfold len in *. lia. }
  destruct (is_eos_from_string piece t) as [r t'] eqn:Hrun.
  pose proof Hrun as Hrun'. rewrite is_eos_from_string_run in Hrun'.
  rewrite len_eqb_0 in Hrun' by (by rewrite E1).
  injection Hrun' as <- <-.
  pose proof (best_match_spec (window t piece) (len (window t piece)) None (eos_stop_strings t)) as H.
  destruct (best_match _ _ _ _) as [s'|].
  - destruct H as [[? _]|(p & ? & _)]; [done|]. rewrite <- E1. eauto.
  - exfalso. destruct H as [_ H]. destruct Hsw as [k Hk].
    destruct (find_spec (window t piece) s) as [[_ Hno]|Hocc].
    + destruct (find_from_spec 0 (window t piece) s) as [[_ Hn]|(j & _ & Hj & Hpre & Hmin)].
      * apply Hn. exists (length k). rewrite Hk, drop_app_length. done.
      * apply (Hno (Z.of_nat j)). unfold occurs_at, len. rewrite Nat2Z.id. split_and!; try done; lia.
    + specialize (H s _ ltac:(by rewrite E1) Hocc). destruct Hocc as (Hp & [q Hq] & _).
      rewrite drop_ge in Hq by (unfold len in *; lia). by destruct s.
Qed.

Lemma stop_string_at_end_caught_witness :
  ∃ s' t', is_eos_from_string [98] (feed [[120]; [97]] (init ∅ [] [[97; 98]]))
           = (Ok (Some s'), t') ∧ s' ∈ [[97; 98]].
Proof.
  apply (stop_string_at_end_caught ∅ [] [[97; 98]] [[120]; [97]] [98] [97; 98]).
  - apply list_elem_of_here.
  - discriminate.
  - exists [120]. reflexivity.
Defined.

(** But a stop string followed by more text in the same piece can be missed,
    even when pieces are short: the tail is cut before it is searched. Here fifteen
    one-character pieces and then "abc" do not report the stop string "ab". *)
Theorem stop_string_inside_piece_missed :
  ∃ pieces piece s, s ≠ [] ∧ occurs_at piece s 0 ∧ Forall (λ p, len p ≤ 3) (piece :: pieces) ∧
    (is_eos_from_string piece (feed pieces (init ∅ [] [s]))).1 = Ok None.
Proof.
  exists (repeat [120] 15), [97; 98; 99], [97; 98].
  split; [done|]. split; [|split; [|by vm_compute]].
  - unfold occurs_at. split; [done|]. split; [by exists [99]|]. simpl. lia.
  - repeat constructor; done.
Qed.

End EosProperties.
