(* ===== verification/FreeQueue.v ===== *)
(** * The free-block queue (kv_cache/paged_kv_cache/block_utils.py)

    [_FreeKVCacheBlockQueue]: an intrusive doubly linked list threaded through the
    [prev_free_block]/[next_free_block] fields of heap-allocated blocks. A reference
    to a block is its [bid]; the heap maps references to block objects. The queue is
    generic in the block type, through the [FreeListNode] interface. *)

From S2P Require Import Prelude.

(** The protocol a queue element implements. [erase] forgets the two links: the
    laws say that the setters change nothing else. *)
Class FreeListNode (B : Type) := {
  bid : B → Z;
  prev_free_block : B → option Z;
  next_free_block : B → option Z;
  set_prev : option Z → B → B;
  set_next : option Z → B → B;
  erase : B → B;
  prev_set_prev x b : prev_free_block (set_prev x b) = x;
  prev_set_next x b : prev_free_block (set_next x b) = prev_free_block b;
  next_set_prev x b : next_free_block (set_prev x b) = next_free_block b;
  next_set_next x b : next_free_block (set_next x b) = x;
  erase_set_prev x b : erase (set_prev x b) = erase b;
  erase_set_next x b : erase (set_next x b) = erase b;
  bid_erase b : bid (erase b) = bid b
}.

(** ** The block of the paged cache *)
Module KVCacheBlock.

Record t := mk {
  _bid : Z;
  ref_cnt : Z;
  block_hash : option bytes;
  is_null : bool;
  _prev_free_block : option Z;
  _next_free_block : option Z
}.

Definition set_ref_cnt (n : Z) (b : t) : t :=
  mk (_bid b) n (block_hash b) (is_null b) (_prev_free_block b) (_next_free_block b).
Definition set_hash (h : option bytes) (b : t) : t :=
  mk (_bid b) (ref_cnt b) h (is_null b) (_prev_free_block b) (_next_free_block b).

(** [KVCacheBlock(bid)] with the dataclass defaults *)
Definition fresh (i : Z) : t := mk i 0 None false None None.

(** [{idx: KVCacheBlock(idx) for idx in range(n)}], as heap objects *)
Definition fresh_heap (n : Z) : gmap Z t :=
  list_to_map ((λ i, (i, fresh i)) <$> zrange 0 n).

Lemma lookup_fresh_heap n i :
  fresh_heap n !! i = if decide (0 ≤ i < n) then Some (fresh i) else None.
Proof.
  unfold fresh_heap. case_decide as Hi.
  - apply elem_of_list_to_map_1.
    + rewrite <- list_fmap_compose. rewrite list_fmap_id. apply NoDup_zrange.
    + apply list_elem_of_fmap. exists i. split; [done|]. by apply elem_of_zrange.
  - apply not_elem_of_list_to_map_1. rewrite <- list_fmap_compose, list_fmap_id.
    by rewrite elem_of_zrange.
Qed.

#[global] Program Instance node : FreeListNode t := {|
  bid := _bid;
  prev_free_block := _prev_free_block;
  next_free_block := _next_free_block;
  set_prev x b := mk (_bid b) (ref_cnt b) (block_hash b) (is_null b) x (_next_free_block b);
  set_next x b := mk (_bid b) (ref_cnt b) (block_hash b) (is_null b) (_prev_free_block b) x;
  erase b := mk (_bid b) (ref_cnt b) (block_hash b) (is_null b) None None
|}.
Solve All Obligations with done.

End KVCacheBlock.

(** ** The abstract queue: a list of block ids *)
Module Deque.

Inductive op := Popleft | Remove (r : Z) | Append (r : Z).

Definition exec (o : op) (l : list Z) : outcome (option Z) * list Z :=
  match o with
  | Popleft => match l with [] => (Raise ValueError, l) | r :: l' => (Ok (Some r), l') end
  | Remove r => (Ok None, filter (λ x, x ≠ r) l)
  | Append r => (Ok None, l ++ [r])
  end.

(** The queue's contract: only a free block is removed; only a block of the pool
    that is not free is appended. *)
Definition op_ok (dom : gset Z) (o : op) (l : list Z) : Prop :=
  match o with
  | Popleft => True
  | Remove r => r ∈ l
  | Append r => r ∉ l ∧ r ∈ dom
  end.

(** The results of a sequence of operations, or nothing if one of them breaks
    the contract. *)
Fixpoint run_ops (os : list op) (l : list Z) : list (outcome (option Z)) * list Z :=
  match os with
  | [] => ([], l)
  | o :: os => let '(r, l) := exec o l in let '(rs, l) := run_ops os l in (r :: rs, l)
  end.

Fixpoint ops_ok (dom : gset Z) (os : list op) (l : list Z) : Prop :=
  match os with
  | [] => True
  | o :: os => op_ok dom o l ∧ ops_ok dom os (exec o l).2
  end.

#[global] Instance op_ok_dec dom o l : Decision (op_ok dom o l).
Proof. destruct o; simpl; apply _. Defined.
#[global] Instance ops_ok_dec dom os l : Decision (ops_ok dom os l).
Proof. revert l. induction os; intros l; simpl; apply _. Defined.

Lemma filter_ne_middle (l1 l2 : list Z) r :
  NoDup (l1 ++ r :: l2) → filter (λ x, x ≠ r) (l1 ++ r :: l2) = l1 ++ l2.
Proof.
  intros (? & Hd & [Hr ?]%NoDup_cons)%NoDup_app.
  assert (∀ l : list Z, r ∉ l → filter (λ x, x ≠ r) l = l) as Hid.
  { induction l as [|y l IH]; intros Hl; [done|].
    rewrite filter_cons_True by set_solver. f_equal. apply IH. set_solver. }
  rewrite filter_app, filter_cons_False by naive_solver. rewrite !Hid; set_solver.
Qed.

End Deque.

(** ** The queue *)
Module FreeQueue.

Record queue := mk {
  num_free_blocks : Z;
  free_blocks : gset Z;
  free_list_head : option Z;
  free_list_tail : option Z
}.

(** An empty queue: [FreeKVCacheBlockQueue(())] *)
Definition no_queue : queue := mk 0 ∅ None None.

Definition set_num (n : Z) (q : queue) : queue :=
  mk n (free_blocks q) (free_list_head q) (free_list_tail q).
Definition set_free (f : gset Z) (q : queue) : queue :=
  mk (num_free_blocks q) f (free_list_head q) (free_list_tail q).
Definition set_head (h : option Z) (q : queue) : queue :=
  mk (num_free_blocks q) (free_blocks q) h (free_list_tail q).
Definition set_tail (t : option Z) (q : queue) : queue :=
  mk (num_free_blocks q) (free_blocks q) (free_list_head q) t.

(** Queue methods run on the block heap and the queue object. *)
Record st (B : Type) := mkst { heap : gmap Z B; q : queue }.
Arguments mkst {B}.
Arguments heap {B}.
Arguments q {B}.

Section Queue.
Context {B : Type} `{FreeListNode B}.

Definition deref (r : Z) : M (st B) B :=
  let! s := get in of_option AttributeError (heap s !! r).
Definition on_block (r : Z) (f : B → B) : M (st B) unit :=
  modify (λ s, mkst (alter f r (heap s)) (q s)).
Definition on_queue (f : queue → queue) : M (st B) unit :=
  modify (λ s, mkst (heap s) (f (q s))).

(** One turn of the constructor's linking loop. *)
Definition link_neighbours (blocks : list Z) (i : Z) : M (st B) unit :=
  let! b := of_option IndexError (py_index blocks i) in
  when (i >? 0)
    (let! p := of_option IndexError (py_index blocks (i - 1)) in
     on_block b (set_prev (Some p)));;
  when (i <? len blocks - 1)
    (let! n := of_option IndexError (py_index blocks (i + 1)) in
     on_block b (set_next (Some n))).

Definition init (blocks : list Z) : M (st B) unit :=
  on_queue (λ _, mk (len blocks) (list_to_set blocks) (head blocks) (last blocks));;
  for_each (zrange 0 (len blocks)) (link_neighbours blocks).

(** [__len__] and [__contains__] *)
Definition length (q : queue) : Z := num_free_blocks q.
Definition contains (block : B) (q : queue) : bool := bool_decide (bid block ∈ free_blocks q).

Definition remove (block : Z) : M (st B) unit :=
  let! b := deref block in
  match prev_free_block b with
  | Some p => on_block p (set_next (next_free_block b))
  | None => ret tt
  end;;
  let! b := deref block in
  match next_free_block b with
  | Some n => on_block n (set_prev (prev_free_block b))
  | None => ret tt
  end;;
  let! b := deref block in
  let! s := get in
  when (bool_decide (Some block = free_list_head (q s)))
    (on_queue (set_head (next_free_block b)));;
  let! s := get in
  when (bool_decide (Some block = free_list_tail (q s)))
    (on_queue (set_tail (prev_free_block b)));;
  on_block block (set_next None);;
  on_block block (set_prev None);;
  on_queue (λ q, set_num (num_free_blocks q - 1) q);;
  let! s := get in
  raise_if (negb (bool_decide (bid b ∈ free_blocks (q s)))) KeyError;;
  on_queue (λ q, set_free (free_blocks q ∖ {[bid b]}) q).

Definition popleft : M (st B) Z :=
  let! s := get in
  match free_list_head (q s) with
  | None => raise ValueError
  | Some block => remove block;; ret block
  end.

Definition append (block : Z) : M (st B) unit :=
  let! s := get in
  match free_list_tail (q s) with
  | Some t =>
      on_block t (set_next (Some block));;
      on_block block (set_prev (Some t));;
      on_queue (set_tail (Some block))
  | None =>
      py_assert (bool_decide (free_list_head (q s) = None));;
      on_queue (λ q, set_tail (Some block) (set_head (Some block) q))
  end;;
  on_block block (set_next None);;
  on_queue (λ q, set_num (num_free_blocks q + 1) q);;
  let! b := deref block in
  on_queue (λ q, set_free (free_blocks q ∪ {[bid b]}) q).

(** ** The list a queue represents *)

(** Each member's links are its neighbours in the list; blocks outside have no
    links. *)
Definition links (h : gmap Z B) (l : list Z) : Prop :=
  (∀ l1 r l2, l = l1 ++ r :: l2 →
     ∃ b, h !! r = Some b ∧ prev_free_block b = last l1 ∧ next_free_block b = head l2) ∧
  (∀ r b, h !! r = Some b → r ∉ l → prev_free_block b = None ∧ next_free_block b = None).

Definition ids (h : gmap Z B) : Prop := ∀ r b, h !! r = Some b → bid b = r.

Record Repr (s : st B) (l : list Z) : Prop := {
  repr_nodup : NoDup l;
  repr_links : links (heap s) l;
  repr_ids : ids (heap s);
  repr_head : free_list_head (q s) = head l;
  repr_tail : free_list_tail (q s) = last l;
  repr_num : num_free_blocks (q s) = len l;
  repr_free : free_blocks (q s) = list_to_set l
}.

(** The heap with the links of its blocks forgotten. *)
Definition payload (h : gmap Z B) : gmap Z B := erase <$> h.

Definition alter_opt (f : B → B) (o : option Z) (h : gmap Z B) : gmap Z B :=
  match o with Some r => alter f r h | None => h end.

Lemma lookup_alter_opt f o h r :
  alter_opt f o h !! r = if decide (o = Some r) then f <$> h !! r else h !! r.
Proof.
  destruct o as [r'|]; simpl; [|done]. rewrite lookup_alter.
  repeat case_decide; naive_solver.
Qed.

Lemma payload_alter f r h :
  (∀ b, erase (f b) = erase b) → payload (alter f r h) = payload h.
Proof.
  intros Hf. apply map_eq. intros i. unfold payload. rewrite !lookup_fmap, lookup_alter.
  case_decide; [subst; by destruct (h !! i); simpl; rewrite ?Hf|done].
Qed.

Lemma payload_alter_opt f o h :
  (∀ b, erase (f b) = erase b) → payload (alter_opt f o h) = payload h.
Proof. destruct o; simpl; [apply payload_alter|done]. Qed.

Lemma payload_ids h h' : payload h = payload h' → ids h → ids h'.
Proof.
  intros E Hids r b Hb. assert (payload h !! r = Some (erase b)) as Hp.
  { rewrite E. unfold payload. by rewrite lookup_fmap, Hb. }
  unfold payload in Hp. rewrite lookup_fmap in Hp.
  destruct (h !! r) as [b0|] eqn:Eb; simplify_eq/=.
  rewrite <- (bid_erase b), <- Hp, bid_erase. eauto.
Qed.

Lemma payload_lookup h h' r b :
  payload h = payload h' → h !! r = Some b → ∃ b', h' !! r = Some b' ∧ erase b' = erase b.
Proof.
  intros E Hb. assert (payload h' !! r = Some (erase b)) as Hp.
  { rewrite <- E. unfold payload. by rewrite lookup_fmap, Hb. }
  unfold payload in Hp. rewrite lookup_fmap in Hp. destruct (h' !! r); naive_solver.
Qed.

(** ** Removing and appending on the represented list *)

Lemma lookup_last_elem {A} (l : list A) x : last l = Some x → x ∈ l.
Proof. intros [k ->]%last_Some. set_solver. Qed.
Lemma lookup_head_elem {A} (l : list A) x : head l = Some x → x ∈ l.
Proof. intros [k ->]%head_Some. set_solver. Qed.

Lemma links_lookup h l r : links h l → r ∈ l → is_Some (h !! r).
Proof. intros [Hin _] (l1 & l2 & ->)%list_elem_of_split. edestruct Hin as (b & ? & _); eauto. Qed.

Lemma links_payload_dom h h' r : payload h = payload h' → is_Some (h !! r) ↔ is_Some (h' !! r).
Proof.
  intros E. assert (payload h !! r = payload h' !! r) as E' by by rewrite E.
  unfold payload in E'. rewrite !lookup_fmap in E'. destruct (h !! r), (h' !! r); naive_solver.
Qed.

(** The heap [remove] leaves for a member between [l1] and [l2]. *)
Definition unlinked (l1 l2 : list Z) (r : Z) (h : gmap Z B) : gmap Z B :=
  alter (set_prev None) r (alter (set_next None) r
    (alter_opt (set_prev (last l1)) (head l2) (alter_opt (set_next (head l2)) (last l1) h))).

Lemma payload_unlinked l1 l2 r h : payload (unlinked l1 l2 r h) = payload h.
Proof.
  unfold unlinked. rewrite !payload_alter, !payload_alter_opt; auto using erase_set_prev, erase_set_next.
Qed.

Lemma unlinked_other l1 l2 r h x b :
  x ≠ r → h !! x = Some b →
  ∃ b', unlinked l1 l2 r h !! x = Some b' ∧
    prev_free_block b' = (if decide (head l2 = Some x) then last l1 else prev_free_block b) ∧
    next_free_block b' = (if decide (last l1 = Some x) then head l2 else next_free_block b).
Proof.
  intros Hx Hb. unfold unlinked. rewrite !lookup_alter_ne by done.
  rewrite !lookup_alter_opt, Hb. repeat case_decide; simpl; eexists;
    (split; [done|]); rewrite ?prev_set_prev, ?prev_set_next, ?next_set_prev, ?next_set_next; done.
Qed.

Lemma unlinked_self l1 l2 r h b :
  unlinked l1 l2 r h !! r = Some b → prev_free_block b = None ∧ next_free_block b = None.
Proof.
  unfold unlinked. rewrite !lookup_alter_eq.
  destruct (alter_opt _ _ _ !! r); intros; simplify_eq/=.
  by rewrite prev_set_prev, next_set_prev, next_set_next.
Qed.

Lemma links_unlinked h l1 r l2 :
  NoDup (l1 ++ r :: l2) → links h (l1 ++ r :: l2) → links (unlinked l1 l2 r h) (l1 ++ l2).
Proof.
  intros Hnd [Hin Hout]. apply NoDup_app in Hnd as (Hnd1 & Hd & Hnd2).
  apply NoDup_cons in Hnd2 as [Hr2 Hnd2]. split.
  - intros m1 x m2 E.
    assert (x ≠ r) as Hxr.
    { intros ->. assert (r ∈ l1 ++ l2) as [?|?]%elem_of_app by (rewrite E; set_solver); set_solver. }
    apply app_eq_inv in E as [(k & -> & E)|(k & -> & ->)]; [destruct k as [|y k]; simplify_eq/=|].
    + destruct (Hin (m1 ++ [r]) x m2) as (b & Hb & Hp & Hn); [by rewrite app_nil_r, <- app_assoc|].
      destruct (unlinked_other (m1 ++ []) (x :: m2) r h x b Hxr Hb) as (b' & ? & Hp' & Hn').
      exists b'. split; [done|]. rewrite Hp', Hn', app_nil_r. simpl. rewrite decide_True by done.
      split; [done|]. rewrite decide_False; [done|]. intros ?%lookup_last_elem. set_solver.
    + destruct (Hin m1 y (k ++ r :: l2)) as (b & Hb & Hp & Hn); [by rewrite <- app_assoc|].
      destruct (unlinked_other (m1 ++ y :: k) l2 r h y b Hxr Hb) as (b' & ? & Hp' & Hn').
      exists b'. split; [done|]. rewrite Hp', Hn'.
      rewrite (decide_False (P := head l2 = Some y)) by (intros ?%lookup_head_elem; set_solver).
      split; [done|]. apply NoDup_app in Hnd1 as (_ & _ & [Hy _]%NoDup_cons).
      destruct (last k) as [z|] eqn:Ek.
      * rewrite decide_False; [by destruct k|].
        rewrite last_app_cons, last_cons, Ek. intros [= ->]. by apply lookup_last_elem in Ek.
      * apply last_None in Ek as ->. rewrite decide_True by by rewrite last_snoc. done.
    + destruct k as [|y k].
      * destruct (Hin (l1 ++ [r]) x m2) as (b & Hb & Hp & Hn); [by rewrite <- app_assoc|].
        destruct (unlinked_other l1 (x :: m2) r h x b Hxr Hb) as (b' & ? & Hp' & Hn').
        exists b'. simpl in *. split; [done|]. rewrite Hp', Hn', app_nil_r, decide_True by done.
        split; [done|]. rewrite decide_False; [done|]. intros ?%lookup_last_elem. set_solver.
      * destruct (Hin (l1 ++ r :: y :: k) x m2) as (b & Hb & Hp & Hn); [by rewrite <- app_assoc|].
        destruct (unlinked_other l1 (y :: k ++ x :: m2) r h x b Hxr Hb) as (b' & ? & Hp' & Hn').
        exists b'. split; [done|]. rewrite Hp', Hn'. simpl in *.
        apply NoDup_cons in Hnd2 as [Hy _].
        rewrite !decide_False; [|intros ?%lookup_last_elem; set_solver|intros [= ->]; set_solver].
        rewrite Hp, !last_app_cons. done.
  - intros x b Hb Hx. destruct (decide (x = r)) as [->|Hxr]; [by eapply unlinked_self|].
    destruct (h !! x) as [b0|] eqn:E.
    + destruct (unlinked_other l1 l2 r h x b0 Hxr E) as (b' & ? & Hp' & Hn'). simplify_eq.
      destruct (Hout x b0 E) as [Hp Hn]; [set_solver|].
      rewrite decide_False in Hp' by (intros ?%lookup_head_elem; set_solver).
      rewrite decide_False in Hn' by (intros ?%lookup_last_elem; set_solver).
      by rewrite Hp', Hn', Hp, Hn.
    + exfalso. assert (is_Some (h !! x)) as [? ?]; [|congruence].
      eapply links_payload_dom; [|by rewrite Hb]. symmetry. apply payload_unlinked.
Qed.

Lemma head_without (l1 l2 : list Z) r :
  r ∉ l1 → head (l1 ++ l2) = if decide (Some r = head (l1 ++ r :: l2)) then head l2
                             else head (l1 ++ r :: l2).
Proof. destruct l1; simpl; case_decide; set_solver. Qed.

Lemma last_without (l1 l2 : list Z) r :
  r ∉ l2 → last (l1 ++ l2) = if decide (Some r = last (l1 ++ r :: l2)) then last l1
                             else last (l1 ++ r :: l2).
Proof.
  intros Hr. rewrite last_app_cons, last_cons, last_app. destruct (last l2) eqn:E; simpl.
  - rewrite decide_False; [done|]. intros [= ->]. by apply lookup_last_elem in E.
  - apply last_None in E as ->. by rewrite decide_True.
Qed.

Lemma remove_run s l1 r l2 :
  Repr s (l1 ++ r :: l2) →
  ∃ s', remove r s = (Ok tt, s') ∧ heap s' = unlinked l1 l2 r (heap s) ∧ Repr s' (l1 ++ l2).
Proof.
  intros [Hnd Hl Hids Hh Ht Hn Hf]. destruct s as [h [n f hd tl]]; simpl in *.
  destruct (proj1 Hl l1 r l2 eq_refl) as (b & Hb & Hp & Hx).
  assert (r ∉ l1 ∧ r ∉ l2 ∧ (∀ x, x ∈ l1 → x ∉ l2)) as (Hr1 & Hr2 & Hd).
  { apply NoDup_app in Hnd as (? & ? & [? _]%NoDup_cons). set_solver. }
  set (h1 := alter_opt (set_next (head l2)) (last l1) h).
  set (h2 := alter_opt (set_prev (last l1)) (head l2) h1).
  assert (h1 !! r = Some b) as Hb1.
  { unfold h1. rewrite lookup_alter_opt, decide_False; [done|]. intros ?%lookup_last_elem. done. }
  assert (h2 !! r = Some b) as Hb2.
  { unfold h2. rewrite lookup_alter_opt, decide_False; [done|]. intros ?%lookup_head_elem. done. }
  assert (remove r (mkst h (mk n f hd tl)) =
    (Ok tt, mkst (unlinked l1 l2 r h)
      (mk (n - 1) (f ∖ {[r]}) (head (l1 ++ l2)) (last (l1 ++ l2))))) as E.
  { unfold remove, deref, on_block, on_queue. run_unfold; simpl. rewrite Hb. simpl. rewrite Hp.
    replace (match last l1 with Some p => _ | None => _ end (mkst h (mk n f hd tl)))
      with (Ok tt, mkst h1 (mk n f hd tl)) by (unfold h1; rewrite Hx; by destruct (last l1)).
    simpl. rewrite Hb1. simpl. rewrite Hx.
    replace (match head l2 with Some p => _ | None => _ end (mkst h1 (mk n f hd tl)))
      with (Ok tt, mkst h2 (mk n f hd tl)) by (unfold h2; rewrite Hp; by destruct (head l2)).
    simpl. rewrite Hb2. simpl. rewrite Hp, Hx, Hh, Ht. rewrite (Hids r b Hb).
    assert (r ∈ f) as Hrf by set_solver.
    subst hd tl.
    rewrite (head_without l1 l2 r Hr1), (last_without l1 l2 r Hr2).
    repeat (case_bool_decide; simpl in *); try done; unfold set_head, set_tail, set_num, set_free;
      simpl; repeat case_decide; done. }
  eexists. split; [exact E|]. split; [done|]. simpl. split; simpl.
  - apply NoDup_app in Hnd as (? & ? & [? ?]%NoDup_cons). apply NoDup_app. set_solver.
  - by apply links_unlinked.
  - eapply payload_ids; [|exact Hids]. symmetry. apply payload_unlinked.
  - done.
  - done.
  - rewrite Hn, !len_app, len_cons. lia.
  - rewrite Hf. rewrite !list_to_set_app_L. simpl. set_solver.
Qed.

(** The heap [append] leaves. *)
Definition linked_last (l : list Z) (r : Z) (h : gmap Z B) : gmap Z B :=
  alter (set_next None) r
    (match last l with
     | Some t => alter (set_prev (Some t)) r (alter (set_next (Some r)) t h)
     | None => h
     end).

Lemma payload_linked_last l r h : payload (linked_last l r h) = payload h.
Proof.
  unfold linked_last. destruct (last l);
    rewrite !payload_alter; auto using erase_set_prev, erase_set_next.
Qed.

Lemma linked_last_other l r h x b :
  x ≠ r → h !! x = Some b →
  ∃ b', linked_last l r h !! x = Some b' ∧ prev_free_block b' = prev_free_block b ∧
    next_free_block b' = if decide (last l = Some x) then Some r else next_free_block b.
Proof.
  intros Hx Hb. unfold linked_last. rewrite lookup_alter_ne by done.
  destruct (last l) as [t|] eqn:E; [|eauto].
  rewrite lookup_alter_ne by done. destruct (decide (t = x)) as [->|].
  - rewrite lookup_alter_eq, Hb. simpl. eexists. split; [done|].
    by rewrite prev_set_next, next_set_next, decide_True.
  - rewrite lookup_alter_ne by done. rewrite decide_False by congruence. eauto.
Qed.

Lemma linked_last_self l r h b :
  h !! r = Some b → r ∉ l → prev_free_block b = None →
  ∃ b', linked_last l r h !! r = Some b' ∧ prev_free_block b' = last l ∧ next_free_block b' = None.
Proof.
  intros Hb Hr Hp. unfold linked_last. rewrite lookup_alter_eq.
  destruct (last l) as [t|] eqn:E.
  - assert (t ≠ r) by (intros ->; by apply lookup_last_elem in E).
    rewrite lookup_alter_eq, lookup_alter_ne, Hb by done. simpl. eexists. split; [done|].
    by rewrite prev_set_next, next_set_next, prev_set_prev.
  - rewrite Hb. simpl. eexists. split; [done|]. by rewrite prev_set_next, next_set_next.
Qed.

Lemma links_linked_last h l r :
  NoDup l → links h l → r ∉ l → is_Some (h !! r) → links (linked_last l r h) (l ++ [r]).
Proof.
  intros Hnd [Hin Hout] Hr [b Hb]. split.
  - intros m1 x m2 E. destruct m2 as [|y m2 _] using rev_ind.
    + apply app_inj_tail in E as [-> ->]. apply linked_last_self with b; naive_solver.
    + rewrite app_comm_cons, app_assoc in E. apply app_inj_tail in E as [-> ->].
      destruct (Hin m1 x m2 eq_refl) as (c & Hc & Hp & Hn).
      destruct (linked_last_other (m1 ++ x :: m2) y h x c) as (c' & ? & Hp' & Hn'); [set_solver|done|].
      exists c'. split; [done|]. split; [congruence|]. rewrite Hn', Hn, last_app_cons, last_cons.
      apply NoDup_app in Hnd as (_ & _ & [Hx _]%NoDup_cons).
      destruct (last m2) eqn:El; [|apply last_None in El as ->; by rewrite decide_True].
      rewrite decide_False; [by destruct m2|]. intros [= ->]. by apply lookup_last_elem in El.
  - intros x c Hc Hx. destruct (h !! x) as [c0|] eqn:E.
    + destruct (linked_last_other l r h x c0) as (c' & ? & Hp' & Hn'); [set_solver|done|].
      simplify_eq. rewrite Hp', Hn', decide_False by (intros ?%lookup_last_elem; set_solver).
      apply (Hout x c0 E). set_solver.
    + exfalso. assert (is_Some (h !! x)) as [? ?]; [|congruence].
      eapply links_payload_dom; [|by rewrite Hc]. symmetry. apply payload_linked_last.
Qed.

Lemma append_run s l r :
  Repr s l → r ∉ l → is_Some (heap s !! r) →
  ∃ s', append r s = (Ok tt, s') ∧ heap s' = linked_last l r (heap s) ∧ Repr s' (l ++ [r]).
Proof.
  intros [Hnd Hl Hids Hh Ht Hn Hf] Hr Hsome. destruct s as [h [n f hd tl]]; simpl in *.
  assert (ids (linked_last l r h)) as Hids'.
  { eapply payload_ids; [|exact Hids]. symmetry. apply payload_linked_last. }
  assert (is_Some (linked_last l r h !! r)) as [b Hb].
  { eapply links_payload_dom; [apply payload_linked_last|done]. }
  assert (append r (mkst h (mk n f hd tl)) =
    (Ok tt, mkst (linked_last l r h) (mk (n + 1) (f ∪ {[r]}) (head (l ++ [r])) (Some r)))) as E.
  { unfold append, deref, on_block, on_queue. run_unfold; simpl. rewrite Ht. subst hd.
    unfold linked_last in Hb |- *. destruct (last l) as [t|] eqn:El; simpl.
    - rewrite Hb. simpl. rewrite (Hids' r b) by (unfold linked_last; by rewrite El).
      destruct l; [done|]. done.
    - apply last_None in El as ->. simpl. rewrite Hb. simpl.
      rewrite (Hids' r b) by done. done. }
  eexists. split; [exact E|]. split; [done|]. split; simpl; [| |done|done| | |].
  - apply NoDup_app. repeat split; [done|set_solver|apply NoDup_singleton].
  - by apply links_linked_last.
  - by rewrite last_snoc.
  - by rewrite Hn, len_app, len_singleton.
  - rewrite Hf, list_to_set_app_L. simpl. set_solver.
Qed.

Lemma popleft_run s l :
  Repr s l →
  match l with
  | [] => popleft s = (Raise ValueError, s)
  | r :: l' => ∃ s', popleft s = (Ok r, s') ∧
                 heap s' = unlinked [] l' r (heap s) ∧ Repr s' l'
  end.
Proof.
  intros HR. unfold popleft, bind, get. rewrite (repr_head _ _ HR).
  destruct l as [|r l']; simpl; [done|].
  destruct (remove_run s [] r l' HR) as (s' & E & Hh & HR'). rewrite E. eauto.
Qed.

(** ** The constructor *)

Lemma py_index_middle {A} (l1 : list A) x l2 : py_index (l1 ++ x :: l2) (len l1) = Some x.
Proof.
  rewrite py_index_inside by (rewrite len_app, len_cons; pose proof (len_nonneg l1);
    pose proof (len_nonneg l2); lia).
  unfold len. rewrite Nat2Z.id. by apply list_lookup_middle.
Qed.

Definition opt_prev (o : option Z) (b : B) : B :=
  match o with Some p => set_prev (Some p) b | None => b end.
Definition opt_next (o : option Z) (b : B) : B :=
  match o with Some p => set_next (Some p) b | None => b end.

Lemma alter_id_all r (h : gmap Z B) : alter (λ b, b) r h = h.
Proof. apply map_eq. intros i. rewrite lookup_alter. case_decide; [subst; by destruct (h !! i)|done]. Qed.

Lemma link_neighbours_run l1 x l2 s :
  link_neighbours (l1 ++ x :: l2) (len l1) s =
  (Ok tt, mkst (alter (opt_next (head l2)) x (alter (opt_prev (last l1)) x (heap s))) (q s)).
Proof.
  unfold link_neighbours, on_block. rewrite py_index_middle. run_unfold.
  destruct s as [h qq]. rewrite !len_app, len_cons.
  destruct l1 as [|p l1 _] using rev_ind.
  - simpl. destruct l2 as [|n l2]; simpl.
    + change (opt_prev None) with (λ b : B, b). change (opt_next None) with (λ b : B, b).
      by rewrite !alter_id_all.
    + rewrite (proj2 (Z.ltb_lt _ _)) by (rewrite len_cons; pose proof (len_nonneg l2); lia). simpl.
      change (py_index _ _) with (py_index ([x] ++ n :: l2) (len [x])).
      rewrite py_index_middle. simpl. by rewrite alter_id_all.
  - rewrite last_snoc, len_app, len_singleton. pose proof (len_nonneg l1).
    replace (len l1 + 1 >? 0) with true by lia.
    replace (len l1 + 1 - 1) with (len l1) by lia.
    rewrite <- app_assoc. simpl. rewrite py_index_middle. simpl.
    destruct l2 as [|n l2]; simpl.
    + change (len (@nil Z)) with 0. rewrite (proj2 (Z.ltb_ge _ _)) by lia.
      simpl. change (opt_next None) with (λ b : B, b). by rewrite alter_id_all.
    + replace (len l1 + 1 <? _) with true
        by (rewrite !len_cons; pose proof (len_nonneg l2); lia).
      replace (len l1 + 1 + 1) with (len ((l1 ++ [p]) ++ [x])) by (rewrite !len_app, !len_singleton; lia).
      replace (l1 ++ p :: x :: n :: l2) with (((l1 ++ [p]) ++ [x]) ++ n :: l2) by by rewrite <- !app_assoc.
      by rewrite py_index_middle.
Qed.

Definition unlinked_block (b : B) : Prop := prev_free_block b = None ∧ next_free_block b = None.

(** The linking loop, from position [len l1] on. *)
Lemma link_loop l1 l2 s :
  NoDup (l1 ++ l2) →
  (∀ x, x ∈ l2 → ∃ b, heap s !! x = Some b ∧ unlinked_block b) →
  ∃ h', for_each (zrange (len l1) (len (l1 ++ l2))) (link_neighbours (l1 ++ l2)) s =
          (Ok tt, mkst h' (q s)) ∧
    payload h' = payload (heap s) ∧
    (∀ x, x ∉ l2 → h' !! x = heap s !! x) ∧
    (∀ k1 x k2, l2 = k1 ++ x :: k2 →
       ∃ b, h' !! x = Some b ∧ prev_free_block b = last (l1 ++ k1) ∧ next_free_block b = head k2).
Proof.
  revert l1 s. induction l2 as [|x l2 IH]; intros l1 [h qq] Hnd Hb; simpl in *.
  - rewrite app_nil_r, zrange_empty by lia. exists h. simpl.
    split; [done|]. split; [done|]. split; [done|]. by intros [].
  - rewrite zrange_cons by (rewrite len_app, len_cons; pose proof (len_nonneg l2); lia).
    simpl. unfold bind. rewrite link_neighbours_run. simpl.
    assert (x ∉ l1 ∧ x ∉ l2) as [Hx1 Hx2].
    { apply NoDup_app in Hnd as (? & ? & [? _]%NoDup_cons). set_solver. }
    set (h1 := alter _ x (alter _ x h)).
    assert (∀ y, y ≠ x → h1 !! y = h !! y) as Hne.
    { intros y Hy. unfold h1. by rewrite !lookup_alter_ne. }
    replace (len l1 + 1) with (len (l1 ++ [x])) by by rewrite len_app, len_singleton.
    replace (l1 ++ x :: l2) with ((l1 ++ [x]) ++ l2) in * by by rewrite <- app_assoc.
    destruct (IH (l1 ++ [x]) (mkst h1 qq)) as (h' & E & Hp & Ho & Hi); [done| |].
    { intros y Hy. simpl. rewrite Hne by set_solver. apply Hb. set_solver. }
    exists h'. split; [exact E|]. simpl in *. split; [|split].
    + rewrite Hp. unfold h1. rewrite !payload_alter; [done|..];
        intros b; [destruct (last l1)|destruct (head l2)]; simpl; auto using erase_set_prev, erase_set_next.
    + intros y Hy. rewrite Ho, Hne; set_solver.
    + intros [|y k1] z k2 Ek; simplify_eq/=.
      * destruct (Hb z) as (b & Hzb & Hbp & Hbn); [set_solver|].
        rewrite Ho by done. unfold h1. rewrite !lookup_alter_eq, Hzb. simpl. eexists. split; [done|].
        rewrite app_nil_r. destruct (last l1), (head k2); simpl;
          rewrite ?prev_set_next, ?next_set_next, ?prev_set_prev, ?next_set_prev; done.
      * destruct (Hi k1 z k2 eq_refl) as (b & ? & Hbp & ?). exists b.
        by rewrite <- app_assoc in Hbp.
Qed.

Lemma init_run s blocks :
  NoDup blocks → ids (heap s) →
  (∀ r b, heap s !! r = Some b → unlinked_block b) →
  (∀ r, r ∈ blocks → is_Some (heap s !! r)) →
  ∃ s', init blocks s = (Ok tt, s') ∧ payload (heap s') = payload (heap s) ∧ Repr s' blocks.
Proof.
  intros Hnd Hids Hun Hdom. destruct s as [h qq]. simpl in *.
  unfold init, on_queue, bind, modify. simpl.
  destruct (link_loop [] blocks (mkst h (mk (len blocks) (list_to_set blocks) (head blocks) (last blocks))))
    as (h' & E & Hp & Ho & Hi); [done| |].
  { intros x Hx. destruct (Hdom x Hx) as [b Hb]. exists b. split; [done|]. eauto. }
  change (len []) with 0 in E. simpl in *. rewrite E. eexists. split; [done|]. split; [done|]. split; try done; simpl.
  - split; [exact Hi|]. intros r b Hb Hr. rewrite Ho in Hb by done. by eapply Hun.
  - by eapply payload_ids.
Qed.

(** ** Operation sequences against a list *)

Definition exec (o : Deque.op) : M (st B) (option Z) :=
  match o with
  | Deque.Popleft => let! r := popleft in ret (Some r)
  | Deque.Remove r => remove r;; ret None
  | Deque.Append r => append r;; ret None
  end.

Fixpoint run_ops (os : list Deque.op) (s : st B) : list (outcome (option Z)) * st B :=
  match os with
  | [] => ([], s)
  | o :: os => let '(r, s) := exec o s in let '(rs, s) := run_ops os s in (r :: rs, s)
  end.

Lemma exec_run o s l :
  Repr s l → Deque.op_ok (dom (heap s)) o l →
  ∃ s', exec o s = ((Deque.exec o l).1, s') ∧
    Repr s' (Deque.exec o l).2 ∧ payload (heap s') = payload (heap s).
Proof.
  intros HR Hok. unfold exec, Deque.exec. destruct o as [|r|r]; simpl in *; unfold bind.
  - pose proof (popleft_run s l HR) as Hp. destruct l as [|r l'].
    + exists s. by rewrite Hp.
    + destruct Hp as (s' & -> & Hh & HR'). exists s'. rewrite Hh. auto using payload_unlinked.
  - apply list_elem_of_split in Hok as (l1 & l2 & ->).
    rewrite Deque.filter_ne_middle by apply (repr_nodup _ _ HR).
    destruct (remove_run s l1 r l2 HR) as (s' & -> & Hh & HR').
    exists s'. rewrite Hh. auto using payload_unlinked.
  - destruct Hok as [Hr Hd]. apply elem_of_dom in Hd.
    destruct (append_run s l r HR Hr Hd) as (s' & -> & Hh & HR').
    exists s'. rewrite Hh. auto using payload_linked_last.
Qed.

Lemma payload_dom h h' : payload h = payload h' → dom h = dom h'.
Proof.
  intros E. apply set_eq. intros r. rewrite !elem_of_dom. by apply links_payload_dom.
Qed.

(** Updates of fields the queue does not use leave the representation alone. *)
Lemma Repr_alter f r s l :
  (∀ b, prev_free_block (f b) = prev_free_block b ∧ next_free_block (f b) = next_free_block b ∧
        bid (f b) = bid b) →
  Repr s l → Repr (mkst (alter f r (heap s)) (q s)) l.
Proof.
  intros Hf [Hnd [Hin Hout] Hids Hh Ht Hn Hfr]. split; simpl; try done.
  - split.
    + intros l1 x l2 E. destruct (Hin l1 x l2 E) as (b & Hb & Hp & Hx).
      rewrite lookup_alter. case_decide; [subst; rewrite Hb; simpl|by exists b].
      destruct (Hf b) as (? & ? & ?). eexists. split; [done|]. split; congruence.
    + intros x b. rewrite lookup_alter. case_decide; [subst|exact (Hout x b)].
      destruct (heap s !! x) as [c|] eqn:E; simpl; [|done]. intros [= <-] Hx.
      destruct (Hf c) as (-> & -> & _). eauto.
  - intros x b. rewrite lookup_alter. case_decide; [subst|exact (Hids x b)].
    destruct (heap s !! x) as [c|] eqn:E; simpl; [|done]. intros [= <-].
    destruct (Hf c) as (_ & _ & ->). eauto.
Qed.

(** So does a new object outside the queue. *)
Lemma Repr_insert r b s l :
  heap s !! r = None → unlinked_block b → bid b = r →
  Repr s l → Repr (mkst (<[r := b]> (heap s)) (q s)) l.
Proof.
  intros Hr [Hp Hn] Hid [Hnd [Hin Hout] Hids Hh Ht Hnum Hfr]. split; simpl; try done.
  - split.
    + intros l1 x l2 E. destruct (Hin l1 x l2 E) as (c & Hc & ?).
      rewrite lookup_insert_ne by congruence. eauto.
    + intros x c. rewrite lookup_insert_Some. intros [[-> ->]|[_ Hc]]; [done|]. by apply Hout.
  - intros x c. rewrite lookup_insert_Some. intros [[<- <-]|[_ Hc]]; [done|]. by apply Hids.
Qed.

Lemma payload_alter_commute (f : B → B) r h :
  (∀ b, erase (f b) = f (erase b)) → payload (alter f r h) = alter f r (payload h).
Proof.
  intros Hf. apply map_eq. intros i. unfold payload. rewrite lookup_fmap, !lookup_alter.
  case_decide; [subst; rewrite lookup_fmap; destruct (h !! i); simpl; [by rewrite Hf|done]|].
  by rewrite lookup_fmap.
Qed.

Lemma run_ops_repr os s l :
  Repr s l → Deque.ops_ok (dom (heap s)) os l →
  ∃ s', run_ops os s = ((Deque.run_ops os l).1, s') ∧
    Repr s' (Deque.run_ops os l).2 ∧ payload (heap s') = payload (heap s).
Proof.
  revert s l. induction os as [|o os IH]; intros s l HR; simpl; [by eauto|]. intros [Ho Hos].
  destruct (exec_run o s l HR Ho) as (s1 & E1 & HR1 & Hp1).
  destruct (IH s1 (Deque.exec o l).2) as (s2 & E2 & HR2 & Hp2); [done| |].
  { by rewrite (payload_dom _ _ Hp1). }
  rewrite E1. destruct (Deque.exec o l) as [r l1] eqn:Eo. simpl in *.
  rewrite E2. destruct (Deque.run_ops os l1) as [rs l2] eqn:Er. simpl in *.
  exists s2. split; [done|]. split; [done|]. congruence.
Qed.

End Queue.

End FreeQueue.

(** ** The queue refines a list *)
Module QueueProperties.
Import FreeQueue.
Import KVCacheBlock (fresh_heap, lookup_fresh_heap).



(** C39: built over the pool's fresh blocks, the intrusive doubly linked queue is
    indistinguishable from a plain list: for every sequence of [popleft], [remove]
    and [append] that keeps its contract, each call returns (or raises [ValueError]
    on an empty queue) exactly what the list operation gives, the links, head, tail,
    count and id set left behind represent the list the list operations leave, and
    no field of a block other than its two links has changed. *)
Theorem queue_refines_deque (n : Z) (os : list Deque.op) :
  Deque.ops_ok (list_to_set (zrange 0 n)) os (zrange 0 n) →
  ∃ s0 s,
    init (zrange 0 n) (mkst (fresh_heap n) no_queue) = (Ok tt, s0) ∧
    run_ops os s0 = ((Deque.run_ops os (zrange 0 n)).1, s) ∧
    Repr s (Deque.run_ops os (zrange 0 n)).2 ∧
    payload (heap s) = payload (fresh_heap n).
Proof.
  intros Hok.
  destruct (init_run (mkst (fresh_heap n) no_queue) (zrange 0 n)) as (s0 & E0 & Hp0 & HR0).
  - apply NoDup_zrange.
  - intros r b. simpl. rewrite lookup_fresh_heap. case_decide; [|done]. by intros [= <-].
  - intros r b. simpl. rewrite lookup_fresh_heap. case_decide; [|done]. by intros [= <-].
  - intros r Hr%elem_of_zrange. simpl. rewrite lookup_fresh_heap, decide_True by done. eauto.
  - destruct (run_ops_repr os s0 (zrange 0 n) HR0) as (s & E & HR & Hp).
    + rewrite (payload_dom _ _ Hp0). simpl. replace (dom (fresh_heap n)) with
        (list_to_set (zrange 0 n) : gset Z); [done|].
      apply set_eq. intros r. rewrite elem_of_list_to_set, elem_of_zrange, elem_of_dom,
        lookup_fresh_heap. case_decide; [naive_solver|]. split; [done|by intros [? ?]].
    + exists s0, s. rewrite Hp, Hp0. auto.
Qed.

Lemma queue_refines_deque_witness :
  ∃ s0 s,
    init (zrange 0 4) (mkst (fresh_heap 4) no_queue) = (Ok tt, s0) ∧
    run_ops [Deque.Popleft; Deque.Remove 2; Deque.Append 0; Deque.Popleft; Deque.Popleft;
             Deque.Popleft; Deque.Popleft] s0 =
      ([Ok (Some 0); Ok None; Ok None; Ok (Some 1); Ok (Some 3); Ok (Some 0); Raise ValueError], s) ∧
    Repr s [] ∧ payload (heap s) = payload (fresh_heap 4).
Proof.
  apply (queue_refines_deque 4 [Deque.Popleft; Deque.Remove 2; Deque.Append 0; Deque.Popleft;
    Deque.Popleft; Deque.Popleft; Deque.Popleft]).
  apply (bool_decide_eq_true_1 _). vm_compute. reflexivity.
Defined.

End QueueProperties.
