(* ===== verification/Pool.v ===== *)
(** * The device block pool (kv_cache/paged_kv_cache/block_pool.py)

    [BlockPool]: reference-counted KV blocks, the free queue that doubles as the LRU
    eviction list, and the prefix cache that maps block hashes to committed blocks.
    A free block may stay committed: it can be revived until the queue evicts it. *)

From S2P Require Import Prelude FreeQueue.

Module BlockPool.
Import KVCacheBlock.

Record t := mk {
  total_num_blocks : Z;
  enable_runtime_checks : bool;
  (** all block objects, by reference; the null block is one of them *)
  pool : gmap Z KVCacheBlock.t;
  free_block_queue : FreeQueue.queue;
  prefix_cache : gmap bytes Z;
  null_block : Z
}.

Definition set_pool (h : gmap Z KVCacheBlock.t) (p : t) : t :=
  mk (total_num_blocks p) (enable_runtime_checks p) h (free_block_queue p) (prefix_cache p)
    (null_block p).
Definition set_queue (q : FreeQueue.queue) (p : t) : t :=
  mk (total_num_blocks p) (enable_runtime_checks p) (pool p) q (prefix_cache p) (null_block p).
Definition set_cache (c : gmap bytes Z) (p : t) : t :=
  mk (total_num_blocks p) (enable_runtime_checks p) (pool p) (free_block_queue p) c (null_block p).

Definition block (r : Z) : M t KVCacheBlock.t :=
  let! p := get in of_option AttributeError (pool p !! r).
Definition on_block (r : Z) (f : KVCacheBlock.t → KVCacheBlock.t) : M t unit :=
  modify (λ p, set_pool (alter f r (pool p)) p).

(** A call into the free queue, which shares the block objects. *)
Definition queue_st (p : t) : FreeQueue.st KVCacheBlock.t :=
  FreeQueue.mkst (pool p) (free_block_queue p).
Definition in_queue {A} (m : M (FreeQueue.st KVCacheBlock.t) A) : M t A :=
  zoom queue_st (λ s p, set_queue (FreeQueue.q s) (set_pool (FreeQueue.heap s) p)) m.

(** The pool's blocks and, under the reference [total_num_blocks], the null block. *)
Definition init (total : Z) (checks : bool) : t :=
  let s := (FreeQueue.init (zrange 0 total)
              (FreeQueue.mkst (fresh_heap total) FreeQueue.no_queue)).2 in
  mk total checks (<[total := KVCacheBlock.mk total 42 None true None None]> (FreeQueue.heap s))
    (FreeQueue.q s) ∅ total.

Definition commit_into_prefix_cache (h : bytes) (r : Z) : M t unit :=
  let! b := block r in
  raise_if (is_null b) ValueError;;
  py_assert (bool_decide (block_hash b = None));;
  on_block r (set_hash (Some h));;
  let! p := get in
  py_assert (bool_decide (prefix_cache p !! h = None));;
  modify (λ p, set_cache (<[h := r]> (prefix_cache p)) p).

Definition touch (r : Z) : M t unit :=
  let! b := block r in
  when (ref_cnt b =? 0) (in_queue (FreeQueue.remove r));;
  on_block r (λ b, set_ref_cnt (ref_cnt b + 1) b).

Definition free_block (r : Z) : M t unit :=
  let! b := block r in
  if is_null b then ret tt else
  on_block r (set_ref_cnt (ref_cnt b - 1));;
  py_assert (0 <=? ref_cnt b - 1);;
  when (ref_cnt b - 1 =? 0) (in_queue (FreeQueue.append r)).

Definition get_or_commit_into_prefix_cache (h : bytes) (r : Z) : M t (option Z) :=
  let! p := get in
  match prefix_cache p !! h with
  | Some c =>
      let! b := block r in
      let! cb := block c in
      if _bid b =? _bid cb then ret None else
      touch c;;
      let! b := block r in
      py_assert (bool_decide (block_hash b = None));;
      free_block r;;
      ret (Some c)
  | None => commit_into_prefix_cache h r;; ret None
  end.

Definition uncommit_block (r : Z) : M t unit :=
  let! b := block r in
  match block_hash b with
  | None => raise AssertionError
  | Some h =>
      let! p := get in
      match prefix_cache p !! h with
      | None => ret tt
      | Some _ =>
          modify (λ p, set_cache (delete h (prefix_cache p)) p);;
          on_block r (set_hash None)
      end
  end.

Definition alloc_block : M t (Z * option bytes) :=
  let! r := in_queue FreeQueue.popleft in
  let! b := block r in
  py_assert (ref_cnt b =? 0);;
  let h := block_hash b in
  match h with Some _ => uncommit_block r | None => ret tt end;;
  on_block r (λ b, set_ref_cnt (ref_cnt b + 1) b);;
  let! b := block r in
  py_assert (bool_decide (block_hash b = None));;
  ret (r, h).

Definition free_blocks (p : t) : gset Z := FreeQueue.free_blocks (free_block_queue p).
Definition num_free_blocks (p : t) : Z := FreeQueue.num_free_blocks (free_block_queue p).

(** Purges the cached blocks nobody references. The dict's iteration order is
    [map_to_list]'s: it shows only in the order of the log message's count. *)
Definition reset_prefix_cache : M t unit :=
  let! p := get in
  let! blocks_to_purge := for_fold (map_to_list (prefix_cache p)) [] (λ acc '(h, r),
    let! b := block r in
    py_assert (bool_decide (block_hash b ≠ None));;
    if ref_cnt b >? 0 then ret acc
    else on_block r (set_hash None);; ret (acc ++ [h])) in
  for_each blocks_to_purge (λ h,
    let! p := get in
    raise_if (bool_decide (prefix_cache p !! h = None)) KeyError;;
    modify (λ p, set_cache (delete h (prefix_cache p)) p)).

Definition assert_runtime_invariants (active_bids : list Z) : M t unit :=
  let! p := get in
  if negb (enable_runtime_checks p) then ret tt else
  for_each (map_to_list (prefix_cache p)) (λ '(h, r),
    let! b := block r in
    py_assert (bool_decide (block_hash b ≠ None));;
    py_assert (bool_decide (block_hash b = Some h)));;
  py_assert (num_free_blocks p + Z.of_nat (size (list_to_set active_bids : gset Z))
             =? total_num_blocks p).

(** ** The invariant

    [view] is the pool's blocks with the queue's links forgotten. [fl] is the free
    list, in eviction order; [owned] counts the references outside the pool. *)

Definition view (p : t) : gmap Z KVCacheBlock.t := FreeQueue.payload (pool p).

Definition refs (r : Z) (owned : gmultiset Z) : Z := Z.of_nat (multiplicity r owned).

Definition block_ok (n : Z) (fl : list Z) (owned : gmultiset Z) (r : Z)
    (ob : option KVCacheBlock.t) : Prop :=
  match ob with
  | Some b =>
      if decide (r = n) then is_null b = true ∧ block_hash b = None ∧ 0 < ref_cnt b ∧ r ∉ fl
      else 0 ≤ r < n ∧ is_null b = false ∧ ref_cnt b = refs r owned ∧
           (r ∈ fl ↔ ref_cnt b = 0)
  | None => (r < 0 ∨ n < r) ∧ r ∉ fl
  end.

Definition cache_ok (c : gmap bytes Z) (v : gmap Z KVCacheBlock.t) : Prop :=
  ∀ h r, c !! h = Some r ↔ block_hash <$> v !! r = Some (Some h).

Record Inv (p : t) (fl : list Z) (owned : gmultiset Z) : Prop := {
  inv_repr : FreeQueue.Repr (queue_st p) fl;
  inv_null : null_block p = total_num_blocks p;
  inv_blocks : ∀ r, block_ok (total_num_blocks p) fl owned r (view p !! r);
  inv_cache : cache_ok (prefix_cache p) (view p)
}.

(** The parts of the pool no operation changes. *)
Definition same_config (p p' : t) : Prop :=
  total_num_blocks p' = total_num_blocks p ∧
  enable_runtime_checks p' = enable_runtime_checks p ∧ null_block p' = null_block p.

Lemma lookup_view p r : view p !! r = erase <$> pool p !! r.
Proof. unfold view, FreeQueue.payload. apply lookup_fmap. Qed.

Lemma lookup_view_inv p r b :
  view p !! r = Some b → ∃ b0, pool p !! r = Some b0 ∧ erase b0 = b.
Proof. rewrite lookup_view. destruct (pool p !! r); naive_solver. Qed.

(** A block of the pool, by its reference. *)
Definition real (p : t) (r : Z) : Prop := 0 ≤ r < total_num_blocks p.

Lemma inv_real p fl owned r :
  Inv p fl owned → real p r →
  ∃ b b0, view p !! r = Some b ∧ pool p !! r = Some b0 ∧ erase b0 = b ∧
    is_null b0 = false ∧ is_null b = false ∧ _bid b0 = r ∧
    ref_cnt b0 = refs r owned ∧ ref_cnt b = refs r owned ∧
    block_hash b = block_hash b0 ∧ (r ∈ fl ↔ refs r owned = 0).
Proof.
  intros HI [Hr1 Hr2]. pose proof (inv_blocks _ _ _ HI r) as Hb. unfold block_ok in Hb.
  destruct (view p !! r) as [b|] eqn:E; [|lia].
  rewrite decide_False in Hb by lia. destruct Hb as (_ & Hn & Hc & Hf).
  destruct (lookup_view_inv _ _ _ E) as (b0 & E0 & <-).
  exists (erase b0), b0. simpl in *. rewrite <- Hc. repeat split; try done; [|apply Hf..].
  apply (FreeQueue.repr_ids _ _ (inv_repr _ _ _ HI) r b0 E0).
Qed.

(** References a caller holds are references to blocks of the pool. *)
Lemma inv_free_real p fl owned r : Inv p fl owned → r ∈ fl → real p r.
Proof.
  intros HI Hr. pose proof (inv_blocks _ _ _ HI r) as Hb. unfold block_ok in Hb.
  destruct (view p !! r) as [b|]; [|tauto]. case_decide; [tauto|]. by destruct Hb.
Qed.

Lemma inv_cached_real p fl owned h r : Inv p fl owned → prefix_cache p !! h = Some r → real p r.
Proof.
  intros HI Hh. apply (inv_cache _ _ _ HI) in Hh.
  pose proof (inv_blocks _ _ _ HI r) as Hb. unfold block_ok in Hb.
  destruct (view p !! r) as [b|]; [|done]. case_decide; [naive_solver|]. by destruct Hb.
Qed.

Lemma inv_num_free p fl owned : Inv p fl owned → num_free_blocks p = len fl.
Proof. intros HI. exact (FreeQueue.repr_num _ _ (inv_repr _ _ _ HI)). Qed.

Lemma inv_free_blocks p fl owned r : Inv p fl owned → r ∈ free_blocks p ↔ r ∈ fl.
Proof.
  intros HI. unfold free_blocks.
  change (free_block_queue p) with (FreeQueue.q (queue_st p)).
  rewrite (FreeQueue.repr_free _ _ (inv_repr _ _ _ HI)). apply elem_of_list_to_set.
Qed.

(** ** Changing one block *)

Lemma view_on_block f r p :
  (∀ b, erase (f b) = f (erase b)) → view (set_pool (alter f r (pool p)) p) = alter f r (view p).
Proof. intros Hf. unfold view. simpl. by apply FreeQueue.payload_alter_commute. Qed.

Lemma repr_on_block f r p fl :
  (∀ b, prev_free_block (f b) = prev_free_block b ∧ next_free_block (f b) = next_free_block b ∧
        bid (f b) = bid b) →
  FreeQueue.Repr (queue_st p) fl →
  FreeQueue.Repr (queue_st (set_pool (alter f r (pool p)) p)) fl.
Proof. apply FreeQueue.Repr_alter. Qed.

(** Blocks other than [r] do not notice a change of [r]'s place in the free list
    and of its reference count. *)
Lemma blocks_ok_alter n fl fl' owned owned' (v : gmap Z KVCacheBlock.t) f r :
  (∀ x, block_ok n fl owned x (v !! x)) →
  (∀ x, x ≠ r → (x ∈ fl' ↔ x ∈ fl)) →
  (∀ x, x ≠ r → refs x owned' = refs x owned) →
  block_ok n fl' owned' r (f <$> v !! r) →
  ∀ x, block_ok n fl' owned' x (alter f r v !! x).
Proof.
  intros Hok Hfl Ho Hr x. rewrite lookup_alter. case_decide; [by subst|].
  specialize (Hok x). clear Hr. unfold block_ok in *.
  assert (x ∈ fl' ↔ x ∈ fl) as Hx by auto. assert (refs x owned' = refs x owned) as Hy by auto.
  destruct (v !! x) as [b|]; [case_decide|]; rewrite Hx, ?Hy; done.
Qed.

(** The cache does not notice a change that keeps the hash. *)
Lemma cache_ok_alter c v f r :
  (∀ b, block_hash (f b) = block_hash b) → cache_ok c v → cache_ok c (alter f r v).
Proof.
  intros Hf Hc h x. rewrite (Hc h x), lookup_alter. case_decide; [subst|done].
  destruct (v !! x) as [b|]; simpl; [by rewrite Hf|done].
Qed.

(** ** Operations under the invariant *)

Lemma in_queue_run {A} (m : M (FreeQueue.st KVCacheBlock.t) A) p a s' :
  m (queue_st p) = (Ok a, s') →
  in_queue m p = (Ok a, set_queue (FreeQueue.q s') (set_pool (FreeQueue.heap s') p)).
Proof. intros E. unfold in_queue, zoom. by rewrite E. Qed.

Lemma block_run p r b : pool p !! r = Some b → block r p = (Ok b, p).
Proof. intros E. unfold block, bind, get. by rewrite E. Qed.

Lemma queue_st_set s p : queue_st (set_queue (FreeQueue.q s) (set_pool (FreeQueue.heap s) p)) = s.
Proof. by destruct s. Qed.

Lemma view_queue s p :
  FreeQueue.payload (FreeQueue.heap s) = view p →
  view (set_queue (FreeQueue.q s) (set_pool (FreeQueue.heap s) p)) = view p.
Proof. done. Qed.

(** [Repr] facts about the links after the queue dropped or gained one member. *)
Lemma queue_remove_run p fl r :
  FreeQueue.Repr (queue_st p) fl → r ∈ fl →
  ∃ p', in_queue (FreeQueue.remove r) p = (Ok tt, p') ∧
    FreeQueue.Repr (queue_st p') (filter (λ x, x ≠ r) fl) ∧ view p' = view p ∧
    prefix_cache p' = prefix_cache p ∧ same_config p p'.
Proof.
  intros HR (l1 & l2 & ->)%list_elem_of_split.
  destruct (FreeQueue.remove_run _ _ _ _ HR) as (s' & E & Hh & HR').
  rewrite Deque.filter_ne_middle by apply (FreeQueue.repr_nodup _ _ HR).
  eexists. split; [apply (in_queue_run _ _ _ _ E)|]. rewrite queue_st_set. split; [done|].
  split; [|done]. apply view_queue. rewrite Hh. apply FreeQueue.payload_unlinked.
Qed.

Lemma queue_append_run p fl r :
  FreeQueue.Repr (queue_st p) fl → r ∉ fl → is_Some (pool p !! r) →
  ∃ p', in_queue (FreeQueue.append r) p = (Ok tt, p') ∧
    FreeQueue.Repr (queue_st p') (fl ++ [r]) ∧ view p' = view p ∧
    prefix_cache p' = prefix_cache p ∧ same_config p p'.
Proof.
  intros HR Hr Hs. destruct (FreeQueue.append_run _ _ _ HR Hr Hs) as (s' & E & Hh & HR').
  eexists. split; [apply (in_queue_run _ _ _ _ E)|]. rewrite queue_st_set. split; [done|].
  split; [|done]. apply view_queue. rewrite Hh. apply FreeQueue.payload_linked_last.
Qed.

Lemma elem_of_filter_ne x r (l : list Z) : x ∈ filter (λ y, y ≠ r) l ↔ x ≠ r ∧ x ∈ l.
Proof. by rewrite list_elem_of_filter. Qed.

Lemma filter_ne_notin r (l : list Z) : r ∉ l → filter (λ y, y ≠ r) l = l.
Proof.
  induction l as [|y l IH]; intros Hl; [done|].
  rewrite filter_cons_True by set_solver. f_equal. apply IH. set_solver.
Qed.

Lemma refs_add_ne x r owned : x ≠ r → refs x ({[+ r +]} ⊎ owned) = refs x owned.
Proof.
  intros. unfold refs. rewrite multiplicity_disj_union, multiplicity_singleton_ne by done. lia.
Qed.
Lemma refs_add r owned : refs r ({[+ r +]} ⊎ owned) = refs r owned + 1.
Proof.
  unfold refs. rewrite multiplicity_disj_union, multiplicity_singleton_eq. lia.
Qed.
Lemma refs_nonneg r owned : 0 ≤ refs r owned.
Proof. unfold refs. lia. Qed.

Lemma touch_run p fl owned r :
  Inv p fl owned → real p r →
  ∃ p', touch r p = (Ok tt, p') ∧
    Inv p' (filter (λ x, x ≠ r) fl) ({[+ r +]} ⊎ owned) ∧
    view p' = alter (λ b, set_ref_cnt (ref_cnt b + 1) b) r (view p) ∧
    prefix_cache p' = prefix_cache p ∧ same_config p p'.
Proof.
  intros HI Hr. destruct (inv_real _ _ _ _ HI Hr)
    as (b & b0 & Hv & Hp & Hb & Hn0 & Hn & Hid & Hc0 & Hc & Hh & Hfl).
  assert (∃ p1, when (ref_cnt b0 =? 0) (in_queue (FreeQueue.remove r)) p = (Ok tt, p1) ∧
    FreeQueue.Repr (queue_st p1) (filter (λ x, x ≠ r) fl) ∧ view p1 = view p ∧
    prefix_cache p1 = prefix_cache p ∧ same_config p p1) as (p1 & E1 & HR1 & Hv1 & Hpc1 & Hs1).
  { rewrite Hc0. destruct (refs r owned =? 0) eqn:E0; simpl.
    - apply queue_remove_run; [apply HI|]. apply Hfl. lia.
    - exists p. rewrite filter_ne_notin by (rewrite Hfl; lia). split; [done|]. split; [apply HI|done]. }
  set (f := λ b, set_ref_cnt (ref_cnt b + 1) b).
  exists (set_pool (alter f r (pool p1)) p1).
  assert (view (set_pool (alter f r (pool p1)) p1) = alter f r (view p)) as Hv2.
  { rewrite view_on_block by done. by rewrite Hv1. }
  split; [|split; [|done]].
  - unfold touch, block, bind, get, of_option. rewrite Hp. simpl. unfold ret. by rewrite E1.
  - destruct Hs1 as (Ht & Hck & Hnl). split.
    + by apply repr_on_block.
    + simpl. rewrite Hnl, Ht. apply HI.
    + rewrite Hv2. simpl. rewrite Ht. apply blocks_ok_alter with fl owned.
      * apply HI.
      * intros x Hx. rewrite elem_of_filter_ne. naive_solver.
      * intros x Hx. by apply refs_add_ne.
      * rewrite Hv. simpl. rewrite decide_False by (destruct Hr; lia). split; [done|].
        split; [done|]. rewrite refs_add, Hc. split; [done|]. rewrite elem_of_filter_ne.
        pose proof (refs_nonneg r owned). split; [tauto|lia].
    + rewrite Hv2. simpl. rewrite Hpc1. apply cache_ok_alter; [done|]. apply HI.
Qed.

Lemma free_block_run p fl owned r :
  Inv p fl ({[+ r +]} ⊎ owned) → real p r →
  ∃ p', free_block r p = (Ok tt, p') ∧
    Inv p' (if decide (refs r owned = 0) then fl ++ [r] else fl) owned ∧
    view p' = alter (λ b, set_ref_cnt (ref_cnt b - 1) b) r (view p) ∧
    prefix_cache p' = prefix_cache p ∧ same_config p p'.
Proof.
  intros HI Hr. destruct (inv_real _ _ _ _ HI Hr)
    as (b & b0 & Hv & Hp & Hb & Hn0 & Hn & Hid & Hc0 & Hc & Hh & Hfl).
  rewrite refs_add in *. pose proof (refs_nonneg r owned) as Hpos.
  set (f := λ b, set_ref_cnt (ref_cnt b - 1) b).
  set (g := set_ref_cnt (ref_cnt b0 - 1)).
  set (p1 := set_pool (alter g r (pool p)) p).
  assert (view p1 = alter f r (view p)) as Hv1.
  { unfold p1. rewrite view_on_block by done. apply map_eq. intros x.
    rewrite !lookup_alter. case_decide as Hx; [|done]. rewrite Hv. simpl. unfold f, g.
    by rewrite Hc0, Hc. }
  assert (FreeQueue.Repr (queue_st p1) fl) as HR1 by (apply repr_on_block; [done|apply HI]).
  assert (r ∉ fl) as Hrfl by (rewrite Hfl; lia).
  assert (∃ p2, when (ref_cnt b0 - 1 =? 0) (in_queue (FreeQueue.append r)) p1 = (Ok tt, p2) ∧
    FreeQueue.Repr (queue_st p2) (if decide (refs r owned = 0) then fl ++ [r] else fl) ∧
    view p2 = view p1 ∧ prefix_cache p2 = prefix_cache p1 ∧ same_config p1 p2)
    as (p2 & E2 & HR2 & Hv2 & Hpc2 & Hs2).
  { rewrite Hc0. case_decide as Hz.
    - replace (refs r owned + 1 - 1 =? 0) with true by lia. unfold when.
      apply queue_append_run; [done|done|].
      unfold p1. simpl. rewrite lookup_alter_eq, Hp. eauto.
    - replace (refs r owned + 1 - 1 =? 0) with false by lia. simpl. by exists p1. }
  exists p2. rewrite Hv2, Hpc2. split; [|split; [|done]].
  - unfold free_block, block, bind, get, of_option. rewrite Hp. simpl. unfold ret. rewrite Hn0.
    unfold on_block, modify, py_assert. fold g p1.
    replace (0 <=? ref_cnt b0 - 1) with true by lia. unfold ret. by rewrite E2.
  - destruct Hs2 as (Ht & Hck & Hnl). split.
    + done.
    + rewrite Hnl, Ht. apply HI.
    + rewrite Hv2, Hv1, Ht. apply blocks_ok_alter with fl ({[+ r +]} ⊎ owned).
      * apply HI.
      * intros x Hx. case_decide as Hz; [|done]. rewrite elem_of_app, list_elem_of_singleton. tauto.
      * intros x Hx. symmetry. by apply refs_add_ne.
      * rewrite Hv. simpl. rewrite decide_False by (destruct Hr; lia). split; [done|].
        split; [done|]. rewrite Hc. split; [lia|]. case_decide as Hz.
        -- rewrite elem_of_app, list_elem_of_singleton. split; [lia|tauto].
        -- split; [done|lia].
    + rewrite Hv2, Hv1, Hpc2. simpl. apply cache_ok_alter; [done|]. apply HI.
Qed.

(** The hash a block carries. *)
Definition cached_hash (p : t) (r : Z) : option bytes := from_option block_hash None (view p !! r).

Lemma cache_ok_delete c v h r :
  cache_ok c v → block_hash <$> v !! r = Some (Some h) →
  cache_ok (delete h c) (alter (set_hash None) r v).
Proof.
  intros Hc Hr h' x. rewrite lookup_alter. case_decide as Hx; [subst x|].
  - rewrite lookup_delete_Some. split.
    + intros [Hne Hl%Hc]. congruence.
    + by destruct (v !! r).
  - rewrite <- (Hc h' x), lookup_delete_Some. split; [tauto|]. intros Hl. split; [|done].
    intros ->. apply Hc in Hr. congruence.
Qed.

Lemma cache_ok_insert c v h r :
  cache_ok c v → c !! h = None → block_hash <$> v !! r = Some None →
  cache_ok (<[h := r]> c) (alter (set_hash (Some h)) r v).
Proof.
  intros Hc Hh Hr h' x. rewrite lookup_alter, lookup_insert_Some. case_decide as Hx; [subst x|].
  - split.
    + intros [[-> _]|[_ Hl%Hc]]; [|congruence]. by destruct (v !! r).
    + intros E. left. destruct (v !! r); simplify_eq/=. done.
  - rewrite <- (Hc h' x). split; [naive_solver|]. intros Hl. right. split; [congruence|done].
Qed.

Lemma queue_popleft_run p r fl :
  FreeQueue.Repr (queue_st p) (r :: fl) →
  ∃ p', in_queue FreeQueue.popleft p = (Ok r, p') ∧
    FreeQueue.Repr (queue_st p') fl ∧ view p' = view p ∧
    prefix_cache p' = prefix_cache p ∧ same_config p p'.
Proof.
  intros HR. destruct (FreeQueue.popleft_run _ _ HR) as (s' & E & Hh & HR').
  eexists. split; [apply (in_queue_run _ _ _ _ E)|]. rewrite queue_st_set. split; [done|].
  split; [|done]. apply view_queue. rewrite Hh. apply FreeQueue.payload_unlinked.
Qed.

(** Evicting a committed block. *)
Lemma uncommit_run p r b h :
  pool p !! r = Some b → block_hash b = Some h → cache_ok (prefix_cache p) (view p) →
  ∃ p', uncommit_block r p = (Ok tt, p') ∧
    (∀ fl, FreeQueue.Repr (queue_st p) fl → FreeQueue.Repr (queue_st p') fl) ∧
    view p' = alter (set_hash None) r (view p) ∧
    prefix_cache p' = delete h (prefix_cache p) ∧
    cache_ok (prefix_cache p') (view p') ∧ same_config p p'.
Proof.
  intros Hb Hh Hc.
  assert (block_hash <$> view p !! r = Some (Some h)) as Hvh.
  { rewrite lookup_view, Hb. simpl. by rewrite Hh. }
  exists (set_pool (alter (set_hash None) r (pool p)) (set_cache (delete h (prefix_cache p)) p)).
  assert (∀ c, view (set_pool (alter (set_hash None) r (pool p)) (set_cache c p)) =
    alter (set_hash None) r (view p)) as Hv.
  { intros c. unfold view. simpl. by apply FreeQueue.payload_alter_commute. }
  rewrite Hv. simpl. split_and!; try done.
  - unfold uncommit_block, block, bind, get, of_option. rewrite Hb. simpl. unfold ret. rewrite Hh.
    apply Hc in Hvh. by rewrite Hvh.
  - intros fl HR. by apply FreeQueue.Repr_alter with (s := queue_st p).
  - by apply cache_ok_delete.
Qed.

(** The eviction step of [alloc_block], whether or not the block was committed. *)
Lemma evict_run p r b :
  pool p !! r = Some b → cache_ok (prefix_cache p) (view p) →
  ∃ p', match block_hash b with Some _ => uncommit_block r | None => ret tt end p = (Ok tt, p') ∧
    (∀ fl, FreeQueue.Repr (queue_st p) fl → FreeQueue.Repr (queue_st p') fl) ∧
    view p' = alter (set_hash None) r (view p) ∧
    prefix_cache p' = match block_hash b with
                      | Some h => delete h (prefix_cache p) | None => prefix_cache p end ∧
    cache_ok (prefix_cache p') (view p') ∧ same_config p p'.
Proof.
  intros Hb Hc. destruct (block_hash b) as [h|] eqn:Hh.
  - by apply uncommit_run with b.
  - exists p. split_and!; try done.
    apply map_eq. intros x. rewrite lookup_alter. case_decide; [|done]. subst.
    rewrite lookup_view, Hb. simpl. by rewrite Hh.
Qed.

(** The block handed out is the least recently freed one; its committed contents,
    if it had any, are evicted from the cache. *)
Lemma alloc_block_run p fl owned r :
  Inv p (r :: fl) owned →
  ∃ p', alloc_block p = (Ok (r, cached_hash p r), p') ∧
    Inv p' fl ({[+ r +]} ⊎ owned) ∧ real p r ∧ refs r owned = 0 ∧
    view p' = alter (λ b, set_ref_cnt 1 (set_hash None b)) r (view p) ∧
    prefix_cache p' =
      match cached_hash p r with
      | Some h => delete h (prefix_cache p)
      | None => prefix_cache p
      end ∧ same_config p p'.
Proof.
  intros HI. assert (real p r) as Hr by (eapply inv_free_real; [done|left]).
  destruct (inv_real _ _ _ _ HI Hr)
    as (b & b0 & Hv & Hp & Hb & Hn0 & Hn & Hid & Hc0 & Hc & Hh & Hfl).
  assert (refs r owned = 0) as Hz by (apply Hfl; left).
  destruct (queue_popleft_run p r fl (inv_repr _ _ _ HI))
    as (p1 & E1 & HR1 & Hv1 & Hpc1 & Ht1 & Hck1 & Hnl1).
  assert (∃ b1, pool p1 !! r = Some b1 ∧ erase b1 = erase b0) as (b1 & Hp1 & Hb1).
  { apply lookup_view_inv. by rewrite Hv1, Hv, Hb. }
  assert (ref_cnt b1 = 0 ∧ block_hash b1 = block_hash b0) as [Hr1 Hh1].
  { destruct b0, b1; simplify_eq/=. done. }
  destruct (evict_run p1 r b1 Hp1) as (p2 & E2 & HR2 & Hv2 & Hpc2 & Hc2 & Ht2 & Hck2 & Hnl2).
  { rewrite Hpc1, Hv1. apply HI. }
  specialize (HR2 fl HR1). rewrite Hv1 in Hv2. rewrite Hpc1 in Hpc2.
  assert (∃ b2, pool p2 !! r = Some b2 ∧ erase b2 = set_hash None b) as (b2 & Hp2 & Hb2).
  { apply lookup_view_inv. by rewrite Hv2, lookup_alter_eq, Hv. }
  assert (ref_cnt b2 = 0 ∧ block_hash b2 = None) as [Hr2 Hh2].
  { pose proof (f_equal ref_cnt Hb2). pose proof (f_equal block_hash Hb2). simpl in *.
    split; congruence. }
  set (inc := λ b, set_ref_cnt (ref_cnt b + 1) b).
  exists (set_pool (alter inc r (pool p2)) p2).
  assert (view (set_pool (alter inc r (pool p2)) p2) =
    alter (λ b, set_ref_cnt 1 (set_hash None b)) r (view p)) as Hv3.
  { rewrite view_on_block, Hv2 by done. apply map_eq. intros x.
    rewrite !lookup_alter. case_decide; [|done]. rewrite Hv. simpl. unfold inc.
    rewrite decide_True by done. simpl. unfold set_ref_cnt. simpl. by rewrite Hc, Hz. }
  rewrite Hv3. unfold cached_hash. rewrite Hv. simpl. rewrite Hh, <- Hh1. split_and!; try done.
  - unfold alloc_block. mstep E1. mstep (block_run _ _ _ Hp1).
    mstep (py_assert_true (ref_cnt b1 =? 0) p1 ltac:(lia)). mstep E2.
    assert (on_block r inc p2 = (Ok tt, set_pool (alter inc r (pool p2)) p2)) as E3 by done.
    mstep E3. erewrite bind_run; [|apply (block_run _ r (inc b2)); simpl; by rewrite lookup_alter_eq, Hp2].
    simpl. rewrite Hh2. done.
  - split.
    + by apply FreeQueue.Repr_alter with (s := queue_st p2).
    + simpl. rewrite Hnl2, Hnl1, Ht2, Ht1. apply HI.
    + rewrite Hv3. simpl. rewrite Ht2, Ht1. apply blocks_ok_alter with (r :: fl) owned.
      * apply HI.
      * intros x Hx. set_solver.
      * intros x Hx. by apply refs_add_ne.
      * rewrite Hv. simpl. rewrite decide_False by (destruct Hr; lia). split; [done|].
        split; [done|]. rewrite refs_add, Hz. split; [done|].
        pose proof (FreeQueue.repr_nodup _ _ (inv_repr _ _ _ HI)) as [? ?]%NoDup_cons. done.
    + rewrite view_on_block by done. simpl. by apply cache_ok_alter.
  - repeat split; simpl; congruence.
Qed.

Lemma alloc_block_empty p owned :
  Inv p [] owned → ∃ p', alloc_block p = (Raise ValueError, p') ∧ p' = p.
Proof.
  intros HI. exists p. split; [|done]. unfold alloc_block, bind, in_queue, zoom.
  rewrite (FreeQueue.popleft_run _ _ (inv_repr _ _ _ HI)). by destruct p.
Qed.

Lemma commit_run p fl owned h r :
  Inv p fl owned → real p r → cached_hash p r = None → prefix_cache p !! h = None →
  ∃ p', commit_into_prefix_cache h r p = (Ok tt, p') ∧ Inv p' fl owned ∧
    view p' = alter (set_hash (Some h)) r (view p) ∧
    prefix_cache p' = <[h := r]> (prefix_cache p) ∧ same_config p p'.
Proof.
  intros HI Hr Hnone Hh. destruct (inv_real _ _ _ _ HI Hr)
    as (b & b0 & Hv & Hp & Hb & Hn0 & Hn & Hid & Hc0 & Hc & Hbh & Hfl).
  unfold cached_hash in Hnone. rewrite Hv in Hnone. simpl in Hnone.
  exists (set_cache (<[h := r]> (prefix_cache p)) (set_pool (alter (set_hash (Some h)) r (pool p)) p)).
  assert (∀ c, view (set_cache c (set_pool (alter (set_hash (Some h)) r (pool p)) p)) =
    alter (set_hash (Some h)) r (view p)) as Hvw.
  { intros c. unfold view. simpl. by apply FreeQueue.payload_alter_commute. }
  rewrite Hvw. split_and!; try done.
  - unfold commit_into_prefix_cache. mstep (block_run _ _ _ Hp).
    mstep (raise_if_false (is_null b0) ValueError p Hn0).
    erewrite bind_run; [|apply py_assert_true; apply bool_decide_eq_true_2; congruence].
    unfold on_block, get, py_assert. run_unfold. simpl. rewrite Hh. done.
  - split.
    + by apply FreeQueue.Repr_alter with (s := queue_st p); [|apply HI].
    + apply HI.
    + rewrite Hvw. apply blocks_ok_alter with fl owned; [apply HI|done|done|].
      pose proof (inv_blocks _ _ _ HI r) as Hok. rewrite Hv in *. simpl in *.
      by rewrite decide_False in * by (destruct Hr; lia).
    + rewrite Hvw. simpl. apply cache_ok_insert; [apply HI|done|]. rewrite Hv. simpl. by rewrite Hnone.
Qed.

Lemma refs_swap (r c : Z) (owned : gmultiset Z) :
  {[+ c +]} ⊎ ({[+ r +]} ⊎ owned) = {[+ r +]} ⊎ ({[+ c +]} ⊎ owned).
Proof. multiset_solver. Qed.

Lemma cached_hash_alter f r p p' x :
  view p' = alter f r (view p) → (∀ b, block_hash (f b) = block_hash b) →
  cached_hash p' x = cached_hash p x.
Proof.
  intros Hv Hf. unfold cached_hash. rewrite Hv, lookup_alter. case_decide; [subst|done].
  by destruct (view p !! x); simpl.
Qed.

(** Committing a block whose hash another block already holds: the caller swaps
    its reference for one to the committed block. *)
Lemma get_or_commit_hit p fl owned h r c :
  Inv p fl ({[+ r +]} ⊎ owned) → real p r → prefix_cache p !! h = Some c → c ≠ r →
  cached_hash p r = None →
  ∃ p' fl', get_or_commit_into_prefix_cache h r p = (Ok (Some c), p') ∧
    Inv p' fl' ({[+ c +]} ⊎ owned) ∧
    fl' = (if decide (refs r owned = 0) then filter (λ x, x ≠ c) fl ++ [r]
           else filter (λ x, x ≠ c) fl) ∧
    prefix_cache p' = prefix_cache p ∧ same_config p p' ∧
    (∀ x, cached_hash p' x = cached_hash p x).
Proof.
  intros HI Hr Hh Hne Hnone. pose proof (inv_cached_real _ _ _ _ _ HI Hh) as Hcr.
  destruct (inv_real _ _ _ _ HI Hr)
    as (b & b0 & Hv & Hp & Hb & Hn0 & Hn & Hid & Hc0 & Hc & Hbh & Hfl).
  destruct (inv_real _ _ _ _ HI Hcr)
    as (cb & cb0 & Hcv & Hcp & Hcb & _ & _ & Hcid & _).
  destruct (touch_run _ _ _ _ HI Hcr) as (p1 & E1 & HI1 & Hv1 & Hpc1 & Hs1).
  rewrite refs_swap in HI1.
  assert (real p1 r) as Hr1 by (unfold real in *; destruct Hs1 as [-> _]; done).
  destruct (inv_real _ _ _ _ HI1 Hr1) as (b1 & b10 & Hv1r & Hp1 & _ & _ & _ & _ & _ & _ & Hbh1 & _).
  assert (block_hash b10 = None) as Hb10.
  { pose proof (cached_hash_alter _ _ _ _ r Hv1 (λ b, eq_refl)) as E.
    rewrite Hnone in E. unfold cached_hash in E. rewrite Hv1r in E. simpl in E. congruence. }
  destruct (free_block_run _ _ _ _ HI1 Hr1) as (p2 & E2 & HI2 & Hv2 & Hpc2 & Hs2).
  rewrite refs_add_ne in HI2 by done.
  exists p2. eexists. split; [|split; [exact HI2|]]; [|split_and!].
  - unfold get_or_commit_into_prefix_cache. unfold bind at 1, get. rewrite Hh.
    mstep (block_run _ _ _ Hp). mstep (block_run _ _ _ Hcp).
    rewrite (proj2 (Z.eqb_neq (_bid b0) (_bid cb0))) by congruence.
    mstep E1. mstep (block_run _ _ _ Hp1).
    erewrite bind_run; [|apply py_assert_true; by apply bool_decide_eq_true_2]. mstep E2. done.
  - done.
  - congruence.
  - destruct Hs1 as (? & ? & ?), Hs2 as (? & ? & ?). repeat split; congruence.
  - intros x. rewrite (cached_hash_alter _ _ _ _ x Hv2 (λ b, eq_refl)).
    apply (cached_hash_alter _ _ _ _ x Hv1 (λ b, eq_refl)).
Qed.

Lemma get_or_commit_self p fl owned h r :
  Inv p fl owned → prefix_cache p !! h = Some r →
  get_or_commit_into_prefix_cache h r p = (Ok None, p).
Proof.
  intros HI Hh. pose proof (inv_cached_real _ _ _ _ _ HI Hh) as Hr.
  destruct (inv_real _ _ _ _ HI Hr) as (b & b0 & Hv & Hp & _).
  unfold get_or_commit_into_prefix_cache. unfold bind at 1, get. rewrite Hh.
  mstep (block_run _ _ _ Hp). mstep (block_run _ _ _ Hp). by rewrite Z.eqb_refl.
Qed.

Lemma get_or_commit_new p fl owned h r :
  Inv p fl owned → real p r → cached_hash p r = None → prefix_cache p !! h = None →
  ∃ p', get_or_commit_into_prefix_cache h r p = (Ok None, p') ∧ Inv p' fl owned ∧
    view p' = alter (set_hash (Some h)) r (view p) ∧
    prefix_cache p' = <[h := r]> (prefix_cache p) ∧ same_config p p'.
Proof.
  intros HI Hr Hnone Hh. destruct (commit_run _ _ _ _ _ HI Hr Hnone Hh) as (p' & E & H).
  exists p'. split; [|done]. unfold get_or_commit_into_prefix_cache. unfold bind at 1, get.
  rewrite Hh. mstep E. done.
Qed.

(** ** [reset_prefix_cache] *)

(** The body of its first loop. *)
Definition purge_one (acc : list bytes) '((h, r) : bytes * Z) : M t (list bytes) :=
  let! b := block r in
  py_assert (bool_decide (block_hash b ≠ None));;
  if ref_cnt b >? 0 then ret acc
  else on_block r (set_hash None);; ret (acc ++ [h]).

Definition purged_block (L : list (bytes * Z)) (r : Z) (b : KVCacheBlock.t) : KVCacheBlock.t :=
  if decide (r ∈ L.*2 ∧ ref_cnt b = 0) then set_hash None b else b.

Lemma purge_one_run p acc h r b :
  view p !! r = Some b → block_hash b = Some h → 0 ≤ ref_cnt b →
  ∃ p', purge_one acc (h, r) p = (Ok (if decide (ref_cnt b = 0) then acc ++ [h] else acc), p') ∧
    (∀ fl, FreeQueue.Repr (queue_st p) fl → FreeQueue.Repr (queue_st p') fl) ∧
    view p' = alter (λ b, if decide (ref_cnt b = 0) then set_hash None b else b) r (view p) ∧
    prefix_cache p' = prefix_cache p ∧ same_config p p'.
Proof.
  intros Hv Hh Hpos. destruct (lookup_view_inv _ _ _ Hv) as (b0 & Hp & <-). simpl in *.
  assert (∀ m, py_assert (bool_decide (block_hash b0 ≠ None)) p = (Ok tt, m) ↔ m = p) as Ha.
  { intros m. rewrite bool_decide_eq_true_2 by congruence. split; [by intros [=]|by intros ->]. }
  unfold purge_one. rewrite (bind_run _ _ _ _ _ (block_run _ _ _ Hp)).
  rewrite (bind_run _ _ _ _ _ (proj2 (Ha p) eq_refl)).
  case_decide as Hz.
  - replace (ref_cnt b0 >? 0) with false by lia.
    exists (set_pool (alter (set_hash None) r (pool p)) p). split_and!; try done.
    + intros fl HR. by apply FreeQueue.Repr_alter with (s := queue_st p).
    + rewrite view_on_block by done. apply map_eq. intros x. rewrite !lookup_alter.
      case_decide; [|done]. rewrite Hv. simpl. by rewrite Hz.
  - replace (ref_cnt b0 >? 0) with true by lia.
    exists p. split_and!; try done. apply map_eq. intros x. rewrite lookup_alter.
    case_decide; [|done]. subst. rewrite Hv. simpl. by rewrite decide_False.
Qed.

Lemma purge_loop L acc p :
  NoDup L.*2 →
  (∀ h r, (h, r) ∈ L → ∃ b, view p !! r = Some b ∧ block_hash b = Some h ∧ 0 ≤ ref_cnt b) →
  ∃ p', for_fold L acc purge_one p =
      (Ok (acc ++ (filter (λ e, ref_cnt <$> view p !! e.2 = Some 0) L).*1), p') ∧
    (∀ fl, FreeQueue.Repr (queue_st p) fl → FreeQueue.Repr (queue_st p') fl) ∧
    (∀ r, view p' !! r = purged_block L r <$> view p !! r) ∧
    prefix_cache p' = prefix_cache p ∧ same_config p p'.
Proof.
  revert acc p. induction L as [|[h r] L IH]; intros acc p Hnd HL; simpl.
  - exists p. rewrite app_nil_r. split_and!; try done. intros r.
    destruct (view p !! r) as [b|]; [|done]. change (Some b = Some (purged_block [] r b)).
    unfold purged_block. by rewrite decide_False by set_solver.
  - rewrite fmap_cons in Hnd. apply NoDup_cons in Hnd as [Hr Hnd].
    destruct (HL h r) as (b & Hv & Hh & Hpos); [left|].
    destruct (purge_one_run p acc h r b Hv Hh Hpos) as (p1 & E1 & HR1 & Hv1 & Hc1 & Hs1).
    mstep E1.
    assert (∀ x, x ≠ r → view p1 !! x = view p !! x) as Hne.
    { intros x Hx. by rewrite Hv1, lookup_alter_ne. }
    destruct (IH (if decide (ref_cnt b = 0) then acc ++ [h] else acc) p1) as (p2 & E2 & HR2 & Hv2 & Hc2 & Hs2);
      [done| |].
    { intros h' r' Hin. rewrite Hne; [apply HL; by right|]. intros ->. apply Hr.
      by apply (list_elem_of_fmap_2 snd _ (h', r)). }
    exists p2. rewrite E2. split_and!.
    + f_equal. f_equal. rewrite filter_cons. simpl. rewrite Hv. simpl.
      assert (filter (λ e, ref_cnt <$> view p1 !! e.2 = Some 0) L =
              filter (λ e, ref_cnt <$> view p !! e.2 = Some 0) L) as ->.
      { apply filter_ext_in. intros [h' r'] Hin. simpl. rewrite Hne; [done|].
        intros ->. apply Hr. by apply (list_elem_of_fmap_2 snd _ (h', r)). }
      destruct (decide (ref_cnt b = 0)); [rewrite decide_True by congruence|by rewrite decide_False by congruence].
      by rewrite <- app_assoc.
    + auto.
    + intros x. rewrite Hv2. unfold purged_block. destruct (decide (x = r)) as [->|Hx].
      * rewrite Hv1, lookup_alter_eq, Hv. simpl. repeat case_decide; simplify_eq; try done; set_solver.
      * rewrite Hne by done. destruct (view p !! x) as [bx|]; [|done]. simpl.
        repeat case_decide; try done; set_solver.
    + congruence.
    + destruct Hs1 as (? & ? & ?), Hs2 as (? & ? & ?). repeat split; congruence.
Qed.

(** The body of its second loop. *)
Definition uncache (h : bytes) : M t unit :=
  let! p := get in
  raise_if (bool_decide (prefix_cache p !! h = None)) KeyError;;
  modify (λ p, set_cache (delete h (prefix_cache p)) p).

Lemma uncache_loop hs p :
  NoDup hs → (∀ h, h ∈ hs → is_Some (prefix_cache p !! h)) →
  ∃ c, for_each hs uncache p = (Ok tt, set_cache c p) ∧
    (∀ h, c !! h = if decide (h ∈ hs) then None else prefix_cache p !! h).
Proof.
  revert p. induction hs as [|h hs IH]; intros p Hnd Hin; simpl.
  - exists (prefix_cache p). destruct p. split; [done|]. done.
  - apply NoDup_cons in Hnd as [Hh Hnd].
    assert (uncache h p = (Ok tt, set_cache (delete h (prefix_cache p)) p)) as E.
    { unfold uncache. run_unfold. rewrite bool_decide_eq_false_2; [done|].
      destruct (Hin h) as [? ->]; [left|done]. }
    mstep E. destruct (IH (set_cache (delete h (prefix_cache p)) p)) as (c & E2 & Hc); [done| |].
    { intros h' Hh'. simpl. rewrite lookup_delete_ne by set_solver. apply Hin. by right. }
    exists c. split; [done|]. intros h'. rewrite Hc. simpl. rewrite lookup_delete.
    repeat case_decide; try done; set_solver.
Qed.

Lemma reset_prefix_cache_run p fl owned :
  Inv p fl owned →
  ∃ p', reset_prefix_cache p = (Ok tt, p') ∧ Inv p' fl owned ∧
    (∀ h r, prefix_cache p' !! h = Some r ↔ prefix_cache p !! h = Some r ∧ refs r owned ≠ 0) ∧
    same_config p p'.
Proof.
  intros HI. set (L := map_to_list (prefix_cache p)).
  assert (∀ h r, (h, r) ∈ L → ∃ b, view p !! r = Some b ∧ block_hash b = Some h ∧
    ref_cnt b = refs r owned) as HL.
  { intros h r Hin%elem_of_map_to_list. pose proof (inv_cached_real _ _ _ _ _ HI Hin) as Hr.
    destruct (inv_real _ _ _ _ HI Hr) as (b & b0 & Hv & _ & _ & _ & _ & _ & _ & Hc & _).
    exists b. split_and!; [done| |done]. apply (inv_cache _ _ _ HI) in Hin. rewrite Hv in Hin.
    by simplify_eq/=. }
  assert (NoDup L.*2) as Hnd.
  { apply NoDup_fmap_2_strong; [|apply NoDup_map_to_list].
    intros [h1 r1] [h2 r2] H1 H2 E. simpl in E. subst r2.
    destruct (HL _ _ H1) as (b1 & Hv1 & Hh1 & _), (HL _ _ H2) as (b2 & Hv2 & Hh2 & _). congruence. }
  destruct (purge_loop L [] p Hnd) as (p1 & E1 & HR1 & Hv1 & Hc1 & Hs1).
  { intros h r Hin. destruct (HL h r Hin) as (b & ? & ? & Hc). exists b. split_and!; try done.
    rewrite Hc. apply refs_nonneg. }
  set (hs := (filter (λ e, ref_cnt <$> view p !! e.2 = Some 0) L).*1) in *.
  assert (∀ h, h ∈ hs ↔ ∃ r, prefix_cache p !! h = Some r ∧ refs r owned = 0) as Hhs.
  { intros h. unfold hs. rewrite list_elem_of_fmap. split.
    - intros ([h' r] & -> & [Hz Hin]%list_elem_of_filter). destruct (HL _ _ Hin) as (b & Hv & _ & Hc).
      simpl in *. rewrite Hv in Hz. simplify_eq/=. exists r. apply elem_of_map_to_list in Hin.
      split; [done|congruence].
    - intros (r & Hr & Hz). exists (h, r). split; [done|]. apply list_elem_of_filter.
      apply elem_of_map_to_list in Hr. destruct (HL _ _ Hr) as (b & Hv & _ & Hc).
      split; [|done]. simpl. rewrite Hv. simpl. congruence. }
  destruct (uncache_loop hs p1) as (c & E2 & Hc2).
  { unfold hs. apply (sublist_NoDup _ L.*1); [apply NoDup_fst_map_to_list|].
    apply fmap_sublist, sublist_filter. }
  { intros h (r & Hr & _)%Hhs. rewrite Hc1, Hr. eauto. }
  assert (∀ h r, c !! h = Some r ↔ prefix_cache p !! h = Some r ∧ refs r owned ≠ 0) as Hfin.
  { intros h r. rewrite Hc2, Hc1. case_decide as Hin; rewrite Hhs in Hin; split; try done.
    - intros [Hr Hz]. destruct Hin as (r' & Hr' & ?). congruence.
    - intros Hr. split; [done|]. intros Hz. apply Hin. eauto.
    - by intros [? _]. }
  exists (set_cache c p1). split_and!; [|split|done|done].
  - unfold reset_prefix_cache, bind at 1, get. fold purge_one uncache. fold L.
    rewrite (bind_run _ _ _ _ _ E1). exact E2.
  - apply HR1. apply HI.
  - simpl. destruct Hs1 as (-> & _ & ->). apply HI.
  - intros r. change (view (set_cache c p1)) with (view p1). rewrite Hv1. simpl.
    destruct Hs1 as (-> & _ & _). pose proof (inv_blocks _ _ _ HI r) as Hok.
    destruct (view p !! r) as [b|]; [|done]. simpl in *. unfold purged_block.
    repeat case_decide; simpl in *; tauto.
  - simpl. intros h r. rewrite Hfin. change (view (set_cache c p1)) with (view p1). rewrite Hv1.
    rewrite (inv_cache _ _ _ HI h r). destruct (view p !! r) as [b|] eqn:Hv; simpl; [|naive_solver].
    unfold purged_block. split.
    + intros [[= Hh] Hz]. rewrite decide_False; [by rewrite Hh|]. intros [_ Hz'].
      destruct (HL h r) as (b' & Hv' & _ & Hc'); [|congruence].
      apply elem_of_map_to_list, (inv_cache _ _ _ HI). rewrite Hv. simpl. by rewrite Hh.
    + case_decide as Hd; [done|]. intros [= Hh]. rewrite Hh. split; [done|]. intros Hz. apply Hd.
      assert ((h, r) ∈ L) as Hin.
      { apply elem_of_map_to_list, (inv_cache _ _ _ HI). rewrite Hv. simpl. by rewrite Hh. }
      split; [by apply (list_elem_of_fmap_2 snd _ (h, r))|].
      destruct (HL h r Hin) as (b' & Hv' & _ & Hc'). congruence.
Qed.

(** ** The constructor *)

Lemma init_inv n checks : 0 ≤ n → Inv (init n checks) (zrange 0 n) ∅.
Proof.
  intros Hn.
  destruct (FreeQueue.init_run (FreeQueue.mkst (fresh_heap n) FreeQueue.no_queue) (zrange 0 n))
    as (s & E & Hp & HR).
  - apply NoDup_zrange.
  - intros r b. simpl. rewrite lookup_fresh_heap. case_decide; [|done]. by intros [= <-].
  - intros r b. simpl. rewrite lookup_fresh_heap. case_decide; [|done]. by intros [= <-].
  - intros r Hr%elem_of_zrange. simpl. rewrite lookup_fresh_heap, decide_True by done. eauto.
  - simpl in *. unfold init. rewrite E. simpl.
    set (null := KVCacheBlock.mk n 42 None true None None).
    assert (∀ r, FreeQueue.heap s !! r = None ↔ fresh_heap n !! r = None) as Hdom.
    { intros r. rewrite !eq_None_not_Some. by rewrite (FreeQueue.links_payload_dom _ _ r Hp). }
    assert (FreeQueue.heap s !! n = None) as Hnull.
    { apply Hdom. rewrite lookup_fresh_heap, decide_False by lia. done. }
    assert (∀ r, FreeQueue.payload (<[n := null]> (FreeQueue.heap s)) !! r =
      if decide (r = n) then Some null else if decide (0 ≤ r < n) then Some (fresh r) else None) as Hv.
    { intros r. unfold FreeQueue.payload in *. rewrite fmap_insert, lookup_insert.
      repeat case_decide; try done; subst; try lia; rewrite Hp, lookup_fmap, lookup_fresh_heap;
        [rewrite decide_True|rewrite decide_False]; done. }
    split; simpl.
    + by apply FreeQueue.Repr_insert.
    + done.
    + intros r. unfold view. simpl. rewrite Hv. unfold block_ok.
      assert (r ∈ zrange 0 n ↔ 0 ≤ r < n) as Hz by apply elem_of_zrange.
      repeat case_decide; simpl; rewrite ?Hz; try lia; repeat split; try lia; done.
    + intros h r. unfold view. simpl. rewrite Hv, lookup_empty. repeat case_decide; done.
Qed.

End BlockPool.

(** ** A client of the pool

    Sequences of pool operations together with the references the client holds. *)
Module PoolClient.
Import BlockPool.

Inductive op :=
| Alloc
| Revive (h : bytes)
| Free (r : Z)
| Commit (h : bytes) (r : Z)
| Reset.

Definition cstate : Type := t * gmultiset Z.

(** Run one operation and account for the references it takes and drops. *)
Definition exec (o : op) (s : cstate) : outcome cstate :=
  let '(p, owned) := s in
  match o with
  | Alloc =>
      match alloc_block p with
      | (Ok (r, _), p) => Ok (p, {[+ r +]} ⊎ owned) | (Raise e, _) => Raise e end
  | Revive h =>
      match prefix_cache p !! h with
      | None => Ok (p, owned)
      | Some r => match touch r p with
                  | (Ok _, p) => Ok (p, {[+ r +]} ⊎ owned) | (Raise e, _) => Raise e end
      end
  | Free r =>
      match free_block r p with
      | (Ok _, p) => Ok (p, owned ∖ {[+ r +]}) | (Raise e, _) => Raise e end
  | Commit h r =>
      match get_or_commit_into_prefix_cache h r p with
      | (Ok None, p) => Ok (p, owned)
      | (Ok (Some c), p) => Ok (p, {[+ c +]} ⊎ owned ∖ {[+ r +]})
      | (Raise e, _) => Raise e end
  | Reset =>
      match reset_prefix_cache p with
      | (Ok _, p) => Ok (p, owned) | (Raise e, _) => Raise e end
  end.

(** The client's side of the contract: it allocates when a block is free, frees and
    commits references it holds, and commits an uncommitted block (or the very
    block already committed under that hash). *)
Definition op_ok (o : op) (s : cstate) : Prop :=
  let '(p, owned) := s in
  match o with
  | Alloc => 0 < num_free_blocks p
  | Free r => r ∈ owned
  | Commit h r => r ∈ owned ∧ (cached_hash p r = None ∨ prefix_cache p !! h = Some r)
  | _ => True
  end.
#[global] Instance pool_op_ok_dec o s : Decision (op_ok o s).
Proof. destruct s, o; simpl; apply _. Defined.

(** Run a sequence, giving up where the client breaks the contract. *)
Fixpoint exec_all (os : list op) (s : cstate) : option (outcome cstate) :=
  match os with
  | [] => Some (Ok s)
  | o :: os =>
      if decide (op_ok o s) then
        match exec o s with Ok s => exec_all os s | Raise e => Some (Raise e) end
      else None
  end.

Definition start (n : Z) : cstate := (init n true, ∅).

Definition SInv (n : Z) (s : cstate) : Prop :=
  total_num_blocks s.1 = n ∧ (∀ r, r ∈ s.2 → 0 ≤ r < n) ∧ ∃ fl, Inv s.1 fl s.2.

Lemma sinv_step n o s :
  SInv n s → op_ok o s → ∃ s', exec o s = Ok s' ∧ SInv n s'.
Proof.
  destruct s as [p owned]. intros (Hn & Ho & fl & HI) Hok. simpl in *.
  destruct o as [|h|r|h r|]; simpl in *.
  - destruct fl as [|r fl].
    { rewrite (inv_num_free _ _ _ HI) in Hok. by vm_compute in Hok. }
    destruct (alloc_block_run _ _ _ _ HI) as (p' & E & HI' & Hr & _ & _ & _ & Ht & _).
    rewrite E. eexists. split; [done|]. split_and!; simpl; [congruence| |by exists fl].
    intros x. rewrite gmultiset_elem_of_disj_union, gmultiset_elem_of_singleton.
    intros [->|Hx]; [destruct Hr; lia|auto].
  - destruct (prefix_cache p !! h) as [r|] eqn:Eh; 
      [|exists (p, owned); split; [done|]; split_and!; eauto].
    pose proof (inv_cached_real _ _ _ _ _ HI Eh) as Hr.
    destruct (touch_run _ _ _ _ HI Hr) as (p' & E & HI' & _ & _ & Ht & _).
    rewrite E. eexists. split; [done|]. split_and!; simpl; [congruence| |by eexists].
    intros x. rewrite gmultiset_elem_of_disj_union, gmultiset_elem_of_singleton.
    intros [->|Hx]; [destruct Hr; lia|auto].
  - rewrite (gmultiset_disj_union_difference' r owned) in HI by done.
    destruct (free_block_run p fl (owned ∖ {[+ r +]}) r) as (p' & E & HI' & _ & _ & Ht & _);
      [done|by unfold real; rewrite Hn; auto|].
    rewrite E. eexists. split; [done|]. split_and!; simpl; [congruence| |by eexists].
    intros x Hx. apply Ho. multiset_solver.
  - destruct Hok as [Hr Hc]. assert (real p r) as Hreal by (unfold real; rewrite Hn; auto).
    destruct (prefix_cache p !! h) as [c|] eqn:Eh.
    + destruct (decide (c = r)) as [->|Hne].
      { rewrite (get_or_commit_self _ _ _ _ _ HI Eh). eexists. split; [done|]. by split_and!; eauto. }
      destruct Hc as [Hc|]; [|congruence].
      rewrite (gmultiset_disj_union_difference' r owned) in HI by done.
      destruct (get_or_commit_hit _ _ _ _ _ _ HI Hreal Eh Hne Hc) as (p' & fl' & E & HI' & _ & _ & (Ht & _) & _).
      rewrite E. eexists. split; [done|]. split_and!; simpl; [congruence| |by eexists].
      intros x. rewrite gmultiset_elem_of_disj_union, gmultiset_elem_of_singleton.
      pose proof (inv_cached_real _ _ _ _ _ HI Eh) as Hcr.
      intros [->|Hx]; [destruct Hcr; lia|apply Ho; multiset_solver].
    + destruct Hc as [Hc|]; [|done].
      destruct (get_or_commit_new _ _ _ _ _ HI Hreal Hc Eh) as (p' & E & HI' & _ & _ & Ht & _).
      rewrite E. eexists. split; [done|]. split_and!; simpl; [congruence|done|by eexists].
  - destruct (reset_prefix_cache_run _ _ _ HI) as (p' & E & HI' & _ & Ht & _).
    rewrite E. eexists. split; [done|]. split_and!; simpl; [congruence|done|by eexists].
Qed.

Lemma sinv_start n : 0 ≤ n → SInv n (start n).
Proof.
  intros Hn. split_and!; simpl; [done|set_solver|]. eexists. by apply init_inv.
Qed.

Lemma sinv_all n os s r : SInv n s → exec_all os s = Some r → ∃ s', r = Ok s' ∧ SInv n s'.
Proof.
  revert s. induction os as [|o os IH]; intros s Hs; simpl; [intros [= <-]; eauto|].
  case_decide as Hok; [|done]. destruct (sinv_step n o s Hs Hok) as (s' & -> & Hs').
  by apply IH.
Qed.

(** What the invariant says of the free count. *)
Lemma sinv_count n p owned :
  SInv n (p, owned) → 0 ≤ n →
  num_free_blocks p + Z.of_nat (size (dom owned)) = n.
Proof.
  intros (Hn & Ho & fl & HI) Hpos. simpl in *. rewrite (inv_num_free _ _ _ HI).
  pose proof (FreeQueue.repr_nodup _ _ (inv_repr _ _ _ HI)) as Hnd.
  assert (list_to_set (zrange 0 n) = list_to_set fl ∪ dom owned) as E.
  { apply set_eq. intros r. rewrite elem_of_union, !elem_of_list_to_set, elem_of_zrange,
      gmultiset_elem_of_dom. split.
    - intros Hr. destruct (inv_real p fl owned r HI) as (b & b0 & _ & _ & _ & _ & _ & _ & _ & _ & _ & Hfl);
        [by unfold real; rewrite Hn|].
      destruct (decide (r ∈ owned)) as [|Hno]; [by right|left]. apply Hfl. unfold refs.
      apply not_elem_of_multiplicity in Hno. lia.
    - intros [Hr|Hr]; [|auto]. pose proof (inv_free_real _ _ _ _ HI Hr) as Hreal.
      unfold real in Hreal. by rewrite Hn in Hreal. }
  apply (f_equal size) in E. rewrite size_union in E.
  - rewrite !size_list_to_set in E by (done || apply NoDup_zrange). unfold len.
    pose proof (len_zrange 0 n Hpos) as Hz. unfold len in Hz. lia.
  - intros r Hr%elem_of_list_to_set Hd%gmultiset_elem_of_dom.
    pose proof (inv_free_real _ _ _ _ HI Hr) as Hreal.
    destruct (inv_real p fl owned r HI Hreal) as (b & b0 & _ & _ & _ & _ & _ & _ & _ & _ & _ & Hfl).
    apply Hfl in Hr. unfold refs in Hr. pose proof (proj1 (elem_of_multiplicity _ _) Hd). lia.
Qed.

End PoolClient.

(** ** Properties of the pool *)
Module PoolProperties.
Import KVCacheBlock BlockPool PoolClient.

(** The pool's books: counts, free queue and their total. *)
Lemma sinv_books n p owned :
  SInv n (p, owned) → 0 ≤ n →
  (∀ i, 0 ≤ i < n → ∃ b, pool p !! i = Some b ∧ ref_cnt b = Z.of_nat (multiplicity i owned)) ∧
  (∀ i, i ∈ free_blocks p ↔ 0 ≤ i < n ∧ i ∉ owned) ∧
  num_free_blocks p + Z.of_nat (size (dom owned)) = n.
Proof.
  intros Hs Hn. pose proof (sinv_count n p owned Hs Hn) as Hcount.
  destruct Hs as (Ht & Ho & fl & HI). simpl in *. split_and!; [| |done].
  - intros i Hi. destruct (inv_real p fl owned i HI) as (b & b0 & _ & Hp & _ & _ & _ & _ & Hc0 & _);
      [by unfold real; rewrite Ht|]. by exists b0.
  - intros i. rewrite (inv_free_blocks _ _ _ _ HI). split.
    + intros Hi. pose proof (inv_free_real _ _ _ _ HI Hi) as Hr.
      destruct (inv_real _ _ _ _ HI Hr) as (b & b0 & _ & _ & _ & _ & _ & _ & _ & _ & _ & Hfl).
      apply Hfl in Hi. unfold refs in Hi. unfold real in Hr. rewrite Ht in Hr. split; [done|].
      apply not_elem_of_multiplicity. lia.
    + intros [Hi Hno]. destruct (inv_real p fl owned i HI)
        as (b & b0 & _ & _ & _ & _ & _ & _ & _ & _ & _ & Hfl); [by unfold real; rewrite Ht|].
      apply Hfl. unfold refs. apply not_elem_of_multiplicity in Hno. lia.
Qed.

(** C23: no sequence of pool operations a well-behaved client can issue leaks or
    double-books a block, and none raises. Starting from a fresh pool of [n] blocks,
    whatever the client allocates, revives from the prefix cache, frees, commits
    (with or without a duplicate) or purges: every block's reference count equals
    the number of references the client holds, a block is in the free queue exactly
    when nobody holds it, free blocks and held blocks add up to [n], the prefix
    cache and the hashes stored in the blocks are inverse to each other, and the
    pool's own runtime check passes. *)
Theorem block_pool_conservation n os r :
  0 ≤ n → exec_all os (start n) = Some r →
  ∃ p owned, r = Ok (p, owned) ∧
    (∀ i, 0 ≤ i < n → ∃ b, pool p !! i = Some b ∧ ref_cnt b = Z.of_nat (multiplicity i owned)) ∧
    (∀ i, i ∈ free_blocks p ↔ 0 ≤ i < n ∧ i ∉ owned) ∧
    num_free_blocks p + Z.of_nat (size (dom owned)) = n ∧
    (∀ h i, prefix_cache p !! h = Some i ↔ block_hash <$> pool p !! i = Some (Some h)) ∧
    assert_runtime_invariants (elements owned) p = (Ok tt, p).
Proof.
  intros Hn Hex. destruct (sinv_all n os (start n) r (sinv_start n Hn) Hex) as ([p owned] & -> & Hs).
  destruct (sinv_books n p owned Hs Hn) as (Hrefs & Hfree & Hcount).
  destruct Hs as (Ht & Ho & fl & HI). simpl in *. exists p, owned. split; [done|].
  assert (∀ h i, prefix_cache p !! h = Some i ↔ block_hash <$> pool p !! i = Some (Some h)) as Hc.
  { intros h i. rewrite (inv_cache _ _ _ HI h i), lookup_view. by destruct (pool p !! i). }
  split_and!; [done..|].
  - unfold assert_runtime_invariants, bind at 1, get. destruct (negb _); [done|].
    erewrite bind_run.
    2:{ apply for_each_noop. intros [h i] Hin%elem_of_map_to_list. apply Hc in Hin.
        destruct (pool p !! i) as [b|] eqn:Eb; simplify_eq/=. mstep (block_run _ _ _ Eb).
        rewrite Hin. by rewrite !bool_decide_eq_true_2. }
    apply py_assert_true.
    replace (list_to_set (elements owned) : gset Z) with (dom owned); [lia|].
    apply set_eq. intros x. rewrite elem_of_list_to_set, gmultiset_elem_of_elements.
    apply gmultiset_elem_of_dom.
Qed.

(** Three blocks: two committed and freed, one of them revived, one dropped as a
    duplicate. *)
Definition demo_ops : list op :=
  [Alloc; Alloc; Commit [1] 0; Commit [2] 1; Free 1; Free 0; Revive [1]; Alloc; Commit [1] 2].

Lemma block_pool_conservation_witness :
  ∃ p owned, default (Raise ValueError) (exec_all demo_ops (start 3)) = Ok (p, owned) ∧
    (∀ i, 0 ≤ i < 3 → ∃ b, pool p !! i = Some b ∧ ref_cnt b = Z.of_nat (multiplicity i owned)) ∧
    (∀ i, i ∈ free_blocks p ↔ 0 ≤ i < 3 ∧ i ∉ owned) ∧
    num_free_blocks p + Z.of_nat (size (dom owned)) = 3 ∧
    (∀ h i, prefix_cache p !! h = Some i ↔ block_hash <$> pool p !! i = Some (Some h)) ∧
    assert_runtime_invariants (elements owned) p = (Ok tt, p).
Proof.
  apply (block_pool_conservation 3 demo_ops); [lia|]. vm_compute. reflexivity.
Defined.

(** Allocate [k] blocks in a row. *)
Fixpoint alloc_many (k : nat) (p : t) : option (list (Z * option bytes) * t) :=
  match k with
  | O => Some ([], p)
  | S k =>
      match alloc_block p with
      | (Ok x, p) => match alloc_many k p with Some (xs, p) => Some (x :: xs, p) | None => None end
      | (Raise _, _) => None
      end
  end.

Lemma cached_hash_inv p fl owned h r :
  Inv p fl owned → prefix_cache p !! h = Some r ↔ cached_hash p r = Some h ∧ is_Some (view p !! r).
Proof.
  intros HI. rewrite (inv_cache _ _ _ HI h r). unfold cached_hash.
  destruct (view p !! r) as [b|]; simpl; split.
  - intros [= ->]. eauto.
  - by intros [-> _].
  - done.
  - by intros [? [? ?]].
Qed.

Lemma alloc_many_run p l1 l2 owned :
  Inv p (l1 ++ l2) owned →
  ∃ p' owned', alloc_many (length l1) p = Some ((λ r, (r, cached_hash p r)) <$> l1, p') ∧
    Inv p' l2 owned' ∧ (∀ x, x ∉ l1 → cached_hash p' x = cached_hash p x).
Proof.
  revert p owned. induction l1 as [|r l1 IH]; intros p owned HI; simpl in *.
  - exists p, owned. by split_and!.
  - destruct (alloc_block_run _ _ _ _ HI) as (p1 & E1 & HI1 & _ & _ & Hv1 & _).
    assert (∀ x, x ≠ r → cached_hash p1 x = cached_hash p x) as Hne.
    { intros x Hx. unfold cached_hash. by rewrite Hv1, lookup_alter_ne. }
    pose proof (FreeQueue.repr_nodup _ _ (inv_repr _ _ _ HI)) as [Hr _]%NoDup_cons.
    destruct (IH _ _ HI1) as (p2 & owned2 & E2 & HI2 & Hch2).
    rewrite E1, E2. exists p2, owned2. split_and!.
    + do 3 f_equal. apply list_fmap_ext. intros i x Hx%list_elem_of_lookup_2. rewrite Hne; [done|].
      intros ->. apply Hr. set_solver.
    + done.
    + intros x Hx. rewrite Hch2, Hne; set_solver.
Qed.

(** The free queue is the LRU list of the prefix cache. A committed block that
    sits in the queue behind [l1] keeps its cached contents through exactly
    [length l1] allocations, which hand out the blocks of [l1] in order, and the
    next allocation hands out this very block, reports the hash it evicts, and
    removes it from the cache. *)
Theorem free_block_survives_until_its_turn p l1 r l2 owned h :
  Inv p (l1 ++ r :: l2) owned → prefix_cache p !! h = Some r →
  ∃ xs p1 p2,
    alloc_many (length l1) p = Some (xs, p1) ∧ xs.*1 = l1 ∧
    prefix_cache p1 !! h = Some r ∧
    alloc_block p1 = (Ok (r, Some h), p2) ∧ prefix_cache p2 !! h = None.
Proof.
  intros HI Hh. destruct (alloc_many_run p l1 (r :: l2) owned HI) as (p1 & owned1 & E1 & HI1 & Hch).
  apply (cached_hash_inv _ _ _ _ _ HI) in Hh as [Hh _].
  assert (cached_hash p1 r = Some h) as Hh1.
  { rewrite Hch; [done|]. pose proof (FreeQueue.repr_nodup _ _ (inv_repr _ _ _ HI)) as Hnd.
    apply NoDup_app in Hnd as (_ & Hd & _). intros Hin. apply (Hd r Hin). left. }
  destruct (alloc_block_run _ _ _ _ HI1) as (p2 & E2 & HI2 & Hr & _ & _ & Hc2 & _).
  exists ((λ r, (r, cached_hash p r)) <$> l1), p1, p2. split_and!.
  - done.
  - rewrite <- list_fmap_compose. apply list_fmap_id.
  - apply (cached_hash_inv _ _ _ _ _ HI1). split; [done|].
    destruct (inv_real _ _ _ _ HI1 Hr) as (b & b0 & -> & _). eauto.
  - by rewrite E2, Hh1.
  - by rewrite Hc2, Hh1, lookup_delete_eq.
Qed.

(** Two committed blocks, the one allocated last freed first. *)
Definition lru_state : cstate :=
  match exec_all [Alloc; Alloc; Alloc; Commit [1] 0; Commit [2] 1; Free 1; Free 0] (start 3) with
  | Some (Ok s) => s | _ => start 3 end.

Lemma lru_state_inv : Inv lru_state.1 [1; 0] lru_state.2.
Proof.
  destruct (sinv_all 3 [Alloc; Alloc; Alloc; Commit [1] 0; Commit [2] 1; Free 1; Free 0] (start 3)
    (Ok lru_state)) as (s & E & _ & _ & fl & HI).
  - apply sinv_start. lia.
  - vm_compute. reflexivity.
  - injection E as <-. replace [1; 0] with fl; [done|].
    pose proof (inv_repr _ _ _ HI) as HR.
    pose proof (FreeQueue.repr_num _ _ HR) as Hn. pose proof (FreeQueue.repr_head _ _ HR) as Hh.
    pose proof (FreeQueue.repr_tail _ _ HR) as Ht.
    assert (len fl = 2) as Hlen by (rewrite <- Hn; vm_compute; reflexivity).
    vm_compute in Hh, Ht. clear Hn HI HR. unfold len in Hlen.
    destruct fl as [|x [|y [|z fl]]]; simplify_eq/=; [done|lia].
Qed.

Lemma free_block_survives_until_its_turn_witness :
  ∃ xs p1 p2,
    alloc_many 1 lru_state.1 = Some (xs, p1) ∧ xs.*1 = [1] ∧
    prefix_cache p1 !! [1] = Some 0 ∧
    alloc_block p1 = (Ok (0, Some [1]), p2) ∧ prefix_cache p2 !! [1] = None.
Proof.
  apply (free_block_survives_until_its_turn lru_state.1 [1] 0 [] lru_state.2 [1]).
  - exact lru_state_inv.
  - vm_compute. reflexivity.
Defined.

(** Committing a full block deduplicates by content hash. If another block is
    already committed under the hash, the caller's reference moves to that block
    (which leaves the free queue if it was an eviction candidate), the caller's own
    block loses one reference and, when that was the last one, goes to the most
    recently used end of the free queue; the cache is unchanged. Otherwise the block
    itself becomes the cached one. No assertion of the method fires. *)
Theorem get_or_commit_dedups p fl owned h r :
  Inv p fl ({[+ r +]} ⊎ owned) → real p r → cached_hash p r = None →
  match prefix_cache p !! h with
  | Some c =>
      ∃ p' fl', get_or_commit_into_prefix_cache h r p = (Ok (Some c), p') ∧
        Inv p' fl' ({[+ c +]} ⊎ owned) ∧ prefix_cache p' = prefix_cache p ∧
        c ∉ fl' ∧ (refs r owned = 0 → last fl' = Some r)
  | None =>
      ∃ p', get_or_commit_into_prefix_cache h r p = (Ok None, p') ∧
        Inv p' fl ({[+ r +]} ⊎ owned) ∧ prefix_cache p' = <[h := r]> (prefix_cache p) ∧
        cached_hash p' r = Some h
  end.
Proof.
  intros HI Hr Hnone. destruct (prefix_cache p !! h) as [c|] eqn:Eh.
  - assert (c ≠ r) as Hne.
    { intros ->. apply (cached_hash_inv _ _ _ _ _ HI) in Eh as [? _]. congruence. }
    destruct (get_or_commit_hit _ _ _ _ _ _ HI Hr Eh Hne Hnone)
      as (p' & fl' & E & HI' & Hfl & Hc & _ & _).
    exists p', fl'. split_and!; [done|done|done| |].
    + rewrite Hfl. case_decide; rewrite ?elem_of_app, elem_of_filter_ne; set_solver.
    + intros Hz. rewrite Hfl, decide_True by done. apply last_snoc.
  - destruct (get_or_commit_new _ _ _ _ _ HI Hr Hnone Eh) as (p' & E & HI' & Hv & Hc & _).
    exists p'. split_and!; [done|done|done|].
    unfold cached_hash. rewrite Hv, lookup_alter_eq.
    destruct (inv_real _ _ _ _ HI Hr) as (b & b0 & -> & _). done.
Qed.

Definition dup_state : cstate :=
  match exec_all [Alloc; Commit [7] 0; Free 0; Alloc] (start 2) with
  | Some (Ok s) => s | _ => start 2 end.

Lemma dup_state_inv : Inv dup_state.1 [0] ({[+ 1 +]} ⊎ ∅).
Proof.
  destruct (sinv_all 2 [Alloc; Commit [7] 0; Free 0; Alloc] (start 2) (Ok dup_state))
    as (s & E & _ & _ & fl & HI).
  - apply sinv_start. lia.
  - vm_compute. reflexivity.
  - injection E as <-. replace [0] with fl.
    + replace ({[+ 1 +]} ⊎ ∅) with dup_state.2; [done|]. vm_compute. reflexivity.
    + pose proof (inv_num_free _ _ _ HI) as Hn.
      pose proof (FreeQueue.repr_head _ _ (inv_repr _ _ _ HI)) as Hh.
      assert (len fl = 1) as Hlen by (rewrite <- Hn; vm_compute; reflexivity).
      vm_compute in Hh. clear Hn HI. unfold len in Hlen.
      destruct fl as [|x [|y fl]]; simplify_eq/=; [done|lia].
Qed.

Lemma get_or_commit_dedups_witness :
  ∃ p' fl', get_or_commit_into_prefix_cache [7] 1 dup_state.1 = (Ok (Some 0), p') ∧
    Inv p' fl' ({[+ 0 +]} ⊎ ∅) ∧ prefix_cache p' = prefix_cache dup_state.1 ∧
    0 ∉ fl' ∧ (refs 1 ∅ = 0 → last fl' = Some 1).
Proof.
  apply (get_or_commit_dedups dup_state.1 [0] ∅ [7] 1).
  - exact dup_state_inv.
  - split; vm_compute; [discriminate|reflexivity].
  - vm_compute. reflexivity.
Defined.

(** [reset_prefix_cache] forgets exactly the committed blocks nobody holds, and
    nothing else: entries of held blocks stay, no reference count or queue position
    changes, the purged blocks stay allocatable with no hash left in them, and its
    loops (whose deletions are deferred so as not to change the dict while
    iterating) never raise. *)
Theorem reset_prefix_cache_purges_unreferenced p fl owned :
  Inv p fl owned →
  ∃ p', reset_prefix_cache p = (Ok tt, p') ∧ Inv p' fl owned ∧
    (∀ h r, prefix_cache p' !! h = Some r ↔ prefix_cache p !! h = Some r ∧ r ∈ owned) ∧
    (∀ r, r ∈ fl → cached_hash p' r = None).
Proof.
  intros HI. destruct (reset_prefix_cache_run _ _ _ HI) as (p' & E & HI' & Hc & _).
  exists p'. split_and!; [done|done| |].
  - intros h r. rewrite Hc, elem_of_multiplicity. unfold refs.
    split; (intros [? ?]; split; [done|lia]).
  - intros r Hr. pose proof (inv_free_real _ _ _ _ HI' Hr) as Hreal.
    destruct (inv_real _ _ _ _ HI' Hreal) as (b & b0 & Hv & _ & _ & _ & _ & _ & _ & _ & _ & Hfl).
    destruct (cached_hash p' r) as [h|] eqn:Eh; [|done]. exfalso.
    assert (prefix_cache p' !! h = Some r) as Hin.
    { apply (cached_hash_inv _ _ _ _ _ HI'). rewrite Hv. eauto. }
    apply Hc in Hin as [_ Hz]. apply Hfl in Hr. done.
Qed.

Lemma reset_prefix_cache_purges_unreferenced_witness :
  ∃ p', reset_prefix_cache dup_state.1 = (Ok tt, p') ∧ Inv p' [0] ({[+ 1 +]} ⊎ ∅) ∧
    (∀ h r, prefix_cache p' !! h = Some r ↔
       prefix_cache dup_state.1 !! h = Some r ∧ r ∈ ({[+ 1 +]} ⊎ ∅ : gmultiset Z)) ∧
    (∀ r, r ∈ [0] → cached_hash p' r = None).
Proof. apply (reset_prefix_cache_purges_unreferenced dup_state.1). exact dup_state_inv. Defined.

End PoolProperties.
