(* ===== verification/Grammar.v ===== *)
(** * Conditional grammar enforcement (pipelines/context/context.py)

    [GrammarEnforcementState]: the per-token state machine that decides when the
    constrained-decoding matcher sees a token. It watches for the markers that end a
    thinking region and that open and close a tool call, each a sequence of tokens
    recognised through a rolling buffer. *)

From S2P Require Import Prelude.

Module GrammarEnforcement.

(** [StructuredOutputRegionDelimiters] *)
Record Region := region {
  start_token_ids : option (list Z);
  end_token_ids : option (list Z)
}.

Record t := mk {
  grammar_enforced : bool;
  tools_forced : bool;
  requires_structured_output_flag : bool;
  has_json_schema : bool;
  tool_region : option Region;
  thinking_region_delimiters : option Region;
  _in_thinking_region : bool;
  _tool_calling_match_buffer : list Z;
  _thinking_match_buffer : list Z
}.

Definition set_enforced (b : bool) (g : t) : t :=
  mk b (tools_forced g) (requires_structured_output_flag g) (has_json_schema g) (tool_region g)
    (thinking_region_delimiters g) (_in_thinking_region g) (_tool_calling_match_buffer g)
    (_thinking_match_buffer g).
Definition set_forced (b : bool) (g : t) : t :=
  mk (grammar_enforced g) b (requires_structured_output_flag g) (has_json_schema g)
    (tool_region g) (thinking_region_delimiters g) (_in_thinking_region g)
    (_tool_calling_match_buffer g) (_thinking_match_buffer g).
Definition set_requires (b : bool) (g : t) : t :=
  mk (grammar_enforced g) (tools_forced g) b (has_json_schema g)
    (tool_region g) (thinking_region_delimiters g) (_in_thinking_region g)
    (_tool_calling_match_buffer g) (_thinking_match_buffer g).
Definition set_thinking (b : bool) (g : t) : t :=
  mk (grammar_enforced g) (tools_forced g) (requires_structured_output_flag g)
    (has_json_schema g) (tool_region g) (thinking_region_delimiters g) b
    (_tool_calling_match_buffer g) (_thinking_match_buffer g).
Definition set_tool_buffer (l : list Z) (g : t) : t :=
  mk (grammar_enforced g) (tools_forced g) (requires_structured_output_flag g)
    (has_json_schema g) (tool_region g) (thinking_region_delimiters g)
    (_in_thinking_region g) l (_thinking_match_buffer g).
Definition set_thinking_buffer (l : list Z) (g : t) : t :=
  mk (grammar_enforced g) (tools_forced g) (requires_structured_output_flag g)
    (has_json_schema g) (tool_region g) (thinking_region_delimiters g)
    (_in_thinking_region g) (_tool_calling_match_buffer g) l.
Definition set_tool_region (r : Region) (g : t) : t :=
  mk (grammar_enforced g) (tools_forced g) (requires_structured_output_flag g)
    (has_json_schema g) (Some r) (thinking_region_delimiters g) (_in_thinking_region g)
    (_tool_calling_match_buffer g) (_thinking_match_buffer g).
Definition set_thinking_region (r : Region) (g : t) : t :=
  mk (grammar_enforced g) (tools_forced g) (requires_structured_output_flag g)
    (has_json_schema g) (tool_region g) (Some r) (_in_thinking_region g)
    (_tool_calling_match_buffer g) (_thinking_match_buffer g).

(** [GrammarEnforcementState()] *)
Definition default_state : t := mk false false false false None None false [] [].

(** [TextGenerationResponseFormat] *)
Record ResponseFormat := response_format {
  rf_grammar_enforced : bool;
  rf_tools_forced : bool;
  rf_requires_structured_output_flag : bool;
  rf_has_json_schema : bool
}.

Definition from_response_format (rf : option ResponseFormat) : t :=
  match rf with
  | None => default_state
  | Some rf => mk (rf_grammar_enforced rf) (rf_tools_forced rf)
      (rf_requires_structured_output_flag rf) (rf_has_json_schema rf) None None false [] []
  end.

(** Whether the token completes [target], and what is left in the buffer. *)
Definition check_sequence_match_with_buffer (token : Z) (target buffer : list Z)
    : bool * list Z :=
  let buffer := buffer ++ [token] in
  let max_len := len target in
  let buffer := if len buffer >? max_len then slice_from buffer (len buffer - max_len)
                else buffer in
  if bool_decide (slice_from buffer (- len target) = target) then (true, [])
  else (false, buffer).

Definition check_sequence_match (token : Z) (target : list Z) : M t bool :=
  let! g := get in
  let '(r, b) := check_sequence_match_with_buffer token target (_tool_calling_match_buffer g) in
  modify (set_tool_buffer b);;
  ret r.

Definition check_thinking_match (token : Z) (target : list Z) : M t bool :=
  let! g := get in
  let '(r, b) := check_sequence_match_with_buffer token target (_thinking_match_buffer g) in
  modify (set_thinking_buffer b);;
  ret r.

(** [self.tool_region is not None and self.tool_region.start_token_ids is not None
    and self._check_sequence_match(...)], and the like *)
Definition region_match (check : Z → list Z → M t bool) (token : Z) (marker : option (list Z))
    : M t bool :=
  match marker with Some target => check token target | None => ret false end.

Definition marker (f : Region → option (list Z)) (r : option Region) : option (list Z) :=
  match r with Some r => f r | None => None end.

Definition update_enforcement_state (token : Z) : M t bool :=
  let! g := get in
  if bool_decide (is_Some (thinking_region_delimiters g)) && _in_thinking_region g then
    let! hit := region_match check_sequence_match token (marker start_token_ids (tool_region g)) in
    if hit : bool then
      modify (set_thinking false);;
      modify (set_thinking_buffer []);;
      modify (set_enforced true);;
      ret true
    else
      let! hit := region_match check_thinking_match token
                    (marker end_token_ids (thinking_region_delimiters g)) in
      when hit
        (modify (set_thinking false);;
         when (tools_forced g || has_json_schema g) (modify (set_enforced true)));;
      ret false
  else
    let! done :=
      if bool_decide (is_Some (tool_region g)) && negb (tools_forced g) then
        if negb (grammar_enforced g) then
          let! hit := region_match check_sequence_match token
                        (marker start_token_ids (tool_region g)) in
          when hit (modify (set_enforced true));;
          ret hit
        else
          let! hit := region_match check_sequence_match token
                        (marker end_token_ids (tool_region g)) in
          when hit
            (modify (set_enforced false);;
             modify (set_tool_buffer []));;
          ret hit
      else ret false in
    if done : bool then ret true
    else gets grammar_enforced.

(** [GrammarEnforcementSnapshot] *)
Record Snapshot := mk_snapshot {
  snap_in_thinking_region : bool;
  snap_grammar_enforced : bool;
  snap_tool_calling_match_buffer : list Z;
  snap_thinking_match_buffer : list Z
}.

Definition snapshot (g : t) : Snapshot :=
  mk_snapshot (_in_thinking_region g) (grammar_enforced g) (_tool_calling_match_buffer g)
    (_thinking_match_buffer g).

Definition restore (s : Snapshot) : M t unit :=
  modify (set_thinking (snap_in_thinking_region s));;
  modify (set_enforced (snap_grammar_enforced s));;
  modify (set_tool_buffer (snap_tool_calling_match_buffer s));;
  modify (set_thinking_buffer (snap_thinking_match_buffer s)).

(** ** The rolling buffer *)

(** The last [n] elements. *)
Definition lastn (n : Z) (l : list Z) : list Z := drop (Z.to_nat (len l - n)) l.

(** Feed tokens until the first match: its position, or the buffer left. *)
Fixpoint scan (target : list Z) (ts buffer : list Z) : option Z * list Z :=
  match ts with
  | [] => (None, buffer)
  | x :: ts =>
      match check_sequence_match_with_buffer x target buffer with
      | (true, b) => (Some 0, b)
      | (false, b) => let '(r, b) := scan target ts b in ((λ i, i + 1) <$> r, b)
      end
  end.

Lemma lastn_all n l : len l ≤ n → lastn n l = l.
Proof. intros. unfold lastn. by replace (Z.to_nat (len l - n)) with 0%nat by lia. Qed.

Lemma len_lastn n l : 0 ≤ n → len (lastn n l) = Z.min n (len l).
Proof. intros. unfold lastn, len. rewrite length_drop. lia. Qed.

Lemma suffix_lastn target l : target `suffix_of` l ↔ lastn (len target) l = target.
Proof.
  unfold lastn, len. split.
  - intros [k ->]. rewrite length_app.
    replace (Z.to_nat _) with (length k) by lia. apply drop_app_length.
  - intros <-. exists (take (Z.to_nat (Z.of_nat (length l) - Z.of_nat (length target))) l).
    by rewrite take_drop.
Qed.

Lemma lastn_snoc n l x :
  0 ≤ n → (if len (lastn n l ++ [x]) >? n
           then slice_from (lastn n l ++ [x]) (len (lastn n l ++ [x]) - n)
           else lastn n l ++ [x]) = lastn n (l ++ [x]).
Proof.
  intros Hn. pose proof (len_nonneg l). rewrite len_app, len_singleton, len_lastn by done.
  destruct (decide (len l < n)) as [Hl|Hl].
  - replace (Z.min n (len l) + 1 >? n) with false by lia.
    rewrite !lastn_all; [done| |lia]. rewrite len_app, len_singleton. lia.
  - replace (Z.min n (len l) + 1 >? n) with true by lia.
    unfold slice_from, slice. rewrite !clamp_index_id;
      rewrite ?len_app, ?len_singleton, ?len_lastn by done; try lia.
    rewrite take_ge by (rewrite length_drop, length_app; unfold lastn; rewrite length_drop;
      unfold len in *; simpl; lia).
    unfold lastn. rewrite <- (drop_app_le l [x]) by (unfold len; lia).
    rewrite drop_drop. f_equal. rewrite len_app, len_singleton. lia.
Qed.

Lemma check_run x target seen :
  check_sequence_match_with_buffer x target (lastn (len target) seen) =
    if decide (target `suffix_of` seen ++ [x]) then (true, [])
    else (false, lastn (len target) (seen ++ [x])).
Proof.
  unfold check_sequence_match_with_buffer. pose proof (len_nonneg target).
  rewrite lastn_snoc by done. set (b := lastn _ (seen ++ [x])).
  assert (slice_from b (- len target) = b) as ->.
  { assert (len b ≤ len target) by (unfold b; rewrite len_lastn; lia).
    assert (clamp_index (len b) (- len target) = 0) as E.
    { unfold clamp_index. pose proof (len_nonneg b). destruct (- len target <? 0) eqn:?; [lia|].
      lia. }
    unfold slice_from, slice. rewrite E, clamp_index_id by (pose proof (len_nonneg b); lia).
    simpl. apply take_ge. unfold len. lia. }
  unfold b. destruct (decide (target `suffix_of` seen ++ [x])) as [Hs|Hs].
  - rewrite bool_decide_eq_true_2; [done|]. by apply suffix_lastn.
  - rewrite bool_decide_eq_false_2; [done|]. intros E. by apply Hs, suffix_lastn.
Qed.

(** [target] occurs in no proper prefix of [seen ++ ts] longer than [seen]. *)
Definition fresh_in (target seen ts : list Z) : Prop :=
  ∀ k1 k2, ts = k1 ++ k2 → k1 ≠ [] → ¬ target `suffix_of` seen ++ k1.

(** [target] occurs at the end of [ts] and nowhere before. *)
Definition first_at_end (target ts : list Z) : Prop :=
  ts ≠ [] ∧ target `suffix_of` ts ∧
  ∀ k1 k2, ts = k1 ++ k2 → k1 ≠ [] → k2 ≠ [] → ¬ target `suffix_of` k1.

Lemma first_at_end_snoc target ts :
  first_at_end target ts →
  ∃ l x, ts = l ++ [x] ∧ fresh_in target [] l ∧ target `suffix_of` [] ++ l ++ [x].
Proof.
  intros (Hne & Hs & Hf). destruct ts as [|x l _] using rev_ind; [done|].
  exists l, x. split_and!; [done| |done]. intros k1 k2 -> Hk. simpl.
  apply (Hf k1 (k2 ++ [x])); [by rewrite <- app_assoc|done|by destruct k2].
Qed.

Lemma fresh_in_cons target seen x ts :
  fresh_in target seen (x :: ts) ↔
    ¬ target `suffix_of` seen ++ [x] ∧ fresh_in target (seen ++ [x]) ts.
Proof.
  unfold fresh_in. split.
  - intros H. split; [by apply (H [x] ts)|]. intros k1 k2 -> Hk. rewrite <- app_assoc.
    by apply (H (x :: k1) k2).
  - intros [H1 H2] [|y k1] k2 E Hk; [done|]. injection E as <- E.
    destruct k1 as [|z k1]; [done|].
    replace (seen ++ x :: z :: k1) with ((seen ++ [x]) ++ z :: k1) by by rewrite <- app_assoc.
    by apply (H2 (z :: k1) k2).
Qed.

(** ** Walking the state machine *)

Fixpoint walk (ts : list Z) (g : t) : list bool * t :=
  match ts with
  | [] => ([], g)
  | x :: ts =>
      match update_enforcement_state x g with
      | (Ok b, g) => let '(bs, g) := walk ts g in (b :: bs, g)
      | (Raise _, g) => ([], g)
      end
  end.

Lemma update_total x : total (update_enforcement_state x).
Proof.
  unfold update_enforcement_state, region_match, check_sequence_match, check_thinking_match.
  solve_total.
Qed.

Lemma walk_app ts us g :
  walk (ts ++ us) g = let '(bs, g) := walk ts g in let '(cs, g) := walk us g in (bs ++ cs, g).
Proof.
  revert g. induction ts as [|x ts IH]; intros g; simpl; [by destruct (walk us g)|].
  destruct (update_total x g) as (b & g' & ->).
  rewrite IH. destruct (walk ts g') as [bs g1]. by destruct (walk us g1).
Qed.

Definition not_thinking (g : t) : Prop :=
  thinking_region_delimiters g = None ∨ _in_thinking_region g = false.

(** A conditional tool grammar ([tool_choice=auto]) with both markers. *)
Definition auto_tools (s e : list Z) (g : t) : Prop :=
  not_thinking g ∧ tools_forced g = false ∧ tool_region g = Some (region (Some s) (Some e)).

Ltac open_state g :=
  destruct g as [en fo rq js tr th it tb kb]; unfold auto_tools, not_thinking in *; simpl in *;
  destruct_and?; simplify_eq/=.

Lemma thinking_test g : not_thinking g →
  bool_decide (is_Some (thinking_region_delimiters g)) && _in_thinking_region g = false.
Proof. intros [->| ->]; [done|]. apply andb_false_r. Qed.

Lemma update_off s e seen x g :
  auto_tools s e g → grammar_enforced g = false →
  _tool_calling_match_buffer g = lastn (len s) seen →
  update_enforcement_state x g =
    if decide (s `suffix_of` seen ++ [x]) then (Ok true, set_enforced true (set_tool_buffer [] g))
    else (Ok false, set_tool_buffer (lastn (len s) (seen ++ [x])) g).
Proof.
  intros Ha He Hb. unfold update_enforcement_state. unfold bind at 1, get.
  rewrite thinking_test by apply Ha. open_state g.
  unfold check_sequence_match. run_unfold. simpl. rewrite check_run. by case_decide.
Qed.

Lemma update_on s e seen x g :
  auto_tools s e g → grammar_enforced g = true →
  _tool_calling_match_buffer g = lastn (len e) seen →
  update_enforcement_state x g =
    if decide (e `suffix_of` seen ++ [x]) then (Ok true, set_enforced false (set_tool_buffer [] g))
    else (Ok true, set_tool_buffer (lastn (len e) (seen ++ [x])) g).
Proof.
  intros Ha He Hb. unfold update_enforcement_state. unfold bind at 1, get.
  rewrite thinking_test by apply Ha. open_state g.
  unfold check_sequence_match. run_unfold. simpl. rewrite check_run. by case_decide.
Qed.

Lemma walk_off s e ts seen g :
  auto_tools s e g → grammar_enforced g = false →
  _tool_calling_match_buffer g = lastn (len s) seen → fresh_in s seen ts →
  walk ts g = (replicate (length ts) false, set_tool_buffer (lastn (len s) (seen ++ ts)) g).
Proof.
  revert seen g. induction ts as [|x ts IH]; intros seen g Ha He Hb Hf.
  - rewrite app_nil_r, <- Hb. by destruct g.
  - apply fresh_in_cons in Hf as [Hx Hf]. simpl.
    rewrite (update_off s e seen), decide_False by done.
    rewrite (IH (seen ++ [x])); [by rewrite <- app_assoc|done..].
Qed.

Lemma walk_on s e ts seen g :
  auto_tools s e g → grammar_enforced g = true →
  _tool_calling_match_buffer g = lastn (len e) seen → fresh_in e seen ts →
  walk ts g = (replicate (length ts) true, set_tool_buffer (lastn (len e) (seen ++ ts)) g).
Proof.
  revert seen g. induction ts as [|x ts IH]; intros seen g Ha He Hb Hf.
  - rewrite app_nil_r, <- Hb. by destruct g.
  - apply fresh_in_cons in Hf as [Hx Hf]. simpl.
    rewrite (update_on s e seen), decide_False by done.
    rewrite (IH (seen ++ [x])); [by rewrite <- app_assoc|done..].
Qed.

(** From outside a tool call up to and including the start marker. *)
Lemma walk_start s e ts g :
  auto_tools s e g → grammar_enforced g = false → _tool_calling_match_buffer g = [] →
  first_at_end s ts →
  walk ts g = (replicate (length ts - 1) false ++ [true], set_enforced true g).
Proof.
  intros Ha He Hb (l & x & -> & Hf & Hs)%first_at_end_snoc.
  assert (_tool_calling_match_buffer g = lastn (len s) []) as Hb'.
  { rewrite Hb. unfold lastn. by rewrite drop_nil. }
  rewrite walk_app, (walk_off s e l [] g) by done. simpl.
  rewrite (update_off s e l), decide_True by done.
  rewrite length_app. simpl. replace (length l + 1 - 1)%nat with (length l) by lia.
  f_equal. open_state g. done.
Qed.

(** From inside a tool call up to and including the end marker. *)
Lemma walk_end s e ts g :
  auto_tools s e g → grammar_enforced g = true → _tool_calling_match_buffer g = [] →
  first_at_end e ts →
  walk ts g = (replicate (length ts) true, set_enforced false g).
Proof.
  intros Ha He Hb (l & x & -> & Hf & Hs)%first_at_end_snoc.
  assert (_tool_calling_match_buffer g = lastn (len e) []) as Hb'.
  { rewrite Hb. unfold lastn. by rewrite drop_nil. }
  rewrite walk_app, (walk_on s e l [] g) by done. simpl.
  rewrite (update_on s e l), decide_True by done.
  rewrite length_app, replicate_add. simpl. f_equal. open_state g. done.
Qed.

(** Inside a thinking region whose end marker is [e]; a tool marker, if any, is [s]. *)
Definition thinking (s : option (list Z)) (e : list Z) (g : t) : Prop :=
  _in_thinking_region g = true ∧ marker end_token_ids (thinking_region_delimiters g) = Some e ∧
  marker start_token_ids (tool_region g) = s.

Definition tool_buffer_is (s : option (list Z)) (seen : list Z) (g : t) : Prop :=
  match s with Some s => _tool_calling_match_buffer g = lastn (len s) seen | None => True end.
Definition next_tool_buffer (s : option (list Z)) (seen : list Z) (g : t) : t :=
  match s with Some s => set_tool_buffer (lastn (len s) seen) g | None => g end.
Definition tool_quiet (s : option (list Z)) (seen : list Z) (ts : list Z) : Prop :=
  match s with Some s => fresh_in s seen ts | None => True end.

Lemma update_thinking s e seen x g :
  thinking s e g → tool_buffer_is s seen g → _thinking_match_buffer g = lastn (len e) seen →
  tool_quiet s seen [x] →
  update_enforcement_state x g =
    if decide (e `suffix_of` seen ++ [x]) then
      (Ok false, next_tool_buffer s (seen ++ [x]) (set_thinking_buffer []
         (set_enforced (tools_forced g || has_json_schema g || grammar_enforced g)
           (set_thinking false g))))
    else (Ok false, next_tool_buffer s (seen ++ [x])
                      (set_thinking_buffer (lastn (len e) (seen ++ [x])) g)).
Proof.
  intros (Hi & He & Hs) Hb Hk Hq. unfold update_enforcement_state. unfold bind at 1, get.
  destruct g as [en fo rq js tr [th|] it tb kb]; simplify_eq/=.
  simpl. unfold check_sequence_match, check_thinking_match. run_unfold. simpl.
  rewrite He. destruct (marker start_token_ids tr) as [s|]; simpl in *; run_unfold; simpl.
  - rewrite Hb, check_run, decide_False by by apply (Hq [x] []). simpl.
    rewrite check_run. case_decide; simpl; [|done]. by destruct (fo || js).
  - rewrite check_run. case_decide; simpl; [|done]. by destruct (fo || js).
Qed.

Lemma tool_quiet_cons s seen x ts :
  tool_quiet s seen (x :: ts) ↔ tool_quiet s seen [x] ∧ tool_quiet s (seen ++ [x]) ts.
Proof.
  destruct s as [s|]; simpl; [|tauto]. rewrite !fresh_in_cons. unfold fresh_in at 2.
  split; [|tauto]. intros [H1 H2]. split_and!; try done.
  intros k1 k2 [-> _]%eq_sym%app_eq_nil Hk. done.
Qed.

Lemma walk_thinking s e ts seen g :
  thinking s e g → tool_buffer_is s seen g → _thinking_match_buffer g = lastn (len e) seen →
  tool_quiet s seen ts → fresh_in e seen ts →
  walk ts g = (replicate (length ts) false,
    next_tool_buffer s (seen ++ ts) (set_thinking_buffer (lastn (len e) (seen ++ ts)) g)).
Proof.
  revert seen g. induction ts as [|x ts IH]; intros seen g Ht Hb Hk Hq Hf.
  - rewrite app_nil_r, <- Hk. destruct g, s as [s|]; simpl in *; [by rewrite <- Hb|done].
  - apply fresh_in_cons in Hf as [Hx Hf]. apply tool_quiet_cons in Hq as [Hq Hqs]. simpl.
    rewrite (update_thinking s e seen), decide_False by done.
    rewrite (IH (seen ++ [x])).
    + rewrite <- app_assoc. simpl. destruct s; simpl; done.
    + destruct Ht as (? & ? & ?). destruct g, s; done.
    + by destruct g, s.
    + by destruct g, s.
    + done.
    + done.
Qed.

Lemma walk_thinking_exit s e ts g :
  thinking s e g → _tool_calling_match_buffer g = [] → _thinking_match_buffer g = [] →
  tool_quiet s [] ts → first_at_end e ts →
  walk ts g = (replicate (length ts) false,
    next_tool_buffer s ts (set_enforced (tools_forced g || has_json_schema g || grammar_enforced g)
      (set_thinking false g))).
Proof.
  intros Ht Hb Hk Hq (l & x & -> & Hf & Hs)%first_at_end_snoc.
  assert (∀ m : list Z, lastn (len m) [] = []) as Hnil by (intros m; apply drop_nil).
  assert (tool_quiet s [] l ∧ tool_quiet s l [x]) as [Hq1 Hq2].
  { destruct s as [s|]; [|done]. split.
    - intros k1 k2 -> Hn. apply (Hq k1 (k2 ++ [x])); [by rewrite <- app_assoc|done].
    - intros k1 k2 E Hn. destruct k1 as [|y k1]; [done|]. injection E as <- E.
      symmetry in E. apply app_eq_nil in E as [-> ->]. by apply (Hq (l ++ [x]) []); [rewrite app_nil_r|destruct l]. }
  rewrite walk_app, (walk_thinking s e l [] g);
    [|done|by destruct s as [s|]; simpl; rewrite ?Hb, ?Hnil|by rewrite Hk, Hnil|done|done].
  simpl.
  rewrite (update_thinking s e l); [|by destruct Ht as (? & ? & ?); destruct g, s|by destruct g, s|by destruct g, s|done].
  rewrite decide_True by done. rewrite length_app, replicate_add. simpl. f_equal.
  destruct g, s; simpl in *; by rewrite Hk.
Qed.

Lemma first_at_end_cons (target seen : list Z) x ts :
  ¬ target `suffix_of` seen ++ [x] →
  (∀ k1 k2, ts = k1 ++ k2 → k1 ≠ [] → k2 ≠ [] → ¬ target `suffix_of` (seen ++ [x]) ++ k1) →
  ∀ k1 k2, x :: ts = k1 ++ k2 → k1 ≠ [] → k2 ≠ [] → ¬ target `suffix_of` seen ++ k1.
Proof.
  intros Hx Hf [|y k1] k2 E H1 H2; [done|]. injection E as <- E.
  destruct k1 as [|z k1]; [done|].
  replace (seen ++ x :: z :: k1) with ((seen ++ [x]) ++ z :: k1) by by rewrite <- app_assoc.
  by apply (Hf (z :: k1) k2).
Qed.

Lemma scan_run target ts seen :
  match scan target ts (lastn (len target) seen) with
  | (Some i, b) => ∃ l1 l2, ts = l1 ++ l2 ∧ len l1 = i + 1 ∧ l1 ≠ [] ∧ b = [] ∧
      target `suffix_of` seen ++ l1 ∧
      (∀ k1 k2, l1 = k1 ++ k2 → k1 ≠ [] → k2 ≠ [] → ¬ target `suffix_of` seen ++ k1)
  | (None, b) => fresh_in target seen ts ∧ b = lastn (len target) (seen ++ ts)
  end.
Proof.
  revert seen. induction ts as [|x ts IH]; intros seen; simpl.
  - rewrite app_nil_r. split; [|done]. intros k1 k2 [-> _]%eq_sym%app_eq_nil Hk. done.
  - rewrite check_run. case_decide as Hx; simpl.
    + exists [x], ts. split_and!; try done. intros [|y k1] [|z k2] E H1 H2; try done.
      injection E as _ E. symmetry in E. by apply app_eq_nil in E as [_ ?].
    + specialize (IH (seen ++ [x])). destruct (scan target ts _) as [[i|] b]; simpl.
      * destruct IH as (l1 & l2 & -> & Hl & _ & -> & Hs & Hf). exists (x :: l1), l2.
        rewrite len_cons. rewrite <- app_assoc in Hs. split_and!; [done|lia|done|done|done|].
        by apply first_at_end_cons.
      * destruct IH as [Hf ->]. rewrite <- app_assoc, fresh_in_cons. done.
Qed.

Lemma scan_first_at_end target ts b :
  scan target ts [] = (Some (len ts - 1), b) → first_at_end target ts.
Proof.
  intros E. pose proof (scan_run target ts []) as Hs.
  replace (lastn (len target) []) with (@nil Z) in Hs by (symmetry; apply drop_nil).
  rewrite E in Hs. destruct Hs as (l1 & l2 & -> & Hl & Hne & -> & Hs & Hf).
  rewrite len_app in Hl. assert (l2 = []) as -> by (apply len_0_nil; lia).
  rewrite app_nil_r. done.
Qed.

(** ** What a step can change *)

(** The fields no token changes. *)
Definition config (g : t) : bool * bool * bool * option Region * option Region :=
  (tools_forced g, requires_structured_output_flag g, has_json_schema g, tool_region g,
   thinking_region_delimiters g).

Lemma update_config c x :
  preserves (λ g, config g = c) (update_enforcement_state x).
Proof.
  unfold update_enforcement_state, region_match, check_sequence_match, check_thinking_match.
  solve_preserves; by apply preserves_modify; intros [] ?.
Qed.

Lemma walk_config ts g : config (walk ts g).2 = config g.
Proof.
  revert g. induction ts as [|x ts IH]; intros g; [done|]. simpl.
  pose proof (update_config (config g) x g eq_refl) as Hc.
  destruct (update_total x g) as (b & g' & E). rewrite E in *. simpl in Hc.
  specialize (IH g'). destruct (walk ts g'). simpl in *. congruence.
Qed.

Lemma restore_run g g' : config g' = config g → restore (snapshot g) g' = (Ok tt, g).
Proof. destruct g, g'. unfold config. simpl. by intros [= -> -> -> -> ->]. Qed.

End GrammarEnforcement.

(** ** Properties of the enforcement state machine *)
Module GrammarProperties.
Import GrammarEnforcement.

(** The rolling buffer recognises a marker exactly. Feeding tokens one at a
    time from an empty buffer reports a match at the first position where the marker
    is a suffix of the tokens fed (so a marker split over many calls, or overlapping
    a failed attempt, is not missed and nothing else matches), empties the buffer
    there, and until then keeps just the last tokens a match could still use. *)
Theorem marker_first_occurrence target ts :
  match scan target ts [] with
  | (Some i, b) => ∃ l1 l2, ts = l1 ++ l2 ∧ len l1 = i + 1 ∧ b = [] ∧ first_at_end target l1
  | (None, b) => fresh_in target [] ts ∧ b = lastn (len target) ts
  end.
Proof.
  pose proof (scan_run target ts []) as Hs.
  replace (lastn (len target) []) with (@nil Z) in Hs by (symmetry; apply drop_nil).
  destruct (scan target ts []) as [[i|] b]; [|done].
  destruct Hs as (l1 & l2 & -> & Hl & Hne & -> & Hs & Hf). by exists l1, l2.
Qed.

(** With [tool_choice=auto], enforcement brackets exactly the tool call. From
    outside a call, reading text up to the first completed start marker and then a
    body up to the first completed end marker: no token before the start marker's last
    one goes to the matcher, that one and every token of the body (end marker
    included) do, and the machine ends in the state it started from, ready for the
    next call. *)
Theorem tool_section_boundaries s e text body g :
  auto_tools s e g → grammar_enforced g = false → _tool_calling_match_buffer g = [] →
  first_at_end s text → first_at_end e body →
  walk (text ++ body) g =
    (replicate (length text - 1) false ++ [true] ++ replicate (length body) true, g).
Proof.
  intros Ha He Hb Ht Hbody. rewrite walk_app, (walk_start s e) by done.
  rewrite (walk_end s e) by (done || by destruct g).
  rewrite <- app_assoc. f_equal. destruct g. simpl in *. by rewrite He.
Qed.

Lemma tool_section_boundaries_witness :
  walk ([9; 1; 1; 2] ++ [7; 3; 3; 4])
    (set_tool_region (region (Some [1; 2]) (Some [3; 4])) default_state) =
  ([false; false; false; true; true; true; true; true],
   set_tool_region (region (Some [1; 2]) (Some [3; 4])) default_state).
Proof.
  apply (tool_section_boundaries [1; 2] [3; 4] [9; 1; 1; 2] [7; 3; 3; 4]); try done.
  - split_and!; [by left|done|done].
  - apply (scan_first_at_end _ _ []). vm_compute. reflexivity.
  - apply (scan_first_at_end _ _ []). vm_compute. reflexivity.
Defined.

(** Reasoning is never constrained. Inside a thinking region, every token up to
    and including the first completed end-of-thinking marker is kept from the matcher
    (unless a tool-call start marker completes first), and the region ends exactly
    there; enforcement is then on if it already was, if tools are forced, or if the
    request has a JSON schema. *)
Theorem thinking_region_unconstrained s e ts g :
  thinking s e g → _tool_calling_match_buffer g = [] → _thinking_match_buffer g = [] →
  tool_quiet s [] ts → first_at_end e ts →
  ∃ g', walk ts g = (replicate (length ts) false, g') ∧
    _in_thinking_region g' = false ∧ _thinking_match_buffer g' = [] ∧
    grammar_enforced g' = tools_forced g || has_json_schema g || grammar_enforced g ∧
    (∀ k1 k2, ts = k1 ++ k2 → k2 ≠ [] → _in_thinking_region (walk k1 g).2 = true).
Proof.
  intros Ht Hb Hk Hq Hf. eexists. split; [by apply (walk_thinking_exit s e)|].
  split_and!; [by destruct g, s|destruct g, s; done|by destruct g, s|].
  intros k1 k2 -> Hne. rewrite (walk_thinking s e k1 []).
  - destruct g, s; simpl; apply Ht.
  - done.
  - destruct s; simpl; [|done]. rewrite Hb. symmetry. apply drop_nil.
  - rewrite Hk. symmetry. apply drop_nil.
  - destruct s as [s|]; [|done]. intros l1 l2 -> Hn. apply (Hq l1 (l2 ++ k2)); [by rewrite app_assoc|done].
  - intros l1 l2 -> Hn. destruct Hf as (_ & _ & Hf). simpl.
    apply (Hf l1 (l2 ++ k2)); [by rewrite app_assoc|done|]. destruct l2; [done|done].
Qed.

Definition thinking_state : t :=
  set_thinking true (set_thinking_region (region None (Some [5; 6]))
    (set_forced true default_state)).

Lemma thinking_region_unconstrained_witness :
  ∃ g', walk [8; 5; 5; 6] thinking_state = ([false; false; false; false], g') ∧
    _in_thinking_region g' = false ∧ _thinking_match_buffer g' = [] ∧
    grammar_enforced g' = true ∧
    (∀ k1 k2, [8; 5; 5; 6] = k1 ++ k2 → k2 ≠ [] →
       _in_thinking_region (walk k1 thinking_state).2 = true).
Proof.
  apply (thinking_region_unconstrained None [5; 6] [8; 5; 5; 6] thinking_state); try done.
  apply (scan_first_at_end _ _ []). vm_compute. reflexivity.
Defined.

(** A speculative walk leaves no trace. After a snapshot, any tokens, and a
    restore, the whole enforcement state (buffers and region flags included) is the one
    captured, so replaying committed tokens gives the same verdicts as if the draft
    tokens had never been looked at. *)
Theorem speculative_walk_rolls_back draft committed g :
  ∃ g', restore (snapshot g) (walk draft g).2 = (Ok tt, g') ∧
    g' = g ∧ walk committed g' = walk committed g.
Proof.
  exists g. split_and!; [|done|done]. apply restore_run. symmetry. by rewrite walk_config.
Qed.

End GrammarProperties.
