(* ===== verification/Context.v ===== *)
(** * The request context (pipelines/context/context.py, status.py, outputs.py)

    [TextContext]: a request's token buffer, its end-of-sequence and grammar state, the
    placeholders that stand for tokens whose forward pass is still running
    (schedule-ahead decoding), and its output stream; [TextAndVisionContext]: the
    image spans of a multimodal prompt. *)

From Stdlib Require Import Ascii.
From S2P Require Import Prelude Tokens Eos Grammar.

Definition _CHUNK_SIZE : Z := 128.
Definition FUTURE_TOKEN : Z := - 999.

Module GenerationStatus.

Inductive t := ACTIVE | END_OF_SEQUENCE | MAXIMUM_LENGTH | CANCELLED.

#[global] Instance status_eq_dec : EqDecision t.
Proof. solve_decision. Defined.

Definition is_done (s : t) : bool := negb (bool_decide (s = ACTIVE)).

End GenerationStatus.
Export GenerationStatus (ACTIVE, END_OF_SEQUENCE, MAXIMUM_LENGTH, CANCELLED).

(** The grammar backend and the log-probability records are other packages' objects:
    the context calls [try_consume_tokens] (the number of tokens the matcher
    accepted) and only stores log probabilities. *)
Class Backend := {
  Matcher : Type;
  LogProbabilities : Type;
  try_consume_tokens : list Z → Matcher → Z * Matcher
}.

(** A matcher that accepts every token and records it. *)
Definition recording_backend : Backend := {|
  Matcher := list Z;
  LogProbabilities := Z;
  try_consume_tokens ts m := (len ts, m ++ ts)
|}.

(** ** Output chunks *)
Module TextGenerationOutput.

Record t {B : Backend} := mk {
  request_id : Z;
  tokens : list Z;
  log_probabilities : option (list LogProbabilities);
  final_status : GenerationStatus.t;
  num_cached_tokens : option Z
}.
Arguments t B : clear implicits.

Section Output.
Context {B : Backend}.

Definition is_done (o : t B) : bool := GenerationStatus.is_done (final_status o).

Definition merge (outputs : list (t B)) : outcome (t B) :=
  match outputs with
  | [] => Raise ValueError
  | [o] => Ok o
  | o :: _ =>
      let has_lp o := bool_decide (is_Some (log_probabilities o)) in
      let out lps := Ok (mk _ (request_id o) (concat (tokens <$> outputs)) lps
                           (default ACTIVE (final_status <$> last outputs)) (num_cached_tokens o)) in
      if forallb has_lp outputs then
        out (Some (concat ((λ o, default [] (log_probabilities o)) <$> outputs)))
      else if forallb (λ o, negb (has_lp o)) outputs then out None
      else Raise ValueError
  end.

End Output.
End TextGenerationOutput.

(** ** Speculative-decoding state *)
Record SpecDecodingState := spec_decoding_state {
  draft_tokens_to_verify : list Z;
  maybe_accepted_draft_tokens : list Z
}.

(** ** Text requests *)
Module TextContext.

Record t {B : Backend} := mk {
  request_id : Z;
  max_length : Z;
  tokens : TokenBuffer.t;
  eos_tracker : EOSTracker.t;
  vocab_size : option Z;
  (** [sampling_params.min_new_tokens] *)
  min_new_tokens : Z;
  target_endpoint : option string;
  cache_salt : option string;
  grammar_state : GrammarEnforcement.t;
  _matcher : option Matcher;
  status : GenerationStatus.t;
  _log_probabilities_data : gmap Z LogProbabilities;
  _is_initial_prompt : bool;
  _is_padding_ctx : bool;
  _spec_decoding_state : option SpecDecodingState;
  cached_prefix_length : option Z;
  _pending_future_count : Z
}.
Arguments t B : clear implicits.

Section Context.
Context {B : Backend}.
Implicit Types c : t B.

Definition set_tokens (x : TokenBuffer.t) c : t B :=
  mk _ (request_id c) (max_length c) x (eos_tracker c) (vocab_size c) (min_new_tokens c)
    (target_endpoint c) (cache_salt c) (grammar_state c) (_matcher c) (status c)
    (_log_probabilities_data c) (_is_initial_prompt c) (_is_padding_ctx c)
    (_spec_decoding_state c) (cached_prefix_length c) (_pending_future_count c).
Definition set_grammar (x : GrammarEnforcement.t) c : t B :=
  mk _ (request_id c) (max_length c) (tokens c) (eos_tracker c) (vocab_size c)
    (min_new_tokens c) (target_endpoint c) (cache_salt c) x (_matcher c) (status c)
    (_log_probabilities_data c) (_is_initial_prompt c) (_is_padding_ctx c)
    (_spec_decoding_state c) (cached_prefix_length c) (_pending_future_count c).
Definition put_matcher (x : option Matcher) c : t B :=
  mk _ (request_id c) (max_length c) (tokens c) (eos_tracker c) (vocab_size c)
    (min_new_tokens c) (target_endpoint c) (cache_salt c) (grammar_state c) x (status c)
    (_log_probabilities_data c) (_is_initial_prompt c) (_is_padding_ctx c)
    (_spec_decoding_state c) (cached_prefix_length c) (_pending_future_count c).
Definition set_status (x : GenerationStatus.t) c : t B :=
  mk _ (request_id c) (max_length c) (tokens c) (eos_tracker c) (vocab_size c)
    (min_new_tokens c) (target_endpoint c) (cache_salt c) (grammar_state c) (_matcher c) x
    (_log_probabilities_data c) (_is_initial_prompt c) (_is_padding_ctx c)
    (_spec_decoding_state c) (cached_prefix_length c) (_pending_future_count c).
Definition set_logprobs (x : gmap Z LogProbabilities) c : t B :=
  mk _ (request_id c) (max_length c) (tokens c) (eos_tracker c) (vocab_size c)
    (min_new_tokens c) (target_endpoint c) (cache_salt c) (grammar_state c) (_matcher c)
    (status c) x (_is_initial_prompt c) (_is_padding_ctx c)
    (_spec_decoding_state c) (cached_prefix_length c) (_pending_future_count c).
Definition set_initial (x : bool) c : t B :=
  mk _ (request_id c) (max_length c) (tokens c) (eos_tracker c) (vocab_size c)
    (min_new_tokens c) (target_endpoint c) (cache_salt c) (grammar_state c) (_matcher c)
    (status c) (_log_probabilities_data c) x (_is_padding_ctx c)
    (_spec_decoding_state c) (cached_prefix_length c) (_pending_future_count c).
Definition set_spec (x : option SpecDecodingState) c : t B :=
  mk _ (request_id c) (max_length c) (tokens c) (eos_tracker c) (vocab_size c)
    (min_new_tokens c) (target_endpoint c) (cache_salt c) (grammar_state c) (_matcher c)
    (status c) (_log_probabilities_data c) (_is_initial_prompt c) (_is_padding_ctx c)
    x (cached_prefix_length c) (_pending_future_count c).
Definition set_cached (x : option Z) c : t B :=
  mk _ (request_id c) (max_length c) (tokens c) (eos_tracker c) (vocab_size c)
    (min_new_tokens c) (target_endpoint c) (cache_salt c) (grammar_state c) (_matcher c)
    (status c) (_log_probabilities_data c) (_is_initial_prompt c) (_is_padding_ctx c)
    (_spec_decoding_state c) x (_pending_future_count c).
Definition set_pending (x : Z) c : t B :=
  mk _ (request_id c) (max_length c) (tokens c) (eos_tracker c) (vocab_size c)
    (min_new_tokens c) (target_endpoint c) (cache_salt c) (grammar_state c) (_matcher c)
    (status c) (_log_probabilities_data c) (_is_initial_prompt c) (_is_padding_ctx c)
    (_spec_decoding_state c) (cached_prefix_length c) x.

Definition on_tokens {A} (m : M TokenBuffer.t A) : M (t B) A := zoom tokens set_tokens m.
Definition on_grammar {A} (m : M GrammarEnforcement.t A) : M (t B) A :=
  zoom grammar_state set_grammar m.

(** [s.split(sep)[-1]] *)
Fixpoint last_piece (sep : string) (skip : nat) (acc s : string) : string :=
  match s with
  | EmptyString => acc
  | String x s' =>
      match skip with
      | S k => last_piece sep k acc s'
      | O => if String.prefix sep s then last_piece sep (String.length sep - 1) EmptyString s'
             else last_piece sep 0 (acc +:+ String x EmptyString) s'
      end
  end.
(** [":" in s] *)
Fixpoint has_colon (s : string) : bool :=
  match s with
  | EmptyString => false
  | String x s => bool_decide (x = ":"%char) || has_colon s
  end.

(** [__post_init__] *)
Definition post_init : M (t B) unit :=
  let! c := get in
  raise_if (min_new_tokens c + TokenBuffer.prompt_length (tokens c) >? max_length c) ValueError;;
  match target_endpoint c with
  | None => ret tt
  | Some e =>
      raise_if (negb (String.prefix "tcp://" e || String.prefix "ipc://" e)) ValueError;;
      raise_if (String.prefix "tcp://" e && negb (has_colon (last_piece "://" 0 EmptyString e)))
        ValueError
  end.

Definition is_done c : bool := GenerationStatus.is_done (status c).
Definition pending_future_count c : Z := _pending_future_count c.
Definition min_tokens c : Z := min_new_tokens c.
Definition last_realized_token : M (t B) Z :=
  let! c := get in on_tokens (TokenBuffer.getitem (- 1 - _pending_future_count c)).

(** Gets or creates the speculative-decoding state. *)
Definition spec_decoding_state : M (t B) SpecDecodingState :=
  let! c := get in
  match _spec_decoding_state c with
  | Some s => ret s
  | None => modify (set_spec (Some (spec_decoding_state [] [])));; ret (spec_decoding_state [] [])
  end.

Definition apply_processing_offset (offset : Z) : M (t B) unit :=
  on_tokens (TokenBuffer.apply_processing_offset offset).

(** The (batch index, token) pairs to mask at each step. *)
Definition get_min_token_logit_mask c (num_steps : Z) : list (list (Z * Z)) :=
  let start_range := TokenBuffer.prompt_length (tokens c) in
  let end_range := TokenBuffer.prompt_length (tokens c) + min_tokens c in
  let pos := TokenBuffer.current_position (tokens c) in
  (λ i, if (i <? start_range) || (i >=? end_range) then []
        else (λ e, (0, e)) <$> elements (EOSTracker.eos_token_ids (eos_tracker c)))
  <$> zrange pos (pos + num_steps).

Definition set_matcher (m : Matcher) : M (t B) unit := modify (put_matcher (Some m)).

Definition set_tool_region (s e : option (list Z)) : M (t B) unit :=
  when (bool_decide (is_Some s) || bool_decide (is_Some e))
    (on_grammar (modify (GrammarEnforcement.set_tool_region (GrammarEnforcement.region s e)))).

Definition set_thinking_region (s e : option (list Z)) : M (t B) unit :=
  when (bool_decide (is_Some e))
    (on_grammar (modify (GrammarEnforcement.set_thinking_region (GrammarEnforcement.region s e)))).

Definition update_enforcement_state (token : Z) : M (t B) bool :=
  on_grammar (GrammarEnforcement.update_enforcement_state token).
Definition snapshot_grammar_state c : GrammarEnforcement.Snapshot :=
  GrammarEnforcement.snapshot (grammar_state c).
Definition restore_grammar_state (s : GrammarEnforcement.Snapshot) : M (t B) unit :=
  on_grammar (GrammarEnforcement.restore s).

(** ** Output *)

(** The checks on each streamed token. *)
Definition check_token (vocab : option Z) (token_id : Z) : M (t B) unit :=
  raise_if (token_id <? 0) RuntimeError;;
  match vocab with
  | Some v => raise_if (token_id >=? v) RuntimeError
  | None => ret tt
  end.

(** Pops the log probabilities stored for the streamed positions. *)
Definition pop_logprobs (element_ids : list Z) : M (t B) (option (list LogProbabilities)) :=
  for_fold element_ids None (λ acc token_idx,
    let! c := get in
    match _log_probabilities_data c !! token_idx with
    | Some lp =>
        modify (set_logprobs (delete token_idx (_log_probabilities_data c)));;
        ret (Some (default [] acc ++ [lp]))
    | None => ret acc
    end).

(** The status reported: a length limit reached only by placeholders is not final. *)
Definition reported_status c : GenerationStatus.t :=
  if bool_decide (status c = MAXIMUM_LENGTH) && (_pending_future_count c >? 0)
     && (TokenBuffer.length (tokens c) - _pending_future_count c <? max_length c)
  then ACTIVE else status c.

Definition to_generation_output : M (t B) (TextGenerationOutput.t B) :=
  let! c := get in
  let final_status := reported_status c in
  if negb (TokenBuffer.has_outstanding_generated_tokens (tokens c)) then
    ret (TextGenerationOutput.mk _ (request_id c) [] None final_status (cached_prefix_length c))
  else
    let cr := TokenBuffer._completion_range (tokens c) in
    let consumable_end := Z.max (Range.start cr) (Range.end_ cr - _pending_future_count c) in
    let element_ids := zrange (Range.start cr) consumable_end in
    let! generated_tokens :=
      if len element_ids >? 0 then
        let! generated_tokens :=
          on_tokens (TokenBuffer.consume_recently_generated_tokens (_pending_future_count c)) in
        raise_if (bool_decide (FUTURE_TOKEN ∈ generated_tokens)) ValueError;;
        for_each generated_tokens (check_token (vocab_size c));;
        ret generated_tokens
      else ret [] in
    let! log_probabilities := pop_logprobs element_ids in
    ret (TextGenerationOutput.mk _ (request_id c) generated_tokens log_probabilities final_status
           (cached_prefix_length c)).

(** ** Updates *)

Section Updates.
Context `{NumPy}.

Definition advance_token_buffer (new_token : Z) (lp : option LogProbabilities) : M (t B) unit :=
  let! c := get in
  if TokenBuffer.actively_chunked (tokens c) then on_tokens TokenBuffer.advance_chunk else
  match lp with
  | Some lp => modify (set_logprobs
      (<[TokenBuffer.current_position (tokens c) := lp]> (_log_probabilities_data c)))
  | None => ret tt
  end;;
  raise_if ((_pending_future_count c >? 0) && negb (new_token =? FUTURE_TOKEN)) ValueError;;
  on_tokens (TokenBuffer.advance_with_token new_token);;
  let! c := get in
  let! eos := if negb (new_token =? FUTURE_TOKEN)
              then of_outcome (EOSTracker.is_eos_from_tokens (eos_tracker c)
                                 (TokenBuffer.generated (tokens c)))
              else ret false in
  (if eos : bool then modify (set_status END_OF_SEQUENCE)
   else when (TokenBuffer.current_position (tokens c) >=? max_length c)
          (modify (set_status MAXIMUM_LENGTH)));;
  modify (set_initial false).

(** What the matcher is fed: the whole start marker when enforcement just began. *)
Definition _tokens_for_consume c (token : Z) (was_enforced : bool) : list Z :=
  match GrammarEnforcement.marker GrammarEnforcement.start_token_ids
          (GrammarEnforcement.tool_region (grammar_state c)) with
  | Some (x :: l) => if negb was_enforced then x :: l else [token]
  | _ => [token]
  end.

Definition advance_fsm (token : Z) : M (t B) bool :=
  let! c := get in
  match _matcher c with
  | None => ret false
  | Some m =>
      (if bool_decide (token ∈ EOSTracker.eos_token_ids (eos_tracker c)) then
         on_grammar (modify (GrammarEnforcement.set_enforced false))
       else
         let was_enforced := GrammarEnforcement.grammar_enforced (grammar_state c) in
         let! consume := update_enforcement_state token in
         when consume
           (let! c := get in
            let tokens := _tokens_for_consume c token was_enforced in
            let '(n, m) := try_consume_tokens tokens m in
            modify (put_matcher (Some m));;
            when (negb (n =? len tokens))
              (on_grammar (modify (GrammarEnforcement.set_enforced false)))));;
      ret true
  end.

Definition update (new_token : Z) (lp : option LogProbabilities) : M (t B) unit :=
  advance_token_buffer new_token lp;;
  advance_fsm new_token;;
  ret tt.

(** [self.update] is a virtual call: subclasses pass their own. *)
Definition update_with_future_token (self_update : Z → option LogProbabilities → M (t B) unit)
    (max_pending_futures : Z) : M (t B) unit :=
  let! c := get in
  raise_if (_pending_future_count c >=? max_pending_futures) ValueError;;
  let appended_placeholder := negb (TokenBuffer.actively_chunked (tokens c)) in
  match _matcher c with
  | Some _ => advance_token_buffer FUTURE_TOKEN None
  | None => self_update FUTURE_TOKEN None
  end;;
  when appended_placeholder (modify (λ c, set_pending (_pending_future_count c + 1) c)).

Definition realize_future_token (new_token : Z) (lp : option LogProbabilities) : M (t B) unit :=
  let! c := get in
  raise_if (TokenBuffer.generated_length (tokens c) =? 0) ValueError;;
  let count := _pending_future_count c in
  raise_if (count =? 0) ValueError;;
  match lp with
  | Some lp => modify (set_logprobs
      (<[TokenBuffer.current_position (tokens c) - count := lp]> (_log_probabilities_data c)))
  | None => ret tt
  end;;
  on_tokens (TokenBuffer.overwrite_token_at_offset_from_end count new_token);;
  modify (set_pending (count - 1));;
  let! c := get in
  let realized := TokenBuffer.generated (tokens c) in
  let realized := if _pending_future_count c >? 0
                  then slice_to realized (- _pending_future_count c) else realized in
  let! eos := if len realized >? 0
              then of_outcome (EOSTracker.is_eos_from_tokens (eos_tracker c) realized)
              else ret false in
  when eos (modify (set_status END_OF_SEQUENCE)).

Definition reset : M (t B) unit :=
  let! c := get in
  on_tokens (TokenBuffer.reset_as_new_prompt (_pending_future_count c));;
  modify (set_pending 0);;
  modify (set_initial true);;
  modify (set_spec None).

Definition compute_num_available_steps c (max_seq_len : Z) : Z :=
  max_seq_len - (TokenBuffer.length (tokens c) - TokenBuffer.active_length (tokens c)).

Definition is_initial_prompt c : bool := _is_initial_prompt c.

(** ** What the updates do *)

Definition store_lp (pos : Z) (lp : option LogProbabilities) c : t B :=
  match lp with
  | Some lp => set_logprobs (<[pos := lp]> (_log_probabilities_data c)) c
  | None => c
  end.

(** The status after appending a token, from the buffer it leaves. *)
Definition status_after (x : Z) (b : TokenBuffer.t) c : GenerationStatus.t :=
  if negb (x =? FUTURE_TOKEN) &&
     bool_decide (EOSTracker.is_eos_from_tokens (eos_tracker c) (TokenBuffer.generated b) = Ok true)
  then END_OF_SEQUENCE
  else if TokenBuffer.current_position b >=? max_length c then MAXIMUM_LENGTH else status c.

Lemma is_eos_ok e gen :
  gen ≠ [] →
  EOSTracker.is_eos_from_tokens e gen =
    Ok (bool_decide (EOSTracker.is_eos_from_tokens e gen = Ok true)).
Proof.
  intros Hne. destruct (EOSTracker.is_eos_nonempty e gen Hne) as ([] & E & _); rewrite E; done.
Qed.

Lemma on_tokens_run {A} (m : M TokenBuffer.t A) c a b :
  m (tokens c) = (Ok a, b) → on_tokens m c = (Ok a, set_tokens b c).
Proof. intros E. unfold on_tokens, zoom. by rewrite E. Qed.

Lemma advance_token_buffer_run x lp c b :
  TokenBuffer.wf (tokens c) → TokenBuffer._actively_chunked (tokens c) = false →
  int64 x = true → _pending_future_count c = 0 ∨ x = FUTURE_TOKEN →
  TokenBuffer.advance_with_token x (tokens c) = (Ok tt, b) →
  advance_token_buffer x lp c =
    (Ok tt, set_initial false (set_status (status_after x b c) (set_tokens b
       (store_lp (TokenBuffer.current_position (tokens c)) lp c)))).
Proof.
  intros Hwf Hch Hx Hp E.
  pose proof (TokenBuffer.advance_generated x _ _ Hwf Hx E) as Hg.
  unfold advance_token_buffer. unfold bind at 1, get. unfold TokenBuffer.actively_chunked. rewrite Hch.
  assert (match lp with
    | Some lp => modify (set_logprobs
        (<[TokenBuffer.current_position (tokens c) := lp]> (_log_probabilities_data c)))
    | None => ret tt
    end c = (Ok tt, store_lp (TokenBuffer.current_position (tokens c)) lp c)) as Elp by by destruct lp.
  mstep Elp. set (c1 := store_lp _ lp c).
  assert (tokens c1 = tokens c ∧ status c1 = status c ∧ max_length c1 = max_length c ∧
    eos_tracker c1 = eos_tracker c) as (Et & Es & Em & Ee) by (unfold c1; by destruct lp).
  mstep (raise_if_false ((_pending_future_count c >? 0) && negb (x =? FUTURE_TOKEN)) ValueError c1
    ltac:(destruct Hp as [->|Hp]; [done|rewrite Hp; apply andb_false_r])).
  rewrite <- Et in E. mstep (on_tokens_run _ _ _ _ E). unfold bind at 1, get. simpl.
  unfold status_after. rewrite <- Es, <- Em, <- Ee.
  destruct (x =? FUTURE_TOKEN) eqn:Ef; simpl.
  - unfold when. destruct (_ >=? _); by destruct c1.
  - rewrite is_eos_ok by (rewrite Hg; by destruct (TokenBuffer.generated (tokens c))).
    unfold bind at 1, of_outcome. case_bool_decide as Hd; [by destruct c1|].
    unfold when. destruct (_ >=? _); by destruct c1.
Qed.

(** Advancing the matcher touches the grammar state and the matcher only. *)
Lemma advance_fsm_run x c :
  ∃ r g m, advance_fsm x c = (Ok r, put_matcher m (set_grammar g c)).
Proof.
  unfold advance_fsm, bind at 1, get. destruct (_matcher c) as [m|] eqn:Em.
  2:{ exists false, (grammar_state c), None. rewrite <- Em. by destruct c. }
  case_bool_decide.
  { exists true, (GrammarEnforcement.set_enforced false (grammar_state c)), (Some m).
    rewrite <- Em. by destruct c. }
  destruct (GrammarEnforcement.update_total x (grammar_state c)) as (u & g & Eu).
  assert (update_enforcement_state x c = (Ok u, set_grammar g c)) as Eu'.
  { unfold update_enforcement_state, on_grammar, zoom. by rewrite Eu. }
  unfold bind at 1. unfold bind at 1. rewrite Eu'. destruct u; simpl.
  2:{ exists true, g, (Some m). rewrite <- Em. by destruct c. }
  unfold bind at 1, get. simpl.
  destruct (try_consume_tokens _ m) as [n m'].
  unfold bind at 1, modify. destruct (negb _).
  - exists true, (GrammarEnforcement.set_enforced false g), (Some m'). by destruct c.
  - exists true, g, (Some m'). by destruct c.
Qed.

Lemma update_run x lp c c1 :
  advance_token_buffer x lp c = (Ok tt, c1) →
  ∃ g m, update x lp c = (Ok tt, put_matcher m (set_grammar g c1)).
Proof.
  intros E. destruct (advance_fsm_run x c1) as (r & g & m & Ef). exists g, m.
  unfold update. mstep E. by mstep Ef.
Qed.

(** A placeholder append without the grammar: what both branches of
    [update_with_future_token] come to. *)
Lemma future_run m c b :
  TokenBuffer.wf (tokens c) → TokenBuffer._actively_chunked (tokens c) = false →
  _pending_future_count c < m →
  TokenBuffer.advance_with_token FUTURE_TOKEN (tokens c) = (Ok tt, b) →
  update_with_future_token update m c =
    (Ok tt, set_pending (_pending_future_count c + 1) (set_initial false
       (set_status (status_after FUTURE_TOKEN b c) (set_tokens b c)))).
Proof.
  intros Hwf Hch Hm E.
  pose proof (advance_token_buffer_run FUTURE_TOKEN None c b Hwf Hch eq_refl (or_intror eq_refl) E) as Ea.
  simpl in Ea. unfold update_with_future_token. unfold bind at 1, get.
  mstep (raise_if_false (_pending_future_count c >=? m) ValueError c ltac:(lia)).
  unfold TokenBuffer.actively_chunked. rewrite Hch.
  destruct (_matcher c) as [mt|] eqn:Emt.
  - by mstep Ea.
  - unfold update. unfold bind at 1. mstep Ea. unfold advance_fsm. unfold bind, get. simpl.
    by rewrite Emt.
Qed.

(** Realizing the oldest placeholder. *)
Lemma realize_run x lp c l1 l2 :
  TokenBuffer.wf (tokens c) → int64 x = true →
  TokenBuffer.generated (tokens c) = l1 ++ FUTURE_TOKEN :: l2 →
  _pending_future_count c = len l2 + 1 →
  ∃ b, TokenBuffer.overwrite_token_at_offset_from_end (_pending_future_count c) x (tokens c) = (Ok tt, b) ∧
    realize_future_token x lp c =
    (Ok tt, set_status
       (if bool_decide (EOSTracker.is_eos_from_tokens (eos_tracker c) (l1 ++ [x]) = Ok true)
        then END_OF_SEQUENCE else status c)
       (set_pending (len l2) (set_tokens b
         (store_lp (TokenBuffer.current_position (tokens c) - _pending_future_count c) lp c)))).
Proof.
  intros Hwf Hx Hg Hk. pose proof (TokenBuffer.len_generated _ Hwf) as Hl.
  pose proof (len_nonneg l1). pose proof (len_nonneg l2). rewrite Hg, len_app, len_cons in Hl.
  destruct (TokenBuffer.overwrite_generated (_pending_future_count c) x _ _ _ _ Hwf Hx Hg Hk)
    as (b & Eb & Hwfb & Hgb & _).
  exists b. split; [done|]. unfold realize_future_token. unfold bind at 1, get.
  mstep (raise_if_false (TokenBuffer.generated_length (tokens c) =? 0) ValueError c
    ltac:(unfold TokenBuffer.generated_length; lia)).
  mstep (raise_if_false (_pending_future_count c =? 0) ValueError c ltac:(lia)).
  set (pos := TokenBuffer.current_position (tokens c) - _pending_future_count c).
  assert (match lp with
    | Some lp => modify (set_logprobs (<[pos := lp]> (_log_probabilities_data c)))
    | None => ret tt
    end c = (Ok tt, store_lp pos lp c)) as Elp by by destruct lp.
  mstep Elp. set (c1 := store_lp pos lp c).
  assert (tokens c1 = tokens c ∧ status c1 = status c ∧ eos_tracker c1 = eos_tracker c)
    as (Et & Es & Ee) by (unfold c1; by destruct lp).
  rewrite <- Et in Eb. mstep (on_tokens_run _ _ _ _ Eb).
  unfold bind at 1, modify. unfold bind at 1, get. simpl. rewrite Hgb, Ee.
  replace (_pending_future_count c - 1) with (len l2) by lia.
  assert ((if len l2 >? 0 then slice_to (l1 ++ x :: l2) (- len l2) else l1 ++ x :: l2) = l1 ++ [x])
    as ->.
  { destruct (len l2 >? 0) eqn:El.
    - unfold slice_to, slice, clamp_index. rewrite len_app, len_cons.
      replace (- len l2 <? 0) with true by lia. simpl.
      replace (Z.max 0 (Z.min (len l1 + (len l2 + 1)) 0)) with 0 by lia.
      replace (Z.to_nat (Z.max 0 (Z.min (len l1 + (len l2 + 1)) (len l1 + (len l2 + 1) + - len l2)) - 0))
        with (length (l1 ++ [x])) by (rewrite length_app; unfold len; simpl; lia).
      rewrite drop_0. replace (l1 ++ x :: l2) with ((l1 ++ [x]) ++ l2) by by rewrite <- app_assoc.
      by rewrite take_app_length.
    - by rewrite (len_0_nil l2) by lia. }
  replace (len (l1 ++ [x]) >? 0) with true by (rewrite len_app, len_singleton; lia).
  rewrite is_eos_ok by by destruct l1. unfold bind at 1, of_outcome.
  case_bool_decide as Hd; [rewrite bool_decide_eq_true_2 by done|rewrite bool_decide_eq_false_2 by done];
    unfold c1; by destruct lp, c.
Qed.

(** ** Traces: what a scheduler does to a request that is decoding *)

Inductive op :=
| Update (x : Z) (lp : option LogProbabilities)
| Future (max_pending : Z)
| Realize (x : Z) (lp : option LogProbabilities)
| Output.

(** Runs an operation; the tokens it streams to the client. *)
Definition exec (o : op) : M (t B) (list Z) :=
  match o with
  | Update x lp => update x lp;; ret []
  | Future m => update_with_future_token update m;; ret []
  | Realize x lp => realize_future_token x lp;; ret []
  | Output => let! o := to_generation_output in ret (TextGenerationOutput.tokens o)
  end.

(** The token the model produced, if the operation brings one. *)
Definition produced (o : op) : list Z :=
  match o with Update x _ | Realize x _ => [x] | _ => [] end.

Definition good_token c (x : Z) : Prop :=
  0 ≤ x ∧ int64 x = true ∧ match vocab_size c with Some v => x < v | None => True end.
#[global] Instance good_token_dec c x : Decision (good_token c x).
Proof. unfold good_token. destruct (vocab_size c); apply _. Defined.

(** The overlap scheduler's discipline: real tokens are appended only when no
    placeholder is pending, placeholders up to the limit, and a realization has a
    placeholder to fill. *)
Definition op_ok (o : op) c : Prop :=
  match o with
  | Update x _ => good_token c x ∧ _pending_future_count c = 0
  | Future m => _pending_future_count c < m
  | Realize x _ => good_token c x ∧ 0 < _pending_future_count c
  | Output => True
  end.

(** Runs a sequence: the streamed tokens, or the exception. *)
Fixpoint run_ops (os : list op) c : outcome (list Z) * t B :=
  match os with
  | [] => (Ok [], c)
  | o :: os =>
      match exec o c with
      | (Ok out, c) => match run_ops os c with
                       | (Ok outs, c) => (Ok (out ++ outs), c)
                       | (Raise e, c) => (Raise e, c) end
      | (Raise e, c) => (Raise e, c)
      end
  end.
Fixpoint trace_ok (os : list op) c : Prop :=
  match os with
  | [] => True
  | o :: os => op_ok o c ∧ trace_ok os (exec o c).2
  end.

#[global] Instance trace_ok_dec os c : Decision (trace_ok os c).
Proof.
  revert c. induction os as [|[] os IH]; intros c; simpl; try apply _;
    (apply and_dec; [simpl; apply _|apply IH]).
Defined.

(** [given]: the model's tokens so far; [out]: those streamed. *)
Record Inv c (given out : list Z) : Prop := {
  inv_wf : TokenBuffer.wf (tokens c);
  inv_unchunked : TokenBuffer._actively_chunked (tokens c) = false;
  inv_pending : 0 ≤ _pending_future_count c;
  inv_generated : TokenBuffer.generated (tokens c) =
    given ++ replicate (Z.to_nat (_pending_future_count c)) FUTURE_TOKEN;
  inv_stream : Range.start (TokenBuffer._completion_range (tokens c)) =
    TokenBuffer._prompt_length (tokens c) + len out;
  inv_out : out `prefix_of` given;
  inv_given : ∀ x, x ∈ given → good_token c x;
  inv_status : status c = MAXIMUM_LENGTH → max_length c ≤ TokenBuffer._current_length (tokens c)
}.

(** What [Inv] needs of the parts an update leaves alone. *)
Lemma good_token_vocab c c' x : vocab_size c' = vocab_size c → good_token c x → good_token c' x.
Proof. unfold good_token. by intros ->. Qed.

Lemma unchunked_append c x :
  TokenBuffer.wf (tokens c) → TokenBuffer._actively_chunked (tokens c) = false → int64 x = true →
  ∃ b, TokenBuffer.advance_with_token x (tokens c) = (Ok tt, b) ∧ TokenBuffer.wf b ∧
    TokenBuffer._actively_chunked b = false ∧
    TokenBuffer.generated b = TokenBuffer.generated (tokens c) ++ [x] ∧
    TokenBuffer._current_length b = TokenBuffer._current_length (tokens c) + 1 ∧
    TokenBuffer._prompt_length b = TokenBuffer._prompt_length (tokens c) ∧
    Range.start (TokenBuffer._completion_range b) =
      Range.start (TokenBuffer._completion_range (tokens c)) ∧
    TokenBuffer.current_position b = TokenBuffer._current_length b.
Proof.
  intros Hwf Hch Hx. pose proof (TokenBuffer.advance_with_token_run x _ Hwf Hx) as Hr.
  rewrite Hch in Hr. destruct Hr as (a' & E & _). eexists. split; [exact E|].
  pose proof (TokenBuffer.exec_wf (TokenBuffer.AdvanceWithToken x) _ Hwf Hx) as Hwf'.
  unfold TokenBuffer.exec, bind in Hwf'. rewrite E in Hwf'. split; [exact Hwf'|].
  split; [done|]. split; [by apply (TokenBuffer.advance_generated x _ _ Hwf Hx E)|].
  split_and!; try done. unfold TokenBuffer.current_position, TokenBuffer.processed_length,
    TokenBuffer.active_length, Range.length. simpl. lia.
Qed.

Lemma status_after_max x b c :
  status_after x b c = MAXIMUM_LENGTH →
  max_length c ≤ TokenBuffer.current_position b ∨ status c = MAXIMUM_LENGTH.
Proof.
  unfold status_after. destruct (_ && _); [done|]. destruct (_ >=? _) eqn:E; [left; lia|by right].
Qed.

Lemma inv_update x lp c given out :
  Inv c given out → op_ok (Update x lp) c →
  ∃ c', update x lp c = (Ok tt, c') ∧ Inv c' (given ++ [x]) out.
Proof.
  intros [Hwf Hch Hp Hg Hs Ho Hgv Hst] [Hx Hp0].
  destruct (unchunked_append c x Hwf Hch (proj1 (proj2 Hx)))
    as (b & E & Hwf' & Hch' & Hg' & Hcl & Hpl & Hcs & Hpos).
  pose proof (advance_token_buffer_run x lp c b Hwf Hch (proj1 (proj2 Hx)) (or_introl Hp0) E) as Ea.
  destruct (update_run _ _ _ _ Ea) as (g & m & Eu).
  eexists. split; [exact Eu|]. set (c1 := store_lp _ lp c).
  assert (_pending_future_count c1 = _pending_future_count c ∧ vocab_size c1 = vocab_size c ∧
    max_length c1 = max_length c) as (E1 & E2 & E3) by (unfold c1; by destruct lp).
  split; simpl; rewrite ?E1, ?E3; try done.
  - rewrite Hg', Hg, Hp0. simpl. by rewrite !app_nil_r.
  - congruence.
  - by apply prefix_app_r.
  - intros y [Hy| ->%list_elem_of_singleton]%elem_of_app; (apply good_token_vocab with c; [done|auto]).
  - intros [Hm|Hm]%status_after_max; [by rewrite <- Hpos|]. rewrite Hcl. apply Hst in Hm. lia.
Qed.

Lemma inv_future m c given out :
  Inv c given out → op_ok (Future m) c →
  ∃ c', update_with_future_token update m c = (Ok tt, c') ∧ Inv c' given out.
Proof.
  intros [Hwf Hch Hp Hg Hs Ho Hgv Hst] Hm. simpl in Hm.
  destruct (unchunked_append c FUTURE_TOKEN Hwf Hch eq_refl)
    as (b & E & Hwf' & Hch' & Hg' & Hcl & Hpl & Hcs & Hpos).
  eexists. split; [by apply future_run|]. split; simpl; try done.
  - lia.
  - rewrite Hg', Hg, <- app_assoc. f_equal.
    replace (Z.to_nat (_pending_future_count c + 1)) with (Z.to_nat (_pending_future_count c) + 1)%nat
      by lia. by rewrite replicate_add.
  - congruence.
  - intros [Hm'|Hm']%status_after_max; [by rewrite <- Hpos|]. rewrite Hcl. apply Hst in Hm'. lia.
Qed.

Lemma inv_realize x lp c given out :
  Inv c given out → op_ok (Realize x lp) c →
  ∃ c', realize_future_token x lp c = (Ok tt, c') ∧ Inv c' (given ++ [x]) out.
Proof.
  intros [Hwf Hch Hp Hg Hs Ho Hgv Hst] [Hx Hp0].
  destruct (Z.to_nat (_pending_future_count c)) as [|k] eqn:Ek; [lia|]. simpl in Hg.
  assert (_pending_future_count c = len (replicate k FUTURE_TOKEN) + 1) as Hk.
  { unfold len. rewrite length_replicate. lia. }
  destruct (realize_run x lp c _ _ Hwf (proj1 (proj2 Hx)) Hg Hk) as (b & Eb & Er).
  destruct (TokenBuffer.overwrite_generated (_pending_future_count c) x _ _ _ _ Hwf (proj1 (proj2 Hx)) Hg Hk)
    as (b' & Eb' & Hwf' & Hg' & _ & _ & _ & Hcr & Hpl & Hcl & Hch').
  rewrite Eb' in Eb. injection Eb as <-.
  eexists. split; [exact Er|]. set (c1 := store_lp _ lp c).
  assert (vocab_size c1 = vocab_size c ∧ max_length c1 = max_length c) as (E2 & E3)
    by (unfold c1; by destruct lp).
  assert (Z.to_nat (len (replicate k FUTURE_TOKEN)) = k) as Ek'
    by (unfold len; rewrite length_replicate; lia).
  split; simpl; rewrite ?E3; try done.
  - congruence.
  - apply len_nonneg.
  - rewrite Hg', <- app_assoc. simpl. by rewrite Ek'.
  - congruence.
  - by apply prefix_app_r.
  - intros y [Hy| ->%list_elem_of_singleton]%elem_of_app; (apply good_token_vocab with c; [done|auto]).
  - rewrite Hcl. case_bool_decide; [done|auto].
Qed.

Lemma pop_logprobs_run l c : ∃ r lps, pop_logprobs l c = (Ok r, set_logprobs lps c).
Proof.
  unfold pop_logprobs. generalize (@None (list LogProbabilities)) as acc. revert c.
  induction l as [|i l IH]; intros c acc; simpl.
  { exists acc, (_log_probabilities_data c). by destruct c. }
  match goal with |- context [bind ?m _ c] =>
    assert (∃ acc' lps, m c = (Ok acc', set_logprobs lps c)) as (acc' & lps & E) end.
  { unfold bind at 1, get. destruct (_log_probabilities_data c !! i) as [lp|].
    - by eexists _, _.
    - exists acc, (_log_probabilities_data c). by destruct c. }
  mstep E. destruct (IH (set_logprobs lps c) acc') as (r & lps' & E'). by exists r, lps'.
Qed.

Lemma check_tokens_run c l :
  (∀ x, x ∈ l → good_token c x) → for_each l (check_token (vocab_size c)) c = (Ok tt, c).
Proof.
  intros Hl. apply for_each_noop. intros x Hx. destruct (Hl x Hx) as (H0 & _ & Hv).
  unfold check_token. mstep (raise_if_false (x <? 0) RuntimeError c ltac:(lia)).
  destruct (vocab_size c) as [v|]; [|done]. apply raise_if_false. lia.
Qed.

Lemma inv_output c given out :
  Inv c given out →
  ∃ o c', to_generation_output c = (Ok o, c') ∧
    TextGenerationOutput.tokens o = drop (length out) given ∧
    TextGenerationOutput.final_status o = reported_status c ∧ Inv c' given given.
Proof.
  intros [Hwf Hch Hp Hg Hs Ho Hgv Hst].
  pose proof (TokenBuffer.len_generated _ Hwf) as Hl. rewrite Hg, len_app in Hl.
  assert (len (replicate (Z.to_nat (_pending_future_count c)) FUTURE_TOKEN) = _pending_future_count c)
    as Hrep by (unfold len; rewrite length_replicate; lia).
  rewrite Hrep in Hl. destruct Ho as [rest ->]. pose proof (len_nonneg rest). rewrite len_app in Hl.
  pose proof (TokenBuffer.wf_cend _ Hwf) as Hce. pose proof (len_nonneg out).
  rewrite drop_app_length. unfold to_generation_output. unfold bind at 1, get.
  unfold TokenBuffer.has_outstanding_generated_tokens, Range.length. cbv zeta.
  destruct (Z.max 0 _ >? 0) eqn:Eo; simpl.
  2:{ eexists _, c. split; [done|]. assert (rest = []) as -> by (apply len_0_nil; lia).
      split_and!; try done. rewrite app_nil_r in *. split; try done; by rewrite ?app_nil_r. }
  replace (Z.max _ _) with (Range.start (TokenBuffer._completion_range (tokens c)) + len rest) by lia.
  set (cs := Range.start _) in *. set (ids := zrange cs (cs + len rest)).
  assert (len ids = len rest) as -> by (unfold ids; rewrite len_zrange; lia).
  destruct (len rest >? 0) eqn:Er.
  - destruct (TokenBuffer.consume_generated (_pending_future_count c) (tokens c) Hwf Hp)
      as (b & Ec & Hwf' & Hb); [fold cs; lia|fold cs; lia|].
    fold cs in Ec. rewrite slice_inside in Ec by (rewrite ?Hg, ?len_app, ?Hrep; lia).
    rewrite Hg in Ec. replace (Z.to_nat (cs - TokenBuffer._prompt_length (tokens c)))
      with (length out) in Ec by (unfold len in *; lia).
    rewrite <- app_assoc, drop_app_length in Ec.
    replace (Z.to_nat _) with (length rest) in Ec by (unfold len in *; lia).
    rewrite take_app_length in Ec.
    assert (∀ x, x ∈ rest → good_token c x) as Hgr by (intros; apply Hgv; set_solver).
    unfold bind at 1. unfold bind at 1. rewrite (on_tokens_run _ _ _ _ Ec).
    set (c1 := set_tokens b c).
    assert (raise_if (bool_decide (FUTURE_TOKEN ∈ rest)) ValueError c1 = (Ok tt, c1)) as E1.
    { apply raise_if_false, bool_decide_eq_false_2. intros Hin. destruct (Hgr _ Hin) as [Hpos _].
      by vm_compute in Hpos. }
    unfold bind at 1. rewrite E1.
    unfold bind at 1. change (vocab_size c) with (vocab_size c1).
    rewrite (check_tokens_run c1 rest Hgr). unfold ret at 1.
    destruct (pop_logprobs_run ids c1) as (r & lps & El). mstep El.
    eexists _, _. split; [done|]. split_and!; try done.
    subst b. split; simpl; try done. rewrite len_app. lia.
  - assert (rest = []) as -> by (apply len_0_nil; lia).
    unfold bind at 1, ret at 1. destruct (pop_logprobs_run ids c) as (r & lps & El). mstep El.
    eexists _, _. split; [done|]. split_and!; try done. rewrite app_nil_r in *.
    split; simpl; try done; by rewrite ?app_nil_r.
Qed.

Lemma exec_inv o c given out :
  Inv c given out → op_ok o c →
  ∃ outs c', exec o c = (Ok outs, c') ∧ Inv c' (given ++ produced o) (out ++ outs).
Proof.
  intros HI Hok. destruct o as [x lp|m|x lp|]; unfold exec; simpl produced.
  - destruct (inv_update x lp c given out HI Hok) as (c' & E & HI').
    exists [], c'. mstep E. by rewrite app_nil_r.
  - destruct (inv_future m c given out HI Hok) as (c' & E & HI').
    exists [], c'. mstep E. by rewrite !app_nil_r.
  - destruct (inv_realize x lp c given out HI Hok) as (c' & E & HI').
    exists [], c'. mstep E. by rewrite app_nil_r.
  - destruct (inv_output c given out HI) as (o & c' & E & Ht & _ & HI').
    exists (TextGenerationOutput.tokens o), c'. mstep E. split; [done|].
    rewrite Ht, app_nil_r. pose proof (inv_out _ _ _ HI) as [rest ->].
    by rewrite drop_app_length.
Qed.

Lemma run_ops_inv os c given out :
  Inv c given out → trace_ok os c →
  ∃ outs c', run_ops os c = (Ok outs, c') ∧ Inv c' (given ++ concat (produced <$> os)) (out ++ outs).
Proof.
  revert c given out. induction os as [|o os IH]; intros c given out HI Hok; simpl.
  - exists [], c. by rewrite !app_nil_r.
  - destruct Hok as [Ho Hos]. destruct (exec_inv o c given out HI Ho) as (o1 & c1 & E1 & HI1).
    rewrite E1 in Hos |- *. simpl in Hos.
    destruct (IH c1 _ _ HI1 Hos) as (o2 & c2 & E2 & HI2). rewrite E2.
    exists (o1 ++ o2), c2. by rewrite !app_assoc.
Qed.

(** A request just prefilled: nothing generated. *)
Definition fresh c : Prop :=
  TokenBuffer.wf (tokens c) ∧ TokenBuffer._actively_chunked (tokens c) = false ∧
  TokenBuffer.generated (tokens c) = [] ∧
  Range.start (TokenBuffer._completion_range (tokens c)) = TokenBuffer._prompt_length (tokens c) ∧
  _pending_future_count c = 0 ∧ status c = ACTIVE.

Lemma fresh_inv c : fresh c → Inv c [] [].
Proof.
  intros (Hwf & Hch & Hg & Hs & Hp & Hst). split; try done.
  - by rewrite Hp.
  - by rewrite Hg, Hp.
  - rewrite Hs. unfold len. simpl. lia.
  - intros x Hx. by apply not_elem_of_nil in Hx.
  - by rewrite Hst.
Qed.

End Updates.

End Context.
End TextContext.

(** ** Media spans (pipelines/context/tokens.py) *)
Module ImageMetadata.

Record t := mk {
  start_idx : Z;
  end_idx : Z;
  image_hash : option Z;
  num_embedding_rows : option Z
}.

Definition post_init (i : t) : outcome unit :=
  if start_idx i <? 0 then Raise ValueError
  else if end_idx i <=? start_idx i then Raise ValueError
  else Ok tt.

Definition embedding_rows (i : t) : Z := default (end_idx i - start_idx i) (num_embedding_rows i).

End ImageMetadata.

Module TokenHashOverride.

Record t := mk { token_idx : Z; token_hash : Z; source : string }.

Definition post_init (o : t) : outcome unit :=
  if token_idx o <? 0 then Raise ValueError else Ok tt.

End TokenHashOverride.

(** ** Multimodal requests *)
Module TextAndVisionContext.
Import ImageMetadata.

Record t {B : Backend} := mk {
  text : TextContext.t B;
  vision_token_ids : list Z;
  images : list ImageMetadata.t;
  token_hash_overrides : list TokenHashOverride.t
}.
Arguments t B : clear implicits.

Section Vision.
Context {B : Backend}.
Implicit Types v : t B.

Definition set_text (x : TextContext.t B) v : t B :=
  mk _ x (vision_token_ids v) (images v) (token_hash_overrides v).
Definition on_text {A} (m : M (TextContext.t B) A) : M (t B) A := zoom text set_text m.

Definition processed_length v : Z := TokenBuffer.processed_length (TextContext.tokens (text v)).
Definition current_position v : Z := TokenBuffer.current_position (TextContext.tokens (text v)).

(** The first image whose end lies beyond the processed tokens. *)
Fixpoint image_idx_from (i : Z) (processed : Z) (l : list ImageMetadata.t) : Z :=
  match l with
  | [] => i
  | img :: l => if processed <? end_idx img then i else image_idx_from (i + 1) processed l
  end.
Definition image_idx v : Z := image_idx_from 0 (processed_length v) (images v).

Definition next_images v : list ImageMetadata.t :=
  if (len (images v) =? 0) || (image_idx v =? len (images v)) then []
  else slice_from (images v) (image_idx v).

Definition in_window (start end_ : Z) (img : ImageMetadata.t) : Prop :=
  start_idx img < end_ ∧ end_idx img > start.
#[global] Instance in_window_dec a b i : Decision (in_window a b i).
Proof. unfold in_window. apply _. Defined.

Definition next_images_in_window v : list ImageMetadata.t :=
  filter (in_window (processed_length v) (current_position v)) (next_images v).

Definition needs_vision_encoding v : bool := image_idx v <? len (images v).

Definition image_token_indices v : list Z :=
  concat ((λ img, zrange (start_idx img) (end_idx img)) <$> images v).

(** The first image that contains, or strictly bisects at, an index. *)
Definition first_image (p : ImageMetadata.t → bool) (l : list ImageMetadata.t) : option ImageMetadata.t :=
  head (filter (λ img, p img = true) l).

Definition compute_image_aligned_idx v (idx : Z) : Z :=
  match first_image (λ img, (start_idx img <=? idx) && (idx <? end_idx img)) (images v) with
  | Some img => start_idx img
  | None => idx
  end.

Definition _find_bisected_image v (idx : Z) : option ImageMetadata.t :=
  first_image (λ img, (start_idx img <? idx) && (idx <? end_idx img)) (images v).

Definition _validate_state : M (t B) unit :=
  let! v := get in
  raise_if (negb (TokenBuffer.actively_chunked (TextContext.tokens (text v))) &&
            bool_decide (is_Some (_find_bisected_image v (current_position v)))) ValueError.

Definition getitem (i : Z) : M (t B) Z := on_text (TextContext.on_tokens (TokenBuffer.getitem i)).

Definition check_pair '((prev, next) : ImageMetadata.t * ImageMetadata.t) : M (t B) unit :=
  raise_if (start_idx next <? start_idx prev) ValueError;;
  raise_if (start_idx next <? end_idx prev) ValueError.

Definition check_image (img : ImageMetadata.t) : M (t B) unit :=
  let! v := get in
  raise_if (TokenBuffer.length (TextContext.tokens (text v)) <? end_idx img) ValueError;;
  let! first := getitem (start_idx img) in
  let! ok := if bool_decide (first ∈ vision_token_ids v)
             then let! final := getitem (end_idx img - 1) in
                  ret (bool_decide (final ∈ vision_token_ids v))
             else ret false in
  raise_if (negb ok) ValueError.

Definition check_override (seen : list Z) (o : TokenHashOverride.t) : M (t B) (list Z) :=
  let! v := get in
  raise_if (TokenBuffer.length (TextContext.tokens (text v)) <=? TokenHashOverride.token_idx o)
    ValueError;;
  raise_if (bool_decide (TokenHashOverride.token_idx o ∈ seen)) ValueError;;
  ret (TokenHashOverride.token_idx o :: seen).

(** [__post_init__] *)
Definition post_init : M (t B) unit :=
  on_text TextContext.post_init;;
  let! v := get in
  for_each (zip (removelast (images v)) (tail (images v))) check_pair;;
  for_each (images v) check_image;;
  for_fold (token_hash_overrides v) [] check_override;;
  _validate_state.

Definition update `{NumPy} (new_token : Z) (lp : option LogProbabilities) : M (t B) unit :=
  on_text (TextContext.update new_token lp);;
  _validate_state.

(** ** The encoder's view *)

Lemma image_idx_from_spec i p l :
  ∃ l1 l2, l = l1 ++ l2 ∧ image_idx_from i p l = i + len l1 ∧
    (∀ img, img ∈ l1 → end_idx img ≤ p) ∧ (∀ img l', l2 = img :: l' → p < end_idx img).
Proof.
  revert i. induction l as [|img l IH]; intros i; simpl.
  - exists [], []. split_and!; try done; [unfold len; simpl; lia|]. set_solver.
  - destruct (p <? end_idx img) eqn:E.
    + exists [], (img :: l). split_and!; try done; [unfold len; simpl; lia|set_solver|].
      intros ? ? [= <- _]. lia.
    + destruct (IH (i + 1)) as (l1 & l2 & -> & -> & H1 & H2). exists (img :: l1), l2.
      split_and!; try done; [rewrite len_cons; lia|].
      intros x [->|Hx]%elem_of_cons; [lia|auto].
Qed.

Lemma next_images_drop v :
  ∃ l1, images v = l1 ++ next_images v ∧ ∀ img, img ∈ l1 → end_idx img ≤ processed_length v.
Proof.
  destruct (image_idx_from_spec 0 (processed_length v) (images v)) as (l1 & l2 & E & Ei & H1 & H2).
  exists l1. split; [|done]. unfold next_images, image_idx. rewrite Ei, E.
  pose proof (len_nonneg l1). pose proof (len_nonneg l2). rewrite len_app.
  destruct (_ || _) eqn:Eb.
  - f_equal. apply len_0_nil. lia.
  - f_equal. unfold slice_from. rewrite slice_inside by (rewrite ?len_app; lia).
    rewrite len_app. replace (Z.to_nat (0 + len l1)) with (length l1) by (unfold len; lia).
    rewrite drop_app_length, take_ge; [done|]. unfold len. lia.
Qed.

End Vision.
End TextAndVisionContext.

(** ** A request of either class *)
Module Ctx.

Inductive t {B : Backend} :=
| Text (c : TextContext.t B)
| Vision (v : TextAndVisionContext.t B).
Arguments t B : clear implicits.

Section Ctx.
Context {B : Backend}.

Definition base (x : t B) : TextContext.t B :=
  match x with Text c => c | Vision v => TextAndVisionContext.text v end.
Definition set_base (c : TextContext.t B) (x : t B) : t B :=
  match x with Text _ => Text c | Vision v => Vision (TextAndVisionContext.set_text c v) end.
Definition on_base {A} (m : M (TextContext.t B) A) : M (t B) A := zoom base set_base m.
Definition tokens (x : t B) : TokenBuffer.t := TextContext.tokens (base x).
Definition on_tokens {A} (m : M TokenBuffer.t A) : M (t B) A := on_base (TextContext.on_tokens m).

End Ctx.
End Ctx.

(** ** Properties of text requests *)
Module ContextProperties.
Import TextContext.

(** C26: running ahead is invisible. Appending a placeholder while the forward pass
    is in flight and later realizing it with the sampled token leaves exactly the
    request state (token array, indices, status, log probabilities) that appending
    the token directly would have left: same growth of the buffer, same end-of-sequence
    and length decisions. *)
Theorem overlap_equals_sequential `{NumPy} {B : Backend} (x : Z) (lp : option LogProbabilities)
    (c : t B) :
  TokenBuffer.wf (tokens c) → TokenBuffer._actively_chunked (tokens c) = false →
  TokenBuffer._processing_offset (tokens c) = 0 → _pending_future_count c = 0 →
  int64 x = true → x ≠ FUTURE_TOKEN →
  (update_with_future_token update 1;; realize_future_token x lp) c = advance_token_buffer x lp c.
Proof.
  intros Hwf Hch Hoff Hp Hx Hne.
  destruct (TokenBuffer.advance_with_token_uniform (tokens c) Hwf Hch) as (a & Ha & Hadv).
  destruct (unchunked_append c FUTURE_TOKEN Hwf Hch eq_refl) as (b & E & Hwf' & _ & Hg & Hcl & _ & _ & Hpos).
  destruct (unchunked_append c x Hwf Hch Hx) as (bx & Ex & _ & _ & Hgx & Hclx & _ & _ & Hposx).
  mstep (future_run 1 c b Hwf Hch ltac:(lia) E).
  rewrite (advance_token_buffer_run x lp c bx Hwf Hch Hx (or_introl Hp) Ex).
  set (c1 := set_pending _ _).
  assert (tokens c1 = b) as Et1 by done.
  assert (_pending_future_count c1 = 1) as Ep1 by (unfold c1; simpl; lia).
  destruct (realize_run x lp c1 (TokenBuffer.generated (tokens c)) []) as (b' & Eb' & ->);
    [done|done|exact Hg|exact Ep1|].
  rewrite Et1, Ep1 in Eb' |- *.
  assert (b' = bx) as ->.
  { pose proof (TokenBuffer.overwrite_run 1 x _ Hwf') as Ho. rewrite Hx, Eb' in Ho.
    replace ((1 <? 1) || (1 >? TokenBuffer._current_length b)) with false in Ho by (destruct Hwf; lia).
    injection Ho as ->. rewrite (Hadv x Hx) in Ex. rewrite (Hadv FUTURE_TOKEN eq_refl) in E.
    injection E as <-. injection Ex as <-. unfold TokenBuffer.set_array. simpl. f_equal.
    replace (TokenBuffer._current_length (tokens c) + 1 - 1)
      with (TokenBuffer._current_length (tokens c)) by lia.
    unfold list_set. apply list_insert_insert_eq. }
  assert (TokenBuffer.current_position b - 1 = TokenBuffer.current_position (tokens c)) as ->.
  { rewrite Hpos, Hcl. unfold TokenBuffer.current_position, TokenBuffer.processed_length,
      TokenBuffer.active_length, Range.length. rewrite Hoff.
    pose proof (TokenBuffer.wf_unchunked _ Hwf Hch). destruct Hwf. lia. }
  assert (TokenBuffer.current_position b = TokenBuffer.current_position bx) as Epos by congruence.
  unfold status_after. rewrite <- Epos, Hgx. replace (x =? FUTURE_TOKEN) with false by lia.
  unfold c1. destruct c; simpl in *. subst. destruct lp; simpl; unfold set_status; simpl;
    repeat case_bool_decide; done.
Qed.

(** A request with prompt [1; 2], stopping at token 7 or at four tokens. *)
Definition demo_tokens : TokenBuffer.t :=
  match (TokenBuffer.init {| ndim := 1; is_int64 := true; data := [1; 2] |} tt).1 with
  | Ok b => b | Raise _ => TokenBuffer.mk [] (Range.mk 0 0) 0 (Range.mk 0 0) 0 0 false end.
Definition demo_context : t recording_backend :=
  mk recording_backend 0 4 demo_tokens (EOSTracker.init {[ 7 ]} [] []) (Some 100) 0 None None
    GrammarEnforcement.default_state None ACTIVE ∅ true false None None 0.

Lemma demo_wf : TokenBuffer.wf demo_tokens.
Proof.
  apply (TokenBuffer.init_wf {| ndim := 1; is_int64 := true; data := [1; 2] |} demo_tokens tt).
  reflexivity.
Qed.

#[local] Existing Instance zeros_numpy.
#[local] Existing Instance recording_backend.

Lemma overlap_equals_sequential_witness :
  (update_with_future_token update 1;; realize_future_token 7 (Some (3 : Z))) demo_context =
  advance_token_buffer 7 (Some (3 : Z)) demo_context.
Proof.
  apply (overlap_equals_sequential 7); [exact demo_wf|done..].
Defined.

(** The client sees the model's tokens, all of them, once, in order. Over any
    schedule of direct appends, placeholders (any number in flight), realizations
    and flushes, nothing raises; what has been streamed is a prefix of what the model
    produced, no placeholder is ever streamed, and a flush delivers every token
    realized so far, whatever is still in flight behind it. *)
Theorem output_streams_realized_tokens `{NumPy} {B : Backend} (c : t B) (os : list op) :
  fresh c → trace_ok os c →
  ∃ outs c' o c'', run_ops os c = (Ok outs, c') ∧
    outs `prefix_of` concat (produced <$> os) ∧
    FUTURE_TOKEN ∉ outs ∧
    to_generation_output c' = (Ok o, c'') ∧
    outs ++ TextGenerationOutput.tokens o = concat (produced <$> os).
Proof.
  intros Hf Hok. destruct (run_ops_inv os c [] [] (fresh_inv c Hf) Hok) as (outs & c' & E & HI).
  simpl in HI. destruct (inv_output _ _ _ HI) as (o & c'' & Eo & Ht & _ & _).
  pose proof (inv_out _ _ _ HI) as Hpre. exists outs, c', o, c''. split_and!; try done.
  - intros Hin. destruct Hpre as [rest Hr].
    destruct (inv_given _ _ _ HI FUTURE_TOKEN) as [Hpos _]; [rewrite Hr; set_solver|].
    by vm_compute in Hpos.
  - rewrite Ht. destruct Hpre as [rest ->]. by rewrite drop_app_length.
Qed.

Definition ahead_trace : list (@op recording_backend) :=
  [Update 5 None; Future 2; Future 2; Output; Realize 6 (Some (1 : Z)); Output].

Lemma output_streams_realized_tokens_witness :
  ∃ outs c' o c'',
    run_ops ahead_trace demo_context = (Ok outs, c') ∧
    outs `prefix_of` [5; 6] ∧ FUTURE_TOKEN ∉ outs ∧
    to_generation_output c' = (Ok o, c'') ∧ outs ++ TextGenerationOutput.tokens o = [5; 6].
Proof.
  apply (output_streams_realized_tokens demo_context ahead_trace).
  - by split_and!.
  - apply (bool_decide_eq_true_1 _). vm_compute. reflexivity.
Defined.

(** A length limit that only placeholders have reached is not reported. Over any
    schedule, an output chunk says [MAXIMUM_LENGTH] only when the prompt plus the
    realized tokens really fill [max_length]. *)
Theorem length_limit_not_reported_early `{NumPy} {B : Backend} (c c' c'' : t B) os outs o :
  fresh c → trace_ok os c → run_ops os c = (Ok outs, c') →
  to_generation_output c' = (Ok o, c'') →
  TextGenerationOutput.final_status o = MAXIMUM_LENGTH →
  max_length c' ≤ TokenBuffer.length (tokens c') - _pending_future_count c'.
Proof.
  intros Hf Hok Hrun Ho Hs. destruct (run_ops_inv os c [] [] (fresh_inv c Hf) Hok) as (outs' & c1 & E & HI).
  rewrite E in Hrun. injection Hrun as -> ->.
  destruct (inv_output _ _ _ HI) as (o' & c2 & Eo & _ & Hst & _). rewrite Eo in Ho.
  injection Ho as -> ->. rewrite Hst in Hs. unfold reported_status in Hs.
  pose proof (TokenBuffer.length_all _ (inv_wf _ _ _ HI)) as Hl.
  pose proof (inv_pending _ _ _ HI). pose proof (inv_status _ _ _ HI) as Hmax.
  destruct (_pending_future_count c' >? 0) eqn:Ep; simpl in Hs.
  - destruct (_ <? _) eqn:El; [|lia]. case_bool_decide; simpl in Hs; congruence.
  - rewrite andb_false_r in Hs. simpl in Hs. specialize (Hmax Hs). lia.
Qed.

Definition full_trace : list (@op recording_backend) :=
  [Update 5 None; Future 1; Realize 6 None].

Lemma length_limit_not_reported_early_witness :
  max_length (run_ops full_trace demo_context).2 ≤
    TokenBuffer.length (tokens (run_ops full_trace demo_context).2) -
    _pending_future_count (run_ops full_trace demo_context).2.
Proof.
  eapply (length_limit_not_reported_early demo_context _ _ full_trace).
  - by split_and!.
  - apply (bool_decide_eq_true_1 _). vm_compute. reflexivity.
  - vm_compute. reflexivity.
  - vm_compute. reflexivity.
  - vm_compute. reflexivity.
Defined.

Import TextAndVisionContext ImageMetadata.

(** The images handed to the vision encoder for a chunk are exactly the prompt's
    images that overlap the active window [processed_length, current_position), in
    prompt order: skipping the images before [image_idx] loses none, and an image the
    window only touches partly is handed over whole. *)
Theorem window_images_exact {B : Backend} (v : TextAndVisionContext.t B) :
  next_images_in_window v =
    filter (in_window (processed_length v) (current_position v)) (images v).
Proof.
  destruct (next_images_drop v) as (l1 & E & H1). unfold next_images_in_window.
  rewrite E, filter_app.
  replace (filter (in_window (processed_length v) (current_position v)) l1)
    with (@nil ImageMetadata.t); [done|].
  rewrite (filter_ext_in _ (λ _, False) l1).
  { clear. induction l1 as [|a l IH]; [done|]. by rewrite filter_cons_False by tauto. }
  intros img Hin. specialize (H1 img Hin). unfold in_window. lia.
Qed.

End ContextProperties.
