(* ===== verification/Hashing.v ===== *)
(** * Block hashing

    The prefix cache's keys: [hash_request_tokens] and its helpers
    (kv_cache/paged_kv_cache/block_utils.py), the Python wrappers and chained loops of
    the hashers (_core_mojo/__init__.py, mojo_module.mojo), and [compute_block_hashes]
    (block_manager.py). *)

From S2P Require Import Prelude Tokens Eos Context.

(** The digest primitives: the seeded AHash of the Mojo standard library and SHA-256
    ([hashlib.sha256] and its Mojo port), with SHA-256's documented digest size. *)
Class Digest := {
  hash_seeded_bytes : bytes → bytes → Z;
  hash_seeded : Z → Z → bytes → Z;
  sha256 : bytes → bytes;
  len_sha256 d : len (sha256 d) = 32
}.

(** ** Integers as bytes *)

(** [int(x)] of an unsigned [w]-bit value, reinterpreted as signed *)
Definition to_signed (w x : Z) : Z :=
  let y := x mod 2 ^ w in if y >=? 2 ^ (w - 1) then y - 2 ^ w else y.

Fixpoint le_bytes (n : nat) (x : Z) : bytes :=
  match n with O => [] | S n => x mod 256 :: le_bytes n (x / 256) end.
Definition from_be (b : bytes) : Z := foldl (λ acc x, acc * 256 + x) 0 b.
(** [int.from_bytes(b, "big", signed=True)] and [x.to_bytes(n, "big", signed=True)] *)
Definition from_be_signed (b : bytes) : Z := to_signed (8 * len b) (from_be b).
Definition to_be_signed (n : nat) (x : Z) : outcome bytes :=
  if (- 2 ^ (8 * Z.of_nat n - 1) <=? x) && (x <? 2 ^ (8 * Z.of_nat n - 1))
  then Ok (rev (le_bytes n x)) else Raise OverflowError.

(** [tokens.astype(np.int32)]: the low 32 bits, as a signed integer *)
Definition astype_int32 (x : Z) : Z := to_signed 32 x.

Module BlockHasher.
Section Hasher.
Context `{Digest}.

(** The bytes of the [i]-th block of an int32 array. *)
Definition block_bytes (tokens : list Z) (block_size i : Z) : bytes :=
  concat (le_bytes 4 <$> slice tokens (i * block_size) ((i + 1) * block_size)).

(** [_mojo_block_hasher]: one keyed hash per full block, chained on the previous one *)
Definition mojo_block_hasher (tokens : list Z) (block_size parent_hash : Z) (seed : bytes)
    : list Z :=
  (foldl (λ '(prev_hash, hashes) block_idx,
     let token_hash := hash_seeded_bytes (block_bytes tokens block_size block_idx) seed in
     let curr_hash := to_signed 64 (hash_seeded (prev_hash mod 2 ^ 64) token_hash seed) in
     (curr_hash, hashes ++ [curr_hash]))
   (parent_hash, []) (zrange 0 (len tokens / block_size))).2.

(** [_mojo_block_hasher_sha256] *)
Definition mojo_block_hasher_sha256 (tokens : list Z) (block_size : Z) (parent_hash : bytes)
    : list bytes :=
  (foldl (λ '(prev_hash, hashes) block_idx,
     let local_hash := sha256 (block_bytes tokens block_size block_idx) in
     let seq_hash := sha256 (local_hash ++ prev_hash) in
     (seq_hash, hashes ++ [seq_hash]))
   (parent_hash, []) (zrange 0 (len tokens / block_size))).2.

(** [[h.to_bytes(8, "big", signed=True) for h in result]] *)
Fixpoint encode_all (l : list Z) : outcome (list bytes) :=
  match l with
  | [] => Ok []
  | h :: l =>
      match to_be_signed 8 h with
      | Raise e => Raise e
      | Ok b => match encode_all l with Ok bs => Ok (b :: bs) | Raise e => Raise e end
      end
  end.

Definition block_hasher (tokens : list Z) (block_size : Z) (parent_hash seed : bytes)
    : outcome (list bytes) :=
  if block_size <=? 0 then Raise ValueError
  else if negb (len parent_hash =? 8) then Raise ValueError
  else if negb (len seed =? 32) then Raise ValueError
  else
    let ph_int := from_be_signed parent_hash in
    encode_all (mojo_block_hasher (astype_int32 <$> tokens) block_size ph_int seed).

Definition block_hasher_sha256 (tokens : list Z) (block_size : Z) (parent_hash : bytes)
    : outcome (list bytes) :=
  if block_size <=? 0 then Raise ValueError
  else if negb (len parent_hash =? 32) then Raise ValueError
  else Ok (mojo_block_hasher_sha256 (astype_int32 <$> tokens) block_size parent_hash).

End Hasher.
End BlockHasher.

(** ** [block_utils.py] *)
Module BlockHash.
Import BlockHasher.

Inductive KVHashAlgo := ahash64 | sha256_algo | sha256_64.

Definition DEFAULT_PARENT_HASH : bytes := replicate 8 0.
Definition _ZERO_SEED : bytes := replicate 32 0.

Section BlockHash.
Context `{Digest}.

Definition xor_bytes (a b : bytes) : bytes := zip_with Z.lxor a b.

(** [salt] is the UTF-8 encoding of the salt string. *)
Definition _make_root_parent_hash (seed salt : option bytes) : outcome bytes :=
  let base := default _ZERO_SEED seed in
  if negb (len base =? 32) then Raise ValueError
  else match salt with
       | None | Some [] => Ok base
       | Some salt => Ok (xor_bytes base (sha256 salt))
       end.

Definition _truncate_to_signed64 (digest : bytes) : Z :=
  let n := from_be (slice_to digest 8) in
  if n >=? Z.shiftl 1 63 then n - Z.shiftl 1 64 else n.

(** The overrides that fall into the slice, by index relative to it; a Python dict
    keeps insertion order. *)
Fixpoint overrides_in_slice (n prefix_length : Z) (os : list TokenHashOverride.t)
    (acc : list (Z * Z)) : outcome (list (Z * Z)) :=
  match os with
  | [] => Ok acc
  | o :: os =>
      let idx := TokenHashOverride.token_idx o - prefix_length in
      if (0 <=? idx) && (idx <? n) then
        if bool_decide (idx ∈ acc.*1) then Raise ValueError
        else overrides_in_slice n prefix_length os (acc ++ [(idx, TokenHashOverride.token_hash o)])
      else overrides_in_slice n prefix_length os acc
  end.

(** Loop state: the token array (mutated in place) and the values to restore. *)
Record hst := mk_hst { token_ids : list Z; token_to_reset : list (Z * Z) }.

Definition store (idx x : Z) : M hst unit :=
  let! s := get in
  let! a := of_outcome (np_store (token_ids s) idx x) in
  modify (λ s, mk_hst a (token_to_reset s)).

Definition apply_override '((idx, token_hash) : Z * Z) : M hst unit :=
  let! s := get in
  let! old := of_option IndexError (py_index (token_ids s) idx) in
  modify (λ s, mk_hst (token_ids s) (token_to_reset s ++ [(idx, old)]));;
  store idx token_hash.

(** The [finally] clause. *)
Definition restore_tokens (s : hst) : list Z :=
  token_ids (for_each (token_to_reset s) (λ '(idx, token), store idx token) s).2.

Definition hash_tokens (block_size : Z) (parent_hash : option bytes) (algo : KVHashAlgo)
    (seed salt : option bytes) (tokens : list Z) : outcome (list bytes) :=
  let checked hash_vals :=
    if len hash_vals =? len tokens / block_size then Ok hash_vals else Raise AssertionError in
  match algo with
  | ahash64 =>
      let ph_bytes_ahash := default DEFAULT_PARENT_HASH parent_hash in
      match seed, salt with
      | None, None =>
          match block_hasher tokens block_size ph_bytes_ahash (replicate 32 0) with
          | Ok hs => checked hs | Raise e => Raise e end
      | _, _ =>
          match _make_root_parent_hash seed salt with
          | Raise e => Raise e
          | Ok effective_seed =>
              match block_hasher tokens block_size ph_bytes_ahash effective_seed with
              | Ok hs => checked hs | Raise e => Raise e end
          end
      end
  | sha256_algo | sha256_64 =>
      let ph_bytes :=
        match parent_hash with
        | None => _make_root_parent_hash seed salt
        | Some p => if negb (len p =? 32) then Raise ValueError else Ok p
        end in
      match ph_bytes with
      | Raise e => Raise e
      | Ok ph =>
          match block_hasher_sha256 tokens block_size ph with
          | Raise e => Raise e
          | Ok full_digests =>
              checked (match algo with
                       | sha256_algo => full_digests
                       | _ => (λ d, slice_to d 8) <$> full_digests
                       end)
          end
      end
  end.

(** [hash_request_tokens], on the caller's array: every exit runs the restore. *)
Definition hash_request_tokens (block_size : Z) (parent_hash : option bytes) (prefix_length : Z)
    (token_hash_overrides : list TokenHashOverride.t) (algo : KVHashAlgo)
    (seed salt : option bytes) : M (list Z) (list bytes) :=
  let! a := get in
  raise_if (negb (bool_decide (token_hash_overrides = [])) && (prefix_length =? -1)) ValueError;;
  let! overrides :=
    of_outcome (overrides_in_slice (len a) prefix_length token_hash_overrides []) in
  (λ a,
    let '(r, s) := for_each overrides apply_override (mk_hst a []) in
    match r with
    | Raise e => (Raise e, restore_tokens s)
    | Ok _ => (hash_tokens block_size parent_hash algo seed salt (token_ids s), restore_tokens s)
    end).

End BlockHash.
End BlockHash.

(** ** [compute_block_hashes] (block_manager.py) *)
Module BlockHashes.
Import BlockHash.

(** A string's UTF-8 bytes (a [string] of the model is already encoded). *)
Fixpoint encode (s : string) : bytes :=
  match s with
  | EmptyString => []
  | String x s => Z.of_nat (Ascii.nat_of_ascii x) :: encode s
  end.

(** Run on the numpy view [tokens[lo:hi]]: what it writes lands in the buffer. *)
Definition on_slice {A} (lo hi : Z) (m : M (list Z) A) : M TokenBuffer.t A := λ b,
  let n := TokenBuffer.length b in
  let first := clamp_index n lo in
  let past := clamp_index n hi in
  let '(r, view) := m (TokenBuffer.getslice b lo hi) in
  (r, if first <? past
      then TokenBuffer.set_array (take (Z.to_nat first) (TokenBuffer.array b) ++ view
                                    ++ drop (Z.to_nat past) (TokenBuffer.array b)) b
      else b).

Section Hashes.
Context `{Digest} {B : Backend}.

Fixpoint image_overrides (imgs : list ImageMetadata.t) : outcome (list TokenHashOverride.t) :=
  match imgs with
  | [] => Ok []
  | img :: imgs =>
      match ImageMetadata.image_hash img with
      | None => Raise ValueError
      | Some h =>
          let o := TokenHashOverride.mk (ImageMetadata.start_idx img) h "image" in
          match TokenHashOverride.post_init o with
          | Raise e => Raise e
          | Ok _ => match image_overrides imgs with Ok os => Ok (o :: os) | Raise e => Raise e end
          end
      end
  end.

Definition overrides_of (x : Ctx.t B) : outcome (list TokenHashOverride.t) :=
  match x with
  | Ctx.Text _ => Ok []
  | Ctx.Vision v =>
      match image_overrides (TextAndVisionContext.images v) with
      | Ok os => Ok (os ++ TextAndVisionContext.token_hash_overrides v)
      | Raise e => Raise e
      end
  end.

Definition compute_block_hashes (existing_hashes : list bytes) (block_size : Z)
    (kv_hash_algo : KVHashAlgo) (kv_hash_seed : option bytes) : M (Ctx.t B) (list bytes) :=
  let! x := get in
  let num_hashed_tokens := len existing_hashes * block_size in
  let num_hashable_tokens := TokenBuffer.length (Ctx.tokens x)
    - Z.max 1 (TextContext.pending_future_count (Ctx.base x)) in
  let num_unhashed_tokens := num_hashable_tokens - num_hashed_tokens in
  if num_unhashed_tokens <? block_size then ret [] else
  let! token_hash_overrides := of_outcome (overrides_of x) in
  Ctx.on_tokens (on_slice num_hashed_tokens num_hashable_tokens
    (hash_request_tokens block_size (last existing_hashes) num_hashed_tokens token_hash_overrides
       kv_hash_algo kv_hash_seed (encode <$> TextContext.cache_salt (Ctx.base x)))).

End Hashes.
End BlockHashes.

(** ** The temporary overrides *)
Module HashFacts.
Import BlockHasher BlockHash BlockHashes.

#[local] Arguments apply_override : simpl never.
#[local] Arguments store : simpl never.

Section Facts.
Context `{Digest}.

(** Where the loop stands: [a0] is the caller's array. *)
Record Overriding (a0 : list Z) (s : hst) : Prop := {
  ov_len : length (token_ids s) = length a0;
  ov_same : ∀ i, i ∉ (token_to_reset s).*1 → 0 ≤ i → token_ids s !! Z.to_nat i = a0 !! Z.to_nat i;
  ov_old : ∀ i x, (i, x) ∈ token_to_reset s → 0 ≤ i < len a0 ∧ a0 !! Z.to_nat i = Some x
}.

Lemma store_run i x s :
  0 ≤ i < len (token_ids s) →
  store i x s = if int64 x then (Ok tt, mk_hst (list_set (token_ids s) i x) (token_to_reset s))
                else (Raise OverflowError, s).
Proof.
  intros Hi. unfold store, bind, get, of_outcome, modify.
  destruct (int64 x) eqn:Hx; [by rewrite np_store_inside|].
  unfold np_store. rewrite Hx. replace (i <? 0) with false by lia.
  by replace ((i <? 0) || (len (token_ids s) <=? i)) with false by lia.
Qed.

Lemma apply_override_run a0 i h s :
  Overriding a0 s → 0 ≤ i < len a0 → i ∉ (token_to_reset s).*1 →
  ∃ old, a0 !! Z.to_nat i = Some old ∧
    let s' := mk_hst (token_ids s) (token_to_reset s ++ [(i, old)]) in
    Overriding a0 s' ∧
    apply_override (i, h) s =
      if int64 h then (Ok tt, mk_hst (list_set (token_ids s) i h) (token_to_reset s'))
      else (Raise OverflowError, s').
Proof.
  intros [Hl Hs Ho] Hi Hni.
  assert (len (token_ids s) = len a0) as Hlen by (unfold len; lia).
  destruct (lookup_lt_is_Some_2 a0 (Z.to_nat i)) as [old Hold]; [unfold len in *; lia|].
  exists old. split; [done|]. split.
  - split; simpl; [done| |].
    + intros j Hj Hpos. apply Hs; [|done]. rewrite fmap_app in Hj. set_solver.
    + intros j x [Hj|Hj]%elem_of_app; [auto|]. apply list_elem_of_singleton in Hj. by simplify_eq.
  - unfold apply_override. unfold bind at 1, get.
    rewrite py_index_inside by lia. rewrite Hs, Hold by (done || lia). unfold of_option, bind at 1, ret.
    unfold bind at 1, modify. rewrite store_run by (simpl; lia). done.
Qed.

Lemma overriding_set a0 s i h :
  Overriding a0 s → i ∈ (token_to_reset s).*1 → 0 ≤ i →
  Overriding a0 (mk_hst (list_set (token_ids s) i h) (token_to_reset s)).
Proof.
  intros [Hl Hs Ho] Hin Hi. split; simpl; [|intros j Hj Hpos|done].
  - unfold list_set. by rewrite length_insert.
  - unfold list_set. rewrite list_lookup_insert_ne; [by apply Hs|].
    intros E. assert (i = j) as -> by lia. done.
Qed.

(** The loop, whether it finishes or raises. *)
Lemma apply_loop a0 os s :
  Overriding a0 s → NoDup ((token_to_reset s).*1 ++ os.*1) →
  (∀ i, i ∈ os.*1 → 0 ≤ i < len a0) →
  Overriding a0 (for_each os apply_override s).2 ∧
  (Forall (λ o, int64 o.2 = true) os →
   ∃ s', for_each os apply_override s = (Ok tt, s') ∧
     token_ids s' = foldl (λ a o, list_set a o.1 o.2) (token_ids s) os).
Proof.
  revert s. induction os as [|[i h] os IH]; intros s HO Hnd Hr; simpl.
  { split; [done|]. intros _. by exists s. }
  rewrite fmap_cons in Hnd, Hr. simpl in Hnd, Hr.
  assert (i ∉ (token_to_reset s).*1) as Hni.
  { apply NoDup_app in Hnd as (_ & Hd & _). intros Hin. apply (Hd i Hin). left. }
  assert (0 ≤ i < len a0) as Hi by (apply Hr; left).
  destruct (apply_override_run a0 i h s HO Hi Hni) as (old & Hold & HO' & E).
  unfold bind. rewrite E. destruct (int64 h) eqn:Hh.
  - assert (Overriding a0 (mk_hst (list_set (token_ids s) i h) (token_to_reset s ++ [(i, old)]))) as HO2.
    { apply (overriding_set a0 _ i h HO'); [|lia]. simpl. rewrite fmap_app. set_solver. }
    destruct (IH _ HO2) as [IH1 IH2].
    + simpl. rewrite fmap_app, <- app_assoc. done.
    + intros j Hj. apply Hr. by right.
    + split; [done|]. intros [_ Hall]%Forall_cons. by apply IH2.
  - split; [done|]. intros [Hc _]%Forall_cons. simpl in Hc. congruence.
Qed.

Lemma overriding_start a : Overriding a (mk_hst a []).
Proof. split; simpl; [done..|]. intros i x Hin. by apply not_elem_of_nil in Hin. Qed.

(** The [finally] clause undoes it all. *)
Lemma restore_loop a0 l a l0 :
  length a = length a0 → (∀ x, x ∈ a0 → int64 x = true) →
  (∀ i x, (i, x) ∈ l → 0 ≤ i < len a0 ∧ a0 !! Z.to_nat i = Some x) →
  (∀ i, i ∉ l.*1 → 0 ≤ i → a !! Z.to_nat i = a0 !! Z.to_nat i) →
  token_ids (for_each l (λ '(idx, token), store idx token) (mk_hst a l0)).2 = a0.
Proof.
  intros Hlen H64. revert a Hlen. induction l as [|[i x] l IH]; intros a Hlen Hl Ha; simpl.
  - apply list_eq. intros j. specialize (Ha (Z.of_nat j)). rewrite Nat2Z.id in Ha.
    apply Ha; [set_solver|lia].
  - destruct (Hl i x) as [Hi Hx]; [left|].
    assert (0 ≤ i < len a) as Hia by (unfold len in *; lia).
    unfold bind. rewrite store_run by done. rewrite (H64 x) by (by eapply list_elem_of_lookup_2). simpl.
    apply IH.
    + unfold list_set. by rewrite length_insert.
    + intros j y Hj. apply Hl. by right.
    + intros j Hj Hpos. unfold list_set. destruct (decide (j = i)) as [->|Hne].
      * rewrite list_lookup_insert_eq by (unfold len in Hia; lia). done.
      * rewrite list_lookup_insert_ne by lia. apply Ha; [|done]. rewrite fmap_cons. set_solver.
Qed.

Lemma restore_tokens_run a0 s :
  Overriding a0 s → (∀ x, x ∈ a0 → int64 x = true) → restore_tokens s = a0.
Proof.
  intros [Hl Hs Ho] H64. unfold restore_tokens. destruct s as [a l]. simpl in *.
  by apply restore_loop.
Qed.

Lemma overrides_in_slice_ok n p os acc r :
  overrides_in_slice n p os acc = Ok r →
  NoDup acc.*1 → (∀ i, i ∈ acc.*1 → 0 ≤ i < n) →
  NoDup r.*1 ∧ (∀ i, i ∈ r.*1 → 0 ≤ i < n).
Proof.
  revert acc. induction os as [|o os IH]; intros acc; simpl; [by intros [= <-]|].
  destruct ((0 <=? _) && _) eqn:Hi; [|by apply IH].
  case_bool_decide as Hin; [done|]. intros Hr Hnd Hrange. apply (IH _ Hr); rewrite fmap_app; simpl.
  - apply NoDup_app. split_and!; [done|set_solver|apply NoDup_singleton].
  - intros i [?|Hx%list_elem_of_singleton]%elem_of_app; [auto|]. lia.
Qed.

(** Whatever happens in between, the array comes back unchanged. *)
Lemma hash_request_tokens_state bs ph pl os algo seed salt a :
  (∀ x, x ∈ a → int64 x = true) →
  (hash_request_tokens bs ph pl os algo seed salt a).2 = a.
Proof.
  intros H64. unfold hash_request_tokens. unfold bind at 1, get. unfold bind at 1.
  destruct (raise_if _ _ a) as [[|] a'] eqn:Er;
    (assert (a' = a) as -> by (destruct (negb _ && _); unfold raise_if, raise, ret in Er; congruence)); [|done].
  unfold bind at 1, of_outcome. destruct (overrides_in_slice _ _ _ _) as [r|e] eqn:Eo; [|done].
  destruct (overrides_in_slice_ok _ _ _ _ _ Eo) as [Hnd Hr]; [apply NoDup_nil_2|set_solver|].
  destruct (apply_loop a r (mk_hst a [])) as [HO _]; [apply overriding_start|done|done|].
  destruct (for_each r apply_override (mk_hst a [])) as [[|] s]; simpl in *; by apply restore_tokens_run.
Qed.

(** With overrides that fit, the hash is that of the overridden tokens. *)
Lemma hash_request_tokens_value bs ph pl os algo seed salt a r :
  (∀ x, x ∈ a → int64 x = true) → (os ≠ [] → pl ≠ -1) →
  overrides_in_slice (len a) pl os [] = Ok r → Forall (λ o, int64 o.2 = true) r →
  hash_request_tokens bs ph pl os algo seed salt a =
    (hash_tokens bs ph algo seed salt (foldl (λ a o, list_set a o.1 o.2) a r), a).
Proof.
  intros H64 Hpl Eo Hfit. pose proof (hash_request_tokens_state bs ph pl os algo seed salt a H64) as Hst.
  unfold hash_request_tokens in Hst |- *. unfold bind at 1, get in Hst. unfold bind at 1, get.
  assert (raise_if (negb (bool_decide (os = [])) && (pl =? -1)) ValueError a = (Ok tt, a)) as E1.
  { apply raise_if_false. case_bool_decide as Hn; simpl; [done|]. specialize (Hpl Hn). lia. }
  unfold bind at 1 in Hst. unfold bind at 1. rewrite E1 in Hst |- *.
  unfold bind at 1, of_outcome in Hst. unfold bind at 1, of_outcome. rewrite Eo in Hst |- *.
  destruct (overrides_in_slice_ok _ _ _ _ _ Eo) as [Hnd Hr]; [apply NoDup_nil_2|set_solver|].
  destruct (apply_loop a r (mk_hst a [])) as [HO Hok]; [apply overriding_start|done|done|].
  destruct (Hok Hfit) as (s' & E & Et). rewrite E in Hst |- *. simpl in *. by rewrite Hst, Et.
Qed.

(** ** Chaining *)

(** A hash chain over blocks. *)
Fixpoint chain {P} (g : P → bytes → P) (p : P) (blocks : list bytes) : list P :=
  match blocks with [] => [] | b :: bs => let c := g p b in c :: chain g c bs end.

Lemma chain_app {P} (g : P → bytes → P) p b1 b2 :
  chain g p (b1 ++ b2) = chain g p b1 ++ chain g (default p (last (chain g p b1))) b2.
Proof.
  revert p. induction b1 as [|b b1 IH]; intros p; simpl; [done|].
  rewrite IH, last_cons. by destruct (last (chain g (g p b) b1)).
Qed.

Lemma len_chain {P} (g : P → bytes → P) p bs : len (chain g p bs) = len bs.
Proof. revert p. induction bs as [|b bs IH]; intros p; simpl; [done|]. by rewrite !len_cons, IH. Qed.

Lemma foldl_chain {P I} (g : P → bytes → P) (blk : I → bytes) l p acc :
  (foldl (λ '(prev, hs) i, let c := g prev (blk i) in (c, hs ++ [c])) (p, acc) l).2 =
  acc ++ chain g p (blk <$> l).
Proof.
  revert p acc. induction l as [|i l IH]; intros p acc; simpl; [by rewrite app_nil_r|].
  rewrite IH. by rewrite <- app_assoc.
Qed.

(** The full blocks of an array. *)
Definition blocks (tokens : list Z) (bs : Z) : list bytes :=
  block_bytes tokens bs <$> zrange 0 (len tokens / bs).

Lemma len_blocks tokens bs : 0 < bs → len (blocks tokens bs) = len tokens / bs.
Proof.
  intros Hb. unfold blocks. pose proof (len_nonneg tokens).
  assert (0 ≤ len tokens / bs) by (apply Z.div_pos; lia).
  pose proof (len_zrange 0 (len tokens / bs)) as E. unfold len in *. rewrite length_fmap. lia.
Qed.

Lemma block_bytes_left t1 t2 bs i :
  0 < bs → 0 ≤ i → (i + 1) * bs ≤ len t1 → block_bytes (t1 ++ t2) bs i = block_bytes t1 bs i.
Proof.
  intros Hb Hi Hl. unfold block_bytes. pose proof (len_nonneg t2).
  rewrite !slice_inside by (rewrite ?len_app; nia). rewrite drop_app_le by (unfold len in *; nia).
  rewrite take_app_le; [done|]. rewrite length_drop. unfold len in *. nia.
Qed.

Lemma block_bytes_right t1 t2 bs k i :
  0 < bs → len t1 = k * bs → 0 ≤ i → (i + 1) * bs ≤ len t2 →
  block_bytes (t1 ++ t2) bs (k + i) = block_bytes t2 bs i.
Proof.
  intros Hb Hk Hi Hl. unfold block_bytes. pose proof (len_nonneg t1).
  rewrite !slice_inside by (rewrite ?len_app; nia).
  replace (Z.to_nat ((k + i) * bs)) with (length t1 + Z.to_nat (i * bs))%nat by (unfold len in *; nia).
  rewrite drop_app_add. do 3 f_equal. nia.
Qed.

Lemma blocks_app t1 t2 bs k :
  0 < bs → len t1 = k * bs → blocks (t1 ++ t2) bs = blocks t1 bs ++ blocks t2 bs.
Proof.
  intros Hb Hk. pose proof (len_nonneg t1). pose proof (len_nonneg t2). unfold blocks.
  assert (len t1 / bs = k) as -> by (rewrite Hk; apply Z.div_mul; lia).
  rewrite len_app. replace ((len t1 + len t2) / bs) with (k + len t2 / bs)
    by (rewrite Hk, Z.div_add_l; lia).
  assert (0 ≤ k) by nia. assert (0 ≤ len t2 / bs) by (apply Z.div_pos; lia).
  rewrite (zrange_app 0 k) by lia. rewrite fmap_app. f_equal.
  - apply list_fmap_ext. intros j x Hx%list_elem_of_lookup_2%elem_of_zrange.
    apply block_bytes_left; [done|lia|nia].
  - replace (zrange k (k + len t2 / bs)) with (Z.add k <$> zrange 0 (len t2 / bs)).
    + rewrite <- list_fmap_compose. apply list_fmap_ext.
      intros j x Hx%list_elem_of_lookup_2%elem_of_zrange. simpl. apply block_bytes_right; [done|done|lia|].
      pose proof (Z.mul_div_le (len t2) bs). nia.
    + unfold zrange. rewrite <- list_fmap_compose.
      replace (Z.to_nat (k + len t2 / bs - k)) with (Z.to_nat (len t2 / bs - 0)) by lia.
      apply list_fmap_ext. intros j x _. simpl. lia.
Qed.

(** *** Eight-byte keys *)

Lemma len_le_bytes n x : len (le_bytes n x) = Z.of_nat n.
Proof. revert x. induction n as [|n IH]; intros x; [done|]. simpl. rewrite len_cons, IH. lia. Qed.

Lemma from_be_snoc b x : from_be (b ++ [x]) = from_be b * 256 + x.
Proof. unfold from_be. by rewrite foldl_app. Qed.

Lemma from_be_le_bytes n x : 0 ≤ x < 256 ^ Z.of_nat n → from_be (rev (le_bytes n x)) = x.
Proof.
  revert x. induction n as [|n IH]; intros x Hx.
  - simpl in *. unfold from_be. simpl. lia.
  - cbn [le_bytes rev]. rewrite from_be_snoc, IH.
    + pose proof (Z.div_mod x 256). lia.
    + rewrite Nat2Z.inj_succ, Z.pow_succ_r in Hx by lia.
      split; [apply Z.div_pos; lia|]. apply Z.div_lt_upper_bound; lia.
Qed.

Lemma le_bytes_mod n x : le_bytes n (x mod 256 ^ Z.of_nat n) = le_bytes n x.
Proof.
  revert x. induction n as [|n IH]; intros x; [done|]. cbn [le_bytes].
  rewrite Nat2Z.inj_succ, Z.pow_succ_r by lia.
  assert (0 < 256 ^ Z.of_nat n) by (apply Z.pow_pos_nonneg; lia).
  rewrite Z.rem_mul_r by lia. f_equal.
  - rewrite Z.mul_comm, Z.mod_add by lia. by rewrite Z.mod_mod by lia.
  - rewrite <- (IH (x / 256)). f_equal.
    rewrite (Z.mul_comm 256), Z.div_add by lia.
    rewrite (Z.div_small (x mod 256) 256) by (apply Z.mod_pos_bound; lia). lia.
Qed.

Lemma to_signed_range w x : 0 < w → - 2 ^ (w - 1) ≤ to_signed w x < 2 ^ (w - 1).
Proof.
  intros Hw. unfold to_signed. assert (2 ^ w = 2 * 2 ^ (w - 1)) as E.
  { rewrite <- Z.pow_succ_r by lia. f_equal. lia. }
  assert (0 < 2 ^ (w - 1)) by (apply Z.pow_pos_nonneg; lia).
  pose proof (Z.mod_pos_bound x (2 ^ w)). destruct (_ >=? _) eqn:?; lia.
Qed.

Lemma to_signed_id w x : 0 < w → - 2 ^ (w - 1) ≤ x < 2 ^ (w - 1) → to_signed w (x mod 2 ^ w) = x.
Proof.
  intros Hw Hx. unfold to_signed. assert (2 ^ w = 2 * 2 ^ (w - 1)) as E.
  { rewrite <- Z.pow_succ_r by lia. f_equal. lia. }
  rewrite Z.mod_mod by lia. destruct (decide (0 ≤ x)).
  - rewrite Z.mod_small by lia. replace (x >=? 2 ^ (w - 1)) with false by lia. done.
  - rewrite <- (Z.mod_add x 1) by lia. rewrite Z.mod_small by lia.
    replace (_ >=? _) with true by lia. lia.
Qed.

Lemma key_roundtrip x :
  - 2 ^ 63 ≤ x < 2 ^ 63 → ∃ b, to_be_signed 8 x = Ok b ∧ len b = 8 ∧ from_be_signed b = x.
Proof.
  intros Hx. unfold to_be_signed. change (8 * Z.of_nat 8 - 1) with 63.
  replace ((- 2 ^ 63 <=? x) && (x <? 2 ^ 63)) with true by lia.
  eexists. split; [done|].
  assert (len (rev (le_bytes 8 x)) = 8) as Hl.
  { pose proof (len_le_bytes 8 x) as E. unfold len in *. by rewrite length_rev. }
  split; [done|]. unfold from_be_signed. rewrite Hl. rewrite <- (le_bytes_mod 8 x).
  change (256 ^ Z.of_nat 8) with (2 ^ 64). change (8 * 8) with 64.
  rewrite from_be_le_bytes by (change (256 ^ Z.of_nat 8) with (2 ^ 64); apply Z.mod_pos_bound; lia).
  by apply (to_signed_id 64).
Qed.

(** ** What [hash_tokens] computes *)

Definition step64 (seed : bytes) (prev : Z) (b : bytes) : Z :=
  to_signed 64 (hash_seeded (prev mod 2 ^ 64) (hash_seeded_bytes b seed) seed).
Definition step256 (prev b : bytes) : bytes := sha256 (sha256 b ++ prev).

Definition encode_key (x : Z) : bytes := rev (le_bytes 8 x).

#[local] Arguments encode_key : simpl never.

Lemma encode_key_ok x : - 2 ^ 63 ≤ x < 2 ^ 63 →
  to_be_signed 8 x = Ok (encode_key x) ∧ len (encode_key x) = 8 ∧ from_be_signed (encode_key x) = x.
Proof.
  intros Hx. destruct (key_roundtrip x Hx) as (b & E & Hl & Hb). unfold to_be_signed in E |- *.
  destruct (_ && _); [|done]. injection E as <-. done.
Qed.

Lemma chain64_range seed p bs x : x ∈ chain (step64 seed) p bs → - 2 ^ 63 ≤ x < 2 ^ 63.
Proof.
  revert p. induction bs as [|b bs IH]; intros p; simpl; [by intros ?%not_elem_of_nil|].
  intros [->|Hx]%elem_of_cons; [|by eapply IH]. by apply (to_signed_range 64).
Qed.

Lemma encode_all_run l :
  (∀ x, x ∈ l → - 2 ^ 63 ≤ x < 2 ^ 63) → encode_all l = Ok (encode_key <$> l).
Proof.
  induction l as [|x l IH]; intros Hl; [done|]. cbn [encode_all].
  destruct (encode_key_ok x) as [-> _]; [apply Hl; left|]. rewrite IH; [done|].
  intros y Hy. apply Hl. by right.
Qed.

(** The AHash seed a request uses. *)
Definition effective_seed (seed salt : option bytes) : outcome bytes :=
  match seed, salt with
  | None, None => Ok (replicate 32 0)
  | _, _ => _make_root_parent_hash seed salt
  end.

Lemma len_root seed salt r : _make_root_parent_hash seed salt = Ok r → len r = 32.
Proof.
  unfold _make_root_parent_hash. destruct (len (default _ZERO_SEED seed) =? 32) eqn:E; [|done].
  simpl. assert (∀ s : bytes, len (xor_bytes (default _ZERO_SEED seed) (sha256 s)) = 32) as Hx.
  { intros s. unfold xor_bytes. pose proof (len_sha256 s) as Hs. unfold len in *.
    rewrite length_zip_with. lia. }
  destruct salt as [[|]|]; intros [= <-]; try lia. apply Hx.
Qed.

Lemma len_effective_seed seed salt r : effective_seed seed salt = Ok r → len r = 32.
Proof.
  unfold effective_seed. destruct seed, salt; try apply len_root. by intros [= <-].
Qed.

Lemma mojo_block_hasher_chain t bs p s :
  mojo_block_hasher t bs p s = chain (step64 s) p (blocks t bs).
Proof.
  symmetry. unfold blocks. rewrite <- (app_nil_l (chain _ _ _)).
  rewrite <- (foldl_chain (step64 s) (block_bytes t bs)). reflexivity.
Qed.

Lemma mojo_block_hasher_sha256_chain t bs p :
  mojo_block_hasher_sha256 t bs p = chain step256 p (blocks t bs).
Proof.
  symmetry. unfold blocks. rewrite <- (app_nil_l (chain _ _ _)).
  rewrite <- (foldl_chain step256 (block_bytes t bs)). reflexivity.
Qed.

Lemma hash_tokens_ahash bs ph seed salt t :
  0 < bs →
  hash_tokens bs ph ahash64 seed salt t =
    match effective_seed seed salt with
    | Raise e => Raise e
    | Ok s =>
        let p := default DEFAULT_PARENT_HASH ph in
        if len p =? 8
        then Ok (encode_key <$> chain (step64 s) (from_be_signed p) (blocks (astype_int32 <$> t) bs))
        else Raise ValueError
    end.
Proof.
  intros Hb.
  assert (∀ s, len s = 32 → match block_hasher t bs (default DEFAULT_PARENT_HASH ph) s with
    | Ok hs => if len hs =? len t / bs then Ok hs else Raise AssertionError | Raise e => Raise e end =
    if len (default DEFAULT_PARENT_HASH ph) =? 8
    then Ok (encode_key <$> chain (step64 s) (from_be_signed (default DEFAULT_PARENT_HASH ph))
               (blocks (astype_int32 <$> t) bs))
    else Raise ValueError) as Hrun.
  { intros s Hs. unfold block_hasher. replace (bs <=? 0) with false by lia.
    destruct (len (default DEFAULT_PARENT_HASH ph) =? 8) eqn:El; [|done]. simpl.
    replace (len s =? 32) with true by lia. simpl. rewrite mojo_block_hasher_chain, encode_all_run by apply chain64_range.
    assert (len (encode_key <$> chain (step64 s) (from_be_signed (default DEFAULT_PARENT_HASH ph))
              (blocks (astype_int32 <$> t) bs)) = len t / bs) as ->; [|by rewrite Z.eqb_refl].
    transitivity (len (blocks (astype_int32 <$> t) bs)).
    - by rewrite len_fmap, len_chain.
    - by rewrite len_blocks, len_fmap by done. }
  unfold hash_tokens, effective_seed. destruct seed as [sd|], salt as [sl|].
  1-3: destruct (_make_root_parent_hash _ _) as [r|e] eqn:Er; [|done]; apply Hrun; by eapply len_root.
  by apply Hrun.
Qed.

Definition root_of (ph seed salt : option bytes) : outcome bytes :=
  match ph with
  | None => _make_root_parent_hash seed salt
  | Some p => if negb (len p =? 32) then Raise ValueError else Ok p
  end.

Lemma hash_tokens_sha bs ph seed salt t :
  0 < bs →
  hash_tokens bs ph sha256_algo seed salt t =
    match root_of ph seed salt with
    | Raise e => Raise e
    | Ok p => Ok (chain step256 p (blocks (astype_int32 <$> t) bs))
    end.
Proof.
  intros Hb. unfold hash_tokens. fold (root_of ph seed salt).
  destruct (root_of ph seed salt) as [p|e] eqn:Er; [|done].
  assert (len p = 32) as Hp.
  { unfold root_of in Er. destruct ph as [q|]; [|by eapply len_root].
    destruct (len q =? 32) eqn:E; [|done]. injection Er as <-. lia. }
  unfold block_hasher_sha256. replace (bs <=? 0) with false by lia.
  replace (len p =? 32) with true by lia. simpl. rewrite mojo_block_hasher_sha256_chain, len_chain, len_blocks by done.
  by rewrite len_fmap, Z.eqb_refl.
Qed.

Lemma last_fmap_some {P Q} (f : P → Q) l : last (f <$> l) = f <$> last l.
Proof. induction l as [|x l IH] using rev_ind; [done|]. rewrite fmap_app. simpl. by rewrite !last_snoc. Qed.

(** Hashing a prompt in two instalments. *)
Lemma hash_tokens_app bs ph algo seed salt t1 t2 k hs1 :
  0 < bs → 0 < k → len t1 = k * bs → algo ≠ sha256_64 →
  hash_tokens bs ph algo seed salt t1 = Ok hs1 →
  hash_tokens bs ph algo seed salt (t1 ++ t2) =
    match hash_tokens bs (last hs1) algo seed salt t2 with
    | Ok hs2 => Ok (hs1 ++ hs2) | Raise e => Raise e end.
Proof.
  intros Hb Hk Hl Ha E1.
  assert (len (astype_int32 <$> t1) = k * bs) as Hl' by by rewrite len_fmap.
  assert (∀ P (g : P → bytes → P) p, chain g p (blocks (astype_int32 <$> t1) bs) ≠ []) as Hne.
  { intros P g p E. pose proof (len_chain g p (blocks (astype_int32 <$> t1) bs)) as El.
    rewrite E, len_blocks, Hl', Z.div_mul in El by lia. unfold len in El. simpl in El. lia. }
  destruct algo; [| |done].
  - rewrite hash_tokens_ahash in E1 |- * by done. rewrite hash_tokens_ahash by done.
    destruct (effective_seed seed salt) as [s|]; [|done]. cbv zeta in E1 |- *.
    destruct (len (default DEFAULT_PARENT_HASH ph) =? 8); [|done]. injection E1 as <-.
    set (p := from_be_signed (default DEFAULT_PARENT_HASH ph)).
    rewrite last_fmap_some.
    destruct (last (chain (step64 s) p (blocks (astype_int32 <$> t1) bs))) as [x|] eqn:Ex;
      [|by apply last_None in Ex; apply Hne in Ex].
    destruct (encode_key_ok x) as (_ & Hlx & Hrx).
    { eapply (chain64_range s p). rewrite last_lookup in Ex. by eapply list_elem_of_lookup_2. }
    cbn [fmap option_fmap option_map default from_option id]. rewrite Hlx, Hrx. simpl. rewrite fmap_app, (blocks_app _ _ bs k) by done.
    rewrite chain_app, Ex, fmap_app. done.
  - rewrite hash_tokens_sha in E1 |- * by done. rewrite hash_tokens_sha by done.
    destruct (root_of ph seed salt) as [p|] eqn:Er; [|done]. injection E1 as <-.
    destruct (last (chain step256 p (blocks (astype_int32 <$> t1) bs))) as [x|] eqn:Ex;
      [|by apply last_None in Ex; apply Hne in Ex].
    assert (len x = 32) as Hx.
    { rewrite last_lookup in Ex. apply list_elem_of_lookup_2 in Ex. clear -Ex. revert p Ex.
      induction (blocks (astype_int32 <$> t1) bs) as [|b bl IH]; intros p; simpl;
        [by intros ?%not_elem_of_nil|].
      intros [->|Hx]%elem_of_cons; [apply len_sha256|by eapply IH]. }
    unfold root_of. rewrite Hx. simpl. rewrite fmap_app, (blocks_app _ _ bs k) by done.
    by rewrite chain_app, Ex.
Qed.

(** A trailing partial block does not count. *)
Lemma hash_tokens_full_blocks bs ph algo seed salt t1 t2 k :
  0 < bs → len t1 = k * bs → len t2 < bs → algo ≠ sha256_64 →
  hash_tokens bs ph algo seed salt (t1 ++ t2) = hash_tokens bs ph algo seed salt t1.
Proof.
  intros Hb Hk Ht Ha. pose proof (len_nonneg t2).
  assert (blocks (astype_int32 <$> t1 ++ t2) bs = blocks (astype_int32 <$> t1) bs) as E.
  { rewrite fmap_app, (blocks_app _ _ bs k) by (rewrite ?len_fmap; done).
    replace (blocks (astype_int32 <$> t2) bs) with (@nil bytes); [by rewrite app_nil_r|].
    symmetry. apply len_0_nil. rewrite len_blocks, len_fmap by done. by apply Z.div_small. }
  destruct algo; [| |done].
  - by rewrite !hash_tokens_ahash, E by done.
  - by rewrite !hash_tokens_sha, E by done.
Qed.

Lemma len_hash_tokens bs ph algo seed salt t hs :
  hash_tokens bs ph algo seed salt t = Ok hs → len hs = len t / bs.
Proof.
  intros E. unfold hash_tokens in E.
  repeat match type of E with
  | context [match ?x with _ => _ end] => destruct x eqn:?; try done
  end; simplify_eq; lia.
Qed.

End Facts.

Section Requests.
Context `{Digest} {B : Backend}.

Lemma on_slice_state {A} lo hi (m : M (list Z) A) b :
  TokenBuffer.wf b →
  (m (TokenBuffer.getslice b lo hi)).2 = TokenBuffer.getslice b lo hi →
  on_slice lo hi m b = ((m (TokenBuffer.getslice b lo hi)).1, b).
Proof.
  intros Hwf Hm. unfold on_slice. destruct (m _) as [r view] eqn:E. simpl in *. subst view.
  f_equal. unfold TokenBuffer.getslice, slice. fold (TokenBuffer.length b).
  pose proof (TokenBuffer.length_all b Hwf) as Hl. unfold TokenBuffer.length in *.
  set (lo' := clamp_index _ lo). set (hi' := clamp_index _ hi).
  destruct (lo' <? hi') eqn:Elt; [|done].
  assert (0 ≤ lo' ∧ hi' ≤ TokenBuffer._current_length b) as [H0 H1].
  { unfold lo', hi', clamp_index. destruct Hwf. lia. }
  rewrite TokenBuffer.all_take by done. rewrite skipn_firstn_comm, take_take.
  replace (Init.Nat.min _ _) with (Z.to_nat (hi' - lo')) by lia.
  replace (Z.to_nat hi') with (Z.to_nat lo' + Z.to_nat (hi' - lo'))%nat by lia.
  rewrite <- drop_drop, take_drop, take_drop. by destruct b.
Qed.

(** The request is untouched by hashing, whatever the outcome. *)
Lemma compute_block_hashes_run ex bs algo seed (x : Ctx.t B) :
  TokenBuffer.wf (Ctx.tokens x) → (∀ y, y ∈ TokenBuffer.all (Ctx.tokens x) → int64 y = true) →
  compute_block_hashes ex bs algo seed x =
    (let h := len ex * bs in
     let n := TokenBuffer.length (Ctx.tokens x)
                - Z.max 1 (TextContext.pending_future_count (Ctx.base x)) in
     if n - h <? bs then Ok []
     else match overrides_of x with
          | Raise e => Raise e
          | Ok os => (hash_request_tokens bs (last ex) h os algo seed
                        (encode <$> TextContext.cache_salt (Ctx.base x))
                        (TokenBuffer.getslice (Ctx.tokens x) h n)).1
          end, x).
Proof.
  intros Hwf H64. unfold compute_block_hashes. unfold bind at 1, get. cbv zeta.
  destruct (_ <? bs); [done|]. unfold bind at 1, of_outcome.
  destruct (overrides_of x) as [os|e]; [|done].
  unfold Ctx.on_tokens, Ctx.on_base, TextContext.on_tokens, zoom. fold (Ctx.tokens x).
  change (TextContext.tokens (Ctx.base x)) with (Ctx.tokens x).
  rewrite on_slice_state.
  - f_equal. destruct x as [[]|[[] ? ? ?]]; done.
  - done.
  - apply hash_request_tokens_state. intros y Hy. apply H64. unfold TokenBuffer.getslice, slice in Hy.
    eapply elem_of_sublist; [exact Hy|]. etrans; [apply sublist_take|apply sublist_drop].
Qed.

Lemma int64_getslice b lo hi :
  (∀ y, y ∈ TokenBuffer.all b → int64 y = true) → ∀ y, y ∈ TokenBuffer.getslice b lo hi → int64 y = true.
Proof.
  intros H64 y Hy. apply H64. unfold TokenBuffer.getslice, slice in Hy.
  eapply elem_of_sublist; [exact Hy|]. etrans; [apply sublist_take|apply sublist_drop].
Qed.

Lemma compute_text ex bs algo seed (c : TextContext.t B) :
  TokenBuffer.wf (TextContext.tokens c) →
  (∀ y, y ∈ TokenBuffer.all (TextContext.tokens c) → int64 y = true) →
  let h := len ex * bs in
  let n := TokenBuffer.length (TextContext.tokens c) - Z.max 1 (TextContext.pending_future_count c) in
  (compute_block_hashes ex bs algo seed (Ctx.Text c)).1 =
    if n - h <? bs then Ok []
    else hash_tokens bs (last ex) algo seed (encode <$> TextContext.cache_salt c)
           (TokenBuffer.getslice (TextContext.tokens c) h n).
Proof.
  intros Hwf H64. rewrite compute_block_hashes_run by done. cbv zeta. cbn [fst overrides_of Ctx.base].
  change (Ctx.tokens (Ctx.Text c)) with (TextContext.tokens c).
  destruct (_ <? bs); [done|].
  rewrite (hash_request_tokens_value _ _ _ _ _ _ _ _ []);
    [done|by apply int64_getslice|done|done|by apply Forall_nil].
Qed.

End Requests.
End HashFacts.

(** ** Properties of block hashing *)
Module HashProperties.
Import BlockHasher BlockHash BlockHashes HashFacts.

(** Hashing never corrupts a request. For a text or multimodal request with any
    images and overrides, any algorithm and seed, [compute_block_hashes] leaves the
    request exactly as it was on every exit, although it temporarily writes content
    hashes over placeholder tokens in the request's own array: the writes made before
    an exception (an override that does not fit, a bad parent hash) are undone too. *)
Theorem hashing_leaves_request_unchanged `{Digest} {B : Backend} ex bs algo seed (x : Ctx.t B) :
  TokenBuffer.wf (Ctx.tokens x) → (∀ y, y ∈ TokenBuffer.all (Ctx.tokens x) → int64 y = true) →
  (compute_block_hashes ex bs algo seed x).2 = x.
Proof. intros Hwf H64. by rewrite compute_block_hashes_run. Qed.

(** A digest for examples: the sum of the bytes, in the last place. *)
#[local] Program Instance toy_digest : Digest := {|
  hash_seeded_bytes b seed := zsum b + zsum seed;
  hash_seeded p h seed := 3 * p + 5 * h + 1;
  sha256 d := replicate 31 0 ++ [zsum d mod 256]
|}.
Next Obligation. done. Qed.

#[local] Existing Instance recording_backend.

Definition toy_context (l : list Z) : TextContext.t recording_backend :=
  TextContext.set_tokens
    (TokenBuffer.mk l (Range.mk 0 (len l)) 0 (Range.mk (len l) (len l)) (len l) (len l) false)
    ContextProperties.demo_context.

Lemma toy_wf l : l ≠ [] → TokenBuffer.wf (TextContext.tokens (toy_context l)).
Proof. intros Hl%len_pos. split; simpl; lia || done. Qed.

Lemma toy_int64 (x : Ctx.t recording_backend) :
  forallb int64 (TokenBuffer.all (Ctx.tokens x)) = true →
  ∀ y, y ∈ TokenBuffer.all (Ctx.tokens x) → int64 y = true.
Proof. rewrite forallb_forall. intros Hf y Hy. apply Hf. by apply list_elem_of_In. Qed.

(** An image whose content hash does not fit int64, after one that does. *)
Definition toy_vision : Ctx.t recording_backend :=
  Ctx.Vision (TextAndVisionContext.mk _ (toy_context [1; 9; 9; 4; 5]) [9]
    [ImageMetadata.mk 1 2 (Some 77) None; ImageMetadata.mk 2 3 (Some (2 ^ 63)) None] []).

Lemma hashing_leaves_request_unchanged_witness :
  (compute_block_hashes [] 2 ahash64 None toy_vision).2 = toy_vision.
Proof.
  apply hashing_leaves_request_unchanged.
  - by apply toy_wf.
  - apply toy_int64. vm_compute. reflexivity.
Defined.

(** Keys computed in instalments are the keys computed at once. After hashing a
    text request's full blocks, let it grow by any number of tokens: hashing only the
    new blocks, chained on the last key already known, yields exactly the remaining
    keys of hashing the whole request from scratch (algorithms ahash64 and sha256,
    any seed and salt). *)
Theorem incremental_block_hashes `{Digest} {B : Backend} (c c' : TextContext.t B) bs algo seed hs hs' :
  0 < bs → algo ≠ sha256_64 → TokenBuffer.wf (TextContext.tokens c) →
  TokenBuffer.wf (TextContext.tokens c') →
  (∀ y, y ∈ TokenBuffer.all (TextContext.tokens c') → int64 y = true) →
  TokenBuffer.all (TextContext.tokens c) `prefix_of` TokenBuffer.all (TextContext.tokens c') →
  TextContext.cache_salt c' = TextContext.cache_salt c →
  len hs * bs ≤ TokenBuffer.length (TextContext.tokens c')
                - Z.max 1 (TextContext.pending_future_count c') →
  (compute_block_hashes [] bs algo seed (Ctx.Text c)).1 = Ok hs → hs ≠ [] →
  (compute_block_hashes hs bs algo seed (Ctx.Text c')).1 = Ok hs' →
  (compute_block_hashes [] bs algo seed (Ctx.Text c')).1 = Ok (hs ++ hs').
Proof.
  intros Hb Ha Hwf Hwf' H64' Hpre Hsalt Hn E1 Hne E2.
  assert (∀ y, y ∈ TokenBuffer.all (TextContext.tokens c) → int64 y = true) as H64.
  { destruct Hpre as [k Hk]. intros y Hy. apply H64'. rewrite Hk. set_solver. }
  rewrite compute_text in E1, E2 |- * by done. cbv zeta in *. rewrite Hsalt in *.
  set (n := TokenBuffer.length (TextContext.tokens c) - _) in *.
  set (n' := TokenBuffer.length (TextContext.tokens c') - _) in *.
  set (salt := encode <$> TextContext.cache_salt c) in *.
  change (len [] * bs) with 0 in *. rewrite Z.sub_0_r in *.
  destruct (n <? bs) eqn:En; [by injection E1 as <-|]. simpl in E1.
  pose proof (len_pos hs Hne) as Hpos.
  set (t := TokenBuffer.all (TextContext.tokens c)) in *.
  set (t' := TokenBuffer.all (TextContext.tokens c')) in *.
  unfold TokenBuffer.getslice in *. fold t in E1. fold t' in E2 |- *.
  assert (n ≤ len t) as Hnt by (unfold n, TokenBuffer.length; fold t; lia).
  assert (0 ≤ n) as Hn0 by lia.
  assert (n' ≤ len t') as Hnt' by (unfold n', TokenBuffer.length; fold t'; lia).
  pose proof (len_hash_tokens _ _ _ _ _ _ _ E1) as Hk.
  assert (len (slice t 0 n) = n) as Hls by (rewrite len_slice; lia). rewrite Hls in Hk.
  set (k := len hs) in *. pose proof (Z.mul_div_le n bs Hb) as Hkn. rewrite <- Hk in Hkn.
  assert (slice t 0 n = slice t 0 (k * bs) ++ slice t (k * bs) n) as Esp
    by (symmetry; apply slice_app; lia).
  assert (slice t' 0 n' = slice t' 0 (k * bs) ++ slice t' (k * bs) n') as Esp'
    by (symmetry; apply slice_app; lia).
  assert (slice t' 0 (k * bs) = slice t 0 (k * bs)) as Epre.
  { destruct Hpre as [r Hr]. rewrite Hr. rewrite !slice_inside by (rewrite ?len_app; pose proof (len_nonneg r); lia).
    rewrite drop_0, drop_0, take_app_le; [done|unfold len in *; lia]. }
  assert (len (slice t 0 (k * bs)) = k * bs) as Hlk by (rewrite len_slice; lia).
  rewrite Esp, (hash_tokens_full_blocks _ _ _ _ _ _ _ k) in E1; [|done|done| |done].
  2:{ rewrite len_slice by lia. pose proof (Z.mod_pos_bound n bs Hb). pose proof (Z.div_mod n bs). lia. }
  replace (n' <? bs) with false by nia.
  simpl. rewrite Esp', Epre. destruct (n' - k * bs <? bs) eqn:En2.
  - injection E2 as <-. rewrite app_nil_r, (hash_tokens_full_blocks _ _ _ _ _ _ _ k); try done.
    rewrite len_slice; lia.
  - rewrite (hash_tokens_app _ _ _ _ _ _ _ k hs) by done. by rewrite E2.
Qed.

Definition keys (x : outcome (list bytes)) : list bytes := match x with Ok l => l | Raise _ => [] end.
Definition first_keys : list bytes :=
  keys (compute_block_hashes [] 2 ahash64 None (Ctx.Text (toy_context [1; 2; 3; 4]))).1.
Definition more_keys : list bytes :=
  keys (compute_block_hashes first_keys 2 ahash64 None (Ctx.Text (toy_context [1; 2; 3; 4; 5; 6]))).1.

Lemma incremental_block_hashes_witness :
  (compute_block_hashes [] 2 ahash64 None (Ctx.Text (toy_context [1; 2; 3; 4; 5; 6]))).1 =
  Ok (first_keys ++ more_keys).
Proof.
  apply (incremental_block_hashes (toy_context [1; 2; 3; 4]) (toy_context [1; 2; 3; 4; 5; 6])).
  - lia.
  - done.
  - by apply toy_wf.
  - by apply toy_wf.
  - apply (toy_int64 (Ctx.Text _)). vm_compute. reflexivity.
  - by exists [5; 6].
  - done.
  - by vm_compute.
  - vm_compute. reflexivity.
  - by vm_compute.
  - vm_compute. reflexivity.
Defined.

Lemma sha256_64_keys `{Digest} bs ph seed salt t hs key :
  hash_tokens bs ph sha256_64 seed salt t = Ok hs → key ∈ hs → len key ≤ 8.
Proof.
  unfold hash_tokens. destruct (match ph with Some _ => _ | None => _ end) as [p|]; [|done].
  destruct (block_hasher_sha256 t bs p) as [ds|]; [|done].
  destruct (_ =? _); [|done]. intros [= <-] (d & -> & Hd)%list_elem_of_fmap.
  unfold slice_to, slice, len. rewrite length_take. unfold clamp_index, len.
  repeat case_match; lia.
Qed.

(** With algorithm sha256_64 a request can be hashed only once. The keys it
    returns are eight bytes long, but the next call passes the last of them back as the
    parent hash and insists on 32 bytes: as soon as one more full block is hashable,
    [compute_block_hashes] raises [ValueError]. *)
Theorem sha256_64_second_call_raises `{Digest} {B : Backend} (c c' : TextContext.t B) bs seed hs :
  TokenBuffer.wf (TextContext.tokens c) → TokenBuffer.wf (TextContext.tokens c') →
  (∀ y, y ∈ TokenBuffer.all (TextContext.tokens c) → int64 y = true) →
  (∀ y, y ∈ TokenBuffer.all (TextContext.tokens c') → int64 y = true) →
  (compute_block_hashes [] bs sha256_64 seed (Ctx.Text c)).1 = Ok hs → hs ≠ [] →
  bs ≤ TokenBuffer.length (TextContext.tokens c')
         - Z.max 1 (TextContext.pending_future_count c') - len hs * bs →
  (compute_block_hashes hs bs sha256_64 seed (Ctx.Text c')).1 = Raise ValueError.
Proof.
  intros Hwf Hwf' H64 H64' E Hne Hn. rewrite compute_text in E |- * by done. cbv zeta in *.
  destruct (_ <? bs); [by injection E as <-|]. replace (_ <? bs) with false by lia.
  destruct (last hs) as [key|] eqn:El; [|by apply last_None in El].
  assert (len key ≤ 8) as Hk.
  { eapply sha256_64_keys; [exact E|]. rewrite last_lookup in El. by eapply list_elem_of_lookup_2. }
  unfold hash_tokens. by replace (len key =? 32) with false by lia.
Qed.

Definition sha_keys : list bytes :=
  keys (compute_block_hashes [] 2 sha256_64 None (Ctx.Text (toy_context [1; 2; 3; 4]))).1.

Lemma sha256_64_second_call_raises_witness :
  (compute_block_hashes sha_keys 2 sha256_64 None (Ctx.Text (toy_context [1; 2; 3; 4; 5; 6]))).1 =
  Raise ValueError.
Proof.
  apply (sha256_64_second_call_raises (toy_context [1; 2; 3; 4])).
  - by apply toy_wf.
  - by apply toy_wf.
  - apply (toy_int64 (Ctx.Text _)). vm_compute. reflexivity.
  - apply (toy_int64 (Ctx.Text _)). vm_compute. reflexivity.
  - vm_compute. reflexivity.
  - by vm_compute.
  - by vm_compute.
Defined.

Lemma hash_tokens_int32 `{Digest} bs ph algo seed salt t t' :
  astype_int32 <$> t = astype_int32 <$> t' →
  hash_tokens bs ph algo seed salt t = hash_tokens bs ph algo seed salt t'.
Proof.
  intros E. assert (len t = len t') as El.
  { rewrite <- (len_fmap astype_int32 t), <- (len_fmap astype_int32 t'). by rewrite E. }
  unfold hash_tokens, block_hasher, block_hasher_sha256. by rewrite E, El.
Qed.

(** Only the low 32 bits of a media hash reach the cache key. Image hashes are
    64-bit, but the hasher casts the overridden token array to int32 first: two
    prompts that differ only in an image whose content hashes agree modulo 2^32 get
    the same block keys, so one can be served the other's cached KV blocks. *)
Theorem media_hash_truncated `{Digest} bs ph pl idx h h' source algo seed salt a :
  (∀ x, x ∈ a → int64 x = true) → pl ≠ -1 → 0 ≤ idx - pl < len a →
  int64 h = true → int64 h' = true → h mod 2 ^ 32 = h' mod 2 ^ 32 →
  (hash_request_tokens bs ph pl [TokenHashOverride.mk idx h source] algo seed salt a).1 =
  (hash_request_tokens bs ph pl [TokenHashOverride.mk idx h' source] algo seed salt a).1.
Proof.
  intros H64 Hpl Hi Hh Hh' Hmod.
  assert (∀ y, overrides_in_slice (len a) pl [TokenHashOverride.mk idx y source] [] = Ok [(idx - pl, y)]) as E.
  { intros y. simpl. replace ((0 <=? idx - pl) && (idx - pl <? len a)) with true by lia.
    done. }
  rewrite (hash_request_tokens_value _ _ _ _ _ _ _ _ _ H64 (λ _, Hpl) (E h)) by by repeat constructor.
  rewrite (hash_request_tokens_value _ _ _ _ _ _ _ _ _ H64 (λ _, Hpl) (E h')) by by repeat constructor.
  simpl. apply hash_tokens_int32. unfold list_set. rewrite !list_fmap_insert. f_equal.
  unfold astype_int32, to_signed. by rewrite Hmod.
Qed.

Lemma media_hash_truncated_witness :
  (hash_request_tokens 2 None 0 [TokenHashOverride.mk 1 7 "image"] ahash64 None None [1; 9; 3; 4]).1 =
  (hash_request_tokens 2 None 0 [TokenHashOverride.mk 1 (7 + 2 ^ 40) "image"] ahash64 None None
     [1; 9; 3; 4]).1.
Proof.
  apply media_hash_truncated.
  - apply (toy_int64 (Ctx.Text (toy_context [1; 9; 3; 4]))). vm_compute. reflexivity.
  - done.
  - by vm_compute.
  - done.
  - done.
  - done.
Defined.

End HashProperties.
