(* ===== verification/Connector.v ===== *)
(** * External cache tiers (kv_cache/kv_connector.py, connectors/null_connector.py)

    The interface between the block manager and what lies outside the Python
    scheduler: the [KVConnector] protocol for the host and disk tiers, with the
    transfers it returns, the laws its documentation states, and the connector used
    when there is no external tier; and the driver's device memory with its batched
    page copy. *)

From S2P Require Import Prelude.

Inductive TransferDirection := LOAD | OFFLOAD.

(** A [KVConnectorTransfer]: the [CompletedTransfer] of kv_connector.py, or the
    handle of an asynchronous connector. *)
Inductive KVConnectorTransfer {handle : Type} :=
| CompletedTransfer (direction : TransferDirection) (g0_blocks : list Z)
| Handle (h : handle).
Arguments KVConnectorTransfer handle : clear implicits.

(** ** A pool's occupancy *)
Module BlockCount.

Record t := mk { free : Z; total : Z }.
Definition used (c : t) : Z := total c - free c.

End BlockCount.

(** The protocol. [conn] is the state of the connector and of the tiers behind it:
    it also changes between calls, as copies land. *)
Class KVConnector := {
  conn : Type;
  handle : Type;
  handle_direction : handle → TransferDirection;
  handle_g0_blocks : handle → list Z;
  (** the poll of an asynchronous handle: it reads the state, and changes nothing *)
  handle_is_complete : handle → conn → bool;
  name : conn → string;
  load : list Z → list bytes → Z → M conn (KVConnectorTransfer handle);
  offload : list Z → list bytes → Z → M conn (KVConnectorTransfer handle);
  (** never raises, never waits *)
  touch : list bytes → Z → conn → conn;
  count_cached_prefix : list bytes → conn → Z * Z;
  reset_metrics : conn → conn;
  (** the barriers around the forward pass, and the reset of the tiers' caches *)
  wait_for_loads : M conn unit;
  wait_for_offloads : M conn unit;
  reset_tiers : M conn unit;
  host_block_count : conn → BlockCount.t;
  disk_block_count : conn → BlockCount.t
}.

Section Transfers.
Context `{KVConnector}.

Definition transfer : Type := KVConnectorTransfer handle.
Definition direction (e : transfer) : TransferDirection :=
  match e with CompletedTransfer d _ => d | Handle h => handle_direction h end.
Definition g0_blocks (e : transfer) : list Z :=
  match e with CompletedTransfer _ bs => bs | Handle h => handle_g0_blocks h end.
Definition is_complete (e : transfer) (c : conn) : bool :=
  match e with CompletedTransfer _ _ => true | Handle h => handle_is_complete h c end.

End Transfers.

(** What the protocol's documentation promises: its calls return, and a load reports
    a prefix of the blocks it was offered. *)
Class KVConnectorLaws `{KVConnector} : Prop := {
  load_law c ids hashes i : ∃ e c', load ids hashes i c = (Ok e, c') ∧ g0_blocks e `prefix_of` ids;
  offload_law c ids hashes i : ∃ e c', offload ids hashes i c = (Ok e, c');
  wait_for_loads_law c : ∃ c', wait_for_loads c = (Ok tt, c');
  wait_for_offloads_law c : ∃ c', wait_for_offloads c = (Ok tt, c')
}.

(** ** No external tier *)
Module NullConnector.

Definition name : string := "NullConnector".
Definition load (_ : list Z) (_ : list bytes) (_ : Z) : M unit (KVConnectorTransfer Empty_set) :=
  ret (CompletedTransfer LOAD []).
Definition offload (_ : list Z) (_ : list bytes) (_ : Z)
    : M unit (KVConnectorTransfer Empty_set) :=
  ret (CompletedTransfer OFFLOAD []).

End NullConnector.

#[export] Instance null_connector : KVConnector | 10 := {|
  conn := unit;
  handle := Empty_set;
  handle_direction h := match h with end;
  handle_g0_blocks h := match h with end;
  handle_is_complete h := match h with end;
  name _ := NullConnector.name;
  load := NullConnector.load;
  offload := NullConnector.offload;
  touch _ _ c := c;
  count_cached_prefix _ _ := (0, 0);
  reset_metrics c := c;
  wait_for_loads := ret tt;
  wait_for_offloads := ret tt;
  reset_tiers := ret tt;
  host_block_count _ := BlockCount.mk 0 0;
  disk_block_count _ := BlockCount.mk 0 0
|}.

#[export] Instance null_connector_laws : KVConnectorLaws | 10.
Proof.
  split; intros [].
  - intros ids hashes i. eexists _, _. split; [done|]. apply prefix_nil.
  - intros. by eexists _, _.
  - by exists tt.
  - by exists tt.
Qed.

(** ** A tier whose loads complete as they are posted

    The synchronous kind the protocol describes, at its smallest: it serves as many
    leading blocks as its state says. Not an instance: an example picks it. *)
Definition eager_connector : KVConnector := {|
  conn := Z;
  handle := Empty_set;
  handle_direction h := match h with end;
  handle_g0_blocks h := match h with end;
  handle_is_complete h := match h with end;
  name _ := "eager"%string;
  load ids _ _ c := (Ok (CompletedTransfer LOAD (take (Z.to_nat c) ids)), c);
  offload ids _ _ c := (Ok (CompletedTransfer OFFLOAD ids), c);
  touch _ _ c := c;
  count_cached_prefix _ _ := (0, 0);
  reset_metrics c := c;
  wait_for_loads := ret tt;
  wait_for_offloads := ret tt;
  reset_tiers := ret tt;
  host_block_count _ := BlockCount.mk 0 0;
  disk_block_count _ := BlockCount.mk 0 0
|}.

Lemma eager_laws : @KVConnectorLaws eager_connector.
Proof.
  split.
  - intros c ids hs i. eexists _, _. split; [done|]. exists (drop (Z.to_nat c) ids). symmetry. apply take_drop.
  - intros c ids hs i. by eexists _, _.
  - intros c. by exists c.
  - intros c. by exists c.
Qed.

(** ** Device memory

    The driver's buffers, their pages ([buf[i, :]]) and the batched copy. *)
Class Driver := {
  memory : Type;
  Buffer : Type;
  Page : Type;
  page : Buffer → Z → Page;
  batch_inplace_copy : list Page → list Page → M memory unit
}.

(** One logical KV tensor, one buffer per tensor-parallel shard. *)
Record KVCacheMemory `{Driver} := kv_cache_memory {
  buffers : list Buffer;
  bytes_per_page : Z
}.

(** A memory that records the copies it was asked for: a buffer is a number. *)
#[export] Instance copy_log : Driver | 10 := {|
  memory := list (Z * Z * (Z * Z));
  Buffer := Z;
  Page := Z * Z;
  page b i := (b, i);
  batch_inplace_copy dsts srcs := modify (λ l, l ++ zip dsts srcs)
|}.
