(* ===== verification/Manager.v ===== *)
(** * The block manager (kv_cache/paged_kv_cache/block_manager.py)

    [BlockManager] owns one pool of device blocks per data-parallel replica and the
    pages of every claimed request. A method that changes the request's context runs
    on a [world] of manager and context; one that only reads the context, or only its
    request id, takes that as an argument. A [defaultdict] read inserts its default.
    Logging is left out. *)

From S2P Require Import Prelude Tokens FreeQueue Pool Context Hashing Connector.

(** ** Hits per tier *)
Module PrefixCacheHits.

Record t := mk { device_blocks : Z; host_blocks : Z; disk_blocks : Z }.
Definition total_blocks (h : t) : Z := device_blocks h + host_blocks h + disk_blocks h.

End PrefixCacheHits.

(** ** The counters of [KVCacheMetrics] the manager itself keeps *)
Module Metrics.

Record t := mk {
  input_tokens : Z;
  cache_tokens : Z;
  device_blocks_served : Z;
  cross_replica_blocks_copied : Z;
  cross_replica_bytes_copied : Z
}.
Definition zero : t := mk 0 0 0 0 0.
Definition add (a b : t) : t :=
  mk (input_tokens a + input_tokens b) (cache_tokens a + cache_tokens b)
    (device_blocks_served a + device_blocks_served b)
    (cross_replica_blocks_copied a + cross_replica_blocks_copied b)
    (cross_replica_bytes_copied a + cross_replica_bytes_copied b).

End Metrics.

(** ** Sizing a request (its KV slots) *)
Definition _compute_seq_len {B : Backend} (num_draft_tokens num_draft_tokens_per_step : Z)
    (max_num_input_tokens : option Z) : M (TextContext.t B) Z :=
  let block_draft_extra :=
    if (num_draft_tokens >? 0) && (num_draft_tokens_per_step =? num_draft_tokens) then 1 else 0 in
  let! c := get in
  let active_length := TokenBuffer.active_length (TextContext.tokens c) in
  let active_length :=
    match max_num_input_tokens with Some n => Z.min active_length n | None => active_length end in
  let seq_len := TokenBuffer.processed_length (TextContext.tokens c) + active_length in
  let! s := TextContext.spec_decoding_state in
  ret (seq_len + (len (maybe_accepted_draft_tokens s) + 2 * num_draft_tokens + 1
                  + block_draft_extra - Z.max 1 (TextContext.pending_future_count c))).

Module BlockManager.

Record _PendingTransfer `{KVConnector} := pending_transfer {
  event : transfer;
  blocks : list Z;
  commit_hashes : option (list bytes)
}.

Record t `{KVConnector, Driver} := mk {
  total_num_blocks : Z;
  block_size : Z;
  num_replicas : Z;
  kv_hash_algo : BlockHash.KVHashAlgo;
  kv_hash_seed : option bytes;
  enable_prefix_caching : bool;
  connector : conn;
  _replica_kv_memory : option (list (list KVCacheMemory));
  device_memory : memory;
  _cross_replica_copy_enabled : bool;
  _pending_offloads : list (list (list bytes));
  _pending_transfers : list (list _PendingTransfer);
  device_block_pools : list BlockPool.t;
  req_to_replica : gmap Z Z;
  req_to_blocks : gmap Z (list Z);
  req_to_hashes : gmap Z (list bytes);
  req_to_committed_idx : gmap Z Z;
  _metrics : Metrics.t;
  enable_runtime_checks : bool;
  _only_use_kv_connector_last_level_cache : bool
}.

Section Manager.
Context `{Digest} {B : Backend} `{KVConnector} `{Driver}.
Implicit Types m : t.

(** *** Field updates *)
Definition set_connector (x : conn) m : t :=
  mk _ _ (total_num_blocks m) (block_size m) (num_replicas m) (kv_hash_algo m) (kv_hash_seed m)
    (enable_prefix_caching m) x (_replica_kv_memory m) (device_memory m)
    (_cross_replica_copy_enabled m) (_pending_offloads m) (_pending_transfers m)
    (device_block_pools m) (req_to_replica m) (req_to_blocks m) (req_to_hashes m)
    (req_to_committed_idx m) (_metrics m) (enable_runtime_checks m)
    (_only_use_kv_connector_last_level_cache m).
Definition set_memory (x : memory) m : t :=
  mk _ _ (total_num_blocks m) (block_size m) (num_replicas m) (kv_hash_algo m) (kv_hash_seed m)
    (enable_prefix_caching m) (connector m) (_replica_kv_memory m) x
    (_cross_replica_copy_enabled m) (_pending_offloads m) (_pending_transfers m)
    (device_block_pools m) (req_to_replica m) (req_to_blocks m) (req_to_hashes m)
    (req_to_committed_idx m) (_metrics m) (enable_runtime_checks m)
    (_only_use_kv_connector_last_level_cache m).
Definition set_offloads (x : list (list (list bytes))) m : t :=
  mk _ _ (total_num_blocks m) (block_size m) (num_replicas m) (kv_hash_algo m) (kv_hash_seed m)
    (enable_prefix_caching m) (connector m) (_replica_kv_memory m) (device_memory m)
    (_cross_replica_copy_enabled m) x (_pending_transfers m)
    (device_block_pools m) (req_to_replica m) (req_to_blocks m) (req_to_hashes m)
    (req_to_committed_idx m) (_metrics m) (enable_runtime_checks m)
    (_only_use_kv_connector_last_level_cache m).
Definition set_transfers (x : list (list _PendingTransfer)) m : t :=
  mk _ _ (total_num_blocks m) (block_size m) (num_replicas m) (kv_hash_algo m) (kv_hash_seed m)
    (enable_prefix_caching m) (connector m) (_replica_kv_memory m) (device_memory m)
    (_cross_replica_copy_enabled m) (_pending_offloads m) x
    (device_block_pools m) (req_to_replica m) (req_to_blocks m) (req_to_hashes m)
    (req_to_committed_idx m) (_metrics m) (enable_runtime_checks m)
    (_only_use_kv_connector_last_level_cache m).
Definition set_pools (x : list BlockPool.t) m : t :=
  mk _ _ (total_num_blocks m) (block_size m) (num_replicas m) (kv_hash_algo m) (kv_hash_seed m)
    (enable_prefix_caching m) (connector m) (_replica_kv_memory m) (device_memory m)
    (_cross_replica_copy_enabled m) (_pending_offloads m) (_pending_transfers m)
    x (req_to_replica m) (req_to_blocks m) (req_to_hashes m)
    (req_to_committed_idx m) (_metrics m) (enable_runtime_checks m)
    (_only_use_kv_connector_last_level_cache m).
Definition set_replicas (x : gmap Z Z) m : t :=
  mk _ _ (total_num_blocks m) (block_size m) (num_replicas m) (kv_hash_algo m) (kv_hash_seed m)
    (enable_prefix_caching m) (connector m) (_replica_kv_memory m) (device_memory m)
    (_cross_replica_copy_enabled m) (_pending_offloads m) (_pending_transfers m)
    (device_block_pools m) x (req_to_blocks m) (req_to_hashes m)
    (req_to_committed_idx m) (_metrics m) (enable_runtime_checks m)
    (_only_use_kv_connector_last_level_cache m).
Definition set_blocks (x : gmap Z (list Z)) m : t :=
  mk _ _ (total_num_blocks m) (block_size m) (num_replicas m) (kv_hash_algo m) (kv_hash_seed m)
    (enable_prefix_caching m) (connector m) (_replica_kv_memory m) (device_memory m)
    (_cross_replica_copy_enabled m) (_pending_offloads m) (_pending_transfers m)
    (device_block_pools m) (req_to_replica m) x (req_to_hashes m)
    (req_to_committed_idx m) (_metrics m) (enable_runtime_checks m)
    (_only_use_kv_connector_last_level_cache m).
Definition set_hashes (x : gmap Z (list bytes)) m : t :=
  mk _ _ (total_num_blocks m) (block_size m) (num_replicas m) (kv_hash_algo m) (kv_hash_seed m)
    (enable_prefix_caching m) (connector m) (_replica_kv_memory m) (device_memory m)
    (_cross_replica_copy_enabled m) (_pending_offloads m) (_pending_transfers m)
    (device_block_pools m) (req_to_replica m) (req_to_blocks m) x
    (req_to_committed_idx m) (_metrics m) (enable_runtime_checks m)
    (_only_use_kv_connector_last_level_cache m).
Definition set_committed (x : gmap Z Z) m : t :=
  mk _ _ (total_num_blocks m) (block_size m) (num_replicas m) (kv_hash_algo m) (kv_hash_seed m)
    (enable_prefix_caching m) (connector m) (_replica_kv_memory m) (device_memory m)
    (_cross_replica_copy_enabled m) (_pending_offloads m) (_pending_transfers m)
    (device_block_pools m) (req_to_replica m) (req_to_blocks m) (req_to_hashes m)
    x (_metrics m) (enable_runtime_checks m) (_only_use_kv_connector_last_level_cache m).
Definition set_metrics (x : Metrics.t) m : t :=
  mk _ _ (total_num_blocks m) (block_size m) (num_replicas m) (kv_hash_algo m) (kv_hash_seed m)
    (enable_prefix_caching m) (connector m) (_replica_kv_memory m) (device_memory m)
    (_cross_replica_copy_enabled m) (_pending_offloads m) (_pending_transfers m)
    (device_block_pools m) (req_to_replica m) (req_to_blocks m) (req_to_hashes m)
    (req_to_committed_idx m) x (enable_runtime_checks m)
    (_only_use_kv_connector_last_level_cache m).

Definition count (x : Metrics.t) : M t unit := modify (λ m, set_metrics (Metrics.add (_metrics m) x) m).

(** *** The dictionaries *)
Definition blocks_of (rid : Z) : M t (list Z) := λ m,
  match req_to_blocks m !! rid with
  | Some l => (Ok l, m)
  | None => (Ok [], set_blocks (<[rid := []]> (req_to_blocks m)) m)
  end.
Definition hashes_of (rid : Z) : M t (list bytes) := λ m,
  match req_to_hashes m !! rid with
  | Some l => (Ok l, m)
  | None => (Ok [], set_hashes (<[rid := []]> (req_to_hashes m)) m)
  end.
Definition committed_idx_of (rid : Z) : M t Z := λ m,
  match req_to_committed_idx m !! rid with
  | Some i => (Ok i, m)
  | None => (Ok 0, set_committed (<[rid := 0]> (req_to_committed_idx m)) m)
  end.
Definition put_blocks (rid : Z) (l : list Z) : M t unit :=
  modify (λ m, set_blocks (<[rid := l]> (req_to_blocks m)) m).
Definition put_hashes (rid : Z) (l : list bytes) : M t unit :=
  modify (λ m, set_hashes (<[rid := l]> (req_to_hashes m)) m).
Definition put_committed (rid : Z) (i : Z) : M t unit :=
  modify (λ m, set_committed (<[rid := i]> (req_to_committed_idx m)) m).

(** *** The replicas' pools, the connector and the device memory *)

(** The position a list index denotes. *)
Definition position (i n : Z) : nat := Z.to_nat (if i <? 0 then n + i else i).

(** Run a method of [self.device_block_pools[i]]. *)
Definition on_pool {A} (i : Z) (p : M BlockPool.t A) : M t A := λ m,
  match py_index (device_block_pools m) i with
  | None => (Raise IndexError, m)
  | Some x =>
      let '(r, x') := p x in
      (r, set_pools (<[position i (len (device_block_pools m)) := x']> (device_block_pools m)) m)
  end.
Definition pool_at (i : Z) : M t BlockPool.t := on_pool i get.
Definition on_connector {A} (c : M conn A) : M t A := zoom connector set_connector c.
Definition on_memory {A} (c : M memory A) : M t A := zoom device_memory set_memory c.

(** *** Construction *)
Definition init (total_num_blocks block_size : Z) (connector : conn) (enable_prefix_caching : bool)
    (enable_runtime_checks : bool) (num_replicas : Z) (kv_hash_algo : BlockHash.KVHashAlgo)
    (kv_hash_seed : option bytes) (replica_kv_memory : option (list (list KVCacheMemory)))
    (enable_dp_cross_replica_prefix_copy : bool) (device : memory)
    (only_use_kv_connector_last_level_cache : bool) : outcome t :=
  if num_replicas <? 1 then Raise ValueError else
  Ok (mk _ _ total_num_blocks block_size num_replicas kv_hash_algo kv_hash_seed
        enable_prefix_caching connector replica_kv_memory device
        (match replica_kv_memory with Some _ => enable_dp_cross_replica_prefix_copy | None => false end)
        (repeat [] (Z.to_nat num_replicas)) (repeat [] (Z.to_nat num_replicas))
        (repeat (BlockPool.init total_num_blocks enable_runtime_checks) (Z.to_nat num_replicas))
        ∅ ∅ ∅ ∅ Metrics.zero enable_runtime_checks only_use_kv_connector_last_level_cache).

Definition device_block_pool : M t BlockPool.t := pool_at 0.

Definition claim (rid replica_idx : Z) : M t unit :=
  let! m := get in
  match req_to_replica m !! rid with
  | Some _ => raise ValueError
  | None => modify (λ m, set_replicas (<[rid := replica_idx]> (req_to_replica m)) m)
  end.

Definition _replica_of (rid : Z) : M t Z :=
  let! m := get in of_option ValueError (req_to_replica m !! rid).

(** *** Runtime checks *)

(** [active_block_ids_by_replica[i].append(bid)] and the check of the block's count. *)
Definition note_active (i : Z) (active : list (list Z)) (r : Z) : M t (list (list Z)) :=
  let! b := on_pool i (BlockPool.block r) in
  let! _ := of_option IndexError (py_index active i) in
  py_assert (KVCacheBlock.ref_cnt b >? 0);;
  ret (alter (λ l, l ++ [KVCacheBlock._bid b]) (position i (len active)) active).

(** The number of leading blocks that are committed. *)
Fixpoint committed_run (i : Z) (l : list Z) : M t Z :=
  match l with
  | [] => ret 0
  | r :: l =>
      let! b := on_pool i (BlockPool.block r) in
      match KVCacheBlock.block_hash b with
      | None => ret 0
      | Some _ => let! n := committed_run i l in ret (n + 1)
      end
  end.

(** [zip(l1, l2, strict=True)]: the length mismatch shows after the common part. *)
Fixpoint for_zip_strict {S X Y} (l1 : list X) (l2 : list Y) (f : X → Y → M S unit) : M S unit :=
  match l1, l2 with
  | [], [] => ret tt
  | x :: l1, y :: l2 => f x y;; for_zip_strict l1 l2 f
  | _, _ => raise ValueError
  end.

Definition assert_runtime_invariants (rid : Z) : M t unit :=
  let! m := get in
  if negb (enable_runtime_checks m) then ret tt else
  let active := repeat [] (Z.to_nat (num_replicas m)) in
  let! active := for_fold (map_to_list (req_to_blocks m)) active (λ active '(request_id, l),
    let req_replica := default 0 (req_to_replica m !! request_id) in
    for_fold l active (note_active req_replica)) in
  let! active := for_fold (zip (zrange 0 (len (_pending_transfers m))) (_pending_transfers m)) active
    (λ active '(i, pending_list), for_fold pending_list active
      (λ active pending, for_fold (blocks pending) active (note_active i))) in
  for_zip_strict (zrange 0 (len (device_block_pools m))) active (λ i active_block_ids,
    on_pool i (BlockPool.assert_runtime_invariants active_block_ids));;
  let! req_hashes := hashes_of rid in
  let! req_blocks := blocks_of rid in
  let! committed_idx := committed_idx_of rid in
  let num_committed_blocks := committed_idx / block_size m in
  let i := default 0 (req_to_replica m !! rid) in
  let! num_committed := committed_run i req_blocks in
  py_assert (num_committed =? num_committed_blocks);;
  for_each (zip req_hashes req_blocks) (λ '(hash_value, r),
    let! b := on_pool i (BlockPool.block r) in
    py_assert (bool_decide (KVCacheBlock.block_hash b = None)
               || bool_decide (KVCacheBlock.block_hash b = Some hash_value))).

(** *** Allocation *)

Definition allocate_device_block (replica_idx : Z) : M t Z :=
  let! x := on_pool replica_idx BlockPool.alloc_block in ret x.1.

(** *** Cross-replica copies *)

Definition _find_block_in_any_replica (block_hash : bytes) (preferred_replica : Z)
    : M t (Z * option Z) :=
  let! local := pool_at preferred_replica in
  match BlockPool.prefix_cache local !! block_hash with
  | Some r => ret (preferred_replica, Some r)
  | None =>
      let! m := get in
      (fix search (l : list Z) : M t (Z * option Z) :=
         match l with
         | [] => ret (preferred_replica, None)
         | i :: l =>
             if i =? preferred_replica then search l else
             let! p := pool_at i in
             match BlockPool.prefix_cache p !! block_hash with
             | Some r => ret (i, Some r)
             | None => search l
             end
         end) (zrange 0 (num_replicas m))
  end.

Definition _count_full_blocks_from_prefix_cache (desired_hashes : list bytes) (replica_idx : Z)
    : M t Z :=
  let! local := pool_at replica_idx in
  let! m := get in
  for_fold desired_hashes 0 (λ n hash_value,
    let! block := (if _cross_replica_copy_enabled m
                   then let! x := _find_block_in_any_replica hash_value replica_idx in ret x.2
                   else ret (BlockPool.prefix_cache local !! hash_value)) in
    ret (match block with Some _ => n + 1 | None => n end)).

(** The page views of one unit, and of all units, for the copy. *)
Fixpoint shard_pages (src dst : list Buffer) (pairs : list (Z * Z)) (acc : list Page * list Page)
    : outcome (list Page * list Page) :=
  match src, dst with
  | [], [] => Ok acc
  | s :: src, d :: dst =>
      shard_pages src dst pairs
        (acc.1 ++ ((λ '(dst_id, _), page d dst_id) <$> pairs),
         acc.2 ++ ((λ '(_, src_id), page s src_id) <$> pairs))
  | _, _ => Raise ValueError
  end.

Fixpoint unit_pages (src dst : list KVCacheMemory) (pairs : list (Z * Z))
    (acc : list Page * list Page) : M t (list Page * list Page) :=
  match src, dst with
  | [], [] => ret acc
  | s :: src, d :: dst =>
      let! acc := of_outcome (shard_pages (buffers s) (buffers d) pairs acc) in
      count (Metrics.mk 0 0 0 0 (bytes_per_page s * len (buffers s) * len pairs));;
      unit_pages src dst pairs acc
  | _, _ => raise ValueError
  end.

Definition _copy_blocks_across_replicas (dst_replica src_replica : Z)
    (block_id_pairs : list (Z * Z)) : M t unit :=
  let! m := get in
  match _replica_kv_memory m with
  | None => raise AssertionError
  | Some units =>
      let! src_units := of_option IndexError (py_index units src_replica) in
      let! dst_units := of_option IndexError (py_index units dst_replica) in
      if bool_decide (block_id_pairs = []) then ret tt else
      let! pages := unit_pages src_units dst_units block_id_pairs ([], []) in
      on_memory (batch_inplace_copy pages.1 pages.2)
  end.

(** A dict from source replica to the copies queued for it, in insertion order;
    [pending.setdefault(k, []).append(x)]. *)
Definition copies : Type := list (Z * list (bytes * Z * Z)).
Fixpoint queue_copy (k : Z) (x : bytes * Z * Z) (d : copies) : copies :=
  match d with
  | [] => [(k, [x])]
  | (k', xs) :: d => if k =? k' then (k', xs ++ [x]) :: d else (k', xs) :: queue_copy k x d
  end.

Fixpoint device_walk (replica_idx : Z) (hashes : list bytes) (blocks : list Z) (pending : copies)
    : M t (list Z * copies) :=
  match hashes with
  | [] => ret (blocks, pending)
  | block_hash :: hashes =>
      let! local_pool := pool_at replica_idx in
      match BlockPool.prefix_cache local_pool !! block_hash with
      | Some local_block =>
          on_pool replica_idx (BlockPool.touch local_block);;
          count (Metrics.mk 0 0 1 0 0);;
          device_walk replica_idx hashes (blocks ++ [local_block]) pending
      | None =>
          let! m := get in
          if negb (_cross_replica_copy_enabled m) then ret (blocks, pending) else
          let! '(src_replica, src_block) := _find_block_in_any_replica block_hash replica_idx in
          match src_block with
          | None => ret (blocks, pending)
          | Some src_block =>
              if BlockPool.num_free_blocks local_pool =? 0 then ret (blocks, pending) else
              let! dst_block := allocate_device_block replica_idx in
              let! src := on_pool src_replica (BlockPool.block src_block) in
              count (Metrics.mk 0 0 0 1 0);;
              device_walk replica_idx hashes (blocks ++ [dst_block])
                (queue_copy src_replica (block_hash, dst_block, KVCacheBlock._bid src) pending)
          end
      end
  end.

Definition _get_full_blocks_from_device_prefix_cache (desired_hashes : list bytes)
    (replica_idx : Z) : M t (list Z) :=
  let! m := get in
  if _only_use_kv_connector_last_level_cache m then ret [] else
  let! _ := pool_at replica_idx in
  let! '(blocks, pending_copies) := device_walk replica_idx desired_hashes [] [] in
  for_each pending_copies (λ '(src_replica, pending),
    let! pairs := for_map pending (λ '(_, dst_block, src_block_id),
      let! b := on_pool replica_idx (BlockPool.block dst_block) in
      ret (KVCacheBlock._bid b, src_block_id)) in
    _copy_blocks_across_replicas replica_idx src_replica pairs);;
  for_each pending_copies (λ '(_, pending),
    for_each pending (λ '(block_hash, dst_block, _),
      on_pool replica_idx (BlockPool.commit_into_prefix_cache block_hash dst_block)));;
  ret blocks.

(** *** Transfers in flight *)

Definition pending_transfers_at (i : Z) : M t (list _PendingTransfer) :=
  let! m := get in of_option IndexError (py_index (_pending_transfers m) i).
Definition put_transfers (i : Z) (l : list _PendingTransfer) : M t unit :=
  modify (λ m, set_transfers
    (<[position i (len (_pending_transfers m)) := l]> (_pending_transfers m)) m).

Definition _track_transfer (event : transfer) (bs : list Z) (replica_idx : Z)
    (commit_hashes : option (list bytes)) : M t unit :=
  if bool_decide (bs = []) then ret tt else
  let! _ := pool_at replica_idx in
  for_each bs (λ r, on_pool replica_idx (BlockPool.touch r));;
  let! l := pending_transfers_at replica_idx in
  put_transfers replica_idx (l ++ [pending_transfer _ event bs commit_hashes]).

(** One completed transfer: publish an onload's blocks, then unpin. *)
Definition settle (i : Z) (pending : _PendingTransfer) : M t unit :=
  match commit_hashes pending with
  | None => ret tt
  | Some hashes =>
      for_zip_strict (blocks pending) hashes (λ r block_hash,
        let! pool := pool_at i in
        let! b := on_pool i (BlockPool.block r) in
        when (bool_decide (KVCacheBlock.block_hash b = None)
              && bool_decide (BlockPool.prefix_cache pool !! block_hash = None))
          (on_pool i (BlockPool.commit_into_prefix_cache block_hash r)))
  end;;
  for_each (blocks pending) (λ r, on_pool i (BlockPool.free_block r)).

Definition poll_transfers : M t unit :=
  let! m := get in
  for_each (zip (zrange 0 (len (_pending_transfers m))) (_pending_transfers m))
    (λ '(replica_idx, pending_list),
      if bool_decide (pending_list = []) then ret tt else
      let! _ := pool_at replica_idx in
      let! still_pending := for_fold pending_list [] (λ still_pending pending,
        let! m := get in
        if negb (is_complete (event pending) (connector m))
        then ret (still_pending ++ [pending])
        else settle replica_idx pending;; ret still_pending) in
      put_transfers replica_idx still_pending).

Definition pending_transfers_exist (replica_idx : Z) : M t bool :=
  let! l := pending_transfers_at replica_idx in ret (negb (bool_decide (l = []))).

(** *** Onloading from the connector *)

Definition _get_full_blocks_from_host_prefix_cache (desired_hashes : list bytes)
    (replica_idx : Z) : M t (list Z * transfer) :=
  let! pool := pool_at replica_idx in
  if bool_decide (desired_hashes = []) then ret ([], CompletedTransfer LOAD []) else
  let num_hashes_to_load := Z.min (len desired_hashes) (BlockPool.num_free_blocks pool) in
  let desired_hashes := slice_to desired_hashes num_hashes_to_load in
  let! blocks := for_map (zrange 0 num_hashes_to_load) (λ _, allocate_device_block replica_idx) in
  let! block_ids := for_map blocks (λ r,
    let! b := on_pool replica_idx (BlockPool.block r) in ret (KVCacheBlock._bid b)) in
  let! event := on_connector (load block_ids desired_hashes replica_idx) in
  let num_loaded := len (g0_blocks event) in
  for_each (slice_from blocks num_loaded) (λ r, on_pool replica_idx (BlockPool.free_block r));;
  let loaded_blocks := slice_to blocks num_loaded in
  let loaded_hashes := slice_to desired_hashes num_loaded in
  if bool_decide (loaded_blocks = []) then ret ([], CompletedTransfer LOAD []) else
  let! m := get in
  (if is_complete event (connector m)
   then for_zip_strict loaded_blocks loaded_hashes (λ r block_hash,
          let! pool := pool_at replica_idx in
          match BlockPool.prefix_cache pool !! block_hash with
          | Some _ => py_assert (_only_use_kv_connector_last_level_cache m)
          | None => on_pool replica_idx (BlockPool.commit_into_prefix_cache block_hash r)
          end)
   else _track_transfer event loaded_blocks replica_idx (Some loaded_hashes));;
  ret (loaded_blocks, event).

(** The leading hashes a pool has cached. *)
Fixpoint cached_run (pool : BlockPool.t) (l : list bytes) : Z :=
  match l with
  | [] => 0
  | h :: l => if bool_decide (BlockPool.prefix_cache pool !! h = None) then 0 else 1 + cached_run pool l
  end.

Definition count_cached_prefix_blocks (block_hashes : list bytes) : M t PrefixCacheHits.t :=
  let! m := get in
  if negb (enable_prefix_caching m) then ret (PrefixCacheHits.mk 0 0 0) else
  let! num_device_hits :=
    (if _only_use_kv_connector_last_level_cache m then ret 0 else
     let! pool := device_block_pool in ret (cached_run pool block_hashes)) in
  let remaining := slice_from block_hashes num_device_hits in
  let '(num_host_hits, num_disk_hits) :=
    if bool_decide (remaining = []) then (0, 0) else count_cached_prefix remaining (connector m) in
  ret (PrefixCacheHits.mk num_device_hits num_host_hits num_disk_hits).

Definition get_full_blocks_from_prefix_cache (rid : Z) : M t (list Z * transfer) :=
  let! m := get in
  py_assert (enable_prefix_caching m);;
  let! replica_idx := _replica_of rid in
  let! req_hashes := hashes_of rid in
  let! committed_idx := committed_idx_of rid in
  let num_committed_blocks := committed_idx / block_size m in
  let uncommitted_hashes := slice_from req_hashes num_committed_blocks in
  let! device_blocks := _get_full_blocks_from_device_prefix_cache uncommitted_hashes replica_idx in
  if bool_decide (name (connector m) = "NullConnector"%string)
  then ret (device_blocks, CompletedTransfer LOAD []) else
  let uncommitted_hashes := slice_from uncommitted_hashes (len device_blocks) in
  let! '(host_blocks, load_event) :=
    _get_full_blocks_from_host_prefix_cache uncommitted_hashes replica_idx in
  let hit_hashes :=
    slice_to req_hashes (num_committed_blocks + len device_blocks + len host_blocks) in
  when (negb (bool_decide (hit_hashes = [])))
    (modify (λ m, set_connector (touch hit_hashes replica_idx (connector m)) m));;
  ret (device_blocks ++ host_blocks, load_event).

(** *** Committing and offloading *)

Definition commit_to_prefix_cache (c : TextContext.t B) : M t unit :=
  let rid := TextContext.request_id c in
  let! m := get in
  let! replica_idx := _replica_of rid in
  let! _ := pool_at replica_idx in
  let! req_blocks := blocks_of rid in
  let! req_hashes := hashes_of rid in
  let! committed_idx := committed_idx_of rid in
  let num_committed_blocks := committed_idx / block_size m in
  let num_realized_tokens :=
    TokenBuffer.length (TextContext.tokens c) - TextContext.pending_future_count c in
  let num_computed_blocks :=
    Z.min (TokenBuffer.processed_length (TextContext.tokens c)) num_realized_tokens
    / block_size m in
  for_each (zrange num_committed_blocks num_computed_blocks) (λ block_idx,
    let! req_blocks := blocks_of rid in
    let! block := of_option IndexError (py_index req_blocks block_idx) in
    let! block_hash := of_option IndexError (py_index req_hashes block_idx) in
    let! new_block :=
      on_pool replica_idx (BlockPool.get_or_commit_into_prefix_cache block_hash block) in
    match new_block with
    | None => ret tt
    | Some new_block => put_blocks rid (<[position block_idx (len req_blocks) := new_block]> req_blocks)
    end);;
  when (num_computed_blocks >? num_committed_blocks)
    (let! m := get in
     let! l := of_option IndexError (py_index (_pending_offloads m) replica_idx) in
     modify (λ m, set_offloads
       (<[position replica_idx (len (_pending_offloads m)) :=
          l ++ [slice req_hashes num_committed_blocks num_computed_blocks]]> (_pending_offloads m)) m));;
  put_committed rid (num_computed_blocks * block_size m).

(** The run of hashes still cached, with their blocks. *)
Fixpoint resolve (pool : BlockPool.t) (hashes : list bytes) : list (bytes * Z) :=
  match hashes with
  | [] => []
  | h :: hashes =>
      match BlockPool.prefix_cache pool !! h with
      | None => []
      | Some r => (h, r) :: resolve pool hashes
      end
  end.

Definition offload (replica_idx : Z) : M t unit :=
  let! _ := pool_at replica_idx in
  let! m := get in
  let! sequences := of_option IndexError (py_index (_pending_offloads m) replica_idx) in
  for_each sequences (λ hashes,
    let! pool := pool_at replica_idx in
    let run := resolve pool hashes in
    let! block_ids := for_map run.*2 (λ r,
      let! b := on_pool replica_idx (BlockPool.block r) in ret (KVCacheBlock._bid b)) in
    if bool_decide (run = []) then ret tt else
    let! event := on_connector (Connector.offload block_ids run.*1 replica_idx) in
    let! m := get in
    when (negb (is_complete event (connector m)))
      (_track_transfer event run.*2 replica_idx None));;
  modify (λ m, set_offloads
    (<[position replica_idx (len (_pending_offloads m)) := []]> (_pending_offloads m)) m).

(** *** Release *)

Definition release (rid : Z) : M t unit :=
  let! replica_idx := _replica_of rid in
  let! _ := pool_at replica_idx in
  let! blocks := blocks_of rid in
  let! m := get in
  let ordered_blocks := if enable_prefix_caching m then rev blocks else blocks in
  for_each ordered_blocks (λ r, on_pool replica_idx (BlockPool.free_block r));;
  modify (λ m, set_blocks (delete rid (req_to_blocks m)) m);;
  modify (λ m, set_hashes (delete rid (req_to_hashes m)) m);;
  modify (λ m, set_replicas (delete rid (req_to_replica m)) m);;
  modify (λ m, set_committed (delete rid (req_to_committed_idx m)) m).

Definition register_dummy_request (rid : Z) : M t unit :=
  let! l := blocks_of rid in
  py_assert (bool_decide (l = []));;
  let! replica_idx := _replica_of rid in
  let! pool := pool_at replica_idx in
  put_blocks rid [BlockPool.null_block pool].

Definition get_req_blocks (rid : Z) : M t (list Z) :=
  let! replica_idx := _replica_of rid in
  let! l := blocks_of rid in
  for_map l (λ r, let! b := on_pool replica_idx (BlockPool.block r) in ret (KVCacheBlock._bid b)).

Definition reset_prefix_cache : M t unit :=
  let! m := get in
  for_each (zrange 0 (len (device_block_pools m))) (λ i, on_pool i BlockPool.reset_prefix_cache).

Definition reset_metrics : M t unit :=
  modify (set_metrics Metrics.zero);;
  modify (λ m, set_connector (Connector.reset_metrics (connector m)) m).

(** *** Methods that change the request's context *)

Record world := mk_world { mgr : t; ctx : Ctx.t B }.
Definition on_mgr {A} (x : M t A) : M world A := zoom mgr (λ m w, mk_world m (ctx w)) x.
Definition on_ctx {A} (x : M (Ctx.t B) A) : M world A := zoom ctx (λ c w, mk_world (mgr w) c) x.
Definition text : M world (TextContext.t B) := let! w := get in ret (Ctx.base (ctx w)).
Definition request_id (w : world) : Z := TextContext.request_id (Ctx.base (ctx w)).

Definition compute_hashes_for_request : M world unit :=
  let! w := get in
  let! hashes := on_mgr (hashes_of (request_id w)) in
  let! new_hashes := on_ctx (BlockHashes.compute_block_hashes hashes (block_size (mgr w))
                               (kv_hash_algo (mgr w)) (kv_hash_seed (mgr w))) in
  on_mgr (put_hashes (request_id w) (hashes ++ new_hashes)).

Definition step : M world unit :=
  let! w := get in
  on_mgr (assert_runtime_invariants (request_id w));;
  if negb (enable_prefix_caching (mgr w)) then ret tt else
  compute_hashes_for_request;;
  let! c := text in
  on_mgr (commit_to_prefix_cache c);;
  on_mgr (assert_runtime_invariants (request_id w)).

Definition num_blocks_to_allocate (num_draft_tokens num_draft_tokens_per_step : Z) : M world Z :=
  let! w := get in
  let! current_blocks := on_mgr (blocks_of (request_id w)) in
  let! current_seq_len :=
    on_ctx (Ctx.on_base (_compute_seq_len num_draft_tokens num_draft_tokens_per_step None)) in
  let num_required_blocks := ceildiv current_seq_len (block_size (mgr w)) in
  ret (Z.max (num_required_blocks - len current_blocks) 0).

Definition allocate_new_blocks (num_draft_tokens num_draft_tokens_per_step : Z) : M world unit :=
  let! w := get in
  let rid := request_id w in
  let! replica_idx := on_mgr (_replica_of rid) in
  let! _ := on_mgr (pool_at replica_idx) in
  let total_kv_slots := total_num_blocks (mgr w) * block_size (mgr w) in
  let! s := on_ctx (Ctx.on_base TextContext.spec_decoding_state) in
  let! c := text in
  let seq_len := TokenBuffer.length (TextContext.tokens c)
    + len (draft_tokens_to_verify s) + len (maybe_accepted_draft_tokens s) in
  raise_if (seq_len >? total_kv_slots) InsufficientBlocksError;;
  on_mgr (count (Metrics.mk (TokenBuffer.active_length (TextContext.tokens c)) 0 0 0 0));;
  let! num_new_blocks := num_blocks_to_allocate num_draft_tokens num_draft_tokens_per_step in
  let! current_blocks := on_mgr (blocks_of rid) in
  py_assert (TokenBuffer.processed_length (TextContext.tokens c)
             <=? len current_blocks * block_size (mgr w));;
  let! pool := on_mgr (pool_at replica_idx) in
  raise_if (num_new_blocks >? BlockPool.num_free_blocks pool) InsufficientBlocksError;;
  for_each (zrange 0 num_new_blocks) (λ _,
    on_mgr (let! new_block := allocate_device_block replica_idx in
            let! l := blocks_of rid in
            put_blocks rid (l ++ [new_block]))).

Definition release_uncommitted_blocks : M world unit :=
  let! w := get in
  let rid := request_id w in
  let! replica_idx := on_mgr (_replica_of rid) in
  let! _ := on_mgr (pool_at replica_idx) in
  let! req_blocks := on_mgr (blocks_of rid) in
  let! committed_idx := on_mgr (committed_idx_of rid) in
  let num_committed_blocks := committed_idx / block_size (mgr w) in
  py_assert (num_committed_blocks <=? len req_blocks);;
  for_each (zrange 0 (len req_blocks - num_committed_blocks)) (λ _,
    on_mgr (let! l := blocks_of rid in
            let! block := of_option IndexError (last l) in
            put_blocks rid (removelast l);;
            on_pool replica_idx (BlockPool.free_block block)));;
  let! c := text in
  let delta := TokenBuffer.processed_length (TextContext.tokens c) - committed_idx in
  if delta >? 0 then on_ctx (Ctx.on_tokens (TokenBuffer.rewind_processing delta))
  else when (delta <? 0) (on_ctx (Ctx.on_tokens (TokenBuffer.skip_processing (- delta)))).

Definition reuse_blocks_from_prefix_cache : M world (Z * transfer) :=
  let! w := get in
  let rid := request_id w in
  let! _ := on_mgr (_replica_of rid) in
  on_mgr (assert_runtime_invariants rid);;
  let! c := text in
  if negb (enable_prefix_caching (mgr w)) || (TokenBuffer.active_length (TextContext.tokens c) =? 1)
  then ret (0, CompletedTransfer LOAD []) else
  let is_first_admission := TokenBuffer.processed_length (TextContext.tokens c) =? 0 in
  let! _ := on_mgr (blocks_of rid) in
  compute_hashes_for_request;;
  let! '(prefix_cache_blocks, load_event) := on_mgr (get_full_blocks_from_prefix_cache rid) in
  let record_hit x := when is_first_admission
    (on_ctx (Ctx.on_base (modify (TextContext.set_cached (Some x))))) in
  if len prefix_cache_blocks >? 0 then
    on_mgr (count (Metrics.mk 0 (len prefix_cache_blocks * block_size (mgr w)) 0 0 0));;
    release_uncommitted_blocks;;
    on_mgr (let! req_blocks := blocks_of rid in put_blocks rid (req_blocks ++ prefix_cache_blocks));;
    let! prev_committed_idx := on_mgr (committed_idx_of rid) in
    let new_committed_idx := prev_committed_idx + len prefix_cache_blocks * block_size (mgr w) in
    on_mgr (put_committed rid new_committed_idx);;
    let! c := text in
    let skip_amount := new_committed_idx - TokenBuffer.processed_length (TextContext.tokens c) in
    on_ctx (Ctx.on_tokens (TokenBuffer.skip_processing skip_amount));;
    let! c := text in
    py_assert (1 <=? TokenBuffer.active_length (TextContext.tokens c));;
    record_hit skip_amount;;
    ret (skip_amount, load_event)
  else
    record_hit 0;;
    ret (0, load_event).

End Manager.
End BlockManager.
