(* ===== verification/ManagerFacts.v ===== *)
(** * The block manager's invariant

    [PoolStep]: what one request's calls on a replica's pool do, seen by everybody
    else who holds blocks there. [Ownership]: the references the manager holds, and
    the invariant that ties them to the pools' reference counts. *)

From S2P Require Import Prelude Tokens FreeQueue Pool Context Hashing Connector Manager.

(** ** One party's steps on a pool *)
Module PoolStep.
Import BlockPool.

(** The caller trades the references [own] for [own'] while [others] are held by
    other parties: their committed blocks keep their hash, and their uncommitted
    blocks stay uncommitted and out of the caller's hands. *)
Record Step (p : t) (own others : gmultiset Z) (p' : t) (own' : gmultiset Z) : Prop := {
  step_inv : ∃ fl, Inv p' fl (own' ⊎ others);
  step_config : same_config p p';
  step_real : ∀ r, r ∈ own' → r ∈ own ∨ real p r;
  step_keep : ∀ r h, r ∈ others → cached_hash p r = Some h → cached_hash p' r = Some h;
  step_fresh : ∀ r, r ∈ others → r ∉ own → cached_hash p r = None →
               cached_hash p' r = None ∧ r ∉ own'
}.

Lemma massoc (X Y W : gmultiset Z) : X ⊎ Y ⊎ W = X ⊎ (Y ⊎ W).
Proof. by rewrite (assoc_L disj_union). Qed.

Lemma same_config_refl p : same_config p p.
Proof. done. Qed.
Lemma same_config_trans p1 p2 p3 : same_config p1 p2 → same_config p2 p3 → same_config p1 p3.
Proof. intros (?&?&?) (?&?&?). split_and!; congruence. Qed.

Lemma step_refl p fl own others : Inv p fl (own ⊎ others) → Step p own others p own.
Proof. intros HI. split; [eauto|done|auto|done|done]. Qed.

Lemma step_trans p1 p2 p3 own1 own2 own3 others :
  Step p1 own1 others p2 own2 → Step p2 own2 others p3 own3 → Step p1 own1 others p3 own3.
Proof.
  intros [HI1 Hc1 Hr1 Hk1 Hf1] [HI2 Hc2 Hr2 Hk2 Hf2]. split.
  - done.
  - by eapply same_config_trans.
  - intros r [Hr|Hr]%Hr2; [auto|right]. unfold real in *. by destruct Hc1 as [<- _].
  - auto.
  - intros r Ho Hn Hc. destruct (Hf1 r Ho Hn Hc) as [Hc' Hn']. auto.
Qed.

(** Part of what the caller holds can be set aside. *)
Lemma step_frame p own others extra p' own' :
  Step p own (extra ⊎ others) p' own' → (∀ r, r ∈ own' → r ∈ extra → r ∈ own ∨ cached_hash p r ≠ None) →
  Step p (extra ⊎ own) others p' (extra ⊎ own').
Proof.
  intros [[fl HI] Hc Hr Hk Hf] Hx. split.
  - exists fl. by replace (extra ⊎ own' ⊎ others) with (own' ⊎ (extra ⊎ others)) by multiset_solver.
  - done.
  - intros r [?|[?|?]%Hr]%gmultiset_elem_of_disj_union; [left|left|right]; multiset_solver.
  - intros r h Ho. apply Hk. multiset_solver.
  - intros r Ho Hn Hz. destruct (Hf r) as [Hz' Hn']; [multiset_solver..|done|]. split; [done|].
    multiset_solver.
Qed.

Lemma not_in_free p fl owned r : Inv p fl owned → r ∈ owned → r ∉ fl.
Proof.
  intros HI Ho Hf. pose proof (inv_free_real _ _ _ _ HI Hf) as Hr.
  destruct (inv_real _ _ _ _ HI Hr) as (b & b0 & _ & _ & _ & _ & _ & _ & _ & _ & _ & Hfl).
  apply Hfl in Hf. unfold refs in Hf. pose proof (proj1 (elem_of_multiplicity _ _) Ho). lia.
Qed.

Lemma cached_alter p p' f r x :
  view p' = alter f r (view p) → x ≠ r → cached_hash p' x = cached_hash p x.
Proof. intros Hv Hx. unfold cached_hash. by rewrite Hv, lookup_alter_ne. Qed.

Lemma alloc_step p fl own others r :
  Inv p (r :: fl) (own ⊎ others) →
  ∃ p', alloc_block p = (Ok (r, cached_hash p r), p') ∧ Step p own others p' ({[+ r +]} ⊎ own) ∧
    Inv p' fl ({[+ r +]} ⊎ own ⊎ others) ∧ cached_hash p' r = None ∧ r ∉ own ⊎ others ∧
    (∀ x, x ≠ r → cached_hash p' x = cached_hash p x).
Proof.
  intros HI. destruct (alloc_block_run _ _ _ _ HI) as (p' & E & HI' & Hr & Hz & Hv & _ & Hs).
  assert (r ∉ own ⊎ others) as Hn by (apply not_elem_of_multiplicity; unfold refs in Hz; lia).
  exists p'. split_and!; [done| |by rewrite massoc| |done|intros; by eapply cached_alter].
  2:{ unfold cached_hash. rewrite Hv, lookup_alter_eq. by destruct (view p !! r). }
  assert (∀ x, x ∈ others → cached_hash p' x = cached_hash p x) as Hx.
  { intros x Hx. eapply cached_alter; [done|]. intros ->. multiset_solver. }
  split.
  - exists fl. by rewrite massoc.
  - done.
  - intros x. rewrite gmultiset_elem_of_disj_union, gmultiset_elem_of_singleton. intros [->|?]; auto.
  - intros x h Hox Hh. by rewrite Hx.
  - intros x Hox Hnx Hh. rewrite Hx by done. split; [done|].
    rewrite gmultiset_elem_of_disj_union, gmultiset_elem_of_singleton. intros [->|?]; multiset_solver.
Qed.

Lemma touch_step p fl own others r :
  Inv p fl (own ⊎ others) → real p r → r ∈ own ∨ cached_hash p r ≠ None →
  ∃ p', touch r p = (Ok tt, p') ∧ Step p own others p' ({[+ r +]} ⊎ own) ∧
    (∀ x, cached_hash p' x = cached_hash p x) ∧ prefix_cache p' = prefix_cache p.
Proof.
  intros HI Hr Hor. destruct (touch_run _ _ _ _ HI Hr) as (p' & E & HI' & Hv & Hc & Hs).
  assert (∀ x, cached_hash p' x = cached_hash p x) as Hx.
  { intros x. by apply (cached_hash_alter _ _ _ _ x Hv). }
  exists p'. split_and!; [done| |done|done]. split.
  - eexists. by rewrite massoc.
  - done.
  - intros x. rewrite gmultiset_elem_of_disj_union, gmultiset_elem_of_singleton. intros [->|?]; auto.
  - intros x h _. by rewrite Hx.
  - intros x Ho Hn Hz. rewrite Hx. split; [done|].
    rewrite gmultiset_elem_of_disj_union, gmultiset_elem_of_singleton. naive_solver.
Qed.

Lemma free_step p fl own others r :
  Inv p fl ({[+ r +]} ⊎ own ⊎ others) → real p r →
  ∃ p', free_block r p = (Ok tt, p') ∧ Step p ({[+ r +]} ⊎ own) others p' own ∧
    Inv p' (if decide (refs r (own ⊎ others) = 0) then fl ++ [r] else fl) (own ⊎ others) ∧
    (∀ x, cached_hash p' x = cached_hash p x) ∧ prefix_cache p' = prefix_cache p.
Proof.
  intros HI Hr. rewrite massoc in HI.
  destruct (free_block_run _ _ _ _ HI Hr) as (p' & E & HI' & Hv & Hc & Hs).
  assert (∀ x, cached_hash p' x = cached_hash p x) as Hx.
  { intros x. by apply (cached_hash_alter _ _ _ _ x Hv). }
  exists p'. split_and!; [done| |done|done|done]. split.
  - eauto.
  - done.
  - intros x ?. left. multiset_solver.
  - intros x h _. by rewrite Hx.
  - intros x Ho Hn Hz. rewrite Hx. split; [done|]. multiset_solver.
Qed.

Lemma commit_step p fl own others h r :
  Inv p fl (own ⊎ others) → real p r → r ∈ own → cached_hash p r = None → prefix_cache p !! h = None →
  ∃ p', commit_into_prefix_cache h r p = (Ok tt, p') ∧ Step p own others p' own ∧
    Inv p' fl (own ⊎ others) ∧
    (∀ x, cached_hash p' x = if decide (x = r) then Some h else cached_hash p x) ∧
    prefix_cache p' = <[h := r]> (prefix_cache p).
Proof.
  intros HI Hr Ho Hz Hh. destruct (commit_run _ _ _ _ _ HI Hr Hz Hh) as (p' & E & HI' & Hv & Hc & Hs).
  assert (∀ x, cached_hash p' x = if decide (x = r) then Some h else cached_hash p x) as Hx.
  { intros x. case_decide; [subst|by eapply cached_alter].
    unfold cached_hash. rewrite Hv, lookup_alter_eq.
    destruct (inv_real _ _ _ _ HI Hr) as (b & b0 & -> & _). done. }
  exists p'. split_and!; [done| |done|done|done]. split.
  - eauto.
  - done.
  - auto.
  - intros x h' _. rewrite Hx. case_decide; [|done]. congruence.
  - intros x _ Hn Hc'. rewrite Hx, decide_False by congruence. done.
Qed.

Lemma get_or_commit_step p fl own others h r :
  Inv p fl ({[+ r +]} ⊎ own ⊎ others) → real p r → cached_hash p r = None →
  ∃ o p', get_or_commit_into_prefix_cache h r p = (Ok o, p') ∧
    let r' := default r o in
    Step p ({[+ r +]} ⊎ own) others p' ({[+ r' +]} ⊎ own) ∧
    cached_hash p' r' = Some h ∧ o = prefix_cache p !! h ∧
    (∀ x, x ≠ r → cached_hash p' x = cached_hash p x).
Proof.
  intros HI Hr Hz. destruct (prefix_cache p !! h) as [c|] eqn:Eh.
  - rewrite massoc in HI.
    assert (cached_hash p c = Some h) as Hch.
    { apply (inv_cache _ _ _ HI) in Eh. unfold cached_hash. destruct (view p !! c); by simplify_eq/=. }
    assert (c ≠ r) as Hne by congruence.
    destruct (get_or_commit_hit _ _ _ _ _ _ HI Hr Eh Hne Hz) as (p' & fl' & E & HI' & _ & _ & Hs & Hx).
    exists (Some c), p'. simpl. split_and!; [done| |by rewrite Hx|done|by intros; rewrite Hx].
    pose proof (inv_cached_real _ _ _ _ _ HI Eh) as Hcr. split.
    + eexists. by rewrite massoc.
    + done.
    + intros x. rewrite gmultiset_elem_of_disj_union, gmultiset_elem_of_singleton.
      intros [->|?]; [by right|left; multiset_solver].
    + intros x h' _. by rewrite Hx.
    + intros x _ Hn Hxz. rewrite Hx. split; [done|].
      rewrite gmultiset_elem_of_disj_union, gmultiset_elem_of_singleton. intros [->|?]; [congruence|].
      multiset_solver.
  - destruct (commit_step p fl ({[+ r +]} ⊎ own) others h r) as (p' & E & HS & HI' & Hx & _);
      [done|done|multiset_solver|done|done|].
    exists None, p'. simpl. split_and!; [|done|by rewrite Hx, decide_True|done|].
    + unfold get_or_commit_into_prefix_cache. unfold bind at 1, get. rewrite Eh. by mstep E.
    + intros x Hne. by rewrite Hx, decide_False.
Qed.

Lemma cached_spec p fl owned h r :
  Inv p fl owned → cached_hash p r = Some h ↔ prefix_cache p !! h = Some r.
Proof.
  intros HI. rewrite (inv_cache _ _ _ HI h r). unfold cached_hash.
  destruct (view p !! r) as [b|]; simpl; [|done]. split; [by intros ->|by intros [= ->]].
Qed.

Lemma reset_step p fl owned :
  Inv p fl owned →
  ∃ p', reset_prefix_cache p = (Ok tt, p') ∧ Step p ∅ owned p' ∅ ∧ Inv p' fl owned.
Proof.
  intros HI. destruct (reset_prefix_cache_run _ _ _ HI) as (p' & E & HI' & Hc & Hs).
  exists p'. split_and!; [done| |done].
  assert (∀ r h, r ∈ owned → cached_hash p' r = Some h ↔ cached_hash p r = Some h) as Hx.
  { intros r h Ho. rewrite (cached_spec _ _ _ _ _ HI), (cached_spec _ _ _ _ _ HI'), Hc.
    pose proof (proj1 (elem_of_multiplicity _ _) Ho). unfold refs.
    split; [by intros [? _]|]. intros ?. split; [done|]. lia. }
  split.
  - exists fl. by rewrite left_id by apply _.
  - done.
  - auto.
  - intros r h Ho Hh. by apply Hx.
  - intros r Ho _ Hz. split; [|multiset_solver]. destruct (cached_hash p' r) as [h|] eqn:Eh; [|done].
    by rewrite (Hx _ _ Ho), Hz in Eh.
Qed.

End PoolStep.

(** ** The references the manager holds *)
Module Ownership.
Import BlockManager PoolStep.

Abbreviation lsd l := (list_to_set_disj l : gmultiset Z).

Lemma elem_of_lsd r l : r ∈ lsd l ↔ r ∈ l.
Proof. by rewrite elem_of_list_to_set_disj. Qed.
Lemma lsd_snoc l r : lsd (l ++ [r]) = {[+ r +]} ⊎ lsd l.
Proof.
  rewrite list_to_set_disj_app, (comm_L disj_union). f_equal. simpl. by rewrite right_id_L by apply _.
Qed.

(** The blocks of the requests on replica [i], with multiplicity. *)
Definition req_owned (reps : gmap Z Z) (bl : gmap Z (list Z)) (i : Z) : gmultiset Z :=
  map_fold (λ rid l acc, (if decide (reps !! rid = Some i) then lsd l else ∅) ⊎ acc) ∅
    (filter (λ e, e.2 ≠ []) bl).

Lemma req_owned_split reps bl rid i :
  req_owned reps bl i =
  (if decide (reps !! rid = Some i) then lsd (default [] (bl !! rid)) else ∅) ⊎
    req_owned reps (delete rid bl) i.
Proof.
  unfold req_owned. destruct (bl !! rid) as [l|] eqn:El; simpl.
  2:{ rewrite delete_id by done. case_decide; by rewrite left_id_L by apply _. }
  destruct (decide (l = [])) as [->|Hl].
  - rewrite map_filter_delete, delete_id.
    2:{ apply map_lookup_filter_None. right. intros x Hx Hn. by simplify_eq/=. }
    simpl. case_decide; by rewrite left_id_L by apply _.
  - rewrite <- (insert_delete_id bl rid l El) at 1.
    rewrite map_filter_insert_True by done.
    erewrite map_fold_insert_L; [reflexivity| |].
    + intros ? ? ? ? ?. multiset_solver.
    + apply map_lookup_filter_None. left. apply lookup_delete_eq.
Qed.

Lemma req_owned_ext reps reps' bl bl' i :
  (∀ rid, default [] (bl !! rid) = default [] (bl' !! rid)) →
  (∀ rid, default [] (bl !! rid) ≠ [] → reps !! rid = Some i ↔ reps' !! rid = Some i) →
  req_owned reps bl i = req_owned reps' bl' i.
Proof.
  intros Hbl Hreps. unfold req_owned.
  assert (filter (λ e : Z * list Z, e.2 ≠ []) bl' = filter (λ e, e.2 ≠ []) bl) as ->.
  { apply map_eq. intros rid. specialize (Hbl rid). rewrite !map_lookup_filter.
    destruct (bl !! rid) as [l|], (bl' !! rid) as [l'|]; simplify_eq/=; try done;
      destruct (decide _); simpl; try done; naive_solver. }
  rewrite !map_fold_foldr.
  assert (∀ e, e ∈ map_to_list (filter (λ e : Z * list Z, e.2 ≠ []) bl) →
    reps !! e.1 = Some i ↔ reps' !! e.1 = Some i) as He.
  { intros [rid l] [Hl Hne]%elem_of_map_to_list%map_lookup_filter_Some. apply Hreps. simpl. by rewrite Hl. }
  induction (map_to_list _) as [|[rid l] L IH]; [done|]. simpl.
  rewrite IH by (intros; apply He; by right). f_equal.
  assert (reps !! rid = Some i ↔ reps' !! rid = Some i) by (apply (He (rid, l)); left).
  repeat case_decide; tauto.
Qed.

Section Owned.
Context `{Digest} {B : Backend} `{KVConnector} `{Driver}.
Implicit Types m : t.

(** What the dictionaries answer, defaults included. *)
Definition blks m (rid : Z) : list Z := default [] (req_to_blocks m !! rid).
Definition hshs m (rid : Z) : list bytes := default [] (req_to_hashes m !! rid).
Definition cidx m (rid : Z) : Z := default 0 (req_to_committed_idx m !! rid).

Definition transfers_at m (i : Z) : list _PendingTransfer :=
  if decide (0 ≤ i) then default [] (_pending_transfers m !! Z.to_nat i) else [].
Definition pinned (l : list _PendingTransfer) : gmultiset Z :=
  foldr (λ p acc, lsd (blocks p) ⊎ acc) ∅ l.

(** Every reference into replica [i]'s pool. *)
Definition owned m (i : Z) : gmultiset Z :=
  req_owned (req_to_replica m) (req_to_blocks m) i ⊎ pinned (transfers_at m i).

(** ... other than request [rid]'s *)
Definition rest m (rid i : Z) : gmultiset Z :=
  req_owned (req_to_replica m) (delete rid (req_to_blocks m)) i ⊎ pinned (transfers_at m i).

Lemma owned_split m rid i :
  req_to_replica m !! rid = Some i → owned m i = lsd (blks m rid) ⊎ rest m rid i.
Proof.
  intros Hr. unfold owned, rest, blks. rewrite (req_owned_split _ _ rid). rewrite decide_True by done.
  by rewrite massoc.
Qed.

Lemma owned_elsewhere m rid i :
  req_to_replica m !! rid ≠ Some i → owned m i = rest m rid i.
Proof.
  intros Hr. unfold owned, rest. rewrite (req_owned_split _ _ rid). rewrite decide_False by done.
  by rewrite (left_id_L ∅ disj_union).
Qed.

Lemma owned_disjoint m rid rid' i :
  rid ≠ rid' → req_to_replica m !! rid' = Some i → lsd (blks m rid') ⊆ rest m rid i.
Proof.
  intros Hne Hr. unfold rest, blks. rewrite (req_owned_split _ _ rid'), decide_True by done.
  rewrite lookup_delete_ne by done. multiset_solver.
Qed.

(** Block [r] is held once, and carries no hash. *)
Definition private (p : BlockPool.t) (holders : gmultiset Z) (r : Z) : Prop :=
  multiplicity r holders = 1%nat ∧ BlockPool.cached_hash p r = None.

(** An onload's hashes match its blocks. *)
Definition transfers_ok m : Prop :=
  ∀ i tr hs, tr ∈ transfers_at m i → commit_hashes tr = Some hs → length hs = length (blocks tr).

(** The manager's invariant: the pools' counts are the manager's references, and
    the blocks past a request's committed prefix are its own and uncommitted. *)
Record Inv m : Prop := {
  inv_block_size : 0 < block_size m;
  inv_total : 0 ≤ total_num_blocks m;
  inv_pools_len : len (device_block_pools m) = num_replicas m;
  inv_offloads_len : len (_pending_offloads m) = num_replicas m;
  inv_transfers_len : len (_pending_transfers m) = num_replicas m;
  inv_transfers : transfers_ok m;
  inv_pool : ∀ i, 0 ≤ i < num_replicas m → ∃ p fl,
    device_block_pools m !! Z.to_nat i = Some p ∧
    BlockPool.total_num_blocks p = total_num_blocks m ∧ BlockPool.Inv p fl (owned m i);
  inv_real : ∀ i r, r ∈ owned m i → 0 ≤ r < total_num_blocks m;
  inv_replica : ∀ rid i, req_to_replica m !! rid = Some i → 0 ≤ i < num_replicas m;
  inv_unclaimed : ∀ rid, req_to_replica m !! rid = None → blks m rid = [] ∧ cidx m rid = 0;
  inv_committed : ∀ rid, ∃ k, cidx m rid = k * block_size m ∧ 0 ≤ k ≤ len (blks m rid);
  inv_private : ∀ rid i p r, req_to_replica m !! rid = Some i →
    device_block_pools m !! Z.to_nat i = Some p →
    r ∈ drop (Z.to_nat (cidx m rid / block_size m)) (blks m rid) → private p (owned m i) r
}.

(** *** Running methods *)

Lemma on_pool_run {A} i (f : M BlockPool.t A) m p r p' :
  0 ≤ i → device_block_pools m !! Z.to_nat i = Some p → f p = (r, p') →
  on_pool i f m = (r, set_pools (<[Z.to_nat i := p']> (device_block_pools m)) m).
Proof.
  intros Hi Hp E. unfold on_pool. pose proof (lookup_lt_Some _ _ _ Hp) as Hlt.
  rewrite py_index_inside by (unfold len; lia). rewrite Hp, E. unfold position.
  by replace (i <? 0) with false by lia.
Qed.

Lemma set_pools_same m : set_pools (device_block_pools m) m = m.
Proof. by destruct m. Qed.

Lemma pool_at_run i m p :
  0 ≤ i → device_block_pools m !! Z.to_nat i = Some p → pool_at i m = (Ok p, m).
Proof.
  intros Hi Hp. unfold pool_at. rewrite (on_pool_run _ _ _ _ (Ok p) p Hi Hp) by done.
  by rewrite list_insert_id, set_pools_same by done.
Qed.

Lemma block_at_run i m p r b :
  0 ≤ i → device_block_pools m !! Z.to_nat i = Some p → BlockPool.pool p !! r = Some b →
  on_pool i (BlockPool.block r) m = (Ok b, m).
Proof.
  intros Hi Hp Hb. rewrite (on_pool_run _ _ _ _ (Ok b) p Hi Hp) by (by apply BlockPool.block_run).
  by rewrite list_insert_id, set_pools_same by done.
Qed.

(** *** Changes that the invariant does not see *)

Definition config m :=
  (total_num_blocks m, block_size m, num_replicas m, kv_hash_algo m, kv_hash_seed m,
   enable_prefix_caching m, _replica_kv_memory m, _cross_replica_copy_enabled m,
   enable_runtime_checks m, _only_use_kv_connector_last_level_cache m).

(** The requests' dictionaries answer the same. *)
Record Near m m' : Prop := {
  near_config : config m' = config m;
  near_replica : req_to_replica m' = req_to_replica m;
  near_blks : ∀ rid, blks m' rid = blks m rid;
  near_hshs : ∀ rid, hshs m' rid = hshs m rid;
  near_cidx : ∀ rid, cidx m' rid = cidx m rid;
  near_offloads : _pending_offloads m' = _pending_offloads m
}.

(** Only counters, device memory and defaulted dictionary entries changed. *)
Record Quiet m m' : Prop := {
  quiet_near : Near m m';
  quiet_pools : device_block_pools m' = device_block_pools m;
  quiet_transfers : _pending_transfers m' = _pending_transfers m;
  quiet_connector : connector m' = connector m
}.

#[export] Instance near_preorder : PreOrder Near.
Proof.
  split; [done|]. intros m1 m2 m3 [] []. split; intros; etrans; eauto.
Qed.
#[export] Instance quiet_preorder : PreOrder Quiet.
Proof.
  split; [done|]. intros m1 m2 m3 [N1 ???] [N2 ???]. split; [by etrans|congruence..].
Qed.

Lemma near_bs_config m m' : config m' = config m → block_size m' = block_size m.
Proof. unfold config. intros Hc. by injection Hc. Qed.
Lemma near_n_config m m' : config m' = config m → num_replicas m' = num_replicas m.
Proof. unfold config. intros Hc. by injection Hc. Qed.
Lemma near_total m m' : Near m m' → total_num_blocks m' = total_num_blocks m.
Proof. intros [Hc _ _ _ _ _]. unfold config in Hc. by injection Hc. Qed.
Lemma near_bs m m' : Near m m' → block_size m' = block_size m.
Proof. intros [Hc _ _ _ _ _]. unfold config in Hc. by injection Hc. Qed.
Lemma near_n m m' : Near m m' → num_replicas m' = num_replicas m.
Proof. intros [Hc _ _ _ _ _]. unfold config in Hc. by injection Hc. Qed.
Lemma near_caching m m' : Near m m' → enable_prefix_caching m' = enable_prefix_caching m.
Proof. intros [Hc _ _ _ _ _]. unfold config in Hc. by injection Hc. Qed.

Lemma blocks_of_run rid m : ∃ m', blocks_of rid m = (Ok (blks m rid), m') ∧ Quiet m m'.
Proof.
  unfold blocks_of, blks. destruct (_ !! rid) as [l|] eqn:E; eexists; (split; [done|]); [done|].
  split; [|done..]. split; try done. intros rid'. unfold blks. simpl.
  destruct (decide (rid' = rid)) as [->|Hne].
  - by rewrite lookup_insert_eq, E.
  - by rewrite lookup_insert_ne.
Qed.
Lemma hashes_of_run rid m : ∃ m', hashes_of rid m = (Ok (hshs m rid), m') ∧ Quiet m m'.
Proof.
  unfold hashes_of, hshs. destruct (_ !! rid) as [l|] eqn:E; eexists; (split; [done|]); [done|].
  split; [|done..]. split; try done. intros rid'. unfold hshs. simpl.
  destruct (decide (rid' = rid)) as [->|Hne].
  - by rewrite lookup_insert_eq, E.
  - by rewrite lookup_insert_ne.
Qed.
Lemma committed_idx_of_run rid m : ∃ m', committed_idx_of rid m = (Ok (cidx m rid), m') ∧ Quiet m m'.
Proof.
  unfold committed_idx_of, cidx. destruct (_ !! rid) as [l|] eqn:E; eexists; (split; [done|]); [done|].
  split; [|done..]. split; try done. intros rid'. unfold cidx. simpl.
  destruct (decide (rid' = rid)) as [->|Hne].
  - by rewrite lookup_insert_eq, E.
  - by rewrite lookup_insert_ne.
Qed.

Lemma replica_of_run rid i m : req_to_replica m !! rid = Some i → _replica_of rid m = (Ok i, m).
Proof. intros E. unfold _replica_of. run_unfold. by rewrite E. Qed.

Lemma blks_put m rid l rid' :
  blks (set_blocks (<[rid := l]> (req_to_blocks m)) m) rid' = if decide (rid' = rid) then l else blks m rid'.
Proof.
  unfold blks. simpl. case_decide; [subst; by rewrite lookup_insert_eq|by rewrite lookup_insert_ne].
Qed.
Lemma cidx_put m rid k rid' :
  cidx (set_committed (<[rid := k]> (req_to_committed_idx m)) m) rid' =
  if decide (rid' = rid) then k else cidx m rid'.
Proof.
  unfold cidx. simpl. case_decide; [subst; by rewrite lookup_insert_eq|by rewrite lookup_insert_ne].
Qed.

(** What other requests and the transfers hold depends on their entries only. *)
Lemma rest_ext m m' rid i :
  (∀ rid', rid' ≠ rid → blks m' rid' = blks m rid') →
  (∀ rid', rid' ≠ rid → req_to_replica m' !! rid' = req_to_replica m !! rid') →
  pinned (transfers_at m' i) = pinned (transfers_at m i) → rest m' rid i = rest m rid i.
Proof.
  intros Hb Hr Ht. unfold rest. rewrite Ht. f_equal. unfold blks in Hb.
  apply req_owned_ext; intros rid'; destruct (decide (rid' = rid)) as [->|Hne].
  - by rewrite !lookup_delete_eq.
  - rewrite !lookup_delete_ne by done. by apply Hb.
  - by rewrite lookup_delete_eq.
  - intros _. by rewrite Hr.
Qed.

Lemma owned_near m m' i : Near m m' → _pending_transfers m' = _pending_transfers m →
  owned m' i = owned m i.
Proof.
  intros [] Ht. unfold owned, transfers_at. rewrite Ht. f_equal. apply req_owned_ext; [done|].
  intros rid _. by rewrite near_replica0.
Qed.

(** A request's blocks past its committed prefix. *)
Definition tail m rid : list Z := drop (Z.to_nat (cidx m rid / block_size m)) (blks m rid).

(** What the invariant asks of one request. *)
Record request_ok m rid : Prop := {
  ok_replica : ∀ i, req_to_replica m !! rid = Some i → 0 ≤ i < num_replicas m;
  ok_unclaimed : req_to_replica m !! rid = None → blks m rid = [] ∧ cidx m rid = 0;
  ok_committed : ∃ k, cidx m rid = k * block_size m ∧ 0 ≤ k ≤ len (blks m rid);
  ok_private : ∀ i p r, req_to_replica m !! rid = Some i →
    device_block_pools m !! Z.to_nat i = Some p → r ∈ tail m rid → private p (owned m i) r
}.

Lemma inv_request m rid : Inv m → request_ok m rid.
Proof.
  intros []. split; [eauto..|]. intros i p r Hi Hp Hr. eapply inv_private0; [exact Hi|exact Hp|exact Hr].
Qed.

Lemma tail_sub m rid r : r ∈ tail m rid → r ∈ blks m rid.
Proof. intros Hr. eapply elem_of_sublist; [exact Hr|]. apply sublist_drop. Qed.

Lemma private_elsewhere p own others r :
  private p (own ⊎ others) r → r ∈ others → r ∉ own.
Proof.
  intros [Hm _] Ho. rewrite multiplicity_disj_union in Hm. apply not_elem_of_multiplicity.
  pose proof (proj1 (elem_of_multiplicity _ _) Ho). lia.
Qed.

(** One party changed one replica's pool: the rest of the invariant carries over. *)
Lemma inv_replace m m' i p p' own own' others (mine : Z → Prop) :
  Inv m → 0 ≤ i < num_replicas m → device_block_pools m !! Z.to_nat i = Some p →
  owned m i = own ⊎ others → Step p own others p' own' →
  config m' = config m → len (_pending_offloads m') = len (_pending_offloads m) →
  len (_pending_transfers m') = len (_pending_transfers m) → transfers_ok m' →
  device_block_pools m' = <[Z.to_nat i := p']> (device_block_pools m) →
  owned m' i = own' ⊎ others → (∀ j, j ≠ i → owned m' j = owned m j) →
  (∀ rid, ¬ mine rid → req_to_replica m' !! rid = req_to_replica m !! rid ∧
    blks m' rid = blks m rid ∧ cidx m' rid = cidx m rid) →
  (∀ rid r, ¬ mine rid → req_to_replica m !! rid = Some i → r ∈ blks m rid → r ∈ others) →
  (∀ rid, mine rid → request_ok m' rid) → (∀ rid, Decision (mine rid)) →
  Inv m'.
Proof.
  intros HI Hi Hp Hown HS Hc Hol Htl Htok Hpools Hown' Hother Hsame Hdisj Hmine Hdec.
  assert (total_num_blocks m' = total_num_blocks m ∧ block_size m' = block_size m ∧
          num_replicas m' = num_replicas m) as (Ht & Hb & Hn).
  { unfold config in Hc. by injection Hc. }
  assert (∀ rid, request_ok m' rid) as Hreq.
  { intros rid. destruct (Hdec rid) as [Hm|Hm]; [by apply Hmine|].
    destruct (Hsame rid Hm) as (Er & Eb & Ec). pose proof (inv_request m rid HI) as Hok.
    split; unfold tail; rewrite ?Er, ?Eb, ?Ec, ?Hn, ?Hb; [apply Hok..|].
    intros j q r Hj Hq Hr. destruct (decide (j = i)) as [->|Hne].
    - rewrite Hpools in Hq. rewrite list_lookup_insert_eq in Hq by (by eapply lookup_lt_Some).
      injection Hq as <-. pose proof (ok_private _ _ Hok i p r Hj Hp Hr) as Hpr.
      rewrite Hown in Hpr. pose proof (Hdisj rid r Hm Hj (tail_sub _ _ _ Hr)) as Ho.
      pose proof (private_elsewhere _ _ _ _ Hpr Ho) as Hno. destruct Hpr as [Hmu Hz].
      destruct (step_fresh _ _ _ _ _ HS r Ho Hno Hz) as [Hz' Hn']. split; [|done].
      rewrite Hown', multiplicity_disj_union in *. apply not_elem_of_multiplicity in Hn', Hno. lia.
    - assert (0 ≤ j) by (pose proof (inv_replica _ HI _ _ Hj); lia).
      rewrite Hpools, list_lookup_insert_ne in Hq by lia. rewrite Hother by done.
      by apply (ok_private _ _ Hok j q r Hj Hq). }
  split.
  - rewrite Hb. apply HI.
  - rewrite Ht. apply HI.
  - rewrite Hpools, Hn. unfold len. rewrite length_insert. apply HI.
  - rewrite Hol, Hn. apply HI.
  - rewrite Htl, Hn. apply HI.
  - done.
  - intros j Hj. rewrite Hn in Hj. rewrite Ht. destruct (decide (j = i)) as [->|Hne].
    + destruct (step_inv _ _ _ _ _ HS) as [fl Hfl]. exists p', fl.
      rewrite Hpools, list_lookup_insert_eq by (by eapply lookup_lt_Some). rewrite Hown'.
      split_and!; [done| |done]. destruct (step_config _ _ _ _ _ HS) as [-> _].
      destruct (inv_pool _ HI i Hi) as (q & _ & Hq & Hqt & _). congruence.
    + rewrite Hpools, list_lookup_insert_ne, Hother by lia. by apply HI.
  - intros j r Hr. rewrite Ht. destruct (decide (j = i)) as [->|Hne].
    + rewrite Hown' in Hr. apply gmultiset_elem_of_disj_union in Hr as [Hr|Hr].
      * apply (step_real _ _ _ _ _ HS) in Hr as [Hr|Hr].
        -- apply (inv_real _ HI i). rewrite Hown. multiset_solver.
        -- destruct (inv_pool _ HI i Hi) as (q & _ & Hq & Hqt & _). unfold BlockPool.real in Hr.
           assert (q = p) as -> by congruence. lia.
      * apply (inv_real _ HI i). rewrite Hown. multiset_solver.
    + rewrite Hother in Hr by done. by apply (inv_real _ HI j).
  - intros rid. apply (ok_replica _ _ (Hreq rid)).
  - intros rid. apply (ok_unclaimed _ _ (Hreq rid)).
  - intros rid. apply (ok_committed _ _ (Hreq rid)).
  - intros rid j q r. apply (ok_private _ _ (Hreq rid)).
Qed.

Lemma inv_quiet m m' : Inv m → Quiet m m' → Inv m'.
Proof.
  intros HI [N Hp Ht _]. pose proof (near_total _ _ N) as Et. pose proof (near_bs _ _ N) as Eb.
  pose proof (near_n _ _ N) as En.
  assert (∀ i, owned m' i = owned m i) as Ho by (intros; by apply owned_near).
  destruct N as [_ Nr Nb _ Nc No].
  split; rewrite ?Et, ?Eb, ?En, ?Hp, ?Ht, ?No; try apply HI.
  - intros i tr hs. unfold transfers_at. rewrite Ht. apply (inv_transfers _ HI).
  - intros i Hi. rewrite Ho. by apply HI.
  - intros i r. rewrite Ho. apply HI.
  - intros rid i. rewrite Nr. apply HI.
  - intros rid. rewrite Nr, Nb, Nc. apply HI.
  - intros rid. rewrite Nb, Nc. apply HI.
  - intros rid i p r. rewrite Nr, Nb, Nc, Ho. apply HI.
Qed.

(** What is left of the replicas' accounts when one request's entries change. *)
Lemma owned_update m m' rid i :
  (∀ rid', rid' ≠ rid → blks m' rid' = blks m rid') →
  (∀ rid', rid' ≠ rid → req_to_replica m' !! rid' = req_to_replica m !! rid') →
  _pending_transfers m' = _pending_transfers m →
  rest m' rid i = rest m rid i.
Proof. intros Hb Hr Ht. apply rest_ext; [done..|]. unfold transfers_at. by rewrite Ht. Qed.

(** A request on replica [i] trades [own], part of its blocks, for [own']. *)
Lemma inv_update_request m m' rid i p p' own own' keep :
  Inv m → req_to_replica m !! rid = Some i → device_block_pools m !! Z.to_nat i = Some p →
  lsd (blks m rid) = own ⊎ keep → Step p own (keep ⊎ rest m rid i) p' own' →
  config m' = config m → len (_pending_offloads m') = len (_pending_offloads m) →
  _pending_transfers m' = _pending_transfers m →
  device_block_pools m' = <[Z.to_nat i := p']> (device_block_pools m) →
  (∀ rid', rid' ≠ rid → req_to_replica m' !! rid' = req_to_replica m !! rid' ∧
    blks m' rid' = blks m rid' ∧ cidx m' rid' = cidx m rid') →
  req_to_replica m' !! rid = Some i ∨ req_to_replica m' !! rid = None →
  (if decide (req_to_replica m' !! rid = Some i) then lsd (blks m' rid) else ∅) = own' ⊎ keep →
  request_ok m' rid → Inv m'.
Proof.
  intros HI Hr Hp Hmine HS Hc Hol Ht Hpools Hsame Hr' Hmine' Hok.
  assert (∀ j, rest m' rid j = rest m rid j) as Hrest.
  { intros j. apply owned_update; [| |done]; intros; by apply Hsame. }
  assert (owned m' i = own' ⊎ (keep ⊎ rest m rid i)) as Ho.
  { rewrite <- Hrest, <- massoc, <- Hmine'. case_decide as Hd.
    - by apply owned_split.
    - rewrite (left_id_L ∅ disj_union). by apply owned_elsewhere. }
  apply (inv_replace m m' i p p' own own' (keep ⊎ rest m rid i) (λ x, x = rid)); try done.
  - by apply (inv_replica _ HI rid).
  - rewrite (owned_split m rid i Hr), Hmine. by rewrite massoc.
  - by rewrite Ht.
  - intros j tr hs. unfold transfers_at. rewrite Ht. apply (inv_transfers _ HI).
  - intros j Hj. rewrite (owned_elsewhere m rid j) by congruence.
    rewrite (owned_elsewhere m' rid j); [apply Hrest|]. destruct Hr' as [->| ->]; congruence.
  - intros rid' x Hne Hrx Hx. apply gmultiset_elem_of_disj_union. right.
    apply gmultiset_elem_of_subseteq with (lsd (blks m rid')); [by apply elem_of_lsd|].
    by apply owned_disjoint.
  - by intros ? ->.
  - intros x. apply _.
Qed.

(** *** Allocation *)

(** [rid], on replica [i], gained the blocks [news] and nothing else changed hands. *)
Record Grown m m' (rid i : Z) (news : list Z) : Prop := {
  grown_config : config m' = config m;
  grown_replica : req_to_replica m' = req_to_replica m;
  grown_blks : ∀ rid', blks m' rid' = if decide (rid' = rid) then blks m rid ++ news else blks m rid';
  grown_hshs : ∀ rid', hshs m' rid' = hshs m rid';
  grown_cidx : ∀ rid', cidx m' rid' = cidx m rid';
  grown_offloads : _pending_offloads m' = _pending_offloads m;
  grown_transfers : _pending_transfers m' = _pending_transfers m;
  grown_connector : connector m' = connector m;
  grown_pools : ∀ j, j ≠ Z.to_nat i → device_block_pools m' !! j = device_block_pools m !! j
}.

Lemma grown_refl m m' rid i : Quiet m m' → Grown m m' rid i [].
Proof.
  intros [[Nc Nr Nb Nh Ni No] Hp Ht Hcn].
  split; [exact Nc|exact Nr| |exact Nh|exact Ni|exact No|exact Ht|exact Hcn|by rewrite Hp].
  intros rid'. case_decide; subst; by rewrite ?app_nil_r.
Qed.

Lemma grown_trans m1 m2 m3 rid i l1 l2 :
  Grown m1 m2 rid i l1 → Grown m2 m3 rid i l2 → Grown m1 m3 rid i (l1 ++ l2).
Proof.
  intros [A1 A2 A3 A4 A5 A6 A7 A8 A9] [B1 B2 B3 B4 B5 B6 B7 B8 B9].
  split; [by etrans|by etrans| |intros; by rewrite B4|intros; by rewrite B5|by etrans|by etrans|by etrans|].
  - intros rid'. rewrite B3. case_decide as Hd; [|by rewrite A3, decide_False].
    by rewrite A3, decide_True, app_assoc.
  - intros j Hj. by rewrite B9, A9.
Qed.

Lemma allocate_device_block_run i m p p' r h :
  0 ≤ i → device_block_pools m !! Z.to_nat i = Some p → BlockPool.alloc_block p = (Ok (r, h), p') →
  allocate_device_block i m =
    (Ok r, set_pools (<[Z.to_nat i := p']> (device_block_pools m)) m).
Proof.
  intros Hi Hp E. unfold allocate_device_block.
  by rewrite (bind_run _ _ _ _ _ (on_pool_run _ _ _ _ _ _ Hi Hp E)).
Qed.

Definition alloc_one (rid i : Z) : M t unit :=
  let! new_block := allocate_device_block i in
  let! l := blocks_of rid in
  put_blocks rid (l ++ [new_block]).

Lemma tail_grown m m' rid i l : Inv m → Grown m m' rid i l → tail m' rid = tail m rid ++ l.
Proof.
  intros HI HG. unfold tail. rewrite (grown_cidx _ _ _ _ _ HG), (grown_blks _ _ _ _ _ HG), decide_True by done.
  rewrite (near_bs_config m m') by apply (grown_config _ _ _ _ _ HG).
  destruct (inv_committed _ HI rid) as (k & -> & Hk).
  rewrite Z.div_mul by (pose proof (inv_block_size _ HI); lia).
  apply drop_app_le. unfold len in Hk. lia.
Qed.

Lemma grown_ok m m' rid i r p p' :
  Inv m → Grown m m' rid i [r] → req_to_replica m !! rid = Some i →
  device_block_pools m !! Z.to_nat i = Some p → device_block_pools m' !! Z.to_nat i = Some p' →
  owned m' i = {[+ r +]} ⊎ owned m i → r ∉ owned m i → BlockPool.cached_hash p' r = None →
  (∀ x, x ≠ r → BlockPool.cached_hash p' x = BlockPool.cached_hash p x) →
  request_ok m' rid.
Proof.
  intros HI HG Hr Hp Hp' Ho Hnew Hz Hsm. pose proof (inv_request m rid HI) as Hok.
  pose proof (tail_grown _ _ _ _ _ HI HG) as Htail.
  pose proof (near_bs_config m m' (grown_config _ _ _ _ _ HG)) as Eb.
  pose proof (near_n_config m m' (grown_config _ _ _ _ _ HG)) as En.
  split; rewrite ?(grown_replica _ _ _ _ _ HG), ?(grown_cidx _ _ _ _ _ HG), ?Eb, ?En; [apply Hok|congruence| |].
  - destruct (ok_committed _ _ Hok) as (k & Ek & Hk). exists k. split; [done|].
    rewrite (grown_blks _ _ _ _ _ HG), decide_True, len_app by done. pose proof (len_nonneg [r]). lia.
  - intros j q x Hj Hq Hx. assert (j = i) as -> by congruence. assert (q = p') as -> by congruence.
    rewrite Htail in Hx. unfold private. rewrite Ho, multiplicity_disj_union.
    apply elem_of_app in Hx as [Hx|Hx%list_elem_of_singleton].
    + destruct (ok_private _ _ Hok i p x Hr Hp Hx) as [Hm Hc].
      assert (x ≠ r) as Hne by (intros ->; apply Hnew, elem_of_multiplicity; lia).
      rewrite multiplicity_singleton_ne, Hsm by done. done.
    + subst x. by rewrite multiplicity_singleton_eq, (proj1 (not_elem_of_multiplicity _ _) Hnew).
Qed.

Lemma alloc_one_run m rid i p r fl :
  Inv m → req_to_replica m !! rid = Some i → device_block_pools m !! Z.to_nat i = Some p →
  BlockPool.Inv p (r :: fl) (owned m i) →
  ∃ m' p', alloc_one rid i m = (Ok tt, m') ∧ Inv m' ∧ Grown m m' rid i [r] ∧
    device_block_pools m' !! Z.to_nat i = Some p' ∧ BlockPool.Inv p' fl (owned m' i).
Proof.
  intros HI Hr Hp Hpi. pose proof (inv_replica _ HI _ _ Hr) as Hi.
  pose proof (owned_split m rid i Hr) as Hsplit.
  assert (Hpi' := Hpi). rewrite Hsplit in Hpi'.
  destruct (alloc_step _ _ _ _ _ Hpi') as (p' & E & HS & HI' & Hz & Hnew & Hsm). clear Hpi'.
  set (m1 := set_pools (<[Z.to_nat i := p']> (device_block_pools m)) m).
  destruct (blocks_of_run rid m1) as (m2 & E2 & Q2).
  set (m3 := set_blocks (<[rid := blks m1 rid ++ [r]]> (req_to_blocks m2)) m2).
  assert (Grown m m3 rid i [r]) as HG.
  { destruct Q2 as [[Nc Nr Nb Nh Ni No] Qp Qt Qc]. split; try done.
    - intros rid'. unfold m3. rewrite blks_put. case_decide; [done|]. by rewrite Nb.
    - intros j Hj. unfold m3. simpl. rewrite Qp. unfold m1. simpl. by rewrite list_lookup_insert_ne. }
  assert (owned m3 i = {[+ r +]} ⊎ lsd (blks m rid) ⊎ rest m rid i) as Ho3.
  { rewrite (owned_split m3 rid i) by (by rewrite (grown_replica _ _ _ _ _ HG)).
    rewrite (grown_blks _ _ _ _ _ HG), decide_True, lsd_snoc by done. f_equal.
    apply rest_ext.
    - intros rid' Hne. by rewrite (grown_blks _ _ _ _ _ HG), decide_False.
    - intros rid' _. by rewrite (grown_replica _ _ _ _ _ HG).
    - unfold transfers_at. by rewrite (grown_transfers _ _ _ _ _ HG). }
  assert (device_block_pools m3 = <[Z.to_nat i := p']> (device_block_pools m)) as Hpools.
  { unfold m3. simpl. by rewrite (quiet_pools _ _ Q2). }
  exists m3, p'. split_and!.
  - unfold alloc_one. mstep (allocate_device_block_run _ _ _ _ _ _ (proj1 Hi) Hp E).
    by mstep E2.
  - apply (inv_update_request m m3 rid i p p' (lsd (blks m rid)) ({[+ r +]} ⊎ lsd (blks m rid)) ∅);
      try done.
    + by rewrite (right_id_L ∅ disj_union).
    + by rewrite (left_id_L ∅ disj_union).
    + apply (grown_config _ _ _ _ _ HG).
    + by rewrite (grown_offloads _ _ _ _ _ HG).
    + apply (grown_transfers _ _ _ _ _ HG).
    + intros rid' Hne. rewrite (grown_replica _ _ _ _ _ HG), (grown_blks _ _ _ _ _ HG),
        (grown_cidx _ _ _ _ _ HG), decide_False by done. done.
    + left. by rewrite (grown_replica _ _ _ _ _ HG).
    + rewrite (grown_replica _ _ _ _ _ HG), decide_True by done.
      rewrite (grown_blks _ _ _ _ _ HG), decide_True, lsd_snoc by done.
      by rewrite (right_id_L ∅ disj_union).
    + apply (grown_ok m m3 rid i r p p'); try done; [| |by rewrite Hsplit].
      * rewrite Hpools. apply list_lookup_insert_eq. by eapply lookup_lt_Some.
      * by rewrite Ho3, Hsplit, massoc.
  - done.
  - rewrite Hpools. apply list_lookup_insert_eq. by eapply lookup_lt_Some.
  - by rewrite Ho3.
Qed.

Lemma alloc_loop_run l m rid i p fl :
  Inv m → req_to_replica m !! rid = Some i → device_block_pools m !! Z.to_nat i = Some p →
  BlockPool.Inv p fl (owned m i) → (length l ≤ length fl)%nat →
  ∃ m' p', for_each (A:=Z) l (λ _, alloc_one rid i) m = (Ok tt, m') ∧ Inv m' ∧
    Grown m m' rid i (take (length l) fl) ∧ device_block_pools m' !! Z.to_nat i = Some p' ∧
    BlockPool.Inv p' (drop (length l) fl) (owned m' i).
Proof.
  revert m p fl. induction l as [|x l IH]; intros m p fl HI Hr Hp Hpi Hle; simpl.
  - exists m, p. rewrite drop_0. split_and!; try done. by apply grown_refl.
  - destruct fl as [|r fl]; [simpl in Hle; lia|].
    destruct (alloc_one_run _ _ _ _ _ _ HI Hr Hp Hpi) as (m1 & p1 & E1 & HI1 & HG1 & Hp1 & Hpi1).
    destruct (IH m1 p1 fl) as (m2 & p2 & E2 & HI2 & HG2 & Hp2 & Hpi2); [done| |done|done|simpl in Hle; lia|].
    { by rewrite (grown_replica _ _ _ _ _ HG1). }
    exists m2, p2. mstep E1. split_and!; try done. by apply (grown_trans m m1 m2 rid i [r]).
Qed.

(** *** Worlds *)

Lemma on_mgr_run {A} (x : M t A) (w : world) r m' :
  x (mgr w) = (r, m') → on_mgr x w = (r, mk_world m' (ctx w)).
Proof. intros E. unfold on_mgr, zoom. by rewrite E. Qed.
Lemma on_ctx_run {A} (x : M (Ctx.t B) A) (w : world) r c' :
  x (ctx w) = (r, c') → on_ctx x w = (r, mk_world (mgr w) c').
Proof. intros E. unfold on_ctx, zoom. by rewrite E. Qed.
Lemma on_base_run {A} (x : M (TextContext.t B) A) c r c' :
  x (Ctx.base c) = (r, c') → Ctx.on_base x c = (r, Ctx.set_base c' c).
Proof. intros E. unfold Ctx.on_base, zoom. by rewrite E. Qed.
Lemma on_mgr_loop {A} (l : list A) (f : A → M t unit) (w : world) :
  for_each l (λ x, on_mgr (f x)) w = on_mgr (for_each l f) w.
Proof.
  revert w. induction l as [|x l IH]; intros [m c]; [done|]. simpl. unfold bind.
  unfold on_mgr at 1 3, zoom. simpl. destruct (f x m) as [[[]|e] m1] eqn:E; [|done].
  rewrite IH. done.
Qed.

Lemma base_set_base (c : TextContext.t B) x : Ctx.base (Ctx.set_base c x) = c.
Proof. by destruct x. Qed.
Lemma set_base_base (x : Ctx.t B) : Ctx.set_base (Ctx.base x) x = x.
Proof. by destruct x as [|[]]. Qed.
Lemma set_base_twice (c c' : TextContext.t B) x : Ctx.set_base c (Ctx.set_base c' x) = Ctx.set_base c x.
Proof. by destruct x. Qed.

(** *** Sizing a request *)

(** The request's draft tokens; none when the state was never created. *)
Definition drafts (c : TextContext.t B) : SpecDecodingState :=
  default (spec_decoding_state [] []) (TextContext._spec_decoding_state c).
(** The context after its speculative state was looked up. *)
Definition with_spec (c : TextContext.t B) : TextContext.t B :=
  TextContext.set_spec (Some (drafts c)) c.

Lemma spec_state_run (c : TextContext.t B) :
  TextContext.spec_decoding_state c = (Ok (drafts c), with_spec c).
Proof.
  unfold TextContext.spec_decoding_state, bind, get, drafts, with_spec.
  by destruct c; simpl; destruct _spec_decoding_state.
Qed.

(** The KV slots the request needs after the next decode step. *)
Definition slots_needed (c : TextContext.t B) (num_draft_tokens num_draft_tokens_per_step : Z) : Z :=
  TokenBuffer.processed_length (TextContext.tokens c) + TokenBuffer.active_length (TextContext.tokens c)
  + (len (maybe_accepted_draft_tokens (drafts c)) + 2 * num_draft_tokens + 1
     + (if (num_draft_tokens >? 0) && (num_draft_tokens_per_step =? num_draft_tokens) then 1 else 0)
     - Z.max 1 (TextContext.pending_future_count c)).

Lemma compute_seq_len_run (c : TextContext.t B) a b :
  _compute_seq_len a b None c = (Ok (slots_needed c a b), with_spec c).
Proof.
  unfold _compute_seq_len. unfold bind at 1, get. by mstep (spec_state_run c).
Qed.

Lemma with_spec_idem (c : TextContext.t B) : with_spec (with_spec c) = with_spec c.
Proof. by destruct c. Qed.
Lemma slots_with_spec (c : TextContext.t B) a b : slots_needed (with_spec c) a b = slots_needed c a b.
Proof. by destruct c. Qed.

Lemma num_blocks_run (w : world) a b :
  ∃ m', num_blocks_to_allocate a b w =
    (Ok (Z.max (ceildiv (slots_needed (Ctx.base (ctx w)) a b) (block_size (mgr w))
                - len (blks (mgr w) (request_id w))) 0),
     mk_world m' (Ctx.set_base (with_spec (Ctx.base (ctx w))) (ctx w))) ∧ Quiet (mgr w) m'.
Proof.
  destruct w as [m x]. unfold num_blocks_to_allocate, request_id. unfold bind at 1, get. simpl.
  destruct (blocks_of_run (TextContext.request_id (Ctx.base x)) m) as (m1 & E1 & Q1).
  mstep (on_mgr_run _ (mk_world m x) _ _ E1). simpl.
  mstep (on_ctx_run _ (mk_world m1 x) _ _ (on_base_run _ x _ _ (compute_seq_len_run (Ctx.base x) a b))).
  by exists m1.
Qed.

Lemma count_run x m : ∃ m', count x m = (Ok tt, m') ∧ Quiet m m'.
Proof. eexists. split; [done|]. by split. Qed.

Lemma quiet_pool_at m m' i p :
  Quiet m m' → device_block_pools m !! Z.to_nat i = Some p → device_block_pools m' !! Z.to_nat i = Some p.
Proof. by intros [_ -> _ _]. Qed.

Lemma quiet_owned m m' i : Quiet m m' → owned m' i = owned m i.
Proof. intros [N _ Ht _]. by apply owned_near. Qed.

Lemma grown_after_quiet m m1 m' rid i l : Quiet m m1 → Grown m1 m' rid i l → Grown m m' rid i l.
Proof. intros Q G. apply (grown_trans m m1 m' rid i []); [by apply grown_refl|done]. Qed.

(** Whether the request can be scheduled at all, even alone. *)
Definition tokens_wanted (c : TextContext.t B) : Z :=
  TokenBuffer.length (TextContext.tokens c) + len (draft_tokens_to_verify (drafts c))
  + len (maybe_accepted_draft_tokens (drafts c)).

Definition blocks_missing m (c : TextContext.t B) (a b : Z) : Z :=
  Z.max (ceildiv (slots_needed c a b) (block_size m) - len (blks m (TextContext.request_id c))) 0.

(** Every exit of [allocate_new_blocks]. *)
Lemma allocate_run m x a b i p fl :
  let c := Ctx.base x in
  let rid := TextContext.request_id c in
  Inv m → req_to_replica m !! rid = Some i → device_block_pools m !! Z.to_nat i = Some p →
  BlockPool.Inv p fl (owned m i) →
  ∃ m' r, allocate_new_blocks a b (mk_world m x) = (r, mk_world m' (Ctx.set_base (with_spec c) x)) ∧
    if tokens_wanted c >? total_num_blocks m * block_size m
    then r = Raise InsufficientBlocksError ∧ Quiet m m'
    else if len (blks m rid) * block_size m <? TokenBuffer.processed_length (TextContext.tokens c)
    then r = Raise AssertionError ∧ Quiet m m'
    else if blocks_missing m c a b >? len fl
    then r = Raise InsufficientBlocksError ∧ Quiet m m'
    else r = Ok tt ∧ Inv m' ∧ Grown m m' rid i (take (Z.to_nat (blocks_missing m c a b)) fl) ∧
      ∃ p', device_block_pools m' !! Z.to_nat i = Some p' ∧
        BlockPool.Inv p' (drop (Z.to_nat (blocks_missing m c a b)) fl) (owned m' i).
Proof.
  intros c rid HI Hr Hp Hpi. pose proof (inv_replica _ HI _ _ Hr) as Hi.
  pose proof (pool_at_run i m p (proj1 Hi) Hp) as Epool.
  unfold allocate_new_blocks. unfold bind at 1, get. unfold request_id. simpl. fold c rid.
  mstep (on_mgr_run _ (mk_world m x) _ _ (replica_of_run _ _ _ Hr)).
  mstep (on_mgr_run _ (mk_world m x) _ _ Epool).
  mstep (on_ctx_run _ (mk_world m x) _ _ (on_base_run _ x _ _ (spec_state_run c))). simpl.
  set (x1 := Ctx.set_base (with_spec c) x).
  assert (Ctx.base x1 = with_spec c) as Ex1 by apply base_set_base.
  unfold bind at 1, text at 1. unfold bind at 1, get, ret at 1. simpl. rewrite Ex1.
  unfold tokens_wanted. change (TextContext.tokens (with_spec c)) with (TextContext.tokens c).
  destruct (_ >? _); [exists m; eexists; split; [done|]; by split|].
  rewrite (bind_run _ _ _ _ _ (raise_if_false false _ (mk_world m x1) eq_refl)).
  destruct (count_run (Metrics.mk (TokenBuffer.active_length (TextContext.tokens c)) 0 0 0 0) m)
    as (m1 & E1 & Q1).
  mstep (on_mgr_run _ (mk_world m x1) _ _ E1). simpl.
  destruct (num_blocks_run (mk_world m1 x1) a b) as (m2 & E2 & Q2). simpl in E2, Q2.
  mstep E2. unfold request_id. simpl. rewrite Ex1, with_spec_idem.
  assert (Ctx.set_base (with_spec c) x1 = x1) as -> by (unfold x1; apply set_base_twice).
  change (TextContext.request_id (with_spec c)) with rid.
  rewrite slots_with_spec.
  destruct (blocks_of_run rid m2) as (m3 & E3 & Q3).
  mstep (on_mgr_run _ (mk_world m2 x1) _ _ E3). simpl.
  assert (Quiet m m3) as Q by (etrans; [exact Q1|]; by etrans).
  rewrite (near_blks _ _ (quiet_near _ _ Q2)), (near_blks _ _ (quiet_near _ _ Q1)),
    (near_bs _ _ (quiet_near _ _ Q1)).
  change (Z.max (ceildiv (slots_needed c a b) (block_size m) - len (blks m rid)) 0)
    with (blocks_missing m c a b).
  destruct (len (blks m rid) * block_size m <? _) eqn:Ebs.
  { exists m3. eexists. split; [|done]. unfold bind at 1, py_assert.
    replace (_ <=? _) with false by lia. done. }
  erewrite bind_run; [|apply py_assert_true; lia]. cbv beta.
  pose proof (quiet_pool_at _ _ _ _ Q Hp) as Hp3.
  mstep (on_mgr_run _ (mk_world m3 x1) _ _ (pool_at_run i m3 p (proj1 Hi) Hp3)). simpl.
  rewrite (BlockPool.inv_num_free _ _ _ Hpi).
  destruct (blocks_missing m c a b >? len fl) eqn:Efree.
  { exists m3. eexists. split; [done|]. done. }
  rewrite (bind_run _ _ _ _ _ (raise_if_false false _ (mk_world m3 x1) eq_refl)).
  rewrite on_mgr_loop.
  set (n := blocks_missing m c a b) in *.
  assert (0 ≤ n) as Hn by (unfold n, blocks_missing; lia).
  assert (length (zrange 0 n) = Z.to_nat n) as Hlen.
  { pose proof (len_zrange 0 n Hn) as Hz. unfold len in Hz. lia. }
  destruct (alloc_loop_run (zrange 0 n) m3 rid i p fl) as (m4 & p4 & E4 & HI4 & HG4 & Hp4 & Hpi4).
  - by apply (inv_quiet m).
  - by rewrite (near_replica _ _ (quiet_near _ _ Q)).
  - done.
  - by rewrite (quiet_owned _ _ _ Q).
  - rewrite Hlen. unfold len in Efree. lia.
  - rewrite Hlen in *. exists m4, (Ok tt). split; [by apply (on_mgr_run _ (mk_world m3 x1))|].
    split_and!; [done|done|by eapply grown_after_quiet|]. by exists p4.
Qed.

(** The blocks an allocation adds are the fewest that hold the slots. *)
Lemma missing_fits m (c : TextContext.t B) a b fl :
  0 < block_size m → blocks_missing m c a b ≤ len fl →
  let rid := TextContext.request_id c in
  let news := take (Z.to_nat (blocks_missing m c a b)) fl in
  slots_needed c a b ≤ len (blks m rid ++ news) * block_size m ∧
  (news ≠ [] → (len (blks m rid ++ news) - 1) * block_size m < slots_needed c a b).
Proof.
  intros Hbs Hle rid news. pose proof (ceildiv_spec (slots_needed c a b) _ Hbs) as Hcd.
  assert (len news = blocks_missing m c a b) as Hl.
  { unfold news, len in *. rewrite length_take. unfold blocks_missing in *. lia. }
  rewrite len_app, Hl. split.
  - unfold blocks_missing. fold rid. nia.
  - intros Hne%len_pos. rewrite Hl in Hne. unfold blocks_missing in *. fold rid in Hne |- *. nia.
Qed.

(** *** Releasing *)

(** The blocks of [l], freed in order, that end in the free queue. *)
Fixpoint freed (l : list Z) (others : gmultiset Z) : list Z :=
  match l with
  | [] => []
  | r :: l => if decide (BlockPool.refs r (lsd l ⊎ others) = 0) then r :: freed l others
              else freed l others
  end.

Lemma refs_zero r (X : gmultiset Z) : BlockPool.refs r X = 0 ↔ r ∉ X.
Proof. unfold BlockPool.refs. rewrite not_elem_of_multiplicity. lia. Qed.

Lemma freed_nodup l others : NoDup l → freed l others = filter (λ r, r ∉ others) l.
Proof.
  induction 1 as [|r l Hr Hl IH]; [done|]. simpl. rewrite filter_cons, IH.
  assert (BlockPool.refs r (lsd l ⊎ others) = 0 ↔ r ∉ others) as Heq.
  { rewrite refs_zero, gmultiset_elem_of_disj_union, elem_of_lsd. tauto. }
  repeat case_decide; tauto.
Qed.

Lemma set_pools_twice x y m : set_pools x (set_pools y m) = set_pools x m.
Proof. done. Qed.

Lemma free_loop i l m p fl others :
  0 ≤ i → device_block_pools m !! Z.to_nat i = Some p →
  BlockPool.Inv p fl (lsd l ⊎ others) → (∀ r, r ∈ l → BlockPool.real p r) →
  ∃ p', for_each l (λ r, on_pool i (BlockPool.free_block r)) m =
      (Ok tt, set_pools (<[Z.to_nat i := p']> (device_block_pools m)) m) ∧
    Step p (lsd l) others p' ∅ ∧ BlockPool.Inv p' (fl ++ freed l others) others ∧
    (∀ x, BlockPool.cached_hash p' x = BlockPool.cached_hash p x) ∧
    BlockPool.prefix_cache p' = BlockPool.prefix_cache p.
Proof.
  intros Hi. revert m p fl. induction l as [|r l IH]; intros m p fl Hp HI Hreal.
  - exists p. simpl. rewrite list_insert_id, set_pools_same, app_nil_r by done.
    simpl in HI. split_and!; [done|by eapply step_refl| |done|done].
    by rewrite (left_id_L ∅ disj_union) in HI.
  - destruct (free_step p fl (lsd l) others r) as (p1 & E1 & S1 & HI1 & Hc1 & Hpc1); [done|apply Hreal; left|].
    set (m1 := set_pools (<[Z.to_nat i := p1]> (device_block_pools m)) m).
    assert (device_block_pools m1 !! Z.to_nat i = Some p1) as Hp1.
    { apply list_lookup_insert_eq. by eapply lookup_lt_Some. }
    destruct (IH m1 p1 _ Hp1 HI1) as (p2 & E2 & S2 & HI2 & Hc2 & Hpc2).
    { intros x Hx. destruct (step_config _ _ _ _ _ S1) as [Ht _]. unfold BlockPool.real in *.
      rewrite Ht. apply Hreal. by right. }
    exists p2. split_and!.
    + simpl. mstep (on_pool_run _ _ _ _ _ _ Hi Hp E1). fold m1. rewrite E2.
      unfold m1. simpl. by rewrite list_insert_insert_eq, set_pools_twice.
    + eapply step_trans; [exact S1|exact S2].
    + simpl. case_decide; [by rewrite <- app_assoc in HI2|done].
    + intros x. by rewrite Hc2, Hc1.
    + congruence.
Qed.

Lemma lsd_perm l l' : l ≡ₚ l' → lsd l = lsd l'.
Proof. intros Hp. exact (list_to_set_disj_perm l l' Hp). Qed.

(** The order [release] frees in. *)
Definition release_order m rid : list Z :=
  if enable_prefix_caching m then rev (blks m rid) else blks m rid.

Lemma release_order_perm m rid : release_order m rid ≡ₚ blks m rid.
Proof. unfold release_order. destruct (enable_prefix_caching m); [|done]. apply Permutation_sym, Permutation_rev. Qed.

Record Released m m' (rid i : Z) : Prop := {
  released_config : config m' = config m;
  released_replica : req_to_replica m' = delete rid (req_to_replica m);
  released_blks : ∀ rid', blks m' rid' = if decide (rid' = rid) then [] else blks m rid';
  released_hshs : ∀ rid', hshs m' rid' = if decide (rid' = rid) then [] else hshs m rid';
  released_cidx : ∀ rid', cidx m' rid' = if decide (rid' = rid) then 0 else cidx m rid';
  released_offloads : _pending_offloads m' = _pending_offloads m;
  released_transfers : _pending_transfers m' = _pending_transfers m;
  released_connector : connector m' = connector m;
  released_pools : ∀ j, j ≠ Z.to_nat i → device_block_pools m' !! j = device_block_pools m !! j
}.

Lemma default_delete {A} (d : A) (f : gmap Z A) rid rid' :
  default d (delete rid f !! rid') = if decide (rid' = rid) then d else default d (f !! rid').
Proof. case_decide; [subst; by rewrite lookup_delete_eq|by rewrite lookup_delete_ne]. Qed.

Lemma release_run m rid i p fl :
  Inv m → req_to_replica m !! rid = Some i → device_block_pools m !! Z.to_nat i = Some p →
  BlockPool.Inv p fl (owned m i) →
  ∃ m' p', release rid m = (Ok tt, m') ∧ Inv m' ∧ Released m m' rid i ∧
    device_block_pools m' !! Z.to_nat i = Some p' ∧
    BlockPool.Inv p' (fl ++ freed (release_order m rid) (rest m rid i)) (owned m' i) ∧
    owned m' i = rest m rid i ∧ BlockPool.prefix_cache p' = BlockPool.prefix_cache p.
Proof.
  intros HI Hr Hp Hpi. pose proof (inv_replica _ HI _ _ Hr) as Hi.
  destruct (blocks_of_run rid m) as (m1 & E1 & Q1).
  pose proof (quiet_pool_at _ _ _ _ Q1 Hp) as Hp1.
  destruct (inv_pool _ HI i Hi) as (q & _ & Hq & Hqt & _).
  assert (q = p) as -> by congruence.
  assert (owned m i = lsd (release_order m rid) ⊎ rest m rid i) as Hsplit.
  { rewrite (lsd_perm _ _ (release_order_perm m rid)). by apply owned_split. }
  destruct (free_loop i (release_order m rid) m1 p fl (rest m rid i)) as (p2 & E2 & S2 & HI2 & _ & Hpc);
    [lia|done|by rewrite <- Hsplit| |].
  { intros r Hx. unfold BlockPool.real. rewrite Hqt. apply (inv_real _ HI i). rewrite Hsplit.
    apply gmultiset_elem_of_disj_union. left. by apply elem_of_lsd. }
  set (m2 := set_pools (<[Z.to_nat i := p2]> (device_block_pools m1)) m1) in *.
  eexists _, p2. split.
  { unfold release. mstep (replica_of_run _ _ _ Hr).
    mstep (pool_at_run i m p (proj1 Hi) Hp). mstep E1. unfold bind at 1, get.
    rewrite (near_caching _ _ (quiet_near _ _ Q1)). fold (release_order m rid).
    mstep E2. done. }
  set (m' := set_committed _ _).
  assert (Released m m' rid i) as HR.
  { destruct Q1 as [[Nc Nr Nb Nh Ni No] Qp Qt Qc]. split; try done.
    - unfold m', m2. simpl. by rewrite Nr.
    - intros rid'. unfold blks. simpl. rewrite default_delete. case_decide; [done|]. apply Nb.
    - intros rid'. unfold hshs. simpl. rewrite default_delete. case_decide; [done|]. apply Nh.
    - intros rid'. unfold cidx. simpl. rewrite default_delete. case_decide; [done|]. apply Ni.
    - intros j Hj. simpl. rewrite Qp. by rewrite list_lookup_insert_ne. }
  assert (device_block_pools m' = <[Z.to_nat i := p2]> (device_block_pools m)) as Hpools.
  { unfold m', m2. simpl. by rewrite (quiet_pools _ _ Q1). }
  assert (req_to_replica m' !! rid = None) as Hnone.
  { by rewrite (released_replica _ _ _ _ HR), lookup_delete_eq. }
  assert (owned m' i = rest m rid i) as Ho.
  { rewrite (owned_elsewhere m' rid) by congruence. apply owned_update.
    - intros rid' Hne. by rewrite (released_blks _ _ _ _ HR), decide_False.
    - intros rid' Hne. by rewrite (released_replica _ _ _ _ HR), lookup_delete_ne.
    - apply (released_transfers _ _ _ _ HR). }
  assert (Inv m') as HI'.
  { apply (inv_update_request m m' rid i p p2 (lsd (blks m rid)) ∅ ∅); try done.
    - by rewrite (right_id_L ∅ disj_union).
    - rewrite (left_id_L ∅ disj_union). by rewrite <- (lsd_perm _ _ (release_order_perm m rid)).
    - apply (released_config _ _ _ _ HR).
    - by rewrite (released_offloads _ _ _ _ HR).
    - apply (released_transfers _ _ _ _ HR).
    - intros rid' Hne. rewrite (released_replica _ _ _ _ HR), (released_blks _ _ _ _ HR),
        (released_cidx _ _ _ _ HR), lookup_delete_ne, !decide_False by done. done.
    - by right.
    - rewrite decide_False by congruence. by rewrite (left_id_L ∅ disj_union).
    - assert (blks m' rid = []) as Eb by by rewrite (released_blks _ _ _ _ HR), decide_True.
      assert (cidx m' rid = 0) as Ec by by rewrite (released_cidx _ _ _ _ HR), decide_True.
      split; [congruence|done| |congruence]. exists 0. rewrite Eb, Ec. done. }
  split_and!; [done|done| |by rewrite Ho|done|done].
  rewrite Hpools. apply list_lookup_insert_eq. by eapply lookup_lt_Some.
Qed.

(** *** Committing *)

(** Request [rid]'s block list became [l]; only replica [i]'s pool changed besides. *)
Record Patched m m' (rid i : Z) (l : list Z) : Prop := {
  patched_config : config m' = config m;
  patched_replica : req_to_replica m' = req_to_replica m;
  patched_blks : ∀ rid', blks m' rid' = if decide (rid' = rid) then l else blks m rid';
  patched_hshs : ∀ rid', hshs m' rid' = hshs m rid';
  patched_cidx : ∀ rid', cidx m' rid' = cidx m rid';
  patched_offloads : _pending_offloads m' = _pending_offloads m;
  patched_transfers : _pending_transfers m' = _pending_transfers m;
  patched_connector : connector m' = connector m
}.

Lemma patched_quiet m m' rid i : Quiet m m' → Patched m m' rid i (blks m rid).
Proof.
  intros [[Nc Nr Nb Nh Ni No] Hp Ht Hcn].
  split; [exact Nc|exact Nr| |exact Nh|exact Ni|exact No|exact Ht|exact Hcn].
  intros rid'. case_decide; by subst.
Qed.
Lemma patched_trans m1 m2 m3 rid i l1 l2 :
  Patched m1 m2 rid i l1 → Patched m2 m3 rid i l2 → Patched m1 m3 rid i l2.
Proof.
  intros [A1 A2 A3 A4 A5 A6 A7 A8] [B1 B2 B3 B4 B5 B6 B7 B8].
  split; [by etrans|by etrans| |intros; by rewrite B4|intros; by rewrite B5|by etrans..].
  intros rid'. rewrite B3. case_decide as Hd; [done|]. by rewrite A3, decide_False.
Qed.

Definition commit_one (rid i : Z) (req_hashes : list bytes) (block_idx : Z) : M t unit :=
  let! req_blocks := blocks_of rid in
  let! block := of_option IndexError (py_index req_blocks block_idx) in
  let! block_hash := of_option IndexError (py_index req_hashes block_idx) in
  let! new_block :=
    on_pool i (BlockPool.get_or_commit_into_prefix_cache block_hash block) in
  match new_block with
  | None => ret tt
  | Some new_block => put_blocks rid (<[position block_idx (len req_blocks) := new_block]> req_blocks)
  end.

Lemma of_option_run {S A} e (o : option A) a (s : S) : o = Some a → of_option e o s = (Ok a, s).
Proof. by intros ->. Qed.

Lemma commit_one_run m rid i req_hashes idx p r h o p' :
  0 ≤ i → 0 ≤ idx → device_block_pools m !! Z.to_nat i = Some p →
  blks m rid !! Z.to_nat idx = Some r → req_hashes !! Z.to_nat idx = Some h →
  BlockPool.get_or_commit_into_prefix_cache h r p = (Ok o, p') →
  ∃ m', commit_one rid i req_hashes idx m = (Ok tt, m') ∧
    Patched m m' rid i (<[Z.to_nat idx := default r o]> (blks m rid)) ∧
    device_block_pools m' = <[Z.to_nat i := p']> (device_block_pools m).
Proof.
  intros Hi Hidx Hp Hr Hh E. destruct (blocks_of_run rid m) as (m1 & E1 & Q1).
  pose proof (quiet_pool_at _ _ _ _ Q1 Hp) as Hp1.
  set (m2 := set_pools (<[Z.to_nat i := p']> (device_block_pools m1)) m1).
  assert (commit_one rid i req_hashes idx m =
    match o with
    | None => ret tt
    | Some c => put_blocks rid (<[Z.to_nat idx := c]> (blks m rid))
    end m2) as ->.
  { unfold commit_one. mstep E1. erewrite bind_run.
    2:{ apply of_option_run. rewrite py_index_inside; [exact Hr|].
        apply lookup_lt_Some in Hr. unfold len. lia. }
    erewrite bind_run.
    2:{ apply of_option_run. rewrite py_index_inside; [exact Hh|].
        apply lookup_lt_Some in Hh. unfold len. lia. }
    mstep (on_pool_run _ _ _ _ _ _ Hi Hp1 E). unfold position. by replace (idx <? 0) with false by lia. }
  assert (Patched m m2 rid i (blks m rid)) as P2.
  { destruct (patched_quiet m m1 rid i Q1). by split. }
  assert (device_block_pools m2 = <[Z.to_nat i := p']> (device_block_pools m)) as Hpools.
  { unfold m2. simpl. by rewrite (quiet_pools _ _ Q1). }
  destruct o as [c|]; simpl.
  - eexists. split; [done|]. split; [|done]. eapply patched_trans; [exact P2|].
    split; try done. intros rid'. rewrite blks_put. by case_decide.
  - exists m2. split; [done|]. split; [|done]. by rewrite list_insert_id.
Qed.

(** Where the loop stands: the blocks from [k] up to [j] are committed under the
    request's hashes; those from [j] on are as they were. *)
Record Committing (p p' : BlockPool.t) (rst : gmultiset Z) (bl l : list Z) (hs : list bytes) (k j : nat)
    : Prop := {
  cg_step : Step p (lsd (drop k bl)) (lsd (take k bl) ⊎ rst) p' (lsd (drop k l));
  cg_prefix : take k l = take k bl;
  cg_suffix : drop j l = drop j bl;
  cg_done : ∀ x r h, (k ≤ x < j)%nat → l !! x = Some r → hs !! x = Some h →
            BlockPool.cached_hash p' r = Some h;
  cg_private : ∀ r, r ∈ drop j bl → private p' (lsd (drop k l) ⊎ (lsd (take k bl) ⊎ rst)) r
}.

Lemma lsd_insert (l : list Z) (x : nat) r r' :
  l !! x = Some r → ∃ X, lsd l = {[+ r +]} ⊎ X ∧ lsd (<[x := r']> l) = {[+ r' +]} ⊎ X.
Proof.
  intros Hx. exists (lsd (take x l ++ drop (S x) l)).
  rewrite insert_take_drop by (by eapply lookup_lt_Some).
  rewrite <- (take_drop_middle l x r Hx) at 1.
  split; rewrite !list_to_set_disj_app; simpl; multiset_solver.
Qed.

Lemma committing_step p p1 rst bl l hs k j r h :
  Committing p p1 rst bl l hs k j → (k ≤ j)%nat → l !! j = Some r → hs !! j = Some h →
  BlockPool.real p1 r →
  ∃ o p2, BlockPool.get_or_commit_into_prefix_cache h r p1 = (Ok o, p2) ∧
    Committing p p2 rst bl (<[j := default r o]> l) hs k (S j).
Proof.
  intros [HS Hpre Hsuf Hdone Hpriv] Hkj Hr Hh Hreal.
  set (others := lsd (take k bl) ⊎ rst) in *.
  assert (drop j bl = r :: drop (S j) bl) as Edrop.
  { apply drop_S. rewrite <- (Nat.add_0_r j), <- lookup_drop, <- Hsuf, lookup_drop.
    by rewrite Nat.add_0_r. }
  assert (drop k l !! (j - k)%nat = Some r) as Hrk by (rewrite lookup_drop, <- Hr; f_equal; lia).
  destruct (Hpriv r) as [Hm1 Hz]; [rewrite Edrop; left|].
  destruct (step_inv _ _ _ _ _ HS) as [fl HI].
  assert (∃ X, lsd (drop k l) = {[+ r +]} ⊎ X) as [X HX].
  { destruct (lsd_insert _ _ _ r Hrk) as (X & ? & _). by exists X. }
  rewrite HX in HI. destruct (get_or_commit_step _ _ _ _ h r HI Hreal Hz) as (o & p2 & E & S2 & Hc & _ & Hsame).
  exists o, p2. split; [done|]. set (r' := default r o) in *.
  assert (lsd (drop k (<[j := r']> l)) = {[+ r' +]} ⊎ X) as HX'.
  { rewrite drop_insert_ge by lia. destruct (lsd_insert _ _ _ r' Hrk) as (Y & E1 & E2).
    rewrite E2. f_equal. rewrite HX in E1. multiset_solver. }
  pose proof (lookup_lt_Some _ _ _ Hr) as Hlt.
  split.
  - rewrite HX'. eapply step_trans; [exact HS|]. by rewrite HX.
  - by rewrite take_insert_ge by lia.
  - rewrite drop_insert_lt by lia. pose proof (f_equal (drop 1) Hsuf) as Hs.
    rewrite !drop_drop in Hs. by rewrite Nat.add_comm in Hs.
  - intros x y g Hx Hy Hg. destruct (decide (x = j)) as [->|Hne].
    + rewrite list_lookup_insert_eq in Hy by done. simplify_eq. done.
    + rewrite list_lookup_insert_ne in Hy by done. rewrite Hsame; [by apply (Hdone x); try lia|].
      intros ->. rewrite (Hdone x r g) in Hz; [done|lia|done|done].
  - intros y Hy. destruct (Hpriv y) as [Hmy Hzy]; [rewrite Edrop; by right|].
    assert (y ≠ r) as Hne.
    { intros ->. assert (1 < multiplicity r (lsd (drop k l)))%nat.
      { assert (lsd (drop k l) = lsd (take (j - k) (drop k l)) ⊎ lsd (r :: drop (S j) bl)) as ->.
        { rewrite <- list_to_set_disj_app. f_equal. rewrite <- Edrop, <- Hsuf.
          rewrite <- (take_drop (j - k) (drop k l)) at 1. rewrite drop_drop. do 2 f_equal. lia. }
        rewrite multiplicity_disj_union. simpl. rewrite multiplicity_disj_union, multiplicity_singleton_eq.
        apply elem_of_lsd in Hy. pose proof (proj1 (elem_of_multiplicity _ _) Hy). lia. }
      rewrite multiplicity_disj_union in Hmy. lia. }
    assert (BlockPool.cached_hash p2 y = None) as Hzy2 by (by rewrite Hsame).
    split; [|done]. assert (y ≠ r') by congruence.
    rewrite HX'. rewrite HX in Hmy. unfold others in Hmy. rewrite !multiplicity_disj_union in *.
    rewrite multiplicity_singleton_ne in Hmy by done. by rewrite multiplicity_singleton_ne by done.
Qed.

Lemma committing_start p fl bl rst hs k :
  BlockPool.Inv p fl (lsd bl ⊎ rst) →
  (∀ r, r ∈ drop k bl → private p (lsd bl ⊎ rst) r) → Committing p p rst bl bl hs k k.
Proof.
  intros HI Hp. assert (lsd bl ⊎ rst = lsd (drop k bl) ⊎ (lsd (take k bl) ⊎ rst)) as E.
  { rewrite <- (take_drop k bl) at 1. rewrite list_to_set_disj_app. multiset_solver. }
  rewrite E in *. split; [by eapply step_refl|done|done|intros; lia|done].
Qed.

Lemma commit_loop n m rid i p p1 rst bl hs k j :
  0 ≤ i → (k ≤ j)%nat → (j + n ≤ length bl)%nat → (j + n ≤ length hs)%nat →
  device_block_pools m !! Z.to_nat i = Some p1 → length (blks m rid) = length bl →
  Committing p p1 rst bl (blks m rid) hs k j → (∀ r, r ∈ bl → BlockPool.real p r) →
  ∃ m' p', for_each (zrange (Z.of_nat j) (Z.of_nat (j + n))) (commit_one rid i hs) m = (Ok tt, m') ∧
    device_block_pools m' = <[Z.to_nat i := p']> (device_block_pools m) ∧
    length (blks m' rid) = length bl ∧ Patched m m' rid i (blks m' rid) ∧
    Committing p p' rst bl (blks m' rid) hs k (j + n).
Proof.
  intros Hi. revert m p1 j. induction n as [|n IH]; intros m p1 j Hkj Hbl Hhs Hp Hlen HC Hreal.
  - rewrite zrange_empty by lia. exists m, p1. rewrite Nat.add_0_r, list_insert_id by done.
    split_and!; try done. by apply patched_quiet.
  - rewrite zrange_cons by lia.
    assert (is_Some (blks m rid !! j)) as [r Hr] by (apply lookup_lt_is_Some; lia).
    assert (is_Some (hs !! j)) as [h Hh] by (apply lookup_lt_is_Some; lia).
    assert (BlockPool.real p1 r) as Hreal1.
    { destruct (step_config _ _ _ _ _ (cg_step _ _ _ _ _ _ _ _ HC)) as [Ht _].
      unfold BlockPool.real. rewrite Ht. apply Hreal.
      eapply elem_of_sublist; [|apply (sublist_drop bl j)].
      rewrite <- (cg_suffix _ _ _ _ _ _ _ _ HC). apply (list_elem_of_lookup_2 _ 0).
      by rewrite lookup_drop, Nat.add_0_r. }
    destruct (committing_step _ _ _ _ _ _ _ _ r h HC Hkj Hr Hh Hreal1) as (o & p2 & E & HC2).
    destruct (commit_one_run m rid i hs (Z.of_nat j) p1 r h o p2) as (m1 & E1 & P1 & Hp1);
      rewrite ?Nat2Z.id; try done; [lia|].
    rewrite Nat2Z.id in P1.
    assert (blks m1 rid = <[j := default r o]> (blks m rid)) as Eb1.
    { by rewrite (patched_blks _ _ _ _ _ P1), decide_True. }
    destruct (IH m1 p2 (S j)) as (m2 & p3 & E2 & Hp2 & Hl2 & P2 & HC3); try lia; try done.
    { rewrite Hp1. apply list_lookup_insert_eq. by eapply lookup_lt_Some. }
    { by rewrite Eb1, length_insert. }
    { by rewrite Eb1. }
    exists m2, p3. split_and!.
    + simpl. mstep E1. replace (Z.of_nat j + 1) with (Z.of_nat (S j)) by lia.
      by replace (j + S n)%nat with (S j + n)%nat by lia.
    + by rewrite Hp2, Hp1, list_insert_insert_eq.
    + done.
    + by eapply patched_trans.
    + by replace (j + S n)%nat with (S j + n)%nat by lia.
Qed.

(** How many of the request's blocks hold computed, realized tokens. *)
Definition computed_blocks m (c : TextContext.t B) : Z :=
  Z.min (TokenBuffer.processed_length (TextContext.tokens c))
        (TokenBuffer.length (TextContext.tokens c) - TextContext.pending_future_count c)
  / block_size m.

Record Committed m m' (c : TextContext.t B) (i : Z) (p' : BlockPool.t) : Prop := {
  committed_inv : Inv m';
  committed_config : config m' = config m;
  committed_replica : req_to_replica m' = req_to_replica m;
  committed_len : len (blks m' (TextContext.request_id c)) = len (blks m (TextContext.request_id c));
  committed_others : ∀ rid', rid' ≠ TextContext.request_id c →
    blks m' rid' = blks m rid' ∧ cidx m' rid' = cidx m rid';
  committed_hshs : ∀ rid', hshs m' rid' = hshs m rid';
  committed_cidx : cidx m' (TextContext.request_id c) = computed_blocks m c * block_size m;
  committed_transfers : _pending_transfers m' = _pending_transfers m;
  committed_connector : connector m' = connector m;
  committed_pool : device_block_pools m' = <[Z.to_nat i := p']> (device_block_pools m);
  committed_prefix : take (Z.to_nat (cidx m (TextContext.request_id c) / block_size m))
                       (blks m' (TextContext.request_id c)) =
                     take (Z.to_nat (cidx m (TextContext.request_id c) / block_size m))
                       (blks m (TextContext.request_id c));
  committed_suffix : drop (Z.to_nat (computed_blocks m c)) (blks m' (TextContext.request_id c)) =
                     drop (Z.to_nat (computed_blocks m c)) (blks m (TextContext.request_id c));
  committed_hash : ∀ x r h,
    cidx m (TextContext.request_id c) / block_size m ≤ x < computed_blocks m c →
    blks m' (TextContext.request_id c) !! Z.to_nat x = Some r →
    hshs m (TextContext.request_id c) !! Z.to_nat x = Some h → BlockPool.cached_hash p' r = Some h;
  committed_offloads : _pending_offloads m' =
    if computed_blocks m c >? cidx m (TextContext.request_id c) / block_size m
    then alter (λ l, l ++ [slice (hshs m (TextContext.request_id c))
                             (cidx m (TextContext.request_id c) / block_size m) (computed_blocks m c)])
           (Z.to_nat i) (_pending_offloads m)
    else _pending_offloads m
}.

Lemma py_index_pools {A} (l : list A) i x : 0 ≤ i → l !! Z.to_nat i = Some x → py_index l i = Some x.
Proof.
  intros Hi Hl. rewrite py_index_inside; [done|]. apply lookup_lt_Some in Hl. unfold len. lia.
Qed.

(** The loop of [commit_to_prefix_cache], from the request's state. *)
Lemma commit_loop_request m rid i p fl n :
  Inv m → req_to_replica m !! rid = Some i → device_block_pools m !! Z.to_nat i = Some p →
  BlockPool.Inv p fl (owned m i) → cidx m rid / block_size m ≤ n → n ≤ len (blks m rid) →
  n ≤ len (hshs m rid) →
  ∃ m' p', for_each (zrange (cidx m rid / block_size m) n) (commit_one rid i (hshs m rid)) m = (Ok tt, m') ∧
    device_block_pools m' = <[Z.to_nat i := p']> (device_block_pools m) ∧
    length (blks m' rid) = length (blks m rid) ∧ Patched m m' rid i (blks m' rid) ∧
    Committing p p' (rest m rid i) (blks m rid) (blks m' rid) (hshs m rid)
      (Z.to_nat (cidx m rid / block_size m)) (Z.to_nat n).
Proof.
  intros HI Hr Hp Hpi Hk Hn Hh. pose proof (inv_replica _ HI _ _ Hr) as Hi.
  destruct (inv_committed _ HI rid) as (k0 & Ek & Hk0).
  assert (0 ≤ cidx m rid / block_size m) as Hk1.
  { rewrite Ek, Z.div_mul by (pose proof (inv_block_size _ HI); lia). lia. }
  set (k := Z.to_nat (cidx m rid / block_size m)). unfold len in *.
  destruct (commit_loop (Z.to_nat n - k) m rid i p p (rest m rid i) (blks m rid) (hshs m rid) k k)
    as (m' & p' & E & Hp' & Hl & P & HC); try (done || lia).
  - apply (committing_start p fl); rewrite <- (owned_split m rid i Hr); [done|].
    intros r Hx. by apply (inv_private _ HI rid i p r).
  - intros r Hx. destruct (inv_pool _ HI i Hi) as (q & _ & Hq & Hqt & _).
    assert (q = p) as -> by congruence. unfold BlockPool.real. rewrite Hqt. apply (inv_real _ HI i).
    rewrite (owned_split m rid i Hr). apply gmultiset_elem_of_disj_union. left. by apply elem_of_lsd.
  - exists m', p'. replace (k + (Z.to_nat n - k))%nat with (Z.to_nat n) in * by lia.
    split_and!; try done. rewrite <- E. f_equal. f_equal; lia.
Qed.

Lemma near_hshs_quiet m m' rid : Quiet m m' → hshs m' rid = hshs m rid.
Proof. by intros [[]]. Qed.

(** From the loop's result to the invariant. *)
Lemma committed_intro m m4 m6 c i p p' :
  let rid := TextContext.request_id c in
  let k := cidx m rid / block_size m in
  let n := computed_blocks m c in
  Inv m → req_to_replica m !! rid = Some i → device_block_pools m !! Z.to_nat i = Some p →
  k ≤ n → n ≤ len (blks m rid) →
  device_block_pools m4 = <[Z.to_nat i := p']> (device_block_pools m) →
  length (blks m4 rid) = length (blks m rid) → Patched m m4 rid i (blks m4 rid) →
  Committing p p' (rest m rid i) (blks m rid) (blks m4 rid) (hshs m rid) (Z.to_nat k) (Z.to_nat n) →
  config m6 = config m4 → req_to_replica m6 = req_to_replica m4 →
  (∀ rid', blks m6 rid' = blks m4 rid') →
  (∀ rid', cidx m6 rid' = if decide (rid' = rid) then n * block_size m else cidx m4 rid') →
  (∀ rid', hshs m6 rid' = hshs m4 rid') → _pending_transfers m6 = _pending_transfers m4 →
  connector m6 = connector m4 → device_block_pools m6 = device_block_pools m4 →
  _pending_offloads m6 =
    (if n >? k then alter (λ l, l ++ [slice (hshs m rid) k n]) (Z.to_nat i) (_pending_offloads m)
     else _pending_offloads m) →
  Committed m m6 c i p'.
Proof.
  intros rid k n HI Hr Hp Hk Hn Hp4 Hl4 P HC Ec Er Eb Ei Eh Et Ecn Ep Eo.
  assert (∀ rid', rid' ≠ rid → blks m6 rid' = blks m rid' ∧ cidx m6 rid' = cidx m rid') as Hoth.
  { intros rid' Hne. rewrite Eb, Ei, decide_False by done.
    by rewrite (patched_blks _ _ _ _ _ P), (patched_cidx _ _ _ _ _ P), decide_False. }
  assert (Ec6 : config m6 = config m) by (rewrite Ec; apply P).
  assert (Er6 : req_to_replica m6 = req_to_replica m) by (rewrite Er; apply P).
  assert (Et6 : _pending_transfers m6 = _pending_transfers m) by (rewrite Et; apply P).
  assert (Ei6 : cidx m6 rid = n * block_size m) by by rewrite Ei, decide_True.
  pose proof (inv_block_size _ HI) as Hbs. pose proof (near_bs_config _ _ Ec6) as Ebs6.
  assert (0 ≤ k) as Hk0.
  { unfold k. destruct (inv_committed _ HI rid) as (k0 & -> & ?). rewrite Z.div_mul by lia. lia. }
  set (own' := lsd (drop (Z.to_nat k) (blks m4 rid))).
  set (keep := lsd (take (Z.to_nat k) (blks m rid))).
  assert (lsd (blks m6 rid) = own' ⊎ keep) as Emine.
  { rewrite Eb. rewrite <- (take_drop (Z.to_nat k) (blks m4 rid)) at 1.
    rewrite (cg_prefix _ _ _ _ _ _ _ _ HC), list_to_set_disj_app. unfold own', keep. multiset_solver. }
  assert (owned m6 i = own' ⊎ (keep ⊎ rest m rid i)) as Eown.
  { rewrite (owned_split m6 rid i) by by rewrite Er6. rewrite Emine, <- massoc. f_equal.
    apply owned_update; [intros; by apply Hoth|intros; by rewrite Er6|done]. }
  split; fold rid; fold k; fold n; try done.
  - apply (inv_update_request m m6 rid i p p' (lsd (drop (Z.to_nat k) (blks m rid))) own' keep); try done.
    + rewrite <- (take_drop (Z.to_nat k) (blks m rid)) at 1. rewrite list_to_set_disj_app.
      unfold keep. multiset_solver.
    + apply HC.
    + rewrite Eo. destruct (_ >? _); [|done]. unfold len. by rewrite length_alter.
    + by rewrite Ep.
    + intros rid' Hne. rewrite Er6. split; [done|]. by apply Hoth.
    + left. by rewrite Er6.
    + by rewrite Er6, decide_True.
    + pose proof (inv_request m rid HI) as Hok. split.
      * intros j. rewrite Er6, (near_n_config _ _ Ec6). apply Hok.
      * rewrite Er6. congruence.
      * exists n. rewrite Ei6, Ebs6, Eb. unfold len in *. rewrite Hl4. split; [done|]. lia.
      * intros j q r Hj Hq Hx. rewrite Er6 in Hj. assert (j = i) as -> by congruence.
        rewrite Ep, Hp4, list_lookup_insert_eq in Hq by (by eapply lookup_lt_Some).
        injection Hq as <-. rewrite Eown. apply (cg_private _ _ _ _ _ _ _ _ HC).
        unfold tail in Hx. rewrite Ei6, Ebs6, Z.div_mul, Eb in Hx by lia.
        by rewrite (cg_suffix _ _ _ _ _ _ _ _ HC) in Hx.
  - rewrite Eb. unfold len. by rewrite Hl4.
  - intros rid'. rewrite Eh. apply P.
  - rewrite Ecn. apply P.
  - by rewrite Ep.
  - rewrite Eb. apply HC.
  - rewrite Eb. apply HC.
  - intros x r h Hx. rewrite Eb. apply (cg_done _ _ _ _ _ _ _ _ HC). lia.
Qed.

Lemma publish_prefix_run m c i p fl :
  let rid := TextContext.request_id c in
  Inv m → req_to_replica m !! rid = Some i → device_block_pools m !! Z.to_nat i = Some p →
  BlockPool.Inv p fl (owned m i) → cidx m rid / block_size m ≤ computed_blocks m c →
  computed_blocks m c ≤ len (blks m rid) → computed_blocks m c ≤ len (hshs m rid) →
  ∃ m' p', commit_to_prefix_cache c m = (Ok tt, m') ∧ Committed m m' c i p'.
Proof.
  intros rid HI Hr Hp Hpi Hk Hn Hh. pose proof (inv_replica _ HI _ _ Hr) as Hi.
  set (k := cidx m rid / block_size m) in *. set (n := computed_blocks m c) in *.
  destruct (blocks_of_run rid m) as (m1 & E1 & Q1).
  destruct (hashes_of_run rid m1) as (m2 & E2 & Q2).
  destruct (committed_idx_of_run rid m2) as (m3 & E3 & Q3).
  assert (Quiet m m3) as Q by (etrans; [exact Q1|]; by etrans).
  assert (cidx m2 rid = cidx m rid) as Ec2.
  { by rewrite (near_cidx _ _ (quiet_near _ _ Q2)), (near_cidx _ _ (quiet_near _ _ Q1)). }
  assert (hshs m1 rid = hshs m rid) as Eh1 by by apply near_hshs_quiet.
  pose proof (near_bs _ _ (quiet_near _ _ Q)) as Eb3.
  pose proof (near_cidx _ _ (quiet_near _ _ Q) rid) as Ec3.
  pose proof (near_blks _ _ (quiet_near _ _ Q) rid) as Ebl3.
  pose proof (near_hshs_quiet _ _ rid Q) as Eh3.
  destruct (commit_loop_request m3 rid i p fl n) as (m4 & p' & E4 & Hp4 & Hl4 & P4 & HC4).
  { by apply (inv_quiet m). } { by rewrite (near_replica _ _ (quiet_near _ _ Q)). }
  { by apply (quiet_pool_at m). } { by rewrite (quiet_owned _ _ _ Q). }
  { by rewrite Ec3, Eb3. } { by rewrite Ebl3. } { by rewrite Eh3. }
  assert (Patched m m4 rid i (blks m4 rid)) as P by (eapply patched_trans; [by apply patched_quiet|exact P4]).
  assert (rest m3 rid i = rest m rid i) as Erest.
  { apply owned_update; intros; [apply Q|by rewrite (near_replica _ _ (quiet_near _ _ Q))|apply Q]. }
  rewrite Erest, Ebl3, Eh3, Ec3, Eb3 in HC4. fold k in HC4.
  rewrite Ec3, Eb3, Eh3 in E4. fold k in E4. rewrite (quiet_pools _ _ Q) in Hp4.
  (* the pending offload *)
  set (off := if n >? k then alter (λ l, l ++ [slice (hshs m rid) k n]) (Z.to_nat i) (_pending_offloads m)
              else _pending_offloads m).
  set (m5 := if n >? k then set_offloads off m4 else m4).
  set (m6 := set_committed (<[rid := n * block_size m]> (req_to_committed_idx m5)) m5).
  assert (_pending_offloads m4 = _pending_offloads m) as Eoff4 by apply (patched_offloads _ _ _ _ _ P).
  assert (is_Some (_pending_offloads m !! Z.to_nat i)) as [seqs Hseqs].
  { apply lookup_lt_is_Some. pose proof (inv_offloads_len _ HI) as Hol. unfold len in Hol. lia. }
  assert (commit_to_prefix_cache c m = (Ok tt, m6)) as E.
  { unfold commit_to_prefix_cache. fold rid. unfold bind at 1, get.
    mstep (replica_of_run rid i m Hr). mstep (pool_at_run i m p (proj1 Hi) Hp).
    mstep E1. mstep E2. mstep E3. cbv zeta. rewrite Eh1, Ec2. fold k. fold (computed_blocks m c). fold n.
    fold (commit_one rid i (hshs m rid)).
    mstep E4. unfold m6, m5, off. destruct (n >? k) eqn:Enk; [|done].
    unfold when, bind, get, of_option. rewrite Eoff4.
    rewrite (py_index_pools _ i seqs) by (done || lia). unfold ret, modify, put_committed, modify.
    unfold position. replace (i <? 0) with false by lia. rewrite Eoff4.
    f_equal. f_equal. f_equal. apply list_eq. intros j. rewrite list_lookup_alter.
    destruct (decide (j = Z.to_nat i)) as [->|Hne].
    - rewrite list_lookup_insert_eq by (by eapply lookup_lt_Some). rewrite decide_True by done. by rewrite Hseqs.
    - by rewrite list_lookup_insert_ne, decide_False by congruence. }
  exists m6, p'. split; [done|]. apply (committed_intro m m4 m6 c i p p'); try done.
  - fold rid. by rewrite Hl4, Ebl3.
  - unfold m6, m5. by destruct (n >? k).
  - unfold m6, m5. by destruct (n >? k).
  - intros rid'. unfold m6, m5. by destruct (n >? k).
  - intros rid'. unfold m6, m5. rewrite cidx_put. by destruct (n >? k).
  - intros rid'. unfold m6, m5. by destruct (n >? k).
  - unfold m6, m5. by destruct (n >? k).
  - unfold m6, m5. by destruct (n >? k).
  - unfold m6, m5. by destruct (n >? k).
  - unfold m6, m5, off. fold rid k n. by destruct (n >? k).
Qed.

(** *** Transfers *)


Lemma pools_after (m : t) i p p' :
  device_block_pools m !! i = Some p →
  device_block_pools (set_pools (<[i := p']> (device_block_pools m)) m) !! i = Some p'.
Proof. intros Hp. apply list_lookup_insert_eq. by eapply lookup_lt_Some. Qed.

Definition publish_one (i : Z) (r : Z) (block_hash : bytes) : M t unit :=
  let! pool := pool_at i in
  let! b := on_pool i (BlockPool.block r) in
  when (bool_decide (KVCacheBlock.block_hash b = None)
        && bool_decide (BlockPool.prefix_cache pool !! block_hash = None))
    (on_pool i (BlockPool.commit_into_prefix_cache block_hash r)).

Lemma publish_one_run i m p fl own others r h :
  0 ≤ i → device_block_pools m !! Z.to_nat i = Some p → BlockPool.Inv p fl (own ⊎ others) →
  BlockPool.real p r → r ∈ own →
  ∃ p', publish_one i r h m = (Ok tt, set_pools (<[Z.to_nat i := p']> (device_block_pools m)) m) ∧
    Step p own others p' own ∧
    (∀ g, is_Some (BlockPool.prefix_cache p !! g) → is_Some (BlockPool.prefix_cache p' !! g)) ∧
    (BlockPool.cached_hash p r = None → is_Some (BlockPool.prefix_cache p' !! h)) ∧
    (∀ x, x ≠ r → BlockPool.cached_hash p' x = BlockPool.cached_hash p x).
Proof.
  intros Hi Hp HI Hr Ho.
  destruct (BlockPool.inv_real _ _ _ _ HI Hr) as (b & b0 & Hv & Hb & _ & _ & _ & _ & _ & _ & Hbh & _).
  assert (BlockPool.cached_hash p r = KVCacheBlock.block_hash b0) as Hc.
  { unfold BlockPool.cached_hash. by rewrite Hv. }
  unfold publish_one. mstep (pool_at_run i m p Hi Hp). mstep (block_at_run i m p r b0 Hi Hp Hb).
  destruct (decide (KVCacheBlock.block_hash b0 = None ∧ BlockPool.prefix_cache p !! h = None))
    as [[Hz Hh]|Hno].
  - rewrite !bool_decide_eq_true_2 by done. simpl.
    destruct (commit_step p fl own others h r HI Hr Ho) as (p' & E & HS & _ & Hx & Hpc); [congruence|done|].
    exists p'. split_and!; [by apply on_pool_run with p|done| | |].
    + intros g Hg. rewrite Hpc. apply lookup_insert_is_Some. destruct (decide (h = g)); auto.
    + intros _. rewrite Hpc, lookup_insert_eq. eauto.
    + intros x Hne. by rewrite Hx, decide_False.
  - exists p. rewrite list_insert_id, set_pools_same by done. split_and!; [|by eapply step_refl|done| |done].
    + rewrite (proj2 (andb_false_iff _ _)); [done|]. apply not_and_l in Hno as [?|?]; [left|right];
        by apply bool_decide_eq_false_2.
    + rewrite Hc. intros Hz. apply not_and_l in Hno as [?|Hh]; [done|].
      by apply not_eq_None_Some.
Qed.

Lemma publish_loop i l hs m p fl own others :
  0 ≤ i → device_block_pools m !! Z.to_nat i = Some p → BlockPool.Inv p fl (own ⊎ others) →
  (∀ r, r ∈ l → BlockPool.real p r ∧ r ∈ own) → length hs = length l →
  ∃ p', for_zip_strict l hs (publish_one i) m =
      (Ok tt, set_pools (<[Z.to_nat i := p']> (device_block_pools m)) m) ∧ Step p own others p' own ∧
    (∀ g, is_Some (BlockPool.prefix_cache p !! g) → is_Some (BlockPool.prefix_cache p' !! g)) ∧
    (NoDup l → (∀ r, r ∈ l → BlockPool.cached_hash p r = None) →
     ∀ h, h ∈ hs → is_Some (BlockPool.prefix_cache p' !! h)).
Proof.
  intros Hi. revert hs m p fl. induction l as [|r l IH]; intros [|h hs] m p fl Hp HI Hl Hlen; try done.
  - exists p. rewrite list_insert_id, set_pools_same by done. split_and!; [done|by eapply step_refl|done|].
    intros _ _ h Hh. by apply not_elem_of_nil in Hh.
  - destruct (Hl r) as [Hr Ho]; [left|].
    destruct (publish_one_run i m p fl own others r h Hi Hp HI Hr Ho) as (p1 & E1 & S1 & Hm1 & Hh1 & Hx1).
    destruct (step_inv _ _ _ _ _ S1) as [fl1 HI1].
    destruct (IH hs (set_pools (<[Z.to_nat i := p1]> (device_block_pools m)) m) p1 fl1)
      as (p2 & E2 & S2 & Hm2 & Hh2); [by eapply pools_after|done| |simpl in Hlen; lia|].
    { intros x Hx. destruct (step_config _ _ _ _ _ S1) as [Ht _]. unfold BlockPool.real. rewrite Ht.
      apply Hl. by right. }
    exists p2. split_and!.
    + simpl. mstep E1. rewrite E2. simpl. by rewrite list_insert_insert_eq, set_pools_twice.
    + by eapply step_trans.
    + auto.
    + intros [Hnr Hnd]%NoDup_cons Hz g [->|Hg]%elem_of_cons.
      * apply Hm2, Hh1, Hz. left.
      * apply Hh2; [done| |done]. intros x Hx. rewrite Hx1; [apply Hz; by right|]. by intros ->.
Qed.

Lemma settle_run i m p fl tr others :
  0 ≤ i → device_block_pools m !! Z.to_nat i = Some p →
  BlockPool.Inv p fl (lsd (blocks tr) ⊎ others) → (∀ r, r ∈ blocks tr → BlockPool.real p r) →
  (∀ hs, commit_hashes tr = Some hs → length hs = length (blocks tr)) →
  ∃ p', settle i tr m = (Ok tt, set_pools (<[Z.to_nat i := p']> (device_block_pools m)) m) ∧
    Step p (lsd (blocks tr)) others p' ∅ ∧
    (∀ hs, commit_hashes tr = Some hs → NoDup (blocks tr) →
     (∀ r, r ∈ blocks tr → BlockPool.cached_hash p r = None) →
     ∀ h, h ∈ hs → is_Some (BlockPool.prefix_cache p' !! h)).
Proof.
  intros Hi Hp HI Hreal Hlen. unfold settle. fold (publish_one i).
  destruct (commit_hashes tr) as [hs|].
  - destruct (publish_loop i (blocks tr) hs m p fl (lsd (blocks tr)) others Hi Hp HI)
      as (p1 & E1 & S1 & _ & Hpub); [|by apply Hlen|].
    { intros r Hr. split; [by apply Hreal|]. by apply elem_of_lsd. }
    destruct (step_inv _ _ _ _ _ S1) as [fl1 HI1].
    destruct (free_loop i (blocks tr) (set_pools (<[Z.to_nat i := p1]> (device_block_pools m)) m) p1 fl1 others)
      as (p2 & E2 & S2 & _ & _ & Hpc); [done|by eapply pools_after|done| |].
    { intros r Hr. destruct (step_config _ _ _ _ _ S1) as [Ht _]. unfold BlockPool.real. rewrite Ht.
      by apply Hreal. }
    exists p2. split_and!.
    + mstep E1. rewrite E2. simpl. by rewrite list_insert_insert_eq, set_pools_twice.
    + by eapply step_trans.
    + intros hs' [= <-] Hnd Hz h Hh. rewrite Hpc. by apply Hpub.
  - destruct (free_loop i (blocks tr) m p fl others Hi Hp HI Hreal) as (p2 & E2 & S2 & _).
    exists p2. by split_and!.
Qed.

(** Whether the manager would find the transfer complete. *)
Definition landed m (tr : _PendingTransfer) : bool := is_complete (event tr) (connector m).

Definition poll_one (i : Z) (still_pending : list _PendingTransfer) (pending : _PendingTransfer)
    : M t (list _PendingTransfer) :=
  let! m := get in
  if negb (is_complete (event pending) (connector m))
  then ret (still_pending ++ [pending])
  else settle i pending;; ret still_pending.

Lemma poll_one_landed i acc tr m m' :
  landed m tr = true → settle i tr m = (Ok tt, m') → poll_one i acc tr m = (Ok acc, m').
Proof.
  intros Hl E. unfold poll_one. unfold bind at 1, get. fold (landed m tr). rewrite Hl. simpl. by mstep E.
Qed.
Lemma poll_one_waiting i acc tr m :
  landed m tr = false → poll_one i acc tr m = (Ok (acc ++ [tr]), m).
Proof. intros Hl. unfold poll_one, bind, get. fold (landed m tr). by rewrite Hl. Qed.

Lemma pinned_app l1 l2 : pinned (l1 ++ l2) = pinned l1 ⊎ pinned l2.
Proof.
  induction l1 as [|x l1 IH]; simpl; [by rewrite (left_id_L ∅ disj_union)|]. by rewrite IH, massoc.
Qed.

Lemma elem_of_pinned r l : r ∈ pinned l ↔ ∃ tr, tr ∈ l ∧ r ∈ blocks tr.
Proof.
  induction l as [|x l IH]; simpl.
  - split; [multiset_solver|]. intros (? & Hx & _). by apply not_elem_of_nil in Hx.
  - rewrite gmultiset_elem_of_disj_union, IH, elem_of_lsd. split.
    + intros [?|(tr & ? & ?)]; [exists x|exists tr]; split; try done; [left|by right].
    + intros (tr & [->|?]%elem_of_cons & ?); [by left|right; eauto].
Qed.

Lemma pinned_filter (P : _PendingTransfer → bool) l :
  pinned l = pinned (filter (λ tr, P tr = true) l) ⊎ pinned (filter (λ tr, P tr = false) l).
Proof.
  induction l as [|x l IH]; simpl; [by rewrite (left_id_L ∅ disj_union)|].
  rewrite !filter_cons, IH. destruct (P x); simpl; multiset_solver.
Qed.

Lemma poll_inner i l acc m p fl others :
  0 ≤ i → device_block_pools m !! Z.to_nat i = Some p →
  BlockPool.Inv p fl (pinned (filter (λ tr, landed m tr = true) l) ⊎ others) →
  (∀ tr r, tr ∈ l → r ∈ blocks tr → BlockPool.real p r) →
  (∀ tr hs, tr ∈ l → commit_hashes tr = Some hs → length hs = length (blocks tr)) →
  ∃ p', for_fold l acc (poll_one i) m =
      (Ok (acc ++ filter (λ tr, landed m tr = false) l),
       set_pools (<[Z.to_nat i := p']> (device_block_pools m)) m) ∧
    Step p (pinned (filter (λ tr, landed m tr = true) l)) others p' ∅.
Proof.
  intros Hi. revert acc m p fl. induction l as [|tr l IH]; intros acc m p fl Hp HI Hreal Hlen.
  - exists p. simpl. rewrite app_nil_r, list_insert_id, set_pools_same by done.
    split; [done|]. by eapply step_refl.
  - simpl. rewrite !filter_cons in *. destruct (landed m tr) eqn:El; simpl in *.
    + rewrite massoc in HI.
      destruct (settle_run i m p fl tr _ Hi Hp HI) as (p1 & E1 & S1 & _);
        [intros r; apply Hreal; left|intros hs; apply Hlen; left|].
      destruct (step_inv _ _ _ _ _ S1) as [fl1 HI1]. rewrite (left_id_L ∅ disj_union) in HI1.
      set (m1 := set_pools (<[Z.to_nat i := p1]> (device_block_pools m)) m) in *.
      destruct (IH acc m1 p1 fl1) as (p2 & E2 & S2); [by eapply pools_after|done| | |].
      { intros x r Hx Hr. destruct (step_config _ _ _ _ _ S1) as [Ht _]. unfold BlockPool.real.
        rewrite Ht. apply (Hreal x); [by right|done]. }
      { intros x hs Hx. apply Hlen. by right. }
      exists p2. split.
      * mstep (poll_one_landed i acc tr m m1 El E1). rewrite E2. unfold m1. simpl. by rewrite list_insert_insert_eq, set_pools_twice.
      * eapply step_trans; [|exact S2]. rewrite (comm_L disj_union (lsd (blocks tr))).
        pose proof (step_frame _ _ _ _ _ _ S1) as SF. rewrite (right_id_L ∅ disj_union) in SF.
        apply SF. multiset_solver.
    + mstep (poll_one_waiting i acc tr m El). destruct (IH (acc ++ [tr]) m p fl) as (p2 & E2 & S2); [done|done| | |].
      { intros x r Hx. apply Hreal. by right. }
      { intros x hs Hx. apply Hlen. by right. }
      exists p2. split; [|done]. rewrite E2. by rewrite <- app_assoc.
Qed.

(** The requests' entries, the offload queue and the connector are untouched. *)
Record Untouched m m' : Prop := {
  un_config : config m' = config m;
  un_replica : req_to_replica m' = req_to_replica m;
  un_blocks : req_to_blocks m' = req_to_blocks m;
  un_hashes : req_to_hashes m' = req_to_hashes m;
  un_committed : req_to_committed_idx m' = req_to_committed_idx m;
  un_offloads : _pending_offloads m' = _pending_offloads m;
  un_connector : connector m' = connector m
}.
#[export] Instance untouched_preorder : PreOrder Untouched.
Proof. split; [done|]. intros m1 m2 m3 [] []. split; congruence. Qed.

Lemma un_blks m m' rid : Untouched m m' → blks m' rid = blks m rid.
Proof. intros []. unfold blks. by rewrite un_blocks0. Qed.
Lemma un_cidx m m' rid : Untouched m m' → cidx m' rid = cidx m rid.
Proof. intros []. unfold cidx. by rewrite un_committed0. Qed.

Lemma blks_in_req_owned m rid i r :
  req_to_replica m !! rid = Some i → r ∈ blks m rid →
  r ∈ req_owned (req_to_replica m) (req_to_blocks m) i.
Proof.
  intros Hr Hx. rewrite (req_owned_split _ _ rid), decide_True by done.
  apply gmultiset_elem_of_disj_union. left. by apply elem_of_lsd.
Qed.

(** The transfers of replica [i] became [l], trading [own] for [own'] with the pool. *)
Lemma inv_update_transfers m m' i p p' own own' keep l :
  Inv m → 0 ≤ i < num_replicas m → device_block_pools m !! Z.to_nat i = Some p →
  pinned (transfers_at m i) = own ⊎ keep →
  Step p own (req_owned (req_to_replica m) (req_to_blocks m) i ⊎ keep) p' own' →
  Untouched m m' → _pending_transfers m' = <[Z.to_nat i := l]> (_pending_transfers m) →
  device_block_pools m' = <[Z.to_nat i := p']> (device_block_pools m) →
  pinned l = own' ⊎ keep →
  (∀ tr hs, tr ∈ l → commit_hashes tr = Some hs → length hs = length (blocks tr)) → Inv m'.
Proof.
  intros HI Hi Hp Hpin HS HU Ht Hpools Hpin' Hl.
  assert (length (_pending_transfers m) = Z.to_nat (num_replicas m)) as Hlen.
  { pose proof (inv_transfers_len _ HI) as E. unfold len in E. lia. }
  assert (transfers_at m' i = l) as Hti.
  { unfold transfers_at. rewrite decide_True by lia. rewrite Ht, list_lookup_insert_eq; [done|lia]. }
  assert (∀ j, j ≠ i → transfers_at m' j = transfers_at m j) as Htj.
  { intros j Hj. unfold transfers_at. case_decide; [|done]. by rewrite Ht, list_lookup_insert_ne by lia. }
  apply (inv_replace m m' i p p' own own' (req_owned (req_to_replica m) (req_to_blocks m) i ⊎ keep)
    (λ _, False)); try done.
  - unfold owned. rewrite Hpin. multiset_solver.
  - apply HU.
  - by rewrite (un_offloads _ _ HU).
  - rewrite Ht. unfold len. by rewrite length_insert.
  - intros j tr hs. destruct (decide (j = i)) as [->|E]; [rewrite Hti; apply Hl|].
    rewrite Htj by done. apply (inv_transfers _ HI).
  - unfold owned. rewrite Hti, Hpin', (un_replica _ _ HU), (un_blocks _ _ HU). multiset_solver.
  - intros j Hj. unfold owned. rewrite (un_replica _ _ HU), (un_blocks _ _ HU). by rewrite Htj.
  - intros rid _. rewrite (un_replica _ _ HU), (un_blks _ _ rid HU), (un_cidx _ _ rid HU). done.
  - intros rid r _ Hr Hx. apply gmultiset_elem_of_disj_union. left. by eapply blks_in_req_owned.
  - intros rid. apply _.
Qed.

Definition poll_replica (i : Z) (pending_list : list _PendingTransfer) : M t unit :=
  if bool_decide (pending_list = []) then ret tt else
  let! _ := pool_at i in
  let! still_pending := for_fold pending_list [] (poll_one i) in
  put_transfers i still_pending.

Lemma poll_replica_run m i l :
  Inv m → 0 ≤ i < num_replicas m → _pending_transfers m !! Z.to_nat i = Some l →
  ∃ m', poll_replica i l m = (Ok tt, m') ∧ Inv m' ∧ Untouched m m' ∧
    _pending_transfers m' = <[Z.to_nat i := filter (λ tr, landed m tr = false) l]> (_pending_transfers m).
Proof.
  intros HI Hi Hl. unfold poll_replica. destruct (decide (l = [])) as [->|Hne].
  { rewrite bool_decide_eq_true_2 by done. exists m. by rewrite list_insert_id. }
  rewrite bool_decide_eq_false_2 by done.
  destruct (inv_pool _ HI i Hi) as (p & fl & Hp & Ht & Hpi).
  assert (transfers_at m i = l) as Hti.
  { unfold transfers_at. rewrite decide_True by lia. by rewrite Hl. }
  set (rest_of := req_owned (req_to_replica m) (req_to_blocks m) i
                    ⊎ pinned (filter (λ tr, landed m tr = false) l)).
  destruct (poll_inner i l [] m p fl rest_of) as (p' & E & HS); [lia|done| | | |].
  - unfold owned in Hpi. rewrite Hti, (pinned_filter (landed m)) in Hpi. unfold rest_of.
    replace (pinned (filter (λ tr, landed m tr = true) l) ⊎ _) with
      (req_owned (req_to_replica m) (req_to_blocks m) i ⊎
        (pinned (filter (λ tr, landed m tr = true) l) ⊎ pinned (filter (λ tr, landed m tr = false) l)));
      [done|multiset_solver].
  - intros tr r Htr Hr. unfold BlockPool.real. rewrite Ht. apply (inv_real _ HI i).
    unfold owned. rewrite Hti. apply gmultiset_elem_of_disj_union. right. apply elem_of_pinned. eauto.
  - intros tr hs Htr. apply (inv_transfers _ HI i). by rewrite Hti.
  - set (m1 := set_pools (<[Z.to_nat i := p']> (device_block_pools m)) m) in *.
    set (still := filter (λ tr, landed m tr = false) l) in *.
    assert (0 ≤ i) as Hi0 by lia.
    exists (set_transfers (<[Z.to_nat i := still]> (_pending_transfers m)) m1). split_and!; try done.
    + mstep (pool_at_run i m p Hi0 Hp). mstep E. unfold put_transfers, modify, position.
      by replace (i <? 0) with false by lia.
    + apply (inv_update_transfers m _ i p p' (pinned (filter (λ tr, landed m tr = true) l)) ∅
        (pinned still) still); try done.
      * rewrite Hti. apply pinned_filter.
      * by rewrite (left_id_L ∅ disj_union).
      * intros tr hs [_ Htr]%list_elem_of_filter. apply (inv_transfers _ HI i). by rewrite Hti.
Qed.

Lemma poll_loop L j m :
  Inv m → drop j (_pending_transfers m) = L →
  ∃ m', for_each (zip (zrange (Z.of_nat j) (Z.of_nat (j + length L))) L)
          (λ '(i, l), poll_replica i l) m = (Ok tt, m') ∧ Inv m' ∧ Untouched m m' ∧
    _pending_transfers m' =
      take j (_pending_transfers m) ++ ((λ l, filter (λ tr, landed m tr = false) l) <$> L).
Proof.
  revert j m. induction L as [|l L IH]; intros j m HI Hd.
  - exists m. replace (zrange (Z.of_nat j) (Z.of_nat (j + length (@nil (list _PendingTransfer)))))
      with (@nil Z) by (simpl; by rewrite zrange_empty by lia).
    split_and!; try done. simpl. rewrite app_nil_r.
    symmetry. apply take_ge. apply (f_equal length) in Hd. rewrite length_drop in Hd. simpl in Hd. lia.
  - simpl length. rewrite zrange_cons by lia. simpl.
    assert (_pending_transfers m !! j = Some l) as Hl.
    { rewrite <- (Nat.add_0_r j), <- lookup_drop, Hd. done. }
    pose proof (lookup_lt_Some _ _ _ Hl) as Hlt.
    assert (0 ≤ Z.of_nat j < num_replicas m) as Hj.
    { pose proof (inv_transfers_len _ HI) as E. unfold len in E. lia. }
    destruct (poll_replica_run m (Z.of_nat j) l HI Hj) as (m1 & E1 & HI1 & HU1 & Ht1);
      [by rewrite Nat2Z.id|]. rewrite Nat2Z.id in Ht1.
    destruct (IH (S j) m1 HI1) as (m2 & E2 & HI2 & HU2 & Ht2).
    { rewrite Ht1, drop_insert_lt by lia. apply (f_equal (drop 1)) in Hd. rewrite drop_drop in Hd.
      simpl in Hd. by rewrite Nat.add_1_r in Hd. }
    exists m2. split_and!; [|done|by etrans|].
    + mstep E1. replace (Z.of_nat j + 1) with (Z.of_nat (S j)) by lia.
      by replace (j + S (length L))%nat with (S j + length L)%nat by lia.
    + rewrite Ht2, Ht1. rewrite (take_S_r _ j (filter (λ tr, landed m tr = false) l)).
      2:{ apply list_lookup_insert_eq. lia. }
      rewrite take_insert_ge, <- app_assoc by lia. f_equal. simpl. f_equal.
      apply list_fmap_ext. intros ? x _. apply filter_ext_in. intros tr _. unfold landed.
      by rewrite (un_connector _ _ HU1).
Qed.

Lemma poll_run m :
  Inv m → ∃ m', poll_transfers m = (Ok tt, m') ∧ Inv m' ∧ Untouched m m' ∧
    _pending_transfers m' = (λ l, filter (λ tr, landed m tr = false) l) <$> _pending_transfers m.
Proof.
  intros HI. destruct (poll_loop (_pending_transfers m) 0 m HI) as (m' & E & HI' & HU & Ht); [done|].
  exists m'. by split_and!.
Qed.

(** *** Offloading *)

Lemma touch_loop i l m p fl own others :
  0 ≤ i → device_block_pools m !! Z.to_nat i = Some p → BlockPool.Inv p fl (own ⊎ others) →
  (∀ r, r ∈ l → BlockPool.real p r ∧ (r ∈ own ∨ BlockPool.cached_hash p r ≠ None)) →
  ∃ p', for_each l (λ r, on_pool i (BlockPool.touch r)) m =
      (Ok tt, set_pools (<[Z.to_nat i := p']> (device_block_pools m)) m) ∧
    Step p own others p' (lsd l ⊎ own) ∧
    (∀ x, BlockPool.cached_hash p' x = BlockPool.cached_hash p x) ∧
    BlockPool.prefix_cache p' = BlockPool.prefix_cache p.
Proof.
  intros Hi. revert m p fl own. induction l as [|r l IH]; intros m p fl own Hp HI Hl.
  - exists p. simpl. rewrite list_insert_id, set_pools_same, (left_id_L ∅ disj_union) by done.
    split_and!; [done|by eapply step_refl|done|done].
  - destruct (Hl r) as [Hr Hor]; [left|].
    destruct (touch_step p fl own others r HI Hr Hor) as (p1 & E1 & S1 & Hx1 & Hc1).
    destruct (step_inv _ _ _ _ _ S1) as [fl1 HI1].
    destruct (IH (set_pools (<[Z.to_nat i := p1]> (device_block_pools m)) m) p1 fl1 ({[+ r +]} ⊎ own))
      as (p2 & E2 & S2 & Hx2 & Hc2); [by eapply pools_after|done| |].
    { intros x Hx. destruct (Hl x) as [Hrx Hox]; [by right|]. split.
      - destruct (step_config _ _ _ _ _ S1) as [Ht _]. unfold BlockPool.real in *. by rewrite Ht.
      - rewrite Hx1. destruct Hox; [left; multiset_solver|by right]. }
    exists p2. split_and!.
    + simpl. mstep (on_pool_run _ _ _ _ _ _ Hi Hp E1). rewrite E2. simpl.
      by rewrite list_insert_insert_eq, set_pools_twice.
    + replace (lsd (r :: l) ⊎ own) with (lsd l ⊎ ({[+ r +]} ⊎ own)); [by eapply step_trans|].
      simpl. multiset_solver.
    + intros x. by rewrite Hx2, Hx1.
    + congruence.
Qed.

Lemma track_run i m p fl own others e bs ch :
  0 ≤ i → device_block_pools m !! Z.to_nat i = Some p → BlockPool.Inv p fl (own ⊎ others) →
  is_Some (_pending_transfers m !! Z.to_nat i) → bs ≠ [] →
  (∀ r, r ∈ bs → BlockPool.real p r ∧ (r ∈ own ∨ BlockPool.cached_hash p r ≠ None)) →
  ∃ p', _track_transfer e bs i ch m =
      (Ok tt, set_transfers (<[Z.to_nat i := transfers_at m i ++ [pending_transfer _ e bs ch]]>
                               (_pending_transfers m))
                (set_pools (<[Z.to_nat i := p']> (device_block_pools m)) m)) ∧
    Step p own others p' (lsd bs ⊎ own) ∧
    (∀ x, BlockPool.cached_hash p' x = BlockPool.cached_hash p x) ∧
    BlockPool.prefix_cache p' = BlockPool.prefix_cache p.
Proof.
  intros Hi Hp HI [l Hl] Hbs Hr.
  destruct (touch_loop i bs m p fl own others Hi Hp HI Hr) as (p' & E & HS & Hx & Hc).
  exists p'. split; [|done]. unfold _track_transfer. rewrite bool_decide_eq_false_2 by done.
  mstep (pool_at_run i m p Hi Hp). mstep E.
  set (m1 := set_pools _ _). assert (pending_transfers_at i m1 = (Ok l, m1)) as E1.
  { unfold pending_transfers_at, bind, get. change (_pending_transfers m1) with (_pending_transfers m).
    by rewrite (py_index_pools _ i l Hi Hl). }
  mstep E1. unfold transfers_at. rewrite decide_True, Hl by done.
  unfold put_transfers, modify, position. by replace (i <? 0) with false by lia.
Qed.

(** The requests keep what they have. *)
Record Served m m' : Prop := {
  sv_config : config m' = config m;
  sv_replica : req_to_replica m' = req_to_replica m;
  sv_blocks : req_to_blocks m' = req_to_blocks m;
  sv_hashes : req_to_hashes m' = req_to_hashes m;
  sv_committed : req_to_committed_idx m' = req_to_committed_idx m
}.
#[export] Instance served_preorder : PreOrder Served.
Proof. split; [done|]. intros m1 m2 m3 [] []. split; congruence. Qed.

Lemma inv_connector c m : Inv m → Inv (set_connector c m).
Proof. intros []. by split. Qed.

Lemma inv_offloads l m : Inv m → len l = num_replicas m → Inv (set_offloads l m).
Proof. intros [] Hl. by split. Qed.

Definition offload_one (i : Z) (hashes : list bytes) : M t unit :=
  let! pool := pool_at i in
  let run := resolve pool hashes in
  let! block_ids := for_map run.*2 (λ r,
    let! b := on_pool i (BlockPool.block r) in ret (KVCacheBlock._bid b)) in
  if bool_decide (run = []) then ret tt else
  let! event := on_connector (Connector.offload block_ids run.*1 i) in
  let! m := get in
  when (negb (is_complete event (connector m))) (_track_transfer event run.*2 i None).

Lemma resolve_cached pool hashes r :
  r ∈ (resolve pool hashes).*2 → ∃ h, BlockPool.prefix_cache pool !! h = Some r.
Proof.
  induction hashes as [|h hashes IH]; simpl; [by intros ?%not_elem_of_nil|].
  destruct (_ !! h) as [c|] eqn:E; simpl; [|by intros ?%not_elem_of_nil].
  intros [->|Hr]%elem_of_cons; eauto.
Qed.

Lemma bids_run i m p fl owned l :
  0 ≤ i → device_block_pools m !! Z.to_nat i = Some p → BlockPool.Inv p fl owned →
  (∀ r, r ∈ l → BlockPool.real p r) →
  for_map l (λ r, let! b := on_pool i (BlockPool.block r) in ret (KVCacheBlock._bid b)) m = (Ok l, m).
Proof.
  intros Hi Hp HI. induction l as [|r l IH]; intros Hl; [done|]. simpl.
  destruct (BlockPool.inv_real _ _ _ _ HI (Hl r ltac:(left))) as (b & b0 & _ & Hb & _ & _ & _ & Hid & _).
  erewrite bind_run; [|mstep (block_at_run i m p r b0 Hi Hp Hb); done].
  rewrite (bind_run _ _ _ _ _ (IH (λ x Hx, Hl x (list_elem_of_further _ _ _ Hx)))).
  simpl. by rewrite Hid.
Qed.

Lemma on_connector_run {A} (f : M conn A) m r c :
  f (connector m) = (r, c) → on_connector f m = (r, set_connector c m).
Proof. intros E. unfold on_connector, zoom. by rewrite E. Qed.

Lemma real_at m i p fl r :
  Inv m → 0 ≤ i < num_replicas m → device_block_pools m !! Z.to_nat i = Some p →
  BlockPool.Inv p fl (owned m i) → r ∈ owned m i → BlockPool.real p r.
Proof.
  intros HI Hi Hp _ Hr. destruct (inv_pool _ HI i Hi) as (q & _ & Hq & Hqt & _).
  assert (q = p) as -> by congruence. unfold BlockPool.real. rewrite Hqt. by apply (inv_real _ HI i).
Qed.

Lemma offload_one_run `{!KVConnectorLaws} i hashes m :
  Inv m → 0 ≤ i < num_replicas m →
  ∃ m', offload_one i hashes m = (Ok tt, m') ∧ Inv m' ∧ Served m m' ∧
    _pending_offloads m' = _pending_offloads m.
Proof.
  intros HI Hi. destruct (inv_pool _ HI i Hi) as (p & fl & Hp & Ht & Hpi).
  assert (0 ≤ i) as Hi0 by lia.
  set (run := resolve p hashes).
  assert (∀ r, r ∈ run.*2 → BlockPool.real p r ∧ BlockPool.cached_hash p r ≠ None) as Hrun.
  { intros r Hr. destruct (resolve_cached _ _ _ Hr) as [h Hh].
    split; [by eapply BlockPool.inv_cached_real|].
    apply (cached_spec _ _ _ _ _ Hpi) in Hh. congruence. }
  unfold offload_one. mstep (pool_at_run i m p Hi0 Hp). cbv zeta. fold run.
  mstep (bids_run i m p fl (owned m i) run.*2 Hi0 Hp Hpi (λ r Hr, proj1 (Hrun r Hr))).
  destruct (decide (run = [])) as [->|Hne]; [by exists m|].
  rewrite bool_decide_eq_false_2 by done.
  destruct (offload_law (connector m) run.*2 run.*1 i) as (e & c & El).
  mstep (on_connector_run _ _ _ _ El). set (m1 := set_connector c m).
  unfold bind at 1, get. simpl. destruct (negb _) eqn:Ec; simpl.
  2:{ exists m1. split_and!; [done|by apply inv_connector|by split|done]. }
  assert (is_Some (_pending_transfers m !! Z.to_nat i)) as Hsome.
  { apply lookup_lt_is_Some. pose proof (inv_transfers_len _ HI) as E. unfold len in E. lia. }
  assert (owned m i = ∅ ⊎ owned m i) as Eo by (by rewrite (left_id_L ∅ disj_union)).
  assert (run.*2 ≠ []) as Hne2 by (by destruct run).
  destruct (track_run i m1 p fl ∅ (owned m i) e run.*2 None) as (p' & E & HS & _); try done.
  { by rewrite <- Eo. } { intros r Hr. split; [by apply Hrun|]. right. by apply Hrun. }
  eexists. split; [exact E|]. set (m2 := set_transfers _ _). split; [|by split].
  apply (inv_update_transfers m1 m2 i p p' ∅ (lsd run.*2 ⊎ ∅) (pinned (transfers_at m i))
    (transfers_at m i ++ [pending_transfer _ e run.*2 None])); try done.
  - by apply inv_connector.
  - by rewrite (left_id_L ∅ disj_union).
  - rewrite pinned_app. simpl. multiset_solver.
  - intros tr hs [Htr| ->%list_elem_of_singleton]%elem_of_app; [|done]. by apply (inv_transfers _ HI i).
Qed.

Lemma offload_loop `{!KVConnectorLaws} i L m :
  Inv m → 0 ≤ i < num_replicas m →
  ∃ m', for_each L (offload_one i) m = (Ok tt, m') ∧ Inv m' ∧ Served m m' ∧
    _pending_offloads m' = _pending_offloads m.
Proof.
  revert m. induction L as [|hs L IH]; intros m HI Hi; [by exists m|].
  destruct (offload_one_run i hs m HI Hi) as (m1 & E1 & HI1 & S1 & O1).
  destruct (IH m1 HI1) as (m2 & E2 & HI2 & S2 & O2).
  { by rewrite (near_n_config _ _ (sv_config _ _ S1)). }
  exists m2. simpl. mstep E1. split_and!; [done|done|by etrans|congruence].
Qed.

Lemma offload_run `{!KVConnectorLaws} i m :
  Inv m → 0 ≤ i < num_replicas m →
  ∃ m', offload i m = (Ok tt, m') ∧ Inv m' ∧ Served m m' ∧
    _pending_offloads m' = <[Z.to_nat i := []]> (_pending_offloads m).
Proof.
  intros HI Hi. destruct (inv_pool _ HI i Hi) as (p & fl & Hp & _).
  assert (0 ≤ i) as Hi0 by lia.
  assert (is_Some (_pending_offloads m !! Z.to_nat i)) as [L HL].
  { apply lookup_lt_is_Some. pose proof (inv_offloads_len _ HI) as E. unfold len in E. lia. }
  destruct (offload_loop i L m HI Hi) as (m1 & E1 & HI1 & S1 & O1).
  exists (set_offloads (<[Z.to_nat i := []]> (_pending_offloads m1)) m1). split_and!.
  - unfold offload. mstep (pool_at_run i m p Hi0 Hp). unfold bind at 1, get.
    rewrite (py_index_pools _ i L Hi0 HL). unfold of_option. unfold bind at 1, ret.
    fold (offload_one i). mstep E1. unfold modify, position. by replace (i <? 0) with false by lia.
  - apply inv_offloads; [done|]. unfold len. rewrite length_insert.
    pose proof (inv_offloads_len _ HI1) as E. unfold len in E. done.
  - destruct S1. by split.
  - simpl. by rewrite O1.
Qed.

(** *** Claims, resets *)

Lemma claim_run m rid i :
  Inv m → 0 ≤ i < num_replicas m →
  (is_Some (req_to_replica m !! rid) → claim rid i m = (Raise ValueError, m)) ∧
  (req_to_replica m !! rid = None →
   ∃ m', claim rid i m = (Ok tt, m') ∧ m' = set_replicas (<[rid := i]> (req_to_replica m)) m ∧ Inv m').
Proof.
  intros HI Hi. unfold claim, bind, get. split; [by intros [j ->]|]. intros Hr. rewrite Hr.
  eexists. split; [done|]. split; [done|].
  set (m' := set_replicas _ m). destruct (inv_unclaimed _ HI rid Hr) as [Hb Hc].
  assert (∀ j, owned m' j = owned m j) as Ho.
  { intros j. unfold owned. f_equal. apply req_owned_ext; [done|]. intros rid' Hne. simpl.
    rewrite lookup_insert_ne; [done|]. by intros <-. }
  split; try apply HI.
  - intros j Hj. rewrite Ho. by apply HI.
  - intros j r. rewrite Ho. apply HI.
  - intros rid' j. simpl. rewrite lookup_insert_Some. intros [[<- <-]|[_ ?]]; [done|]. by apply HI in H2.
  - intros rid'. simpl. rewrite lookup_insert_None. intros [? _]. by apply HI.
  - intros rid' j q r. simpl. rewrite lookup_insert_Some, Ho. intros [[<- <-]|[_ ?]]; [|by apply HI].
    change (blks m' rid) with (blks m rid). rewrite Hb, drop_nil. by intros _ ?%not_elem_of_nil.
Qed.

Lemma reset_one_run i m :
  Inv m → 0 ≤ i < num_replicas m →
  ∃ m', on_pool i BlockPool.reset_prefix_cache m = (Ok tt, m') ∧ Inv m' ∧ Served m m'.
Proof.
  intros HI Hi. destruct (inv_pool _ HI i Hi) as (p & fl & Hp & _ & Hpi).
  destruct (reset_step p fl (owned m i) Hpi) as (p' & E & HS & _).
  eexists. split; [apply (on_pool_run i _ m p _ _ ltac:(apply Hi) Hp E)|]. split; [|by split].
  apply (inv_replace m _ i p p' ∅ ∅ (owned m i) (λ _, False)); try done.
  - by rewrite (left_id_L ∅ disj_union).
  - apply (inv_transfers _ HI).
  - by rewrite (left_id_L ∅ disj_union).
  - intros rid r _ Hr Hx. unfold owned. apply gmultiset_elem_of_disj_union. left.
    by eapply blks_in_req_owned.
  - intros rid. apply _.
Qed.

Lemma served_loop (f : Z → M t unit) l m :
  (∀ i m, Inv m → 0 ≤ i < num_replicas m → ∃ m', f i m = (Ok tt, m') ∧ Inv m' ∧ Served m m') →
  Inv m → (∀ i, i ∈ l → 0 ≤ i < num_replicas m) →
  ∃ m', for_each l f m = (Ok tt, m') ∧ Inv m' ∧ Served m m'.
Proof.
  intros Hf. revert m. induction l as [|i l IH]; intros m HI Hl; [by exists m|].
  destruct (Hf i m HI) as (m1 & E1 & HI1 & S1); [apply Hl; left|].
  destruct (IH m1 HI1) as (m2 & E2 & HI2 & S2).
  { intros j Hj. rewrite (near_n_config _ _ (sv_config _ _ S1)). apply Hl. by right. }
  exists m2. simpl. mstep E1. split_and!; [done|done|by etrans].
Qed.

Lemma purge_run m :
  Inv m → ∃ m', reset_prefix_cache m = (Ok tt, m') ∧ Inv m' ∧ Served m m'.
Proof.
  intros HI. unfold reset_prefix_cache, bind at 1, get. apply served_loop; [|done|].
  - intros i m0 HI0 Hi. by apply reset_one_run.
  - intros i Hi%elem_of_zrange. by rewrite (inv_pools_len _ HI) in Hi.
Qed.

(** *** Finding a cached prefix *)

(** Only replica [i]'s pool and the counters changed. *)
Record PoolOnly m m' (i : Z) (p' : BlockPool.t) : Prop := {
  po_near : Near m m';
  po_pools : device_block_pools m' = <[Z.to_nat i := p']> (device_block_pools m);
  po_transfers : _pending_transfers m' = _pending_transfers m;
  po_connector : connector m' = connector m
}.

Lemma pool_only_refl m m' i p :
  Quiet m m' → device_block_pools m !! Z.to_nat i = Some p → PoolOnly m m' i p.
Proof. intros [N Qp Qt Qc] Hp. split; [done| |done|done]. by rewrite list_insert_id. Qed.

Lemma pool_only_trans m1 m2 m3 i p2 p3 :
  PoolOnly m1 m2 i p2 → PoolOnly m2 m3 i p3 → PoolOnly m1 m3 i p3.
Proof.
  intros [N1 P1 T1 C1] [N2 P2 T2 C2]. split; [by etrans| |congruence..].
  by rewrite P2, P1, list_insert_insert_eq.
Qed.

Lemma pool_only_at m m' i p p' :
  PoolOnly m m' i p' → device_block_pools m !! Z.to_nat i = Some p →
  device_block_pools m' !! Z.to_nat i = Some p'.
Proof. intros [_ -> _ _] Hp. apply list_lookup_insert_eq. by eapply lookup_lt_Some. Qed.

Lemma pool_only_set m i p' : PoolOnly m (set_pools (<[Z.to_nat i := p']> (device_block_pools m)) m) i p'.
Proof. by split. Qed.

(** A lookup that cannot be served by another replica. *)
Definition local_only m : Prop := _cross_replica_copy_enabled m = false ∨ num_replicas m = 1.

Lemma find_alone m i p h :
  num_replicas m = 1 → i = 0 → device_block_pools m !! Z.to_nat i = Some p →
  BlockPool.prefix_cache p !! h = None → _find_block_in_any_replica h i m = (Ok (i, None), m).
Proof.
  intros Hn -> Hp Hh. unfold _find_block_in_any_replica. mstep (pool_at_run 0 m p ltac:(done) Hp).
  rewrite Hh. unfold bind at 1, get. by rewrite Hn.
Qed.

Lemma resolve_ext p p' hashes :
  BlockPool.prefix_cache p = BlockPool.prefix_cache p' → resolve p hashes = resolve p' hashes.
Proof. intros E. induction hashes as [|h hashes IH]; [done|]. simpl. by rewrite E, IH. Qed.

Lemma device_walk_run hashes i m p fl own others acc pend :
  0 ≤ i < num_replicas m → local_only m → device_block_pools m !! Z.to_nat i = Some p →
  BlockPool.Inv p fl (own ⊎ others) →
  ∃ m' p', device_walk i hashes acc pend m = (Ok (acc ++ (resolve p hashes).*2, pend), m') ∧
    PoolOnly m m' i p' ∧ Step p own others p' (lsd (resolve p hashes).*2 ⊎ own) ∧
    (∀ x, BlockPool.cached_hash p' x = BlockPool.cached_hash p x) ∧
    BlockPool.prefix_cache p' = BlockPool.prefix_cache p.
Proof.
  intros Hi. assert (0 ≤ i) as Hi0 by lia.
  revert m p fl own acc Hi. induction hashes as [|h hashes IH]; intros m p fl own acc Hi Hloc Hp HI.
  - exists m, p. simpl. rewrite app_nil_r, (left_id_L ∅ disj_union).
    split_and!; [done|by apply pool_only_refl|by eapply step_refl|done|done].
  - simpl. mstep (pool_at_run i m p Hi0 Hp). destruct (BlockPool.prefix_cache p !! h) as [r|] eqn:Eh; simpl.
    + pose proof (BlockPool.inv_cached_real _ _ _ _ _ HI Eh) as Hr.
      destruct (touch_step p fl own others r HI Hr) as (p1 & E1 & S1 & Hx1 & Hc1).
      { right. apply (cached_spec _ _ _ _ _ HI) in Eh. congruence. }
      mstep (on_pool_run _ _ _ _ _ _ Hi0 Hp E1).
      set (m1 := set_pools (<[Z.to_nat i := p1]> (device_block_pools m)) m).
      destruct (count_run (Metrics.mk 0 0 1 0 0) m1) as (m2 & E2 & Q2). mstep E2.
      assert (PoolOnly m m2 i p1) as PO.
      { eapply pool_only_trans; [apply pool_only_set|]. apply pool_only_refl; [done|].
        by eapply pools_after. }
      destruct (step_inv _ _ _ _ _ S1) as [fl1 HI1].
      destruct (IH m2 p1 fl1 ({[+ r +]} ⊎ own) (acc ++ [r])) as (m3 & p3 & E3 & PO3 & S3 & Hx3 & Hc3).
      * by rewrite (near_n _ _ (po_near _ _ _ _ PO)).
      * unfold local_only. pose proof (near_config _ _ (po_near _ _ _ _ PO)) as Ec. unfold config in Ec.
        injection Ec as _ _ -> _ _ _ _ -> _ _. done.
      * by eapply pool_only_at.
      * done.
      * exists m3, p3. split_and!.
        -- rewrite E3, (resolve_ext p1 p) by done. by rewrite <- app_assoc.
        -- by eapply pool_only_trans.
        -- rewrite (resolve_ext p1 p) in S3 by done. eapply step_trans; [exact S1|].
           refine (eq_ind _ (λ X, Step p1 ({[+ r +]} ⊎ own) others p3 X) S3 _ _).
           simpl. multiset_solver.
        -- intros x. by rewrite Hx3, Hx1.
        -- congruence.
    + assert (∃ m', (let! m := get in
        if negb (_cross_replica_copy_enabled m) then ret (acc, pend) else
        let! '(src_replica, src_block) := _find_block_in_any_replica h i in
        match src_block with
        | None => ret (acc, pend)
        | Some src_block =>
            if BlockPool.num_free_blocks p =? 0 then ret (acc, pend) else
            let! dst_block := allocate_device_block i in
            let! src := on_pool src_replica (BlockPool.block src_block) in
            count (Metrics.mk 0 0 0 1 0);;
            device_walk i hashes (acc ++ [dst_block])
              (queue_copy src_replica (h, dst_block, KVCacheBlock._bid src) pend)
        end) m = (Ok (acc, pend), m') ∧ m' = m) as (m' & E & ->).
      { unfold bind at 1, get. destruct (_cross_replica_copy_enabled m) eqn:Ec; simpl; [|by exists m].
        destruct Hloc as [?|Hn]; [congruence|]. assert (i = 0) as -> by lia.
        mstep (find_alone m 0 p h Hn eq_refl Hp Eh). by exists m. }
      exists m, p. rewrite app_nil_r, (left_id_L ∅ disj_union).
      split_and!; [exact E|by apply pool_only_refl|by eapply step_refl|done|done].
Qed.

Lemma device_prefix_run hashes i m p fl own others :
  0 ≤ i < num_replicas m → local_only m → device_block_pools m !! Z.to_nat i = Some p →
  BlockPool.Inv p fl (own ⊎ others) →
  let hits := if _only_use_kv_connector_last_level_cache m then [] else (resolve p hashes).*2 in
  ∃ m' p', _get_full_blocks_from_device_prefix_cache hashes i m = (Ok hits, m') ∧
    PoolOnly m m' i p' ∧ Step p own others p' (lsd hits ⊎ own) ∧
    (∀ x, BlockPool.cached_hash p' x = BlockPool.cached_hash p x) ∧
    BlockPool.prefix_cache p' = BlockPool.prefix_cache p.
Proof.
  intros Hi Hloc Hp HI hits. unfold _get_full_blocks_from_device_prefix_cache, hits.
  unfold bind at 1, get. destruct (_only_use_kv_connector_last_level_cache m).
  - exists m, p. simpl. rewrite (left_id_L ∅ disj_union).
    split_and!; [done|by apply pool_only_refl|by eapply step_refl|done|done].
  - assert (0 ≤ i) as Hi0 by lia. mstep (pool_at_run i m p Hi0 Hp).
    destruct (device_walk_run hashes i m p fl own others [] [] Hi Hloc Hp HI)
      as (m' & p' & E & HR). exists m', p'. split; [|done]. by mstep E.
Qed.

Lemma alloc_map_run (l : list Z) i m p fl own others :
  0 ≤ i → device_block_pools m !! Z.to_nat i = Some p → BlockPool.Inv p fl (own ⊎ others) →
  (length l ≤ length fl)%nat →
  ∃ m' p', for_map l (λ _, allocate_device_block i) m = (Ok (take (length l) fl), m') ∧
    PoolOnly m m' i p' ∧ Step p own others p' (lsd (take (length l) fl) ⊎ own) ∧
    (∀ r, r ∈ take (length l) fl → BlockPool.cached_hash p' r = None) ∧
    (∀ r, r ∉ take (length l) fl → BlockPool.cached_hash p' r = BlockPool.cached_hash p r).
Proof.
  intros Hi. revert m p fl own. induction l as [|x l IH]; intros m p fl own Hp HI Hlen; simpl.
  - exists m, p. simpl. rewrite (left_id_L ∅ disj_union).
    split_and!; [done|by apply pool_only_refl|by eapply step_refl|by intros r ?%not_elem_of_nil|done].
  - destruct fl as [|r fl]; [simpl in Hlen; lia|].
    destruct (alloc_step p fl own others r HI) as (p1 & E1 & S1 & HI1 & Hz1 & Hn1 & Hx1).
    mstep (allocate_device_block_run _ _ _ _ _ _ Hi Hp E1).
    set (m1 := set_pools (<[Z.to_nat i := p1]> (device_block_pools m)) m).
    destruct (IH m1 p1 fl ({[+ r +]} ⊎ own)) as (m2 & p2 & E2 & PO2 & S2 & Hz2 & Hx2);
      [by eapply pools_after|done|simpl in Hlen; lia|].
    pose proof (FreeQueue.repr_nodup _ _ (BlockPool.inv_repr _ _ _ HI)) as [Hr _]%NoDup_cons.
    exists m2, p2. simpl. split_and!.
    + by mstep E2.
    + eapply pool_only_trans; [apply pool_only_set|exact PO2].
    + eapply step_trans; [exact S1|].
      refine (eq_ind _ (λ X, Step p1 ({[+ r +]} ⊎ own) others p2 X) S2 _ _). multiset_solver.
    + intros y [->|Hy]%elem_of_cons; [|by apply Hz2]. rewrite Hx2; [done|].
      intros Hin. apply Hr. eapply elem_of_sublist; [exact Hin|]. apply sublist_take.
    + intros y [Hne Hy]%not_elem_of_cons. by rewrite Hx2, Hx1.
Qed.

(** What an onload leaves behind. *)
Record Fetched m m' (i : Z) (p' : BlockPool.t) (loaded : list Z) (hashes : list bytes)
    (e : transfer) : Prop := {
  ft_near : Near m m';
  ft_pools : device_block_pools m' = <[Z.to_nat i := p']> (device_block_pools m);
  ft_transfers : _pending_transfers m' =
    if decide (loaded = []) then _pending_transfers m
    else <[Z.to_nat i := transfers_at m i ++
             [pending_transfer _ e loaded (Some (slice_to hashes (len loaded)))]]> (_pending_transfers m)
}.

Lemma near_connector m c : Near m (set_connector c m).
Proof. by split. Qed.

Lemma prefix_take {A} (l1 l2 : list A) : l1 `prefix_of` l2 → l1 = take (length l1) l2.
Proof. intros [k ->]. by rewrite take_app_length. Qed.

Lemma slice_to_take {A} (l : list A) n : 0 ≤ n → slice_to l n = take (Z.to_nat n) l.
Proof.
  intros Hn. destruct (decide (n ≤ len l)); [by apply slice_to_inside|].
  unfold slice_to, slice, clamp_index, len in *. replace (n <? 0) with false by lia.
  replace (0 <? 0) with false by lia. replace (Z.to_nat (Z.max 0 (Z.min _ 0))) with 0%nat by lia.
  rewrite drop_0, !take_ge by lia. done.
Qed.
Lemma slice_from_drop {A} (l : list A) n : 0 ≤ n → slice_from l n = drop (Z.to_nat n) l.
Proof.
  intros Hn. destruct (decide (n ≤ len l)); [by apply slice_from_inside|].
  unfold slice_from, slice, clamp_index, len in *. replace (n <? 0) with false by lia.
  rewrite !drop_ge by lia. by rewrite take_nil.
Qed.

(** Freeing what the connector did not fill. *)
Lemma surplus_run i m p fl own others L S :
  0 ≤ i → device_block_pools m !! Z.to_nat i = Some p →
  BlockPool.Inv p fl (lsd (L ++ S) ⊎ own ⊎ others) → (∀ r, r ∈ L ++ S → BlockPool.real p r) →
  ∃ p', for_each S (λ r, on_pool i (BlockPool.free_block r)) m =
      (Ok tt, set_pools (<[Z.to_nat i := p']> (device_block_pools m)) m) ∧
    Step p (lsd (L ++ S) ⊎ own) others p' (lsd L ⊎ own) ∧
    (∀ x, BlockPool.cached_hash p' x = BlockPool.cached_hash p x) ∧
    BlockPool.prefix_cache p' = BlockPool.prefix_cache p.
Proof.
  intros Hi Hp HI Hreal. set (extra := lsd L ⊎ own).
  assert (lsd (L ++ S) ⊎ own ⊎ others = lsd S ⊎ (extra ⊎ others)) as E1.
  { rewrite list_to_set_disj_app. unfold extra. multiset_solver. }
  rewrite E1 in HI. destruct (free_loop i S m p fl (extra ⊎ others) Hi Hp HI) as (p' & E & HS & _ & Hx & Hpc).
  { intros r Hr. apply Hreal. apply elem_of_app. by right. }
  exists p'. split; [done|]. split; [|done].
  replace (lsd (L ++ S) ⊎ own) with (extra ⊎ lsd S)
    by (rewrite list_to_set_disj_app; unfold extra; multiset_solver).
  pose proof (step_frame _ _ _ _ _ _ HS) as SF. rewrite (right_id_L ∅ disj_union) in SF.
  apply SF. multiset_solver.
Qed.

Lemma step_real_pool p own others p' own' r : Step p own others p' own' → BlockPool.real p r → BlockPool.real p' r.
Proof. intros HS Hr. destruct (step_config _ _ _ _ _ HS) as [Ht _]. unfold BlockPool.real. by rewrite Ht. Qed.

Lemma fetched_near m0 m m' i p0 p' loaded hashes e :
  Near m0 m → _pending_transfers m = _pending_transfers m0 →
  device_block_pools m = <[Z.to_nat i := p0]> (device_block_pools m0) →
  Fetched m m' i p' loaded hashes e → Fetched m0 m' i p' loaded hashes e.
Proof.
  intros N Ht Hp [N' P' T']. split; [by etrans|by rewrite P', Hp, list_insert_insert_eq|].
  rewrite T', Ht. unfold transfers_at. by rewrite Ht.
Qed.

(** Some of the hashes are in the pool's cache already, or one of them comes twice. *)
Definition resident (p : BlockPool.t) (hs : list bytes) : Prop :=
  ¬ NoDup hs ∨ ∃ h, h ∈ hs ∧ is_Some (BlockPool.prefix_cache p !! h).

Lemma resident_prefix p hs n : resident p (take n hs) → resident p hs.
Proof.
  intros [Hd|(h & Hh & Hc)]; [left|right].
  - intros Hnd. apply Hd. eapply sublist_NoDup; [exact Hnd|apply sublist_take].
  - exists h. split; [|done]. eapply elem_of_sublist; [exact Hh|apply sublist_take].
Qed.

Lemma resident_commit p p1 h r hs :
  BlockPool.prefix_cache p1 = <[h := r]> (BlockPool.prefix_cache p) →
  resident p1 hs → resident p (h :: hs).
Proof.
  intros Hc [Hd|(h' & Hh & Hs)].
  - left. by intros [_ ?]%NoDup_cons.
  - rewrite Hc in Hs. destruct (decide (h' = h)) as [->|Hne].
    + left. by intros [? _]%NoDup_cons.
    + right. exists h'. rewrite lookup_insert_ne in Hs by done. split; [by right|done].
Qed.

(** Publishing what a synchronous connector loaded: it succeeds unless a hash is
    resident, which the manager accepts only under its testing switch. *)
Lemma publish_run (testing : bool) i m p fl own others L hs :
  0 ≤ i → device_block_pools m !! Z.to_nat i = Some p → BlockPool.Inv p fl (own ⊎ others) →
  length L = length hs → NoDup L →
  (∀ r, r ∈ L → BlockPool.real p r ∧ r ∈ own ∧ BlockPool.cached_hash p r = None) →
  ∃ r p', for_zip_strict L hs (λ r block_hash,
      let! pool := pool_at i in
      match BlockPool.prefix_cache pool !! block_hash with
      | Some _ => py_assert testing
      | None => on_pool i (BlockPool.commit_into_prefix_cache block_hash r)
      end) m = (r, set_pools (<[Z.to_nat i := p']> (device_block_pools m)) m) ∧
    match r with
    | Ok _ => Step p own others p' own
    | Raise e => e = AssertionError ∧ testing = false ∧ resident p hs
    end.
Proof.
  intros Hi. revert hs m p. induction L as [|r L IH]; intros [|h hs] m p Hp HI Hlen Hnd HL; try done.
  { exists (Ok tt), p. rewrite list_insert_id, set_pools_same by done. split; [done|by eapply step_refl]. }
  apply NoDup_cons in Hnd as [Hr Hnd]. destruct (HL r) as (Hreal & Ho & Hz); [left|].
  simpl. unfold bind at 1. unfold bind at 1. rewrite (pool_at_run i m p Hi Hp).
  destruct (BlockPool.prefix_cache p !! h) as [r'|] eqn:Eh.
  - destruct testing.
    + destruct (IH hs m p Hp HI) as (o & p' & E & Hres); [by injection Hlen|done|intros x Hx; apply HL; by right|].
      exists o, p'. split; [exact E|]. destruct o; [done|]. destruct Hres as (_ & ? & _). done.
    + exists (Raise AssertionError), p. rewrite list_insert_id, set_pools_same by done.
      split; [done|]. split_and!; [done..|]. right. exists h. split; [left|by eexists].
  - destruct (commit_step p fl own others h r HI Hreal Ho Hz Eh) as (p1 & E1 & S1 & HI1 & Hx1 & Hc1).
    rewrite (on_pool_run _ _ _ _ _ _ Hi Hp E1).
    set (m1 := set_pools (<[Z.to_nat i := p1]> (device_block_pools m)) m).
    destruct (IH hs m1 p1) as (o & p' & E & Hres); [by eapply pools_after|done|by injection Hlen|done| |].
    { intros x Hx. destruct (HL x) as (Hrx & Hox & Hzx); [by right|]. split_and!; [|done|].
      - by apply (step_real_pool _ _ _ _ _ _ S1).
      - rewrite Hx1, decide_False by (intros ->; done). done. }
    exists o, p'. split.
    + rewrite E. unfold m1. simpl. by rewrite list_insert_insert_eq.
    + destruct o; [by eapply step_trans|]. destruct Hres as (-> & -> & Hc). split_and!; [done..|].
      by eapply resident_commit.
Qed.

(** After an allocation the cache holds nothing it did not hold before. *)
Lemma resident_before p fl own p1 fl1 own1 hs (l : list Z) :
  BlockPool.Inv p fl own → BlockPool.Inv p1 fl1 own1 →
  (∀ r, r ∈ l → BlockPool.cached_hash p1 r = None) →
  (∀ r, r ∉ l → BlockPool.cached_hash p1 r = BlockPool.cached_hash p r) →
  resident p1 hs → resident p hs.
Proof.
  intros HI HI1 Hz Hx [Hd|(h & Hh & [r Hr])]; [by left|]. right. exists h. split; [done|].
  apply (cached_spec _ _ _ _ _ HI1) in Hr. exists r. apply (cached_spec _ _ _ _ _ HI).
  rewrite <- Hx; [done|]. intros Hin. rewrite Hz in Hr by done. done.
Qed.

(** The connector completes some load as soon as it is posted. *)
Definition loads_at_once : Prop :=
  ∃ ids hs i c e c', load ids hs i c = (Ok e, c') ∧ is_complete e c' = true ∧ g0_blocks e ≠ [].

Lemma near_testing_config m m' : config m' = config m →
  _only_use_kv_connector_last_level_cache m' = _only_use_kv_connector_last_level_cache m.
Proof. unfold config. intros Hc. by injection Hc. Qed.

(** The onload, whatever the connector: the blocks it reports are the request's; a
    transfer still in flight pins them a second time, a completed one publishes them. It
    fails only when the connector completed a load of a hash that is resident. *)
Lemma host_run' `{!KVConnectorLaws} hashes i m p fl own others :
  0 ≤ i < num_replicas m → device_block_pools m !! Z.to_nat i = Some p →
  BlockPool.Inv p fl (own ⊎ others) → is_Some (_pending_transfers m !! Z.to_nat i) →
  ∃ o m' p', _get_full_blocks_from_host_prefix_cache hashes i m = (o, m') ∧
    match o with
    | Ok (loaded, e) => ∃ pins, (pins = [] ∨ pins = loaded) ∧
        Fetched m m' i p' pins hashes e ∧ len loaded ≤ len hashes ∧
        Step p own others p' (lsd pins ⊎ (lsd loaded ⊎ own))
    | Raise err => err = AssertionError ∧ _only_use_kv_connector_last_level_cache m = false ∧
        loads_at_once ∧ resident p hashes ∧ Near m m'
    end.
Proof.
  intros Hi Hp HI HM. assert (0 ≤ i) as Hi0 by lia.
  unfold _get_full_blocks_from_host_prefix_cache. mstep (pool_at_run i m p Hi0 Hp).
  destruct (decide (hashes = [])) as [->|Hne].
  { eexists (Ok ([], _)), m, p. split; [done|]. exists []. simpl. rewrite !(left_id_L ∅ disj_union).
    split_and!; [by left| |done|by eapply step_refl]. split; [done| |done]. by rewrite list_insert_id. }
  rewrite bool_decide_eq_false_2 by done. cbv zeta. rewrite (BlockPool.inv_num_free _ _ _ HI).
  set (n := Z.min (len hashes) (len fl)). assert (0 ≤ n) as Hn by (unfold n, len; lia).
  assert (length (zrange 0 n) = Z.to_nat n) as Hz.
  { pose proof (len_zrange 0 n Hn) as E. unfold len in E. lia. }
  destruct (alloc_map_run (zrange 0 n) i m p fl own others Hi0 Hp HI) as (m1 & p1 & E1 & PO1 & S1 & Hz1 & Hx1).
  { rewrite Hz. unfold n, len. lia. }
  rewrite Hz in *. set (bs := take (Z.to_nat n) fl) in *. mstep E1.
  pose proof (pool_only_at _ _ _ _ _ PO1 Hp) as Hp1. destruct (step_inv _ _ _ _ _ S1) as [fl1 HI1].
  assert (∀ r, r ∈ bs → BlockPool.real p1 r) as Hreal.
  { intros r Hr. apply (step_real_pool _ _ _ _ _ _ S1). apply (BlockPool.inv_free_real _ _ _ _ HI).
    eapply elem_of_sublist; [exact Hr|apply sublist_take]. }
  mstep (bids_run i m1 p1 fl1 _ bs Hi0 Hp1 HI1 Hreal).
  destruct (load_law (connector m1) bs (slice_to hashes n) i) as (e & c & El & Hpre).
  mstep (on_connector_run _ _ _ _ El). set (m2 := set_connector c m1).
  set (nl := length (g0_blocks e)).
  assert (len (g0_blocks e) = Z.of_nat nl) as -> by done.
  rewrite slice_from_drop, (slice_to_take bs), Nat2Z.id by lia.
  set (L := take nl bs). set (X := drop nl bs).
  assert (bs = L ++ X) as Ebs by (unfold L, X; by rewrite take_drop). rewrite Ebs in HI1, Hreal, S1, Hz1, Hx1.
  assert (NoDup L) as HndL.
  { eapply sublist_NoDup; [apply (FreeQueue.repr_nodup _ _ (BlockPool.inv_repr _ _ _ HI))|].
    unfold L, bs. etrans; apply sublist_take. }
  destruct (surplus_run i m2 p1 fl1 own others L X Hi0 Hp1 HI1 Hreal) as (p2 & E2 & S2 & Hx2 & Hpc2). mstep E2.
  set (m3 := set_pools (<[Z.to_nat i := p2]> (device_block_pools m2)) m2).
  assert (Near m m3) as N3.
  { etrans; [apply PO1|]. etrans; [apply (near_connector _ c)|]. by split. }
  assert (device_block_pools m3 = <[Z.to_nat i := p2]> (device_block_pools m)) as P3.
  { unfold m3, m2. simpl. by rewrite (po_pools _ _ _ _ PO1), list_insert_insert_eq. }
  assert (_pending_transfers m3 = _pending_transfers m) as T3 by apply (po_transfers _ _ _ _ PO1).
  assert (Step p own others p2 (lsd L ⊎ own)) as S12 by (by eapply step_trans).
  assert (length bs ≤ Z.to_nat n)%nat as Hlbs by (unfold bs; rewrite length_take; lia).
  destruct (decide (L = [])) as [EL|HL].
  { rewrite EL in *. rewrite bool_decide_eq_true_2 by done. eexists (Ok ([], _)), m3, p2. split; [done|].
    exists []. simpl. rewrite !(left_id_L ∅ disj_union). simpl in S12. rewrite (left_id_L ∅ disj_union) in S12.
    split_and!; [by left|by split|apply len_nonneg|done]. }
  rewrite bool_decide_eq_false_2 by done. unfold bind at 1, get.
  assert (device_block_pools m3 !! Z.to_nat i = Some p2) as Hp3.
  { rewrite P3. apply list_lookup_insert_eq. by eapply lookup_lt_Some. }
  destruct (step_inv _ _ _ _ _ S2) as [fl2 HI2].
  assert (nl ≤ length bs)%nat as Hnl by (apply prefix_length in Hpre; done).
  assert (len L = Z.of_nat nl) as HlL by (unfold len, L; rewrite length_take; lia).
  assert (slice_to (slice_to hashes n) (Z.of_nat nl) = take nl hashes) as Ehs.
  { rewrite !slice_to_take, take_take, Nat2Z.id by lia. f_equal. lia. }
  rewrite Ehs. change (connector m3) with c. destruct (is_complete e c) eqn:Ec.
  - destruct (publish_run (_only_use_kv_connector_last_level_cache m3) i m3 p2 fl2 (lsd L ⊎ own) others L
      (take nl hashes) Hi0 Hp3 HI2) as (o & p3 & E3 & Hres); [|exact HndL| |].
    { unfold L. rewrite !length_take. unfold n, len in *. lia. }
    { intros r Hr. split_and!.
      - apply (step_real_pool _ _ _ _ _ _ S2), Hreal. apply elem_of_app. by left.
      - apply gmultiset_elem_of_disj_union. left. by apply elem_of_lsd.
      - rewrite Hx2. apply Hz1, elem_of_app. by left. }
    unfold bind at 1. rewrite E3. set (m4 := set_pools (<[Z.to_nat i := p3]> (device_block_pools m3)) m3).
    assert (Near m m4) as N4 by (etrans; [exact N3|by split]).
    destruct o as [u|err].
    + eexists (Ok (L, e)), m4, p3. split; [done|]. exists []. simpl. rewrite (left_id_L ∅ disj_union).
      split_and!; [by left| |unfold n, len in *; lia|by eapply step_trans].
      split; [done| |done]. transitivity (<[Z.to_nat i := p3]> (device_block_pools m3)); [done|].
      by rewrite P3, list_insert_insert_eq.
    + destruct Hres as (-> & Ht & Hc). exists (Raise AssertionError), m4, p3. split; [done|].
      split_and!; [done| | | |done].
      { by rewrite <- (near_testing_config _ _ (near_config _ _ N3)). }
      { exists bs, (slice_to hashes n), i, (connector m1), e, c. split_and!; [done|done|].
        intros E0. apply HL. unfold L, nl. by rewrite E0. }
      apply (resident_prefix _ _ nl). eapply (resident_before p fl (own ⊎ others) p1 fl1); [exact HI|exact HI1|exact Hz1|exact Hx1|].
      unfold resident. rewrite <- Hpc2. exact Hc.
  - assert (is_Some (_pending_transfers m3 !! Z.to_nat i)) as Hsome by by rewrite T3.
    destruct (track_run i m3 p2 fl2 (lsd L ⊎ own) others e L (Some (take nl hashes)))
      as (p3 & E3 & S3 & _); try done.
    { intros r Hr. split; [|left; apply gmultiset_elem_of_disj_union; left; by apply elem_of_lsd].
      apply (step_real_pool _ _ _ _ _ _ S2), Hreal. apply elem_of_app. by left. }
    mstep E3. eexists (Ok (L, e)), _, p3. split; [done|]. exists L.
    split_and!; [by right| |unfold n, len in *; lia|by eapply step_trans].
    split.
    + etrans; [exact N3|]. by split.
    + transitivity (<[Z.to_nat i := p3]> (device_block_pools m3)); [done|].
      by rewrite P3, list_insert_insert_eq.
    + rewrite decide_False by done.
      transitivity (<[Z.to_nat i := transfers_at m3 i ++
        [pending_transfer _ e L (Some (take nl hashes))]]> (_pending_transfers m3)); [done|].
      rewrite T3. do 2 f_equal.
      * unfold transfers_at. by rewrite T3.
      * do 3 f_equal. by rewrite HlL, slice_to_take, Nat2Z.id by lia.
Qed.

(** *** How many hashes a request has *)

Lemma len_hash_request bs ph pl os algo seed salt a hs :
  (∀ x, x ∈ a → int64 x = true) →
  (BlockHash.hash_request_tokens bs ph pl os algo seed salt a).1 = Ok hs → len hs = len a / bs.
Proof.
  intros H64. unfold BlockHash.hash_request_tokens. unfold bind at 1, get. unfold bind at 1.
  destruct (raise_if _ _ a) as [[|] a'] eqn:Er; [|done].
  assert (a' = a) as -> by (destruct (negb _ && _); unfold raise_if, raise, ret in Er; congruence).
  unfold bind at 1, of_outcome. destruct (BlockHash.overrides_in_slice _ _ _ _) as [r|e] eqn:Eo; [|done].
  destruct (HashFacts.overrides_in_slice_ok _ _ _ _ _ Eo) as [Hnd Hr]; [apply NoDup_nil_2|set_solver|].
  destruct (HashFacts.apply_loop a r (BlockHash.mk_hst a [])) as [HO _];
    [apply HashFacts.overriding_start|done|done|].
  destruct (for_each r BlockHash.apply_override (BlockHash.mk_hst a [])) as [[|] s]; simpl in *; [|done].
  intros Eh%HashFacts.len_hash_tokens. rewrite Eh. unfold len. by rewrite (HashFacts.ov_len _ _ HO).
Qed.

(** The tokens whose blocks can be hashed. *)
Definition hashable (x : Ctx.t B) : Z :=
  TokenBuffer.length (Ctx.tokens x) - Z.max 1 (TextContext.pending_future_count (Ctx.base x)).

Lemma len_block_hashes ex bs algo seed x hs :
  0 < bs → TokenBuffer.wf (Ctx.tokens x) →
  (∀ y, y ∈ TokenBuffer.all (Ctx.tokens x) → int64 y = true) →
  (BlockHashes.compute_block_hashes ex bs algo seed x).1 = Ok hs →
  len ex + len hs = Z.max (len ex) (hashable x / bs).
Proof.
  intros Hbs Hwf H64. rewrite HashFacts.compute_block_hashes_run by done. cbv zeta. cbn [fst].
  fold (hashable x). pose proof (len_nonneg ex) as Hex.
  pose proof (Z.div_mod (hashable x) bs). pose proof (Z.mod_pos_bound (hashable x) bs).
  destruct (hashable x - len ex * bs <? bs) eqn:En.
  - intros [= <-]. unfold len at 2. simpl. nia.
  - destruct (BlockHashes.overrides_of x) as [os|]; [|done]. intros E.
    apply len_hash_request in E; [|by apply HashFacts.int64_getslice].
    unfold TokenBuffer.getslice in E. rewrite len_slice in E.
    + rewrite E. replace (hashable x - len ex * bs) with (hashable x + (- len ex) * bs) by lia.
      rewrite Z.div_add by lia. nia.
    + unfold len in *. nia.
    + unfold hashable, TokenBuffer.length in *. lia.
Qed.

Lemma put_hashes_inv m rid l : Inv m → Inv (set_hashes (<[rid := l]> (req_to_hashes m)) m).
Proof. intros []. by split. Qed.

Lemma hshs_put m rid l rid' :
  hshs (set_hashes (<[rid := l]> (req_to_hashes m)) m) rid' = if decide (rid' = rid) then l else hshs m rid'.
Proof.
  unfold hshs. simpl. case_decide; [subst; by rewrite lookup_insert_eq|by rewrite lookup_insert_ne].
Qed.

(** Hashing extends the request's hashes to every hashable block, or raises and
    changes nothing. *)
Lemma hashes_run m x :
  let rid := TextContext.request_id (Ctx.base x) in
  Inv m → TokenBuffer.wf (Ctx.tokens x) → (∀ y, y ∈ TokenBuffer.all (Ctx.tokens x) → int64 y = true) →
  ∃ r m', compute_hashes_for_request (mk_world m x) = (r, mk_world m' x) ∧ Inv m' ∧
    match r with
    | Raise _ => Quiet m m'
    | Ok _ => len (hshs m' rid) = Z.max (len (hshs m rid)) (hashable x / block_size m) ∧
        hshs m rid `prefix_of` hshs m' rid ∧
        (∀ rid', rid' ≠ rid → hshs m' rid' = hshs m rid') ∧ config m' = config m ∧
        req_to_replica m' = req_to_replica m ∧ (∀ rid', blks m' rid' = blks m rid') ∧
        (∀ rid', cidx m' rid' = cidx m rid') ∧ device_block_pools m' = device_block_pools m ∧
        _pending_transfers m' = _pending_transfers m ∧ _pending_offloads m' = _pending_offloads m ∧
        connector m' = connector m
    end.
Proof.
  intros rid HI Hwf H64. unfold compute_hashes_for_request. unfold bind at 1, get, request_id. simpl.
  fold rid. destruct (hashes_of_run rid m) as (m1 & E1 & Q1).
  mstep (on_mgr_run _ (mk_world m x) _ _ E1). simpl.
  assert ((BlockHashes.compute_block_hashes (hshs m rid) (block_size m) (kv_hash_algo m)
    (kv_hash_seed m) x).2 = x) as E2 by by rewrite HashFacts.compute_block_hashes_run.
  destruct (BlockHashes.compute_block_hashes (hshs m rid) (block_size m) (kv_hash_algo m)
    (kv_hash_seed m) x) as [o x'] eqn:Ec. simpl in E2. subst x'.
  unfold bind at 1. rewrite (on_ctx_run _ (mk_world m1 x) _ _ Ec).
  destruct o as [new|e].
  - eexists (Ok tt), _. split; [done|]. split; [apply put_hashes_inv; by apply (inv_quiet m)|].
    rewrite !hshs_put, !decide_True by done. split_and!; try (apply Q1).
    + rewrite len_app. apply (len_block_hashes _ _ (kv_hash_algo m) (kv_hash_seed m) x); try done.
      * apply HI. * by rewrite Ec.
    + by exists new.
    + intros rid' Hne. rewrite hshs_put, decide_False by done. by apply near_hshs_quiet.
  - exists (Raise e), m1. split_and!; [done|by apply (inv_quiet m)|done].
Qed.

Lemma checks_off rid m : enable_runtime_checks m = false → assert_runtime_invariants rid m = (Ok tt, m).
Proof. intros E. unfold assert_runtime_invariants, bind, get. by rewrite E. Qed.

Lemma near_checks_config m m' :
  config m' = config m → enable_runtime_checks m' = enable_runtime_checks m.
Proof. unfold config. intros Hc. by injection Hc. Qed.
Lemma near_caching_config m m' :
  config m' = config m → enable_prefix_caching m' = enable_prefix_caching m.
Proof. unfold config. intros Hc. by injection Hc. Qed.

(** *** Reusing a cached prefix *)

(** The hits in the device's own cache, for the hashes past the committed prefix. *)
Definition device_hits m (p : BlockPool.t) rid : list Z :=
  if _only_use_kv_connector_last_level_cache m then []
  else (resolve p (drop (Z.to_nat (cidx m rid / block_size m)) (hshs m rid))).*2.

Lemma length_resolve p hs : (length (resolve p hs) ≤ length hs)%nat.
Proof. induction hs as [|h hs IH]; simpl; [lia|]. destruct (_ !! h); simpl; lia. Qed.

Lemma touch_hits_run (hh : list bytes) i m :
  ∃ m', when (negb (bool_decide (hh = [])))
      (modify (λ m, set_connector (touch hh i (connector m)) m)) m = (Ok tt, m') ∧ Near m m' ∧
    device_block_pools m' = device_block_pools m ∧ _pending_transfers m' = _pending_transfers m.
Proof.
  destruct (negb _); simpl; [|by exists m]. eexists. split; [done|]. split; [apply near_connector|done].
Qed.

(** The hashes past the committed prefix and the device's hits: what is offered to the connector. *)
Definition missed m (p : BlockPool.t) rid : list bytes :=
  drop (length (device_hits m p rid)) (drop (Z.to_nat (cidx m rid / block_size m)) (hshs m rid)).

Lemma get_full_run `{!KVConnectorLaws} m rid i p fl :
  Inv m → req_to_replica m !! rid = Some i → device_block_pools m !! Z.to_nat i = Some p →
  BlockPool.Inv p fl (owned m i) → enable_prefix_caching m = true → local_only m →
  let hits := device_hits m p rid in
  ∃ o m' p', get_full_blocks_from_prefix_cache rid m = (o, m') ∧
    match o with
    | Ok (found, e) => ∃ loaded pins hs, found = hits ++ loaded ∧ (pins = [] ∨ pins = loaded) ∧
        Fetched m m' i p' pins hs e ∧ (pins ≠ [] → len pins ≤ len hs) ∧
        (name (connector m) = "NullConnector"%string → loaded = []) ∧
        len (hits ++ loaded) ≤ Z.max 0 (len (hshs m rid) - cidx m rid / block_size m) ∧
        Step p ∅ (owned m i) p' (lsd pins ⊎ lsd (hits ++ loaded))
    | Raise err => err = AssertionError ∧ _only_use_kv_connector_last_level_cache m = false ∧
        name (connector m) ≠ "NullConnector"%string ∧ loads_at_once ∧ resident p (missed m p rid) ∧ Near m m'
    end.
Proof.
  intros HI Hr Hp Hpi Hcache Hloc hits. pose proof (inv_replica _ HI _ _ Hr) as Hi.
  assert (0 ≤ cidx m rid / block_size m) as Hk.
  { destruct (inv_committed _ HI rid) as (k & -> & ?). pose proof (inv_block_size _ HI).
    rewrite Z.div_mul by lia. lia. }
  destruct (hashes_of_run rid m) as (m1 & E1 & Q1).
  destruct (committed_idx_of_run rid m1) as (m2 & E2 & Q2).
  assert (Quiet m m2) as Q by (by etrans).
  pose proof (near_config _ _ (quiet_near _ _ Q)) as Ec.
  assert (cidx m1 rid = cidx m rid) as Eci by apply (near_cidx _ _ (quiet_near _ _ Q1)).
  unfold get_full_blocks_from_prefix_cache. unfold bind at 1, get.
  erewrite bind_run; [|by apply py_assert_true]. mstep (replica_of_run rid i m Hr).
  mstep E1. mstep E2. cbv zeta. rewrite Eci, slice_from_drop by done.
  set (todo := drop (Z.to_nat (cidx m rid / block_size m)) (hshs m rid)).
  pose proof (inv_quiet _ _ HI Q) as HI2.
  assert (owned m i = ∅ ⊎ owned m i) as Eo by (by rewrite (left_id_L ∅ disj_union)).
  assert (BlockPool.Inv p fl (∅ ⊎ owned m i)) as Hpi2 by by rewrite <- Eo.
  assert (local_only m2) as Hloc2.
  { unfold config in Ec. injection Ec as _ _ En _ _ _ _ Ex _ _. unfold local_only. by rewrite En, Ex. }
  assert (0 ≤ i < num_replicas m2) as Hi2 by by rewrite (near_n_config _ _ Ec).
  destruct (device_prefix_run todo i m2 p fl ∅ (owned m i) Hi2 Hloc2 (quiet_pool_at _ _ _ _ Q Hp) Hpi2)
    as (m3 & p3 & E3 & PO3 & S3 & _ & Hpc3).
  assert ((if _only_use_kv_connector_last_level_cache m2 then [] else (resolve p todo).*2) = hits) as Eh.
  { unfold config in Ec. injection Ec as _ _ _ _ _ _ _ _ _ ->. done. }
  rewrite Eh in E3, S3. rewrite (right_id_L ∅ disj_union) in S3. mstep E3.
  assert (len todo = Z.max 0 (len (hshs m rid) - cidx m rid / block_size m)) as Hlt.
  { unfold todo, len. rewrite length_drop. lia. }
  assert (len hits ≤ len todo) as Hlh.
  { unfold hits, device_hits. fold todo. destruct (_only_use_kv_connector_last_level_cache m);
      [apply len_nonneg|]. rewrite len_fmap. unfold len. pose proof (length_resolve p todo). lia. }
  assert (Near m m3) as N3 by (etrans; [apply Q|apply PO3]).
  case_bool_decide as Hname.
  - exists (Ok (hits, CompletedTransfer LOAD [])), m3, p3. split; [done|]. exists [], [], [].
    rewrite app_nil_r. simpl. rewrite (left_id_L ∅ disj_union). split_and!; try done; [by left| |lia].
    split; [done| |]; [by rewrite (po_pools _ _ _ _ PO3), (quiet_pools _ _ Q)|].
    rewrite decide_True by done. by rewrite (po_transfers _ _ _ _ PO3), (quiet_transfers _ _ Q).
  - rewrite slice_from_drop by apply len_nonneg. set (hs := missed m p rid).
    replace (drop (Z.to_nat (len hits)) todo) with hs by (unfold hs, missed, len; by rewrite Nat2Z.id).
    destruct (step_inv _ _ _ _ _ S3) as [fl3 HI3].
    assert (device_block_pools m3 !! Z.to_nat i = Some p3) as Hp3.
    { eapply pool_only_at; [exact PO3|]. by apply (quiet_pool_at m). }
    destruct (host_run' hs i m3 p3 fl3 (lsd hits) (owned m i)) as (o & m4 & p4 & E4 & Ho).
    { by rewrite (near_n _ _ N3). } { done. } { done. }
    { rewrite (po_transfers _ _ _ _ PO3), (quiet_transfers _ _ Q). apply lookup_lt_is_Some.
      pose proof (inv_transfers_len _ HI) as E. unfold len in E. lia. }
    unfold bind at 1. rewrite E4. destruct o as [[loaded e]|err].
    2:{ destruct Ho as (-> & Ht & Hat & Hc & N4). exists (Raise AssertionError), m4, p4. split; [done|].
        split_and!; [done| |done|done| |by etrans].
        - by rewrite <- (near_testing_config _ _ (near_config _ _ N3)).
        - unfold resident. rewrite <- Hpc3. exact Hc. }
    destruct Ho as (pins & Hpins & F4 & Hl4 & S4).
    destruct (touch_hits_run (slice_to (hshs m rid)
      (cidx m rid / block_size m + len hits + len loaded)) i m4) as (m5 & E5 & N5 & P5 & T5).
    mstep E5. exists (Ok (hits ++ loaded, e)), m5, p4. split; [done|]. exists loaded, pins, hs.
    assert (Fetched m m5 i p4 pins hs e) as F.
    { eapply (fetched_near m m3); [exact N3| | |].
      - by rewrite (po_transfers _ _ _ _ PO3), (quiet_transfers _ _ Q).
      - by rewrite (po_pools _ _ _ _ PO3), (quiet_pools _ _ Q).
      - destruct F4 as [FN FP FT]. split; [by etrans|congruence..]. }
    split_and!; [done|done|done|by destruct Hpins as [-> | ->]|done| |].
    + rewrite len_app, <- Hlt. unfold hs, missed in Hl4. fold hits todo in Hl4.
      unfold len in *. rewrite length_drop in Hl4. lia.
    + eapply step_trans; [exact S3|].
      refine (eq_ind _ (λ X, Step p3 (lsd hits) (owned m i) p4 X) S4 _ _).
      rewrite list_to_set_disj_app. multiset_solver.
Qed.

Definition pop_one (rid i : Z) : M t unit :=
  let! l := blocks_of rid in
  let! block := of_option IndexError (last l) in
  put_blocks rid (removelast l);;
  on_pool i (BlockPool.free_block block).

Lemma pop_loop (L : list Z) m rid i p fl pre t others :
  0 ≤ i → device_block_pools m !! Z.to_nat i = Some p → BlockPool.Inv p fl (lsd t ⊎ others) →
  (∀ r, r ∈ t → BlockPool.real p r) → blks m rid = pre ++ t → length L = length t →
  ∃ m' p', for_each L (λ _, pop_one rid i) m = (Ok tt, m') ∧ Patched m m' rid i pre ∧
    device_block_pools m' = <[Z.to_nat i := p']> (device_block_pools m) ∧ Step p (lsd t) others p' ∅.
Proof.
  intros Hi. revert L m p fl. induction t as [|r t IH] using rev_ind; intros L m p fl Hp HI Hreal Hb HL.
  - destruct L; [|done]. exists m, p. rewrite app_nil_r in Hb. rewrite list_insert_id by done.
    split_and!; [done| |done|by eapply step_refl]. rewrite <- Hb. by apply patched_quiet.
  - rewrite length_app in HL. destruct L as [|x L]; [simpl in HL; lia|].
    destruct (blocks_of_run rid m) as (m1 & E1 & Q1).
    rewrite lsd_snoc in HI. destruct (free_step p fl (lsd t) others r HI) as (p2 & E2 & S2 & HI2 & _).
    { apply Hreal. apply elem_of_app. right. left. }
    set (m2 := set_blocks (<[rid := pre ++ t]> (req_to_blocks m1)) m1).
    pose proof (quiet_pool_at _ _ _ _ Q1 Hp) as Hp1.
    set (m3 := set_pools (<[Z.to_nat i := p2]> (device_block_pools m2)) m2).
    assert (pop_one rid i m = (Ok tt, m3)) as E.
    { unfold pop_one. mstep E1. rewrite Hb, app_assoc.
      erewrite bind_run; [|apply of_option_run, last_snoc]. rewrite removelast_last.
      unfold put_blocks. unfold bind at 1, modify. fold m2.
      by apply (on_pool_run i _ m2 p). }
    assert (Patched m m3 rid i (pre ++ t)) as P3.
    { destruct Q1 as [[Nc Nr Nb Nh Ni No] Qp Qt Qc]. split; try done.
      intros rid'. unfold m3. change (blks (set_pools _ m2) rid') with (blks m2 rid').
      unfold m2. by rewrite blks_put, Nb. }
    assert (device_block_pools m3 = <[Z.to_nat i := p2]> (device_block_pools m)) as Pp3.
    { unfold m3, m2. simpl. by rewrite (quiet_pools _ _ Q1). }
    edestruct (IH L m3 p2) as (m4 & p4 & E4 & P4 & Pp4 & S4).
    { rewrite Pp3. apply list_lookup_insert_eq. by eapply lookup_lt_Some. }
    { exact HI2. }
    { intros y Hy. apply (step_real_pool _ _ _ _ _ _ S2), Hreal. apply elem_of_app. by left. }
    { by rewrite (patched_blks _ _ _ _ _ P3), decide_True. }
    { simpl in HL. lia. }
    exists m4, p4. split_and!.
    + simpl. by mstep E.
    + by eapply patched_trans.
    + by rewrite Pp4, Pp3, list_insert_insert_eq.
    + rewrite lsd_snoc. by eapply step_trans.
Qed.

(** The token window moved to start at [n]. *)
Definition start_at (n : Z) (b : TokenBuffer.t) : TokenBuffer.t :=
  TokenBuffer.set_processing (Range.mk n (Range.end_ (TokenBuffer._processing_range b))) b.

Lemma start_at_wf n b :
  TokenBuffer.wf b → 0 ≤ n →
  n + TokenBuffer._processing_offset b ≤ Range.end_ (TokenBuffer._processing_range b) →
  TokenBuffer.wf (start_at n b).
Proof. intros [] Hn He. by split. Qed.

Lemma start_at_twice n n' b : start_at n (start_at n' b) = start_at n b.
Proof. done. Qed.
Lemma start_at_id b : start_at (TokenBuffer.processed_length b) b = b.
Proof. by destruct b as [? []]. Qed.

Lemma adjust_run ci b :
  TokenBuffer.wf b → 0 ≤ ci →
  ci + TokenBuffer._processing_offset b < Range.end_ (TokenBuffer._processing_range b) →
  (let delta := TokenBuffer.processed_length b - ci in
   if delta >? 0 then TokenBuffer.rewind_processing delta
   else when (delta <? 0) (TokenBuffer.skip_processing (- delta))) b = (Ok tt, start_at ci b).
Proof.
  intros Hwf Hci He. cbv zeta. set (delta := TokenBuffer.processed_length b - ci).
  pose proof (TokenBuffer.wf_offset _ Hwf). destruct (delta >? 0) eqn:E1.
  - rewrite TokenBuffer.rewind_run by done.
    replace ((0 <=? delta) && (delta <=? TokenBuffer.processed_length b)) with true by lia.
    unfold start_at. do 4 f_equal. lia.
  - destruct (delta <? 0) eqn:E2; simpl.
    + rewrite TokenBuffer.skip_run by done.
      assert (- delta < TokenBuffer.active_length b) as Ha.
      { unfold TokenBuffer.active_length, Range.length, delta, TokenBuffer.processed_length in *. lia. }
      replace ((0 <=? - delta) && (- delta <? TokenBuffer.active_length b)) with true by lia.
      unfold start_at. do 4 f_equal. lia.
    + replace ci with (TokenBuffer.processed_length b) by lia. by rewrite start_at_id.
Qed.

Lemma skip_to n b :
  TokenBuffer.wf b → TokenBuffer.processed_length b ≤ n →
  n + TokenBuffer._processing_offset b < Range.end_ (TokenBuffer._processing_range b) →
  TokenBuffer.skip_processing (n - TokenBuffer.processed_length b) b = (Ok tt, start_at n b).
Proof.
  intros Hwf Hn He. rewrite TokenBuffer.skip_run by done.
  assert (n - TokenBuffer.processed_length b < TokenBuffer.active_length b).
  { unfold TokenBuffer.active_length, Range.length, TokenBuffer.processed_length in *. lia. }
  replace ((0 <=? _) && _) with true by lia. unfold start_at. do 4 f_equal. lia.
Qed.

(** A context with other tokens. *)
Definition with_tokens (b : TokenBuffer.t) (x : Ctx.t B) : Ctx.t B :=
  Ctx.set_base (TextContext.set_tokens b (Ctx.base x)) x.

Lemma with_tokens_run {A} (f : M TokenBuffer.t A) x r b :
  f (Ctx.tokens x) = (r, b) → Ctx.on_tokens f x = (r, with_tokens b x).
Proof.
  intros E. unfold Ctx.on_tokens. apply on_base_run. unfold TextContext.on_tokens, zoom.
  unfold Ctx.tokens in E. by rewrite E.
Qed.
Lemma tokens_with b x : Ctx.tokens (with_tokens b x) = b.
Proof. unfold Ctx.tokens, with_tokens. by rewrite base_set_base. Qed.
Lemma with_tokens_twice b b' x : with_tokens b (with_tokens b' x) = with_tokens b x.
Proof. unfold with_tokens. rewrite base_set_base, set_base_twice. by destruct (Ctx.base x). Qed.
Lemma request_id_with b x :
  TextContext.request_id (Ctx.base (with_tokens b x)) = TextContext.request_id (Ctx.base x).
Proof. unfold with_tokens. by rewrite base_set_base. Qed.

Lemma release_uncommitted_run m x i p fl others k :
  let rid := TextContext.request_id (Ctx.base x) in
  0 ≤ i → req_to_replica m !! rid = Some i → device_block_pools m !! Z.to_nat i = Some p →
  0 < block_size m → cidx m rid = k * block_size m → 0 ≤ k ≤ len (blks m rid) →
  BlockPool.Inv p fl (lsd (drop (Z.to_nat k) (blks m rid)) ⊎ others) →
  (∀ r, r ∈ blks m rid → BlockPool.real p r) → TokenBuffer.wf (Ctx.tokens x) →
  k * block_size m + TokenBuffer._processing_offset (Ctx.tokens x)
    < Range.end_ (TokenBuffer._processing_range (Ctx.tokens x)) →
  ∃ m' p', release_uncommitted_blocks (mk_world m x) =
      (Ok tt, mk_world m' (with_tokens (start_at (k * block_size m) (Ctx.tokens x)) x)) ∧
    Patched m m' rid i (take (Z.to_nat k) (blks m rid)) ∧
    device_block_pools m' = <[Z.to_nat i := p']> (device_block_pools m) ∧
    Step p (lsd (drop (Z.to_nat k) (blks m rid))) others p' ∅.
Proof.
  intros rid Hi Hr Hp Hbs Hci Hk HI Hreal Hwf He.
  destruct (blocks_of_run rid m) as (m1 & E1 & Q1).
  destruct (committed_idx_of_run rid m1) as (m2 & E2 & Q2).
  assert (Quiet m m2) as Q by (by etrans).
  unfold release_uncommitted_blocks. unfold bind at 1, get, request_id. simpl. fold rid.
  mstep (on_mgr_run _ (mk_world m x) _ _ (replica_of_run _ _ _ Hr)).
  mstep (on_mgr_run _ (mk_world m x) _ _ (pool_at_run i m p Hi Hp)).
  mstep (on_mgr_run _ (mk_world m x) _ _ E1). simpl.
  mstep (on_mgr_run _ (mk_world m1 x) _ _ E2). simpl.
  rewrite (near_cidx _ _ (quiet_near _ _ Q1)), Hci, Z.div_mul by lia.
  erewrite bind_run; [|apply py_assert_true; lia]. cbv beta.
  set (n := len (blks m rid) - k).
  assert (length (zrange 0 n) = length (drop (Z.to_nat k) (blks m rid))) as Hlen.
  { pose proof (len_zrange 0 n ltac:(unfold n; lia)) as Hz. rewrite length_drop. unfold n, len in *. lia. }
  destruct (pop_loop (zrange 0 n) m2 rid i p fl (take (Z.to_nat k) (blks m rid))
    (drop (Z.to_nat k) (blks m rid)) others Hi (quiet_pool_at _ _ _ _ Q Hp) HI) as (m3 & p3 & E3 & P3 & Pp3 & S3).
  { intros r Hx. apply Hreal. eapply elem_of_sublist; [exact Hx|apply sublist_drop]. }
  { rewrite (near_blks _ _ (quiet_near _ _ Q)). by rewrite take_drop. }
  { done. }
  assert (for_each (zrange 0 n) (λ _, on_mgr (pop_one rid i)) (mk_world m2 x) = (Ok tt, mk_world m3 x))
    as E4 by (rewrite on_mgr_loop; by apply (on_mgr_run _ (mk_world m2 x))).
  mstep E4. unfold text at 1. unfold bind at 1, get, bind at 1, ret. simpl.
  exists m3, p3. split_and!.
  - pose proof (adjust_run (k * block_size m) (Ctx.tokens x) Hwf ltac:(nia) He) as EA. cbv zeta in EA.
    change (TextContext.tokens (Ctx.base x)) with (Ctx.tokens x).
    assert (∀ f : M TokenBuffer.t unit, f (Ctx.tokens x) = (Ok tt, start_at (k * block_size m) (Ctx.tokens x)) →
      on_ctx (Ctx.on_tokens f) (mk_world m3 x) =
        (Ok tt, mk_world m3 (with_tokens (start_at (k * block_size m) (Ctx.tokens x)) x))) as Hf.
    { intros f Ef. by apply (on_ctx_run _ (mk_world m3 x)), with_tokens_run. }
    destruct (_ >? 0); [by apply Hf|]. destruct (_ <? 0); simpl in *; [by apply Hf|].
    injection EA as EA. rewrite <- EA. unfold with_tokens, ret. do 2 f_equal.
    by destruct x as [[]|[[]]].
  - eapply patched_trans; [by apply patched_quiet|exact P3].
  - by rewrite Pp3, (quiet_pools _ _ Q).
  - done.
Qed.

(** What [reuse_blocks_from_prefix_cache] leaves when it found the blocks [H]. *)
Record Reused m m' rid (H : list Z) : Prop := {
  ru_inv : Inv m';
  ru_config : config m' = config m;
  ru_replica : req_to_replica m' = req_to_replica m;
  ru_blks : blks m' rid =
    if decide (H = []) then blks m rid
    else take (Z.to_nat (cidx m rid / block_size m)) (blks m rid) ++ H;
  ru_cidx : cidx m' rid = cidx m rid + len H * block_size m;
  ru_others : ∀ rid', rid' ≠ rid →
    blks m' rid' = blks m rid' ∧ cidx m' rid' = cidx m rid' ∧ hshs m' rid' = hshs m rid'
}.

(** Nothing found: only counters, hashes and LRU positions moved. *)
Lemma fetched_none m m' rid i p p' hs e :
  Inv m → 0 ≤ i < num_replicas m → device_block_pools m !! Z.to_nat i = Some p →
  Fetched m m' i p' [] hs e → Step p ∅ (owned m i) p' ∅ → Reused m m' rid [].
Proof.
  intros HI Hi Hp [N P T] HS. rewrite decide_True in T by done.
  assert (Inv m') as HI'.
  { apply (inv_replace m m' i p p' ∅ ∅ (owned m i) (λ _, False)); try done.
    - by rewrite (left_id_L ∅ disj_union).
    - apply N.
    - by rewrite (near_offloads _ _ N).
    - by rewrite T.
    - intros j tr h. unfold transfers_at. rewrite T. apply (inv_transfers _ HI).
    - rewrite (left_id_L ∅ disj_union). by apply owned_near.
    - intros j _. by apply owned_near.
    - intros rid' _. by rewrite (near_replica _ _ N), (near_blks _ _ N), (near_cidx _ _ N).
    - intros rid' r _ Hr Hx. unfold owned. apply gmultiset_elem_of_disj_union. left.
      by eapply blks_in_req_owned.
    - intros rid'. apply _. }
  destruct N as [Nc Nr Nb Nh Ni No]. split; try done.
  rewrite Ni. unfold len. simpl. lia.
Qed.

Lemma fetched_pinned m m' m5 i p' loaded hs e :
  0 ≤ i → is_Some (_pending_transfers m !! Z.to_nat i) → Fetched m m' i p' loaded hs e →
  _pending_transfers m5 = _pending_transfers m' →
  pinned (transfers_at m5 i) = lsd loaded ⊎ pinned (transfers_at m i) ∧
  (∀ j, j ≠ i → transfers_at m5 j = transfers_at m j) ∧
  len (_pending_transfers m5) = len (_pending_transfers m) ∧
  (transfers_ok m → (loaded ≠ [] → len loaded ≤ len hs) → transfers_ok m5).
Proof.
  intros Hi [l Hl] [N P T] T5. rewrite T in T5. clear T. unfold transfers_ok.
  assert (∀ j, transfers_at m5 j = if decide (j = i ∧ loaded ≠ []) then
    transfers_at m i ++ [pending_transfer _ e loaded (Some (slice_to hs (len loaded)))]
    else transfers_at m j) as Ht.
  { intros j. destruct (decide (j = i ∧ loaded ≠ [])) as [[-> Hne]|Hno].
    - unfold transfers_at at 1. rewrite T5, decide_True, decide_False by done.
      by rewrite list_lookup_insert_eq by (by eapply lookup_lt_Some).
    - unfold transfers_at. rewrite T5. destruct (decide (loaded = [])) as [->|Hne]; [done|].
      case_decide; [|done]. assert (j ≠ i) by tauto. by rewrite list_lookup_insert_ne by lia. }
  split_and!.
  - rewrite Ht. destruct (decide (loaded = [])) as [->|Hne].
    + rewrite decide_False by (by intros [_ ?]). simpl. by rewrite (left_id_L ∅ disj_union).
    + rewrite decide_True by (by split). rewrite pinned_app. simpl. multiset_solver.
  - intros j Hj. by rewrite Ht, decide_False by tauto.
  - rewrite T5. case_decide; [done|]. unfold len. by rewrite length_insert.
  - intros Hok Hlen j tr h. rewrite Ht.
    destruct (decide (j = i ∧ loaded ≠ [])) as [Hd|Hd]; [|apply Hok].
    intros [Htr| ->%list_elem_of_singleton]%elem_of_app; [by apply (Hok i)|].
    simpl. intros [= <-]. specialize (Hlen (proj2 Hd)).
    rewrite slice_to_take by apply len_nonneg. unfold len in *. rewrite length_take. lia.
Qed.

(** Blocks found: the invariant after the request swapped its tail for them. *)
Lemma reuse_inv m m2 m5 rid i p p2 p3 loaded hs e H' k :
  let bl := blks m rid in
  let T := lsd (drop (Z.to_nat k) bl) in
  let K := lsd (take (Z.to_nat k) bl) in
  Inv m → req_to_replica m !! rid = Some i → device_block_pools m !! Z.to_nat i = Some p →
  cidx m rid = k * block_size m → 0 ≤ k ≤ len bl →
  Fetched m m2 i p2 loaded hs e → (loaded ≠ [] → len loaded ≤ len hs) →
  Step p ∅ (owned m i) p2 (lsd loaded ⊎ lsd H') →
  Step p2 T (lsd loaded ⊎ lsd H' ⊎ (K ⊎ rest m rid i)) p3 ∅ →
  config m5 = config m → req_to_replica m5 = req_to_replica m →
  _pending_offloads m5 = _pending_offloads m → _pending_transfers m5 = _pending_transfers m2 →
  device_block_pools m5 = <[Z.to_nat i := p3]> (device_block_pools m) →
  blks m5 rid = take (Z.to_nat k) bl ++ H' → cidx m5 rid = (k + len H') * block_size m →
  (∀ rid', rid' ≠ rid → blks m5 rid' = blks m rid' ∧ cidx m5 rid' = cidx m rid') →
  Inv m5.
Proof.
  intros bl T K HI Hr Hp Hc Hk HF Hll S2 S3 Ec Er Eo Et Epo Eb Ei Hoth.
  pose proof (inv_replica _ HI _ _ Hr) as Hi. set (HH := lsd loaded ⊎ lsd H') in *.
  pose proof (inv_block_size _ HI) as Hbs.
  assert (is_Some (_pending_transfers m !! Z.to_nat i)) as Hsome.
  { apply lookup_lt_is_Some. pose proof (inv_transfers_len _ HI) as E. unfold len in E. lia. }
  destruct (fetched_pinned m m2 m5 i p2 loaded hs e (proj1 Hi) Hsome HF Et) as (Hpin & Htj & Htl & Htok).
  assert (lsd bl = T ⊎ K) as Ebl.
  { unfold T, K. rewrite <- (take_drop (Z.to_nat k) bl) at 1. rewrite list_to_set_disj_app. multiset_solver. }
  assert (owned m i = T ⊎ (K ⊎ rest m rid i)) as Eown.
  { rewrite (owned_split m rid i Hr). fold bl. rewrite Ebl. multiset_solver. }
  assert (tail m rid = drop (Z.to_nat k) bl) as Etail.
  { unfold tail. rewrite Hc, Z.div_mul by lia. done. }
  assert (Step p T (K ⊎ rest m rid i) p3 HH) as HS.
  { rewrite Eown in S2. pose proof (step_frame _ _ _ _ _ _ S2) as SF.
    rewrite (right_id_L ∅ disj_union) in SF. pose proof (step_frame _ _ _ _ _ _ S3) as SG.
    rewrite (right_id_L ∅ disj_union) in SG. rewrite (comm_L disj_union HH T) in SG.
    eapply step_trans; [apply SF|apply SG; multiset_solver].
    intros r Hh Ht. exfalso. destruct (step_fresh _ _ _ _ _ S2 r) as [_ Hno]; [multiset_solver..| |done].
    apply elem_of_lsd in Ht. rewrite <- Etail in Ht.
    by destruct (ok_private _ _ (inv_request m rid HI) i p r Hr Hp Ht). }
  assert (∀ j, req_owned (req_to_replica m5) (delete rid (req_to_blocks m5)) j =
               req_owned (req_to_replica m) (delete rid (req_to_blocks m)) j) as Ereq.
  { intros j. rewrite Er. apply req_owned_ext; [|done]. intros rid'. rewrite !default_delete.
    case_decide; [done|]. by apply Hoth. }
  assert (owned m5 i = HH ⊎ (K ⊎ rest m rid i)) as Eown5.
  { rewrite (owned_split m5 rid i) by by rewrite Er. unfold rest. rewrite Ereq, Hpin, Eb, list_to_set_disj_app.
    unfold HH, K. multiset_solver. }
  assert (Hbs5 := near_bs_config _ _ Ec). assert (Hn5 := near_n_config _ _ Ec).
  apply (inv_replace m m5 i p p3 T HH (K ⊎ rest m rid i) (λ x, x = rid)); try done.
  - by rewrite Eo.
  - by apply Htok; [apply HI|].
  - intros j Hj. rewrite (owned_elsewhere m5 rid j), (owned_elsewhere m rid j) by congruence.
    unfold rest. by rewrite Ereq, Htj.
  - intros rid' Hne. rewrite Er. split; [done|by apply Hoth].
  - intros rid' r Hne Hr' Hx. apply gmultiset_elem_of_disj_union. right.
    apply gmultiset_elem_of_subseteq with (lsd (blks m rid')); [by apply elem_of_lsd|].
    by apply owned_disjoint.
  - intros x ->. assert (len (blks m5 rid) = k + len H') as Hl5.
    { rewrite Eb, len_app. unfold len in *. rewrite length_take. lia. }
    split; rewrite ?Er, ?Hn5; [apply (inv_request m rid HI)|congruence| |].
    + exists (k + len H'). rewrite Ei, Hbs5, Hl5. split; [done|]. pose proof (len_nonneg H'). lia.
    + intros j q r _ _. unfold tail. rewrite Ei, Hbs5, Z.div_mul by lia.
      rewrite drop_ge; [by intros ?%not_elem_of_nil|]. unfold len in *. lia.
  - intros x. apply _.
Qed.

Lemma put_blocks_patched m rid i l : Patched m (set_blocks (<[rid := l]> (req_to_blocks m)) m) rid i l.
Proof. split; try done. intros rid'. by rewrite blks_put. Qed.

(** The tail of [reuse_blocks_from_prefix_cache], once blocks were found. *)
Definition adopt (rid : Z) (prefix_cache_blocks : list Z) (load_event : transfer)
    (is_first_admission : bool) (bs : Z) : M world (Z * transfer) :=
  let record_hit x := when is_first_admission
    (on_ctx (Ctx.on_base (modify (TextContext.set_cached (Some x))))) in
  on_mgr (count (Metrics.mk 0 (len prefix_cache_blocks * bs) 0 0 0));;
  release_uncommitted_blocks;;
  on_mgr (let! req_blocks := blocks_of rid in put_blocks rid (req_blocks ++ prefix_cache_blocks));;
  let! prev_committed_idx := on_mgr (committed_idx_of rid) in
  let new_committed_idx := prev_committed_idx + len prefix_cache_blocks * bs in
  on_mgr (put_committed rid new_committed_idx);;
  let! c := text in
  let skip_amount := new_committed_idx - TokenBuffer.processed_length (TextContext.tokens c) in
  on_ctx (Ctx.on_tokens (TokenBuffer.skip_processing skip_amount));;
  let! c := text in
  py_assert (1 <=? TokenBuffer.active_length (TextContext.tokens c));;
  record_hit skip_amount;;
  ret (skip_amount, load_event).

(** Context [x'] is [x] with the tokens [b] and some count of cached tokens. *)
Definition Retokened (x x' : Ctx.t B) (b : TokenBuffer.t) : Prop :=
  ∃ o, Ctx.base x' = TextContext.set_cached o (TextContext.set_tokens b (Ctx.base x)).

(** What an adoption leaves of the context. *)
Record Adopted x x' (n skip : Z) (first : bool) : Prop := {
  ad_tokens : Ctx.tokens x' = start_at n (Ctx.tokens x);
  ad_cached : first = true → TextContext.cached_prefix_length (Ctx.base x') = Some skip;
  ad_active : 1 ≤ TokenBuffer.active_length (Ctx.tokens x');
  ad_base : Retokened x x' (start_at n (Ctx.tokens x))
}.

Lemma record_hit_run m x (first : bool) skip b :
  Ctx.tokens x = b →
  ∃ x', when first (on_ctx (Ctx.on_base (modify (TextContext.set_cached (Some skip))))) (mk_world m x) =
      (Ok tt, mk_world m x') ∧ Ctx.tokens x' = b ∧
    (first = true → TextContext.cached_prefix_length (Ctx.base x') = Some skip) ∧
    Retokened x x' b.
Proof.
  intros Hb. destruct first; simpl.
  - eexists. split; [by apply (on_ctx_run _ (mk_world m x)), on_base_run|].
    unfold Ctx.tokens in *. rewrite base_set_base. split_and!; [done|done|]. exists (Some skip).
    rewrite base_set_base, <- Hb. simpl. by destruct (Ctx.base x).
  - exists x. split_and!; [done..|]. exists (TextContext.cached_prefix_length (Ctx.base x)).
    rewrite <- Hb. unfold Ctx.tokens. by destruct (Ctx.base x).
Qed.

Lemma retokened_with x x' b b' : Retokened (with_tokens b x) x' b' → Retokened x x' b'.
Proof. intros [o Ho]. exists o. rewrite Ho. unfold with_tokens. by rewrite base_set_base. Qed.

Lemma adopt_run m m2 x i p p2 loaded hs e H' first k fl2 :
  let rid := TextContext.request_id (Ctx.base x) in
  let bl := blks m rid in
  Inv m → req_to_replica m !! rid = Some i → device_block_pools m !! Z.to_nat i = Some p →
  cidx m rid = k * block_size m → 0 ≤ k ≤ len bl →
  Fetched m m2 i p2 loaded hs e → (loaded ≠ [] → len loaded ≤ len hs) →
  Step p ∅ (owned m i) p2 (lsd loaded ⊎ lsd H') →
  BlockPool.Inv p2 fl2 (lsd loaded ⊎ lsd H' ⊎ owned m i) → H' ≠ [] →
  TokenBuffer.wf (Ctx.tokens x) →
  (k + len H') * block_size m + TokenBuffer._processing_offset (Ctx.tokens x)
    < Range.end_ (TokenBuffer._processing_range (Ctx.tokens x)) →
  ∃ m' x', adopt rid H' e first (block_size m) (mk_world m2 x) =
      (Ok (len H' * block_size m, e), mk_world m' x') ∧
    Reused m m' rid H' ∧ hshs m' rid = hshs m rid ∧
    Adopted x x' ((k + len H') * block_size m) (len H' * block_size m) first.
Proof.
  intros rid bl HI Hr Hp Hc Hk HF Hll S2 HI2 HH Hwf He.
  pose proof (inv_replica _ HI _ _ Hr) as Hi. pose proof (inv_block_size _ HI) as Hbs.
  pose proof (len_nonneg H') as HH0.
  destruct (count_run (Metrics.mk 0 (len H' * block_size m) 0 0 0) m2) as (m3 & E3 & Q3).
  unfold adopt. mstep (on_mgr_run _ (mk_world m2 x) _ _ E3). simpl.
  assert (Near m m3) as N3 by (etrans; [apply HF|apply Q3]).
  assert (device_block_pools m3 = <[Z.to_nat i := p2]> (device_block_pools m)) as P3.
  { by rewrite (quiet_pools _ _ Q3), (ft_pools _ _ _ _ _ _ _ HF). }
  assert (device_block_pools m3 !! Z.to_nat i = Some p2) as Hp3.
  { rewrite P3. apply list_lookup_insert_eq. by eapply lookup_lt_Some. }
  pose proof (near_bs _ _ N3) as Ebs3. pose proof (near_cidx _ _ N3 rid) as Ec3.
  pose proof (near_blks _ _ N3 rid) as Eb3.
  set (T := lsd (drop (Z.to_nat k) bl)). set (K := lsd (take (Z.to_nat k) bl)).
  set (HH' := lsd loaded ⊎ lsd H') in *.
  assert (owned m i = T ⊎ (K ⊎ rest m rid i)) as Eown.
  { rewrite (owned_split m rid i Hr). fold bl. rewrite <- (take_drop (Z.to_nat k) bl) at 1.
    rewrite list_to_set_disj_app. unfold T, K. multiset_solver. }
  destruct (release_uncommitted_run m3 x i p2 fl2 (HH' ⊎ (K ⊎ rest m rid i)) k)
    as (m4 & p4 & E4 & P4 & Pp4 & S4); fold rid; rewrite ?Ebs3, ?Ec3, ?Eb3; try done; try (fold bl; lia).
  { by rewrite (near_replica _ _ N3). }
  { fold bl T. rewrite Eown in HI2.
    by replace (T ⊎ (HH' ⊎ (K ⊎ rest m rid i))) with (HH' ⊎ (T ⊎ (K ⊎ rest m rid i))) by multiset_solver. }
  { intros r Hx. apply (step_real_pool _ _ _ _ _ _ S2).
    destruct (inv_pool _ HI i Hi) as (q & flq & Hq & _ & Hqi). assert (q = p) as -> by congruence.
    eapply real_at; [done|done|done|exact Hqi|]. rewrite (owned_split m rid i Hr).
    apply gmultiset_elem_of_disj_union. left. by apply elem_of_lsd. }
  fold rid in E4, P4, S4. rewrite Ebs3 in E4. rewrite Eb3 in P4, S4. fold bl in P4, S4.
  mstep E4. set (x4 := with_tokens _ x).
  destruct (blocks_of_run rid m4) as (m5 & E5 & Q5).
  assert (blks m4 rid = take (Z.to_nat k) bl) as Eb4 by by rewrite (patched_blks _ _ _ _ _ P4), decide_True.
  set (m6 := set_blocks (<[rid := take (Z.to_nat k) bl ++ H']> (req_to_blocks m5)) m5).
  assert ((let! req_blocks := blocks_of rid in put_blocks rid (req_blocks ++ H')) m4 = (Ok tt, m6)) as E6.
  { mstep E5. by rewrite Eb4. }
  mstep (on_mgr_run _ (mk_world m4 x4) _ _ E6). simpl.
  destruct (committed_idx_of_run rid m6) as (m7 & E7 & Q7).
  mstep (on_mgr_run _ (mk_world m6 x4) _ _ E7). simpl.
  assert (Patched m3 m7 rid i (take (Z.to_nat k) bl ++ H')) as P7.
  { eapply patched_trans; [exact P4|]. eapply patched_trans; [by apply patched_quiet|].
    eapply patched_trans; [apply (put_blocks_patched m5)|].
    assert (blks m6 rid = take (Z.to_nat k) bl ++ H') as <- by (unfold m6; by rewrite blks_put, decide_True).
    by apply patched_quiet. }
  assert (cidx m6 rid = k * block_size m) as Ec6.
  { rewrite <- (near_cidx _ _ (quiet_near _ _ Q7)), (patched_cidx _ _ _ _ _ P7). congruence. }
  rewrite Ec6. replace (k * block_size m + len H' * block_size m) with ((k + len H') * block_size m) by ring.
  set (n := (k + len H') * block_size m) in *.
  set (m8 := set_committed (<[rid := n]> (req_to_committed_idx m7)) m7).
  assert (put_committed rid n m7 = (Ok tt, m8)) as E8 by done.
  mstep (on_mgr_run _ (mk_world m7 x4) _ _ E8). simpl.
  assert (text (mk_world m8 x4) = (Ok (Ctx.base x4), mk_world m8 x4)) as E9 by done. mstep E9.
  change (TextContext.tokens (Ctx.base x4)) with (Ctx.tokens x4).
  assert (Ctx.tokens x4 = start_at (k * block_size m) (Ctx.tokens x)) as Et4 by apply tokens_with.
  assert (TokenBuffer.wf (Ctx.tokens x4)) as Hwf4.
  { rewrite Et4. apply start_at_wf; [done|nia|nia]. }
  assert (TokenBuffer.processed_length (Ctx.tokens x4) = k * block_size m) as Epr by by rewrite Et4.
  assert (TokenBuffer.skip_processing (n - TokenBuffer.processed_length (Ctx.tokens x4)) (Ctx.tokens x4)
    = (Ok tt, start_at n (Ctx.tokens x))) as E10.
  { rewrite (skip_to n) by (done || rewrite ?Epr, ?Et4; unfold n in *; (nia || done)).
    by rewrite Et4, start_at_twice. }
  mstep (on_ctx_run _ (mk_world m8 x4) _ _ (with_tokens_run _ x4 _ _ E10)). simpl.
  set (x5 := with_tokens (start_at n (Ctx.tokens x)) x4).
  assert (text (mk_world m8 x5) = (Ok (Ctx.base x5), mk_world m8 x5)) as E11 by done. mstep E11.
  assert (Ctx.tokens x5 = start_at n (Ctx.tokens x)) as Et5 by apply tokens_with.
  change (TextContext.tokens (Ctx.base x5)) with (Ctx.tokens x5).
  assert (1 ≤ TokenBuffer.active_length (start_at n (Ctx.tokens x))) as Hact.
  { unfold TokenBuffer.active_length, Range.length, start_at. simpl.
    pose proof (TokenBuffer.wf_offset _ Hwf). unfold n. lia. }
  erewrite bind_run.
  2:{ apply py_assert_true. rewrite Et5. apply Z.leb_le, Hact. }
  cbv beta. rewrite Epr. replace (n - k * block_size m) with (len H' * block_size m) by (unfold n; ring).
  destruct (record_hit_run m8 x5 first (len H' * block_size m) _ Et5) as (x6 & E12 & Et6 & Hc6 & Hr6).
  mstep E12. exists m8, x6. split; [done|].
  split; [|split; [|split; [done|done|by rewrite Et6|by do 2 eapply retokened_with]]].
  2:{ change (hshs m8 rid) with (hshs m7 rid). by rewrite (patched_hshs _ _ _ _ _ P7), (near_hshs _ _ N3). }
  assert (device_block_pools m8 = <[Z.to_nat i := p4]> (device_block_pools m)) as P8.
  { change (device_block_pools m8) with (device_block_pools m7).
    rewrite (quiet_pools _ _ Q7). change (device_block_pools m6) with (device_block_pools m5).
    by rewrite (quiet_pools _ _ Q5), Pp4, P3, list_insert_insert_eq. }
  assert (config m8 = config m) as C8.
  { change (config m8) with (config m7). by rewrite (patched_config _ _ _ _ _ P7), (near_config _ _ N3). }
  assert (blks m8 rid = take (Z.to_nat k) bl ++ H') as B8.
  { change (blks m8 rid) with (blks m7 rid). by rewrite (patched_blks _ _ _ _ _ P7), decide_True. }
  assert (∀ rid', cidx m8 rid' = if decide (rid' = rid) then n else cidx m rid') as C8'.
  { intros rid'. unfold m8. rewrite cidx_put. case_decide; [done|].
    by rewrite (patched_cidx _ _ _ _ _ P7), (near_cidx _ _ N3). }
  assert (∀ rid', rid' ≠ rid → blks m8 rid' = blks m rid' ∧ cidx m8 rid' = cidx m rid') as Oth.
  { intros rid' Hne. rewrite C8', decide_False by done. split; [|done].
    change (blks m8 rid') with (blks m7 rid').
    by rewrite (patched_blks _ _ _ _ _ P7), decide_False, (near_blks _ _ N3). }
  assert (cidx m8 rid = n) as Cn by by rewrite C8', decide_True.
  split.
  - eapply (reuse_inv m m2 m8 rid i p p2 p4 loaded hs e H' k); try done.
    + change (req_to_replica m8) with (req_to_replica m7).
      by rewrite (patched_replica _ _ _ _ _ P7), (near_replica _ _ N3).
    + change (_pending_offloads m8) with (_pending_offloads m7).
      by rewrite (patched_offloads _ _ _ _ _ P7), (near_offloads _ _ N3).
    + change (_pending_transfers m8) with (_pending_transfers m7).
      by rewrite (patched_transfers _ _ _ _ _ P7), (quiet_transfers _ _ Q3).
  - done.
  - change (req_to_replica m8) with (req_to_replica m7).
    by rewrite (patched_replica _ _ _ _ _ P7), (near_replica _ _ N3).
  - by rewrite B8, decide_False, Hc, Z.div_mul by (done || lia).
  - rewrite Cn, Hc. unfold n. ring.
  - intros rid' Hne. split_and!; [by apply Oth..|].
    change (hshs m8 rid') with (hshs m7 rid').
    by rewrite (patched_hshs _ _ _ _ _ P7), (near_hshs _ _ N3).
Qed.

(** The same claim, from before the request's hashes were computed. *)
Lemma reused_from m m1 m' rid hits :
  Reused m1 m' rid hits → config m1 = config m → req_to_replica m1 = req_to_replica m →
  (∀ rid', blks m1 rid' = blks m rid') → (∀ rid', cidx m1 rid' = cidx m rid') →
  (∀ rid', rid' ≠ rid → hshs m1 rid' = hshs m rid') → Reused m m' rid hits.
Proof.
  intros [A1 A2 A3 A4 A5 A6] Hc Hr Hb Hi Hh. pose proof (near_bs_config _ _ Hc) as Hbs.
  split; [done|congruence..| | |].
  - by rewrite A4, Hb, Hi, Hbs.
  - by rewrite A5, Hi, Hbs.
  - intros rid' Hne. destruct (A6 rid' Hne) as (-> & -> & ->). by rewrite Hb, Hi, Hh.
Qed.

(** Without caching, or with a single token to process, reuse does nothing. *)
Lemma reuse_idle_run m x i :
  let rid := TextContext.request_id (Ctx.base x) in
  req_to_replica m !! rid = Some i → enable_runtime_checks m = false →
  enable_prefix_caching m = false ∨ TokenBuffer.active_length (Ctx.tokens x) = 1 →
  reuse_blocks_from_prefix_cache (mk_world m x) = (Ok (0, CompletedTransfer LOAD []), mk_world m x).
Proof.
  intros rid Hr Hch Hidle. unfold reuse_blocks_from_prefix_cache. unfold bind at 1, get, request_id. simpl.
  fold rid. mstep (on_mgr_run _ (mk_world m x) _ _ (replica_of_run _ _ _ Hr)).
  mstep (on_mgr_run _ (mk_world m x) _ _ (checks_off rid m Hch)).
  unfold text at 1. unfold bind at 1, get, bind at 1, ret. simpl.
  change (TextContext.tokens (Ctx.base x)) with (Ctx.tokens x).
  replace (negb _ || _) with true; [done|]. destruct Hidle as [-> | ->]; [done|]. by rewrite orb_true_r.
Qed.

(** The manager's assertion failed: the connector had loaded, and completed, a block whose
    hash the device holds already. *)
Record Clashed m m' (p : BlockPool.t) rid (e : exn) : Prop := {
  cl_exn : e = AssertionError;
  cl_testing : _only_use_kv_connector_last_level_cache m = false;
  cl_name : name (connector m) ≠ "NullConnector"%string;
  cl_loads : loads_at_once;
  cl_resident : resident p (drop (length (resolve p (drop (Z.to_nat (cidx m rid / block_size m)) (hshs m' rid))))
                              (drop (Z.to_nat (cidx m rid / block_size m)) (hshs m' rid)));
  cl_config : config m' = config m;
  cl_replica : req_to_replica m' = req_to_replica m;
  cl_blks : ∀ rid', blks m' rid' = blks m rid';
  cl_cidx : ∀ rid', cidx m' rid' = cidx m rid'
}.

Lemma reuse_run `{!KVConnectorLaws} m x i p :
  let rid := TextContext.request_id (Ctx.base x) in
  let k := cidx m rid / block_size m in
  let first := TokenBuffer.processed_length (Ctx.tokens x) =? 0 in
  Inv m → req_to_replica m !! rid = Some i → device_block_pools m !! Z.to_nat i = Some p →
  enable_prefix_caching m = true → enable_runtime_checks m = false → local_only m →
  TokenBuffer.wf (Ctx.tokens x) → (∀ y, y ∈ TokenBuffer.all (Ctx.tokens x) → int64 y = true) →
  TokenBuffer.active_length (Ctx.tokens x) ≠ 1 →
  len (hshs m rid) * block_size m ≤ hashable x →
  hashable x + TokenBuffer._processing_offset (Ctx.tokens x)
    < Range.end_ (TokenBuffer._processing_range (Ctx.tokens x)) →
  ∃ r m' x', reuse_blocks_from_prefix_cache (mk_world m x) = (r, mk_world m' x') ∧
    match r with
    | Raise e => x' = x ∧ (Quiet m m' ∨ Clashed m m' p rid e)
    | Ok (skip, _) => ∃ G, Reused m m' rid G ∧ hshs m rid `prefix_of` hshs m' rid ∧
        len (hshs m' rid) = Z.max (len (hshs m rid)) (hashable x / block_size m) ∧
        (let hits := if _only_use_kv_connector_last_level_cache m then []
                     else (resolve p (drop (Z.to_nat k) (hshs m' rid))).*2 in
         hits `prefix_of` G ∧ (name (connector m) = "NullConnector"%string → G = hits)) ∧
        skip = len G * block_size m ∧
        (if decide (G = []) then Retokened x x' (Ctx.tokens x) ∧ Ctx.tokens x' = Ctx.tokens x ∧
           (first = true → TextContext.cached_prefix_length (Ctx.base x') = Some 0)
         else Adopted x x' ((k + len G) * block_size m) skip first)
    end.
Proof.
  intros rid k first HI Hr Hp Hca Hch Hloc Hwf H64 Hact Hhs Hroom.
  unfold reuse_blocks_from_prefix_cache. unfold bind at 1, get, request_id. simpl.
  fold rid. mstep (on_mgr_run _ (mk_world m x) _ _ (replica_of_run _ _ _ Hr)).
  mstep (on_mgr_run _ (mk_world m x) _ _ (checks_off rid m Hch)).
  unfold text at 1. unfold bind at 1, get, bind at 1, ret. simpl.
  change (TextContext.tokens (Ctx.base x)) with (Ctx.tokens x). rewrite Hca. simpl.
  replace (_ =? 1) with false by lia. fold first.
  destruct (blocks_of_run rid m) as (m0 & E0 & Q0). mstep (on_mgr_run _ (mk_world m x) _ _ E0). simpl.
  pose proof (inv_quiet _ _ HI Q0) as HI0.
  destruct (hashes_run m0 x HI0 Hwf H64) as (r1 & m1 & E1 & HI1 & Hh). fold rid in Hh.
  destruct r1 as [[]|e].
  2:{ exists (Raise e), m1, x. unfold bind at 1. rewrite E1. split; [done|]. split; [done|]. left. by etrans. }
  mstep E1. destruct Hh as (Hlh & Hpre & Hho & Hc1 & Hr1 & Hb1 & Hi1 & Hp1 & Ht1 & Ho1 & Hcn1).
  pose proof (near_bs_config _ _ Hc1) as Ebs1. pose proof (near_bs _ _ (quiet_near _ _ Q0)) as Ebs0.
  assert (config m1 = config m) as Hc by (rewrite Hc1; apply Q0).
  assert (block_size m1 = block_size m) as Ebs by congruence.
  assert (cidx m1 rid = cidx m rid) as Eci by (rewrite Hi1; apply Q0).
  assert (hshs m0 rid = hshs m rid) as Eh0 by (apply Q0).
  rewrite Eh0, Ebs0 in *.
  assert (req_to_replica m1 !! rid = Some i) as Hr1' by (rewrite Hr1; by rewrite (near_replica _ _ (quiet_near _ _ Q0))).
  assert (device_block_pools m1 !! Z.to_nat i = Some p) as Hp1' by (rewrite Hp1; by apply (quiet_pool_at m)).
  pose proof (inv_replica _ HI1 _ _ Hr1') as Hi.
  destruct (inv_pool _ HI1 i Hi) as (q & fl & Hq & _ & Hpi). assert (q = p) as -> by congruence.
  assert (local_only m1) as Hloc1.
  { unfold config in Hc. injection Hc as _ _ En _ _ _ _ Ex _ _. unfold local_only. by rewrite En, Ex. }
  assert (enable_prefix_caching m1 = true) as Hca1 by by rewrite (near_caching_config _ _ Hc).
  destruct (get_full_run m1 rid i p fl HI1 Hr1' Hp1' Hpi Hca1 Hloc1)
    as (o & m2 & p2 & E2 & Ho).
  unfold bind at 1. rewrite (on_mgr_run _ (mk_world m1 x) _ _ E2). simpl.
  destruct o as [[found e]|err].
  2:{ exists (Raise err), m2, x. split; [done|]. split; [done|]. right.
      destruct Ho as (-> & Ht & Hnm & Hat & Hres & N2). assert (hshs m2 rid = hshs m1 rid) as Eh2 by apply N2.
      split; [done| | |done| | | | |].
      - by rewrite <- (near_testing_config _ _ Hc).
      - by rewrite <- (quiet_connector _ _ Q0), <- Hcn1.
      - unfold missed, device_hits in Hres. by rewrite Ht, length_fmap, Eci, Ebs, <- Eh2 in Hres.
      - by rewrite (near_config _ _ N2).
      - rewrite (near_replica _ _ N2), Hr1. apply Q0.
      - intros rid'. rewrite (near_blks _ _ N2), Hb1. apply Q0.
      - intros rid'. rewrite (near_cidx _ _ N2), Hi1. apply Q0. }
  destruct Ho as (loaded & pins & hs & -> & Hpins & F2 & Hll & Hnull & Hlen & S2).
  set (G := device_hits m1 p rid ++ loaded) in *.
  assert (∀ m', Reused m1 m' rid G → Reused m m' rid G) as Hfrom.
  { intros m' HR. apply (reused_from m m1); try done.
    - rewrite Hr1. apply Q0.
    - intros rid'. rewrite Hb1. apply Q0.
    - intros rid'. rewrite Hi1. apply Q0.
    - intros rid' Hne. rewrite Hho by done. apply Q0. }
  assert (let hits := if _only_use_kv_connector_last_level_cache m then []
    else (resolve p (drop (Z.to_nat k) (hshs m1 rid))).*2 in
    hits `prefix_of` G ∧ (name (connector m) = "NullConnector"%string → G = hits)) as Hhits.
  { unfold config in Hc. injection Hc as _ _ _ _ _ _ _ _ _ El. unfold G, device_hits. rewrite El, Eci, Ebs.
    split; [by exists loaded|]. intros En. rewrite Hnull; [by rewrite app_nil_r|].
    by rewrite Hcn1, (quiet_connector _ _ Q0). }
  assert (G = [] → loaded = []) as Hnone by by intros [_ ?]%app_nil.
  clearbody G. destruct (len G >? 0) eqn:EG.
  - assert (G ≠ []) as HG by (by intros ->).
    destruct (inv_committed _ HI1 rid) as (k' & Ek & Hk'). rewrite Ebs in Ek.
    pose proof (inv_block_size _ HI) as Hbs.
    assert (k' = k) as -> by (unfold k; by rewrite <- Eci, Ek, Z.div_mul by lia).
    rewrite Eci, Ebs in Hlen. fold k in Hlen. rewrite Hlh in Hlen.
    assert ((k + len G) * block_size m ≤ hashable x) as Hend.
    { pose proof (Z.mul_div_le (hashable x) (block_size m) Hbs). pose proof (len_nonneg G). nia. }
    destruct (step_inv _ _ _ _ _ S2) as [fl2 HI2].
    edestruct (adopt_run m1 m2 x i p p2 pins hs e G first k fl2)
      as (m3 & x3 & E3 & R3 & Eh3 & A3); fold rid; rewrite ?Ebs; try done; [lia|].
    fold rid in R3, Eh3. rewrite Ebs in E3, A3.
    exists (Ok (len G * block_size m, e)), m3, x3. split; [exact E3|]. exists G. rewrite Eh3.
    split; [by apply Hfrom|]. split_and!; try done; try apply Hhits. by rewrite decide_False.
  - assert (G = []) as EGn by (destruct G; [done|discriminate EG]).
    rewrite EGn in *. assert (pins = []) as -> by (pose proof (Hnone eq_refl); by destruct Hpins as [-> | ->]).
    simpl in S2. rewrite (left_id_L ∅ disj_union) in S2.
    destruct (record_hit_run m2 x first 0 _ eq_refl) as (x3 & E3 & Et3 & Hc3 & Hr3).
    mstep E3. exists (Ok (0, e)), m2, x3. split; [done|]. exists [].
    assert (hshs m2 rid = hshs m1 rid) as Eh2 by (apply F2).
    rewrite Eh2. split; [apply Hfrom; by apply (fetched_none m1 m2 rid i p p2 hs e)|].
    split_and!; try done; apply Hhits.
Qed.

(** *** A step of the request *)

(** What [step] leaves: the hashes grew to every hashable block and the computed
    blocks are committed under them. *)
Record Stepped m m' (x : Ctx.t B) (i : Z) (p' : BlockPool.t) : Prop := {
  sd_inv : Inv m';
  sd_config : config m' = config m;
  sd_replica : req_to_replica m' = req_to_replica m;
  sd_hashes : hshs m (TextContext.request_id (Ctx.base x))
                `prefix_of` hshs m' (TextContext.request_id (Ctx.base x));
  sd_enough : computed_blocks m (Ctx.base x) ≤ len (hshs m' (TextContext.request_id (Ctx.base x)));
  sd_cidx : cidx m' (TextContext.request_id (Ctx.base x)) =
            computed_blocks m (Ctx.base x) * block_size m;
  sd_len : len (blks m' (TextContext.request_id (Ctx.base x))) =
           len (blks m (TextContext.request_id (Ctx.base x)));
  sd_pools : device_block_pools m' = <[Z.to_nat i := p']> (device_block_pools m);
  sd_committed : ∀ j r h,
    cidx m (TextContext.request_id (Ctx.base x)) / block_size m ≤ j < computed_blocks m (Ctx.base x) →
    blks m' (TextContext.request_id (Ctx.base x)) !! Z.to_nat j = Some r →
    hshs m' (TextContext.request_id (Ctx.base x)) !! Z.to_nat j = Some h →
    BlockPool.cached_hash p' r = Some h;
  sd_kept : drop (Z.to_nat (computed_blocks m (Ctx.base x)))
              (blks m' (TextContext.request_id (Ctx.base x))) =
            drop (Z.to_nat (computed_blocks m (Ctx.base x)))
              (blks m (TextContext.request_id (Ctx.base x)));
  sd_others : ∀ rid', rid' ≠ TextContext.request_id (Ctx.base x) →
    blks m' rid' = blks m rid' ∧ cidx m' rid' = cidx m rid' ∧ hshs m' rid' = hshs m rid'
}.

(** Every computed block can be hashed: a placeholder or the token to process is left. *)
Definition token_left (x : Ctx.t B) : Prop :=
  TokenBuffer.processed_length (Ctx.tokens x) < TokenBuffer.length (Ctx.tokens x)
  ∨ 1 ≤ TextContext.pending_future_count (Ctx.base x).

Lemma computed_hashable m x :
  0 < block_size m → token_left x → computed_blocks m (Ctx.base x) ≤ hashable x / block_size m.
Proof.
  intros Hbs Hl. unfold computed_blocks, hashable, token_left, Ctx.tokens in *.
  apply Z.div_le_mono; lia.
Qed.

Lemma step_off m x :
  enable_prefix_caching m = false → enable_runtime_checks m = false →
  step (mk_world m x) = (Ok tt, mk_world m x).
Proof.
  intros Hca Hch. unfold step. unfold bind at 1, get. simpl.
  mstep (on_mgr_run _ (mk_world m x) _ _ (checks_off (request_id (mk_world m x)) m Hch)). by rewrite Hca.
Qed.

Lemma step_run m x i p fl :
  let rid := TextContext.request_id (Ctx.base x) in
  Inv m → req_to_replica m !! rid = Some i → device_block_pools m !! Z.to_nat i = Some p →
  BlockPool.Inv p fl (owned m i) → enable_prefix_caching m = true → enable_runtime_checks m = false →
  TokenBuffer.wf (Ctx.tokens x) → (∀ y, y ∈ TokenBuffer.all (Ctx.tokens x) → int64 y = true) →
  token_left x → cidx m rid / block_size m ≤ computed_blocks m (Ctx.base x) →
  computed_blocks m (Ctx.base x) ≤ len (blks m rid) →
  ∃ r m', step (mk_world m x) = (r, mk_world m' x) ∧ match r with
    | Raise _ => Quiet m m'
    | Ok _ => ∃ p', Stepped m m' x i p'
    end.
Proof.
  intros rid HI Hr Hp Hpi Hca Hch Hwf H64 Hleft Hk Hn.
  unfold step. unfold bind at 1, get, request_id. simpl. fold rid.
  mstep (on_mgr_run _ (mk_world m x) _ _ (checks_off rid m Hch)). rewrite Hca. simpl.
  destruct (hashes_run m x HI Hwf H64) as (r1 & m1 & E1 & HI1 & Hh). fold rid in Hh.
  destruct r1 as [[]|e].
  2:{ exists (Raise e), m1. unfold bind at 1. by rewrite E1. }
  mstep E1. destruct Hh as (Hlh & Hpre & Hho & Hc1 & Hr1 & Hb1 & Hi1 & Hp1 & Ht1 & Ho1 & Hcn1).
  assert (text (mk_world m1 x) = (Ok (Ctx.base x), mk_world m1 x)) as Et by done. mstep Et.
  pose proof (near_bs_config _ _ Hc1) as Ebs.
  assert (computed_blocks m1 (Ctx.base x) = computed_blocks m (Ctx.base x)) as Ecb
    by (unfold computed_blocks; by rewrite Ebs).
  assert (owned m1 i = owned m i) as Eow.
  { unfold owned. f_equal; [|unfold transfers_at; by rewrite Ht1]. apply req_owned_ext.
    - intros rid'. apply Hb1.
    - intros rid' _. by rewrite Hr1. }
  pose proof (computed_hashable m x (inv_block_size _ HI) Hleft) as Hch'.
  destruct (publish_prefix_run m1 (Ctx.base x) i p fl) as (m2 & p' & E2 & C2);
    fold rid; rewrite ?Ecb, ?Hi1, ?Ebs, ?Hb1, ?Hlh, ?Hr1, ?Hp1, ?Eow; try done; [lia|].
  mstep (on_mgr_run _ (mk_world m1 x) _ _ E2). simpl.
  assert (enable_runtime_checks m2 = false) as Hch2.
  { rewrite (near_checks_config m1 m2) by apply C2. by rewrite (near_checks_config m m1). }
  rewrite (on_mgr_run _ (mk_world m2 x) _ _ (checks_off rid m2 Hch2)).
  exists (Ok tt), m2. split; [done|]. exists p'. destruct C2 as [D1 D2 D3 D4 D5 D6 D7 D8 D9 D10 D11 D12 D13 D14].
  fold rid in D4, D5, D6, D7, D11, D12, D13 |- *. rewrite Ecb, ?Ebs in *.
  split; fold rid; try done; try congruence.
  - rewrite D6, Hlh. lia.
  - intros j r h Hj Hb Hh. apply (D13 j r h); [by rewrite Hi1|done|by rewrite <- D6].
  - intros rid' Hne. destruct (D5 rid' Hne) as [-> ->]. by rewrite D6, Hho, Hb1, Hi1.
Qed.

Lemma mgr_init_run n bs c caching checks k algo seed mem copy dev last m :
  0 ≤ n → 0 < bs → init n bs c caching checks k algo seed mem copy dev last = Ok m → Inv m.
Proof.
  intros Hn Hbs. unfold init. destruct (k <? 1) eqn:Ek; [done|]. intros [= <-].
  set (m := mk _ _ _ _ _ _ _ _ _ _ _ _ _ _ _ _ _ _ _ _ _ _).
  assert (∀ {A} (a : A), len (repeat a (Z.to_nat k)) = k) as Hlen.
  { intros A a. unfold len. rewrite repeat_length. lia. }
  assert (∀ i, transfers_at m i = []) as Ht.
  { intros i. unfold transfers_at. case_decide; [|done]. simpl.
    destruct (_ !! _) as [l|] eqn:El; [|done]. simpl.
    apply list_elem_of_lookup_2, list_elem_of_In, repeat_spec in El. done. }
  assert (∀ i, owned m i = ∅) as Ho by (intros i; unfold owned; by rewrite Ht).
  split; simpl; try done; try apply Hlen.
  - intros i tr hs. rewrite Ht. by intros ?%not_elem_of_nil.
  - intros i Hi. exists (BlockPool.init n checks), (zrange 0 n). split_and!; [|done|].
    + assert (∀ {A} (a : A) j, repeat a j = replicate j a) as -> by (intros A a j; induction j; simpl; congruence).
      apply lookup_replicate_2. lia.
    + rewrite Ho. by apply BlockPool.init_inv.
  - intros i r. rewrite Ho. by intros ?%gmultiset_not_elem_of_empty.
  - intros rid. exists 0. pose proof (len_nonneg (blks m rid)). done.
Qed.

End Owned.
End Ownership.
