(* ===== verification/ManagerProperties.v ===== *)
(** * Properties of the block manager

    [Trace]: a whole run of the manager, as the list of calls the scheduler makes.
    The theorems state, over any run, that the manager's books and the pools' counts
    agree and that no block another request can see is written; then what each call
    promises on its own. *)

From S2P Require Import Prelude Tokens Eos FreeQueue Pool Grammar Context Hashing Connector Manager ManagerFacts.

(** ** Runs of the manager *)
Module Trace.
Import BlockManager Ownership.

Section Trace.
Context `{Digest} {B : Backend} `{KVConnector} `{Driver}.
Implicit Types m : t.

(** The calls made on the manager; [Tick] is the connector making progress on its
    own. A request's context is whatever the caller passes. *)
Inductive call :=
| Claim (rid i : Z)
| Allocate (x : Ctx.t B) (num_draft_tokens num_draft_tokens_per_step : Z)
| Reuse (x : Ctx.t B)
| Step (x : Ctx.t B)
| Offload (i : Z)
| Poll
| Release (rid : Z)
| Purge
| Tick (c : conn).

(** Run a method of the pair of a manager and a context. *)
Definition in_world {A} (f : M world A) (x : Ctx.t B) : M t A := λ m,
  let '(r, w) := f (mk_world m x) in (r, mgr w).

Definition exec (e : call) : M t unit :=
  match e with
  | Claim rid i => claim rid i
  | Allocate x a b => in_world (allocate_new_blocks a b) x
  | Reuse x => in_world (let! _ := reuse_blocks_from_prefix_cache in ret tt) x
  | Step x => in_world step x
  | Offload i => offload i
  | Poll => poll_transfers
  | Release rid => release rid
  | Purge => reset_prefix_cache
  | Tick c => modify (set_connector c)
  end.

(** A run goes on after a call that raised: the scheduler catches it. *)
Definition replay (es : list call) m : t := foldl (λ m e, (exec e m).2) m es.

(** A request's tokens are a well-formed buffer of 64-bit integers. *)
Definition good_tokens (x : Ctx.t B) : Prop :=
  TokenBuffer.wf (Ctx.tokens x) ∧ forallb int64 (TokenBuffer.all (Ctx.tokens x)) = true.

(** A context [reuse] can work with: it has a token to process past every hashable block. *)
Definition reusable m (x : Ctx.t B) : Prop :=
  good_tokens x ∧
  len (hshs m (TextContext.request_id (Ctx.base x))) * block_size m ≤ hashable x ∧
  hashable x + TokenBuffer._processing_offset (Ctx.tokens x)
    < Range.end_ (TokenBuffer._processing_range (Ctx.tokens x)).

(** What the caller guarantees: replicas exist; a context given to [reuse] has a
    token to process past every hashable block, one given to [step] has processed
    no more than its blocks hold and no less than it committed. And the run ends where
    [reuse]'s own assertion fails: a connector completed, at once, the load of a block
    the device cache held already. *)
Definition admitted (e : call) m : Prop :=
  match e with
  | Claim _ i | Offload i => 0 ≤ i < num_replicas m
  | Reuse x => reusable m x ∧ (exec (Reuse x) m).1 ≠ Raise AssertionError
  | Step x =>
      good_tokens x ∧ token_left x ∧
      cidx m (TextContext.request_id (Ctx.base x)) / block_size m ≤ computed_blocks m (Ctx.base x)
        ≤ len (blks m (TextContext.request_id (Ctx.base x)))
  | _ => True
  end.

Fixpoint admissible (es : list call) m : Prop :=
  match es with
  | [] => True
  | e :: es => admitted e m ∧ admissible es (exec e m).2
  end.

(** The states of a run, on managers that do not copy between replicas. *)
Record Good m : Prop := {
  good_inv : Inv m;
  good_checks : enable_runtime_checks m = false;
  good_local : local_only m
}.

(** A call that keeps the manager good and its configuration. *)
Definition Goes m m' : Prop := Good m' ∧ config m' = config m.

Lemma good_config m m' : Good m → Inv m' → config m' = config m → Goes m m'.
Proof.
  intros [_ Hch Hl] HI Hc. split; [split; [done| |]|done].
  - by rewrite (near_checks_config _ _ Hc).
  - unfold config in Hc. injection Hc as _ _ En _ _ _ _ Ex _ _. unfold local_only. by rewrite En, Ex.
Qed.

Lemma goes_refl m : Good m → Goes m m.
Proof. by split. Qed.

Lemma good_quiet m m' : Good m → Quiet m m' → Goes m m'.
Proof. intros HG Q. eapply good_config; [done|by eapply inv_quiet, Q; apply HG|apply Q]. Qed.

Lemma good_int64 (x : Ctx.t B) :
  good_tokens x → ∀ y, y ∈ TokenBuffer.all (Ctx.tokens x) → int64 y = true.
Proof. intros [_ Hf] y Hy. rewrite forallb_forall in Hf. apply Hf. by apply list_elem_of_In. Qed.

(** The pool a claimed request's blocks come from. *)
Lemma pool_of m rid i :
  Inv m → req_to_replica m !! rid = Some i →
  ∃ p fl, device_block_pools m !! Z.to_nat i = Some p ∧ BlockPool.Inv p fl (owned m i).
Proof.
  intros HI Hr. destruct (inv_pool _ HI i (inv_replica _ HI _ _ Hr)) as (p & fl & Hp & _ & Hpi). eauto.
Qed.

Lemma unclaimed_run rid m : req_to_replica m !! rid = None → _replica_of rid m = (Raise ValueError, m).
Proof. intros Hr. unfold _replica_of, bind, get. by rewrite Hr. Qed.

(** A method that starts by looking the replica up leaves an unclaimed request alone. *)
Lemma unclaimed_world {A} (f : world → Z → M world A) x m :
  req_to_replica m !! TextContext.request_id (Ctx.base x) = None →
  (let! w := get in let! i := on_mgr (_replica_of (request_id w)) in f w i) (mk_world m x)
    = (Raise ValueError, mk_world m x).
Proof.
  intros Hr. unfold bind, get, request_id, on_mgr, zoom. simpl. by rewrite unclaimed_run.
Qed.

Lemma good_claim m rid i : Good m → 0 ≤ i < num_replicas m → Goes m (exec (Claim rid i) m).2.
Proof.
  intros HG Hi. destruct (claim_run m rid i (good_inv _ HG) Hi) as [Hs Hn]. simpl.
  destruct (req_to_replica m !! rid) as [j|] eqn:Er.
  - by rewrite Hs.
  - destruct Hn as (m' & -> & -> & HI); [done|]. by eapply good_config.
Qed.

Lemma good_allocate m x a b : Good m → Goes m (exec (Allocate x a b) m).2.
Proof.
  intros HG. simpl. unfold in_world.
  destruct (req_to_replica m !! TextContext.request_id (Ctx.base x)) as [i|] eqn:Er.
  - destruct (pool_of _ _ _ (good_inv _ HG) Er) as (p & fl & Hp & Hpi).
    destruct (allocate_run m x a b i p fl (good_inv _ HG) Er Hp Hpi) as (m' & r & E & Hc).
    rewrite E. simpl. destruct (_ >? _); [by eapply good_quiet; [|apply Hc]|].
    destruct (_ <? _); [by eapply good_quiet; [|apply Hc]|].
    destruct (_ >? _); [by eapply good_quiet; [|apply Hc]|].
    destruct Hc as (_ & HI & HGr & _). eapply good_config; [done..|apply HGr].
  - assert (allocate_new_blocks a b (mk_world m x) = (Raise ValueError, mk_world m x)) as ->
      by by apply (unclaimed_world (λ w i, _)).
    done.
Qed.

Lemma good_reuse `{!KVConnectorLaws} m x :
  Good m → admitted (Reuse x) m → Goes m (exec (Reuse x) m).2.
Proof.
  intros HG [(Htok & Hhs & Hroom) Hno]. unfold exec, in_world in *.
  assert (∀ r w, reuse_blocks_from_prefix_cache (mk_world m x) = (r, w) → Goes m (mgr w) →
    Goes m (let '(r, w0) := (let! _ := reuse_blocks_from_prefix_cache in ret tt) (mk_world m x) in
          (r, mgr w0)).2) as Hgo.
  { intros r w E HGw. unfold bind at 1. rewrite E. by destruct r. }
  pose proof (good_inv _ HG) as HI.
  destruct (req_to_replica m !! TextContext.request_id (Ctx.base x)) as [i|] eqn:Er.
  2:{ eapply Hgo; [by apply (unclaimed_world (λ w i, _))|done]. }
  destruct (decide (enable_prefix_caching m = false ∨ TokenBuffer.active_length (Ctx.tokens x) = 1)) as [Hd|Hd].
  { eapply Hgo; [by eapply reuse_idle_run; [|apply HG|]|done]. }
  destruct (pool_of _ _ _ HI Er) as (p & fl & Hp & Hpi).
  destruct (reuse_run m x i p HI Er Hp) as (r & m' & x' & E & Hr); try done; try apply HG; try tauto.
  { destruct (enable_prefix_caching m); tauto. }
  { apply Htok. }
  { by apply good_int64. }
  eapply Hgo; [exact E|]. destruct r as [[skip e]|e].
  - destruct Hr as (G & HR & _). by eapply good_config; [|apply HR..].
  - destruct Hr as [_ [Q|HC]]; [by eapply good_quiet|]. exfalso. apply Hno.
    unfold bind at 1. rewrite E. simpl. by rewrite (cl_exn _ _ _ _ _ HC).
Qed.

Lemma step_unclaimed m x :
  Good m → good_tokens x → req_to_replica m !! TextContext.request_id (Ctx.base x) = None →
  ∃ r m', step (mk_world m x) = (r, mk_world m' x) ∧ Goes m m'.
Proof.
  intros HG Htok Er. destruct (enable_prefix_caching m) eqn:Eca.
  2:{ exists (Ok tt), m. split; [by apply step_off; [|apply HG]|done]. }
  unfold step. unfold bind at 1, get, request_id. simpl. set (rid := TextContext.request_id _) in *.
  mstep (on_mgr_run _ (mk_world m x) _ _ (checks_off rid m (good_checks _ HG))). rewrite Eca. simpl.
  destruct (hashes_run m x (good_inv _ HG) (proj1 Htok) (good_int64 x Htok)) as (r & m' & E & HI' & Hh).
  unfold bind at 1. rewrite E. destruct r as [[]|e].
  - assert (req_to_replica m' !! rid = None) as Er' by (destruct Hh as (_ & _ & _ & _ & -> & _); done).
    assert (text (mk_world m' x) = (Ok (Ctx.base x), mk_world m' x)) as Et by done. mstep Et.
    unfold bind at 1. erewrite (on_mgr_run _ (mk_world m' x) (Raise ValueError) m').
    2:{ unfold commit_to_prefix_cache. unfold bind at 1, get. fold rid. unfold bind at 1. by rewrite unclaimed_run. }
    exists (Raise ValueError), m'. split; [done|]. eapply good_config; [done..|]. tauto.
  - exists (Raise e), m'. split; [done|]. by eapply good_quiet.
Qed.

Lemma good_step m x : Good m → admitted (Step x) m → Goes m (exec (Step x) m).2.
Proof.
  intros HG (Htok & Hleft & Hk). simpl. unfold in_world.
  destruct (req_to_replica m !! TextContext.request_id (Ctx.base x)) as [i|] eqn:Er.
  2:{ destruct (step_unclaimed m x HG Htok Er) as (r & m' & -> & HG'). done. }
  destruct (enable_prefix_caching m) eqn:Eca.
  2:{ by rewrite step_off by (done || apply HG). }
  destruct (pool_of _ _ _ (good_inv _ HG) Er) as (p & fl & Hp & Hpi).
  destruct (step_run m x i p fl) as (r & m' & E & Hr); try done; try apply HG; try apply Hk.
  { apply Htok. } { by apply good_int64. }
  rewrite E. simpl. destruct r as [[]|e].
  - destruct Hr as (p' & HS). by eapply good_config; [|apply HS..].
  - by eapply good_quiet.
Qed.

Lemma good_release m rid : Good m → Goes m (exec (Release rid) m).2.
Proof.
  intros HG. simpl. destruct (req_to_replica m !! rid) as [i|] eqn:Er.
  - destruct (pool_of _ _ _ (good_inv _ HG) Er) as (p & fl & Hp & Hpi).
    destruct (release_run m rid i p fl (good_inv _ HG) Er Hp Hpi) as (m' & p' & -> & HI & HR & _).
    by eapply good_config; [| |apply HR].
  - unfold release. unfold bind at 1. by rewrite unclaimed_run.
Qed.

Lemma good_exec `{!KVConnectorLaws} e m : Good m → admitted e m → Goes m (exec e m).2.
Proof.
  intros HG Ha. pose proof (good_inv _ HG) as HI. destruct e as [rid i|x a b|x|x|i| |rid| |c].
  - by apply good_claim.
  - by apply good_allocate.
  - by apply good_reuse.
  - by apply good_step.
  - destruct (offload_run i m HI Ha) as (m' & E & HI' & HS & _). simpl. rewrite E.
    by eapply good_config; [| |apply HS].
  - destruct (poll_run m HI) as (m' & E & HI' & HU & _). simpl. rewrite E.
    by eapply good_config; [| |apply HU].
  - by apply good_release.
  - destruct (purge_run m HI) as (m' & E & HI' & HS). simpl. rewrite E.
    by eapply good_config; [| |apply HS].
  - simpl. eapply good_config; [done|by apply inv_connector|done].
Qed.

Lemma goes_replay `{!KVConnectorLaws} es m :
  Good m → admissible es m → Goes m (replay es m).
Proof.
  revert m. induction es as [|e es IH]; intros m HG; [by split|]. intros [Ha Has]. simpl.
  destruct (good_exec e m HG Ha) as [HG' Hc]. destruct (IH _ HG' Has) as [HG2 Hc2].
  split; [done|congruence].
Qed.

(** A new manager without cross-replica copies is good. *)
Lemma good_init n bs c caching k algo seed mem copy dev last m :
  0 ≤ n → 0 < bs → copy = false ∨ k = 1 →
  init n bs c caching false k algo seed mem copy dev last = Ok m →
  Good m ∧ total_num_blocks m = n ∧ num_replicas m = k ∧ block_size m = bs.
Proof.
  intros Hn Hbs Hl E. pose proof (mgr_init_run _ _ _ _ _ _ _ _ _ _ _ _ _ Hn Hbs E) as HI.
  unfold init in E. destruct (k <? 1); [done|]. injection E as E.
  assert (Good m) as HG; [|by subst m].
  split; [done|by subst m|]. subst m. unfold local_only. simpl.
  destruct Hl as [->| ->]; [left; by destruct mem|by right].
Qed.

(** The invariant's reading of a replica's pool. *)
Lemma books_of m i p :
  Inv m → 0 ≤ i < num_replicas m → device_block_pools m !! Z.to_nat i = Some p →
  (∀ r, 0 ≤ r < total_num_blocks m → ∃ b, BlockPool.pool p !! r = Some b ∧
     KVCacheBlock.ref_cnt b = Z.of_nat (multiplicity r (owned m i))) ∧
  (∀ r, r ∈ BlockPool.free_blocks p ↔ 0 ≤ r < total_num_blocks m ∧ r ∉ owned m i) ∧
  BlockPool.num_free_blocks p + Z.of_nat (size (dom (owned m i))) = total_num_blocks m.
Proof.
  intros HI Hi Hp. destruct (inv_pool _ HI i Hi) as (q & fl & Hq & Ht & Hpi).
  assert (q = p) as -> by congruence. apply PoolProperties.sinv_books; [|apply HI].
  split_and!; [done|apply (inv_real _ HI)|by exists fl].
Qed.

End Trace.
End Trace.

(** ** The theorems *)
Module ManagerProperties.
Import BlockManager Ownership Trace.

Section Statements.
Context `{Digest} {B : Backend} `{KVConnector} `{Driver}.
Implicit Types m : t.

(** C1: the manager never leaks or double-books a KV block. Start it with runtime checks
    off (any capacity, block size, hash algorithm, external tier, synchronous or not; one
    replica, or several without cross-replica copies) and make any admissible sequence of
    claim, allocate, reuse, step, offload, poll, release (twice or unclaimed, too), purge;
    calls that raise are caught. Admissible: replicas named exist; reuse and step get a
    well-formed buffer of 64-bit tokens; reuse one with a token left past its hashable
    blocks, none hashed beyond these; step one with a token or placeholder left that has
    processed no less than was committed and no more than its blocks hold; and reuse's
    own assertion does not fail (a synchronous connector loaded a block the device cache
    had). Then on every replica a block's reference count is the number of entries for it
    in the live requests' block lists and in-flight transfers, a block is free exactly
    when there is none, and free and held blocks add up to the capacity. *)
Theorem manager_books_balance `{!KVConnectorLaws}
    n bs c caching k algo seed mem copy dev last m0 es i p :
  0 ≤ n → 0 < bs → copy = false ∨ k = 1 →
  init n bs c caching false k algo seed mem copy dev last = Ok m0 → admissible es m0 →
  0 ≤ i < k → device_block_pools (replay es m0) !! Z.to_nat i = Some p →
  (∀ r, 0 ≤ r < n → ∃ b, BlockPool.pool p !! r = Some b ∧
     KVCacheBlock.ref_cnt b = Z.of_nat (multiplicity r (owned (replay es m0) i))) ∧
  (∀ r, r ∈ BlockPool.free_blocks p ↔ 0 ≤ r < n ∧ r ∉ owned (replay es m0) i) ∧
  BlockPool.num_free_blocks p + Z.of_nat (size (dom (owned (replay es m0) i))) = n.
Proof.
  intros Hn Hbs Hl E Has Hi Hp.
  destruct (good_init _ _ _ _ _ _ _ _ _ _ _ _ Hn Hbs Hl E) as (HG & <- & Ek & _).
  destruct (goes_replay es m0 HG Has) as [HG' Hc].
  unfold config in Hc. injection Hc as Ht _ En _. rewrite <- Ht.
  apply books_of; [apply HG'|by rewrite En, Ek|done].
Qed.

(** C27: nobody else can see a block a request still writes to. In every state an
    admissible run reaches (the conditions of the claim above; the external tier may be
    synchronous or not), a block past the committed prefix of a request occurs once in
    its own list and nowhere else: in no other request on the replica, in no in-flight
    transfer, and the prefix cache does not offer it under any hash. *)
Theorem uncommitted_blocks_are_private `{!KVConnectorLaws} es m rid i p r :
  Good m → admissible es m →
  let m' := replay es m in
  req_to_replica m' !! rid = Some i → device_block_pools m' !! Z.to_nat i = Some p → r ∈ tail m' rid →
  (∀ rid', rid' ≠ rid → req_to_replica m' !! rid' = Some i → r ∉ blks m' rid') ∧
  (∀ tr, tr ∈ transfers_at m' i → r ∉ blocks tr) ∧
  (∀ h, BlockPool.prefix_cache p !! h ≠ Some r) ∧
  r ∉ BlockPool.free_blocks p.
Proof.
  intros HG Has m' Hr Hp Ht. pose proof (good_inv _ (proj1 (goes_replay es m HG Has))) as HI. fold m' in HI.
  destruct (ok_private _ _ (inv_request m' rid HI) i p r Hr Hp Ht) as [Hmult Hz].
  destruct (pool_of m' rid i HI Hr) as (q & fl & Hq & Hpi). assert (q = p) as -> by congruence.
  pose proof (tail_sub _ _ _ Ht) as Hmine. rewrite (owned_split m' rid i Hr) in Hmult.
  rewrite multiplicity_disj_union in Hmult.
  pose proof (proj1 (elem_of_multiplicity _ _) (proj2 (elem_of_lsd r (blks m' rid)) Hmine)) as Hm.
  assert (r ∉ rest m' rid i) as Hrest by (apply not_elem_of_multiplicity; lia).
  split_and!.
  - intros rid' Hne Hr' Hx. apply Hrest.
    apply gmultiset_elem_of_subseteq with (lsd (blks m' rid')); [by apply elem_of_lsd|].
    by apply owned_disjoint.
  - intros tr Htr Hx. apply Hrest. unfold rest. apply gmultiset_elem_of_disj_union. right.
    apply elem_of_pinned. by exists tr.
  - intros h Hh. apply (BlockPool.inv_cache _ _ _ Hpi) in Hh.
    unfold BlockPool.cached_hash in Hz. destruct (BlockPool.view p !! r); by simplify_eq/=.
  - rewrite (BlockPool.inv_free_blocks _ _ _ _ Hpi). apply (PoolStep.not_in_free p fl (owned m' i)); [done|].
    rewrite (owned_split m' rid i Hr). apply gmultiset_elem_of_disj_union. left. by apply elem_of_lsd.
Qed.

(** C16: [allocate_new_blocks] gives the request all the blocks it needs or none. On
    success its list grew at the end by the least number of blocks that hold every
    slot of the next forward pass (the processed and active tokens, the accepted and
    proposed drafts), taken from the front of the free queue, and nobody else's list
    changed. It raises [InsufficientBlocksError] when the request cannot fit in the
    whole cache or the free queue is too short, the assertion that the processed tokens
    lie in the request's blocks when they do not, and in no other case; then no block
    changes hands. The tokens are never touched. *)
Theorem allocate_new_blocks_spec m x a b i p fl :
  let c := Ctx.base x in
  let rid := TextContext.request_id c in
  Inv m → req_to_replica m !! rid = Some i → device_block_pools m !! Z.to_nat i = Some p →
  BlockPool.Inv p fl (owned m i) →
  ∃ r m' x', allocate_new_blocks a b (mk_world m x) = (r, mk_world m' x') ∧
    Ctx.tokens x' = Ctx.tokens x ∧ Inv m' ∧
    (∀ rid', rid' ≠ rid → blks m' rid' = blks m rid') ∧
    match r with
    | Ok _ => tokens_wanted c ≤ total_num_blocks m * block_size m ∧
        TokenBuffer.processed_length (TextContext.tokens c) ≤ len (blks m rid) * block_size m ∧
        ∃ news, blks m' rid = blks m rid ++ news ∧ news `prefix_of` fl ∧
        slots_needed c a b ≤ len (blks m' rid) * block_size m ∧
        (news ≠ [] → (len (blks m' rid) - 1) * block_size m < slots_needed c a b)
    | Raise e => blks m' rid = blks m rid ∧ device_block_pools m' = device_block_pools m ∧
        (e = InsufficientBlocksError ∧
           (total_num_blocks m * block_size m < tokens_wanted c ∨
            (len (blks m rid) + len fl) * block_size m < slots_needed c a b)
         ∨ e = AssertionError ∧
           len (blks m rid) * block_size m < TokenBuffer.processed_length (TextContext.tokens c))
    end.
Proof.
  intros c rid HI Hr Hp Hpi. pose proof (inv_block_size _ HI) as Hbs.
  pose proof (ceildiv_spec (slots_needed c a b) _ Hbs) as Hcd.
  destruct (allocate_run m x a b i p fl HI Hr Hp Hpi) as (m' & r & E & Hc). fold c rid in E, Hc.
  exists r, m', (Ctx.set_base (with_spec c) x). split; [done|].
  split; [unfold Ctx.tokens; rewrite base_set_base; unfold with_spec, c; by destruct (Ctx.base x)|].
  assert (Quiet m m' → Inv m' ∧ (∀ rid', blks m' rid' = blks m rid') ∧
    device_block_pools m' = device_block_pools m) as Hq.
  { intros Q. split_and!; [by eapply inv_quiet|apply Q..]. }
  destruct (tokens_wanted c >? _) eqn:E1; [|destruct (_ <? _) eqn:E2; [|destruct (blocks_missing m c a b >? len fl) eqn:E3]].
  - destruct Hc as [-> (? & Hb & ?)%Hq]. do 2 (split; [by auto|]). split; [apply Hb|split; [done|]].
    left. split; [done|lia].
  - destruct Hc as [-> (? & Hb & ?)%Hq]. do 2 (split; [by auto|]). split; [apply Hb|split; [done|]].
    right. split; [done|]. fold c in E2. lia.
  - destruct Hc as [-> (? & Hb & ?)%Hq]. do 2 (split; [by auto|]). split; [apply Hb|split; [done|]].
    left. split; [done|]. right.
    unfold blocks_missing in E3. pose proof (len_nonneg fl). fold rid in E3. nia.
  - destruct Hc as (-> & HI' & HG & _). split; [done|]. pose proof (grown_blks _ _ _ _ _ HG) as Hb.
    split; [intros rid' Hne; by rewrite Hb, decide_False|].
    fold c rid in E2. split; [lia|]. split; [lia|].
    exists (take (Z.to_nat (blocks_missing m c a b)) fl). rewrite Hb, decide_True by done.
    split; [done|]. split; [eexists; symmetry; apply take_drop|]. apply missing_fits; [done|lia].
Qed.

(** [release] gives a request's blocks back, tail first, once. Every block of the
    request nobody else holds joins the end of the free queue, the last block of the
    sequence first, so the blocks nearest the root of the prefix tree are evicted
    last; shared blocks stay held, the prefix cache keeps its entries, the request's
    dictionary entries are gone, and a second [release] raises [ValueError]. *)
Theorem release_frees_tail_first m rid i p fl :
  Inv m → req_to_replica m !! rid = Some i → device_block_pools m !! Z.to_nat i = Some p →
  BlockPool.Inv p fl (owned m i) → enable_prefix_caching m = true → NoDup (blks m rid) →
  ∃ m' p', release rid m = (Ok tt, m') ∧ Inv m' ∧
    device_block_pools m' !! Z.to_nat i = Some p' ∧
    BlockPool.Inv p' (fl ++ filter (λ r, r ∉ rest m rid i) (rev (blks m rid))) (rest m rid i) ∧
    BlockPool.prefix_cache p' = BlockPool.prefix_cache p ∧
    req_to_replica m' = delete rid (req_to_replica m) ∧
    (∀ rid', blks m' rid' = if decide (rid' = rid) then [] else blks m rid') ∧
    release rid m' = (Raise ValueError, m').
Proof.
  intros HI Hr Hp Hpi Hca Hnd.
  destruct (release_run m rid i p fl HI Hr Hp Hpi) as (m' & p' & E & HI' & HR & Hp' & Hpi' & Ho & Hpc).
  unfold release_order in Hpi'. rewrite Hca, freed_nodup, Ho in Hpi'.
  2:{ by rewrite <- Permutation_rev. }
  exists m', p'. split_and!; try done; try apply HR.
  unfold release. unfold bind at 1. rewrite unclaimed_run; [done|].
  rewrite (released_replica _ _ _ _ HR). apply lookup_delete_eq.
Qed.

(** [step] commits exactly the computed blocks. When it succeeds, the request has
    a hash for every block it could ever have hashed, every block computed since the
    last step is in the prefix cache's eyes under the request's own hash for that
    position, the committed index is the computed prefix, the blocks past it and all
    other requests are untouched; when hashing raises, nothing changed hands. No
    assertion or index error of [commit_to_prefix_cache] can occur. *)
Theorem step_commits_computed_blocks m x i p fl :
  let c := Ctx.base x in
  let rid := TextContext.request_id c in
  let n := computed_blocks m c in
  Inv m → req_to_replica m !! rid = Some i → device_block_pools m !! Z.to_nat i = Some p →
  BlockPool.Inv p fl (owned m i) → enable_prefix_caching m = true → enable_runtime_checks m = false →
  good_tokens x → token_left x → cidx m rid / block_size m ≤ n ≤ len (blks m rid) →
  ∃ r m', step (mk_world m x) = (r, mk_world m' x) ∧ Inv m' ∧
    (∀ rid', rid' ≠ rid → blks m' rid' = blks m rid' ∧ cidx m' rid' = cidx m rid') ∧
    match r with
    | Raise _ => blks m' rid = blks m rid ∧ cidx m' rid = cidx m rid ∧
        device_block_pools m' = device_block_pools m
    | Ok _ => ∃ p', device_block_pools m' = <[Z.to_nat i := p']> (device_block_pools m) ∧
        hshs m rid `prefix_of` hshs m' rid ∧ n ≤ len (hshs m' rid) ∧
        len (blks m' rid) = len (blks m rid) ∧
        drop (Z.to_nat n) (blks m' rid) = drop (Z.to_nat n) (blks m rid) ∧
        cidx m' rid = n * block_size m ∧
        (∀ j r, cidx m rid / block_size m ≤ j < n → blks m' rid !! Z.to_nat j = Some r →
           ∃ h, hshs m' rid !! Z.to_nat j = Some h ∧ BlockPool.cached_hash p' r = Some h)
    end.
Proof.
  intros c rid n HI Hr Hp Hpi Hca Hch Htok Hleft Hk.
  destruct (step_run m x i p fl) as (r & m' & E & Hc); try done; try apply Htok; try apply Hk.
  { by apply good_int64. }
  exists r, m'. split; [done|]. destruct r as [[]|e].
  - destruct Hc as (p' & [D1 D2 D3 D4 D5 D6 D7 D8 D9 D10 D11]). split; [done|]. fold c n in D5, D6, D9, D10.
    split; [intros rid' Hne; split; by apply D11|]. exists p'. split_and!; try done.
    intros j r Hj Hb. assert (is_Some (hshs m' rid !! Z.to_nat j)) as [h Hh].
    { destruct (inv_committed _ HI rid) as (q & Eq & Hq). pose proof (inv_block_size _ HI).
      rewrite Eq, Z.div_mul in Hj by lia. apply lookup_lt_is_Some. fold rid in D5. unfold len in D5. lia. }
    exists h. split; [done|]. by apply (D9 j r h).
  - split; [by eapply inv_quiet|]. split_and!; try apply Hc. intros rid' _. split; apply Hc.
Qed.

(** C24: reusing a cached prefix, whatever the connector: one that loads on its own
    engine, one that completes its loads as it posts them, or none. For a request that
    still has tokens to process the call does one of three things. It adopts a list [G]
    of blocks that starts with the longest run of the request's next block hashes the
    device cache holds (all of [G] when there is no external tier): the request keeps
    its committed prefix, [G] replaces the rest, the committed index and the start of
    its token window move to the end of [G] - never to the end of the prompt: at least
    one token is left to run the model on - and the returned skip count is [G]'s
    tokens. Or it raises while hashing, changing nothing. Or its own assertion fails,
    and then only because a connector completed a load at once while, past the run of
    device hits, some hash is in the device cache already (or comes twice), and the
    testing switch that tolerates it is off; the requests' blocks and tokens are as
    they were. *)
Theorem reuse_adopts_longest_cached_prefix `{!KVConnectorLaws} m x i p :
  let rid := TextContext.request_id (Ctx.base x) in
  let k := cidx m rid / block_size m in
  Good m → req_to_replica m !! rid = Some i → device_block_pools m !! Z.to_nat i = Some p →
  enable_prefix_caching m = true → reusable m x → TokenBuffer.active_length (Ctx.tokens x) ≠ 1 →
  ∃ r m' x', reuse_blocks_from_prefix_cache (mk_world m x) = (r, mk_world m' x') ∧
    (∀ rid', rid' ≠ rid → blks m' rid' = blks m rid' ∧ cidx m' rid' = cidx m rid') ∧
    let todo := drop (Z.to_nat k) (hshs m' rid) in
    match r with
    | Raise e => blks m' rid = blks m rid ∧ cidx m' rid = cidx m rid ∧ x' = x ∧
        (Inv m' ∧ device_block_pools m' = device_block_pools m ∨
         e = AssertionError ∧ loads_at_once ∧ _only_use_kv_connector_last_level_cache m = false ∧
         name (connector m) ≠ "NullConnector"%string ∧ resident p (drop (length (resolve p todo)) todo))
    | Ok (skip, _) => Inv m' ∧ ∃ G, skip = len G * block_size m ∧
        (let hits := if _only_use_kv_connector_last_level_cache m then [] else (resolve p todo).*2 in
         hits `prefix_of` G ∧ (name (connector m) = "NullConnector"%string → G = hits)) ∧
        cidx m' rid = cidx m rid + len G * block_size m ∧
        (if decide (G = []) then blks m' rid = blks m rid ∧ Ctx.tokens x' = Ctx.tokens x
         else blks m' rid = take (Z.to_nat k) (blks m rid) ++ G ∧
              Ctx.tokens x' = start_at ((k + len G) * block_size m) (Ctx.tokens x) ∧
              1 ≤ TokenBuffer.active_length (Ctx.tokens x'))
    end.
Proof.
  intros rid k HG Hr Hp Hca (Htok & Hhs & Hroom) Hact. pose proof (good_inv _ HG) as HI.
  destruct (reuse_run m x i p HI Hr Hp Hca) as (r & m' & x' & E & Hc); try done; try apply HG; try apply Htok.
  { by apply good_int64. }
  exists r, m', x'. split; [done|]. destruct r as [[skip e]|e].
  - destruct Hc as (G & HR & _ & _ & Hh & Hs & Hx).
    split; [intros rid' Hne; split; by apply (ru_others _ _ _ _ HR)|]. split; [apply HR|].
    pose proof (ru_blks _ _ _ _ HR) as Hb. pose proof (ru_cidx _ _ _ _ HR) as Hi. fold rid k in Hb, Hi.
    exists G. split; [done|]. split; [done|]. split; [done|]. destruct (decide (G = [])).
    + destruct Hx as (_ & ? & _). by split.
    + split; [done|]. destruct Hx. by split.
  - destruct Hc as [-> [Q|HC]].
    + split; [intros rid' _; split; apply Q|]. split_and!; try apply Q; [done|]. left. split; [by eapply inv_quiet|apply Q].
    + split; [intros rid' _; split; apply HC|]. split_and!; try apply HC; [done|]. right. split_and!; apply HC.
Qed.

(** Polling frees no block a transfer still uses. [poll_transfers] never raises;
    it drops exactly the transfers whose event has completed, keeping the order of the
    others, and changes no request. Every block of a transfer it keeps is still out
    of the free queue, with a reference for every transfer and request that lists it. *)
Theorem poll_keeps_inflight_blocks_pinned m :
  Inv m →
  ∃ m', poll_transfers m = (Ok tt, m') ∧ Inv m' ∧
    _pending_transfers m' =
      (λ l, filter (λ tr, is_complete (event tr) (connector m) = false) l) <$> _pending_transfers m ∧
    (∀ rid, blks m' rid = blks m rid ∧ cidx m' rid = cidx m rid) ∧
    (∀ i p tr r, 0 ≤ i < num_replicas m → device_block_pools m' !! Z.to_nat i = Some p →
       tr ∈ transfers_at m' i → r ∈ blocks tr →
       r ∉ BlockPool.free_blocks p ∧
       ∃ b, BlockPool.pool p !! r = Some b ∧ 1 ≤ KVCacheBlock.ref_cnt b).
Proof.
  intros HI. destruct (poll_run m HI) as (m' & E & HI' & HU & Ht). exists m'.
  split_and!; [done..| |].
  - intros rid. split; [by apply un_blks|by apply un_cidx].
  - intros i p tr r Hi Hp Htr Hx. assert (r ∈ owned m' i) as Ho.
    { unfold owned. apply gmultiset_elem_of_disj_union. right. apply elem_of_pinned. by exists tr. }
    rewrite <- (near_n_config _ _ (un_config _ _ HU)) in Hi.
    destruct (books_of m' i p HI' Hi Hp) as (Hrefs & Hfree & _). split.
    + intros [_ Hno]%Hfree. by apply Hno.
    + destruct (Hrefs r) as (b & Hb & Hrc); [by apply (inv_real _ HI' i)|]. exists b. split; [done|].
      pose proof (proj1 (elem_of_multiplicity _ _) Ho). lia.
Qed.

(** An onload becomes visible when it lands. Settling a completed onload of
    distinct, uncommitted blocks commits each of them (or a block that already has the
    content): afterwards every hash of the onload is in the replica's prefix cache,
    the transfer's references are gone, and nobody else's references moved. *)
Theorem landed_onload_is_published i m p fl tr others hs :
  0 ≤ i → device_block_pools m !! Z.to_nat i = Some p →
  BlockPool.Inv p fl (lsd (blocks tr) ⊎ others) → (∀ r, r ∈ blocks tr → BlockPool.real p r) →
  commit_hashes tr = Some hs → length hs = length (blocks tr) → NoDup (blocks tr) →
  (∀ r, r ∈ blocks tr → BlockPool.cached_hash p r = None) →
  ∃ p' fl', settle i tr m = (Ok tt, set_pools (<[Z.to_nat i := p']> (device_block_pools m)) m) ∧
    BlockPool.Inv p' fl' others ∧ (∀ h, h ∈ hs → is_Some (BlockPool.prefix_cache p' !! h)) ∧
    (∀ r h, r ∈ others → BlockPool.cached_hash p r = Some h → BlockPool.cached_hash p' r = Some h).
Proof.
  intros Hi Hp HI Hreal Hc Hlen Hnd Hun.
  destruct (settle_run i m p fl tr others Hi Hp HI Hreal) as (p' & E & HS & Hpub).
  { intros hs' Hc'. congruence. }
  destruct (PoolStep.step_inv _ _ _ _ _ HS) as [fl' HI']. rewrite (left_id_L ∅ disj_union) in HI'.
  exists p', fl'. split_and!; [done|done|by apply Hpub|apply HS].
Qed.

End Statements.

(** *** A manager of six two-token blocks serving two requests with one prompt *)
#[local] Existing Instance HashProperties.toy_digest.
#[local] Existing Instance recording_backend.

Definition prompt (rid processed : Z) : Ctx.t recording_backend :=
  Ctx.Text (TextContext.mk recording_backend rid 16
    (TokenBuffer.mk [1; 2; 3; 4; 5] (Range.mk processed 5) 0 (Range.mk 5 5) 5 5 false)
    (EOSTracker.init {[ 7 ]} [] []) (Some 100) 0 None None
    GrammarEnforcement.default_state None ACTIVE ∅ true false None None 0).

Lemma prompt_good rid k : 0 ≤ k ≤ 5 → good_tokens (prompt rid k).
Proof. intros Hk. split; [split; simpl; lia || done|done]. Qed.

Definition empty_manager : t :=
  mk _ _ 6 2 1 BlockHash.ahash64 None true tt None [] false [[]] [[]] [BlockPool.init 6 false]
    ∅ ∅ ∅ ∅ Metrics.zero false false.

(** The first request runs its prompt and commits; the second reuses its blocks. *)
Definition serving : list call :=
  [Claim 0 0; Allocate (prompt 0 0) 0 0; Step (prompt 0 4); Claim 1 0; Reuse (prompt 1 0);
   Allocate (prompt 1 4) 0 0].
Definition closing : list call :=
  [Offload 0; Poll; Release 0; Release 0; Tick tt; Allocate (prompt 9 0) 0 0; Purge].

Lemma empty_good : Good empty_manager.
Proof. apply (good_init 6 2 (tt : @conn null_connector) true 1 BlockHash.ahash64 None None false ([] : @memory copy_log) false); [done..|by right|done]. Qed.

Lemma serving_admissible : admissible (serving ++ closing) empty_manager.
Proof.
  split; [vm_compute; done|]. split; [done|].
  split; [split; [by apply prompt_good|vm_compute; split_and!; try done; by left]|].
  split; [vm_compute; done|].
  split; [split; [split; [by apply prompt_good|vm_compute; done]|vm_compute; done]|].
  split; [done|]. split; [vm_compute; done|]. do 6 (split; [done|]). done.
Qed.

Definition served : t := replay serving empty_manager.

Lemma admissible_app `{KVConnector} `{Driver} l1 l2 (m : t) :
  admissible (l1 ++ l2) m → admissible l1 m ∧ admissible l2 (replay l1 m).
Proof.
  revert m. induction l1 as [|e l1 IH]; intros m; [done|]. intros [He Hl]. simpl.
  destruct (IH _ Hl). by split_and!.
Qed.

Lemma served_good : Good served.
Proof.
  apply goes_replay; [exact empty_good|]. by apply (admissible_app serving closing), serving_admissible.
Qed.

(** The first replica's pool in a state of a run. *)
Definition pool0 `{KVConnector} `{Driver} (m : t) : BlockPool.t := default (BlockPool.init 0 false) (device_block_pools m !! 0%nat).

Lemma uncommitted_blocks_are_private_witness :
  (∀ rid', rid' ≠ 0 → req_to_replica served !! rid' = Some 0 → 2 ∉ blks served rid') ∧
  (∀ tr, tr ∈ transfers_at served 0 → 2 ∉ blocks tr) ∧
  (∀ h, BlockPool.prefix_cache (pool0 served) !! h ≠ Some 2) ∧
  2 ∉ BlockPool.free_blocks (pool0 served).
Proof.
  refine (uncommitted_blocks_are_private serving empty_manager 0 0 (pool0 served) 2 empty_good _ _ _ _).
  - by apply (admissible_app serving closing), serving_admissible.
  - vm_compute. reflexivity.
  - vm_compute. reflexivity.
  - vm_compute. left.
Defined.

Lemma served_pool rid :
  req_to_replica served !! rid = Some 0 →
  device_block_pools served !! 0%nat = Some (pool0 served) ∧
  ∃ fl, BlockPool.Inv (pool0 served) fl (owned served 0).
Proof.
  intros Hr. destruct (pool_of served rid 0 (good_inv _ served_good) Hr) as (p & fl & Hp & Hpi).
  unfold pool0. change (Z.to_nat 0) with 0%nat in Hp. rewrite Hp. eauto.
Qed.

Lemma allocate_new_blocks_spec_witness :
  ∃ r m' x', allocate_new_blocks 2 1 (mk_world served (prompt 1 4)) = (r, mk_world m' x') ∧ Inv m'.
Proof.
  destruct (served_pool 1) as (Hp & fl & Hpi); [vm_compute; reflexivity|].
  destruct (allocate_new_blocks_spec served (prompt 1 4) 2 1 0 (pool0 served) fl)
    as (r & m' & x' & E & _ & HI & _);
    [apply served_good|vm_compute; reflexivity|exact Hp|exact Hpi|].
  exists r, m', x'. split; [exact E|exact HI].
Defined.

Lemma release_frees_tail_first_witness :
  ∃ m', release 0 served = (Ok tt, m') ∧ blks m' 1 = blks served 1 ∧
    release 0 m' = (Raise ValueError, m').
Proof.
  destruct (served_pool 0) as (Hp & fl & Hpi); [vm_compute; reflexivity|].
  destruct (release_frees_tail_first served 0 0 (pool0 served) fl)
    as (m' & p' & E & _ & _ & _ & _ & _ & Hb & E2);
    [apply served_good|vm_compute; reflexivity|exact Hp|exact Hpi|vm_compute; reflexivity| |].
  { apply (bool_decide_unpack _). vm_compute. exact I. }
  exists m'. split; [exact E|]. split; [by rewrite Hb|exact E2].
Defined.

Lemma step_commits_computed_blocks_witness :
  let m := replay [Claim 0 0; Allocate (prompt 0 0) 0 0] empty_manager in
  ∃ r m', step (mk_world m (prompt 0 4)) = (r, mk_world m' (prompt 0 4)) ∧ Inv m'.
Proof.
  intros m. assert (Good m) as HG.
  { apply goes_replay; [exact empty_good|]. split; [vm_compute; done|]. by split. }
  destruct (pool_of m 0 0 (good_inv _ HG)) as (p & fl & Hp & Hpi); [vm_compute; reflexivity|].
  destruct (step_commits_computed_blocks m (prompt 0 4) 0 p fl) as (r & m' & E & HI & _);
    [apply HG|vm_compute; reflexivity|exact Hp|exact Hpi|vm_compute; reflexivity|vm_compute; reflexivity
    |apply prompt_good; split; discriminate|left; reflexivity|vm_compute; split; discriminate|].
  exists r, m'. split; [exact E|exact HI].
Defined.

Lemma poll_keeps_inflight_blocks_pinned_witness :
  ∃ m', poll_transfers served = (Ok tt, m') ∧ Inv m'.
Proof.
  destruct (poll_keeps_inflight_blocks_pinned served) as (m' & E & HI & _); [apply served_good|].
  exists m'. split; [exact E|exact HI].
Defined.

(** A landed onload of one block. *)
Definition onload : _PendingTransfer := pending_transfer _ (CompletedTransfer LOAD [0]) [0] (Some [[1]]).

Lemma landed_onload_is_published_witness :
  ∃ p p' fl', settle 0 onload (set_pools [p] empty_manager) = (Ok tt, set_pools [p'] empty_manager) ∧
    BlockPool.Inv p' fl' ∅ ∧ (∀ h, h ∈ [[1]] → is_Some (BlockPool.prefix_cache p' !! h)).
Proof.
  destruct (PoolStep.alloc_step (BlockPool.init 2 false) [1] ∅ ∅ 0) as (p & E & HS & HI & Hz & _).
  { rewrite (left_id_L ∅ disj_union). by apply (BlockPool.init_inv 2). }
  destruct (landed_onload_is_published 0 (set_pools [p] empty_manager) p [1] onload ∅ [[1]])
    as (p' & fl' & Es & HI' & Hh & _).
  - done.
  - done.
  - refine (eq_ind _ (BlockPool.Inv p [1]) HI _ _). simpl. multiset_solver.
  - intros r ->%list_elem_of_singleton. destruct (PoolStep.step_config _ _ _ _ _ HS) as [Ht _].
    unfold BlockPool.real. rewrite Ht. done.
  - done.
  - done.
  - apply NoDup_singleton.
  - by intros r ->%list_elem_of_singleton.
  - exists p, p', fl'. split; [exact Es|]. split; [exact HI'|exact Hh].
Defined.

(** *** The same manager over a tier whose loads complete as they are posted *)
Section Tier.
#[local] Existing Instance eager_connector.
#[local] Existing Instance eager_laws.

Definition tiered_manager : t :=
  mk _ _ 6 2 1 BlockHash.ahash64 None true 2 None [] false [[]] [[]] [BlockPool.init 6 false]
    ∅ ∅ ∅ ∅ Metrics.zero false false.
Lemma tiered_good : Good tiered_manager.
Proof. apply (good_init 6 2 (2 : @conn eager_connector) true 1 BlockHash.ahash64 None None false ([] : @memory copy_log) false); [done..|by right|done]. Qed.

(** The first request finds its prompt in the tier, the second one on the device; then
    the first is released, twice. *)
Definition tier_serving : list call := [Claim 0 0; Reuse (prompt 0 0); Allocate (prompt 0 4) 0 0;
  Step (prompt 0 4); Claim 1 0; Reuse (prompt 1 0); Allocate (prompt 1 4) 0 0; Offload 0; Poll;
  Release 0; Release 0; Tick 0].

Lemma tier_admissible : admissible tier_serving tiered_manager.
Proof.
  split; [vm_compute; done|].
  split; [split; [split; [by apply prompt_good|vm_compute; done]|vm_compute; done]|]. split; [done|].
  split; [split; [by apply prompt_good|vm_compute; split_and!; try done; by left]|].
  split; [vm_compute; done|].
  split; [split; [split; [by apply prompt_good|vm_compute; done]|vm_compute; done]|].
  split; [done|]. split; [vm_compute; done|]. do 4 (split; [done|]). done.
Qed.

Lemma manager_books_balance_witness :
  let m := replay tier_serving tiered_manager in
  (∀ r, 0 ≤ r < 6 → ∃ b, BlockPool.pool (pool0 m) !! r = Some b ∧
     KVCacheBlock.ref_cnt b = Z.of_nat (multiplicity r (owned m 0))) ∧
  (∀ r, r ∈ BlockPool.free_blocks (pool0 m) ↔ 0 ≤ r < 6 ∧ r ∉ owned m 0) ∧
  BlockPool.num_free_blocks (pool0 m) + Z.of_nat (size (dom (owned m 0))) = 6.
Proof.
  apply (manager_books_balance 6 2 (2 : @conn eager_connector) true 1 BlockHash.ahash64 None None false ([] : @memory copy_log) false tiered_manager
    tier_serving 0); [lia|lia|by right|reflexivity|exact tier_admissible|lia|].
  vm_compute. reflexivity.
Defined.

(** The first request's reuse: both hashable blocks come from the tier. *)
Definition tier_claimed : t := replay (take 1 tier_serving) tiered_manager.
Lemma reuse_adopts_longest_cached_prefix_witness :
  ∃ e m' x', reuse_blocks_from_prefix_cache (mk_world tier_claimed (prompt 0 0)) = (Ok (4, e), mk_world m' x') ∧
    Inv m' ∧ cidx m' 0 = 4 ∧ blks tier_claimed 0 = [] ∧ len (blks m' 0) = 2.
Proof.
  assert (Good tier_claimed) as HG.
  { apply goes_replay; [exact tiered_good|]. by apply (admissible_app (take 1 tier_serving) (drop 1 tier_serving)), tier_admissible. }
  destruct (pool_of tier_claimed 0 0 (good_inv _ HG)) as (p & fl & Hp & _); [vm_compute; reflexivity|].
  pose proof (reuse_adopts_longest_cached_prefix tier_claimed (prompt 0 0) 0 p HG) as Hthm.
  cbv zeta in Hthm. destruct Hthm as (r & m' & x' & E & _ & Hm).
  - vm_compute. reflexivity.
  - exact Hp.
  - vm_compute. reflexivity.
  - split; [apply prompt_good; split; discriminate|]. vm_compute. split; [discriminate|reflexivity].
  - vm_compute. discriminate.
  - pose proof (f_equal fst E) as Er. vm_compute in Er. subst r.
    destruct Hm as (HI & G & Es & _ & Hc & Hb). assert (len G = 2) as HlG by (change (block_size tier_claimed) with 2 in Es; lia).
    rewrite decide_False in Hb by (by intros ->). destruct Hb as (Hb & _).
    eexists _, m', x'. split; [exact E|]. split; [exact HI|]. split; [|split].
    + change (cidx m' 0 = 0 + len G * 2) in Hc. lia.
    + vm_compute. reflexivity.
    + change (blks m' 0 = G) in Hb. by rewrite Hb.
Defined.
End Tier.

End ManagerProperties.
