(* ===== verification/CacheManager.v ===== *)
(** * The paged KV cache manager (kv_cache/paged_kv_cache/cache_manager.py)

    [PagedKVCacheManager] is what the scheduler and the pipeline see of the KV cache:
    a front for the block manager that claims, allocates, commits and releases, and
    that turns a batch of requests into the lookup table and the cache lengths the
    attention kernels read. Device buffers and their copies are outside the model. *)

From S2P Require Import Prelude Tokens FreeQueue Pool Context Hashing Connector Manager.

(** ** What the manager reads of [KVCacheParamInterface] *)
Record KVCacheParams := kv_cache_params {
  data_parallel_degree : Z;
  n_devices : Z;
  page_size : Z;
  params_enable_prefix_caching : bool;
  params_kv_hash_algo : BlockHash.KVHashAlgo;
  params_kv_hash_seed : option bytes;
  num_draft_tokens : Z;
  num_draft_tokens_per_step : Z;
  params_enable_dp_cross_replica_prefix_copy : bool
}.

(** ** Sizes *)

(** Read a context and forget what looking its speculative state up created. *)
Definition read {B : Backend} {S A} (f : M (TextContext.t B) A) (c : TextContext.t B) : M S A :=
  of_outcome (f c).1.

Definition _does_req_need_more_blocks {B : Backend} {S} (c : TextContext.t B) (num_blocks_allocated : Z)
    (params : KVCacheParams) (max_num_input_tokens : option Z) : M S bool :=
  let! seq_len := read (_compute_seq_len (num_draft_tokens params) (num_draft_tokens_per_step params)
                          max_num_input_tokens) c in
  ret (seq_len >? num_blocks_allocated * page_size params).

Definition prompt_tokens_for_context {B : Backend} {S} (c : TextContext.t B) : M S Z :=
  let! s := read TextContext.spec_decoding_state c in
  ret (TokenBuffer.active_length (TextContext.tokens c) + len (draft_tokens_to_verify s)).

Definition cache_valid_length_for_context {B : Backend} {S} (c : TextContext.t B) (num_draft_tokens : Z)
    : M S Z :=
  let! s := read TextContext.spec_decoding_state c in
  let! prompt := prompt_tokens_for_context c in
  ret (TokenBuffer.processed_length (TextContext.tokens c) + len (maybe_accepted_draft_tokens s)
       + prompt + num_draft_tokens).

Definition _LUT_TAIL_PAD : Z := 16.
Definition _padded_lut_cols (cols : Z) : Z := (cols + 7) / 8 * 8 + _LUT_TAIL_PAD.

(** The checks of [_contiguous_prefix_2d] on a buffer of [num_elements]. *)
Definition _contiguous_prefix_2d {S} (num_elements rows cols : Z) : M S unit :=
  raise_if ((rows <? 0) || (cols <? 0)) ValueError;;
  raise_if (rows * cols >? num_elements) ValueError.

(** Storing a Python int in a [uint32] array. *)
Definition uint32 {S} (x : Z) : M S Z :=
  if (0 <=? x) && (x <? 2 ^ 32) then ret x else raise OverflowError.

Record BatchCharacteristics := batch_characteristics {
  batch_size : Z;
  max_prompt_length : Z;
  max_cache_valid_length : Z
}.

(** [KVCacheAssignments], as the host arrays the devices receive. *)
Record KVCacheAssignments := kv_cache_assignments {
  cache_lengths : list Z;
  lookup_table : list (list Z);
  dispatch : BatchCharacteristics
}.

Module PagedKVCacheManager.

Record t `{KVConnector, Driver} := mk {
  params : KVCacheParams;
  _total_num_pages : Z;
  _max_batch_size : Z;
  _block_manager : BlockManager.t
}.

Section Manager.
Context `{Digest} {B : Backend} `{KVConnector} `{Driver}.
Implicit Types m : t.

Definition set_block_manager (x : BlockManager.t) m : t :=
  mk _ _ (params m) (_total_num_pages m) (_max_batch_size m) x.

(** A cache manager with the context of the request a method is called for. *)
Record world := mk_world { kv : t; ctx : Ctx.t B }.
Definition set_kv (x : t) (w : world) : world := mk_world x (ctx w).
Definition request_id (w : world) : Z := TextContext.request_id (Ctx.base (ctx w)).

Definition on_kv {A} (x : M t A) : M world A := zoom kv set_kv x.
Definition on_blocks {A} (x : M BlockManager.t A) : M t A := zoom _block_manager set_block_manager x.
Definition on_request {A} (x : M BlockManager.world A) : M world A := λ w,
  let '(r, w') := x (BlockManager.mk_world (_block_manager (kv w)) (ctx w)) in
  (r, mk_world (set_block_manager (BlockManager.mgr w') (kv w)) (BlockManager.ctx w')).
Definition on_conn {A} (x : M conn A) : M t A := on_blocks (BlockManager.on_connector x).

(** [__init__]; the connector, the replicas' memory and the device are made by the
    caller, [last_level] is what the environment says of the device cache. *)
Definition init (params : KVCacheParams) (total_num_pages : Z) (enable_runtime_checks : bool)
    (max_batch_size : Z) (connector : conn) (replica_kv_memory : list (list KVCacheMemory))
    (device : memory) (last_level : bool) : outcome t :=
  let n := data_parallel_degree params in
  if max_batch_size <? 1 then Raise ValueError else
  if n =? 0 then Raise ZeroDivisionError else
  if negb (n_devices params mod n =? 0) then Raise AssertionError else
  let cross := if (n >? 1) && params_enable_prefix_caching params then Some replica_kv_memory else None in
  match BlockManager.init total_num_pages (page_size params) connector
          (params_enable_prefix_caching params) enable_runtime_checks n (params_kv_hash_algo params)
          (params_kv_hash_seed params) cross (params_enable_dp_cross_replica_prefix_copy params)
          device last_level with
  | Raise e => Raise e
  | Ok b => Ok (mk _ _ params total_num_pages max_batch_size b)
  end.

Definition get_prefix_cache_hit_counts : M world (list PrefixCacheHits.t) :=
  let! w := get in
  let replicas := zrange 0 (data_parallel_degree (params (kv w))) in
  if negb (params_enable_prefix_caching (params (kv w)))
  then ret (map (λ _, PrefixCacheHits.mk 0 0 0) replicas) else
  let b := _block_manager (kv w) in
  let! block_hashes := on_request (BlockManager.on_ctx
    (BlockHashes.compute_block_hashes [] (BlockManager.block_size b) (BlockManager.kv_hash_algo b)
       (BlockManager.kv_hash_seed b))) in
  for_map replicas (λ _, on_kv (on_blocks (BlockManager.count_cached_prefix_blocks block_hashes))).

Definition alloc : M world transfer :=
  on_kv (on_blocks BlockManager.poll_transfers);;
  let! '(_, load_event) := on_request BlockManager.reuse_blocks_from_prefix_cache in
  let! w := get in
  on_request (BlockManager.allocate_new_blocks (num_draft_tokens (params (kv w)))
                (num_draft_tokens_per_step (params (kv w))));;
  ret load_event.

Definition get_req_blocks (rid : Z) : M t (list Z) := on_blocks (BlockManager.get_req_blocks rid).

(** *** The kernels' inputs *)

(** The requests all have their blocks; returns the longest sequence. *)
Definition check_blocks (batch : list (TextContext.t B)) : M t Z :=
  for_fold batch 0 (λ max_seq_len c,
    let! m := get in
    let! held := get_req_blocks (TextContext.request_id c) in
    let! more := _does_req_need_more_blocks c (len held) (params m) None in
    raise_if more ValueError;;
    let! seq_len := read (_compute_seq_len (num_draft_tokens (params m))
                            (num_draft_tokens_per_step (params m)) None) c in
    ret (Z.max max_seq_len seq_len)).

Definition lut_pages (max_seq_len : Z) (max_cache_length : option Z) : M t Z :=
  let! m := get in
  let required_num_pages := ceildiv max_seq_len (page_size (params m)) in
  match max_cache_length with
  | None => ret required_num_pages
  | Some n =>
      raise_if (n <? 1) ValueError;;
      let lut_num_pages := ceildiv n (page_size (params m)) in
      raise_if (lut_num_pages <? required_num_pages) ValueError;;
      ret lut_num_pages
  end.

(** A request's row of the lookup table and its cache length. *)
Definition lut_row (cols : Z) (c : TextContext.t B) : M t (list Z * Z) :=
  let! m := get in
  let! held := get_req_blocks (TextContext.request_id c) in
  let! seq_len := read (_compute_seq_len (num_draft_tokens (params m))
                          (num_draft_tokens_per_step (params m)) None) c in
  let num_required_blocks := ceildiv seq_len (page_size (params m)) in
  py_assert (num_required_blocks <=? len held);;
  let held := if len held >? num_required_blocks then slice_to held num_required_blocks else held in
  let! entries := for_map held uint32 in
  raise_if (cols <? len entries) ValueError;;
  let! s := read TextContext.spec_decoding_state c in
  let! cache_length := uint32 (TokenBuffer.processed_length (TextContext.tokens c)
                               + len (maybe_accepted_draft_tokens s)) in
  ret (entries ++ repeat (_total_num_pages m) (Z.to_nat (cols - len entries)), cache_length).

(** The batch's longest query and longest valid cache. *)
Definition max_lengths (batch : list (TextContext.t B)) : M t (Z * Z) :=
  let! m := get in
  for_fold batch (0, 0) (λ '(max_prompt_len, max_cached_len) c,
    let! prompt := prompt_tokens_for_context c in
    let! cached := cache_valid_length_for_context c (num_draft_tokens (params m)) in
    ret (Z.max max_prompt_len prompt, Z.max max_cached_len cached)).

Definition _compute_kv_cache_assignments (replica_idx : Z) (batch : list (TextContext.t B))
    (max_cache_length : option Z) (bc : option BatchCharacteristics) : M t KVCacheAssignments :=
  let! m := get in
  let! max_seq_len := check_blocks batch in
  let! lut_num_pages := lut_pages max_seq_len max_cache_length in
  raise_if (len batch >? _max_batch_size m) ValueError;;
  raise_if (lut_num_pages >? _total_num_pages m) ValueError;;
  let cols := _padded_lut_cols lut_num_pages in
  _contiguous_prefix_2d (_max_batch_size m * _padded_lut_cols (_total_num_pages m)) (len batch) cols;;
  let! _ := uint32 (_total_num_pages m) in
  let! rows := for_map batch (lut_row cols) in
  let! '(max_prompt_len, max_cached_len) := max_lengths batch in
  on_conn wait_for_loads;;
  on_blocks (BlockManager.offload replica_idx);;
  let real := batch_characteristics (len batch) max_prompt_len max_cached_len in
  let! shape := match bc with
    | None => ret real
    | Some bc =>
        raise_if ((batch_size real >? batch_size bc) || (max_prompt_len >? max_prompt_length bc)
                  || (max_cached_len >? max_cache_valid_length bc)) ValueError;;
        ret bc
    end in
  let! _ := uint32 (max_prompt_length shape) in
  let! _ := uint32 (max_cache_valid_length shape) in
  ret (kv_cache_assignments rows.*2 rows.*1 shape).

(** [runtime_inputs], up to [build_runtime_inputs] of the parameters. *)
Definition runtime_inputs (batches : list (list (TextContext.t B))) (max_cache_length : option Z)
    (bc : option BatchCharacteristics) : M t (list KVCacheAssignments) :=
  let! m := get in
  raise_if (negb (len batches =? data_parallel_degree (params m))) ValueError;;
  for_map (zip (zrange 0 (len batches)) batches) (λ '(replica_idx, ctxs),
    _compute_kv_cache_assignments replica_idx ctxs max_cache_length bc).

(** *** The request's life *)

Definition contains (rid : Z) m : bool :=
  bool_decide (is_Some (BlockManager.req_to_replica (_block_manager m) !! rid)).

Definition claim (rid replica_idx : Z) : M t unit := on_blocks (BlockManager.claim rid replica_idx).

Definition release (rid : Z) : M t unit :=
  let! m := get in
  raise_if (negb (contains rid m)) ValueError;;
  on_blocks (BlockManager.release rid).

Definition alloc_dummy (rid replica_idx : Z) : M t unit :=
  claim rid replica_idx;;
  on_blocks (BlockManager.register_dummy_request rid).

Definition step : M world unit :=
  on_kv (on_conn wait_for_offloads);;
  on_request BlockManager.step.

Definition poll_transfers : M t unit := on_blocks BlockManager.poll_transfers.
Definition pending_transfers_exist (replica_idx : Z) : M t bool :=
  on_blocks (BlockManager.pending_transfers_exist replica_idx).

Definition block_count (replica_idx : Z) : M t BlockCount.t :=
  let! m := get in
  let! pool := on_blocks (BlockManager.pool_at replica_idx) in
  ret (BlockCount.mk (BlockPool.num_free_blocks pool) (BlockManager.total_num_blocks (_block_manager m))).
Definition host_block_count_of (replica_idx : Z) : M t BlockCount.t :=
  let! m := get in
  let! _ := of_option IndexError (py_index (zrange 0 (data_parallel_degree (params m))) replica_idx) in
  ret (host_block_count (BlockManager.connector (_block_manager m))).
Definition disk_block_count_of (replica_idx : Z) : M t BlockCount.t :=
  let! m := get in
  let! _ := of_option IndexError (py_index (zrange 0 (data_parallel_degree (params m))) replica_idx) in
  ret (disk_block_count (BlockManager.connector (_block_manager m))).

Definition reset_metrics : M t unit := on_blocks BlockManager.reset_metrics.
Definition reset_prefix_cache : M t unit :=
  on_blocks BlockManager.reset_prefix_cache;;
  let! m := get in
  for_each (zrange 0 (data_parallel_degree (params m))) (λ _, on_conn reset_tiers).

Definition effective_max_seq_length m : Z := _total_num_pages m * page_size (params m).

End Manager.
End PagedKVCacheManager.
