(* ===== verification/CacheProperties.v ===== *)
(** * Properties of the paged KV cache manager

    What an allocation promises to the batch that runs next: the request has all its
    blocks, so building the kernels' inputs cannot fail, and every entry of the lookup
    table, the padding a vector load over-reads included, is a page that exists. *)

From S2P Require Import Prelude Tokens Eos FreeQueue Pool Grammar Context Hashing Connector Manager ManagerFacts ManagerProperties CacheManager.

(** ** Running the manager's methods *)
Module CacheFacts.
Import Ownership Trace PagedKVCacheManager.

Section Facts.
Context `{Digest} {B : Backend} `{KVConnector} `{Driver}.
Implicit Types k : t.
Implicit Types c : TextContext.t B.

(** The blocks of request [c], as the manager's dictionary has them. *)
Definition held k c : list Z := blks (_block_manager k) (TextContext.request_id c).
(** The KV slots its next forward pass needs, and the pages they fill. *)
Definition slots k c : Z :=
  slots_needed c (num_draft_tokens (params k)) (num_draft_tokens_per_step (params k)).
Definition pages k c : Z := ceildiv (slots k c) (page_size (params k)).

(** A claimed request that holds a block for each of its slots. *)
Record provisioned k c : Prop := {
  pv_claimed : is_Some (BlockManager.req_to_replica (_block_manager k) !! TextContext.request_id c);
  pv_positive : 0 ≤ slots k c;
  pv_slots : slots k c ≤ len (held k c) * page_size (params k)
}.

(** A cache manager whose block manager is sound and cut to its parameters. *)
Record Sound k : Prop := {
  sound_good : Good (_block_manager k);
  sound_page : BlockManager.block_size (_block_manager k) = page_size (params k);
  sound_pages : BlockManager.total_num_blocks (_block_manager k) = _total_num_pages k;
  sound_replicas : BlockManager.num_replicas (_block_manager k) = data_parallel_degree (params k);
  sound_caching : BlockManager.enable_prefix_caching (_block_manager k) = params_enable_prefix_caching (params k)
}.

Lemma sound_inv k : Sound k → Inv (_block_manager k).
Proof. intros HS. apply HS. Qed.

Lemma sound_positive k : Sound k → 0 < page_size (params k).
Proof. intros HS. rewrite <- (sound_page _ HS). apply (inv_block_size _ (sound_inv _ HS)). Qed.

(** Only counters and defaulted dictionary entries of the block manager changed. *)
Definition KvQuiet k k' : Prop :=
  ∃ b, k' = set_block_manager b k ∧ Quiet (_block_manager k) b.

#[export] Instance kv_quiet_preorder : PreOrder KvQuiet.
Proof.
  split.
  - intros []. by eexists.
  - intros k1 k2 k3 (b & -> & Q) (b' & -> & Q'). exists b'. split; [done|]. by etrans.
Qed.

Lemma sound_goes k b : Sound k → Goes (_block_manager k) b → Sound (set_block_manager b k).
Proof.
  intros [HG Hp Ht Hn Hc] [HG' Hcfg]. split; simpl; [done|..].
  all: unfold config in Hcfg; injection Hcfg; intros; congruence.
Qed.

Lemma sound_quiet k k' : Sound k → KvQuiet k k' → Sound k'.
Proof. intros HS (b & -> & Q). apply sound_goes; [done|]. apply good_quiet; [apply HS|done]. Qed.

Lemma held_quiet k k' c : KvQuiet k k' → held k' c = held k c.
Proof. intros (b & -> & Q). apply (near_blks _ _ (quiet_near _ _ Q)). Qed.

Lemma params_quiet k k' : KvQuiet k k' → params k' = params k ∧ _total_num_pages k' = _total_num_pages k ∧
  _max_batch_size k' = _max_batch_size k.
Proof. by intros (b & -> & _). Qed.

Lemma slots_quiet k k' c : KvQuiet k k' → slots k' c = slots k c.
Proof. intros (b & -> & _). done. Qed.

Lemma provisioned_quiet k k' c : KvQuiet k k' → provisioned k c → provisioned k' c.
Proof.
  intros Q [Hc Hp Hs]. destruct (params_quiet _ _ Q) as (Ep & _). pose proof Q as (b & -> & Qb).
  split; [|done|]; simpl.
  - by rewrite (near_replica _ _ (quiet_near _ _ Qb)).
  - rewrite (held_quiet _ _ _ Q). exact Hs.
Qed.

Lemma on_blocks_run {A} (f : M BlockManager.t A) k r b :
  f (_block_manager k) = (r, b) → on_blocks f k = (r, set_block_manager b k).
Proof. intros E. unfold on_blocks, zoom. by rewrite E. Qed.

Lemma read_run {S A} (f : M (TextContext.t B) A) c a c' (s : S) :
  f c = (Ok a, c') → read f c s = (Ok a, s).
Proof. intros E. unfold read, of_outcome. by rewrite E. Qed.

Lemma read_slots {S} k c (s : S) :
  read (_compute_seq_len (num_draft_tokens (params k)) (num_draft_tokens_per_step (params k)) None) c s =
    (Ok (slots k c), s).
Proof. by eapply read_run, compute_seq_len_run. Qed.

Lemma blks_real m rid i r :
  Inv m → BlockManager.req_to_replica m !! rid = Some i → r ∈ blks m rid →
  0 ≤ r < BlockManager.total_num_blocks m.
Proof.
  intros HI Hr Hx. apply (inv_real _ HI i). rewrite (owned_split m rid i Hr).
  apply gmultiset_elem_of_disj_union. left. by apply elem_of_lsd.
Qed.

Lemma get_req_blocks_run k c :
  Sound k → is_Some (BlockManager.req_to_replica (_block_manager k) !! TextContext.request_id c) →
  ∃ k', get_req_blocks (TextContext.request_id c) k = (Ok (held k c), k') ∧ KvQuiet k k'.
Proof.
  intros HS [i Hr]. pose proof (sound_inv _ HS) as HI. set (m := _block_manager k) in *.
  set (rid := TextContext.request_id c) in *.
  destruct (blocks_of_run rid m) as (m1 & E1 & Q1).
  destruct (pool_of m rid i HI Hr) as (p & fl & Hp & Hpi).
  assert (BlockManager.get_req_blocks rid m = (Ok (blks m rid), m1)) as E.
  { unfold BlockManager.get_req_blocks. mstep (replica_of_run rid i m Hr). mstep E1.
    apply (bids_run i m1 p fl (owned m i)); [by apply (inv_replica _ HI rid)|by apply (quiet_pool_at m)|done|].
    intros r Hx. unfold BlockPool.real. destruct (inv_pool _ HI i (inv_replica _ HI _ _ Hr)) as (q & ? & Hq & Ht & _).
    assert (q = p) as -> by congruence. rewrite Ht. by eapply blks_real. }
  eexists. split; [apply on_blocks_run, E|]. by exists m1.
Qed.

Lemma need_more_run {S} k c (s : S) n :
  _does_req_need_more_blocks c n (params k) None s = (Ok (slots k c >? n * page_size (params k)), s).
Proof. unfold _does_req_need_more_blocks. by mstep (read_slots k c s). Qed.

(** The longest sequence of a batch. *)
Definition max_slots k (batch : list (TextContext.t B)) (z : Z) : Z :=
  foldl (λ x c, Z.max x (slots k c)) z batch.

Lemma max_slots_quiet k k' batch z : KvQuiet k k' → max_slots k' batch z = max_slots k batch z.
Proof.
  intros Q. unfold max_slots. revert z. induction batch as [|c batch IH]; intros z; [done|].
  simpl. by rewrite (slots_quiet _ _ _ Q), IH.
Qed.

Lemma max_slots_spec k batch z :
  z ≤ max_slots k batch z ∧ ∀ c, c ∈ batch → slots k c ≤ max_slots k batch z.
Proof.
  unfold max_slots. revert z. induction batch as [|c batch IH]; intros z; simpl.
  - split; [lia|]. by intros c ?%not_elem_of_nil.
  - destruct (IH (Z.max z (slots k c))) as [H1' H2']. split; [lia|].
    intros c' [->|Hc']%elem_of_cons; [lia|by apply H2'].
Qed.

Definition check_one (max_seq_len : Z) c : M t Z :=
  let! k := get in
  let! held := get_req_blocks (TextContext.request_id c) in
  let! more := _does_req_need_more_blocks c (len held) (params k) None in
  raise_if more ValueError;;
  let! seq_len := read (_compute_seq_len (num_draft_tokens (params k))
                          (num_draft_tokens_per_step (params k)) None) c in
  ret (Z.max max_seq_len seq_len).

Lemma check_one_run k z c :
  Sound k → provisioned k c →
  ∃ k', check_one z c k = (Ok (Z.max z (slots k c)), k') ∧ KvQuiet k k'.
Proof.
  intros HS Hc. destruct (get_req_blocks_run k c HS (pv_claimed _ _ Hc)) as (k1 & E1 & Q1).
  exists k1. split; [|done]. unfold check_one. unfold bind at 1, get. mstep E1.
  mstep (need_more_run k c k1 (len (held k c))). pose proof (pv_slots _ _ Hc).
  erewrite bind_run; [|apply raise_if_false; lia]. by mstep (read_slots k c k1).
Qed.

Lemma check_blocks_run batch k :
  Sound k → Forall (provisioned k) batch →
  ∃ k', check_blocks batch k = (Ok (max_slots k batch 0), k') ∧ KvQuiet k k'.
Proof.
  change (check_blocks batch) with (for_fold batch 0 check_one). unfold max_slots. generalize 0. intros z.
  revert z k. induction batch as [|c batch IH]; intros z k HS Hall; [by exists k|].
  apply Forall_cons in Hall as [Hc Hall]. simpl.
  destruct (check_one_run k z c HS Hc) as (k1 & E1 & Q1). mstep E1.
  destruct (IH (Z.max z (slots k c)) k1) as (k2 & E2 & Q2).
  - by eapply sound_quiet.
  - eapply Forall_impl; [exact Hall|]. intros c'. by apply provisioned_quiet.
  - exists k2. split; [|by etrans]. rewrite E2. do 2 f_equal. by apply (max_slots_quiet k k1 batch).
Qed.

(** *** Rows of the lookup table *)

Lemma padded_cols_spec n :
  _padded_lut_cols n mod 8 = 0 ∧ n + 16 ≤ _padded_lut_cols n ≤ n + 23.
Proof.
  unfold _padded_lut_cols, _LUT_TAIL_PAD. pose proof (Z.div_mod (n + 7) 8).
  pose proof (Z.mod_pos_bound (n + 7) 8). split; [|lia].
  replace ((n + 7) / 8 * 8 + 16) with (((n + 7) / 8 + 2) * 8) by ring. by apply Z.mod_mul.
Qed.

Lemma padded_cols_mono n n' : n ≤ n' → _padded_lut_cols n ≤ _padded_lut_cols n'.
Proof.
  intros Hn. unfold _padded_lut_cols. assert ((n + 7) / 8 ≤ (n' + 7) / 8) by (apply Z.div_le_mono; lia). lia.
Qed.

Lemma uint32_run {S} x (s : S) : 0 ≤ x < 2 ^ 32 → uint32 x s = (Ok x, s).
Proof. intros Hx. unfold uint32. by replace ((0 <=? x) && (x <? 2 ^ 32)) with true by lia. Qed.

Lemma uint32_list {S} l (s : S) : (∀ x, x ∈ l → 0 ≤ x < 2 ^ 32) → for_map l uint32 s = (Ok l, s).
Proof.
  induction l as [|x l IH]; intros Hl; [done|]. simpl. mstep (uint32_run x s (Hl x ltac:(left))).
  by mstep (IH (λ y Hy, Hl y (list_elem_of_further _ _ _ Hy))).
Qed.

(** The tokens in the cache before and after the request's next forward pass. *)
Definition cached_length c : Z :=
  TokenBuffer.processed_length (TextContext.tokens c) + len (maybe_accepted_draft_tokens (drafts c)).
Definition query_length c : Z :=
  TokenBuffer.active_length (TextContext.tokens c) + len (draft_tokens_to_verify (drafts c)).
Definition valid_length k c : Z := cached_length c + query_length c + num_draft_tokens (params k).

(** A request whose lengths the kernels' 32-bit integers can hold. *)
Definition fits k c : Prop :=
  TokenBuffer.wf (TextContext.tokens c) ∧ 0 ≤ num_draft_tokens (params k) ∧ valid_length k c < 2 ^ 32.

Lemma fits_bounds k c : fits k c →
  0 ≤ cached_length c < 2 ^ 32 ∧ 0 ≤ query_length c < 2 ^ 32 ∧ 0 ≤ valid_length k c < 2 ^ 32.
Proof.
  intros (Hwf & Hd & Hv). pose proof (TokenBuffer.wf_pstart _ Hwf) as Hp.
  assert (0 ≤ TokenBuffer.active_length (TextContext.tokens c)) as Ha.
  { pose proof (TokenBuffer.wf_window _ Hwf). unfold TokenBuffer.active_length, Range.length. lia. }
  pose proof (len_nonneg (maybe_accepted_draft_tokens (drafts c))).
  pose proof (len_nonneg (draft_tokens_to_verify (drafts c))).
  unfold valid_length, cached_length, query_length, TokenBuffer.processed_length in *. lia.
Qed.

(** The row of a provisioned request: its blocks, then the null page. *)
Definition row_of k (cols : Z) c : list Z :=
  take (Z.to_nat (pages k c)) (held k c) ++ repeat (_total_num_pages k) (Z.to_nat (cols - pages k c)).

Lemma pages_held k c : Sound k → provisioned k c → 0 ≤ pages k c ≤ len (held k c).
Proof.
  intros HS [_ Hp Hs]. pose proof (sound_positive k HS) as Hps. unfold pages.
  pose proof (ceildiv_spec (slots k c) _ Hps). nia.
Qed.

Lemma row_quiet k k' cols c : KvQuiet k k' → row_of k' cols c = row_of k cols c.
Proof.
  intros Q. unfold row_of, pages. rewrite (held_quiet _ _ _ Q), (slots_quiet _ _ _ Q).
  by destruct (params_quiet _ _ Q) as (-> & -> & _).
Qed.

Lemma lut_row_run k cols c :
  Sound k → provisioned k c → fits k c → _total_num_pages k < 2 ^ 32 → pages k c ≤ cols →
  ∃ k', lut_row cols c k = (Ok (row_of k cols c, cached_length c), k') ∧ KvQuiet k k'.
Proof.
  intros HS Hc Hf Ht Hcols. pose proof (pages_held k c HS Hc) as Hpg.
  destruct (get_req_blocks_run k c HS (pv_claimed _ _ Hc)) as (k1 & E1 & Q1).
  exists k1. split; [|done]. unfold lut_row. unfold bind at 1, get. mstep E1. mstep (read_slots k c k1).
  fold (pages k c). cbv zeta. erewrite bind_run; [|apply py_assert_true; lia]. cbv beta.
  set (l := if len (held k c) >? pages k c then _ else _).
  assert (l = take (Z.to_nat (pages k c)) (held k c)) as ->.
  { unfold l. destruct (len (held k c) >? pages k c) eqn:Eg.
    - by rewrite slice_to_take by lia.
    - rewrite take_ge; [done|]. unfold len in *. lia. }
  destruct (pv_claimed _ _ Hc) as [i Hr].
  erewrite bind_run; [|apply uint32_list].
  2:{ intros r Hx. pose proof (elem_of_sublist _ _ _ Hx (sublist_take _ _)) as Hx'.
      pose proof (blks_real _ _ i r (sound_inv k HS) Hr Hx'). rewrite (sound_pages k HS) in *. lia. }
  cbv beta. assert (len (take (Z.to_nat (pages k c)) (held k c)) = pages k c) as Hl.
  { unfold len in *. rewrite length_take. lia. }
  rewrite Hl. erewrite bind_run; [|apply raise_if_false; lia]. cbv beta.
  erewrite bind_run; [|eapply read_run, spec_state_run]. cbv beta.
  fold (cached_length c). erewrite bind_run; [|apply uint32_run, (fits_bounds k c Hf)]. done.
Qed.

Lemma fits_quiet k k' c : KvQuiet k k' → fits k c → fits k' c.
Proof. intros (b & -> & _). done. Qed.

Lemma lut_rows_run batch k cols :
  Sound k → Forall (provisioned k) batch → Forall (fits k) batch → _total_num_pages k < 2 ^ 32 →
  Forall (λ c, pages k c ≤ cols) batch →
  ∃ k', for_map batch (lut_row cols) k = (Ok (map (λ c, (row_of k cols c, cached_length c)) batch), k') ∧
    KvQuiet k k'.
Proof.
  revert k. induction batch as [|c batch IH]; intros k HS Hpv Hf Ht Hcols; [by exists k|].
  apply Forall_cons in Hpv as [Hc Hpv]. apply Forall_cons in Hf as [Hfc Hf].
  apply Forall_cons in Hcols as [Hcc Hcols]. simpl.
  destruct (lut_row_run k cols c HS Hc Hfc Ht Hcc) as (k1 & E1 & Q1). mstep E1.
  destruct (params_quiet _ _ Q1) as (_ & Et & _).
  destruct (IH k1) as (k2 & E2 & Q2).
  - by eapply sound_quiet.
  - eapply Forall_impl; [exact Hpv|]. intros c'. by apply provisioned_quiet.
  - eapply Forall_impl; [exact Hf|]. intros c'. by apply fits_quiet.
  - by rewrite Et.
  - eapply Forall_impl; [exact Hcols|]. simpl. intros c'. unfold pages. rewrite (slots_quiet _ _ _ Q1).
    by destruct (params_quiet _ _ Q1) as (-> & _).
  - mstep E2. exists k2. split; [|by etrans]. unfold ret. do 3 f_equal. apply map_ext. intros c'.
    by rewrite (row_quiet _ _ _ _ Q1).
Qed.

(** *** The batch's lengths *)

Lemma prompt_run {S} c (s : S) : prompt_tokens_for_context c s = (Ok (query_length c), s).
Proof. unfold prompt_tokens_for_context. by erewrite bind_run by eapply read_run, spec_state_run. Qed.

Lemma cache_valid_run {S} k c (s : S) :
  cache_valid_length_for_context c (num_draft_tokens (params k)) s = (Ok (valid_length k c), s).
Proof.
  unfold cache_valid_length_for_context. erewrite bind_run by eapply read_run, spec_state_run.
  cbv beta. by mstep (prompt_run c s).
Qed.

Definition lengths_of k (batch : list (TextContext.t B)) (z : Z * Z) : Z * Z :=
  foldl (λ '(a, b) c, (Z.max a (query_length c), Z.max b (valid_length k c))) z batch.

Lemma max_lengths_run batch k : max_lengths batch k = (Ok (lengths_of k batch (0, 0)), k).
Proof.
  unfold max_lengths, lengths_of. unfold bind at 1, get. generalize (0, 0).
  induction batch as [|c batch IH]; intros [a b]; [done|]. simpl.
  erewrite bind_run; [|mstep (prompt_run c k); mstep (cache_valid_run k c k); done]. apply IH.
Qed.

Lemma lengths_bounds batch k a b :
  Forall (fits k) batch → 0 ≤ a < 2 ^ 32 → 0 ≤ b < 2 ^ 32 →
  0 ≤ (lengths_of k batch (a, b)).1 < 2 ^ 32 ∧ 0 ≤ (lengths_of k batch (a, b)).2 < 2 ^ 32.
Proof.
  unfold lengths_of. revert a b. induction batch as [|c batch IH]; intros a b; [done|].
  intros [Hf Hall]%Forall_cons Ha Hb. simpl. pose proof (fits_bounds k c Hf). apply IH; [done|lia..].
Qed.

Lemma lengths_quiet k k' batch z : KvQuiet k k' → lengths_of k' batch z = lengths_of k batch z.
Proof. by intros (b & -> & _). Qed.

(** *** Building the inputs of one replica *)

(** The pages a row of the table covers. *)
Definition table_pages k (batch : list (TextContext.t B)) (max_cache_length : option Z) : Z :=
  ceildiv (default (max_slots k batch 0) max_cache_length) (page_size (params k)).

Record Runnable k i (batch : list (TextContext.t B)) (max_cache_length : option Z) : Prop := {
  rn_sound : Sound k;
  rn_replica : 0 ≤ i < data_parallel_degree (params k);
  rn_batch : len batch ≤ _max_batch_size k;
  rn_provisioned : Forall (provisioned k) batch;
  rn_fits : Forall (fits k) batch;
  rn_pages : table_pages k batch max_cache_length ≤ _total_num_pages k;
  rn_total : _total_num_pages k < 2 ^ 32;
  rn_length : ∀ n, max_cache_length = Some n → 1 ≤ n ∧ max_slots k batch 0 ≤ n
}.

Lemma ceildiv_mono a b d : 0 < d → a ≤ b → ceildiv a d ≤ ceildiv b d.
Proof. intros Hd Hab. pose proof (ceildiv_spec a d Hd). pose proof (ceildiv_spec b d Hd). nia. Qed.

(** Sequences that fit the cache fit the table. *)
Lemma max_slots_le k batch z u :
  z ≤ u → Forall (λ c, slots k c ≤ u) batch → max_slots k batch z ≤ u.
Proof.
  unfold max_slots. revert z. induction batch as [|c batch IH]; intros z Hz; [done|].
  intros [Hc Hall]%Forall_cons. simpl. apply IH; [lia|done].
Qed.

Lemma ceildiv_mul a d : 0 < d → ceildiv (a * d) d = a.
Proof. intros Hd. pose proof (ceildiv_spec (a * d) d Hd). nia. Qed.

Lemma slots_table_pages k batch :
  0 < page_size (params k) → 0 ≤ _total_num_pages k →
  Forall (λ c, slots k c ≤ effective_max_seq_length k) batch →
  table_pages k batch None ≤ _total_num_pages k.
Proof.
  intros Hps Ht Hall. rewrite <- (ceildiv_mul (_total_num_pages k) _ Hps). apply ceildiv_mono; [done|].
  apply max_slots_le; [unfold effective_max_seq_length in *; nia|done].
Qed.

Lemma table_covers k i batch n c :
  Runnable k i batch n → c ∈ batch → 0 ≤ pages k c ≤ table_pages k batch n.
Proof.
  intros HR Hc. pose proof (rn_sound _ _ _ _ HR) as HS. split.
  - apply pages_held; [done|]. by apply (proj1 (Forall_forall _ _) (rn_provisioned _ _ _ _ HR)).
  - apply ceildiv_mono; [by apply sound_positive|]. destruct (max_slots_spec k batch 0) as [_ Hm].
    specialize (Hm c Hc). destruct n as [n|]; simpl; [|done]. destruct (rn_length _ _ _ _ HR n eq_refl). lia.
Qed.

Lemma lut_pages_run k i batch n :
  Runnable k i batch n → lut_pages (max_slots k batch 0) n k = (Ok (table_pages k batch n), k).
Proof.
  intros HR. unfold lut_pages, table_pages. unfold bind at 1, get. destruct n as [n|]; [|done].
  destruct (rn_length _ _ _ _ HR n eq_refl) as [Hn Hm].
  erewrite bind_run; [|apply raise_if_false; lia]. cbv beta zeta.
  pose proof (ceildiv_mono _ _ _ (sound_positive k (rn_sound _ _ _ _ HR)) Hm).
  by erewrite bind_run by (apply raise_if_false; lia).
Qed.

Lemma runnable_quiet k k' i batch n : KvQuiet k k' → Runnable k i batch n → Runnable k' i batch n.
Proof.
  intros Q [R1 R2 R3 R4 R5 R6 R7 R8]. destruct (params_quiet _ _ Q) as (Ep & Et & Em).
  split; rewrite ?Ep, ?Et, ?Em; try done.
  - by eapply sound_quiet.
  - eapply Forall_impl; [exact R4|]. intros c. by apply provisioned_quiet.
  - eapply Forall_impl; [exact R5|]. intros c. by apply fits_quiet.
  - unfold table_pages in *. by rewrite (max_slots_quiet _ _ _ _ Q), Ep.
  - intros x Hx. rewrite (max_slots_quiet _ _ _ _ Q). by apply R8.
Qed.

(** The transfers to the outer tiers the call starts. *)
Lemma transfers_start `{!KVConnectorLaws} k i :
  Sound k → 0 ≤ i < data_parallel_degree (params k) →
  ∃ b, (on_conn wait_for_loads;; on_blocks (BlockManager.offload i)) k = (Ok tt, set_block_manager b k) ∧
    Goes (_block_manager k) b ∧ Served (_block_manager k) b.
Proof.
  intros HS Hi. pose proof (sound_inv k HS) as HI. set (m := _block_manager k) in *.
  destruct (wait_for_loads_law (BlockManager.connector m)) as (cn & Ew).
  set (m1 := BlockManager.set_connector cn m).
  assert (on_conn wait_for_loads k = (Ok tt, set_block_manager m1 k)) as E1.
  { apply on_blocks_run. by apply on_connector_run. }
  destruct (offload_run i m1) as (m2 & E2 & HI2 & HSv & _).
  { by apply inv_connector. }
  { simpl. unfold m. by rewrite (sound_replicas k HS). }
  exists m2. mstep E1. split; [exact (on_blocks_run _ (set_block_manager m1 k) _ _ E2)|].
  assert (Served m m1) as HSv1 by by split. assert (Served m m2) as HSv2 by by etrans.
  split; [|done]. apply good_config; [apply HS|done|apply HSv2].
Qed.

Lemma assignments_run `{!KVConnectorLaws} k i batch n :
  Runnable k i batch n →
  let cols := _padded_lut_cols (table_pages k batch n) in
  ∃ a k', _compute_kv_cache_assignments i batch n None k = (Ok a, k') ∧ Sound k' ∧
    lookup_table a = map (row_of k cols) batch ∧ cache_lengths a = map cached_length batch ∧
    dispatch a = batch_characteristics (len batch) (lengths_of k batch (0, 0)).1 (lengths_of k batch (0, 0)).2 ∧
    (∀ c, held k' c = held k c) ∧ params k' = params k ∧ _total_num_pages k' = _total_num_pages k ∧
    _max_batch_size k' = _max_batch_size k ∧
    BlockManager.req_to_replica (_block_manager k') = BlockManager.req_to_replica (_block_manager k).
Proof.
  intros HR cols. pose proof (rn_sound _ _ _ _ HR) as HS.
  destruct (check_blocks_run batch k HS (rn_provisioned _ _ _ _ HR)) as (k1 & E1 & Q1).
  pose proof (runnable_quiet _ _ _ _ _ Q1 HR) as HR1. destruct (params_quiet _ _ Q1) as (Ep & Et & Em).
  pose proof (lut_pages_run k1 i batch n HR1) as E2. rewrite (max_slots_quiet _ _ _ _ Q1) in E2.
  assert (table_pages k1 batch n = table_pages k batch n) as Etp.
  { unfold table_pages. by rewrite (max_slots_quiet _ _ _ _ Q1), Ep. }
  rewrite Etp in E2. pose proof (rn_batch _ _ _ _ HR) as Hb. pose proof (rn_pages _ _ _ _ HR) as Hpg.
  pose proof (rn_total _ _ _ _ HR) as Ht. pose proof (len_nonneg batch) as Hb0.
  assert (0 ≤ _total_num_pages k) as Ht0 by (rewrite <- (sound_pages k HS); apply (inv_total _ (sound_inv k HS))).
  unfold _compute_kv_cache_assignments. unfold bind at 1, get. mstep E1. mstep E2. cbv zeta.
  do 2 (erewrite bind_run; [|apply raise_if_false; lia]; cbv beta).
  fold cols. pose proof (padded_cols_mono _ _ Hpg) as Hmono. fold cols in Hmono.
  assert (0 ≤ table_pages k batch n) as Hpg0.
  { unfold table_pages. pose proof (sound_positive k HS) as Hps.
    destruct (max_slots_spec k batch 0) as [Hz _].
    assert (0 ≤ default (max_slots k batch 0) n) as Hd.
    { destruct n as [n|]; simpl; [destruct (rn_length _ _ _ _ HR n eq_refl); lia|lia]. }
    pose proof (ceildiv_spec (default (max_slots k batch 0) n) _ Hps). nia. }
  destruct (padded_cols_spec (table_pages k batch n)) as [_ Hcs]. fold cols in Hcs.
  assert (_contiguous_prefix_2d (_max_batch_size k * _padded_lut_cols (_total_num_pages k)) (len batch) cols k1
    = (Ok tt, k1)) as E3.
  { unfold _contiguous_prefix_2d. erewrite bind_run; [|apply raise_if_false; lia].
    apply raise_if_false. nia. }
  mstep E3. mstep (uint32_run (_total_num_pages k) k1 (conj Ht0 Ht)).
  destruct (lut_rows_run batch k1 cols) as (k2 & E4 & Q2); try apply HR1.
  { apply Forall_forall. intros c Hc. pose proof (table_covers _ _ _ _ c HR1 Hc). lia. }
  mstep E4. mstep (max_lengths_run batch k2). assert (KvQuiet k k2) as Q by by etrans.
  rewrite (lengths_quiet _ _ batch (0, 0) Q). destruct (params_quiet _ _ Q) as (Ep2 & Et2 & Em2).
  destruct (transfers_start k2 i) as (b & E5 & HG & HSv); [by eapply sound_quiet|rewrite Ep2; apply HR|].
  destruct (lengths_bounds batch k 0 0 (rn_fits _ _ _ _ HR)) as [H1' H2']; [lia..|].
  destruct (lengths_of k batch (0, 0)) as [mp mc]. simpl in H1', H2'.
  rewrite <- bind_assoc. mstep E5. unfold bind at 1, ret. cbv zeta beta iota. simpl max_prompt_length.
  simpl max_cache_valid_length. mstep (uint32_run mp (set_block_manager b k2) H1').
  mstep (uint32_run mc (set_block_manager b k2) H2').
  eexists _, (set_block_manager b k2). split; [done|].
  split; [apply sound_goes; [by eapply sound_quiet|done]|]. simpl.
  rewrite <- !list_fmap_compose. split_and!; try done.
  - apply map_ext. intros c. apply (row_quiet _ _ _ _ Q1).
  - intros c. rewrite <- (held_quiet _ _ c Q). unfold held, blks. simpl.
    by rewrite (sv_blocks _ _ HSv).
  - rewrite (sv_replica _ _ HSv). destruct Q as (b' & -> & Qb). apply (near_replica _ _ (quiet_near _ _ Qb)).
Qed.

(** *** Allocation *)

Lemma on_request_run {A} (f : M BlockManager.world A) k x r b x' :
  f (BlockManager.mk_world (_block_manager k) x) = (r, BlockManager.mk_world b x') →
  on_request f (mk_world k x) = (r, mk_world (set_block_manager b k) x').
Proof. intros E. unfold on_request. simpl. by rewrite E. Qed.

Lemma on_kv_run {A} (f : M t A) k x r k' : f k = (r, k') → on_kv f (mk_world k x) = (r, mk_world k' x).
Proof. intros E. unfold on_kv, zoom. simpl. by rewrite E. Qed.

(** Context [x'] is [x] with the start of its token window moved inside the window. *)
Definition Moved (x x' : Ctx.t B) : Prop :=
  ∃ n, 0 ≤ n ∧ n + TokenBuffer._processing_offset (Ctx.tokens x)
         ≤ Range.end_ (TokenBuffer._processing_range (Ctx.tokens x)) ∧
    Retokened x x' (start_at n (Ctx.tokens x)).

Lemma moved_stay x x' :
  TokenBuffer.wf (Ctx.tokens x) → Retokened x x' (Ctx.tokens x) → Moved x x'.
Proof.
  intros Hwf HR. exists (TokenBuffer.processed_length (Ctx.tokens x)).
  pose proof (TokenBuffer.wf_window _ Hwf). pose proof (TokenBuffer.wf_pstart _ Hwf).
  rewrite start_at_id. unfold TokenBuffer.processed_length. split_and!; done || lia.
Qed.

Lemma moved_refl x : TokenBuffer.wf (Ctx.tokens x) → Moved x x.
Proof.
  intros Hwf. apply moved_stay; [done|]. exists (TextContext.cached_prefix_length (Ctx.base x)).
  unfold Ctx.tokens. by destruct (Ctx.base x).
Qed.

Lemma moved_rid x x' : Moved x x' → TextContext.request_id (Ctx.base x') = TextContext.request_id (Ctx.base x).
Proof. by intros (n & _ & _ & o & ->). Qed.

(** Moving the start trades processed tokens for active ones. *)
Lemma moved_length x x' : Moved x x' → TokenBuffer.wf (Ctx.tokens x) →
  TokenBuffer.wf (Ctx.tokens x') ∧
  TokenBuffer.processed_length (Ctx.tokens x') + TokenBuffer.active_length (Ctx.tokens x') =
  TokenBuffer.processed_length (Ctx.tokens x) + TokenBuffer.active_length (Ctx.tokens x) ∧
  drafts (Ctx.base x') = drafts (Ctx.base x).
Proof.
  intros (n & Hn & He & o & E) Hwf. pose proof (TokenBuffer.wf_window _ Hwf).
  pose proof (TokenBuffer.wf_offset _ Hwf). unfold Ctx.tokens at 1 2 3. rewrite E. split_and!.
  - by apply start_at_wf.
  - unfold TokenBuffer.processed_length, TokenBuffer.active_length, Range.length. simpl. lia.
  - done.
Qed.

Lemma moved_slots k x x' : Moved x x' → TokenBuffer.wf (Ctx.tokens x) →
  slots k (Ctx.base x') = slots k (Ctx.base x).
Proof.
  intros HM Hwf. destruct (moved_length x x' HM Hwf) as (_ & Hl & Hd).
  unfold slots, slots_needed, Ctx.tokens in *. rewrite Hd, Hl. destruct HM as (n & _ & _ & o & ->). done.
Qed.

Lemma moved_fits k x x' : Moved x x' → fits k (Ctx.base x) → fits k (Ctx.base x').
Proof.
  intros HM (Hwf & Hd & Hv). destruct (moved_length x x' HM Hwf) as (Hwf' & Hl & Hdr).
  split_and!; [done|done|]. unfold valid_length, cached_length, query_length, Ctx.tokens in *.
  rewrite Hdr. lia.
Qed.

(** What a call for request [x] may do to everybody else. *)
Record Elsewhere (m m' : BlockManager.t) (rid : Z) : Prop := {
  el_goes : Goes m m';
  el_replica : BlockManager.req_to_replica m' = BlockManager.req_to_replica m;
  el_others : ∀ rid', rid' ≠ rid → blks m' rid' = blks m rid' ∧ hshs m' rid' = hshs m rid'
}.

Lemma elsewhere_trans m1 m2 m3 rid : Elsewhere m1 m2 rid → Elsewhere m2 m3 rid → Elsewhere m1 m3 rid.
Proof.
  intros [[G1 C1] R1 O1] [[G2 C2] R2 O2]. split; [split; [done|congruence]|congruence|].
  intros rid' Hne. destruct (O1 rid' Hne), (O2 rid' Hne). split; congruence.
Qed.

Lemma elsewhere_quiet m m' rid : Good m → Quiet m m' → Elsewhere m m' rid.
Proof. intros HG Q. split; [by apply good_quiet|apply Q|]. intros rid' _. split; apply Q. Qed.

(** What [alloc] asks of the request. *)
Record allocatable k (x : Ctx.t B) : Prop := {
  al_claimed : is_Some (BlockManager.req_to_replica (_block_manager k) !! TextContext.request_id (Ctx.base x));
  al_tokens : good_tokens x;
  al_hashes : len (hshs (_block_manager k) (TextContext.request_id (Ctx.base x))) * page_size (params k) ≤ hashable x;
  al_room : hashable x + TokenBuffer._processing_offset (Ctx.tokens x)
              < Range.end_ (TokenBuffer._processing_range (Ctx.tokens x));
  al_slots : 0 ≤ slots k (Ctx.base x)
}.

Lemma poll_elsewhere m rid : Good m →
  ∃ m', BlockManager.poll_transfers m = (Ok tt, m') ∧ Elsewhere m m' rid ∧
    (∀ rid', blks m' rid' = blks m rid' ∧ hshs m' rid' = hshs m rid').
Proof.
  intros HG. destruct (poll_run m (good_inv _ HG)) as (m' & E & HI & HU & _). exists m'. split; [done|].
  assert (∀ rid', blks m' rid' = blks m rid' ∧ hshs m' rid' = hshs m rid') as Hs.
  { intros rid'. split; [by apply un_blks|]. unfold hshs. by rewrite (un_hashes _ _ HU). }
  split; [|done]. split; [by apply good_config; [| |apply HU]|apply HU|]. intros rid' _. apply Hs.
Qed.

(** A reuse that returned, whatever the external tier. *)
Lemma reuse_elsewhere `{!KVConnectorLaws} k m x :
  let rid := TextContext.request_id (Ctx.base x) in
  Good m → BlockManager.block_size m = page_size (params k) →
  is_Some (BlockManager.req_to_replica m !! rid) → good_tokens x →
  len (hshs m rid) * BlockManager.block_size m ≤ hashable x →
  hashable x + TokenBuffer._processing_offset (Ctx.tokens x)
    < Range.end_ (TokenBuffer._processing_range (Ctx.tokens x)) →
  ∃ r m' x', BlockManager.reuse_blocks_from_prefix_cache (BlockManager.mk_world m x) =
      (r, BlockManager.mk_world m' x') ∧ (∀ o, r = Ok o → Elsewhere m m' rid ∧ Moved x x').
Proof.
  intros rid HG Hbs [i Hr] Htok Hh Hroom. pose proof (good_inv _ HG) as HI.
  destruct (decide (BlockManager.enable_prefix_caching m = false ∨
    TokenBuffer.active_length (Ctx.tokens x) = 1)) as [Hd|Hd].
  { eexists _, m, x. split; [by eapply reuse_idle_run; [|apply HG|]|].
    intros _ _. split; [|by apply moved_refl, Htok].
    split; [by apply goes_refl|done..]. }
  destruct (pool_of _ _ _ HI Hr) as (p & fl & Hp & Hpi).
  destruct (reuse_run m x i p HI Hr Hp) as (r & m' & x' & E & Hc); try done; try apply HG; try apply Htok; try tauto.
  { destruct (BlockManager.enable_prefix_caching m); tauto. }
  { by apply good_int64. }
  exists r, m', x'. split; [done|]. destruct r as [[skip e]|e]; [intros _ _|done].
  destruct Hc as (G & HR & _ & Hl & _ & Hs & Hx). split.
  - split; [by apply good_config; [| |apply HR]; [|apply HR]|apply HR|].
      intros rid' Hne. destruct (ru_others _ _ _ _ HR rid' Hne) as (? & _ & ?). by split.
  - destruct (decide (G = [])) as [->|HG'].
    + apply moved_stay; [apply Htok|apply Hx].
    + destruct Hx as [Et _ Ha HRt]. eexists. split; [|split; [|exact HRt]].
      * destruct (inv_committed _ HI rid) as (q & Eq & Hq). pose proof (inv_block_size _ HI) as Hb0.
        fold rid. rewrite Eq, Z.div_mul by lia. pose proof (len_nonneg G). nia.
      * rewrite Et in Ha. unfold TokenBuffer.active_length, Range.length, start_at in Ha. simpl in Ha.
        pose proof (TokenBuffer.wf_offset _ (proj1 Htok)). lia.
Qed.

Lemma allocate_elsewhere m x a b i :
  let c := Ctx.base x in
  let rid := TextContext.request_id c in
  Good m → BlockManager.req_to_replica m !! rid = Some i →
  ∃ r m', BlockManager.allocate_new_blocks a b (BlockManager.mk_world m x) =
      (r, BlockManager.mk_world m' (Ctx.set_base (with_spec c) x)) ∧ Elsewhere m m' rid ∧
    (∀ u, r = Ok u → slots_needed c a b ≤ len (blks m' rid) * BlockManager.block_size m).
Proof.
  intros c rid HG Hr. pose proof (good_inv _ HG) as HI.
  destruct (pool_of _ _ _ HI Hr) as (p & fl & Hp & Hpi).
  destruct (allocate_run m x a b i p fl HI Hr Hp Hpi) as (m' & r & E & Hc). fold c rid in E, Hc.
  exists r, m'. split; [done|].
  destruct (tokens_wanted c >? _); [|destruct (_ <? _); [|destruct (blocks_missing m c a b >? len fl) eqn:E3]].
  1-3: destruct Hc as [-> Q]; split; [by apply elsewhere_quiet|done].
  destruct Hc as (-> & HI' & HGr & _). split.
  - split; [by apply good_config; [| |apply HGr]|apply HGr|]. intros rid' Hne.
    by rewrite (grown_blks _ _ _ _ _ HGr), decide_False, (grown_hshs _ _ _ _ _ HGr).
  - intros _ _. rewrite (grown_blks _ _ _ _ _ HGr), decide_True by done.
    apply missing_fits; [apply HI|lia].
Qed.

Lemma alloc_run `{!KVConnectorLaws} k x :
  let rid := TextContext.request_id (Ctx.base x) in
  Sound k → allocatable k x →
  ∃ r b x', alloc (mk_world k x) = (r, mk_world (set_block_manager b k) x') ∧
    (∀ e, r = Ok e → Elsewhere (_block_manager k) b rid ∧ TextContext.request_id (Ctx.base x') = rid ∧
       provisioned (set_block_manager b k) (Ctx.base x') ∧
       slots k (Ctx.base x') = slots k (Ctx.base x) ∧ (fits k (Ctx.base x) → fits k (Ctx.base x'))).
Proof.
  intros rid HS [Hc Htok Hh Hroom Hs]. pose proof (sound_good _ HS) as HG.
  destruct (poll_elsewhere _ rid HG) as (m1 & E1 & L1 & Hsame).
  assert (BlockManager.block_size m1 = page_size (params k)) as Hbs1.
  { rewrite <- (sound_page _ HS). apply near_bs_config, L1. }
  unfold alloc. mstep (on_kv_run _ k x _ _ (on_blocks_run _ k _ _ E1)).
  destruct (reuse_elsewhere k m1 x) as (r2 & m2 & x2 & E2 & Hok2); fold rid; try done.
  { apply L1. } { by rewrite (el_replica _ _ _ L1). }
  { rewrite Hbs1. destruct (Hsame rid) as [_ ->]. done. }
  pose proof (on_request_run _ (set_block_manager m1 k) x _ _ _ E2) as E2'. unfold bind at 1. rewrite E2'.
  destruct r2 as [[skip e]|e]; [|by exists (Raise e), m2, x2]. destruct (Hok2 _ eq_refl) as [L2 HM].
  fold rid in L2. assert (Elsewhere (_block_manager k) m2 rid) as L12 by by eapply elsewhere_trans.
  pose proof (moved_rid _ _ HM) as Er2. fold rid in Er2. pose proof (moved_slots k _ _ HM (proj1 Htok)) as Es2.
  assert (is_Some (BlockManager.req_to_replica m2 !! rid)) as [i Hr2] by by rewrite (el_replica _ _ _ L12).
  rewrite <- Er2 in Hr2.
  destruct (allocate_elsewhere m2 x2 (num_draft_tokens (params k)) (num_draft_tokens_per_step (params k)) i)
    as (r3 & m3 & E3 & L3 & Hok3); [apply L12|done|]. rewrite Er2 in L3, Hok3.
  unfold bind at 1, get. simpl params.
  pose proof (on_request_run _ (set_block_manager m2 k) x2 _ _ _ E3) as E3'. unfold bind at 1.
  change (set_block_manager m2 (set_block_manager m1 k)) with (set_block_manager m2 k). rewrite E3'.
  assert (Elsewhere (_block_manager k) m3 rid) as L by by eapply elsewhere_trans.
  set (x3 := Ctx.set_base (with_spec (Ctx.base x2)) x2).
  assert (Ctx.base x3 = with_spec (Ctx.base x2)) as Eb3 by apply base_set_base.
  exists (match r3 with Ok _ => Ok e | Raise e' => Raise e' end), m3, x3.
  split; [by destruct r3|]. intros e' He. split; [done|]. split; [by rewrite Eb3|].
  destruct r3 as [u|]; [|done]. injection He as <-.
  assert (slots k (Ctx.base x3) = slots k (Ctx.base x2)) as Es3 by (rewrite Eb3; apply slots_with_spec).
  specialize (Hok3 u eq_refl). rewrite (near_bs_config _ _ (proj2 (el_goes _ _ _ L12))) in Hok3.
  split; [|split; [congruence|]].
  - split; unfold held; simpl; change (slots (set_block_manager m3 k)) with (slots k);
      rewrite ?Es3, ?Es2; [|done|].
    + rewrite Eb3. simpl. rewrite Er2, (el_replica _ _ _ L). done.
    + rewrite Eb3. simpl. rewrite Er2, <- Es2, <- (sound_page _ HS). exact Hok3.
  - intros Hf. pose proof (moved_fits k _ _ HM Hf) as Hf2. rewrite Eb3. by destruct Hf2.
Qed.

(** *** A batch of allocations *)
Definition alloc_one (x : Ctx.t B) : M t (Ctx.t B) := λ k,
  let '(r, w) := alloc (mk_world k x) in
  (match r with Ok _ => Ok (ctx w) | Raise e => Raise e end, kv w).
Definition alloc_batch (xs : list (Ctx.t B)) : M t (list (Ctx.t B)) := for_map xs alloc_one.

Definition rid_of (x : Ctx.t B) : Z := TextContext.request_id (Ctx.base x).

Lemma allocatable_elsewhere k b rid x :
  Elsewhere (_block_manager k) b rid → rid_of x ≠ rid → allocatable k x → allocatable (set_block_manager b k) x.
Proof.
  intros L Hne [A1 A2 A3 A4 A5]. split; simpl; try done.
  - by rewrite (el_replica _ _ _ L).
  - destruct (el_others _ _ _ L _ Hne) as [_ Eh]. unfold rid_of in Eh. by rewrite Eh.
Qed.

Lemma provisioned_elsewhere k b rid c :
  Elsewhere (_block_manager k) b rid → TextContext.request_id c ≠ rid →
  provisioned k c → provisioned (set_block_manager b k) c.
Proof.
  intros L Hne [P1 P2 P3]. split; simpl; try done.
  - by rewrite (el_replica _ _ _ L).
  - unfold held in *. simpl. by rewrite (proj1 (el_others _ _ _ L _ Hne)).
Qed.

Lemma alloc_batch_run `{!KVConnectorLaws} xs k xs' k' :
  Sound k → NoDup (map rid_of xs) → Forall (allocatable k) xs → alloc_batch xs k = (Ok xs', k') →
  ∃ b, k' = set_block_manager b k ∧ Sound k' ∧ map rid_of xs' = map rid_of xs ∧
    Forall (λ x', provisioned k' (Ctx.base x')) xs' ∧
    map (λ x, slots k (Ctx.base x)) xs' = map (λ x, slots k (Ctx.base x)) xs ∧
    (Forall (λ x, fits k (Ctx.base x)) xs → Forall (λ x, fits k (Ctx.base x)) xs') ∧
    BlockManager.req_to_replica b = BlockManager.req_to_replica (_block_manager k) ∧
    (∀ c, TextContext.request_id c ∉ map rid_of xs → held k' c = held k c).
Proof.
  revert k xs'. induction xs as [|x xs IH]; intros k xs' HS Hnd Hal E.
  { injection E as <- <-. exists (_block_manager k). by destruct k. }
  apply NoDup_cons in Hnd as [Hx Hnd]. apply Forall_cons in Hal as [Ha Hal].
  destruct (alloc_run k x HS Ha) as (r & b & x' & Er & Hok).
  unfold alloc_batch in E. simpl in E. unfold bind at 1, alloc_one at 1 in E. rewrite Er in E. simpl in E.
  destruct r as [e|]; [|done]. destruct (Hok e eq_refl) as (L & Erid & Hp & Hs & Hf).
  pose proof (sound_goes k b HS (el_goes _ _ _ L)) as HS1. set (k1 := set_block_manager b k) in *.
  unfold bind at 1 in E. destruct (for_map xs alloc_one k1) as [[ys|] k2] eqn:E2; [|done].
  injection E as <- <-. fold (rid_of x) in Hx, Erid, L.
  destruct (IH k1 ys HS1 Hnd) as (b2 & -> & HS2 & Hr2 & Hp2 & Hs2 & Hf2 & Hrr & Hh2); [|done|].
  { apply Forall_forall. intros y Hy. eapply allocatable_elsewhere; [exact L| |].
    - intros Heq. apply Hx. rewrite <- Heq. by apply list_elem_of_fmap_2.
    - by apply (proj1 (Forall_forall _ _) Hal). }
  exists b2. assert (TextContext.request_id (Ctx.base x') ∉ map rid_of xs) as Hx' by by rewrite Erid.
  split_and!; [done|done| | | | | |].
  - simpl. unfold rid_of at 1 3. rewrite Erid. f_equal. exact Hr2.
  - apply Forall_cons. split; [|exact Hp2]. destruct Hp as [P1 P2 P3]. split; simpl; [|done|].
    + by rewrite Hrr.
    + rewrite (Hh2 _ Hx'). exact P3.
  - simpl. rewrite Hs. f_equal. exact Hs2.
  - intros [Hfx Hfs]%Forall_cons. apply Forall_cons. split; [by apply Hf|]. by apply Hf2.
  - rewrite Hrr. apply L.
  - intros c [Hc1 Hc2]%not_elem_of_cons. rewrite Hh2 by done. unfold held. simpl.
    by apply (el_others _ _ _ L).
Qed.

Lemma length_zrange a b : length (zrange a b) = Z.to_nat (b - a).
Proof. unfold zrange. by rewrite length_fmap, length_seq. Qed.

Lemma map_constant {X Y} (y : Y) (l : list X) : map (λ _, y) l = repeat y (length l).
Proof. induction l as [|x l IH]; [done|]. simpl. by rewrite IH. Qed.

(** A method that answers the same and changes nothing, called once per element. *)
Lemma for_map_same {S X Y} (l : list X) (g : X → M S Y) (y : Y) (s : S) :
  (∀ x, x ∈ l → g x s = (Ok y, s)) → for_map l g s = (Ok (repeat y (length l)), s).
Proof.
  induction l as [|x l IH]; intros Hg; [done|]. simpl. mstep (Hg x (list_elem_of_here _ _)).
  rewrite (bind_run _ _ _ _ _ (IH (λ z Hz, Hg z (list_elem_of_further _ _ _ Hz)))). done.
Qed.

(** Counting reads the first pool only, and changes nothing. *)
Lemma count_hits_run (l : list bytes) (m : BlockManager.t) p0 :
  ∃ h, ∀ rest, BlockManager.count_cached_prefix_blocks l (BlockManager.set_pools (p0 :: rest) m) =
    (Ok h, BlockManager.set_pools (p0 :: rest) m).
Proof.
  unfold BlockManager.count_cached_prefix_blocks. unfold bind at 1, get. simpl.
  destruct (BlockManager.enable_prefix_caching m); simpl; [|by eexists].
  exists (let n := if BlockManager._only_use_kv_connector_last_level_cache m then 0 else BlockManager.cached_run p0 l in
    let '(x, y) := if bool_decide (slice_from l n = []) then (0, 0)
                   else count_cached_prefix (slice_from l n) (BlockManager.connector m) in
    PrefixCacheHits.mk n x y).
  intros rest. destruct (BlockManager._only_use_kv_connector_last_level_cache m).
  - unfold bind, ret. by destruct (if bool_decide _ then _ else _).
  - unfold BlockManager.device_block_pool, BlockManager.pool_at, bind at 1.
    erewrite bind_run by (apply (on_pool_run 0 get _ p0 (Ok p0) p0); done). unfold ret. simpl.
    by destruct (if bool_decide _ then _ else _).
Qed.

(** A batch whose requests were all allocated can be run. *)
Lemma allocated_runnable `{!KVConnectorLaws} k xs xs' k' i :
  Sound k → NoDup (map rid_of xs) → Forall (allocatable k) xs →
  Forall (λ x, fits k (Ctx.base x)) xs →
  Forall (λ x, slots k (Ctx.base x) ≤ effective_max_seq_length k) xs →
  0 ≤ i < data_parallel_degree (params k) → len xs ≤ _max_batch_size k → _total_num_pages k < 2 ^ 32 →
  alloc_batch xs k = (Ok xs', k') → Runnable k' i (map Ctx.base xs') None ∧ len xs' = len xs.
Proof.
  intros HS Hnd Hal Hf Hmax Hi Hb Ht E.
  destruct (alloc_batch_run xs k xs' k' HS Hnd Hal E) as (b & -> & HS' & Hr & Hp & Hs & Hf' & _).
  assert (len xs' = len xs) as Hlen.
  { unfold len. by rewrite <- (length_map rid_of xs'), Hr, length_map. }
  pose proof (sound_positive k HS) as Hps. split; [|done]. split; simpl; try done.
  - unfold len in *. rewrite length_map. lia.
  - by apply Forall_map.
  - apply Forall_map. by apply Hf'.
  - change (table_pages k (map Ctx.base xs') None ≤ _total_num_pages k). apply slots_table_pages; [done|..].
    + rewrite <- (sound_pages k HS). apply (inv_total _ (sound_inv k HS)).
    + apply Forall_map, (Forall_map (λ x, slots k (Ctx.base x)) (λ z, z ≤ effective_max_seq_length k)).
      rewrite Hs. by apply Forall_map.
Qed.

End Facts.
End CacheFacts.

(** ** The theorems *)
Module CacheProperties.
Import Ownership Trace PagedKVCacheManager CacheFacts.

Section Statements.
Context `{Digest} {B : Backend} `{KVConnector} `{Driver}.
Implicit Types k : t.

(** C29: a batch whose requests were all allocated can always be run. Allocate blocks
    for distinct claimed requests one after the other (each call polls transfers,
    reuses cached prefixes, possibly moving the request's tokens, and takes new
    blocks); if every call returned, building the kernels' inputs for that batch
    raises nothing - neither "does not have sufficient blocks" nor a capacity error -
    as long as the batch fits the configured batch size and each sequence fits in the
    cache. Whatever the connector: its loads may complete at once or later. *)
Theorem allocated_batch_runs `{!KVConnectorLaws} k xs xs' k' i :
  Sound k → NoDup (map rid_of xs) → Forall (allocatable k) xs →
  Forall (λ x, fits k (Ctx.base x)) xs →
  Forall (λ x, slots k (Ctx.base x) ≤ effective_max_seq_length k) xs →
  0 ≤ i < data_parallel_degree (params k) → len xs ≤ _max_batch_size k → _total_num_pages k < 2 ^ 32 →
  alloc_batch xs k = (Ok xs', k') →
  ∃ a k2, _compute_kv_cache_assignments i (map Ctx.base xs') None None k' = (Ok a, k2) ∧ Sound k2 ∧
    len (lookup_table a) = len xs ∧ len (cache_lengths a) = len xs.
Proof.
  intros HS Hnd Hal Hf Hmax Hi Hb Ht E.
  destruct (allocated_runnable k xs xs' k' i HS Hnd Hal Hf Hmax Hi Hb Ht E) as [HR Hlen].
  destruct (assignments_run k' i (map Ctx.base xs') None HR) as (a & k2 & Ea & HS2 & Hl & Hc & _).
  exists a, k2. split_and!; [done|done|rewrite Hl|rewrite Hc]; unfold len in *; rewrite !length_map; lia.
Qed.

(** The kernels may read the lookup table without a bounds check. For a batch that
    can be run, every request gets a row whose width is a multiple of eight; the entry of
    each page its sequence needs is the block the request holds there, a block of the
    device; and from any page of the table a kernel may read a tile of sixteen entries:
    each is there and is a block of the device or the number past the last one, which
    stands for "no block". *)
Theorem lookup_table_in_bounds `{!KVConnectorLaws} k i batch n :
  Runnable k i batch n →
  ∃ a k', _compute_kv_cache_assignments i batch n None k = (Ok a, k') ∧
    ∀ j c, batch !! j = Some c → ∃ row, lookup_table a !! j = Some row ∧
      len row mod 8 = 0 ∧
      (∀ q, 0 ≤ q < pages k c → ∃ r, row !! Z.to_nat q = Some r ∧ held k c !! Z.to_nat q = Some r ∧
         0 ≤ r < _total_num_pages k) ∧
      (∀ q d, 0 ≤ q < table_pages k batch n → 0 ≤ d < 16 → ∃ r, row !! Z.to_nat (q + d) = Some r ∧
         0 ≤ r ≤ _total_num_pages k).
Proof.
  intros HR. pose proof (assignments_run k i batch n HR) as Hrun. cbv zeta in Hrun.
  destruct Hrun as (a & k' & E & _ & Hl & _). exists a, k'. split; [exact E|]. intros j c Hj.
  set (cols := _padded_lut_cols (table_pages k batch n)) in *.
  exists (row_of k cols c). split; [by rewrite Hl, list_lookup_fmap, Hj|].
  pose proof (list_elem_of_lookup_2 _ _ _ Hj) as Hin. pose proof (rn_sound _ _ _ _ HR) as HS.
  pose proof (proj1 (Forall_forall _ _) (rn_provisioned _ _ _ _ HR) c Hin) as Hpv.
  pose proof (pages_held k c HS Hpv) as Hph. pose proof (table_covers k i batch n c HR Hin) as Hcov.
  destruct (padded_cols_spec (table_pages k batch n)) as [H8 Hc]. fold cols in H8, Hc.
  assert (∀ q r, held k c !! q = Some r → 0 ≤ r < _total_num_pages k) as Hreal.
  { intros q r Hq. destruct (pv_claimed _ _ Hpv) as [i' Hr].
    rewrite <- (sound_pages k HS). apply list_elem_of_lookup_2 in Hq. by eapply blks_real; [apply sound_inv|..]. }
  assert (len (row_of k cols c) = cols) as Hlen.
  { unfold row_of, len in *. rewrite length_app, length_take, repeat_length. lia. }
  split; [by rewrite Hlen|]. split.
  - intros q Hq. destruct (lookup_lt_is_Some_2 (held k c) (Z.to_nat q)) as [r Hr]; [unfold len in *; lia|].
    exists r. split_and!; [|done|by eapply Hreal|by eapply Hreal].
    unfold row_of. apply lookup_app_l_Some. by rewrite lookup_take_lt by lia.
  - intros q d Hq Hd. destruct (lookup_lt_is_Some_2 (row_of k cols c) (Z.to_nat (q + d))) as [r Hr].
    { unfold len in *. lia. }
    exists r. split; [exact Hr|]. unfold row_of in Hr. apply lookup_app_Some in Hr as [Hr|[_ Hr]].
    + apply lookup_take_Some in Hr as [Hr _]. pose proof (Hreal _ _ Hr). lia.
    + apply list_elem_of_lookup_2, list_elem_of_In, repeat_spec in Hr. pose proof (inv_total _ (sound_inv k HS)) as Ht.
      rewrite (sound_pages k HS) in Ht. lia.
Qed.

(** What one replica reports about its prefix cache is what every replica reports.
    The hit counts are computed from the first replica's pool alone: whatever the pools
    of the other replicas hold, the answer is the same, one value repeated. *)
Theorem hit_counts_ignore_the_replica k (x : Ctx.t B) p0 :
  ∃ o : outcome (list PrefixCacheHits.t),
    (∀ rest, (get_prefix_cache_hit_counts (mk_world
       (set_block_manager (BlockManager.set_pools (p0 :: rest) (_block_manager k)) k) x)).1 = o) ∧
    match o with
    | Ok hits => ∃ h, hits = repeat h (length hits) ∧
        length hits = Z.to_nat (data_parallel_degree (params k))
    | Raise _ => True
    end.
Proof.
  unfold get_prefix_cache_hit_counts.
  destruct (params_enable_prefix_caching (params k)) eqn:Ep.
  2:{ exists (Ok (map (λ _, PrefixCacheHits.mk 0 0 0) (zrange 0 (data_parallel_degree (params k))))).
      split; [intros rest; unfold bind at 1, get; simpl; by rewrite Ep|].
      exists (PrefixCacheHits.mk 0 0 0). by rewrite map_constant, repeat_length, length_zrange, Z.sub_0_r. }
  set (b := _block_manager k). set (f := BlockHashes.compute_block_hashes [] (BlockManager.block_size b)
    (BlockManager.kv_hash_algo b) (BlockManager.kv_hash_seed b)).
  destruct (f x) as [[hs|e] x'] eqn:Ef.
  - destruct (count_hits_run hs b p0) as [h Hh].
    exists (Ok (repeat h (Z.to_nat (data_parallel_degree (params k))))). split.
    + intros rest. unfold bind at 1, get. simpl. rewrite Ep. simpl.
      erewrite bind_run; [|unfold on_request, BlockManager.on_ctx, zoom; simpl; fold b; fold f; by rewrite Ef].
      cbv beta. erewrite (for_map_same _ _ h); [by rewrite length_zrange, Z.sub_0_r|].
      intros y _. unfold on_kv, on_blocks, zoom. simpl. by rewrite Hh.
    + exists h. by rewrite repeat_length.
  - exists (Raise e). split; [|done]. intros rest. unfold bind at 1, get. simpl. rewrite Ep. simpl.
    unfold bind at 1, on_request, BlockManager.on_ctx, zoom. simpl. fold b; fold f. by rewrite Ef.
Qed.

End Statements.

(** *** A cache of six two-token pages serving two requests with one prompt *)
#[local] Existing Instance HashProperties.toy_digest.
#[local] Existing Instance recording_backend.
Import ManagerProperties.

Definition two_claimed : t :=
  mk _ _ (kv_cache_params 1 1 2 true BlockHash.ahash64 None 0 0 false) 6 4
    (replay [Claim 0 0; Claim 1 0] empty_manager).

Definition prompts : list (Ctx.t recording_backend) := [prompt 0 0; prompt 1 0].

Lemma two_claimed_sound : Sound two_claimed.
Proof.
  split; [|vm_compute; reflexivity..]. apply goes_replay; [exact empty_good|].
  split; [vm_compute; done|]. split; [vm_compute; done|exact I].
Qed.

Lemma prompts_allocatable : Forall (allocatable two_claimed) prompts.
Proof.
  assert (∀ rid, rid = 0 ∨ rid = 1 → allocatable two_claimed (prompt rid 0)) as Hall.
  { intros rid [-> | ->]; (split; [vm_compute; by eexists|apply prompt_good; split; discriminate
      |vm_compute; discriminate|vm_compute; reflexivity|vm_compute; discriminate]). }
  apply Forall_cons; split; [apply Hall; by left|]. apply Forall_cons; split; [apply Hall; by right|].
  by apply Forall_nil.
Qed.

Lemma prompts_fit : Forall (λ x, fits two_claimed (Ctx.base x)) prompts.
Proof.
  assert (∀ rid, fits two_claimed (Ctx.base (prompt rid 0))) as Hall.
  { intros rid. split; [apply (prompt_good rid 0); split; discriminate|]. split; [discriminate|].
    vm_compute. reflexivity. }
  apply Forall_cons; split; [apply Hall|]. apply Forall_cons; split; [apply Hall|]. by apply Forall_nil.
Qed.

(** The batch after its allocation. *)
Definition allocated : outcome (list (Ctx.t recording_backend)) * t := alloc_batch prompts two_claimed.
Lemma allocated_run : ∃ xs, alloc_batch prompts two_claimed = (Ok xs, allocated.2) ∧ len xs = 2.
Proof. eexists. split; [vm_compute; reflexivity|done]. Qed.

Lemma prompts_short : Forall (λ x, slots two_claimed (Ctx.base x) ≤ effective_max_seq_length two_claimed) prompts.
Proof. apply (bool_decide_unpack _). vm_compute. exact I. Qed.
Lemma prompts_distinct : NoDup (map rid_of prompts).
Proof. apply (bool_decide_unpack _). vm_compute. exact I. Qed.

Lemma allocated_batch_runs_witness : ∃ xs a k2, alloc_batch prompts two_claimed = (Ok xs, allocated.2) ∧
  _compute_kv_cache_assignments 0 (map Ctx.base xs) None None allocated.2 = (Ok a, k2) ∧ Sound k2 ∧
  len (lookup_table a) = 2 ∧ len (cache_lengths a) = 2.
Proof.
  destruct allocated_run as (xs & E & _).
  destruct (allocated_batch_runs two_claimed prompts xs allocated.2 0 two_claimed_sound prompts_distinct
    prompts_allocatable prompts_fit prompts_short) as (a & k2 & Hrest).
  - split; [discriminate|reflexivity].
  - vm_compute. discriminate.
  - vm_compute. reflexivity.
  - exact E.
  - exists xs, a, k2. split; [exact E|exact Hrest].
Defined.

Lemma allocated_can_run : ∃ xs, alloc_batch prompts two_claimed = (Ok xs, allocated.2) ∧
  Runnable allocated.2 0 (map Ctx.base xs) None.
Proof.
  destruct allocated_run as (xs & E & _). exists xs. split; [exact E|].
  apply (allocated_runnable two_claimed prompts xs allocated.2 0 two_claimed_sound prompts_distinct
    prompts_allocatable prompts_fit prompts_short); [split; [discriminate|reflexivity]|vm_compute; discriminate
    |vm_compute; reflexivity|exact E].
Qed.

Lemma lookup_table_in_bounds_witness : ∃ xs a k',
  alloc_batch prompts two_claimed = (Ok xs, allocated.2) ∧
  _compute_kv_cache_assignments 0 (map Ctx.base xs) None None allocated.2 = (Ok a, k').
Proof.
  destruct allocated_can_run as (xs & E & HR).
  destruct (lookup_table_in_bounds allocated.2 0 (map Ctx.base xs) None HR) as (a & k' & Ea & _).
  exists xs, a, k'. split; [exact E|exact Ea].
Defined.

End CacheProperties.
