(* ===== verification/Budget.v ===== *)
(** * Token budgets (serve/scheduler/batch_constructor/token_budget.py)

    How many tokens a batch may hold: a budget on the active tokens of a step, which
    may cut the last request short, and a budget on the total context resident in the
    batch. A context counts through its token buffer alone, which a budget may chunk. *)

From S2P Require Import Prelude Tokens.

Inductive RequestType := TG | CE | MIXED | UNKNOWN.
#[export] Instance RequestType_eq_dec : EqDecision RequestType.
Proof. solve_decision. Defined.

(** [RequestType.all] *)
Definition all_request_types : list RequestType := [TG; CE; MIXED].

Inductive BudgetStatus := BUDGET_AVAILABLE | BUDGET_EXHAUSTED | BUDGET_REACHED.
#[export] Instance BudgetStatus_eq_dec : EqDecision BudgetStatus.
Proof. solve_decision. Defined.

(** ** The base class: what every budget keeps *)
Module TokenBudget.

Record t := mk {
  capacity : Z;
  allow_chunking : bool;
  applicable_types : list RequestType;
  min_chunk_tokens : Z;
  used : Z;
  active_request_type : RequestType
}.

Definition init (capacity : Z) (allow_chunking : bool) (applicable_types : list RequestType)
    (min_chunk_tokens : Z) : t :=
  mk capacity allow_chunking applicable_types min_chunk_tokens 0 UNKNOWN.

Definition remaining (b : t) : Z := capacity b - used b.
Definition applies (b : t) (r : RequestType) : bool := bool_decide (r ∈ applicable_types b).

Definition set_used (x : Z) (b : t) : t :=
  mk (capacity b) (allow_chunking b) (applicable_types b) (min_chunk_tokens b) x (active_request_type b).
Definition set_active_request_type (x : RequestType) (b : t) : t :=
  mk (capacity b) (allow_chunking b) (applicable_types b) (min_chunk_tokens b) (used b) x.

End TokenBudget.

(** ** The active tokens of a step *)
Module ActiveTokenBudget.
Import TokenBudget.

(** Reads the budget; may chunk the tokens. *)
Definition status_after_context (b : t) (request_type : RequestType) : M TokenBuffer.t BudgetStatus :=
  let! tokens := get in
  if negb (applies b (active_request_type b)) && negb (applies b request_type) then ret BUDGET_AVAILABLE else
  let tokens_remaining := remaining b in
  if tokens_remaining <=? 0 then ret BUDGET_EXHAUSTED else
  let active_length := TokenBuffer.active_length tokens in
  if active_length =? tokens_remaining then ret BUDGET_REACHED else
  if active_length <? tokens_remaining then ret BUDGET_AVAILABLE else
  if negb (allow_chunking b) then ret BUDGET_REACHED else
  let chunk_size :=
    if (min_chunk_tokens b >? 0) && (active_length - tokens_remaining <? min_chunk_tokens b)
    then active_length - min_chunk_tokens b else tokens_remaining in
  if (min_chunk_tokens b >? 0) && (chunk_size <? min_chunk_tokens b) then ret BUDGET_EXHAUSTED else
  catch (TokenBuffer.chunk chunk_size;; ret BUDGET_REACHED)
    (λ e, if decide (e = ValueError) then Some (ret BUDGET_EXHAUSTED) else None).

Definition add_to_budget (tokens : TokenBuffer.t) (request_type : RequestType) (b : t) : t :=
  let b :=
    if bool_decide (active_request_type b ≠ MIXED) && bool_decide (request_type ≠ active_request_type b)
    then set_active_request_type request_type b else b in
  set_used (used b + TokenBuffer.active_length tokens) b.

End ActiveTokenBudget.

(** ** The whole context of a batch *)
Module TotalContextTokenBudget.
Import TokenBudget.

Definition align_up (x align : Z) : outcome Z :=
  if align =? 0 then Raise ZeroDivisionError else Ok ((x + align - 1) / align * align).

Definition status_after_context (b : t) (cost_alignment : Z) (request_type : RequestType)
    : M TokenBuffer.t BudgetStatus :=
  let! tokens := get in
  if negb (applies b request_type) then ret BUDGET_AVAILABLE else
  let tokens_remaining := remaining b in
  if tokens_remaining <=? 0 then ret BUDGET_EXHAUSTED else
  let! total_length := of_outcome (align_up (TokenBuffer.length tokens) cost_alignment) in
  if total_length <? tokens_remaining then ret BUDGET_AVAILABLE else
  if total_length =? tokens_remaining then ret BUDGET_REACHED else
  ret BUDGET_EXHAUSTED.

Definition add_to_budget (tokens : TokenBuffer.t) (cost_alignment : Z) (b : t) : outcome t :=
  match align_up (TokenBuffer.length tokens) cost_alignment with
  | Ok cost => Ok (set_used (used b + cost) b)
  | Raise e => Raise e
  end.

End TotalContextTokenBudget.

(** ** A budget, and several of them *)
Inductive Budget :=
| Active (b : TokenBudget.t)
| TotalContext (b : TokenBudget.t) (cost_alignment : Z).

Module TokenBudgetCollection.

(** [token_budgets] *)
Definition t : Type := list Budget.

Definition base (b : Budget) : TokenBudget.t :=
  match b with Active b => b | TotalContext b _ => b end.

Definition status_of (b : Budget) (request_type : RequestType) : M TokenBuffer.t BudgetStatus :=
  match b with
  | Active b => ActiveTokenBudget.status_after_context b request_type
  | TotalContext b a => TotalContextTokenBudget.status_after_context b a request_type
  end.

Definition add_to (tokens : TokenBuffer.t) (request_type : RequestType) (b : Budget) : outcome Budget :=
  match b with
  | Active b => Ok (Active (ActiveTokenBudget.add_to_budget tokens request_type b))
  | TotalContext b a =>
      match TotalContextTokenBudget.add_to_budget tokens a b with
      | Ok b => Ok (TotalContext b a)
      | Raise e => Raise e
      end
  end.

Definition remaining (l : t) : outcome Z :=
  match l with
  | [] => Raise ValueError
  | b :: l => Ok (foldl (λ x b, Z.min x (TokenBudget.remaining (base b)))
                        (TokenBudget.remaining (base b)) l)
  end.

Fixpoint status_after_context (l : t) (request_type : RequestType) : M TokenBuffer.t BudgetStatus :=
  match l with
  | [] => ret BUDGET_AVAILABLE
  | b :: l =>
      let! status := status_of b request_type in
      if decide (status = BUDGET_AVAILABLE) then status_after_context l request_type else ret status
  end.

(** Charge the budgets in turn: one that raises leaves the earlier ones charged. *)
Fixpoint add_to_budget (tokens : TokenBuffer.t) (request_type : RequestType) : M t unit := λ l,
  match l with
  | [] => (Ok tt, [])
  | b :: l =>
      match add_to tokens request_type b with
      | Raise e => (Raise e, b :: l)
      | Ok b => let '(r, l) := add_to_budget tokens request_type l in (r, b :: l)
      end
  end.

End TokenBudgetCollection.

(** ** Facts *)
Module BudgetFacts.
Import TokenBudget.

(** A cut of [active] tokens the budget allows: it fits, leaves something over, and no
    piece is below the floor. *)
Definition legal_cut (b : t) (active n : Z) : Prop :=
  1 ≤ n ≤ remaining b ∧ n < active ∧
  (0 < min_chunk_tokens b → min_chunk_tokens b ≤ n ∧ min_chunk_tokens b ≤ active - n).

Lemma chunked_length n b :
  TokenBuffer.wf b → 0 ≤ n →
  TokenBuffer.active_length (TokenBuffer.set_chunked true (TokenBuffer.set_processing
    (Range.mk (TokenBuffer.processed_length b)
       (TokenBuffer.processed_length b + TokenBuffer._processing_offset b + n)) b)) = n.
Proof.
  intros Hwf Hn. pose proof (TokenBuffer.wf_offset _ Hwf).
  unfold TokenBuffer.active_length, Range.length. simpl. lia.
Qed.

(** What the active budget answers, branch by branch. *)
Lemma active_status_cases b rt tokens :
  TokenBuffer.wf tokens → applies b (active_request_type b) = true ∨ applies b rt = true →
  let active := TokenBuffer.active_length tokens in
  let run := ActiveTokenBudget.status_after_context b rt tokens in
  (run = (Ok BUDGET_AVAILABLE, tokens) ∧ active < remaining b) ∨
  (run = (Ok BUDGET_REACHED, tokens) ∧ 0 < remaining b ≤ active ∧
     (active = remaining b ∨ allow_chunking b = false)) ∨
  (∃ n, run = (Ok BUDGET_REACHED, TokenBuffer.set_chunked true (TokenBuffer.set_processing
           (Range.mk (TokenBuffer.processed_length tokens)
              (TokenBuffer.processed_length tokens + TokenBuffer._processing_offset tokens + n)) tokens)) ∧
     allow_chunking b = true ∧ remaining b < active ∧
     legal_cut b active n ∧ ∀ k, legal_cut b active k → k ≤ n) ∨
  (run = (Ok BUDGET_EXHAUSTED, tokens) ∧
     (remaining b ≤ 0 ∨ allow_chunking b = true ∧ remaining b < active ∧ ∀ k, ¬ legal_cut b active k)).
Proof.
  intros Hwf Happ. cbv zeta. unfold ActiveTokenBudget.status_after_context, bind, get. cbv beta.
  replace (negb _ && negb _) with false by (destruct Happ as [-> | ->]; by destruct (applies _ _)).
  set (a := TokenBuffer.active_length tokens). unfold legal_cut.
  destruct (remaining b <=? 0) eqn:E0; [right; right; right; split; [done|lia]|].
  destruct (a =? remaining b) eqn:E1; [right; left; split; [done|split; [lia|left; lia]]|].
  destruct (a <? remaining b) eqn:E2; [left; split; [done|lia]|].
  destruct (allow_chunking b) eqn:Ea; simpl; [|right; left; split; [done|split; [lia|by right]]].
  set (n := if (_ >? 0) && (a - _ <? _) then _ else _).
  destruct ((min_chunk_tokens b >? 0) && (n <? min_chunk_tokens b)) eqn:E3.
  { right; right; right. split; [done|]. right. split_and!; [done|lia|]. intros k (Hk & Hka & Hm).
    unfold n in E3. destruct ((min_chunk_tokens b >? 0) && _) eqn:E4; lia. }
  assert (n <= remaining b ∧ 1 ≤ n ∧ n < a) as (Hn1 & Hn2 & Hn3).
  { unfold n in *. destruct ((min_chunk_tokens b >? 0) && (a - _ <? _)) eqn:E4; lia. }
  right; right; left. exists n. split_and!; try lia; try done.
  - unfold catch. rewrite (TokenBuffer.chunk_run n tokens Hwf).
    fold a. replace ((0 <? n) && (n <? a)) with true by lia. done.
  - unfold n in *. destruct ((min_chunk_tokens b >? 0) && (a - _ <? _)) eqn:E4; lia.
  - intros k (Hk & Hka & Hm). unfold n in *.
    destruct ((min_chunk_tokens b >? 0) && (a - _ <? _)) eqn:E4; lia.
Qed.

(** A budget that may chunk is not overspent by a request it admits. *)
Lemma active_not_overspent b rt tokens status tokens' :
  TokenBuffer.wf tokens → applies b (active_request_type b) = true ∨ applies b rt = true →
  allow_chunking b = true → status ≠ BUDGET_EXHAUSTED →
  ActiveTokenBudget.status_after_context b rt tokens = (Ok status, tokens') →
  TokenBuffer.active_length tokens' ≤ remaining b ∧
  (status = BUDGET_AVAILABLE → TokenBuffer.active_length tokens' < remaining b ∧ tokens' = tokens).
Proof.
  intros Hwf Happ Hc Hs E.
  destruct (active_status_cases b rt tokens Hwf Happ) as [[E' ?]|[(E' & ? & Ho)|[(n & E' & _ & ? & Hn & _)|[E' ?]]]];
    rewrite E' in E; injection E as <- <-; try done.
  - split; [lia|done].
  - split; [destruct Ho; [lia|congruence]|done].
  - destruct Hn as (? & ? & _). rewrite chunked_length by (done || lia). split; [lia|done].
Qed.

Lemma align_up_run x a : 0 < a →
  ∃ c, TotalContextTokenBudget.align_up x a = Ok c ∧ x ≤ c < x + a ∧ c mod a = 0.
Proof.
  intros Ha. unfold TotalContextTokenBudget.align_up. replace (a =? 0) with false by lia.
  eexists. split; [done|]. pose proof (Z.div_mod (x + a - 1) a). pose proof (Z.mod_pos_bound (x + a - 1) a).
  split; [lia|]. by apply Z.mod_mul; lia.
Qed.

End BudgetFacts.

(** ** The theorems *)
Module BudgetProperties.
Import TokenBudget BudgetFacts.

(** Where the active-token budget cuts a request. Of a request that exceeds what
    is left of the budget, chunked prefill admits the largest piece that fits, leaves
    something over, and leaves neither piece below the floor; if no cut does, the
    request is refused with its tokens untouched. A request that fits is never cut, and
    a request is refused for no other reason than a spent budget. *)
Theorem chunk_is_largest_legal_cut b rt tokens :
  TokenBuffer.wf tokens → applies b rt = true → allow_chunking b = true →
  let active := TokenBuffer.active_length tokens in
  ∃ status tokens', ActiveTokenBudget.status_after_context b rt tokens = (Ok status, tokens') ∧
    match status with
    | BUDGET_AVAILABLE => tokens' = tokens ∧ active < remaining b
    | BUDGET_REACHED =>
        0 < remaining b ∧
        (tokens' = tokens ∧ active = remaining b ∨
         remaining b < active ∧ TokenBuffer.actively_chunked tokens' = true ∧
         TokenBuffer.processed_length tokens' = TokenBuffer.processed_length tokens ∧
         TokenBuffer.all tokens' = TokenBuffer.all tokens ∧
         legal_cut b active (TokenBuffer.active_length tokens') ∧
         (∀ k, legal_cut b active k → k ≤ TokenBuffer.active_length tokens'))
    | BUDGET_EXHAUSTED =>
        tokens' = tokens ∧ (remaining b ≤ 0 ∨ remaining b < active ∧ ∀ k, ¬ legal_cut b active k)
    end.
Proof.
  intros Hwf Happ Hc active.
  destruct (active_status_cases b rt tokens Hwf (or_intror Happ))
    as [[E ?]|[(E & ? & Ho)|[(n & E & _ & ? & Hn & Hmax)|[E Ho]]]]; rewrite E.
  - by eexists _, _.
  - eexists _, _. split; [done|]. split; [lia|]. left. split; [done|]. destruct Ho; [done|congruence].
  - eexists _, _. split; [done|]. assert (0 ≤ n) as H0 by (destruct Hn; lia).
    rewrite (chunked_length n tokens Hwf H0). split; [by destruct Hn; lia|]. right. by split_and!.
  - eexists _, _. split; [done|]. split; [done|]. destruct Ho as [?|(_ & ? & ?)]; [by left|by right].
Qed.

(** The total-context limit does not bind once the active budget is reached. A
    request that reaches the active budget is admitted by the collection without the
    total-context budget being asked, then charged to it all the same: the limit on the
    tokens resident in a batch is exceeded, by any amount. *)
Theorem total_limit_bypassed a c al rt tokens :
  TokenBuffer.wf tokens → applies a rt = true → min_chunk_tokens a = 0 → 0 < al →
  0 < remaining a ≤ TokenBuffer.active_length tokens →
  remaining c < TokenBuffer.length tokens →
  ∃ tokens' a' c', TokenBudgetCollection.status_after_context [Active a; TotalContext c al] rt tokens
      = (Ok BUDGET_REACHED, tokens') ∧
    TokenBudgetCollection.add_to_budget tokens' rt [Active a; TotalContext c al]
      = (Ok tt, [Active a'; TotalContext c' al]) ∧
    capacity c' < used c'.
Proof.
  intros Hwf Happ Hmin Hal Hrem Hover.
  assert (∃ tokens', ActiveTokenBudget.status_after_context a rt tokens = (Ok BUDGET_REACHED, tokens') ∧
    TokenBuffer.all tokens' = TokenBuffer.all tokens) as (tokens' & E & Hall).
  { destruct (active_status_cases a rt tokens Hwf (or_intror Happ))
      as [[E ?]|[(E & ? & Ho)|[(n & E & _)|[E Ho]]]]; [lia|by eexists|by eexists|].
    destruct Ho as [?|(_ & ? & Hno)]; [lia|]. destruct (Hno (remaining a)). split; lia. }
  destruct (align_up_run (TokenBuffer.length tokens') al Hal) as (cost & Ec & Hcost & _).
  eexists tokens', _, _. split; [|split].
  - simpl. by mstep E.
  - simpl. unfold TotalContextTokenBudget.add_to_budget. by rewrite Ec.
  - unfold remaining, TokenBuffer.length in *. simpl. rewrite Hall in *. lia.
Qed.

Definition long_prompt : TokenBuffer.t :=
  TokenBuffer.mk (repeat 1 100) (Range.mk 0 100) 0 (Range.mk 100 100) 100 100 false.
Lemma long_prompt_wf : TokenBuffer.wf long_prompt.
Proof. split; vm_compute; (done || discriminate || reflexivity). Qed.

Lemma chunk_is_largest_legal_cut_witness :
  ∃ status tokens', ActiveTokenBudget.status_after_context (init 90 true all_request_types 20) CE long_prompt
    = (Ok status, tokens') ∧ TokenBuffer.active_length tokens' = 80.
Proof.
  destruct (chunk_is_largest_legal_cut (init 90 true all_request_types 20) CE long_prompt long_prompt_wf)
    as (status & tokens' & E & _); [reflexivity|reflexivity|].
  exists status, tokens'. split; [exact E|]. vm_compute in E. injection E as _ <-. vm_compute. reflexivity.
Defined.

Lemma total_limit_bypassed_witness :
  ∃ tokens' a' c', TokenBudgetCollection.status_after_context
      [Active (init 4 true all_request_types 0); TotalContext (init 8 true [CE; MIXED] 0) 2] CE long_prompt
      = (Ok BUDGET_REACHED, tokens') ∧
    TokenBudgetCollection.add_to_budget tokens' CE
      [Active (init 4 true all_request_types 0); TotalContext (init 8 true [CE; MIXED] 0) 2]
      = (Ok tt, [Active a'; TotalContext c' 2]) ∧ capacity c' < used c'.
Proof.
  apply (total_limit_bypassed (init 4 true all_request_types 0) (init 8 true [CE; MIXED] 0) 2 CE long_prompt
    long_prompt_wf); [reflexivity|reflexivity|reflexivity|split; [reflexivity|discriminate]|reflexivity].
Defined.

End BudgetProperties.
