(* ===== verification/Dict.v ===== *)
(** * Python's [OrderedDict] (and [dict], which keeps insertion order too)

    [OrderedDict]: the entries of a dictionary, oldest first, with the operations the
    code uses. [OrderedIds]: the same for a dictionary from a request id to the request,
    where the id alone identifies the object. *)

From S2P Require Import Prelude.

Module OrderedDict.
Section Dict.
Context {K V : Type} `{EqDecision K}.
Implicit Types d : list (K * V).

Definition keys d : list K := d.*1.
Definition values d : list V := d.*2.

(** [d.get(k)] *)
Fixpoint lookup (k : K) d : option V :=
  match d with
  | [] => None
  | (k', v) :: d => if decide (k' = k) then Some v else lookup k d
  end.

(** [del d[k]] *)
Fixpoint delete (k : K) d : list (K * V) :=
  match d with
  | [] => []
  | (k', v) :: d => if decide (k' = k) then d else (k', v) :: delete k d
  end.

(** [d[k] = v]: an existing key keeps its place. *)
Fixpoint set (k : K) (v : V) d : list (K * V) :=
  match d with
  | [] => [(k, v)]
  | (k', v') :: d => if decide (k' = k) then (k, v) :: d else (k', v') :: set k v d
  end.

Definition move_to_end (k : K) (last : bool) d : outcome (list (K * V)) :=
  match lookup k d with
  | None => Raise KeyError
  | Some v => Ok (if last then delete k d ++ [(k, v)] else (k, v) :: delete k d)
  end.

(** [d.popitem(last=False)] *)
Definition popitem_first d : outcome ((K * V) * list (K * V)) :=
  match d with
  | [] => Raise KeyError
  | e :: d => Ok (e, d)
  end.

Lemma lookup_Some d k v : lookup k d = Some v → (k, v) ∈ d.
Proof.
  induction d as [|[k' v'] d IH]; [done|]. simpl. destruct (decide (k' = k)) as [->|].
  - intros [= ->]. by left.
  - intros E. right. by apply IH.
Qed.

Lemma lookup_keys d k : is_Some (lookup k d) ↔ k ∈ keys d.
Proof.
  induction d as [|[k' v'] d IH]; simpl.
  - split; [by intros [? ?]|intros Hk; by apply elem_of_nil in Hk].
  - rewrite elem_of_cons. destruct (decide (k' = k)) as [->|].
    + split; intros; [left; reflexivity|eexists; reflexivity].
    + rewrite IH. naive_solver.
Qed.

Lemma lookup_None d k : lookup k d = None ↔ k ∉ keys d.
Proof. rewrite <- lookup_keys. split; [by intros -> [? ?]|]. destruct (lookup k d); [|done]. by intros []. Qed.

Lemma lookup_delete_ne d k k' : k ≠ k' → lookup k (delete k' d) = lookup k d.
Proof.
  intros Hne. induction d as [|[k1 v1] d IH]; [done|]. simpl.
  destruct (decide (k1 = k')) as [->|]; simpl; [by rewrite decide_False by congruence|].
  by rewrite IH.
Qed.

Lemma lookup_set_ne d k k' v : k ≠ k' → lookup k (set k' v d) = lookup k d.
Proof.
  intros Hne. induction d as [|[k1 v1] d IH]; simpl; [by rewrite decide_False by congruence|].
  destruct (decide (k1 = k')) as [->|]; simpl; [by rewrite !(decide_False (P := k' = k)) by congruence|].
  by rewrite IH.
Qed.

Lemma delete_sublist d k : delete k d `sublist_of` d.
Proof.
  induction d as [|[k' v'] d IH]; [done|]. simpl. destruct (decide _); by constructor.
Qed.

Lemma delete_keys_sublist d k : keys (delete k d) `sublist_of` keys d.
Proof.
  induction d as [|[k' v'] d IH]; [done|]. simpl. destruct (decide _); by constructor.
Qed.

(** Deleting a key that occurs once removes its entry and nothing else. *)
Lemma delete_split d k v :
  NoDup (keys d) → lookup k d = Some v →
  ∃ d1 d2, d = d1 ++ (k, v) :: d2 ∧ delete k d = d1 ++ d2 ∧ k ∉ keys (d1 ++ d2).
Proof.
  induction d as [|[k' v'] d IH]; [done|]. simpl. intros [Hk' Hnd]%NoDup_cons.
  destruct (decide (k' = k)) as [->|Hne].
  - intros [= ->]. by exists [], d.
  - intros E. destruct (IH Hnd E) as (d1 & d2 & -> & -> & Hk). exists ((k', v') :: d1), d2.
    split_and!; [done|done|]. simpl. by rewrite not_elem_of_cons.
Qed.

Lemma delete_perm d k v :
  NoDup (keys d) → lookup k d = Some v → d ≡ₚ (k, v) :: delete k d.
Proof.
  intros Hnd E. destruct (delete_split d k v Hnd E) as (d1 & d2 & -> & -> & _).
  by rewrite Permutation_middle.
Qed.

Lemma set_new d k v : k ∉ keys d → set k v d = d ++ [(k, v)].
Proof.
  induction d as [|[k' v'] d IH]; [done|]. simpl. intros [Hne Hk]%not_elem_of_cons.
  rewrite decide_False by congruence. by rewrite IH.
Qed.

Lemma elem_of_keys_set d k v x : x ∈ keys (set k v d) → x = k ∨ x ∈ keys d.
Proof.
  destruct (decide (k ∈ keys d)) as [Hk|Hk].
  - replace (keys (set k v d)) with (keys d); [by right|]. symmetry. revert Hk. induction d as [|[k' v'] d IH]; simpl.
    + by intros ?%elem_of_nil.
    + rewrite elem_of_cons. intros Hk. destruct (decide (k' = k)) as [->|Hne]; [done|]. unfold keys in *. simpl. f_equal.
      apply IH. destruct Hk; [congruence|done].
  - rewrite set_new by done. unfold keys. rewrite fmap_app, elem_of_app. intros [Hx|Hx]; [by right|left]. by apply list_elem_of_singleton in Hx.
Qed.

Lemma keys_set_old d k v : k ∈ keys d → keys (set k v d) = keys d.
Proof.
  induction d as [|[k' v'] d IH]; simpl; [intros Hk; by apply elem_of_nil in Hk|].
  intros Hk. destruct (decide (k' = k)) as [->|Hne]; [done|]. simpl. f_equal. apply IH.
  apply elem_of_cons in Hk as [?|?]; congruence.
Qed.

End Dict.
End OrderedDict.

(** ** Dictionaries from ids to the objects they identify *)
Module OrderedIds.

(** [d[k] = v] *)
Definition push (k : Z) (q : list Z) : list Z := if decide (k ∈ q) then q else q ++ [k].
Definition remove (k : Z) (q : list Z) : list Z := filter (λ x, x ≠ k) q.
(** [d.move_to_end(k, last=False)], of a key that is there *)
Definition to_front (k : Z) (q : list Z) : list Z := k :: remove k q.

Lemma remove_notin k q : k ∉ q → remove k q = q.
Proof.
  induction q as [|x q IH]; [done|]. intros [Hne Hk]%not_elem_of_cons. unfold remove in *.
  rewrite filter_cons_True by congruence. by rewrite IH.
Qed.

Lemma remove_head k q : k ∉ q → remove k (k :: q) = q.
Proof.
  intros Hk. unfold remove. rewrite filter_cons_False by (intros Hne; by apply Hne). by apply remove_notin.
Qed.

Lemma remove_app k q1 q2 : remove k (q1 ++ q2) = remove k q1 ++ remove k q2.
Proof. apply filter_app. Qed.

Lemma elem_of_remove x k q : x ∈ remove k q ↔ x ≠ k ∧ x ∈ q.
Proof. unfold remove. by rewrite list_elem_of_filter. Qed.

Lemma push_new k q : k ∉ q → push k q = q ++ [k].
Proof. intros Hk. unfold push. by rewrite decide_False. Qed.

Lemma push_to_front k q : to_front k (push k q) = to_front k q.
Proof.
  unfold to_front, push. destruct (decide (k ∈ q)); [done|]. f_equal. rewrite remove_app. unfold remove at 2.
  rewrite filter_cons_False by (intros Hne; by apply Hne). by rewrite filter_nil, app_nil_r.
Qed.

Lemma elem_of_push x k q : x ∈ push k q ↔ x = k ∨ x ∈ q.
Proof. unfold push. destruct (decide (k ∈ q)); set_solver. Qed.

Lemma elem_of_to_front x k q : x ∈ to_front k q ↔ x = k ∨ x ∈ q.
Proof.
  unfold to_front. rewrite elem_of_cons, elem_of_remove. destruct (decide (x = k)); naive_solver.
Qed.

Lemma NoDup_remove k q : NoDup q → NoDup (remove k q).
Proof. apply NoDup_filter. Qed.

Lemma NoDup_to_front k q : NoDup q → NoDup (to_front k q).
Proof.
  intros Hq. constructor; [|by apply NoDup_remove]. rewrite elem_of_remove. naive_solver.
Qed.

Lemma NoDup_push k q : NoDup q → NoDup (push k q).
Proof.
  intros Hq. unfold push. destruct (decide (k ∈ q)); [done|]. apply NoDup_app.
  split_and!; [done| |apply NoDup_singleton]. intros x Hx ->%list_elem_of_singleton. done.
Qed.

(** A dictionary built from keys that may repeat. *)
Lemma elem_of_pushes x q l : x ∈ foldl (λ q k, push k q) q l ↔ x ∈ q ∨ x ∈ l.
Proof.
  revert q. induction l as [|k l IH]; intros q; simpl; [set_solver|]. rewrite IH, elem_of_push. set_solver.
Qed.

Lemma NoDup_pushes q l : NoDup q → NoDup (foldl (λ q k, push k q) q l).
Proof. revert q. induction l as [|k l IH]; intros q Hq; simpl; [done|]. by apply IH, NoDup_push. Qed.

End OrderedIds.
