(* ===== verification/Lora.v ===== *)
(** * LoRA adapters (pipelines/lora/lora.py, pipelines/lora/modulev3.py,
      serve/scheduler/lora_scheduler_utils.py)

    The adapters a server has loaded, the ones that hold a device slot (least recently
    used first), the scheduler's test for activating one more, and the routing of a
    batch to adapter slots. An adapter's weights are an abstract type; the device
    buffers packed from them and the graph's symbolic inputs are not modelled. *)

From Stdlib Require Import Ascii.
From stdpp Require Import sorting.
From S2P Require Import Prelude Dict.

(** ** The cache of active adapters ([_LoRALRUCache]) *)
Module LoRALRUCache.

Record t {V : Type} := mk {
  _cache : list (string * (V * Z));
  _max_size : Z;
  _free_slots : gset Z;
  _name_to_slot : gmap string Z
}.
Arguments t V : clear implicits.

Section Cache.
Context {V : Type}.
Implicit Types c : t V.

Definition init (max_size : Z) : t V := mk _ [] max_size (list_to_set (zrange 0 max_size)) ∅.

Definition contains (key : string) c : bool := bool_decide (key ∈ OrderedDict.keys (_cache c)).
Definition length c : Z := len (_cache c).

Definition set_cache (x : list (string * (V * Z))) c : t V :=
  mk _ x (_max_size c) (_free_slots c) (_name_to_slot c).
Definition set_free_slots (x : gset Z) c : t V := mk _ (_cache c) (_max_size c) x (_name_to_slot c).
Definition set_name_to_slot (x : gmap string Z) c : t V :=
  mk _ (_cache c) (_max_size c) (_free_slots c) x.

Definition move_to_end (key : string) : M (t V) unit :=
  let! c := get in
  let! d := of_outcome (OrderedDict.move_to_end key true (_cache c)) in
  modify (set_cache d).

Definition get_ (key : string) : M (t V) (option V * option Z) :=
  let! c := get in
  if negb (contains key c) then ret (None, None) else
  move_to_end key;;
  let! c := get in
  let! '(v, slot) := of_option KeyError (OrderedDict.lookup key (_cache c)) in
  ret (Some v, Some slot).

Definition get_slot (key : string) c : option Z := _name_to_slot c !! key.

Definition next_slot c : option Z :=
  match elements (_free_slots c) with
  | [] => None
  | s :: l => Some (foldl Z.min s l)
  end.

(** Evict the least recently used entry; its key and the slot it frees. *)
Definition evict_first : M (t V) (string * Z) :=
  let! c := get in
  let! '((evicted_key, (_, freed_slot)), rest) := of_outcome (OrderedDict.popitem_first (_cache c)) in
  modify (set_cache rest);;
  raise_if (bool_decide (_name_to_slot c !! evicted_key = None)) KeyError;;
  modify (set_name_to_slot (delete evicted_key (_name_to_slot c)));;
  modify (set_free_slots ({[ freed_slot ]} ∪ _free_slots c));;
  ret (evicted_key, freed_slot).

Definition put (key : string) (value : V) (slot : option Z) : M (t V) (option string * option Z) :=
  let! c := get in
  if contains key c then move_to_end key;; ret (None, None) else
  let! '(slot, evicted) :=
    (match slot with
     | Some slot => ret (Some slot, (None, None))
     | None =>
         match next_slot c with
         | Some slot => ret (Some slot, (None, None))
         | None =>
             if length c >=? _max_size c then
               let! '(evicted_key, freed_slot) := evict_first in
               ret (Some freed_slot, (Some evicted_key, Some freed_slot))
             else ret (None, (None, None))
         end
     end) in
  let! _ := (match slot with
     | None => ret tt
     | Some slot =>
         modify (λ c, set_cache (OrderedDict.set key (value, slot) (_cache c)) c);;
         modify (λ c, set_name_to_slot (<[key := slot]> (_name_to_slot c)) c);;
         modify (λ c, set_free_slots (_free_slots c ∖ {[ slot ]}) c)
     end) in
  ret evicted.

Definition remove (key : string) : M (t V) (bool * option Z) :=
  let! c := get in
  match OrderedDict.lookup key (_cache c) with
  | None => ret (false, None)
  | Some (_, slot) =>
      modify (set_cache (OrderedDict.delete key (_cache c)));;
      raise_if (bool_decide (_name_to_slot c !! key = None)) KeyError;;
      modify (set_name_to_slot (delete key (_name_to_slot c)));;
      modify (set_free_slots ({[ slot ]} ∪ _free_slots c));;
      ret (true, Some slot)
  end.

Definition clear : M (t V) unit :=
  modify (λ c, mk _ [] (_max_size c) (list_to_set (zrange 0 (_max_size c))) ∅).

Definition keys c : list string := OrderedDict.keys (_cache c).
Definition values c : list (V * Z) := OrderedDict.values (_cache c).
Definition items c : list (string * (V * Z)) := _cache c.

End Cache.
End LoRALRUCache.

(** ** The adapter manager *)
Inductive LoRAStatus :=
| SUCCESS | LOAD_NAME_EXISTS | UNLOAD_NAME_NONEXISTENT | LOAD_ERROR | UNLOAD_ERROR
| LOAD_INVALID_PATH | LOAD_INVALID_ADAPTER | UNSPECIFIED_ERROR.
#[export] Instance LoRAStatus_eq_dec : EqDecision LoRAStatus.
Proof. solve_decision. Defined.

(** [s.partition("=")]: the part before the first separator and the part after it. *)
Fixpoint partition_eq (s : string) : string * string :=
  match s with
  | EmptyString => (EmptyString, EmptyString)
  | String c s =>
      if decide (c = "="%char) then (EmptyString, s)
      else let '(a, b) := partition_eq s in (String c a, b)
  end.

(** Reading adapters from disk or from a model hub: [resolve] finds a local directory,
    [load] reads the adapter [name] from it (a malformed one raises), [path_of] is the
    path the adapter was read from. *)
Class AdapterStore := {
  LoRAModel : Type;
  resolve_adapter_path : string → option string;
  load_unfused : string → string → outcome LoRAModel;
  path_of : LoRAModel → string
}.

Module LoRAManagerV3.

Record t `{AdapterStore} := mk {
  base_model_path : string;
  max_num_loras : Z;
  (** insertion-ordered *)
  _loras : list (string * LoRAModel);
  _active_loras : LoRALRUCache.t LoRAModel
}.

Definition _NO_ACTIVE_LORA : Z := -1.

Section Manager.
Context `{AdapterStore}.
Implicit Types m : t.

Definition set_loras (x : list (string * LoRAModel)) m : t :=
  mk _ (base_model_path m) (max_num_loras m) x (_active_loras m).
Definition set_active (x : LoRALRUCache.t LoRAModel) m : t :=
  mk _ (base_model_path m) (max_num_loras m) (_loras m) x.
Definition on_active {A} (f : M (LoRALRUCache.t LoRAModel) A) : M t A := zoom _active_loras set_active f.

Definition loras m : list string := OrderedDict.keys (_loras m).
Definition is_lora (name : string) m : bool := bool_decide (name ∈ loras m).
Definition is_active_lora (name : string) m : bool := LoRALRUCache.contains name (_active_loras m).

Definition unload_adapter (name : string) : M t LoRAStatus :=
  let! m := get in
  if negb (is_lora name m) then ret UNLOAD_NAME_NONEXISTENT else
  modify (set_loras (OrderedDict.delete name (_loras m)));;
  let! _ := on_active (LoRALRUCache.remove name) in
  ret SUCCESS.

Definition load_adapter (path : string) : M t LoRAStatus :=
  let! m := get in
  let '(before, explicit) := partition_eq path in
  let '(name, path) := if decide (explicit = EmptyString) then (path, path) else (before, explicit) in
  match OrderedDict.lookup name (_loras m) with
  | Some lora => ret (if decide (path_of lora = path) then SUCCESS else LOAD_NAME_EXISTS)
  | None =>
      match resolve_adapter_path path with
      | None => ret LOAD_INVALID_PATH
      | Some local_path =>
          match load_unfused name local_path with
          | Ok lora => modify (set_loras (OrderedDict.set name lora (_loras m)));; ret SUCCESS
          | Raise ValueError => ret LOAD_INVALID_ADAPTER
          | Raise e => raise e
          end
      end
  end.

Definition _load_adapters (lora_paths : list string) : M t unit :=
  for_each lora_paths (λ path,
    let! status := load_adapter path in
    raise_if (bool_decide (status ≠ SUCCESS)) RuntimeError).

(** [__init__], of what the manager keeps about adapters *)
Definition init (base_model_path : string) (max_num_loras : Z) (lora_paths : list string) : outcome t :=
  match _load_adapters lora_paths (mk _ base_model_path max_num_loras [] (LoRALRUCache.init max_num_loras)) with
  | (Ok _, m) => Ok m
  | (Raise e, _) => Raise e
  end.

Definition activate_adapter (name : string) : M t unit :=
  let! m := get in
  match OrderedDict.lookup name (_loras m) with
  | None => raise KeyError
  | Some lora => let! _ := on_active (LoRALRUCache.put name lora None) in ret tt
  end.

(** *** Routing a batch, given by its requests' model names *)

Definition _model_name_to_id m (name : option string) : Z :=
  match name with
  | None => _NO_ACTIVE_LORA
  | Some name =>
      if bool_decide (name = EmptyString) || bool_decide (name = base_model_path m) then _NO_ACTIVE_LORA else
      if is_lora name m then default _NO_ACTIVE_LORA (LoRALRUCache.get_slot name (_active_loras m))
      else _NO_ACTIVE_LORA
  end.

(** Insert before the first element with a smaller key: [sorted] with [reverse=True]
    keeps the order of elements with equal keys. *)
Fixpoint insert_descending {A} (key : A → Z) (x : A) (l : list A) : list A :=
  match l with
  | [] => [x]
  | y :: l' => if key y <=? key x then x :: l else y :: insert_descending key x l'
  end.
Definition sorted_descending {A} (key : A → Z) (l : list A) : list A := foldr (insert_descending key) [] l.

Definition sort_lora_batch {A} (model_name : A → option string) m (batch : list A) : list A :=
  sorted_descending (λ c, _model_name_to_id m (model_name c)) batch.

Definition active_adapters_by_slot m (names : list (option string)) : list (Z * LoRAModel) :=
  foldl (λ by_slot name,
    match name with
    | None => by_slot
    | Some name =>
        if bool_decide (name = EmptyString) || bool_decide (name = base_model_path m) then by_slot else
        match OrderedDict.lookup name (_loras m), LoRALRUCache.get_slot name (_active_loras m) with
        | Some lora, Some slot => OrderedDict.set slot lora by_slot
        | _, _ => by_slot
        end
    end) [] names.

(** The groups of consecutive equal ids, each with the row it starts at. *)
Fixpoint group_runs (input_row_offsets : list Z) (i : Z) (prev_id : option Z) (ids : list Z)
    : outcome (list (Z * Z)) :=
  match ids with
  | [] => Ok []
  | id :: ids =>
      if decide (Some id = prev_id) then group_runs input_row_offsets (i + 1) prev_id ids else
      match py_index input_row_offsets i with
      | None => Raise IndexError
      | Some row =>
          match group_runs input_row_offsets (i + 1) (Some id) ids with
          | Ok l => Ok ((id, row) :: l)
          | Raise e => Raise e
          end
      end
  end.

(** The position of the first [-1], or the number of groups. *)
Fixpoint first_base (ids : list Z) : Z :=
  match ids with
  | [] => 0
  | id :: ids => if id =? -1 then 0 else 1 + first_base ids
  end.

(** [get_lora_graph_inputs], before the copy to the device: the group ids, the group
    offsets and the number of tokens routed to adapters. *)
Definition get_lora_graph_inputs m (names : list (option string)) (input_row_offsets : list Z)
    : outcome (list Z * list Z * Z) :=
  if existsb (λ name, match name with
       | None => false
       | Some name => negb (bool_decide (name = EmptyString)) && negb (bool_decide (name = base_model_path m))
                      && negb (is_lora name m)
       end) names then Raise RuntimeError else
  match group_runs input_row_offsets 0 None (map (_model_name_to_id m) names) with
  | Raise e => Raise e
  | Ok groups =>
      match py_index input_row_offsets (-1) with
      | None => Raise IndexError
      | Some total =>
          let grouped_offsets := groups.*2 ++ [total] in
          let last_lora := first_base groups.*1 in
          let grouped_offsets := slice_to grouped_offsets (last_lora + 1) in
          let grouped_ids := slice_to groups.*1 last_lora in
          Ok (grouped_ids, grouped_offsets, default 0 (last grouped_offsets))
      end
  end.

End Manager.
End LoRAManagerV3.

(** ** The scheduler's helpers (lora_scheduler_utils.py) *)
Section Helpers.
Context `{AdapterStore}.

Definition is_lora (model_name : string) (m : option LoRAManagerV3.t) : bool :=
  match m with Some m => LoRAManagerV3.is_lora model_name m | None => false end.

Definition is_active_lora (model_name : string) (m : option LoRAManagerV3.t) : bool :=
  match m with Some m => LoRAManagerV3.is_active_lora model_name m | None => false end.

Definition can_allocate_lora_request (model_name : string) (active_loras : gset string)
    (m : option LoRAManagerV3.t) : outcome bool :=
  match m with
  | None => Raise AssertionError
  | Some m =>
      if negb (LoRAManagerV3.is_lora model_name m) then Ok true else
      if bool_decide (model_name ∈ active_loras) then Ok true else
      if LoRAManagerV3.is_active_lora model_name m then Ok true else
      Ok (Z.of_nat (size active_loras) + 1 <=? LoRAManagerV3.max_num_loras m)
  end.

End Helpers.

(** ** The cache keeps its slots straight *)
Module LoraFacts.
Import LoRALRUCache.

Section Cache.
Context {V : Type}.
Implicit Types c : t V.

Definition slots c : list Z := (λ e, e.2.2) <$> _cache c.

(** The two tables agree, no slot is given twice, and a slot is free or in use. *)
Record Inv c : Prop := {
  inv_keys : NoDup (keys c);
  inv_slots : NoDup (slots c);
  inv_name : ∀ k, _name_to_slot c !! k = snd <$> OrderedDict.lookup k (_cache c);
  inv_range : ∀ s, s ∈ slots c → 0 ≤ s < _max_size c;
  inv_free : ∀ s, s ∈ _free_slots c ↔ 0 ≤ s < _max_size c ∧ s ∉ slots c
}.

Lemma lora_init_inv n : Inv (init n).
Proof.
  split; simpl; try by constructor.
  - intros s Hs. by apply elem_of_nil in Hs.
  - intros s. rewrite elem_of_list_to_set, elem_of_zrange. split; [|naive_solver].
    intros Hs. split; [done|]. by intros ?%elem_of_nil.
Qed.

(** No more adapters are active than there are slots. *)
Lemma inv_length c : Inv c → 0 ≤ _max_size c → length c ≤ _max_size c.
Proof.
  intros HI Hm. assert (slots c ⊆+ zrange 0 (_max_size c)) as Hsub.
  { apply NoDup_submseteq; [apply HI|]. intros s Hs. apply elem_of_zrange. by apply HI. }
  apply submseteq_length in Hsub. unfold slots in Hsub. rewrite length_fmap in Hsub.
  unfold length, len. pose proof (len_zrange 0 (_max_size c)) as Hl. unfold len in Hl. lia.
Qed.

Lemma contains_spec key c : contains key c = true ↔ is_Some (OrderedDict.lookup key (_cache c)).
Proof. unfold contains. rewrite bool_decide_eq_true, OrderedDict.lookup_keys. done. Qed.

Lemma next_slot_spec c :
  match next_slot c with
  | Some s => s ∈ _free_slots c ∧ ∀ s', s' ∈ _free_slots c → s ≤ s'
  | None => _free_slots c = ∅
  end.
Proof.
  unfold next_slot. destruct (elements (_free_slots c)) as [|s l] eqn:E.
  { apply leibniz_equiv. by apply elements_empty_inv. }
  assert (∀ x l, (foldl Z.min x l = x ∨ foldl Z.min x l ∈ l) ∧
    foldl Z.min x l ≤ x ∧ (∀ y, y ∈ l → foldl Z.min x l ≤ y)) as Hmin.
  { intros x l'. revert x. induction l' as [|z l' IH]; intros x; simpl.
    { split_and!; [by left|done|]. by intros y ?%elem_of_nil. }
    destruct (IH (Z.min x z)) as (Hin & Hle & Hall). split_and!.
    - destruct Hin as [Hin|Hin]; [|right; by right].
      destruct (Z.min_spec x z) as [[? Hz]|[? Hz]]; rewrite Hz in *; [by left|right; rewrite Hin; by left].
    - lia.
    - intros y [->|Hy]%elem_of_cons; [lia|by apply Hall]. }
  destruct (Hmin s l) as (Hin & Hle & Hall).
  assert (∀ s', s' ∈ _free_slots c ↔ s' ∈ s :: l) as Helem by (intros s'; by rewrite <- E, elem_of_elements).
  split.
  - apply Helem. destruct Hin as [-> |Hin]; [by left|by right].
  - intros s' [->|Hs']%Helem%elem_of_cons; [done|by apply Hall].
Qed.

(** An entry at the end of the order, in a slot of its own. *)
Lemma inv_append c c0 key v s :
  Inv c0 → ¬ is_Some (OrderedDict.lookup key (_cache c0)) → s ∈ _free_slots c0 →
  c = mk V (_cache c0 ++ [(key, (v, s))]) (_max_size c0) (_free_slots c0 ∖ {[ s ]})
        (<[key := s]> (_name_to_slot c0)) → Inv c.
Proof.
  intros HI Hk Hs ->. pose proof (proj1 (inv_free _ HI s) Hs) as [Hrange Hnew].
  rewrite OrderedDict.lookup_keys in Hk. split; unfold keys, slots, OrderedDict.keys; simpl.
  - rewrite fmap_app. apply NoDup_app. split_and!; [apply HI| |apply NoDup_singleton].
    intros k Hin ->%list_elem_of_singleton. by apply Hk.
  - rewrite fmap_app. apply NoDup_app. split_and!; [apply HI| |apply NoDup_singleton].
    intros x Hin ->%list_elem_of_singleton. by apply Hnew.
  - intros k. assert (∀ d, key ∉ OrderedDict.keys d →
      OrderedDict.lookup k (d ++ [(key, (v, s))]) =
        if decide (k = key) then Some (v, s) else OrderedDict.lookup k d) as Hl.
    { induction d as [|[k' e] d IH]; simpl; intros Hd.
      - destruct (decide (key = k)) as [->|]; [by rewrite decide_True|by rewrite decide_False].
      - apply not_elem_of_cons in Hd as [Hne Hd]. rewrite IH by done.
        destruct (decide (k' = k)) as [->|]; [by rewrite decide_False|done]. }
    rewrite Hl by done. destruct (decide (k = key)) as [->|Hne].
    + by rewrite lookup_insert_eq.
    + rewrite lookup_insert_ne by done. apply HI.
  - intros x. rewrite fmap_app, elem_of_app. simpl. rewrite list_elem_of_singleton.
    intros [Hin | ->]; [by apply HI|done].
  - intros x. rewrite elem_of_difference, elem_of_singleton, (inv_free _ HI x), fmap_app, elem_of_app.
    simpl. rewrite list_elem_of_singleton. unfold slots. naive_solver.
Qed.

(** An entry taken out of the order. *)
Lemma inv_delete c c0 key v s :
  Inv c0 → OrderedDict.lookup key (_cache c0) = Some (v, s) →
  c = mk V (OrderedDict.delete key (_cache c0)) (_max_size c0) ({[ s ]} ∪ _free_slots c0)
        (delete key (_name_to_slot c0)) →
  Inv c ∧ ¬ is_Some (OrderedDict.lookup key (_cache c)) ∧
  ∀ k, k ≠ key → OrderedDict.lookup k (_cache c) = OrderedDict.lookup k (_cache c0).
Proof.
  intros HI E ->.
  destruct (OrderedDict.delete_split _ _ _ (inv_keys _ HI) E) as (d1 & d2 & Ec & Ed & Hk).
  pose proof (inv_keys _ HI) as Hnk. pose proof (inv_slots _ HI) as Hns. pose proof (inv_range _ HI) as Hr.
  pose proof (inv_free _ HI) as Hf. unfold keys, slots, OrderedDict.keys in *. rewrite Ec in Hnk, Hns, Hr, Hf.
  assert (∀ k, k ≠ key → OrderedDict.lookup k (d1 ++ d2) = OrderedDict.lookup k (_cache c0)) as Hother.
  { intros k Hne. rewrite Ec. clear -Hne. induction d1 as [|[k' e] d1 IH]; simpl.
    - by rewrite decide_False by congruence.
    - by rewrite IH. }
  assert (OrderedDict.lookup key (d1 ++ d2) = None) as Hnone by by apply OrderedDict.lookup_None.
  rewrite Ed. split; [|split; [simpl; rewrite Hnone; by intros [? ?]|exact Hother]].
  split; unfold keys, slots, OrderedDict.keys; simpl.
  - eapply sublist_NoDup; [exact Hnk|]. rewrite !fmap_app. simpl. by apply sublist_app, sublist_cons.
  - eapply sublist_NoDup; [exact Hns|]. rewrite !fmap_app. simpl. by apply sublist_app, sublist_cons.
  - intros k. destruct (decide (k = key)) as [->|Hne].
    + by rewrite lookup_delete_eq, Hnone.
    + rewrite lookup_delete_ne, Hother by congruence. apply HI.
  - intros x Hx. apply Hr. rewrite !fmap_app in *. simpl. set_solver.
  - intros x. rewrite elem_of_union, elem_of_singleton, Hf. rewrite !fmap_app in *. simpl in *.
    apply NoDup_app in Hns as (_ & Hs1 & Hs2). apply NoDup_cons in Hs2 as [Hs2 _].
    assert (s ∈ (λ e : string * (V * Z), e.2.2) <$> d1 → False) as Hs3 by (intros Hx; apply (Hs1 s Hx); by left).
    assert (0 ≤ s < _max_size c0) as Hsr by (apply Hr; set_solver).
    split; [intros [-> | [? Hx]]; set_solver|]. intros [? Hx]. destruct (decide (x = s)); set_solver.
Qed.

(** What activating an adapter does to the order. *)
Definition Put (key : string) (v : V) c c' : Prop :=
  (∃ v' s, OrderedDict.lookup key (_cache c) = Some (v', s) ∧
     _cache c' = OrderedDict.delete key (_cache c) ++ [(key, (v', s))]) ∨
  (¬ is_Some (OrderedDict.lookup key (_cache c)) ∧ ∃ s,
     (length c < _max_size c ∧ _cache c' = _cache c ++ [(key, (v, s))]) ∨
     (length c = _max_size c ∧ ∃ victim v' rest, _cache c = (victim, (v', s)) :: rest ∧
        _cache c' = rest ++ [(key, (v, s))])).

Lemma move_run key v s c : Inv c → OrderedDict.lookup key (_cache c) = Some (v, s) →
  ∃ c', move_to_end key c = (Ok tt, c') ∧ Inv c' ∧ _max_size c' = _max_size c ∧
    _cache c' = OrderedDict.delete key (_cache c) ++ [(key, (v, s))].
Proof.
  intros HI E. unfold move_to_end. unfold bind at 1, get. unfold OrderedDict.move_to_end. rewrite E.
  eexists. split; [done|]. split; [|done].
  edestruct (inv_delete _ c key v s HI E eq_refl) as (HI' & Hk & Hother).
  eapply (inv_append _ _ key v s HI' Hk).
  - simpl. set_solver.
  - unfold set_cache. simpl. f_equal.
    + apply set_eq. intros x. rewrite elem_of_difference, elem_of_union, elem_of_singleton, (inv_free _ HI x).
      assert (s ∈ slots c) as Hs.
      { apply list_elem_of_fmap. exists (key, (v, s)). split; [done|]. by apply OrderedDict.lookup_Some. }
      destruct (decide (x = s)) as [->|]; naive_solver.
    + rewrite insert_delete_eq. symmetry. apply insert_id. rewrite (inv_name _ HI), E. done.
Qed.

Lemma full_length c : Inv c → _free_slots c = ∅ → _max_size c ≤ length c.
Proof.
  intros HI Hf. assert (zrange 0 (_max_size c) ⊆+ slots c) as Hsub.
  { apply NoDup_submseteq; [apply NoDup_zrange|]. intros s Hs%elem_of_zrange.
    destruct (decide (s ∈ slots c)) as [|Hn]; [done|]. assert (s ∈ _free_slots c) as Hx by by apply HI.
    rewrite Hf in Hx. by apply elem_of_empty in Hx. }
  apply submseteq_length in Hsub. unfold slots in Hsub. rewrite length_fmap in Hsub.
  unfold length, len. pose proof (len_zrange 0 (_max_size c)) as Hl. unfold len in Hl. lia.
Qed.

Lemma free_room c s : Inv c → s ∈ _free_slots c → length c < _max_size c.
Proof.
  intros HI Hs. destruct (proj1 (inv_free _ HI s) Hs) as [Hr Hn].
  assert (s :: slots c ⊆+ zrange 0 (_max_size c)) as Hsub.
  { apply NoDup_submseteq; [constructor; [done|apply HI]|].
    intros x [->|Hx]%elem_of_cons; apply elem_of_zrange; [done|by apply HI]. }
  apply submseteq_length in Hsub. simpl in Hsub. unfold slots in Hsub. rewrite length_fmap in Hsub.
  unfold length, len. pose proof (len_zrange 0 (_max_size c)) as Hl. unfold len in Hl. lia.
Qed.

Lemma put_run key v c : Inv c → 0 < _max_size c →
  ∃ ev c', put key v None c = (Ok ev, c') ∧ Inv c' ∧ _max_size c' = _max_size c ∧ Put key v c c'.
Proof.
  intros HI Hm. unfold put. unfold bind at 1, get. destruct (contains key c) eqn:Ek.
  - apply contains_spec in Ek as [[v' s] E]. destruct (move_run key v' s c HI E) as (c' & Er & HI' & Hmax & Hc).
    mstep Er. eexists _, _. split_and!; [done|done|done|]. left. by exists v', s.
  - assert (¬ is_Some (OrderedDict.lookup key (_cache c))) as Hk.
    { rewrite <- contains_spec. by rewrite Ek. }
    assert (key ∉ OrderedDict.keys (_cache c)) as Hk' by by rewrite <- OrderedDict.lookup_keys.
    pose proof (next_slot_spec c) as Hns. destruct (next_slot c) as [s|].
    + destruct Hns as [Hs _]. eexists _, _. split; [done|]. split; [|split; [done|]].
      * eapply (inv_append _ c key v s HI Hk Hs). unfold set_cache, set_name_to_slot, set_free_slots. simpl.
        by rewrite OrderedDict.set_new.
      * right. split; [done|]. exists s. left. split; [by apply (free_room c s)|].
        simpl. by rewrite OrderedDict.set_new.
    + pose proof (full_length c HI Hns) as Hfull. pose proof (inv_length c HI ltac:(lia)) as Hle.
      destruct c as [cache mx free names]. simpl in *. replace (length _ >=? mx) with true by lia.
      destruct cache as [|[victim [v' s]] rest]; [unfold length, len in Hfull; simpl in *; lia|].
      assert (OrderedDict.lookup victim ((victim, (v', s)) :: rest) = Some (v', s)) as E
        by (simpl; by rewrite decide_True).
      assert (names !! victim = Some s) as Hn.
      { pose proof (inv_name _ HI victim) as Hn.
        change (names !! victim = snd <$> OrderedDict.lookup victim ((victim, (v', s)) :: rest)) in Hn.
        by rewrite E in Hn. }
      edestruct (inv_delete _ _ victim v' s HI E eq_refl) as (HI' & _ & Hother). simpl in HI', Hother.
      rewrite decide_True in HI', Hother by done.
      apply not_elem_of_cons in Hk' as [Hne Hk''].
      unfold evict_first, raise_if, bind, get, modify, of_outcome, ret. simpl.
      rewrite bool_decide_eq_false_2 by (rewrite Hn; done). simpl.
      eexists _, _. split; [done|]. rewrite OrderedDict.set_new by done. split; [|split; [done|]].
      * eapply (inv_append _ _ key v s HI'); [|simpl; set_solver|done].
        simpl. rewrite OrderedDict.lookup_keys. done.
      * right. split; [done|]. exists s. right. split; [unfold length in *; simpl in *; lia|].
        by exists victim, v', rest.
Qed.

Lemma drop_run key c : Inv c →
  ∃ r c', remove key c = (Ok r, c') ∧ Inv c' ∧ _max_size c' = _max_size c ∧
    _cache c' = OrderedDict.delete key (_cache c) ∧ ¬ is_Some (OrderedDict.lookup key (_cache c')).
Proof.
  intros HI. unfold remove. unfold bind at 1, get. destruct (OrderedDict.lookup key (_cache c)) as [[v s]|] eqn:E.
  - edestruct (inv_delete _ c key v s HI E eq_refl) as (HI' & Hk & _).
    unfold raise_if, bind, modify, raise, ret. simpl.
    rewrite bool_decide_eq_false_2 by (rewrite (inv_name _ HI), E; done). simpl.
    eexists _, _. split; [done|]. by split_and!.
  - eexists _, _. split; [done|]. split_and!; [done|done| |rewrite E; by intros [? ?]].
    symmetry. assert (key ∉ OrderedDict.keys (_cache c)) as Hk by by apply OrderedDict.lookup_None.
    clear -Hk. induction (_cache c) as [|[k e] d IH]; [done|]. simpl in *.
    apply not_elem_of_cons in Hk as [Hne Hk]. rewrite decide_False by congruence. by rewrite IH.
Qed.

End Cache.
End LoraFacts.

(** ** The manager over a run of the server *)
Module LoraRuns.
Import LoRAManagerV3 LoraFacts.

Section Runs.
Context `{AdapterStore}.
Implicit Types m : t.

Inductive op := Activate (name : string) | LoadPath (path : string) | Unload (name : string).

(** An operation, whether it raises or not. *)
Definition exec (o : op) m : t :=
  match o with
  | Activate name => (activate_adapter name m).2
  | LoadPath path => (load_adapter path m).2
  | Unload name => (unload_adapter name m).2
  end.
Definition replay (ops : list op) m : t := foldl (λ m o, exec o m) m ops.

(** Every active adapter is the loaded one of its name. *)
Record Good m : Prop := {
  good_cache : Inv (_active_loras m);
  good_size : LoRALRUCache._max_size (_active_loras m) = max_num_loras m;
  good_positive : 0 < max_num_loras m;
  good_loaded : ∀ k v s, (k, (v, s)) ∈ LoRALRUCache._cache (_active_loras m) →
    OrderedDict.lookup k (_loras m) = Some v
}.

Lemma activate_run name lora m : Good m → OrderedDict.lookup name (_loras m) = Some lora →
  ∃ c, activate_adapter name m = (Ok tt, set_active c m) ∧ Good (set_active c m) ∧
    Put name lora (_active_loras m) c.
Proof.
  intros HG E. unfold activate_adapter. unfold bind at 1, get. rewrite E.
  destruct (put_run name lora (_active_loras m)) as (ev & c & Er & HI & Hm & HP);
    [apply HG|by rewrite (good_size _ HG); apply HG|].
  exists c. split; [unfold bind, on_active, zoom; by rewrite Er|]. split; [|done].
  split; [done|simpl; by rewrite Hm, (good_size _ HG)|apply HG|].
  intros k v s Hin. simpl in Hin. pose proof (good_loaded _ HG) as HL.
  destruct HP as [(v' & s' & El & Hc)|(_ & s' & [[_ Hc]|(_ & victim & v' & rest & Hc0 & Hc)])];
    rewrite Hc in Hin; apply elem_of_app in Hin as [Hin|Hin]; try (apply list_elem_of_singleton in Hin as [= -> -> ->]).
  - apply (HL k v s). by eapply elem_of_sublist, OrderedDict.delete_sublist.
  - apply (HL name v' s'). by apply OrderedDict.lookup_Some.
  - by apply (HL k v s).
  - done.
  - apply (HL k v s). rewrite Hc0. by right.
  - done.
Qed.

Lemma good_activate name m : Good m → Good (activate_adapter name m).2.
Proof.
  intros HG. destruct (OrderedDict.lookup name (_loras m)) as [lora|] eqn:E.
  - destruct (activate_run name lora m HG E) as (c & -> & HG' & _). done.
  - unfold activate_adapter. unfold bind at 1, get. by rewrite E.
Qed.

Lemma good_unload name m : Good m → Good (unload_adapter name m).2.
Proof.
  intros HG. unfold unload_adapter. unfold bind at 1, get. destruct (is_lora name m); [simpl|done].
  destruct (drop_run name (_active_loras m)) as (r & c & Er & HI & Hm & Hc & Hk); [apply HG|].
  unfold bind, modify, on_active, zoom. simpl. rewrite Er. simpl.
  split; simpl; [done|by rewrite Hm; apply HG|apply HG|].
  intros k v s Hin. assert (k ≠ name) as Hne.
  { intros ->. apply Hk. apply OrderedDict.lookup_keys, list_elem_of_fmap. by exists (name, (v, s)). }
  rewrite Hc in Hin. rewrite OrderedDict.lookup_delete_ne by done.
  apply (good_loaded _ HG k v s). by eapply elem_of_sublist, OrderedDict.delete_sublist.
Qed.

Lemma good_load path m : Good m → Good (load_adapter path m).2.
Proof.
  intros HG. unfold load_adapter. unfold bind at 1, get.
  destruct (partition_eq path) as [before explicit].
  destruct (if decide _ then _ else _) as [name path'].
  destruct (OrderedDict.lookup name (_loras m)) as [lora|] eqn:E; [done|].
  destruct (resolve_adapter_path path') as [local|]; [|done].
  destruct (load_unfused name local) as [lora|e]; [|by destruct e].
  split; simpl; [apply HG..|]. intros k v s Hin. pose proof (good_loaded _ HG k v s Hin) as Hl.
  rewrite OrderedDict.lookup_set_ne by congruence. done.
Qed.

Lemma good_replay ops m : Good m → Good (replay ops m).
Proof.
  revert m. induction ops as [|o ops IH]; intros m HG; [done|]. apply IH.
  destruct o; [by apply good_activate|by apply good_load|by apply good_unload].
Qed.

Lemma good_start base n paths m : 0 < n → init base n paths = Ok m → Good m.
Proof.
  intros Hn. unfold init.
  assert (preserves Good (_load_adapters paths)) as Hp.
  { apply preserves_for_each. intros path _ . apply preserves_bind; [exact (good_load path)|intros ?].
    apply preserves_raise_if. }
  specialize (Hp (mk _ base n [] (LoRALRUCache.init n))).
  destruct (_load_adapters _ _) as [[?|?] m']; [|done]. intros [= ->]. apply Hp.
  split; simpl; [apply lora_init_inv|done|done|]. intros k v s Hin. by apply elem_of_nil in Hin.
Qed.

Lemma replay_max base n paths m0 ops :
  init base n paths = Ok m0 → max_num_loras (replay ops m0) = n.
Proof.
  assert (∀ path, preserves (λ m, max_num_loras m = n) (load_adapter path)) as Hload.
  { intros path m. unfold load_adapter. unfold bind at 1, get. destruct (partition_eq path) as [before explicit].
    destruct (if decide _ then _ else _) as [name path'].
    destruct (OrderedDict.lookup _ _); [done|]. destruct (resolve_adapter_path _) as [local|]; [|done].
    destruct (load_unfused _ _) as [lora|e]; [done|by destruct e]. }
  assert (∀ A (f : M _ A) , preserves (λ m, max_num_loras m = n) (on_active f)) as Hon.
  { intros A f m Hm. unfold on_active, zoom. by destruct (f _). }
  intros E. assert (max_num_loras m0 = n) as Hm0.
  { unfold init in E. assert (preserves (λ m, max_num_loras m = n) (_load_adapters paths)) as Hp.
    { apply preserves_for_each. intros path _. apply preserves_bind; [apply Hload|intros ?].
      apply preserves_raise_if. }
    specialize (Hp (mk _ base n [] (LoRALRUCache.init n)) eq_refl).
    destruct (_load_adapters _ _) as [[?|?] ?]; [|done]. by injection E as ->. }
  clear E. revert m0 Hm0. induction ops as [|o ops IH]; intros m0 Hm0; [done|]. apply IH.
  destruct o as [name|path|name]; simpl; [|by apply Hload|].
  - unfold activate_adapter. unfold bind at 1, get. destruct (OrderedDict.lookup _ _); [|done].
    apply (preserves_bind _ _ _ (Hon _ _)); [intros ?; apply preserves_ret|done].
  - unfold unload_adapter. unfold bind at 1, get. destruct (is_lora _ _); simpl; [|done].
    apply (preserves_bind (λ m, max_num_loras m = n) (modify _)); [by intros ?| |done].
    intros _. apply preserves_bind; [apply Hon|intros ?; apply preserves_ret].
Qed.

End Runs.
End LoraRuns.

(** ** Sorting and grouping a batch *)
Module Routing.
Import LoRAManagerV3.

Section Sorting.
Context {A : Type} (key : A → Z).

Lemma insert_perm x l : insert_descending key x l ≡ₚ x :: l.
Proof.
  induction l as [|y l IH]; [done|]. simpl. destruct (key y <=? key x); [done|].
  rewrite IH. apply Permutation_swap.
Qed.

Lemma sorted_perm l : sorted_descending key l ≡ₚ l.
Proof. induction l as [|x l IH]; [done|]. simpl. by rewrite insert_perm, IH. Qed.

Lemma insert_sorted x l :
  StronglySorted (λ a b, key b ≤ key a) l → StronglySorted (λ a b, key b ≤ key a) (insert_descending key x l).
Proof.
  induction 1 as [|y l Hs IH Hall]; simpl; [by repeat constructor|].
  destruct (key y <=? key x) eqn:E.
  - constructor; [by constructor|]. constructor; [lia|]. eapply Forall_impl; [exact Hall|]. simpl. lia.
  - constructor; [done|]. rewrite insert_perm. constructor; [lia|done].
Qed.

Lemma sorted_sorted l : StronglySorted (λ a b, key b ≤ key a) (sorted_descending key l).
Proof. induction l as [|x l IH]; [constructor|]. by apply insert_sorted. Qed.

(** The keys of a sorted list descend. *)
Lemma sorted_keys l i j x y :
  StronglySorted (λ a b, key b ≤ key a) l → (i ≤ j)%nat → l !! i = Some x → l !! j = Some y → key y ≤ key x.
Proof.
  intros Hs. revert i j. induction Hs as [|z l Hs IH Hall]; intros i j Hij Hi Hj; [done|].
  destruct i as [|i], j as [|j]; simpl in *; [by simplify_eq|..|by eapply (IH i j); [lia|..]].
  - injection Hi as <-. by apply (proj1 (Forall_lookup _ _) Hall j).
  - lia.
Qed.
End Sorting.

(** Where an id first stands. *)
Definition first_at (ids : list Z) (id : Z) (j : nat) : Prop :=
  ids !! j = Some id ∧ ∀ j', (j' < j)%nat → ids !! j' ≠ Some id.

Definition descending (ids : list Z) : Prop :=
  ∀ i j x y, (i ≤ j)%nat → ids !! i = Some x → ids !! j = Some y → y ≤ x.

Lemma descending_tail x ids : descending (x :: ids) → descending ids.
Proof. intros Hd i j a b Hij Ha Hb. apply (Hd (S i) (S j) a b); [lia|done|done]. Qed.

Lemma descending_head x ids y : descending (x :: ids) → y ∈ ids → y ≤ x.
Proof. intros Hd [j Hj]%list_elem_of_lookup. by apply (Hd 0%nat (S j)); [lia|..]. Qed.

Lemma py_index_nat {A} (l : list A) (i : nat) : (i < length l)%nat → py_index l (Z.of_nat i) = l !! i.
Proof. intros Hi. rewrite py_index_inside by (unfold len; lia). by rewrite Nat2Z.id. Qed.

(** Grouping a descending sequence: each id not continuing the previous group gets one
    group, which starts where the id first stands; the groups' ids strictly descend. *)
Lemma group_runs_spec rows ids (i : nat) prev :
  descending ids → (∀ p x, prev = Some p → x ∈ ids → x ≤ p) → (i + length ids < length rows)%nat →
  ∃ groups, group_runs rows (Z.of_nat i) prev ids = Ok groups ∧
    (∀ g g' e e', (g < g')%nat → groups !! g = Some e → groups !! g' = Some e' → e'.1 < e.1) ∧
    (∀ e, e ∈ groups → Some e.1 ≠ prev ∧ ∃ j, first_at ids e.1 j ∧ rows !! (i + j)%nat = Some e.2) ∧
    (∀ x, x ∈ ids → Some x ≠ prev → x ∈ groups.*1).
Proof.
  revert i prev. induction ids as [|x ids IH]; intros i prev Hd Hp Hl.
  { exists []. split_and!; [done|done|by intros e ?%elem_of_nil|by intros y ?%elem_of_nil]. }
  simpl in Hl. assert (∀ p, prev = Some p → x ≤ p) as Hxp by (intros p ->; by apply (Hp p x); [|left]).
  assert (∀ e j, first_at ids e j → e ≠ x → first_at (x :: ids) e (S j)) as Hshift.
  { intros e j [Hj Hf] Hne. split; [done|]. intros [|j'] Hlt; simpl; [congruence|]. apply Hf. lia. }
  destruct (decide (Some x = prev)) as [Heq|Hne].
  - destruct (IH (S i) prev) as (groups & E & Hs & Hg & Hall).
    { by eapply descending_tail. } { intros p y Hpy Hy. apply (Hp p y Hpy). by right. } { lia. }
    exists groups. split_and!; [|done|..].
    + simpl. rewrite decide_True by done. rewrite <- E. f_equal. lia.
    + intros e He. destruct (Hg e He) as (Hpe & j & Hj & Hr). split; [done|]. exists (S j).
      split; [apply Hshift; [done|congruence]|]. by rewrite <- Nat.add_succ_comm.
    + intros y [->|Hy]%elem_of_cons Hyp; [done|by apply Hall].
  - destruct (IH (S i) (Some x)) as (groups & E & Hs & Hg & Hall).
    { by eapply descending_tail. } { intros p y [= <-] Hy. by eapply descending_head. } { lia. }
    destruct (lookup_lt_is_Some_2 rows i) as [row Hrow]; [lia|].
    exists ((x, row) :: groups). split_and!.
    + simpl. rewrite decide_False by done. rewrite py_index_nat by lia. rewrite Hrow.
      replace (Z.of_nat i + 1) with (Z.of_nat (S i)) by lia. by rewrite E.
    + intros [|g] [|g'] e e' Hlt He He'; simpl in *; [lia| |lia|by apply (Hs g g'); [lia|..]].
      injection He as <-. destruct (Hg e') as (Hne' & j & [Hj _] & _); [by eapply list_elem_of_lookup_2|].
      apply list_elem_of_lookup_2 in Hj. pose proof (descending_head _ _ _ Hd Hj).
      assert (e'.1 ≠ x) by congruence. simpl. lia.
    + intros e [->|He]%elem_of_cons; simpl.
      * split; [done|]. exists 0%nat. rewrite Nat.add_0_r. split; [|done]. split; [done|]. lia.
      * destruct (Hg e He) as (Hne' & j & Hj & Hr).
        assert (e.1 ≠ x) as Hex by congruence.
        split; [|exists (S j); split; [by apply Hshift|by rewrite <- Nat.add_succ_comm]].
        intros <-. apply Hex. destruct Hj as [Hj _]. apply list_elem_of_lookup_2 in Hj.
        pose proof (descending_head _ _ _ Hd Hj). pose proof (Hxp _ eq_refl). lia.
    + intros y [->|Hy]%elem_of_cons Hyp; simpl; [by left|].
      destruct (decide (y = x)) as [->|]; [by left|]. right. apply Hall; congruence.
Qed.

(** The first base group ends the ids routed to adapters. *)
Lemma first_base_spec ids :
  0 ≤ first_base ids ≤ len ids ∧ (∀ g, Z.of_nat g < first_base ids → ids !! g ≠ Some (-1)) ∧
  (first_base ids < len ids → ids !! Z.to_nat (first_base ids) = Some (-1)).
Proof.
  induction ids as [|id ids (IH1 & IH2 & IH3)]; simpl first_base.
  { change (len (A:=Z) []) with 0. split_and!; [lia|lia|intros g Hg; lia|lia]. }
  rewrite (len_cons id ids). destruct (id =? -1) eqn:E.
  - split_and!; [lia|lia|intros g Hg; lia|]. intros _. simpl. f_equal. lia.
  - split_and!; [lia|lia|..].
    + intros [|g] Hg; simpl; [intros [= ->]; lia|]. apply IH2. lia.
    + intros Hlt. rewrite Z2Nat.inj_add by lia. simpl. apply IH3. lia.
Qed.

(** Of ids that descend to the base's, the groups before the base are all the others. *)
Lemma before_base ids x :
  (∀ g g' y y', (g < g')%nat → ids !! g = Some y → ids !! g' = Some y' → y' < y) → (∀ y, y ∈ ids → -1 ≤ y) →
  x ∈ take (Z.to_nat (first_base ids)) ids ↔ x ∈ ids ∧ x ≠ -1.
Proof.
  intros Hord Hlow. destruct (first_base_spec ids) as (Hb & Hno & Hat). split.
  - intros (j & Hj)%list_elem_of_lookup. apply lookup_take_Some in Hj as [Hj Hlt]. split; [by eapply list_elem_of_lookup_2|].
    intros ->. apply (Hno j); [lia|done].
  - intros [(j & Hj)%list_elem_of_lookup Hx]. apply list_elem_of_lookup. exists j. apply lookup_take_Some. split; [done|].
    destruct (decide (j < Z.to_nat (first_base ids))%nat) as [|Hge]; [done|exfalso].
    pose proof (lookup_lt_Some _ _ _ Hj). assert (ids !! Z.to_nat (first_base ids) = Some (-1)) as Hb1 by (apply Hat; unfold len; lia).
    destruct (decide (j = Z.to_nat (first_base ids))) as [->|Hne]; [congruence|].
    pose proof (Hord (Z.to_nat (first_base ids)) j _ _ ltac:(lia) Hb1 Hj). pose proof (Hlow x (list_elem_of_lookup_2 _ _ _ Hj)). lia.
Qed.

Lemma rows_le rows i j lo hi :
  StronglySorted Z.le rows → (i ≤ j)%nat → rows !! i = Some lo → rows !! j = Some hi → lo ≤ hi.
Proof.
  intros Hs. revert i j. induction Hs as [|z l Hs IH Hall]; intros i j Hij Hi Hj; [done|].
  destruct i as [|i], j as [|j]; simpl in *; [by simplify_eq|..|by eapply (IH i j); [lia|..]].
  - injection Hi as <-. by apply (proj1 (Forall_lookup _ _) Hall j).
  - lia.
Qed.

Section Route.
Context (rows ids : list Z) (groups : list (Z * Z)) (total : Z).
Hypothesis Hdesc : descending ids.
Hypothesis Hbase : ∀ x, x ∈ ids → -1 ≤ x.
Hypothesis Hrows : StronglySorted Z.le rows.
Hypothesis Htotal : rows !! length ids = Some total.
Hypothesis Horder : ∀ g g' e e', (g < g')%nat → groups !! g = Some e → groups !! g' = Some e' → e'.1 < e.1.
Hypothesis Hstart : ∀ e, e ∈ groups → ∃ j, first_at ids e.1 j ∧ rows !! j = Some e.2.
Hypothesis Hall : ∀ x, x ∈ ids → x ∈ groups.*1.

Let edges : list Z := groups.*2 ++ [total].
Let n : nat := Z.to_nat (first_base groups.*1).

(** An edge is the row of a request past the members of every earlier group. *)
Lemma edge_after g r : edges !! g = Some r →
  ∃ j, rows !! j = Some r ∧
    ∀ g' id r' i, (g' < g)%nat → groups !! g' = Some (id, r') → ids !! i = Some id → (i < j)%nat.
Proof.
  unfold edges. intros [Hg|[Hg Hr]]%lookup_app_Some.
  - rewrite list_lookup_fmap in Hg. apply fmap_Some in Hg as ([id r'] & Hg & ->).
    destruct (Hstart (id, r')) as (j & [Hj _] & Hr); [by eapply list_elem_of_lookup_2|].
    exists j. split; [done|]. intros g' id' r'' i Hlt Hg' Hi.
    destruct (decide (i < j)%nat) as [|Hn]; [done|].
    pose proof (Hdesc j i _ _ ltac:(lia) Hj Hi). pose proof (Horder g' g _ _ Hlt Hg' Hg). simpl in *. lia.
  - apply list_lookup_singleton_Some in Hr as [_ <-]. exists (length ids). split; [done|].
    intros g' id r' i _ _ Hi. by eapply lookup_lt_Some.
Qed.

Lemma edges_le g g' r r' : (g ≤ g')%nat → edges !! g = Some r → edges !! g' = Some r' → r ≤ r'.
Proof.
  intros Hle Hr Hr'. destruct (decide (g = g')) as [->|Hne]; [simplify_eq; lia|].
  destruct (edge_after g' r' Hr') as (j & Hj & Hlater).
  assert (g < length groups)%nat as Hlt.
  { apply lookup_lt_Some in Hr'. unfold edges in Hr'. rewrite length_app, length_fmap in Hr'. simpl in Hr'. lia. }
  destruct (lookup_lt_is_Some_2 groups g Hlt) as [[id r0] Hg].
  assert (r0 = r) as ->.
  { unfold edges in Hr. rewrite lookup_app_l, list_lookup_fmap, Hg in Hr by (rewrite length_fmap; lia).
    by injection Hr. }
  destruct (Hstart (id, r)) as (i & [Hi _] & Hri); [by eapply list_elem_of_lookup_2|].
  pose proof (Hlater g id r i ltac:(lia) Hg Hi). by apply (rows_le rows i j); [|lia|..].
Qed.

(** A group of an adapter is before the cut; the base group is at it. *)
Lemma group_cut g id r : groups !! g = Some (id, r) →
  (n ≤ length groups)%nat ∧ if decide (id = -1) then g = n else (g < n)%nat.
Proof.
  intros Hg. destruct (first_base_spec groups.*1) as (Hb & Hbefore & Hat). fold n in Hat.
  unfold len in Hb, Hat. rewrite length_fmap in Hb, Hat. split; [unfold n; lia|].
  assert (groups.*1 !! g = Some id) as Hgid by by rewrite list_lookup_fmap, Hg.
  pose proof (lookup_lt_Some _ _ _ Hg) as Hlt.
  assert ((n < length groups)%nat → ∃ r', groups !! n = Some (-1, r')) as Hcut.
  { intros Hn. specialize (Hat ltac:(unfold n in Hn; lia)). rewrite list_lookup_fmap in Hat.
    apply fmap_Some in Hat as ([? r'] & Hat & ->). by exists r'. }
  destruct (decide (g < n)%nat) as [Hgn|Hgn].
  - destruct (decide (id = -1)) as [->|]; [|done]. exfalso. apply (Hbefore g); [unfold n in Hgn; lia|done].
  - destruct (Hcut ltac:(lia)) as [r' Hr']. destruct (decide (g = n)) as [->|Hne].
    + rewrite Hg in Hr'. injection Hr' as -> ->. by rewrite decide_True.
    + exfalso. pose proof (Horder n g _ _ ltac:(lia) Hr' Hg) as Hlow. simpl in Hlow.
      destruct (Hstart (id, r)) as (j & [Hj _] & _); [by eapply list_elem_of_lookup_2|].
      apply list_elem_of_lookup_2 in Hj. apply Hbase in Hj. simpl in Hj. lia.
Qed.

Lemma lookup_group x : x ∈ ids → ∃ g r, groups !! g = Some (x, r).
Proof.
  intros Hx%Hall. apply list_elem_of_lookup in Hx as [g Hg]. rewrite list_lookup_fmap in Hg.
  apply fmap_Some in Hg as ([? r] & Hg & ->). by exists g, r.
Qed.

Lemma first_before id j i : first_at ids id j → ids !! i = Some id → (j ≤ i)%nat.
Proof. intros [_ Hf] Hi. destruct (decide (j ≤ i)%nat); [done|]. exfalso. apply (Hf i); [lia|done]. Qed.

Lemma route : ∃ end_, edges !! n = Some end_ ∧
  (∀ i id lo hi, ids !! i = Some id → id ≠ -1 → rows !! i = Some lo → rows !! S i = Some hi →
     ∃ g first next, (g < n)%nat ∧ groups.*1 !! g = Some id ∧ edges !! g = Some first ∧
       edges !! S g = Some next ∧ first ≤ lo ∧ hi ≤ next ∧ next ≤ end_) ∧
  (∀ i lo, ids !! i = Some (-1) → rows !! i = Some lo → end_ ≤ lo).
Proof.
  destruct (first_base_spec groups.*1) as (Hb & _). unfold len in Hb. rewrite length_fmap in Hb.
  destruct (lookup_lt_is_Some_2 edges n) as [end_ Hend].
  { unfold edges. rewrite length_app, length_fmap. simpl. unfold n. lia. }
  exists end_. split; [done|]. split.
  - intros i id lo hi Hi Hid Hlo Hhi.
    destruct (lookup_group id) as (g & r & Hg); [by eapply list_elem_of_lookup_2|].
    destruct (group_cut g id r Hg) as [Hn Hgn]. rewrite decide_False in Hgn by done.
    destruct (lookup_lt_is_Some_2 edges (S g)) as [next Hnext].
    { unfold edges. rewrite length_app, length_fmap. simpl. lia. }
    assert (edges !! g = Some r) as Hfirst.
    { unfold edges. rewrite lookup_app_l by (rewrite length_fmap; lia). by rewrite list_lookup_fmap, Hg. }
    exists g, r, next. split_and!; try done.
    + by rewrite list_lookup_fmap, Hg.
    + destruct (Hstart (id, r)) as (j & Hj & Hr); [by eapply list_elem_of_lookup_2|].
      apply (rows_le rows j i); [done|by apply (first_before id)|done|done].
    + destruct (edge_after (S g) next Hnext) as (j & Hj & Hlater).
      pose proof (Hlater g id r i ltac:(lia) Hg Hi). by apply (rows_le rows (S i) j); [|lia|..].
    + by apply (edges_le (S g) n); [lia|..].
  - intros i lo Hi Hlo. destruct (lookup_group (-1)) as (g & r & Hg); [by eapply list_elem_of_lookup_2|].
    destruct (group_cut g (-1) r Hg) as [_ Hgn]. rewrite decide_True in Hgn by done. subst g.
    destruct (Hstart (-1, r)) as (j & Hj & Hr); [by eapply list_elem_of_lookup_2|].
    assert (edges !! n = Some r) as Hr'.
    { unfold edges. pose proof (lookup_lt_Some _ _ _ Hg). rewrite lookup_app_l by (rewrite length_fmap; lia).
      by rewrite list_lookup_fmap, Hg. }
    rewrite Hend in Hr'. injection Hr' as ->. apply (rows_le rows j i); [done|by apply (first_before (-1))|done|done].
Qed.

Lemma strictly_nodup : NoDup groups.*1.
Proof.
  apply NoDup_alt. intros i j x Hi Hj. rewrite !list_lookup_fmap in Hi, Hj.
  apply fmap_Some in Hi as (e & Hi & ->), Hj as (e' & Hj & Heq).
  destruct (lt_eq_lt_dec i j) as [[Hlt|]|Hlt]; [|done|].
  - pose proof (Horder i j _ _ Hlt Hi Hj). lia.
  - pose proof (Horder j i _ _ Hlt Hj Hi). lia.
Qed.

End Route.

Lemma last_take {A} (l : list A) k x : l !! k = Some x → last (take (S k) l) = Some x.
Proof. intros Hk. rewrite (take_S_r _ _ _ Hk). by rewrite last_snoc. Qed.

Lemma descending_keys {A} (key : A → Z) l :
  StronglySorted (λ a b, key b ≤ key a) l → descending (map key l).
Proof.
  intros Hs i j x y Hij Hi Hj. rewrite list_lookup_fmap in Hi, Hj.
  apply fmap_Some in Hi as (a & Hi & ->), Hj as (b & Hj & ->). by eapply sorted_keys.
Qed.

Section Inputs.
Context `{AdapterStore}.

Lemma routed_id m name : LoraRuns.Good m → -1 ≤ _model_name_to_id m name.
Proof.
  intros HG. unfold _model_name_to_id, _NO_ACTIVE_LORA. destruct name as [name|]; [|done].
  destruct (_ || _); [done|]. destruct (is_lora name m); [|done].
  unfold LoRALRUCache.get_slot. rewrite (LoraFacts.inv_name _ (LoraRuns.good_cache _ HG)).
  destruct (OrderedDict.lookup name _) as [[v s]|] eqn:E; [|done]. simpl.
  pose proof (LoraFacts.inv_range _ (LoraRuns.good_cache _ HG) s) as Hs.
  assert (s ∈ LoraFacts.slots (_active_loras m)) as Hin.
  { apply list_elem_of_fmap. exists (name, (v, s)). split; [done|]. by apply OrderedDict.lookup_Some. }
  specialize (Hs Hin). lia.
Qed.

Lemma graph_inputs_run m names offsets groups total :
  (∀ name, Some name ∈ names → name ≠ EmptyString → name ≠ base_model_path m → is_lora name m = true) →
  group_runs offsets 0 None (map (_model_name_to_id m) names) = Ok groups →
  offsets !! length names = Some total → length offsets = S (length names) →
  let n := Z.to_nat (first_base groups.*1) in
  get_lora_graph_inputs m names offsets =
    Ok (take n groups.*1, take (S n) (groups.*2 ++ [total]),
        default 0 (last (take (S n) (groups.*2 ++ [total])))).
Proof.
  intros Hknown E Htotal Hlen n. unfold get_lora_graph_inputs. set (unknown := existsb _ names).
  assert (unknown = false) as ->.
  { unfold unknown. clear -Hknown. induction names as [|[name|] names IH]; simpl; [done|..].
    - rewrite IH by (intros x Hx; apply Hknown; by right). rewrite orb_false_r.
      destruct (decide (name = EmptyString)) as [->|Hne]; [done|].
      destruct (decide (name = base_model_path m)) as [->|Hnb].
      { rewrite (bool_decide_eq_true_2 (base_model_path m = base_model_path m)) by done. simpl.
        by rewrite andb_false_r. }
      rewrite (Hknown name) by (done || by left). by rewrite andb_false_r.
    - apply IH. intros x Hx. apply Hknown. by right. }
  rewrite E. change (-1) with (- (1)). rewrite py_index_neg by (unfold len; lia).
  replace (Z.to_nat (len offsets - 1)) with (length names) by (unfold len; lia). rewrite Htotal.
  destruct (first_base_spec groups.*1) as (Hb & _). unfold len in Hb. rewrite length_fmap in Hb.
  rewrite !slice_to_inside by (unfold len; rewrite ?length_app, ?length_fmap; simpl; lia).
  replace (Z.to_nat (first_base groups.*1 + 1)) with (S n) by (unfold n; lia). done.
Qed.

End Inputs.
End Routing.

(** ** The theorems *)
Module LoraProperties.
Import LoRAManagerV3 LoraFacts LoraRuns Routing.

Section Statements.
Context `{AdapterStore}.
Implicit Types m : t.

(** C36: an active adapter has a device slot of its own. After any sequence of
    activations, loads and unloads, whether they succeed or raise, every active adapter
    is loaded and has a slot between 0 and the number of slots, no two adapters share a
    slot, and there are no more active adapters than slots. *)
Theorem active_adapters_have_own_slots base n paths ops m0 :
  0 < n → init base n paths = Ok m0 →
  let m := replay ops m0 in
  (∀ a, is_active_lora a m = true → is_lora a m = true ∧
     ∃ s, LoRALRUCache.get_slot a (_active_loras m) = Some s ∧ 0 ≤ s < n) ∧
  (∀ a b s, LoRALRUCache.get_slot a (_active_loras m) = Some s →
     LoRALRUCache.get_slot b (_active_loras m) = Some s → a = b) ∧
  LoRALRUCache.length (_active_loras m) ≤ n.
Proof.
  intros Hn E m. pose proof (good_replay ops m0 (good_start _ _ _ _ Hn E)) as HG. fold m in HG.
  assert (max_num_loras m = n) as Hmax by by eapply replay_max.
  pose proof (good_cache _ HG) as HI. pose proof (good_size _ HG) as Hs. rewrite Hmax in Hs.
  unfold LoRALRUCache.get_slot. split_and!.
  - intros a [[v s] El]%contains_spec. pose proof (OrderedDict.lookup_Some _ _ _ El) as Hin.
    split.
    + apply bool_decide_eq_true_2, OrderedDict.lookup_keys. rewrite (good_loaded _ HG a v s Hin). by eexists.
    + exists s. rewrite (inv_name _ HI), El. split; [done|]. rewrite <- Hs. apply HI.
      apply list_elem_of_fmap. by exists (a, (v, s)).
  - intros a b s. rewrite !(inv_name _ HI). intros ([v1 ?] & Ea & [= ->])%fmap_Some ([v2 ?] & Eb & [= ->])%fmap_Some.
    apply OrderedDict.lookup_Some in Ea, Eb. simpl in *.
    apply list_elem_of_lookup in Ea as [i Ha], Eb as [j Hb]. pose proof (inv_slots _ HI) as Hnd.
    assert (i = j) as ->; [|congruence].
    eapply (NoDup_lookup (slots (_active_loras m))); [done|..]; unfold slots; rewrite list_lookup_fmap;
      [by rewrite Ha|by rewrite Hb].
  - rewrite <- Hs. apply inv_length; [done|lia].
Qed.

(** Activating an adapter can take the slot of a protected one. The scheduler's
    test admits an adapter when it fits beside the protected ones, on the ground that an
    unprotected adapter can be evicted; the cache evicts whichever adapter was activated
    longest ago. When that one is protected, the test passes and the activation takes
    the slot from the requests that are generating with it. *)
Theorem protected_adapter_evicted m new victim v s rest protected :
  Good m → is_lora new m = true → is_active_lora new m = false →
  LoRALRUCache._cache (_active_loras m) = (victim, (v, s)) :: rest →
  LoRALRUCache.length (_active_loras m) = max_num_loras m →
  victim ∈ protected → Z.of_nat (size protected) < max_num_loras m →
  can_allocate_lora_request new protected (Some m) = Ok true ∧
  ∃ m', activate_adapter new m = (Ok tt, m') ∧ is_active_lora new m' = true ∧ is_active_lora victim m' = false.
Proof.
  intros HG Hl Ha Hc Hfull Hv Hp. split.
  { unfold can_allocate_lora_request. rewrite Hl, Ha. simpl. destruct (bool_decide _); [done|].
    f_equal. lia. }
  apply bool_decide_eq_true, OrderedDict.lookup_keys in Hl as [lora El].
  destruct (activate_run new lora m HG El) as (c & Er & HG' & HP). exists (set_active c m). split; [done|].
  assert (¬ is_Some (OrderedDict.lookup new (LoRALRUCache._cache (_active_loras m)))) as Hnew.
  { unfold is_active_lora in Ha. by rewrite <- contains_spec, Ha. }
  destruct HP as [(v' & s' & E & _)|(_ & s' & [[Hlt _]|(_ & victim' & v' & rest' & Hc0 & Hc')])].
  - rewrite E in Hnew. by destruct Hnew.
  - rewrite (good_size _ HG) in Hlt. lia.
  - rewrite Hc in Hc0. injection Hc0 as <- <- <- <-. pose proof (inv_keys _ (good_cache _ HG)) as Hnd.
    unfold LoRALRUCache.keys, OrderedDict.keys in Hnd. rewrite Hc in Hnd, Hnew. simpl in Hnd.
    apply NoDup_cons in Hnd as [Hvr _]. rewrite OrderedDict.lookup_keys in Hnew. simpl in Hnew.
    apply not_elem_of_cons in Hnew as [Hne _].
    unfold is_active_lora, LoRALRUCache.contains, OrderedDict.keys. simpl. rewrite Hc', fmap_app. simpl. split.
    + apply bool_decide_eq_true_2, elem_of_app. right. by left.
    + apply bool_decide_eq_false_2. rewrite elem_of_app, list_elem_of_singleton. intros [?| ->]; done.
Qed.

(** C35: the routing of a sorted batch covers it. For the batch in the order
    [sort_lora_batch] gives it, with the row each request starts at, the ids of the
    groups handed to the kernels descend strictly and are exactly the slots of the
    active adapters the batch's requests name: one group per such adapter, and none
    else. Each group starts at the row of its adapter's first request, and the groups
    delimit rows: the rows of every request of an adapter lie between the bounds of its
    adapter's group, and the rows routed to adapters end where the first request of the
    base model starts. *)
Theorem routing_covers_the_batch {A} (model_name : A → option string) m (requests : list A) offsets :
  let batch := sort_lora_batch model_name m requests in
  let id c := _model_name_to_id m (model_name c) in
  Good m →
  (∀ c name, c ∈ requests → model_name c = Some name → name ≠ EmptyString → name ≠ base_model_path m →
     is_lora name m = true) →
  length offsets = S (length requests) → StronglySorted Z.le offsets →
  ∃ ids bounds end_, get_lora_graph_inputs m (map model_name batch) offsets = Ok (ids, bounds, end_) ∧
    batch ≡ₚ requests ∧ length bounds = S (length ids) ∧
    (∀ g g' x x', (g < g')%nat → ids !! g = Some x → ids !! g' = Some x' → x' < x) ∧
    (∀ x, x ∈ ids ↔ x ≠ _NO_ACTIVE_LORA ∧ ∃ c, c ∈ requests ∧ id c = x) ∧
    (∀ g x first, ids !! g = Some x → bounds !! g = Some first →
       ∃ i, first_at (map id batch) x i ∧ offsets !! i = Some first) ∧
    (∀ i c lo hi, batch !! i = Some c → id c ≠ _NO_ACTIVE_LORA →
       offsets !! i = Some lo → offsets !! S i = Some hi →
       ∃ g first next, ids !! g = Some (id c) ∧ bounds !! g = Some first ∧ bounds !! S g = Some next ∧
         first ≤ lo ∧ hi ≤ next ∧ next ≤ end_) ∧
    (∀ i c lo, batch !! i = Some c → id c = _NO_ACTIVE_LORA → offsets !! i = Some lo → end_ ≤ lo).
Proof.
  intros batch id HG Hknown Hlen Hrows.
  assert (batch ≡ₚ requests) as Hperm by apply sorted_perm.
  assert (length batch = length requests) as Hlb by by rewrite Hperm.
  set (ids := map id batch).
  assert (descending ids) as Hdesc by (by apply descending_keys, sorted_sorted).
  assert (∀ x, x ∈ ids → -1 ≤ x) as Hbase.
  { intros x (c & -> & _)%list_elem_of_fmap. apply (routed_id m (model_name c) HG). }
  destruct (group_runs_spec offsets ids 0 None Hdesc) as (groups & E & Horder & Hg & Hall).
  { done. } { unfold ids. rewrite length_map. lia. }
  destruct (lookup_lt_is_Some_2 offsets (length ids)) as [total Htotal].
  { unfold ids. rewrite length_map. lia. }
  assert (∀ e, e ∈ groups → ∃ j, first_at ids e.1 j ∧ offsets !! j = Some e.2) as Hstart
    by (intros e He; by apply Hg).
  assert (∀ x, x ∈ ids → x ∈ groups.*1) as Hall' by (intros x Hx; by apply Hall).
  destruct (route offsets ids groups total Hdesc Hbase Hrows Htotal Horder Hstart Hall')
    as (end_ & Hend & Hcover & Hrest).
  rewrite (graph_inputs_run m (map model_name batch) offsets groups total).
  - set (n := Z.to_nat (first_base groups.*1)) in *.
    assert (n ≤ length groups)%nat as Hn.
    { destruct (first_base_spec groups.*1) as [Hb _]. unfold len in Hb. rewrite length_fmap in Hb. unfold n. lia. }
    eexists (take n groups.*1), (take (S n) (groups.*2 ++ [total])), end_.
    assert (∀ g g' x x', (g < g')%nat → groups.*1 !! g = Some x → groups.*1 !! g' = Some x' → x' < x) as Hord.
    { intros g g' x x' Hlt Hx Hx'. rewrite !list_lookup_fmap in Hx, Hx'. apply fmap_Some in Hx as (e & He & ->), Hx' as (e' & He' & ->).
      by apply (Horder g g'). }
    assert (∀ x, x ∈ groups.*1 ↔ x ∈ ids) as Hgi.
    { intros x. split; [|apply Hall']. intros (e & -> & He)%list_elem_of_fmap.
      destruct (Hstart e He) as (j & [Hj _] & _). by eapply list_elem_of_lookup_2. }
    split; [by rewrite (last_take _ _ _ Hend)|]. split; [done|]. split; [|split; [|split; [|split; [|split]]]].
    + rewrite !length_take, length_app, !length_fmap. change (length [total]) with 1%nat. lia.
    + intros g g' x x' Hlt Hx Hx'. apply lookup_take_Some in Hx as [Hx _], Hx' as [Hx' _]. by apply (Hord g g').
    + intros x. unfold n. rewrite before_base by (done || (intros y Hy; by apply Hbase, Hgi)). rewrite Hgi. unfold _NO_ACTIVE_LORA.
      split; [intros [(c & -> & Hc)%list_elem_of_fmap Hx]; split; [done|]; exists c; by rewrite <- Hperm|].
      intros [Hx (c & Hc & <-)]. split; [|done]. apply list_elem_of_fmap. exists c. by rewrite Hperm.
    + intros g x first Hx Hf. apply lookup_take_Some in Hx as [Hx Hlt], Hf as [Hf _].
      rewrite lookup_app_l in Hf by (rewrite length_fmap; lia). rewrite list_lookup_fmap in Hx, Hf.
      destruct (groups !! g) as [e|] eqn:He; [|done]. injection Hx as <-. injection Hf as <-.
      destruct (Hstart e (list_elem_of_lookup_2 _ _ _ He)) as (j & Hj & Hr). by exists j.
    + intros i c lo hi Hi Hid Hlo Hhi.
      destruct (Hcover i (id c) lo hi) as (g & first & next & Hgn & Hgid & Hf & Hnx & Hrest'); [|done|done|done|].
      { unfold ids. by rewrite list_lookup_fmap, Hi. }
      exists g, first, next. by rewrite !lookup_take_lt by lia.
    + intros i c lo Hi Hid Hlo. apply (Hrest i lo); [|done]. unfold ids. rewrite list_lookup_fmap, Hi. simpl. by f_equal.
  - intros name (c & Hc & Hin)%list_elem_of_fmap Hne Hnb. apply (Hknown c name); [by rewrite <- Hperm|done..].
  - by rewrite map_map.
  - by rewrite length_map, <- (length_map id batch).
  - by rewrite length_map, Hlb.
Qed.

End Statements.

(** *** A server with two slots and three adapters *)
#[local] Instance path_store : AdapterStore := {|
  LoRAModel := string;
  resolve_adapter_path := Some;
  load_unfused _ path := Ok path;
  path_of path := path
|}.

Definition three_adapters : t :=
  match init "base" 2 ["a"; "b"; "c"]%string with Ok m => m | Raise _ => mk _ "" 0 [] (LoRALRUCache.init 0) end.
Lemma three_adapters_init : init "base" 2 ["a"; "b"; "c"]%string = Ok three_adapters.
Proof. vm_compute. reflexivity. Qed.

(** "a" generates; "b" was used after it and no request needs it any more. *)
Definition two_active : t := replay [Activate "a"; Activate "b"] three_adapters.

Lemma active_adapters_have_own_slots_witness :
  let m := replay [Activate "a"; Activate "b"; Activate "c"; Unload "b"; LoadPath "d=x"; Activate "d"]
             three_adapters in
  (∀ a, is_active_lora a m = true → is_lora a m = true ∧
     ∃ s, LoRALRUCache.get_slot a (_active_loras m) = Some s ∧ 0 ≤ s < 2) ∧
  (∀ a b s, LoRALRUCache.get_slot a (_active_loras m) = Some s →
     LoRALRUCache.get_slot b (_active_loras m) = Some s → a = b) ∧
  LoRALRUCache.length (_active_loras m) ≤ 2.
Proof.
  apply (active_adapters_have_own_slots "base" 2 ["a"; "b"; "c"]%string
    [Activate "a"; Activate "b"; Activate "c"; Unload "b"; LoadPath "d=x"; Activate "d"] three_adapters);
    [reflexivity|exact three_adapters_init].
Defined.

Lemma two_active_good : Good two_active.
Proof. apply good_replay. by apply (good_start "base" 2 ["a"; "b"; "c"]%string); [|exact three_adapters_init]. Qed.

Lemma protected_adapter_evicted_witness :
  can_allocate_lora_request "c" {["a"%string]} (Some two_active) = Ok true ∧
  ∃ m', activate_adapter "c" two_active = (Ok tt, m') ∧ is_active_lora "c" m' = true ∧
    is_active_lora "a" m' = false.
Proof.
  apply (protected_adapter_evicted two_active "c" "a" "a" 0 [("b", ("b", 1))]%string {["a"%string]}
    two_active_good); vm_compute; reflexivity || (by left) || idtac.
Defined.

Definition mixed_batch : list (option string) := [Some "a"; None; Some "b"; Some "a"]%string.

Lemma routing_covers_the_batch_witness :
  let batch := sort_lora_batch (λ name, name) two_active mixed_batch in
  ∃ ids bounds end_, get_lora_graph_inputs two_active (map (λ name, name) batch) [0; 3; 5; 9; 10]
      = Ok (ids, bounds, end_) ∧ batch ≡ₚ mixed_batch ∧ length bounds = S (length ids) ∧ ids = [1; 0] ∧
    (1 ∈ ids ↔ 1 ≠ -1 ∧ ∃ c, c ∈ mixed_batch ∧ _model_name_to_id two_active c = 1).
Proof.
  intros batch.
  destruct (routing_covers_the_batch (λ name, name) two_active mixed_batch [0; 3; 5; 9; 10] two_active_good)
    as (ids & bounds & end_ & E & Hp & Hl & _ & Hids & _).
  - intros c name Hc -> Hne Hnb. unfold mixed_batch in Hc.
    repeat (apply elem_of_cons in Hc as [Hc|Hc]; [try discriminate; injection Hc as ->; vm_compute; reflexivity|]).
    by apply elem_of_nil in Hc.
  - reflexivity.
  - repeat constructor; discriminate.
  - exists ids, bounds, end_. split; [exact E|]. split; [exact Hp|]. split; [exact Hl|]. split; [|apply Hids].
    vm_compute in E. by injection E as <- _ _.
Defined.

End LoraProperties.
