(* ===== verification/KVInterface.v ===== *)
(** * The KV cache as the scheduler sees it (PagedKVCacheManagerInterface)

    [KVCache]: the calls the batch constructor makes on a KV cache, as a class;
    [KVCacheLaws]: what it relies on. [paged_kv_cache] and [paged_kv_cache_laws] show
    that [PagedKVCacheManager] is such a cache. *)

From S2P Require Import Prelude Tokens Eos FreeQueue Pool Grammar Context Hashing Connector Manager ManagerFacts ManagerProperties CacheManager.

Class KVCache {B : Backend} := {
  cache : Type;
  (** the handle of an onload a call to [alloc] started *)
  onload : Type;
  onload_complete : onload → cache → bool;
  kv_page_size : cache → Z;
  kv_contains : Z → cache → bool;
  kv_claim : Z → Z → M cache unit;
  kv_release : Z → M cache unit;
  (** may move the request's tokens past a cached prefix *)
  kv_alloc : M (cache * Ctx.t B) onload;
  kv_get_req_blocks : Z → M cache (list Z);
  kv_block_count : Z → M cache BlockCount.t;
  kv_pending_transfers_exist : Z → M cache bool;
  kv_prefix_cache_hit_counts : M (cache * Ctx.t B) (list PrefixCacheHits.t)
}.

(** [m] does not raise [e]. *)
Definition avoids {S A} (e : exn) (m : M S A) : Prop := ∀ s, (m s).1 ≠ Raise e.

Class KVCacheLaws {B : Backend} `{!KVCache} : Prop := {
  (** an allocation moves a request within its tokens: it stays the same request, with
      the same tokens, cut or not cut as it was *)
  alloc_keeps k (x : Ctx.t B) : Trace.good_tokens x →
    let x' := (kv_alloc (k, x)).2.2 in
    TextContext.request_id (Ctx.base x') = TextContext.request_id (Ctx.base x) ∧ Trace.good_tokens x' ∧
    TokenBuffer.actively_chunked (Ctx.tokens x') = TokenBuffer.actively_chunked (Ctx.tokens x);
  (** only an allocation reports that blocks are missing *)
  claim_avoids rid i : avoids InsufficientBlocksError (kv_claim rid i);
  release_avoids rid : avoids InsufficientBlocksError (kv_release rid);
  pending_avoids i : avoids InsufficientBlocksError (kv_pending_transfers_exist i);
  count_avoids i : avoids InsufficientBlocksError (kv_block_count i)
}.

(** ** The paged cache *)
Section Paged.
Context `{Digest} {B : Backend} `{KVConnector} `{Driver}.

(** The state and the context as one pair. *)
Definition paired {A} (f : M PagedKVCacheManager.world A) : M (PagedKVCacheManager.t * Ctx.t B) A := λ s,
  let '(r, w) := f (PagedKVCacheManager.mk_world s.1 s.2) in
  (r, (PagedKVCacheManager.kv w, PagedKVCacheManager.ctx w)).

#[export] Instance paged_kv_cache : KVCache | 10 := {|
  cache := PagedKVCacheManager.t;
  onload := transfer;
  onload_complete e k := is_complete e (BlockManager.connector (PagedKVCacheManager._block_manager k));
  kv_page_size k := page_size (PagedKVCacheManager.params k);
  kv_contains := PagedKVCacheManager.contains;
  kv_claim := PagedKVCacheManager.claim;
  kv_release := PagedKVCacheManager.release;
  kv_alloc := paired PagedKVCacheManager.alloc;
  kv_get_req_blocks := PagedKVCacheManager.get_req_blocks;
  kv_block_count := PagedKVCacheManager.block_count;
  kv_pending_transfers_exist := PagedKVCacheManager.pending_transfers_exist;
  kv_prefix_cache_hit_counts := paired PagedKVCacheManager.get_prefix_cache_hit_counts
|}.

End Paged.

(** ** Its laws *)
Module PagedLaws.

(** *** Exceptions *)
Section Avoids.
Context {S : Type} (e : exn).

Lemma avoids_ret {A} (a : A) : avoids e (ret (S:=S) a).
Proof. by intros s. Qed.
Lemma avoids_get : avoids e (get (S:=S)).
Proof. by intros s. Qed.
Lemma avoids_modify (f : S → S) : avoids e (modify f).
Proof. by intros s. Qed.
Lemma avoids_raise {A} e' : e' ≠ e → avoids e (raise (S:=S) (A:=A) e').
Proof. intros Hne s. unfold raise. simpl. congruence. Qed.
Lemma avoids_raise_if b e' : e' ≠ e → avoids e (raise_if (S:=S) b e').
Proof. destruct b; [apply avoids_raise|intros _; apply avoids_ret]. Qed.
Lemma avoids_assert b : e ≠ AssertionError → avoids e (py_assert (S:=S) b).
Proof. destruct b; [intros _; apply avoids_ret|]. intros Hne. apply avoids_raise. congruence. Qed.
Lemma avoids_option {A} e' (o : option A) : e' ≠ e → avoids e (of_option (S:=S) e' o).
Proof. destruct o; [intros _; apply avoids_ret|apply avoids_raise]. Qed.
Lemma avoids_bind {A B} (m : M S A) (f : A → M S B) :
  avoids e m → (∀ a, avoids e (f a)) → avoids e (bind m f).
Proof.
  intros Hm Hf s. unfold bind. specialize (Hm s). destruct (m s) as [[a|e'] s1]; [apply Hf|].
  simpl in *. congruence.
Qed.
Lemma avoids_when b (m : M S unit) : avoids e m → avoids e (when b m).
Proof. destruct b; [done|intros _; apply avoids_ret]. Qed.
Lemma avoids_for_each {A} (l : list A) f : (∀ x, avoids e (f x)) → avoids e (for_each (S:=S) l f).
Proof.
  intros Hf. induction l as [|x l IH]; [apply avoids_ret|]. apply avoids_bind; [apply Hf|by intros _].
Qed.
Lemma avoids_zoom {T A} (g : S → T) p (m : M T A) : avoids e m → avoids e (zoom g p m).
Proof. intros Hm s. unfold zoom. specialize (Hm (g s)). by destruct (m (g s)). Qed.
End Avoids.

(** Walk through a method none of whose raises is the exception. *)
Ltac solve_avoids :=
  repeat first
    [ progress intros | apply avoids_ret | apply avoids_get | apply avoids_modify
    | apply avoids_raise_if; discriminate | apply avoids_raise; discriminate
    | apply avoids_assert; discriminate | apply avoids_option; discriminate
    | apply avoids_zoom | apply avoids_when | apply avoids_for_each
    | match goal with |- avoids _ (match ?x with _ => _ end) => destruct x end
    | apply avoids_bind ].

Section Paged.
Context `{Digest} {B : Backend} `{KVConnector} `{Driver}.
Import PagedKVCacheManager.

Lemma on_pool_avoids {A} i (f : M BlockPool.t A) :
  avoids InsufficientBlocksError f → avoids InsufficientBlocksError (BlockManager.on_pool i f).
Proof.
  intros Hf m. unfold BlockManager.on_pool. destruct (py_index _ i) as [p|]; [|done].
  specialize (Hf p). by destruct (f p).
Qed.
Lemma blocks_of_avoids rid : avoids InsufficientBlocksError (BlockManager.blocks_of rid).
Proof. intros m. unfold BlockManager.blocks_of. by destruct (_ !! _). Qed.

Lemma paged_claim_avoids rid i : avoids InsufficientBlocksError (claim rid i).
Proof. unfold claim, on_blocks. solve_avoids. Qed.
Lemma paged_release_avoids rid : avoids InsufficientBlocksError (release rid).
Proof.
  unfold release, on_blocks. solve_avoids; [apply on_pool_avoids, avoids_get|apply blocks_of_avoids|].
  apply on_pool_avoids. unfold BlockPool.free_block. solve_avoids.
Qed.
Lemma paged_pending_avoids i : avoids InsufficientBlocksError (pending_transfers_exist i).
Proof. unfold pending_transfers_exist, on_blocks. solve_avoids. Qed.

Lemma paged_count_avoids i : avoids InsufficientBlocksError (block_count i).
Proof.
  unfold block_count, on_blocks, BlockManager.pool_at. solve_avoids.
  apply on_pool_avoids, avoids_get.
Qed.

(** *** An allocation keeps the request *)

(** Context [y] is still request [rid], with good tokens, cut as [b] says. *)
Definition Kept (rid : Z) (b : bool) (y : Ctx.t B) : Prop :=
  TextContext.request_id (Ctx.base y) = rid ∧ Trace.good_tokens y ∧
  TokenBuffer.actively_chunked (Ctx.tokens y) = b.
Definition WorldKept rid b (w : BlockManager.world) : Prop := Kept rid b (BlockManager.ctx w).

Lemma kept_retoken rid b y t :
  Kept rid b y → TokenBuffer.wf t → TokenBuffer.all t = TokenBuffer.all (Ctx.tokens y) →
  TokenBuffer.actively_chunked t = TokenBuffer.actively_chunked (Ctx.tokens y) →
  Kept rid b (Ctx.set_base (TextContext.set_tokens t (Ctx.base y)) y).
Proof.
  intros (Hr & [Hwf H64] & Hc) Hwf' Hall Hch. unfold Kept, Trace.good_tokens, Ctx.tokens in *.
  rewrite Ownership.base_set_base. simpl. rewrite Hall, Hch. done.
Qed.

Lemma kept_on_mgr {A} rid b (f : M BlockManager.t A) : preserves (WorldKept rid b) (BlockManager.on_mgr f).
Proof. intros [m y] Hy. unfold BlockManager.on_mgr, zoom. simpl. by destruct (f m). Qed.

Lemma kept_on_ctx {A} rid b (f : M (Ctx.t B) A) :
  preserves (Kept rid b) f → preserves (WorldKept rid b) (BlockManager.on_ctx f).
Proof.
  intros Hf [m y] Hy. unfold BlockManager.on_ctx, zoom. simpl. specialize (Hf y Hy). by destruct (f y).
Qed.

Lemma kept_on_tokens {A} rid b (f : M TokenBuffer.t A) :
  (∀ t, TokenBuffer.wf t → TokenBuffer.wf (f t).2 ∧ TokenBuffer.all (f t).2 = TokenBuffer.all t ∧
     TokenBuffer.actively_chunked (f t).2 = TokenBuffer.actively_chunked t) →
  preserves (Kept rid b) (Ctx.on_tokens f).
Proof.
  intros Hf y Hy. unfold Ctx.on_tokens, Ctx.on_base, TextContext.on_tokens, zoom.
  destruct (Hf (Ctx.tokens y)) as (Hwf & Hall & Hc); [apply Hy|]. unfold Ctx.tokens in *.
  destruct (f (TextContext.tokens (Ctx.base y))) as [r t]. simpl in *. by apply kept_retoken.
Qed.

Lemma kept_rewind rid b n : preserves (Kept rid b) (Ctx.on_tokens (TokenBuffer.rewind_processing n)).
Proof.
  apply kept_on_tokens. intros t Hwf. rewrite TokenBuffer.rewind_run by done.
  destruct (_ && _) eqn:E; [simpl|done]. split; [|done]. destruct Hwf.
  unfold TokenBuffer.processed_length in *. split; simpl; try done; lia.
Qed.

Lemma kept_skip rid b n : preserves (Kept rid b) (Ctx.on_tokens (TokenBuffer.skip_processing n)).
Proof.
  apply kept_on_tokens. intros t Hwf. rewrite TokenBuffer.skip_run by done.
  destruct (_ && _) eqn:E; [simpl|done]. split; [|done]. pose proof Hwf. destruct Hwf.
  unfold TokenBuffer.active_length, Range.length, TokenBuffer.processed_length in *.
  split; simpl; try done; lia.
Qed.

Lemma kept_base {A} rid b (f : M (TextContext.t B) A) :
  (∀ c, TextContext.request_id (f c).2 = TextContext.request_id c ∧
     TextContext.tokens (f c).2 = TextContext.tokens c) →
  preserves (Kept rid b) (Ctx.on_base f).
Proof.
  intros Hf y (Hr & [Hwf H64] & Hc). unfold Ctx.on_base, zoom. destruct (Hf (Ctx.base y)) as [Hr' Ht].
  destruct (f (Ctx.base y)) as [r c]. simpl in *. unfold Kept, Trace.good_tokens, Ctx.tokens in *.
  rewrite Ownership.base_set_base, Hr', Ht. done.
Qed.

Lemma kept_hashes rid b ex bs algo seed :
  preserves (Kept rid b) (BlockHashes.compute_block_hashes ex bs algo seed).
Proof.
  intros y Hy. rewrite HashFacts.compute_block_hashes_run; [done|apply Hy|].
  destruct Hy as (_ & [_ H64] & _). intros x Hx. eapply (proj1 (forallb_forall _ _)); [exact H64|].
  by apply list_elem_of_In.
Qed.

Lemma kept_spec rid b : preserves (Kept rid b) (Ctx.on_base TextContext.spec_decoding_state).
Proof. apply kept_base. intros c. by rewrite Ownership.spec_state_run. Qed.
Lemma kept_seq_len rid b n k : preserves (Kept rid b) (Ctx.on_base (_compute_seq_len n k None)).
Proof. apply kept_base. intros c. by rewrite Ownership.compute_seq_len_run. Qed.
Lemma kept_cached rid b x : preserves (Kept rid b) (Ctx.on_base (modify (TextContext.set_cached x))).
Proof. by apply kept_base. Qed.

(** Walk through a method of the manager and the request's context. *)
Ltac solve_kept :=
  repeat first
    [ progress intros
    | apply kept_on_mgr
    | apply kept_on_ctx, kept_hashes | apply kept_on_ctx, kept_rewind | apply kept_on_ctx, kept_skip
    | apply kept_on_ctx, kept_spec | apply kept_on_ctx, kept_seq_len | apply kept_on_ctx, kept_cached
    | solve [eauto 2 with preserves_db]
    | apply preserves_bind | apply preserves_for_each | apply preserves_when
    | match goal with |- preserves _ (match ?x with _ => _ end) => destruct x end ].

Lemma kept_reuse rid b : preserves (WorldKept rid b) BlockManager.reuse_blocks_from_prefix_cache.
Proof.
  unfold BlockManager.reuse_blocks_from_prefix_cache, BlockManager.release_uncommitted_blocks,
    BlockManager.compute_hashes_for_request, BlockManager.text. solve_kept.
Qed.

Lemma kept_allocate rid b n k : preserves (WorldKept rid b) (BlockManager.allocate_new_blocks n k).
Proof.
  unfold BlockManager.allocate_new_blocks, BlockManager.num_blocks_to_allocate, BlockManager.text. solve_kept.
Qed.

Lemma kept_alloc rid b : preserves (λ w, Kept rid b (ctx w)) alloc.
Proof.
  assert (∀ A (f : M BlockManager.world A), preserves (WorldKept rid b) f →
    preserves (λ w, Kept rid b (ctx w)) (on_request f)) as Hreq.
  { intros A f Hf [k y] Hy. unfold on_request. simpl. specialize (Hf (BlockManager.mk_world (_block_manager k) y) Hy).
    by destruct (f _) as [r [m' y']]. }
  unfold alloc. apply preserves_bind; [|intros _; apply preserves_bind].
  - intros [k y] Hy. unfold on_kv, zoom. simpl. by destruct (on_blocks _ k).
  - apply Hreq, kept_reuse.
  - intros [? ?]. apply preserves_bind; [apply preserves_get|intros w]. apply preserves_bind; [|intros; apply preserves_ret].
    apply Hreq, kept_allocate.
Qed.

End Paged.
End PagedLaws.

#[export] Instance paged_kv_cache_laws `{Digest} {B : Backend} `{KVConnector} `{Driver} :
  KVCacheLaws (B := B) | 10.
Proof.
  split.
  - intros k x Hx. pose proof (PagedLaws.kept_alloc (TextContext.request_id (Ctx.base x))
      (TokenBuffer.actively_chunked (Ctx.tokens x)) (PagedKVCacheManager.mk_world k x)) as Hk.
    simpl. unfold paired. simpl. destruct (PagedKVCacheManager.alloc _) as [r [k' x']]. by apply Hk.
  - apply PagedLaws.paged_claim_avoids.
  - apply PagedLaws.paged_release_avoids.
  - apply PagedLaws.paged_pending_avoids.
  - apply PagedLaws.paged_count_avoids.
Qed.
