(* ===== verification/Batch.v ===== *)
(** * The batch constructor (serve/scheduler/batch_constructor/text_batch_constructor.py,
      grammar_gate.py; serve/scheduler/config.py)

    Requests wait in queues, per replica for context encoding (CE) and for token
    generation (TG); each iteration forms one batch per replica within the token
    budgets, the KV cache's memory and the LoRA slots. A request is one object, shared
    by every queue that mentions it: the queues hold request ids, the objects are in
    the map [requests]. The KV cache is an instance of [KVCache]; the pipeline, the
    thread pool that builds grammars and the floating-point numbers are classes. Not
    modelled: logging, metrics, and the padding of data-parallel batches (a constructor
    whose [dp_padder] is [None]). *)

From S2P Require Import Prelude Tokens Eos FreeQueue Pool Grammar Context Hashing Connector Manager ManagerFacts ManagerProperties CacheManager KVInterface Dict Budget Lora.

(** ** What the constructor calls outside the scheduler *)

(** The pipeline's own per-request resources. *)
Class Pipeline := {
  pipeline : Type;
  pipeline_release : Z → M pipeline unit
}.

(** Floating-point numbers: [int_div] is the true division of two integers. *)
Class Floats := {
  float : Type;
  f_of_Z : Z → float;
  int_div : Z → Z → float;
  f_sub : float → float → float;
  f_div : float → float → float;
  f_ltb : float → float → bool;
  f_leb : float → float → bool
}.

(** The thread pool that builds grammar matchers, and the helper that installs them. A
    finished build has a matcher, or the error message to report. *)
Class GrammarBuilder {B : Backend} := {
  executor : Type;
  future : Type;
  submit_build : option string → option string → executor → future * executor;
  future_done : future → executor → bool;
  future_result : future → executor → string + Matcher;
  future_cancel : future → executor → executor;
  install_matcher : Matcher → Ctx.t B → Ctx.t B;
  enable_response_format_schema : bool
}.

(** ** A request: its context and the constant fields the scheduler reads *)
Record Request {B : Backend} := mk_request {
  ctx : Ctx.t B;
  model_name : string;
  grammar : option string;
  json_schema : option string;
  requires_structured_output_flag : bool;
  target_endpoint : option string
}.
Arguments Request B : clear implicits.

Section Requests.
Context {B : Backend}.
Implicit Types r : Request B.

Definition set_ctx (x : Ctx.t B) r : Request B :=
  mk_request _ x (model_name r) (grammar r) (json_schema r) (requires_structured_output_flag r)
    (target_endpoint r).
Definition request_id r : Z := TextContext.request_id (Ctx.base (ctx r)).
Definition tokens r : TokenBuffer.t := Ctx.tokens (ctx r).

End Requests.

(** ** The grammar gate *)
Module AsyncGrammarGate.

Record t `{GrammarBuilder} := mk {
  _executor : executor;
  _futures : gmap Z future
}.

Section Gate.
Context `{GrammarBuilder}.
Implicit Types g : t.

Definition _wants_precompile (r : Request B) : bool :=
  if bool_decide (is_Some (TextContext._matcher (Ctx.base (ctx r)))) then false else
  if bool_decide (grammar r ≠ None ∧ grammar r ≠ Some EmptyString)
  then negb (requires_structured_output_flag r) || enable_response_format_schema else
  if bool_decide (is_Some (json_schema r)) then enable_response_format_schema else false.

Definition submit (r : Request B) : M t unit :=
  let! g := get in
  if negb (_wants_precompile r) then ret tt else
  if bool_decide (is_Some (_futures g !! request_id r)) then ret tt else
  let '(f, e) := submit_build (grammar r) (json_schema r) (_executor g) in
  put (mk _ _ e (<[request_id r := f]> (_futures g))).

Definition is_ready (rid : Z) g : bool :=
  match _futures g !! rid with None => true | Some f => future_done f (_executor g) end.

(** The error to report, or the request with its matcher installed. *)
Definition install_ready (r : Request B) : M t (string + Request B) :=
  let! g := get in
  match _futures g !! request_id r with
  | None => ret (inr r)
  | Some f =>
      put (mk _ _ (_executor g) (delete (request_id r) (_futures g)));;
      py_assert (future_done f (_executor g));;
      match future_result f (_executor g) with
      | inl error => ret (inl error)
      | inr matcher => ret (inr (set_ctx (install_matcher matcher (ctx r)) r))
      end
  end.

Definition release (rid : Z) g : t :=
  match _futures g !! rid with
  | None => g
  | Some f => mk _ _ (future_cancel f (_executor g)) (delete rid (_futures g))
  end.

End Gate.
End AsyncGrammarGate.

(** ** Configuration *)
Record TokenGenerationSchedulerConfig `{Floats} := scheduler_config_of {
  max_batch_size : Z;
  target_tokens_per_batch_ce : Z;
  max_seq_len : option Z;
  max_batch_total_tokens : option Z;
  enable_chunked_prefill : bool;
  chunked_prefill_min_chunk_size : Z;
  enable_in_flight_batching : bool;
  data_parallel_degree : Z;
  num_speculative_tokens : Z;
  decode_stall_timeout_s : option float;
  decode_request_ttl_s : option float;
  dp_ce_balance_timeout_ms : float;
  dp_ce_balance_threshold : float;
  dp_ce_balance_enable_dynamic_chunk_size : bool
}.

(** [__post_init__] *)
Definition check_config `{Floats} (c : TokenGenerationSchedulerConfig) : outcome unit :=
  if max_batch_size c <=? 0 then Raise ValueError else
  if target_tokens_per_batch_ce c <=? 0 then Raise ValueError else
  if chunked_prefill_min_chunk_size c <? 0 then Raise ValueError else
  if match max_batch_total_tokens c, max_seq_len c with Some a, Some b => a <? b | _, _ => false end
  then Raise ValueError else
  if max_batch_size c >? target_tokens_per_batch_ce c then Raise ValueError else
  if negb (f_leb (f_of_Z 0) (dp_ce_balance_threshold c) && f_leb (dp_ce_balance_threshold c) (f_of_Z 1))
  then Raise ValueError else Ok tt.

Inductive BatchSchedulingStrategy := PREFILL_FIRST | DECODE_FIRST | BALANCED | PER_REPLICA.

(** [BlockCount.used_pct] *)
Definition used_pct `{Floats} (c : BlockCount.t) : float :=
  if BlockCount.total c =? 0 then f_of_Z 0
  else int_div (100 * (BlockCount.total c - BlockCount.free c)) (BlockCount.total c).

(** The first element with the smallest key. *)
Definition argmin (key : Z → Z) (l : list Z) : option Z :=
  match l with
  | [] => None
  | x :: l => Some (foldl (λ best y, if key y <? key best then y else best) x l)
  end.

(** ** The requests of one replica *)
Module ReplicaRequests.

Record t := mk {
  ce_reqs : list Z;
  tg_reqs : list Z;
  active_loras : gset string;
  deferred_lora_requests : list Z
}.

Definition empty : t := mk [] [] ∅ [].

Definition set_ce (q : list Z) (r : t) : t := mk q (tg_reqs r) (active_loras r) (deferred_lora_requests r).
Definition set_tg (q : list Z) (r : t) : t := mk (ce_reqs r) q (active_loras r) (deferred_lora_requests r).
Definition set_active_loras (l : gset string) (r : t) : t :=
  mk (ce_reqs r) (tg_reqs r) l (deferred_lora_requests r).
Definition set_deferred (q : list Z) (r : t) : t := mk (ce_reqs r) (tg_reqs r) (active_loras r) q.

Definition update_deferred_lora_requests (r : t) : t :=
  set_deferred [] (set_ce
    (foldl (λ q k, OrderedIds.to_front k (OrderedIds.push k q)) (ce_reqs r) (deferred_lora_requests r)) r).

End ReplicaRequests.

(** ** A replica's batch *)
Module ReplicaBatch.

Record t := mk {
  batch : list Z;
  token_budget : TokenBudgetCollection.t
}.

Definition length (b : t) : Z := len (batch b).
Definition is_empty (b : t) : bool := bool_decide (batch b = []).

End ReplicaBatch.

(** ** The constructor *)
Module TextBatchConstructor.
Import ReplicaRequests.

(** What construction fixes. *)
Record Settings `{Floats} := mk_settings {
  scheduler_config : TokenGenerationSchedulerConfig;
  batch_scheduling_strategy : BatchSchedulingStrategy;
  tg_priority_kv_percentage : float;
  _get_inflight_kv_transfer_count : option (Z → Z);
  num_replicas : Z
}.

Record t {B : Backend} `{KV : !KVCache, P : Pipeline, F : Floats, G : !GrammarBuilder, A : AdapterStore} := mk {
  settings : Settings;
  kv_cache : cache;
  pipeline_state : pipeline;
  _lora_manager : option LoRAManagerV3.t;
  _grammar_gate : option AsyncGrammarGate.t;
  (** the request objects *)
  requests : gmap Z (Request B);
  replicas : list ReplicaRequests.t;
  (** request id to replica index *)
  _bound_requests : gmap Z Z;
  _request_id_to_lora_name : gmap Z (option string);
  (** request id to replica index and handle, in insertion order *)
  _onloading_reqs : list (Z * (Z * onload));
  (** request id to weights, in arrival order *)
  _ce_pending : list (Z * list Z);
  _ce_arrival : gmap Z float;
  _ce_deferred_replicas : gset Z;
  _ce_step_quota : option (list Z);
  (** request id to the pinned replica *)
  _grammar_pending : list (Z * option Z);
  _grammar_failed : list (Z * string);
  total_preemption_count : Z
}.

Section Constructor.
Context {B : Backend} `{KV : !KVCache, P : Pipeline, F : Floats, G : !GrammarBuilder, A : AdapterStore}.
Implicit Types s : t.

(** *** Field updates *)
Definition set_settings x s : t :=
  mk _ _ _ _ _ _ x (kv_cache s) (pipeline_state s) (_lora_manager s) (_grammar_gate s) (requests s)
    (replicas s) (_bound_requests s) (_request_id_to_lora_name s) (_onloading_reqs s) (_ce_pending
    s) (_ce_arrival s) (_ce_deferred_replicas s) (_ce_step_quota s) (_grammar_pending s)
    (_grammar_failed s) (total_preemption_count s).
Definition set_kv x s : t :=
  mk _ _ _ _ _ _ (settings s) x (pipeline_state s) (_lora_manager s) (_grammar_gate s) (requests s)
    (replicas s) (_bound_requests s) (_request_id_to_lora_name s) (_onloading_reqs s) (_ce_pending
    s) (_ce_arrival s) (_ce_deferred_replicas s) (_ce_step_quota s) (_grammar_pending s)
    (_grammar_failed s) (total_preemption_count s).
Definition set_pipeline x s : t :=
  mk _ _ _ _ _ _ (settings s) (kv_cache s) x (_lora_manager s) (_grammar_gate s) (requests s)
    (replicas s) (_bound_requests s) (_request_id_to_lora_name s) (_onloading_reqs s) (_ce_pending
    s) (_ce_arrival s) (_ce_deferred_replicas s) (_ce_step_quota s) (_grammar_pending s)
    (_grammar_failed s) (total_preemption_count s).
Definition set_lora x s : t :=
  mk _ _ _ _ _ _ (settings s) (kv_cache s) (pipeline_state s) x (_grammar_gate s) (requests s)
    (replicas s) (_bound_requests s) (_request_id_to_lora_name s) (_onloading_reqs s) (_ce_pending
    s) (_ce_arrival s) (_ce_deferred_replicas s) (_ce_step_quota s) (_grammar_pending s)
    (_grammar_failed s) (total_preemption_count s).
Definition set_gate x s : t :=
  mk _ _ _ _ _ _ (settings s) (kv_cache s) (pipeline_state s) (_lora_manager s) x (requests s)
    (replicas s) (_bound_requests s) (_request_id_to_lora_name s) (_onloading_reqs s) (_ce_pending
    s) (_ce_arrival s) (_ce_deferred_replicas s) (_ce_step_quota s) (_grammar_pending s)
    (_grammar_failed s) (total_preemption_count s).
Definition set_requests x s : t :=
  mk _ _ _ _ _ _ (settings s) (kv_cache s) (pipeline_state s) (_lora_manager s) (_grammar_gate s) x
    (replicas s) (_bound_requests s) (_request_id_to_lora_name s) (_onloading_reqs s) (_ce_pending
    s) (_ce_arrival s) (_ce_deferred_replicas s) (_ce_step_quota s) (_grammar_pending s)
    (_grammar_failed s) (total_preemption_count s).
Definition set_replicas x s : t :=
  mk _ _ _ _ _ _ (settings s) (kv_cache s) (pipeline_state s) (_lora_manager s) (_grammar_gate s)
    (requests s) x (_bound_requests s) (_request_id_to_lora_name s) (_onloading_reqs s) (_ce_pending
    s) (_ce_arrival s) (_ce_deferred_replicas s) (_ce_step_quota s) (_grammar_pending s)
    (_grammar_failed s) (total_preemption_count s).
Definition set_bound x s : t :=
  mk _ _ _ _ _ _ (settings s) (kv_cache s) (pipeline_state s) (_lora_manager s) (_grammar_gate s)
    (requests s) (replicas s) x (_request_id_to_lora_name s) (_onloading_reqs s) (_ce_pending s)
    (_ce_arrival s) (_ce_deferred_replicas s) (_ce_step_quota s) (_grammar_pending s)
    (_grammar_failed s) (total_preemption_count s).
Definition set_lora_names x s : t :=
  mk _ _ _ _ _ _ (settings s) (kv_cache s) (pipeline_state s) (_lora_manager s) (_grammar_gate s)
    (requests s) (replicas s) (_bound_requests s) x (_onloading_reqs s) (_ce_pending s) (_ce_arrival
    s) (_ce_deferred_replicas s) (_ce_step_quota s) (_grammar_pending s) (_grammar_failed s)
    (total_preemption_count s).
Definition set_onloading x s : t :=
  mk _ _ _ _ _ _ (settings s) (kv_cache s) (pipeline_state s) (_lora_manager s) (_grammar_gate s)
    (requests s) (replicas s) (_bound_requests s) (_request_id_to_lora_name s) x (_ce_pending s)
    (_ce_arrival s) (_ce_deferred_replicas s) (_ce_step_quota s) (_grammar_pending s)
    (_grammar_failed s) (total_preemption_count s).
Definition set_pending x s : t :=
  mk _ _ _ _ _ _ (settings s) (kv_cache s) (pipeline_state s) (_lora_manager s) (_grammar_gate s)
    (requests s) (replicas s) (_bound_requests s) (_request_id_to_lora_name s) (_onloading_reqs s) x
    (_ce_arrival s) (_ce_deferred_replicas s) (_ce_step_quota s) (_grammar_pending s)
    (_grammar_failed s) (total_preemption_count s).
Definition set_arrival x s : t :=
  mk _ _ _ _ _ _ (settings s) (kv_cache s) (pipeline_state s) (_lora_manager s) (_grammar_gate s)
    (requests s) (replicas s) (_bound_requests s) (_request_id_to_lora_name s) (_onloading_reqs s)
    (_ce_pending s) x (_ce_deferred_replicas s) (_ce_step_quota s) (_grammar_pending s)
    (_grammar_failed s) (total_preemption_count s).
Definition set_deferred_replicas x s : t :=
  mk _ _ _ _ _ _ (settings s) (kv_cache s) (pipeline_state s) (_lora_manager s) (_grammar_gate s)
    (requests s) (replicas s) (_bound_requests s) (_request_id_to_lora_name s) (_onloading_reqs s)
    (_ce_pending s) (_ce_arrival s) x (_ce_step_quota s) (_grammar_pending s) (_grammar_failed s)
    (total_preemption_count s).
Definition set_quota x s : t :=
  mk _ _ _ _ _ _ (settings s) (kv_cache s) (pipeline_state s) (_lora_manager s) (_grammar_gate s)
    (requests s) (replicas s) (_bound_requests s) (_request_id_to_lora_name s) (_onloading_reqs s)
    (_ce_pending s) (_ce_arrival s) (_ce_deferred_replicas s) x (_grammar_pending s)
    (_grammar_failed s) (total_preemption_count s).
Definition set_grammar_pending x s : t :=
  mk _ _ _ _ _ _ (settings s) (kv_cache s) (pipeline_state s) (_lora_manager s) (_grammar_gate s)
    (requests s) (replicas s) (_bound_requests s) (_request_id_to_lora_name s) (_onloading_reqs s)
    (_ce_pending s) (_ce_arrival s) (_ce_deferred_replicas s) (_ce_step_quota s) x (_grammar_failed
    s) (total_preemption_count s).
Definition set_grammar_failed x s : t :=
  mk _ _ _ _ _ _ (settings s) (kv_cache s) (pipeline_state s) (_lora_manager s) (_grammar_gate s)
    (requests s) (replicas s) (_bound_requests s) (_request_id_to_lora_name s) (_onloading_reqs s)
    (_ce_pending s) (_ce_arrival s) (_ce_deferred_replicas s) (_ce_step_quota s) (_grammar_pending
    s) x (total_preemption_count s).
Definition set_preemptions x s : t :=
  mk _ _ _ _ _ _ (settings s) (kv_cache s) (pipeline_state s) (_lora_manager s) (_grammar_gate s)
    (requests s) (replicas s) (_bound_requests s) (_request_id_to_lora_name s) (_onloading_reqs s)
    (_ce_pending s) (_ce_arrival s) (_ce_deferred_replicas s) (_ce_step_quota s) (_grammar_pending
    s) (_grammar_failed s) x.

(** *** Objects and their parts *)
Definition config s : TokenGenerationSchedulerConfig := scheduler_config (settings s).
Definition n_replicas s : Z := num_replicas (settings s).

Definition on_kv {X} (f : M cache X) : M t X := zoom kv_cache set_kv f.
Definition on_pipeline {X} (f : M pipeline X) : M t X := zoom pipeline_state set_pipeline f.
Definition on_lora {X} (f : M LoRAManagerV3.t X) : M t X := λ s,
  match _lora_manager s with
  | None => (Raise AttributeError, s)
  | Some m => let '(r, m) := f m in (r, set_lora (Some m) s)
  end.
Definition on_gate {X} (f : M AsyncGrammarGate.t X) : M t X := λ s,
  match _grammar_gate s with
  | None => (Raise AttributeError, s)
  | Some g => let '(r, g) := f g in (r, set_gate (Some g) s)
  end.

(** The object of a request id. *)
Definition request (rid : Z) : M t (Request B) :=
  let! s := get in of_option KeyError (requests s !! rid).
Definition put_request (r : Request B) : M t unit :=
  modify (λ s, set_requests (<[request_id r := r]> (requests s)) s).
(** A call that reads and changes the cache and a request's context. *)
Definition on_kv_request {X} (rid : Z) (f : M (cache * Ctx.t B) X) : M t X := λ s,
  match requests s !! rid with
  | None => (Raise KeyError, s)
  | Some r =>
      let '(o, (k, x)) := f (kv_cache s, ctx r) in
      (o, set_requests (<[rid := set_ctx x r]> (requests s)) (set_kv k s))
  end.
Definition on_request {X} (rid : Z) (f : M (Ctx.t B) X) : M t X := λ s,
  match requests s !! rid with
  | None => (Raise KeyError, s)
  | Some r => let '(o, x) := f (ctx r) in (o, set_requests (<[rid := set_ctx x r]> (requests s)) s)
  end.

Definition replica_at (i : Z) : M t ReplicaRequests.t :=
  let! s := get in of_option IndexError (py_index (replicas s) i).
Definition on_replica (i : Z) (f : ReplicaRequests.t → ReplicaRequests.t) : M t unit :=
  let! r := replica_at i in
  modify (λ s, set_replicas (<[Z.to_nat (if i <? 0 then len (replicas s) + i else i) := f r]> (replicas s)) s).

Definition release_pipeline (rid : Z) : M t unit := on_pipeline (pipeline_release rid).

(** *** Queries *)
Definition contains (rid : Z) s : bool :=
  bool_decide (is_Some (_bound_requests s !! rid)) || bool_decide (rid ∈ OrderedDict.keys (_ce_pending s))
  || bool_decide (rid ∈ OrderedDict.keys (_grammar_pending s))
  || bool_decide (rid ∈ OrderedDict.keys (_onloading_reqs s)).

(** The ids, each once, in dictionary order. *)
Definition all_ce_reqs s : list Z :=
  foldl (λ q k, OrderedIds.push k q) []
    (concat (map ce_reqs (replicas s)) ++ OrderedDict.keys (_ce_pending s)
     ++ OrderedDict.keys (_grammar_pending s) ++ OrderedDict.keys (_onloading_reqs s)).
Definition all_tg_reqs s : list Z :=
  foldl (λ q k, OrderedIds.push k q) [] (concat (map tg_reqs (replicas s))).

Definition is_lora_request (r : Request B) s : bool := is_lora (model_name r) (_lora_manager s).

(** *** Budgets and placement *)
Definition _create_new_token_budget (ce_capacity : option Z) s : TokenBudgetCollection.t :=
  let c := config s in
  Active (TokenBudget.init (default (target_tokens_per_batch_ce c) ce_capacity) (enable_chunked_prefill c)
            all_request_types (chunked_prefill_min_chunk_size c))
  :: match max_batch_total_tokens c with
     | None => []
     | Some n => [TotalContext (TokenBudget.init n (enable_chunked_prefill c) [CE; MIXED] 0)
                    (kv_page_size (kv_cache s))]
     end.

Definition get_next_replica_idx (external_requests_per_replica : option (list Z)) : M t Z :=
  let! s := get in
  let external i := match external_requests_per_replica with
                    | None => Some 0 | Some l => py_index l i end in
  let load i := match py_index (replicas s) i, external i with
                | Some r, Some e => Some (len (ce_reqs r) + len (tg_reqs r) + e)
                | _, _ => None
                end in
  let idxs := zrange 0 (n_replicas s) in
  raise_if (bool_decide (idxs = [])) ValueError;;
  raise_if (existsb (λ i, bool_decide (load i = None)) idxs) IndexError;;
  of_option ValueError (argmin (λ i, default 0 (load i)) idxs).

(** *** Requests come and go *)

Definition _bind_request (rid : Z) (replica_idx : Z) : M t unit :=
  let! _ := replica_at replica_idx in
  let! r := request rid in
  modify (λ s, set_bound (<[rid := replica_idx]> (_bound_requests s)) s);;
  modify (λ s, set_lora_names
    (<[rid := if is_lora_request r s then Some (model_name r) else None]> (_request_id_to_lora_name s)) s);;
  if TokenBuffer.generated_length (tokens r) =? 0
  then on_replica replica_idx (λ q, set_ce (OrderedIds.push rid (ce_reqs q)) q)
  else on_replica replica_idx (λ q, set_tg (OrderedIds.push rid (tg_reqs q)) q).

(** Any exception of the probe weighs the request at its full length. *)
Definition _post_cache_weights (rid : Z) : M t (list Z) :=
  let! r := request rid in
  let! s := get in
  let active_length := TokenBuffer.active_length (tokens r) in
  let! hits := catch (let! hits := on_kv_request rid kv_prefix_cache_hit_counts in ret (Some hits))
                     (λ _, Some (ret None)) in
  match hits with
  | None => ret (repeat active_length (Z.to_nat (n_replicas s)))
  | Some hits =>
      py_assert (len hits =? n_replicas s);;
      let! s := get in
      ret (map (λ h, Z.max 1 (active_length - kv_page_size (kv_cache s) * PrefixCacheHits.total_blocks h)) hits)
  end.

Definition _dp_ce_balance_enabled s : bool :=
  f_leb (f_of_Z 0) (dp_ce_balance_timeout_ms (config s)) && (n_replicas s >? 1).

Definition _admit_request (now : float) (rid : Z) (replica_idx : option Z) : M t unit :=
  let! r := request rid in
  let! s := get in
  if _dp_ce_balance_enabled s && bool_decide (replica_idx = None)
     && (TokenBuffer.generated_length (tokens r) =? 0)
  then
    let! weights := _post_cache_weights rid in
    modify (λ s, set_pending (OrderedDict.set rid weights (_ce_pending s)) s);;
    modify (λ s, set_arrival (<[rid := now]> (_ce_arrival s)) s)
  else
    let! replica_idx := (match replica_idx with Some i => ret i | None => get_next_replica_idx None end) in
    _bind_request rid replica_idx.

Definition _fail_grammar_request (rid : Z) (error : string) : M t unit :=
  release_pipeline rid;;
  modify (λ s, set_grammar_failed (_grammar_failed s ++ [(rid, error)]) s).

(** Install a finished matcher and take the request in, or fail it. *)
Definition install_and_admit (now : float) (rid : Z) (replica_idx : option Z) : M t unit :=
  let! r := request rid in
  let! result := on_gate (AsyncGrammarGate.install_ready r) in
  match result with
  | inl error => _fail_grammar_request rid error
  | inr r => put_request r;; _admit_request now rid replica_idx
  end.

(** The request's object becomes known to the constructor. *)
Definition enqueue_new_request (now : float) (r : Request B) (replica_idx : option Z) : M t unit :=
  put_request r;;
  let rid := request_id r in
  let! s := get in
  match _grammar_gate s with
  | Some _ =>
      if TokenBuffer.generated_length (tokens r) =? 0 then
        on_gate (AsyncGrammarGate.submit r);;
        let! g := on_gate get in
        if negb (AsyncGrammarGate.is_ready rid g)
        then modify (λ s, set_grammar_pending (OrderedDict.set rid replica_idx (_grammar_pending s)) s)
        else install_and_admit now rid replica_idx
      else _admit_request now rid replica_idx
  | None => _admit_request now rid replica_idx
  end.

Definition _promote_grammar_ready_requests (now : float) : M t unit :=
  let! s := get in
  match _grammar_gate s with
  | None => ret tt
  | Some g =>
      let ready := filter (λ e, AsyncGrammarGate.is_ready e.1 g = true) (_grammar_pending s) in
      for_each ready (λ '(rid, replica_idx),
        modify (λ s, set_grammar_pending (OrderedDict.delete rid (_grammar_pending s)) s);;
        install_and_admit now rid replica_idx)
  end.

Definition take_grammar_failed : M t (list (Z * string)) :=
  let! s := get in
  modify (set_grammar_failed []);;
  ret (_grammar_failed s).

(** A replica's queues without the request. *)
Definition drop_from_queues (rid : Z) (q : ReplicaRequests.t) : ReplicaRequests.t :=
  if decide (rid ∈ ce_reqs q) then set_ce (OrderedIds.remove rid (ce_reqs q)) q
  else if decide (rid ∈ tg_reqs q) then set_tg (OrderedIds.remove rid (tg_reqs q)) q
  else if decide (rid ∈ deferred_lora_requests q)
       then set_deferred (OrderedIds.remove rid (deferred_lora_requests q)) q
  else q.

(** Forget the request's adapter; unprotect one that no request uses any more. *)
Definition drop_lora (rid replica_idx : Z) : M t unit :=
  let! s := get in
  let lora_name := default None (_request_id_to_lora_name s !! rid) in
  modify (λ s, set_lora_names (delete rid (_request_id_to_lora_name s)) s);;
  match lora_name with
  | None => ret tt
  | Some name =>
      let! s := get in
      let still_needed := bool_decide (Some name ∈ (map_to_list (_request_id_to_lora_name s)).*2) in
      when (negb still_needed)
        (on_replica replica_idx (λ q, set_active_loras (active_loras q ∖ {[ name ]}) q))
  end.

Definition release_request (rid : Z) : M t unit :=
  let! s := get in
  raise_if (negb (contains rid s)) ValueError;;
  if bool_decide (rid ∈ OrderedDict.keys (_grammar_pending s)) then
    modify (λ s, set_grammar_pending (OrderedDict.delete rid (_grammar_pending s)) s);;
    py_assert (bool_decide (is_Some (_grammar_gate s)));;
    on_gate (modify (AsyncGrammarGate.release rid));;
    release_pipeline rid
  else if bool_decide (rid ∈ OrderedDict.keys (_ce_pending s)) then
    modify (λ s, set_pending (OrderedDict.delete rid (_ce_pending s)) s);;
    modify (λ s, set_arrival (delete rid (_ce_arrival s)) s);;
    release_pipeline rid
  else
    modify (λ s, set_arrival (delete rid (_ce_arrival s)) s);;
    modify (λ s, set_onloading (OrderedDict.delete rid (_onloading_reqs s)) s);;
    let! replica_idx := of_option KeyError (_bound_requests s !! rid) in
    on_replica replica_idx (drop_from_queues rid);;
    drop_lora rid replica_idx;;
    let! s := get in
    when (kv_contains rid (kv_cache s)) (on_kv (kv_release rid));;
    release_pipeline rid;;
    let! s := get in
    when (bool_decide (is_Some (_grammar_gate s))) (on_gate (modify (AsyncGrammarGate.release rid)));;
    modify (λ s, set_bound (delete rid (_bound_requests s)) s).

Definition clear_tg_reqs : M t unit :=
  let! s := get in
  for_each (zrange 0 (len (replicas s))) (λ i,
    let! q := replica_at i in
    for_each (tg_reqs q) (λ rid,
      let! s := get in
      raise_if (bool_decide (_bound_requests s !! rid = None)) KeyError;;
      modify (λ s, set_bound (delete rid (_bound_requests s)) s));;
    on_replica i (set_tg [])).

(** *** The end of a step *)

(** One replica's executed batch: its requests generate from now on, but for a last
    request whose prompt was cut. *)
Definition advance_replica (i : Z) (batch : list Z) : M t unit :=
  for_each batch (λ rid,
    let! s := get in
    when (contains rid s) (on_replica i (λ q, set_tg (OrderedIds.push rid (tg_reqs q)) q)));;
  match last batch with
  | None => ret tt
  | Some last_rid =>
      let! s := get in
      if negb (contains last_rid s) then ret tt else
      let! r := request last_rid in
      if negb (TokenBuffer.generated_length (tokens r) =? 0) then ret tt else
      let! q := replica_at i in
      raise_if (bool_decide (last_rid ∉ tg_reqs q)) KeyError;;
      on_replica i (λ q, set_tg (OrderedIds.remove last_rid (tg_reqs q)) q);;
      on_replica i (λ q, set_ce (OrderedIds.to_front last_rid (OrderedIds.push last_rid (ce_reqs q))) q)
  end.

(** [zip(..., strict=True)] raises once the shorter list is exhausted. *)
Definition advance_requests (batches : list (list Z)) : M t unit :=
  let! s := get in
  for_each (zip (zrange 0 (len (replicas s))) batches) (λ '(i, batch), advance_replica i batch);;
  raise_if (negb (len batches =? len (replicas s))) ValueError.

(** *** Preemption *)

(** [context.reset()] of the request's context *)
Definition reset_request (rid : Z) : M t unit := on_request rid (Ctx.on_base TextContext.reset).

Definition _return_to_request_queue (rid replica_idx : Z) : M t unit :=
  let! s := get in
  when (kv_contains rid (kv_cache s)) (on_kv (kv_release rid));;
  release_pipeline rid;;
  reset_request rid;;
  on_replica replica_idx (λ q,
    let q := set_tg (OrderedIds.remove rid (tg_reqs q)) q in
    set_ce (OrderedIds.to_front rid (OrderedIds.push rid (ce_reqs q))) q).

Definition _preempt_request (rid replica_idx : Z) : M t unit :=
  _return_to_request_queue rid replica_idx;;
  modify (λ s, set_preemptions (total_preemption_count s + 1) s).

(** *** Priorities *)

Definition _identify_priority (replica_idx : Z) : M t (option RequestType) :=
  let! s := get in
  if bool_decide (replica_idx ∈ _ce_deferred_replicas s) then ret (Some TG) else
  let! q := replica_at replica_idx in
  if bool_decide (ce_reqs q = []) && bool_decide (tg_reqs q = []) then ret None else
  if bool_decide (ce_reqs q = []) then ret (Some TG) else
  if bool_decide (tg_reqs q = []) then ret (Some CE) else
  let! count := on_kv (kv_block_count replica_idx) in
  if f_ltb (tg_priority_kv_percentage (settings s)) (used_pct count) then ret (Some TG) else
  if enable_in_flight_batching (config s) then ret (Some TG) else
  ret (Some CE).

Definition _is_anything_inflight (replica_idx : Z) : M t bool :=
  let! s := get in
  if existsb (λ e, e.2.1 =? replica_idx) (_onloading_reqs s) then ret true else
  let! pending := on_kv (kv_pending_transfers_exist replica_idx) in
  if pending then ret true else
  match _get_inflight_kv_transfer_count (settings s) with
  | None => ret false
  | Some f => ret (f replica_idx >? 0)
  end.

Definition _is_insufficient_blocks_fatal (replica_idx : Z) (no_other_work : bool) : M t bool :=
  if no_other_work then let! b := _is_anything_inflight replica_idx in ret (negb b) else ret false.

(** *** LoRA bookkeeping *)

Definition add_active_lora (rid replica_idx : Z) : M t unit :=
  let! s := get in
  match _lora_manager s with
  | None => ret tt
  | Some _ =>
      let! r := request rid in
      if is_lora_request r s then
        on_lora (LoRAManagerV3.activate_adapter (model_name r));;
        on_replica replica_idx (λ q, set_active_loras ({[ model_name r ]} ∪ active_loras q) q)
      else ret tt
  end.

(** Whether the request's adapter may be activated; if not, the request is deferred. *)
Definition can_allocate_lora (rid replica_idx : Z) : M t bool :=
  let! s := get in
  match _lora_manager s with
  | None => ret true
  | Some _ =>
      let! r := request rid in
      let! q := replica_at replica_idx in
      let! ok := of_outcome (can_allocate_lora_request (model_name r) (active_loras q) (_lora_manager s)) in
      when (negb ok) (on_replica replica_idx (λ q,
        set_deferred (OrderedIds.push rid (deferred_lora_requests q)) q));;
      ret ok
  end.

(** *** Filling a batch *)

(** The budgets' verdict on a request, which they may cut. *)
Definition budget_status (b : ReplicaBatch.t) (rid : Z) (rt : RequestType) : M t BudgetStatus :=
  on_request rid (Ctx.on_tokens
    (TokenBudgetCollection.status_after_context (ReplicaBatch.token_budget b) rt)).

(** Put the request in the batch and charge the budgets. *)
Definition accept (b : ReplicaBatch.t) (rid : Z) (rt : RequestType) : M t ReplicaBatch.t :=
  let! r := request rid in
  match TokenBudgetCollection.add_to_budget (tokens r) rt (ReplicaBatch.token_budget b) with
  | (Ok _, l) => ret (ReplicaBatch.mk (OrderedIds.push rid (ReplicaBatch.batch b)) l)
  | (Raise e, _) => raise e
  end.

(** [try: kv_cache.alloc(ctx) except InsufficientBlocksError]: [None] when caught. *)
Definition try_alloc (rid : Z) : M t (option onload) :=
  catch (let! event := on_kv_request rid kv_alloc in ret (Some event))
    (λ e, if decide (e = InsufficientBlocksError) then Some (ret None) else None).

(** Raise the fatal error, whose message counts the blocks the request holds. *)
Definition raise_insufficient {X} (rid : Z) : M t X :=
  let! _ := on_kv (kv_get_req_blocks rid) in
  raise InsufficientBlocksError.

(** How a pass over a queue ended: it returned early, or left its loop. *)
Inductive pass := Returned (b : ReplicaBatch.t) | Left_loop (b : ReplicaBatch.t).

(** One iteration of the loop of [_add_ce_requests], on the request it popped: the
    batch to go on with, or the end of the pass. *)
Definition ce_request (rid replica_idx : Z) (b : ReplicaBatch.t) : M t (ReplicaBatch.t + pass) :=
  let! ok := can_allocate_lora rid replica_idx in
  if negb ok then ret (inl b) else
  let! remaining := of_outcome (TokenBudgetCollection.remaining (ReplicaBatch.token_budget b)) in
  if remaining <=? 0 then _return_to_request_queue rid replica_idx;; ret (inr (Returned b)) else
  let! s := get in
  when (negb (kv_contains rid (kv_cache s))) (on_kv (kv_claim rid replica_idx));;
  let! event := try_alloc rid in
  match event with
  | None =>
      let! q := replica_at replica_idx in
      let no_other_work := bool_decide (tg_reqs q = []) && (ReplicaBatch.length b =? 0) in
      let! fatal := _is_insufficient_blocks_fatal replica_idx no_other_work in
      if fatal then raise_insufficient rid else
      _return_to_request_queue rid replica_idx;; ret (inr (Left_loop b))
  | Some event =>
      let! s := get in
      if negb (onload_complete event (kv_cache s)) then
        modify (λ s, set_onloading (OrderedDict.set rid (replica_idx, event) (_onloading_reqs s)) s);;
        ret (inl b)
      else
      let! status := budget_status b rid CE in
      match status with
      | BUDGET_EXHAUSTED => _return_to_request_queue rid replica_idx;; ret (inr (Returned b))
      | BUDGET_REACHED =>
          add_active_lora rid replica_idx;;
          let! b := accept b rid CE in
          ret (inr (Left_loop b))
      | BUDGET_AVAILABLE =>
          let! b := accept b rid CE in
          add_active_lora rid replica_idx;;
          ret (inl b)
      end
  end.

Fixpoint ce_loop (fuel : nat) (starting_tg_reqs_count replica_idx : Z) (b : ReplicaBatch.t) : M t pass :=
  let! q := replica_at replica_idx in
  let! s := get in
  let n := max_batch_size (config s) in
  if negb ((ReplicaBatch.length b <? n)
           && (ReplicaBatch.length b + len (tg_reqs q) - starting_tg_reqs_count <? n))
  then ret (Left_loop b) else
  match ce_reqs q with
  | [] => ret (Left_loop b)
  | rid :: rest =>
      match fuel with
      | O => raise OutOfFuel
      | S fuel =>
          on_replica replica_idx (set_ce rest);;
          let! next := ce_request rid replica_idx b in
          match next with
          | inl b => ce_loop fuel starting_tg_reqs_count replica_idx b
          | inr p => ret p
          end
      end
  end.

Definition _add_ce_requests (fuel : nat) (b : ReplicaBatch.t) (replica_idx : Z) : M t ReplicaBatch.t :=
  let! s := get in
  if bool_decide (replica_idx ∈ _ce_deferred_replicas s) then ret b else
  let! p := ce_loop fuel (ReplicaBatch.length b) replica_idx b in
  match p with
  | Returned b => ret b
  | Left_loop b => on_replica replica_idx update_deferred_lora_requests;; ret b
  end.

(** The loop around [alloc] of [_add_tg_requests]: preempt the newest candidates until
    the allocation succeeds; [None] when there is none left and the pass gives up. *)
Fixpoint tg_alloc (fuel : nat) (rid replica_idx : Z) (b : ReplicaBatch.t) (candidates : list Z)
    : M t (option (list Z)) :=
  let! event := try_alloc rid in
  match event with
  | Some _ => ret (Some candidates)
  | None =>
      match last candidates with
      | None =>
          let! fatal := _is_insufficient_blocks_fatal replica_idx (ReplicaBatch.length b =? 0) in
          if fatal then raise_insufficient rid else ret None
      | Some newest =>
          match fuel with
          | O => raise OutOfFuel
          | S fuel =>
              let! q := replica_at replica_idx in
              raise_if (bool_decide (newest ∉ tg_reqs q)) KeyError;;
              on_replica replica_idx (λ q, set_tg (OrderedIds.remove newest (tg_reqs q)) q);;
              _preempt_request newest replica_idx;;
              tg_alloc fuel rid replica_idx b (removelast candidates)
          end
      end
  end.

Fixpoint tg_loop (fuel : nat) (replica_idx : Z) (b : ReplicaBatch.t) (candidates : list Z)
    : M t ReplicaBatch.t :=
  let! s := get in
  if negb (ReplicaBatch.length b <? max_batch_size (config s)) then ret b else
  match candidates with
  | [] => ret b
  | rid :: candidates =>
      match fuel with
      | O => raise OutOfFuel
      | S fuel =>
          let! q := replica_at replica_idx in
          raise_if (bool_decide (rid ∉ tg_reqs q)) KeyError;;
          let! r := request rid in
          if is_lora_request r s && negb (is_active_lora (model_name r) (_lora_manager s)) then
            _preempt_request rid replica_idx;; tg_loop fuel replica_idx b candidates
          else
          let! status := budget_status b rid TG in
          if decide (status = BUDGET_EXHAUSTED) then ret b else
          let! left_over := tg_alloc (length candidates) rid replica_idx b candidates in
          match left_over with
          | None => ret b
          | Some candidates =>
              let! b := accept b rid TG in
              if decide (status = BUDGET_REACHED) then ret b else tg_loop fuel replica_idx b candidates
          end
      end
  end.

Definition _add_tg_requests (b : ReplicaBatch.t) (replica_idx : Z) : M t ReplicaBatch.t :=
  let! q := replica_at replica_idx in
  tg_loop (length (tg_reqs q)) replica_idx b (tg_reqs q).

(** *** One replica's batch *)

Definition _construct_replica_batch (replica_idx : Z) (priority_override : option RequestType)
    : M t ReplicaBatch.t :=
  let! s := get in
  let! quota := (match _ce_step_quota s with
    | None => ret None
    | Some l =>
        let! q := of_option IndexError (py_index l replica_idx) in
        ret (if (q >? 0) && negb (enable_in_flight_batching (config s)) then Some q else None)
    end) in
  let b := ReplicaBatch.mk [] (_create_new_token_budget quota s) in
  let! priority := (match priority_override with
    | Some p => ret (Some p)
    | None => _identify_priority replica_idx
    end) in
  let add_ce b := let! q := replica_at replica_idx in
                  _add_ce_requests (length (ce_reqs q)) b replica_idx in
  match priority with
  | Some CE =>
      let! b := add_ce b in
      if (ReplicaBatch.length b =? 0) && bool_decide (priority_override = None)
      then _add_tg_requests b replica_idx else ret b
  | Some TG =>
      let! b := _add_tg_requests b replica_idx in
      if enable_in_flight_batching (config s) && (ReplicaBatch.length b >? 0)
         && bool_decide (priority_override = None)
      then add_ce b else ret b
  | _ => ret b
  end.

(** *** Planning the CE work of data-parallel replicas *)

(** An element of a list indexed by replica. *)
Definition at_replica (l : list Z) (i : Z) : Z := default 0 (l !! Z.to_nat i).

Definition _occupancy (loads : list Z) : float :=
  let max_load := foldr Z.max 0 loads in
  if max_load =? 0 then f_of_Z 1 else f_div (int_div (zsum loads) (len loads)) (f_of_Z max_load).

(** Whether a step loaded as [trial] is better than one loaded as [loads]. *)
Definition improves (trial loads : list Z) : bool :=
  (foldr Z.max 0 loads =? 0) || f_ltb (_occupancy loads) (_occupancy trial).

Definition active_length_of s (rid : Z) : Z :=
  match requests s !! rid with Some r => TokenBuffer.active_length (tokens r) | None => 0 end.

(** Whether the request's deferral deadline has passed, or it has none. *)
Definition _expired (now : float) s (rid : Z) : bool :=
  match _ce_arrival s !! rid with
  | None => true
  | Some arrival => f_leb (f_div (dp_ce_balance_timeout_ms (config s)) (f_of_Z 1000)) (f_sub now arrival)
  end.

(** A replica's queued CE tokens, and whether its work can wait. *)
Definition ce_tokens s (q : ReplicaRequests.t) : Z := zsum (map (active_length_of s) (ce_reqs q)).
Definition can_defer now s (q : ReplicaRequests.t) : bool :=
  negb (bool_decide (tg_reqs q = [])) && negb (existsb (_expired now s) (ce_reqs q)).

(** The loads of a step being planned. *)
Record Plan := mk_plan {
  floor : list Z;
  total_load : list Z;
  step_load : list Z
}.

(** The work that runs no matter what, and the tails that can wait. *)
Definition plan_floor now s : Plan * list (Z * Z) :=
  let target := target_tokens_per_batch_ce (config s) in
  let rows := zip (zrange 0 (len (replicas s))) (replicas s) in
  let load q := ce_tokens s q in
  let floor_of q := if (load q =? 0) || can_defer now s q then 0 else Z.min (load q) target in
  let floor := map (λ e, floor_of e.2) rows in
  (mk_plan floor (map (λ e, load e.2) rows) floor,
   omap (λ e, if negb (load e.2 =? 0) && can_defer now s e.2
              then Some (Z.min (load e.2) target, e.1) else None) rows).

(** Bind an expired pooled request to the replica it finishes first on. *)
Definition bind_expired (target : Z) (rid : Z) (p : Plan) : M t Plan :=
  let! s := get in
  let! weights := of_option KeyError (OrderedDict.lookup rid (_ce_pending s)) in
  modify (λ s, set_pending (OrderedDict.delete rid (_ce_pending s)) s);;
  let! i := of_option ValueError
    (argmin (λ i, at_replica (total_load p) i + at_replica weights i) (zrange 0 (n_replicas s))) in
  let w := at_replica weights i in
  let load := Z.min (at_replica (step_load p) i + w) target in
  _bind_request rid i;;
  ret (mk_plan (list_set (floor p) i load) (list_set (total_load p) i (at_replica (total_load p) i + w))
               (list_set (step_load p) i load)).

(** Accept the deferrable tails that improve the step, the largest first. *)
Definition plan_tails (target : Z) (tails : list (Z * Z)) (load : list Z) : list Z * gset Z :=
  foldl (λ '(load, deferred) '(step_tokens, i),
      let trial := list_set load i (Z.min (at_replica load i + step_tokens) target) in
      if improves trial load then (trial, deferred ∖ {[ i ]}) else (load, deferred))
    (load, list_to_set tails.*2)
    (LoRAManagerV3.sorted_descending fst (LoRAManagerV3.sorted_descending snd tails)).

(** Accept the pooled requests that improve the step, the largest first. *)
Definition plan_pool (target n : Z) (deferred : gset Z) (pending : list (Z * list Z)) (p : Plan)
    : Plan * list (Z * Z) :=
  foldl (λ '(p, binds) '(rid, weights),
      let eligible := filter (λ i, i ∉ deferred ∧ at_replica (step_load p) i < target) (zrange 0 n) in
      match argmin (λ i, at_replica (total_load p) i + at_replica weights i) eligible with
      | None => (p, binds)
      | Some i =>
          let w := at_replica weights i in
          let trial := list_set (step_load p) i (Z.min (at_replica (step_load p) i + w) target) in
          if improves trial (step_load p)
          then (mk_plan (floor p) (list_set (total_load p) i (at_replica (total_load p) i + w)) trial,
                binds ++ [(rid, i)])
          else (p, binds)
      end)
    (p, [])
    (LoRAManagerV3.sorted_descending (λ e, default 0 (foldr (λ x m, Some (match m with Some y => Z.min x y | None => x end)) None e.2))
       pending).

Definition bind_planned '((rid, i) : Z * Z) : M t unit :=
  modify (λ s, set_pending (OrderedDict.delete rid (_ce_pending s)) s);;
  _bind_request rid i.

Definition _plan_ce_step (now : float) : M t unit :=
  modify (λ s, set_quota None (set_deferred_replicas ∅ s));;
  let! s := get in
  if negb (_dp_ce_balance_enabled s) then ret tt else
  if bool_decide (_ce_pending s = []) && forallb (λ q, bool_decide (ce_reqs q = [])) (replicas s)
  then ret tt else
  let c := config s in
  let target := target_tokens_per_batch_ce c in
  let '(p, tails) := plan_floor now s in
  let! p := for_fold (filter (λ rid, _expired now s rid = true) (OrderedDict.keys (_ce_pending s))) p
              (λ p rid, bind_expired target rid p) in
  let '(load, deferred) := plan_tails target tails (step_load p) in
  let! s := get in
  let '(p, pool_binds) := plan_pool target (n_replicas s) deferred (_ce_pending s)
                            (mk_plan (floor p) (total_load p) load) in
  let floor_exists := existsb (λ x, negb (x =? 0)) (floor p) in
  let fleet_idle := negb floor_exists && forallb (λ q, bool_decide (tg_reqs q = [])) (replicas s) in
  let occupancy := _occupancy (step_load p) in
  let below := f_ltb occupancy (dp_ce_balance_threshold c) in
  let loads_with_work := filter (λ x, 0 < x) (step_load p) in
  let balance_level :=
    match loads_with_work with
    | [] => 0
    | x :: l => Z.max (foldr Z.max 0 (floor p)) (foldl Z.min x l)
    end in
  let can_reduce_chunk_size := dp_ce_balance_enable_dynamic_chunk_size c
    && (len loads_with_work >? 1) && (balance_level >=? target / 2) in
  if floor_exists || fleet_idle || f_leb (dp_ce_balance_threshold c) occupancy || can_reduce_chunk_size then
    for_each pool_binds bind_planned;;
    modify (set_deferred_replicas deferred);;
    when (below && can_reduce_chunk_size && negb fleet_idle)
      (modify (set_quota (Some (map (λ i,
         if at_replica (step_load p) i >? 0
         then Z.max (at_replica (floor p) i) (Z.min (at_replica (step_load p) i) balance_level)
         else target) (zrange 0 (n_replicas s))))))
  else modify (set_deferred_replicas (list_to_set tails.*2)).

(** *** Every replica's batch *)

Definition _readmit_completed_onloads : M t unit :=
  let! s := get in
  let completed := filter (λ e, onload_complete e.2.2 (kv_cache s) = true) (_onloading_reqs s) in
  for_each completed (λ '(rid, (replica_idx, _)),
    modify (λ s, set_onloading (OrderedDict.delete rid (_onloading_reqs s)) s);;
    on_replica replica_idx (λ q, set_ce (OrderedIds.to_front rid (OrderedIds.push rid (ce_reqs q))) q)).

Definition choose_override : M t (option RequestType) :=
  let! s := get in
  let priorities := for_map (zrange 0 (n_replicas s)) _identify_priority in
  match batch_scheduling_strategy (settings s) with
  | DECODE_FIRST =>
      let! l := priorities in ret (if bool_decide (Some TG ∈ l) then Some TG else None)
  | PREFILL_FIRST =>
      let! l := priorities in ret (if bool_decide (Some CE ∈ l) then Some CE else None)
  | BALANCED =>
      let! l := priorities in
      let count p := len (filter (λ x, x = Some p) l) in
      ret (Some (if count CE >? count TG then CE else TG))
  | PER_REPLICA => ret None
  end.

Definition construct_batch (now : float) : M t (list (list Z)) :=
  _readmit_completed_onloads;;
  _promote_grammar_ready_requests now;;
  _plan_ce_step now;;
  let! priority_override := choose_override in
  let! s := get in
  let! batches := for_map (zrange 0 (n_replicas s)) (λ i, _construct_replica_batch i priority_override) in
  ret (map ReplicaBatch.batch batches).

(** [__init__] *)
Definition init (st : Settings) (kv : cache) (pipe : pipeline) (lora : option LoRAManagerV3.t)
    (gate : option AsyncGrammarGate.t) : outcome t :=
  if bool_decide (is_Some lora) && (num_replicas st >? 1) then Raise ValueError else
  Ok (mk _ _ _ _ _ _ st kv pipe lora gate ∅ (repeat ReplicaRequests.empty (Z.to_nat (num_replicas st)))
        ∅ ∅ [] [] ∅ ∅ None [] [] 0).

End Constructor.
End TextBatchConstructor.
