(* ===== verification/BatchFacts.v ===== *)
(** * Facts about the batch constructor

    How its calls move requests between queues: the calls that touch no queue, the
    return of a request to the context-encoding queue, and the two passes that fill a
    batch, step by step. *)

From S2P Require Import Prelude Tokens Eos FreeQueue Pool Grammar Context Hashing Connector Manager ManagerFacts ManagerProperties CacheManager KVInterface Dict Budget Lora Batch.

Module BatchFacts.
Import ReplicaRequests TextBatchConstructor.

Section Facts.
Context {B : Backend} `{KV : !KVCache, P : Pipeline, F : Floats, G : !GrammarBuilder, A : AdapterStore}.
Implicit Types s : t.

(** *** Calls that touch no queue *)

(** Two states with the same queues, bindings and settings: the KV cache, the pipeline,
    the contexts and the preemption count may differ. *)
Record Same s s' : Prop := {
  same_settings : settings s' = settings s;
  same_lora : _lora_manager s' = _lora_manager s;
  same_gate : _grammar_gate s' = _grammar_gate s;
  same_replicas : replicas s' = replicas s;
  same_bound : _bound_requests s' = _bound_requests s;
  same_names : _request_id_to_lora_name s' = _request_id_to_lora_name s;
  same_onloading : _onloading_reqs s' = _onloading_reqs s;
  same_pending : _ce_pending s' = _ce_pending s;
  same_arrival : _ce_arrival s' = _ce_arrival s;
  same_deferred : _ce_deferred_replicas s' = _ce_deferred_replicas s;
  same_quota : _ce_step_quota s' = _ce_step_quota s;
  same_grammar : _grammar_pending s' = _grammar_pending s;
  same_failed : _grammar_failed s' = _grammar_failed s
}.

#[export] Instance same_refl : Reflexive Same.
Proof. by intros s. Qed.
#[export] Instance same_trans : Transitive Same.
Proof. intros s1 s2 s3 [] []. split; congruence. Qed.
#[export] Instance same_sym : Symmetric Same.
Proof. intros s1 s2 []. by split. Qed.

(** A call that leaves every queue alone. *)
Definition quiet {X} (f : M t X) : Prop := ∀ s, Same s (f s).2.

Lemma quiet_preserves {X} (f : M t X) s0 : quiet f → preserves (Same s0) f.
Proof. intros Hf s Hs. by transitivity s. Qed.

Lemma quiet_ret {X} (x : X) : quiet (ret x).
Proof. by intros s. Qed.
Lemma quiet_get : quiet get.
Proof. by intros s. Qed.
Lemma quiet_raise {X} e : quiet (raise (A := X) e).
Proof. by intros s. Qed.
Lemma quiet_raise_if b e : quiet (raise_if b e).
Proof. by destruct b. Qed.
Lemma quiet_of_outcome {X} (o : outcome X) : quiet (of_outcome o).
Proof. by intros s. Qed.
Lemma quiet_of_option {X} e (o : option X) : quiet (of_option e o).
Proof. by destruct o. Qed.
Lemma quiet_bind {X Y} (f : M t X) (g : X → M t Y) : quiet f → (∀ x, quiet (g x)) → quiet (bind f g).
Proof.
  intros Hf Hg s. unfold bind. specialize (Hf s). destruct (f s) as [[x|e] s1]; [|done]. simpl in Hf.
  transitivity s1; [done|apply Hg].
Qed.
Lemma quiet_when b f : quiet f → quiet (when b f).
Proof. by destruct b. Qed.
Lemma quiet_catch {X} (f : M t X) h : quiet f → (∀ e k, h e = Some k → quiet k) → quiet (catch f h).
Proof.
  intros Hf Hh s. unfold catch. specialize (Hf s). destruct (f s) as [[x|e] s1]; [done|]. simpl in Hf.
  destruct (h e) as [k|] eqn:E; [|done]. transitivity s1; [done|]. by apply (Hh e).
Qed.
Lemma quiet_on_kv {X} (f : M cache X) : quiet (on_kv f).
Proof. intros s. unfold on_kv, zoom. by destruct (f _). Qed.
Lemma quiet_release_pipeline rid : quiet (release_pipeline rid).
Proof. intros s. unfold release_pipeline, on_pipeline, zoom. by destruct (pipeline_release _ _). Qed.
Lemma quiet_on_kv_request {X} rid (f : M (cache * Ctx.t B) X) : quiet (on_kv_request rid f).
Proof. intros s. unfold on_kv_request. destruct (_ !! _); [|done]. by destruct (f _) as [? [? ?]]. Qed.
Lemma quiet_on_request {X} rid (f : M (Ctx.t B) X) : quiet (on_request rid f).
Proof. intros s. unfold on_request. destruct (_ !! _); [|done]. by destruct (f _). Qed.
Lemma quiet_put_request r : quiet (put_request r).
Proof. by intros s. Qed.
Lemma quiet_request rid : quiet (request rid).
Proof. intros s. unfold request, bind, get. by destruct (_ !! _). Qed.
Lemma quiet_replica_at i : quiet (replica_at i).
Proof. intros s. unfold replica_at, bind, get. by destruct (py_index _ _). Qed.

Lemma quiet_try_alloc rid : quiet (try_alloc rid).
Proof.
  apply quiet_catch; [apply quiet_bind; [apply quiet_on_kv_request|intros; apply quiet_ret]|].
  intros e k. destruct (decide _); [|done]. intros [= <-]. apply quiet_ret.
Qed.
Lemma quiet_budget_status b rid rt : quiet (budget_status b rid rt).
Proof. apply quiet_on_request. Qed.
Lemma quiet_admit b rid rt : quiet (accept b rid rt).
Proof.
  apply quiet_bind; [apply quiet_request|intros r]. destruct (TokenBudgetCollection.add_to_budget _ _ _) as [[?|?] l];
    [apply quiet_ret|apply quiet_raise].
Qed.
Lemma quiet_inflight i : quiet (_is_anything_inflight i).
Proof.
  apply quiet_bind; [apply quiet_get|intros s]. destruct (existsb _ _); [apply quiet_ret|].
  apply quiet_bind; [apply quiet_on_kv|intros []]; [apply quiet_ret|]. destruct (_get_inflight_kv_transfer_count _); apply quiet_ret.
Qed.
Lemma quiet_fatal i b : quiet (_is_insufficient_blocks_fatal i b).
Proof.
  unfold _is_insufficient_blocks_fatal. destruct b; [|apply quiet_ret].
  apply quiet_bind; [apply quiet_inflight|intros; apply quiet_ret].
Qed.
Lemma quiet_insufficient {X} rid : quiet (raise_insufficient (X := X) rid).
Proof. apply quiet_bind; [apply quiet_on_kv|intros; apply quiet_raise]. Qed.

(** *** One replica's queues *)

(** State [s'] is [s] with the queues of replica [i] gone from [q] to [q']. *)
Record Requeued (i : Z) (q q' : ReplicaRequests.t) s s' : Prop := {
  rq_index : 0 ≤ i;
  rq_before : replicas s !! Z.to_nat i = Some q;
  rq_same : Same (TextBatchConstructor.set_replicas (<[Z.to_nat i := q']> (replicas s)) s) s'
}.

Lemma requeued_after i q q' s s' : Requeued i q q' s s' → replicas s' !! Z.to_nat i = Some q'.
Proof.
  intros [Hi Hq HS]. rewrite (same_replicas _ _ HS). simpl. rewrite list_lookup_insert_eq; [done|].
  by eapply lookup_lt_Some.
Qed.

Lemma requeued_same i q s s' : 0 ≤ i → replicas s !! Z.to_nat i = Some q → Same s s' → Requeued i q q s s'.
Proof.
  intros Hi Hq HS. split; [done|done|]. rewrite list_insert_id by done. destruct HS. by split.
Qed.

Lemma requeued_trans i q1 q2 q3 s1 s2 s3 :
  Requeued i q1 q2 s1 s2 → Requeued i q2 q3 s2 s3 → Requeued i q1 q3 s1 s3.
Proof.
  intros [Hi H1 S1] [_ _ S2]. split; [done|done|].
  destruct S1, S2. simpl in *. split; simpl; try congruence.
  rewrite same_replicas1, same_replicas0. by rewrite list_insert_insert_eq.
Qed.

Lemma requeued_quiet_l i q q' s1 s2 s3 : Same s1 s2 → Requeued i q q' s2 s3 → Requeued i q q' s1 s3.
Proof.
  intros HS [Hi Hq S2]. eapply requeued_trans; [eapply requeued_same; [done| |done]|by split].
  by rewrite <- (same_replicas _ _ HS).
Qed.

Lemma requeued_quiet_r i q q' s1 s2 s3 : Requeued i q q' s1 s2 → Same s2 s3 → Requeued i q q' s1 s3.
Proof.
  intros HR HS. eapply requeued_trans; [done|]. apply requeued_same; [apply HR| |done].
  by eapply requeued_after.
Qed.

Lemma argmin_elem key l x : argmin key l = Some x → x ∈ l.
Proof.
  destruct l as [|y l]; [done|]. intros [= <-]. revert y. induction l as [|z l IH]; intros y; simpl; [by left|].
  specialize (IH (if key z <? key y then z else y)). rewrite !elem_of_cons in *. destruct (key z <? key y); tauto.
Qed.

Lemma replica_at_run i q s : 0 ≤ i → replicas s !! Z.to_nat i = Some q → replica_at i s = (Ok q, s).
Proof.
  intros Hi Hq. unfold replica_at, bind, get. pose proof (lookup_lt_Some _ _ _ Hq).
  rewrite py_index_inside by (unfold len; lia). by rewrite Hq.
Qed.

Lemma on_replica_run i q f s : 0 ≤ i → replicas s !! Z.to_nat i = Some q →
  on_replica i f s = (Ok tt, TextBatchConstructor.set_replicas (<[Z.to_nat i := f q]> (replicas s)) s) ∧
  Requeued i q (f q) s (TextBatchConstructor.set_replicas (<[Z.to_nat i := f q]> (replicas s)) s).
Proof.
  intros Hi Hq. split; [|by split].
  unfold on_replica. mstep (replica_at_run i q s Hi Hq). unfold modify. by replace (i <? 0) with false by lia.
Qed.

(** A request back at the front of the CE queue. *)
Definition returned (rid : Z) (q : ReplicaRequests.t) : ReplicaRequests.t :=
  let q := set_tg (OrderedIds.remove rid (tg_reqs q)) q in
  set_ce (OrderedIds.to_front rid (OrderedIds.push rid (ce_reqs q))) q.

Lemma return_run rid i q s r s' :
  0 ≤ i → replicas s !! Z.to_nat i = Some q → _return_to_request_queue rid i s = (r, s') →
  (r = Ok tt ∧ Requeued i q (returned rid q) s s') ∨ ((∃ e, r = Raise e) ∧ Same s s').
Proof.
  intros Hi Hq E. unfold _return_to_request_queue in E. unfold bind at 1, get in E.
  set (f1 := when _ _) in E. assert (quiet f1) as H1 by (apply quiet_when, quiet_on_kv).
  unfold bind at 1 in E. specialize (H1 s). destruct (f1 s) as [[[]|e] s1]; simpl in H1.
  2:{ injection E as <- <-. right. split; [by eexists|done]. }
  unfold bind at 1 in E. pose proof (quiet_release_pipeline rid s1) as H2.
  destruct (release_pipeline rid s1) as [[[]|e] s2]; simpl in H2.
  2:{ injection E as <- <-. right. split; [by eexists|by transitivity s1]. }
  unfold bind at 1 in E. pose proof (quiet_on_request rid (Ctx.on_base TextContext.reset) s2) as H3.
  fold (reset_request rid) in H3. destruct (reset_request rid s2) as [[[]|e] s3]; simpl in H3.
  2:{ injection E as <- <-. right. split; [by eexists|by transitivity s2; [transitivity s1|]]. }
  assert (Same s s3) as HS by (transitivity s2; [by transitivity s1|done]).
  assert (replicas s3 !! Z.to_nat i = Some q) as Hq3 by by rewrite (same_replicas _ _ HS).
  match type of E with on_replica i ?f s3 = _ => destruct (on_replica_run i q f s3 Hi Hq3) as [E' HR] end.
  rewrite E' in E. injection E as <- <-. left. split; [done|]. by eapply requeued_quiet_l.
Qed.

(** *** The token-generation pass *)

(** The queues of a replica whose newest requests [out] were preempted. *)
Definition preempted (tg out : list Z) (q : ReplicaRequests.t) : ReplicaRequests.t :=
  set_ce (out ++ ce_reqs q) (set_tg tg q).

Lemma preempted_nil q : preempted (tg_reqs q) [] q = q.
Proof. by destruct q. Qed.

Lemma preempted_twice tg tg' out out' q :
  preempted tg' out' (preempted tg out q) = preempted tg' (out' ++ out) q.
Proof. unfold preempted. simpl. by rewrite <- app_assoc. Qed.

Lemma remove_last pre x : x ∉ pre → OrderedIds.remove x (pre ++ [x]) = pre.
Proof.
  intros Hx. rewrite OrderedIds.remove_app, (OrderedIds.remove_notin x pre Hx).
  unfold OrderedIds.remove. rewrite filter_cons_False by (intros Hne; by apply Hne).
  by rewrite filter_nil, app_nil_r.
Qed.

(** A preemption: the request goes to the front of the CE queue. *)
Lemma preempt_run rid i q s r s' :
  0 ≤ i → replicas s !! Z.to_nat i = Some q → _preempt_request rid i s = (Ok r, s') →
  Requeued i q (returned rid q) s s'.
Proof.
  intros Hi Hq E. unfold _preempt_request in E. apply bind_ok in E as ([] & s1 & E1 & E2).
  destruct (return_run rid i q s _ _ Hi Hq E1) as [[_ HR]|[[e Hr] _]]; [|done].
  injection E2 as _ <-. by apply (requeued_quiet_r _ _ _ _ s1).
Qed.

(** The newest candidate is preempted. *)
Lemma preempted_last i q pre init newest s s2 s4 :
  0 ≤ i → replicas s !! Z.to_nat i = Some q → tg_reqs q = pre ++ init ++ [newest] → NoDup (ce_reqs q ++ tg_reqs q) →
  on_replica i (λ q, set_tg (OrderedIds.remove newest (tg_reqs q)) q) s = (Ok tt, s2) →
  _preempt_request newest i s2 = (Ok tt, s4) →
  Requeued i q (preempted (pre ++ init) [newest] q) s s4 ∧
  NoDup (ce_reqs (preempted (pre ++ init) [newest] q) ++ tg_reqs (preempted (pre ++ init) [newest] q)).
Proof.
  intros Hi Hq Htg Hnd E3 E4.
  destruct (on_replica_run i q (λ q, set_tg (OrderedIds.remove newest (tg_reqs q)) q) s Hi Hq) as [E3' R1].
  rewrite E3 in E3'. injection E3' as ->. set (q1 := set_tg _ q) in *.
  pose proof (preempt_run newest i q1 _ _ _ Hi (requeued_after _ _ _ _ _ R1) E4) as R2.
  rewrite Htg, !app_assoc in Hnd. pose proof Hnd as Hnd'. apply NoDup_app in Hnd' as (Hnd1 & Hlast & _).
  assert (newest ∉ (ce_reqs q ++ pre) ++ init) as Hnew.
  { intros Hin. apply (Hlast newest Hin). by left. }
  rewrite !not_elem_of_app in Hnew. destruct Hnew as [[Hce Hpre] Hinit].
  assert (q1 = set_tg (pre ++ init) q) as Eq1.
  { unfold q1. f_equal. rewrite Htg, app_assoc. apply remove_last. by rewrite not_elem_of_app. }
  assert (returned newest q1 = preempted (pre ++ init) [newest] q) as Eret.
  { unfold returned, preempted. rewrite Eq1. simpl. rewrite OrderedIds.remove_notin by by rewrite not_elem_of_app.
    rewrite OrderedIds.push_to_front. unfold OrderedIds.to_front. by rewrite OrderedIds.remove_notin. }
  rewrite Eret in R2. split; [by eapply requeued_trans|]. unfold preempted. simpl. constructor.
  - rewrite !not_elem_of_app. by split_and!.
  - by rewrite app_assoc.
Qed.

Lemma tg_alloc_run fuel rid i b cands s r s' q pre :
  0 ≤ i → replicas s !! Z.to_nat i = Some q → tg_reqs q = pre ++ cands → NoDup (ce_reqs q ++ tg_reqs q) →
  tg_alloc fuel rid i b cands s = (Ok r, s') →
  ∃ kept out, cands = kept ++ out ∧ Requeued i q (preempted (pre ++ kept) out q) s s' ∧
    (r = Some kept ∨ r = None ∧ kept = []).
Proof.
  revert cands s q. induction fuel as [|fuel IH]; intros cands s q Hi Hq Htg Hnd E; simpl in E;
    apply bind_ok in E as (event & s1 & E1 & E); pose proof (quiet_try_alloc rid s) as S1; rewrite E1 in S1;
    simpl in S1;
    (assert (∀ s2 r, Same s1 s2 → (r = Some cands ∨ r = None ∧ cands = []) →
      ∃ kept out, cands = kept ++ out ∧ Requeued i q (preempted (pre ++ kept) out q) s s2 ∧
        (r = Some kept ∨ r = None ∧ kept = [])) as Hstop;
    [intros s2 r' S2 Hr; exists cands, []; rewrite app_nil_r, <- Htg, preempted_nil;
     split_and!; [done| |done]; apply requeued_same; [done|done|by transitivity s1]|]);
    (destruct event as [event|]; [injection E as <- <-; apply Hstop; [done|by left]|]);
    (destruct (last cands) as [newest|] eqn:El;
     [|apply last_None in El as ->; apply bind_ok in E as (fatal & s2 & E2 & E);
       pose proof (quiet_fatal i (ReplicaBatch.length b =? 0) s1) as S2; rewrite E2 in S2; simpl in S2;
       destruct fatal; [apply bind_ok in E as (? & ? & _ & E); done|];
       injection E as <- <-; apply Hstop; [done|by right]]); [done|].
  apply last_Some in El as [init ->].
  assert (replicas s1 !! Z.to_nat i = Some q) as Hq1 by by rewrite (same_replicas _ _ S1).
  rewrite (bind_run _ _ _ _ _ (replica_at_run i q s1 Hi Hq1)) in E.
  apply bind_ok in E as ([] & s2 & E2 & E). apply raise_if_ok in E2 as [_ <-].
  apply bind_ok in E as ([] & s2 & E3 & E). apply bind_ok in E as ([] & s4 & E4 & E).
  destruct (preempted_last i q pre init newest s1 s2 s4 Hi Hq1 Htg Hnd E3 E4) as [R2 Hnd4].
  rewrite removelast_last in E.
  destruct (IH init s4 (preempted (pre ++ init) [newest] q) Hi) as (kept & out & -> & R3 & Hr);
    [by eapply requeued_after|done|done|done|].
  exists kept, (out ++ [newest]). rewrite preempted_twice in R3. split_and!; [by rewrite app_assoc| |done].
  eapply requeued_quiet_l; [exact S1|]. by eapply requeued_trans.
Qed.

(** Preempting a request of the middle of the queue. *)
Lemma returned_middle pre rid rest q :
  tg_reqs q = pre ++ rid :: rest → NoDup (ce_reqs q ++ tg_reqs q) →
  returned rid q = preempted (pre ++ rest) [rid] q.
Proof.
  intros Htg Hnd. rewrite Htg in Hnd. apply NoDup_app in Hnd as (_ & Hce & Hnd).
  assert (rid ∉ ce_reqs q) as Hc by (intros Hin; apply (Hce rid Hin); set_solver).
  apply NoDup_app in Hnd as (_ & Hpre & Hnd). apply NoDup_cons in Hnd as [Hrest _].
  assert (rid ∉ pre) as Hp by (intros Hin; apply (Hpre rid Hin); by left).
  unfold returned, preempted. simpl. rewrite Htg, OrderedIds.push_to_front, OrderedIds.remove_app.
  rewrite (OrderedIds.remove_notin rid pre Hp), OrderedIds.remove_head by done.
  unfold OrderedIds.to_front. by rewrite OrderedIds.remove_notin.
Qed.

(** The order of the queues is that of the pass's bookkeeping. *)
Lemma preempted_nodup tg out q tg0 :
  tg_reqs q = tg0 → tg0 ≡ₚ tg ++ out → NoDup (ce_reqs q ++ tg_reqs q) →
  NoDup (ce_reqs (preempted tg out q) ++ tg_reqs (preempted tg out q)).
Proof.
  intros -> Hp Hnd. unfold preempted. simpl. rewrite Hp in Hnd.
  rewrite <- !app_assoc, (Permutation_app_comm out). by rewrite <- !app_assoc.
Qed.

(** The pass takes requests oldest first and preempts the newest, and the requests
    whose adapter is not active. *)
Lemma tg_loop_run fuel i b cands s b' s' q pre :
  0 ≤ i → replicas s !! Z.to_nat i = Some q → tg_reqs q = pre ++ cands → NoDup (ce_reqs q ++ tg_reqs q) →
  (∀ x, x ∈ cands → x ∉ ReplicaBatch.batch b) →
  ReplicaBatch.length b ≤ max_batch_size (config s) →
  tg_loop fuel i b cands s = (Ok b', s') →
  ∃ admitted waiting out, cands ≡ₚ admitted ++ waiting ++ out ∧
    (_lora_manager s = None → cands = admitted ++ waiting ++ out) ∧
    Requeued i q (preempted (pre ++ admitted ++ waiting) out q) s s' ∧
    ReplicaBatch.batch b' = ReplicaBatch.batch b ++ admitted ∧
    ReplicaBatch.length b' ≤ max_batch_size (config s).
Proof.
  revert b cands s q pre. induction fuel as [|fuel IH]; intros b cands s q pre Hi Hq Htg Hnd Hb Hn E;
    simpl in E; unfold bind at 1, get in E.
  all: assert (∀ s2, Same s s2 → ∃ admitted waiting out, cands ≡ₚ admitted ++ waiting ++ out ∧
    (_lora_manager s = None → cands = admitted ++ waiting ++ out) ∧
    Requeued i q (preempted (pre ++ admitted ++ waiting) out q) s s2 ∧
    ReplicaBatch.batch b = ReplicaBatch.batch b ++ admitted ∧
    ReplicaBatch.length b ≤ max_batch_size (config s)) as Hstop by
    (intros s2 S2; exists [], cands, []; simpl; rewrite !app_nil_r, <- Htg, preempted_nil;
     split_and!; [done|done|by apply requeued_same|done|done]).
  all: destruct (ReplicaBatch.length b <? max_batch_size (config s)) eqn:Elt; simpl in E;
    [|injection E as <- <-; by apply Hstop].
  all: destruct cands as [|rid cands]; [injection E as <- <-; by apply Hstop|].
  { done. }
  rewrite (bind_run _ _ _ _ _ (replica_at_run i q s Hi Hq)) in E.
  apply bind_ok in E as ([] & s0 & E0 & E). apply raise_if_ok in E0 as [_ <-].
  apply bind_ok in E as (rq & s0 & E0 & E). pose proof (quiet_request rid s) as S0. rewrite E0 in S0. simpl in S0.
  destruct (is_lora_request rq s && negb (is_active_lora (model_name rq) (_lora_manager s))) eqn:El.
  - apply bind_ok in E as ([] & s1 & E1 & E).
    assert (replicas s0 !! Z.to_nat i = Some q) as Hq0 by by rewrite (same_replicas _ _ S0).
    pose proof (preempt_run rid i q s0 _ _ Hi Hq0 E1) as R1.
    apply (requeued_quiet_l _ _ _ _ _ _ S0) in R1. rewrite (returned_middle pre rid cands q Htg Hnd) in R1.
    pose proof (rq_same _ _ _ _ _ R1) as S01.
    assert (config s1 = config s) as Hc by (unfold config; by rewrite (same_settings _ _ S01)).
    destruct (IH b cands s1 (preempted (pre ++ cands) [rid] q) pre) as (adm & wait & out & Hp & _ & R2 & Hb' & Hn').
    + done.
    + by eapply requeued_after.
    + done.
    + eapply preempted_nodup; [exact Htg| |done]. rewrite <- app_assoc. apply Permutation_app_head.
      by rewrite Permutation_app_comm.
    + intros x Hx. apply Hb. by right.
    + by rewrite Hc.
    + done.
    + rewrite Hc in Hn'. rewrite preempted_twice in R2. exists adm, wait, (out ++ [rid]).
      split_and!; [|intros Hnone|by eapply requeued_trans|done|done].
      * rewrite Hp. rewrite !app_assoc. by rewrite <- Permutation_cons_append.
      * exfalso. unfold is_lora_request in El. by rewrite Hnone in El.
  - apply bind_ok in E as (status & s1 & E1 & E).
    pose proof (quiet_budget_status b rid TG s0) as S1. rewrite E1 in S1. simpl in S1.
    assert (Same s s1) as S01 by by transitivity s0.
    destruct (decide (status = BUDGET_EXHAUSTED)); [injection E as <- <-; by apply Hstop|].
    apply bind_ok in E as (left_over & s2 & E2 & E).
    destruct (tg_alloc_run (length cands) rid i b cands s1 left_over s2 q (pre ++ [rid])) as (kept & out & -> & R2 & Hr);
      [done|by rewrite (same_replicas _ _ S01)|by rewrite Htg, <- app_assoc|done|done|].
    pose proof (requeued_quiet_l _ _ _ _ _ _ S01 R2) as R02.
    destruct Hr as [->|[-> ->]].
    2:{ injection E as <- <-. exists [], [rid], out. rewrite app_nil_r in *. by split_and!. }
    apply bind_ok in E as (b1 & s3 & E3 & E). pose proof (quiet_admit b rid TG s2) as S3. rewrite E3 in S3. simpl in S3.
    assert (ReplicaBatch.batch b1 = ReplicaBatch.batch b ++ [rid]) as Hb1.
    { unfold accept in E3. apply bind_ok in E3 as (r3 & s4 & _ & E3).
      destruct (TokenBudgetCollection.add_to_budget _ _ _) as [[?|?] l]; [|done]. injection E3 as <- _. simpl.
      apply OrderedIds.push_new, Hb. by left. }
    assert (ReplicaBatch.length b1 ≤ max_batch_size (config s)) as Hn1.
    { unfold ReplicaBatch.length in *. rewrite Hb1, len_app, len_singleton. lia. }
    pose proof (requeued_quiet_r _ _ _ _ _ _ R02 S3) as R03.
    destruct (decide (status = BUDGET_REACHED)).
    { injection E as <- <-. exists [rid], kept, out. rewrite <- app_assoc in R03. by split_and!. }
    pose proof (rq_same _ _ _ _ _ R03) as S03.
    assert (config s3 = config s) as Hc by (unfold config; by rewrite (same_settings _ _ S03)).
    destruct (IH b1 kept s3 (preempted ((pre ++ [rid]) ++ kept) out q) (pre ++ [rid])) as
      (admitted & waiting & out' & Hp & Hex & R4 & Hb' & Hn').
    + done.
    + by eapply requeued_after.
    + done.
    + eapply preempted_nodup; [exact Htg| |done]. by rewrite <- !app_assoc.
    + intros x Hx. rewrite Hb1, not_elem_of_app, list_elem_of_singleton. split; [apply Hb; right; set_solver|].
      intros ->. rewrite Htg in Hnd. apply NoDup_app in Hnd as (_ & _ & Hnd). apply NoDup_app in Hnd as (_ & _ & Hnd).
      apply NoDup_cons in Hnd as [Hnd _]. apply Hnd. set_solver.
    + by rewrite Hc.
    + done.
    + rewrite Hc in Hn'. exists (rid :: admitted), waiting, (out' ++ out). rewrite preempted_twice in R4.
      replace ((pre ++ [rid]) ++ admitted ++ waiting) with (pre ++ (rid :: admitted) ++ waiting) in R4
        by (by rewrite <- app_assoc).
      split_and!; [|intros Hnone|by eapply requeued_trans| |done].
      * simpl. constructor. rewrite Hp. by rewrite <- !app_assoc.
      * simpl. rewrite (Hex ltac:(by rewrite (same_lora _ _ S03))). by rewrite <- !app_assoc.
      * by rewrite Hb', Hb1, <- app_assoc.
Qed.

(** *** Where every request is *)

(** The requests waiting on a replica, and all the constructor holds outside batches. *)
Definition own (q : ReplicaRequests.t) : list Z := ce_reqs q ++ tg_reqs q ++ deferred_lora_requests q.
Definition ids s : list Z := concat (map own (replicas s)) ++ OrderedDict.keys (_onloading_reqs s).

(** As [Requeued], but the adapters and the onloads may have changed too. *)
Record Shift (i : Z) (q q' : ReplicaRequests.t) s s' : Prop := {
  sh_index : 0 ≤ i;
  sh_before : replicas s !! Z.to_nat i = Some q;
  sh_replicas : replicas s' = <[Z.to_nat i := q']> (replicas s);
  sh_settings : settings s' = settings s;
  sh_gate : _grammar_gate s' = _grammar_gate s;
  sh_bound : _bound_requests s' = _bound_requests s;
  sh_names : _request_id_to_lora_name s' = _request_id_to_lora_name s;
  sh_pending : _ce_pending s' = _ce_pending s;
  sh_arrival : _ce_arrival s' = _ce_arrival s;
  sh_deferred : _ce_deferred_replicas s' = _ce_deferred_replicas s;
  sh_quota : _ce_step_quota s' = _ce_step_quota s;
  sh_grammar : _grammar_pending s' = _grammar_pending s;
  sh_failed : _grammar_failed s' = _grammar_failed s;
  (** an onload the replica starts is noted with its index *)
  sh_onloads : ∃ started, _onloading_reqs s' = _onloading_reqs s ++ started ∧ Forall (λ e, e.2.1 = i) started
}.

Lemma requeued_shift i q q' s s' : Requeued i q q' s s' → Shift i q q' s s' ∧ _onloading_reqs s' = _onloading_reqs s.
Proof. intros [Hi Hq []]. split; [split|]; try done. exists []. by rewrite app_nil_r. Qed.

Lemma shift_after i q q' s s' : Shift i q q' s s' → replicas s' !! Z.to_nat i = Some q'.
Proof.
  intros HS. rewrite (sh_replicas _ _ _ _ _ HS), list_lookup_insert_eq; [done|].
  eapply lookup_lt_Some, HS.
Qed.

Lemma shift_refl i q s : 0 ≤ i → replicas s !! Z.to_nat i = Some q → Shift i q q s s.
Proof. intros Hi Hq. split; try done; [by rewrite list_insert_id|]. exists []. by rewrite app_nil_r. Qed.

Lemma shift_same i q s s' : 0 ≤ i → replicas s !! Z.to_nat i = Some q → Same s s' → Shift i q q s s'.
Proof. intros Hi Hq HS. by apply requeued_shift, requeued_same. Qed.

Lemma shift_trans i q1 q2 q3 s1 s2 s3 : Shift i q1 q2 s1 s2 → Shift i q2 q3 s2 s3 → Shift i q1 q3 s1 s3.
Proof.
  intros [Hi H1 R1 ? ? ? ? ? ? ? ? ? ? (a & Ha & Fa)] [_ _ R2 ? ? ? ? ? ? ? ? ? ? (b & Hb & Fb)]. split; try congruence.
  - by rewrite R2, R1, list_insert_insert_eq.
  - exists (a ++ b). rewrite Hb, Ha, app_assoc. split; [done|by apply Forall_app].
Qed.

(** Changing one replica's queues changes the ids by what it gained and lost. *)
Lemma concat_insert (l : list ReplicaRequests.t) n q q' extra :
  l !! n = Some q → own q' ++ extra ≡ₚ own q →
  concat (map own (<[n := q']> l)) ++ extra ≡ₚ concat (map own l).
Proof.
  revert n. induction l as [|x l IH]; intros [|n] Hn Hp; simpl in *; try done.
  - injection Hn as ->. rewrite <- app_assoc, (Permutation_app_comm _ extra), app_assoc. by rewrite Hp.
  - rewrite <- app_assoc. by rewrite (IH n Hn Hp).
Qed.

Lemma ids_shift i q q' s s' extra :
  Shift i q q' s s' → _onloading_reqs s' = _onloading_reqs s → own q' ++ extra ≡ₚ own q →
  ids s' ++ extra ≡ₚ ids s.
Proof.
  intros HS Ho Hp. unfold ids. rewrite Ho, (sh_replicas _ _ _ _ _ HS).
  rewrite <- app_assoc, (Permutation_app_comm _ extra), app_assoc.
  by rewrite (concat_insert _ _ q q' extra (sh_before _ _ _ _ _ HS) Hp).
Qed.

Lemma ids_own i q s : replicas s !! Z.to_nat i = Some q → own q ⊆+ ids s.
Proof.
  intros Hq. unfold ids. transitivity (concat (map own (replicas s))); [|by apply submseteq_inserts_r].
  revert Hq. generalize (Z.to_nat i) (replicas s). intros n l. revert n.
  induction l as [|x l IH]; intros [|n] Hn; simpl in *; try done.
  - injection Hn as ->. by apply submseteq_inserts_r.
  - apply submseteq_inserts_l. by apply (IH n).
Qed.

Lemma ids_nodup i q s : replicas s !! Z.to_nat i = Some q → NoDup (ids s) → NoDup (own q).
Proof.
  intros Hq Hnd. destruct (submseteq_Permutation _ _ (ids_own i q s Hq)) as [k Hk].
  rewrite Hk in Hnd. by apply NoDup_app in Hnd as [? _].
Qed.

(** *** The context-encoding pass, one request at a time *)

Lemma can_allocate_run rid i q s ok s' :
  0 ≤ i → replicas s !! Z.to_nat i = Some q → can_allocate_lora rid i s = (Ok ok, s') →
  Requeued i q (if ok then q else set_deferred (OrderedIds.push rid (deferred_lora_requests q)) q) s s'.
Proof.
  intros Hi Hq E. unfold can_allocate_lora in E. unfold bind at 1, get in E.
  destruct (_lora_manager s); [|injection E as <- <-; by apply requeued_same].
  apply bind_ok in E as (r & s1 & E1 & E). pose proof (quiet_request rid s) as S1. rewrite E1 in S1. simpl in S1.
  assert (replicas s1 !! Z.to_nat i = Some q) as Hq1 by by rewrite (same_replicas _ _ S1).
  rewrite (bind_run _ _ _ _ _ (replica_at_run i q s1 Hi Hq1)) in E.
  apply bind_ok in E as (ok' & s2 & E2 & E). unfold of_outcome in E2. injection E2 as E2 <-.
  apply bind_ok in E as ([] & s3 & E3 & E). injection E as <- <-.
  eapply requeued_quiet_l; [exact S1|]. destruct ok'; simpl in E3.
  - injection E3 as <-. by apply requeued_same.
  - match type of E3 with on_replica i ?f s1 = _ => destruct (on_replica_run i q f s1 Hi Hq1) as [E' HR] end.
    rewrite E' in E3. by injection E3 as <-.
Qed.

Lemma add_active_run rid i q s s' :
  0 ≤ i → replicas s !! Z.to_nat i = Some q → add_active_lora rid i s = (Ok tt, s') →
  ∃ l, Shift i q (set_active_loras l q) s s' ∧ _onloading_reqs s' = _onloading_reqs s ∧ requests s' = requests s.
Proof.
  intros Hi Hq E. unfold add_active_lora in E. unfold bind at 1, get in E.
  assert (∃ l, Shift i q (set_active_loras l q) s s ∧ _onloading_reqs s = _onloading_reqs s ∧ requests s = requests s)
    as Hstay by (exists (active_loras q); split; [destruct q; by apply shift_refl|done]).
  destruct (_lora_manager s) as [m|] eqn:Em; [|by injection E as <-].
  unfold request in E. unfold bind at 1, bind at 1, get in E.
  destruct (requests s !! rid) as [r|]; [|done]. simpl in E.
  destruct (is_lora_request r s); [|by injection E as <-].
  apply bind_ok in E as ([] & s1 & E1 & E). unfold on_lora in E1. rewrite Em in E1.
  destruct (LoRAManagerV3.activate_adapter (model_name r) m) as [o m']. injection E1 as -> <-.
  match type of E with on_replica i ?f ?s1 = _ => destruct (on_replica_run i q f s1 Hi Hq) as [E' [_ _ []]] end.
  rewrite E' in E. injection E as <-. eexists. split; [split; try done; first [reflexivity|by (exists []; rewrite app_nil_r)]|done].
Qed.

Lemma admit_run b rid rt s b' s' :
  rid ∉ ReplicaBatch.batch b → accept b rid rt s = (Ok b', s') →
  s' = s ∧ ReplicaBatch.batch b' = ReplicaBatch.batch b ++ [rid].
Proof.
  intros Hb E. unfold accept, request in E. unfold bind at 1, bind at 1, get in E.
  destruct (requests s !! rid) as [r|]; [|done]. simpl in E.
  destruct (TokenBudgetCollection.add_to_budget _ _ _) as [[?|?] l]; [|done]. injection E as <- <-.
  split; [done|]. simpl. by apply OrderedIds.push_new.
Qed.

(** The batch a step of the pass leaves. *)
Definition batch_after (x : ReplicaBatch.t + pass) : ReplicaBatch.t :=
  match x with inl b => b | inr (Returned b) => b | inr (Left_loop b) => b end.

Lemma own_returned rid q : rid ∉ own q → own (returned rid q) = rid :: own q.
Proof.
  unfold own. rewrite !not_elem_of_app. intros (Hce & Htg & _).
  assert (ce_reqs (returned rid q) = rid :: ce_reqs q) as ->.
  { change (OrderedIds.to_front rid (OrderedIds.push rid (ce_reqs q)) = rid :: ce_reqs q).
    rewrite OrderedIds.push_to_front. unfold OrderedIds.to_front. by rewrite OrderedIds.remove_notin. }
  simpl. by rewrite OrderedIds.remove_notin.
Qed.

Lemma ids_gain rid i q q' s s' :
  Shift i q q' s s' → _onloading_reqs s' = _onloading_reqs s → own q' ≡ₚ rid :: own q → ids s' ≡ₚ rid :: ids s.
Proof.
  intros HS Ho Hp. unfold ids. rewrite Ho, (sh_replicas _ _ _ _ _ HS). rewrite app_comm_cons. f_equiv.
  pose proof (sh_before _ _ _ _ _ HS) as Hq.
  rewrite <- (concat_insert (<[Z.to_nat i := q']> (replicas s)) (Z.to_nat i) q' q [rid]).
  - rewrite list_insert_insert_eq, list_insert_id by done. by rewrite Permutation_app_comm.
  - rewrite list_lookup_insert_eq; [done|]. by eapply lookup_lt_Some.
  - by rewrite Permutation_app_comm, Hp.
Qed.

(** What becomes of the popped request: it joins the batch, or it waits somewhere. *)
Definition Served (rid i : Z) (q : ReplicaRequests.t) (b : ReplicaBatch.t) (x : ReplicaBatch.t + pass) s s' : Prop :=
  ∃ q' admitted, Shift i q q' s s' ∧ ReplicaBatch.batch (batch_after x) = ReplicaBatch.batch b ++ admitted ∧
    (admitted = [] ∨ admitted = [rid]) ∧ ids s' ++ admitted ≡ₚ rid :: ids s ∧ tg_reqs q' = tg_reqs q ∧
    (∀ b', x = inl b' → ce_reqs q' = ce_reqs q).

(** The request goes back to the queue, and the pass ends. *)
Lemma served_back rid i q b s s1 s2 x y :
  0 ≤ i → replicas s !! Z.to_nat i = Some q → rid ∉ own q → Same s s1 →
  (_return_to_request_queue rid i;; ret (inr y)) s1 = (Ok x, s2) → batch_after (inr y) = b →
  Served rid i q b x s s2.
Proof.
  intros Hi Hq Hown S1 E Hb. apply bind_ok in E as ([] & s3 & E1 & E). injection E as <- <-.
  assert (replicas s1 !! Z.to_nat i = Some q) as Hq1 by by rewrite (same_replicas _ _ S1).
  destruct (return_run rid i q s1 _ _ Hi Hq1 E1) as [[_ HR]|[[e ?] _]]; [|done].
  apply (requeued_quiet_l _ _ _ _ _ _ S1) in HR. destruct (requeued_shift _ _ _ _ _ HR) as [HS Ho].
  exists (returned rid q), []. rewrite !app_nil_r, Hb. split_and!; [done|done|by left| | |done].
  - apply (ids_gain rid i q (returned rid q) s s3 HS Ho). by rewrite own_returned.
  - unfold own in Hown. rewrite !not_elem_of_app in Hown. destruct Hown as (_ & ? & _). simpl.
    by rewrite OrderedIds.remove_notin.
Qed.

(** The request joins the batch. *)
Lemma served_join rid i q b x l s s1 s2 :
  0 ≤ i → replicas s !! Z.to_nat i = Some q → Same s s1 →
  ReplicaBatch.batch (batch_after x) = ReplicaBatch.batch b ++ [rid] →
  Shift i q (set_active_loras l q) s1 s2 → _onloading_reqs s2 = _onloading_reqs s1 →
  Served rid i q b x s s2.
Proof.
  intros Hi Hq S1 Hx HS Ho. exists (set_active_loras l q), [rid].
  assert (Shift i q (set_active_loras l q) s s2) as HS'.
  { eapply shift_trans; [|exact HS]. by apply shift_same. }
  split_and!; [done|done|by right| |done|done].
  rewrite Permutation_app_comm. simpl. constructor.
  rewrite <- (app_nil_r (ids s2)). apply (ids_shift i q (set_active_loras l q) s s2 []); [done| |].
  - by rewrite Ho, (same_onloading _ _ S1).
  - by rewrite app_nil_r.
Qed.

(** The request waits for its onload. *)
Lemma served_onload rid i q b event s s1 :
  0 ≤ i → replicas s !! Z.to_nat i = Some q → rid ∉ ids s → Same s s1 →
  Served rid i q b (inl b) s (set_onloading (OrderedDict.set rid (i, event) (_onloading_reqs s1)) s1).
Proof.
  intros Hi Hq Hnew S1. exists q, []. rewrite !app_nil_r. split_and!; [|done|by left| |done|done].
  - pose proof (shift_same i q s s1 Hi Hq S1) as []. split; try done. exists [(rid, (i, event))]. simpl.
    rewrite (same_onloading _ _ S1), OrderedDict.set_new; [by split; [|repeat constructor]|].
    intros Hin. apply Hnew. unfold ids. rewrite elem_of_app. by right.
  - unfold ids. simpl. rewrite (same_replicas _ _ S1), (same_onloading _ _ S1).
    rewrite OrderedDict.set_new.
    + unfold OrderedDict.keys. rewrite fmap_app. simpl. rewrite app_assoc. by rewrite Permutation_app_comm.
    + intros Hin. apply Hnew. unfold ids. rewrite elem_of_app. by right.
Qed.

(** The request is deferred until its adapter fits. *)
Lemma served_deferred rid i q b s s1 :
  rid ∉ own q → Requeued i q (set_deferred (OrderedIds.push rid (deferred_lora_requests q)) q) s s1 →
  Served rid i q b (inl b) s s1.
Proof.
  intros Hown HR. destruct (requeued_shift _ _ _ _ _ HR) as [HS Ho]. eexists _, [].
  rewrite !app_nil_r. split_and!; [exact HS|done|by left| |done|done].
  apply (ids_gain rid i q _ s s1 HS Ho). unfold own in *. rewrite !not_elem_of_app in Hown. simpl.
  rewrite OrderedIds.push_new by naive_solver. rewrite !app_assoc. by rewrite <- Permutation_cons_append.
Qed.

Lemma ce_request_run rid i b q s x s' :
  0 ≤ i → replicas s !! Z.to_nat i = Some q → NoDup (rid :: ids s) → rid ∉ ReplicaBatch.batch b →
  ce_request rid i b s = (Ok x, s') → Served rid i q b x s s'.
Proof.
  intros Hi Hq Hnd Hb E. apply NoDup_cons in Hnd as [Hnew Hnd].
  assert (rid ∉ own q) as Hown by (intros Hin; apply Hnew; by eapply elem_of_submseteq, ids_own).
  unfold ce_request in E. apply bind_ok in E as (ok & s1 & E1 & E).
  pose proof (can_allocate_run rid i q s ok s1 Hi Hq E1) as R1. destruct ok; simpl in E.
  2:{ injection E as <- <-. by apply served_deferred. }
  assert (Same s s1) as S1 by (destruct R1 as [_ _ S1]; rewrite list_insert_id in S1 by done; by destruct S1).
  apply bind_ok in E as (rem & s2 & E2 & E). unfold of_outcome in E2. injection E2 as E2 <-.
  destruct (rem <=? 0); [by eapply served_back|].
  unfold bind at 1, get in E. apply bind_ok in E as ([] & s2 & E3 & E).
  assert (Same s1 s2) as S2.
  { pose proof (quiet_when (negb (kv_contains rid (kv_cache s1))) _ (quiet_on_kv (kv_claim rid i)) s1) as Hw.
    by rewrite E3 in Hw. }
  apply bind_ok in E as (event & s3 & E4 & E). pose proof (quiet_try_alloc rid s2) as S3. rewrite E4 in S3. simpl in S3.
  assert (Same s s3) as S03 by (transitivity s2; [by transitivity s1|done]).
  assert (replicas s3 !! Z.to_nat i = Some q) as Hq3 by by rewrite (same_replicas _ _ S03).
  destruct event as [event|].
  2:{ rewrite (bind_run _ _ _ _ _ (replica_at_run i q s3 Hi Hq3)) in E.
      apply bind_ok in E as (fatal & s4 & E5 & E).
      match type of E5 with _is_insufficient_blocks_fatal i ?c s3 = _ => pose proof (quiet_fatal i c s3) as S4 end.
      rewrite E5 in S4. simpl in S4. destruct fatal.
      { apply bind_ok in E as (? & ? & _ & E). done. }
      eapply (served_back rid i q b s s4); [done|done|done|by transitivity s3|done|done]. }
  unfold bind at 1, get in E. destruct (onload_complete event (kv_cache s3)); simpl in E.
  2:{ injection E as <- <-. by apply served_onload. }
  apply bind_ok in E as (status & s4 & E5 & E). pose proof (quiet_budget_status b rid CE s3) as S4.
  rewrite E5 in S4. simpl in S4. assert (Same s s4) as S04 by by transitivity s3.
  assert (replicas s4 !! Z.to_nat i = Some q) as Hq4 by by rewrite (same_replicas _ _ S04).
  destruct status.
  - apply bind_ok in E as (b1 & s5 & E6 & E). destruct (admit_run _ _ _ _ _ _ Hb E6) as [-> Hb1].
    apply bind_ok in E as ([] & s6 & E7 & E). injection E as <- <-.
    destruct (add_active_run rid i q s4 s6 Hi Hq4 E7) as (l & HS & Ho & _). by apply (served_join _ _ _ _ _ l s s4).
  - by eapply served_back.
  - apply bind_ok in E as ([] & s5 & E6 & E). apply bind_ok in E as (b1 & s6 & E7 & E). injection E as <- <-.
    destruct (admit_run _ _ _ _ _ _ Hb E7) as [-> Hb1].
    destruct (add_active_run rid i q s4 s5 Hi Hq4 E6) as (l & HS & Ho & _). by apply (served_join _ _ _ _ _ l s s4).
Qed.

(** *** The whole pass *)

Definition pass_batch (p : pass) : ReplicaBatch.t := match p with Returned b => b | Left_loop b => b end.

(** The pass pops a request. *)
Lemma popped i q rid rest b s :
  0 ≤ i → replicas s !! Z.to_nat i = Some q → NoDup (ids s) →
  (∀ x, x ∈ ReplicaBatch.batch b → x ∈ tg_reqs q ∨ x ∉ ids s) → ce_reqs q = rid :: rest →
  let s1 := TextBatchConstructor.set_replicas (<[Z.to_nat i := set_ce rest q]> (replicas s)) s in
  ids s1 ++ [rid] ≡ₚ ids s ∧ NoDup (rid :: ids s1) ∧ rid ∉ ReplicaBatch.batch b.
Proof.
  intros Hi Hq Hnd Hdis Ece s1. destruct (on_replica_run i q (set_ce rest) s Hi Hq) as [_ R1]. fold s1 in R1.
  destruct (requeued_shift _ _ _ _ _ R1) as [Sh1 Ho1].
  assert (ids s1 ++ [rid] ≡ₚ ids s) as Hids1.
  { apply (ids_shift i q (set_ce rest q)); [done|done|]. unfold own. simpl. rewrite Ece.
    by rewrite Permutation_app_comm. }
  split_and!; [done|by rewrite Permutation_cons_append, Hids1|].
  pose proof (ids_nodup i q s Hq Hnd) as Hown. unfold own in Hown. rewrite Ece in Hown. simpl in Hown.
  apply NoDup_cons in Hown as [Hown _]. rewrite !not_elem_of_app in Hown. destruct Hown as (_ & Htg & _).
  intros Hin. destruct (Hdis rid Hin) as [|Hno]; [done|]. apply Hno. rewrite <- Hids1. set_solver.
Qed.

(** The batch and the queues once it was served. *)
Lemma served_after rid i q rest b x s s2 :
  0 ≤ i → replicas s !! Z.to_nat i = Some q → NoDup (ids s) →
  (∀ x, x ∈ ReplicaBatch.batch b → x ∈ tg_reqs q ∨ x ∉ ids s) → ce_reqs q = rid :: rest →
  Served rid i (set_ce rest q) b x (TextBatchConstructor.set_replicas (<[Z.to_nat i := set_ce rest q]> (replicas s)) s) s2 →
  ∃ q2 adm, Shift i q q2 s s2 ∧ ReplicaBatch.batch (batch_after x) = ReplicaBatch.batch b ++ adm ∧
    (adm = [] ∨ adm = [rid]) ∧ ids s2 ++ adm ≡ₚ ids s ∧ tg_reqs q2 = tg_reqs q ∧
    (∀ b', x = inl b' → ce_reqs q2 = rest) ∧ NoDup (ids s2) ∧
    (∀ y, y ∈ ReplicaBatch.batch (batch_after x) → y ∈ tg_reqs q2 ∨ y ∉ ids s2).
Proof.
  intros Hi Hq Hnd Hdis Ece (q2 & adm & Sh2 & Hb2 & Hadm & Hids2 & Ht2 & Hce2).
  destruct (popped i q rid rest b s Hi Hq Hnd Hdis Ece) as (Hids1 & _ & _).
  destruct (on_replica_run i q (set_ce rest) s Hi Hq) as [_ R1].
  destruct (requeued_shift _ _ _ _ _ R1) as [Sh1 _].
  assert (ids s2 ++ adm ≡ₚ ids s) as Hids by by rewrite Hids2, Permutation_cons_append.
  pose proof Hnd as Hnd2. rewrite <- Hids in Hnd2. apply NoDup_app in Hnd2 as (Hnd2 & Hd & _).
  exists q2, adm. split_and!; try done; [by eapply shift_trans|].
  intros y Hy. rewrite Hb2, elem_of_app in Hy. rewrite Ht2. simpl.
  destruct Hy as [Hy|Hy]; [|right; intros Hin; by apply (Hd y Hin)].
  destruct (Hdis y Hy) as [|Hno]; [by left|]. right. intros Hin. apply Hno. rewrite <- Hids. set_solver.
Qed.

(** The pass moves requests from the queue to the batch, the onloads, the deferred ones
    and back to the queue; it loses none. *)
Lemma ce_loop_run fuel k i b q s p s' :
  0 ≤ i → replicas s !! Z.to_nat i = Some q → NoDup (ids s) →
  (∀ x, x ∈ ReplicaBatch.batch b → x ∈ tg_reqs q ∨ x ∉ ids s) →
  ReplicaBatch.length b ≤ max_batch_size (config s) →
  ce_loop fuel k i b s = (Ok p, s') →
  ∃ q' admitted, Shift i q q' s s' ∧ ReplicaBatch.batch (pass_batch p) = ReplicaBatch.batch b ++ admitted ∧
    ids s' ++ admitted ≡ₚ ids s ∧ tg_reqs q' = tg_reqs q ∧
    ReplicaBatch.length (pass_batch p) ≤ max_batch_size (config s).
Proof.
  revert b q s. induction fuel as [|fuel IH]; intros b q s Hi Hq Hnd Hdis Hn E; simpl in E;
    rewrite (bind_run _ _ _ _ _ (replica_at_run i q s Hi Hq)) in E; unfold bind at 1, get in E.
  all: assert (∃ q' admitted, Shift i q q' s s ∧ ReplicaBatch.batch b = ReplicaBatch.batch b ++ admitted ∧
    ids s ++ admitted ≡ₚ ids s ∧ tg_reqs q' = tg_reqs q ∧ ReplicaBatch.length b ≤ max_batch_size (config s)) as Hstop
    by (exists q, []; rewrite !app_nil_r; split_and!; [by apply shift_refl|done..]).
  all: match type of E with (if negb ?c then _ else _) _ = _ => destruct c eqn:Ec end; simpl in E;
    [|injection E as <- <-; exact Hstop].
  all: destruct (ce_reqs q) as [|rid rest] eqn:Ece; [injection E as <- <-; exact Hstop|].
  { done. }
  destruct (on_replica_run i q (set_ce rest) s Hi Hq) as [E1 R1]. rewrite (bind_run _ _ _ _ _ E1) in E.
  destruct (popped i q rid rest b s Hi Hq Hnd Hdis Ece) as (_ & Hnd1 & Hb).
  apply bind_ok in E as (x & s2 & E2 & E).
  pose proof (ce_request_run rid i b (set_ce rest q) _ x s2 Hi (requeued_after _ _ _ _ _ R1) Hnd1 Hb E2) as HSv.
  destruct (served_after rid i q rest b x s s2 Hi Hq Hnd Hdis Ece HSv) as
    (q2 & adm & Sh2 & Hb2 & Hadm & Hids2 & Ht2 & _ & Hnd2 & Hdis2).
  assert (ReplicaBatch.length (batch_after x) ≤ max_batch_size (config s)) as Hn2.
  { unfold ReplicaBatch.length in *. rewrite Hb2, len_app. destruct Hadm as [->| ->]; [simpl|]; [|rewrite len_singleton; lia].
    change (len (A:=Z) []) with 0. lia. }
  destruct x as [b2|p2]; simpl in Hb2, Hn2, Hdis2.
  - assert (config s2 = config s) as Hc by (unfold config; by rewrite (sh_settings _ _ _ _ _ Sh2)).
    destruct (IH b2 q2 s2 Hi (shift_after _ _ _ _ _ Sh2) Hnd2 Hdis2) as (q3 & adm' & Sh3 & Hb3 & Hids3 & Ht3 & Hn3);
      [by rewrite Hc|done|].
    rewrite Hc in Hn3. exists q3, (adm ++ adm'). split_and!; [by eapply shift_trans| | |by rewrite Ht3, Ht2|done].
    + by rewrite Hb3, Hb2, <- app_assoc.
    + rewrite (Permutation_app_comm adm), app_assoc. by rewrite Hids3.
  - injection E as <- <-. exists q2, adm. destruct p2; simpl in *; by split_and!.
Qed.

(** *** One replica's batch *)

(** Deferred requests rejoin the queue. *)
Lemma rejoin_perm def ce :
  NoDup (def ++ ce) →
  foldl (λ q k, OrderedIds.to_front k (OrderedIds.push k q)) ce def ≡ₚ def ++ ce.
Proof.
  revert ce. induction def as [|k def IH]; intros ce Hnd; [done|]. simpl in *.
  apply NoDup_cons in Hnd as [Hk Hnd]. rewrite not_elem_of_app in Hk. destruct Hk as [Hkd Hkc].
  rewrite OrderedIds.push_to_front. unfold OrderedIds.to_front. rewrite OrderedIds.remove_notin by done.
  rewrite IH.
  - by rewrite Permutation_middle.
  - rewrite <- Permutation_middle. constructor; [|done]. by rewrite not_elem_of_app.
Qed.

Lemma rejoin_own q : NoDup (own q) → own (update_deferred_lora_requests q) ≡ₚ own q.
Proof.
  intros Hnd. unfold own, update_deferred_lora_requests in *. simpl. rewrite app_nil_r.
  rewrite rejoin_perm.
  - rewrite (Permutation_app_comm (deferred_lora_requests q)), <- app_assoc. apply Permutation_app_head.
    apply Permutation_app_comm.
  - rewrite app_assoc, (Permutation_app_comm _ (deferred_lora_requests q)), app_assoc in Hnd.
    by apply NoDup_app in Hnd as [? _].
Qed.

Lemma add_ce_run fuel i b q s b' s' :
  0 ≤ i → replicas s !! Z.to_nat i = Some q → NoDup (ids s) →
  (∀ x, x ∈ ReplicaBatch.batch b → x ∈ tg_reqs q ∨ x ∉ ids s) →
  ReplicaBatch.length b ≤ max_batch_size (config s) →
  _add_ce_requests fuel b i s = (Ok b', s') →
  ∃ q' admitted, Shift i q q' s s' ∧ ReplicaBatch.batch b' = ReplicaBatch.batch b ++ admitted ∧
    ids s' ++ admitted ≡ₚ ids s ∧ tg_reqs q' = tg_reqs q ∧
    ReplicaBatch.length b' ≤ max_batch_size (config s).
Proof.
  intros Hi Hq Hnd Hdis Hn E. unfold _add_ce_requests in E. unfold bind at 1, get in E.
  destruct (bool_decide (i ∈ _ce_deferred_replicas s)).
  { injection E as <- <-. exists q, []. rewrite !app_nil_r. split_and!; [by apply shift_refl|done..]. }
  apply bind_ok in E as (p & s1 & E1 & E).
  destruct (ce_loop_run fuel _ i b q s p s1 Hi Hq Hnd Hdis Hn E1) as (q1 & adm & Sh & Hb & Hids & Ht & Hn').
  destruct p as [b1|b1]; simpl in Hb, Hn'.
  { injection E as <- <-. exists q1, adm. by split_and!. }
  destruct (on_replica_run i q1 update_deferred_lora_requests s1 Hi (shift_after _ _ _ _ _ Sh)) as [E2 R2].
  rewrite (bind_run _ _ _ _ _ E2) in E. injection E as <- <-. destruct (requeued_shift _ _ _ _ _ R2) as [Sh2 Ho2].
  exists (update_deferred_lora_requests q1), adm. split_and!; [by eapply shift_trans|done| |by rewrite <- Ht|done].
  rewrite <- Hids. apply Permutation_app_tail.
  rewrite <- (app_nil_r (ids _)). apply (ids_shift _ _ _ _ _ [] Sh2 Ho2).
  rewrite app_nil_r. apply rejoin_own. apply (ids_nodup i q1 s1); [by eapply shift_after|].
  rewrite <- Hids in Hnd. by apply NoDup_app in Hnd as [? _].
Qed.

Lemma own_preempted q tg out : tg_reqs q ≡ₚ tg ++ out → own (preempted tg out q) ≡ₚ own q.
Proof.
  intros Hp. unfold own, preempted. simpl. rewrite Hp. rewrite <- !app_assoc.
  rewrite (Permutation_app_comm out). rewrite <- !app_assoc. do 2 apply Permutation_app_head.
  apply Permutation_app_comm.
Qed.

Lemma add_tg_run i b q s b' s' :
  0 ≤ i → replicas s !! Z.to_nat i = Some q → NoDup (ids s) →
  (∀ x, x ∈ tg_reqs q → x ∉ ReplicaBatch.batch b) →
  ReplicaBatch.length b ≤ max_batch_size (config s) →
  _add_tg_requests b i s = (Ok b', s') →
  ∃ admitted waiting out, tg_reqs q ≡ₚ admitted ++ waiting ++ out ∧
    (_lora_manager s = None → tg_reqs q = admitted ++ waiting ++ out) ∧
    Requeued i q (preempted (admitted ++ waiting) out q) s s' ∧ ids s' ≡ₚ ids s ∧
    ReplicaBatch.batch b' = ReplicaBatch.batch b ++ admitted ∧
    ReplicaBatch.length b' ≤ max_batch_size (config s).
Proof.
  intros Hi Hq Hnd Hdis Hn E. unfold _add_tg_requests in E.
  rewrite (bind_run _ _ _ _ _ (replica_at_run i q s Hi Hq)) in E.
  destruct (tg_loop_run (length (tg_reqs q)) i b (tg_reqs q) s b' s' q []) as (adm & wait & out & Hp & Hex & HR & Hb & Hn');
    [done..| |done|done|done|].
  { pose proof (ids_nodup i q s Hq Hnd) as Hown. unfold own in Hown. rewrite app_assoc in Hown.
    by apply NoDup_app in Hown as [? _]. }
  exists adm, wait, out. split_and!; [done|done|done| |done|done].
  destruct (requeued_shift _ _ _ _ _ HR) as [Sh Ho].
  rewrite <- (app_nil_r (ids s')). apply (ids_shift _ _ _ _ _ [] Sh Ho).
  rewrite app_nil_r. apply own_preempted. by rewrite Hp, app_assoc.
Qed.

Lemma quiet_priority i : quiet (_identify_priority i).
Proof.
  unfold _identify_priority. apply quiet_bind; [apply quiet_get|intros s].
  destruct (bool_decide (i ∈ _)); [apply quiet_ret|]. apply quiet_bind; [apply quiet_replica_at|intros q].
  destruct (bool_decide (ce_reqs q = []) && _); [apply quiet_ret|].
  destruct (bool_decide (ce_reqs q = [])); [apply quiet_ret|].
  destruct (bool_decide (tg_reqs q = [])); [apply quiet_ret|].
  apply quiet_bind; [apply quiet_on_kv|intros c].
  destruct (f_ltb _ _); [apply quiet_ret|]. destruct (enable_in_flight_batching _); apply quiet_ret.
Qed.

(** What forming one replica's batch does: [tg] are the batch's generating requests,
    which stay in their queue, [ce] those it takes out of the CE queue. *)
Record Formed (i : Z) (q q' : ReplicaRequests.t) (b tg ce : list Z) s s' : Prop := {
  fm_shift : Shift i q q' s s';
  fm_batch : b = tg ++ ce;
  fm_ids : ids s' ++ ce ≡ₚ ids s;
  fm_tg : ∀ x, x ∈ tg → x ∈ tg_reqs q';
  fm_nodup : NoDup b;
  fm_size : len b ≤ max_batch_size (config s)
}.

Lemma nodup_taken l ce s : l ++ ce ≡ₚ ids s → NoDup (ids s) → NoDup ce ∧ (∀ x, x ∈ ce → x ∉ l).
Proof.
  intros Hp Hnd. rewrite <- Hp in Hnd. apply NoDup_app in Hnd as (_ & Hd & Hnd). split; [done|].
  intros x Hx Hl. by apply (Hd x Hl).
Qed.

Lemma tg_in_ids i q s x : replicas s !! Z.to_nat i = Some q → x ∈ tg_reqs q → x ∈ ids s.
Proof.
  intros Hq Hx. eapply elem_of_submseteq; [|by eapply ids_own]. unfold own. rewrite !elem_of_app. by right; left.
Qed.

(** A TG pass on an empty batch. *)
Lemma formed_tg i q bud s b s' :
  0 ≤ i → replicas s !! Z.to_nat i = Some q → NoDup (ids s) → 0 ≤ max_batch_size (config s) →
  _add_tg_requests (ReplicaBatch.mk [] bud) i s = (Ok b, s') →
  ∃ q', Formed i q q' (ReplicaBatch.batch b) (ReplicaBatch.batch b) [] s s'.
Proof.
  intros Hi Hq Hnd Hm E.
  destruct (add_tg_run i (ReplicaBatch.mk [] bud) q s b s' Hi Hq Hnd (λ x _, not_elem_of_nil (A := Z) x)) as
    (adm & wait & out & Hp & _ & HR & Hids & Hb & Hn); [done|exact E|]. simpl in Hb.
  eexists. split; [apply requeued_shift, HR|by rewrite app_nil_r|by rewrite app_nil_r| | |done].
  - intros x Hx. rewrite Hb in Hx. simpl. rewrite elem_of_app. by left.
  - pose proof (ids_nodup i q s Hq Hnd) as Hown. unfold own in Hown.
    apply NoDup_app in Hown as (_ & _ & Hown). apply NoDup_app in Hown as [Hown _].
    rewrite Hp in Hown. rewrite Hb. by apply NoDup_app in Hown as [? _].
Qed.

(** A CE pass after it, or on its own. *)
Lemma formed_ce fuel i q q1 bud b0 s s1 b s' :
  Formed i q q1 (ReplicaBatch.batch b0) (ReplicaBatch.batch b0) [] s s1 → bud = ReplicaBatch.token_budget b0 →
  NoDup (ids s) → _add_ce_requests fuel b0 i s1 = (Ok b, s') →
  ∃ q' ce, Formed i q q' (ReplicaBatch.batch b) (ReplicaBatch.batch b0) ce s s'.
Proof.
  intros [Sh _ Hids Htg Hb0 Hn] _ Hnd E. rewrite app_nil_r in Hids.
  assert (config s1 = config s) as Hc by (unfold config; by rewrite (sh_settings _ _ _ _ _ Sh)).
  assert (NoDup (ids s1)) as Hnd1 by by rewrite Hids.
  destruct (add_ce_run fuel i b0 q1 s1 b s') as (q2 & ce & Sh2 & Hb & Hids2 & Ht2 & Hn2);
    [apply Sh|by eapply shift_after|done|intros x Hx; left; by apply Htg|by rewrite Hc|done|].
  destruct (nodup_taken _ _ _ Hids2 Hnd1) as [Hce Hout]. pose proof (shift_trans _ _ _ _ _ _ _ Sh Sh2) as Sh'.
  exists q2, ce. split; [done|done|by rewrite Hids2| | |by rewrite <- Hc].
  - intros x Hx. rewrite Ht2. by apply Htg.
  - rewrite Hb. apply NoDup_app. split_and!; [done| |done]. intros x Hx Hxc. apply (Hout x Hxc).
    apply (tg_in_ids i q2); [by eapply shift_after|]. rewrite Ht2. by apply Htg.
Qed.

Lemma formed_none i q s : 0 ≤ i → replicas s !! Z.to_nat i = Some q → 0 ≤ max_batch_size (config s) →
  Formed i q q [] [] [] s s.
Proof.
  intros Hi Hq Hm. split; [by apply shift_refl|done|by rewrite app_nil_r|by intros x ?%elem_of_nil|constructor|done].
Qed.

Lemma formed_quiet_l i q q' b tg ce s s1 s' : Same s s1 → Formed i q q' b tg ce s1 s' → Formed i q q' b tg ce s s'.
Proof.
  intros HS [Sh Hb Hids Htg Hnd Hn]. pose proof (sh_index _ _ _ _ _ Sh) as Hi.
  split; [|done| |done|done|].
  - eapply shift_trans; [|exact Sh]. apply shift_same; [done| |done].
    rewrite <- (same_replicas _ _ HS). apply Sh.
  - rewrite Hids. unfold ids. by rewrite (same_replicas _ _ HS), (same_onloading _ _ HS).
  - unfold config in *. by rewrite <- (same_settings _ _ HS).
Qed.

Lemma construct_run i q o s b s' :
  0 ≤ i → replicas s !! Z.to_nat i = Some q → NoDup (ids s) → 0 ≤ max_batch_size (config s) →
  _construct_replica_batch i o s = (Ok b, s') →
  ∃ q' tg ce, Formed i q q' (ReplicaBatch.batch b) tg ce s s'.
Proof.
  intros Hi Hq Hnd Hm E. unfold _construct_replica_batch in E. unfold bind at 1, get in E.
  apply bind_ok in E as (quota & s0 & E0 & E).
  assert (s0 = s) as ->.
  { destruct (_ce_step_quota s) as [l|]; [|by injection E0]. apply bind_ok in E0 as (x & s1 & E1 & E0).
    destruct (py_index l i); [|done]. injection E1 as <- <-. by injection E0. }
  set (bud := _create_new_token_budget quota s) in E.
  apply bind_ok in E as (priority & s1 & E1 & E).
  assert (Same s s1) as S1.
  { destruct o; [by injection E1 as <- <-|]. pose proof (quiet_priority i s) as Hp. by rewrite E1 in Hp. }
  assert (replicas s1 !! Z.to_nat i = Some q) as Hq1 by by rewrite (same_replicas _ _ S1).
  assert (ids s1 = ids s) as Hids1 by (unfold ids; by rewrite (same_replicas _ _ S1), (same_onloading _ _ S1)).
  assert (config s1 = config s) as Hc by (unfold config; by rewrite (same_settings _ _ S1)).
  rewrite <- Hids1 in Hnd. rewrite <- Hc in Hm.
  assert (∃ q' tg ce, Formed i q q' (ReplicaBatch.batch b) tg ce s1 s') as (q' & tg & ce & HF);
    [|exists q', tg, ce; by eapply formed_quiet_l].
  assert (∀ s2 s3 b0 q0, Formed i q q0 (ReplicaBatch.batch b0) (ReplicaBatch.batch b0) [] s1 s2 →
    bind (replica_at i) (λ q, _add_ce_requests (length (ce_reqs q)) b0 i) s2 = (Ok b, s3) →
    ∃ q' tg ce, Formed i q q' (ReplicaBatch.batch b) tg ce s1 s3) as Hce.
  { intros s2 s3 b0 q0 HF E2.
    rewrite (bind_run _ _ _ _ _ (replica_at_run i q0 s2 Hi (shift_after _ _ _ _ _ (fm_shift _ _ _ _ _ _ _ _ HF)))) in E2.
    destruct (formed_ce _ i q q0 _ b0 s1 s2 b s3 HF eq_refl Hnd E2) as (q' & ce & HF'). by exists q', (ReplicaBatch.batch b0), ce. }
  pose proof (formed_none i q s1 Hi Hq1 Hm) as HF0.
  destruct priority as [[| | |]|].
  - apply bind_ok in E as (b1 & s2 & E2 & E). destruct (formed_tg i q bud s1 b1 s2 Hi Hq1 Hnd Hm E2) as (q1 & HF).
    destruct (_ && _ && _); [by apply (Hce s2 s' b1 q1)|]. injection E as <- <-. by exists q1, (ReplicaBatch.batch b1), [].
  - apply bind_ok in E as (b1 & s2 & E2 & E).
    rewrite (bind_run _ _ _ _ _ (replica_at_run i q s1 Hi Hq1)) in E2.
    destruct (formed_ce _ i q q _ (ReplicaBatch.mk [] bud) s1 s1 b1 s2 HF0 eq_refl Hnd E2) as (q1 & ce & HF).
    destruct ((ReplicaBatch.length b1 =? 0) && bool_decide (o = None)) eqn:El.
    + apply andb_true_iff in El as [El _]. apply Z.eqb_eq, len_0_nil in El.
      pose proof HF as [Sh Hb Hids Htg Hbn Hn]. rewrite El in Hb. destruct ce; [|done]. rewrite app_nil_r in Hids.
      destruct b1 as [l bud1]. simpl in El, HF. subst l.
      assert (config s2 = config s1) as Hc2 by (unfold config; by rewrite (sh_settings _ _ _ _ _ Sh)).
      destruct (formed_tg i q1 bud1 s2 b s' Hi (shift_after _ _ _ _ _ Sh)) as (q2 & [Sh2 Hb2 Hids2 Htg2 Hbn2 Hn2]);
        [by rewrite Hids|by rewrite Hc2|done|].
      exists q2, (ReplicaBatch.batch b), []. split; [by eapply shift_trans|done|by rewrite Hids2|done|done|by rewrite <- Hc2].
    + injection E as <- <-. by exists q1, [], ce.
  - injection E as <- <-. by exists q, [], [].
  - injection E as <- <-. by exists q, [], [].
  - injection E as <- <-. by exists q, [], [].
Qed.


(** *** Calls that leave a field alone *)

Lemma quiet_post_weights rid : quiet (_post_cache_weights rid).
Proof.
  unfold _post_cache_weights. apply quiet_bind; [apply quiet_request|intros r].
  apply quiet_bind; [apply quiet_get|intros s]. apply quiet_bind.
  - apply quiet_catch; [apply quiet_bind; [apply quiet_on_kv_request|intros; apply quiet_ret]|].
    intros e k [= <-]. apply quiet_ret.
  - intros [hits|]; [|apply quiet_ret]. apply quiet_bind; [destruct (_ =? _); [apply quiet_ret|apply quiet_raise]|].
    intros _. apply quiet_bind; [apply quiet_get|intros; apply quiet_ret].
Qed.

Lemma quiet_next_replica ext : quiet (get_next_replica_idx ext).
Proof.
  unfold get_next_replica_idx. apply quiet_bind; [apply quiet_get|intros s].
  do 2 (apply quiet_bind; [apply quiet_raise_if|intros _]). apply quiet_of_option.
Qed.

Lemma quiet_for_map {X Y} (l : list X) (f : X → M t Y) : (∀ x, quiet (f x)) → quiet (for_map l f).
Proof.
  intros Hf. induction l as [|x l IH]; [apply quiet_ret|]. apply quiet_bind; [apply Hf|intros y].
  apply quiet_bind; [exact IH|intros; apply quiet_ret].
Qed.

(** What a call leaves of a field. *)
Definition keeps {X Y} (field : t → Y) (f : M t X) : Prop := ∀ s, field (f s).2 = field s.

Lemma keeps_bind {X Y Z'} (field : t → Z') (f : M t X) (g : X → M t Y) :
  keeps field f → (∀ x, keeps field (g x)) → keeps field (bind f g).
Proof.
  intros Hf Hg s. unfold bind. specialize (Hf s). destruct (f s) as [[x|e] s1]; [|done]. simpl in Hf.
  rewrite <- Hf. apply Hg.
Qed.
Lemma keeps_on_replica {Y} (field : t → Y) i f :
  (∀ x s, field (TextBatchConstructor.set_replicas x s) = field s) → keeps field (on_replica i f).
Proof.
  intros Hx. apply keeps_bind; [|intros q s; apply Hx]. intros s. unfold replica_at, bind, get. by destruct (py_index _ _).
Qed.

Lemma keeps_quiet {X Y} (field : t → Y) (f : M t X) :
  (∀ s s', Same s s' → field s' = field s) → quiet f → keeps field f.
Proof. intros Hs Hf s. apply Hs, Hf. Qed.

Lemma keeps_for_fold {X R Y} (field : t → Y) (l : list X) (r : R) f :
  (∀ r x, keeps field (f r x)) → keeps field (for_fold l r f).
Proof.
  intros Hf. revert r. induction l as [|x l IH]; intros r; [by intros s|]. by apply keeps_bind; [apply Hf|].
Qed.
Lemma keeps_on_gate {X Y} (field : t → Y) (f : M AsyncGrammarGate.t X) :
  (∀ g s, field (set_gate g s) = field s) → keeps field (on_gate f).
Proof. intros Hg s. unfold on_gate. destruct (_grammar_gate s) as [g|]; [|done]. destruct (f g). apply Hg. Qed.

Lemma for_each_fold {X} (l : list X) (f : X → M t unit) s : for_each l f s = for_fold l tt (λ _, f) s.
Proof.
  revert s. induction l as [|x l IH]; intros s; [done|]. simpl. unfold bind. destruct (f x s) as [[[]|e] s1]; [apply IH|done].
Qed.

Lemma keeps_for_each {X Y} (field : t → Y) (l : list X) f : (∀ x, keeps field (f x)) → keeps field (for_each l f).
Proof. intros Hf s. rewrite for_each_fold. apply keeps_for_fold. intros _ x. apply Hf. Qed.

End Facts.

(** Walk through a call that leaves a field alone, given the lemmas on those it makes. *)
Ltac solve_keeps same :=
  repeat first
    [ progress intros
    | apply keeps_on_replica; done | apply keeps_on_gate; done
    | apply keeps_for_fold
    | apply keeps_quiet; [exact same|solve [apply quiet_replica_at | apply quiet_request | apply quiet_post_weights
        | apply quiet_next_replica | apply quiet_release_pipeline | apply quiet_put_request
        | apply quiet_ret | apply quiet_get | apply quiet_of_option]]
    | apply keeps_bind
    | match goal with |- keeps _ (match ?x with _ => _ end) => destruct x end
    | match goal with |- keeps _ (if ?x then _ else _) => destruct x end
    | match goal with |- keeps _ (modify _) => by intros ? end ].

End BatchFacts.
