(* ===== verification/Conservation.v ===== *)
(** * No request is lost (text_batch_constructor.py)

    Where every request the constructor holds is, and that the calls which move
    requests between its queues, pools and batches neither lose nor duplicate one. *)

From S2P Require Import Prelude Tokens Eos FreeQueue Pool Grammar Context Hashing Connector Manager ManagerFacts ManagerProperties CacheManager KVInterface Dict Budget Lora Batch BatchFacts.

Module Conservation.
Import ReplicaRequests TextBatchConstructor BatchFacts.

Section Conservation.
Context {B : Backend} `{KV : !KVCache, P : Pipeline, F : Floats, G : !GrammarBuilder, A : AdapterStore}.
Implicit Types s : t.

(** *** Requests change hands *)

(** Every request the constructor holds outside the batches: waiting on a replica,
    onloading, pooled, building a grammar, or to be reported as failed. *)
Definition all_ids s : list Z :=
  ids s ++ OrderedDict.keys (_ce_pending s) ++ OrderedDict.keys (_grammar_pending s) ++ (_grammar_failed s).*1.

(** The replica an index denotes. *)
Definition home s (z : Z) : nat := Z.to_nat (if z <? 0 then len (replicas s) + z else z).
Definition bound_to s (x : Z) (n : nat) : Prop := ∃ z, _bound_requests s !! x = Some z ∧ home s z = n.
(** Request [x] waits on replica [n], in a queue or for an onload. *)
Definition sits s (x : Z) (n : nat) : Prop :=
  (∃ q, replicas s !! n = Some q ∧ x ∈ own q) ∨ (∃ e, e ∈ _onloading_reqs s ∧ e.1 = x ∧ home s e.2.1 = n).

(** The constructor holds the requests [L], of which [out] are in batches: each once,
    and those on a replica on the one they are bound to. *)
Record Book (out L : list Z) s : Prop := {
  bk_ids : all_ids s ++ out ≡ₚ L;
  bk_sits : ∀ x n, sits s x n → bound_to s x n;
  bk_bound : ∀ x, is_Some (_bound_requests s !! x) → x ∈ ids s ++ out;
  bk_replicas : len (replicas s) = n_replicas s
}.

Lemma book_perm out L L' s : L ≡ₚ L' → Book out L s → Book out L' s.
Proof. intros HL []. split; [by rewrite <- HL|done..]. Qed.

Lemma same_ids s s' : Same s s' → ids s' = ids s.
Proof. intros HS. unfold ids. by rewrite (same_replicas _ _ HS), (same_onloading _ _ HS). Qed.

Lemma same_all_ids s s' : Same s s' → all_ids s' = all_ids s.
Proof.
  intros HS. unfold all_ids.
  by rewrite (same_ids _ _ HS), (same_pending _ _ HS), (same_grammar _ _ HS), (same_failed _ _ HS).
Qed.

Lemma book_same out L s s' : Same s s' → Book out L s → Book out L s'.
Proof.
  intros HS [Hp Hs Hb Hn]. split.
  - by rewrite (same_all_ids _ _ HS).
  - unfold sits, bound_to, home in *. rewrite (same_replicas _ _ HS), (same_bound _ _ HS), (same_onloading _ _ HS). done.
  - rewrite (same_ids _ _ HS), (same_bound _ _ HS). done.
  - unfold n_replicas in *. by rewrite (same_replicas _ _ HS), (same_settings _ _ HS).
Qed.

Lemma book_nodup out L s : NoDup L → Book out L s → NoDup (all_ids s) ∧ NoDup (ids s) ∧ (∀ x, x ∈ ids s → x ∈ L).
Proof.
  intros Hnd [Hp _ _ _]. rewrite <- Hp in Hnd. apply NoDup_app in Hnd as [Hnd _]. split; [done|]. split.
  - unfold all_ids in Hnd. by apply NoDup_app in Hnd as [? _].
  - intros x Hx. rewrite <- Hp. unfold all_ids. rewrite !elem_of_app. tauto.
Qed.

Lemma ids_sits s x : x ∈ ids s ↔ ∃ n, sits s x n.
Proof.
  unfold ids, sits. rewrite elem_of_app, list_elem_of_In, in_concat. split.
  - intros [(l & Hl & Hx)|Hx].
    + apply in_map_iff in Hl as (q & <- & Hq). apply list_elem_of_In, list_elem_of_lookup in Hq as [n Hn].
      exists n. left. exists q. by rewrite list_elem_of_In.
    + apply list_elem_of_fmap in Hx as (e & -> & He). exists (home s e.2.1). right. by exists e.
  - intros [n [(q & Hq & Hx)|(e & He & <- & _)]]; [left|right; by apply list_elem_of_fmap_2].
    exists (own q). split; [|by apply list_elem_of_In]. apply in_map, list_elem_of_In. by eapply list_elem_of_lookup_2.
Qed.

Lemma queue_unique l n m q q' x :
  NoDup (concat (map own l)) → l !! n = Some q → l !! m = Some q' → x ∈ own q → x ∈ own q' → n = m.
Proof.
  revert n m. induction l as [|q0 l IH]; intros n m Hnd Hn Hm Hx Hx'; [done|]. simpl in Hnd.
  apply NoDup_app in Hnd as (_ & Hd & Hnd).
  assert (∀ k q1, l !! k = Some q1 → x ∈ own q1 → x ∈ concat (map own l)) as Hin.
  { intros k q1 Hk Hq1. apply list_elem_of_In, in_concat. exists (own q1). split; [|by apply list_elem_of_In].
    apply in_map, list_elem_of_In. by eapply list_elem_of_lookup_2. }
  destruct n as [|n], m as [|m]; simpl in *; [done| | |f_equal; by eapply IH].
  - injection Hn as ->. exfalso. eapply Hd; [exact Hx|by eapply Hin].
  - injection Hm as ->. exfalso. eapply Hd; [exact Hx'|by eapply Hin].
Qed.

(** A request waits on one replica. *)
Lemma sits_unique s x n m : NoDup (ids s) → sits s x n → sits s x m → n = m.
Proof.
  intros Hnd Hn Hm. unfold ids in Hnd. apply NoDup_app in Hnd as (Hq & Hd & Ho).
  assert (∀ k q e, replicas s !! k = Some q → x ∈ own q → e ∈ _onloading_reqs s → e.1 = x → False) as Habs.
  { intros k q e Hk Hx He <-. apply (Hd e.1); [|by apply list_elem_of_fmap_2].
    apply list_elem_of_In, in_concat. exists (own q). split; [|by apply list_elem_of_In].
    apply in_map, list_elem_of_In. by eapply list_elem_of_lookup_2. }
  destruct Hn as [(q & Hk & Hx)|(e & He & <- & <-)], Hm as [(q' & Hk' & Hx')|(e' & He' & Ee & <-)].
  - by eapply queue_unique.
  - exfalso. by eapply Habs.
  - exfalso. by eapply Habs.
  - replace e' with e; [done|]. apply list_elem_of_lookup in He as [a Ha], He' as [b Hb].
    assert (a = b) as ->; [|congruence].
    eapply NoDup_lookup; [exact Ho|unfold OrderedDict.keys; by rewrite list_lookup_fmap, Ha|].
    unfold OrderedDict.keys. rewrite list_lookup_fmap, Hb. simpl. by rewrite Ee.
Qed.

(** Moves within replica [i] leave every request on the replica it is bound to. *)
Lemma sits_within (i : nat) s s' :
  _bound_requests s' = _bound_requests s → length (replicas s') = length (replicas s) →
  NoDup (ids s') → (∀ x, x ∈ ids s' → x ∈ ids s) →
  (∀ x n, n ≠ i → (sits s x n ↔ sits s' x n)) →
  (∀ x n, sits s x n → bound_to s x n) → ∀ x n, sits s' x n → bound_to s' x n.
Proof.
  intros Hb Hl Hnd Hin Hsame Hs x n Hx. unfold bound_to, home, len in *. rewrite Hb, Hl.
  destruct (decide (n = i)) as [->|Hne]; [|by apply Hs, Hsame].
  destruct (proj1 (ids_sits s x)) as [m Hm]; [apply Hin, ids_sits; by eexists|].
  destruct (decide (m = i)) as [->|Hne]; [by apply Hs|].
  exfalso. apply Hne. eapply sits_unique; [exact Hnd| |exact Hx]. by apply Hsame.
Qed.

(** A call on a replica, whichever way it is indexed. *)
Lemma on_replica_inv i f s s' :
  on_replica i f s = (Ok tt, s') →
  ∃ q, replicas s !! home s i = Some q ∧
    s' = TextBatchConstructor.set_replicas (<[home s i := f q]> (replicas s)) s.
Proof.
  intros E. unfold on_replica, replica_at in E. unfold bind at 1, bind at 1, get, of_option in E.
  destruct (py_index (replicas s) i) as [q|] eqn:Eq; [|done]. injection E as <-.
  exists q. split; [|done]. unfold py_index in Eq. cbv zeta in Eq.
  by destruct ((if i <? 0 then _ else _) <? 0), (len (replicas s) <=? _).
Qed.

Lemma ids_insert rid n q q' s :
  replicas s !! n = Some q → own q' ≡ₚ rid :: own q →
  ids (TextBatchConstructor.set_replicas (<[n := q']> (replicas s)) s) ≡ₚ rid :: ids s.
Proof.
  intros Hq Hp. unfold ids. simpl. rewrite app_comm_cons. f_equiv.
  rewrite <- (concat_insert (<[n := q']> (replicas s)) n q' q [rid]).
  - rewrite list_insert_insert_eq, list_insert_id by done. by rewrite Permutation_app_comm.
  - rewrite list_lookup_insert_eq; [done|]. by eapply lookup_lt_Some.
  - by rewrite Permutation_app_comm, Hp.
Qed.

Lemma own_in_ids n q s x : replicas s !! n = Some q → x ∈ own q → x ∈ ids s.
Proof.
  intros Hq Hx. eapply elem_of_submseteq; [exact Hx|]. apply (ids_own (Z.of_nat n)). by rewrite Nat2Z.id.
Qed.

Lemma own_push_ce rid q : rid ∉ own q → own (set_ce (OrderedIds.push rid (ce_reqs q)) q) ≡ₚ rid :: own q.
Proof.
  intros Hr. unfold own in *. rewrite !not_elem_of_app in Hr. simpl. rewrite OrderedIds.push_new by naive_solver.
  rewrite <- app_assoc. simpl. by rewrite <- Permutation_middle.
Qed.
Lemma own_push_tg rid q : rid ∉ own q → own (set_tg (OrderedIds.push rid (tg_reqs q)) q) ≡ₚ rid :: own q.
Proof.
  intros Hr. unfold own in *. rewrite !not_elem_of_app in Hr. simpl. rewrite OrderedIds.push_new by naive_solver.
  rewrite <- !app_assoc. simpl. by rewrite <- !Permutation_middle.
Qed.

(** A new request in a queue of replica [n]. *)
Lemma sits_insert rid n q q' s :
  replicas s !! n = Some q → own q' ≡ₚ rid :: own q →
  ∀ x m, sits (TextBatchConstructor.set_replicas (<[n := q']> (replicas s)) s) x m → x = rid ∧ m = n ∨ sits s x m.
Proof.
  intros Hq Hp x m [(q0 & Hm & Hx)|(e & He & Hx & <-)]; simpl in *.
  - destruct (decide (m = n)) as [->|Hne].
    + rewrite list_lookup_insert_eq in Hm by by eapply lookup_lt_Some. injection Hm as <-. rewrite Hp in Hx.
      apply elem_of_cons in Hx as [->|Hx]; [by left|]. right. left. by exists q.
    + rewrite list_lookup_insert_ne in Hm by done. right. left. by exists q0.
  - right. right. exists e. split_and!; [done|done|]. unfold home, len. simpl. by rewrite length_insert.
Qed.

Lemma bind_request_book rid i out L s s' :
  Book out L s → rid ∉ L → _bind_request rid i s = (Ok tt, s') → Book out (rid :: L) s'.
Proof.
  intros HB Hr E. unfold _bind_request in E.
  apply bind_ok in E as (q0 & s1 & E1 & E). pose proof (quiet_replica_at i s) as S1. rewrite E1 in S1.
  apply bind_ok in E as (r & s2 & E2 & E). pose proof (quiet_request rid s1) as S2. rewrite E2 in S2. simpl in S1, S2.
  apply (book_same _ _ s s2) in HB; [|by transitivity s1]. clear s S1 s1 E1 S2 E2.
  unfold bind at 1, modify in E. unfold bind at 1 in E.
  match type of E with (if _ then _ else _) ?x = _ => set (s3 := x) in E end.
  destruct HB as [Hp Hs Hb Hn].
  assert (rid ∉ ids s2) as Hnew.
  { intros Hin. apply Hr. rewrite <- Hp. unfold all_ids. rewrite !elem_of_app. tauto. }
  assert (∃ q q', replicas s2 !! home s2 i = Some q ∧ own q' ≡ₚ rid :: own q ∧
    s' = TextBatchConstructor.set_replicas (<[home s2 i := q']> (replicas s3)) s3) as (q & q' & Hq & Ho & ->).
  { destruct (_ =? 0); apply on_replica_inv in E as (q & Hq & ->); (eexists q, _; split_and!; [done| |done];
      (apply own_push_ce || apply own_push_tg); intros Hin; apply Hnew; by eapply own_in_ids). }
  pose proof (ids_insert rid _ q q' s3 Hq Ho) as Hids. change (ids s3) with (ids s2) in Hids.
  split.
  - unfold all_ids. rewrite Hids. simpl. constructor. done.
  - intros x m Hx. unfold bound_to, home, len. simpl. rewrite length_insert.
    destruct (decide (x = rid)) as [->|Hne].
    + exists i. rewrite lookup_insert_eq. split; [done|]. apply (sits_insert rid _ q q' s3 Hq Ho) in Hx as [[_ ->]|Hx]; [done|].
      destruct Hnew. apply ids_sits. by exists m.
    + rewrite lookup_insert_ne by done. apply (sits_insert rid _ q q' s3 Hq Ho) in Hx as [[? _]|Hx]; [done|]. by apply Hs.
  - intros x Hx. rewrite Hids. simpl in *. destruct (decide (x = rid)) as [->|Hne]; [by left|].
    right. apply Hb. by rewrite lookup_insert_ne in Hx.
  - unfold len, n_replicas in *. simpl. by rewrite length_insert.
Qed.

(** A change of the pools alone. *)
Lemma book_pools out L L' s s' :
  replicas s' = replicas s → _onloading_reqs s' = _onloading_reqs s → _bound_requests s' = _bound_requests s →
  n_replicas s' = n_replicas s → all_ids s' ++ out ≡ₚ L' → Book out L s → Book out L' s'.
Proof.
  intros Hr Ho Hb Hn Hp [_ Hs Hd Hl]. split; [done| | |by rewrite Hr, Hn].
  - unfold sits, bound_to, home in *. by rewrite Hr, Ho, Hb.
  - unfold ids. rewrite Hr, Ho, Hb. done.
Qed.

Lemma perm_lift (x : Z) (a b c : list Z) : a ++ b ++ x :: c ≡ₚ x :: a ++ b ++ c.
Proof. by rewrite !app_assoc, Permutation_middle. Qed.

(** The keys of the constructor's dictionaries are distinct. *)
Lemma nodup_keys out L s : NoDup L → Book out L s →
  NoDup (OrderedDict.keys (_onloading_reqs s)) ∧ NoDup (OrderedDict.keys (_ce_pending s)) ∧
  NoDup (OrderedDict.keys (_grammar_pending s)).
Proof.
  intros Hnd HB. destruct (book_nodup _ _ _ Hnd HB) as (Ha & Hi & _). unfold all_ids in Ha. unfold ids in Hi.
  apply NoDup_app in Ha as (_ & _ & Ha). apply NoDup_app in Ha as (? & _ & Ha).
  apply NoDup_app in Hi as (_ & _ & ?). by apply NoDup_app in Ha as [? _].
Qed.

(** A request leaves the pool, or those waiting for a grammar. *)
Lemma book_unpool rid w out L s :
  NoDup L → Book out L s → OrderedDict.lookup rid (_ce_pending s) = Some w →
  ∃ L', L ≡ₚ rid :: L' ∧ Book out L' (set_pending (OrderedDict.delete rid (_ce_pending s)) s).
Proof.
  intros Hnd HB E. set (s' := set_pending _ s). exists (all_ids s' ++ out).
  destruct (nodup_keys _ _ _ Hnd HB) as (_ & Hk & _). split; [|by apply (book_pools _ L _ s)].
  rewrite <- (bk_ids _ _ _ HB), app_comm_cons. f_equiv. unfold all_ids.
  change (ids s') with (ids s). unfold s'. simpl. rewrite Permutation_middle. f_equiv.
  rewrite app_comm_cons. f_equiv. unfold OrderedDict.keys. by rewrite (OrderedDict.delete_perm _ rid w Hk E) at 1.
Qed.

Lemma book_grammar_done rid x out L s :
  NoDup L → Book out L s → OrderedDict.lookup rid (_grammar_pending s) = Some x →
  ∃ L', L ≡ₚ rid :: L' ∧ Book out L' (set_grammar_pending (OrderedDict.delete rid (_grammar_pending s)) s).
Proof.
  intros Hnd HB E. set (s' := set_grammar_pending _ s). exists (all_ids s' ++ out).
  destruct (nodup_keys _ _ _ Hnd HB) as (_ & _ & Hk). split; [|by apply (book_pools _ L _ s)].
  rewrite <- (bk_ids _ _ _ HB), app_comm_cons. f_equiv. unfold all_ids.
  change (ids s') with (ids s). unfold s'. simpl. rewrite <- perm_lift. do 2 f_equiv.
  rewrite app_comm_cons. f_equiv. unfold OrderedDict.keys. by rewrite (OrderedDict.delete_perm _ rid x Hk E) at 1.
Qed.

Lemma not_pooled rid out L s : Book out L s → rid ∉ L →
  rid ∉ OrderedDict.keys (_ce_pending s) ∧ rid ∉ OrderedDict.keys (_grammar_pending s).
Proof.
  intros [Hp _ _ _] Hr. rewrite <- Hp in Hr. unfold all_ids in Hr. rewrite !not_elem_of_app in Hr. tauto.
Qed.

(** A request joins them. *)
Lemma book_pool rid w out L s :
  Book out L s → rid ∉ L → Book out (rid :: L) (set_pending (OrderedDict.set rid w (_ce_pending s)) s).
Proof.
  intros HB Hr. destruct (not_pooled _ _ _ _ HB Hr) as [Hk _]. apply (book_pools _ L _ s); try done.
  rewrite <- (bk_ids _ _ _ HB), app_comm_cons. f_equiv. unfold all_ids.
  match goal with |- ids ?s' ++ _ ≡ₚ _ => change (ids s') with (ids s) end. simpl.
  rewrite OrderedDict.set_new by done. unfold OrderedDict.keys. rewrite fmap_app. simpl. rewrite !app_assoc.
  by rewrite <- (Permutation_cons_append _ rid).
Qed.

Lemma book_grammar rid w out L s :
  Book out L s → rid ∉ L → Book out (rid :: L) (set_grammar_pending (OrderedDict.set rid w (_grammar_pending s)) s).
Proof.
  intros HB Hr. destruct (not_pooled _ _ _ _ HB Hr) as [_ Hk]. apply (book_pools _ L _ s); try done.
  rewrite <- (bk_ids _ _ _ HB), app_comm_cons. f_equiv. unfold all_ids.
  match goal with |- ids ?s' ++ _ ≡ₚ _ => change (ids s') with (ids s) end. simpl.
  rewrite OrderedDict.set_new by done. unfold OrderedDict.keys. rewrite fmap_app. simpl. rewrite !app_assoc.
  by rewrite <- (Permutation_cons_append _ rid).
Qed.

Lemma admit_request_book now rid i out L s s' :
  Book out L s → rid ∉ L → _admit_request now rid i s = (Ok tt, s') → Book out (rid :: L) s'.
Proof.
  intros HB Hr E. unfold _admit_request in E.
  apply bind_ok in E as (r & s1 & E1 & E). pose proof (quiet_request rid s) as S1. rewrite E1 in S1. simpl in S1.
  unfold bind at 1, get in E. apply (book_same _ _ _ _ S1) in HB.
  destruct (_ && _ && _).
  - apply bind_ok in E as (w & s2 & E2 & E). pose proof (quiet_post_weights rid s1) as S2. rewrite E2 in S2. simpl in S2.
    apply (book_same _ _ _ _ S2) in HB. unfold bind, modify in E. injection E as <-.
    pose proof (book_pool rid w out L s2 HB Hr) as HB2. refine (book_pools out (rid :: L) (rid :: L) _ _ _ _ _ _ _ HB2); [done..|apply HB2].
  - apply bind_ok in E as (j & s2 & E2 & E). apply (bind_request_book rid j out L s2); [|done|done].
    destruct i as [i|]; [by injection E2 as _ <-|]. pose proof (quiet_next_replica None s1) as S2. rewrite E2 in S2.
    by apply (book_same _ _ _ _ S2).
Qed.

Lemma fail_request_book rid msg out L s s' :
  Book out L s → _fail_grammar_request rid msg s = (Ok tt, s') → Book out (rid :: L) s'.
Proof.
  intros HB E. unfold _fail_grammar_request in E. apply bind_ok in E as ([] & s1 & E1 & E).
  pose proof (quiet_release_pipeline rid s) as S1. rewrite E1 in S1. simpl in S1. apply (book_same _ _ _ _ S1) in HB.
  unfold modify in E. injection E as <-. apply (book_pools _ L _ s1); try done.
  rewrite <- (bk_ids _ _ _ HB), app_comm_cons. f_equiv. unfold all_ids.
  match goal with |- ids ?s' ++ _ ≡ₚ _ => change (ids s') with (ids s1) end. simpl.
  rewrite fmap_app. simpl. rewrite !app_assoc. by rewrite <- Permutation_cons_append.
Qed.

(** A call of the grammar gate moves no request. *)
Lemma book_on_gate {X} (f : M AsyncGrammarGate.t X) out L s : Book out L s → Book out L (on_gate f s).2.
Proof.
  intros HB. unfold on_gate. destruct (_grammar_gate s) as [g|]; [|done]. destruct (f g).
  apply (book_pools _ L _ s); try done. apply HB.
Qed.

Lemma install_book now rid i out L s s' :
  Book out L s → rid ∉ L → install_and_admit now rid i s = (Ok tt, s') → Book out (rid :: L) s'.
Proof.
  intros HB Hr E. unfold install_and_admit in E.
  apply bind_ok in E as (r & s1 & E1 & E). pose proof (quiet_request rid s) as S1. rewrite E1 in S1. simpl in S1.
  apply (book_same _ _ _ _ S1) in HB. apply bind_ok in E as (res & s2 & E2 & E).
  pose proof (book_on_gate (AsyncGrammarGate.install_ready r) out L s1 HB) as HB2. rewrite E2 in HB2. simpl in HB2.
  destruct res as [msg|r'].
  - by apply (fail_request_book rid msg out L s2).
  - apply bind_ok in E as ([] & s3 & E3 & E). pose proof (quiet_put_request r' s2) as S3. rewrite E3 in S3. simpl in S3.
    eapply admit_request_book; [by eapply book_same|done|exact E].
Qed.

(** *** Loops over the pools *)

Lemma bind_keeps_pending rid i : keeps _ce_pending (_bind_request rid i).
Proof. unfold _bind_request. solve_keeps same_pending. Qed.
Lemma install_keeps_grammar now rid i : keeps _grammar_pending (install_and_admit now rid i).
Proof.
  unfold install_and_admit, _fail_grammar_request, _admit_request, _bind_request. solve_keeps same_grammar.
Qed.
Lemma install_keeps_settings now rid i : keeps settings (install_and_admit now rid i).
Proof.
  unfold install_and_admit, _fail_grammar_request, _admit_request, _bind_request. solve_keeps same_settings.
Qed.

(** A loop over entries of a pool: each step takes one out and books it elsewhere. *)
Lemma pool_loop {V X} (pool : t → list (Z * V)) (key : X → Z) (entry : X → V → Prop) {R} (f : R → X → M t R) out L :
  (∀ r x v s r' s', Book out L s → OrderedDict.lookup (key x) (pool s) = Some v → entry x v → f r x s = (Ok r', s') →
     Book out L s' ∧ pool s' = OrderedDict.delete (key x) (pool s)) →
  ∀ l r s r' s', NoDup (key <$> l) →
  (∀ x, x ∈ l → ∃ v, OrderedDict.lookup (key x) (pool s) = Some v ∧ entry x v) →
  Book out L s → for_fold l r f s = (Ok r', s') → Book out L s'.
Proof.
  intros Hf l. induction l as [|x l IH]; intros r s r' s' Hnd Hin HB E; simpl in E; [by injection E as _ <-|].
  simpl in Hnd. apply NoDup_cons in Hnd as [Hx Hnd]. apply bind_ok in E as (r1 & s1 & E1 & E).
  destruct (Hin x ltac:(by left)) as (v & Hv & He).
  destruct (Hf r x v s r1 s1 HB Hv He E1) as [HB1 Hd].
  apply (IH r1 s1 r' s' Hnd); [|done|done]. intros y Hy. rewrite Hd, OrderedDict.lookup_delete_ne.
  - apply Hin. by right.
  - intros Heq. apply Hx. rewrite <- Heq. by apply list_elem_of_fmap_2.
Qed.

(** An onload that completes: the request goes to the front of the CE queue. *)
Lemma readmit_step rid i e out L s s' :
  NoDup L → Book out L s → OrderedDict.lookup rid (_onloading_reqs s) = Some (i, e) →
  (modify (λ s, set_onloading (OrderedDict.delete rid (_onloading_reqs s)) s);;
   on_replica i (λ q, set_ce (OrderedIds.to_front rid (OrderedIds.push rid (ce_reqs q))) q)) s = (Ok tt, s') →
  Book out L s' ∧ _onloading_reqs s' = OrderedDict.delete rid (_onloading_reqs s).
Proof.
  intros Hnd HB Hv E. destruct (nodup_keys _ _ _ Hnd HB) as (Ho & _ & _).
  destruct (book_nodup _ _ _ Hnd HB) as (_ & Hi & _). destruct HB as [Hp Hs Hb Hn].
  unfold bind, modify in E. cbv beta in E. set (s1 := set_onloading _ s) in E.
  assert (ids s ≡ₚ rid :: ids s1) as Hids.
  { unfold ids, s1. simpl. rewrite Permutation_middle. f_equiv. unfold OrderedDict.keys.
    by rewrite (OrderedDict.delete_perm _ rid _ Ho Hv) at 1. }
  apply on_replica_inv in E as (q & Hq & ->). split; [|done].
  rewrite Hids in Hi. apply NoDup_cons in Hi as [Hnew _].
  assert (rid ∉ ce_reqs q) as Hce.
  { intros Hin. apply Hnew. apply (own_in_ids (home s1 i) q s1); [done|]. unfold own. rewrite elem_of_app. by left. }
  set (q' := set_ce _ q). assert (own q' ≡ₚ rid :: own q) as Hq'.
  { unfold own. change (OrderedIds.to_front rid (OrderedIds.push rid (ce_reqs q)) ++ tg_reqs q
      ++ deferred_lora_requests q ≡ₚ rid :: ce_reqs q ++ tg_reqs q ++ deferred_lora_requests q).
    rewrite OrderedIds.push_to_front. unfold OrderedIds.to_front. by rewrite OrderedIds.remove_notin. }
  pose proof (ids_insert rid _ q q' s1 Hq Hq') as Hids'. rewrite <- Hids in Hids'. split.
  - rewrite <- Hp. f_equiv. unfold all_ids. by rewrite Hids'.
  - intros x n Hx. unfold bound_to, home, len. simpl. rewrite length_insert.
    apply Hs. apply (sits_insert rid _ q q' s1 Hq Hq') in Hx as [[-> ->]|Hx].
    + right. exists (rid, (i, e)). split_and!; [by apply OrderedDict.lookup_Some|done|done].
    + destruct Hx as [Hx|(e' & He & Hx & Hh)]; [by left|right]. exists e'. split_and!; [|done|done].
      eapply sublist_subseteq; [apply OrderedDict.delete_sublist|exact He].
  - intros x Hx. rewrite Hids'. by apply Hb.
  - unfold len, n_replicas in *. simpl. by rewrite length_insert.
Qed.

Lemma lookup_elem {V} (d : list (Z * V)) k v : NoDup (OrderedDict.keys d) → (k, v) ∈ d → OrderedDict.lookup k d = Some v.
Proof.
  intros Hnd Hin. induction d as [|[k' v'] d IH]; [by apply elem_of_nil in Hin|]. simpl in *.
  apply NoDup_cons in Hnd as [Hk Hnd]. apply elem_of_cons in Hin as [[= <- <-]|Hin]; [by rewrite decide_True|].
  rewrite decide_False; [by apply IH|]. intros ->. apply Hk. by apply (list_elem_of_fmap_2 fst) in Hin.
Qed.

Lemma filter_keys {V} (Q : Z * V → Prop) `{!∀ x, Decision (Q x)} (d : list (Z * V)) :
  NoDup (OrderedDict.keys d) →
  NoDup (fst <$> filter Q d) ∧
  (∀ x, x ∈ filter Q d → ∃ v, OrderedDict.lookup x.1 d = Some v ∧ v = x.2).
Proof.
  intros Hnd. split.
  - eapply sublist_NoDup; [exact Hnd|apply fmap_sublist, sublist_filter].
  - intros [k v] Hx. apply list_elem_of_filter in Hx as [_ Hx]. exists v. split; [by apply lookup_elem|done].
Qed.

Lemma readmit_book out L s s' :
  NoDup L → Book out L s → _readmit_completed_onloads s = (Ok tt, s') → Book out L s'.
Proof.
  intros Hnd HB E. unfold _readmit_completed_onloads in E. unfold bind at 1, get in E. rewrite for_each_fold in E.
  destruct (filter_keys (λ e, onload_complete e.2.2 (kv_cache s) = true) (_onloading_reqs s)) as [Hk Hin];
    [by eapply nodup_keys|].
  eapply (pool_loop _onloading_reqs fst (λ x v, v = x.2)) in E; [exact E| |exact Hk|exact Hin|exact HB].
  intros [] [rid [i e]] v s0 [] s1 HB0 Hl Hv E0. simpl in Hl, Hv. subst v. by apply (readmit_step rid i e).
Qed.

Lemma promote_book now out L s s' :
  NoDup L → Book out L s → _promote_grammar_ready_requests now s = (Ok tt, s') → Book out L s'.
Proof.
  intros Hnd HB E. unfold _promote_grammar_ready_requests in E. unfold bind at 1, get in E.
  destruct (_grammar_gate s) as [g|]; [|by injection E as <-]. rewrite for_each_fold in E.
  destruct (filter_keys (λ e, AsyncGrammarGate.is_ready e.1 g = true) (_grammar_pending s)) as [Hk Hin];
    [by eapply nodup_keys|].
  eapply (pool_loop _grammar_pending fst (λ x v, v = x.2)) in E; [exact E| |exact Hk|exact Hin|exact HB].
  intros [] [rid i] x s0 [] s1 HB0 Hl _ E0. simpl in Hl.
  destruct (book_grammar_done rid x out L s0 Hnd HB0 Hl) as (L' & HL & HB1).
  unfold bind, modify in E0. cbv beta in E0. rewrite HL in Hnd. apply NoDup_cons in Hnd as [Hrid _]. split.
  - eapply book_perm; [by symmetry|]. by eapply install_book.
  - pose proof (install_keeps_grammar now rid i (set_grammar_pending (OrderedDict.delete rid (_grammar_pending s0)) s0)) as Hg.
    by rewrite E0 in Hg.
Qed.

(** *** Planning binds pooled requests to replicas *)

Lemma plan_pool_binds target n d pending p :
  ∃ l, l ≡ₚ pending ∧ (plan_pool target n d pending p).2.*1 `sublist_of` l.*1.
Proof.
  unfold plan_pool. set (key := λ e : Z * list Z, default 0 _).
  exists (LoRAManagerV3.sorted_descending key pending). split; [apply Routing.sorted_perm|].
  match goal with |- (foldl ?f _ ?l).2.*1 `sublist_of` _ => set (step := f); set (q := l) end.
  assert (∀ q x, ∃ extra, (foldl step x q).2 = x.2 ++ extra ∧ extra.*1 `sublist_of` q.*1) as Hgen.
  { clear q. induction q as [|[rid w] q IH]; intros [p0 b0]; [by exists []; rewrite app_nil_r|]. cbn [foldl].
    destruct (IH (step (p0, b0) (rid, w))) as (extra & -> & Hsub).
    assert ((step (p0, b0) (rid, w)).2 = b0 ∨ ∃ i, (step (p0, b0) (rid, w)).2 = b0 ++ [(rid, i)]) as [->|[i ->]].
    { unfold step. destruct (argmin _ _) as [i|]; [|by left]. destruct (improves _ _); [right; by exists i|by left]. }
    - exists extra. split; [done|]. simpl. by constructor.
    - exists ((rid, i) :: extra). rewrite <- app_assoc. split; [done|]. simpl. by constructor. }
  destruct (Hgen q (p, [])) as (extra & -> & Hsub). exact Hsub.
Qed.

(** A pooled request is bound to a replica. *)
Lemma unpool_step rid w i out L s s' :
  NoDup L → Book out L s → OrderedDict.lookup rid (_ce_pending s) = Some w →
  _bind_request rid i (set_pending (OrderedDict.delete rid (_ce_pending s)) s) = (Ok tt, s') →
  Book out L s' ∧ _ce_pending s' = OrderedDict.delete rid (_ce_pending s).
Proof.
  intros Hnd HB Hw E. destruct (book_unpool rid w out L s Hnd HB Hw) as (L' & HL & HB1).
  rewrite HL in Hnd. apply NoDup_cons in Hnd as [Hrid _]. split.
  - eapply book_perm; [by symmetry|]. by eapply bind_request_book.
  - pose proof (bind_keeps_pending rid i (set_pending (OrderedDict.delete rid (_ce_pending s)) s)) as Hk.
    by rewrite E in Hk.
Qed.

Lemma expired_step target rid w p out L s p' s' :
  NoDup L → Book out L s → OrderedDict.lookup rid (_ce_pending s) = Some w →
  bind_expired target rid p s = (Ok p', s') →
  Book out L s' ∧ _ce_pending s' = OrderedDict.delete rid (_ce_pending s).
Proof.
  intros Hnd HB Hw E. unfold bind_expired in E. unfold bind at 1, get in E.
  rewrite Hw in E. unfold bind at 1, of_option, ret in E. unfold bind at 1, modify in E. cbv beta in E.
  apply bind_ok in E as (i & s2 & E2 & E). destruct (argmin _ _) as [j|]; [|done]. injection E2 as <- <-.
  apply bind_ok in E as ([] & s3 & E3 & E). injection E as _ <-.
  by apply (unpool_step rid w j out L s).
Qed.

(** A change of fields the books do not read. *)
Lemma book_plan_fields q d out L s :
  Book out L s → Book out L (set_quota q (set_deferred_replicas d s)).
Proof. intros [Hp Hs Hb Hn]. by split. Qed.

Lemma plan_book now out L s s' : NoDup L → Book out L s → _plan_ce_step now s = (Ok tt, s') → Book out L s'.
Proof.
  intros Hnd HB E. unfold _plan_ce_step in E. unfold bind at 1, modify in E. unfold bind at 1, get in E.
  apply (book_plan_fields None ∅) in HB. set (s1 := set_quota None _) in *.
  destruct (negb _); [by injection E as <-|]. destruct (_ && _); [by injection E as <-|].
  destruct (plan_floor now s1) as [p tails]. apply bind_ok in E as (p1 & s2 & E1 & E).
  assert (Book out L s2) as HB2.
  { eapply (pool_loop _ce_pending (λ x, x) (λ _ _, True)) in E1; [exact E1| | | |exact HB].
    - intros p0 rid w s3 p2 s4 HB3 Hl _ E2. by eapply expired_step.
    - rewrite list_fmap_id. apply NoDup_filter. by eapply nodup_keys.
    - intros rid Hin. apply list_elem_of_filter in Hin as [_ Hin]. apply OrderedDict.lookup_keys in Hin as [w Hw]. by exists w. }
  destruct (plan_tails _ _ _) as [load deferred]. unfold bind at 1, get in E.
  destruct (plan_pool_binds (target_tokens_per_batch_ce (config s1)) (n_replicas s2) deferred (_ce_pending s2)
    (mk_plan (floor p1) (total_load p1) load)) as (l & Hl & Hsub).
  destruct (plan_pool _ _ _ _ _) as [p2 binds]. simpl in Hsub.
  match type of E with (if ?c then _ else _) _ = _ => destruct c end.
  2:{ injection E as <-. destruct HB2. by split. }
  apply bind_ok in E as ([] & s3 & E2 & E).
  assert (Book out L s3) as HB3.
  { rewrite for_each_fold in E2. destruct (nodup_keys out L s2 Hnd HB2) as (_ & Hk & _). unfold OrderedDict.keys in Hk.
    rewrite <- Hl in Hk. eapply (pool_loop _ce_pending fst (λ _ _, True)) in E2; [exact E2| | | |exact HB2].
    - intros [] [rid i] w s4 [] s5 HB4 Hlk _ E3. by apply (unpool_step rid w i).
    - eapply sublist_NoDup; [exact Hk|exact Hsub].
    - intros [rid i] Hin. simpl. assert (rid ∈ OrderedDict.keys (_ce_pending s2)) as Hr.
      { unfold OrderedDict.keys. rewrite <- Hl. eapply sublist_subseteq; [exact Hsub|].
        by apply (list_elem_of_fmap_2 fst) in Hin. }
      apply OrderedDict.lookup_keys in Hr as [w Hw]. by exists w. }
  unfold bind at 1, modify in E. destruct (_ && _ && _); injection E as <-; destruct HB3; by split.
Qed.

(** *** Forming every replica's batch *)

(** The fields the batches leave alone. *)
Record Rest s s' : Prop := {
  rs_settings : settings s' = settings s;
  rs_replicas : length (replicas s') = length (replicas s);
  rs_bound : _bound_requests s' = _bound_requests s;
  rs_pending : _ce_pending s' = _ce_pending s;
  rs_grammar : _grammar_pending s' = _grammar_pending s;
  rs_failed : _grammar_failed s' = _grammar_failed s
}.

#[export] Instance rest_refl : Reflexive Rest.
Proof. by intros s. Qed.
#[export] Instance rest_trans : Transitive Rest.
Proof. intros s1 s2 s3 [] []. split; congruence. Qed.

Lemma rest_same s s' : Same s s' → Rest s s'.
Proof. intros []. split; congruence. Qed.
Lemma rest_shift i q q' s s' : Shift i q q' s s' → Rest s s'.
Proof. intros HS. pose proof (sh_replicas _ _ _ _ _ HS) as Hr. destruct HS. split; try done. by rewrite Hr, length_insert. Qed.

(** Replica [i]'s batch: requests [ce] taken from its queues, after requests that stay
    in its TG queue. *)
Definition Parted (size : Z) s (i : Z) (b : list Z) (ce : list Z) : Prop :=
  ∃ tg q, b = tg ++ ce ∧ 0 ≤ i ∧ replicas s !! Z.to_nat i = Some q ∧ (∀ x, x ∈ tg → x ∈ tg_reqs q) ∧
    NoDup b ∧ len b ≤ size ∧ (∀ x, x ∈ ce → bound_to s x (Z.to_nat i)).

Lemma home_index s i : 0 ≤ i → home s i = Z.to_nat i.
Proof. intros Hi. unfold home. by replace (i <? 0) with false by lia. Qed.

Lemma bound_to_rest s s' x n : Rest s s' → bound_to s x n → bound_to s' x n.
Proof. intros HR. unfold bound_to, home, len. by rewrite (rs_replicas _ _ HR), (rs_bound _ _ HR). Qed.

Lemma parted_after size s s' i b ce :
  Rest s s' → replicas s' !! Z.to_nat i = replicas s !! Z.to_nat i → Parted size s i b ce → Parted size s' i b ce.
Proof.
  intros HR Hi (tg & q & Hb & H0 & Hq & Htg & Hnd & Hn & Hce). exists tg, q. rewrite Hi. split_and!; try done.
  intros x Hx. eapply bound_to_rest; [done|by apply Hce].
Qed.

(** A shift of replica [i] shows no request elsewhere. *)
Lemma shift_sits i q q' s s' x n :
  Shift i q q' s s' → n ≠ Z.to_nat i → (sits s x n ↔ sits s' x n).
Proof.
  intros Sh Hne. pose proof (rest_shift _ _ _ _ _ Sh) as HR. pose proof (sh_index _ _ _ _ _ Sh) as Hi.
  destruct (sh_onloads _ _ _ _ _ Sh) as (started & Ho & Hs). unfold sits, home, len.
  rewrite (rs_replicas _ _ HR), Ho, (sh_replicas _ _ _ _ _ Sh), list_lookup_insert_ne by done.
  split; (intros [Hq|(e & He & Hx & Hh)]; [by left|right; exists e; split_and!; try done]); [set_solver|].
  apply elem_of_app in He as [He|He]; [done|]. exfalso. apply Hne. rewrite <- Hh.
  rewrite (proj1 (Forall_forall _ _) Hs e He). by replace (i <? 0) with false by lia.
Qed.

Lemma formed_book i q q' b tg ce out L s s' :
  NoDup L → Book out L s → Formed i q q' b tg ce s s' →
  Book (out ++ ce) L s' ∧ Parted (max_batch_size (config s)) s' i b ce.
Proof.
  intros Hnd HB [Sh Hb Hids Htg Hbn Hn]. destruct (book_nodup _ _ _ Hnd HB) as (_ & Hi & _).
  pose proof (rest_shift _ _ _ _ _ Sh) as HR. pose proof (sh_index _ _ _ _ _ Sh) as H0. destruct HB as [Hp Hs Hd Hl].
  pose proof Hi as Hi'. rewrite <- Hids in Hi'. apply NoDup_app in Hi' as (Hi' & Hdis & _).
  assert (∀ x, x ∈ ids s' ∨ x ∈ ce → x ∈ ids s) as Hin by (intros x Hx; by rewrite <- Hids, elem_of_app).
  split; [split|].
  - rewrite <- Hp. unfold all_ids. rewrite <- Hids, (rs_pending _ _ HR), (rs_grammar _ _ HR), (rs_failed _ _ HR).
    rewrite (Permutation_app_comm out), !app_assoc. f_equiv. rewrite <- !app_assoc. f_equiv.
    by rewrite !app_assoc, Permutation_app_comm, !app_assoc.
  - apply (sits_within (Z.to_nat i) s); [apply HR|apply HR|done|naive_solver| |done].
    intros x n Hne. by eapply shift_sits.
  - intros x Hx. rewrite (rs_bound _ _ HR) in Hx. specialize (Hd x Hx). rewrite <- Hids in Hd.
    rewrite !elem_of_app in *. tauto.
  - unfold len, n_replicas in *. by rewrite (rs_replicas _ _ HR), (rs_settings _ _ HR).
  - exists tg, q'. split_and!; try done; [by eapply shift_after|]. intros x Hx. eapply bound_to_rest; [done|].
    destruct (proj1 (ids_sits s x)) as [m Hm]; [apply Hin; by right|].
    destruct (decide (m = Z.to_nat i)) as [->|Hne]; [by apply Hs|]. exfalso. apply (Hdis x); [|done].
    apply ids_sits. exists m. by eapply (shift_sits i q q' s s').
Qed.

Lemma form_run o l out L s bs s' :
  NoDup L → NoDup l → (∀ i, i ∈ l → 0 ≤ i < len (replicas s)) → 0 ≤ max_batch_size (config s) →
  Book out L s → for_map l (λ i, _construct_replica_batch i o) s = (Ok bs, s') →
  ∃ ces, Book (out ++ concat ces) L s' ∧ Rest s s' ∧
    Forall3 (Parted (max_batch_size (config s)) s') l (map ReplicaBatch.batch bs) ces ∧
    (∀ i, 0 ≤ i → i ∉ l → replicas s' !! Z.to_nat i = replicas s !! Z.to_nat i).
Proof.
  intros Hnd. revert out s bs. induction l as [|i l IH]; intros out s bs Hl Hin Hm HB E; cbn [for_map] in E.
  { injection E as <- <-. exists []. simpl. rewrite app_nil_r. split_and!; [done|done|constructor|done]. }
  apply NoDup_cons in Hl as [Hi Hl]. destruct (Hin i ltac:(by left)) as [H0 Hlt].
  destruct (lookup_lt_is_Some_2 (replicas s) (Z.to_nat i)) as [q Hq]; [unfold len in Hlt; lia|].
  apply bind_ok in E as (b & s1 & E1 & E). apply bind_ok in E as (bs' & s2 & E2 & E). injection E as <- <-.
  destruct (construct_run i q o s b s1 H0 Hq (proj1 (proj2 (book_nodup _ _ _ Hnd HB))) Hm E1) as (q' & tg & ce & HF).
  destruct (formed_book _ _ _ _ _ _ _ _ _ _ Hnd HB HF) as [HB1 HP]. pose proof (fm_shift _ _ _ _ _ _ _ _ HF) as Sh.
  pose proof (rest_shift _ _ _ _ _ Sh) as HR. unfold config in *. rewrite <- (rs_settings _ _ HR) in Hm, HP |- *.
  destruct (IH (out ++ ce) s1 bs' Hl) as (ces & HB2 & HR2 & HF2 & Hout); [|done|done|done|].
  { intros j Hj. unfold len. rewrite (rs_replicas _ _ HR). apply Hin. by right. }
  exists (ce :: ces). split_and!; [by rewrite <- app_assoc in HB2|by transitivity s1| |].
  - constructor; [|done]. eapply parted_after; [done|by apply Hout|done].
  - intros j Hj Hjl. rewrite not_elem_of_cons in Hjl. destruct Hjl as [Hne Hjl]. rewrite Hout by done.
    rewrite (sh_replicas _ _ _ _ _ Sh), list_lookup_insert_ne; [done|]. lia.
Qed.

(** *** The executed batches come back *)

Lemma push_all tg ce q : (∀ x, x ∈ tg → x ∈ q) → NoDup ce → (∀ x, x ∈ ce → x ∉ q) →
  foldl (λ q k, OrderedIds.push k q) q (tg ++ ce) = q ++ ce.
Proof.
  intros Htg Hce Hnew. rewrite foldl_app.
  replace (foldl _ q tg) with q.
  2:{ induction tg as [|x tg IH]; [done|]. simpl. unfold OrderedIds.push at 2.
      rewrite decide_True by (apply Htg; by left). apply IH. intros y Hy. apply Htg. by right. }
  revert q Htg Hnew. induction ce as [|x ce IH]; intros q Htg Hnew; [by rewrite app_nil_r|]. simpl.
  apply NoDup_cons in Hce as [Hx Hce]. rewrite OrderedIds.push_new by (apply Hnew; by left).
  rewrite IH; [by rewrite <- app_assoc|done|intros y Hy; rewrite elem_of_app; left; by apply Htg|].
  intros y Hy. rewrite not_elem_of_app, list_elem_of_singleton. split; [apply Hnew; by right|]. by intros ->.
Qed.

Lemma bound_contained rid s : is_Some (_bound_requests s !! rid) → contains rid s = true.
Proof. intros Hb. unfold contains. by rewrite bool_decide_true by done. Qed.

Lemma push_batch_run i q batch s s' :
  0 ≤ i → replicas s !! Z.to_nat i = Some q → (∀ x, x ∈ batch → is_Some (_bound_requests s !! x)) →
  for_each batch (λ rid, let! s := get in
    when (contains rid s) (on_replica i (λ q, set_tg (OrderedIds.push rid (tg_reqs q)) q))) s = (Ok tt, s') →
  Requeued i q (set_tg (foldl (λ q k, OrderedIds.push k q) (tg_reqs q) batch) q) s s'.
Proof.
  revert q s. induction batch as [|x batch IH]; intros q s Hi Hq Hb E; simpl in E.
  { injection E as <-. simpl. replace (set_tg (tg_reqs q) q) with q by by destruct q. by apply requeued_same. }
  unfold bind at 1, bind at 1, get in E. rewrite (bound_contained x s) in E by (apply Hb; by left). simpl in E.
  destruct (on_replica_run i q (λ q, set_tg (OrderedIds.push x (tg_reqs q)) q) s Hi Hq) as [E1 R1]. rewrite E1 in E.
  eapply requeued_trans; [exact R1|]. eapply IH in E; [exact E|done|by eapply requeued_after|].
  intros y Hy. apply Hb. by right.
Qed.

Lemma remove_perm x l : NoDup l → x ∈ l → l ≡ₚ x :: OrderedIds.remove x l.
Proof.
  induction l as [|y l IH]; intros Hnd Hx; [by apply elem_of_nil in Hx|]. apply NoDup_cons in Hnd as [Hy Hnd].
  destruct (decide (y = x)) as [->|Hne]; [by rewrite OrderedIds.remove_head|].
  unfold OrderedIds.remove in *. rewrite filter_cons_True by done. apply elem_of_cons in Hx as [?|Hx]; [congruence|].
  rewrite (IH Hnd Hx) at 1. by rewrite Permutation_swap.
Qed.

Lemma ids_grow i q q' extra s s' : Requeued i q q' s s' → own q' ≡ₚ own q ++ extra → ids s' ≡ₚ ids s ++ extra.
Proof.
  intros HR Hp. destruct (requeued_shift _ _ _ _ _ HR) as [HS Ho]. unfold ids.
  rewrite Ho, (sh_replicas _ _ _ _ _ HS). pose proof (sh_before _ _ _ _ _ HS) as Hq.
  rewrite <- app_assoc, (Permutation_app_comm _ extra), app_assoc. f_equiv.
  rewrite <- (concat_insert (<[Z.to_nat i := q']> (replicas s)) (Z.to_nat i) q' q extra).
  - by rewrite list_insert_insert_eq, list_insert_id by done.
  - rewrite list_lookup_insert_eq; [done|]. by eapply lookup_lt_Some.
  - by rewrite Hp.
Qed.

(** The last request of an executed batch, its prompt cut, goes back to the CE queue. *)
Definition again (x : Z) (q : ReplicaRequests.t) : ReplicaRequests.t :=
  let q := set_tg (OrderedIds.remove x (tg_reqs q)) q in
  set_ce (OrderedIds.to_front x (OrderedIds.push x (ce_reqs q))) q.

Lemma own_again x q : NoDup (own q) → x ∈ tg_reqs q → own (again x q) ≡ₚ own q.
Proof.
  intros Hnd Hx. unfold own in Hnd. apply NoDup_app in Hnd as (_ & Hcd & Hnd). apply NoDup_app in Hnd as (Htn & _).
  unfold own. change (OrderedIds.to_front x (OrderedIds.push x (ce_reqs q)) ++ OrderedIds.remove x (tg_reqs q)
    ++ deferred_lora_requests q ≡ₚ ce_reqs q ++ tg_reqs q ++ deferred_lora_requests q).
  rewrite OrderedIds.push_to_front. unfold OrderedIds.to_front. rewrite OrderedIds.remove_notin.
  - rewrite (remove_perm x (tg_reqs q) Htn Hx) at 2. simpl. by rewrite Permutation_middle.
  - intros Hin. apply (Hcd x Hin). rewrite elem_of_app. by left.
Qed.

Lemma advance_tail_run x i q s s' :
  0 ≤ i → replicas s !! Z.to_nat i = Some q → NoDup (own q) →
  (let! s := get in
   if negb (contains x s) then ret tt else
   let! r := request x in
   if negb (TokenBuffer.generated_length (tokens r) =? 0) then ret tt else
   let! q := replica_at i in
   raise_if (bool_decide (x ∉ tg_reqs q)) KeyError;;
   on_replica i (λ q, set_tg (OrderedIds.remove x (tg_reqs q)) q);;
   on_replica i (λ q, set_ce (OrderedIds.to_front x (OrderedIds.push x (ce_reqs q))) q)) s = (Ok tt, s') →
  ∃ q', Requeued i q q' s s' ∧ own q' ≡ₚ own q.
Proof.
  intros Hi Hq Hnd E.
  assert (∀ s', Same s s' → ∃ q', Requeued i q q' s s' ∧ own q' ≡ₚ own q) as Hstop
    by (intros s1 S1; exists q; split; [by apply requeued_same|done]).
  unfold bind at 1, get in E. destruct (negb (contains x s)); [injection E as <-; by apply Hstop|].
  apply bind_ok in E as (r & s2 & E2 & E). pose proof (quiet_request x s) as S2. rewrite E2 in S2. simpl in S2.
  destruct (negb _); [injection E as <-; by apply Hstop|].
  assert (replicas s2 !! Z.to_nat i = Some q) as Hq2 by by rewrite (same_replicas _ _ S2).
  rewrite (bind_run _ _ _ _ _ (replica_at_run i q s2 Hi Hq2)) in E.
  apply bind_ok in E as ([] & s3 & E3 & E). apply raise_if_ok in E3 as [Hx <-].
  destruct (on_replica_run i q (λ q, set_tg (OrderedIds.remove x (tg_reqs q)) q) s2 Hi Hq2) as [E4 R4].
  rewrite (bind_run _ _ _ _ _ E4) in E.
  match type of E with on_replica i ?f ?y = _ => destruct (on_replica_run i _ f y Hi (requeued_after _ _ _ _ _ R4)) as [E5 R5] end.
  rewrite E5 in E. injection E as <-. exists (again x q). apply bool_decide_eq_false, dec_stable in Hx.
  split; [|by apply own_again]. eapply requeued_quiet_l; [exact S2|]. by eapply requeued_trans.
Qed.

Lemma advance_replica_run size i b ce s s' :
  Parted size s i b ce → NoDup (ids s ++ ce) → (∀ x, x ∈ ids s → is_Some (_bound_requests s !! x)) →
  advance_replica i b s = (Ok tt, s') →
  ∃ q q', Requeued i q q' s s' ∧ own q' ≡ₚ own q ++ ce.
Proof.
  intros (tg & q & -> & Hi & Hq & Htg & _ & _ & Hbce) Hnd Hbd E.
  apply NoDup_app in Hnd as (Hnds & Hd & Hce). pose proof (ids_nodup i q s Hq Hnds) as Hown.
  assert (∀ x, x ∈ own q → x ∈ ids s) as Hsub by (intros x Hx; by eapply elem_of_submseteq, ids_own).
  assert (∀ x, x ∈ ce → x ∉ own q) as Hdis by (intros x Hx Hin; by apply (Hd x (Hsub x Hin))).
  assert (∀ x, x ∈ tg_reqs q → x ∈ own q) as Hto by (intros x Hx; unfold own; rewrite !elem_of_app; tauto).
  unfold advance_replica in E. apply bind_ok in E as ([] & s1 & E1 & E).
  apply (push_batch_run i q) in E1; [|done|done|].
  2:{ intros x [Hx|Hx]%elem_of_app; [by apply Hbd, Hsub, Hto, Htg|]. destruct (Hbce x Hx) as (z & Hz & _). by exists z. }
  rewrite push_all in E1; [|done|done|intros x Hx Hin; by apply (Hdis x Hx), Hto].
  set (q1 := set_tg (tg_reqs q ++ ce) q) in *.
  assert (own q1 ≡ₚ own q ++ ce) as Hq1.
  { unfold own, q1. simpl. rewrite <- !app_assoc. do 2 f_equiv. apply Permutation_app_comm. }
  destruct (last (tg ++ ce)) as [x|]; [|injection E as <-; by exists q, q1].
  destruct (advance_tail_run x i q1 s1 s' Hi (requeued_after _ _ _ _ _ E1)) as (q2 & R2 & Ho); [|exact E|].
  - rewrite Hq1. apply NoDup_app. split_and!; [done|intros y Hy Hyc; by apply (Hdis y)|done].
  - exists q, q2. split; [by eapply requeued_trans|by rewrite Ho].
Qed.

(** A batch comes back to its replica. *)
Lemma advance_book size i b ce out L s s' :
  NoDup L → Book (ce ++ out) L s → Parted size s i b ce → advance_replica i b s = (Ok tt, s') →
  Book out L s' ∧ Rest s s' ∧ (∀ j, j ≠ Z.to_nat i → replicas s' !! j = replicas s !! j).
Proof.
  intros Hnd HB HP E.
  assert (NoDup (ids s ++ ce)) as Hndc.
  { rewrite <- (bk_ids _ _ _ HB), app_assoc in Hnd. unfold all_ids in Hnd. apply NoDup_app in Hnd as [Hnd _].
    rewrite <- app_assoc, (Permutation_app_comm _ ce), app_assoc in Hnd. by apply NoDup_app in Hnd as [? _]. }
  destruct (advance_replica_run size i b ce s s' HP Hndc) as (q & q' & R & Ho); [|done|].
  { intros x Hx. apply ids_sits in Hx as [n Hx]. apply (bk_sits _ _ _ HB) in Hx as (z & ? & _). by exists z. }
  destruct (requeued_shift _ _ _ _ _ R) as [Sh Honl]. pose proof (rest_shift _ _ _ _ _ Sh) as HR.
  pose proof (ids_grow i q q' ce s s' R Ho) as Hids. destruct HB as [Hp Hs Hd Hl]. split; [split|split; [done|]].
  - rewrite <- Hp. unfold all_ids. rewrite Hids, (rs_pending _ _ HR), (rs_grammar _ _ HR), (rs_failed _ _ HR).
    rewrite !app_assoc. f_equiv. rewrite <- !app_assoc. f_equiv. by rewrite Permutation_app_comm, <- !app_assoc.
  - intros x n Hx. eapply bound_to_rest; [done|]. destruct (decide (n = Z.to_nat i)) as [->|Hne].
    + destruct Hx as [(q0 & Hq0 & Hx)|(e & He & Hx & Hh)].
      * rewrite (requeued_after _ _ _ _ _ R) in Hq0. injection Hq0 as <-. rewrite Ho, elem_of_app in Hx.
        destruct Hx as [Hx|Hx]; [|by destruct HP as (_ & _ & _ & _ & _ & _ & _ & _ & Hce); apply Hce].
        apply Hs. left. exists q. split; [apply R|done].
      * apply Hs. right. exists e. rewrite Honl in He. split_and!; [done|done|].
        unfold home, len in *. by rewrite (rs_replicas _ _ HR) in Hh.
    + apply Hs. by eapply shift_sits.
  - intros x Hx. rewrite (rs_bound _ _ HR) in Hx. rewrite Hids, <- app_assoc. by apply Hd.
  - unfold len, n_replicas in *. by rewrite (rs_replicas _ _ HR), (rs_settings _ _ HR).
  - intros j Hj. by rewrite (sh_replicas _ _ _ _ _ Sh), list_lookup_insert_ne.
Qed.

Lemma parted_all_after size s s' l bs ces :
  Rest s s' → (∀ i, i ∈ l → 0 ≤ i → replicas s' !! Z.to_nat i = replicas s !! Z.to_nat i) →
  Forall3 (Parted size s) l bs ces → Forall3 (Parted size s') l bs ces.
Proof.
  intros HR Hi HF. induction HF as [|i b ce l bs ces HP HF IH]; constructor.
  - eapply parted_after; [done| |done]. apply Hi; [by left|]. by destruct HP as (tg & q & _ & ? & _).
  - apply IH. intros j Hj. apply Hi. by right.
Qed.

Lemma advance_every size l bs ces out L s s' :
  NoDup L → NoDup l → Forall3 (Parted size s) l bs ces → Book (concat ces ++ out) L s →
  for_each (zip l bs) (λ '(i, batch), advance_replica i batch) s = (Ok tt, s') → Book out L s' ∧ Rest s s'.
Proof.
  intros Hnd. revert bs ces s. induction l as [|i l IH]; intros bs ces s Hl HF HB E.
  { apply Forall3_length_lr in HF as Hlen. destruct ces; [|done]. simpl in *. by injection E as <-. }
  apply Forall3_cons_inv_l in HF as (b & bs' & ce & ces' & -> & -> & HP & HF). simpl in HB, E.
  apply NoDup_cons in Hl as [Hi Hl]. apply bind_ok in E as ([] & s1 & E1 & E). rewrite <- app_assoc in HB.
  destruct (advance_book _ _ _ _ _ _ _ _ Hnd HB HP E1) as (HB1 & HR & Hj).
  destruct (IH bs' ces' s1 Hl) as [HB2 HR2]; [|done|done|split; [done|by transitivity s1]].
  apply (parted_all_after size s); [done| |done]. intros j Hin H0. apply Hj. intros Hjk. apply Hi.
  destruct HP as (_ & _ & _ & Hi0 & _). replace i with j by lia. done.
Qed.

(** *** An iteration *)

Lemma quiet_override : quiet choose_override.
Proof.
  apply quiet_bind; [apply quiet_get|intros s].
  destruct (batch_scheduling_strategy _); try apply quiet_ret;
    (apply quiet_bind; [apply quiet_for_map; intros; apply quiet_priority|intros; apply quiet_ret]).
Qed.

Lemma readmit_keeps_settings : keeps settings _readmit_completed_onloads.
Proof.
  apply keeps_bind; [by intros s|intros s]. apply keeps_for_each. intros [rid [i e]].
  apply keeps_bind; [by intros s'|intros _]. by apply keeps_on_replica.
Qed.
Lemma promote_keeps_settings now : keeps settings (_promote_grammar_ready_requests now).
Proof.
  apply keeps_bind; [by intros s|intros s]. destruct (_grammar_gate s); [|by intros s'].
  apply keeps_for_each. intros [rid i]. apply keeps_bind; [by intros s'|intros _]. apply install_keeps_settings.
Qed.
Lemma bind_keeps_settings rid i : keeps settings (_bind_request rid i).
Proof. unfold _bind_request. solve_keeps same_settings. Qed.
Lemma plan_keeps_settings now : keeps settings (_plan_ce_step now).
Proof.
  unfold _plan_ce_step. apply keeps_bind; [by intros s|intros _]. apply keeps_bind; [by intros s|intros s].
  destruct (negb _); [by intros s'|]. destruct (_ && _); [by intros s'|]. destruct (plan_floor now s) as [p tails].
  apply keeps_bind.
  { apply keeps_for_fold. intros r rid. unfold bind_expired. apply keeps_bind; [by intros s'|intros s1].
    apply keeps_bind; [destruct (OrderedDict.lookup rid _); by intros s'|intros w].
    apply keeps_bind; [by intros s'|intros _]. apply keeps_bind; [destruct (argmin _ _); by intros s'|intros j].
    apply keeps_bind; [apply bind_keeps_settings|by intros _ s']. }
  intros p1. destruct (plan_tails _ _ _) as [load deferred]. apply keeps_bind; [by intros s'|intros s1].
  destruct (plan_pool _ _ _ _ _) as [p2 binds]. match goal with |- keeps _ (if ?c then _ else _) => destruct c end.
  - apply keeps_bind; [|intros _; apply keeps_bind; [by intros s'|intros _; by destruct (_ && _ && _)]].
    apply keeps_for_each. intros [rid i]. apply keeps_bind; [by intros s'|intros _]. apply bind_keeps_settings.
  - by intros s'.
Qed.

Lemma construct_batch_book now L s batches s' :
  NoDup L → Book [] L s → 0 ≤ max_batch_size (config s) → construct_batch now s = (Ok batches, s') →
  ∃ ces, Book (concat ces) L s' ∧ settings s' = settings s ∧
    Forall3 (Parted (max_batch_size (config s)) s') (zrange 0 (n_replicas s)) batches ces.
Proof.
  intros Hnd HB Hm E. unfold construct_batch in E.
  apply bind_ok in E as ([] & s1 & E1 & E). pose proof (readmit_keeps_settings s) as K1. rewrite E1 in K1. simpl in K1.
  apply readmit_book with (out := []) (L := L) in E1; [|done|done].
  apply bind_ok in E as ([] & s2 & E2 & E). pose proof (promote_keeps_settings now s1) as K2. rewrite E2 in K2. simpl in K2.
  apply promote_book with (out := []) (L := L) in E2; [|done|done].
  apply bind_ok in E as ([] & s3 & E3 & E). pose proof (plan_keeps_settings now s2) as K3. rewrite E3 in K3. simpl in K3.
  apply plan_book with (out := []) (L := L) in E3; [|done|done].
  apply bind_ok in E as (o & s4 & E4 & E). pose proof (quiet_override s3) as S4. rewrite E4 in S4. simpl in S4.
  apply (book_same _ _ _ _ S4) in E3. unfold bind at 1, get in E.
  apply bind_ok in E as (bs & s5 & E5 & E). injection E as <- <-.
  assert (settings s4 = settings s) as K4 by (rewrite (same_settings _ _ S4); congruence).
  unfold config, n_replicas in *. rewrite <- K4 in Hm |- *.
  destruct (form_run o (zrange 0 (num_replicas (settings s4))) [] L s4 bs s5 Hnd) as (ces & HB5 & HR & HF & _); [apply NoDup_zrange| |done|done|done|].
  { intros i Hi. apply elem_of_zrange in Hi. pose proof (bk_replicas _ _ _ E3) as Hr. unfold n_replicas in Hr. lia. }
  exists ces. split_and!; [done| |done]. rewrite K4. by rewrite (rs_settings _ _ HR).
Qed.

Lemma advance_requests_book size batches ces L s s' :
  NoDup L → Book (concat ces) L s → Forall3 (Parted size s) (zrange 0 (n_replicas s)) batches ces →
  advance_requests batches s = (Ok tt, s') → Book [] L s'.
Proof.
  intros Hnd HB HF E. unfold advance_requests in E. unfold bind at 1, get in E.
  apply bind_ok in E as ([] & s1 & E1 & E). apply raise_if_ok in E as [_ <-].
  rewrite (bk_replicas _ _ _ HB) in E1. eapply advance_every in E1; [apply E1|done|apply NoDup_zrange|exact HF|].
  by rewrite app_nil_r.
Qed.

(** A batch holds requests bound to its replica; so batches share no request. *)
Lemma parted_bound size out L s i b ce x :
  Book out L s → Parted size s i b ce → x ∈ b → bound_to s x (Z.to_nat i).
Proof.
  intros HB (tg & q & -> & Hi & Hq & Htg & _ & _ & Hce) [Hx|Hx]%elem_of_app; [|by apply Hce].
  apply (bk_sits _ _ _ HB). left. exists q. split; [done|]. unfold own. rewrite !elem_of_app. right. left. by apply Htg.
Qed.

Lemma bound_to_unique s x n m : bound_to s x n → bound_to s x m → n = m.
Proof. intros (z & Hz & <-) (z' & Hz' & <-). congruence. Qed.

Lemma parted_disjoint size out L s l batches ces :
  NoDup l → Book out L s → Forall3 (Parted size s) l batches ces →
  NoDup (concat batches) ∧ (∀ x, x ∈ concat batches → ∃ i, i ∈ l ∧ 0 ≤ i ∧ bound_to s x (Z.to_nat i)).
Proof.
  intros Hl HB HF. induction HF as [|i b ce l batches ces HP HF IH]; [split; [constructor|by intros x ?%elem_of_nil]|].
  apply NoDup_cons in Hl as [Hi Hl]. destruct (IH Hl) as [Hnd Hin]. simpl.
  assert (0 ≤ i) as H0 by by destruct HP as (_ & _ & _ & ? & _). split.
  - apply NoDup_app. split_and!; [by destruct HP as (_ & _ & _ & _ & _ & _ & ? & _)| |done].
    intros x Hx Hc. destruct (Hin x Hc) as (j & Hj & Hj0 & Hb). apply Hi. replace i with j; [done|].
    pose proof (bound_to_unique _ _ _ _ Hb (parted_bound _ _ _ _ _ _ _ _ HB HP Hx)). lia.
  - intros x [Hx|Hx]%elem_of_app.
    + exists i. split_and!; [by left|done|]. by eapply parted_bound.
    + destruct (Hin x Hx) as (j & Hj & ? & ?). exists j. split_and!; [by right|done..].
Qed.

(** *** Requests come and go *)

(** Fields the books do not read may change, in the replicas too. *)
Record Alike s s' : Prop := {
  al_settings : settings s' = settings s;
  al_replicas : map own (replicas s') = map own (replicas s);
  al_onloads : _onloading_reqs s' = _onloading_reqs s;
  al_bound : _bound_requests s' = _bound_requests s;
  al_pending : _ce_pending s' = _ce_pending s;
  al_grammar : _grammar_pending s' = _grammar_pending s;
  al_failed : _grammar_failed s' = _grammar_failed s
}.

#[export] Instance alike_refl : Reflexive Alike.
Proof. by intros s. Qed.
#[export] Instance alike_trans : Transitive Alike.
Proof. intros s1 s2 s3 [] []. split; congruence. Qed.
Lemma alike_same s s' : Same s s' → Alike s s'.
Proof. intros []. split; congruence. Qed.

Lemma alike_length s s' : Alike s s' → length (replicas s') = length (replicas s).
Proof. intros HA. by rewrite <- (length_map own (replicas s')), (al_replicas _ _ HA), length_map. Qed.

Lemma alike_sits s s' x n : Alike s s' → sits s' x n → sits s x n.
Proof.
  intros HA [(q & Hq & Hx)|(e & He & Hx & Hh)].
  - left. assert (map own (replicas s) !! n = Some (own q)) as Hm.
    { rewrite <- (al_replicas _ _ HA). change (map own) with (fmap (M := list) own). by rewrite list_lookup_fmap, Hq. }
    change (map own) with (fmap (M := list) own) in Hm. rewrite list_lookup_fmap in Hm.
    destruct (replicas s !! n) as [q0|]; [|done]. simpl in Hm. injection Hm as Hm. exists q0. by rewrite Hm.
  - right. exists e. rewrite (al_onloads _ _ HA) in He. unfold home, len in *. by rewrite (alike_length _ _ HA) in Hh.
Qed.

Lemma alike_ids s s' : Alike s s' → ids s' = ids s ∧ all_ids s' = all_ids s.
Proof.
  intros HA. assert (ids s' = ids s) as Hi by (unfold ids; by rewrite (al_replicas _ _ HA), (al_onloads _ _ HA)).
  split; [done|]. unfold all_ids. by rewrite Hi, (al_pending _ _ HA), (al_grammar _ _ HA), (al_failed _ _ HA).
Qed.

Lemma book_alike out L s s' : Alike s s' → Book out L s → Book out L s'.
Proof.
  intros HA [Hp Hs Hb Hn]. destruct (alike_ids _ _ HA) as [Hi Ha]. split.
  - by rewrite Ha.
  - intros x n Hx. unfold bound_to, home, len. rewrite (al_bound _ _ HA), (alike_length _ _ HA).
    apply Hs. by eapply alike_sits.
  - by rewrite Hi, (al_bound _ _ HA).
  - unfold len, n_replicas in *. by rewrite (alike_length _ _ HA), (al_settings _ _ HA).
Qed.

(** A request leaves a replica: its queue, or the onloads. *)
Lemma own_dropped rid q : NoDup (own q) → own q ≡ₚ (if decide (rid ∈ own q) then [rid] else []) ++ own (drop_from_queues rid q).
Proof.
  intros Hnd. unfold own in *. apply NoDup_app in Hnd as (Hc & Hcd & Hnd). apply NoDup_app in Hnd as (Ht & Htd & Hd).
  unfold drop_from_queues. destruct (decide (rid ∈ ce_reqs q)) as [Hr|Hrc].
  { rewrite decide_True by set_solver. simpl. by rewrite (remove_perm rid _ Hc Hr) at 1. }
  destruct (decide (rid ∈ tg_reqs q)) as [Hr|Hrt].
  { rewrite decide_True by set_solver. simpl. rewrite (remove_perm rid _ Ht Hr) at 1. simpl.
    by rewrite <- Permutation_middle. }
  destruct (decide (rid ∈ deferred_lora_requests q)) as [Hr|Hrd].
  { rewrite decide_True by set_solver. simpl. rewrite (remove_perm rid _ Hd Hr) at 1. by rewrite perm_lift. }
  by rewrite decide_False by set_solver.
Qed.

Lemma delete_absent {V} k (d : list (Z * V)) : k ∉ OrderedDict.keys d → OrderedDict.delete k d = d.
Proof.
  induction d as [|[k' v] d IH]; [done|]. simpl. rewrite not_elem_of_cons. intros [Hne Hk].
  rewrite decide_False by congruence. by rewrite IH.
Qed.

(** The queues and the onloads once a request bound to replica [n] was dropped from it. *)
Lemma release_ids rid n q s s' :
  NoDup (ids s) → rid ∈ ids s → (∀ m, sits s rid m → m = n) → replicas s !! n = Some q →
  replicas s' = <[n := drop_from_queues rid q]> (replicas s) →
  _onloading_reqs s' = OrderedDict.delete rid (_onloading_reqs s) → ids s ≡ₚ rid :: ids s'.
Proof.
  intros Hi Hin Hone Hq Hr Ho.
  assert (NoDup (own q)) as Hown by (apply (ids_nodup (Z.of_nat n) q s); [by rewrite Nat2Z.id|done]).
  pose proof (own_dropped rid q Hown) as Hdrop. unfold ids. rewrite Hr, Ho.
  assert (sits s rid n) as Hn by (apply ids_sits in Hin as [m Hm]; by rewrite <- (Hone m Hm)).
  destruct (decide (rid ∈ own q)) as [Hrq|Hrq].
  - rewrite delete_absent.
    + rewrite app_comm_cons. f_equiv. rewrite <- (concat_insert (replicas s) n q (drop_from_queues rid q) [rid] Hq).
      * by rewrite Permutation_app_comm.
      * by rewrite Permutation_app_comm, <- Hdrop.
    + intros Hx. unfold ids in Hi. apply NoDup_app in Hi as (_ & Hd & _). apply (Hd rid); [|done].
      apply list_elem_of_In, in_concat. exists (own q). split; [|by apply list_elem_of_In].
      apply in_map, list_elem_of_In. by eapply list_elem_of_lookup_2.
  - rewrite <- (app_nil_r (concat (map own (<[n := _]> _)))), (concat_insert (replicas s) n q _ [] Hq)
      by by rewrite app_nil_r, <- Hdrop.
    destruct Hn as [(q0 & Hq0 & Hx)|(e & He & <- & _)]; [congruence|].
    assert (is_Some (OrderedDict.lookup e.1 (_onloading_reqs s))) as [v Hv]
      by by apply OrderedDict.lookup_keys, list_elem_of_fmap_2.
    rewrite Permutation_middle. f_equiv. unfold OrderedDict.keys. unfold ids in Hi. apply NoDup_app in Hi as (_ & _ & Hk).
    by rewrite (OrderedDict.delete_perm _ e.1 v Hk Hv) at 1.
Qed.

Lemma release_sits rid n q s s' x m :
  NoDup (own q) → replicas s !! n = Some q → replicas s' = <[n := drop_from_queues rid q]> (replicas s) →
  _onloading_reqs s' = OrderedDict.delete rid (_onloading_reqs s) → sits s' x m → sits s x m.
Proof.
  intros Hown Hq Hr Ho [(q0 & Hq0 & Hx)|(e & He & Hx & Hm)].
  - left. rewrite Hr in Hq0. destruct (decide (m = n)) as [->|Hmn].
    + rewrite list_lookup_insert_eq in Hq0 by by eapply lookup_lt_Some. injection Hq0 as <-. exists q. split; [done|].
      rewrite (own_dropped rid q Hown), elem_of_app. by right.
    + rewrite list_lookup_insert_ne in Hq0 by done. by exists q0.
  - right. exists e. unfold home, len in *. rewrite Hr, length_insert in Hm. split_and!; try done. rewrite Ho in He.
    eapply sublist_subseteq; [apply OrderedDict.delete_sublist|exact He].
Qed.

(** The books of a release once the request left its replica. *)
Lemma release_bound rid i q out L s s' :
  NoDup L → Book out L s → rid ∉ out → _bound_requests s !! rid = Some i → replicas s !! home s i = Some q →
  settings s' = settings s → replicas s' = <[home s i := drop_from_queues rid q]> (replicas s) →
  _onloading_reqs s' = OrderedDict.delete rid (_onloading_reqs s) →
  _bound_requests s' = delete rid (_bound_requests s) → _ce_pending s' = _ce_pending s →
  _grammar_pending s' = _grammar_pending s → _grammar_failed s' = _grammar_failed s →
  ∃ L', L ≡ₚ rid :: L' ∧ Book out L' s'.
Proof.
  intros Hnd HB Hro Hbi Hq Hst Hr Ho Hbd Hpd Hgr Hfl. destruct (book_nodup _ _ _ Hnd HB) as (_ & Hi & _).
  destruct HB as [Hp Hs Hb Hn].
  assert (rid ∈ ids s) as Hin by (specialize (Hb rid (ltac:(by eexists))); by apply elem_of_app in Hb as [?|?]).
  assert (ids s ≡ₚ rid :: ids s') as Hids.
  { apply (release_ids rid (home s i) q); try done. intros m Hm. apply Hs in Hm as (z & Hz & <-). congruence. }
  assert (NoDup (own q)) as Hown by (apply (ids_nodup (Z.of_nat (home s i)) q s); [by rewrite Nat2Z.id|done]).
  exists (all_ids s' ++ out). split; [|split].
  - rewrite <- Hp. unfold all_ids. by rewrite Hids, Hpd, Hgr, Hfl.
  - done.
  - intros x m Hx. assert (x ≠ rid) as Hne.
    { intros ->. rewrite Hids in Hi. apply NoDup_cons in Hi as [Hi _]. apply Hi, ids_sits. by exists m. }
    destruct (Hs x m) as (z & Hz & Hzm); [by eapply release_sits|].
    exists z. unfold home, len in *. by rewrite Hbd, lookup_delete_ne, Hr, length_insert.
  - intros x Hx. rewrite Hbd in Hx. assert (x ≠ rid) as Hne by (intros ->; rewrite lookup_delete_eq in Hx; by destruct Hx).
    rewrite lookup_delete_ne in Hx by done. specialize (Hb x Hx). rewrite Hids in Hb. set_solver.
  - unfold len, n_replicas in *. by rewrite Hr, length_insert, Hst.
Qed.

(** The calls of a release that move nothing. *)
Lemma alike_on_replica i f s s' : (∀ q, own (f q) = own q) → on_replica i f s = (Ok tt, s') → Alike s s'.
Proof.
  intros Hf E. apply on_replica_inv in E as (q & Hq & ->). split; try done. simpl.
  change (map own) with (fmap (M := list) own). rewrite list_fmap_insert, Hf. apply list_insert_id.
  by rewrite list_lookup_fmap, Hq.
Qed.

Lemma alike_drop_lora rid i s s' : drop_lora rid i s = (Ok tt, s') → Alike s s'.
Proof.
  intros E. unfold drop_lora in E. unfold bind at 1, get in E. unfold bind at 1, modify in E.
  set (s1 := set_lora_names _ s) in E. assert (Alike s s1) as H1 by by split.
  destruct (default None _) as [name|]; [|by injection E as <-]. unfold bind at 1, get in E.
  destruct (negb _); [|by injection E as <-]. transitivity s1; [done|]. eapply alike_on_replica; [|exact E]. done.
Qed.

Lemma alike_gate {X} (f : M AsyncGrammarGate.t X) s : Alike s (on_gate f s).2.
Proof. unfold on_gate. destruct (_grammar_gate s) as [g|]; [|done]. destruct (f g). by split. Qed.

Lemma release_book rid L s s' :
  NoDup L → Book [] L s → release_request rid s = (Ok tt, s') → ∃ L', L ≡ₚ rid :: L' ∧ Book [] L' s'.
Proof.
  intros Hnd HB E. unfold release_request in E. unfold bind at 1, get in E.
  apply bind_ok in E as ([] & s0 & E0 & E). apply raise_if_ok in E0 as [_ <-].
  destruct (bool_decide (rid ∈ OrderedDict.keys (_grammar_pending s))) eqn:Eg.
  { apply bool_decide_eq_true, OrderedDict.lookup_keys in Eg as [x Hx].
    destruct (book_grammar_done rid x [] L s Hnd HB Hx) as (L' & HL & HB1). unfold bind at 1, modify in E. cbv beta in E.
    exists L'. split; [done|]. apply bind_ok in E as ([] & s1 & E1 & E). apply py_assert_ok in E1 as [_ <-].
    apply bind_ok in E as ([] & s2 & E2 & E). match type of E2 with on_gate ?f ?y = _ => pose proof (alike_gate f y) as A2 end.
    rewrite E2 in A2. pose proof (quiet_release_pipeline rid s2) as S3. rewrite E in S3.
    eapply book_same; [exact S3|]. by eapply book_alike. }
  destruct (bool_decide (rid ∈ OrderedDict.keys (_ce_pending s))) eqn:Ep.
  { apply bool_decide_eq_true, OrderedDict.lookup_keys in Ep as [w Hw].
    destruct (book_unpool rid w [] L s Hnd HB Hw) as (L' & HL & HB1). unfold bind at 1, modify in E. cbv beta in E.
    exists L'. split; [done|]. unfold bind at 1, modify in E. cbv beta in E.
    pose proof (quiet_release_pipeline rid (set_arrival (delete rid (_ce_arrival s)) (set_pending
      (OrderedDict.delete rid (_ce_pending s)) s))) as S3. cbn in E, S3. rewrite E in S3.
    eapply book_same; [exact S3|]. eapply book_alike; [|exact HB1]. by split. }
  unfold bind at 1, modify in E. unfold bind at 1, modify in E. set (s1 := set_onloading _ _) in E.
  apply bind_ok in E as (i & s2 & E2 & E).
  change (of_option KeyError (_bound_requests s !! rid) s1 = (Ok i, s2)) in E2.
  destruct (_bound_requests s !! rid) as [i'|] eqn:Ei; [|done]. injection E2 as -> <-.
  apply bind_ok in E as ([] & s3 & E3 & E). apply on_replica_inv in E3 as (q & Hq & ->).
  set (s3 := TextBatchConstructor.set_replicas _ s1) in E.
  apply bind_ok in E as ([] & s4 & E4 & E). apply alike_drop_lora in E4. unfold bind at 1, get in E.
  apply bind_ok in E as ([] & s5 & E5 & E).
  pose proof (quiet_when (kv_contains rid (kv_cache s4)) _ (quiet_on_kv (kv_release rid)) s4) as S5. rewrite E5 in S5. simpl in S5.
  apply bind_ok in E as ([] & s6 & E6 & E). pose proof (quiet_release_pipeline rid s5) as S6. rewrite E6 in S6. simpl in S6.
  unfold bind at 1, get in E. apply bind_ok in E as ([] & s7 & E7 & E).
  assert (Alike s6 s7) as A7.
  { unfold when in E7. destruct (bool_decide _) in E7; [|by injection E7 as <-]. match type of E7 with on_gate ?f ?y = _ => pose proof (alike_gate f y) as HA end.
    by rewrite E7 in HA. }
  assert (Alike s3 s7) as HA by (transitivity s6; [transitivity s5; [transitivity s4; [done|by apply alike_same]|by apply alike_same]|done]).
  unfold modify in E. injection E as <-.
  set (s8 := set_bound (delete rid (_bound_requests s3)) s3).
  destruct (release_bound rid i q [] L s s8 Hnd HB) as (L' & HL & HB8); try done; [by intros ?%elem_of_nil|].
  exists L'. split; [done|]. eapply book_alike; [|exact HB8]. destruct HA. unfold s8. split; try done. simpl. by f_equal.
Qed.

Lemma enqueue_book now r i L s s' :
  Book [] L s → request_id r ∉ L → enqueue_new_request now r i s = (Ok tt, s') → Book [] (request_id r :: L) s'.
Proof.
  intros HB Hr E. unfold enqueue_new_request in E. apply bind_ok in E as ([] & s1 & E1 & E).
  pose proof (quiet_put_request r s) as S1. rewrite E1 in S1. simpl in S1. apply (book_same _ _ _ _ S1) in HB.
  unfold bind at 1, get in E. destruct (_grammar_gate s1); [|by eapply admit_request_book].
  destruct (_ =? 0); [|by eapply admit_request_book].
  apply bind_ok in E as ([] & s2 & E2 & E). pose proof (alike_gate (AsyncGrammarGate.submit r) s1) as A2.
  rewrite E2 in A2. apply (book_alike _ _ _ _ A2) in HB.
  apply bind_ok in E as (g & s3 & E3 & E). match type of E3 with on_gate ?f ?y = _ => pose proof (alike_gate f y) as A3 end. rewrite E3 in A3.
  apply (book_alike _ _ _ _ A3) in HB. destruct (negb _); [|by eapply install_book].
  unfold modify in E. injection E as <-. by apply book_grammar.
Qed.

Lemma take_failed_book out L s failed s' :
  Book out L s → take_grammar_failed s = (Ok failed, s') →
  ∃ L', L ≡ₚ failed.*1 ++ L' ∧ Book out L' s' ∧ Rest (set_grammar_failed [] s) s' ∧ replicas s' = replicas s.
Proof.
  intros HB E. unfold take_grammar_failed, bind, get, modify, ret in E. injection E as <- <-.
  exists (all_ids (set_grammar_failed [] s) ++ out). split_and!; [| |done|done].
  - rewrite <- (bk_ids _ _ _ HB). unfold all_ids. simpl. rewrite app_nil_r, !app_assoc. f_equiv.
    by rewrite Permutation_app_comm, <- !app_assoc.
  - by apply (book_pools _ L _ s).
Qed.

Lemma init_book st kv pipe lora gate s : 0 ≤ num_replicas st → init st kv pipe lora gate = Ok s → Book [] [] s.
Proof.
  intros Hn E. unfold init in E. destruct (_ && _); [done|]. injection E as <-.
  assert (∀ n, concat (map own (repeat ReplicaRequests.empty n)) = []) as Hc by by induction n.
  split; simpl.
  - unfold all_ids, ids. simpl. by rewrite Hc.
  - intros x n [(q & Hq & Hx)|(e & He & _)]; [|by apply elem_of_nil in He]. simpl in Hq.
    apply list_elem_of_lookup_2, list_elem_of_In, repeat_spec in Hq as ->. unfold own in Hx. simpl in Hx. by apply elem_of_nil in Hx.
  - intros x [z Hz]. by rewrite lookup_empty in Hz.
  - unfold len, n_replicas. simpl. rewrite repeat_length. lia.
Qed.

(** *** The life of the constructor *)

(** What happens to a constructor, and the requests [L] it holds between two calls: the
    scheduler enqueues requests with ids it does not hold, releases requests, collects
    the failures, and runs iterations; within one, and between calls, the pipeline
    changes contexts, caches and its own state. *)
Inductive Life : list Z → t → Prop :=
| life_init st kv pipe lora gate s :
    0 ≤ num_replicas st → init st kv pipe lora gate = Ok s → Life [] s
| life_outside L s s' : Life L s → Same s s' → Life L s'
| life_enqueue L s s' now r i :
    Life L s → request_id r ∉ L → enqueue_new_request now r i s = (Ok tt, s') → Life (request_id r :: L) s'
| life_release L s s' rid :
    Life L s → release_request rid s = (Ok tt, s') → Life (OrderedIds.remove rid L) s'
| life_failures L s s' failed :
    Life L s → take_grammar_failed s = (Ok failed, s') → Life (filter (λ x, x ∉ failed.*1) L) s'
| life_iteration L s s1 s2 s3 now batches :
    Life L s → 0 < max_batch_size (config s) → construct_batch now s = (Ok batches, s1) → Same s1 s2 →
    advance_requests batches s2 = (Ok tt, s3) → Life L s3.

Lemma filter_out (l l' : list Z) : NoDup (l ++ l') → filter (λ x, x ∉ l) (l ++ l') = l'.
Proof.
  intros Hnd. apply NoDup_app in Hnd as (_ & Hd & _). rewrite filter_app.
  replace (filter (λ x, x ∉ l) l') with l'; [replace (filter (λ x, x ∉ l) l) with (@nil Z); [done|]|].
  - symmetry. apply elem_of_nil_inv. intros x [Hn Hx]%list_elem_of_filter. done.
  - assert (∀ x, x ∈ l' → x ∉ l) as Ho by (intros x Hx Hl; by apply (Hd x)). clear Hd.
    induction l' as [|x l' IH]; [done|]. rewrite filter_cons_True by (apply Ho; by left).
    f_equal. apply IH. intros y Hy. apply Ho. by right.
Qed.

Lemma life_book L s : Life L s → NoDup L ∧ Book [] L s.
Proof.
  induction 1 as [st kv pipe lora gate s Hn E|L s s' HL [Hnd HB] HS|L s s' now r i HL [Hnd HB] Hr E
    |L s s' rid HL [Hnd HB] E|L s s' failed HL [Hnd HB] E|L s s1 s2 s3 now batches HL [Hnd HB] Hm E1 HS E2].
  - split; [constructor|by eapply init_book].
  - split; [done|by eapply book_same].
  - split; [by constructor|by eapply enqueue_book].
  - destruct (release_book rid L s s' Hnd HB E) as (L' & HL' & HB'). split; [by apply OrderedIds.NoDup_remove|].
    eapply book_perm; [|exact HB']. rewrite HL' in Hnd. apply NoDup_cons in Hnd as [Hr _].
    unfold OrderedIds.remove. rewrite HL'. fold (OrderedIds.remove rid (rid :: L')). by rewrite OrderedIds.remove_head.
  - destruct (take_failed_book [] L s failed s' HB E) as (L' & HL' & HB' & _). split; [by apply NoDup_filter|].
    eapply book_perm; [|exact HB']. rewrite HL' in Hnd |- *. by rewrite filter_out.
  - split; [done|]. destruct (construct_batch_book now L s batches s1 Hnd HB ltac:(lia) E1) as (ces & HB1 & Hst & HF).
    eapply (advance_requests_book (max_batch_size (config s)) batches ces); [done|by eapply book_same| |done].
    unfold n_replicas in *. rewrite (same_settings _ _ HS), Hst.
    eapply parted_all_after; [by apply rest_same| |exact HF]. intros i _ _. by rewrite (same_replicas _ _ HS).
Qed.

End Conservation.
End Conservation.
