(* ===== verification/Spending.v ===== *)
(** * What a context-encoding batch spends (text_batch_constructor.py, token_budget.py)

    The pass that fills a batch with prompts charges the budgets with the tokens the
    batch will process, and stops before it exceeds them. *)

From S2P Require Import Prelude Tokens Eos FreeQueue Pool Grammar Context Hashing Connector Manager ManagerFacts ManagerProperties CacheManager KVInterface Dict Budget Lora Batch BatchFacts.

Module Spending.
Import ReplicaRequests TextBatchConstructor BatchFacts.

Section Spending.
Context {B : Backend} `{KV : !KVCache, KL : !KVCacheLaws, P : Pipeline, F : Floats, G : !GrammarBuilder, A : AdapterStore}.
Implicit Types s : t.

(** Every request's tokens are a well-formed buffer of 64-bit integers. *)
Definition good s : Prop := ∀ rid r, requests s !! rid = Some r → Trace.good_tokens (ctx r).

(** The tokens a batch will process. *)
Definition load (l : list Z) s : Z := zsum (map (active_length_of s) l).

(** *** Calls leave the other requests alone *)
Definition only {X} (rid : Z) (f : M t X) : Prop :=
  ∀ s x, x ≠ rid → requests (f s).2 !! x = requests s !! x.

Lemma only_bind {X Y} rid (f : M t X) (g : X → M t Y) : only rid f → (∀ x, only rid (g x)) → only rid (bind f g).
Proof.
  intros Hf Hg s x Hx. unfold bind. specialize (Hf s x Hx). destruct (f s) as [[y|e] s1]; [|done]. simpl in Hf.
  rewrite <- Hf. by apply Hg.
Qed.
Lemma only_keeps {X} rid (f : M t X) : keeps requests f → only rid f.
Proof. intros Hf s x _. by rewrite Hf. Qed.
Lemma only_on_request {X} rid (f : M (Ctx.t B) X) : only rid (on_request rid f).
Proof.
  intros s x Hx. unfold on_request. destruct (requests s !! rid); [|done]. destruct (f _). simpl.
  by rewrite lookup_insert_ne.
Qed.
Lemma only_on_kv_request {X} rid (f : M (cache * Ctx.t B) X) : only rid (on_kv_request rid f).
Proof.
  intros s x Hx. unfold on_kv_request. destruct (requests s !! rid); [|done]. destruct (f _) as [? [? ?]]. simpl.
  by rewrite lookup_insert_ne.
Qed.

(** The calls that touch no request's object. *)
Lemma still_on_kv {X} (f : M cache X) : keeps requests (on_kv f).
Proof. intros s. unfold on_kv, zoom. by destruct (f _). Qed.
Lemma still_pipeline rid : keeps requests (release_pipeline rid).
Proof. intros s. unfold release_pipeline, on_pipeline, zoom. by destruct (pipeline_release _ _). Qed.
Lemma still_replica_at i : keeps requests (replica_at i).
Proof. intros s. unfold replica_at, bind, get. by destruct (py_index _ _). Qed.
Lemma still_on_replica i f : keeps requests (on_replica i f).
Proof. by apply keeps_on_replica. Qed.
Lemma still_request rid : keeps requests (request rid).
Proof. intros s. unfold request, bind, get. by destruct (_ !! _). Qed.
Lemma still_on_lora {X} (f : M LoRAManagerV3.t X) : keeps requests (on_lora f).
Proof. intros s. unfold on_lora. destruct (_lora_manager s); [|done]. by destruct (f _). Qed.

Lemma still_fatal i c : keeps requests (_is_insufficient_blocks_fatal i c).
Proof.
  unfold _is_insufficient_blocks_fatal, _is_anything_inflight. destruct c; [|by intros s].
  apply keeps_bind; [|by intros]. apply keeps_bind; [by intros|intros s]. destruct (existsb _ _); [by intros ?|].
  apply keeps_bind; [apply still_on_kv|intros []]; [by intros ?|]. by destruct (_get_inflight_kv_transfer_count _).
Qed.
Lemma still_can_allocate rid i : keeps requests (can_allocate_lora rid i).
Proof.
  apply keeps_bind; [by intros|intros s]. destruct (_lora_manager s); [|by intros ?].
  apply keeps_bind; [apply still_request|intros r]. apply keeps_bind; [apply still_replica_at|intros q].
  apply keeps_bind; [by intros|intros ok]. apply keeps_bind; [|by intros ? ?].
  destruct ok; [by intros ?|apply still_on_replica].
Qed.
Lemma still_add_active rid i : keeps requests (add_active_lora rid i).
Proof.
  apply keeps_bind; [by intros|intros s]. destruct (_lora_manager s); [|by intros ?].
  apply keeps_bind; [apply still_request|intros r]. destruct (is_lora_request _ _); [|by intros ?].
  apply keeps_bind; [apply still_on_lora|intros _]. apply still_on_replica.
Qed.

Lemma only_return rid i : only rid (_return_to_request_queue rid i).
Proof.
  unfold _return_to_request_queue. apply only_bind; [by apply only_keeps|intros s].
  apply only_bind; [destruct (kv_contains rid _); [apply only_keeps, still_on_kv|by apply only_keeps]|intros _].
  apply only_bind; [apply only_keeps, still_pipeline|intros _].
  apply only_bind; [apply only_on_request|intros _]. apply only_keeps, still_on_replica.
Qed.

Lemma load_only l rid s s' :
  rid ∉ l → (∀ x, x ≠ rid → requests s' !! x = requests s !! x) → load l s' = load l s.
Proof.
  intros Hl Hr. unfold load. f_equal. apply map_ext_in. intros x Hx. unfold active_length_of.
  rewrite Hr; [done|]. intros ->. apply Hl. by apply list_elem_of_In.
Qed.

(** *** The budgets of a batch *)

Definition is_total (b : Budget) : Prop := match b with TotalContext _ _ => True | Active _ => False end.

(** The collection of a step: an active budget of capacity [cap] that chunks or not as
    [chunk] says, and has charged [spent]; then total-context budgets. *)
Definition Charged (cap : Z) (chunk : bool) (spent : Z) (l : TokenBudgetCollection.t) : Prop :=
  ∃ a rest, l = Active a :: rest ∧ Forall is_total rest ∧ TokenBudget.capacity a = cap ∧
    TokenBudget.allow_chunking a = chunk ∧ TokenBudget.applicable_types a = all_request_types ∧
    TokenBudget.used a = spent.

Lemma total_keeps rest rt tokens : Forall is_total rest →
  (TokenBudgetCollection.status_after_context rest rt tokens).2 = tokens.
Proof.
  intros HF. induction HF as [|[a|a al] rest Ha HF IH]; [done|done|]. simpl. unfold bind.
  assert ((TotalContextTokenBudget.status_after_context a al rt tokens).2 = tokens) as Ht.
  { unfold TotalContextTokenBudget.status_after_context, bind, get, of_outcome.
    destruct (negb _); [done|]. destruct (_ <=? 0); [done|].
    destruct (TotalContextTokenBudget.align_up _ _); [|done]. destruct (_ <? _); [done|]. by destruct (_ =? _). }
  destruct (TotalContextTokenBudget.status_after_context a al rt tokens) as [[st|e] t1]; simpl in Ht; subst t1; [|done].
  by destruct (decide _).
Qed.

(** A request the budgets accept: its tokens fit if chunking is allowed, and before it
    the active budget was not spent. *)
Lemma charged_status cap chunk spent l rt tokens st tokens' :
  Charged cap chunk spent l → TokenBuffer.wf tokens → rt = CE ∨ rt = TG → st ≠ BUDGET_EXHAUSTED →
  TokenBudgetCollection.status_after_context l rt tokens = (Ok st, tokens') →
  spent < cap ∧ (chunk = true → spent + TokenBuffer.active_length tokens' ≤ cap) ∧
  (st = BUDGET_AVAILABLE → tokens' = tokens ∧ spent + TokenBuffer.active_length tokens' < cap).
Proof.
  intros (a & rest & -> & Htot & <- & <- & Hall & <-) Hwf Hrt Hst E. simpl in E.
  apply bind_ok in E as (st0 & t1 & E0 & E).
  assert (TokenBudget.applies a rt = true) as Happ.
  { unfold TokenBudget.applies. rewrite Hall. apply bool_decide_eq_true. destruct Hrt as [-> | ->]; set_solver. }
  assert (t1 = tokens' ∧ st0 ≠ BUDGET_EXHAUSTED ∧ (st = BUDGET_AVAILABLE → st0 = BUDGET_AVAILABLE)) as (-> & Hst0 & Hav).
  { destruct (decide (st0 = BUDGET_AVAILABLE)) as [->|Hne].
    - pose proof (total_keeps rest rt t1 Htot) as Ht. rewrite E in Ht. by simpl in Ht.
    - injection E as -> ->. by split_and!. }
  destruct (BudgetFacts.active_status_cases a rt tokens Hwf (or_intror Happ))
    as [[E' ?]|[(E' & ? & Ho)|[(n & E' & Hc & ? & Hn & _)|[E' ?]]]];
    rewrite E' in E0; injection E0 as <- <-; try done; unfold TokenBudget.remaining in *.
  - pose proof (TokenBuffer.wf_window _ Hwf). unfold TokenBuffer.active_length, Range.length in *.
    split_and!; [lia|lia|intros _; split; [done|lia]].
  - split_and!; [lia|intros Hc; destruct Ho; [lia|congruence]|intros Hst1; by apply Hav in Hst1].
  - destruct Hn as ([Hn1 Hn2] & _). unfold TokenBudget.remaining in Hn2.
    rewrite BudgetFacts.chunked_length by (done || lia). split_and!; [lia|lia|intros Hst1; by apply Hav in Hst1].
Qed.

Lemma charged_add cap chunk spent l rt tokens l' :
  Charged cap chunk spent l → TokenBudgetCollection.add_to_budget tokens rt l = (Ok tt, l') →
  Charged cap chunk (spent + TokenBuffer.active_length tokens) l'.
Proof.
  intros (a & rest & -> & Htot & <- & <- & Hall & <-) E. simpl in E.
  destruct (TokenBudgetCollection.add_to_budget tokens rt rest) as [r rest'] eqn:Er. injection E as -> <-.
  eexists _, rest'. split; [reflexivity|]. split.
  - clear Hall. revert rest' Er. induction Htot as [|[b|b al] rest Hb Htot IH]; intros rest' Er; simpl in Er.
    + injection Er as <-. constructor.
    + done.
    + destruct (TotalContextTokenBudget.add_to_budget tokens al b) as [b'|e]; [|done].
      destruct (TokenBudgetCollection.add_to_budget tokens rt rest) as [r rest1]. injection Er as -> <-.
      constructor; [done|by apply IH].
  - unfold ActiveTokenBudget.add_to_budget. by destruct (_ && _).
Qed.

(** What the batch's budgets and requests say of each other: the active budget has
    charged the tokens of the batch; they exceed its capacity at most by the last
    request's, and not at all if requests may be chunked. *)
Definition Spent (cap : Z) (chunk : bool) (b : ReplicaBatch.t) s : Prop :=
  Charged cap chunk (load (ReplicaBatch.batch b) s) (ReplicaBatch.token_budget b) ∧
  (chunk = true → load (ReplicaBatch.batch b) s ≤ cap) ∧
  (∀ init x, ReplicaBatch.batch b = init ++ [x] → load init s < cap).

Lemma spent_only cap chunk b rid s s' :
  Spent cap chunk b s → rid ∉ ReplicaBatch.batch b → (∀ x, x ≠ rid → requests s' !! x = requests s !! x) →
  Spent cap chunk b s'.
Proof.
  intros (Hc & Hl & Hi) Hrid Hr. unfold Spent. rewrite !(load_only (ReplicaBatch.batch b) rid s s') by done.
  split_and!; [done|done|]. intros init x Hb. rewrite (load_only init rid s s'); [by eapply Hi| |done].
  intros Hin. apply Hrid. rewrite Hb, elem_of_app. by left.
Qed.

Lemma load_app l1 l2 s : load (l1 ++ l2) s = load l1 s + load l2 s.
Proof. unfold load. by rewrite map_app, zsum_app. Qed.

(** The budgets' verdict on a request, in the constructor's state. *)
Lemma status_run b rid rt s st s1 :
  budget_status b rid rt s = (Ok st, s1) →
  ∃ r r', requests s !! rid = Some r ∧ requests s1 = <[rid := r']> (requests s) ∧
    TokenBudgetCollection.status_after_context (ReplicaBatch.token_budget b) rt (tokens r) = (Ok st, tokens r').
Proof.
  intros E. unfold budget_status, on_request in E. destruct (requests s !! rid) as [r|]; [|done].
  unfold Ctx.on_tokens, Ctx.on_base, TextContext.on_tokens, zoom in E. unfold tokens, Ctx.tokens.
  destruct (TokenBudgetCollection.status_after_context _ _ _) as [o t'] eqn:Et. injection E as -> <-.
  exists r. eexists. split; [done|]. split; [reflexivity|]. simpl. rewrite Ownership.base_set_base. by simpl.
Qed.

(** *** The pass *)

Lemma good_still s s' : requests s' = requests s → good s → good s'.
Proof. unfold good. by intros ->. Qed.

Lemma spent_still cap chunk b s s' : requests s' = requests s → Spent cap chunk b s → Spent cap chunk b s'.
Proof.
  intros Hr. assert (∀ l, load l s' = load l s) as Hl by (intros l; unfold load, active_length_of; by rewrite Hr).
  unfold Spent. intros (Hc & Hle & Hi). rewrite !Hl. split_and!; [done|done|]. intros init x Hb. rewrite Hl. by eapply Hi.
Qed.

Lemma try_alloc_good rid s : good s → good (try_alloc rid s).2 ∧ ∀ x, x ≠ rid → requests (try_alloc rid s).2 !! x = requests s !! x.
Proof.
  intros Hg. assert ((try_alloc rid s).2 = (on_kv_request rid kv_alloc s).2) as ->.
  { unfold try_alloc, catch, bind. destruct (on_kv_request rid kv_alloc s) as [[ev|e] s1]; [done|]. by destruct (decide _). }
  split; [|apply only_on_kv_request]. unfold on_kv_request. destruct (requests s !! rid) as [r|] eqn:Er; [|done].
  pose proof (alloc_keeps (kv_cache s) (ctx r) (Hg rid r Er)) as (_ & Hx & _).
  destruct (kv_alloc (kv_cache s, ctx r)) as [o [k x]]. simpl in *.
  intros y ry Hy. destruct (decide (y = rid)) as [->|Hne].
  - simpl in Hy. rewrite lookup_insert_eq in Hy. by injection Hy as <-.
  - simpl in Hy. rewrite lookup_insert_ne in Hy by done. by eapply Hg.
Qed.

(** The request the budgets admitted joins the batch. *)
Lemma admit_spent cap chunk b rid s st s1 s2 b' s3 :
  Spent cap chunk b s → good s → rid ∉ ReplicaBatch.batch b → st ≠ BUDGET_EXHAUSTED →
  budget_status b rid CE s = (Ok st, s1) → requests s2 = requests s1 → accept b rid CE s2 = (Ok b', s3) →
  Spent cap chunk b' s3 ∧ (st = BUDGET_AVAILABLE → good s3).
Proof.
  intros (Hc & Hle & Hi) Hg Hrid Hst E1 H2 E2. destruct (status_run _ _ _ _ _ _ E1) as (r & r' & Hr & Hr' & Est).
  destruct (Hg rid r Hr) as [Hwf H64].
  destruct (charged_status _ _ _ _ CE _ _ _ Hc Hwf (or_introl eq_refl) Hst Est) as (Hlt & Hfit & Hav).
  destruct (admit_run _ _ _ _ _ _ Hrid E2) as [-> Hb].
  unfold accept, request in E2. unfold bind at 1, bind at 1, get in E2.
  rewrite H2, Hr', lookup_insert_eq in E2. simpl in E2.
  destruct (TokenBudgetCollection.add_to_budget _ _ _) as [[[]|e] l'] eqn:Ea; [|done]. injection E2 as <-. simpl in Hb.
  pose proof (charged_add _ _ _ _ _ _ _ Hc Ea) as Hc'.
  assert (∀ x, x ≠ rid → requests s2 !! x = requests s !! x) as Hothers
    by (intros x Hx; by rewrite H2, Hr', lookup_insert_ne).
  assert (load (ReplicaBatch.batch b ++ [rid]) s2 = load (ReplicaBatch.batch b) s + TokenBuffer.active_length (tokens r')) as Hload.
  { rewrite load_app, (load_only _ rid s s2 Hrid Hothers). f_equal. unfold load. simpl. unfold active_length_of.
    rewrite H2, Hr', lookup_insert_eq. lia. }
  split; [unfold Spent; simpl; rewrite Hb; split_and!|].
  - by rewrite Hload.
  - intros Hch. rewrite Hload. by apply Hfit.
  - intros init x Hx. apply app_inj_tail in Hx as [<- <-]. by rewrite (load_only _ rid s s2 Hrid Hothers).
  - intros ->. destruct (Hav eq_refl) as [Ht _]. intros y ry Hy. rewrite H2, Hr' in Hy.
    destruct (decide (y = rid)) as [->|Hne]; [|rewrite lookup_insert_ne in Hy by done; by eapply Hg].
    rewrite lookup_insert_eq in Hy. injection Hy as <-. unfold Trace.good_tokens. fold (tokens r'). rewrite Ht. by split.
Qed.

Lemma ce_request_spent cap chunk rid i b s x s' :
  good s → Spent cap chunk b s → rid ∉ ReplicaBatch.batch b → ce_request rid i b s = (Ok x, s') →
  Spent cap chunk (batch_after x) s' ∧ (∀ b', x = inl b' → good s').
Proof.
  intros Hg HS Hrid E. unfold ce_request in E.
  apply bind_ok in E as (ok & s1 & E1 & E). pose proof (still_can_allocate rid i s) as H1. rewrite E1 in H1. simpl in H1.
  apply (good_still _ _ H1) in Hg. apply (spent_still _ _ _ _ _ H1) in HS.
  destruct (negb ok); [by injection E as <- <-|].
  assert (∀ s0 y, Spent cap chunk b s0 → batch_after (inr y) = b → (_return_to_request_queue rid i;; ret (inr y)) s0 = (Ok x, s') →
    Spent cap chunk (batch_after x) s' ∧ (∀ b', x = inl b' → good s')) as Hback.
  { intros s0 y HS0 Hy E0. apply bind_ok in E0 as ([] & s5 & E5 & E0). injection E0 as <- <-. split; [|done].
    rewrite Hy. eapply spent_only; [exact HS0|exact Hrid|]. pose proof (only_return rid i s0) as Ho. by rewrite E5 in Ho. }
  apply bind_ok in E as (rem & s2 & E2 & E). unfold of_outcome in E2. injection E2 as E2 <-.
  destruct (rem <=? 0); [by apply (Hback s1 (Returned b))|]. unfold bind at 1, get in E.
  apply bind_ok in E as ([] & s2 & E3 & E).
  assert (requests s2 = requests s1) as H2.
  { unfold when in E3. destruct (negb _) in E3; [|by injection E3 as <-].
    pose proof (still_on_kv (kv_claim rid i) s1) as H2. by rewrite E3 in H2. }
  apply (good_still _ _ H2) in Hg. apply (spent_still _ _ _ _ _ H2) in HS.
  apply bind_ok in E as (event & s3 & E4 & E). destruct (try_alloc_good rid s2 Hg) as [Hg3 Ho3]. rewrite E4 in Hg3, Ho3.
  simpl in Hg3, Ho3. apply (spent_only _ _ _ rid s2 s3) in HS; [|done|done].
  destruct event as [event|].
  2:{ apply bind_ok in E as (q & s4 & E5 & E). pose proof (still_replica_at i s3) as H4. rewrite E5 in H4. simpl in H4.
      apply bind_ok in E as (fatal & s5 & E6 & E).
      match type of E6 with _is_insufficient_blocks_fatal i ?c s4 = _ => pose proof (still_fatal i c s4) as H5 end.
      rewrite E6 in H5. simpl in H5. destruct fatal; [by apply bind_ok in E as (? & ? & _ & E)|].
      apply (Hback s5 (Left_loop b)); [|done|done]. apply (spent_still _ _ _ s3); [congruence|done]. }
  unfold bind at 1, get in E. destruct (onload_complete event (kv_cache s3)); simpl in E.
  2:{ injection E as <- <-. split; [by apply (spent_still _ _ _ s3)|]. intros _ _. by apply (good_still s3). }
  apply bind_ok in E as (status & s4 & E5 & E). destruct status.
  - apply bind_ok in E as (b1 & s5 & E6 & E).
    destruct (admit_spent cap chunk b rid s3 BUDGET_AVAILABLE s4 s4 b1 s5 HS Hg3 Hrid ltac:(done) E5 eq_refl E6) as [HS1 Hg5].
    apply bind_ok in E as ([] & s6 & E7 & E). injection E as <- <-.
    pose proof (still_add_active rid i s5) as H6. rewrite E7 in H6. simpl in H6.
    split; [by apply (spent_still _ _ _ s5)|]. intros _ _. apply (good_still s5); [done|by apply Hg5].
  - destruct (status_run _ _ _ _ _ _ E5) as (r & r' & _ & Hr' & _). apply (Hback s4 (Returned b)); [|done|done].
    apply (spent_only _ _ _ rid s3); [done|done|]. intros y Hy. by rewrite Hr', lookup_insert_ne.
  - apply bind_ok in E as ([] & s5 & E6 & E). pose proof (still_add_active rid i s4) as H6. rewrite E6 in H6. simpl in H6.
    apply bind_ok in E as (b1 & s6 & E7 & E). injection E as <- <-. split; [|done].
    by apply (admit_spent cap chunk b rid s3 BUDGET_REACHED s4 s5 b1 s6 HS Hg3 Hrid ltac:(done) E5 H6 E7).
Qed.

Lemma ce_loop_spent cap chunk fuel k i b q s p s' :
  0 ≤ i → replicas s !! Z.to_nat i = Some q → NoDup (ids s) →
  (∀ x, x ∈ ReplicaBatch.batch b → x ∈ tg_reqs q ∨ x ∉ ids s) → good s → Spent cap chunk b s →
  ce_loop fuel k i b s = (Ok p, s') → Spent cap chunk (pass_batch p) s'.
Proof.
  revert b q s. induction fuel as [|fuel IH]; intros b q s Hi Hq Hnd Hdis Hg HS E; simpl in E;
    rewrite (bind_run _ _ _ _ _ (replica_at_run i q s Hi Hq)) in E; unfold bind at 1, get in E;
    (match type of E with (if negb ?c then _ else _) _ = _ => destruct c end; simpl in E; [|by injection E as <- <-]);
    (destruct (ce_reqs q) as [|rid rest] eqn:Ece; [by injection E as <- <-|]); [done|].
  destruct (on_replica_run i q (set_ce rest) s Hi Hq) as [E1 R1]. rewrite (bind_run _ _ _ _ _ E1) in E.
  destruct (popped i q rid rest b s Hi Hq Hnd Hdis Ece) as (_ & Hnd1 & Hb).
  apply bind_ok in E as (x & s2 & E2 & E).
  pose proof (ce_request_run rid i b (set_ce rest q) _ x s2 Hi (requeued_after _ _ _ _ _ R1) Hnd1 Hb E2) as HSv.
  destruct (served_after rid i q rest b x s s2 Hi Hq Hnd Hdis Ece HSv) as
    (q2 & adm & Sh2 & Hb2 & Hadm & Hids2 & Ht2 & _ & Hnd2 & Hdis2).
  match type of E2 with ce_request _ _ _ ?y = _ => set (s1 := y) in * end.
  apply (good_still s s1 eq_refl) in Hg. apply (spent_still cap chunk b s s1 eq_refl) in HS.
  destruct (ce_request_spent cap chunk rid i b s1 x s2 Hg HS Hb E2) as [HS2 Hg2].
  destruct x as [b2|p2]; [|injection E as <- <-; by destruct p2].
  apply (IH b2 q2 s2); try done; [by eapply shift_after|by apply (Hg2 b2)].
Qed.

(** A context-encoding batch built from nothing. *)
Lemma add_ce_spent cap chunk fuel i b q s b' s' :
  0 ≤ i → replicas s !! Z.to_nat i = Some q → NoDup (ids s) →
  (∀ x, x ∈ ReplicaBatch.batch b → x ∈ tg_reqs q ∨ x ∉ ids s) → good s → Spent cap chunk b s →
  _add_ce_requests fuel b i s = (Ok b', s') → Spent cap chunk b' s'.
Proof.
  intros Hi Hq Hnd Hdis Hg HS E. unfold _add_ce_requests in E. unfold bind at 1, get in E.
  destruct (bool_decide (i ∈ _ce_deferred_replicas s)); [by injection E as <- <-|].
  apply bind_ok in E as (p & s1 & E1 & E). pose proof (ce_loop_spent _ _ _ _ _ _ _ _ _ _ Hi Hq Hnd Hdis Hg HS E1) as HS1.
  destruct p as [b1|b1]; simpl in HS1; [by injection E as <- <-|].
  apply bind_ok in E as ([] & s2 & E2 & E). injection E as <- <-.
  pose proof (still_on_replica i update_deferred_lora_requests s1) as H2. rewrite E2 in H2. by apply (spent_still _ _ _ s1).
Qed.

Lemma budget_charged quota s :
  Charged (default (target_tokens_per_batch_ce (config s)) quota) (enable_chunked_prefill (config s)) 0
    (_create_new_token_budget quota s).
Proof.
  unfold _create_new_token_budget. eexists _, _. split; [reflexivity|]. split_and!; try done.
  destruct (max_batch_total_tokens _); by repeat constructor.
Qed.

End Spending.
End Spending.
