(* ===== verification/BatchErrors.v ===== *)
(** * Exceptions of the batch constructor (text_batch_constructor.py)

    Which calls may raise: the passes run out of fuel on no input, and a pass reports
    missing blocks only when nothing else could free any. *)

From S2P Require Import Prelude Tokens Eos FreeQueue Pool Grammar Context Hashing Connector Manager ManagerFacts ManagerProperties CacheManager KVInterface Dict Budget Lora Batch BatchFacts Conservation.

Module Errors.
Import ReplicaRequests TextBatchConstructor BatchFacts Conservation PagedLaws.

(** More ways to avoid an exception. *)
Section Avoids.
Context {S : Type} (e : exn).

Lemma avoids_catch {A} (m : M S A) h :
  (∀ e' k, h e' = Some k → avoids e k) → (∀ e', h e' = None → e' = e → avoids e m) → avoids e (catch m h).
Proof.
  intros Hh Hm s. unfold catch. destruct (m s) as [[a|e'] s1] eqn:E; [done|].
  destruct (h e') as [k|] eqn:Eh; [by eapply Hh|]. simpl. intros [= ->]. by apply (Hm e Eh eq_refl s); rewrite E.
Qed.
Lemma avoids_outcome {A} (o : outcome A) : o ≠ Raise e → avoids e (of_outcome (S := S) o).
Proof. by intros Ho s. Qed.
End Avoids.

Section Errors.
Context {B : Backend} `{KV : !KVCache, P : Pipeline, F : Floats, G : !GrammarBuilder, A : AdapterStore}.
Implicit Types s : t.

(** The exceptions the section is about. *)
Definition watched (e : exn) : Prop := e = InsufficientBlocksError ∨ e = OutOfFuel.

(** The calls outside the constructor do not raise [e], but for an allocation, which
    may report that blocks are missing. *)
Record Calls (e : exn) : Prop := {
  calls_claim rid i : avoids e (kv_claim rid i);
  calls_release rid : avoids e (kv_release rid);
  calls_pending i : avoids e (kv_pending_transfers_exist i);
  calls_count i : avoids e (kv_block_count i);
  calls_pipeline rid : avoids e (pipeline_release rid);
  calls_alloc : e ≠ InsufficientBlocksError → avoids e kv_alloc;
  calls_blocks rid : e ≠ InsufficientBlocksError → avoids e (kv_get_req_blocks rid)
}.

Context (e : exn) (He : watched e) (HC : Calls e).

Lemma avoids_on_kv {X} (f : M cache X) : avoids e f → avoids e (on_kv f).
Proof. apply avoids_zoom. Qed.
Lemma avoids_pipeline rid : avoids e (release_pipeline rid).
Proof. apply avoids_zoom, HC. Qed.
Lemma avoids_request rid : avoids e (request rid).
Proof. unfold request. destruct He as [-> | ->]; solve_avoids. Qed.
Lemma avoids_replica_at i : avoids e (replica_at i).
Proof. unfold replica_at. destruct He as [-> | ->]; solve_avoids. Qed.
Lemma avoids_on_replica i f : avoids e (on_replica i f).
Proof. apply avoids_bind; [apply avoids_replica_at|intros q s; done]. Qed.
Lemma avoids_on_request {X} rid (f : M (Ctx.t B) X) : avoids e f → avoids e (on_request rid f).
Proof.
  intros Hf s. unfold on_request. destruct (requests s !! rid) as [r|]; [|by destruct He as [-> | ->]].
  specialize (Hf (ctx r)). by destruct (f (ctx r)).
Qed.
Lemma avoids_on_kv_request {X} rid (f : M (cache * Ctx.t B) X) : avoids e f → avoids e (on_kv_request rid f).
Proof.
  intros Hf s. unfold on_kv_request. destruct (requests s !! rid) as [r|]; [|by destruct He as [-> | ->]].
  specialize (Hf (kv_cache s, ctx r)). by destruct (f _) as [? [? ?]].
Qed.

Lemma avoids_reset rid : avoids e (reset_request rid).
Proof.
  assert (∀ a b, avoids e (of_outcome (S := TokenBuffer.t) (Range.init a b tt).1)) as Hinit.
  { intros a b. apply avoids_outcome. unfold Range.init, bind, raise_if, raise, ret.
    destruct (a >? b), (a <? 0), (b <? 0), He as [-> | ->]; discriminate. }
  assert (∀ b x, x = ValueError → avoids e (raise_if (S := TokenBuffer.t) b x)) as Hraise.
  { intros b x ->. apply avoids_raise_if. destruct He as [-> | ->]; discriminate. }
  apply avoids_on_request, avoids_zoom. unfold TextContext.reset, TokenBuffer.reset_as_new_prompt.
  apply avoids_bind; [apply avoids_get|intros c]. apply avoids_bind; [|by intros _ ?]. apply avoids_zoom.
  apply avoids_bind; [apply avoids_get|intros b]. apply avoids_bind; [by apply Hraise|intros _].
  apply avoids_bind; [apply avoids_when, avoids_bind; [by apply Hraise|by intros _ ?]|intros _].
  apply avoids_bind; [apply avoids_get|intros b']. apply avoids_bind; [apply Hinit|intros pr].
  apply avoids_bind; [by intros ?|intros _]. apply avoids_bind; [apply Hinit|by intros cr ?].
Qed.

Lemma avoids_return rid i : avoids e (_return_to_request_queue rid i).
Proof.
  apply avoids_bind; [apply avoids_get|intros s].
  apply avoids_bind; [apply avoids_when, avoids_on_kv, HC|intros _].
  apply avoids_bind; [apply avoids_pipeline|intros _]. apply avoids_bind; [apply avoids_reset|intros _].
  apply avoids_on_replica.
Qed.
Lemma avoids_preempt rid i : avoids e (_preempt_request rid i).
Proof. apply avoids_bind; [apply avoids_return|by intros _ s]. Qed.

Lemma avoids_fatal i c : avoids e (_is_insufficient_blocks_fatal i c).
Proof.
  unfold _is_insufficient_blocks_fatal, _is_anything_inflight. destruct c; [|apply avoids_ret].
  apply avoids_bind; [|intros; apply avoids_ret]. apply avoids_bind; [apply avoids_get|intros s].
  destruct (existsb _ _); [apply avoids_ret|]. apply avoids_bind; [apply avoids_on_kv, HC|intros []]; [apply avoids_ret|].
  destruct (_get_inflight_kv_transfer_count _); apply avoids_ret.
Qed.

Lemma avoids_priority i : avoids e (_identify_priority i).
Proof.
  apply avoids_bind; [apply avoids_get|intros s]. destruct (bool_decide (i ∈ _)); [apply avoids_ret|].
  apply avoids_bind; [apply avoids_replica_at|intros q].
  destruct (bool_decide (ce_reqs q = []) && _); [apply avoids_ret|].
  destruct (bool_decide (ce_reqs q = [])); [apply avoids_ret|].
  destruct (bool_decide (tg_reqs q = [])); [apply avoids_ret|].
  apply avoids_bind; [apply avoids_on_kv, HC|intros c].
  destruct (f_ltb _ _); [apply avoids_ret|]. destruct (enable_in_flight_batching _); apply avoids_ret.
Qed.

Lemma avoids_can_allocate rid i : avoids e (can_allocate_lora rid i).
Proof.
  apply avoids_bind; [apply avoids_get|intros s]. destruct (_lora_manager s); [|apply avoids_ret].
  apply avoids_bind; [apply avoids_request|intros r]. apply avoids_bind; [apply avoids_replica_at|intros q].
  apply avoids_bind; [|intros ok; apply avoids_bind; [apply avoids_when, avoids_on_replica|intros; apply avoids_ret]].
  apply avoids_outcome. unfold can_allocate_lora_request.
  destruct (negb _); [done|]. destruct (bool_decide _); [done|]. by destruct (LoRAManagerV3.is_active_lora _ _).
Qed.

Lemma avoids_add_active rid i : avoids e (add_active_lora rid i).
Proof.
  apply avoids_bind; [apply avoids_get|intros s]. destruct (_lora_manager s); [|apply avoids_ret].
  apply avoids_bind; [apply avoids_request|intros r]. destruct (is_lora_request r s); [|apply avoids_ret].
  apply avoids_bind; [|intros _; apply avoids_on_replica].
  intros s'. unfold on_lora. destruct (_lora_manager s') as [m|]; [|by destruct He as [-> | ->]].
  assert (avoids e (LoRAManagerV3.activate_adapter (model_name r))) as Ha; [|specialize (Ha m); by destruct (LoRAManagerV3.activate_adapter _ _)].
  unfold LoRAManagerV3.activate_adapter, LoRAManagerV3.on_active, LoRALRUCache.put, LoRALRUCache.move_to_end, LoRALRUCache.evict_first.
  destruct He as [-> | ->]; solve_avoids; apply avoids_outcome; unfold OrderedDict.move_to_end, OrderedDict.popitem_first;
    repeat case_match; discriminate.
Qed.

Lemma avoids_try_alloc rid : avoids e (try_alloc rid).
Proof.
  apply avoids_catch.
  - intros e' k Hk. destruct (decide _); [|done]. injection Hk as <-. apply avoids_ret.
  - intros e' Hn ->. destruct (decide (e = InsufficientBlocksError)) as [|Hne]; [done|].
    apply avoids_bind; [by apply avoids_on_kv_request, HC|intros; apply avoids_ret].
Qed.

Lemma avoids_chunk n : avoids e (TokenBuffer.chunk n).
Proof.
  unfold TokenBuffer.chunk, TokenBuffer.on_processing, Range.bump_end. destruct He as [-> | ->]; solve_avoids.
Qed.

Lemma avoids_active b rt : avoids e (ActiveTokenBudget.status_after_context b rt).
Proof.
  apply avoids_bind; [apply avoids_get|intros tk]. destruct (_ && _); [apply avoids_ret|]. cbv zeta.
  destruct (_ <=? 0); [apply avoids_ret|]. destruct (_ =? _); [apply avoids_ret|].
  destruct (_ <? _); [apply avoids_ret|]. destruct (negb _); [apply avoids_ret|].
  match goal with |- avoids e (if ?c then _ else _) => destruct c end; [apply avoids_ret|].
  apply avoids_catch; [|intros; apply avoids_bind; [apply avoids_chunk|intros; apply avoids_ret]].
  intros e' k Hk. destruct (decide _); [|done]. injection Hk as <-. apply avoids_ret.
Qed.

Lemma avoids_total b al rt : avoids e (TotalContextTokenBudget.status_after_context b al rt).
Proof.
  apply avoids_bind; [apply avoids_get|intros tk]. destruct (negb _); [apply avoids_ret|]. cbv zeta.
  destruct (_ <=? 0); [apply avoids_ret|]. apply avoids_bind.
  - apply avoids_outcome. unfold TotalContextTokenBudget.align_up. destruct (_ =? 0); [|done].
    destruct He as [-> | ->]; discriminate.
  - intros n. destruct (_ <? _); [apply avoids_ret|]. destruct (_ =? _); apply avoids_ret.
Qed.

Lemma avoids_collection l rt : avoids e (TokenBudgetCollection.status_after_context l rt).
Proof.
  induction l as [|[b|b al] l IH]; [apply avoids_ret| |]; simpl; (apply avoids_bind;
    [apply avoids_active || apply avoids_total|intros st; destruct (decide _); [done|apply avoids_ret]]).
Qed.

Lemma avoids_budget_status b rid rt : avoids e (budget_status b rid rt).
Proof. apply avoids_on_request. do 2 apply avoids_zoom. apply avoids_collection. Qed.

Lemma add_not_raises tk rt l : (TokenBudgetCollection.add_to_budget tk rt l).1 ≠ Raise e.
Proof.
  induction l as [|[b|b al] l IH]; [done| |]; simpl.
  - by destruct (TokenBudgetCollection.add_to_budget tk rt l).
  - unfold TotalContextTokenBudget.add_to_budget, TotalContextTokenBudget.align_up. destruct (al =? 0).
    + by destruct He as [-> | ->].
    + by destruct (TokenBudgetCollection.add_to_budget tk rt l).
Qed.

Lemma avoids_admit b rid rt : avoids e (accept b rid rt).
Proof.
  apply avoids_bind; [apply avoids_request|intros r]. pose proof (add_not_raises (tokens r) rt (ReplicaBatch.token_budget b)) as Ha.
  destruct (TokenBudgetCollection.add_to_budget _ _ _) as [[u|x] l]; [apply avoids_ret|]. apply avoids_raise. simpl in Ha. congruence.
Qed.

Lemma avoids_remaining l : avoids e (of_outcome (S := t) (TokenBudgetCollection.remaining l)).
Proof. apply avoids_outcome. destruct l; [|done]. by destruct He as [-> | ->]. Qed.

(** A call followed by others: if it avoids the exception, one of the others raised. *)
Lemma raise_later {X Y} (f : M t X) (g : X → M t Y) s s' :
  avoids e f → bind f g s = (Raise e, s') → ∃ x s1, f s = (Ok x, s1) ∧ g x s1 = (Raise e, s').
Proof.
  intros Hf E. apply bind_raise in E as [E|E]; [|done]. destruct (Hf s). by rewrite E.
Qed.

(** *** The one reason *)

(** The end of a pass that gives up in [s']. The cache refused to allocate for request
    [rid]; asked right after, in the state the refusal left, it had no transfer pending;
    and the state in which the pass raised is that one, but for the look at the blocks
    the request holds that goes into the message. No other request generates on the
    replica, none of its onloads is in flight, and no KV transfer between nodes. *)
Definition Starved (i : Z) s' : Prop :=
  ∃ rid q r s0 x1 k1 k2,
    requests s0 !! rid = Some r ∧
    kv_alloc (kv_cache s0, ctx r) = (Raise InsufficientBlocksError, (k1, x1)) ∧
    kv_pending_transfers_exist i k1 = (Ok false, k2) ∧
    (kv_get_req_blocks rid k2).2 = kv_cache s' ∧
    requests s' = <[rid := set_ctx x1 r]> (requests s0) ∧ Same s0 s' ∧
    replicas s' !! Z.to_nat i = Some q ∧ (∀ x, x ∈ tg_reqs q → x = rid) ∧
    (∀ x, x ∈ _onloading_reqs s' → x.2.1 ≠ i) ∧
    (∀ count, _get_inflight_kv_transfer_count (settings s') = Some count → count i ≤ 0).

Definition Blame (i : Z) s' : Prop := e = InsufficientBlocksError ∧ Starved i s'.

Lemma try_alloc_refused rid s s' :
  try_alloc rid s = (Ok None, s') →
  ∃ r x, requests s !! rid = Some r ∧ kv_alloc (kv_cache s, ctx r) = (Raise InsufficientBlocksError, (kv_cache s', x)) ∧
    requests s' = <[rid := set_ctx x r]> (requests s).
Proof.
  unfold try_alloc, catch, bind, on_kv_request. destruct (requests s !! rid) as [r|]; [|done].
  destruct (kv_alloc _) as [[ev|x] [k c]] eqn:Ea; [done|]. destruct (decide _) as [->|]; [|done].
  intros E. injection E as <-. exists r, c. by rewrite Ea.
Qed.

Lemma on_kv_ran {X} (f : M cache X) s o s' :
  on_kv f s = (o, s') → f (kv_cache s) = (o, kv_cache s') ∧ requests s' = requests s.
Proof. unfold on_kv, zoom. destruct (f (kv_cache s)) as [o' k] eqn:E. intros [= <- <-]. done. Qed.

(** The fatal verdict, and the exception it leads to. *)
Lemma fatal_blame {X} rid i q c s0 s s1 s' :
  try_alloc rid s0 = (Ok None, s) → replicas s0 !! Z.to_nat i = Some q →
  (c = true → ∀ x, x ∈ tg_reqs q → x = rid) →
  _is_insufficient_blocks_fatal i c s = (Ok true, s1) → raise_insufficient (X := X) rid s1 = (Raise e, s') →
  Blame i s'.
Proof.
  intros E0 Hq Htg E1 E2. unfold _is_insufficient_blocks_fatal in E1. destruct c; [|done].
  apply bind_ok in E1 as (b & s2 & E1 & E3). injection E3 as Hb <-. destruct b; [done|].
  unfold _is_anything_inflight in E1. unfold bind at 1, get in E1.
  destruct (existsb _ _) eqn:Ex; [done|]. apply bind_ok in E1 as (p & s3 & E3 & E1).
  pose proof (quiet_on_kv (kv_pending_transfers_exist i) s) as S3. rewrite E3 in S3. simpl in S3.
  destruct p; [done|].
  assert (s3 = s2 ∧ ∀ count, _get_inflight_kv_transfer_count (settings s) = Some count → count i ≤ 0) as [-> Hcount].
  { destruct (_get_inflight_kv_transfer_count (settings s)) as [f|]; unfold ret in E1; [injection E1 as ? ?|by injection E1 as ?].
    split; [done|]. intros count [= <-]. lia. }
  pose proof (quiet_try_alloc rid s0) as S0. rewrite E0 in S0. simpl in S0.
  pose proof (quiet_insufficient (X := X) rid s2) as S2. rewrite E2 in S2. simpl in S2.
  assert (Same s0 s') as HS by (transitivity s2; [by transitivity s|done]).
  destruct (on_kv_ran _ _ _ _ E3) as [Ep Rp].
  assert (∃ o, on_kv (kv_get_req_blocks rid) s2 = (o, s')) as [o Eb].
  { unfold raise_insufficient in E2. apply bind_raise in E2 as [E2|(b & s3 & E2 & E4)]; [by eexists|].
    injection E4 as _ <-. by eexists. }
  destruct (on_kv_ran _ _ _ _ Eb) as [Eb' Rb].
  split.
  - unfold raise_insufficient in E2. apply bind_raise in E2 as [E2|(? & ? & _ & E2)]; [|by injection E2].
    destruct (decide (e = InsufficientBlocksError)) as [|Hne]; [done|].
    destruct (avoids_on_kv _ (calls_blocks e HC rid Hne) s2). by rewrite E2.
  - destruct (try_alloc_refused rid s0 s E0) as (r & x1 & Hr & Ha & Rr). exists rid, q, r, s0, x1, (kv_cache s), (kv_cache s2). split_and!; try done.
    + by rewrite Eb'.
    + by rewrite Rb, Rp, Rr.
    + by rewrite (same_replicas _ _ HS).
    + by apply Htg.
    + intros x Hx Hi. rewrite (same_onloading _ _ HS), <- (same_onloading _ _ S0) in Hx.
      assert (existsb (λ e, e.2.1 =? i) (_onloading_reqs s) = true) as Hc; [|congruence].
      apply existsb_exists. exists x. split; [by apply list_elem_of_In|lia].
    + by rewrite (same_settings _ _ S2), (same_settings _ _ S3).
Qed.

(** *** The passes *)

Lemma ce_request_blame rid i b q s s' :
  0 ≤ i → replicas s !! Z.to_nat i = Some q → ce_request rid i b s = (Raise e, s') → Blame i s'.
Proof.
  intros Hi Hq E. unfold ce_request in E.
  apply raise_later in E as (ok & s1 & E1 & E); [|apply avoids_can_allocate].
  pose proof (can_allocate_run rid i q s ok s1 Hi Hq E1) as R1. destruct ok; simpl in E; [|done].
  pose proof (requeued_after _ _ _ _ _ R1) as Hq1.
  assert (∀ y, avoids e (_return_to_request_queue rid i;; ret (A := ReplicaBatch.t + pass) (inr y))) as Hback
    by (intros y; apply avoids_bind; [apply avoids_return|intros; apply avoids_ret]).
  assert (∀ y s, (_return_to_request_queue rid i;; ret (A := ReplicaBatch.t + pass) (inr y)) s = (Raise e, s') → Blame i s') as Hret
    by (intros y s5 E5; destruct (Hback y s5); by rewrite E5).
  apply raise_later in E as (rem & s2 & E2 & E); [|apply avoids_remaining]. unfold of_outcome in E2. injection E2 as E2 <-.
  destruct (rem <=? 0); [by eapply Hret|]. unfold bind at 1, get in E.
  apply raise_later in E as ([] & s2 & E3 & E); [|apply avoids_when, avoids_on_kv, HC].
  assert (Same s1 s2) as S2.
  { pose proof (quiet_when (negb (kv_contains rid (kv_cache s1))) _ (quiet_on_kv (kv_claim rid i)) s1) as Hw. by rewrite E3 in Hw. }
  apply raise_later in E as (event & s3 & E4 & E); [|apply avoids_try_alloc].
  pose proof (quiet_try_alloc rid s2) as S3. rewrite E4 in S3. simpl in S3.
  assert (replicas s2 !! Z.to_nat i = Some q) as Hq2 by by rewrite (same_replicas _ _ S2).
  destruct event as [event|].
  - unfold bind at 1, get in E. destruct (negb (onload_complete event _)); [done|].
    apply raise_later in E as (status & s4 & E5 & E); [|apply avoids_budget_status].
    destruct status; [| by eapply Hret|].
    + apply raise_later in E as (b1 & s5 & E6 & E); [|apply avoids_admit].
      apply raise_later in E as ([] & s6 & E7 & E); [done|apply avoids_add_active].
    + apply raise_later in E as ([] & s5 & E6 & E); [|apply avoids_add_active].
      apply raise_later in E as (b1 & s6 & E7 & E); [done|apply avoids_admit].
  - assert (replicas s3 !! Z.to_nat i = Some q) as Hq3 by by rewrite (same_replicas _ _ S3).
    rewrite (bind_run _ _ _ _ _ (replica_at_run i q s3 Hi Hq3)) in E.
    apply raise_later in E as (fatal & s4 & E5 & E); [|apply avoids_fatal]. destruct fatal; [|by eapply Hret].
    eapply fatal_blame; [exact E4|exact Hq2| |exact E5|exact E].
    intros [Htg _]%andb_true_iff x Hx. apply bool_decide_eq_true in Htg. rewrite Htg in Hx. by apply elem_of_nil in Hx.
Qed.

Lemma ce_loop_blame fuel k i b q s s' :
  0 ≤ i → replicas s !! Z.to_nat i = Some q → NoDup (ids s) → (length (ce_reqs q) ≤ fuel)%nat →
  (∀ x, x ∈ ReplicaBatch.batch b → x ∈ tg_reqs q ∨ x ∉ ids s) →
  ce_loop fuel k i b s = (Raise e, s') → Blame i s'.
Proof.
  revert b q s. induction fuel as [|fuel IH]; intros b q s Hi Hq Hnd Hf Hdis E; simpl in E;
    rewrite (bind_run _ _ _ _ _ (replica_at_run i q s Hi Hq)) in E; unfold bind at 1, get in E;
    (match type of E with (if negb ?c then _ else _) _ = _ => destruct c end; simpl in E; [|done]);
    (destruct (ce_reqs q) as [|rid rest] eqn:Ece; [done|]); simpl in Hf; [lia|].
  destruct (on_replica_run i q (set_ce rest) s Hi Hq) as [E1 R1]. rewrite (bind_run _ _ _ _ _ E1) in E.
  destruct (popped i q rid rest b s Hi Hq Hnd Hdis Ece) as (_ & Hnd1 & Hb).
  pose proof (requeued_after _ _ _ _ _ R1) as Hq1.
  apply bind_raise in E as [E|(x & s2 & E2 & E)]; [by eapply ce_request_blame|].
  pose proof (ce_request_run rid i b (set_ce rest q) _ x s2 Hi Hq1 Hnd1 Hb E2) as HSv.
  destruct (served_after rid i q rest b x s s2 Hi Hq Hnd Hdis Ece HSv) as
    (q2 & adm & Sh2 & _ & _ & _ & _ & Hce2 & Hnd2 & Hdis2).
  destruct x as [b2|p]; [|done]. apply (IH b2 q2 s2); try done; [by eapply shift_after|].
  rewrite (Hce2 b2 eq_refl). lia.
Qed.

Lemma add_ce_blame i b q s s' :
  0 ≤ i → replicas s !! Z.to_nat i = Some q → NoDup (ids s) →
  (∀ x, x ∈ ReplicaBatch.batch b → x ∈ tg_reqs q ∨ x ∉ ids s) →
  _add_ce_requests (length (ce_reqs q)) b i s = (Raise e, s') → Blame i s'.
Proof.
  intros Hi Hq Hnd Hdis E. unfold _add_ce_requests in E. unfold bind at 1, get in E.
  destruct (bool_decide _); [done|].
  apply bind_raise in E as [E|(p & s1 & E1 & E)]; [by eapply ce_loop_blame|].
  destruct p; [done|]. apply raise_later in E as ([] & s2 & E2 & E); [done|apply avoids_on_replica].
Qed.

Lemma tg_alloc_blame fuel rid i b cands s s' q pre :
  0 ≤ i → replicas s !! Z.to_nat i = Some q → tg_reqs q = pre ++ cands → NoDup (ce_reqs q ++ tg_reqs q) →
  (length cands ≤ fuel)%nat → (ReplicaBatch.length b = 0 → pre = [rid]) →
  tg_alloc fuel rid i b cands s = (Raise e, s') → Blame i s'.
Proof.
  revert cands s q. induction fuel as [|fuel IH]; intros cands s q Hi Hq Htg Hnd Hf Hpre E; simpl in E;
    (apply raise_later in E as (event & s1 & E1 & E); [|apply avoids_try_alloc]);
    pose proof (quiet_try_alloc rid s) as S1; rewrite E1 in S1; simpl in S1;
    (destruct event as [event|]; [done|]);
    (destruct (last cands) as [newest|] eqn:El;
     [|apply last_None in El as ->; rewrite app_nil_r in Htg;
       (apply raise_later in E as (fatal & s2 & E2 & E); [|apply avoids_fatal]); destruct fatal; [|done];
       eapply fatal_blame; [exact E1|exact Hq| |exact E2|exact E];
       intros Hb x Hx; rewrite Htg, (Hpre ltac:(lia)) in Hx; by apply list_elem_of_singleton in Hx]);
    apply last_Some in El as [init ->]; rewrite length_app in Hf; simpl in Hf; [lia|].
  assert (replicas s1 !! Z.to_nat i = Some q) as Hq1 by by rewrite (same_replicas _ _ S1).
  rewrite (bind_run _ _ _ _ _ (replica_at_run i q s1 Hi Hq1)) in E.
  apply raise_later in E as ([] & s2 & E2 & E); [|apply avoids_raise_if; by destruct He as [-> | ->]].
  apply raise_if_ok in E2 as [_ <-].
  apply raise_later in E as ([] & s3 & E3 & E); [|apply avoids_on_replica].
  apply raise_later in E as ([] & s4 & E4 & E); [|apply avoids_preempt].
  destruct (preempted_last i q pre init newest s1 s3 s4 Hi Hq1 Htg Hnd E3 E4) as [R2 Hnd4].
  rewrite removelast_last in E.
  apply (IH init s4 (preempted (pre ++ init) [newest] q)); try done; [by eapply requeued_after|lia].
Qed.

Lemma tg_loop_blame fuel i b cands s s' q pre :
  0 ≤ i → replicas s !! Z.to_nat i = Some q → tg_reqs q = pre ++ cands → NoDup (ce_reqs q ++ tg_reqs q) →
  (length cands ≤ fuel)%nat → (ReplicaBatch.length b = 0 → pre = []) →
  tg_loop fuel i b cands s = (Raise e, s') → Blame i s'.
Proof.
  revert b cands s q pre. induction fuel as [|fuel IH]; intros b cands s q pre Hi Hq Htg Hnd Hf Hpre E;
    simpl in E; unfold bind at 1, get in E; (destruct (negb _); [done|]);
    (destruct cands as [|rid cands]; [done|]); simpl in Hf; [lia|].
  rewrite (bind_run _ _ _ _ _ (replica_at_run i q s Hi Hq)) in E.
  apply raise_later in E as ([] & s0 & E0 & E); [|apply avoids_raise_if; by destruct He as [-> | ->]].
  apply raise_if_ok in E0 as [_ <-].
  apply raise_later in E as (rq & s0 & E0 & E); [|apply avoids_request].
  pose proof (quiet_request rid s) as S0. rewrite E0 in S0. simpl in S0.
  assert (replicas s0 !! Z.to_nat i = Some q) as Hq0 by by rewrite (same_replicas _ _ S0).
  destruct (_ && _).
  { apply raise_later in E as ([] & s1 & E1 & E); [|apply avoids_preempt].
    pose proof (preempt_run rid i q s0 _ _ Hi Hq0 E1) as R1. rewrite (returned_middle pre rid cands q Htg Hnd) in R1.
    apply (IH b cands s1 (preempted (pre ++ cands) [rid] q) pre); try done; [by eapply requeued_after| |lia].
    eapply preempted_nodup; [exact Htg| |done]. rewrite <- app_assoc. apply Permutation_app_head.
    by rewrite Permutation_app_comm. }
  apply raise_later in E as (status & s1 & E1 & E); [|apply avoids_budget_status].
  pose proof (quiet_budget_status b rid TG s0) as S1. rewrite E1 in S1. simpl in S1.
  assert (replicas s1 !! Z.to_nat i = Some q) as Hq1 by by rewrite (same_replicas _ _ S1).
  destruct (decide (status = BUDGET_EXHAUSTED)); [done|].
  assert (tg_reqs q = (pre ++ [rid]) ++ cands) as Htg1 by by rewrite <- app_assoc.
  apply bind_raise in E as [E|(left_over & s2 & E2 & E)].
  { eapply tg_alloc_blame; [done|exact Hq1|exact Htg1|done| | |exact E]; [lia|]. intros Hb. by rewrite (Hpre Hb). }
  destruct (tg_alloc_run _ rid i b cands s1 left_over s2 q (pre ++ [rid]) Hi Hq1 Htg1 Hnd E2) as (kept & out & -> & R2 & Hr).
  destruct Hr as [->|[-> ->]]; [|done].
  apply raise_later in E as (b1 & s3 & E3 & E); [|apply avoids_admit].
  pose proof (quiet_admit b rid TG s2) as S3. rewrite E3 in S3. simpl in S3.
  pose proof (requeued_quiet_r _ _ _ _ _ _ R2 S3) as R3.
  destruct (decide (status = BUDGET_REACHED)); [done|]. rewrite length_app in Hf.
  eapply (IH b1 kept s3 _ (pre ++ [rid]) Hi (requeued_after _ _ _ _ _ R3)); [done| |lia| |exact E].
  - eapply preempted_nodup; [exact Htg1| |done]. by rewrite <- !app_assoc.
  - intros Hb. exfalso. unfold accept in E3. apply bind_ok in E3 as (r3 & s4 & _ & E3).
    destruct (TokenBudgetCollection.add_to_budget _ _ _) as [[?|?] l]; [|done]. injection E3 as <- _.
    apply len_0_nil in Hb. simpl in Hb. unfold OrderedIds.push in Hb. destruct (decide _) as [Hin|]; [|by destruct (ReplicaBatch.batch b)].
    rewrite Hb in Hin. by apply elem_of_nil in Hin.
Qed.

Lemma add_tg_blame i b q s s' :
  0 ≤ i → replicas s !! Z.to_nat i = Some q → NoDup (ids s) → _add_tg_requests b i s = (Raise e, s') → Blame i s'.
Proof.
  intros Hi Hq Hnd E. unfold _add_tg_requests in E. rewrite (bind_run _ _ _ _ _ (replica_at_run i q s Hi Hq)) in E.
  apply (tg_loop_blame _ i b (tg_reqs q) s s' q []) in E; try done. pose proof (ids_nodup i q s Hq Hnd) as Hown.
  unfold own in Hown. rewrite app_assoc in Hown. by apply NoDup_app in Hown as [? _].
Qed.

Lemma construct_blame i q o s s' :
  0 ≤ i → replicas s !! Z.to_nat i = Some q → NoDup (ids s) → 0 ≤ max_batch_size (config s) →
  _construct_replica_batch i o s = (Raise e, s') → Blame i s'.
Proof.
  intros Hi Hq Hnd Hm E. unfold _construct_replica_batch in E. unfold bind at 1, get in E.
  apply raise_later in E as (quota & s0 & E0 & E).
  2:{ destruct (_ce_step_quota s) as [l|]; [|apply avoids_ret]. apply avoids_bind; [|intros; apply avoids_ret].
      apply avoids_option. by destruct He as [-> | ->]. }
  assert (s0 = s) as ->.
  { destruct (_ce_step_quota s) as [l|]; [|by injection E0]. apply bind_ok in E0 as (x & s1 & E1 & E0).
    destruct (py_index l i); [|done]. injection E1 as <- <-. by injection E0. }
  set (bud := _create_new_token_budget quota s) in E.
  apply raise_later in E as (priority & s1 & E1 & E); [|destruct o; [apply avoids_ret|apply avoids_priority]].
  assert (Same s s1) as S1.
  { destruct o; [by injection E1 as <- <-|]. pose proof (quiet_priority i s) as Hp. by rewrite E1 in Hp. }
  assert (replicas s1 !! Z.to_nat i = Some q) as Hq1 by by rewrite (same_replicas _ _ S1).
  assert (ids s1 = ids s) as Hids1 by (unfold ids; by rewrite (same_replicas _ _ S1), (same_onloading _ _ S1)).
  assert (config s1 = config s) as Hc by (unfold config; by rewrite (same_settings _ _ S1)).
  rewrite <- Hids1 in Hnd. rewrite <- Hc in Hm. pose proof (formed_none i q s1 Hi Hq1 Hm) as HF0.
  assert (∀ s2 b0 q0, Formed i q q0 (ReplicaBatch.batch b0) (ReplicaBatch.batch b0) [] s1 s2 →
    bind (replica_at i) (λ q, _add_ce_requests (length (ce_reqs q)) b0 i) s2 = (Raise e, s') → Blame i s') as Hce.
  { intros s2 b0 q0 [Sh _ Hids Htg _ _] E2. pose proof (shift_after _ _ _ _ _ Sh) as Hq2. rewrite app_nil_r in Hids.
    rewrite (bind_run _ _ _ _ _ (replica_at_run i q0 s2 Hi Hq2)) in E2.
    apply (add_ce_blame i b0 q0 s2); try done; [by rewrite Hids|]. intros x Hx. left. by apply Htg. }
  destruct priority as [[| | |]|]; try done.
  - apply bind_raise in E as [E|(b1 & s2 & E2 & E)]; [by eapply add_tg_blame|].
    destruct (formed_tg i q bud s1 b1 s2 Hi Hq1 Hnd Hm E2) as (q1 & HF).
    destruct (_ && _ && _); [|done]. by eapply Hce.
  - apply bind_raise in E as [E|(b1 & s2 & E2 & E)]; [by apply (Hce s1 (ReplicaBatch.mk [] bud) q)|].
    rewrite (bind_run _ _ _ _ _ (replica_at_run i q s1 Hi Hq1)) in E2.
    destruct (formed_ce _ i q q _ (ReplicaBatch.mk [] bud) s1 s1 b1 s2 HF0 eq_refl Hnd E2) as (q1 & ce & HF).
    destruct (_ && _); [|done]. pose proof (shift_after _ _ _ _ _ (fm_shift _ _ _ _ _ _ _ _ HF)) as Hq2.
    apply (add_tg_blame i b1 q1 s2); try done. pose proof (fm_ids _ _ _ _ _ _ _ _ HF) as Hids.
    rewrite <- Hids in Hnd. by apply NoDup_app in Hnd as [? _].
Qed.

(** *** An iteration *)

Lemma avoids_bind_request rid i : avoids e (_bind_request rid i).
Proof.
  apply avoids_bind; [apply avoids_replica_at|intros _]. apply avoids_bind; [apply avoids_request|intros r].
  do 2 (apply avoids_bind; [by intros s|intros _]). destruct (_ =? 0); apply avoids_on_replica.
Qed.

Lemma avoids_option_value {X} x (o : option X) : x ≠ e → avoids e (of_option (S := t) x o).
Proof. intros Hx. by apply avoids_option. Qed.

Lemma avoids_for_each_pair {X} (l : list X) (f : X → M t unit) : (∀ x, avoids e (f x)) → avoids e (for_each l f).
Proof. apply avoids_for_each. Qed.

Lemma avoids_readmit : avoids e _readmit_completed_onloads.
Proof.
  apply avoids_bind; [apply avoids_get|intros s]. apply avoids_for_each. intros [rid [i ev]].
  apply avoids_bind; [by intros s1|intros _]. apply avoids_on_replica.
Qed.

Lemma other_exceptions : e ≠ KeyError ∧ e ≠ ValueError ∧ e ≠ IndexError ∧ e ≠ AssertionError ∧ e ≠ AttributeError.
Proof. by destruct He as [-> | ->]. Qed.

Lemma avoids_next_replica ext : avoids e (get_next_replica_idx ext).
Proof.
  destruct other_exceptions as (? & ? & ? & ? & ?).
  apply avoids_bind; [apply avoids_get|intros s]. cbv zeta.
  do 2 (apply avoids_bind; [by apply avoids_raise_if|intros _]). by apply avoids_option.
Qed.

Lemma avoids_weights rid : avoids e (_post_cache_weights rid).
Proof.
  destruct other_exceptions as (? & ? & ? & ? & ?).
  apply avoids_bind; [apply avoids_request|intros r]. apply avoids_bind; [apply avoids_get|intros s]. cbv zeta.
  apply avoids_bind; [apply avoids_catch; [intros e' k [= <-]; apply avoids_ret|done]|intros [hits|]; [|apply avoids_ret]].
  apply avoids_bind; [by apply avoids_assert|intros _]. apply avoids_bind; [apply avoids_get|intros; apply avoids_ret].
Qed.

Lemma avoids_admit_request now rid i : avoids e (_admit_request now rid i).
Proof.
  apply avoids_bind; [apply avoids_request|intros r]. apply avoids_bind; [apply avoids_get|intros s].
  destruct (_ && _ && _).
  - apply avoids_bind; [apply avoids_weights|intros w]. apply avoids_bind; [by intros s1|by intros _ s1].
  - apply avoids_bind; [destruct i; [apply avoids_ret|apply avoids_next_replica]|intros j; apply avoids_bind_request].
Qed.

Lemma avoids_promote now : avoids e (_promote_grammar_ready_requests now).
Proof.
  destruct other_exceptions as (? & ? & ? & ? & ?).
  apply avoids_bind; [apply avoids_get|intros s]. destruct (_grammar_gate s) as [g|]; [|apply avoids_ret]. cbv zeta.
  apply avoids_for_each. intros [rid i]. apply avoids_bind; [by intros s1|intros _].
  apply avoids_bind; [apply avoids_request|intros r]. apply avoids_bind.
  - intros s1. unfold on_gate. destruct (_grammar_gate s1) as [g1|]; [|simpl; congruence].
    assert (avoids e (AsyncGrammarGate.install_ready r)) as Ha; [|specialize (Ha g1); by destruct (AsyncGrammarGate.install_ready r g1)].
    apply avoids_bind; [apply avoids_get|intros g2]. destruct (_ !! _) as [f|]; [|apply avoids_ret].
    apply avoids_bind; [by intros s2|intros _]. apply avoids_bind; [by apply avoids_assert|intros _].
    destruct (future_result _ _); apply avoids_ret.
  - intros [msg|r1]; [apply avoids_bind; [apply avoids_pipeline|by intros _ s1]|].
    apply avoids_bind; [by intros s1|intros _; apply avoids_admit_request].
Qed.

Lemma avoids_for_fold {X R} (l : list X) (r : R) (f : R → X → M t R) : (∀ r x, avoids e (f r x)) → avoids e (for_fold l r f).
Proof. intros Hf. revert r. induction l as [|x l IH]; intros r; [apply avoids_ret|]. by apply avoids_bind; [apply Hf|]. Qed.

Lemma avoids_plan now : avoids e (_plan_ce_step now).
Proof.
  destruct other_exceptions as (? & ? & ? & ? & ?).
  apply avoids_bind; [by intros s|intros _]. apply avoids_bind; [apply avoids_get|intros s].
  destruct (negb _); [apply avoids_ret|]. destruct (_ && _); [apply avoids_ret|]. cbv zeta.
  destruct (plan_floor now s) as [p tails]. apply avoids_bind.
  { apply avoids_for_fold. intros r rid. unfold bind_expired. apply avoids_bind; [apply avoids_get|intros s1].
    apply avoids_bind; [by apply avoids_option|intros w]. apply avoids_bind; [by intros s2|intros _].
    apply avoids_bind; [by apply avoids_option|intros j]. cbv zeta. apply avoids_bind; [apply avoids_bind_request|by intros _ s2]. }
  intros p1. destruct (plan_tails _ _ _) as [load deferred]. apply avoids_bind; [apply avoids_get|intros s1].
  destruct (plan_pool _ _ _ _ _) as [p2 binds]. match goal with |- avoids _ (if ?c then _ else _) => destruct c end; [|by intros s2].
  apply avoids_bind; [|intros _; apply avoids_bind; [by intros s2|intros _; apply avoids_when; by intros s2]].
  apply avoids_for_each. intros [rid i]. apply avoids_bind; [by intros s2|intros _; apply avoids_bind_request].
Qed.

Lemma avoids_for_map {X Y} (l : list X) (f : X → M t Y) : (∀ x, avoids e (f x)) → avoids e (for_map l f).
Proof.
  intros Hf. induction l as [|x l IH]; [apply avoids_ret|]. apply avoids_bind; [apply Hf|intros y].
  apply avoids_bind; [exact IH|intros; apply avoids_ret].
Qed.

Lemma avoids_override : avoids e choose_override.
Proof.
  apply avoids_bind; [apply avoids_get|intros s]. cbv zeta. destruct (batch_scheduling_strategy _); try apply avoids_ret;
    (apply avoids_bind; [apply avoids_for_map; intros; apply avoids_priority|intros; apply avoids_ret]).
Qed.

(** The replicas in turn. *)
Lemma form_blame o l out L s s' :
  NoDup L → (∀ i, i ∈ l → 0 ≤ i < len (replicas s)) → 0 ≤ max_batch_size (config s) → Book out L s →
  for_map l (λ i, _construct_replica_batch i o) s = (Raise e, s') → ∃ i, i ∈ l ∧ Blame i s'.
Proof.
  intros Hnd. revert out s. induction l as [|i l IH]; intros out s Hin Hm HB E; [done|]. cbn [for_map] in E.
  destruct (Hin i ltac:(by left)) as [H0 Hlt].
  destruct (lookup_lt_is_Some_2 (replicas s) (Z.to_nat i)) as [q Hq]; [unfold len in Hlt; lia|].
  pose proof (proj1 (proj2 (book_nodup _ _ _ Hnd HB))) as Hids.
  apply bind_raise in E as [E|(b & s1 & E1 & E)].
  { exists i. split; [by left|]. by eapply construct_blame. }
  destruct (construct_run i q o s b s1 H0 Hq Hids Hm E1) as (q' & tg & ce & HF).
  destruct (formed_book _ _ _ _ _ _ _ _ _ _ Hnd HB HF) as [HB1 _].
  pose proof (rest_shift _ _ _ _ _ (fm_shift _ _ _ _ _ _ _ _ HF)) as HR.
  apply bind_raise in E as [E|(bs & s2 & _ & E)]; [|done].
  destruct (IH (out ++ ce) s1) as (j & Hj & HBl); [| |done|done|exists j; split; [by right|done]].
  - intros j Hj. unfold len. rewrite (rs_replicas _ _ HR). apply Hin. by right.
  - unfold config in *. by rewrite (rs_settings _ _ HR).
Qed.

Lemma batch_blame now L s s' :
  NoDup L → Book [] L s → 0 ≤ max_batch_size (config s) → construct_batch now s = (Raise e, s') →
  ∃ i, 0 ≤ i < n_replicas s ∧ Blame i s'.
Proof.
  intros Hnd HB Hm E. unfold construct_batch in E.
  apply raise_later in E as ([] & s1 & E1 & E); [|apply avoids_readmit].
  pose proof (readmit_keeps_settings s) as K1. rewrite E1 in K1. simpl in K1. apply (readmit_book [] L) in E1; [|done|done].
  apply raise_later in E as ([] & s2 & E2 & E); [|apply avoids_promote].
  pose proof (promote_keeps_settings now s1) as K2. rewrite E2 in K2. simpl in K2. apply (promote_book now [] L) in E2; [|done|done].
  apply raise_later in E as ([] & s3 & E3 & E); [|apply avoids_plan].
  pose proof (plan_keeps_settings now s2) as K3. rewrite E3 in K3. simpl in K3. apply (plan_book now [] L) in E3; [|done|done].
  apply raise_later in E as (o & s4 & E4 & E); [|apply avoids_override].
  pose proof (quiet_override s3) as S4. rewrite E4 in S4. simpl in S4. apply (book_same _ _ _ _ S4) in E3.
  unfold bind at 1, get in E. apply bind_raise in E as [E|(bs & s5 & _ & E)]; [|done].
  assert (settings s4 = settings s) as K4 by (rewrite (same_settings _ _ S4); congruence).
  unfold config, n_replicas in *. rewrite K4 in E.
  apply (form_blame o _ [] L) in E as (i & Hi & HBl); [|done| |by unfold config; rewrite K4|done].
  - exists i. apply elem_of_zrange in Hi. by split.
  - intros j Hj. apply elem_of_zrange in Hj. pose proof (bk_replicas _ _ _ E3) as Hr. unfold n_replicas in Hr. rewrite K4 in Hr. lia.
Qed.

End Errors.
End Errors.
