(* ===== verification/Planning.v ===== *)
(** * Balancing the context encoding of replicas (text_batch_constructor.py)

    What a planning step leaves waiting: requests of the pool whose deadline has not
    passed, and the prompts of the replicas that skip context encoding; and which
    requests of the pool it binds to which replica. *)

From S2P Require Import Prelude Tokens Eos FreeQueue Pool Grammar Context Hashing Connector Manager ManagerFacts ManagerProperties CacheManager KVInterface Dict Budget Lora Batch BatchFacts Conservation.

Module Planning.
Import ReplicaRequests TextBatchConstructor BatchFacts Conservation.

Section Planning.
Context {B : Backend} `{KV : !KVCache, P : Pipeline, F : Floats, G : !GrammarBuilder, A : AdapterStore}.
Implicit Types s : t.

Lemma expired_takes target rid p s p' s' :
  bind_expired target rid p s = (Ok p', s') → _ce_pending s' = OrderedDict.delete rid (_ce_pending s).
Proof.
  intros E. unfold bind_expired in E. unfold bind at 1, get in E.
  apply bind_ok in E as (w & s1 & E1 & E). destruct (OrderedDict.lookup rid _); [|done]. injection E1 as -> <-.
  unfold bind at 1, modify in E. cbv beta in E.
  apply bind_ok in E as (i & s2 & E2 & E). destruct (argmin _ _) as [j|]; [|done]. injection E2 as <- <-.
  apply bind_ok in E as ([] & s3 & E3 & E). injection E as _ <-.
  pose proof (bind_keeps_pending rid j (set_pending (OrderedDict.delete rid (_ce_pending s)) s)) as Hk. by rewrite E3 in Hk.
Qed.

Lemma deleted_key {V} k x (d : list (Z * V)) :
  NoDup (OrderedDict.keys d) → x ∈ OrderedDict.keys (OrderedDict.delete k d) → x ∈ OrderedDict.keys d ∧ x ≠ k.
Proof.
  induction d as [|[k' v] d IH]; intros Hnd Hx; [by apply elem_of_nil in Hx|]. simpl in *. apply NoDup_cons in Hnd as [Hk Hnd].
  destruct (decide (k' = k)) as [->|Hne].
  - split; [by right|]. by intros ->.
  - simpl in Hx. apply elem_of_cons in Hx as [->|Hx]; [split; [by left|done]|].
    destruct (IH Hnd Hx). split; [by right|done].
Qed.

(** A loop that takes entries out of the pool. *)
Lemma pool_shrinks {X R} (key : X → Z) (f : R → X → M t R) :
  (∀ r x s r' s', f r x s = (Ok r', s') → _ce_pending s' = OrderedDict.delete (key x) (_ce_pending s)) →
  ∀ l r s r' s', NoDup (OrderedDict.keys (_ce_pending s)) → for_fold l r f s = (Ok r', s') →
  NoDup (OrderedDict.keys (_ce_pending s')) ∧
  ∀ k, k ∈ OrderedDict.keys (_ce_pending s') → k ∈ OrderedDict.keys (_ce_pending s) ∧ k ∉ key <$> l.
Proof.
  intros Hf l. induction l as [|x l IH]; intros r s r' s' Hnd E; simpl in E.
  { injection E as _ <-. split; [done|]. intros k Hk. split; [done|]. simpl. by intros ?%elem_of_nil. }
  apply bind_ok in E as (r1 & s1 & E1 & E). pose proof (Hf _ _ _ _ _ E1) as Hd.
  assert (NoDup (OrderedDict.keys (_ce_pending s1))) as Hnd1.
  { rewrite Hd. eapply sublist_NoDup; [exact Hnd|apply OrderedDict.delete_keys_sublist]. }
  destruct (IH r1 s1 r' s' Hnd1 E) as [Hnd' Hin]. split; [done|]. intros k Hk. destruct (Hin k Hk) as [Hk1 Hl].
  rewrite Hd in Hk1. apply deleted_key in Hk1 as [Hk1 Hne]; [|done]. split; [done|]. simpl. by rewrite not_elem_of_cons.
Qed.

(** The tails that can wait are those of replicas with generating requests and no
    request past its deadline. *)
Lemma tail_can_defer now s x : x ∈ (plan_floor now s).2 →
  ∃ q, replicas s !! Z.to_nat x.2 = Some q ∧ 0 ≤ x.2 ∧ can_defer now s q = true.
Proof.
  unfold plan_floor. simpl. intros Hx. apply list_elem_of_omap in Hx as ([i q] & Hin & Hx). simpl in Hx.
  destruct (negb _ && can_defer now s q) eqn:Ed; [|done]. injection Hx as <-. simpl.
  apply andb_true_iff in Ed as [_ Ed]. apply elem_of_lookup_zip_with in Hin as (n & i' & q' & [= <- <-] & Hi & Hq).
  unfold zrange in Hi. rewrite list_lookup_fmap in Hi. apply fmap_Some in Hi as (k & Hk & ->).
  apply lookup_seq in Hk as [-> _]. exists q. rewrite Z.add_0_l, Nat2Z.id. split_and!; [done|lia|done].
Qed.

Lemma can_defer_spec now s q :
  can_defer now s q = true ↔ tg_reqs q ≠ [] ∧ ∀ rid, rid ∈ ce_reqs q → _expired now s rid = false.
Proof.
  unfold can_defer. rewrite andb_true_iff, !negb_true_iff, bool_decide_eq_false. apply and_iff_compat_l.
  rewrite <- not_true_iff_false, existsb_exists. split.
  - intros Hn rid Hr. apply not_true_iff_false. intros Hx. apply Hn. exists rid. by rewrite <- list_elem_of_In.
  - intros Ha (rid & Hr & Hx). rewrite <- list_elem_of_In in Hr. rewrite (Ha rid Hr) in Hx. done.
Qed.

Lemma tails_deferred target tails load x : x ∈ (plan_tails target tails load).2 → x ∈ tails.*2.
Proof.
  unfold plan_tails. set (l := LoRAManagerV3.sorted_descending _ _). clearbody l.
  assert (∀ acc : list Z * gset Z, x ∈ (foldl (λ '(load, deferred) '(step_tokens, i),
      let trial := list_set load i (Z.min (at_replica load i + step_tokens) target) in
      if improves trial load then (trial, deferred ∖ {[ i ]}) else (load, deferred)) acc l).2 → x ∈ acc.2) as Hgen.
  { induction l as [|[n i] l IH]; intros [ld d]; [done|]. cbn [foldl]. intros Hx. apply IH in Hx.
    cbv zeta in Hx. destruct (improves _ _); simpl in *; set_solver. }
  intros Hx. apply Hgen in Hx. simpl in Hx. by apply elem_of_list_to_set in Hx.
Qed.

(** *** The prompts that join a replica *)

(** Every replica keeps its generating requests, and a prompt it did not queue in [s] is
    one that [R] lets join it. *)
Definition Joined (R : Z → Z → Prop) s s' : Prop := ∀ i q, 0 ≤ i → replicas s !! Z.to_nat i = Some q →
  ∃ q', replicas s' !! Z.to_nat i = Some q' ∧ (∀ x, x ∈ ce_reqs q' → x ∈ ce_reqs q ∨ R x i) ∧
    ∀ x, x ∈ tg_reqs q → x ∈ tg_reqs q'.

Lemma joined_same R s s' : replicas s' = replicas s → Joined R s s'.
Proof. intros E i q _ Hq. exists q. rewrite E. split_and!; [done|by left|done]. Qed.

Lemma joined_trans R s1 s2 s3 : Joined R s1 s2 → Joined R s2 s3 → Joined R s1 s3.
Proof.
  intros H1 H2 i q Hi Hq. destruct (H1 i q Hi Hq) as (q2 & Hq2 & Hc2 & Ht2).
  destruct (H2 i q2 Hi Hq2) as (q3 & Hq3 & Hc3 & Ht3). exists q3. split_and!; [done| |by auto].
  intros x Hx. destruct (Hc3 x Hx) as [Hx2|]; [by apply Hc2|by right].
Qed.

Lemma joined_mono R R' s s' : (∀ x i, R x i → R' x i) → Joined R s s' → Joined R' s s'.
Proof.
  intros Hm H i q Hi Hq. destruct (H i q Hi Hq) as (q' & Hq' & Hc & Ht). exists q'. split_and!; [done| |done].
  intros x Hx. destruct (Hc x Hx) as [|HR]; [by left|by right; apply Hm].
Qed.

Lemma joined_update (R : Z → Z → Prop) rid i q q' s : 0 ≤ i → R rid i → replicas s !! Z.to_nat i = Some q →
  (∀ x, x ∈ ce_reqs q' → x ∈ ce_reqs q ∨ x = rid) → (∀ x, x ∈ tg_reqs q → x ∈ tg_reqs q') →
  Joined R s (TextBatchConstructor.set_replicas (<[Z.to_nat i := q']> (replicas s)) s).
Proof.
  intros Hi HR Hq Hc Ht j p Hj Hp. simpl. destruct (decide (j = i)) as [->|Hne].
  - rewrite Hp in Hq. injection Hq as ->. exists q'. rewrite list_lookup_insert_eq by (by eapply lookup_lt_Some).
    split_and!; [done| |done]. intros x Hx. destruct (Hc x Hx) as [| ->]; [by left|by right].
  - exists p. rewrite list_lookup_insert_ne by lia. split_and!; [done|by left|done].
Qed.

Lemma bind_joined (R : Z → Z → Prop) rid i s s' :
  0 ≤ i → R rid i → _bind_request rid i s = (Ok tt, s') → Joined R s s'.
Proof.
  intros Hi HR E. unfold _bind_request in E. apply bind_ok in E as (q & s1 & E1 & E).
  assert (s1 = s ∧ replicas s !! Z.to_nat i = Some q) as [-> Hq].
  { unfold replica_at, bind, get in E1. destruct (py_index (replicas s) i) as [q'|] eqn:Eq; [|done].
    injection E1 as -> <-. split; [done|]. unfold py_index in Eq.
    replace (i <? 0) with false in Eq by lia. by destruct (_ || _). }
  clear E1.
  apply bind_ok in E as (r & s1 & E1 & E).
  assert (s1 = s) as -> by (unfold request, bind, get in E1; destruct (requests s !! rid); by injection E1).
  clear E1. unfold bind at 1, modify in E. unfold bind at 1, modify in E.
  cbv beta in E. match type of E with (if _ then _ else _) ?s2 = _ => set (s3 := s2) in E end.
  assert (replicas s3 !! Z.to_nat i = Some q) as Hq3 by done.
  apply (joined_trans R s s3); [by apply joined_same|].
  destruct (_ =? 0).
  - destruct (on_replica_run i q (λ q, set_ce (OrderedIds.push rid (ce_reqs q)) q) s3 Hi Hq3) as [E' _].
    rewrite E' in E. injection E as <-. apply (joined_update R rid i q _ s3); [done..| |done].
    intros x. simpl. unfold OrderedIds.push. destruct (decide _); [by left|].
    rewrite elem_of_app, list_elem_of_singleton. tauto.
  - destruct (on_replica_run i q (λ q, set_tg (OrderedIds.push rid (tg_reqs q)) q) s3 Hi Hq3) as [E' _].
    rewrite E' in E. injection E as <-. apply (joined_update R rid i q _ s3); [done..|by left|].
    intros x Hx. simpl. unfold OrderedIds.push. destruct (decide _); [done|]. rewrite elem_of_app. by left.
Qed.

Lemma joined_fold {X P'} (R : Z → Z → Prop) (f : P' → X → M t P') l : (∀ p x s p' s', x ∈ l → f p x s = (Ok p', s') → Joined R s s') →
  ∀ p s p' s', for_fold l p f s = (Ok p', s') → Joined R s s'.
Proof.
  intros Hf. induction l as [|x l IH]; intros p s p' s' E; simpl in E; [injection E as _ <-; by apply joined_same|].
  apply bind_ok in E as (p1 & s1 & E1 & E). eapply joined_trans; [eapply Hf; [by left|exact E1]|].
  eapply IH; [|exact E]. intros p2 y s2 p3 s3 Hy. apply Hf. by right.
Qed.

Lemma expired_joins (R : Z → Z → Prop) target rid p s p' s' :
  (∀ i, R rid i) → bind_expired target rid p s = (Ok p', s') → Joined R s s'.
Proof.
  intros HR E. unfold bind_expired in E. unfold bind at 1, get in E.
  apply bind_ok in E as (w & s1 & E1 & E). destruct (OrderedDict.lookup rid _); [|done]. injection E1 as -> <-.
  unfold bind at 1, modify in E. cbv beta in E.
  apply bind_ok in E as (i & s2 & E2 & E). destruct (argmin _ _) as [j|] eqn:Ea; [|done]. injection E2 as <- <-.
  apply argmin_elem in Ea. apply elem_of_zrange in Ea.
  apply bind_ok in E as ([] & s3 & E3 & E). injection E as _ <-.
  eapply joined_trans; [|eapply bind_joined; [|apply HR|exact E3]; lia]. by apply joined_same.
Qed.

(** The pool's requests go only to replicas that run prompts in this step. *)
Lemma pool_avoids_deferred target n deferred pending p x :
  x ∈ (plan_pool target n deferred pending p).2 → 0 ≤ x.2 ∧ x.2 ∉ deferred.
Proof.
  unfold plan_pool. set (l := LoRAManagerV3.sorted_descending _ _). clearbody l.
  assert (∀ y, y ∈ (p, @nil (Z * Z)).2 → 0 ≤ y.2 ∧ y.2 ∉ deferred) as H0 by (intros y Hy; by apply elem_of_nil in Hy).
  revert H0 x. generalize (p, @nil (Z * Z)). induction l as [|[rid w] l IH]; intros [p0 binds] H0 x; [by apply H0|].
  cbn [foldl]. apply IH. intros y. destruct (argmin _ _) as [i|] eqn:Ea; [|by apply H0].
  cbv zeta. destruct (improves _ _); [|by apply H0]. simpl. rewrite elem_of_app, list_elem_of_singleton.
  intros [Hy| ->]; [by apply H0|]. apply argmin_elem, list_elem_of_filter in Ea as [[Hd _] Hz]. simpl.
  apply elem_of_zrange in Hz. by split; [lia|].
Qed.

(** What a planning step leaves waiting. *)
Lemma plan_waits now s s' :
  NoDup (OrderedDict.keys (_ce_pending s)) → _dp_ce_balance_enabled s = true → _plan_ce_step now s = (Ok tt, s') →
  (∀ rid, rid ∈ OrderedDict.keys (_ce_pending s') → rid ∈ OrderedDict.keys (_ce_pending s) ∧ _expired now s rid = false) ∧
  (∀ i, i ∈ _ce_deferred_replicas s' → ∃ q, replicas s !! Z.to_nat i = Some q ∧ 0 ≤ i ∧ can_defer now s q = true).
Proof.
  intros Hnd Hen E. unfold _plan_ce_step in E. unfold bind at 1, modify in E. unfold bind at 1, get in E.
  set (s1 := set_quota None (set_deferred_replicas ∅ s)) in E.
  change (_dp_ce_balance_enabled s1) with (_dp_ce_balance_enabled s) in E. rewrite Hen in E. simpl negb in E.
  destruct (bool_decide (_ce_pending s1 = []) && _) eqn:Ee.
  { injection E as <-. apply andb_true_iff in Ee as [Ee _]. apply bool_decide_eq_true in Ee. simpl in Ee |- *. rewrite Ee.
    split; [by intros rid ?%elem_of_nil|by intros i ?%elem_of_empty]. }
  destruct (plan_floor now s1) as [p tails] eqn:Ep. apply bind_ok in E as (p1 & s2 & E1 & E).
  assert (NoDup (OrderedDict.keys (_ce_pending s1))) as Hnd1 by done.
  set (target := target_tokens_per_batch_ce (config s1)) in *.
  destruct (pool_shrinks (λ x, x) (λ p rid, bind_expired target rid p) (λ r x s r' s', expired_takes target x r s r' s')
    _ _ _ _ _ Hnd1 E1) as [Hnd2 Hin2]. rewrite list_fmap_id in Hin2.
  assert (∀ rid, rid ∈ OrderedDict.keys (_ce_pending s2) → rid ∈ OrderedDict.keys (_ce_pending s) ∧ _expired now s rid = false) as Hpool.
  { intros rid Hr. destruct (Hin2 rid Hr) as [Hk Hnot]. split; [done|]. apply not_true_iff_false. intros Hex. apply Hnot.
    apply list_elem_of_filter. by split. }
  assert (∀ i, i ∈ tails.*2 → ∃ q, replicas s !! Z.to_nat i = Some q ∧ 0 ≤ i ∧ can_defer now s q = true) as Htails.
  { intros i Hi. apply list_elem_of_fmap in Hi as (x & -> & Hx). pose proof (tail_can_defer now s1 x) as Ht.
    rewrite Ep in Ht. by apply Ht. }
  destruct (plan_tails _ _ _) as [load deferred] eqn:Et. unfold bind at 1, get in E.
  destruct (plan_pool _ _ _ _ _) as [p2 binds]. match type of E with (if ?c then _ else _) _ = _ => destruct c end.
  2:{ injection E as <-. split; [exact Hpool|]. simpl. intros i Hi. apply Htails. by apply elem_of_list_to_set in Hi. }
  apply bind_ok in E as ([] & s3 & E3 & E). rewrite for_each_fold in E3.
  destruct (pool_shrinks fst (λ _ : unit, bind_planned)) with (l := binds) (r := tt) (s := s2) (r' := tt) (s' := s3)
    as [_ Hin3]; [|exact Hnd2|exact E3|].
  { intros _ [rid i] s4 [] s5 E4. unfold bind_planned, bind, modify in E4.
    pose proof (bind_keeps_pending rid i (set_pending (OrderedDict.delete rid (_ce_pending s4)) s4)) as Hk. by rewrite E4 in Hk. }
  assert (_ce_pending s' = _ce_pending s3 ∧ _ce_deferred_replicas s' = deferred) as [Hp' Hd'].
  { unfold bind, modify in E. destruct (_ && _ && _); by injection E as <-. }
  rewrite Hp', Hd'. split; [intros rid Hr; by apply Hpool, Hin3|]. intros i Hi. apply Htails.
  apply (tails_deferred target tails (step_load p1) i). by rewrite Et.
Qed.

(** What joins a replica in a planning step: expired requests of the pool, and, on a
    replica that runs prompts in this step, others. *)
Lemma plan_joined now s s' : _plan_ce_step now s = (Ok tt, s') →
  Joined (λ x i, x ∈ OrderedDict.keys (_ce_pending s) ∧ _expired now s x = true ∨ i ∉ _ce_deferred_replicas s') s s'.
Proof.
  intros E. unfold _plan_ce_step in E. unfold bind at 1, modify in E. unfold bind at 1, get in E.
  set (s1 := set_quota None (set_deferred_replicas ∅ s)) in E.
  destruct (negb _); [injection E as <-; by apply joined_same|].
  destruct (_ && _); [injection E as <-; by apply joined_same|].
  destruct (plan_floor now s1) as [p tails]. apply bind_ok in E as (p1 & s2 & E1 & E).
  set (R := λ x i : Z, _). assert (Joined R s s2) as H2.
  { apply (joined_trans R s s1); [by apply joined_same|]. eapply (joined_fold R); [|exact E1].
    intros p2 rid s3 p3 s4 Hin. apply expired_joins. intros i. left. by apply list_elem_of_filter in Hin as [? ?]. }
  destruct (plan_tails _ _ _) as [load deferred] eqn:Et. unfold bind at 1, get in E.
  match type of E with context [plan_pool ?a ?b ?d ?e ?f] => pose proof (pool_avoids_deferred a b d e f) as Hpool end.
  destruct (plan_pool _ _ _ _ _) as [p2 binds]. match type of E with (if ?c then _ else _) _ = _ => destruct c end.
  2:{ injection E as <-. apply (joined_trans R s s2); [done|by apply joined_same]. }
  apply bind_ok in E as ([] & s3 & E3 & E). rewrite for_each_fold in E3.
  assert (replicas s' = replicas s3 ∧ _ce_deferred_replicas s' = deferred) as [Hr' Hd'].
  { unfold bind, modify in E. destruct (_ && _ && _); by injection E as <-. }
  apply (joined_trans R s s2); [done|]. apply (joined_trans R s2 s3); [|by apply joined_same].
  eapply (joined_fold R); [|exact E3]. intros _ [rid i] s4 [] s5 Hin E4.
  destruct (Hpool (rid, i) Hin) as [Hi Hd]. unfold bind_planned in E4. unfold bind at 1, modify in E4.
  eapply joined_trans; [|eapply bind_joined; [exact Hi| |exact E4]]; [by apply joined_same|]. right. by rewrite Hd'.
Qed.

End Planning.
End Planning.
