(* ===== verification/BatchProperties.v ===== *)
(** * The batch constructor's theorems

    A constructor in use loses no request and serves none twice; its batches are
    disjoint and bounded; prompts fill a batch within the token budget; generating
    requests are served oldest first; a planning step binds every prompt past its deadline
    to a replica, though one that may not run it in this step; an iteration ends; and
    missing KV blocks are reported only when nothing could free any. *)

From S2P Require Import Prelude Tokens Eos FreeQueue Pool Grammar Context Hashing Connector Manager ManagerFacts ManagerProperties CacheManager KVInterface Dict Budget Lora Batch BatchFacts Conservation Spending BatchErrors Planning.
From Stdlib Require Import QArith.
Open Scope Z_scope.

Module BatchProperties.
Import ReplicaRequests TextBatchConstructor BatchFacts Conservation Spending Errors Planning.

Section Statements.
Context {B : Backend} `{KV : !KVCache, P : Pipeline, F : Floats, G : !GrammarBuilder, A : AdapterStore}.
Implicit Types s : t.

(** C22: the constructor loses no request and holds none twice. Whatever the scheduler
    does with a constructor (enqueue, release, collect grammar failures, iterate, let
    the pipeline and the cache change in between), the requests it holds are those
    enqueued and not yet released or reported; each is in exactly one of the queues,
    the pool, the onloads or the grammar wait; and one that waits on a replica waits on
    the replica it is bound to. *)
Theorem every_request_held_once L s :
  Life L s → NoDup L ∧ all_ids s ≡ₚ L ∧ ∀ x n, sits s x n → bound_to s x n.
Proof.
  intros HL. destruct (life_book L s HL) as [Hnd [Hp Hs _ _]]. rewrite app_nil_r in Hp. by split_and!.
Qed.

(** C25: an iteration's batches. There is one batch per replica, within the maximum
    size; no request is in two batches or twice in one; and every request of a batch is
    held by the constructor and bound to that replica. *)
Theorem batches_disjoint_and_bounded L s now batches s' :
  Life L s → 0 < max_batch_size (config s) → construct_batch now s = (Ok batches, s') →
  len batches = n_replicas s ∧ NoDup (concat batches) ∧
  ∀ i b, batches !! i = Some b →
    len b ≤ max_batch_size (config s) ∧ ∀ x, x ∈ b → x ∈ L ∧ bound_to s' x i.
Proof.
  intros HL Hm E. destruct (life_book L s HL) as [Hnd HB].
  destruct (construct_batch_book now L s batches s' Hnd HB ltac:(lia) E) as (ces & HB' & _ & HF).
  destruct (parted_disjoint _ _ _ _ _ _ _ (NoDup_zrange _ _) HB' HF) as [Hdis _].
  pose proof (Forall3_length_lm _ _ _ _ HF) as Hlen.
  pose proof (bk_replicas _ _ _ HB) as Hr. pose proof (len_nonneg (replicas s)).
  split_and!; [|done|].
  - unfold len at 1. rewrite <- Hlen. fold (len (zrange 0 (n_replicas s))). rewrite len_zrange; lia.
  - intros i b Hb. destruct (Forall3_lookup_m _ _ _ _ _ _ HF Hb) as (z & ce & Hz & Hce & HP).
    assert (Z.to_nat z = i) as Hzi.
    { unfold zrange in Hz. rewrite list_lookup_fmap in Hz. apply fmap_Some in Hz as (k & Hk & ->).
      apply lookup_seq in Hk as [-> _]. lia. }
    split; [by destruct HP as (_ & _ & _ & _ & _ & _ & _ & ? & _)|]. intros x Hx. split; [|rewrite <- Hzi; by eapply parted_bound].
    rewrite <- (bk_ids _ _ _ HB'), elem_of_app. destruct HP as (tg & q & -> & _ & Hq & Htg & _).
    apply elem_of_app in Hx as [Hx|Hx].
    + left. unfold all_ids. rewrite elem_of_app. left. eapply own_in_ids; [exact Hq|].
      unfold own. rewrite !elem_of_app. right. left. by apply Htg.
    + right. apply list_elem_of_In, in_concat. exists ce. split; [|by apply list_elem_of_In].
      apply list_elem_of_In. by eapply list_elem_of_lookup_2.
Qed.

(** C32: token generation serves the oldest requests and preempts the newest. Without
    adapters, the pass over a replica's TG queue cuts the queue in three: a prefix goes
    into the batch, in order; then requests that stay; then a suffix of preempted ones,
    which go to the front of the CE queue in their order. Other replicas, the onloads
    and the pools are untouched. *)
Theorem token_generation_oldest_first i q bud s b s' :
  0 ≤ i → replicas s !! Z.to_nat i = Some q → NoDup (ids s) → 0 ≤ max_batch_size (config s) →
  _lora_manager s = None →
  _add_tg_requests (ReplicaBatch.mk [] bud) i s = (Ok b, s') →
  ∃ waiting out, tg_reqs q = ReplicaBatch.batch b ++ waiting ++ out ∧
    ReplicaBatch.length b ≤ max_batch_size (config s) ∧
    replicas s' = <[Z.to_nat i := set_ce (out ++ ce_reqs q) (set_tg (ReplicaBatch.batch b ++ waiting) q)]> (replicas s) ∧
    _onloading_reqs s' = _onloading_reqs s ∧ all_ids s' ≡ₚ all_ids s.
Proof.
  intros Hi Hq Hnd Hm Hl E.
  destruct (add_tg_run i (ReplicaBatch.mk [] bud) q s b s' Hi Hq Hnd (λ x _, not_elem_of_nil (A := Z) x) Hm E)
    as (adm & wait & out & _ & Hex & HR & Hids & Hb & Hn). simpl in Hb. subst adm.
  pose proof (rq_same _ _ _ _ _ HR) as HS. exists wait, out. split_and!; [by apply Hex|done|..].
  - by rewrite (same_replicas _ _ HS).
  - by rewrite (same_onloading _ _ HS).
  - unfold all_ids. by rewrite Hids, (same_pending _ _ HS), (same_grammar _ _ HS), (same_failed _ _ HS).
Qed.

(** C28: a context-encoding batch against its token budget. The pass stops at the
    request that reaches the budget: all but the last request of the batch stay below
    the target (or the step's smaller quota); with chunked prefill the whole batch
    stays within it, the last prompt being cut if need be. *)
Theorem prompt_batch_within_budget `{!KVCacheLaws} quota fuel i q s b s' :
  0 ≤ i → replicas s !! Z.to_nat i = Some q → NoDup (ids s) → good s →
  let target := default (target_tokens_per_batch_ce (config s)) quota in
  0 ≤ target →
  _add_ce_requests fuel (ReplicaBatch.mk [] (_create_new_token_budget quota s)) i s = (Ok b, s') →
  (∀ init x, ReplicaBatch.batch b = init ++ [x] → load init s' < target) ∧
  (enable_chunked_prefill (config s) = true → load (ReplicaBatch.batch b) s' ≤ target).
Proof.
  intros Hi Hq Hnd Hg target Ht E.
  set (b0 := ReplicaBatch.mk [] _) in E.
  assert (Spent target (enable_chunked_prefill (config s)) b0 s) as HS.
  { split_and!; [apply budget_charged|done|]. intros init x Hb. by destruct init. }
  destruct (add_ce_spent target (enable_chunked_prefill (config s)) fuel i b0 q s b s' Hi Hq Hnd) as (_ & Hle & Hinit);
    [by intros x ?%elem_of_nil|done|exact HS|exact E|by split].
Qed.

(** C31: when missing KV blocks become an error. The batch of a replica raises
    [InsufficientBlocksError] only if, in one run of calls that ends in the state the
    error leaves, the cache refused to allocate for a request, the cache right after the
    refusal reports no pending transfer, and the only call on the cache after these is
    the look at the request's blocks that goes into the message; in that state no other
    request of the replica is generating, no onload of the constructor is in flight and
    no KV transfer between nodes. In any other case a refusal ends the pass, or preempts. *)
Theorem missing_blocks_reported_only_when_starved `{!KVCacheLaws} i q o s s' :
  (∀ rid, avoids InsufficientBlocksError (pipeline_release rid)) →
  0 ≤ i → replicas s !! Z.to_nat i = Some q → NoDup (ids s) → 0 ≤ max_batch_size (config s) →
  _construct_replica_batch i o s = (Raise InsufficientBlocksError, s') → Starved i s'.
Proof.
  intros Hpipe Hi Hq Hnd Hm E.
  assert (Calls InsufficientBlocksError) as HC.
  { split; [apply claim_avoids|apply release_avoids|apply pending_avoids|apply count_avoids|done|done|done]. }
  by destruct (construct_blame InsufficientBlocksError (or_introl eq_refl) HC i q o s s' Hi Hq Hnd Hm E).
Qed.

(** C34: an iteration ends. The loops over the queues return after at most one step per
    request queued: a constructor in use never runs out of the fuel [construct_batch]
    gives them, provided the calls on the cache and the pipeline return. *)
Theorem iteration_terminates L s now :
  Life L s → 0 < max_batch_size (config s) → Calls OutOfFuel → (construct_batch now s).1 ≠ Raise OutOfFuel.
Proof.
  intros HL Hm HC E. destruct (life_book L s HL) as [Hnd HB].
  destruct (construct_batch now s) as [r s'] eqn:Eq. simpl in E. subst r.
  destruct (batch_blame OutOfFuel (or_intror eq_refl) HC now L s s' Hnd HB ltac:(lia) Eq) as (i & _ & [Hf _]). done.
Qed.

(** C33: what a planning step of data-parallel replicas does with the deferral deadlines.
    It loses no request, and the requests it leaves in the pool have not passed their
    deadline. A replica that already queued a prompt past its deadline is not told to skip
    context encoding. A replica that is told to skip it has requests to generate for,
    before and after; each prompt it queues after the step was queued there before and has
    not passed its deadline, or has passed it and was in the pool before: the step bound
    it to a replica that does not run it yet. A later step that finds it queued there past
    its deadline cannot make the replica skip it again. *)
Theorem overdue_prompts_are_bound L s now s' :
  Life L s → _dp_ce_balance_enabled s = true → _plan_ce_step now s = (Ok tt, s') →
  all_ids s' ≡ₚ L ∧
  (∀ rid, rid ∈ OrderedDict.keys (_ce_pending s') → _expired now s rid = false) ∧
  (∀ i q rid, 0 ≤ i → replicas s !! Z.to_nat i = Some q → rid ∈ ce_reqs q → _expired now s rid = true →
     i ∉ _ce_deferred_replicas s') ∧
  (∀ i, i ∈ _ce_deferred_replicas s' → ∃ q q', replicas s !! Z.to_nat i = Some q ∧ replicas s' !! Z.to_nat i = Some q' ∧
     tg_reqs q ≠ [] ∧ tg_reqs q' ≠ [] ∧
     ∀ rid, rid ∈ ce_reqs q' →
       (rid ∈ ce_reqs q ∧ _expired now s rid = false) ∨
       (rid ∈ OrderedDict.keys (_ce_pending s) ∧ _expired now s rid = true)).
Proof.
  intros HL Hen E. destruct (life_book L s HL) as [Hnd HB].
  destruct (nodup_keys _ _ _ Hnd HB) as (_ & Hk & _). destruct (plan_waits now s s' Hk Hen E) as [Hpool Hdef].
  pose proof (bk_ids _ _ _ (plan_book now [] L s s' Hnd HB E)) as Hids. rewrite app_nil_r in Hids.
  split_and!; [done|intros rid Hr; by apply Hpool| |].
  { intros i q rid _ Hq Hr Hx Hi. destruct (Hdef i Hi) as (q0 & Hq0 & _ & Hc). rewrite Hq in Hq0. injection Hq0 as <-.
    apply can_defer_spec in Hc as [_ Hc]. specialize (Hc rid Hr). congruence. }
  intros i Hi. destruct (Hdef i Hi) as (q & Hq & Hi0 & [Ht Hc]%can_defer_spec).
  destruct (plan_joined now s s' E i q Hi0 Hq) as (q' & Hq' & Hce & Htg). exists q, q'. split_and!; [done..| |].
  - intros Hn. destruct (tg_reqs q) as [|x l]; [done|]. specialize (Htg x ltac:(by left)). rewrite Hn in Htg.
    by apply elem_of_nil in Htg.
  - intros rid Hr. destruct (Hce rid Hr) as [Hr'|[|]]; [left; split; [done|by apply Hc]|by right|done].
Qed.

End Statements.

(** ** A server with six two-token pages *)
#[local] Existing Instance HashProperties.toy_digest.
#[local] Existing Instance recording_backend.
#[local] Existing Instance LoraProperties.path_store.

#[local] Instance no_pipeline : Pipeline := {| pipeline := unit; pipeline_release _ := ret tt |}.
#[local] Instance rationals : Floats := {|
  float := Q;
  f_of_Z := inject_Z;
  int_div a b := Qdiv (inject_Z a) (inject_Z b);
  f_sub := Qminus;
  f_div := Qdiv;
  f_ltb a b := negb (Qle_bool b a);
  f_leb := Qle_bool
|}.
(** No grammar is ever built: the gate is off. *)
#[local] Instance no_builder : GrammarBuilder := {|
  executor := unit;
  future := unit;
  submit_build _ _ e := (tt, e);
  future_done _ _ := true;
  future_result _ _ := inl EmptyString;
  future_cancel _ e := e;
  install_matcher _ x := x;
  enable_response_format_schema := false
|}.

Definition six_pages : PagedKVCacheManager.t :=
  PagedKVCacheManager.mk _ _ (kv_cache_params 1 1 2 true BlockHash.ahash64 None 0 0 false) 6 4 ManagerProperties.empty_manager.

Definition small_config : TokenGenerationSchedulerConfig :=
  scheduler_config_of _ 2 8 None None true 0 false 1 0 None None (inject_Z (-1)) (inject_Z 0) false.
Definition one_replica : Settings := mk_settings _ small_config PER_REPLICA (inject_Z 1) None 1.

(** A prompt of five tokens. *)
Definition asks (rid : Z) : Request recording_backend := mk_request _ (ManagerProperties.prompt rid 0) "base" None None false None.

Definition fresh : t :=
  match init one_replica (six_pages : cache) (tt : pipeline) None None with
  | Ok s => s
  | Raise _ => mk _ _ _ _ _ _ one_replica six_pages tt None None ∅ [] ∅ ∅ [] [] ∅ ∅ None [] [] 0
  end.
Lemma fresh_init : init one_replica (six_pages : cache) (tt : pipeline) None None = Ok fresh.
Proof. reflexivity. Qed.

(** What a call leaves. *)
Definition ran {S X} (f : M S X) (s : S) : S := (f s).2.
Lemma ran_run {S X} (f : M S X) s x : (f s).1 = Ok x → f s = (Ok x, ran f s).
Proof. unfold ran. destruct (f s) as [r s']. simpl. by intros ->. Qed.

Definition noon : float := inject_Z 0.
Definition one_asked : t := ran (enqueue_new_request noon (asks 1) None) fresh.
Definition two_asked : t := ran (enqueue_new_request noon (asks 2) None) one_asked.

Lemma two_asked_life : Life [2; 1] two_asked.
Proof.
  assert (Life [] fresh) as H0 by (eapply life_init; [|exact fresh_init]; discriminate).
  assert (Life [1] one_asked) as H1.
  { apply (life_enqueue [] fresh one_asked noon (asks 1) None H0); [by intros ?%elem_of_nil|].
    apply ran_run. vm_compute. reflexivity. }
  apply (life_enqueue [1] one_asked two_asked noon (asks 2) None H1); [|apply ran_run; vm_compute; reflexivity].
  apply (bool_decide_unpack _). vm_compute. exact I.
Qed.

(** One iteration serves both prompts, the second cut; then the first is released. *)
Definition formed_batch : t := ran (construct_batch noon) two_asked.
Definition stepped : t := ran (advance_requests [[1; 2]]) formed_batch.
Definition one_left : t := ran (release_request 1) stepped.

Lemma one_left_life : Life [2] one_left.
Proof.
  assert (Life [2; 1] stepped) as H1.
  { apply (life_iteration [2; 1] two_asked formed_batch formed_batch stepped noon [[1; 2]]).
    - exact two_asked_life.
    - reflexivity.
    - apply (ran_run (construct_batch noon) two_asked). vm_compute. reflexivity.
    - reflexivity.
    - apply (ran_run (advance_requests [[1; 2]]) formed_batch). vm_compute. reflexivity. }
  apply (life_release [2; 1] stepped one_left 1 H1). apply (ran_run (release_request 1) stepped). vm_compute. reflexivity.
Qed.

Lemma every_request_held_once_witness :
  NoDup [2] ∧ all_ids one_left ≡ₚ [2] ∧ (∀ x n, sits one_left x n → bound_to one_left x n).
Proof. apply (every_request_held_once [2] one_left). exact one_left_life. Defined.

Lemma batches_disjoint_and_bounded_witness :
  len [[1; 2]] = n_replicas two_asked ∧ NoDup (concat [[1; 2]]) ∧
  ∀ i b, [[1; 2]] !! i = Some b → len b ≤ 2 ∧ ∀ x, x ∈ b → x ∈ [2; 1] ∧ bound_to formed_batch x i.
Proof.
  apply (batches_disjoint_and_bounded [2; 1] two_asked noon [[1; 2]] formed_batch).
  - exact two_asked_life.
  - reflexivity.
  - apply (ran_run (construct_batch noon) two_asked). vm_compute. reflexivity.
Defined.

(** Three requests generate; the newest holds the pages the older ones need. *)
Definition crowded : t :=
  TextBatchConstructor.set_kv (PagedKVCacheManager.mk _ _ (PagedKVCacheManager.params six_pages) 6 4
      (Trace.replay [Trace.Claim 1 0; Trace.Claim 2 0; Trace.Claim 3 0; Trace.Allocate (ManagerProperties.prompt 3 0) 0 0]
         ManagerProperties.empty_manager) : cache)
    (set_requests (<[1 := asks 1]> (<[2 := asks 2]> (<[3 := asks 3]> ∅)))
      (TextBatchConstructor.set_replicas [ReplicaRequests.mk [] [1; 2; 3] ∅ []] fresh)).
Definition no_budget : TokenBudgetCollection.t := [Active (TokenBudget.init 20 true all_request_types 0)].
Definition relieved : outcome ReplicaBatch.t * t := _add_tg_requests (ReplicaBatch.mk [] no_budget) 0 crowded.
Definition relieved_batch : ReplicaBatch.t :=
  match relieved.1 with Ok b => b | Raise _ => ReplicaBatch.mk [] [] end.

Lemma token_generation_oldest_first_witness :
  ReplicaBatch.batch relieved_batch = [1; 2] ∧ ∃ waiting out, [1; 2; 3] = [1; 2] ++ waiting ++ out ∧
    ce_reqs <$> replicas relieved.2 = [out].
Proof.
  split; [vm_compute; reflexivity|].
  destruct (token_generation_oldest_first 0 (ReplicaRequests.mk [] [1; 2; 3] ∅ []) no_budget crowded relieved_batch relieved.2)
    as (waiting & out & Hq & _ & Hr & _).
  - discriminate.
  - reflexivity.
  - apply (bool_decide_unpack _). vm_compute. exact I.
  - discriminate.
  - reflexivity.
  - apply (ran_run (_add_tg_requests (ReplicaBatch.mk [] no_budget) 0) crowded). vm_compute. reflexivity.
  - exists waiting, out. split; [exact Hq|]. rewrite Hr. simpl. by rewrite app_nil_r.
Defined.

Definition prefilled : outcome ReplicaBatch.t * t :=
  _add_ce_requests 2 (ReplicaBatch.mk [] (_create_new_token_budget None two_asked)) 0 two_asked.
Definition prefilled_batch : ReplicaBatch.t :=
  match prefilled.1 with Ok b => b | Raise _ => ReplicaBatch.mk [] [] end.

Lemma asked_requests : requests two_asked = <[2 := asks 2]> (<[1 := asks 1]> ∅).
Proof. reflexivity. Qed.

Lemma asked_good : good two_asked.
Proof.
  assert (∀ rid, Trace.good_tokens (ctx (asks rid))) as Hall by (intros rid; apply ManagerProperties.prompt_good; lia).
  intros rid r Hr. rewrite asked_requests in Hr.
  apply lookup_insert_Some in Hr as [[_ <-]|[_ Hr]]; [apply Hall|].
  apply lookup_insert_Some in Hr as [[_ <-]|[_ Hr]]; [apply Hall|]. by rewrite lookup_empty in Hr.
Qed.

Lemma prompt_batch_within_budget_witness :
  ReplicaBatch.batch prefilled_batch = [1; 2] ∧
  (∀ init x, ReplicaBatch.batch prefilled_batch = init ++ [x] → load init prefilled.2 < 8) ∧
  (true = true → load (ReplicaBatch.batch prefilled_batch) prefilled.2 ≤ 8).
Proof.
  split; [vm_compute; reflexivity|].
  apply (prompt_batch_within_budget None 2 0 (ReplicaRequests.mk [1; 2] [] ∅ []) two_asked prefilled_batch prefilled.2).
  - discriminate.
  - reflexivity.
  - apply (bool_decide_unpack _). vm_compute. exact I.
  - exact asked_good.
  - discriminate.
  - apply (ran_run (_add_ce_requests 2 (ReplicaBatch.mk [] (_create_new_token_budget None two_asked)) 0) two_asked).
    vm_compute. reflexivity.
Defined.

(** A prompt that no cache of six pages can hold. *)
Definition long_ask : Request recording_backend :=
  mk_request _ (Ctx.Text (TextContext.mk recording_backend 7 64
    (TokenBuffer.mk (repeat 1 40) (Range.mk 0 40) 0 (Range.mk 40 40) 40 40 false)
    (EOSTracker.init {[ 7 ]} [] []) (Some 100) 0 None None
    GrammarEnforcement.default_state None ACTIVE ∅ true false None None 0)) "base" None None false None.
Definition stuck : t := ran (enqueue_new_request noon long_ask None) fresh.
Definition gave_up : t := ran (_construct_replica_batch 0 None) stuck.

Lemma missing_blocks_reported_only_when_starved_witness :
  (_construct_replica_batch 0 None stuck).1 = Raise InsufficientBlocksError ∧ Starved 0 gave_up.
Proof.
  assert ((_construct_replica_batch 0 None stuck).1 = Raise InsufficientBlocksError) as E by (vm_compute; reflexivity).
  split; [exact E|].
  apply (missing_blocks_reported_only_when_starved 0 (ReplicaRequests.mk [7] [] ∅ []) None stuck gave_up).
  - intros rid x. discriminate.
  - discriminate.
  - reflexivity.
  - apply (bool_decide_unpack _). vm_compute. exact I.
  - discriminate.
  - unfold gave_up, ran. rewrite <- E. apply surjective_pairing.
Defined.

(** ** Two replicas whose cache never fills *)
#[local] Instance unlimited : KVCache := {|
  cache := unit;
  onload := unit;
  onload_complete _ _ := true;
  kv_page_size _ := 2;
  kv_contains _ _ := false;
  kv_claim _ _ := ret tt;
  kv_release _ := ret tt;
  kv_alloc := ret tt;
  kv_get_req_blocks _ := ret [];
  kv_block_count _ := ret (BlockCount.mk 1 1);
  kv_pending_transfers_exist _ := ret false;
  kv_prefix_cache_hit_counts := raise KeyError
|}.

Definition balanced : Settings :=
  mk_settings _ (scheduler_config_of _ 2 8 None None true 0 false 2 0 None None (inject_Z 1000) (inject_Z 1) false)
    PER_REPLICA (inject_Z 1) None 2.
Definition second_fresh : t :=
  match init balanced (tt : cache (KVCache := unlimited)) (tt : pipeline) None None with
  | Ok s => s
  | Raise _ => mk _ _ _ _ _ _ balanced tt tt None None ∅ [] ∅ ∅ [] [] ∅ ∅ None [] [] 0
  end.

Lemma second_init : init balanced (tt : cache (KVCache := unlimited)) (tt : pipeline) None None = Ok second_fresh.
Proof. reflexivity. Qed.

Definition zero_s : float := inject_Z 0.
Definition five_s : float := inject_Z 5.
Definition later : float := (11 # 2)%Q.

(** The first prompt arrives at 0s, the second at 5s; the step is planned at 5.5s. *)
Definition early : t := ran (enqueue_new_request zero_s (asks 1) None) second_fresh.
Definition pooled : t := ran (enqueue_new_request five_s (asks 2) None) early.

Lemma pooled_life : Life [2; 1] pooled.
Proof.
  assert (Life [] second_fresh) as H0 by (eapply life_init; [|exact second_init]; discriminate).
  assert (Life [1] early) as H1.
  { apply (life_enqueue [] second_fresh early zero_s (asks 1) None H0); [by intros ?%elem_of_nil|].
    apply (ran_run (enqueue_new_request zero_s (asks 1) None) second_fresh). vm_compute. reflexivity. }
  apply (life_enqueue [1] early pooled five_s (asks 2) None H1).
  - apply (bool_decide_unpack _). vm_compute. exact I.
  - apply (ran_run (enqueue_new_request five_s (asks 2) None) early). vm_compute. reflexivity.
Qed.

(** *** A prompt past its deadline, bound to a replica that waits *)

(** A request of [n] prompt tokens, the last [g] of which another node generated. *)
Definition sized (rid n g : Z) : Request recording_backend :=
  mk_request _ (Ctx.Text (TextContext.mk recording_backend rid 64
    (TokenBuffer.mk (repeat 1 (Z.to_nat n)) (Range.mk (if g =? 0 then 0 else n - 1) n) 0 (Range.mk n n) (n - g) n false)
    (EOSTracker.init {[ 7 ]} [] []) (Some 100) 0 None None
    GrammarEnforcement.default_state None ACTIVE ∅ true false None None 0)) "base" None None false None.

(** What the forward pass leaves in the requests' contexts. *)
Definition forwarded (batch : list Z) : M t unit :=
  for_each batch (λ rid, on_request rid (Ctx.on_base (TextContext.update 1 None))).

(** Request 1, of 8 tokens, waits in the pool from 0s. At 0.5s come request 2, which
    generates on replica 1, request 3, of 16 tokens, for replica 0, and request 4, of 14,
    for the pool. The iteration runs 8 tokens of requests 3 and 4; the next is at 1s. *)
Definition half_s : float := (1 # 2)%Q.
Definition one_s : float := inject_Z 1.
Definition asked1 : t := ran (enqueue_new_request zero_s (sized 1 8 0) None) second_fresh.
Definition asked2 : t := ran (enqueue_new_request half_s (sized 2 5 1) (Some 1)) asked1.
Definition asked3 : t := ran (enqueue_new_request half_s (sized 3 16 0) (Some 0)) asked2.
Definition asked4 : t := ran (enqueue_new_request half_s (sized 4 14 0) None) asked3.
Definition chunks : t := ran (construct_batch half_s) asked4.
Definition chunks_run : t := ran (forwarded [3; 4]) chunks.
Definition half_way : t := ran (advance_requests [[3]; [4]]) chunks_run.
Definition replanned : t := ran (_plan_ce_step one_s) half_way.

Lemma forwarded_same batch s : Same s (ran (forwarded batch) s).
Proof.
  assert (preserves (Same s) (forwarded batch)) as Hp.
  { apply preserves_for_each. intros rid _. apply quiet_preserves, quiet_on_request. }
  by apply Hp.
Qed.

(** A request enqueued in a reachable state. *)
Lemma asked_life L s now r i :
  Life L s → bool_decide (request_id r ∉ L) = true → (enqueue_new_request now r i s).1 = Ok tt →
  Life (request_id r :: L) (ran (enqueue_new_request now r i) s).
Proof. intros HL Hr E. apply (life_enqueue L s _ now r i HL); [by apply bool_decide_eq_true in Hr|by apply ran_run]. Qed.

Lemma half_way_life : Life [4; 3; 2; 1] half_way.
Proof.
  assert (Life [4; 3; 2; 1] asked4) as H4.
  { apply (asked_life [3; 2; 1] asked3 half_s (sized 4 14 0) None); [|vm_compute; reflexivity..].
    apply (asked_life [2; 1] asked2 half_s (sized 3 16 0) (Some 0)); [|vm_compute; reflexivity..].
    apply (asked_life [1] asked1 half_s (sized 2 5 1) (Some 1)); [|vm_compute; reflexivity..].
    apply (asked_life [] second_fresh zero_s (sized 1 8 0) None); [|vm_compute; reflexivity..].
    eapply life_init; [|exact second_init]; discriminate. }
  apply (life_iteration _ asked4 chunks chunks_run half_way half_s [[3]; [4]] H4); [reflexivity| |apply forwarded_same|].
  - apply (ran_run (construct_batch half_s) asked4). vm_compute. reflexivity.
  - apply (ran_run (advance_requests [[3]; [4]]) chunks_run). vm_compute. reflexivity.
Qed.

(** The planning step binds request 1, past its deadline, to replica 1, whose unfinished
    prompt can wait and does not make the step more even: replica 1 skips context
    encoding, and the iteration runs without request 1. *)
Lemma overdue_prompt_skipped :
  Life [4; 3; 2; 1] half_way ∧ 1 ∈ OrderedDict.keys (_ce_pending half_way) ∧ _expired one_s half_way 1 = true ∧
  ce_reqs <$> replicas replanned = [[3]; [4; 1]] ∧ elements (_ce_deferred_replicas replanned) = [1] ∧
  (construct_batch one_s half_way).1 = Ok [[3]; [2]].
Proof.
  split; [exact half_way_life|]. split; [apply (bool_decide_unpack _); vm_compute; exact I|].
  do 3 (split; [vm_compute; reflexivity|]). vm_compute. reflexivity.
Qed.

Lemma overdue_prompts_are_bound_witness :
  _ce_deferred_replicas replanned = {[ 1 ]} ∧ all_ids replanned ≡ₚ [4; 3; 2; 1] ∧
  0 ∉ _ce_deferred_replicas replanned ∧
  ∃ q q', replicas half_way !! 1%nat = Some q ∧ replicas replanned !! 1%nat = Some q' ∧ 1 ∈ ce_reqs q' ∧ tg_reqs q' ≠ [] ∧
    ∀ rid, rid ∈ ce_reqs q' → (rid ∈ ce_reqs q ∧ _expired one_s half_way rid = false) ∨
      (rid ∈ OrderedDict.keys (_ce_pending half_way) ∧ _expired one_s half_way rid = true).
Proof.
  assert (_ce_deferred_replicas replanned = {[ 1 ]}) as Hd by (vm_compute; reflexivity).
  destruct (overdue_prompts_are_bound [4; 3; 2; 1] half_way one_s replanned) as (Hids & _ & Hover & Hdef).
  - exact half_way_life.
  - vm_compute. reflexivity.
  - apply (ran_run (_plan_ce_step one_s) half_way). vm_compute. reflexivity.
  - split; [exact Hd|]. split; [exact Hids|]. split.
    + apply (Hover 0 (ReplicaRequests.mk [3] [] ∅ []) 3); [discriminate|vm_compute; reflexivity|by left|vm_compute; reflexivity].
    + destruct (Hdef 1) as (q & q' & Hq & Hq' & _ & Ht & Hce).
      { rewrite Hd. apply (bool_decide_unpack _). vm_compute. exact I. }
      exists q, q'. split_and!; [exact Hq|exact Hq'| |exact Ht|exact Hce].
      assert (replicas replanned !! Z.to_nat 1 = Some (ReplicaRequests.mk [4; 1] [2] ∅ [])) as E by (vm_compute; reflexivity).
      rewrite E in Hq'. injection Hq' as <-. right. by left.
Defined.

Lemma unlimited_calls : Calls OutOfFuel.
Proof. by split. Qed.

Lemma iteration_terminates_witness : (construct_batch later pooled).1 ≠ Raise OutOfFuel.
Proof.
  apply (iteration_terminates [2; 1] pooled later); [exact pooled_life|reflexivity|exact unlimited_calls].
Defined.

End BatchProperties.
