(* ===== verification/Scheduler.v ===== *)
(** * The token-generation scheduler (serve/scheduler/text_generation_scheduler.py,
      serve/queue.py, serve/scheduler_result.py, serve/scheduler/utils.py)

    One iteration pulls requests from a queue into the batch constructor, forms a batch,
    executes it, and answers: with the tokens of the requests that ran, with the errors
    of the grammars that failed, and to the clients that cancelled. The pipeline that
    executes batches is a class; the queues are lists. Not modelled: logging, metrics
    and the spans of the tracer. *)

From S2P Require Import Prelude Tokens Eos FreeQueue Pool Grammar Context Hashing Connector Manager ManagerFacts ManagerProperties CacheManager KVInterface Dict Budget Lora Batch.

(** ** Queues *)

(** The loop of [drain_queue] on the items a queue holds: the items taken, and those
    left. *)
Fixpoint drain_from {A} (max_items : option Z) (output q : list A) : list A * list A :=
  if match max_items with Some n => len output >=? n | None => false end then (output, q) else
  match q with
  | [] => (output, [])
  | x :: q => drain_from max_items (output ++ [x]) q
  end.
Definition drain_queue {A} (max_items : option Z) (q : list A) : list A * list A :=
  drain_from max_items [] q.

(** The ids of a cancel queue, and the queue once drained. *)
Definition get_cancelled_reqs (cancel_q : list (list Z)) : list Z * list (list Z) :=
  let '(items, rest) := drain_queue None cancel_q in (concat items, rest).

(** ** Results *)
Module SchedulerResult.

Record t {B : Backend} := mk {
  is_done : bool;
  result : option (TextGenerationOutput.t B);
  error : option string;
  batch_id : option Z
}.
Arguments t B : clear implicits.

Section Result.
Context {B : Backend}.

Definition cancelled : t B := mk _ true None None None.
Definition failed (error : string) : t B := mk _ true None (Some error) None.
Definition create (result : TextGenerationOutput.t B) (batch_id : option Z) : t B :=
  mk _ (TextGenerationOutput.is_done result) (Some result) None batch_id.

End Result.
End SchedulerResult.

(** ** The pipeline that executes batches *)

(** [execute] runs a batch given as request ids: it changes the pipeline, the KV caches
    and the requests' contexts, and answers for requests of this batch or, when it
    overlaps batches, of an earlier one. [has_pending_outputs] is false for a pipeline
    that does not overlap. *)
Class Executor {B : Backend} `{!KVCache, !Pipeline} := {
  execute : list (list Z) → M (cache * pipeline * gmap Z (Request B)) (list (Z * TextGenerationOutput.t B));
  has_pending_outputs : pipeline → bool
}.

Inductive SchedulerProgress := MADE_PROGRESS | NO_PROGRESS.

(** Execute a batch of the constructor's requests. *)
Definition run_pipeline {B : Backend} `{KV : !KVCache, P : Pipeline, F : Floats, G : !GrammarBuilder, A : AdapterStore, !Executor}
    (batches : list (list Z)) : M TextBatchConstructor.t (list (Z * TextGenerationOutput.t B)) := λ s,
  let '(o, (k, p, r)) := execute batches
    (TextBatchConstructor.kv_cache s, TextBatchConstructor.pipeline_state s, TextBatchConstructor.requests s) in
  (o, TextBatchConstructor.set_requests r (TextBatchConstructor.set_pipeline p (TextBatchConstructor.set_kv k s))).

(** [MAX_SERVE_BATCH_PRIORITY]: the strategy a value names, in any case. *)
Definition lower (c : Ascii.ascii) : Ascii.ascii :=
  let n := Ascii.nat_of_ascii c in
  if (Nat.leb 65 n && Nat.leb n 90)%bool then Ascii.ascii_of_nat (n + 32) else c.
Fixpoint lower_string (s : string) : string :=
  match s with EmptyString => EmptyString | String c s => String (lower c) (lower_string s) end.
Definition strategy_of_env (env : option string) : BatchSchedulingStrategy :=
  match env with
  | None => PER_REPLICA
  | Some v =>
      let v := lower_string v in
      if bool_decide (v = "prefill_first"%string) then PREFILL_FIRST else
      if bool_decide (v = "decode_first"%string) then DECODE_FIRST else
      if bool_decide (v = "balanced"%string) then BALANCED else PER_REPLICA
  end.

(** ** The scheduler *)
Module TokenGenerationScheduler.

Record t {B : Backend} `{KV : !KVCache, P : Pipeline, F : Floats, G : !GrammarBuilder, A : AdapterStore} := mk {
  batch_constructor : TextBatchConstructor.t;
  (** the contexts that wait in the request queue, oldest first *)
  request_queue : list (Request B);
  (** every message put on the response queue, oldest first *)
  response_queue : list (list (Z * SchedulerResult.t B));
  cancel_queue : list (list Z);
  max_pending_requests : option Z;
  support_empty_batches : bool;
  max_items_per_drain : Z;
  _batch_counter : Z
}.

Section Scheduler.
Context {B : Backend} `{KV : !KVCache, P : Pipeline, F : Floats, G : !GrammarBuilder, A : AdapterStore, X : !Executor}.
Implicit Types s : t.

Definition set_constructor x s : t :=
  mk _ _ _ _ _ _ x (request_queue s) (response_queue s) (cancel_queue s) (max_pending_requests s)
    (support_empty_batches s) (max_items_per_drain s) (_batch_counter s).
Definition set_request_queue x s : t :=
  mk _ _ _ _ _ _ (batch_constructor s) x (response_queue s) (cancel_queue s) (max_pending_requests s)
    (support_empty_batches s) (max_items_per_drain s) (_batch_counter s).
Definition set_response_queue x s : t :=
  mk _ _ _ _ _ _ (batch_constructor s) (request_queue s) x (cancel_queue s) (max_pending_requests s)
    (support_empty_batches s) (max_items_per_drain s) (_batch_counter s).
Definition set_cancel_queue x s : t :=
  mk _ _ _ _ _ _ (batch_constructor s) (request_queue s) (response_queue s) x (max_pending_requests s)
    (support_empty_batches s) (max_items_per_drain s) (_batch_counter s).
Definition set_batch_counter x s : t :=
  mk _ _ _ _ _ _ (batch_constructor s) (request_queue s) (response_queue s) (cancel_queue s)
    (max_pending_requests s) (support_empty_batches s) (max_items_per_drain s) x.

Definition on_constructor {Y} (f : M TextBatchConstructor.t Y) : M t Y := zoom batch_constructor set_constructor f.
Definition put_response (m : list (Z * SchedulerResult.t B)) : M t unit :=
  modify (λ s, set_response_queue (response_queue s ++ [m]) s).

Definition _retrieve_pending_requests (now : float) : M t unit :=
  let! s := get in
  let available := match max_pending_requests s with
    | None => None
    | Some n => Some (n - len (TextBatchConstructor.all_ce_reqs (batch_constructor s)))
    end in
  if match available with Some n => n <=? 0 | None => false end then ret tt else
  let max_items := match available with
    | None => max_items_per_drain s | Some n => Z.min (max_items_per_drain s) n end in
  let '(items, rest) := drain_queue (Some max_items) (request_queue s) in
  modify (set_request_queue rest);;
  for_each items (λ r, on_constructor (TextBatchConstructor.enqueue_new_request now r None)).

(** The number of requests the batch terminated. *)
Definition _schedule (inputs : list (list Z)) : M t Z :=
  let! s := get in
  let batch_id := _batch_counter s in
  modify (set_batch_counter (batch_id + 1));;
  let! responses := on_constructor (run_pipeline inputs) in
  let! s := get in
  let responses := filter (λ e, TextBatchConstructor.contains e.1 (batch_constructor s) = true) responses in
  on_constructor (TextBatchConstructor.advance_requests inputs);;
  let! terminated := for_fold responses 0 (λ n '(rid, response),
    if TextGenerationOutput.is_done response
    then on_constructor (TextBatchConstructor.release_request rid);; ret (n + 1) else ret n) in
  when (negb (bool_decide (length responses = 0%nat)))
    (put_response (map (λ e, (e.1, SchedulerResult.create e.2 (Some batch_id))) responses));;
  ret terminated.

Definition report_failed '((rid, error) : Z * string) : M t unit :=
  put_response [(rid, SchedulerResult.failed error)].

Definition cancel_request (rid : Z) : M t unit :=
  let! s := get in
  when (TextBatchConstructor.contains rid (batch_constructor s))
    (on_constructor (TextBatchConstructor.release_request rid);;
     put_response [(rid, SchedulerResult.cancelled)]).

(** Cancel the requests the queue names. *)
Definition cancel_requests : M t unit :=
  let! s := get in
  let '(cancelled, rest) := get_cancelled_reqs (cancel_queue s) in
  modify (set_cancel_queue rest);;
  for_each cancelled cancel_request.

Definition run_iteration (now : float) : M t SchedulerProgress :=
  _retrieve_pending_requests now;;
  let! inputs := on_constructor (TextBatchConstructor.construct_batch now) in
  let! failed := on_constructor TextBatchConstructor.take_grammar_failed in
  for_each failed report_failed;;
  let! s := get in
  if negb (negb (bool_decide (concat inputs = [])) || support_empty_batches s
           || has_pending_outputs (TextBatchConstructor.pipeline_state (batch_constructor s)))
  then ret NO_PROGRESS else
  _schedule inputs;;
  cancel_requests;;
  ret MADE_PROGRESS.

(** [__init__], on queues that hold [requests] and [cancels]. *)
Definition init (config : TokenGenerationSchedulerConfig) (env : option string) (tg_priority : float)
    (kv : cache) (pipe : pipeline) (lora : option LoRAManagerV3.t) (gate : option AsyncGrammarGate.t)
    (requests : list (Request B)) (cancels : list (list Z)) (support_empty : bool) (max_pending : option Z)
    : outcome t :=
  match TextBatchConstructor.init (TextBatchConstructor.mk_settings _ config (strategy_of_env env) tg_priority
          None (data_parallel_degree config)) kv pipe lora gate with
  | Raise e => Raise e
  | Ok c => Ok (mk _ _ _ _ _ _ c requests [] cancels max_pending support_empty
                  (max_batch_size config * data_parallel_degree config * 2) 0)
  end.

End Scheduler.
End TokenGenerationScheduler.
