(* ===== verification/SchedulerProperties.v ===== *)
(** * The token-generation scheduler answers every request once

    Where the requests a scheduler has been sent are: waiting in its request queue, held
    by its batch constructor, or answered for good. *)

From S2P Require Import Prelude Tokens Eos FreeQueue Pool Grammar Context Hashing Connector Manager ManagerFacts ManagerProperties CacheManager KVInterface Dict Budget Lora Batch BatchFacts Conservation Spending BatchErrors Planning BatchProperties Scheduler.

(** ** Calls of the constructor that keep its settings *)
Module ConstructorKeeps.
Import ReplicaRequests TextBatchConstructor BatchFacts Conservation.

Section Keeps.
Context {B : Backend} `{KV : !KVCache, P : Pipeline, F : Floats, G : !GrammarBuilder, A : AdapterStore}.

Lemma keeps_zoom_kv {Y} (f : M cache Y) : keeps settings (on_kv f).
Proof. apply (keeps_quiet settings); [exact same_settings|apply quiet_on_kv]. Qed.

Lemma keeps_get : keeps settings (get (S := t)).
Proof. by intros s. Qed.

Lemma enqueue_keeps_settings now r i : keeps settings (enqueue_new_request now r i).
Proof.
  assert (∀ rid, keeps settings (_admit_request now rid i)) as Ha.
  { intros rid. unfold _admit_request, _bind_request. solve_keeps same_settings. }
  unfold enqueue_new_request. apply keeps_bind; [by intros s|intros _]. apply keeps_bind; [by intros s|intros s].
  destruct (_grammar_gate s); [|done]. destruct (_ =? 0); [|done].
  apply keeps_bind; [by apply keeps_on_gate|intros _]. apply keeps_bind; [by apply keeps_on_gate|intros g].
  destruct (negb _); [by intros s'|apply install_keeps_settings].
Qed.

Lemma drop_lora_keeps_settings rid i : keeps settings (drop_lora rid i).
Proof.
  unfold drop_lora. apply keeps_bind; [apply keeps_get|intros s]. apply keeps_bind; [by intros s'|intros _].
  destruct (default None _); [|by intros s']. apply keeps_bind; [apply keeps_get|intros s'].
  unfold when. destruct (negb _); [by apply keeps_on_replica|by intros s''].
Qed.

Lemma release_keeps_settings rid : keeps settings (release_request rid).
Proof.
  unfold release_request. apply keeps_bind; [apply keeps_get|intros s].
  apply keeps_bind; [by destruct (negb _)|intros _].
  destruct (bool_decide _); [|destruct (bool_decide _)]; unfold when.
  - apply keeps_bind; [by intros s'|intros _]. apply keeps_bind; [by destruct (bool_decide _)|intros _].
    apply keeps_bind; [by apply keeps_on_gate|intros _]. apply (keeps_quiet settings); [exact same_settings|apply quiet_release_pipeline].
  - apply keeps_bind; [by intros s'|intros _]. apply keeps_bind; [by intros s'|intros _].
    apply (keeps_quiet settings); [exact same_settings|apply quiet_release_pipeline].
  - apply keeps_bind; [by intros s'|intros _]. apply keeps_bind; [by intros s'|intros _].
    apply keeps_bind; [by destruct (_bound_requests s !! rid)|intros i].
    apply keeps_bind; [by apply keeps_on_replica|intros _]. apply keeps_bind; [apply drop_lora_keeps_settings|intros _].
    apply keeps_bind; [apply keeps_get|intros s1]. apply keeps_bind; [by destruct (kv_contains _ _); [apply keeps_zoom_kv|]|intros _].
    apply keeps_bind; [apply (keeps_quiet settings); [exact same_settings|apply quiet_release_pipeline]|intros _].
    apply keeps_bind; [apply keeps_get|intros s2]. apply keeps_bind; [by destruct (bool_decide _); [apply keeps_on_gate|]|intros _].
    by intros s3.
Qed.

Lemma advance_keeps_settings l : keeps settings (advance_requests l).
Proof.
  unfold advance_requests. apply keeps_bind; [apply keeps_get|intros s].
  apply keeps_bind; [|by intros _; destruct (negb _)]. apply keeps_for_each. intros [i b].
  unfold advance_replica, when. apply keeps_bind.
  { apply keeps_for_each. intros rid. apply keeps_bind; [apply keeps_get|intros s1].
    destruct (contains rid s1); [by apply keeps_on_replica|by intros s2]. }
  intros _. destruct (last b) as [x|]; [|by intros s1]. apply keeps_bind; [apply keeps_get|intros s1].
  destruct (negb _); [by intros s2|]. apply keeps_bind; [apply (keeps_quiet settings); [exact same_settings|apply quiet_request]|intros r].
  destruct (negb _); [by intros s2|]. apply keeps_bind; [apply (keeps_quiet settings); [exact same_settings|apply quiet_replica_at]|intros q].
  apply keeps_bind; [by destruct (bool_decide _)|intros _]. apply keeps_bind; [by apply keeps_on_replica|intros _].
  by apply keeps_on_replica.
Qed.

Lemma keeps_run {Y} (f : M t Y) s y s' : keeps settings f → f s = (Ok y, s') → settings s' = settings s.
Proof. intros Hf E. specialize (Hf s). by rewrite E in Hf. Qed.

(** A request the constructor knows of is one it holds. *)
Lemma held_or_out rid out L s : Book out L s → contains rid s = true → rid ∈ L.
Proof.
  intros [Hp _ Hb _] Hc. rewrite <- Hp. unfold all_ids.
  unfold contains in Hc. rewrite !orb_true_iff, !bool_decide_eq_true in Hc. rewrite !elem_of_app.
  destruct Hc as [[[Hc|Hc]|Hc]|Hc]; [specialize (Hb _ Hc); rewrite elem_of_app in Hb; tauto|tauto|tauto|].
  left; left. unfold ids. rewrite elem_of_app. by right.
Qed.

End Keeps.
End ConstructorKeeps.

(** ** The scheduler *)
Module SchedulerFacts.
Import ReplicaRequests TextBatchConstructor BatchFacts Conservation ConstructorKeeps TokenGenerationScheduler.

(** The requests a sequence of messages answers for good. *)
Definition terminal_of {B : Backend} (m : list (Z * SchedulerResult.t B)) : list Z :=
  (filter (λ e, SchedulerResult.is_done e.2 = true) m).*1.
Definition terminal_ids {B : Backend} (ms : list (list (Z * SchedulerResult.t B))) : list Z := concat (map terminal_of ms).

(** No message is about a request answered for good before. *)
Inductive Silent {B : Backend} : list (list (Z * SchedulerResult.t B)) → Prop :=
| silent_nil : Silent []
| silent_snoc ms m : Silent ms → (∀ x, x ∈ m.*1 → x ∉ terminal_ids ms) → Silent (ms ++ [m]).

Section Facts.
Context {B : Backend} `{KV : !KVCache, P : Pipeline, F : Floats, G : !GrammarBuilder, A : AdapterStore, X : !Executor}.
Implicit Types s : TokenGenerationScheduler.t.

Lemma terminal_snoc ms (m : list (Z * SchedulerResult.t B)) : terminal_ids (ms ++ [m]) = terminal_ids ms ++ terminal_of m.
Proof. unfold terminal_ids. rewrite map_app, concat_app. simpl. by rewrite app_nil_r. Qed.

Lemma on_constructor_ok {Y} (f : M TextBatchConstructor.t Y) s y s' :
  on_constructor f s = (Ok y, s') → ∃ c, f (batch_constructor s) = (Ok y, c) ∧ s' = set_constructor c s.
Proof. unfold on_constructor, zoom. destruct (f _) as [o c]. intros [= -> <-]. eauto. Qed.

(** The books of a scheduler: of the requests [A] sent to it, the constructor holds [L]
    between batches, [out] of them in batches. *)
Record Books (out L A : list Z) s : Prop := {
  bs_nodup : NoDup A;
  bs_held : Book out L (batch_constructor s);
  bs_all : map Batch.request_id (request_queue s) ++ L ++ terminal_ids (response_queue s) ≡ₚ A;
  bs_silent : Silent (response_queue s)
}.

Lemma books_held_nodup out L R s : Books out L R s → NoDup L ∧ ∀ x, x ∈ L → x ∉ terminal_ids (response_queue s).
Proof.
  intros [Hnd _ Ha _]. rewrite <- Ha in Hnd. apply NoDup_app in Hnd as (_ & _ & Hnd).
  by apply NoDup_app in Hnd as (? & ? & _).
Qed.

(** Messages about requests still held, of which [gone] are answered for good. *)
Lemma books_answer out out' L L' gone R m s s' :
  Books out L R s → L ≡ₚ gone ++ L' → Book out' L' (batch_constructor s') → (∀ x, x ∈ m.*1 → x ∈ L) →
  terminal_of m = gone → request_queue s' = request_queue s → response_queue s' = response_queue s ++ [m] →
  Books out' L' R s'.
Proof.
  intros HB HL Hc Hm <- Eq Er. destruct (books_held_nodup _ _ _ _ HB) as [_ Hd]. destruct HB as [Hnd _ Ha Hs].
  split; [done|done| |].
  - rewrite Eq, Er, terminal_snoc, <- Ha, HL. f_equiv. rewrite <- !app_assoc, (Permutation_app_comm (terminal_of m)), <- app_assoc.
    done.
  - rewrite Er. constructor; [done|]. intros x Hx. by apply Hd, Hm.
Qed.

(** *** Requests arrive *)

Lemma drain_from_app {Y} n (out q l rest : list Y) : drain_from n out q = (l, rest) → out ++ q = l ++ rest.
Proof.
  revert out. induction q as [|y q IH]; intros out; simpl.
  - destruct (match n with Some _ => _ | None => _ end); by intros [= <- <-].
  - destruct (match n with Some _ => _ | None => _ end); [by intros [= <- <-]|].
    intros E. apply IH in E. by rewrite <- app_assoc in E.
Qed.

Lemma enqueue_loop now items L s s' :
  Book [] L (batch_constructor s) → NoDup (L ++ map Batch.request_id items) →
  for_each items (λ r, on_constructor (enqueue_new_request now r None)) s = (Ok tt, s') →
  ∃ L', L' ≡ₚ L ++ map Batch.request_id items ∧ Book [] L' (batch_constructor s') ∧
    settings (batch_constructor s') = settings (batch_constructor s) ∧
    s' = set_constructor (batch_constructor s') s.
Proof.
  revert L s. induction items as [|r items IH]; intros L s HB Hnd E; simpl in *.
  { injection E as <-. exists L. rewrite app_nil_r. split_and!; [done|done|done|]. by destruct s. }
  apply bind_ok in E as ([] & s1 & E1 & E). apply on_constructor_ok in E1 as (c & Ec & ->).
  assert (Batch.request_id r ∉ L) as Hr.
  { apply NoDup_app in Hnd as (_ & Hd & _). intros Hin. apply (Hd _ Hin). by left. }
  pose proof (keeps_run _ _ _ _ (enqueue_keeps_settings now r None) Ec) as Hst.
  apply enqueue_book with (L := L) in Ec; [|done|done].
  destruct (IH (Batch.request_id r :: L) (set_constructor c s)) as (L' & HL & HB' & Hs & Es); [done| |done|].
  { by rewrite <- Permutation_middle in Hnd. }
  exists L'. split_and!; [rewrite HL; apply (Permutation_middle L)|done|by rewrite Hs|]. by rewrite Es.
Qed.

Lemma retrieve_books now L R s s' :
  Books [] L R s → _retrieve_pending_requests now s = (Ok tt, s') →
  ∃ L', Books [] L' R s' ∧ settings (batch_constructor s') = settings (batch_constructor s).
Proof.
  intros HB E. unfold _retrieve_pending_requests in E. unfold bind at 1, get in E.
  destruct (match _ with Some _ => _ | None => _ end); [injection E as <-; by exists L|].
  destruct (drain_queue _ _) as [items rest] eqn:Ed. apply drain_from_app in Ed. simpl in Ed.
  unfold bind at 1, modify in E. destruct HB as [Hnd Hc Ha Hs].
  destruct (enqueue_loop now items L (set_request_queue rest s) s') as (L' & HL & HB' & Hst & Es); [done| |done|].
  - rewrite Ed, map_app in Ha. rewrite <- Ha in Hnd. apply NoDup_app in Hnd as (Hnd1 & Hd & Hnd2).
    apply NoDup_app in Hnd1 as (Hnd1 & _ & _). apply NoDup_app in Hnd2 as (Hnd2 & _ & _).
    apply NoDup_app. split_and!; [done| |done]. intros x Hx Hi. apply (Hd x); rewrite elem_of_app; by left.
  - exists L'. rewrite Es. split; [|done]. split; [done|by rewrite Es in HB'| |done]. simpl. rewrite <- Ha, Ed, map_app, HL.
    rewrite (Permutation_app_comm L), <- !app_assoc. apply Permutation_app_swap_app.
Qed.

(** *** Requests leave *)

Lemma release_books rid L R s s' :
  Books [] L R s → on_constructor (release_request rid) s = (Ok tt, s') →
  ∃ L', L ≡ₚ rid :: L' ∧ Book [] L' (batch_constructor s') ∧ settings (batch_constructor s') = settings (batch_constructor s) ∧
    s' = set_constructor (batch_constructor s') s.
Proof.
  intros HB E. apply on_constructor_ok in E as (c & Ec & ->).
  destruct (release_book rid L (batch_constructor s) c) as (L' & HL & HB'); [by eapply books_held_nodup|apply HB|done|].
  pose proof (keeps_run _ _ _ _ (release_keeps_settings rid) Ec) as Hst. by exists L'.
Qed.

Lemma cancel_books rid L R s s' :
  Books [] L R s → cancel_request rid s = (Ok tt, s') →
  ∃ L', Books [] L' R s' ∧ settings (batch_constructor s') = settings (batch_constructor s).
Proof.
  intros HB E. unfold cancel_request in E. unfold bind at 1, get, when in E.
  destruct (contains rid (batch_constructor s)) eqn:Hc; [|injection E as <-; by exists L].
  apply bind_ok in E as ([] & s1 & E1 & E). destruct (release_books rid L R s s1 HB E1) as (L' & HL & HB' & Hst & Es).
  unfold put_response, modify in E. injection E as <-. exists L'. set (c := batch_constructor s1) in *. clearbody c. subst s1. split; [|done].
  apply (books_answer [] [] L L' [rid] R [(rid, SchedulerResult.cancelled)] s); try done.
  intros x Hx. apply list_elem_of_singleton in Hx as ->. eapply held_or_out; [apply HB|done].
Qed.

Lemma cancel_loop rids L R s s' :
  Books [] L R s → for_each rids cancel_request s = (Ok tt, s') →
  ∃ L', Books [] L' R s' ∧ settings (batch_constructor s') = settings (batch_constructor s).
Proof.
  revert L s. induction rids as [|rid rids IH]; intros L s HB E; simpl in E; [injection E as <-; by exists L|].
  apply bind_ok in E as ([] & s1 & E1 & E). destruct (cancel_books rid L R s s1 HB E1) as (L1 & HB1 & Hst).
  destruct (IH L1 s1 HB1 E) as (L' & HB' & Hst'). exists L'. by rewrite Hst', Hst.
Qed.

Lemma cancel_requests_books L R s s' :
  Books [] L R s → cancel_requests s = (Ok tt, s') →
  ∃ L', Books [] L' R s' ∧ settings (batch_constructor s') = settings (batch_constructor s).
Proof.
  intros [] E. unfold cancel_requests in E. unfold bind at 1, get in E. destruct (get_cancelled_reqs _) as [ids rest].
  unfold bind at 1, modify in E. by eapply (cancel_loop ids L R (set_cancel_queue rest s)).
Qed.

(** *** A batch runs *)

Lemma run_pipeline_same inputs c : Same c (run_pipeline inputs c).2.
Proof. unfold run_pipeline. by destruct (execute _ _) as [o [[k p] r]]. Qed.

(** The loop that releases the requests that are done. *)
Definition release_done (responses : list (Z * TextGenerationOutput.t B)) (n : Z) : M TokenGenerationScheduler.t Z :=
  for_fold responses n (λ n '(rid, response),
    if TextGenerationOutput.is_done response
    then on_constructor (release_request rid);; ret (n + 1) else ret n).

Definition done_ids (responses : list (Z * TextGenerationOutput.t B)) : list Z :=
  (filter (λ e, TextGenerationOutput.is_done e.2 = true) responses).*1.

Lemma release_done_books responses n L s n' s' :
  NoDup L → Book [] L (batch_constructor s) → release_done responses n s = (Ok n', s') →
  ∃ L', L ≡ₚ done_ids responses ++ L' ∧ Book [] L' (batch_constructor s') ∧
    settings (batch_constructor s') = settings (batch_constructor s) ∧ s' = set_constructor (batch_constructor s') s.
Proof.
  revert n L s. induction responses as [|[rid o] responses IH]; intros n L s Hnd HB E; unfold release_done in E; simpl in E.
  { injection E as <- <-. exists L. split_and!; [done|done|done|]. by destruct s. }
  unfold done_ids. rewrite filter_cons. simpl. destruct (TextGenerationOutput.is_done o) eqn:Ed; simpl.
  - apply bind_ok in E as (m & s1 & E1 & E). apply bind_ok in E1 as ([] & s2 & E2 & E1). injection E1 as _ <-.
    apply on_constructor_ok in E2 as (c & Ec & ->).
    destruct (release_book rid L (batch_constructor s) c Hnd HB Ec) as (L1 & HL & HB1).
    pose proof (keeps_run _ _ _ _ (release_keeps_settings rid) Ec) as Hst.
    pose proof Hnd as Hnd1. rewrite HL in Hnd1. apply NoDup_cons in Hnd1 as [_ Hnd1].
    destruct (IH m L1 (set_constructor c s) Hnd1 HB1 E) as (L' & HL' & HB' & Hst' & Es).
    exists L'. split_and!; [|done|by rewrite Hst'|by rewrite Es]. rewrite HL, HL'. done.
  - unfold bind at 1, ret at 1 in E. by apply (IH n L s).
Qed.

Lemma terminal_created (id : option Z) (l : list (Z * TextGenerationOutput.t B)) :
  terminal_of (map (λ e, (e.1, SchedulerResult.create e.2 id)) l) = done_ids l.
Proof.
  unfold terminal_of, done_ids. induction l as [|[x o] l IH]; [done|]. simpl. rewrite !filter_cons. simpl.
  destruct (TextGenerationOutput.is_done o); simpl; [f_equal|]; exact IH.
Qed.

(** After the batches were formed: the batches [inputs], whose requests taken from the
    queues are [ces]. *)
Definition In_batch (inputs ces : list (list Z)) (c : TextBatchConstructor.t) : Prop :=
  Forall3 (Parted (max_batch_size (config c)) c) (zrange 0 (n_replicas c)) inputs ces.

Lemma in_batch_rest inputs ces c c' :
  Rest (set_grammar_failed (_grammar_failed c') c) c' → replicas c' = replicas c → In_batch inputs ces c → In_batch inputs ces c'.
Proof.
  intros HR Hr HF. unfold In_batch, n_replicas, config in *. rewrite (rs_settings _ _ HR).
  eapply (parted_all_after _ (set_grammar_failed (_grammar_failed c') c)); [done| |exact HF].
  intros i _ _. by rewrite Hr.
Qed.

Lemma schedule_books inputs ces L R s n s' :
  Books (concat ces) L R s → In_batch inputs ces (batch_constructor s) → _schedule inputs s = (Ok n, s') →
  ∃ L', Books [] L' R s' ∧ settings (batch_constructor s') = settings (batch_constructor s).
Proof.
  intros HB HF E. unfold _schedule in E. unfold bind at 1, get in E. unfold bind at 1, modify in E.
  destruct (books_held_nodup _ _ _ _ HB) as [HndL _].
  apply bind_ok in E as (rs & s1 & E1 & E). apply on_constructor_ok in E1 as (c1 & E1 & ->).
  pose proof (run_pipeline_same inputs (batch_constructor s)) as S1. cbn in E1. rewrite E1 in S1. simpl in S1.
  unfold bind at 1, get in E. cbv beta in E. set (kept := filter _ rs) in E.
  apply bind_ok in E as ([] & s2 & E2 & E). apply on_constructor_ok in E2 as (c2 & E2 & ->). simpl in E2.
  pose proof (keeps_run _ _ _ _ (advance_keeps_settings inputs) E2) as Hst2.
  assert (Book (concat ces) L c1) as HB1 by (eapply book_same; [done|apply HB]).
  assert (∀ x, x ∈ kept.*1 → x ∈ L) as Hk.
  { intros x Hx. apply list_elem_of_fmap in Hx as (e & -> & He). apply list_elem_of_filter in He as [Hc _]. cbv beta in Hc. simpl in Hc.
    pose proof (held_or_out e.1 _ L c1 HB1 Hc). done. }
  apply (advance_requests_book (max_batch_size (config (batch_constructor s))) inputs ces L) in E2; [|done|done|].
  2: { unfold n_replicas. rewrite (same_settings _ _ S1).
       eapply parted_all_after; [by apply rest_same| |exact HF]. intros i _ _. by rewrite (same_replicas _ _ S1). }
  apply bind_ok in E as (done & s3 & E3 & E).
  match type of E3 with _ ?y = _ => destruct (release_done_books kept 0 L y done s3 HndL E2 E3) as (L' & HL & HB' & Hst & Es) end.
  simpl in Hst. assert (settings (batch_constructor s3) = settings (batch_constructor s)) as Hall.
  { rewrite Hst, Hst2. by apply same_settings. }
  set (c3 := batch_constructor s3) in *. clearbody c3. subst s3.
  exists L'. unfold when in E. destruct (bool_decide _) eqn:Ek; simpl in E.
  - injection E as _ <-. apply bool_decide_eq_true, nil_length_inv in Ek. rewrite Ek in HL. unfold done_ids in HL. simpl in HL.
    split; [|done]. destruct HB as [Hnd _ Ha Hs]. by split; try done; simpl; rewrite <- HL.
  - unfold bind, put_response, modify, ret in E. injection E as _ <-. split; [|done].
    eapply (books_answer (concat ces) [] L L' (done_ids kept)); try done.
    + intros x Hx. apply Hk. rewrite <- list_fmap_compose in Hx. done.
    + apply terminal_created.
Qed.

(** *** An iteration *)

Lemma failed_loop failed s s' :
  for_each failed report_failed s = (Ok tt, s') →
  s' = set_response_queue (response_queue s ++ map (λ e, [(e.1, SchedulerResult.failed e.2)]) failed) s.
Proof.
  revert s. induction failed as [|[x msg] failed IH]; intros s E; simpl in E.
  { injection E as <-. rewrite app_nil_r. by destruct s. }
  unfold bind at 1, put_response, modify in E. apply IH in E. rewrite E. simpl. by rewrite <- app_assoc.
Qed.

Lemma failed_books failed out L L' R s s' :
  Books out L R s → L ≡ₚ failed.*1 ++ L' → Book out L' (batch_constructor s') → request_queue s' = request_queue s →
  response_queue s' = response_queue s ++ map (λ e, [(e.1, SchedulerResult.failed e.2)]) failed →
  Books out L' R s'.
Proof.
  intros [Hnd _ Ha Hs] HL Hc Eq Er.
  assert (terminal_ids (map (λ e : Z * string, [(e.1, SchedulerResult.failed (B := B) e.2)]) failed) = failed.*1) as Ht.
  { clear. induction failed as [|[x m] l IH]; [done|]. simpl. unfold terminal_ids in *. simpl. by rewrite IH. }
  assert (terminal_ids (response_queue s') = terminal_ids (response_queue s) ++ failed.*1) as Et.
  { rewrite Er, <- Ht. unfold terminal_ids. by rewrite map_app, concat_app. }
  assert (NoDup (failed.*1 ++ L' ++ terminal_ids (response_queue s))) as Hnd'.
  { rewrite <- Ha in Hnd. apply NoDup_app in Hnd as (_ & _ & Hnd). by rewrite HL, <- app_assoc in Hnd. }
  split; [done|done| |].
  - rewrite Eq, Et, <- Ha, HL. f_equiv. rewrite <- app_assoc, (Permutation_app_comm (terminal_ids _)).
    apply Permutation_app_swap_app.
  - rewrite Er. clear -Hs Hnd'.
    assert (NoDup (failed.*1 ++ terminal_ids (response_queue s))) as Hn.
    { apply NoDup_app in Hnd' as (H1 & H2 & H3). apply NoDup_app in H3 as (_ & _ & H3). apply NoDup_app. split_and!; [done| |done].
      intros x Hx Hr. apply (H2 x Hx). rewrite elem_of_app. by right. }
    clear Hnd'. revert Hs Hn. generalize (response_queue s). clear s. induction failed as [|[x m] l IH]; intros ms Hs Hn; simpl.
    { by rewrite app_nil_r. }
    rewrite cons_middle, app_assoc. simpl in Hn. apply NoDup_cons in Hn as [Hx Hn]. rewrite elem_of_app in Hx. apply IH.
    + constructor; [done|]. intros y Hy. apply list_elem_of_singleton in Hy as ->. tauto.
    + rewrite terminal_snoc. unfold terminal_of at 1. simpl. apply NoDup_app in Hn as (H1 & H2 & H3).
      apply NoDup_app. split_and!; [done| |].
      * intros y Hy. rewrite elem_of_app, list_elem_of_singleton. intros [Hr| ->]; [by apply (H2 y)|tauto].
      * apply NoDup_app. split_and!; [done| |apply NoDup_singleton]. intros y Hy Hyx. apply list_elem_of_singleton in Hyx as ->. tauto.
Qed.

Lemma parted_empty size c l inputs ces : Forall3 (Parted size c) l inputs ces → concat inputs = [] → concat ces = [].
Proof.
  induction 1 as [|i b ce l bs ces (tg & q & -> & _) _ IH]; [done|]. simpl. intros [[Ht Hc]%app_eq_nil Hr]%app_eq_nil.
  by rewrite Hc, IH.
Qed.

Lemma iteration_books now L R s p s' :
  Books [] L R s → 0 < max_batch_size (config (batch_constructor s)) → run_iteration now s = (Ok p, s') →
  ∃ L', Books [] L' R s' ∧ settings (batch_constructor s') = settings (batch_constructor s).
Proof.
  intros HB Hm E. unfold run_iteration in E. apply bind_ok in E as ([] & s1 & E1 & E).
  destruct (retrieve_books now L R s s1 HB E1) as (L1 & HB1 & Hst1).
  destruct (books_held_nodup _ _ _ _ HB1) as [Hnd1 _].
  apply bind_ok in E as (inputs & s2 & E2 & E). apply on_constructor_ok in E2 as (c2 & E2 & ->).
  apply (construct_batch_book now L1) in E2 as (ces & HB2 & Hst2 & HF); [|done|apply HB1|unfold config in *; rewrite Hst1; lia].
  apply bind_ok in E as (failed & s3 & E3 & E). apply on_constructor_ok in E3 as (c3 & E3 & ->). simpl in E3.
  destruct (take_failed_book (concat ces) L1 c2 failed c3 HB2 E3) as (L2 & HL & HB3 & HR & Hr).
  assert (In_batch inputs ces c3) as HF3.
  { apply (in_batch_rest inputs ces c2); [|done|].
    - unfold take_grammar_failed, bind, get, modify, ret in E3. injection E3 as _ <-. done.
    - unfold In_batch, n_replicas, config in *. by rewrite Hst2. }
  assert (settings c3 = settings (batch_constructor s)) as Hst3 by (rewrite <- Hst1, <- Hst2; apply HR).
  apply bind_ok in E as ([] & s4 & E4 & E). apply failed_loop in E4. simpl in E4.
  assert (Books (concat ces) L2 R s4) as HB4.
  { apply (failed_books failed (concat ces) L1 L2 R (set_constructor c2 s1)); [|done|by rewrite E4..].
    destruct HB1. by split. }
  assert (batch_constructor s4 = c3) as Hc4 by by rewrite E4.
  unfold bind at 1, get in E. destruct (negb _) eqn:Eg.
  - injection E as _ <-. exists L2. rewrite Hc4. split; [|done]. apply negb_true_iff in Eg. rewrite !orb_false_iff in Eg.
    destruct Eg as [[Eg _] _]. apply negb_false_iff, bool_decide_eq_true in Eg. rewrite (parted_empty _ _ _ _ _ HF3 Eg) in HB4. done.
  - apply bind_ok in E as (n & s5 & E5 & E). rewrite <- Hc4 in HF3.
    destruct (schedule_books inputs ces L2 R s4 n s5 HB4 HF3 E5) as (L3 & HB5 & Hst5).
    apply bind_ok in E as ([] & s6 & E6 & E). injection E as _ <-.
    destruct (cancel_requests_books L3 R s5 s6 HB5 E6) as (L4 & HB6 & Hst6). exists L4. by rewrite Hst6, Hst5, Hc4.
Qed.

(** *** A scheduler in use *)

(** What happens to a scheduler, and the requests sent to it: requests with new ids and
    cancellations arrive in its queues, the cache and the pipeline work in between, and
    iterations run. *)
Inductive Serving : list Z → TokenGenerationScheduler.t → Prop :=
| serving_start config env tg kv pipe lora gate empty maxp s :
    check_config config = Ok tt → 0 ≤ data_parallel_degree config →
    TokenGenerationScheduler.init config env tg kv pipe lora gate [] [] empty maxp = Ok s → Serving [] s
| serving_request R s r :
    Serving R s → Batch.request_id r ∉ R → Serving (Batch.request_id r :: R) (set_request_queue (request_queue s ++ [r]) s)
| serving_cancel R s rids : Serving R s → Serving R (set_cancel_queue (cancel_queue s ++ [rids]) s)
| serving_outside R s c : Serving R s → Same (batch_constructor s) c → Serving R (set_constructor c s)
| serving_iteration R s now p s' : Serving R s → run_iteration now s = (Ok p, s') → Serving R s'.

Lemma serving_books R s : Serving R s → (∃ L, Books [] L R s) ∧ 0 < max_batch_size (config (batch_constructor s)).
Proof.
  induction 1 as [config env tg kv pipe lora gate empty maxp s Hc Hd E|R s r HS [[L HB] Hm] Hr|R s rids HS [[L HB] Hm]
    |R s c HS [[L HB] Hm] HSame|R s now p s' HS [[L HB] Hm] E].
  - unfold TokenGenerationScheduler.init in E. destruct (TextBatchConstructor.init _ _ _ _ _) as [c|] eqn:Ei; [|done]. injection E as <-. simpl. split.
    + exists []. split; [constructor| |done|constructor]. simpl. eapply init_book; [|exact Ei]. done.
    + unfold TextBatchConstructor.init in Ei. destruct (_ && _); [done|]. injection Ei as <-. simpl. unfold check_config in Hc.
      destruct (max_batch_size config <=? 0) eqn:Em; [done|]. apply Z.leb_gt in Em. done.
  - split; [|done]. exists L. destruct HB as [Hnd Hb Ha Hs]. split; [by constructor|done| |done]. simpl.
    rewrite map_app, <- app_assoc. simpl. by rewrite <- Permutation_middle, Ha.
  - split; [|done]. exists L. destruct HB. by split.
  - split; [|unfold config in *; simpl; by rewrite (same_settings _ _ HSame)]. exists L. destruct HB. split; try done. by eapply book_same.
  - destruct (iteration_books now L R s p s' HB Hm E) as (L' & HB' & Hst). split; [by exists L'|]. unfold config in *. by rewrite Hst.
Qed.

(** *** The pending requests *)

(** Every request that counts as pending is one of [D]. *)
Definition Pending_in (D : list Z) (c : TextBatchConstructor.t) : Prop :=
  (∀ q x, q ∈ replicas c → x ∈ ce_reqs q → x ∈ D) ∧ (∀ x, x ∈ OrderedDict.keys (_ce_pending c) → x ∈ D) ∧
  (∀ x, x ∈ OrderedDict.keys (_grammar_pending c) → x ∈ D) ∧ ∀ x, x ∈ OrderedDict.keys (_onloading_reqs c) → x ∈ D.

Lemma all_ce_elem c x :
  x ∈ all_ce_reqs c ↔ (∃ q, q ∈ replicas c ∧ x ∈ ce_reqs q) ∨ x ∈ OrderedDict.keys (_ce_pending c) ∨
    x ∈ OrderedDict.keys (_grammar_pending c) ∨ x ∈ OrderedDict.keys (_onloading_reqs c).
Proof.
  unfold all_ce_reqs. rewrite OrderedIds.elem_of_pushes, !elem_of_app, elem_of_nil.
  assert (x ∈ concat (map ce_reqs (replicas c)) ↔ ∃ q, q ∈ replicas c ∧ x ∈ ce_reqs q) as ->; [|tauto].
  rewrite list_elem_of_In, in_concat. split.
  - intros (l & Hl & Hx). apply in_map_iff in Hl as (q & <- & Hq). exists q. by rewrite !list_elem_of_In.
  - intros (q & Hq & Hx). exists (ce_reqs q). rewrite <- !list_elem_of_In. split; [|done]. by apply list_elem_of_fmap_2.
Qed.

Lemma pending_in_all D c : Pending_in D c ↔ ∀ x, x ∈ all_ce_reqs c → x ∈ D.
Proof.
  unfold Pending_in. split.
  - intros (H1 & H2 & H3 & H4) x Hx. apply all_ce_elem in Hx as [(q & Hq & Hx)|[Hx|[Hx|Hx]]]; eauto.
  - intros H. split_and!; intros; apply H, all_ce_elem; eauto.
Qed.

Lemma pending_same D c c' : Same c c' → Pending_in D c → Pending_in D c'.
Proof. unfold Pending_in. intros HS. by rewrite (same_replicas _ _ HS), (same_pending _ _ HS), (same_grammar _ _ HS), (same_onloading _ _ HS). Qed.

Lemma pending_quiet {Y} D (f : M TextBatchConstructor.t Y) : quiet f → preserves (Pending_in D) f.
Proof. intros Hf c Hc. exact (pending_same D c _ (Hf c) Hc). Qed.

Lemma pending_gate {Y} D (f : M AsyncGrammarGate.t Y) : preserves (Pending_in D) (on_gate f).
Proof. intros c Hc. unfold on_gate. destruct (_grammar_gate c); [|done]. by destruct (f _). Qed.

Lemma pending_replica D i f :
  (∀ q, (∀ x, x ∈ ce_reqs q → x ∈ D) → ∀ x, x ∈ ce_reqs (f q) → x ∈ D) → preserves (Pending_in D) (on_replica i f).
Proof.
  intros Hf c (H1 & H2). unfold on_replica, replica_at, bind, get.
  destruct (py_index (replicas c) i) as [q|] eqn:Eq; simpl; [|done]. split; [|done]. simpl. intros q' x Hq' Hx.
  apply list_elem_of_lookup in Hq' as [k Hk]. apply list_lookup_insert_Some in Hk as [(_ & <- & _)|[_ Hk]].
  - apply (Hf q); [|done]. intros y. apply H1. unfold py_index in Eq. destruct (_ || _); [done|]. by eapply list_elem_of_lookup_2.
  - exact (H1 q' x (list_elem_of_lookup_2 _ _ _ Hk) Hx).
Qed.

Lemma pending_bind D rid i : rid ∈ D → preserves (Pending_in D) (_bind_request rid i).
Proof.
  intros Hr. unfold _bind_request. apply preserves_bind; [apply pending_quiet, quiet_replica_at|intros _].
  apply preserves_bind; [apply pending_quiet, quiet_request|intros r].
  apply preserves_bind; [by apply preserves_modify|intros _]. apply preserves_bind; [by apply preserves_modify|intros _].
  destruct (_ =? 0); apply pending_replica; simpl; intros q Hq x; [|apply Hq].
  rewrite OrderedIds.elem_of_push. intros [->|Hx]; [done|by apply Hq].
Qed.

Lemma pending_admit D now rid i : rid ∈ D → preserves (Pending_in D) (_admit_request now rid i).
Proof.
  intros Hr. unfold _admit_request. apply preserves_bind; [apply pending_quiet, quiet_request|intros r].
  apply preserves_bind; [apply preserves_get|intros c]. destruct (_ && _ && _).
  - apply preserves_bind; [apply pending_quiet, quiet_post_weights|intros w].
    apply preserves_bind; [|by intros _; apply preserves_modify]. apply preserves_modify. intros s (H1 & H2 & H3).
    split; [done|]. split; [|done]. simpl. intros x Hx. apply OrderedDict.elem_of_keys_set in Hx as [->|Hx]; [done|by apply H2].
  - apply preserves_bind; [|by intros k; apply pending_bind]. destruct i; [apply preserves_ret|apply pending_quiet, quiet_next_replica].
Qed.

Lemma pending_enqueue D now r i :
  Batch.request_id r ∈ D →
  preserves (Pending_in D) (enqueue_new_request now r i).
Proof.
  intros Hr. unfold enqueue_new_request. apply preserves_bind; [apply pending_quiet, quiet_put_request|intros _].
  apply preserves_bind; [apply preserves_get|intros c]. destruct (_grammar_gate c); [|by apply pending_admit].
  destruct (_ =? 0); [|by apply pending_admit].
  apply preserves_bind; [apply pending_gate|intros _]. apply preserves_bind; [apply pending_gate|intros g].
  destruct (negb _).
  - apply preserves_modify. intros s (H1 & H2 & H3 & H4). split; [done|]. split; [done|]. split; [|done].
    simpl. intros x Hx. apply OrderedDict.elem_of_keys_set in Hx as [->|Hx]; [done|by apply H3].
  - unfold install_and_admit. apply preserves_bind; [apply pending_quiet, quiet_request|intros r'].
    apply preserves_bind; [apply pending_gate|intros [msg|r'']].
    + unfold _fail_grammar_request. apply preserves_bind; [apply pending_quiet, quiet_release_pipeline|intros _].
      by apply preserves_modify.
    + apply preserves_bind; [apply pending_quiet, quiet_put_request|intros _]. by apply pending_admit.
Qed.


Lemma drain_from_bound {Y} n (out q l rest : list Y) :
  drain_from (Some n) out q = (l, rest) → len l ≤ Z.max n (len out).
Proof.
  revert out. induction q as [|y q IH]; intros out; simpl; destruct (len out >=? n) eqn:E.
  - intros [= <- <-]. lia.
  - intros [= <- <-]. lia.
  - intros [= <- <-]. lia.
  - intros E'. apply IH in E'. rewrite len_app in E'. unfold len in *. simpl in *. lia.
Qed.

Lemma pending_loop D now items s :
  (∀ x, x ∈ map Batch.request_id items → x ∈ D) → Pending_in D (batch_constructor s) →
  let s' := (for_each items (λ r, on_constructor (enqueue_new_request now r None)) s).2 in
  Pending_in D (batch_constructor s') ∧ request_queue s' = request_queue s.
Proof.
  revert s. induction items as [|r items IH]; intros s Hi Hp; [by split|]. cbn [for_each].
  pose proof (pending_enqueue D now r None (Hi _ ltac:(by left)) (batch_constructor s) Hp) as Hp'.
  destruct (enqueue_new_request now r None (batch_constructor s)) as [o c] eqn:Ec.
  assert (on_constructor (enqueue_new_request now r None) s = (o, set_constructor c s)) as E.
  { unfold on_constructor, zoom. by rewrite Ec. }
  unfold bind. rewrite E. simpl in Hp'. destruct o; [|by split]. apply (IH (set_constructor c s)); [|done].
  intros x Hx. apply Hi. by right.
Qed.

Lemma retrieve_bound now s n :
  max_pending_requests s = Some n →
  let s' := (_retrieve_pending_requests now s).2 in
  len (all_ce_reqs (batch_constructor s')) ≤ Z.max n (len (all_ce_reqs (batch_constructor s))) ∧
  ∃ items, request_queue s = items ++ request_queue s' ∧ len items ≤ Z.max 0 (max_items_per_drain s).
Proof.
  intros Hn. cbv zeta. unfold _retrieve_pending_requests, bind, get. rewrite Hn. cbv beta iota zeta.
  destruct (_ <=? 0) eqn:E; simpl; [split; [lia|]; exists []; split; [done|unfold len; simpl; lia]|]. apply Z.leb_gt in E.
  set (avail := n - len (all_ce_reqs (batch_constructor s))) in *.
  destruct (drain_queue _ _) as [items rest] eqn:Ed. pose proof (drain_from_app _ _ _ _ _ Ed) as Ha.
  pose proof (drain_from_bound _ _ _ _ _ Ed) as Hb. simpl in Ha. unfold modify.
  set (D := all_ce_reqs (batch_constructor s) ++ map Batch.request_id items).
  destruct (pending_loop D now items (set_request_queue rest s)) as [Hp Hq].
  - intros x Hx. unfold D. rewrite elem_of_app. by right.
  - apply pending_in_all. intros x Hx. unfold D. rewrite elem_of_app. by left.
  - simpl in Hq. split; [|exists items; rewrite Hq; split; [done|unfold len in *; simpl in *; lia]].
    set (s' := (for_each _ _ _).2) in *.
    assert (len (all_ce_reqs (batch_constructor s')) ≤ len D) as HD.
    { unfold len. apply inj_le, submseteq_length, NoDup_submseteq; [apply OrderedIds.NoDup_pushes; constructor|].
      by apply pending_in_all. }
    unfold D in HD. rewrite len_app in HD. unfold len in HD at 3. rewrite length_map in HD. unfold len in *. simpl in *. lia.
Qed.

End Facts.
End SchedulerFacts.

Module SchedulerProperties.
Import TextBatchConstructor BatchFacts Conservation TokenGenerationScheduler SchedulerFacts.

Section Statements.
Context {B : Backend} `{KV : !KVCache, P : Pipeline, F : Floats, G : !GrammarBuilder, A : AdapterStore, X : !Executor}.

(** C13: every request is answered once. In a scheduler in use, each request it was sent
    is in exactly one of three places: the request queue, the batch constructor, or the
    messages that answer for good (the last tokens, an error, a cancellation), which
    name it once; and no message is about a request answered for good before. *)
Theorem every_request_answered_once R s :
  Serving R s →
  NoDup R ∧ map Batch.request_id (request_queue s) ++ all_ids (batch_constructor s) ++ terminal_ids (response_queue s) ≡ₚ R ∧
  Silent (response_queue s).
Proof.
  intros HS. destruct (serving_books R s HS) as [[L [Hnd Hb Ha Hs]] _]. split_and!; [done| |done].
  rewrite <- Ha. pose proof (bk_ids _ _ _ Hb) as Hids. rewrite app_nil_r in Hids. by rewrite Hids.
Qed.

(** Backpressure. With a cap on the pending requests, pulling from the request queue
    never takes them past the cap (nor past their number before the call): the excess
    stays in the queue, which is served from its head, at most a drain's worth at a
    time. *)
Theorem pending_requests_capped now s n :
  max_pending_requests s = Some n →
  let s' := (_retrieve_pending_requests now s).2 in
  len (all_ce_reqs (batch_constructor s')) ≤ Z.max n (len (all_ce_reqs (batch_constructor s))) ∧
  ∃ items, request_queue s = items ++ request_queue s' ∧ len items ≤ Z.max 0 (max_items_per_drain s).
Proof. apply retrieve_bound. Qed.

End Statements.

(** ** A server whose pipeline ends the first request of each batch *)
#[local] Existing Instance HashProperties.toy_digest.
#[local] Existing Instance recording_backend.
#[local] Existing Instance LoraProperties.path_store.
#[local] Existing Instance BatchProperties.no_pipeline.
#[local] Existing Instance BatchProperties.rationals.
#[local] Existing Instance BatchProperties.no_builder.

#[local] Instance ends_first : Executor := {|
  execute batches := λ w, (Ok (omap (λ b, match b with
      | [] => None
      | x :: _ => Some (x, TextGenerationOutput.mk _ x [5] None END_OF_SEQUENCE None)
      end) batches), w);
  has_pending_outputs _ := false
|}.

Definition server : TokenGenerationScheduler.t :=
  match TokenGenerationScheduler.init BatchProperties.small_config (Some "Balanced"%string) (BatchProperties.noon : float)
          (BatchProperties.six_pages : cache) (tt : pipeline) None None [] [] false (Some 1) with
  | Ok s => s
  | Raise _ => mk _ _ _ _ _ _ BatchProperties.fresh [] [] [] None false 0 0
  end.
Lemma server_init :
  TokenGenerationScheduler.init BatchProperties.small_config (Some "Balanced"%string) (BatchProperties.noon : float)
    (BatchProperties.six_pages : cache) (tt : pipeline) None None [] [] false (Some 1) = Ok server.
Proof. reflexivity. Qed.

(** Two requests arrive and the second is cancelled before an iteration. *)
Definition asked_server : TokenGenerationScheduler.t :=
  set_cancel_queue [[2; 1]] (set_request_queue [BatchProperties.asks 1; BatchProperties.asks 2] server).
Definition served : TokenGenerationScheduler.t := BatchProperties.ran (run_iteration BatchProperties.noon) asked_server.

Lemma served_serving : Serving [2; 1] served.
Proof.
  assert (Serving [] server) as H0 by (eapply serving_start; [| |exact server_init]; [reflexivity|discriminate]).
  apply (serving_request [] server (BatchProperties.asks 1)) in H0; [|by intros ?%elem_of_nil].
  apply (serving_request [1] _ (BatchProperties.asks 2)) in H0; [|apply (bool_decide_unpack _); vm_compute; exact I].
  apply (serving_cancel [2; 1] _ [2; 1]) in H0.
  apply (serving_iteration [2; 1] asked_server BatchProperties.noon MADE_PROGRESS served H0).
  apply (BatchProperties.ran_run (run_iteration BatchProperties.noon) asked_server). vm_compute. reflexivity.
Qed.

Lemma every_request_answered_once_witness :
  map Batch.request_id (request_queue served) = [2] ∧ terminal_ids (response_queue served) = [1] ∧
  map Batch.request_id (request_queue served) ++ all_ids (batch_constructor served) ++ terminal_ids (response_queue served) ≡ₚ [2; 1].
Proof.
  split; [vm_compute; reflexivity|]. split; [vm_compute; reflexivity|].
  destruct (every_request_answered_once [2; 1] served served_serving) as (_ & Hp & _). exact Hp.
Defined.

Lemma pending_requests_capped_witness :
  let s' := BatchProperties.ran (_retrieve_pending_requests BatchProperties.noon) asked_server in
  len (all_ce_reqs (batch_constructor s')) ≤ 1 ∧ map Batch.request_id (request_queue s') = [2].
Proof.
  split; [|vm_compute; reflexivity].
  destruct (pending_requests_capped BatchProperties.noon asked_server 1 eq_refl) as [Hle _]. exact Hle.
Defined.

End SchedulerProperties.
