(* ===== verification/Disagg.v ===== *)
(** * Disaggregated serving: what the two nodes share (serve/scheduler/base.py,
      serve/scheduler/di_dispatchers.py)

    Prefill and decode run on different nodes. The messages between them; the transfer
    engine that copies KV blocks from one to the other, as a class; and the two calls on
    a request's context the schedulers make themselves. *)

From S2P Require Import Prelude Tokens Eos FreeQueue Pool Grammar Context Hashing Connector Manager ManagerFacts ManagerProperties CacheManager KVInterface Dict Budget Lora Batch Scheduler.

(** ** The transfer engine *)

(** [te_connect] raises for a remote that is connected; [te_cleanup_transfer] may raise.
    [onload_synchronize] blocks until an onload has landed. *)
Class TransferEngine `{KVCache} := {
  engine : Type;
  transfer_req : Type;
  engine_metadata : Type;
  metadata_name : engine_metadata → string;
  te_metadata : engine → engine_metadata;
  te_remote_connections : engine → gmap string engine_metadata;
  te_connect : engine_metadata → M engine unit;
  te_is_complete : transfer_req → M engine bool;
  te_cleanup_transfer : transfer_req → M engine unit;
  te_initiate_send_transfer : engine_metadata → list Z → list Z → Z → Z → M engine transfer_req;
  onload_synchronize : onload → M cache unit
}.

(** [transfer_engine.name] *)
Definition te_name `{TransferEngine} (x : engine) : string := metadata_name (te_metadata x).

(** ** Messages *)

(** The context travels by value. *)
Record PrefillRequest {B : Backend} := prefill_request {
  pq_id : Z;
  pq_context : Request B;
  pq_transfer_engine_name : string;
  pq_dst_block_ids : list Z;
  pq_dst_replica_idx : Z
}.
Arguments PrefillRequest B : clear implicits.

Record PrefillResponse `{TransferEngine} := prefill_response {
  pr_id : Z;
  pr_generated_token_id : Z;
  pr_transfer_metadata : transfer_req;
  pr_draft_tokens : option (list Z)
}.

(** Decode to prefill, and back. *)
Inductive RequestType_ `{TransferEngine} :=
| Prefill (r : PrefillRequest B)
| Connect (m : engine_metadata)
| Cancel (id : Z).
Inductive ReplyType `{TransferEngine} :=
| Response (r : PrefillResponse)
| Connected (m : engine_metadata).

(** ** A request's context *)
Section Contexts.
Context {B : Backend} `{NumPy}.

(** [context.update(token)], of either class *)
Definition update_context (token : Z) : M (Ctx.t B) unit := λ x,
  match x with
  | Ctx.Text c => let '(o, c) := TextContext.update token None c in (o, Ctx.Text c)
  | Ctx.Vision v => let '(o, v) := TextAndVisionContext.update token None v in (o, Ctx.Vision v)
  end.

(** [context.spec_decoding_state.draft_tokens_to_verify = draft] *)
Definition put_draft_tokens (draft : list Z) : M (Ctx.t B) unit :=
  Ctx.on_base (let! d := TextContext.spec_decoding_state in
               modify (TextContext.set_spec (Some (spec_decoding_state draft (maybe_accepted_draft_tokens d))))).

(** [not context.spec_decoding_state.draft_tokens_to_verify], and the tokens *)
Definition draft_tokens : M (Ctx.t B) (list Z) :=
  Ctx.on_base (let! d := TextContext.spec_decoding_state in ret (draft_tokens_to_verify d)).

End Contexts.
