(* ===== verification/Decode.v ===== *)
(** * The decode node's scheduler (serve/scheduler/decode_scheduler.py)

    The decode node reserves KV blocks for a request, sends it to a prefill node, waits
    for the first token and for the transfer that fills the blocks, then generates. A
    request is one object, in the map of the batch constructor; the dictionaries hold
    ids. Queues and sockets are lists: [inbox] the replies to read, [sent] what was
    sent, oldest first. All the calls of the clock in an iteration read [now]. Not
    modelled: logging, metrics and spans. *)

From S2P Require Import Prelude Tokens Eos FreeQueue Pool Grammar Context Hashing Connector Manager ManagerFacts ManagerProperties CacheManager KVInterface Dict Budget Lora Batch Scheduler Disagg.

Inductive DecodeRequestPhase := AWAITING_PREFILL | TRANSFERRING.

#[export] Instance phase_eq_dec : EqDecision DecodeRequestPhase.
Proof. solve_decision. Defined.

Record PendingDecodeRequest `{TE : TransferEngine} `{Floats} := pending_decode_request {
  replica_idx : Z;
  phase : DecodeRequestPhase;
  phase_entered_at : float;
  transfer : option transfer_req;
  cancelled : bool
}.

Module DecodeScheduler.

Record t {B : Backend} `{KV : !KVCache, P : Pipeline, F : Floats, G : !GrammarBuilder, A : AdapterStore, TE : !TransferEngine} := mk {
  batch_constructor : TextBatchConstructor.t;
  transfer_engine : engine;
  pending_reqs : list Z;
  requests : list (Z * PendingDecodeRequest);
  prefill_reqs_per_replica : list Z;
  remote_endpoints : gset string;
  _last_batch_activity : float;
  request_queue : list (Request B);
  cancel_queue : list (list Z);
  response_queue : list (list (Z * SchedulerResult.t B));
  inbox : list ReplyType;
  sent : list (string * RequestType_)
}.

Section Decode.
Context {B : Backend} `{KV : !KVCache, P : Pipeline, F : Floats, G : !GrammarBuilder, A : AdapterStore,
  TE : !TransferEngine, X : !Executor, N : NumPy}.
Implicit Types s : t.

Definition set_constructor x s : t :=
  mk _ _ _ _ _ _ _ x (transfer_engine s) (pending_reqs s) (requests s) (prefill_reqs_per_replica s) (remote_endpoints s)
    (_last_batch_activity s) (request_queue s) (cancel_queue s) (response_queue s) (inbox s) (sent s).
Definition set_engine x s : t :=
  mk _ _ _ _ _ _ _ (batch_constructor s) x (pending_reqs s) (requests s) (prefill_reqs_per_replica s) (remote_endpoints s)
    (_last_batch_activity s) (request_queue s) (cancel_queue s) (response_queue s) (inbox s) (sent s).
Definition set_pending_reqs x s : t :=
  mk _ _ _ _ _ _ _ (batch_constructor s) (transfer_engine s) x (requests s) (prefill_reqs_per_replica s) (remote_endpoints s)
    (_last_batch_activity s) (request_queue s) (cancel_queue s) (response_queue s) (inbox s) (sent s).
Definition set_requests x s : t :=
  mk _ _ _ _ _ _ _ (batch_constructor s) (transfer_engine s) (pending_reqs s) x (prefill_reqs_per_replica s) (remote_endpoints s)
    (_last_batch_activity s) (request_queue s) (cancel_queue s) (response_queue s) (inbox s) (sent s).
Definition set_counts x s : t :=
  mk _ _ _ _ _ _ _ (batch_constructor s) (transfer_engine s) (pending_reqs s) (requests s) x (remote_endpoints s)
    (_last_batch_activity s) (request_queue s) (cancel_queue s) (response_queue s) (inbox s) (sent s).
Definition set_endpoints x s : t :=
  mk _ _ _ _ _ _ _ (batch_constructor s) (transfer_engine s) (pending_reqs s) (requests s) (prefill_reqs_per_replica s) x
    (_last_batch_activity s) (request_queue s) (cancel_queue s) (response_queue s) (inbox s) (sent s).
Definition set_activity x s : t :=
  mk _ _ _ _ _ _ _ (batch_constructor s) (transfer_engine s) (pending_reqs s) (requests s) (prefill_reqs_per_replica s)
    (remote_endpoints s) x (request_queue s) (cancel_queue s) (response_queue s) (inbox s) (sent s).
Definition set_request_queue x s : t :=
  mk _ _ _ _ _ _ _ (batch_constructor s) (transfer_engine s) (pending_reqs s) (requests s) (prefill_reqs_per_replica s)
    (remote_endpoints s) (_last_batch_activity s) x (cancel_queue s) (response_queue s) (inbox s) (sent s).
Definition set_cancel_queue x s : t :=
  mk _ _ _ _ _ _ _ (batch_constructor s) (transfer_engine s) (pending_reqs s) (requests s) (prefill_reqs_per_replica s)
    (remote_endpoints s) (_last_batch_activity s) (request_queue s) x (response_queue s) (inbox s) (sent s).
Definition set_response_queue x s : t :=
  mk _ _ _ _ _ _ _ (batch_constructor s) (transfer_engine s) (pending_reqs s) (requests s) (prefill_reqs_per_replica s)
    (remote_endpoints s) (_last_batch_activity s) (request_queue s) (cancel_queue s) x (inbox s) (sent s).
Definition set_inbox x s : t :=
  mk _ _ _ _ _ _ _ (batch_constructor s) (transfer_engine s) (pending_reqs s) (requests s) (prefill_reqs_per_replica s)
    (remote_endpoints s) (_last_batch_activity s) (request_queue s) (cancel_queue s) (response_queue s) x (sent s).
Definition set_sent x s : t :=
  mk _ _ _ _ _ _ _ (batch_constructor s) (transfer_engine s) (pending_reqs s) (requests s) (prefill_reqs_per_replica s)
    (remote_endpoints s) (_last_batch_activity s) (request_queue s) (cancel_queue s) (response_queue s) (inbox s) x.

(** *** Objects and their parts *)

(** Requests reserved on a replica, whatever their phase. *)
Definition _inflight_kv_transfer_count s (i : Z) : Z :=
  len (filter (λ e, replica_idx e.2 = i) (requests s)).

(** The constructor, which calls back [_inflight_kv_transfer_count]. *)
Definition with_inflight (count : Z → Z) (c : TextBatchConstructor.t) : TextBatchConstructor.t :=
  let st := TextBatchConstructor.settings c in
  TextBatchConstructor.set_settings
    (TextBatchConstructor.mk_settings _ (TextBatchConstructor.scheduler_config st)
       (TextBatchConstructor.batch_scheduling_strategy st) (TextBatchConstructor.tg_priority_kv_percentage st)
       (Some count) (TextBatchConstructor.num_replicas st)) c.
Definition on_constructor {Y} (f : M TextBatchConstructor.t Y) : M t Y := λ s,
  let '(o, c) := f (with_inflight (_inflight_kv_transfer_count s) (batch_constructor s)) in (o, set_constructor c s).
Definition on_kv {Y} (f : M cache Y) : M t Y := on_constructor (TextBatchConstructor.on_kv f).
Definition on_engine {Y} (f : M engine Y) : M t Y := zoom transfer_engine set_engine f.
Definition on_context {Y} (rid : Z) (f : M (Ctx.t B) Y) : M t Y := on_constructor (TextBatchConstructor.on_request rid f).
Definition context_of (rid : Z) : M t (Request B) := on_constructor (TextBatchConstructor.request rid).

Definition config s : TokenGenerationSchedulerConfig := TextBatchConstructor.config (batch_constructor s).
Definition kv s : cache := TextBatchConstructor.kv_cache (batch_constructor s).

Definition put_response (m : list (Z * SchedulerResult.t B)) : M t unit :=
  modify (λ s, set_response_queue (response_queue s ++ [m]) s).
Definition send_request_nowait (m : RequestType_) (dest : string) : M t unit :=
  modify (λ s, set_sent (sent s ++ [(dest, m)]) s).

(** [prefill_reqs_per_replica[i] += d] *)
Definition add_count (i d : Z) : M t unit :=
  let! s := get in
  let l := prefill_reqs_per_replica s in
  let! n := of_option IndexError (py_index l i) in
  modify (set_counts (<[Z.to_nat (if i <? 0 then len l + i else i) := n + d]> l)).

Definition pending_of (rid : Z) : M t PendingDecodeRequest :=
  let! s := get in of_option KeyError (OrderedDict.lookup rid (requests s)).
Definition put_pending (rid : Z) (p : PendingDecodeRequest) : M t unit :=
  modify (λ s, set_requests (OrderedDict.set rid p (requests s)) s).
Definition delete_pending (rid : Z) : M t unit :=
  modify (λ s, set_requests (OrderedDict.delete rid (requests s)) s).

(** *** Replies of the prefill node *)

Definition handle_transfer_engine_response (m : engine_metadata) : M t unit := on_engine (te_connect m).

Definition handle_prefill_response (now : float) (m : PrefillResponse) : M t unit :=
  let rid := pr_id m in
  let! s := get in
  match OrderedDict.lookup rid (requests s) with
  | None => ret tt
  | Some pending =>
      on_context rid (update_context (pr_generated_token_id m));;
      let! r := context_of rid in
      when ((num_speculative_tokens (config s) >? 0) && negb (TextContext.is_done (Ctx.base (ctx r))))
        (match pr_draft_tokens m with
         | None => raise ValueError
         | Some draft => on_context rid (put_draft_tokens draft)
         end);;
      let! output := on_context rid (Ctx.on_base TextContext.to_generation_output) in
      put_response [(rid, SchedulerResult.create output None)];;
      put_pending rid (pending_decode_request _ _ _ _ (replica_idx pending) TRANSFERRING now
                         (Some (pr_transfer_metadata m)) (cancelled pending))
  end.

Definition handle_reply (now : float) (m : ReplyType) : M t unit :=
  match m with
  | Connected m => handle_transfer_engine_response m
  | Response m => handle_prefill_response now m
  end.

(** Read the replies that are there. *)
Definition receive_replies (now : float) : M t unit :=
  let! s := get in
  for_each (inbox s) (λ m, modify (λ s, set_inbox (tail (inbox s)) s);; handle_reply now m).

(** *** Reserving memory *)

(** The first [n] blocks are marked as held by decode already. *)
Definition mark_cached (n : Z) (dst_idxs : list Z) : outcome (list Z) :=
  if n >? len dst_idxs then Raise IndexError
  else Ok (repeat (-1) (Z.to_nat n) ++ drop (Z.to_nat n) dst_idxs).

Definition send_prefill_request (rid : Z) (dst_idxs : list Z) (dst_replica_idx : Z) : M t unit :=
  let! data := context_of rid in
  let! endpoint := of_option ValueError (target_endpoint data) in
  let! s := get in
  when (bool_decide (endpoint ∉ remote_endpoints s))
    (send_request_nowait (Connect (te_metadata (transfer_engine s))) endpoint;;
     modify (set_endpoints ({[ endpoint ]} ∪ remote_endpoints s)));;
  py_assert (TokenBuffer.generated_length (tokens data) =? 0);;
  let cached := TokenBuffer.processed_length (tokens data) / kv_page_size (kv s) / data_parallel_degree (config s) in
  let! dst_idxs := of_outcome (mark_cached cached dst_idxs) in
  send_request_nowait (Prefill (prefill_request _ rid data (te_name (transfer_engine s)) dst_idxs dst_replica_idx)) endpoint.

(** Whether some replica uses less than 90% of its blocks. *)
Fixpoint any_room (replicas : list Z) : M t bool :=
  match replicas with
  | [] => ret false
  | i :: replicas =>
      let! count := on_kv (kv_block_count i) in
      if f_ltb (used_pct count) (f_of_Z 90) then ret true else any_room replicas
  end.

(** Reserve memory for the oldest waiting request and send it to prefill; false when
    there is no memory, and the request waits again, at the front. *)
Definition reserve_one (now : float) (rid : Z) : M t bool :=
  let! s := get in
  let! i := on_constructor (TextBatchConstructor.get_next_replica_idx (Some (prefill_reqs_per_replica s))) in
  on_kv (kv_claim rid i);;
  let! reserved := catch
    (let! event := on_constructor (TextBatchConstructor.on_kv_request rid kv_alloc) in
     on_kv (onload_synchronize event);; ret true)
    (λ e, if decide (e = InsufficientBlocksError) then Some (ret false) else None) in
  if reserved then
    let! dst_idxs := on_kv (kv_get_req_blocks rid) in
    put_pending rid (pending_decode_request _ _ _ _ i AWAITING_PREFILL now None false);;
    add_count i 1;;
    send_prefill_request rid dst_idxs i;;
    ret true
  else
    modify (λ s, set_pending_reqs (OrderedIds.to_front rid (OrderedIds.push rid (pending_reqs s))) s);;
    on_kv (kv_release rid);;
    ret false.

Fixpoint reserve_loop (fuel : nat) (now : float) : M t unit :=
  let! s := get in
  match pending_reqs s with
  | [] => ret tt
  | rid :: rest =>
      if negb (len (TextBatchConstructor.all_tg_reqs (batch_constructor s)) + len (requests s) <? max_batch_size (config s))
      then ret tt else
      let! room := any_room (zrange 0 (data_parallel_degree (config s))) in
      if negb room then ret tt else
      match fuel with
      | O => raise OutOfFuel
      | S fuel =>
          modify (set_pending_reqs rest);;
          let! reserved := reserve_one now rid in
          if reserved then reserve_loop fuel now else ret tt
      end
  end.

(** A pulled request waits in [pending_reqs]; its object becomes known. *)
Definition take_in (r : Request B) : M t unit :=
  on_constructor (TextBatchConstructor.put_request r);;
  modify (λ s, set_pending_reqs (OrderedIds.push (Batch.request_id r) (pending_reqs s)) s).

Definition reserve_memory_and_send_to_prefill (now : float) : M t unit :=
  let! s := get in
  let '(items, rest) := drain_queue (Some (max_batch_size (config s) * 2)) (request_queue s) in
  modify (set_request_queue rest);;
  for_each items take_in;;
  let! s := get in
  reserve_loop (length (pending_reqs s)) now.

(** *** Cancellation *)

Definition handle_cancelled (rid : Z) : M t unit :=
  let! s := get in
  if TextBatchConstructor.contains rid (batch_constructor s) then
    on_constructor (TextBatchConstructor.release_request rid);;
    put_response [(rid, SchedulerResult.cancelled)]
  else
  match OrderedDict.lookup rid (requests s) with
  | None => ret tt
  | Some pending =>
      let! data := context_of rid in
      (if decide (phase pending = TRANSFERRING)
       then put_pending rid (pending_decode_request _ _ _ _ (replica_idx pending) (phase pending)
                               (phase_entered_at pending) (transfer pending) true)
       else delete_pending rid;; add_count (replica_idx pending) (-1);; on_kv (kv_release rid));;
      let! endpoint := of_option ValueError (target_endpoint data) in
      send_request_nowait (Cancel rid) endpoint;;
      put_response [(rid, SchedulerResult.cancelled)]
  end.

Definition _handle_cancelled_requests : M t unit :=
  let! s := get in
  let '(cancelled, rest) := get_cancelled_reqs (cancel_queue s) in
  modify (set_cancel_queue rest);;
  for_each cancelled handle_cancelled.

(** *** Expiry *)

Definition _send_cancel_to_prefill (rid : Z) : M t unit :=
  let! data := context_of rid in
  match target_endpoint data with
  | None => ret tt
  | Some endpoint => send_request_nowait (Cancel rid) endpoint
  end.

Definition evict (rid : Z) : M t unit :=
  let! pending := pending_of rid in
  delete_pending rid;;
  add_count (replica_idx pending) (-1);;
  when (bool_decide (phase pending = TRANSFERRING))
    (py_assert (bool_decide (is_Some (transfer pending)));;
     match transfer pending with
     | Some x => catch (on_engine (te_cleanup_transfer x))
                   (λ e, if decide (e = ValueError) then Some (ret tt) else None)
     | None => ret tt
     end);;
  on_kv (kv_release rid);;
  when (negb (cancelled pending))
    (_send_cancel_to_prefill rid;; put_response [(rid, SchedulerResult.cancelled)]).

Definition _evict_expired_requests (now : float) : M t unit :=
  let! s := get in
  match decode_request_ttl_s (config s) with
  | None => ret tt
  | Some ttl_s =>
      let cutoff := f_sub now ttl_s in
      for_each (OrderedDict.keys (filter (λ e, f_ltb (phase_entered_at e.2) cutoff = true) (requests s))) evict
  end.

(** *** Completed transfers *)

Definition check_transfer (now : float) (rid : Z) : M t unit :=
  let! pending := pending_of rid in
  py_assert (bool_decide (is_Some (transfer pending)));;
  match transfer pending with
  | None => ret tt
  | Some x =>
      let! complete := on_engine (te_is_complete x) in
      if negb complete then ret tt else
      delete_pending rid;;
      add_count (replica_idx pending) (-1);;
      on_engine (te_cleanup_transfer x);;
      if cancelled pending then on_kv (kv_release rid)
      else
        let! r := context_of rid in
        on_constructor (TextBatchConstructor.enqueue_new_request now r (Some (replica_idx pending)))
  end.

Definition check_for_completed_transfers (now : float) : M t unit :=
  let! s := get in
  for_each (OrderedDict.keys (filter (λ e, phase e.2 = TRANSFERRING) (requests s))) (check_transfer now).

(** *** An iteration *)

(** The number of requests the batch terminated. *)
Definition schedule (inputs : list (list Z)) : M t Z :=
  py_assert (len inputs >? 0);;
  let! responses := on_constructor (run_pipeline inputs) in
  let! s := get in
  let responses := filter (λ e, TextBatchConstructor.contains e.1 (batch_constructor s) = true) responses in
  on_constructor (TextBatchConstructor.advance_requests inputs);;
  let! terminated := for_fold responses 0 (λ n '(rid, response),
    if TextGenerationOutput.is_done response
    then on_constructor (TextBatchConstructor.release_request rid);; ret (n + 1) else ret n) in
  when (negb (bool_decide (length responses = 0%nat)))
    (put_response (map (λ e, (e.1, SchedulerResult.create e.2 None)) responses));;
  ret terminated.

(** The watchdog: a node that forms no batch for too long, with requests waiting, ends
    its process. *)
Definition check_stall (now : float) (inputs : list (list Z)) : M t unit :=
  let! s := get in
  let total_pending := len (pending_reqs s) + len (requests s) in
  if negb (bool_decide (concat inputs = [])) || (total_pending =? 0) then modify (set_activity now) else
  match decode_stall_timeout_s (config s) with
  | None => ret tt
  | Some timeout => raise_if (f_ltb timeout (f_sub now (_last_batch_activity s))) SystemExit
  end.

Definition run_iteration (now : float) : M t SchedulerProgress :=
  receive_replies now;;
  _evict_expired_requests now;;
  reserve_memory_and_send_to_prefill now;;
  _handle_cancelled_requests;;
  check_for_completed_transfers now;;
  let! inputs := on_constructor (TextBatchConstructor.construct_batch now) in
  check_stall now inputs;;
  let! s := get in
  if negb (negb (bool_decide (concat inputs = []))
           || has_pending_outputs (TextBatchConstructor.pipeline_state (batch_constructor s)))
  then ret NO_PROGRESS else
  schedule inputs;;
  ret MADE_PROGRESS.

(** [__init__], on empty queues and sockets *)
Definition init (c : TokenGenerationSchedulerConfig) (tg_priority now : float) (k : cache) (pipe : pipeline)
    (lora : option LoRAManagerV3.t) (gate : option AsyncGrammarGate.t) (e : engine) : outcome t :=
  match TextBatchConstructor.init (TextBatchConstructor.mk_settings _ c DECODE_FIRST tg_priority
          (Some (λ _, 0)) (data_parallel_degree c)) k pipe lora gate with
  | Raise e => Raise e
  | Ok b => Ok (mk _ _ _ _ _ _ _ b e [] [] (repeat 0 (Z.to_nat (data_parallel_degree c))) ∅ now [] [] [] [] [])
  end.

End Decode.
End DecodeScheduler.
