(* ===== verification/Frame.v ===== *)
(** * What the batch constructor leaves alone

    The constructor works on the requests it holds: whatever it does, the requests of
    others keep their claims on the KV cache, and every object stays the object of its
    id. [KVFrame] is what it relies on, and the paged cache's instance of it. *)

From S2P Require Import Prelude Tokens Eos FreeQueue Pool Grammar Context Hashing Connector Manager ManagerFacts ManagerProperties CacheManager KVInterface Dict Budget Lora Batch BatchFacts Conservation Scheduler.

(** A call on the cache concerns the request it names, and keeps a context's request. *)
Class KVFrame {B : Backend} `{!KVCache} : Prop := {
  claim_frame rid i k x : x ≠ rid → kv_contains x (kv_claim rid i k).2 = kv_contains x k;
  claim_contains rid i k k' : kv_claim rid i k = (Ok tt, k') → kv_contains rid k' = true;
  release_frame rid k x : x ≠ rid → kv_contains x (kv_release rid k).2 = kv_contains x k;
  blocks_contains rid k l k' : kv_get_req_blocks rid k = (Ok l, k') → kv_contains rid k = true;
  blocks_frame rid k x : kv_contains x (kv_get_req_blocks rid k).2 = kv_contains x k;
  count_frame i k x : kv_contains x (kv_block_count i k).2 = kv_contains x k;
  pending_frame i k x : kv_contains x (kv_pending_transfers_exist i k).2 = kv_contains x k;
  alloc_frame k (c : Ctx.t B) x : kv_contains x (kv_alloc (k, c)).2.1 = kv_contains x k;
  hits_frame k (c : Ctx.t B) x : kv_contains x (kv_prefix_cache_hit_counts (k, c)).2.1 = kv_contains x k;
  alloc_same_request k (c : Ctx.t B) :
    TextContext.request_id (Ctx.base (kv_alloc (k, c)).2.2) = TextContext.request_id (Ctx.base c);
  hits_same_request k (c : Ctx.t B) :
    TextContext.request_id (Ctx.base (kv_prefix_cache_hit_counts (k, c)).2.2) = TextContext.request_id (Ctx.base c)
}.

(** A batch neither claims nor releases, and an object stays the object of its id. *)
Class ExecutorFrame {B : Backend} `{!KVCache, P : !Pipeline, !Executor} : Prop := {
  execute_claims batches k p (r : gmap Z (Request B)) x :
    kv_contains x (execute batches (k, p, r)).2.1.1 = kv_contains x k;
  execute_ids batches k p (r : gmap Z (Request B)) :
    (∀ rid o, r !! rid = Some o → request_id o = rid) →
    ∀ rid o, (execute batches (k, p, r)).2.2 !! rid = Some o → request_id o = rid
}.

Module Frame.
Import ReplicaRequests TextBatchConstructor BatchFacts.

(** *** Programs that keep an invariant *)

Lemma preserves_bind_at {S X Y} (I : S → Prop) (Q : X → Prop) (m : M S X) (f : X → M S Y) :
  preserves I m → (∀ s x s', I s → m s = (Ok x, s') → Q x) → (∀ x, Q x → preserves I (f x)) → preserves I (bind m f).
Proof.
  intros Hm HQ Hf s Hs. unfold bind. specialize (Hm s Hs). destruct (m s) as [[x|e] s1] eqn:E; [|done].
  apply Hf; [|done]. by eapply HQ.
Qed.
Lemma preserves_bind_get {S Y} (I : S → Prop) (f : S → M S Y) :
  (∀ s, I s → preserves I (f s)) → preserves I (bind get f).
Proof. intros Hf s Hs. by apply Hf. Qed.

(** Walk through a method, one command at a time. *)
Ltac walk_step :=
  lazymatch goal with
  | |- ∀ _, _ => intro
  | |- preserves _ (ret _) => apply preserves_ret
  | |- preserves _ (raise _) => apply preserves_raise
  | |- preserves _ (raise_if _ _) => apply preserves_raise_if
  | |- preserves _ (py_assert _) => apply preserves_assert
  | |- preserves _ (of_option _ _) => apply preserves_of_option
  | |- preserves _ (of_outcome _) => apply preserves_of_outcome
  | |- preserves _ get => apply preserves_get
  | |- preserves _ (bind get _) => apply preserves_bind_get
  | |- preserves _ (when _ _) => apply preserves_when
  | |- preserves _ (bind _ _) => apply preserves_bind
  | |- preserves _ (for_each _ _) => apply preserves_for_each
  | |- preserves _ (for_map _ _) => apply preserves_for_map
  | |- preserves _ (for_fold _ _ _) => apply preserves_for_fold
  | |- preserves _ (match ?x with _ => _ end) => destruct x
  end.

Section Frame.
Context {B : Backend} `{KV : !KVCache, FR : !KVFrame, P : Pipeline, F : Floats, G : !GrammarBuilder, A : AdapterStore}.
(** The requests of others. *)
Context (D : Z → Prop).
Implicit Types c : t.

Definition Away (q : ReplicaRequests.t) : Prop :=
  ∀ x, D x → x ∉ ce_reqs q ∧ x ∉ tg_reqs q ∧ x ∉ deferred_lora_requests q.

Record Framed c : Prop := {
  fr_ids : ∀ rid r, requests c !! rid = Some r → request_id r = rid;
  fr_queues : ∀ q, q ∈ replicas c → Away q;
  fr_onloads : ∀ e, e ∈ _onloading_reqs c → ¬ D e.1;
  fr_pending : ∀ x, x ∈ OrderedDict.keys (_ce_pending c) → ¬ D x;
  fr_grammar : ∀ x, x ∈ OrderedDict.keys (_grammar_pending c) → ¬ D x;
  fr_bound : ∀ x, is_Some (_bound_requests c !! x) → ¬ D x;
  fr_claimed : ∀ x, D x → kv_contains x (kv_cache c) = true
}.

Abbreviation framed f := (preserves Framed f).

(** Fields the frame does not read. *)
Lemma framed_fields c c' :
  requests c' = requests c → replicas c' = replicas c → _onloading_reqs c' = _onloading_reqs c →
  _ce_pending c' = _ce_pending c → _grammar_pending c' = _grammar_pending c → _bound_requests c' = _bound_requests c →
  kv_cache c' = kv_cache c → Framed c → Framed c'.
Proof. intros E1 E2 E3 E4 E5 E6 E7 []. split; rewrite ?E1, ?E2, ?E3, ?E4, ?E5, ?E6, ?E7; done. Qed.

Lemma framed_kv {Y} (f : M cache Y) :
  (∀ k x, D x → kv_contains x (f k).2 = kv_contains x k) → framed (on_kv f).
Proof.
  intros Hf c []. unfold on_kv, zoom. specialize (Hf (kv_cache c)). destruct (f (kv_cache c)) as [o k]. simpl in *.
  split; try done. simpl. intros x Hx. by rewrite Hf, fr_claimed0.
Qed.
Lemma framed_claim rid i : ¬ D rid → framed (on_kv (kv_claim rid i)).
Proof. intros Hr. apply framed_kv. intros k x Hx. apply claim_frame. by intros ->. Qed.
Lemma framed_release rid : ¬ D rid → framed (on_kv (kv_release rid)).
Proof. intros Hr. apply framed_kv. intros k x Hx. apply release_frame. by intros ->. Qed.
Lemma framed_blocks rid : framed (on_kv (kv_get_req_blocks rid)).
Proof. apply framed_kv. intros. apply blocks_frame. Qed.
Lemma framed_count i : framed (on_kv (kv_block_count i)).
Proof. apply framed_kv. intros. apply count_frame. Qed.
Lemma framed_transfers i : framed (on_kv (kv_pending_transfers_exist i)).
Proof. apply framed_kv. intros. apply pending_frame. Qed.

Lemma insert_object rid r x c :
  Framed c → requests c !! rid = Some r → TextContext.request_id (Ctx.base x) = TextContext.request_id (Ctx.base (ctx r)) →
  Framed (set_requests (<[rid := set_ctx x r]> (requests c)) c).
Proof.
  intros [] Hr Hx. split; try done. simpl. intros y r' [[<- <-]|[Hne Hy]]%lookup_insert_Some; [|by apply fr_ids0].
  unfold request_id. simpl. rewrite Hx. by apply fr_ids0.
Qed.

Lemma framed_on_request {Y} rid (f : M (Ctx.t B) Y) :
  (∀ x, TextContext.request_id (Ctx.base (f x).2) = TextContext.request_id (Ctx.base x)) → framed (on_request rid f).
Proof.
  intros Hf c Hc. unfold on_request. destruct (requests c !! rid) as [r|] eqn:Er; [|done].
  specialize (Hf (ctx r)). destruct (f (ctx r)) as [o x]. simpl in *. by apply insert_object.
Qed.

Lemma framed_on_kv_request {Y} rid (f : M (cache * Ctx.t B) Y) :
  (∀ k x y, D y → kv_contains y (f (k, x)).2.1 = kv_contains y k) →
  (∀ k x, TextContext.request_id (Ctx.base (f (k, x)).2.2) = TextContext.request_id (Ctx.base x)) →
  framed (on_kv_request rid f).
Proof.
  intros Hk Hf c Hc. unfold on_kv_request. destruct (requests c !! rid) as [r|] eqn:Er; [|done].
  specialize (Hk (kv_cache c) (ctx r)). specialize (Hf (kv_cache c) (ctx r)). destruct (f _) as [o [k x]]. simpl in *.
  pose proof (insert_object rid r x c Hc Er Hf) as []. split; try done. simpl. intros y Hy. rewrite Hk by done. by apply Hc.
Qed.
Lemma framed_alloc rid : framed (on_kv_request rid kv_alloc).
Proof. apply framed_on_kv_request; intros; [apply alloc_frame|apply alloc_same_request]. Qed.
Lemma framed_hits rid : framed (on_kv_request rid kv_prefix_cache_hit_counts).
Proof. apply framed_on_kv_request; intros; [apply hits_frame|apply hits_same_request]. Qed.

Lemma framed_request rid : framed (request rid).
Proof. intros c Hc. unfold request, bind, get. by destruct (_ !! _). Qed.
Lemma framed_replica_at i : framed (replica_at i).
Proof. intros c Hc. unfold replica_at, bind, get. by destruct (py_index _ _). Qed.

Lemma replica_away i c q c' : Framed c → replica_at i c = (Ok q, c') → Away q.
Proof.
  intros Hc E. unfold replica_at, bind, get in E. destruct (py_index (replicas c) i) as [q'|] eqn:Eq; [|done].
  injection E as -> _. apply (fr_queues c Hc). unfold py_index in Eq. destruct (_ || _); [done|]. by eapply list_elem_of_lookup_2.
Qed.

(** Read a replica's queues: they hold no request of others. *)
Lemma framed_at {Y} i (f : ReplicaRequests.t → M t Y) :
  (∀ q, Away q → framed (f q)) → framed (bind (replica_at i) f).
Proof. intros Hf. eapply (preserves_bind_at _ Away); [apply framed_replica_at|by intros; eapply replica_away|done]. Qed.

(** Read an object: it is the object of its id. *)
Lemma framed_object {Y} rid (f : Request B → M t Y) :
  (∀ r, request_id r = rid → framed (f r)) → framed (bind (request rid) f).
Proof.
  intros Hf. eapply (preserves_bind_at _ (λ r, request_id r = rid)); [apply framed_request| |done].
  intros c r c' Hc E. unfold request, bind, get in E. destruct (requests c !! rid) as [r'|] eqn:Er; [|done].
  injection E as -> _. by apply (fr_ids c Hc).
Qed.

Lemma framed_on_replica i f : (∀ q, Away q → Away (f q)) → framed (on_replica i f).
Proof.
  intros Hf c Hc. unfold on_replica. unfold bind, modify. destruct (replica_at i c) as [[q|e] c1] eqn:E.
  - pose proof (replica_away i c q c1 Hc E) as Hq. pose proof (framed_replica_at i c Hc) as Hc1. rewrite E in Hc1. simpl in *.
    destruct Hc1. split; try done. simpl. intros q' Hq'. apply list_elem_of_lookup in Hq' as [k Hk].
    apply list_lookup_insert_Some in Hk as [(_ & <- & _)|[_ Hk]]; [by apply Hf|]. by eapply fr_queues0, list_elem_of_lookup_2.
  - pose proof (framed_replica_at i c Hc) as Hc1. by rewrite E in Hc1.
Qed.

Lemma framed_gate {Y} (f : M AsyncGrammarGate.t Y) : framed (on_gate f).
Proof. intros c Hc. unfold on_gate. destruct (_grammar_gate c); [|done]. destruct (f _). by apply (framed_fields c). Qed.
Lemma framed_lora {Y} (f : M LoRAManagerV3.t Y) : framed (on_lora f).
Proof. intros c Hc. unfold on_lora. destruct (_lora_manager c); [|done]. destruct (f _). by apply (framed_fields c). Qed.
Lemma framed_pipeline rid : framed (release_pipeline rid).
Proof. intros c Hc. unfold release_pipeline, on_pipeline, zoom. destruct (pipeline_release _ _). by apply (framed_fields c). Qed.
Lemma framed_put_request r : framed (put_request r).
Proof.
  intros c []. split; try done. simpl. intros y r' [[<- <-]|[Hne Hy]]%lookup_insert_Some; [done|by apply fr_ids0].
Qed.
Lemma framed_modify f :
  (∀ c, requests (f c) = requests c ∧ replicas (f c) = replicas c ∧ _onloading_reqs (f c) = _onloading_reqs c ∧
    _ce_pending (f c) = _ce_pending c ∧ _grammar_pending (f c) = _grammar_pending c ∧
    _bound_requests (f c) = _bound_requests c ∧ kv_cache (f c) = kv_cache c) → framed (modify f).
Proof. intros Hf c Hc. destruct (Hf c) as (? & ? & ? & ? & ? & ? & ?). by apply (framed_fields c). Qed.

Lemma away_push_ce rid q : ¬ D rid → Away q → Away (set_ce (OrderedIds.push rid (ce_reqs q)) q).
Proof.
  intros Hr Hq x Hx. destruct (Hq x Hx) as (H1 & H2 & H3). split_and!; try done. simpl. rewrite OrderedIds.elem_of_push.
  intros [->|?]; done.
Qed.
Lemma away_front_ce rid q : ¬ D rid → Away q → Away (set_ce (OrderedIds.to_front rid (OrderedIds.push rid (ce_reqs q))) q).
Proof.
  intros Hr Hq x Hx. destruct (Hq x Hx) as (H1 & H2 & H3). split_and!; try done. simpl.
  rewrite OrderedIds.elem_of_to_front, OrderedIds.elem_of_push. intros [->|[->|?]]; done.
Qed.
Lemma away_push_tg rid q : ¬ D rid → Away q → Away (set_tg (OrderedIds.push rid (tg_reqs q)) q).
Proof.
  intros Hr Hq x Hx. destruct (Hq x Hx) as (H1 & H2 & H3). split_and!; try done. simpl. rewrite OrderedIds.elem_of_push.
  intros [->|?]; done.
Qed.
Lemma away_remove_tg rid q : Away q → Away (set_tg (OrderedIds.remove rid (tg_reqs q)) q).
Proof.
  intros Hq x Hx. destruct (Hq x Hx) as (H1 & H2 & H3). split_and!; try done. simpl. rewrite OrderedIds.elem_of_remove. tauto.
Qed.
Lemma away_rest rid rest q :
  Away q → ce_reqs q = rid :: rest → ¬ D rid ∧ ∀ q', Away q' → Away (set_ce rest q').
Proof.
  intros Hq Hr. split; [intros HD; destruct (Hq rid HD) as [H1 _]; rewrite Hr in H1; apply H1; by left|].
  intros q' Ha x Hx. destruct (Ha x Hx) as (_ & H2 & H3), (Hq x Hx) as (H1 & _). split_and!; try done. simpl.
  rewrite Hr in H1. set_solver.
Qed.

(** *** The constructor's calls *)

Ltac framed_step :=
  lazymatch goal with
  | |- ∀ _, _ => intro
  | |- preserves _ (ret _) => apply preserves_ret
  | |- preserves _ (raise _) => apply preserves_raise
  | |- preserves _ (raise_if _ _) => apply preserves_raise_if
  | |- preserves _ (py_assert _) => apply preserves_assert
  | |- preserves _ (of_option _ _) => apply preserves_of_option
  | |- preserves _ (of_outcome _) => apply preserves_of_outcome
  | |- preserves _ get => apply preserves_get
  | |- preserves _ (on_kv (kv_get_req_blocks _)) => apply framed_blocks
  | |- preserves _ (on_kv (kv_block_count _)) => apply framed_count
  | |- preserves _ (on_kv (kv_pending_transfers_exist _)) => apply framed_transfers
  | |- preserves _ (on_kv_request _ kv_alloc) => apply framed_alloc
  | |- preserves _ (on_kv_request _ kv_prefix_cache_hit_counts) => apply framed_hits
  | |- preserves _ (release_pipeline _) => apply framed_pipeline
  | |- preserves _ (on_gate _) => apply framed_gate
  | |- preserves _ (on_lora _) => apply framed_lora
  | |- preserves _ (put_request _) => apply framed_put_request
  | |- preserves _ (bind (request _) _) => apply framed_object
  | |- preserves _ (bind (replica_at _) _) => apply framed_at
  | |- preserves _ (bind get _) => apply preserves_bind_get
  | |- preserves _ (when _ _) => apply preserves_when
  | |- preserves _ (bind _ _) => apply preserves_bind
  | |- preserves _ (modify _) => apply framed_modify; intros; by split_and!
  | |- preserves _ (match ?x with _ => _ end) => destruct x
  end.
Ltac framed := repeat framed_step.

Lemma framed_bind rid i : ¬ D rid → framed (_bind_request rid i).
Proof.
  intros Hr. unfold _bind_request. apply framed_at. intros _ _. apply framed_object. intros r _.
  apply preserves_bind.
  - apply preserves_modify. intros c []. split; try done. simpl. intros x [y [[<- _]|[_ Hy]]%lookup_insert_Some]; [done|].
    apply fr_bound0. by exists y.
  - intros _. apply preserves_bind; [by framed|intros _]. destruct (_ =? 0); apply framed_on_replica; intros q Hq;
      [by apply away_push_ce|by apply away_push_tg].
Qed.

Lemma framed_weights rid : framed (_post_cache_weights rid).
Proof.
  unfold _post_cache_weights. apply framed_object. intros r _. apply preserves_bind_get. intros s _.
  apply preserves_bind; [|framed]. apply preserves_catch; [framed|]. intros e k [= <-]. apply preserves_ret.
Qed.

Lemma framed_next_replica l : framed (get_next_replica_idx l).
Proof. unfold get_next_replica_idx. framed. Qed.

Lemma framed_admit now rid i : ¬ D rid → framed (_admit_request now rid i).
Proof.
  intros Hr. unfold _admit_request. apply framed_object. intros r _. apply preserves_bind_get. intros s _.
  destruct (_ && _ && _).
  - apply preserves_bind; [apply framed_weights|intros w]. apply preserves_bind; [|framed].
    apply preserves_modify. intros c []. split; try done. simpl. intros x [->|Hx]%OrderedDict.elem_of_keys_set; [done|by apply fr_pending0].
  - apply preserves_bind; [|intros k; by apply framed_bind]. destruct i; [apply preserves_ret|apply framed_next_replica].
Qed.

Lemma framed_install now rid i : ¬ D rid → framed (install_and_admit now rid i).
Proof.
  intros Hr. unfold install_and_admit, _fail_grammar_request. apply framed_object. intros r _.
  apply preserves_bind; [apply framed_gate|intros [e|r']]; [framed|].
  apply preserves_bind; [apply framed_put_request|intros _]. by apply framed_admit.
Qed.

Lemma framed_enqueue now r i : ¬ D (request_id r) → framed (enqueue_new_request now r i).
Proof.
  intros Hr. unfold enqueue_new_request. apply preserves_bind; [apply framed_put_request|intros _].
  apply preserves_bind_get. intros s _. destruct (_grammar_gate s); [|by apply framed_admit].
  destruct (_ =? 0); [|by apply framed_admit]. apply preserves_bind; [apply framed_gate|intros _].
  apply preserves_bind; [apply framed_gate|intros g]. destruct (negb _); [|by apply framed_install].
  apply preserves_modify. intros c []. split; try done. simpl. intros x [->|Hx]%OrderedDict.elem_of_keys_set; [done|by apply fr_grammar0].
Qed.

(** Entries deleted from a pool or from the bindings. *)
Lemma keys_delete_in {V} (d : list (Z * V)) k x : x ∈ OrderedDict.keys (OrderedDict.delete k d) → x ∈ OrderedDict.keys d.
Proof. intros H. eapply elem_of_submseteq; [exact H|]. apply sublist_submseteq, OrderedDict.delete_keys_sublist. Qed.
Lemma entry_delete_in {V} (d : list (Z * V)) k e : e ∈ OrderedDict.delete k d → e ∈ d.
Proof. intros H. eapply elem_of_submseteq; [exact H|]. apply sublist_submseteq, OrderedDict.delete_sublist. Qed.

Lemma framed_unpool rid : framed (modify (λ s : t, set_pending (OrderedDict.delete rid (_ce_pending s)) s)).
Proof. apply preserves_modify. intros c []. split; try done. simpl. intros x Hx. eapply fr_pending0, keys_delete_in, Hx. Qed.
Lemma framed_ungrammar rid : framed (modify (λ s : t, set_grammar_pending (OrderedDict.delete rid (_grammar_pending s)) s)).
Proof. apply preserves_modify. intros c []. split; try done. simpl. intros x Hx. eapply fr_grammar0, keys_delete_in, Hx. Qed.
Lemma framed_unonload rid : framed (modify (λ s : t, set_onloading (OrderedDict.delete rid (_onloading_reqs s)) s)).
Proof. apply preserves_modify. intros c []. split; try done. simpl. intros x Hx. eapply fr_onloads0, entry_delete_in, Hx. Qed.
Lemma framed_unbind rid : framed (modify (λ s : t, set_bound (delete rid (_bound_requests s)) s)).
Proof.
  apply preserves_modify. intros c []. split; try done. simpl. intros x [y [_ Hy]%lookup_delete_Some]. apply fr_bound0. by exists y.
Qed.

Lemma framed_drop_lora rid i : framed (drop_lora rid i).
Proof. unfold drop_lora. framed. apply framed_on_replica. by intros q Hq. Qed.

Lemma away_dropped rid q : Away q → Away (drop_from_queues rid q).
Proof.
  intros Hq x Hx. destruct (Hq x Hx) as (H1 & H2 & H3). unfold drop_from_queues.
  destruct (decide _); [|destruct (decide _); [|destruct (decide _)]]; split_and!; simpl; rewrite ?OrderedIds.elem_of_remove; tauto.
Qed.

(** Releasing a request of others raises. *)
Lemma framed_release_request rid : framed (release_request rid).
Proof.
  unfold release_request. apply preserves_bind_get. intros s Hs. destruct (contains rid s) eqn:Hc; [|by intros c].
  assert (¬ D rid) as Hr.
  { unfold contains in Hc. rewrite !orb_true_iff, !bool_decide_eq_true in Hc. destruct Hc as [[[Hc|Hc]|Hc]|Hc];
      [by apply (fr_bound s Hs)|by apply (fr_pending s Hs)|by apply (fr_grammar s Hs)|].
    apply list_elem_of_fmap in Hc as (e & -> & He). by apply (fr_onloads s Hs). }
  apply preserves_bind; [apply preserves_ret|intros _]. destruct (bool_decide (rid ∈ OrderedDict.keys (_grammar_pending s))).
  { apply preserves_bind; [apply framed_ungrammar|framed]. }
  destruct (bool_decide (rid ∈ OrderedDict.keys (_ce_pending s))).
  { apply preserves_bind; [apply framed_unpool|framed]. }
  apply preserves_bind; [framed|intros _]. apply preserves_bind; [apply framed_unonload|intros _].
  apply preserves_bind; [apply preserves_of_option|intros i].
  apply preserves_bind; [apply framed_on_replica, away_dropped|intros _].
  apply preserves_bind; [apply framed_drop_lora|intros _]. apply preserves_bind_get. intros s1 _.
  apply preserves_bind; [by apply preserves_when, framed_release|intros _].
  apply preserves_bind; [apply framed_pipeline|intros _]. apply preserves_bind_get. intros s2 _.
  apply preserves_bind; [apply preserves_when, framed_gate|intros _]. apply framed_unbind.
Qed.

Lemma framed_advance batches : (∀ x, x ∈ concat batches → ¬ D x) → framed (advance_requests batches).
Proof.
  intros Hb. unfold advance_requests. apply preserves_bind_get. intros s _. apply preserves_bind; [|framed].
  apply preserves_for_each. intros [i b] Hin. assert (∀ x, x ∈ b → ¬ D x) as Hx.
  { intros x Hx. apply Hb, list_elem_of_In, in_concat. exists b. split; [|by apply list_elem_of_In].
    apply list_elem_of_In in Hin. by eapply in_combine_r. }
  unfold advance_replica. apply preserves_bind.
  { apply preserves_for_each. intros rid Hr. apply preserves_bind_get. intros s1 _. apply preserves_when, framed_on_replica.
    intros q. by apply away_push_tg, Hx. }
  intros _. destruct (last b) as [x|] eqn:El; [|framed]. apply last_Some_elem_of, Hx in El.
  apply preserves_bind_get. intros s1 _. destruct (negb _); [framed|]. apply framed_object. intros r _.
  destruct (negb _); [framed|]. apply framed_at. intros q _. apply preserves_bind; [framed|intros _].
  apply preserves_bind; [apply framed_on_replica, away_remove_tg|intros _]. apply framed_on_replica. intros q'. by apply away_front_ce.
Qed.

(** *** Filling a batch *)

Lemma reset_same_request (x : Ctx.t B) :
  TextContext.request_id (Ctx.base (Ctx.on_base TextContext.reset x).2) = TextContext.request_id (Ctx.base x).
Proof.
  unfold Ctx.on_base, zoom. destruct (TextContext.reset (Ctx.base x)) as [o c] eqn:E. simpl. rewrite Ownership.base_set_base.
  unfold TextContext.reset, TextContext.on_tokens, zoom, bind, get, modify in E.
  destruct (TokenBuffer.reset_as_new_prompt _ _) as [[u|e] b]; by injection E as _ <-.
Qed.

Lemma framed_tokens {Y} rid (f : M TokenBuffer.t Y) : framed (on_request rid (Ctx.on_tokens f)).
Proof.
  apply framed_on_request. intros x. unfold Ctx.on_tokens, Ctx.on_base, TextContext.on_tokens, zoom.
  destruct (f _) as [o b]. simpl. by rewrite Ownership.base_set_base.
Qed.

Lemma framed_return rid i : ¬ D rid → framed (_return_to_request_queue rid i).
Proof.
  intros Hr. unfold _return_to_request_queue. apply preserves_bind_get. intros s _.
  apply preserves_bind; [by apply preserves_when, framed_release|intros _].
  apply preserves_bind; [apply framed_pipeline|intros _].
  apply preserves_bind; [apply framed_on_request, reset_same_request|intros _].
  apply framed_on_replica. intros q Hq. apply away_front_ce; [done|]. by apply away_remove_tg.
Qed.

Lemma framed_preempt rid i : ¬ D rid → framed (_preempt_request rid i).
Proof. intros Hr. unfold _preempt_request. apply preserves_bind; [by apply framed_return|framed]. Qed.

Lemma framed_priority i : framed (_identify_priority i).
Proof. unfold _identify_priority. framed. Qed.

Lemma framed_fatal i b : framed (_is_insufficient_blocks_fatal i b).
Proof. unfold _is_insufficient_blocks_fatal, _is_anything_inflight. framed. Qed.

Lemma framed_add_active rid i : framed (add_active_lora rid i).
Proof. unfold add_active_lora. framed. apply framed_on_replica. by intros q Hq. Qed.

Lemma framed_can_allocate rid i : ¬ D rid → framed (can_allocate_lora rid i).
Proof.
  intros Hr. unfold can_allocate_lora. framed. apply framed_on_replica. intros q' Hq' x' Hx'. destruct (Hq' x' Hx') as (? & ? & ?).
  split_and!; try done. simpl. rewrite OrderedIds.elem_of_push. intros [->|?]; done.
Qed.

Lemma framed_try_alloc rid : framed (try_alloc rid).
Proof.
  apply preserves_catch; [framed|]. intros e k Hk. destruct (decide _); [|done]. injection Hk as <-. framed.
Qed.

Lemma framed_accept b rid rt : framed (accept b rid rt).
Proof.
  unfold accept. apply framed_object. intros r _. destruct (TokenBudgetCollection.add_to_budget _ _ _) as [[u|e] l]; framed.
Qed.

Lemma framed_insufficient {Y} rid : framed (raise_insufficient (X := Y) rid).
Proof. unfold raise_insufficient. framed. Qed.

Lemma framed_status b rid rt : framed (budget_status b rid rt).
Proof. apply framed_tokens. Qed.

Lemma framed_onload rid i e : ¬ D rid → framed (modify (λ s : t, set_onloading (OrderedDict.set rid (i, e) (_onloading_reqs s)) s)).
Proof.
  intros Hr. apply preserves_modify. intros c []. split; try done. simpl. intros y Hy.
  apply (list_elem_of_fmap_2 fst) in Hy. apply OrderedDict.elem_of_keys_set in Hy as [Hy|Hy]; [by rewrite Hy|].
  apply list_elem_of_fmap in Hy as (e' & -> & He). by apply fr_onloads0.
Qed.

Lemma framed_ce_request rid i b : ¬ D rid → framed (ce_request rid i b).
Proof.
  intros Hr. unfold ce_request. apply preserves_bind; [by apply framed_can_allocate|intros ok]. destruct (negb ok); [framed|].
  apply preserves_bind; [framed|intros rem]. destruct (rem <=? 0).
  { apply preserves_bind; [by apply framed_return|framed]. }
  apply preserves_bind_get. intros s _. apply preserves_bind; [by apply preserves_when, framed_claim|intros _].
  apply preserves_bind; [apply framed_try_alloc|intros [e|]].
  - apply preserves_bind_get. intros s1 _. destruct (negb _).
    { apply preserves_bind; [by apply framed_onload|framed]. }
    apply preserves_bind; [apply framed_status|intros []].
    + apply preserves_bind; [apply framed_accept|intros b']. apply preserves_bind; [apply framed_add_active|framed].
    + apply preserves_bind; [by apply framed_return|framed].
    + apply preserves_bind; [apply framed_add_active|intros _]. apply preserves_bind; [apply framed_accept|framed].
  - apply framed_at. intros q _. apply preserves_bind; [apply framed_fatal|intros []]; [apply framed_insufficient|].
    apply preserves_bind; [by apply framed_return|framed].
Qed.

Lemma framed_ce_loop fuel n i b : framed (ce_loop fuel n i b).
Proof.
  revert b. induction fuel as [|fuel IH]; intros b; simpl; apply framed_at; intros q Hq; apply preserves_bind_get; intros s _;
    (destruct (negb _); [framed|]); (destruct (ce_reqs q) as [|rid rest] eqn:Eq; [framed|]); [framed|].
  destruct (away_rest rid rest q Hq Eq) as [Hr Ha]. apply preserves_bind; [by apply framed_on_replica|intros _].
  apply preserves_bind; [by apply framed_ce_request|intros [b'|p]]; [apply IH|framed].
Qed.

Lemma away_deferred q : Away q → Away (update_deferred_lora_requests q).
Proof.
  intros Hq x Hx. destruct (Hq x Hx) as (H1 & H2 & H3). unfold update_deferred_lora_requests. simpl.
  split_and!; [|done|apply not_elem_of_nil]. revert H1 H3. generalize (ce_reqs q). generalize (deferred_lora_requests q). clear Hq H2.
  intros l. induction l as [|k l IH]; intros ce H1 H3; simpl; [done|]. apply not_elem_of_cons in H3 as [Hk H3].
  apply IH; [|done]. rewrite OrderedIds.elem_of_to_front, OrderedIds.elem_of_push. intros [?|[?|?]]; done.
Qed.

Lemma framed_add_ce fuel b i : framed (_add_ce_requests fuel b i).
Proof.
  unfold _add_ce_requests. apply preserves_bind_get. intros s _. destruct (bool_decide _); [framed|].
  apply preserves_bind; [apply framed_ce_loop|intros [b'|b']]; [framed|].
  apply preserves_bind; [apply framed_on_replica, away_deferred|framed].
Qed.

Lemma framed_tg_alloc fuel rid i b l : (∀ x, x ∈ l → ¬ D x) → framed (tg_alloc fuel rid i b l).
Proof.
  revert l. induction fuel as [|fuel IH]; intros l Hl; simpl; (apply preserves_bind; [apply framed_try_alloc|intros [e|]; [framed|]]);
    (destruct (last l) as [x|] eqn:El; [|apply preserves_bind; [apply framed_fatal|intros []; [apply framed_insufficient|framed]]]); [framed|].
  apply framed_at. intros q _. apply preserves_bind; [framed|intros _].
  apply preserves_bind; [apply framed_on_replica, away_remove_tg|intros _].
  apply preserves_bind; [by apply framed_preempt, Hl, last_Some_elem_of|intros _]. apply IH.
  intros y Hy. apply Hl. destruct l as [|z l] using rev_ind; [done|]. rewrite removelast_last in Hy. rewrite elem_of_app. by left.
Qed.

Lemma tg_alloc_left fuel rid i b l s l' s' :
  tg_alloc fuel rid i b l s = (Ok (Some l'), s') → ∀ x, x ∈ l' → x ∈ l.
Proof.
  revert l s. induction fuel as [|fuel IH]; intros l s E x Hx; simpl in E; apply bind_ok in E as ([e|] & s1 & _ & E);
    try (injection E as <- <-; done).
  - destruct (last l); [done|]. apply bind_ok in E as ([] & s2 & _ & E); [|done]. apply bind_ok in E as (? & ? & _ & E). done.
  - destruct (last l) as [y|].
    + apply bind_ok in E as (q & s2 & _ & E). do 3 (apply bind_ok in E as ([] & ? & _ & E)).
      specialize (IH _ _ E x Hx). destruct l as [|z l] using rev_ind; [done|]. rewrite removelast_last in IH. rewrite elem_of_app. by left.
    + apply bind_ok in E as ([] & s2 & _ & E); [|done]. apply bind_ok in E as (? & ? & _ & E). done.
Qed.

Lemma framed_tg_loop fuel i b l : (∀ x, x ∈ l → ¬ D x) → framed (tg_loop fuel i b l).
Proof.
  revert b l. induction fuel as [|fuel IH]; intros b l Hl; simpl; apply preserves_bind_get; intros s _;
    (destruct (negb _); [framed|]); (destruct l as [|rid l]; [framed|]); [framed|].
  - apply framed_at. intros q _. apply preserves_bind; [framed|intros _]. apply framed_object. intros r _.
    assert (∀ x, x ∈ l → ¬ D x) as Hl' by (intros x Hx; apply Hl; by right).
    destruct (is_lora_request r s && _).
    { apply preserves_bind; [apply framed_preempt, Hl; by left|intros _]. by apply IH. }
    apply preserves_bind; [apply framed_status|intros st]. destruct (decide _); [framed|].
    eapply (preserves_bind_at _ (λ o, ∀ l', o = Some l' → ∀ x, x ∈ l' → ¬ D x)); [by apply framed_tg_alloc| |].
    + intros s1 o s2 _ E l' -> x Hx. eapply Hl', tg_alloc_left; [exact E|done].
    + intros [l'|] Ho; [|framed]. apply preserves_bind; [apply framed_accept|intros b']. destruct (decide _); [framed|].
      apply IH. by apply Ho.
Qed.

Lemma framed_add_tg b i : framed (_add_tg_requests b i).
Proof. unfold _add_tg_requests. apply framed_at. intros q Hq. apply framed_tg_loop. intros x Hx HD. by destruct (Hq x HD) as (_ & ? & _). Qed.

Lemma framed_construct i o : framed (_construct_replica_batch i o).
Proof.
  unfold _construct_replica_batch. apply preserves_bind_get. intros s _. apply preserves_bind; [framed|intros quota].
  apply preserves_bind; [destruct o; [framed|apply framed_priority]|intros [[]|]].
  - apply preserves_bind; [apply framed_add_tg|intros b]. destruct (_ && _ && _); [|framed]. apply framed_at. intros q _. apply framed_add_ce.
  - apply preserves_bind; [apply framed_at; intros q _; apply framed_add_ce|intros b]. destruct (_ && _); [apply framed_add_tg|framed].
  - framed.
  - framed.
  - framed.
Qed.

(** *** Forming the batches *)

Lemma framed_readmit : framed _readmit_completed_onloads.
Proof.
  unfold _readmit_completed_onloads. apply preserves_bind_get. intros s Hs. apply preserves_for_each.
  intros [rid [i e]] Hin. assert (¬ D rid) as Hr.
  { apply list_elem_of_filter in Hin as [_ Hin]. exact (fr_onloads s Hs _ Hin). }
  apply preserves_bind; [apply framed_unonload|intros _]. apply framed_on_replica. intros q. by apply away_front_ce.
Qed.

Lemma framed_promote now : framed (_promote_grammar_ready_requests now).
Proof.
  unfold _promote_grammar_ready_requests. apply preserves_bind_get. intros s Hs. destruct (_grammar_gate s); [|framed].
  apply preserves_for_each. intros [rid i] Hin. assert (¬ D rid) as Hr.
  { apply list_elem_of_filter in Hin as [_ Hin]. apply (fr_grammar s Hs). by apply (list_elem_of_fmap_2 fst) in Hin. }
  apply preserves_bind; [apply framed_ungrammar|intros _]. by apply framed_install.
Qed.

Lemma framed_bind_expired target rid p : ¬ D rid → framed (bind_expired target rid p).
Proof.
  intros Hr. unfold bind_expired. apply preserves_bind_get. intros s _. apply preserves_bind; [framed|intros w].
  apply preserves_bind; [apply framed_unpool|intros _]. apply preserves_bind; [framed|intros i].
  apply preserves_bind; [by apply framed_bind|framed].
Qed.

Lemma framed_plan now : framed (_plan_ce_step now).
Proof.
  unfold _plan_ce_step. apply preserves_bind; [framed|intros _]. apply preserves_bind_get. intros s Hs.
  destruct (negb _); [framed|]. destruct (_ && _); [framed|]. destruct (plan_floor now s) as [p tails].
  apply preserves_bind.
  { apply preserves_for_fold. intros p' rid Hin. apply framed_bind_expired. apply list_elem_of_filter in Hin as [_ Hin].
    by apply (fr_pending s Hs). }
  intros p1. destruct (plan_tails _ _ _) as [load deferred]. apply preserves_bind_get. intros s1 Hs1.
  destruct (Conservation.plan_pool_binds (target_tokens_per_batch_ce (config s)) (n_replicas s1) deferred (_ce_pending s1)
    (mk_plan (floor p1) (total_load p1) load)) as (l & Hl & Hsub).
  destruct (plan_pool _ _ _ _ _) as [p2 binds]. simpl in Hsub.
  match goal with |- preserves _ (if ?c then _ else _) => destruct c end; [|framed].
  apply preserves_bind.
  - apply preserves_for_each. intros [rid i] Hin. unfold bind_planned. apply preserves_bind; [apply framed_unpool|intros _].
    apply framed_bind, (fr_pending s1 Hs1). unfold OrderedDict.keys. rewrite <- Hl. eapply sublist_subseteq; [exact Hsub|].
    by apply (list_elem_of_fmap_2 fst) in Hin.
  - intros _. apply preserves_bind; [framed|intros _]. apply preserves_when. framed.
Qed.

Lemma framed_override : framed choose_override.
Proof.
  unfold choose_override. apply preserves_bind_get. intros s _. destruct (batch_scheduling_strategy _); try (apply preserves_ret);
    (apply preserves_bind; [apply preserves_for_map; intros; apply framed_priority|intros; framed]).
Qed.

Lemma framed_construct_batch now : framed (construct_batch now).
Proof.
  unfold construct_batch. apply preserves_bind; [apply framed_readmit|intros _].
  apply preserves_bind; [apply framed_promote|intros _]. apply preserves_bind; [apply framed_plan|intros _].
  apply preserves_bind; [apply framed_override|intros o]. apply preserves_bind_get. intros s _.
  apply preserves_bind; [|intros; framed]. apply preserves_for_map. intros i _. apply framed_construct.
Qed.

Lemma framed_failed : framed take_grammar_failed.
Proof. unfold take_grammar_failed. framed. Qed.

Lemma framed_settings st c : Framed c → Framed (set_settings st c).
Proof. by apply framed_fields. Qed.

End Frame.

Section Books.
Context {B : Backend} `{KV : !KVCache, FR : !KVFrame, P : Pipeline, F : Floats, G : !GrammarBuilder, A : AdapterStore}.
Implicit Types c : t.

Lemma framed_subset (D D' : Z → Prop) c : (∀ x, D' x → D x) → Framed D c → Framed D' c.
Proof.
  intros HD []. split; try done.
  - intros q Hq x Hx. by apply fr_queues0, HD.
  - intros e He Hd. by apply (fr_onloads0 e He), HD.
  - intros x Hx Hd. by apply (fr_pending0 x Hx), HD.
  - intros x Hx Hd. by apply (fr_grammar0 x Hx), HD.
  - intros x Hx Hd. by apply (fr_bound0 x Hx), HD.
  - intros x Hd. by apply fr_claimed0, HD.
Qed.

(** What the constructor holds is not of others. *)
Lemma framed_of_books (D : Z → Prop) L c :
  Conservation.Book [] L c → (∀ x, D x → x ∉ L) →
  (∀ rid r, requests c !! rid = Some r → request_id r = rid) → (∀ x, D x → kv_contains x (kv_cache c) = true) → Framed D c.
Proof.
  intros [Hp _ Hb _] HD Hi Hc. rewrite app_nil_r in Hp. unfold Conservation.all_ids, ids in Hp.
  assert (∀ x, x ∈ concat (map own (replicas c)) ++ OrderedDict.keys (_onloading_reqs c) ∨ x ∈ OrderedDict.keys (_ce_pending c)
    ∨ x ∈ OrderedDict.keys (_grammar_pending c) → ¬ D x) as Hin.
  { intros x Hx Hd. apply (HD x Hd). rewrite <- Hp, !elem_of_app in *. tauto. }
  split; try done.
  - intros q Hq x Hd. assert (x ∉ own q) as Hx.
    { intros Hx. apply (Hin x); [|done]. left. rewrite elem_of_app. left. rewrite list_elem_of_In, in_concat.
      exists (own q). rewrite <- !list_elem_of_In. split; [by apply list_elem_of_fmap_2|done]. }
    unfold own in Hx. rewrite !elem_of_app in Hx. tauto.
  - intros e He. apply Hin. left. rewrite elem_of_app. right. by apply list_elem_of_fmap_2.
  - intros x Hx. apply Hin. tauto.
  - intros x Hx. apply Hin. tauto.
  - intros x Hx. apply Hin. left. specialize (Hb x Hx). by rewrite app_nil_r in Hb.
Qed.

(** *** A batch runs *)
Context `{X : !Executor, EF : !ExecutorFrame}.

Lemma framed_run_pipeline (D : Z → Prop) inputs : preserves (Framed D) (run_pipeline inputs).
Proof.
  intros c []. unfold run_pipeline.
  pose proof (λ x, execute_claims inputs (kv_cache c) (pipeline_state c) (requests c) x) as HC.
  pose proof (execute_ids inputs (kv_cache c) (pipeline_state c) (requests c) fr_ids0) as HI.
  destruct (execute _ _) as [o [[k p] r]]. simpl in *. split; try done. simpl. intros x Hx. rewrite HC. by apply fr_claimed0.
Qed.

(** The requests of a batch are not of others. *)
Lemma batches_away (D : Z → Prop) size out L c inputs ces x :
  Framed D c → Conservation.Book out L c → Forall3 (Conservation.Parted size c) (zrange 0 (n_replicas c)) inputs ces →
  x ∈ concat inputs → ¬ D x.
Proof.
  intros HF HB HP Hx. destruct (Conservation.parted_disjoint size out L c _ inputs ces (NoDup_zrange _ _) HB HP) as [_ Hin].
  destruct (Hin x Hx) as (i & _ & _ & z & Hz & _). apply (fr_bound _ _ HF). by exists z.
Qed.

End Books.

End Frame.
