(* ===== verification/PagedFrame.v ===== *)
(** * The paged cache keeps the claims of other requests

    [PagedKVCacheManager] is an instance of [KVFrame]: only [claim] and [release] change
    who has claimed blocks, and no call changes which request a context is. *)

From S2P Require Import Prelude Tokens Eos FreeQueue Pool Grammar Context Hashing Connector Manager ManagerFacts ManagerProperties CacheManager KVInterface Dict Budget Lora Batch BatchFacts Conservation Scheduler Frame.

Module PagedFrame.
Import Frame.

(** ** The block manager *)
Section Blocks.
Context `{Digest} {B : Backend} `{KVConnector} `{Driver}.
Import BlockManager.
Context (R : gmap Z Z).

Definition Claims (m : t) : Prop := req_to_replica m = R.
Abbreviation keeps_claims f := (preserves Claims f).

Lemma claims_pool {A} i (f : M BlockPool.t A) : keeps_claims (on_pool i f).
Proof. intros m Hm. unfold on_pool. destruct (py_index _ i); [|done]. by destruct (f _). Qed.
Lemma claims_pool_at i : keeps_claims (pool_at i).
Proof. apply claims_pool. Qed.
Lemma claims_connector {A} (f : M conn A) : keeps_claims (on_connector f).
Proof. intros m Hm. unfold on_connector, zoom. by destruct (f _). Qed.
Lemma claims_memory {A} (f : M memory A) : keeps_claims (on_memory f).
Proof. intros m Hm. unfold on_memory, zoom. by destruct (f _). Qed.
Lemma claims_modify f : (∀ m, req_to_replica (f m) = req_to_replica m) → keeps_claims (modify f).
Proof. intros Hf m Hm. unfold Claims. simpl. by rewrite Hf. Qed.
Lemma claims_blocks_of rid : keeps_claims (blocks_of rid).
Proof. intros m Hm. unfold blocks_of. by destruct (_ !! _). Qed.
Lemma claims_hashes_of rid : keeps_claims (hashes_of rid).
Proof. intros m Hm. unfold hashes_of. by destruct (_ !! _). Qed.
Lemma claims_committed_of rid : keeps_claims (committed_idx_of rid).
Proof. intros m Hm. unfold committed_idx_of. by destruct (_ !! _). Qed.

Ltac walk :=
  repeat first
    [ walk_step | apply claims_pool_at | apply claims_pool | apply claims_connector | apply claims_memory
    | apply claims_blocks_of | apply claims_hashes_of | apply claims_committed_of
    | (apply claims_modify; intros; done) ].

Lemma claims_replica_of rid : keeps_claims (_replica_of rid).
Proof. unfold _replica_of. walk. Qed.
Lemma claims_committed_run i l : keeps_claims (committed_run i l).
Proof. induction l as [|r l IH]; simpl; walk. apply IH. Qed.
Lemma claims_zip {A C} (l1 : list A) (l2 : list C) f :
  (∀ x y, keeps_claims (f x y)) → keeps_claims (for_zip_strict l1 l2 f).
Proof. intros Hf. revert l2. induction l1 as [|x l1 IH]; intros [|y l2]; simpl; walk; first [apply Hf|apply IH]. Qed.

Lemma claims_checks rid : keeps_claims (assert_runtime_invariants rid).
Proof.
  unfold assert_runtime_invariants, note_active, device_block_pool. walk; first [apply claims_committed_run | (apply claims_zip; walk)].
Qed.

Lemma claims_device_block i : keeps_claims (allocate_device_block i).
Proof. unfold allocate_device_block. walk. Qed.

Lemma claims_find h i : keeps_claims (_find_block_in_any_replica h i).
Proof.
  unfold _find_block_in_any_replica. walk. match goal with |- keeps_claims (?f ?l) => generalize l end.
  intros l. induction l as [|j l IH]; walk; exact IH.
Qed.

Lemma claims_count x : keeps_claims (count x).
Proof. unfold count. walk. Qed.

Lemma claims_unit_pages src dst pairs acc : keeps_claims (unit_pages src dst pairs acc).
Proof. revert dst acc. induction src as [|x src IH]; intros [|y dst] acc; simpl; walk; first [apply claims_count|apply IH]. Qed.

Lemma claims_copy i j l : keeps_claims (_copy_blocks_across_replicas i j l).
Proof. unfold _copy_blocks_across_replicas. walk. apply claims_unit_pages. Qed.

Lemma claims_walk i hashes blocks pending : keeps_claims (device_walk i hashes blocks pending).
Proof.
  revert blocks pending. induction hashes as [|h hashes IH]; intros blocks pending; simpl; walk;
    first [apply IH | apply claims_count | apply claims_find | apply claims_device_block].
Qed.

Lemma claims_device_prefix l i : keeps_claims (_get_full_blocks_from_device_prefix_cache l i).
Proof. unfold _get_full_blocks_from_device_prefix_cache. walk; first [apply claims_walk|apply claims_copy]. Qed.

Lemma claims_transfers_at i : keeps_claims (pending_transfers_at i).
Proof. unfold pending_transfers_at. walk. Qed.
Lemma claims_put_transfers i l : keeps_claims (put_transfers i l).
Proof. unfold put_transfers. walk. Qed.

Lemma claims_settle i p : keeps_claims (settle i p).
Proof. unfold settle. walk. apply claims_zip. walk. Qed.

Lemma claims_poll : keeps_claims poll_transfers.
Proof. unfold poll_transfers. walk; first [apply claims_settle|apply claims_put_transfers]. Qed.

Lemma claims_track e l i h : keeps_claims (_track_transfer e l i h).
Proof. unfold _track_transfer. walk; first [apply claims_transfers_at|apply claims_put_transfers]. Qed.

Lemma claims_host l i : keeps_claims (_get_full_blocks_from_host_prefix_cache l i).
Proof.
  unfold _get_full_blocks_from_host_prefix_cache. walk;
    first [apply claims_device_block | apply claims_track | (apply claims_zip; walk)].
Qed.

Lemma claims_full rid : keeps_claims (get_full_blocks_from_prefix_cache rid).
Proof.
  unfold get_full_blocks_from_prefix_cache. walk; first [apply claims_replica_of | apply claims_device_prefix | apply claims_host].
Qed.

Lemma claims_count_cached l : keeps_claims (count_cached_prefix_blocks l).
Proof. unfold count_cached_prefix_blocks, device_block_pool. walk. Qed.

(** *** With a request's context *)
Context (rid0 : Z).
Definition WClaims (w : world) : Prop := Claims (mgr w) ∧ request_id w = rid0.
Abbreviation keeps_world f := (preserves WClaims f).

Lemma world_mgr {A} (f : M t A) : keeps_claims f → keeps_world (on_mgr f).
Proof. intros Hf [m x] [Hm Hx]. unfold on_mgr, zoom. simpl in *. specialize (Hf m Hm). by destruct (f m). Qed.
Lemma world_ctx {A} (f : M (Ctx.t B) A) :
  (∀ x, TextContext.request_id (Ctx.base (f x).2) = TextContext.request_id (Ctx.base x)) → keeps_world (on_ctx f).
Proof.
  intros Hf [m x] [Hm Hx]. unfold on_ctx, zoom. simpl in *. specialize (Hf x). destruct (f x) as [o x']. simpl in *.
  split; [done|]. unfold request_id in *. simpl in *. congruence.
Qed.
Lemma tokens_same {A} (f : M TokenBuffer.t A) (x : Ctx.t B) :
  TextContext.request_id (Ctx.base (Ctx.on_tokens f x).2) = TextContext.request_id (Ctx.base x).
Proof.
  unfold Ctx.on_tokens, Ctx.on_base, TextContext.on_tokens, zoom. destruct (f _) as [o b]. simpl.
  by rewrite Ownership.base_set_base.
Qed.
Lemma base_same {A} (f : M (TextContext.t B) A) (x : Ctx.t B) :
  (∀ c, TextContext.request_id (f c).2 = TextContext.request_id c) →
  TextContext.request_id (Ctx.base (Ctx.on_base f x).2) = TextContext.request_id (Ctx.base x).
Proof.
  intros Hf. unfold Ctx.on_base, zoom. specialize (Hf (Ctx.base x)). destruct (f _) as [o c]. simpl in *.
  by rewrite Ownership.base_set_base.
Qed.
Lemma hashes_same ex bs algo seed (x : Ctx.t B) :
  TextContext.request_id (Ctx.base (BlockHashes.compute_block_hashes ex bs algo seed x).2) = TextContext.request_id (Ctx.base x).
Proof.
  unfold BlockHashes.compute_block_hashes, bind, get. destruct (_ <? bs); [done|]. unfold of_outcome.
  destruct (BlockHashes.overrides_of x); [apply tokens_same|done].
Qed.

Ltac walk_world :=
  repeat first
    [ walk_step
    | apply world_ctx; intro; apply tokens_same
    | apply world_ctx; intro; apply hashes_same
    | apply world_ctx; intro; apply base_same; intro;
        first [by rewrite Ownership.spec_state_run | by rewrite Ownership.compute_seq_len_run | done]
    | apply world_mgr ].

Lemma world_hashes : keeps_world compute_hashes_for_request.
Proof. unfold compute_hashes_for_request, text. walk_world; walk. Qed.

Lemma world_uncommit : keeps_world release_uncommitted_blocks.
Proof. unfold release_uncommitted_blocks, text. walk_world; walk; try apply claims_replica_of. Qed.

Lemma world_reuse : keeps_world reuse_blocks_from_prefix_cache.
Proof.
  unfold reuse_blocks_from_prefix_cache, text. walk_world;
    first [apply world_hashes | apply world_uncommit | apply claims_replica_of | apply claims_checks | apply claims_full
          | apply claims_count | walk].
Qed.

Lemma world_allocate n k : keeps_world (allocate_new_blocks n k).
Proof.
  unfold allocate_new_blocks, num_blocks_to_allocate, text. walk_world;
    first [apply claims_replica_of | apply claims_count | apply claims_device_block | walk]; try apply claims_device_block.
Qed.

Lemma claims_get_blocks rid : keeps_claims (get_req_blocks rid).
Proof. unfold get_req_blocks. walk. apply claims_replica_of. Qed.

Lemma claims_exist i : keeps_claims (pending_transfers_exist i).
Proof. unfold pending_transfers_exist. walk. apply claims_transfers_at. Qed.

(** [release] up to the dictionaries. *)
Lemma claims_freeing rid :
  keeps_claims (let! replica_idx := _replica_of rid in let! _ := pool_at replica_idx in
    let! blocks := blocks_of rid in let! m := get in
    for_each (if enable_prefix_caching m then rev blocks else blocks) (λ r, on_pool replica_idx (BlockPool.free_block r))).
Proof. walk; apply claims_replica_of. Qed.

End Blocks.

(** ** The cache *)
Section Cache.
Context `{Digest} {B : Backend} `{KVConnector} `{Driver}.
Import PagedKVCacheManager.

Lemma contains_blocks {A} (f : M BlockManager.t A) m x :
  (∀ R, preserves (Claims R) f) → contains x (on_blocks f m).2 = contains x m.
Proof.
  intros Hf. specialize (Hf (BlockManager.req_to_replica (_block_manager m)) (_block_manager m) eq_refl).
  unfold on_blocks, zoom. destruct (f _) as [o b]. simpl in *. unfold contains. simpl. by rewrite Hf.
Qed.

Lemma claim_others rid i b x :
  x ≠ rid → BlockManager.req_to_replica (BlockManager.claim rid i b).2 !! x = BlockManager.req_to_replica b !! x.
Proof.
  intros Hx. unfold BlockManager.claim, bind, get. destruct (_ !! rid); [done|]. simpl. by rewrite lookup_insert_ne.
Qed.

Lemma release_others rid b x :
  x ≠ rid → BlockManager.req_to_replica (BlockManager.release rid b).2 !! x = BlockManager.req_to_replica b !! x.
Proof.
  intros Hx. pose proof (claims_freeing (BlockManager.req_to_replica b) rid b eq_refl) as HC. unfold Claims in HC.
  revert HC. unfold BlockManager.release, bind, get, modify.
  repeat match goal with
  | |- context [match ?f ?y with _ => _ end] => lazymatch type of (f y) with prod _ _ => destruct (f y) as [[?|?] ?] end
  end; simpl; rewrite ?lookup_delete_ne by done; by intros ->.
Qed.

Lemma count_contains i m x : contains x (block_count i m).2 = contains x m.
Proof.
  pose proof (contains_blocks (BlockManager.pool_at i) m x (λ R, claims_pool_at R i)) as HC.
  unfold block_count, bind, get in *. by destruct (on_blocks _ m) as [[?|?] ?].
Qed.

(** With the request's context. *)
Definition MClaims (R : gmap Z Z) (rid : Z) (w : world) : Prop := Claims R (_block_manager (kv w)) ∧ request_id w = rid.

Lemma cache_blocks {A} R rid (f : M BlockManager.t A) :
  preserves (Claims R) f → preserves (MClaims R rid) (on_kv (on_blocks f)).
Proof.
  intros Hf [k x] [Hk Hx]. unfold on_kv, on_blocks, zoom in *. simpl in *. specialize (Hf (_block_manager k) Hk).
  by destruct (f _).
Qed.
Lemma cache_request {A} R rid (f : M BlockManager.world A) :
  preserves (WClaims R rid) f → preserves (MClaims R rid) (on_request f).
Proof.
  intros Hf [k x] [Hk Hx]. unfold on_request. simpl in *.
  specialize (Hf (BlockManager.mk_world (_block_manager k) x) (conj Hk Hx)). by destruct (f _) as [o [m' x']].
Qed.

Lemma cache_alloc R rid : preserves (MClaims R rid) alloc.
Proof.
  unfold alloc. apply preserves_bind; [apply cache_blocks, claims_poll|intros _].
  apply preserves_bind; [apply cache_request, world_reuse|intros [n e]].
  apply preserves_bind; [apply preserves_get|intros w].
  apply preserves_bind; [apply cache_request, world_allocate|intros; apply preserves_ret].
Qed.

Lemma cache_hits R rid : preserves (MClaims R rid) get_prefix_cache_hit_counts.
Proof.
  unfold get_prefix_cache_hit_counts. apply preserves_bind; [apply preserves_get|intros w].
  destruct (negb _); [apply preserves_ret|]. apply preserves_bind.
  { apply cache_request, world_ctx. intros x. apply hashes_same. }
  intros l. apply preserves_for_map. intros i _. apply cache_blocks, claims_count_cached.
Qed.

Lemma paired_frame {A} (f : M world A) k (c : Ctx.t B) x :
  (∀ R rid, preserves (MClaims R rid) f) →
  contains x (paired f (k, c)).2.1 = contains x k ∧
  TextContext.request_id (Ctx.base (paired f (k, c)).2.2) = TextContext.request_id (Ctx.base c).
Proof.
  intros Hf. specialize (Hf _ _ (mk_world k c) (conj eq_refl eq_refl)). unfold paired. simpl.
  destruct (f _) as [o [k' c']]. simpl in *. destruct Hf as [Hk Hc]. split; [|done]. unfold contains, Claims in *. simpl in *.
  by rewrite Hk.
Qed.

#[export] Instance paged_kv_frame : KVFrame (B := B) | 10.
Proof.
  split; simpl.
  - intros rid i k x Hx. unfold claim, on_blocks, zoom. pose proof (claim_others rid i (_block_manager k) x Hx) as HE.
    destruct (BlockManager.claim _ _ _) as [o b]. unfold contains. simpl in *. by rewrite HE.
  - intros rid i k k' E. unfold claim, on_blocks, zoom, BlockManager.claim, bind, get in E.
    destruct (_ !! rid); [done|]. apply (f_equal snd) in E. simpl in E. rewrite <- E. unfold contains. simpl. by rewrite lookup_insert_eq.
  - intros rid k x Hx. unfold release, bind, get. unfold raise_if. destruct (negb _); [done|]. simpl.
    unfold on_blocks, zoom. pose proof (release_others rid (_block_manager k) x Hx) as HE.
    destruct (BlockManager.release _ _) as [o b]. unfold contains. simpl in *. by rewrite HE.
  - intros rid k l k' E. unfold get_req_blocks, on_blocks, zoom in E.
    destruct (BlockManager.get_req_blocks rid _) as [o b] eqn:Eg. injection E as -> _.
    unfold BlockManager.get_req_blocks in Eg. apply bind_ok in Eg as (i & b1 & E1 & _).
    unfold BlockManager._replica_of, bind, get in E1. unfold contains. by destruct (_ !! rid).
  - intros rid k x. apply contains_blocks. intros R. apply claims_get_blocks.
  - intros i k x. apply count_contains.
  - intros i k x. apply contains_blocks. intros R. apply claims_exist.
  - intros k c x. apply (paired_frame alloc k c x). intros. apply cache_alloc.
  - intros k c x. apply (paired_frame get_prefix_cache_hit_counts k c x). intros. apply cache_hits.
  - intros k c. apply (paired_frame alloc k c 0). intros. apply cache_alloc.
  - intros k c. apply (paired_frame get_prefix_cache_hit_counts k c 0). intros. apply cache_hits.
Qed.
End Cache.
End PagedFrame.
