(* ===== verification/DecodeFacts.v ===== *)
(** * The decode node loses no request

    Where the requests sent to a decode node are, and what its reservations count. *)

From S2P Require Import Prelude Tokens Eos FreeQueue Pool Grammar Context Hashing Connector Manager ManagerFacts ManagerProperties CacheManager KVInterface Dict Budget Lora Batch BatchFacts Conservation Spending BatchErrors Planning BatchProperties Scheduler SchedulerProperties Disagg Decode Frame.

(** Waiting for an onload neither claims nor releases. *)
Class SyncFrame {B : Backend} `{KV : !KVCache, TE : !TransferEngine} : Prop := {
  sync_claims e k x : kv_contains x (onload_synchronize e k).2 = kv_contains x k
}.

Module DecodeFacts.
Import ReplicaRequests TextBatchConstructor BatchFacts Conservation ConstructorKeeps SchedulerFacts DecodeScheduler.

Section Facts.
Context {B : Backend} `{KV : !KVCache, P : Pipeline, F : Floats, G : !GrammarBuilder, A : AdapterStore,
  TE : !TransferEngine, X : !Executor, N : NumPy}.
Implicit Types s : DecodeScheduler.t.

Abbreviation keys s := (OrderedDict.keys (DecodeScheduler.requests s)).

(** The ids of the requests of a decode node that holds [L] in its constructor. *)
Definition places (L : list Z) s : list Z :=
  map Batch.request_id (request_queue s) ++ pending_reqs s ++ keys s ++ L.

Definition count_at s (i : Z) : Z := len (filter (λ e, replica_idx e.2 = i) (DecodeScheduler.requests s)).

(** The books of a decode node: of the requests [R] sent to it, the constructor holds
    [L], of which [out] are in batches. *)
Record DBooks (out L R : list Z) s : Prop := {
  db_held : Book out L (batch_constructor s);
  db_places : NoDup (places L s);
  db_sent : ∀ x, x ∈ places L s → x ∈ R;
  db_answered : ∀ x, x ∈ R → x ∈ places L s ∨ x ∈ terminal_ids (response_queue s);
  db_cancelled : ∀ x p, (x, p) ∈ DecodeScheduler.requests s → cancelled p = true → x ∈ terminal_ids (response_queue s);
  db_range : ∀ x p, (x, p) ∈ DecodeScheduler.requests s → 0 ≤ replica_idx p < len (prefill_reqs_per_replica s);
  db_counts : ∀ i, 0 ≤ i < len (prefill_reqs_per_replica s) → prefill_reqs_per_replica s !! Z.to_nat i = Some (count_at s i);
  db_size : len (prefill_reqs_per_replica s) = n_replicas (batch_constructor s)
}.

(** *** The constructor in the scheduler *)

Lemma decode_call_ok {Y} (f : M TextBatchConstructor.t Y) s y s' :
  on_constructor f s = (Ok y, s') →
  ∃ c, f (with_inflight (_inflight_kv_transfer_count s) (batch_constructor s)) = (Ok y, c) ∧ s' = set_constructor c s.
Proof. unfold on_constructor. destruct (f _) as [o c]. intros [= -> <-]. eauto. Qed.

Lemma book_inflight g out L c : Book out L c → Book out L (with_inflight g c).
Proof. intros []. by split. Qed.

(** A call of the constructor that moves no request. *)
Lemma dbooks_same out L R s c :
  DBooks out L R s → Same (with_inflight (_inflight_kv_transfer_count s) (batch_constructor s)) c →
  DBooks out L R (set_constructor c s).
Proof.
  intros [] HS. split; try done.
  - eapply book_same; [exact HS|]. by apply book_inflight.
  - simpl. rewrite db_size0. unfold n_replicas. by rewrite (same_settings _ _ HS).
Qed.

Lemma quiet_books {Y} (f : M TextBatchConstructor.t Y) out L R s y s' :
  quiet f → DBooks out L R s → on_constructor f s = (Ok y, s') →
  DBooks out L R s' ∧ ∃ c, s' = set_constructor c s.
Proof.
  intros Hf HB E. apply decode_call_ok in E as (c & E & ->). split; [|by exists c]. apply dbooks_same; [done|].
  match type of E with _ ?x = _ => pose proof (Hf x) as HS end. by rewrite E in HS.
Qed.

(** Fields that the books do not read. *)
Lemma dbooks_other out L R s s' :
  DBooks out L R s → batch_constructor s' = batch_constructor s → request_queue s' = request_queue s →
  pending_reqs s' = pending_reqs s → DecodeScheduler.requests s' = DecodeScheduler.requests s →
  prefill_reqs_per_replica s' = prefill_reqs_per_replica s → response_queue s' = response_queue s → DBooks out L R s'.
Proof.
  intros [] E1 E2 E3 E4 E5 E6. unfold places, count_at in *. split; unfold places, count_at; rewrite ?E1, ?E2, ?E3, ?E4, ?E5, ?E6; done.
Qed.

(** A new message answers for good requests the books may forget. *)
Lemma terminal_more ms (m : list (Z * SchedulerResult.t B)) x : x ∈ terminal_ids ms → x ∈ terminal_ids (ms ++ [m]).
Proof. rewrite terminal_snoc, elem_of_app. by left. Qed.

Lemma dbooks_message out L R s m : DBooks out L R s → DBooks out L R (set_response_queue (response_queue s ++ [m]) s).
Proof.
  intros []. split; try done.
  - intros x Hx. destruct (db_answered0 x Hx); [by left|right]. by apply terminal_more.
  - intros x p Hp Hc. apply terminal_more. by eapply db_cancelled0.
Qed.

Lemma terminal_one ms rid (r : SchedulerResult.t B) :
  SchedulerResult.is_done r = true → terminal_ids (ms ++ [[(rid, r)]]) = terminal_ids ms ++ [rid].
Proof. intros Hr. rewrite terminal_snoc. unfold terminal_of. rewrite filter_cons_True by done. done. Qed.

(** *** Reservations *)

Lemma lookup_entry (d : list (Z * PendingDecodeRequest)) rid p : OrderedDict.lookup rid d = Some p → (rid, p) ∈ d.
Proof. apply OrderedDict.lookup_Some. Qed.

Lemma keys_nodup L s : NoDup (places L s) → NoDup (keys s).
Proof. unfold places. intros (_ & _ & (_ & _ & (H & _)%NoDup_app)%NoDup_app)%NoDup_app. done. Qed.

(** The counter of a replica. *)
Lemma add_count_ok i d s s' :
  0 ≤ i < len (prefill_reqs_per_replica s) → add_count i d s = (Ok tt, s') →
  ∃ n, prefill_reqs_per_replica s !! Z.to_nat i = Some n ∧
    s' = set_counts (<[Z.to_nat i := n + d]> (prefill_reqs_per_replica s)) s.
Proof.
  intros Hi E. unfold add_count in E. unfold bind at 1, get in E. apply bind_ok in E as (n & s1 & E1 & E).
  rewrite py_index_inside in E1 by done. replace (i <? 0) with false in E by lia.
  destruct (prefill_reqs_per_replica s !! Z.to_nat i) as [m|]; [|done]. injection E1 as -> <-.
  exists n. split; [done|]. by injection E as <-.
Qed.

Lemma count_delete (d : list (Z * PendingDecodeRequest)) rid p i :
  NoDup (OrderedDict.keys d) → OrderedDict.lookup rid d = Some p →
  len (filter (λ e, replica_idx e.2 = i) d) =
  len (filter (λ e, replica_idx e.2 = i) (OrderedDict.delete rid d)) + (if decide (replica_idx p = i) then 1 else 0).
Proof.
  intros Hnd Hp. unfold len. rewrite (OrderedDict.delete_perm d rid p Hnd Hp) at 1. rewrite filter_cons. simpl.
  destruct (decide _); simpl; lia.
Qed.

Lemma count_set (d : list (Z * PendingDecodeRequest)) rid p p' i :
  OrderedDict.lookup rid d = Some p → replica_idx p' = replica_idx p →
  len (filter (λ e, replica_idx e.2 = i) (OrderedDict.set rid p' d)) = len (filter (λ e, replica_idx e.2 = i) d).
Proof.
  intros Hp Hr. induction d as [|[k q] d IH]; [done|]. simpl in *. destruct (decide (k = rid)) as [->|].
  - injection Hp as ->. rewrite !filter_cons. simpl. rewrite Hr. destruct (decide _); done.
  - rewrite !filter_cons. simpl. specialize (IH Hp). unfold len in *. destruct (decide _); simpl; lia.
Qed.

Lemma count_new (d : list (Z * PendingDecodeRequest)) rid p i :
  rid ∉ OrderedDict.keys d →
  len (filter (λ e, replica_idx e.2 = i) (OrderedDict.set rid p d)) =
  len (filter (λ e, replica_idx e.2 = i) d) + (if decide (replica_idx p = i) then 1 else 0).
Proof.
  intros Hn. rewrite OrderedDict.set_new by done. rewrite filter_app, len_app, filter_cons. simpl. rewrite filter_nil.
  destruct (decide _); done.
Qed.

(** The counters follow the entries. *)
Lemma counts_follow (l : list Z) (f g : Z → Z) i n d :
  (∀ j, 0 ≤ j < len l → l !! Z.to_nat j = Some (f j)) → 0 ≤ i < len l → l !! Z.to_nat i = Some n →
  (∀ j, g j = f j + (if decide (i = j) then d else 0)) →
  ∀ j, 0 ≤ j < len (<[Z.to_nat i := n + d]> l) → <[Z.to_nat i := n + d]> l !! Z.to_nat j = Some (g j).
Proof.
  intros Hl Hi Hn Hg j Hj. unfold len in *. rewrite length_insert in Hj. rewrite Hg. destruct (decide (i = j)) as [->|Hne].
  - rewrite list_lookup_insert_eq by lia. rewrite Hl in Hn by lia. by injection Hn as <-.
  - rewrite list_lookup_insert_ne by lia. rewrite Hl by lia. by rewrite Z.add_0_r.
Qed.

(** *** Calls that change nothing the books read *)

Record Still s s' : Prop := {
  st_queue : request_queue s' = request_queue s;
  st_pending : pending_reqs s' = pending_reqs s;
  st_requests : DecodeScheduler.requests s' = DecodeScheduler.requests s;
  st_counts : prefill_reqs_per_replica s' = prefill_reqs_per_replica s;
  st_answers : response_queue s' = response_queue s;
  st_held out L : Book out L (batch_constructor s) → Book out L (batch_constructor s');
  st_config : config s' = config s;
  st_replicas : n_replicas (batch_constructor s') = n_replicas (batch_constructor s);
  st_generating : all_tg_reqs (batch_constructor s') = all_tg_reqs (batch_constructor s)
}.

#[export] Instance still_refl : Reflexive Still.
Proof. by intros s. Qed.
#[export] Instance still_trans : Transitive Still.
Proof. intros s1 s2 s3 [] []. split; try congruence. auto. Qed.

Lemma dbooks_still out L R s s' : Still s s' → DBooks out L R s → DBooks out L R s'.
Proof.
  intros [E1 E2 E3 E4 E5 E6 _ E7] []. unfold places, count_at in *.
  split; unfold places, count_at; rewrite ?E1, ?E2, ?E3, ?E4, ?E5, ?E7; auto.
Qed.

Definition steady {Y} (f : M DecodeScheduler.t Y) : Prop := ∀ s, Still s (f s).2.

Lemma steady_bind {Y Z'} (f : M DecodeScheduler.t Y) (g : Y → M DecodeScheduler.t Z') :
  steady f → (∀ y, steady (g y)) → steady (bind f g).
Proof.
  intros Hf Hg s. unfold bind. specialize (Hf s). destruct (f s) as [[y|e] s1]; [|done]. simpl in Hf.
  transitivity s1; [done|apply Hg].
Qed.
Lemma steady_ret {Y} (y : Y) : steady (ret y).
Proof. by intros s. Qed.
Lemma steady_get : steady get.
Proof. by intros s. Qed.
Lemma steady_raise {Y} e : steady (raise (A := Y) e).
Proof. by intros s. Qed.
Lemma steady_raise_if b e : steady (raise_if b e).
Proof. by destruct b. Qed.
Lemma steady_assert b : steady (py_assert b).
Proof. by destruct b. Qed.
Lemma steady_option {Y} e (o : option Y) : steady (of_option e o).
Proof. by destruct o. Qed.
Lemma steady_outcome {Y} (o : outcome Y) : steady (of_outcome o).
Proof. by intros s. Qed.
Lemma steady_when b f : steady f → steady (when b f).
Proof. by destruct b. Qed.
Lemma steady_catch {Y} (f : M DecodeScheduler.t Y) h : steady f → (∀ e k, h e = Some k → steady k) → steady (catch f h).
Proof.
  intros Hf Hh s. unfold catch. specialize (Hf s). destruct (f s) as [[y|e] s1]; [done|]. simpl in Hf.
  destruct (h e) as [k|] eqn:E; [|done]. transitivity s1; [done|]. by apply (Hh e).
Qed.
Lemma steady_constructor {Y} (f : M TextBatchConstructor.t Y) : quiet f → steady (on_constructor f).
Proof.
  intros Hf s. unfold on_constructor. set (c0 := with_inflight _ _). specialize (Hf c0). destruct (f c0) as [o c]. simpl in *.
  split; try done; simpl.
  - intros out L HB. eapply book_same; [exact Hf|]. by apply book_inflight.
  - unfold config, TextBatchConstructor.config. simpl. by rewrite (same_settings _ _ Hf).
  - unfold n_replicas. simpl. by rewrite (same_settings _ _ Hf).
  - unfold all_tg_reqs. by rewrite (same_replicas _ _ Hf).
Qed.
Lemma steady_kv {Y} (f : M cache Y) : steady (on_kv f).
Proof. apply steady_constructor, quiet_on_kv. Qed.
Lemma steady_engine {Y} (f : M engine Y) : steady (on_engine f).
Proof. intros s. unfold on_engine, zoom. by destruct (f _). Qed.
Lemma steady_send m dest : steady (send_request_nowait m dest).
Proof. by intros s. Qed.
Lemma steady_context rid {Y} (f : M (Ctx.t B) Y) : steady (on_context rid f).
Proof. apply steady_constructor, quiet_on_request. Qed.
Lemma steady_context_of rid : steady (context_of rid).
Proof. apply steady_constructor, quiet_request. Qed.
Lemma steady_room l : steady (any_room l).
Proof.
  induction l as [|i l IH]; [apply steady_ret|]. apply steady_bind; [apply steady_kv|intros n].
  destruct (f_ltb _ _); [apply steady_ret|done].
Qed.
Lemma steady_cancel_prefill rid : steady (_send_cancel_to_prefill rid).
Proof.
  apply steady_bind; [apply steady_context_of|intros r]. destruct (target_endpoint r); [apply steady_send|apply steady_ret].
Qed.
Lemma steady_send_prefill rid l i : steady (send_prefill_request rid l i).
Proof.
  unfold send_prefill_request. apply steady_bind; [apply steady_context_of|intros r].
  apply steady_bind; [apply steady_option|intros e]. apply steady_bind; [apply steady_get|intros s].
  apply steady_bind; [apply steady_when, steady_bind; [apply steady_send|by intros _ s']|intros _].
  apply steady_bind; [apply steady_assert|intros _]. apply steady_bind; [apply steady_outcome|intros l']. apply steady_send.
Qed.

Lemma steady_run {Y} (f : M DecodeScheduler.t Y) s y s' : steady f → f s = (Ok y, s') → Still s s'.
Proof. intros Hf E. specialize (Hf s). by rewrite E in Hf. Qed.

(** *** Entries of [requests] *)

Lemma elem_set (d : list (Z * PendingDecodeRequest)) rid p x q :
  (x, q) ∈ OrderedDict.set rid p d → (x, q) = (rid, p) ∨ (x, q) ∈ d.
Proof.
  induction d as [|[k v] d IH]; simpl; [rewrite list_elem_of_singleton; by left|].
  destruct (decide (k = rid)); rewrite !elem_of_cons; naive_solver.
Qed.

(** An entry changes, but neither its replica nor the requests there are. *)
Lemma put_pending_books rid p p' L R s :
  DBooks [] L R s → OrderedDict.lookup rid (DecodeScheduler.requests s) = Some p → replica_idx p' = replica_idx p →
  (cancelled p' = true → rid ∈ terminal_ids (response_queue s)) →
  DBooks [] L R (DecodeScheduler.set_requests (OrderedDict.set rid p' (DecodeScheduler.requests s)) s).
Proof.
  intros [] Hp Hr Hc.
  assert (OrderedDict.keys (OrderedDict.set rid p' (DecodeScheduler.requests s)) = keys s) as Hk.
  { apply OrderedDict.keys_set_old, OrderedDict.lookup_keys. by exists p. }
  unfold places, count_at in *. split; unfold places, count_at; simpl; rewrite ?Hk; try done.
  - intros x q [[= -> ->]|Hq]%elem_set; [done|by apply db_cancelled0].
  - intros x q [[= -> ->]|Hq]%elem_set; [|by eapply db_range0]. rewrite Hr. by eapply db_range0, OrderedDict.lookup_Some.
  - intros i Hi. rewrite (count_set _ _ p) by done. by apply db_counts0.
Qed.

(** An entry goes: its request is with the constructor, or answered for good. *)
Lemma drop_books rid p L L' R s s' n :
  DBooks [] L R s → OrderedDict.lookup rid (DecodeScheduler.requests s) = Some p →
  request_queue s' = request_queue s → pending_reqs s' = pending_reqs s →
  DecodeScheduler.requests s' = OrderedDict.delete rid (DecodeScheduler.requests s) →
  prefill_reqs_per_replica s !! Z.to_nat (replica_idx p) = Some n →
  prefill_reqs_per_replica s' = <[Z.to_nat (replica_idx p) := n + -1]> (prefill_reqs_per_replica s) →
  n_replicas (batch_constructor s') = n_replicas (batch_constructor s) →
  (∀ x, x ∈ terminal_ids (response_queue s) → x ∈ terminal_ids (response_queue s')) →
  Book [] L' (batch_constructor s') →
  L' ≡ₚ rid :: L ∨ (L' ≡ₚ L ∧ rid ∈ terminal_ids (response_queue s')) →
  DBooks [] L' R s'.
Proof.
  intros [] Hp Eq Ep Er Hn Ec En Ht HB HL.
  pose proof (keys_nodup _ _ db_places0) as Hnd. pose proof (OrderedDict.delete_perm _ rid p Hnd Hp) as Hperm.
  assert (keys s ≡ₚ rid :: OrderedDict.keys (OrderedDict.delete rid (DecodeScheduler.requests s))) as Hk.
  { unfold OrderedDict.keys. by rewrite Hperm at 1. }
  assert (places L s ≡ₚ rid :: (map Batch.request_id (request_queue s') ++ pending_reqs s' ++ keys s' ++ L)) as Hpl.
  { unfold places. rewrite Eq, Ep, Er, Hk. simpl. by rewrite <- !Permutation_middle. }
  assert (places L' s' ≡ₚ places L s ∨ (rid :: places L' s' ≡ₚ places L s ∧ rid ∈ terminal_ids (response_queue s'))) as HP.
  { destruct HL as [HL|[HL Hr]]; [left|right; split; [|done]].
    - rewrite Hpl. unfold places. rewrite HL. by rewrite <- !Permutation_middle.
    - rewrite Hpl. unfold places. by rewrite HL. }
  assert (∀ x q, (x, q) ∈ DecodeScheduler.requests s' → (x, q) ∈ DecodeScheduler.requests s) as Hsub.
  { intros x q. rewrite Er. intros H. eapply elem_of_submseteq; [exact H|]. apply sublist_submseteq, OrderedDict.delete_sublist. }
  split; try done.
  - destruct HP as [HP|[HP _]]; [by rewrite HP|]. rewrite <- HP in db_places0. by apply NoDup_cons in db_places0 as [_ ?].
  - intros x Hx. apply db_sent0. destruct HP as [HP|[HP _]]; rewrite <- HP; [done|by right].
  - intros x Hx. destruct (db_answered0 x Hx) as [Hx'|Hx']; [|right; by apply Ht].
    destruct HP as [HP|[HP Hr]]; rewrite <- HP in Hx'; [by left|]. apply elem_of_cons in Hx' as [->|?]; [by right|by left].
  - intros x q Hq Hc. apply Ht. by eapply db_cancelled0; [apply Hsub|].
  - intros x q Hq. rewrite Ec. unfold len. rewrite length_insert. by eapply db_range0, Hsub.
  - rewrite Ec. apply (counts_follow _ (count_at s) (count_at s')); [done|by eapply db_range0, OrderedDict.lookup_Some|done|].
    intros j. unfold count_at. rewrite Er, (count_delete (DecodeScheduler.requests s) rid p j) by done. destruct (decide _); lia.
  - rewrite Ec. unfold len. rewrite length_insert. fold (len (prefill_reqs_per_replica s)). by rewrite db_size0.
Qed.

(** Requests leave the constructor, answered for good. *)
Lemma gone_books gone out out' L L' R s s' :
  DBooks out L R s → L ≡ₚ gone ++ L' → Book out' L' (batch_constructor s') →
  request_queue s' = request_queue s → pending_reqs s' = pending_reqs s →
  DecodeScheduler.requests s' = DecodeScheduler.requests s →
  prefill_reqs_per_replica s' = prefill_reqs_per_replica s →
  n_replicas (batch_constructor s') = n_replicas (batch_constructor s) →
  (∀ x, x ∈ terminal_ids (response_queue s) → x ∈ terminal_ids (response_queue s')) →
  (∀ x, x ∈ gone → x ∈ terminal_ids (response_queue s')) →
  DBooks out' L' R s'.
Proof.
  intros [] HL HB Eq Ep Er Ec En Ht Hg.
  assert (places L s ≡ₚ gone ++ places L' s') as HP.
  { unfold places. rewrite Eq, Ep, Er, HL. rewrite !app_assoc. rewrite (Permutation_app_comm _ gone). by rewrite !app_assoc. }
  unfold count_at in *. split; unfold count_at; rewrite ?Er, ?Ec, ?En; try done.
  - rewrite HP in db_places0. by apply NoDup_app in db_places0 as (_ & _ & ?).
  - intros x Hx. apply db_sent0. rewrite HP, elem_of_app. by right.
  - intros x Hx. destruct (db_answered0 x Hx) as [Hx'|Hx']; [|right; by apply Ht].
    rewrite HP, elem_of_app in Hx'. destruct Hx' as [Hx'|Hx']; [right; by apply Hg|by left].
  - intros x p Hp Hc. by eapply Ht, db_cancelled0.
Qed.

(** The oldest waiting request is sent to a prefill node. *)
Lemma reserved_books rid rest p n L R s s' :
  DBooks [] L R s → pending_reqs s = rid :: rest → cancelled p = false →
  0 ≤ replica_idx p < len (prefill_reqs_per_replica s) → prefill_reqs_per_replica s !! Z.to_nat (replica_idx p) = Some n →
  Book [] L (batch_constructor s') → request_queue s' = request_queue s → pending_reqs s' = rest →
  DecodeScheduler.requests s' = OrderedDict.set rid p (DecodeScheduler.requests s) →
  prefill_reqs_per_replica s' = <[Z.to_nat (replica_idx p) := n + 1]> (prefill_reqs_per_replica s) →
  n_replicas (batch_constructor s') = n_replicas (batch_constructor s) → response_queue s' = response_queue s →
  DBooks [] L R s'.
Proof.
  intros [] Ep Hc Hi Hn HB Eq Ep' Er Ec En Et.
  assert (rid ∉ keys s) as Hrid.
  { unfold places in db_places0. rewrite Ep in db_places0. apply NoDup_app in db_places0 as (_ & _ & Hnd). simpl in Hnd.
    apply NoDup_cons in Hnd as [Hnd _]. rewrite !elem_of_app in Hnd. tauto. }
  assert (places L s' ≡ₚ places L s) as HP.
  { unfold places. rewrite Eq, Ep', Er, Ep, OrderedDict.set_new by done. unfold OrderedDict.keys. rewrite fmap_app. simpl.
    f_equiv. rewrite <- app_assoc. simpl. rewrite <- !Permutation_middle. done. }
  split; rewrite ?Et; try done.
  - by rewrite HP.
  - intros x. rewrite HP. apply db_sent0.
  - intros x Hx. rewrite HP. by apply db_answered0.
  - rewrite Er. intros x q [[= -> ->]|Hq]%elem_set; [by rewrite Hc|by apply db_cancelled0].
  - rewrite Er, Ec. unfold len. rewrite length_insert. intros x q [[= -> ->]|Hq]%elem_set; [done|by eapply db_range0].
  - rewrite Ec. apply (counts_follow _ (count_at s) (count_at s')); [done..|]. intros j. unfold count_at. rewrite Er.
    by apply count_new.
  - rewrite Ec. unfold len. rewrite length_insert. fold (len (prefill_reqs_per_replica s)). by rewrite En.
Qed.

(** *** Objects and claims *)

(** Objects have the ids they are known by, and the reserved requests hold claims. *)
Record Owned s : Prop := {
  ow_ids : ∀ rid r, TextBatchConstructor.requests (batch_constructor s) !! rid = Some r → Batch.request_id r = rid;
  ow_claims : ∀ x, x ∈ keys s → kv_contains x (kv s) = true
}.

Context `{FR : !KVFrame, EF : !ExecutorFrame, SF : !SyncFrame}.
Import Frame.

Definition Outside (D : Z → Prop) s : Prop := Framed D (batch_constructor s).
Abbreviation outside D f := (preserves (Outside D) f).

Lemma outside_books (D : Z → Prop) L R s :
  DBooks [] L R s → Owned s → (∀ x, D x → x ∈ keys s) → Outside D s.
Proof.
  intros HB [Hi Hc] HD. eapply framed_of_books; [apply HB| |done|].
  - intros x Hd. apply HD in Hd. pose proof (db_places _ _ _ _ HB) as Hnd. unfold places in Hnd.
    do 2 apply NoDup_app in Hnd as (_ & _ & Hnd). apply NoDup_app in Hnd as (_ & Hnd & _). by apply Hnd.
  - intros x Hd. by apply Hc, HD.
Qed.

Lemma owned_outside (D : Z → Prop) s : Outside D s → (∀ x, x ∈ keys s → D x) → Owned s.
Proof. intros [] HD. split; [done|]. intros x Hx. by apply fr_claimed0, HD. Qed.

Lemma outside_ok {Y} D (f : M DecodeScheduler.t Y) s y s' : outside D f → Outside D s → f s = (Ok y, s') → Outside D s'.
Proof. intros Hf Hs E. specialize (Hf s Hs). by rewrite E in Hf. Qed.

Section Outside.
Context (D : Z → Prop).

Lemma outside_constructor {Y} (f : M TextBatchConstructor.t Y) : preserves (Framed D) f → outside D (on_constructor f).
Proof.
  intros Hf s Hs. unfold on_constructor. set (c0 := with_inflight _ _). assert (Framed D c0) as H0 by (by apply framed_settings).
  specialize (Hf c0 H0). by destruct (f c0) as [o c].
Qed.
Lemma outside_fields f : (∀ s, batch_constructor (f s) = batch_constructor s) → outside D (modify f).
Proof. intros Hf s Hs. unfold Outside. simpl. by rewrite Hf. Qed.
Lemma outside_engine {Y} (f : M engine Y) : outside D (on_engine f).
Proof. intros s Hs. unfold on_engine, zoom. by destruct (f _). Qed.
Lemma outside_kv {Y} (f : M cache Y) : (∀ k x, D x → kv_contains x (f k).2 = kv_contains x k) → outside D (on_kv f).
Proof. intros Hf. by apply outside_constructor, framed_kv. Qed.
Lemma outside_context {Y} rid (f : M (Ctx.t B) Y) :
  (∀ x, TextContext.request_id (Ctx.base (f x).2) = TextContext.request_id (Ctx.base x)) → outside D (on_context rid f).
Proof. intros Hf. by apply outside_constructor, framed_on_request. Qed.
Lemma outside_context_of rid : outside D (context_of rid).
Proof. apply outside_constructor, framed_request. Qed.
Lemma outside_add_count i d : outside D (add_count i d).
Proof.
  unfold add_count. apply preserves_bind_get. intros s _. apply preserves_bind; [apply preserves_of_option|intros n].
  by apply outside_fields.
Qed.
End Outside.

(** *** A request's context stays the request's *)

Definition Is (rid : Z) (c : TextContext.t B) : Prop := TextContext.request_id c = rid.

Lemma is_zoom {T Y} rid (g : TextContext.t B → T) (p : T → TextContext.t B → TextContext.t B) (f : M T Y) :
  (∀ x c, TextContext.request_id (p x c) = TextContext.request_id c) → preserves (Is rid) (zoom g p f).
Proof. intros Hp c Hc. unfold zoom, Is. destruct (f (g c)) as [o x]. simpl. by rewrite Hp. Qed.
Lemma is_modify rid f : (∀ c : TextContext.t B, TextContext.request_id (f c) = TextContext.request_id c) → preserves (Is rid) (modify f).
Proof. intros Hf c Hc. unfold Is. simpl. by rewrite Hf. Qed.

Ltac walk_context :=
  repeat first [ walk_step | (apply is_zoom; intros; done) | (apply is_modify; intros; done) ].

Lemma is_spec rid : preserves (Is rid) TextContext.spec_decoding_state.
Proof. unfold TextContext.spec_decoding_state. walk_context. Qed.
Lemma is_output rid : preserves (Is rid) TextContext.to_generation_output.
Proof. unfold TextContext.to_generation_output, TextContext.pop_logprobs, TextContext.on_tokens, TextContext.check_token. walk_context. Qed.
Lemma is_update rid token lp : preserves (Is rid) (TextContext.update token lp).
Proof.
  unfold TextContext.update, TextContext.advance_token_buffer, TextContext.advance_fsm, TextContext.on_tokens, TextContext.on_grammar,
    TextContext.update_enforcement_state. walk_context.
Qed.

Lemma is_base {Y} (f : M (TextContext.t B) Y) (x : Ctx.t B) :
  (∀ rid, preserves (Is rid) f) → TextContext.request_id (Ctx.base (Ctx.on_base f x).2) = TextContext.request_id (Ctx.base x).
Proof.
  intros Hf. unfold Ctx.on_base, zoom. specialize (Hf _ (Ctx.base x) eq_refl). destruct (f _) as [o c]. simpl in *.
  by rewrite Ownership.base_set_base.
Qed.

Lemma update_same_request token (x : Ctx.t B) :
  TextContext.request_id (Ctx.base (update_context token x).2) = TextContext.request_id (Ctx.base x).
Proof.
  unfold update_context. destruct x as [c|v].
  - pose proof (is_update _ token None c eq_refl) as H. by destruct (TextContext.update token None c).
  - unfold TextAndVisionContext.update, bind, TextAndVisionContext.on_text, zoom.
    pose proof (is_update _ token None (TextAndVisionContext.text v) eq_refl) as H.
    destruct (TextContext.update token None _) as [[u|e] c]; simpl in *; [|done].
    match goal with |- context [TextAndVisionContext._validate_state ?w] => assert ((TextAndVisionContext._validate_state w).2 = w) as Hv end.
    { unfold TextAndVisionContext._validate_state, bind, get, raise_if. by destruct (_ && _). }
    destruct (TextAndVisionContext._validate_state _) as [o w]. simpl in *. by subst w.
Qed.

Lemma draft_same_request draft (x : Ctx.t B) :
  TextContext.request_id (Ctx.base (put_draft_tokens draft x).2) = TextContext.request_id (Ctx.base x).
Proof. apply is_base. intros rid. apply preserves_bind; [apply is_spec|intros d]. by apply is_modify. Qed.

(** *** The handlers leave the others alone *)
Section Handlers.
Context (D : Z → Prop).

Ltac calm :=
  repeat first
    [ walk_step
    | apply outside_context_of | apply outside_add_count | apply outside_engine
    | (apply outside_fields; intros; done) ].

Lemma outside_prefill_response now m : outside D (handle_prefill_response now m).
Proof.
  unfold handle_prefill_response. apply preserves_bind_get. intros s _. destruct (OrderedDict.lookup _ _); [|calm].
  apply preserves_bind; [apply outside_context, update_same_request|intros _]. apply preserves_bind; [calm|intros r].
  apply preserves_bind; [apply preserves_when; destruct (pr_draft_tokens m); [apply outside_context, draft_same_request|calm]|intros _].
  apply preserves_bind; [apply outside_context; intros x; apply is_base, is_output|intros output]. calm.
Qed.

Lemma outside_reply now m : outside D (handle_reply now m).
Proof. destruct m; [apply outside_prefill_response|apply outside_engine]. Qed.

Lemma outside_claim rid i : ¬ D rid → outside D (on_kv (kv_claim rid i)).
Proof. intros Hr. by apply outside_constructor, framed_claim. Qed.
Lemma outside_release rid : ¬ D rid → outside D (on_kv (kv_release rid)).
Proof. intros Hr. by apply outside_constructor, framed_release. Qed.

Lemma outside_send_prefill rid l i : outside D (send_prefill_request rid l i).
Proof. unfold send_prefill_request, send_request_nowait. calm. Qed.

Lemma outside_room l : outside D (any_room l).
Proof.
  induction l as [|i l IH]; simpl; [calm|]. apply preserves_bind; [apply outside_constructor, framed_count|intros n].
  destruct (f_ltb _ _); [calm|done].
Qed.

(** The allocation of [reserve_one]. *)
Definition try_reserve (rid : Z) : M DecodeScheduler.t bool :=
  catch (let! event := on_constructor (TextBatchConstructor.on_kv_request rid kv_alloc) in
         on_kv (onload_synchronize event);; ret true)
    (λ e, if decide (e = InsufficientBlocksError) then Some (ret false) else None).

Lemma outside_try_reserve rid : outside D (try_reserve rid).
Proof.
  unfold try_reserve. apply preserves_catch.
  - apply preserves_bind; [apply outside_constructor, framed_alloc|intros e].
    apply preserves_bind; [apply outside_kv; intros; apply sync_claims|intros _]. calm.
  - intros e k Hk. destruct (decide _); [|done]. injection Hk as <-. calm.
Qed.

Lemma outside_take_in r : outside D (take_in r).
Proof. unfold take_in. apply preserves_bind; [apply outside_constructor, framed_put_request|intros _]. calm. Qed.

Lemma outside_put_response m : outside D (put_response m).
Proof. unfold put_response. calm. Qed.

Lemma outside_cancelled rid : ¬ D rid → outside D (handle_cancelled rid).
Proof.
  intros Hr. unfold handle_cancelled. apply preserves_bind_get. intros s _. destruct (TextBatchConstructor.contains _ _).
  { apply preserves_bind; [apply outside_constructor, framed_release_request|intros _]. calm. }
  destruct (OrderedDict.lookup _ _) as [p|]; [|calm]. apply preserves_bind; [calm|intros data].
  apply preserves_bind; [|intros _; unfold send_request_nowait, put_response; calm]. destruct (decide _); [unfold put_pending; calm|].
  apply preserves_bind; [unfold delete_pending; calm|intros _]. apply preserves_bind; [calm|intros _]. by apply outside_release.
Qed.

Lemma outside_evict rid : ¬ D rid → outside D (evict rid).
Proof.
  intros Hr. unfold evict. apply preserves_bind; [unfold pending_of; calm|intros p].
  apply preserves_bind; [unfold delete_pending; calm|intros _]. apply preserves_bind; [calm|intros _].
  apply preserves_bind.
  { apply preserves_when, preserves_bind; [calm|intros _]. destruct (transfer p); [|calm]. apply preserves_catch; [calm|].
    intros e k Hk. destruct (decide _); [|done]. injection Hk as <-. calm. }
  intros _. apply preserves_bind; [by apply outside_release|intros _].
  unfold _send_cancel_to_prefill, send_request_nowait, put_response. calm.
Qed.

Lemma outside_transfer now rid : ¬ D rid → outside D (check_transfer now rid).
Proof.
  intros Hr. unfold check_transfer. apply preserves_bind; [unfold pending_of; calm|intros p].
  apply preserves_bind; [calm|intros _]. destruct (transfer p); [|calm]. apply preserves_bind; [calm|intros b].
  destruct (negb b); [calm|]. apply preserves_bind; [unfold delete_pending; calm|intros _].
  apply preserves_bind; [calm|intros _]. apply preserves_bind; [calm|intros _]. destruct (cancelled p); [by apply outside_release|].
  apply (preserves_bind_at _ (λ r, Batch.request_id r = rid)); [calm| |].
  - intros s1 r s2 H1 E. apply decode_call_ok in E as (c & E & _). unfold TextBatchConstructor.request, bind, get in E.
    destruct (_ !! rid) as [r'|] eqn:El; [|done]. injection E as <- _. by eapply (fr_ids _ _ H1).
  - intros r Hid. apply outside_constructor, framed_enqueue. by rewrite Hid.
Qed.

End Handlers.

(** *** The state of a node in use *)

Record Running (L R : list Z) s : Prop := {
  rn_books : DBooks [] L R s;
  rn_owned : Owned s;
  rn_size : 0 ≤ max_batch_size (config s)
}.

(** A handler moves some request. *)
Definition Moves (f : M DecodeScheduler.t unit) : Prop :=
  ∀ L R s s', Running L R s → f s = (Ok tt, s') → ∃ L', Running L' R s'.

Lemma moves_for_each {Y} (l : list Y) (f : Y → M DecodeScheduler.t unit) : (∀ y, Moves (f y)) → Moves (for_each l f).
Proof.
  intros Hf. induction l as [|y l IH]; intros L R s s' HR E; simpl in E; [injection E as <-; by exists L|].
  apply bind_ok in E as ([] & s1 & E1 & E). destruct (Hf y L R s s1 HR E1) as [L1 HR1]. by apply (IH L1 R s1).
Qed.

Lemma moves_bind (f g : M DecodeScheduler.t unit) : Moves f → Moves g → Moves (f;; g).
Proof.
  intros Hf Hg L R s s' HR E. apply bind_ok in E as ([] & s1 & E1 & E). destruct (Hf L R s s1 HR E1) as [L1 HR1].
  by apply (Hg L1 R s1).
Qed.

(** Fields the invariant does not read. *)
Lemma running_other L R s s' :
  Running L R s → batch_constructor s' = batch_constructor s → request_queue s' = request_queue s →
  pending_reqs s' = pending_reqs s → DecodeScheduler.requests s' = DecodeScheduler.requests s →
  prefill_reqs_per_replica s' = prefill_reqs_per_replica s → response_queue s' = response_queue s → Running L R s'.
Proof.
  intros [HB [Hi Hc] Hz] E1 E2 E3 E4 E5 E6. split; [by eapply dbooks_other| |by unfold config; rewrite E1].
  split; unfold kv; rewrite ?E1, ?E4; done.
Qed.

(** A call that moves nothing but contexts and claims of others. *)
Lemma running_still {Y} (f : M DecodeScheduler.t Y) L R s y s' :
  steady f → (∀ D, outside D f) → Running L R s → f s = (Ok y, s') → Running L R s'.
Proof.
  intros Hf Ho [HB HO Hz] E. pose proof (steady_run f s y s' Hf E) as HS. split.
  - by eapply dbooks_still.
  - apply (owned_outside (λ x, x ∈ keys s)); [|by rewrite (st_requests _ _ HS)].
    eapply outside_ok; [apply Ho| |exact E]. by eapply outside_books.
  - by rewrite (st_config _ _ HS).
Qed.

Lemma running_message L R s m : Running L R s → Running L R (set_response_queue (response_queue s ++ [m]) s).
Proof. intros [HB [] Hz]. split; [by apply dbooks_message|by split|done]. Qed.

(** *** Replies *)

Lemma prefill_response_moves now m : Moves (handle_prefill_response now m).
Proof.
  intros L R s s' HR E. exists L. unfold handle_prefill_response in E. unfold bind at 1, get in E.
  destruct (OrderedDict.lookup (pr_id m) (DecodeScheduler.requests s)) as [p|] eqn:Ep; [|by injection E as <-].
  apply bind_ok in E as ([] & s1 & E1 & E).
  pose proof (steady_run _ _ _ _ (steady_context _ _) E1) as H1. apply (running_still _ L R) in E1;
    [|apply steady_context|intros D; apply outside_context, update_same_request|done].
  apply bind_ok in E as (r & s2 & E2 & E). pose proof (steady_run _ _ _ _ (steady_context_of _) E2) as H2.
  apply (running_still _ L R) in E2; [|apply steady_context_of|intros D; apply outside_context_of|done].
  apply bind_ok in E as ([] & s3 & E3 & E).
  assert (steady (when ((num_speculative_tokens (config s) >? 0) && negb (TextContext.is_done (Ctx.base (ctx r))))
    (match pr_draft_tokens m with None => raise ValueError | Some draft => on_context (pr_id m) (put_draft_tokens draft) end))) as Hw.
  { apply steady_when. destruct (pr_draft_tokens m); [apply steady_context|apply steady_raise]. }
  pose proof (steady_run _ _ _ _ Hw E3) as H3. apply (running_still _ L R) in E3; [|done| |done].
  2: { intros D. apply preserves_when. destruct (pr_draft_tokens m); [apply outside_context, draft_same_request|apply preserves_raise]. }
  apply bind_ok in E as (o & s4 & E4 & E). pose proof (steady_run _ _ _ _ (steady_context _ _) E4) as H4.
  apply (running_still _ L R) in E4; [|apply steady_context|intros D; apply outside_context; intros x; apply is_base, is_output|done].
  assert (Still s s4) as HS by (do 3 (etransitivity; [eassumption|]); done).
  unfold bind, put_response, put_pending, modify in E. injection E as <-.
  destruct (running_message L R s4 [(pr_id m, SchedulerResult.create o None)] E4) as [HB [Hi Hc] Hz]. split; [|split; [done|]|done].
  - eapply (put_pending_books (pr_id m) p _ L R (set_response_queue (response_queue s4 ++ _) s4)); [exact HB| |done|].
    + simpl. by rewrite (st_requests _ _ HS).
    + simpl. intros Hcan. apply terminal_more. eapply db_cancelled; [apply E4| |exact Hcan]. rewrite (st_requests _ _ HS). by apply lookup_entry.
  - intros x Hx. simpl in Hx. apply Hc. simpl. rewrite OrderedDict.keys_set_old in Hx; [done|].
    apply OrderedDict.lookup_keys. exists p. by rewrite (st_requests _ _ HS).
Qed.

Lemma reply_moves now m : Moves (handle_reply now m).
Proof.
  destruct m as [r|e]; [apply prefill_response_moves|]. intros L R s s' HR E. exists L.
  eapply running_still; [apply steady_engine|intros D; apply outside_engine|done|exact E].
Qed.

Lemma receive_moves now : Moves (receive_replies now).
Proof.
  intros L R s s' HR E. unfold receive_replies in E. unfold bind at 1, get in E.
  eapply moves_for_each; [|exact HR|exact E]. intros m. apply moves_bind; [|apply reply_moves].
  intros L1 R1 s1 s1' HR1 E1. injection E1 as <-. exists L1. by eapply running_other.
Qed.

(** *** Requests arrive *)

Lemma next_replica_range ext c i c' :
  get_next_replica_idx ext c = (Ok i, c') → 0 ≤ i < n_replicas c.
Proof.
  intros E. unfold get_next_replica_idx in E. unfold bind at 1, get in E.
  apply bind_ok in E as ([] & c1 & E1 & E). apply bind_ok in E as ([] & c2 & E2 & E).
  destruct (argmin _ _) as [j|] eqn:Ea; [|done]. injection E as -> _. apply argmin_elem in Ea. apply elem_of_zrange in Ea. lia.
Qed.

(** A request goes from the head of the queue to [pending_reqs]. *)
Lemma queued_books r queue L R s s' :
  Running L R s → request_queue s = r :: queue → batch_constructor s' = batch_constructor s → request_queue s' = queue →
  pending_reqs s' = OrderedIds.push (Batch.request_id r) (pending_reqs s) →
  DecodeScheduler.requests s' = DecodeScheduler.requests s → prefill_reqs_per_replica s' = prefill_reqs_per_replica s →
  response_queue s' = response_queue s → Running L R s'.
Proof.
  intros [HB [Hi Hc] Hz] Eq E1 E2 E3 E4 E5 E6.
  split; [|by split; unfold kv; rewrite ?E1, ?E4|by unfold config; rewrite E1]. destruct HB.
  assert (Batch.request_id r ∉ pending_reqs s) as Hr.
  { unfold places in db_places0. rewrite Eq in db_places0. simpl in db_places0. apply NoDup_cons in db_places0 as [Hnd _].
    rewrite !elem_of_app in Hnd. tauto. }
  assert (places L s' ≡ₚ places L s) as HP.
  { unfold places. rewrite Eq, E2, E3, E4, OrderedIds.push_new by done. simpl. rewrite <- app_assoc. simpl.
    by rewrite <- !Permutation_middle. }
  unfold count_at in *. split; unfold count_at; rewrite ?E1, ?E4, ?E5, ?E6; try done.
  - by rewrite HP.
  - intros x. rewrite HP. apply db_sent0.
  - intros x Hx. rewrite HP. by apply db_answered0.
Qed.

Lemma take_in_books items rest L R s s' :
  Running L R (set_request_queue (items ++ rest) s) → for_each items take_in s = (Ok tt, s') →
  Running L R (set_request_queue rest s').
Proof.
  revert s. induction items as [|r items IH]; intros s HR E; simpl in E; [by injection E as <-|].
  apply bind_ok in E as ([] & s1 & E1 & E). unfold take_in in E1. apply bind_ok in E1 as ([] & s2 & E2 & E1).
  apply decode_call_ok in E2 as (c & Ec & ->). unfold modify in E1. injection E1 as <-.
  set (s0 := set_request_queue ((r :: items) ++ rest) s) in *.
  assert (on_constructor (put_request r) s0 = (Ok tt, set_constructor c s0)) as E0.
  { unfold on_constructor. change (_inflight_kv_transfer_count s0) with (_inflight_kv_transfer_count s).
    change (batch_constructor s0) with (batch_constructor s). by rewrite Ec. }
  apply (running_still _ L R) in E0; [|apply steady_constructor, quiet_put_request|intros D; apply outside_constructor, framed_put_request|done].
  eapply IH; [|exact E]. by eapply (queued_books r (items ++ rest) L R (set_constructor c s0)).
Qed.

(** *** Reserving *)

Lemma try_reserve_steady rid : steady (try_reserve rid).
Proof.
  apply steady_catch.
  - apply steady_bind; [apply steady_constructor, quiet_on_kv_request|intros e].
    apply steady_bind; [apply steady_kv|intros _]. apply steady_ret.
  - intros e k Hk. destruct (decide _); [|done]. injection Hk as <-. apply steady_ret.
Qed.

Lemma still_pending s s1 l : Still (set_pending_reqs l s) s1 → Still s (set_pending_reqs (pending_reqs s) s1).
Proof. intros []. by split. Qed.

Lemma running_unclaimed L R s rid : Running L R s → rid ∈ pending_reqs s → rid ∉ L ∧ rid ∉ keys s.
Proof.
  intros [[_ Hnd _ _ _ _ _ _] _ _] Hr. unfold places in Hnd. apply NoDup_app in Hnd as (_ & _ & Hnd).
  apply NoDup_app in Hnd as (_ & Hnd & _). specialize (Hnd rid Hr). rewrite elem_of_app in Hnd. tauto.
Qed.

(** Claiming for a waiting request adds it to those that hold claims. *)
Lemma claim_outside (D : Z → Prop) rid i L s s' :
  Book [] L (batch_constructor s) → rid ∉ L → (∀ x, D x → x ∉ L) → ¬ D rid → Outside D s →
  on_kv (kv_claim rid i) s = (Ok tt, s') → Outside (λ x, D x ∨ x = rid) s'.
Proof.
  intros HB Hr HD Hn Ho E. pose proof (outside_ok D _ _ _ _ (outside_claim D rid i Hn) Ho E) as [Hi _ _ _ _ _ Hc].
  pose proof (st_held _ _ (steady_run _ _ _ _ (steady_kv _) E) [] L HB) as HB'.
  eapply (framed_of_books _ L); [exact HB'|intros x [Hx| ->]; [by apply HD|done]|done|intros x [Hx| ->]; [by apply Hc|]].
  apply decode_call_ok in E as (c & E & ->). unfold TextBatchConstructor.on_kv, zoom in E.
  destruct (kv_claim rid i _) as [o k] eqn:Ek. injection E as -> <-. by apply claim_contains in Ek.
Qed.

(** What [reserve_one] does, up to the choice between its two ends. *)
Lemma reserve_prefix now rid rest L R s b s' :
  Running L R s → pending_reqs s = rid :: rest → reserve_one now rid (set_pending_reqs rest s) = (Ok b, s') →
  ∃ i s3, 0 ≤ i < len (prefill_reqs_per_replica s) ∧ Still (set_pending_reqs rest s) s3 ∧
    Outside (λ x, x ∈ keys s ∨ x = rid) s3 ∧
    (if b
     then let! dst_idxs := on_kv (kv_get_req_blocks rid) in
          put_pending rid (pending_decode_request _ _ _ _ i AWAITING_PREFILL now None false);;
          add_count i 1;; send_prefill_request rid dst_idxs i
     else modify (λ s, set_pending_reqs (OrderedIds.to_front rid (OrderedIds.push rid (pending_reqs s))) s);;
          on_kv (kv_release rid)) s3 = (Ok tt, s').
Proof.
  intros HR Ep E. destruct (running_unclaimed L R s rid HR) as [HrL Hrk]; [rewrite Ep; by left|].
  set (s0 := set_pending_reqs rest s) in *. unfold reserve_one in E. unfold bind at 1, get in E.
  pose proof (outside_books _ L R s (rn_books _ _ _ HR) (rn_owned _ _ _ HR) (λ x Hx, Hx)) as H0. change (Outside (λ x, x ∈ keys s) s0) in H0.
  apply bind_ok in E as (i & s1 & E1 & E).
  pose proof (steady_run _ _ _ _ (steady_constructor _ (quiet_next_replica _)) E1) as S1.
  assert (0 ≤ i < len (prefill_reqs_per_replica s)) as Hi.
  { rewrite (db_size _ _ _ _ (rn_books _ _ _ HR)). apply decode_call_ok in E1 as (c & E1 & _). by apply next_replica_range in E1. }
  apply outside_ok with (D := λ x, x ∈ keys s) in E1; [|apply outside_constructor, framed_next_replica|done].
  apply bind_ok in E as ([] & s2 & E2 & E). pose proof (steady_run _ _ _ _ (steady_kv _) E2) as S2.
  apply (claim_outside (λ x, x ∈ keys s) rid i L) in E2; [|apply (st_held _ _ S1), HR|done| |done|done].
  2: { intros x Hx HL. pose proof (db_places _ _ _ _ (rn_books _ _ _ HR)) as Hnd. unfold places in Hnd.
       do 2 apply NoDup_app in Hnd as (_ & _ & Hnd). apply NoDup_app in Hnd as (_ & Hnd & _). by apply (Hnd x). }
  apply bind_ok in E as (r & s3 & E3 & E). pose proof (steady_run _ _ _ _ (try_reserve_steady rid) E3) as S3.
  apply outside_ok with (D := λ x, x ∈ keys s ∨ x = rid) in E3; [|apply outside_try_reserve|done].
  exists i, s3. split; [done|]. split; [by transitivity s1; [done|]; transitivity s2|]. split; [done|].
  destruct r; [|].
  - apply bind_ok in E as (dst & s4 & E4 & E). apply bind_ok in E as ([] & s5 & E5 & E). apply bind_ok in E as ([] & s6 & E6 & E).
    apply bind_ok in E as ([] & s7 & E7 & E). injection E as <- <-. unfold bind. by rewrite E4, E5, E6.
  - apply bind_ok in E as ([] & s4 & E4 & E). apply bind_ok in E as ([] & s5 & E5 & E). injection E as <- <-. unfold bind. by rewrite E4.
Qed.

(** At most one reservation more, and nothing else that counts for the batch size. *)
Record Grew s s' : Prop := {
  gr_generating : all_tg_reqs (batch_constructor s') = all_tg_reqs (batch_constructor s);
  gr_requests : len (DecodeScheduler.requests s') ≤ len (DecodeScheduler.requests s) + 1;
  gr_config : config s' = config s
}.

Lemma reserve_books now rid rest L R s b s' :
  Running L R s → pending_reqs s = rid :: rest → reserve_one now rid (set_pending_reqs rest s) = (Ok b, s') →
  Running L R s' ∧ Grew s s'.
Proof.
  intros HR Ep E. destruct (running_unclaimed L R s rid HR) as [HrL Hrk]; [rewrite Ep; by left|].
  destruct (reserve_prefix now rid rest L R s b s' HR Ep E) as (i & s3 & Hi & S3 & O3 & E3). clear E. destruct HR as [HB HO Hz].
  destruct b.
  - apply bind_ok in E3 as (dst & s4 & E4 & E). pose proof (steady_run _ _ _ _ (steady_kv _) E4) as S4.
    apply outside_ok with (D := λ x, x ∈ keys s ∨ x = rid) in E4; [|apply outside_constructor, framed_blocks|done].
    pose proof (still_trans _ _ _ S3 S4) as S. destruct S as [Sq Sp Sr Sc Sa Sh Sf Sn Sg]. simpl in *.
    apply bind_ok in E as ([] & s5 & E5 & E). unfold put_pending, modify in E5. injection E5 as <-. rewrite Sr in E.
    apply bind_ok in E as ([] & s6 & E6 & E). apply add_count_ok in E6 as (n & Hn & ->); [|simpl; by rewrite Sc].
    simpl in Hn, E. rewrite Sc in Hn, E. pose proof (steady_run _ _ _ _ (steady_send_prefill rid dst i) E) as S6.
    apply outside_ok with (D := λ x, x ∈ keys s ∨ x = rid) in E; [|apply outside_send_prefill|done].
    assert (config s' = config s) as Hf by (rewrite (st_config _ _ S6); exact Sf).
    split; [split; [|apply (owned_outside _ _ E)|by rewrite Hf]|split; [by rewrite (st_generating _ _ S6)| |done]].
    + eapply dbooks_still; [exact S6|].
      eapply (reserved_books rid rest (pending_decode_request _ _ _ _ i AWAITING_PREFILL now None false) n L R s); try done.
      apply Sh, HB.
    + intros x. rewrite (st_requests _ _ S6). simpl. intros [Hx|Hx]%OrderedDict.elem_of_keys_set; tauto.
    + rewrite (st_requests _ _ S6). simpl. rewrite OrderedDict.set_new by done. rewrite len_app. unfold len at 2. simpl. lia.
  - apply bind_ok in E3 as ([] & s4 & E4 & E). unfold modify in E4. injection E4 as <-.
    assert (rid ∉ rest) as Hrest.
    { pose proof (db_places _ _ _ _ HB) as Hnd. unfold places in Hnd. rewrite Ep in Hnd. apply NoDup_app in Hnd as (_ & _ & Hnd).
      simpl in Hnd. apply NoDup_cons in Hnd as [Hnd _]. rewrite elem_of_app in Hnd. tauto. }
    destruct S3 as [Sq Sp Sr Sc Sa Sh Sf Sn]. simpl in *. rewrite Sp in E.
    pose proof (steady_run _ _ _ _ (steady_kv _) E) as S4.
    apply outside_ok with (D := λ x, x ∈ keys s) in E; [|by apply outside_release|by eapply framed_subset; [|exact O3]; intros; left].
    assert (Still s s') as HS.
    { transitivity (set_pending_reqs (OrderedIds.to_front rid (OrderedIds.push rid rest)) s3); [|done]. split; try done. simpl.
      rewrite Ep, OrderedIds.push_to_front. unfold OrderedIds.to_front. by rewrite OrderedIds.remove_notin. }
    split; [split; [by eapply dbooks_still|apply (owned_outside _ _ E); by rewrite (st_requests _ _ HS)|by rewrite (st_config _ _ HS)]|].
    split; [apply HS|rewrite (st_requests _ _ HS); lia|apply HS].
Qed.

Definition occupied s : Z := len (all_tg_reqs (batch_constructor s)) + len (DecodeScheduler.requests s).

Lemma reserve_loop_books fuel now L R s s' :
  Running L R s → reserve_loop fuel now s = (Ok tt, s') →
  Running L R s' ∧ occupied s' ≤ Z.max (max_batch_size (config s)) (occupied s).
Proof.
  revert s. induction fuel as [|fuel IH]; intros s HR E; simpl in E; unfold bind at 1, get in E;
    (destruct (pending_reqs s) as [|rid rest] eqn:Ep; [injection E as <-; split; [done|lia]|]);
    (destruct (negb _) eqn:Ez; [injection E as <-; split; [done|lia]|]); apply bind_ok in E as (room & s1 & E1 & E);
    pose proof (steady_run _ _ _ _ (steady_room _) E1) as S1;
    (apply (running_still _ L R) in E1; [|apply steady_room|intros D; apply outside_room|done]);
    (destruct (negb room); [injection E as <-; split; [done|]; unfold occupied; rewrite (st_generating _ _ S1), (st_requests _ _ S1); lia|]);
    [done|].
  unfold bind at 1, modify in E. apply bind_ok in E as (b & s2 & E2 & E).
  apply (reserve_books now rid rest L R s1) in E2 as [HR2 [G1 G2 G3]]; [|done|by rewrite (st_pending _ _ S1)].
  rewrite (st_generating _ _ S1) in G1. rewrite (st_requests _ _ S1) in G2. rewrite (st_config _ _ S1) in G3.
  apply negb_false_iff, Z.ltb_lt in Ez. fold (occupied s) in Ez.
  assert (occupied s2 ≤ occupied s + 1) as Ho by (unfold occupied; rewrite G1; lia).
  destruct b; [|injection E as <-; split; [done|lia]]. apply IH in E as [HR' Ho']; [|done]. rewrite G3 in Ho'. split; [done|lia].
Qed.

Lemma drain_queue_app {Y} n (q l rest : list Y) : drain_queue n q = (l, rest) → q = l ++ rest.
Proof. intros E. by apply drain_from_app in E. Qed.

Lemma take_in_rest items s s' :
  for_each items take_in s = (Ok tt, s') →
  request_queue s' = request_queue s ∧ occupied s' = occupied s ∧ config s' = config s.
Proof.
  revert s. induction items as [|r items IH]; intros s E; simpl in E; [by injection E as <-|].
  apply bind_ok in E as ([] & s1 & E1 & E). unfold take_in in E1. apply bind_ok in E1 as ([] & s2 & E2 & E1).
  pose proof (steady_run _ _ _ _ (steady_constructor _ (quiet_put_request r)) E2) as HS.
  injection E1 as <-. destruct (IH _ E) as (Hq & Ho & Hf). rewrite Hq, Ho, Hf. split; [apply HS|]. split; [|apply HS].
  unfold occupied. simpl. by rewrite (st_generating _ _ HS), (st_requests _ _ HS).
Qed.

Lemma reserve_run now L R s s' :
  Running L R s → reserve_memory_and_send_to_prefill now s = (Ok tt, s') →
  Running L R s' ∧ occupied s' ≤ Z.max (max_batch_size (config s)) (occupied s).
Proof.
  intros HR E. unfold reserve_memory_and_send_to_prefill in E. unfold bind at 1, get in E.
  destruct (drain_queue _ _) as [items rest] eqn:Ed. apply drain_queue_app in Ed. unfold bind at 1, modify in E.
  apply bind_ok in E as ([] & s1 & E1 & E). unfold bind at 1, get in E.
  pose proof (take_in_rest _ _ _ E1) as (Hq & Ho & Hf). simpl in Hq.
  apply (take_in_books items (request_queue s1) L R) in E1 as HR1.
  - apply (reserve_loop_books _ now L R) in E as [HR' Hle]; [|by destruct s1]. split; [done|]. rewrite Ho, Hf in Hle. exact Hle.
  - eapply running_other; [exact HR|done| |done..]. simpl. by rewrite Hq.
Qed.

Lemma reserve_moves now : Moves (reserve_memory_and_send_to_prefill now).
Proof. intros L R s s' HR E. exists L. by eapply reserve_run. Qed.

(** *** An entry of [requests] goes *)

(** The constructor is as before: the request was answered for good. *)
Lemma dropped rid p n L R s s' :
  Running L R s → OrderedDict.lookup rid (DecodeScheduler.requests s) = Some p →
  prefill_reqs_per_replica s !! Z.to_nat (replica_idx p) = Some n →
  request_queue s' = request_queue s → pending_reqs s' = pending_reqs s →
  DecodeScheduler.requests s' = OrderedDict.delete rid (DecodeScheduler.requests s) →
  prefill_reqs_per_replica s' = <[Z.to_nat (replica_idx p) := n + -1]> (prefill_reqs_per_replica s) →
  config s' = config s → n_replicas (batch_constructor s') = n_replicas (batch_constructor s) →
  (∀ x, x ∈ terminal_ids (response_queue s) → x ∈ terminal_ids (response_queue s')) →
  Outside (λ x, x ∈ keys s ∧ x ≠ rid) s' →
  (Book [] L (batch_constructor s') ∧ rid ∈ terminal_ids (response_queue s') → Running L R s') ∧
  (Book [] (rid :: L) (batch_constructor s') → Running (rid :: L) R s').
Proof.
  intros [HB HO Hz] Hp Hn Eq Ep Er Ec Ef En Ht Ho.
  assert (Owned s') as HO'.
  { apply (owned_outside _ _ Ho). rewrite Er. intros x Hx. pose proof (keys_nodup _ _ (db_places _ _ _ _ HB)) as Hnd.
    unfold OrderedDict.keys in *. rewrite (OrderedDict.delete_perm _ rid p Hnd Hp) in Hnd |- *. simpl in *.
    apply NoDup_cons in Hnd as [Hr _]. split; [by right|]. by intros ->. }
  split.
  - intros [HB' Hr]. split; [|done|by rewrite Ef]. eapply (drop_books rid p L L R s s' n); try done. by right.
  - intros HB'. split; [|done|by rewrite Ef]. eapply (drop_books rid p L (rid :: L) R s s' n); try done. by left.
Qed.

(** Removing an entry and its count. *)
Lemma delete_run rid p L R s s' :
  DBooks [] L R s → OrderedDict.lookup rid (DecodeScheduler.requests s) = Some p →
  (delete_pending rid;; add_count (replica_idx p) (-1)) s = (Ok tt, s') →
  ∃ n, prefill_reqs_per_replica s !! Z.to_nat (replica_idx p) = Some n ∧
    s' = set_counts (<[Z.to_nat (replica_idx p) := n + -1]> (prefill_reqs_per_replica s))
           (DecodeScheduler.set_requests (OrderedDict.delete rid (DecodeScheduler.requests s)) s).
Proof.
  intros HB Hp E. unfold bind, delete_pending, modify in E. apply add_count_ok in E as (n & Hn & ->); [by exists n|].
  simpl. by eapply db_range, OrderedDict.lookup_Some.
Qed.

Lemma outside_weaken (D D' : Z → Prop) s : (∀ x, D' x → D x) → Outside D s → Outside D' s.
Proof. apply framed_subset. Qed.

Lemma held_n_replicas (c c' : TextBatchConstructor.t) : settings c' = settings c → n_replicas c' = n_replicas c.
Proof. unfold n_replicas. by intros ->. Qed.

(** The rest of a handler that has removed the entry of [rid]: calls that move nothing,
    and perhaps a message that answers for it. *)
Lemma dropped_still rid p L R s s2 s5 s' m :
  Running L R s → OrderedDict.lookup rid (DecodeScheduler.requests s) = Some p →
  (delete_pending rid;; add_count (replica_idx p) (-1)) s = (Ok tt, s2) → Still s2 s5 →
  (s' = s5 ∧ rid ∈ terminal_ids (response_queue s)) ∨
    (s' = set_response_queue (response_queue s5 ++ [m]) s5 ∧ rid ∈ terminal_of m) →
  Outside (λ x, x ∈ keys s ∧ x ≠ rid) s' → Running L R s'.
Proof.
  intros HR Hp E [Sq Sp Sr Sc Sa Sh Sf Sn] Hs' Ho. pose proof (rn_books _ _ _ HR) as HB.
  destruct (delete_run rid p L R s s2 HB Hp E) as (n & Hn & ->). simpl in *.
  assert (Book [] L (batch_constructor s5)) as HB5 by apply Sh, HB.
  destruct Hs' as [[-> Ht]|[-> Ht]].
  - apply (dropped rid p n L R s s5); try done; [by rewrite Sa|]. split; [done|by rewrite Sa].
  - apply (dropped rid p n L R s (set_response_queue (response_queue s5 ++ [m]) s5)); try done; simpl; rewrite ?Sa.
    + intros x Hx. by apply terminal_more.
    + split; [done|]. rewrite terminal_snoc, elem_of_app. by right.
Qed.

Lemma terminal_cancelled rid : rid ∈ terminal_of [(rid, SchedulerResult.cancelled (B := B))].
Proof. unfold terminal_of. rewrite filter_cons_True by done. by left. Qed.

Lemma others_outside rid L R s : Running L R s → Outside (λ x, x ∈ keys s ∧ x ≠ rid) s.
Proof. intros HR. eapply outside_books; [apply HR|apply HR|]. by intros x [? _]. Qed.

Lemma pending_of_ok rid s p s' : pending_of rid s = (Ok p, s') → OrderedDict.lookup rid (DecodeScheduler.requests s) = Some p ∧ s' = s.
Proof. unfold pending_of, bind, get. destruct (OrderedDict.lookup _ _); [|done]. by intros [= -> ->]. Qed.

Lemma evict_moves rid : Moves (evict rid).
Proof.
  intros L R s s' HR E. exists L.
  pose proof (outside_ok (λ x, x ∈ keys s ∧ x ≠ rid) (evict rid) s tt s' ltac:(apply outside_evict; tauto) (others_outside rid L R s HR) E) as Ho.
  unfold evict in E. apply bind_ok in E as (p & s1 & E1 & E). apply pending_of_ok in E1 as [Hp ->].
  apply bind_ok in E as ([] & s1 & E1 & E). apply bind_ok in E as ([] & s2 & E2 & E).
  assert ((delete_pending rid;; add_count (replica_idx p) (-1)) s = (Ok tt, s2)) as Ed by (unfold bind; by rewrite E1).
  clear E1 E2. apply bind_ok in E as ([] & s3 & E3 & E). apply bind_ok in E as ([] & s4 & E4 & E).
  apply steady_run in E3.
  2: { apply steady_when, steady_bind; [apply steady_assert|intros _]. destruct (transfer p); [|apply steady_ret].
       apply steady_catch; [apply steady_engine|]. intros e k Hk. destruct (decide _); [|done]. injection Hk as <-. apply steady_ret. }
  apply steady_run in E4; [|apply steady_kv]. pose proof (still_trans _ _ _ E3 E4) as S. destruct (cancelled p) eqn:Ec; simpl in E.
  - injection E as <-. eapply (dropped_still rid p L R s s2 s4 s4 []); [done|done|done|done| |done]. left. split; [done|].
    eapply db_cancelled; [apply HR|by apply OrderedDict.lookup_Some|done].
  - apply bind_ok in E as ([] & s5 & E5 & E). apply steady_run in E5; [|apply steady_cancel_prefill].
    unfold put_response, modify in E. injection E as <-.
    eapply (dropped_still rid p L R s s2 s5); [done|done|done|by transitivity s4| |done]. right. split; [done|].
    apply terminal_cancelled.
Qed.

Lemma evictions_moves now : Moves (_evict_expired_requests now).
Proof.
  intros L R s s' HR E. unfold _evict_expired_requests in E. unfold bind at 1, get in E.
  destruct (decode_request_ttl_s _); [|injection E as <-; by exists L]. by eapply (moves_for_each _ evict evict_moves).
Qed.

(** *** Cancellation *)

Lemma release_running rid L R s s1 :
  Running L R s → on_constructor (release_request rid) s = (Ok tt, s1) →
  ∃ L', L ≡ₚ rid :: L' ∧ Book [] L' (batch_constructor s1) ∧ s1 = set_constructor (batch_constructor s1) s ∧
    config s1 = config s ∧ n_replicas (batch_constructor s1) = n_replicas (batch_constructor s).
Proof.
  intros HR E. apply decode_call_ok in E as (c & E & ->). pose proof (rn_books _ _ _ HR) as HB.
  pose proof (keeps_run _ _ _ _ (release_keeps_settings rid) E) as Hst.
  apply (release_book rid L) in E as (L' & HL & HB'); [| |apply book_inflight, HB].
  2: { pose proof (db_places _ _ _ _ HB) as Hnd. unfold places in Hnd. by do 3 apply NoDup_app in Hnd as (_ & _ & Hnd). }
  exists L'. split_and!; [done|done|done| |].
  - unfold config, TextBatchConstructor.config. simpl. by rewrite Hst.
  - unfold n_replicas. simpl. by rewrite Hst.
Qed.

Lemma held_not_reserved L R s x : Running L R s → x ∈ L → x ∉ keys s.
Proof.
  intros HR Hx Hk. pose proof (db_places _ _ _ _ (rn_books _ _ _ HR)) as Hnd. unfold places in Hnd.
  do 2 apply NoDup_app in Hnd as (_ & _ & Hnd). apply NoDup_app in Hnd as (_ & Hnd & _). by apply (Hnd x).
Qed.

Lemma cancelled_moves rid : Moves (handle_cancelled rid).
Proof.
  intros L R s s' HR E. pose proof (outside_ok (λ x, x ∈ keys s ∧ x ≠ rid) (handle_cancelled rid) s tt s'
    ltac:(apply outside_cancelled; tauto) (others_outside rid L R s HR) E) as Ho.
  unfold handle_cancelled in E. unfold bind at 1, get in E. destruct (contains rid (batch_constructor s)) eqn:Hc.
  { apply bind_ok in E as ([] & s1 & E1 & E). unfold put_response, modify in E. injection E as <-.
    pose proof (held_or_out rid [] L _ (db_held _ _ _ _ (rn_books _ _ _ HR)) Hc) as HrL.
    pose proof (held_not_reserved L R s rid HR HrL) as Hrk.
    destruct (release_running rid L R s s1 HR E1) as (L' & HL & HB' & Es & Ef & En). exists L'.
    set (c := batch_constructor s1) in *. clearbody c. subst s1. split.
    - apply (gone_books [rid] [] [] L L' R s); try done; [apply HR| |].
      + intros x Hx. simpl. by apply terminal_more.
      + intros x Hx. apply list_elem_of_singleton in Hx as ->. simpl. rewrite terminal_snoc, elem_of_app. right. apply terminal_cancelled.
    - apply (owned_outside _ _ Ho). intros x Hx. split; [done|]. by intros ->.
    - unfold config in *. simpl in *. rewrite Ef. apply HR. }
  destruct (OrderedDict.lookup rid (DecodeScheduler.requests s)) as [p|] eqn:Hp; [|injection E as <-; by exists L].
  exists L. apply bind_ok in E as (data & s1 & E1 & E). pose proof (steady_run _ _ _ _ (steady_context_of _) E1) as S1.
  apply (running_still _ L R) in E1 as HR1; [|apply steady_context_of|intros D; apply outside_context_of|done].
  rewrite <- (st_requests _ _ S1) in Hp. assert (∀ x, x ∈ keys s ∧ x ≠ rid ↔ x ∈ keys s1 ∧ x ≠ rid) as Hk by (by rewrite (st_requests _ _ S1)).
  apply bind_ok in E as ([] & s2 & E2 & E). apply bind_ok in E as (e & s3 & E3 & E).
  destruct (target_endpoint data) as [e'|]; [|done]. injection E3 as -> <-.
  unfold bind, send_request_nowait, put_response, modify in E. injection E as <-. destruct (decide _).
  - unfold put_pending, modify in E2. injection E2 as <-.
    destruct (running_message L R s1 [(rid, SchedulerResult.cancelled)] HR1) as [HB [Hi Hc'] Hz]. split; [|split; [exact Hi|]|exact Hz].
    + eapply dbooks_other; [eapply (put_pending_books rid p _ L R _ HB Hp)|done..]; [done|]. intros _. simpl.
      rewrite terminal_snoc, elem_of_app. right. apply terminal_cancelled.
    + intros x Hx. simpl in Hx. rewrite OrderedDict.keys_set_old in Hx; [by apply Hc'|]. apply OrderedDict.lookup_keys. by exists p.
  - rewrite <- bind_assoc in E2. apply bind_ok in E2 as ([] & s2' & Ed & E2). apply steady_run in E2; [|apply steady_kv].
    eapply (dropped_still rid p L R s1 s2' (set_sent (sent s2 ++ [(e, Cancel rid)]) s2)); [done|done|exact Ed|by transitivity s2| |].
    + right. split; [done|]. apply terminal_cancelled.
    + eapply outside_weaken; [|exact Ho]. intros x. by rewrite Hk.
Qed.

Lemma cancellations_move : Moves _handle_cancelled_requests.
Proof.
  intros L R s s' HR E. unfold _handle_cancelled_requests in E. unfold bind at 1, get in E. destruct (get_cancelled_reqs _) as [l rest].
  unfold bind at 1, modify in E. eapply (moves_for_each _ handle_cancelled cancelled_moves); [|exact E]. by eapply running_other.
Qed.

(** *** Transfers land *)

Lemma transfer_moves now rid : Moves (check_transfer now rid).
Proof.
  intros L R s s' HR E. pose proof (outside_ok (λ x, x ∈ keys s ∧ x ≠ rid) (check_transfer now rid) s tt s'
    ltac:(apply outside_transfer; tauto) (others_outside rid L R s HR) E) as Ho.
  unfold check_transfer in E. apply bind_ok in E as (p & s1 & E1 & E). apply pending_of_ok in E1 as [Hp ->].
  apply bind_ok in E as ([] & s1 & E1 & E). apply py_assert_ok in E1 as [_ <-].
  destruct (transfer p) as [x|]; [|injection E as <-; by exists L].
  apply bind_ok in E as (b & s1 & E1 & E). pose proof (steady_run _ _ _ _ (steady_engine _) E1) as S1.
  apply (running_still _ L R) in E1 as HR1; [|apply steady_engine|intros D; apply outside_engine|done].
  destruct (negb b); [injection E as <-; by exists L|].
  rewrite <- (st_requests _ _ S1) in Hp. assert (∀ x, x ∈ keys s ∧ x ≠ rid ↔ x ∈ keys s1 ∧ x ≠ rid) as Hk by (by rewrite (st_requests _ _ S1)).
  assert (Outside (λ x, x ∈ keys s1 ∧ x ≠ rid) s') as Ho1 by (eapply outside_weaken; [|exact Ho]; intros y; by rewrite Hk).
  clear Ho Hk S1. rewrite <- bind_assoc in E. apply bind_ok in E as ([] & s2 & E2 & E).
  apply bind_ok in E as ([] & s3 & E3 & E). pose proof (steady_run _ _ _ _ (steady_engine _) E3) as S3. destruct (cancelled p) eqn:Ec.
  - exists L. apply steady_run in E; [|apply steady_kv].
    eapply (dropped_still rid p L R s1 s2 s' s' []); [done|done|exact E2|by transitivity s3| |done]. left. split; [done|].
    eapply db_cancelled; [apply HR1|by apply OrderedDict.lookup_Some|done].
  - exists (rid :: L). pose proof (rn_books _ _ _ HR1) as HB1. destruct (delete_run rid p L R s1 s2 HB1 Hp E2) as (n & Hn & ->).
    apply bind_ok in E as (r & s4 & E4 & E). pose proof (steady_run _ _ _ _ (steady_context_of _) E4) as S4.
    pose proof (still_trans _ _ _ S3 S4) as [Sq Sp Sr Sc Sa Sh Sf Sn]. simpl in *.
    assert (Batch.request_id r = rid) as Hid.
    { apply decode_call_ok in E4 as (c & E4 & _). unfold TextBatchConstructor.request, bind, get in E4.
      destruct (_ !! rid) as [r'|] eqn:El; [|done]. injection E4 as -> _. simpl in El.
      assert (batch_constructor s3 = batch_constructor s1) as Eb.
      { unfold on_engine, zoom in E3. destruct (te_cleanup_transfer _ _). by injection E3 as _ <-. }
      rewrite Eb in El. by apply (ow_ids _ (rn_owned _ _ _ HR1)). }
    apply decode_call_ok in E as (c & E & ->).
    pose proof (keeps_run _ _ _ _ (enqueue_keeps_settings now r _) E) as Hst.
    apply enqueue_book with (L := L) in E; [|by apply book_inflight, Sh, HB1|].
    2: { rewrite Hid. intros HL. apply (held_not_reserved L R s1 rid HR1 HL). apply OrderedDict.lookup_keys. by exists p. }
    rewrite Hid in E. apply (dropped rid p n L R s1 (set_constructor c s4)); try done; simpl.
    + unfold config, TextBatchConstructor.config in *. simpl. by rewrite Hst.
    + rewrite <- Sn. unfold n_replicas. simpl. by rewrite Hst.
    + by rewrite Sa.
Qed.

Lemma transfers_move now : Moves (check_for_completed_transfers now).
Proof.
  intros L R s s' HR E. unfold check_for_completed_transfers in E. unfold bind at 1, get in E.
  by eapply (moves_for_each _ (check_transfer now) (transfer_moves now)).
Qed.

(** *** A batch runs *)

Lemma release_loop responses n L s n' s' :
  NoDup L → Book [] L (batch_constructor s) →
  for_fold responses n (λ n '(rid, response), if TextGenerationOutput.is_done response
    then on_constructor (release_request rid);; ret (n + 1) else ret n) s = (Ok n', s') →
  ∃ L', L ≡ₚ done_ids responses ++ L' ∧ Book [] L' (batch_constructor s') ∧ config s' = config s ∧
    n_replicas (batch_constructor s') = n_replicas (batch_constructor s) ∧ s' = set_constructor (batch_constructor s') s.
Proof.
  revert n L s. induction responses as [|[rid o] responses IH]; intros n L s Hnd HB E; simpl in E.
  { injection E as <- <-. exists L. split_and!; [done..|]. by destruct s. }
  unfold done_ids. rewrite filter_cons. simpl. destruct (TextGenerationOutput.is_done o) eqn:Ed; simpl.
  - apply bind_ok in E as (m & s1 & E1 & E). apply bind_ok in E1 as ([] & s2 & E2 & E1). injection E1 as _ <-.
    apply decode_call_ok in E2 as (c & Ec & ->).
    destruct (release_book rid L _ c Hnd (book_inflight _ _ _ _ HB) Ec) as (L1 & HL & HB1).
    pose proof (keeps_run _ _ _ _ (release_keeps_settings rid) Ec) as Hst.
    pose proof Hnd as Hnd1. rewrite HL in Hnd1. apply NoDup_cons in Hnd1 as [_ Hnd1].
    destruct (IH m L1 (set_constructor c s) Hnd1 HB1 E) as (L' & HL' & HB' & Hf & Hn & Es).
    exists L'. split_and!; [by rewrite HL, HL'|done| | |by rewrite Es].
    + rewrite Hf. unfold config, TextBatchConstructor.config. simpl. by rewrite Hst.
    + rewrite Hn. unfold n_replicas. simpl. by rewrite Hst.
  - unfold bind at 1, ret at 1 in E. by apply (IH n L s).
Qed.

Lemma outside_release_loop D responses n :
  outside D (for_fold responses n (λ n '(rid, response), if TextGenerationOutput.is_done response
    then on_constructor (release_request rid);; ret (n + 1) else ret n)).
Proof.
  apply preserves_for_fold. intros a [rid o]. destruct (TextGenerationOutput.is_done o); [|intros _; apply preserves_ret].
  intros _. apply preserves_bind; [apply outside_constructor, framed_release_request|intros _; apply preserves_ret].
Qed.

Lemma schedule_running inputs ces L R s n s' :
  DBooks (concat ces) L R s → In_batch inputs ces (batch_constructor s) → Outside (λ x, x ∈ keys s) s →
  0 ≤ max_batch_size (config s) → schedule inputs s = (Ok n, s') → ∃ L', Running L' R s'.
Proof.
  intros HB HP HO Hz E. unfold schedule in E. apply bind_ok in E as ([] & s0 & E0 & E). apply py_assert_ok in E0 as [_ <-].
  apply bind_ok in E as (rs & s1 & E1 & E). pose proof E1 as O1.
  apply outside_ok with (D := λ x, x ∈ keys s) in O1; [|apply outside_constructor, framed_run_pipeline|done].
  apply decode_call_ok in E1 as (c1 & E1 & ->). set (c0 := with_inflight _ _) in E1.
  pose proof (run_pipeline_same inputs c0) as S1. rewrite E1 in S1. simpl in S1.
  assert (Book (concat ces) L c1) as HB1 by (eapply book_same; [exact S1|apply book_inflight, HB]).
  assert (In_batch inputs ces c1) as HP1.
  { unfold In_batch, n_replicas, TextBatchConstructor.config in *. rewrite (same_settings _ _ S1).
    eapply parted_all_after; [by apply rest_same| |exact HP]. intros i _ _. by rewrite (same_replicas _ _ S1). }
  unfold bind at 1, get in E. cbv beta in E. set (kept := filter _ rs) in E.
  apply bind_ok in E as ([] & s2 & E2 & E). pose proof E2 as O2.
  apply outside_ok with (D := λ x, x ∈ keys s) in O2; [|apply outside_constructor, framed_advance|done].
  2: { intros x Hx. by eapply (batches_away (λ x, x ∈ keys s)). }
  apply decode_call_ok in E2 as (c2 & E2 & ->). simpl in E2.
  pose proof (keeps_run _ _ _ _ (advance_keeps_settings inputs) E2) as Hst2.
  assert (NoDup L) as HndL.
  { pose proof (db_places _ _ _ _ HB) as Hnd. unfold places in Hnd. by do 3 apply NoDup_app in Hnd as (_ & _ & Hnd). }
  assert (max_batch_size (config (set_constructor c1 s)) = max_batch_size (config s) ∧ n_replicas c1 = n_replicas (batch_constructor s)) as [Hz1 Hn1].
  { unfold config, n_replicas, TextBatchConstructor.config in *. simpl. by rewrite (same_settings _ _ S1). }
  eapply (advance_requests_book _ inputs ces L) in E2; [|done|by apply book_inflight|exact HP1].
  apply bind_ok in E as (done' & s3 & E3 & E). pose proof E3 as O3.
  apply outside_ok with (D := λ x, x ∈ keys s) in O3; [|apply outside_release_loop|done].
  destruct (release_loop kept 0 L (set_constructor c2 (set_constructor c1 s)) done' s3 HndL E2 E3) as (L' & HL & HB' & Hf & Hn & Es).
  assert (config s3 = config (set_constructor c1 s) ∧ n_replicas (batch_constructor s3) = n_replicas c1) as [Hf3 Hn3].
  { rewrite Hf, Hn. unfold config, n_replicas, TextBatchConstructor.config in *. simpl. by rewrite Hst2. }
  assert (∃ ms, s' = set_response_queue (response_queue s3 ++ ms) s3 ∧ terminal_ids ms = done_ids kept) as (ms & -> & Hms).
  { unfold when in E. destruct (bool_decide _) eqn:Ek; simpl in E.
    - injection E as _ <-. exists []. apply bool_decide_eq_true, nil_length_inv in Ek. rewrite Ek. rewrite app_nil_r. split; [by destruct s3|done].
    - unfold bind, put_response, modify, ret in E. injection E as _ <-. eexists [_]. split; [done|].
      unfold terminal_ids. simpl. rewrite app_nil_r. apply terminal_created. }
  exists L'. set (c := batch_constructor s3) in *. clearbody c. subst s3. simpl in *. split.
  - apply (gone_books (done_ids kept) (concat ces) [] L L' R s); try done; simpl; [by rewrite Hn3| |];
      intros x Hx; unfold terminal_ids in *; rewrite map_app, concat_app, elem_of_app; [by left|right; by rewrite Hms].
  - by apply (owned_outside (λ x, x ∈ keys s)).
  - change (0 ≤ max_batch_size (config (set_constructor c (set_constructor c2 (set_constructor c1 s))))). by rewrite Hf3, Hz1.
Qed.

Lemma stall_steady now inputs : steady (check_stall now inputs).
Proof.
  unfold check_stall. apply steady_bind; [apply steady_get|intros s]. destruct (_ || _); [by intros s'|].
  destruct (decode_stall_timeout_s _); [apply steady_raise_if|apply steady_ret].
Qed.

Lemma outside_stall D now inputs : outside D (check_stall now inputs).
Proof.
  unfold check_stall. apply preserves_bind_get. intros s _. destruct (_ || _); [by apply outside_fields|].
  destruct (decode_stall_timeout_s _); [apply preserves_raise_if|apply preserves_ret].
Qed.

Lemma iteration_running now L R s p s' :
  Running L R s → run_iteration now s = (Ok p, s') → ∃ L', Running L' R s'.
Proof.
  intros HR E. unfold run_iteration in E. revert L HR E. intros L HR E.
  apply bind_ok in E as ([] & s1 & E1 & E). destruct (receive_moves now L R s s1 HR E1) as [L1 HR1].
  apply bind_ok in E as ([] & s2 & E2 & E). destruct (evictions_moves now L1 R s1 s2 HR1 E2) as [L2 HR2].
  apply bind_ok in E as ([] & s3 & E3 & E). destruct (reserve_moves now L2 R s2 s3 HR2 E3) as [L3 HR3].
  apply bind_ok in E as ([] & s4 & E4 & E). destruct (cancellations_move L3 R s3 s4 HR3 E4) as [L4 HR4].
  apply bind_ok in E as ([] & s5 & E5 & E). destruct (transfers_move now L4 R s4 s5 HR4 E5) as [L5 [HB5 HO5 Hz5]].
  apply bind_ok in E as (inputs & s6 & E6 & E). pose proof E6 as O6.
  apply outside_ok with (D := λ x, x ∈ keys s5) in O6; [|apply outside_constructor, framed_construct_batch|by eapply outside_books].
  apply decode_call_ok in E6 as (c & E6 & ->).
  apply (construct_batch_book now L5) in E6 as (ces & HB6 & Hst & HF); [| |apply book_inflight, HB5|exact Hz5].
  2: { pose proof (db_places _ _ _ _ HB5) as Hnd. unfold places in Hnd. by do 3 apply NoDup_app in Hnd as (_ & _ & Hnd). }
  assert (config (set_constructor c s5) = config s5 ∧ n_replicas c = n_replicas (batch_constructor s5)) as [Hf Hn].
  { unfold config, n_replicas, TextBatchConstructor.config. simpl. by rewrite Hst. }
  assert (DBooks (concat ces) L5 R (set_constructor c s5)) as HB7.
  { apply (gone_books [] [] (concat ces) L5 L5 R s5); try done. by intros x ?%elem_of_nil. }
  assert (In_batch inputs ces c) as HP.
  { unfold In_batch, n_replicas, TextBatchConstructor.config in *. rewrite Hst. exact HF. }
  apply bind_ok in E as ([] & s7 & E7 & E).
  assert (batch_constructor s7 = c) as Ec.
  { unfold check_stall in E7. unfold bind, get in E7. destruct (_ || _); [by injection E7 as <-|].
    destruct (decode_stall_timeout_s _); [by apply raise_if_ok in E7 as [_ <-]|by injection E7 as <-]. }
  pose proof (steady_run _ _ _ _ (stall_steady now inputs) E7) as S7.
  apply outside_ok with (D := λ x, x ∈ keys s5) in E7; [|apply outside_stall|exact O6].
  apply (dbooks_still _ _ _ _ _ S7) in HB7. assert (0 ≤ max_batch_size (config s7)) as Hz7 by (by rewrite (st_config _ _ S7), Hf).
  unfold bind at 1, get in E. destruct (negb _) eqn:Eg.
  - injection E as _ <-. exists L5. apply negb_true_iff in Eg. rewrite orb_false_iff in Eg. destruct Eg as [Eg _].
    apply negb_false_iff, bool_decide_eq_true in Eg. rewrite (parted_empty _ _ _ _ _ HP Eg) in HB7. split; [done| |done].
    apply (owned_outside _ _ E7). by rewrite (st_requests _ _ S7).
  - apply bind_ok in E as (n & s8 & E8 & E). injection E as _ <-. rewrite <- Ec in HP.
    apply (schedule_running inputs ces L5 R s7 n s8 HB7 HP); [|done|done]. by rewrite (st_requests _ _ S7).
Qed.

(** *** A node in use *)

(** What happens to a decode node, and the requests sent to it: requests with new ids,
    cancellations and replies arrive, the cache, the pipeline and the transfer engine work
    in between, and iterations run. *)
Inductive Decoding : list Z → DecodeScheduler.t → Prop :=
| decoding_start config tg now kv pipe lora gate e s :
    check_config config = Ok tt → 0 ≤ data_parallel_degree config →
    DecodeScheduler.init config tg now kv pipe lora gate e = Ok s → Decoding [] s
| decoding_request R s r :
    Decoding R s → Batch.request_id r ∉ R → Decoding (Batch.request_id r :: R) (set_request_queue (request_queue s ++ [r]) s)
| decoding_cancel R s rids : Decoding R s → Decoding R (set_cancel_queue (cancel_queue s ++ [rids]) s)
| decoding_reply R s m : Decoding R s → Decoding R (set_inbox (inbox s ++ [m]) s)
| decoding_engine R s e : Decoding R s → Decoding R (set_engine e s)
| decoding_outside R s c :
    Decoding R s → Same (batch_constructor s) c → (∀ x, kv_contains x (kv_cache c) = kv_contains x (kv s)) →
    (∀ rid r, TextBatchConstructor.requests c !! rid = Some r → Batch.request_id r = rid) → Decoding R (set_constructor c s)
| decoding_iteration R s now p s' : Decoding R s → run_iteration now s = (Ok p, s') → Decoding R s'.

Lemma start_running config tg now kv pipe lora gate e s :
  check_config config = Ok tt → 0 ≤ data_parallel_degree config →
  DecodeScheduler.init config tg now kv pipe lora gate e = Ok s → Running [] [] s.
Proof.
  intros Hc Hd E. unfold DecodeScheduler.init in E. destruct (TextBatchConstructor.init _ _ _ _ _) as [c|] eqn:Ei; [|done].
  injection E as <-. pose proof Ei as Ei'. unfold TextBatchConstructor.init in Ei'. destruct (_ && _); [done|].
  apply (f_equal (λ o, match o with Ok x => x | Raise _ => c end)) in Ei'. simpl in Ei'.
  assert (∀ n, len (repeat 0 n) = Z.of_nat n) as Hl by (intros n; unfold len; by rewrite repeat_length).
  assert (∀ n k, (k < n)%nat → repeat 0 n !! k = Some 0) as Hr.
  { intros n. induction n as [|n IH]; intros [|k] Hk; simpl; [lia..|done|apply IH; lia]. }
  split.
  - split; simpl; [eapply init_book; [|exact Ei]; done|constructor| | | | | |].
    1-4: by intros x *; rewrite ?elem_of_nil.
    + intros i Hi. rewrite Hl in Hi. apply Hr. lia.
    + rewrite Hl, <- Ei'. unfold n_replicas. simpl. lia.
  - rewrite <- Ei'. split; simpl; [intros rid r; by rewrite lookup_empty|by intros x ?%elem_of_nil].
  - rewrite <- Ei'. unfold DecodeScheduler.config, TextBatchConstructor.config. simpl. unfold check_config in Hc.
    destruct (max_batch_size config <=? 0) eqn:Em; [done|]. apply Z.leb_gt in Em. lia.
Qed.

Lemma decoding_running R s : Decoding R s → ∃ L, Running L R s.
Proof.
  induction 1 as [config tg now kv pipe lora gate e s Hc Hd E|R s r _ [L HR] Hr|R s rids _ [L HR]|R s m _ [L HR]|R s e _ [L HR]
    |R s c _ [L HR] HS Hk Hi|R s now p s' _ [L HR] E].
  - exists []. by eapply start_running.
  - exists L. destruct HR as [HB HO Hz]. split; [|by destruct HO; split|done]. destruct HB.
    assert (places L (set_request_queue (request_queue s ++ [r]) s) ≡ₚ Batch.request_id r :: places L s) as HP.
    { unfold places. simpl. rewrite map_app, <- app_assoc. simpl. by rewrite <- Permutation_middle. }
    split; try done.
    + rewrite HP. constructor; [|done]. intros Hin. by apply Hr, db_sent0.
    + intros x. rewrite HP, !elem_of_cons. intros [->|Hx]; [by left|right; by apply db_sent0].
    + intros x. rewrite HP, !elem_of_cons. intros [->|Hx]; [by left; left|].
      destruct (db_answered0 x Hx); [left; by right|by right].
  - exists L. by eapply running_other.
  - exists L. by eapply running_other.
  - exists L. by eapply running_other.
  - exists L. destruct HR as [HB [Hids Hcl] Hz]. split.
    + eapply dbooks_still; [|exact HB]. split; try done; simpl.
      * intros out L'. by apply book_same.
      * unfold config, TextBatchConstructor.config. simpl. by rewrite (same_settings _ _ HS).
      * unfold n_replicas. by rewrite (same_settings _ _ HS).
      * unfold all_tg_reqs. by rewrite (same_replicas _ _ HS).
    + split; [done|]. intros x Hx. unfold kv. simpl. rewrite Hk. by apply Hcl.
    + unfold config, TextBatchConstructor.config in *. simpl. by rewrite (same_settings _ _ HS).
  - by eapply iteration_running.
Qed.

End Facts.
End DecodeFacts.
