(* ===== verification/DecodeProperties.v ===== *)
(** * What the decode node guarantees

    Properties of [DecodeScheduler] in use, and a node on a paged cache whose transfers
    land at once that shows their hypotheses hold. *)

From S2P Require Import Prelude Tokens Eos FreeQueue Pool Grammar Context Hashing Connector Manager ManagerFacts ManagerProperties CacheManager KVInterface Dict Budget Lora Batch BatchFacts Conservation Spending BatchErrors Planning BatchProperties Scheduler SchedulerProperties Disagg Decode Frame PagedFrame DecodeFacts.

Module DecodeProperties.
Import ReplicaRequests TextBatchConstructor BatchFacts Conservation ConstructorKeeps SchedulerFacts DecodeScheduler DecodeFacts PagedFrame.

Section Statements.
Context {B : Backend} `{KV : !KVCache, P : Pipeline, F : Floats, G : !GrammarBuilder, A : AdapterStore,
  TE : !TransferEngine, X : !Executor, N : NumPy}.
Implicit Types s : DecodeScheduler.t.

(** Only [reserve_one] and the constructor change what waits. *)
Lemma pending_steady {Y} (f : M DecodeScheduler.t Y) s y s' : steady f → f s = (Ok y, s') → pending_reqs s' = pending_reqs s.
Proof. intros Hf E. apply (steady_run _ _ _ _ Hf E). Qed.

Lemma reserve_pending now rid s s' : reserve_one now rid s = (Ok true, s') → pending_reqs s' = pending_reqs s.
Proof.
  intros E. unfold reserve_one in E. unfold bind at 1, get in E.
  apply bind_ok in E as (i & s1 & E1 & E). apply pending_steady in E1; [|apply steady_constructor, quiet_next_replica].
  apply bind_ok in E as ([] & s2 & E2 & E). apply pending_steady in E2; [|apply steady_kv].
  apply bind_ok in E as (r & s3 & E3 & E). apply (pending_steady (try_reserve rid)) in E3; [|apply try_reserve_steady].
  destruct r; [|by do 2 apply bind_ok in E as ([] & ? & _ & E)].
  apply bind_ok in E as (l & s4 & E4 & E). apply pending_steady in E4; [|apply steady_kv].
  apply bind_ok in E as ([] & s5 & E5 & E). injection E5 as <-.
  apply bind_ok in E as ([] & s6 & E6 & E).
  assert (pending_reqs s6 = pending_reqs s4) as Ec.
  { unfold add_count in E6. unfold bind at 1, get in E6. apply bind_ok in E6 as (n & s7 & E7 & E6).
    destruct (py_index _ i); [|done]. injection E7 as _ <-. by injection E6 as <-. }
  apply bind_ok in E as ([] & s7 & E7 & E). apply pending_steady in E7; [|apply steady_send_prefill].
  injection E as <-. congruence.
Qed.

Lemma reserve_fuel fuel now s : (length (pending_reqs s) ≤ fuel)%nat →
  reserve_loop fuel now s = reserve_loop (length (pending_reqs s)) now s.
Proof.
  remember (length (pending_reqs s)) as n eqn:En. revert fuel s En.
  induction n as [|n IH]; intros fuel s En Hf.
  - symmetry in En. apply nil_length_inv in En. destruct fuel; simpl; unfold bind, get; by rewrite En.
  - destruct fuel as [|fuel]; [lia|]. simpl. unfold bind at 1 5, get. destruct (pending_reqs s) as [|rid rest] eqn:Ep; [done|].
    destruct (negb _); [done|]. unfold bind at 1 4. destruct (any_room _ s) as [[room|e] s1] eqn:Er; [|done].
    apply pending_steady in Er; [|apply steady_room]. destruct (negb room); [done|]. unfold bind at 1 3, modify.
    unfold bind. destruct (reserve_one now rid _) as [[b|e] s2] eqn:E2; [|done]. destruct b; [|done].
    apply reserve_pending in E2. simpl in E2. apply IH; [rewrite E2; simpl in En; lia|lia].
Qed.

(** *** A cancelled transfer *)

Lemma waiting_unknown L R s rid :
  DBooks [] L R s → rid ∈ map Batch.request_id (request_queue s) ++ pending_reqs s →
  contains rid (batch_constructor s) = false ∧ OrderedDict.lookup rid (DecodeScheduler.requests s) = None.
Proof.
  intros HB Hr. pose proof (db_places _ _ _ _ HB) as Hnd. unfold places in Hnd. rewrite app_assoc in Hnd.
  apply NoDup_app in Hnd as (_ & Hnd & _). specialize (Hnd rid Hr). rewrite elem_of_app in Hnd. split.
  - apply not_true_iff_false. intros Hc. apply Hnd. right. eapply held_or_out; [apply HB|done].
  - destruct (OrderedDict.lookup rid _) eqn:E; [|done]. exfalso. apply Hnd. left. apply OrderedDict.lookup_keys. by eexists.
Qed.

Lemma kv_on_context s o c rid : context_of rid s = (o, c) → kv c = kv s ∧ c = set_constructor (batch_constructor c) s.
Proof.
  unfold context_of, on_constructor, TextBatchConstructor.request, bind, get. simpl.
  destruct (_ !! rid); intros E; injection E as _ <-; done.
Qed.

Lemma add_count_fields i d s s' : add_count i d s = (Ok tt, s') → ∃ l, s' = set_counts l s.
Proof.
  intros E. unfold add_count in E. unfold bind at 1, get in E. apply bind_ok in E as (n & s3 & E3 & E).
  destruct (py_index _ _); [|done]. injection E3 as _ <-. injection E as <-. by eexists.
Qed.

Context `{FR : !KVFrame, EF : !ExecutorFrame, SF : !SyncFrame}.

(** C17: a decode node loses no request. In a node in use, each request it was sent is in
    exactly one place (the request queue, the waiting requests, the reserved ones, the
    batch constructor), or has been answered for good. *)
Theorem decode_loses_no_request R s :
  Decoding R s →
  let places := map Batch.request_id (request_queue s) ++ pending_reqs s
                ++ OrderedDict.keys (DecodeScheduler.requests s) ++ all_ids (batch_constructor s) in
  NoDup places ∧ (∀ x, x ∈ places → x ∈ R) ∧ (∀ x, x ∈ R → x ∈ places ∨ x ∈ terminal_ids (response_queue s)).
Proof.
  intros HD. destruct (decoding_running R s HD) as [L [[Hh Hp Hs Ha _ _ _ _] _ _]]. unfold places in *.
  pose proof (bk_ids _ _ _ Hh) as HL. rewrite app_nil_r in HL.
  assert (∀ l1 l2 l3 : list Z, l1 ++ l2 ++ l3 ++ all_ids (batch_constructor s) ≡ₚ l1 ++ l2 ++ l3 ++ L) as HP by (intros; by rewrite HL).
  cbv zeta. split; [by rewrite HP|]. split; intros x; rewrite HP; auto.
Qed.

(** C18: the blocks of a reservation are not given away. In a node in use, every request
    that waits for its prefill or for its transfer, cancelled ones included, holds its
    claim on the KV cache; and a cancelled one has been answered for good. *)
Theorem reserved_blocks_stay_claimed R s x p :
  Decoding R s → (x, p) ∈ DecodeScheduler.requests s →
  kv_contains x (kv s) = true ∧ (cancelled p = true → x ∈ terminal_ids (response_queue s)).
Proof.
  intros HD Hx. destruct (decoding_running R s HD) as [L [HB [_ Hc] _]]. split; [|by apply (db_cancelled _ _ _ _ HB)].
  apply Hc. by apply (list_elem_of_fmap_2 fst) in Hx.
Qed.

(** The counters the placement reads are exact. In a node in use,
    [prefill_reqs_per_replica] has one counter per replica: the number of requests
    reserved on it. *)
Theorem prefill_counts_exact R s i :
  Decoding R s → 0 ≤ i < n_replicas (batch_constructor s) →
  py_index (prefill_reqs_per_replica s) i = Some (_inflight_kv_transfer_count s i).
Proof.
  intros HD Hi. destruct (decoding_running R s HD) as [L [HB _ _]]. rewrite <- (db_size _ _ _ _ HB) in Hi.
  rewrite py_index_inside by done. by apply (db_counts _ _ _ _ HB).
Qed.

(** Reservations respect the batch size. Pulling requests and reserving for them
    never takes the number of requests that generate or are reserved past the maximum
    batch size (nor past that number before the call). *)
Theorem reservations_within_batch_size R s now s' :
  Decoding R s → reserve_memory_and_send_to_prefill now s = (Ok tt, s') →
  len (all_tg_reqs (batch_constructor s')) + len (DecodeScheduler.requests s') ≤
  Z.max (max_batch_size (config s)) (len (all_tg_reqs (batch_constructor s)) + len (DecodeScheduler.requests s)).
Proof. intros HD E. destruct (decoding_running R s HD) as [L HR]. exact (proj2 (reserve_run now L R s s' HR E)). Qed.

(** Cancelling a request whose transfer is running answers the client and tells the
    prefill node, but releases nothing: the cache is as it was, and the entry stays,
    marked. A second cancellation answers again. *)
Theorem cancellation_waits_for_transfer R s rid p s' :
  Decoding R s → OrderedDict.lookup rid (DecodeScheduler.requests s) = Some p → phase p = TRANSFERRING →
  handle_cancelled rid s = (Ok tt, s') →
  kv s' = kv s ∧ response_queue s' = response_queue s ++ [[(rid, SchedulerResult.cancelled)]] ∧
  (∃ endpoint, sent s' = sent s ++ [(endpoint, Cancel rid)]) ∧
  DecodeScheduler.requests s' = OrderedDict.set rid
    (pending_decode_request _ _ _ _ (replica_idx p) TRANSFERRING (phase_entered_at p) (transfer p) true) (DecodeScheduler.requests s).
Proof.
  intros HD Hp Hph E. destruct (decoding_running R s HD) as [L HR]. unfold handle_cancelled in E. unfold bind at 1, get in E.
  destruct (contains rid (batch_constructor s)) eqn:Hc.
  { exfalso. apply (held_or_out rid [] L) in Hc; [|apply HR]. apply (held_not_reserved L R s rid HR Hc).
    apply OrderedDict.lookup_keys. by exists p. }
  rewrite Hp in E. apply bind_ok in E as (data & s1 & E1 & E). apply kv_on_context in E1 as [Hk Es].
  rewrite decide_True in E by done. unfold bind at 1, put_pending, modify in E.
  destruct (target_endpoint data) as [e|]; [|done]. injection E as <-. rewrite Es. simpl. split; [exact Hk|].
  split; [done|]. split; [by exists e|]. by rewrite Hph.
Qed.

(** A cancelled transfer gives its blocks back when it has landed, and its request
    never generates. Of a marked entry, the sweep of the transfers drops the entry and
    releases the claim if the engine says the transfer is complete, and leaves both
    alone if not; the batch constructor gets no request. *)
Theorem cancelled_transfer_released_on_landing now s rid p x s' :
  OrderedDict.lookup rid (DecodeScheduler.requests s) = Some p → cancelled p = true → transfer p = Some x →
  check_transfer now rid s = (Ok tt, s') →
  all_ids (batch_constructor s') = all_ids (batch_constructor s) ∧
  if decide ((te_is_complete x (transfer_engine s)).1 = Ok true)
  then DecodeScheduler.requests s' = OrderedDict.delete rid (DecodeScheduler.requests s) ∧ kv s' = (kv_release rid (kv s)).2
  else DecodeScheduler.requests s' = DecodeScheduler.requests s ∧ kv s' = kv s.
Proof.
  intros Hp Hc Hx E. unfold check_transfer in E. apply bind_ok in E as (p' & s1 & E1 & E).
  apply pending_of_ok in E1 as [Hp' ->]. rewrite Hp in Hp'. injection Hp' as <-. rewrite Hx in E.
  apply bind_ok in E as ([] & s1 & E1 & E). apply py_assert_ok in E1 as [_ <-].
  apply bind_ok in E as (b & s1 & E1 & E). unfold on_engine, zoom in E1. destruct (te_is_complete x _) as [o e].
  injection E1 as -> <-. destruct b; simpl in E; [rewrite decide_True by done|rewrite decide_False by done; by injection E as <-].
  unfold bind at 1, delete_pending, modify in E. apply bind_ok in E as ([] & s2 & E2 & E).
  apply add_count_fields in E2 as (l & ->).
  apply bind_ok in E as ([] & s4 & E4 & E). unfold on_engine, zoom in E4. destruct (te_cleanup_transfer x _) as [o e'].
  injection E4 as -> <-. rewrite Hc in E. unfold on_kv, on_constructor, TextBatchConstructor.on_kv, zoom in E.
  change (kv s) with (kv_cache (batch_constructor s)). simpl in E. destruct (kv_release rid (kv_cache (batch_constructor s))) as [o k].
  injection E as -> <-. done.
Qed.

(** A request that only waits cannot be cancelled. In a node in use, the cancellation
    of a request in the request queue or among the waiting ones changes nothing: no
    answer, and the request is served later. *)
Theorem waiting_request_ignores_cancellation R s rid :
  Decoding R s → rid ∈ map Batch.request_id (request_queue s) ++ pending_reqs s →
  handle_cancelled rid s = (Ok tt, s).
Proof.
  intros HD Hr. destruct (decoding_running R s HD) as [L [HB _ _]]. destruct (waiting_unknown L R s rid HB Hr) as [Hc Hl].
  unfold handle_cancelled, bind, get. by rewrite Hc, Hl.
Qed.

(** An eviction does not wait for the transfer. If a request expires while its
    transfer runs, so that cleaning the transfer up raises [ValueError], the error is
    swallowed and the request's claim is released all the same: its blocks can be given
    away while the transfer still writes to them. *)
Theorem eviction_frees_running_transfer s rid p x s' :
  OrderedDict.lookup rid (DecodeScheduler.requests s) = Some p → phase p = TRANSFERRING → transfer p = Some x →
  (te_cleanup_transfer x (transfer_engine s)).1 = Raise ValueError → evict rid s = (Ok tt, s') →
  kv s' = (kv_release rid (kv s)).2 ∧ DecodeScheduler.requests s' = OrderedDict.delete rid (DecodeScheduler.requests s).
Proof.
  intros Hp Hph Hx Hcl E. unfold evict in E. apply bind_ok in E as (p' & s1 & E1 & E). apply pending_of_ok in E1 as [Hp' ->].
  rewrite Hp in Hp'. injection Hp' as <-. unfold bind at 1, delete_pending, modify in E.
  apply bind_ok in E as ([] & s2 & E2 & E). apply add_count_fields in E2 as (l & ->).
  apply bind_ok in E as ([] & s3 & E3 & E). rewrite bool_decide_eq_true_2 in E3 by done. simpl in E3. rewrite Hx in E3. simpl in E3.
  unfold bind, ret, catch, on_engine, zoom in E3. simpl in E3. destruct (te_cleanup_transfer x _) as [o e]. simpl in Hcl. subst o.
  rewrite decide_True in E3 by done. injection E3 as <-. apply bind_ok in E as ([] & s4 & E4 & E).
  unfold on_kv, on_constructor, TextBatchConstructor.on_kv, zoom in E4. change (kv s) with (kv_cache (batch_constructor s)).
  simpl in E4. destruct (kv_release rid (kv_cache (batch_constructor s))) as [o k]. injection E4 as -> <-.
  destruct (negb (cancelled p)); [|by injection E as <-]. apply bind_ok in E as ([] & s5 & E5 & E). injection E as <-.
  unfold _send_cancel_to_prefill in E5. apply bind_ok in E5 as (r & s6 & E6 & E5). apply kv_on_context in E6 as [Hk Es].
  destruct (target_endpoint r); injection E5 as <-; rewrite Es; split; simpl; done.
Qed.

(** Reserving ends. The loop that reserves for the waiting requests takes one of them
    per round and never more rounds than requests wait, so its fuel does not matter. *)
Theorem reserving_terminates fuel now s :
  (length (pending_reqs s) ≤ fuel)%nat → reserve_loop fuel now s = reserve_loop (length (pending_reqs s)) now s.
Proof. apply reserve_fuel. Qed.

End Statements.
(** ** A node on six pages, whose engine lists the transfers that have landed *)
#[local] Existing Instance HashProperties.toy_digest.
#[local] Existing Instance recording_backend.
#[local] Existing Instance LoraProperties.path_store.
#[local] Existing Instance BatchProperties.no_pipeline.
#[local] Existing Instance BatchProperties.rationals.
#[local] Existing Instance BatchProperties.no_builder.
#[local] Existing Instance SchedulerProperties.ends_first.

#[local] Instance landings : TransferEngine := {|
  engine := list Z;
  transfer_req := Z;
  engine_metadata := string;
  metadata_name m := m;
  te_metadata _ := "decode"%string;
  te_remote_connections _ := ∅;
  te_connect _ := ret tt;
  te_is_complete x := let! l := get in ret (bool_decide (x ∈ l));
  te_cleanup_transfer x := let! l := get in raise_if (negb (bool_decide (x ∈ l))) ValueError;
  te_initiate_send_transfer _ _ _ _ _ := ret 0;
  onload_synchronize _ := ret tt
|}.

#[local] Instance landings_frame : SyncFrame.
Proof. by split. Qed.
#[local] Instance ends_first_frame : ExecutorFrame.
Proof. by split. Qed.

Definition asks_prefill (rid : Z) : Request recording_backend :=
  mk_request _ (ManagerProperties.prompt rid 0) "base" None None false (Some "prefill"%string).

Definition node : DecodeScheduler.t :=
  match DecodeScheduler.init BatchProperties.small_config BatchProperties.zero_s BatchProperties.noon
          (BatchProperties.six_pages : cache) (tt : pipeline) None None ([] : engine) with
  | Ok s => s
  | Raise _ => mk _ _ _ _ _ _ _ BatchProperties.fresh [] [] [] [] ∅ BatchProperties.noon [] [] [] [] []
  end.
Lemma node_init :
  DecodeScheduler.init BatchProperties.small_config BatchProperties.zero_s BatchProperties.noon
    (BatchProperties.six_pages : cache) (tt : pipeline) None None ([] : engine) = Ok node.
Proof. reflexivity. Qed.

(** Two requests arrive; both are reserved and sent. *)
Definition two_queued : DecodeScheduler.t := set_request_queue [asks_prefill 1; asks_prefill 2] node.
Definition two_sent : DecodeScheduler.t := BatchProperties.ran (run_iteration BatchProperties.noon) two_queued.
(** The prefill node answers for the first, whose transfer does not land yet. *)
Definition nine : transfer_req := 9.
Definition first_reply : ReplyType := Response (prefill_response _ _ _ 1 5 nine None).
Definition first_answered : DecodeScheduler.t := set_inbox [first_reply] two_sent.
Definition transferring : DecodeScheduler.t := BatchProperties.ran (run_iteration BatchProperties.noon) first_answered.
(** A third arrives; the first is cancelled. *)
Definition third_queued : DecodeScheduler.t :=
  set_request_queue (request_queue transferring ++ [asks_prefill 3]) transferring.
Definition first_cancelled : DecodeScheduler.t := BatchProperties.ran (handle_cancelled 1) third_queued.
(** The transfer lands. *)
Definition landed : DecodeScheduler.t := set_engine [9] first_cancelled.

Lemma two_queued_decoding : Decoding [2; 1] two_queued.
Proof.
  assert (Decoding [] node) as H0 by (eapply decoding_start; [| |exact node_init]; [reflexivity|discriminate]).
  apply (decoding_request [] node (asks_prefill 1)) in H0; [|by intros ?%elem_of_nil].
  apply (decoding_request [1] _ (asks_prefill 2)) in H0; [exact H0|]. apply (bool_decide_unpack _). vm_compute. exact I.
Qed.

Lemma transferring_decoding : Decoding [2; 1] transferring.
Proof.
  assert (Decoding [2; 1] two_sent) as H1.
  { apply (decoding_iteration [2; 1] two_queued BatchProperties.noon NO_PROGRESS two_sent two_queued_decoding).
    apply (BatchProperties.ran_run (run_iteration BatchProperties.noon) two_queued). vm_compute. reflexivity. }
  apply (decoding_reply [2; 1] two_sent first_reply) in H1.
  apply (decoding_iteration [2; 1] first_answered BatchProperties.noon NO_PROGRESS transferring H1).
  apply (BatchProperties.ran_run (run_iteration BatchProperties.noon) first_answered). vm_compute. reflexivity.
Qed.

Lemma third_queued_decoding : Decoding [3; 2; 1] third_queued.
Proof.
  apply (decoding_request [2; 1] transferring (asks_prefill 3)); [exact transferring_decoding|].
  apply (bool_decide_unpack _). vm_compute. exact I.
Qed.

Lemma decode_loses_no_request_witness :
  OrderedDict.keys (DecodeScheduler.requests third_queued) = [1; 2] ∧
  (∀ x, x ∈ [3; 2; 1] → x ∈ [3] ++ pending_reqs third_queued ++ [1; 2] ++ all_ids (batch_constructor third_queued)
    ∨ x ∈ terminal_ids (response_queue third_queued)).
Proof.
  split; [vm_compute; reflexivity|].
  destruct (decode_loses_no_request [3; 2; 1] third_queued third_queued_decoding) as (_ & _ & Ha). exact Ha.
Defined.

(** What the entry of the first request says. *)
Definition entry_view (s : DecodeScheduler.t) : option (DecodeRequestPhase * bool * option Z) :=
  (λ p, (phase p, cancelled p, transfer p : option Z)) <$> OrderedDict.lookup 1 (DecodeScheduler.requests s).
Lemma view_entry s v : entry_view s = Some v →
  ∃ p, OrderedDict.lookup 1 (DecodeScheduler.requests s) = Some p ∧ v = (phase p, cancelled p, transfer p : option Z).
Proof. unfold entry_view. destruct (OrderedDict.lookup _ _) as [p|]; [|done]. intros [= <-]. by exists p. Qed.

Lemma first_entry :
  ∃ p, OrderedDict.lookup 1 (DecodeScheduler.requests third_queued) = Some p ∧ phase p = TRANSFERRING ∧ transfer p = Some nine.
Proof.
  destruct (view_entry third_queued (TRANSFERRING, false, Some nine)) as (p & Hp & Hv); [vm_compute; reflexivity|].
  exists p. injection Hv as Hph _ Ht. by split_and!.
Qed.
Lemma marked_entry :
  ∃ p, OrderedDict.lookup 1 (DecodeScheduler.requests landed) = Some p ∧ cancelled p = true ∧ transfer p = Some nine.
Proof.
  destruct (view_entry landed (TRANSFERRING, true, Some nine)) as (p & Hp & Hv); [vm_compute; reflexivity|].
  exists p. injection Hv as _ Hc Ht. by split_and!.
Qed.

Lemma reserved_blocks_stay_claimed_witness : kv_contains 1 (kv third_queued) = true.
Proof.
  destruct first_entry as (p & Hp & _).
  destruct (reserved_blocks_stay_claimed [3; 2; 1] third_queued 1 p third_queued_decoding) as [Hk _]; [|exact Hk].
  exact (OrderedDict.lookup_Some _ _ _ Hp).
Defined.

Lemma prefill_counts_exact_witness :
  py_index (prefill_reqs_per_replica third_queued) 0 = Some (_inflight_kv_transfer_count third_queued 0) ∧
  _inflight_kv_transfer_count third_queued 0 = 2.
Proof.
  split; [|vm_compute; reflexivity]. apply (prefill_counts_exact [3; 2; 1] third_queued 0 third_queued_decoding).
  vm_compute. split; [discriminate|reflexivity].
Defined.

Definition third_reserved : DecodeScheduler.t :=
  BatchProperties.ran (reserve_memory_and_send_to_prefill BatchProperties.noon) third_queued.
Lemma reservations_within_batch_size_witness :
  len (all_tg_reqs (batch_constructor third_reserved)) + len (DecodeScheduler.requests third_reserved) ≤ 2 ∧
  pending_reqs third_reserved = [3].
Proof.
  split; [|vm_compute; reflexivity].
  apply (reservations_within_batch_size [3; 2; 1] third_queued BatchProperties.noon third_reserved third_queued_decoding).
  apply (BatchProperties.ran_run (reserve_memory_and_send_to_prefill BatchProperties.noon) third_queued). vm_compute. reflexivity.
Defined.

Lemma cancellation_waits_for_transfer_witness :
  kv first_cancelled = kv third_queued ∧
  response_queue first_cancelled = response_queue third_queued ++ [[(1, SchedulerResult.cancelled)]].
Proof.
  destruct first_entry as (p & Hp & Hph & _).
  destruct (cancellation_waits_for_transfer [3; 2; 1] third_queued 1 p first_cancelled) as (Hk & Hr & _).
  - exact third_queued_decoding.
  - exact Hp.
  - exact Hph.
  - apply (BatchProperties.ran_run (handle_cancelled 1) third_queued). vm_compute. reflexivity.
  - split; [exact Hk|exact Hr].
Defined.

Definition swept : DecodeScheduler.t := BatchProperties.ran (check_transfer BatchProperties.noon 1) landed.
Lemma cancelled_transfer_released_on_landing_witness :
  all_ids (batch_constructor swept) = all_ids (batch_constructor landed) ∧
  DecodeScheduler.requests swept = OrderedDict.delete 1 (DecodeScheduler.requests landed) ∧
  kv swept = (kv_release 1 (kv landed)).2.
Proof.
  destruct marked_entry as (p & Hp & Hc & Ht).
  destruct (cancelled_transfer_released_on_landing BatchProperties.noon landed 1 p nine swept) as (Hids & Hd).
  - exact Hp.
  - exact Hc.
  - exact Ht.
  - apply (BatchProperties.ran_run (check_transfer BatchProperties.noon 1) landed). vm_compute. reflexivity.
  - split; [exact Hids|]. rewrite decide_True in Hd by (vm_compute; reflexivity). exact Hd.
Defined.

Lemma waiting_request_ignores_cancellation_witness : handle_cancelled 3 third_queued = (Ok tt, third_queued).
Proof.
  apply (waiting_request_ignores_cancellation [3; 2; 1] third_queued 3 third_queued_decoding).
  apply (bool_decide_unpack _). vm_compute. exact I.
Defined.

(** The transfer expires before it lands. *)
Definition evicted : DecodeScheduler.t := BatchProperties.ran (evict 1) third_queued.
Lemma eviction_frees_running_transfer_witness :
  kv_contains 1 (kv third_queued) = true ∧ kv evicted = (kv_release 1 (kv third_queued)).2 ∧ kv_contains 1 (kv evicted) = false.
Proof.
  split; [vm_compute; reflexivity|]. split; [|vm_compute; reflexivity]. destruct first_entry as (p & Hp & Hph & Ht).
  destruct (eviction_frees_running_transfer third_queued 1 p nine evicted) as [Hk _].
  - exact Hp.
  - exact Hph.
  - exact Ht.
  - reflexivity.
  - apply (BatchProperties.ran_run (evict 1) third_queued). vm_compute. reflexivity.
  - exact Hk.
Defined.

Lemma reserving_terminates_witness : reserve_loop 9 BatchProperties.noon two_queued = reserve_loop 0 BatchProperties.noon two_queued.
Proof. apply (reserving_terminates 9 BatchProperties.noon two_queued). vm_compute. lia. Defined.

End DecodeProperties.
