(* ===== verification/Prefill.v ===== *)
(** * The prefill node's scheduler (serve/scheduler/prefill_scheduler.py)

    The prefill node runs the prompts of the requests a decode node sends it; once a
    request has its first token, it starts the transfer of the KV blocks to the decode
    node, replies, and keeps the blocks until the transfer has landed. With a pipeline
    that overlaps batches, the first token is known one batch late, and the request is
    parked in between. Requests, queues, sockets and the clock are modelled as in the
    decode scheduler; [request_id_to_reply_context] is only looked up by id. Not
    modelled: logging (of which the two cache calls made to build a message are kept),
    metrics and spans. *)

From S2P Require Import Prelude Tokens Eos FreeQueue Pool Grammar Context Hashing Connector Manager ManagerFacts ManagerProperties CacheManager KVInterface Dict Budget Lora Batch Scheduler Disagg.

Record TransferDest := transfer_dest {
  engine_name : string;
  dst_block_ids : list Z;
  dst_replica_idx : Z
}.

(** The context is the object of the id the transfer is filed under. *)
Record ActiveTransfer `{TE : TransferEngine} := active_transfer {
  at_replica_idx : Z;
  at_transfer : transfer_req
}.

Module PrefillScheduler.

Record t {B : Backend} `{KV : !KVCache, P : Pipeline, F : Floats, G : !GrammarBuilder, A : AdapterStore, TE : !TransferEngine} := mk {
  batch_constructor : TextBatchConstructor.t;
  transfer_engine : engine;
  active_transfers : list (Z * ActiveTransfer);
  request_id_to_reply_context : gmap Z (string * TransferDest);
  outstanding_cancelled_requests : gset Z;
  _pending_first_token : list (Z * Z);
  inbox : list (RequestType_ * string);
  sent : list (ReplyType * string)
}.

Section Prefill.
Context {B : Backend} `{KV : !KVCache, P : Pipeline, F : Floats, G : !GrammarBuilder, A : AdapterStore,
  TE : !TransferEngine, X : !Executor, N : NumPy}.
Implicit Types s : t.

Definition set_constructor x s : t :=
  mk _ _ _ _ _ _ _ x (transfer_engine s) (active_transfers s) (request_id_to_reply_context s)
    (outstanding_cancelled_requests s) (_pending_first_token s) (inbox s) (sent s).
Definition set_engine x s : t :=
  mk _ _ _ _ _ _ _ (batch_constructor s) x (active_transfers s) (request_id_to_reply_context s)
    (outstanding_cancelled_requests s) (_pending_first_token s) (inbox s) (sent s).
Definition set_active x s : t :=
  mk _ _ _ _ _ _ _ (batch_constructor s) (transfer_engine s) x (request_id_to_reply_context s)
    (outstanding_cancelled_requests s) (_pending_first_token s) (inbox s) (sent s).
Definition set_reply_context x s : t :=
  mk _ _ _ _ _ _ _ (batch_constructor s) (transfer_engine s) (active_transfers s) x
    (outstanding_cancelled_requests s) (_pending_first_token s) (inbox s) (sent s).
Definition set_cancelled x s : t :=
  mk _ _ _ _ _ _ _ (batch_constructor s) (transfer_engine s) (active_transfers s) (request_id_to_reply_context s)
    x (_pending_first_token s) (inbox s) (sent s).
Definition set_pending_first x s : t :=
  mk _ _ _ _ _ _ _ (batch_constructor s) (transfer_engine s) (active_transfers s) (request_id_to_reply_context s)
    (outstanding_cancelled_requests s) x (inbox s) (sent s).
Definition set_inbox x s : t :=
  mk _ _ _ _ _ _ _ (batch_constructor s) (transfer_engine s) (active_transfers s) (request_id_to_reply_context s)
    (outstanding_cancelled_requests s) (_pending_first_token s) x (sent s).
Definition set_sent x s : t :=
  mk _ _ _ _ _ _ _ (batch_constructor s) (transfer_engine s) (active_transfers s) (request_id_to_reply_context s)
    (outstanding_cancelled_requests s) (_pending_first_token s) (inbox s) x.

(** *** Objects and their parts *)

(** Transfers and parked requests that hold blocks of a replica. *)
Definition _inflight_kv_transfer_count s (i : Z) : Z :=
  len (filter (λ e, at_replica_idx e.2 = i) (active_transfers s)) + len (filter (λ e, e.2 = i) (_pending_first_token s)).

Definition with_inflight (count : Z → Z) (c : TextBatchConstructor.t) : TextBatchConstructor.t :=
  let st := TextBatchConstructor.settings c in
  TextBatchConstructor.set_settings
    (TextBatchConstructor.mk_settings _ (TextBatchConstructor.scheduler_config st)
       (TextBatchConstructor.batch_scheduling_strategy st) (TextBatchConstructor.tg_priority_kv_percentage st)
       (Some count) (TextBatchConstructor.num_replicas st)) c.
Definition on_constructor {Y} (f : M TextBatchConstructor.t Y) : M t Y := λ s,
  let '(o, c) := f (with_inflight (_inflight_kv_transfer_count s) (batch_constructor s)) in (o, set_constructor c s).
Definition on_kv {Y} (f : M cache Y) : M t Y := on_constructor (TextBatchConstructor.on_kv f).
Definition on_engine {Y} (f : M engine Y) : M t Y := zoom transfer_engine set_engine f.
Definition on_context {Y} (rid : Z) (f : M (Ctx.t B) Y) : M t Y := on_constructor (TextBatchConstructor.on_request rid f).
Definition context_of (rid : Z) : M t (Request B) := on_constructor (TextBatchConstructor.request rid).
Definition release_pipeline (rid : Z) : M t unit := on_constructor (TextBatchConstructor.release_pipeline rid).

Definition config s : TokenGenerationSchedulerConfig := TextBatchConstructor.config (batch_constructor s).
Definition kv s : cache := TextBatchConstructor.kv_cache (batch_constructor s).

Definition send_reply_nowait (m : ReplyType) (identity : string) : M t unit :=
  modify (λ s, set_sent (sent s ++ [(m, identity)]) s).

(** *** Requests of the decode node *)

Definition handle_cancel_request (rid : Z) : M t unit :=
  modify (λ s, set_cancelled ({[ rid ]} ∪ outstanding_cancelled_requests s) s).

Definition handle_transfer_engine_request (m : engine_metadata) (identity : string) : M t unit :=
  let! s := get in
  if bool_decide (is_Some (te_remote_connections (transfer_engine s) !! metadata_name m)) then ret tt else
  on_engine (te_connect m);;
  let! s := get in
  send_reply_nowait (Connected (te_metadata (transfer_engine s))) identity.

Definition handle_prefill_request (now : float) (m : PrefillRequest B) (identity : string) : M t unit :=
  py_assert (TokenBuffer.generated_length (tokens (pq_context m)) =? 0);;
  let '(o, x) := Ctx.on_base TextContext.reset (ctx (pq_context m)) in
  of_outcome o;;
  on_constructor (TextBatchConstructor.enqueue_new_request now (set_ctx x (pq_context m)) None);;
  modify (λ s, set_reply_context
    (<[pq_id m := (identity, transfer_dest (pq_transfer_engine_name m) (pq_dst_block_ids m) (pq_dst_replica_idx m))]>
       (request_id_to_reply_context s)) s).

Definition handle_request (now : float) '((m, identity) : RequestType_ * string) : M t unit :=
  match m with
  | Cancel rid => handle_cancel_request rid
  | Connect m => handle_transfer_engine_request m identity
  | Prefill m => handle_prefill_request now m identity
  end.

(** Read the requests that are there. *)
Definition receive_requests (now : float) : M t unit :=
  let! s := get in
  for_each (inbox s) (λ m, modify (λ s, set_inbox (tail (inbox s)) s);; handle_request now m).

(** *** Transfers *)

(** Whether the transfer has landed; if so, its request's blocks are freed. *)
Definition cleanup_transfer '((rid, active) : Z * ActiveTransfer) : M t bool :=
  let! complete := on_engine (te_is_complete (at_transfer active)) in
  if complete : bool then
    on_engine (te_cleanup_transfer (at_transfer active));;
    let! _ := on_kv (kv_get_req_blocks rid) in
    on_kv (kv_release rid);;
    release_pipeline rid;;
    ret true
  else ret false.

Definition cleanup_active_transfers : M t unit :=
  let! s := get in
  let! to_be_deleted := for_fold (active_transfers s) [] (λ acc e,
    let! done := cleanup_transfer e in ret (if done : bool then acc ++ [e.1] else acc)) in
  for_each to_be_deleted (λ rid, modify (λ s, set_active (OrderedDict.delete rid (active_transfers s)) s)).

Definition count_cached (l : list Z) : Z := len (filter (λ x, x = -1) l).

(** The request was cancelled before its transfer. *)
Definition drop_cancelled (rid : Z) : M t unit :=
  modify (λ s, set_cancelled (outstanding_cancelled_requests s ∖ {[ rid ]}) s);;
  let! _ := on_kv (kv_get_req_blocks rid) in
  on_kv (kv_release rid);;
  release_pipeline rid.

(** Start the transfer of the blocks that decode does not have. *)
Definition start_transfer (rid src_replica_idx : Z) (dest : TransferDest) : M t transfer_req :=
  let! s := get in
  let! remote := of_option KeyError (te_remote_connections (transfer_engine s) !! engine_name dest) in
  let! src_idxs := on_kv (kv_get_req_blocks rid) in
  let dst_idxs := dst_block_ids dest in
  py_assert (len src_idxs =? len dst_idxs);;
  let num_already_cached_blocks := count_cached dst_idxs in
  let src_idxs := slice_from src_idxs num_already_cached_blocks in
  let dst_idxs := slice_from dst_idxs num_already_cached_blocks in
  py_assert (count_cached dst_idxs =? 0);;
  let! data := on_engine (te_initiate_send_transfer remote src_idxs dst_idxs src_replica_idx (dst_replica_idx dest)) in
  modify (λ s, set_active (OrderedDict.set rid (active_transfer _ _ _ src_replica_idx data) (active_transfers s)) s);;
  ret data.

(** The reply, with the first token and, for speculative decoding, the drafts. *)
Definition send_reply (rid : Z) (identity : string) (data : transfer_req) : M t unit :=
  let! r := context_of rid in
  py_assert (negb (TokenBuffer.generated_length (tokens r) =? 0));;
  py_assert (TokenBuffer.processed_length (tokens r) >? 0);;
  let! s := get in
  let! drafts := (if (num_speculative_tokens (config s) >? 0) && negb (TextContext.is_done (Ctx.base (ctx r))) then
      let! l := on_context rid draft_tokens in
      raise_if (bool_decide (l = [])) ValueError;;
      ret (Some l)
    else ret None) in
  let! token := on_context rid (Ctx.on_base TextContext.last_realized_token) in
  send_reply_nowait (Response (prefill_response _ _ _ rid token data drafts)) identity.

Definition initiate_transfer_and_send_reply (rid src_replica_idx : Z) : M t unit :=
  let! s := get in
  let! '(identity, dest) := of_option KeyError (request_id_to_reply_context s !! rid) in
  modify (λ s, set_reply_context (delete rid (request_id_to_reply_context s)) s);;
  if bool_decide (rid ∈ outstanding_cancelled_requests s) then drop_cancelled rid else
  let! data := start_transfer rid src_replica_idx dest in
  (* the numbers of a log message *)
  let! s := get in
  for_each (OrderedDict.keys (active_transfers s)) (λ rid, let! _ := on_kv (kv_get_req_blocks rid) in ret tt);;
  let! _ := on_kv (kv_block_count src_replica_idx) in
  send_reply rid identity data.

(** *** An iteration *)

(** The parked requests whose first token has surfaced. *)
Definition resolve (rid : Z) : M t unit :=
  let! s := get in
  match OrderedDict.lookup rid (_pending_first_token s) with
  | None => ret tt
  | Some replica_idx =>
      modify (set_pending_first (OrderedDict.delete rid (_pending_first_token s)));;
      initiate_transfer_and_send_reply rid replica_idx
  end.

(** The requests that have generated, each with its replica. *)
Definition generated s : list (Z * Z) :=
  concat (map (λ '(i, q), map (λ rid, (rid, i)) (ReplicaRequests.tg_reqs q))
    (zip (zrange 0 (len (TextBatchConstructor.replicas (batch_constructor s))))
       (TextBatchConstructor.replicas (batch_constructor s)))).

Definition schedule (inputs : list (list Z)) : M t Z :=
  py_assert (len inputs >? 0);;
  let! responses := on_constructor (run_pipeline inputs) in
  on_constructor (TextBatchConstructor.advance_requests inputs);;
  for_each responses.*1 resolve;;
  let! s := get in
  (if has_pending_outputs (TextBatchConstructor.pipeline_state (batch_constructor s)) then
     for_each (generated s) (λ '(rid, i),
       modify (λ s, set_pending_first (OrderedDict.set rid i (_pending_first_token s)) s))
   else for_each (generated s) (λ '(rid, i), initiate_transfer_and_send_reply rid i));;
  let! s := get in
  let terminated := len (TextBatchConstructor.all_tg_reqs (batch_constructor s)) in
  on_constructor TextBatchConstructor.clear_tg_reqs;;
  ret terminated.

Definition run_iteration (now : float) : M t SchedulerProgress :=
  receive_requests now;;
  cleanup_active_transfers;;
  let! inputs := on_constructor (TextBatchConstructor.construct_batch now) in
  let! failed := on_constructor TextBatchConstructor.take_grammar_failed in
  for_each failed (λ '(rid, _), modify (λ s, set_reply_context (delete rid (request_id_to_reply_context s)) s));;
  let! s := get in
  if negb (negb (bool_decide (concat inputs = []))
           || has_pending_outputs (TextBatchConstructor.pipeline_state (batch_constructor s)))
  then ret NO_PROGRESS else
  schedule inputs;;
  ret MADE_PROGRESS.

(** [__init__], on empty sockets *)
Definition init (c : TokenGenerationSchedulerConfig) (tg_priority : float) (k : cache) (pipe : pipeline)
    (lora : option LoRAManagerV3.t) (gate : option AsyncGrammarGate.t) (e : engine) : outcome t :=
  match TextBatchConstructor.init (TextBatchConstructor.mk_settings _ c PREFILL_FIRST tg_priority
          (Some (λ _, 0)) (data_parallel_degree c)) k pipe lora gate with
  | Raise e => Raise e
  | Ok b => Ok (mk _ _ _ _ _ _ _ b e [] ∅ ∅ [] [] [])
  end.

End Prefill.
End PrefillScheduler.
