(* ===== verification/PrefillFacts.v ===== *)
(** * The prefill node keeps the blocks of running transfers

    Where the requests sent to a prefill node are, and who holds the blocks of those
    whose transfer runs. *)

From S2P Require Import Prelude Tokens Eos FreeQueue Pool Grammar Context Hashing Connector Manager ManagerFacts ManagerProperties CacheManager KVInterface Dict Budget Lora Batch BatchFacts Conservation Spending BatchErrors Planning BatchProperties Scheduler SchedulerProperties Disagg Frame Decode DecodeFacts Prefill.

(** ** Clearing the requests that generate *)
Module ClearFacts.
Import ReplicaRequests TextBatchConstructor BatchFacts Conservation.

Section Clear.
Context {B : Backend} `{KV : !KVCache, P : Pipeline, F : Floats, G : !GrammarBuilder, A : AdapterStore}.
Implicit Types c : t.

Definition cleared (q : ReplicaRequests.t) : ReplicaRequests.t := set_tg [] q.

Lemma own_cleared q : own q ≡ₚ tg_reqs q ++ own (cleared q).
Proof. unfold own. simpl. by rewrite Permutation_app_swap_app. Qed.

Lemma concat_own_insert l i q :
  l !! i = Some q → concat (map own l) ≡ₚ tg_reqs q ++ concat (map own (<[i := cleared q]> l)).
Proof.
  revert i. induction l as [|q0 l IH]; intros i Hi; [done|]. destruct i as [|i]; simpl in *.
  - injection Hi as ->. by rewrite own_cleared, <- app_assoc.
  - rewrite (IH i Hi). apply Permutation_app_swap_app.
Qed.

(** What generates is held. *)
Lemma generated_held L c : Book [] L c → concat (map tg_reqs (replicas c)) ⊆+ L.
Proof.
  intros HB. rewrite <- (bk_ids _ _ _ HB), app_nil_r. unfold all_ids, ids. rewrite <- !app_assoc.
  apply submseteq_inserts_r. induction (replicas c) as [|q l IH]; simpl; [done|].
  apply submseteq_app; [rewrite own_cleared; by apply submseteq_inserts_r|done].
Qed.

(** The fields [clear_tg_reqs] leaves alone. *)
Record Untouched c c' : Prop := {
  un_settings : settings c' = settings c;
  un_kv : kv_cache c' = kv_cache c;
  un_requests : requests c' = requests c;
  un_onloading : _onloading_reqs c' = _onloading_reqs c;
  un_pending : _ce_pending c' = _ce_pending c;
  un_grammar : _grammar_pending c' = _grammar_pending c;
  un_failed : _grammar_failed c' = _grammar_failed c
}.
#[export] Instance untouched_refl : Reflexive Untouched.
Proof. by intros c. Qed.
#[export] Instance untouched_trans : Transitive Untouched.
Proof. intros c1 c2 c3 [] []. split; congruence. Qed.

(** The bindings of the requests of one replica go. *)
Lemma unbind_loop l c c' :
  for_each l (λ rid, let! s := get in raise_if (bool_decide (_bound_requests s !! rid = None)) KeyError;;
    modify (λ s : t, set_bound (delete rid (_bound_requests s)) s)) c = (Ok tt, c') →
  Untouched c c' ∧ replicas c' = replicas c ∧
  ∀ x, _bound_requests c' !! x = if decide (x ∈ l) then None else _bound_requests c !! x.
Proof.
  revert c. induction l as [|y l IH]; intros c E; simpl in E; [by injection E as <-|].
  apply bind_ok in E as ([] & c1 & E1 & E). unfold bind at 1, get in E1.
  apply bind_ok in E1 as ([] & c2 & E2 & E1). apply raise_if_ok in E2 as [_ <-]. injection E1 as <-.
  apply IH in E as (HU & Hr & Hb). split; [by destruct HU|]. split; [done|]. intros x. rewrite Hb. simpl.
  destruct (decide (x ∈ l)) as [Hx|Hx]; [by rewrite decide_True by (by right)|].
  destruct (decide (x = y)) as [->|Hne]; [rewrite decide_True by left; apply lookup_delete_eq|].
  rewrite decide_False by (rewrite elem_of_cons; tauto). by rewrite lookup_delete_ne.
Qed.

Lemma clear_one i q L c c' :
  0 ≤ i → replicas c !! Z.to_nat i = Some q → NoDup L → Book [] L c →
  (let! q := replica_at i in
   for_each (tg_reqs q) (λ rid, let! s := get in raise_if (bool_decide (_bound_requests s !! rid = None)) KeyError;;
     modify (λ s : t, set_bound (delete rid (_bound_requests s)) s));;
   on_replica i (set_tg [])) c = (Ok tt, c') →
  Untouched c c' ∧ replicas c' = <[Z.to_nat i := cleared q]> (replicas c) ∧
  ∃ L', L ≡ₚ tg_reqs q ++ L' ∧ Book [] L' c'.
Proof.
  intros Hi Hq Hnd HB E. unfold bind at 1 in E. rewrite (replica_at_run i q c) in E by done.
  apply bind_ok in E as ([] & c1 & E1 & E). apply unbind_loop in E1 as (HU & Hr & Hb).
  destruct (on_replica_run i q (set_tg []) c1 Hi) as [E' _]; [by rewrite Hr|]. rewrite E' in E. injection E as <-.
  rewrite Hr. fold (cleared q). set (c' := TextBatchConstructor.set_replicas _ c1).
  assert (Untouched c c') as HU' by (by destruct HU). split; [done|]. split; [done|].
  exists (all_ids c'). assert (ids c ≡ₚ tg_reqs q ++ ids c') as Hids.
  { unfold ids. simpl. rewrite (un_onloading _ _ HU), app_assoc. f_equiv. by apply concat_own_insert. }
  assert (all_ids c ≡ₚ tg_reqs q ++ all_ids c') as Hall.
  { unfold all_ids. rewrite Hids, <- app_assoc. by rewrite (un_pending _ _ HU'), (un_grammar _ _ HU'), (un_failed _ _ HU'). }
  pose proof (bk_ids _ _ _ HB) as HL. rewrite app_nil_r in HL. split; [by rewrite <- HL|].
  rewrite <- HL, Hall in Hnd. apply NoDup_app in Hnd as (_ & Hdis & Hnd').
  assert (∀ x, x ∈ ids c' → x ∉ tg_reqs q) as Hin.
  { intros x Hx Ht. apply (Hdis x Ht). unfold all_ids. rewrite elem_of_app. by left. }
  assert (length (replicas c') = length (replicas c)) as Hlen by (simpl; apply length_insert).
  split.
  - by rewrite app_nil_r.
  - intros x n Hs. assert (x ∉ tg_reqs q) as Hx by (apply Hin, ids_sits; by eexists).
    destruct (bk_sits _ _ _ HB x n) as (z & Hz & Hh).
    { destruct Hs as [(q1 & Hq1 & Hx1)|(e & He & Hx1 & Hh)].
      - left. simpl in Hq1. apply list_lookup_insert_Some in Hq1 as [(<- & <- & _)|[_ Hq1]]; [|by exists q1].
        exists q. split; [done|]. rewrite own_cleared, elem_of_app. by right.
      - right. exists e. simpl in He. rewrite (un_onloading _ _ HU) in He. split_and!; [done|done|].
        unfold home, len in *. by rewrite Hlen in Hh. }
    exists z. split; [|by unfold home, len in *; rewrite Hlen]. simpl. by rewrite Hb, decide_False.
  - intros x Hx. simpl in Hx. rewrite Hb in Hx. destruct (decide (x ∈ tg_reqs q)) as [|Hn]; [by destruct Hx|].
    pose proof (bk_bound _ _ _ HB x Hx) as Hx'. rewrite app_nil_r in *. rewrite Hids, elem_of_app in Hx'. tauto.
  - unfold n_replicas, len. rewrite Hlen, (un_settings _ _ HU'). exact (bk_replicas _ _ _ HB).
Qed.

Lemma clear_loop n k L c c' :
  length (replicas c) = (k + n)%nat → NoDup L → Book [] L c →
  for_each (zrange (Z.of_nat k) (Z.of_nat (k + n))) (λ i,
    let! q := replica_at i in
    for_each (tg_reqs q) (λ rid, let! s := get in raise_if (bool_decide (_bound_requests s !! rid = None)) KeyError;;
      modify (λ s : t, set_bound (delete rid (_bound_requests s)) s));;
    on_replica i (set_tg [])) c = (Ok tt, c') →
  Untouched c c' ∧ ∃ L', L ≡ₚ concat (map tg_reqs (drop k (replicas c))) ++ L' ∧ Book [] L' c'.
Proof.
  revert k L c. induction n as [|n IH]; intros k L c Hl Hnd HB E.
  - rewrite zrange_empty in E by lia. injection E as <-. split; [done|]. exists L. split; [|done]. by rewrite drop_ge by lia.
  - rewrite zrange_cons in E by lia. simpl in E. apply bind_ok in E as ([] & c1 & E1 & E).
    destruct (lookup_lt_is_Some_2 (replicas c) k) as [q Hq]; [lia|].
    apply (clear_one _ q L) in E1 as (HU & Hr & L1 & HL & HB1); [|lia|by rewrite Nat2Z.id|done|done]. rewrite Nat2Z.id in Hr.
    pose proof Hnd as Hnd1. rewrite HL in Hnd1. apply NoDup_app in Hnd1 as (_ & _ & Hnd1).
    replace (Z.of_nat k + 1) with (Z.of_nat (S k)) in E by lia. replace (k + S n)%nat with (S k + n)%nat in * by lia.
    apply (IH (S k) L1) in E as (HU' & L' & HL' & HB'); [|by rewrite Hr, length_insert|done|done].
    split; [by transitivity c1|]. exists L'. split; [|done]. rewrite HL, HL', Hr.
    rewrite (drop_S (replicas c) q k Hq). simpl. rewrite <- app_assoc, drop_insert_lt by lia. done.
Qed.

Lemma clear_book L c c' :
  NoDup L → Book [] L c → clear_tg_reqs c = (Ok tt, c') →
  Untouched c c' ∧ ∃ L', L ≡ₚ concat (map tg_reqs (replicas c)) ++ L' ∧ Book [] L' c'.
Proof.
  intros Hnd HB E. unfold clear_tg_reqs in E. unfold bind at 1, get in E.
  apply (clear_loop (length (replicas c)) 0 L); [done..|exact E].
Qed.

End Clear.
End ClearFacts.

(** ** The scheduler *)
Module PrefillFacts.
Import ReplicaRequests TextBatchConstructor BatchFacts Conservation ConstructorKeeps SchedulerFacts PrefillScheduler ClearFacts Frame.

Section Facts.
Context {B : Backend} `{KV : !KVCache, P : Pipeline, F : Floats, G : !GrammarBuilder, A : AdapterStore,
  TE : !TransferEngine, X : !Executor, N : NumPy}.
Implicit Types s : PrefillScheduler.t.

Abbreviation keys := OrderedDict.keys.

(** The ids of the prompts that have arrived and are not read yet. *)
Definition prompts (l : list (RequestType_ * string)) : list Z :=
  omap (λ e, match e.1 with Prefill m => Some (pq_id m) | _ => None end) l.
(** The requests whose first token was sent to decode. *)
Definition replied s : list Z :=
  omap (λ e, match e.1 with Response r => Some (pr_id r) | Connected _ => None end) (sent s).

(** The ids of the requests of a prefill node that holds [L] in its constructor. *)
Definition places (L : list Z) s : list Z :=
  prompts (inbox s) ++ keys (_pending_first_token s) ++ keys (active_transfers s) ++ L.

(** The cancellations a node has received, [C]: *)
Definition Cancels (C : Z → Prop) s : Prop :=
  (∀ x, x ∈ outstanding_cancelled_requests s → C x) ∧ ∀ x i, (Cancel x, i) ∈ inbox s → C x.

(** A step moves requests, or replies for them, or drops them for reason [E]. *)
Record Step (E : Z → Prop) L s L' s' : Prop := {
  sp_places : places L' s' ⊆+ places L s;
  sp_gone : ∀ x, x ∈ places L s → x ∈ places L' s' ∨ x ∈ replied s' ∨ E x;
  sp_replied : ∀ x, x ∈ replied s → x ∈ replied s'
}.

Lemma step_none E L s : Step E L s L s.
Proof. split; [done|by left|done]. Qed.
Lemma step_then E L1 s1 L2 s2 L3 s3 : Step E L1 s1 L2 s2 → Step E L2 s2 L3 s3 → Step E L1 s1 L3 s3.
Proof.
  intros [P1 G1 R1] [P2 G2 R2]. split; [by transitivity (places L2 s2)| |auto].
  intros x Hx. destruct (G1 x Hx) as [Hx'|[Hx'|Hx']]; auto.
Qed.

(** Requests change places. *)
Lemma step_moved E L s L' s' :
  places L' s' ≡ₚ places L s → (∀ x, x ∈ replied s → x ∈ replied s') → Step E L s L' s'.
Proof. intros HP HR. split; [by rewrite HP| |done]. intros x Hx. left. by rewrite HP. Qed.

(** Requests [gone] leave. *)
Lemma step_left (E : Z → Prop) gone L s L' s' :
  places L s ≡ₚ gone ++ places L' s' → (∀ x, x ∈ gone → x ∈ replied s' ∨ E x) →
  (∀ x, x ∈ replied s → x ∈ replied s') → Step E L s L' s'.
Proof.
  intros HP Hg HR. split; [rewrite HP; by apply submseteq_inserts_l| |done].
  intros x. rewrite HP, elem_of_app. intros [Hx|Hx]; [right; by apply Hg|by left].
Qed.

(** *** Objects and claims *)
Definition Kept (D : Z → Prop) s : Prop :=
  (∀ rid r, TextBatchConstructor.requests (batch_constructor s) !! rid = Some r → Batch.request_id r = rid) ∧
  ∀ x, D x → kv_contains x (kv s) = true.

Lemma kept_weaken (D D' : Z → Prop) s : (∀ x, D' x → D x) → Kept D s → Kept D' s.
Proof. intros HD [Hi Hc]. split; [done|]. intros x Hx. by apply Hc, HD. Qed.
Lemma kept_same D s s' : batch_constructor s' = batch_constructor s → Kept D s → Kept D s'.
Proof. intros Hb. unfold Kept, kv. by rewrite Hb. Qed.
Lemma kept_framed D s : Framed D (batch_constructor s) → Kept D s.
Proof. by intros []. Qed.

Lemma constructor_call {Y} (f : M TextBatchConstructor.t Y) s y s' :
  on_constructor f s = (Ok y, s') →
  ∃ c, f (with_inflight (_inflight_kv_transfer_count s) (batch_constructor s)) = (Ok y, c) ∧ s' = set_constructor c s.
Proof. unfold on_constructor. destruct (f _) as [o c]. intros [= -> <-]. eauto. Qed.

Lemma inflight_book g out L c : Book out L c → Book out L (with_inflight g c).
Proof. intros []. by split. Qed.

(** *** Calls that move nothing *)
Record Calm s s' : Prop := {
  ca_active : active_transfers s' = active_transfers s;
  ca_parked : _pending_first_token s' = _pending_first_token s;
  ca_inbox : inbox s' = inbox s;
  ca_cancelled : outstanding_cancelled_requests s' = outstanding_cancelled_requests s;
  ca_sent : sent s' = sent s;
  ca_replicas : replicas (batch_constructor s') = replicas (batch_constructor s);
  ca_config : config s' = config s;
  ca_held out L : Book out L (batch_constructor s) → Book out L (batch_constructor s')
}.
#[export] Instance calm_refl : Reflexive Calm.
Proof. by intros s. Qed.
#[export] Instance calm_trans : Transitive Calm.
Proof. intros s1 s2 s3 [] []. split; try congruence. auto. Qed.

Definition calm {Y} (f : M PrefillScheduler.t Y) : Prop := ∀ s, Calm s (f s).2.
Lemma calm_run {Y} (f : M PrefillScheduler.t Y) s y s' : calm f → f s = (Ok y, s') → Calm s s'.
Proof. intros Hf E. specialize (Hf s). by rewrite E in Hf. Qed.
Lemma calm_ret {Y} (y : Y) : calm (ret y).
Proof. by intros s. Qed.
Lemma calm_bind {Y Z'} (f : M PrefillScheduler.t Y) (g : Y → M PrefillScheduler.t Z') :
  calm f → (∀ y, calm (g y)) → calm (bind f g).
Proof.
  intros Hf Hg s. unfold bind. specialize (Hf s). destruct (f s) as [[y|e] s1]; [|done]. simpl in Hf.
  transitivity s1; [done|apply Hg].
Qed.
Lemma calm_constructor {Y} (f : M TextBatchConstructor.t Y) : quiet f → calm (on_constructor f).
Proof.
  intros Hf s. unfold on_constructor. set (c0 := with_inflight _ _). specialize (Hf c0). destruct (f c0) as [o c]. simpl in *.
  split; try done; simpl.
  - by rewrite (same_replicas _ _ Hf).
  - unfold config, TextBatchConstructor.config. simpl. by rewrite (same_settings _ _ Hf).
  - intros out L HB. eapply book_same; [exact Hf|]. by apply inflight_book.
Qed.
Lemma calm_kv {Y} (f : M cache Y) : calm (on_kv f).
Proof. apply calm_constructor, quiet_on_kv. Qed.
Lemma calm_engine {Y} (f : M engine Y) : calm (on_engine f).
Proof. intros s. unfold on_engine, zoom. by destruct (f _). Qed.
Lemma calm_pipeline rid : calm (release_pipeline rid).
Proof. apply calm_constructor, quiet_release_pipeline. Qed.
Lemma calm_for_each {Y} (l : list Y) f : (∀ y, calm (f y)) → calm (for_each l f).
Proof. intros Hf. induction l as [|y l IH]; [apply calm_ret|]. apply calm_bind; [apply Hf|by intros _]. Qed.

(** *** Calls that keep claims *)
Context `{FR : !KVFrame, EF : !ExecutorFrame}.

Section Claims.
Context (D : Z → Prop).
Abbreviation kept f := (preserves (Kept D) f).

Lemma kept_kv {Y} (f : M cache Y) : (∀ k x, D x → kv_contains x (f k).2 = kv_contains x k) → kept (on_kv f).
Proof.
  intros Hf s [Hi Hc]. unfold on_kv, on_constructor, TextBatchConstructor.on_kv, zoom. simpl.
  pose proof (λ x Hx, Hf (kv s) x Hx) as HC. unfold kv in HC. destruct (f _) as [o k]. simpl in HC.
  split; [exact Hi|]. intros x Hx. unfold kv. simpl. rewrite HC by done. by apply Hc.
Qed.
Lemma kept_release rid : ¬ D rid → kept (on_kv (kv_release rid)).
Proof. intros Hr. apply kept_kv. intros k x Hx. apply release_frame. by intros ->. Qed.
Lemma kept_blocks rid : kept (on_kv (kv_get_req_blocks rid)).
Proof. apply kept_kv. intros. apply blocks_frame. Qed.
Lemma kept_count i : kept (on_kv (kv_block_count i)).
Proof. apply kept_kv. intros. apply count_frame. Qed.
Lemma kept_engine {Y} (f : M engine Y) : kept (on_engine f).
Proof. intros s Hs. unfold on_engine, zoom. by destruct (f _). Qed.
Lemma kept_pipeline rid : kept (release_pipeline rid).
Proof.
  intros s Hs. unfold release_pipeline, on_constructor, TextBatchConstructor.release_pipeline, on_pipeline, zoom.
  by destruct (pipeline_release _ _).
Qed.
Lemma kept_modify f : (∀ s, batch_constructor (f s) = batch_constructor s) → kept (modify f).
Proof. intros Hf s Hs. apply (kept_same D s); [apply Hf|done]. Qed.
Lemma kept_context_of rid : kept (context_of rid).
Proof. intros s Hs. unfold context_of, on_constructor, TextBatchConstructor.request, bind, get. by destruct (_ !! rid). Qed.
Lemma kept_context {Y} rid (f : M (Ctx.t B) Y) :
  (∀ x, TextContext.request_id (Ctx.base (f x).2) = TextContext.request_id (Ctx.base x)) → kept (on_context rid f).
Proof.
  intros Hf s [Hi Hc]. unfold on_context, on_constructor, TextBatchConstructor.on_request. simpl.
  destruct (TextBatchConstructor.requests (batch_constructor s) !! rid) as [r|] eqn:Er; [|done].
  specialize (Hf (ctx r)). destruct (f (ctx r)) as [o x]. simpl in *. split; [|done]. simpl.
  intros y r' [[<- <-]|[Hne Hy]]%lookup_insert_Some; [|by apply Hi]. unfold Batch.request_id. simpl. rewrite Hf. by apply Hi.
Qed.

Ltac keep :=
  repeat first
    [ walk_step
    | apply kept_blocks | apply kept_count | apply kept_engine | apply kept_pipeline | apply kept_context_of
    | (apply kept_modify; intros; done) ].

Lemma kept_start rid i dest : kept (start_transfer rid i dest).
Proof. unfold start_transfer. keep. Qed.

Lemma kept_drop rid : ¬ D rid → kept (drop_cancelled rid).
Proof.
  intros Hr. unfold drop_cancelled. apply preserves_bind; [keep|intros _]. apply preserves_bind; [keep|intros l].
  apply preserves_bind; [by apply kept_release|intros _]. keep.
Qed.

Lemma kept_reply rid identity data : kept (send_reply rid identity data).
Proof.
  unfold send_reply, send_reply_nowait. apply preserves_bind; [keep|intros r]. apply preserves_bind; [keep|intros _].
  apply preserves_bind; [keep|intros _]. apply preserves_bind_get. intros s _.
  apply preserves_bind; [destruct (_ && _); [|keep]|intros drafts].
  - apply preserves_bind; [|keep]. apply kept_context. intros x. unfold draft_tokens. apply DecodeFacts.is_base. intros z.
    apply preserves_bind; [apply DecodeFacts.is_spec|intros; apply preserves_ret].
  - apply preserves_bind; [|keep]. apply kept_context. intros x. apply DecodeFacts.is_base. intros z.
    unfold TextContext.last_realized_token, TextContext.on_tokens. apply preserves_bind_get. intros c _. by apply DecodeFacts.is_zoom.
Qed.

Lemma kept_log (l : list Z) : kept (for_each l (λ rid, let! _ := on_kv (kv_get_req_blocks rid) in ret tt)).
Proof. keep. Qed.

End Claims.

(** *** A transfer starts *)

Lemma kept_ok {Y} D (f : M PrefillScheduler.t Y) s y s' : preserves (Kept D) f → Kept D s → f s = (Ok y, s') → Kept D s'.
Proof. intros Hf Hs E. specialize (Hf s Hs). by rewrite E in Hf. Qed.

Lemma start_run rid i dest s data s' :
  start_transfer rid i dest s = (Ok data, s') →
  ∃ s1, Calm s s1 ∧ s' = set_active (OrderedDict.set rid (active_transfer _ _ _ i data) (active_transfers s1)) s1 ∧
    ∀ D, Kept D s → Kept (λ x, D x ∨ x = rid) s'.
Proof.
  intros E. unfold start_transfer in E. unfold bind at 1, get in E.
  apply bind_ok in E as (remote & s1 & E1 & E). destruct (_ !! engine_name dest) as [rm|]; [|done]. injection E1 as -> <-.
  apply bind_ok in E as (src & s2 & E2 & E). pose proof (calm_run _ _ _ _ (calm_kv _) E2) as C2.
  apply bind_ok in E as ([] & s3 & E3 & E). apply py_assert_ok in E3 as [_ <-].
  apply bind_ok in E as ([] & s3 & E3 & E). apply py_assert_ok in E3 as [_ <-].
  apply bind_ok in E as (d & s3 & E3 & E). pose proof (calm_run _ _ _ _ (calm_engine _) E3) as C3.
  unfold bind, modify, ret in E. injection E as -> <-. exists s3. split; [by transitivity s2|]. split; [done|].
  intros D HK. assert (Kept (λ x, D x ∨ x = rid) s) as HK'.
  { destruct HK as [Hi Hc]. split; [done|]. intros x [Hx| ->]; [by apply Hc|].
    apply constructor_call in E2 as (c & E2 & _). unfold TextBatchConstructor.on_kv, zoom in E2.
    destruct (kv_get_req_blocks rid _) as [o k] eqn:Ek. injection E2 as -> _. by apply blocks_contains in Ek. }
  pose proof (kept_blocks (λ x, D x ∨ x = rid) rid s HK') as H2. rewrite E2 in H2.
  pose proof (kept_engine _ (te_initiate_send_transfer remote (slice_from src (count_cached (dst_block_ids dest)))
    (slice_from (dst_block_ids dest) (count_cached (dst_block_ids dest))) i (dst_replica_idx dest)) s2 H2) as H3.
  rewrite E3 in H3. exact H3.
Qed.

Lemma reply_run rid identity data s s' :
  send_reply rid identity data s = (Ok tt, s') →
  ∃ s1 token drafts, Calm s s1 ∧ s' = set_sent (sent s1 ++ [(Response (prefill_response _ _ _ rid token data drafts), identity)]) s1.
Proof.
  intros E. unfold send_reply in E.
  apply bind_ok in E as (r & s1 & E1 & E). apply calm_run in E1; [|apply calm_constructor, quiet_request].
  apply bind_ok in E as ([] & s2 & E2 & E). apply py_assert_ok in E2 as [_ <-].
  apply bind_ok in E as ([] & s2 & E2 & E). apply py_assert_ok in E2 as [_ <-]. unfold bind at 1, get in E.
  apply bind_ok in E as (drafts & s2 & E2 & E). apply calm_run in E2.
  2: { destruct (_ && _); [|apply calm_ret]. apply calm_bind; [apply calm_constructor, quiet_on_request|intros l].
       apply calm_bind; [by destruct (bool_decide _); intros s3|intros _; apply calm_ret]. }
  apply bind_ok in E as (token & s3 & E3 & E). apply calm_run in E3; [|apply calm_constructor, quiet_on_request].
  unfold send_reply_nowait, modify in E. injection E as <-. exists s3, token, drafts. split; [|done].
  transitivity s1; [done|]. by transitivity s2.
Qed.

(** What [initiate_transfer_and_send_reply] leaves: a running transfer and a reply, or
    nothing if the request was cancelled. *)
Record Started (rid : Z) s s' : Prop := {
  sa_parked : _pending_first_token s' = _pending_first_token s;
  sa_inbox : inbox s' = inbox s;
  sa_cancelled : ∀ x, x ∈ outstanding_cancelled_requests s' → x ∈ outstanding_cancelled_requests s;
  sa_replied : ∀ x, x ∈ replied s → x ∈ replied s';
  sa_replicas : replicas (batch_constructor s') = replicas (batch_constructor s);
  sa_config : config s' = config s;
  sa_held out L : Book out L (batch_constructor s) → Book out L (batch_constructor s');
  sa_outcome :
    (∃ a, active_transfers s' = OrderedDict.set rid a (active_transfers s) ∧ rid ∈ replied s' ∧
       ∀ D, Kept D s → Kept (λ x, D x ∨ x = rid) s') ∨
    (active_transfers s' = active_transfers s ∧ rid ∈ outstanding_cancelled_requests s ∧
       ∀ D, ¬ D rid → Kept D s → Kept D s')
}.

Lemma initiate_run rid i s s' : initiate_transfer_and_send_reply rid i s = (Ok tt, s') → Started rid s s'.
Proof.
  intros E. unfold initiate_transfer_and_send_reply in E. unfold bind at 1, get in E.
  apply bind_ok in E as ([identity dest] & s1 & E1 & E). destruct (_ !! rid) as [e|]; [|done]. injection E1 as -> <-.
  unfold bind at 1, modify in E. set (s1 := set_reply_context _ s) in E.
  destruct (bool_decide (rid ∈ outstanding_cancelled_requests s)) eqn:Ec.
  - apply bool_decide_eq_true in Ec. pose proof E as Ek. unfold drop_cancelled in E. unfold bind at 1, modify in E.
    match type of E with _ ?y = _ => assert (Calm y s') as HC end.
    { eapply (calm_run _ _ _ _ _ E). Unshelve. apply calm_bind; [apply calm_kv|intros l].
      apply calm_bind; [apply calm_kv|intros _]. apply calm_pipeline. }
    destruct HC as [Ca Cp Ci Cc Cs Cr Cf Ch]. unfold s1 in *. simpl in *. split; try done.
    + rewrite Cc. intros x. set_solver.
    + unfold replied. by rewrite Cs.
    + right. split_and!; [done|done|]. intros D Hr HK.
      eapply (kept_ok D _ _ _ _ (kept_drop D rid Hr)); [|exact Ek]. exact HK.
  - apply bind_ok in E as (data & s2 & E2 & E). apply start_run in E2 as (s3 & C3 & -> & HK3).
    unfold bind at 1, get in E. apply bind_ok in E as ([] & s4 & E4 & E).
    match type of E4 with _ ?y = _ => assert (∀ D, Kept D y → Kept D s4) as HK4 by (intros D HD; exact (kept_ok D _ _ _ _ (kept_log D _) HD E4)) end.
    apply calm_run in E4; [|apply calm_for_each; intros y; apply calm_bind; [apply calm_kv|intros _; apply calm_ret]].
    apply bind_ok in E as (n & s5 & E5 & E).
    assert (∀ D, Kept D s4 → Kept D s5) as HK5 by (intros D HD; exact (kept_ok D _ _ _ _ (kept_count D i) HD E5)).
    apply calm_run in E5; [|apply calm_kv]. 
    assert (∀ D, Kept D s5 → Kept D s') as HK6 by (intros D HD; exact (kept_ok D _ _ _ _ (kept_reply D rid identity data) HD E)).
    apply reply_run in E as (s6 & token & drafts & C6 & ->).
    assert (Calm (set_active (OrderedDict.set rid (active_transfer _ _ _ i data) (active_transfers s3)) s3) s6) as C.
    { transitivity s4; [done|]. by transitivity s5. }
    destruct C3 as [Ca Cp Ci Cc Cs Cr Cf Ch], C as [Da Dp Di Dc Ds Dr Df Dh]. unfold s1 in *. simpl in *. split; simpl; [congruence|congruence| | |congruence|exact (eq_trans Df Cf)| |].
    + rewrite Dc, Cc. done.
    + unfold replied. simpl. rewrite Ds, Cs, omap_app. intros x Hx. rewrite elem_of_app. by left.
    + intros out L HB. by apply Dh, Ch.
    + left. exists (active_transfer _ _ _ i data). split; [by rewrite Da, Ca|]. split.
      * unfold replied. simpl. rewrite omap_app, elem_of_app. right. simpl. by left.
      * intros D HD. apply HK6, HK5, HK4, HK3. done.
Qed.

(** *** The state of a node in use *)
Record Sound (C : Z → Prop) L s : Prop := {
  rd_nodup : NoDup (places L s);
  rd_named : ∀ m i, (Prefill m, i) ∈ inbox s → Batch.request_id (pq_context m) = pq_id m;
  rd_kept : Kept (λ x, x ∈ keys (active_transfers s)) s;
  rd_replied : ∀ x, x ∈ keys (active_transfers s) → x ∈ replied s;
  rd_cancels : Cancels C s;
  rd_size : 0 ≤ max_batch_size (config s)
}.
Definition Ready (C : Z → Prop) L s : Prop := Book [] L (batch_constructor s) ∧ Sound C L s.

Lemma places_parts C L s :
  Sound C L s → NoDup (prompts (inbox s)) ∧ NoDup (keys (_pending_first_token s)) ∧ NoDup (keys (active_transfers s)) ∧ NoDup L ∧
  (∀ x, x ∈ keys (_pending_first_token s) → x ∉ keys (active_transfers s)) ∧ (∀ x, x ∈ keys (_pending_first_token s) → x ∉ L) ∧
  ∀ x, x ∈ keys (active_transfers s) → x ∉ L.
Proof.
  intros [Hnd _ _ _ _ _]. unfold places in Hnd. apply NoDup_app in Hnd as (H1 & _ & Hnd).
  apply NoDup_app in Hnd as (H2 & H5 & Hnd). apply NoDup_app in Hnd as (H3 & H6 & H4).
  split_and!; try done; intros x Hx; specialize (H5 x Hx); rewrite elem_of_app in H5; tauto.
Qed.

Lemma ready_framed C L s : Ready C L s → Framed (λ x, x ∈ keys (active_transfers s)) (batch_constructor s).
Proof.
  intros [HB HR]. destruct (places_parts C L s HR) as (_ & _ & _ & _ & _ & _ & Hd). destruct HR as [_ _ [Hi Hc] _ _ _].
  by eapply framed_of_books.
Qed.

Lemma framed_ok {Y} D (f : M TextBatchConstructor.t Y) s y s' :
  preserves (Framed D) f → Framed D (batch_constructor s) → on_constructor f s = (Ok y, s') → Framed D (batch_constructor s').
Proof.
  intros Hf Hs E. apply constructor_call in E as (c & E & ->). set (c0 := with_inflight _ _) in E.
  assert (Framed D c0) as H0 by (by apply framed_settings). specialize (Hf c0 H0). by rewrite E in Hf.
Qed.

(** *** Requests arrive *)

Lemma prefill_request_run now m identity L C s s' :
  Ready C L s → Batch.request_id (pq_context m) = pq_id m → pq_id m ∉ L → pq_id m ∉ keys (active_transfers s) →
  handle_prefill_request now m identity s = (Ok tt, s') →
  Book [] (pq_id m :: L) (batch_constructor s') ∧ Kept (λ x, x ∈ keys (active_transfers s)) s' ∧
  config s' = config s ∧ ∃ c r, s' = set_reply_context r (set_constructor c s).
Proof.
  intros HR Hid HL Ha E. unfold handle_prefill_request in E.
  apply bind_ok in E as ([] & s1 & E1 & E). apply py_assert_ok in E1 as [_ <-].
  pose proof (reset_same_request (ctx (pq_context m))) as Hx. destruct (Ctx.on_base TextContext.reset _) as [o x]. simpl in Hx.
  apply bind_ok in E as ([] & s1 & E1 & E). destruct o as [[]|e]; [|done]. injection E1 as <-.
  apply bind_ok in E as ([] & s1 & E1 & E). unfold modify in E. injection E as <-.
  assert (Batch.request_id (set_ctx x (pq_context m)) = pq_id m) as Hr by (rewrite <- Hid; exact Hx).
  assert (Framed (λ x, x ∈ keys (active_transfers s)) (batch_constructor s1)) as HF'.
  { eapply framed_ok; [|by eapply ready_framed|exact E1]. apply framed_enqueue. by rewrite Hr. }
  apply constructor_call in E1 as (c & E1 & ->). simpl in HF'.
  pose proof (keeps_run _ _ _ _ (enqueue_keeps_settings now _ _) E1) as Hst.
  apply enqueue_book with (L := L) in E1; [|apply (inflight_book (_inflight_kv_transfer_count s)), HR|by rewrite Hr].
  rewrite Hr in E1. split; [exact E1|]. split; [by apply kept_framed|]. split.
  - unfold config, TextBatchConstructor.config. simpl. by rewrite Hst.
  - by exists c, (<[pq_id m := (identity, transfer_dest (pq_transfer_engine_name m) (pq_dst_block_ids m) (pq_dst_replica_idx m))]>
      (request_id_to_reply_context s)).
Qed.

Lemma receive_one now m identity rest C L s s' :
  Ready C L s → inbox s = (m, identity) :: rest → handle_request now (m, identity) (set_inbox rest s) = (Ok tt, s') →
  ∃ L', Ready C L' s' ∧ inbox s' = rest ∧ Step C L s L' s'.
Proof.
  intros HR Ei E. pose proof HR as [HB [Hnd Hn HK Hrep [Hc Hci] Hz]].
  assert (∀ y i, (y, i) ∈ rest → (y, i) ∈ inbox s) as Hin by (intros; rewrite Ei; by right).
  destruct m as [m|e|rid]; simpl in E.
  - assert (Batch.request_id (pq_context m) = pq_id m) as Hid by (eapply Hn; rewrite Ei; by left).
    assert (places L s = pq_id m :: places L (set_inbox rest s)) as HP by (unfold places; rewrite Ei; done).
    assert (Ready C L (set_inbox rest s)) as HR1.
    { split; [done|]. split; simpl; try done; [|by intros y i Hy; eapply Hn, Hin|split; [done|by intros y i Hy; eapply Hci, Hin]].
      rewrite HP in Hnd. by apply NoDup_cons in Hnd as [_ ?]. }
    rewrite HP in Hnd. apply NoDup_cons in Hnd as [Hnew Hnd]. unfold places in Hnew. simpl in Hnew. rewrite !elem_of_app in Hnew.
    apply (prefill_request_run now m identity L C) in E as (HB' & HK' & Hf & c & r & ->); [|done|done|tauto|simpl; tauto].
    exists (pq_id m :: L). split; [|split; [done|]].
    + split; [exact HB'|]. split; try exact HK'; try (rewrite Hf; exact Hz); try done; simpl; [| |].
      * assert (places (pq_id m :: L) (set_reply_context r (set_constructor c (set_inbox rest s))) ≡ₚ
          pq_id m :: places L (set_inbox rest s)) as -> by (unfold places; simpl; by rewrite <- !Permutation_middle).
        constructor; [|done]. unfold places. simpl. rewrite !elem_of_app. tauto.
      * intros y j Hy. by eapply Hn, Hin.
      * split; [done|]. intros y j Hy. by eapply Hci, Hin.
    + apply step_moved; [|done]. rewrite HP. unfold places. simpl. by rewrite <- !Permutation_middle.
  - exists L. assert (∃ l x, s' = set_sent (sent s ++ l) (set_engine x (set_inbox rest s)) ∧ omap (λ e : ReplyType * string,
        match e.1 with Response r => Some (pr_id r) | Connected _ => None end) l = []) as (l & x & -> & Hl).
    { unfold handle_transfer_engine_request in E. unfold bind at 1, get in E. destruct (bool_decide _).
      - injection E as <-. exists [], (transfer_engine s). rewrite app_nil_r. by destruct s.
      - apply bind_ok in E as ([] & s1 & E1 & E). unfold on_engine, zoom in E1. destruct (te_connect e _) as [o x].
        injection E1 as -> <-. unfold bind, get, send_reply_nowait, modify in E. injection E as <-. eexists [_], x. by split. }
    assert (replied (set_sent (sent s ++ l) (set_engine x (set_inbox rest s))) = replied s) as Hr.
    { unfold replied. simpl. by rewrite omap_app, Hl, app_nil_r. }
    assert (places L (set_sent (sent s ++ l) (set_engine x (set_inbox rest s))) = places L s) as HP by (unfold places; by rewrite Ei).
    split; [|split; [done|]].
    + split; [done|]. split; simpl; rewrite ?Hr, ?HP; try done; [by intros y i Hy; eapply Hn, Hin|split; [done|by intros y i Hy; eapply Hci, Hin]].
    + apply step_moved; [by rewrite HP|by rewrite Hr].
  - unfold handle_cancel_request, modify in E. injection E as <-. exists L.
    match goal with |- Ready _ _ ?y ∧ _ => assert (places L y = places L s) as HP by (unfold places; by rewrite Ei) end.
    split; [|split; [done|apply step_moved; [by rewrite HP|done]]].
    split; [done|]. split; simpl; rewrite ?HP; try done; [by intros y i Hy; eapply Hn, Hin|split; [|by intros y i Hy; eapply Hci, Hin]].
    intros y. simpl. rewrite elem_of_union, elem_of_singleton. intros [->|Hy]; [|by apply Hc]. eapply Hci. rewrite Ei. by left.
Qed.

Lemma receive_all now C L s s' :
  Ready C L s → receive_requests now s = (Ok tt, s') → ∃ L', Ready C L' s' ∧ Step C L s L' s'.
Proof.
  intros HR E. unfold receive_requests in E. unfold bind at 1, get in E.
  assert (∀ l L s, inbox s = l → Ready C L s →
    for_each l (λ m, modify (λ s, set_inbox (tail (inbox s)) s);; handle_request now m) s = (Ok tt, s') →
    ∃ L', Ready C L' s' ∧ Step C L s L' s') as Hall; [|by eapply Hall].
  clear HR E L s. induction l as [|[m identity] l IH]; intros L s Ei HR E; simpl in E; [injection E as <-; exists L; split; [done|apply step_none]|].
  apply bind_ok in E as ([] & s1 & E1 & E). unfold bind at 1, modify in E1. rewrite Ei in E1. simpl in E1.
  destruct (receive_one now m identity l C L s s1 HR Ei E1) as (L1 & HR1 & Ei1 & S1).
  destruct (IH L1 s1 Ei1 HR1 E) as (L' & HR' & S'). exists L'. split; [done|by eapply step_then].
Qed.

Lemma nodup_sub {Y} (l l' : list Y) : l ⊆+ l' → NoDup l' → NoDup l.
Proof. intros [k ->]%submseteq_Permutation Hnd. by apply NoDup_app in Hnd as [? _]. Qed.

(** *** Transfers that have landed *)

Lemma cleanup_one rid a s b s' :
  cleanup_transfer (rid, a) s = (Ok b, s') → Calm s s' ∧ ∀ D : Z → Prop, (b = true → ¬ D rid) → Kept D s → Kept D s'.
Proof.
  intros E. unfold cleanup_transfer in E. apply bind_ok in E as (c & s1 & E1 & E).
  pose proof (calm_run _ _ _ _ (calm_engine _) E1) as C1.
  assert (∀ D, Kept D s → Kept D s1) as K1 by (intros D HD; exact (kept_ok D _ _ _ _ (kept_engine D _) HD E1)).
  destruct c; [|injection E as <- <-; split; [done|by intros D _ HD; apply K1]].
  apply bind_ok in E as ([] & s2 & E2 & E). pose proof (calm_run _ _ _ _ (calm_engine _) E2) as C2.
  apply bind_ok in E as (l & s3 & E3 & E). pose proof (calm_run _ _ _ _ (calm_kv _) E3) as C3.
  apply bind_ok in E as ([] & s4 & E4 & E). pose proof (calm_run _ _ _ _ (calm_kv _) E4) as C4.
  apply bind_ok in E as ([] & s5 & E5 & E). pose proof (calm_run _ _ _ _ (calm_pipeline rid) E5) as C5. injection E as <- <-.
  split; [do 4 (etransitivity; [eassumption|]); done|]. intros D Hr HD.
  apply (kept_ok D _ _ _ _ (kept_pipeline D rid)) in E5; [done|]. apply (kept_ok D _ _ _ _ (kept_release D rid (Hr eq_refl))) in E4; [done|].
  apply (kept_ok D _ _ _ _ (kept_blocks D rid)) in E3; [done|]. apply (kept_ok D _ _ _ _ (kept_engine D _)) in E2; [done|]. by apply K1.
Qed.

Lemma cleanup_fold (D : Z → Prop) l acc s acc' s' :
  for_fold l acc (λ acc e, let! done := cleanup_transfer e in ret (if done : bool then acc ++ [e.1] else acc)) s = (Ok acc', s') →
  Kept (λ x, D x ∧ x ∉ acc) s → Calm s s' ∧ Kept (λ x, D x ∧ x ∉ acc') s'.
Proof.
  revert acc s. induction l as [|[rid a] l IH]; intros acc s E HK; simpl in E; [by injection E as <- <-|].
  apply bind_ok in E as (acc1 & s1 & E1 & E). apply bind_ok in E1 as (b & s2 & E2 & E1). injection E1 as <- <-.
  apply cleanup_one in E2 as [C1 K1].
  destruct (IH _ _ E) as [C2 K2]; [|split; [by transitivity s2|done]]. apply K1.
  - intros ->. rewrite elem_of_app, list_elem_of_singleton. tauto.
  - eapply kept_weaken; [|exact HK]. intros x [Hx Hn]. split; [done|]. destruct b; [|done]. rewrite elem_of_app in Hn. tauto.
Qed.

Lemma keys_delete {V} (d : list (Z * V)) k x : NoDup (keys d) → x ∈ keys (OrderedDict.delete k d) → x ≠ k ∧ x ∈ keys d.
Proof.
  intros Hnd Hx. split; [|by eapply keys_delete_in]. intros ->. revert Hnd Hx. induction d as [|[k' v] d IH]; simpl.
  - by intros _ ?%elem_of_nil.
  - intros [Hk Hnd]%NoDup_cons. destruct (decide (k' = k)) as [->|Hne]; [done|]. simpl.
    intros [->|Hx]%elem_of_cons; [done|by apply IH].
Qed.

Lemma keys_deletes {V} l (d : list (Z * V)) :
  NoDup (keys d) →
  keys (foldl (λ d k, OrderedDict.delete k d) d l) `sublist_of` keys d ∧
  ∀ x, x ∈ keys (foldl (λ d k, OrderedDict.delete k d) d l) → x ∉ l.
Proof.
  revert d. induction l as [|k l IH]; intros d Hnd; simpl; [split; [done|by intros x _ ?%elem_of_nil]|].
  assert (keys (OrderedDict.delete k d) `sublist_of` keys d) as Hs.
  { unfold OrderedDict.keys. apply fmap_sublist, OrderedDict.delete_sublist. }
  destruct (IH (OrderedDict.delete k d)) as [Hs' Hx']; [by eapply sublist_NoDup|].
  split; [by etransitivity|]. intros x Hx [->|Hl]%elem_of_cons; [|by eapply Hx'].
  assert (k ∈ keys (OrderedDict.delete k d)) as Hk by (eapply elem_of_submseteq; [exact Hx|by apply sublist_submseteq]).
  by apply keys_delete in Hk as [? _].
Qed.

Lemma delete_loop l s s' :
  for_each l (λ rid, modify (λ s, set_active (OrderedDict.delete rid (active_transfers s)) s)) s = (Ok tt, s') →
  s' = set_active (foldl (λ d k, OrderedDict.delete k d) (active_transfers s) l) s.
Proof.
  revert s. induction l as [|k l IH]; intros s E; simpl in E; [injection E as <-; by destruct s|].
  unfold bind at 1, modify in E. apply IH in E. by rewrite E.
Qed.

Lemma cleanup_all C L s s' :
  Ready C L s → cleanup_active_transfers s = (Ok tt, s') → Ready C L s' ∧ Step C L s L s'.
Proof.
  intros [HB HS] E. destruct (places_parts C L s HS) as (_ & _ & Hnda & _). destruct HS as [Hnd Hn HK Hrep Hc Hz].
  unfold cleanup_active_transfers in E. unfold bind at 1, get in E. apply bind_ok in E as (acc & s1 & E1 & E).
  apply (cleanup_fold (λ x, x ∈ keys (active_transfers s))) in E1 as [[Ca Cp Ci Cc Cs Cr Cf Ch] HK1].
  2: { eapply kept_weaken; [|exact HK]. by intros x [? _]. }
  apply delete_loop in E. rewrite Ca in E. subst s'. destruct (keys_deletes acc (active_transfers s) Hnda) as [Hs Hx].
  set (d := foldl _ _ _) in *. clearbody d.
  assert (places L (set_active d s1) ⊆+ places L s) as HP.
  { unfold places. simpl. rewrite Ci, Cp. apply submseteq_app; [done|]. apply submseteq_app; [done|].
    apply submseteq_app; [by apply sublist_submseteq|done]. }
  assert (replied (set_active d s1) = replied s) as Hr by (unfold replied; simpl; by rewrite Cs).
  assert (∀ x, x ∈ keys d → x ∈ keys (active_transfers s)) as Hin.
  { intros x Hd. by eapply elem_of_submseteq; [|apply sublist_submseteq]. }
  split; [split; [by apply Ch|split]|split]; simpl; rewrite ?Hr.
  - by eapply nodup_sub.
  - by rewrite Ci.
  - eapply kept_weaken; [|exact HK1]. intros x Hd. split; [by apply Hin|by apply Hx].
  - intros x Hd. by apply Hrep, Hin.
  - destruct Hc as [H1 H2]. split; simpl; rewrite ?Cc, ?Ci; done.
  - change (0 ≤ max_batch_size (config s1)). by rewrite Cf.
  - done.
  - intros x Hp. destruct (decide (x ∈ keys (active_transfers s))) as [Ha|Ha]; [right; left; by apply Hrep|].
    left. unfold places in *. simpl. rewrite Ci, Cp. rewrite !elem_of_app in *. tauto.
  - done.
Qed.

(** *** First tokens *)

(** What the transfers leave alone in the constructor. *)
Record Stays s s' : Prop := {
  sy_replicas : replicas (batch_constructor s') = replicas (batch_constructor s);
  sy_held out L : Book out L (batch_constructor s) → Book out L (batch_constructor s')
}.
Lemma stays_then s1 s2 s3 : Stays s1 s2 → Stays s2 s3 → Stays s1 s3.
Proof. intros [R1 H1] [R2 H2]. split; [congruence|auto]. Qed.
Lemma started_stays rid s s' : Started rid s s' → Stays s s'.
Proof. intros []. by split. Qed.

Lemma keys_set_new {V} (rid : Z) (a : V) d : rid ∉ keys d → keys (OrderedDict.set rid a d) = keys d ++ [rid].
Proof. intros Hr. rewrite OrderedDict.set_new by done. unfold OrderedDict.keys. by rewrite map_app. Qed.

Lemma started_sound (C : Z → Prop) rid M s s' :
  Sound C (rid :: M) s → Started rid s s' → Sound C M s' ∧ Step C (rid :: M) s M s'.
Proof.
  intros HS [Sp Si Sc Sr _ Sf _ Ho]. destruct (places_parts _ _ _ HS) as (_ & _ & _ & _ & _ & _ & Hd).
  destruct HS as [Hnd Hn HK Hrep [Hc1 Hc2] Hz].
  assert (rid ∉ keys (active_transfers s)) as Ha by (intros Ha; apply (Hd rid Ha); by left).
  assert (Cancels C s') as HC by (split; [auto|by rewrite Si]).
  destruct Ho as [(a & Ea & Hr & HK')|(Ea & Hc & HK')].
  - assert (keys (active_transfers s') = keys (active_transfers s) ++ [rid]) as Ek by (rewrite Ea; by apply keys_set_new).
    assert (places M s' ≡ₚ places (rid :: M) s) as HP.
    { unfold places. rewrite Si, Sp, Ek, <- app_assoc. done. }
    split; [split|by apply step_moved]; rewrite ?HP, ?Si, ?Sf; try done.
    + eapply kept_weaken; [|by apply HK']. intros x. rewrite Ek, elem_of_app, list_elem_of_singleton. tauto.
    + intros x. rewrite Ek, elem_of_app, list_elem_of_singleton. intros [Hx| ->]; [by apply Sr, Hrep|done].
  - assert (places (rid :: M) s ≡ₚ [rid] ++ places M s') as HP.
    { unfold places. rewrite Si, Sp, Ea. simpl. by rewrite <- !Permutation_middle. }
    split; [split|apply (step_left C [rid]); [done| |done]]; rewrite ?Si, ?Sf, ?Ea; try done.
    + rewrite HP in Hnd. by apply NoDup_cons in Hnd as [_ ?].
    + by apply HK'.
    + intros x Hx. by apply Sr, Hrep.
    + intros x ->%list_elem_of_singleton. right. by apply Hc1.
Qed.

Lemma resolve_run (C : Z → Prop) rid M s s' :
  Sound C M s → resolve rid s = (Ok tt, s') → Sound C M s' ∧ Step C M s M s' ∧ Stays s s'.
Proof.
  intros HS E. unfold resolve in E. unfold bind at 1, get in E. destruct (OrderedDict.lookup rid _) as [i|] eqn:El.
  2: { injection E as <-. split; [done|]. split; [apply step_none|by split]. }
  unfold bind, modify in E. set (s1 := set_pending_first _ s) in E. apply initiate_run in E.
  destruct (places_parts _ _ _ HS) as (_ & Hp & _). 
  assert (keys (_pending_first_token s) ≡ₚ rid :: keys (OrderedDict.delete rid (_pending_first_token s))) as HP.
  { unfold OrderedDict.keys. by rewrite (OrderedDict.delete_perm _ rid i Hp El) at 1. }
  assert (places (rid :: M) s1 ≡ₚ places M s) as HP1.
  { unfold places. simpl. rewrite HP. simpl. by rewrite <- !Permutation_middle. }
  assert (Sound C (rid :: M) s1) as HS1 by (destruct HS; split; rewrite ?HP1; done).
  destruct (started_sound C rid M s1 s' HS1 E) as [HS' HT]. split; [done|]. split; [|by destruct (started_stays _ _ _ E)].
  eapply step_then; [|exact HT]. by apply step_moved.
Qed.

Lemma resolve_all (C : Z → Prop) l M s s' :
  Sound C M s → for_each l resolve s = (Ok tt, s') → Sound C M s' ∧ Step C M s M s' ∧ Stays s s'.
Proof.
  revert s. induction l as [|rid l IH]; intros s HS E; simpl in E.
  - injection E as <-. split; [done|]. split; [apply step_none|by split].
  - apply bind_ok in E as ([] & s1 & E1 & E). destruct (resolve_run C rid M s s1 HS E1) as (HS1 & HT1 & HY1).
    destruct (IH s1 HS1 E) as (HS' & HT' & HY'). split; [done|]. split; [by eapply step_then|by eapply stays_then].
Qed.

(** The generated requests start their transfers, *)
Lemma transfer_all (C : Z → Prop) (l : list (Z * Z)) M s s' :
  Sound C (l.*1 ++ M) s → for_each l (λ '(rid, i), initiate_transfer_and_send_reply rid i) s = (Ok tt, s') →
  Sound C M s' ∧ Step C (l.*1 ++ M) s M s' ∧ Stays s s'.
Proof.
  revert s. induction l as [|[rid i] l IH]; intros s HS E; simpl in E.
  - injection E as <-. split; [done|]. split; [apply step_none|by split].
  - apply bind_ok in E as ([] & s1 & E1 & E). apply initiate_run in E1.
    destruct (started_sound C rid (l.*1 ++ M) s s1 HS E1) as [HS1 HT1].
    destruct (IH s1 HS1 E) as (HS' & HT' & HY'). split; [done|]. split; [by eapply step_then|].
    eapply stays_then; [by eapply started_stays|done].
Qed.

(** or are parked. *)
Lemma park_all (C : Z → Prop) (l : list (Z * Z)) M s s' :
  Sound C (l.*1 ++ M) s →
  for_each l (λ '(rid, i), modify (λ s, set_pending_first (OrderedDict.set rid i (_pending_first_token s)) s)) s = (Ok tt, s') →
  Sound C M s' ∧ Step C (l.*1 ++ M) s M s' ∧ Stays s s'.
Proof.
  revert s. induction l as [|[rid i] l IH]; intros s HS E; simpl in E.
  - injection E as <-. split; [done|]. split; [apply step_none|by split].
  - unfold bind at 1, modify in E. set (s1 := set_pending_first _ s) in E. simpl in HS.
    destruct (places_parts _ _ _ HS) as (_ & _ & _ & _ & _ & Hpl & _).
    assert (places (l.*1 ++ M) s1 ≡ₚ places (rid :: l.*1 ++ M) s) as HP.
    { unfold places. simpl. rewrite keys_set_new by (intros Hp; apply (Hpl rid Hp); by left).
      rewrite <- !app_assoc. simpl. by rewrite <- !Permutation_middle. }
    assert (Sound C (l.*1 ++ M) s1) as HS1 by (destruct HS; split; rewrite ?HP; done).
    destruct (IH s1 HS1 E) as (HS' & HT' & HY'). split; [done|]. split; [|by destruct HY'].
    eapply step_then; [|exact HT']. by apply step_moved.
Qed.

Lemma generated_ids s : (generated s).*1 = concat (map tg_reqs (replicas (batch_constructor s))).
Proof.
  unfold generated. generalize (replicas (batch_constructor s)). intros l.
  assert (∀ k, (concat (map (λ '(i, q), map (λ rid, (rid, i)) (tg_reqs q)) (zip (zrange k (k + len l)) l))).*1 =
    concat (map tg_reqs l)) as Hk; [|by rewrite <- (Hk 0)].
  induction l as [|q l IH]; intros k; [by rewrite zip_with_nil_r|]. unfold len in *. simpl length.
  rewrite zrange_cons by lia. simpl. rewrite fmap_app, <- (IH (k + 1)). replace (k + 1 + Z.of_nat (length l)) with (k + Z.of_nat (S (length l))) by lia.
  f_equal. rewrite <- list_fmap_compose. clear. induction (tg_reqs q) as [|x t IH]; simpl; [done|]. by f_equal.
Qed.

(** *** A batch runs *)

Lemma schedule_run (C : Z → Prop) inputs ces L s n s' :
  Book (concat ces) L (batch_constructor s) → In_batch inputs ces (batch_constructor s) →
  Framed (λ x, x ∈ keys (active_transfers s)) (batch_constructor s) → Sound C L s →
  schedule inputs s = (Ok n, s') → ∃ L', Ready C L' s' ∧ Step C L s L' s'.
Proof.
  intros HB HP HF HS E. unfold schedule in E. apply bind_ok in E as ([] & s0 & E0 & E). apply py_assert_ok in E0 as [_ <-].
  apply bind_ok in E as (rs & s1 & E1 & E). pose proof E1 as F1.
  apply framed_ok with (D := λ x, x ∈ keys (active_transfers s)) in F1; [|apply framed_run_pipeline|done].
  apply constructor_call in E1 as (c1 & E1 & ->). set (c0 := with_inflight _ _) in E1.
  pose proof (run_pipeline_same inputs c0) as S1. rewrite E1 in S1. simpl in S1, F1.
  assert (Book (concat ces) L c1) as HB1 by (eapply book_same; [exact S1|by apply inflight_book]).
  assert (In_batch inputs ces c1) as HP1.
  { unfold In_batch, n_replicas, TextBatchConstructor.config in *. rewrite (same_settings _ _ S1).
    eapply parted_all_after; [by apply rest_same| |exact HP]. intros i _ _. by rewrite (same_replicas _ _ S1). }
  apply bind_ok in E as ([] & s2 & E2 & E). pose proof E2 as F2.
  apply framed_ok with (D := λ x, x ∈ keys (active_transfers s)) in F2; [|apply framed_advance|done].
  2: { intros x Hx. by eapply (batches_away (λ x, x ∈ keys (active_transfers s))). }
  apply constructor_call in E2 as (c2 & E2 & ->). simpl in E2, F2.
  pose proof (keeps_run _ _ _ _ (advance_keeps_settings inputs) E2) as Hst2.
  assert (NoDup L) as HndL by apply (places_parts C L s HS).
  eapply (advance_requests_book _ inputs ces L) in E2; [|done|by apply inflight_book|exact HP1].
  set (s2 := set_constructor c2 (set_constructor c1 s)) in *.
  assert (Sound C L s2) as HS2.
  { destruct HS. split; try done; [by apply kept_framed|]. change (0 ≤ max_batch_size (config s2)).
    unfold config, TextBatchConstructor.config. simpl. rewrite Hst2. simpl. by rewrite (same_settings _ _ S1). }
  assert (Step C L s L s2) as HT2 by (by apply step_moved).
  assert (Book [] L (batch_constructor s2)) as HB2 by done. clearbody s2. clear - HB2 HS2 HT2 HndL E FR EF.
  apply bind_ok in E as ([] & s3 & E3 & E). destruct (resolve_all C _ L s2 s3 HS2 E3) as (HS3 & HT3 & HY3).
  pose proof (sy_held _ _ HY3 _ _ HB2) as HB3. unfold bind at 1, get in E.
  apply bind_ok in E as ([] & s4 & E4 & E). unfold bind at 1, get in E.
  apply bind_ok in E as ([] & s5 & E5 & E). injection E as _ <-. apply constructor_call in E5 as (c & E5 & ->).
  assert (∀ L', L ≡ₚ (generated s3).*1 ++ L' → Sound C L' s4 ∧ Step C L s3 L' s4 ∧ Stays s3 s4) as Hs4.
  { intros L' HL. assert (Sound C ((generated s3).*1 ++ L') s3) as HS3'.
    { destruct HS3. split; try done. assert (places ((generated s3).*1 ++ L') s3 ≡ₚ places L s3) as -> by (unfold places; by rewrite HL). done. }
    assert (Step C L s3 ((generated s3).*1 ++ L') s3) as HT by (apply step_moved; [unfold places; by rewrite HL|done]).
    destruct (has_pending_outputs _).
    - destruct (park_all C _ _ _ _ HS3' E4) as (? & ? & ?). split_and!; [done|by eapply step_then|done].
    - destruct (transfer_all C _ _ _ _ HS3' E4) as (? & ? & ?). split_and!; [done|by eapply step_then|done]. }
  assert (Stays s3 s4) as HY4.
  { destruct (submseteq_Permutation _ _ (generated_held L _ HB3)) as [k Hk]. by destruct (Hs4 k) as (_ & _ & ?); [by rewrite generated_ids|]. }
  assert (Book [] L (with_inflight (_inflight_kv_transfer_count s4) (batch_constructor s4))) as HB4 by (apply inflight_book; by apply HY4).
  destruct (clear_book L _ c HndL HB4 E5) as ([Ust Ukv Urq _ _ _ _] & L' & HL & HB').
  destruct (Hs4 L') as (HS4 & HT4 & _).
  { rewrite generated_ids. simpl in HL. by rewrite (sy_replicas _ _ HY4) in HL. }
  exists L'. split.
  - split; [done|]. destruct HS4 as [Hnd Hn [Hi Hc] Hr Hca Hz]. split; try done.
    + split; simpl; [rewrite Urq; exact Hi|]. intros x Hx. unfold kv. simpl. rewrite Ukv. by apply Hc.
    + unfold config, TextBatchConstructor.config in *. simpl. by rewrite Ust.
  - eapply step_then; [exact HT2|]. eapply step_then; [exact HT3|]. eapply step_then; [exact HT4|]. by apply step_moved.
Qed.

(** *** An iteration *)

(** The requests an iteration gives up because their grammar could not be compiled. *)
Definition grammar_failures (now : float) s : list Z :=
  match (receive_requests now;; cleanup_active_transfers;;
         let! _ := on_constructor (construct_batch now) in
         let! failed := on_constructor take_grammar_failed in ret failed.*1) s with
  | (Ok l, _) => l
  | (Raise _, _) => []
  end.

Lemma sound_cancels (C C' : Z → Prop) L s : (∀ x, C x → C' x) → Sound C L s → Sound C' L s.
Proof. intros HC [Hnd Hn HK Hr [Hc1 Hc2] Hz]. split; try done. split; [auto|]. intros x i Hx. by eapply HC, Hc2. Qed.
Lemma step_weaken (C C' : Z → Prop) L s L' s' : (∀ x, C x → C' x) → Step C L s L' s' → Step C' L s L' s'.
Proof. intros HC [Hp Hg Hr]. split; try done. intros x Hx. destruct (Hg x Hx) as [|[|]]; auto. Qed.

(** Dropping the reply contexts of the failed requests. *)
Lemma drop_contexts (l : list (Z * string)) s s' :
  for_each l (λ '(rid, _), modify (λ s, set_reply_context (delete rid (request_id_to_reply_context s)) s)) s = (Ok tt, s') →
  ∃ r, s' = set_reply_context r s.
Proof.
  revert s. induction l as [|[rid m] l IH]; intros s E; simpl in E.
  - injection E as <-. exists (request_id_to_reply_context s). by destruct s.
  - unfold bind at 1, modify in E. apply IH in E as [r ->]. by exists r.
Qed.

Lemma iteration_run (C : Z → Prop) now L s p s' :
  Ready C L s → run_iteration now s = (Ok p, s') →
  ∃ L', Ready C L' s' ∧ Step (λ x, C x ∨ x ∈ grammar_failures now s) L s L' s'.
Proof.
  intros HR E. unfold run_iteration in E.
  apply bind_ok in E as ([] & s1 & E1 & E). destruct (receive_all now C L s s1 HR E1) as (L1 & HR1 & HT1).
  apply bind_ok in E as ([] & s2 & E2 & E). destruct (cleanup_all C L1 s1 s2 HR1 E2) as [HR2 HT2].
  apply bind_ok in E as (inputs & s3 & E3 & E). pose proof E3 as F3.
  apply framed_ok with (D := λ x, x ∈ keys (active_transfers s2)) in F3; [|apply framed_construct_batch|by eapply ready_framed].
  apply bind_ok in E as (failed & s4 & E4 & E). pose proof E4 as F4.
  apply framed_ok with (D := λ x, x ∈ keys (active_transfers s2)) in F4; [|apply framed_failed|done].
  assert (grammar_failures now s = failed.*1) as Hg.
  { unfold grammar_failures, bind. by rewrite E1, E2, E3, E4. }
  rewrite Hg. clear Hg E1 E2. destruct HR2 as [HB2 HS2]. pose proof (places_parts C L1 s2 HS2) as (_ & _ & _ & HndL & _).
  apply constructor_call in E3 as (c3 & E3 & ->).
  apply (construct_batch_book now L1) in E3 as (ces & HB3 & Hst3 & HP3); [|done|by apply inflight_book|apply HS2].
  assert (In_batch inputs ces c3) as HP.
  { unfold In_batch, n_replicas, TextBatchConstructor.config in *. rewrite Hst3. exact HP3. }
  apply constructor_call in E4 as (c4 & E4 & ->). simpl in E4, F4.
  apply take_failed_book with (out := concat ces) (L := L1) in E4 as (L4 & HL4 & HB4 & HR4 & Hr4); [|by apply inflight_book].
  assert (In_batch inputs ces c4) as HP4.
  { apply (in_batch_rest inputs ces (with_inflight (_inflight_kv_transfer_count s2) c3)); [|done..].
    by rewrite (rs_failed _ _ HR4). }
  assert (settings c4 = settings (with_inflight (_inflight_kv_transfer_count s2) c3)) as Hst4 by apply (rs_settings _ _ HR4).
  apply bind_ok in E as ([] & s5 & E5 & E). apply drop_contexts in E5 as [r ->]. simpl in E.
  set (s5 := set_reply_context r _) in E.
  assert (places L1 s2 ≡ₚ failed.*1 ++ places L4 s5) as HPl.
  { unfold places. simpl. rewrite HL4. by rewrite !(Permutation_app_swap_app _ failed.*1). }
  assert (Sound C L4 s5) as HS5.
  { destruct HS2 as [Hnd Hn HK Hr Hc Hz]. split; try done.
    - rewrite HPl in Hnd. by apply NoDup_app in Hnd as (_ & _ & ?).
    - by apply kept_framed.
    - unfold config, TextBatchConstructor.config in *. simpl. rewrite Hst4. simpl. by rewrite Hst3. }
  assert (Step (λ x, C x ∨ x ∈ failed.*1) L s L4 s5) as HT5.
  { eapply step_then; [eapply step_weaken; [|exact HT1]; tauto|]. eapply step_then; [eapply step_weaken; [|exact HT2]; tauto|].
    apply (step_left _ failed.*1); [done| |done]. tauto. }
  assert (Book (concat ces) L4 (batch_constructor s5)) as HB5 by done.
  assert (In_batch inputs ces (batch_constructor s5)) as HP5 by done.
  assert (Framed (λ x, x ∈ keys (active_transfers s5)) (batch_constructor s5)) as HF5 by done.
  clearbody s5. clear - HB5 HP5 HF5 HS5 HT5 E FR EF.
  unfold bind at 1, get in E. destruct (negb _) eqn:Eg.
  - injection E as _ <-. exists L4. split; [split; [|done]|done]. apply negb_true_iff in Eg. rewrite orb_false_iff in Eg.
    destruct Eg as [Eg _]. apply negb_false_iff, bool_decide_eq_true in Eg. by rewrite (parted_empty _ _ _ _ _ HP5 Eg) in HB5.
  - apply bind_ok in E as (n & s6 & E6 & E). injection E as _ <-.
    destruct (schedule_run C inputs ces L4 s5 n s6 HB5 HP5 HF5 HS5 E6) as (L' & HR' & HT'). exists L'. split; [done|].
    eapply step_then; [exact HT5|]. eapply step_weaken; [|exact HT']. tauto.
Qed.

(** *** A node in use *)

(** What happens to a prefill node, with the prompts it was sent, [R], the cancellations,
    [C], and the requests whose grammar could not be compiled, [Q]: prompts with new ids,
    cancellations and introductions of decode nodes arrive, the cache, the pipeline and the
    transfer engine work in between, and iterations run. *)
Inductive Prefilling : list Z → list Z → list Z → PrefillScheduler.t → Prop :=
| prefilling_start config tg kv pipe lora gate e s :
    check_config config = Ok tt → 0 ≤ data_parallel_degree config →
    PrefillScheduler.init config tg kv pipe lora gate e = Ok s → Prefilling [] [] [] s
| prefilling_request R C Q s m identity :
    Prefilling R C Q s → pq_id m ∉ R → Batch.request_id (pq_context m) = pq_id m →
    Prefilling (pq_id m :: R) C Q (set_inbox (inbox s ++ [(Prefill m, identity)]) s)
| prefilling_connect R C Q s m identity :
    Prefilling R C Q s → Prefilling R C Q (set_inbox (inbox s ++ [(Connect m, identity)]) s)
| prefilling_cancel R C Q s rid identity :
    Prefilling R C Q s → Prefilling R (rid :: C) Q (set_inbox (inbox s ++ [(Cancel rid, identity)]) s)
| prefilling_engine R C Q s e : Prefilling R C Q s → Prefilling R C Q (set_engine e s)
| prefilling_outside R C Q s c :
    Prefilling R C Q s → Same (batch_constructor s) c → (∀ x, kv_contains x (kv_cache c) = kv_contains x (kv s)) →
    (∀ rid r, TextBatchConstructor.requests c !! rid = Some r → Batch.request_id r = rid) → Prefilling R C Q (set_constructor c s)
| prefilling_iteration R C Q s now p s' :
    Prefilling R C Q s → run_iteration now s = (Ok p, s') → Prefilling R C (grammar_failures now s ++ Q) s'.

(** Its requests: [L] in the constructor. *)
Record Node (R C Q L : list Z) s : Prop := {
  nd_ready : Ready (λ x, x ∈ C) L s;
  nd_sent x : x ∈ places L s → x ∈ R;
  nd_served x : x ∈ R → x ∈ places L s ∨ x ∈ replied s ∨ x ∈ C ∨ x ∈ Q
}.

Lemma prefill_start config tg kv pipe lora gate e s :
  check_config config = Ok tt → 0 ≤ data_parallel_degree config →
  PrefillScheduler.init config tg kv pipe lora gate e = Ok s → Node [] [] [] [] s.
Proof.
  intros Hc Hd E. unfold PrefillScheduler.init in E. destruct (TextBatchConstructor.init _ _ _ _ _) as [c|] eqn:Ei; [|done].
  injection E as <-. pose proof Ei as Ei'. unfold TextBatchConstructor.init in Ei'. destruct (_ && _); [done|].
  apply (f_equal (λ o, match o with Ok x => x | Raise _ => c end)) in Ei'. simpl in Ei'.
  assert (places [] (mk _ _ _ _ _ _ _ c e [] ∅ ∅ [] [] []) = []) as HP by done.
  split; [|by intros x ?%elem_of_nil|by intros x ?%elem_of_nil].
  split; [eapply init_book; [|exact Ei]; done|]. split; simpl; try (intros * Hx; by apply elem_of_nil in Hx).
  - constructor.
  - split; [|by intros x ?%elem_of_nil]. rewrite <- Ei'. simpl. intros rid r. by rewrite lookup_empty.
  - split; simpl; [by intros x ?|by intros x i ?%elem_of_nil].
  - rewrite <- Ei'. unfold PrefillScheduler.config, TextBatchConstructor.config. simpl. unfold check_config in Hc.
    destruct (max_batch_size config <=? 0) eqn:Em; [done|]. apply Z.leb_gt in Em. lia.
Qed.

(** A message that brings no prompt. *)
Lemma node_message R C C' Q L s m identity :
  (∀ x, x ∈ C → x ∈ C') → (∀ x, m = Cancel x → x ∈ C') → (∀ q, m ≠ Prefill q) →
  Node R C Q L s → Node R C' Q L (set_inbox (inbox s ++ [(m, identity)]) s).
Proof.
  intros HC Hm Hq [[HB [Hnd Hn HK Hr [Hc1 Hc2] Hz]] Hs Ha].
  assert (places L (set_inbox (inbox s ++ [(m, identity)]) s) = places L s) as HP.
  { unfold places, prompts. simpl. rewrite omap_app. destruct m as [q| |]; [by destruct (Hq q)|by rewrite app_nil_r..]. }
  split; [split; [done|split]| |]; rewrite ?HP; try done.
  - intros q i. simpl. rewrite elem_of_app, list_elem_of_singleton. intros [Hi|[= Hi _]]; [by eapply Hn|by destruct (Hq q)].
  - split; simpl; [auto|]. intros x i. rewrite elem_of_app, list_elem_of_singleton.
    intros [Hi|[= Hi _]]; [by eapply HC, Hc2|by apply Hm].
  - intros x Hx. destruct (Ha x Hx) as [|[|[|]]]; auto.
Qed.

Lemma node_prompt R C Q L s m identity :
  pq_id m ∉ R → Batch.request_id (pq_context m) = pq_id m → Node R C Q L s →
  Node (pq_id m :: R) C Q L (set_inbox (inbox s ++ [(Prefill m, identity)]) s).
Proof.
  intros HR Hid [[HB [Hnd Hn HK Hr [Hc1 Hc2] Hz]] Hs Ha].
  assert (places L (set_inbox (inbox s ++ [(Prefill m, identity)]) s) ≡ₚ pq_id m :: places L s) as HP.
  { unfold places, prompts. simpl. rewrite omap_app, <- app_assoc. simpl. by rewrite <- Permutation_middle. }
  split; [split; [done|split]| |]; rewrite ?HP; try done.
  - constructor; [|done]. intros Hx. by apply HR, Hs.
  - intros q i. simpl. rewrite elem_of_app, list_elem_of_singleton. intros [Hi|[= -> _]]; [by eapply Hn|done].
  - split; simpl; [done|]. intros x i. rewrite elem_of_app, list_elem_of_singleton. intros [Hi|Hi]; [by eapply Hc2|done].
  - intros x. rewrite HP, !elem_of_cons. intros [->|Hx]; [by left|right; by apply Hs].
  - intros x. rewrite HP, !elem_of_cons. intros [->|Hx]; [by left; left|]. destruct (Ha x Hx) as [|]; auto.
Qed.

Lemma node_outside R C Q L s c :
  Same (batch_constructor s) c → (∀ x, kv_contains x (kv_cache c) = kv_contains x (kv s)) →
  (∀ rid r, TextBatchConstructor.requests c !! rid = Some r → Batch.request_id r = rid) →
  Node R C Q L s → Node R C Q L (set_constructor c s).
Proof.
  intros HS Hk Hi [[HB [Hnd Hn [_ Hc] Hr Hca Hz]] Hs Ha]. split; [split; [by eapply book_same|]|done..].
  split; try done.
  - split; [done|]. intros x Hx. unfold kv. simpl. rewrite Hk. by apply Hc.
  - unfold PrefillScheduler.config, TextBatchConstructor.config in *. simpl. by rewrite (same_settings _ _ HS).
Qed.

Lemma node_iteration R C Q L s now p s' :
  run_iteration now s = (Ok p, s') → Node R C Q L s → ∃ L', Node R C (grammar_failures now s ++ Q) L' s'.
Proof.
  intros E [HR Hs Ha]. destruct (iteration_run _ now L s p s' HR E) as (L' & HR' & [HP Hg Hr]). exists L'. split; [done| |].
  - intros x Hx. apply Hs. by eapply elem_of_submseteq.
  - intros x Hx. rewrite elem_of_app. destruct (Ha x Hx) as [Hx'|[Hx'|[Hx'|Hx']]]; [|by auto|tauto..].
    destruct (Hg x Hx') as [|[|[|]]]; tauto.
Qed.

Lemma prefilling_node R C Q s : Prefilling R C Q s → ∃ L, Node R C Q L s.
Proof.
  induction 1 as [config tg kv pipe lora gate e s Hc Hd E|R C Q s m identity _ [L HN] Hm Hid|R C Q s m identity _ [L HN]
    |R C Q s rid identity _ [L HN]|R C Q s e _ [L HN]|R C Q s c _ [L HN] HS Hk Hi|R C Q s now p s' _ [L HN] E].
  - exists []. by eapply prefill_start.
  - exists L. by apply node_prompt.
  - exists L. by apply (node_message R C).
  - exists L. apply (node_message R C); [by right|intros x [= <-]; by left|done|done].
  - exists L. destruct HN as [[HB []] Hs Ha]. by split.
  - exists L. by apply node_outside.
  - by eapply node_iteration.
Qed.


End Facts.
End PrefillFacts.
