(* ===== verification/PrefillProperties.v ===== *)
(** * What the prefill node guarantees

    Properties of [PrefillScheduler] in use, and a node on a paged cache whose model
    answers every prompt with one token that shows their hypotheses hold. *)

From S2P Require Import Prelude Tokens Eos FreeQueue Pool Grammar Context Hashing Connector Manager ManagerFacts ManagerProperties CacheManager KVInterface Dict Budget Lora Batch BatchFacts Conservation Spending BatchErrors Planning BatchProperties Scheduler SchedulerProperties Disagg Frame PagedFrame Decode DecodeFacts DecodeProperties Prefill PrefillFacts.

Module PrefillProperties.
Import ReplicaRequests TextBatchConstructor BatchFacts Conservation ConstructorKeeps SchedulerFacts PrefillScheduler PrefillFacts PagedFrame.

Section Statements.
Context {B : Backend} `{KV : !KVCache, P : Pipeline, F : Floats, G : !GrammarBuilder, A : AdapterStore,
  TE : !TransferEngine, X : !Executor, N : NumPy, FR : !KVFrame, EF : !ExecutorFrame}.
Implicit Types s : PrefillScheduler.t.

Lemma count_marked k l : Forall (λ b, 0 ≤ b) l → count_cached (repeat (-1) k ++ l) = Z.of_nat k.
Proof.
  intros Hl. unfold count_cached. rewrite filter_app.
  assert (filter (λ x, x = -1) l = []) as ->.
  { induction Hl as [|b l Hb _ IH]; [done|]. rewrite filter_cons_False by lia. exact IH. }
  rewrite app_nil_r. induction k as [|k IH]; [done|]. simpl. rewrite filter_cons_True by done.
  unfold len in *. simpl length. lia.
Qed.

(** C19: a prefill node loses no prompt. In a node in use, each prompt it was sent is in
    exactly one place (unread, parked until its first token is known, in a running
    transfer, in the batch constructor), or its first token was sent to decode, or it was
    cancelled, or its grammar could not be compiled. *)
Theorem prefill_loses_no_request R C Q s :
  Prefilling R C Q s →
  let places := prompts (inbox s) ++ OrderedDict.keys (_pending_first_token s)
                ++ OrderedDict.keys (active_transfers s) ++ all_ids (batch_constructor s) in
  NoDup places ∧ (∀ x, x ∈ places → x ∈ R) ∧ (∀ x, x ∈ R → x ∈ places ∨ x ∈ replied s ∨ x ∈ C ∨ x ∈ Q).
Proof.
  intros HP. destruct (prefilling_node R C Q s HP) as [L [[HB [Hnd _ _ _ _ _]] Hs Ha]]. unfold PrefillFacts.places in *.
  pose proof (bk_ids _ _ _ HB) as HL. rewrite app_nil_r in HL.
  assert (∀ l1 l2 l3 : list Z, l1 ++ l2 ++ l3 ++ all_ids (batch_constructor s) ≡ₚ l1 ++ l2 ++ l3 ++ L) as HE by (intros; by rewrite HL).
  cbv zeta. split; [by rewrite HE|]. split; intros x; rewrite HE; auto.
Qed.

(** C20: a running transfer keeps its blocks. In a node in use, every request whose
    transfer is not known to have landed holds its claim on the KV cache (whatever was
    cancelled in the meantime), and its first token was sent to decode. *)
Theorem running_transfers_keep_blocks R C Q s x a :
  Prefilling R C Q s → (x, a) ∈ active_transfers s → kv_contains x (kv s) = true ∧ x ∈ replied s.
Proof.
  intros HP Hx. destruct (prefilling_node R C Q s HP) as [L [[_ [_ _ [_ Hc] Hr _ _]] _ _]].
  apply (list_elem_of_fmap_2 fst) in Hx. split; [by apply Hc|by apply Hr].
Qed.

(** C21: what the decode node has already is not sent. If decode has marked the first [n]
    of its destination blocks as cached, the transfer that prefill starts goes from its
    blocks of the request from the [n]-th on to decode's from the [n]-th on, one to one. *)
Theorem transfer_sends_missing_blocks rid i name blocks r n marked data s s' :
  Forall (λ b, 0 ≤ b) blocks → 0 ≤ n →
  DecodeScheduler.mark_cached n blocks = Ok marked →
  start_transfer rid i (transfer_dest name marked r) s = (Ok data, s') →
  ∃ remote src, te_remote_connections (transfer_engine s) !! name = Some remote ∧
    (kv_get_req_blocks rid (kv s)).1 = Ok src ∧
    length (drop (Z.to_nat n) src) = length (drop (Z.to_nat n) blocks) ∧
    te_initiate_send_transfer remote (drop (Z.to_nat n) src) (drop (Z.to_nat n) blocks) i r (transfer_engine s)
      = (Ok data, transfer_engine s').
Proof.
  intros Hb Hn Hm E. unfold DecodeScheduler.mark_cached in Hm. destruct (n >? len blocks) eqn:Hlt; [done|]. injection Hm as <-.
  rewrite Z.gtb_ltb in Hlt. apply Z.ltb_ge in Hlt. set (k := Z.to_nat n) in *.
  assert (count_cached (repeat (-1) k ++ drop k blocks) = n) as Hcount.
  { rewrite count_marked by (by apply Forall_drop). unfold k. lia. }
  unfold start_transfer in E. unfold bind at 1, get in E. apply bind_ok in E as (remote & s1 & E1 & E). simpl in E1.
  destruct (_ !! name) as [rm|] eqn:Er; [|done]. injection E1 as -> <-.
  apply bind_ok in E as (src & s2 & E2 & E). apply constructor_call in E2 as (c & E2 & ->).
  apply bind_ok in E as ([] & s3 & E3 & E). apply py_assert_ok in E3 as [Hlen <-].
  apply bind_ok in E as ([] & s3 & E3 & E). apply py_assert_ok in E3 as [_ <-]. simpl in *. rewrite Hcount in E.
  apply bind_ok in E as (d & s3 & E3 & E). unfold bind, modify, ret in E. injection E as -> <-.
  unfold on_engine, zoom in E3. simpl in E3.
  assert (len src = len blocks) as Hsrc.
  { apply Z.eqb_eq in Hlen. revert Hlen. unfold len in *. rewrite length_app, repeat_length, length_drop. unfold k. lia. }
  rewrite !slice_from_inside in E3 by (rewrite <- ?(proj1 (Z.eqb_eq _ _) Hlen); lia). fold k in E3.
  replace (drop k (repeat (-1) k ++ drop k blocks)) with (drop k blocks) in E3.
  2: { rewrite drop_app_ge by (by rewrite repeat_length). by rewrite repeat_length, Nat.sub_diag. }
  exists remote, src. split; [done|]. split.
  - unfold TextBatchConstructor.on_kv, zoom in E2. unfold kv. destruct (kv_get_req_blocks rid _) as [o k'] eqn:Ek.
    by injection E2 as -> _.
  - split.
    + rewrite !length_drop. unfold len in Hsrc. lia.
    + destruct (te_initiate_send_transfer _ _ _ _ _ _) as [o e]. injection E3 as -> <-. done.
Qed.

(** A cancelled prompt is not transferred. When the first token of a request that was
    cancelled is known, no transfer starts and no reply is sent: its claim is released, and
    the cancellation is used up. *)
Theorem cancelled_prompt_not_transferred rid i s s' :
  rid ∈ outstanding_cancelled_requests s → initiate_transfer_and_send_reply rid i s = (Ok tt, s') →
  active_transfers s' = active_transfers s ∧ transfer_engine s' = transfer_engine s ∧ sent s' = sent s ∧
  outstanding_cancelled_requests s' = outstanding_cancelled_requests s ∖ {[ rid ]} ∧
  kv s' = (kv_release rid (kv_get_req_blocks rid (kv s)).2).2.
Proof.
  intros Hc E. unfold initiate_transfer_and_send_reply in E. unfold bind at 1, get in E.
  apply bind_ok in E as ([identity dest] & s1 & E1 & E). destruct (_ !! rid) as [e|]; [|done]. injection E1 as -> <-.
  unfold bind at 1, modify in E. rewrite bool_decide_eq_true_2 in E by done.
  unfold drop_cancelled in E. unfold bind at 1, modify in E. apply bind_ok in E as (l & s2 & E2 & E).
  unfold on_kv in E2. apply constructor_call in E2 as (c2 & E2 & ->). apply bind_ok in E as ([] & s3 & E3 & E).
  apply constructor_call in E3 as (c3 & E3 & ->). apply constructor_call in E as (c4 & E & ->). simpl.
  split_and!; [done..|]. unfold kv. simpl. unfold TextBatchConstructor.on_kv, zoom in E2, E3.
  unfold TextBatchConstructor.release_pipeline, on_pipeline, zoom in E. simpl in *.
  destruct (kv_get_req_blocks rid (kv_cache (batch_constructor s))) as [o2 k2] eqn:Ek2. injection E2 as _ <-. simpl in *.
  destruct (kv_release rid k2) as [o3 k3]. injection E3 as _ <-. simpl in *.
  destruct (pipeline_release _ _) as [o4 p4]. injection E as _ <-. done.
Qed.

End Statements.

(** ** A node on six pages, whose engine lists the transfers that have landed *)
#[local] Existing Instance HashProperties.toy_digest.
#[local] Existing Instance recording_backend.
#[local] Existing Instance LoraProperties.path_store.
#[local] Existing Instance BatchProperties.no_pipeline.
#[local] Existing Instance BatchProperties.rationals.
#[local] Existing Instance BatchProperties.no_builder.

#[local] Instance carrier : TransferEngine := {|
  engine := list Z;
  transfer_req := Z;
  engine_metadata := string;
  metadata_name m := m;
  te_metadata _ := "prefill"%string;
  te_remote_connections _ := {[ "decode"%string := "decode"%string ]};
  te_connect _ := ret tt;
  te_is_complete x := let! l := get in ret (bool_decide (x ∈ l));
  te_cleanup_transfer x := let! l := get in raise_if (negb (bool_decide (x ∈ l))) ValueError;
  te_initiate_send_transfer _ src dst _ _ := ret (len src);
  onload_synchronize _ := ret tt
|}.

(** Every request of a batch gets the token 5. *)
Definition next_token (rid : Z) (r : gmap Z (Request recording_backend)) : gmap Z (Request recording_backend) :=
  match r !! rid with
  | Some o => <[rid := set_ctx (update_context 5 (ctx o)).2 o]> r
  | None => r
  end.
#[local] Instance one_token : Executor := {|
  execute batches := λ '(k, p, r), (Ok [], (k, p, foldr next_token r (concat batches)));
  has_pending_outputs _ := false
|}.

#[local] Instance one_token_frame : ExecutorFrame.
Proof.
  split; [done|]. intros batches k p r Hr. simpl. induction (concat batches) as [|y l IH]; [done|]. simpl. unfold next_token at 1.
  destruct (foldr next_token r l !! y) as [o|] eqn:Ey; [|done]. intros rid o' [[<- <-]|[_ Ho]]%lookup_insert_Some; [|by apply IH].
  unfold Batch.request_id. simpl. rewrite DecodeFacts.update_same_request. by apply IH.
Qed.

Definition node : PrefillScheduler.t :=
  match PrefillScheduler.init BatchProperties.small_config BatchProperties.zero_s
          (BatchProperties.six_pages : cache) (tt : pipeline) None None ([] : engine) with
  | Ok s => s
  | Raise _ => mk _ _ _ _ _ _ _ BatchProperties.fresh ([] : engine) [] ∅ ∅ [] [] []
  end.
Lemma prefill_node_init :
  PrefillScheduler.init BatchProperties.small_config BatchProperties.zero_s
    (BatchProperties.six_pages : cache) (tt : pipeline) None None ([] : engine) = Ok node.
Proof. reflexivity. Qed.

(** Two prompts arrive, of which decode has the first block; the second is cancelled. *)
Definition sends (rid : Z) : PrefillRequest recording_backend :=
  prefill_request _ rid (BatchProperties.asks rid) "decode" [-1; 4; 5] 0.
Definition told : PrefillScheduler.t :=
  set_inbox [(Prefill (sends 1), "d"%string); (Prefill (sends 2), "d"%string); (Cancel 2, "d"%string)] node.
Definition prefilled : PrefillScheduler.t := BatchProperties.ran (run_iteration BatchProperties.noon) told.

Lemma told_prefilling : Prefilling [2; 1] [2] [] told.
Proof.
  assert (Prefilling [] [] [] node) as H0 by (eapply prefilling_start; [| |exact prefill_node_init]; [reflexivity|discriminate]).
  apply (prefilling_request [] [] [] node (sends 1) "d") in H0; [|by intros ?%elem_of_nil|reflexivity].
  apply (prefilling_request [1] [] [] _ (sends 2) "d") in H0; [|apply (bool_decide_unpack _); vm_compute; exact I|reflexivity].
  apply (prefilling_cancel [2; 1] [] [] _ 2 "d") in H0. exact H0.
Qed.

Lemma prefilled_prefilling : Prefilling [2; 1] [2] (grammar_failures BatchProperties.noon told ++ []) prefilled.
Proof.
  apply (prefilling_iteration [2; 1] [2] [] told BatchProperties.noon MADE_PROGRESS prefilled told_prefilling).
  apply (BatchProperties.ran_run (run_iteration BatchProperties.noon) told). vm_compute. reflexivity.
Qed.

(** The first is in a running transfer, the second still in the constructor. *)
Lemma prefill_loses_no_request_witness :
  OrderedDict.keys (active_transfers prefilled) = [1] ∧ all_ids (batch_constructor prefilled) = [2] ∧
  (∀ x, x ∈ [2; 1] →
    x ∈ prompts (inbox prefilled) ++ OrderedDict.keys (_pending_first_token prefilled)
        ++ OrderedDict.keys (active_transfers prefilled) ++ all_ids (batch_constructor prefilled)
    ∨ x ∈ replied prefilled ∨ x ∈ [2] ∨ x ∈ grammar_failures BatchProperties.noon told ++ []).
Proof.
  split; [vm_compute; reflexivity|]. split; [vm_compute; reflexivity|].
  destruct (prefill_loses_no_request [2; 1] [2] _ prefilled prefilled_prefilling) as (_ & _ & Ha). exact Ha.
Defined.

Lemma running_transfers_keep_blocks_witness : kv_contains 1 (kv prefilled) = true.
Proof.
  assert (∃ a, (1, a) ∈ active_transfers prefilled) as [a Ha].
  { assert (1 ∈ OrderedDict.keys (active_transfers prefilled)) as Hk by (apply (bool_decide_unpack _); vm_compute; exact I).
    apply list_elem_of_fmap in Hk as ([y a] & Ey & Hy). simpl in Ey. subst y. by exists a. }
  destruct (running_transfers_keep_blocks [2; 1] [2] _ prefilled 1 a prefilled_prefilling Ha) as [Hk _]. exact Hk.
Defined.

Definition two_blocks : transfer_req := 2.

(** Decode has the first of three blocks. *)
Lemma transfer_sends_missing_blocks_witness :
  ∃ src, (kv_get_req_blocks 1 (kv prefilled)).1 = Ok src ∧ length (drop 1 src) = 2%nat.
Proof.
  destruct (transfer_sends_missing_blocks 1 0 "decode" [3; 4; 5] 0 1 [-1; 4; 5] two_blocks prefilled
    (BatchProperties.ran (start_transfer 1 0 (transfer_dest "decode" [-1; 4; 5] 0)) prefilled)) as (_ & src & _ & Hs & Hl & _).
  - repeat constructor; lia.
  - lia.
  - reflexivity.
  - apply (BatchProperties.ran_run (start_transfer 1 0 (transfer_dest "decode" [-1; 4; 5] 0)) prefilled). vm_compute. reflexivity.
  - exists src. split; [exact Hs|exact Hl].
Defined.

Definition second_dropped : PrefillScheduler.t := BatchProperties.ran (initiate_transfer_and_send_reply 2 0) prefilled.
Lemma cancelled_prompt_not_transferred_witness :
  OrderedDict.keys (active_transfers second_dropped) = [1] ∧ kv_contains 2 (kv prefilled) = true ∧ kv_contains 2 (kv second_dropped) = false.
Proof.
  destruct (cancelled_prompt_not_transferred 2 0 prefilled second_dropped) as (Ha & _ & _ & _ & Hk).
  - apply (bool_decide_unpack _). vm_compute. exact I.
  - apply (BatchProperties.ran_run (initiate_transfer_and_send_reply 2 0) prefilled). vm_compute. reflexivity.
  - rewrite Ha, Hk. split_and!; vm_compute; reflexivity.
Defined.

End PrefillProperties.
