(* ===== verification/Nodes.v ===== *)
(** * The decode and the prefill node, and the network between them

    What a decode node has asked of prefill nodes, and when it stops waiting; and that
    the two schedulers, with the sockets between them, meet each other's assumptions. *)

From S2P Require Import Prelude Tokens Eos FreeQueue Pool Grammar Context Hashing Connector Manager ManagerFacts ManagerProperties CacheManager KVInterface Dict Budget Lora Batch BatchFacts Conservation Spending BatchErrors Planning BatchProperties Scheduler SchedulerProperties Disagg Frame Decode DecodeFacts Prefill PrefillFacts.

(** ** Programs whose every run, raising ones included, is in a relation *)
Module Follows.
Section Follows.
Context {S : Type} (R : relation S) `{!PreOrder R}.

Definition follows {Y} (f : M S Y) : Prop := ∀ s, R s (f s).2.

Lemma follows_run {Y} (f : M S Y) s y s' : follows f → f s = (Ok y, s') → R s s'.
Proof. intros Hf E. specialize (Hf s). by rewrite E in Hf. Qed.
Lemma follows_ret {Y} (y : Y) : follows (ret y).
Proof. intros s. reflexivity. Qed.
Lemma follows_get : follows get.
Proof. intros s. reflexivity. Qed.
Lemma follows_raise {Y} e : follows (raise (A := Y) e).
Proof. intros s. reflexivity. Qed.
Lemma follows_raise_if b e : follows (raise_if b e).
Proof. destruct b; intros s; reflexivity. Qed.
Lemma follows_assert b : follows (py_assert b).
Proof. destruct b; intros s; reflexivity. Qed.
Lemma follows_option {Y} e (o : option Y) : follows (of_option e o).
Proof. destruct o; intros s; reflexivity. Qed.
Lemma follows_outcome {Y} (o : outcome Y) : follows (of_outcome o).
Proof. intros s. reflexivity. Qed.
Lemma follows_bind {Y Z'} (f : M S Y) (g : Y → M S Z') : follows f → (∀ y, follows (g y)) → follows (bind f g).
Proof.
  intros Hf Hg s. unfold bind. specialize (Hf s). destruct (f s) as [[y|e] s1]; [|done]. simpl in Hf. etransitivity; [done|apply Hg].
Qed.
Lemma follows_when b f : follows f → follows (when b f).
Proof. destruct b; [done|intros _; apply follows_ret]. Qed.
Lemma follows_catch {Y} (f : M S Y) h : follows f → (∀ e k, h e = Some k → follows k) → follows (catch f h).
Proof.
  intros Hf Hh s. unfold catch. specialize (Hf s). destruct (f s) as [[y|e] s1]; [done|]. simpl in Hf.
  destruct (h e) as [k|] eqn:E; [|done]. etransitivity; [done|by apply (Hh e)].
Qed.
Lemma follows_for_each {Y} (l : list Y) f : (∀ y, follows (f y)) → follows (for_each l f).
Proof. intros Hf. induction l as [|y l IH]; [apply follows_ret|]. apply follows_bind; [apply Hf|by intros _]. Qed.
Lemma follows_for_fold {Y Z'} (l : list Y) (f : Z' → Y → M S Z') z : (∀ z y, follows (f z y)) → follows (for_fold l z f).
Proof. intros Hf. revert z. induction l as [|y l IH]; intros z; [apply follows_ret|]. apply follows_bind; [apply Hf|by intros z']. Qed.
Lemma follows_modify f : (∀ s, R s (f s)) → follows (modify f).
Proof. intros Hf s. apply Hf. Qed.

End Follows.
End Follows.

(** Decompose a program. *)
Ltac follow_step :=
  match goal with
  | |- Follows.follows _ (ret _) => apply Follows.follows_ret; apply _
  | |- Follows.follows _ get => apply Follows.follows_get; apply _
  | |- Follows.follows _ (raise _) => apply Follows.follows_raise; apply _
  | |- Follows.follows _ (raise_if _ _) => apply Follows.follows_raise_if; apply _
  | |- Follows.follows _ (py_assert _) => apply Follows.follows_assert; apply _
  | |- Follows.follows _ (of_option _ _) => apply Follows.follows_option; apply _
  | |- Follows.follows _ (of_outcome _) => apply Follows.follows_outcome; apply _
  | |- Follows.follows _ (bind _ _) => apply Follows.follows_bind; [apply _| |intros ?]
  | |- Follows.follows _ (when _ _) => apply Follows.follows_when; [apply _|]
  | |- Follows.follows _ (for_each _ _) => apply Follows.follows_for_each; [apply _|intros ?]
  | |- Follows.follows _ (if ?b then _ else _) => destruct b
  | |- Follows.follows _ (match ?o with _ => _ end) => destruct o
  end.

(** ** What a decode node asks of prefill nodes *)
Module Asking.
Import ReplicaRequests TextBatchConstructor BatchFacts Conservation ConstructorKeeps SchedulerFacts DecodeScheduler DecodeFacts Follows Frame.

Section Asking.
Context {B : Backend} `{KV : !KVCache, P : Pipeline, F : Floats, G : !GrammarBuilder, A : AdapterStore,
  TE : !TransferEngine, X : !Executor, N : NumPy}.
Implicit Types s : DecodeScheduler.t.

Abbreviation keys s := (OrderedDict.keys (DecodeScheduler.requests s)).

Definition prompt_of (e : string * RequestType_) : option Z :=
  match e.2 with Prefill m => Some (pq_id m) | _ => None end.
(** The requests whose prompt the node has sent. *)
Definition told s : list Z := omap prompt_of (sent s).

(** What a step does to the requests that wait and to what was sent: the prompts of
    [new] go out, and [pend] wait for memory. *)
Record Sends (new pend : list Z) s s' : Prop := {
  sn_queue : request_queue s' = request_queue s;
  sn_pending : pending_reqs s' = pend;
  sn_told : told s' = told s ++ new;
  sn_named e m : (e, Prefill m) ∈ sent s' → (e, Prefill m) ∈ sent s ∨ Batch.request_id (pq_context m) = pq_id m;
  sn_cancels x : x ∈ concat (cancel_queue s') → x ∈ concat (cancel_queue s);
  sn_config : config s' = config s
}.

Lemma sends_then new pend new' pend' s1 s2 s3 : Sends new pend s1 s2 → Sends new' pend' s2 s3 → Sends (new ++ new') pend' s1 s3.
Proof.
  intros [Q1 P1 T1 N1 C1 F1] [Q2 P2 T2 N2 C2 F2]. split; try congruence; auto.
  - by rewrite T2, T1, app_assoc.
  - intros e m Hm. destruct (N2 e m Hm) as [Hm'|]; auto.
Qed.

(** A step that asks nothing; *)
Definition Mute s s' : Prop := Sends [] (pending_reqs s) s s'.
(** one that leaves the reservations alone too. *)
Definition Aside s s' : Prop := Mute s s' ∧ DecodeScheduler.requests s' = DecodeScheduler.requests s.

#[export] Instance mute_preorder : PreOrder Mute.
Proof.
  split.
  - intros s. split; try done; [by rewrite app_nil_r|auto].
  - intros s1 s2 s3 H1 H2. pose proof (sn_pending _ _ _ _ H1) as E. unfold Mute in H2. rewrite E in H2.
    exact (sends_then [] _ [] _ s1 s2 s3 H1 H2).
Qed.
#[export] Instance aside_preorder : PreOrder Aside.
Proof.
  split; [intros s; split; [reflexivity|done]|]. intros s1 s2 s3 [H1 E1] [H2 E2]. split; [by etransitivity|congruence].
Qed.

Lemma mute_then new pend s1 s2 s3 : Sends new pend s1 s2 → Mute s2 s3 → Sends new pend s1 s3.
Proof.
  intros H1 H2. pose proof (sn_pending _ _ _ _ H1) as E. unfold Mute in H2. rewrite E in H2.
  pose proof (sends_then _ _ _ _ _ _ _ H1 H2) as H. by rewrite app_nil_r in H.
Qed.
Lemma then_mute new pend s1 s2 s3 : Mute s1 s2 → Sends new pend s2 s3 → Sends new pend s1 s3.
Proof. intros H1 H2. exact (sends_then [] _ new pend s1 s2 s3 H1 H2). Qed.

Abbreviation mute := (follows Mute).
Abbreviation aside := (follows Aside).

Lemma aside_mute {Y} (f : M DecodeScheduler.t Y) : aside f → mute f.
Proof. intros Hf s. apply Hf. Qed.

(** *** The steps of the handlers *)
Lemma aside_fields s s' :
  request_queue s' = request_queue s → pending_reqs s' = pending_reqs s → sent s' = sent s →
  (∀ x, x ∈ concat (cancel_queue s') → x ∈ concat (cancel_queue s)) → config s' = config s →
  DecodeScheduler.requests s' = DecodeScheduler.requests s → Aside s s'.
Proof.
  intros Eq Ep Es Hc Ef Er. split; [|done]. split; try done; unfold told; rewrite Es; [by rewrite app_nil_r|auto].
Qed.
Lemma aside_constructor {Y} (f : M TextBatchConstructor.t Y) : keeps settings f → aside (on_constructor f).
Proof.
  intros Hf s. unfold on_constructor. set (c0 := with_inflight _ _). specialize (Hf c0). destruct (f c0) as [o c]. simpl in *.
  apply aside_fields; try done. unfold config, TextBatchConstructor.config. simpl. by rewrite Hf.
Qed.
Lemma aside_quiet {Y} (f : M TextBatchConstructor.t Y) : quiet f → aside (on_constructor f).
Proof. intros Hf. apply aside_constructor. apply (keeps_quiet settings); [exact same_settings|done]. Qed.
Lemma aside_kv {Y} (f : M cache Y) : aside (on_kv f).
Proof. apply aside_quiet, quiet_on_kv. Qed.
Lemma aside_engine {Y} (f : M engine Y) : aside (on_engine f).
Proof. intros s. unfold on_engine, zoom. destruct (f _). by apply aside_fields. Qed.
Lemma aside_context {Y} rid (f : M (Ctx.t B) Y) : aside (on_context rid f).
Proof. apply aside_quiet, quiet_on_request. Qed.
Lemma aside_context_of rid : aside (context_of rid).
Proof. apply aside_quiet, quiet_request. Qed.
Lemma aside_response m : aside (put_response m).
Proof. apply follows_modify. intros s. by apply aside_fields. Qed.
Lemma aside_send m dest : (∀ q, m ≠ Prefill q) → aside (send_request_nowait m dest).
Proof.
  intros Hm. apply follows_modify. intros s. split; [|done]. split; try done.
  - unfold told. simpl. rewrite omap_app. f_equal. destruct m as [q| |]; [by destruct (Hm q)|reflexivity..].
  - intros e q. simpl. rewrite elem_of_app, list_elem_of_singleton. intros [?|[= _ Hq]]; [by left|by destruct (Hm q)].
Qed.
Lemma aside_count i d : aside (add_count i d).
Proof. unfold add_count. repeat follow_step. apply follows_modify. intros s'. by apply aside_fields. Qed.
Lemma aside_pending_of rid : aside (pending_of rid).
Proof. unfold pending_of. repeat follow_step. Qed.
Lemma mute_put rid p : mute (put_pending rid p).
Proof. apply follows_modify. intros s. split; try done; [by rewrite app_nil_r|auto]. Qed.
Lemma mute_delete rid : mute (delete_pending rid).
Proof. apply follows_modify. intros s. split; try done; [by rewrite app_nil_r|auto]. Qed.

(** *** A prompt is sent *)
Context `{FR : !KVFrame, EF : !ExecutorFrame, SF : !SyncFrame}.

Definition None_held (x : Z) : Prop := False.

Lemma running_named L R s : Running L R s → Outside None_held s.
Proof. intros HR. eapply outside_books; [apply HR|apply HR|]. by intros x ?. Qed.

Lemma context_named rid s r s' : Outside None_held s → context_of rid s = (Ok r, s') → Batch.request_id r = rid.
Proof.
  intros [Hi _ _ _ _ _ _] E. apply decode_call_ok in E as (c & E & _). unfold TextBatchConstructor.request, bind, get in E. simpl in E.
  destruct (_ !! rid) as [r'|] eqn:Er; [|done]. injection E as -> _. by apply Hi.
Qed.

Lemma aside_send_prefill_connect endpoint s0 :
  aside (when (bool_decide (endpoint ∉ remote_endpoints s0))
    (send_request_nowait (Connect (te_metadata (transfer_engine s0))) endpoint;;
     modify (set_endpoints ({[ endpoint ]} ∪ remote_endpoints s0)))).
Proof.
  repeat follow_step; [by apply aside_send|]. apply follows_modify. intros s. by apply aside_fields.
Qed.

Lemma send_prefill_sends rid l i s s' :
  Outside None_held s → send_prefill_request rid l i s = (Ok tt, s') →
  Sends [rid] (pending_reqs s) s s' ∧ DecodeScheduler.requests s' = DecodeScheduler.requests s.
Proof.
  intros HO E. unfold send_prefill_request in E. apply bind_ok in E as (r & s1 & E1 & E).
  pose proof (context_named rid s r s1 HO E1) as Hr. pose proof (follows_run Aside _ _ _ _ (aside_context_of rid) E1) as [M1 R1].
  apply bind_ok in E as (e & s2 & E2 & E). apply (follows_run Aside) in E2 as [M2 R2]; [|repeat follow_step].
  unfold bind at 1, get in E. apply bind_ok in E as ([] & s3 & E3 & E).
  apply (follows_run Aside) in E3 as [M3 R3]; [|apply aside_send_prefill_connect].
  apply bind_ok in E as ([] & s4 & E4 & E). apply py_assert_ok in E4 as [_ <-].
  apply bind_ok in E as (marked & s4 & E4 & E). apply (follows_run Aside) in E4 as [M4 R4]; [|repeat follow_step].
  assert (Mute s s4) as HM by (do 3 (etransitivity; [eassumption|]); done).
  unfold send_request_nowait, modify in E. injection E as <-. split; [|simpl; congruence].
  apply (then_mute _ _ s s4); [done|]. split; try done; simpl.
  - apply HM.
  - unfold told. simpl. by rewrite omap_app.
  - intros e' m. rewrite elem_of_app, list_elem_of_singleton. intros [?|[= _ ->]]; [by left|by right].
Qed.

Lemma aside_try_reserve rid : aside (try_reserve rid).
Proof.
  apply follows_catch; [apply _| |].
  - apply follows_bind; [apply _|apply aside_quiet, quiet_on_kv_request|intros e].
    apply follows_bind; [apply _|apply aside_kv|intros _]. apply follows_ret, _.
  - intros e k Hk. destruct (decide _); [|done]. injection Hk as <-. apply follows_ret, _.
Qed.

Lemma reserve_one_sends now rid s b s' :
  Outside None_held s → reserve_one now rid s = (Ok b, s') →
  if b then Sends [rid] (pending_reqs s) s s' ∧ ∃ p, DecodeScheduler.requests s' = OrderedDict.set rid p (DecodeScheduler.requests s)
  else Sends [] (OrderedIds.to_front rid (OrderedIds.push rid (pending_reqs s))) s s' ∧
       DecodeScheduler.requests s' = DecodeScheduler.requests s.
Proof.
  intros HO E. unfold reserve_one in E. unfold bind at 1, get in E.
  apply bind_ok in E as (i & s1 & E1 & E). pose proof (follows_run Aside _ _ _ _ (aside_quiet _ (quiet_next_replica _)) E1) as [M1 R1].
  apply outside_ok with (D := None_held) in E1; [|apply outside_constructor, framed_next_replica|done].
  apply bind_ok in E as ([] & s2 & E2 & E). pose proof (follows_run Aside _ _ _ _ (aside_kv _) E2) as [M2 R2].
  apply outside_ok with (D := None_held) in E2; [|apply outside_claim; by intros []|done].
  apply bind_ok in E as (r & s3 & E3 & E). pose proof (follows_run Aside _ _ _ _ (aside_try_reserve rid) E3) as [M3 R3].
  apply outside_ok with (D := None_held) in E3; [|apply outside_try_reserve|done].
  assert (Mute s s3) as HM by (do 2 (etransitivity; [eassumption|]); done).
  assert (DecodeScheduler.requests s3 = DecodeScheduler.requests s) as HR by congruence. clear M1 M2 M3 R1 R2 R3 E1 E2. destruct r.
  - apply bind_ok in E as (dst & s4 & E4 & E). pose proof (follows_run Aside _ _ _ _ (aside_kv _) E4) as [M4 R4].
    apply outside_ok with (D := None_held) in E4; [|apply outside_kv; intros; apply blocks_frame|done].
    apply bind_ok in E as ([] & s5 & E5 & E). pose proof (follows_run Mute _ _ _ _ (mute_put rid _) E5) as M5.
    apply outside_ok with (D := None_held) in E5 as O5; [|by apply outside_fields|done]. injection E5 as <-.
    apply bind_ok in E as ([] & s6 & E6 & E). pose proof (follows_run Aside _ _ _ _ (aside_count i 1) E6) as [M6 R6].
    apply outside_ok with (D := None_held) in E6; [|apply outside_add_count|done].
    apply bind_ok in E as ([] & s7 & E7 & E). apply send_prefill_sends in E7 as [M7 R7]; [|done]. injection E as <- <-.
    assert (Mute s s6) as HM6 by (do 3 (etransitivity; [eassumption|]); done). split.
    + rewrite (sn_pending _ _ _ _ HM6) in M7. by eapply then_mute.
    + rewrite R7, R6. simpl. rewrite R4, HR. by eexists.
  - apply bind_ok in E as ([] & s4 & E4 & E). injection E4 as <-. apply bind_ok in E as ([] & s5 & E5 & E).
    pose proof (follows_run Aside _ _ _ _ (aside_kv _) E5) as [M5 R5]. injection E as <- <-. split; [|simpl in R5; congruence].
    rewrite <- (sn_pending _ _ _ _ HM). eapply mute_then; [|exact M5]. apply (then_mute _ _ s s3); [done|].
    split; try done; [by rewrite app_nil_r|auto].
Qed.

(** *** Each prompt is sent once *)

(** Of the requests [R] sent to the node, those whose prompt was sent and those that still
    wait ([items] between the queue and [pending_reqs]) are different ones. *)
Record Told (R : list Z) (items : list (Request B)) s : Prop := {
  td_nodup : NoDup (told s ++ map Batch.request_id (items ++ request_queue s) ++ pending_reqs s);
  td_sent x : x ∈ told s ++ map Batch.request_id (items ++ request_queue s) ++ pending_reqs s → x ∈ R;
  td_named e m : (e, Prefill m) ∈ sent s → Batch.request_id (pq_context m) = pq_id m
}.

(** What happens to the reservations meanwhile. *)
Record Forward (gone : Z → Prop) s s' : Prop := {
  fw_keys x : x ∈ keys s → x ∈ keys s' ∨ gone x;
  fw_told x : x ∈ told s' → x ∈ told s ∨ x ∈ keys s' ∨ gone x;
  fw_cancels x : x ∈ concat (cancel_queue s') → x ∈ concat (cancel_queue s);
  fw_config : config s' = config s
}.

Definition nothing (x : Z) : Prop := False.

Lemma forward_none gone s : Forward gone s s.
Proof. by split; auto. Qed.
Lemma forward_then gone s1 s2 s3 : Forward gone s1 s2 → Forward gone s2 s3 → Forward gone s1 s3.
Proof.
  intros [K1 T1 C1 F1] [K2 T2 C2 F2]. split; [| |auto|congruence].
  - intros x Hx. destruct (K1 x Hx); auto.
  - intros x Hx. destruct (T2 x Hx) as [Hx'|]; [|auto]. destruct (T1 x Hx') as [|[Hk|]]; [auto| |auto]. destruct (K2 x Hk); auto.
Qed.
Lemma forward_weaken (gone gone' : Z → Prop) s s' : (∀ x, gone x → gone' x) → Forward gone s s' → Forward gone' s s'.
Proof. intros Hg [K T C F']. split; [| |auto|done]; intros x Hx; [destruct (K x Hx)|destruct (T x Hx) as [|[|]]]; auto. Qed.

Lemma told_mute R items s s' : Mute s s' → Told R items s → Told R items s'.
Proof.
  intros [Eq Ep Et Hn _ _] [H1 H2 H3]. rewrite app_nil_r in Et. split; rewrite ?Eq, ?Ep, ?Et; try done.
  intros e m Hm. destruct (Hn e m Hm); [by eapply H3|done].
Qed.
Lemma mute_forward s s' : Mute s s' → keys s' = keys s → Forward nothing s s'.
Proof.
  intros [Eq Ep Et Hn Hc Ef] Hk. rewrite app_nil_r in Et. split; [by left; rewrite Hk|by left; rewrite <- Et|done|done].
Qed.
Lemma aside_forward s s' : Aside s s' → Forward nothing s s'.
Proof. intros [HM Er]. apply mute_forward; [done|]. by rewrite Er. Qed.

(** A handler that sends no prompt. *)
Definition Onward (gone : Z → Prop) (f : M DecodeScheduler.t unit) : Prop :=
  ∀ R items s s', f s = (Ok tt, s') → Told R items s → Told R items s' ∧ Forward gone s s'.

Lemma onward_aside f : aside f → Onward nothing f.
Proof.
  intros Hf R items s s' E HT. pose proof (follows_run Aside _ _ _ _ Hf E) as HA. split; [|by apply aside_forward].
  eapply told_mute; [|done]. apply HA.
Qed.
Lemma onward_bind gone f g : Onward gone f → Onward gone g → Onward gone (f;; g).
Proof.
  intros Hf Hg R items s s' E HT. apply bind_ok in E as ([] & s1 & E1 & E). destruct (Hf R items s s1 E1 HT) as [HT1 F1].
  destruct (Hg R items s1 s' E HT1) as [HT' F2]. split; [done|by eapply forward_then].
Qed.
Lemma onward_for_each {Y} gone (l : list Y) f : (∀ y, y ∈ l → Onward gone (f y)) → Onward gone (for_each l f).
Proof.
  induction l as [|y l IH]; intros Hf.
  - intros R items s s' E HT. injection E as <-. split; [done|apply forward_none].
  - apply onward_bind; [apply Hf; by left|]. apply IH. intros y' Hy. apply Hf. by right.
Qed.

(** *** The handlers *)

Lemma set_same_keys rid p s : is_Some (OrderedDict.lookup rid (DecodeScheduler.requests s)) →
  OrderedDict.keys (OrderedDict.set rid p (DecodeScheduler.requests s)) = keys s.
Proof. intros [q Hq]. apply OrderedDict.keys_set_old. apply OrderedDict.lookup_keys. by exists q. Qed.

Lemma onward_prefill_response now m : Onward nothing (handle_prefill_response now m).
Proof.
  intros R items s s' E HT. unfold handle_prefill_response in E. unfold bind at 1, get in E.
  destruct (OrderedDict.lookup (pr_id m) (DecodeScheduler.requests s)) as [p|] eqn:Ep.
  2: { injection E as <-. split; [done|apply forward_none]. }
  apply bind_ok in E as ([] & s1 & E1 & E). apply (follows_run Aside) in E1; [|apply aside_context].
  apply bind_ok in E as (r & s2 & E2 & E). apply (follows_run Aside) in E2; [|apply aside_context_of].
  apply bind_ok in E as ([] & s3 & E3 & E). apply (follows_run Aside) in E3.
  2: { apply follows_when; [apply _|]. destruct (pr_draft_tokens m); [apply aside_context|apply follows_raise, _]. }
  apply bind_ok in E as (o & s4 & E4 & E). apply (follows_run Aside) in E4; [|apply aside_context].
  apply bind_ok in E as ([] & s5 & E5 & E). apply (follows_run Aside) in E5; [|apply aside_response].
  assert (Aside s s5) as [HM Er] by (do 4 (etransitivity; [eassumption|]); done).
  pose proof (follows_run Mute _ _ _ _ (mute_put _ _) E) as HM'. unfold put_pending, modify in E. injection E as <-.
  assert (Mute s (DecodeScheduler.set_requests (OrderedDict.set (pr_id m)
    (pending_decode_request _ _ _ _ (replica_idx p) TRANSFERRING now (Some (pr_transfer_metadata m)) (cancelled p))
    (DecodeScheduler.requests s5)) s5)) as HM2 by (by etransitivity).
  split; [by eapply told_mute|]. apply mute_forward; [done|]. simpl. rewrite set_same_keys, Er; [done|]. rewrite Er. by exists p.
Qed.

Lemma onward_receive now : Onward nothing (receive_replies now).
Proof.
  intros R items s s' E HT. unfold receive_replies in E. unfold bind at 1, get in E. eapply onward_for_each; [|exact E|exact HT].
  intros m _. apply onward_bind.
  - apply onward_aside, follows_modify. intros s1. by apply aside_fields.
  - destruct m as [r|e]; [apply onward_prefill_response|apply onward_aside, aside_engine].
Qed.

Lemma no_evictions now s s' :
  decode_request_ttl_s (config s) = None → _evict_expired_requests now s = (Ok tt, s') → s' = s.
Proof. intros Ht E. unfold _evict_expired_requests in E. unfold bind, get in E. rewrite Ht in E. by injection E as <-. Qed.

(** A reservation ends. *)
Lemma delete_keys rid x s : x ∈ keys s → x ≠ rid → x ∈ OrderedDict.keys (OrderedDict.delete rid (DecodeScheduler.requests s)).
Proof.
  intros Hx Hne. apply OrderedDict.lookup_keys in Hx as [p Hp]. apply OrderedDict.lookup_keys. exists p.
  by rewrite OrderedDict.lookup_delete_ne.
Qed.

Lemma deleted_forward rid s s1 s2 s' :
  Aside s s1 → delete_pending rid s1 = (Ok tt, s2) → Aside s2 s' → Mute s s' ∧ Forward (λ x, x = rid) s s'.
Proof.
  intros [M1 R1] E [M2 R2]. pose proof (follows_run Mute _ _ _ _ (mute_delete rid) E) as Md. injection E as <-.
  assert (Mute s s') as HM by (etransitivity; [exact M1|]; etransitivity; [exact Md|exact M2]).
  split; [done|]. destruct HM as [Eq Ep Et _ Hc Ef]. rewrite app_nil_r in Et. split; [|rewrite Et; by left|done|done].
  intros x Hx. rewrite R2. destruct (decide (x = rid)) as [->|Hne]; [by right|left]. simpl. rewrite R1. by apply delete_keys.
Qed.

Lemma onward_cancelled rid : Onward (λ x, x = rid) (handle_cancelled rid).
Proof.
  intros R items s s' E HT. unfold handle_cancelled in E. unfold bind at 1, get in E.
  destruct (contains rid (batch_constructor s)).
  { apply (follows_run Aside) in E; [|apply follows_bind; [apply _|apply aside_constructor, release_keeps_settings|intros _; apply aside_response]].
    split; [by eapply told_mute; [apply E|]|]. eapply forward_weaken; [|by apply aside_forward]. by intros x []. }
  destruct (OrderedDict.lookup rid (DecodeScheduler.requests s)) as [p|] eqn:Ep.
  2: { injection E as <-. split; [done|apply forward_none]. }
  apply bind_ok in E as (data & s1 & E1 & E). apply (follows_run Aside) in E1; [|apply aside_context_of].
  apply bind_ok in E as ([] & s2 & E2 & E).
  assert (Aside s2 s') as H2.
  { eapply (follows_run Aside _ _ _ _ _ E). Unshelve. apply follows_bind; [apply _|repeat follow_step|intros e].
    apply follows_bind; [apply _|by apply aside_send|intros _]. apply aside_response. }
  assert (Mute s s' ∧ Forward (λ x, x = rid) s s') as [HM HF]; [|split; [by eapply told_mute|done]].
  destruct (decide _).
  - pose proof (follows_run Mute _ _ _ _ (mute_put _ _) E2) as M2. destruct E1 as [M1 R1], H2 as [M3 R3].
    assert (Mute s s') as HM by (etransitivity; [exact M1|]; etransitivity; [exact M2|exact M3]). split; [done|].
    eapply forward_weaken; [|apply mute_forward; [done|]]; [by intros x []|]. injection E2 as <-. rewrite R3. simpl.
    rewrite set_same_keys, R1; [done|]. rewrite R1. by exists p.
  - apply bind_ok in E2 as ([] & s3 & E3 & E2). eapply deleted_forward; [exact E1|exact E3|]. etransitivity; [|exact H2].
    eapply (follows_run Aside _ _ _ _ _ E2). Unshelve. apply follows_bind; [apply _|apply aside_count|intros _; apply aside_kv].
Qed.

Lemma handle_cancelled_forward R items s s' :
  _handle_cancelled_requests s = (Ok tt, s') → Told R items s →
  Told R items s' ∧ Forward (λ x, x ∈ concat (cancel_queue s)) s s'.
Proof.
  intros E HT. unfold _handle_cancelled_requests in E. unfold bind at 1, get in E. unfold get_cancelled_reqs in E.
  destruct (drain_queue None (cancel_queue s)) as [l rest] eqn:Ed. apply drain_queue_app in Ed. simpl in E.
  unfold bind at 1, modify in E. set (s1 := set_cancel_queue rest s) in E.
  assert (∀ x, x ∈ concat l ∨ x ∈ concat rest → x ∈ concat (cancel_queue s)) as Hin.
  { intros x. by rewrite Ed, concat_app, elem_of_app. }
  assert (Aside s s1) as H1 by (apply aside_fields; try done; intros x Hx; apply Hin; by right).
  destruct (onward_for_each (λ x, x ∈ concat (cancel_queue s)) (concat l) handle_cancelled) with R items s1 s' as [HT' HF].
  - intros rid Hr R' items' s2 s2' E2 HT2. destruct (onward_cancelled rid R' items' s2 s2' E2 HT2) as [HT2' HF2].
    split; [done|]. eapply forward_weaken; [|exact HF2]. intros x ->. apply Hin. by left.
  - exact E.
  - eapply told_mute; [apply H1|done].
  - split; [done|]. eapply forward_then; [|exact HF]. eapply forward_weaken; [|by apply aside_forward]. by intros x [].
Qed.

(** *** Transfers land *)

(** The transfer engine says that the transfer of a request is complete. *)
Definition complete (rid : Z) s : bool :=
  match OrderedDict.lookup rid (DecodeScheduler.requests s) with
  | Some p => match transfer p with
              | Some x => bool_decide ((te_is_complete x (transfer_engine s)).1 = Ok true)
              | None => false
              end
  | None => false
  end.

(** Those of a sweep, in which the engine is asked one request after the other. *)
Fixpoint landings (now : float) (l : list Z) s : list Z :=
  match l with
  | [] => []
  | rid :: l => (if complete rid s then [rid] else []) ++ landings now l (check_transfer now rid s).2
  end.

(** Those of an iteration. *)
Definition landed_in (now : float) s : list Z :=
  match (receive_replies now;; _evict_expired_requests now;; reserve_memory_and_send_to_prefill now;;
         _handle_cancelled_requests) s with
  | (Ok _, s) => landings now (OrderedDict.keys (filter (λ e, phase e.2 = TRANSFERRING) (DecodeScheduler.requests s))) s
  | (Raise _, _) => []
  end.

Lemma check_transfer_forward now rid R items s s' :
  check_transfer now rid s = (Ok tt, s') → Told R items s →
  Told R items s' ∧ Forward (λ x, x = rid ∧ complete rid s = true) s s'.
Proof.
  intros E HT. unfold check_transfer in E. apply bind_ok in E as (p & s0 & E0 & E). apply pending_of_ok in E0 as [Hp ->].
  apply bind_ok in E as ([] & s0 & E0 & E). apply py_assert_ok in E0 as [_ <-].
  destruct (transfer p) as [x|] eqn:Ex; [|injection E as <-; split; [done|apply forward_none]].
  apply bind_ok in E as (b & s1 & E1 & E). pose proof E1 as H1. apply (follows_run Aside) in H1; [|apply aside_engine].
  assert (complete rid s = b) as Hb.
  { unfold complete. rewrite Hp, Ex. unfold on_engine, zoom in E1. destruct (te_is_complete x _) as [o e].
    injection E1 as -> _. destruct b; [by rewrite bool_decide_eq_true|by rewrite bool_decide_eq_false]. }
  destruct b; simpl in E.
  2: { injection E as <-. split; [eapply told_mute; [apply H1|done]|]. eapply forward_weaken; [|by apply aside_forward]. by intros y []. }
  apply bind_ok in E as ([] & s2 & E2 & E).
  assert (Aside s2 s') as H2.
  { eapply (follows_run Aside _ _ _ _ _ E). Unshelve. apply follows_bind; [apply _|apply aside_count|intros _].
    apply follows_bind; [apply _|apply aside_engine|intros _]. destruct (cancelled p); [apply aside_kv|].
    apply follows_bind; [apply _|apply aside_context_of|intros r]. apply aside_constructor, enqueue_keeps_settings. }
  destruct (deleted_forward rid s s1 s2 s' H1 E2 H2) as [HM HF]. split; [by eapply told_mute|].
  eapply forward_weaken; [|exact HF]. by intros y ->.
Qed.

Lemma sweep_forward now l R items s s' :
  for_each l (check_transfer now) s = (Ok tt, s') → Told R items s →
  Told R items s' ∧ Forward (λ x, x ∈ landings now l s) s s'.
Proof.
  revert s. induction l as [|rid l IH]; intros s E HT; simpl in E.
  - injection E as <-. split; [done|apply forward_none].
  - apply bind_ok in E as ([] & s1 & E1 & E). destruct (check_transfer_forward now rid R items s s1 E1 HT) as [HT1 HF1].
    destruct (IH s1 E HT1) as [HT' HF']. split; [done|]. eapply forward_then; eapply forward_weaken; [|exact HF1| |exact HF']; simpl.
    + intros x [-> ->]. by left.
    + intros x Hx. rewrite E1. rewrite elem_of_app. by right.
Qed.

(** *** Prompts go out *)

Lemma take_in_told items R s s' :
  for_each items take_in s = (Ok tt, s') → Told R items s → Told R [] s' ∧ Forward nothing s s'.
Proof.
  revert s. induction items as [|r items IH]; intros s E HT; simpl in E.
  - injection E as <-. split; [done|apply forward_none].
  - apply bind_ok in E as ([] & s1 & E1 & E). unfold take_in in E1. apply bind_ok in E1 as ([] & s2 & E2 & E1).
    apply (follows_run Aside) in E2; [|apply aside_quiet, quiet_put_request]. unfold modify in E1. injection E1 as <-.
    pose proof (told_mute _ _ _ _ (proj1 E2) HT) as [H1 H2 H3]. apply aside_forward in E2.
    destruct (IH _ E) as [HT' HF'].
    + assert (told s2 ++ map Batch.request_id (items ++ request_queue s2) ++ OrderedIds.push (Batch.request_id r) (pending_reqs s2)
        ≡ₚ told s2 ++ map Batch.request_id ((r :: items) ++ request_queue s2) ++ pending_reqs s2) as HP.
      { rewrite OrderedIds.push_new.
        - simpl. f_equiv. rewrite app_assoc. by rewrite <- Permutation_cons_append.
        - intros Hr. apply NoDup_app in H1 as (_ & _ & H1). apply NoDup_cons in H1 as [H1 _]. apply H1.
          rewrite elem_of_app. by right. }
      split; simpl; [change (NoDup (told s2 ++ map Batch.request_id (items ++ request_queue s2) ++
        OrderedIds.push (Batch.request_id r) (pending_reqs s2))); by rewrite HP| |exact H3].
      intros x Hx. apply H2. by rewrite <- HP.
    + split; [done|]. eapply forward_then; [exact E2|]. eapply forward_then; [|exact HF']. by split; auto.
Qed.

(** A prompt goes out, or its request waits on. *)
Lemma told_sends R rid rest new pend s s' :
  pending_reqs s = rid :: rest → Sends new pend (set_pending_reqs rest s) s' → new ++ pend ≡ₚ rid :: rest →
  Told R [] s → Told R [] s'.
Proof.
  intros Ep [Eq Ep' Et Hn _ _] HP [H1 H2 H3]. change (told s' = told s ++ new) in Et. simpl in *.
  assert (told s' ++ map Batch.request_id (request_queue s') ++ pending_reqs s' ≡ₚ
    told s ++ map Batch.request_id (request_queue s) ++ pending_reqs s) as HP'.
  { rewrite Et, Eq, Ep, Ep', <- HP, <- app_assoc. f_equiv. apply Permutation_app_swap_app. }
  split; simpl; [by rewrite HP'|intros x; rewrite HP'; apply H2|]. intros e m Hm. destruct (Hn e m Hm); [by eapply H3|done].
Qed.

Lemma front_perm rid rest : rid ∉ rest → OrderedIds.to_front rid (OrderedIds.push rid rest) ≡ₚ rid :: rest.
Proof.
  intros Hr. rewrite OrderedIds.push_to_front. unfold OrderedIds.to_front. f_equiv. unfold OrderedIds.remove.
  assert (∀ l : list Z, rid ∉ l → filter (λ x, x ≠ rid) l = l) as Hf; [|by rewrite Hf].
  induction l as [|x l IH]; [done|]. rewrite not_elem_of_cons. intros [Hne Hl]. rewrite filter_cons_True by congruence. f_equal. by apply IH.
Qed.

Lemma set_keys_in {V} (d : list (Z * V)) k v x : x ∈ OrderedDict.keys d ∨ x = k → x ∈ OrderedDict.keys (OrderedDict.set k v d).
Proof.
  destruct (decide (k ∈ OrderedDict.keys d)) as [Hk|Hk].
  - rewrite OrderedDict.keys_set_old by done. intros [?| ->]; done.
  - rewrite OrderedDict.set_new by done. unfold OrderedDict.keys. rewrite map_app, elem_of_app. intros [?| ->]; [by left|right]. by left.
Qed.

Lemma reserve_one_told now rid rest L R s b s' :
  Running L R s → pending_reqs s = rid :: rest → reserve_one now rid (set_pending_reqs rest s) = (Ok b, s') →
  Told R [] s → Told R [] s' ∧ Forward nothing s s'.
Proof.
  intros HR Ep E HT. pose proof (reserve_one_sends now rid (set_pending_reqs rest s) b s') as HS.
  assert (rid ∉ rest) as Hr.
  { destruct HT as [Hnd _ _]. rewrite Ep in Hnd. do 2 apply NoDup_app in Hnd as (_ & _ & Hnd). by apply NoDup_cons in Hnd as [? _]. }
  specialize (HS (running_named L R s HR) E). destruct b.
  - destruct HS as [HS [p Er]]. pose proof (told_sends R rid rest [rid] rest s s' Ep HS (reflexivity _) HT) as HT'.
    split; [done|]. destruct HS as [_ _ Et _ Hc Ef]. change (told s' = told s ++ [rid]) in Et. simpl in Er.
    assert (∀ x, x ∈ keys s ∨ x = rid → x ∈ keys s') as Hk.
    { intros x Hx. rewrite Er. by apply set_keys_in. }
    split; [intros x Hx; left; apply Hk; by left| |exact Hc|exact Ef].
    intros x. rewrite Et, elem_of_app, list_elem_of_singleton. intros [Hx| ->]; [by left|]. right. left. apply Hk. by right.
  - destruct HS as [HS Er]. simpl in HS. split; [eapply told_sends; [exact Ep|exact HS|by apply front_perm|done]|].
    destruct HS as [_ _ Et _ Hc Ef]. rewrite app_nil_r in Et. split; [|rewrite Et; by left|exact Hc|exact Ef].
    intros x Hx. left. by rewrite Er.
Qed.

Lemma room_aside l : aside (any_room l).
Proof.
  induction l as [|i l IH]; [apply follows_ret, _|]. apply follows_bind; [apply _|apply aside_kv|intros n].
  destruct (f_ltb _ _); [apply follows_ret, _|done].
Qed.

Lemma reserve_loop_told fuel now L R s s' :
  Running L R s → reserve_loop fuel now s = (Ok tt, s') → Told R [] s → Told R [] s' ∧ Forward nothing s s'.
Proof.
  revert s. induction fuel as [|fuel IH]; intros s HR E HT; simpl in E; unfold bind at 1, get in E;
    (destruct (pending_reqs s) as [|rid rest] eqn:Ep; [injection E as <-; split; [done|apply forward_none]|]);
    (destruct (negb _); [injection E as <-; split; [done|apply forward_none]|]); apply bind_ok in E as (room & s1 & E1 & E);
    pose proof (follows_run Aside _ _ _ _ (room_aside _) E1) as A1;
    pose proof (told_mute R [] s s1 (proj1 A1) HT) as HT1; pose proof (aside_forward s s1 A1) as F1;
    (apply (running_still _ L R) in E1; [|apply steady_room|intros D; apply outside_room|done]);
    (destruct (negb room); [by injection E as <-|]); [done|].
  unfold bind at 1, modify in E. apply bind_ok in E as (b & s2 & E2 & E).
  assert (pending_reqs s1 = rid :: rest) as Ep1 by (rewrite <- Ep; apply A1).
  destruct (reserve_one_told now rid rest L R s1 b s2 E1 Ep1 E2 HT1) as [HT2 F2].
  apply (reserve_books now rid rest L R s1) in E2 as [HR2 _]; [|done|done].
  assert (Forward nothing s s2) as F12 by (by eapply forward_then). destruct b; [|by injection E as <-].
  destruct (IH s2 HR2 E HT2) as [HT' F']. split; [done|by eapply forward_then].
Qed.

Lemma reserve_told now L R s s' :
  Running L R s → reserve_memory_and_send_to_prefill now s = (Ok tt, s') → Told R [] s → Told R [] s' ∧ Forward nothing s s'.
Proof.
  intros HR E HT. unfold reserve_memory_and_send_to_prefill in E. unfold bind at 1, get in E.
  destruct (drain_queue _ _) as [items rest] eqn:Ed. apply drain_queue_app in Ed. unfold bind at 1, modify in E.
  set (s0 := set_request_queue rest s) in E. apply bind_ok in E as ([] & s1 & E1 & E). unfold bind at 1, get in E.
  assert (Told R items s0) as HT0 by (destruct HT; split; simpl; rewrite <- ?Ed; done).
  destruct (take_in_told items R s0 s1 E1 HT0) as [HT1 F1].
  pose proof (take_in_rest _ _ _ E1) as (Hq & _ & _). simpl in Hq.
  apply (take_in_books items (request_queue s1) L R) in E1.
  2: { eapply running_other; [exact HR|done| |done..]. simpl. by rewrite Hq. }
  destruct (reserve_loop_told (length (pending_reqs s1)) now L R s1 s') as [HT' F']; [by destruct s1|done|done|]. split; [done|].
  apply (forward_then nothing s s0); [by split; auto|]. by apply (forward_then nothing s0 s1).
Qed.

(** *** An iteration *)

Lemma aside_schedule inputs : aside (schedule inputs).
Proof.
  unfold schedule. apply follows_bind; [apply _|repeat follow_step|intros _].
  apply follows_bind; [apply _|apply aside_quiet; intros c; apply run_pipeline_same|intros rs].
  apply follows_bind; [apply _|repeat follow_step|intros s1].
  apply follows_bind; [apply _|apply aside_constructor, advance_keeps_settings|intros _].
  apply follows_bind; [apply _| |intros n].
  - apply follows_for_fold; [apply _|]. intros n [rid o]. destruct (TextGenerationOutput.is_done o); [|apply follows_ret, _].
    apply follows_bind; [apply _|apply aside_constructor, release_keeps_settings|intros _; apply follows_ret, _].
  - apply follows_bind; [apply _|apply follows_when; [apply _|apply aside_response]|intros _; apply follows_ret, _].
Qed.

Lemma aside_stall now inputs : aside (check_stall now inputs).
Proof.
  unfold check_stall. apply follows_bind; [apply _|repeat follow_step|intros s]. destruct (_ || _).
  - apply follows_modify. intros s1. by apply aside_fields.
  - destruct (decode_stall_timeout_s _); repeat follow_step.
Qed.

Lemma mute_evict rid : mute (evict rid).
Proof.
  unfold evict. apply follows_bind; [apply _|apply aside_mute, aside_pending_of|intros p].
  apply follows_bind; [apply _|apply mute_delete|intros _]. apply follows_bind; [apply _|apply aside_mute, aside_count|intros _].
  apply follows_bind; [apply _| |intros _].
  { apply follows_when; [apply _|]. apply follows_bind; [apply _|repeat follow_step|intros _]. destruct (transfer p); [|apply follows_ret, _].
    apply follows_catch; [apply _|apply aside_mute, aside_engine|]. intros e k Hk. destruct (decide _); [|done]. injection Hk as <-.
    apply follows_ret, _. }
  apply follows_bind; [apply _|apply aside_mute, aside_kv|intros _]. apply follows_when; [apply _|].
  apply follows_bind; [apply _| |intros _; apply aside_mute, aside_response]. unfold _send_cancel_to_prefill.
  apply follows_bind; [apply _|apply aside_mute, aside_context_of|intros r]. destruct (target_endpoint r); [|apply follows_ret, _].
  by apply aside_mute, aside_send.
Qed.

Lemma evictions_told now R items s s' :
  _evict_expired_requests now s = (Ok tt, s') → Told R items s →
  Told R items s' ∧ Forward (λ _, decode_request_ttl_s (config s) ≠ None) s s'.
Proof.
  intros E HT. assert (mute (_evict_expired_requests now)) as HM.
  { unfold _evict_expired_requests. apply follows_bind; [apply _|repeat follow_step|intros s1].
    destruct (decode_request_ttl_s _); [|apply follows_ret, _]. apply follows_for_each; [apply _|]. intros rid. apply mute_evict. }
  pose proof (follows_run Mute _ _ _ _ HM E) as H. split; [by eapply told_mute|].
  destruct (decide (decode_request_ttl_s (config s) = None)) as [Ht|Ht].
  - apply no_evictions in E; [subst s'; apply forward_none|done].
  - destruct H as [_ _ Et _ Hc Ef]. rewrite app_nil_r in Et. split; [by right|rewrite Et; by left|done|done].
Qed.

(** What an iteration forgets of the requests asked for: *)
Definition Forgotten (now : float) s (x : Z) : Prop :=
  decode_request_ttl_s (config s) ≠ None ∨ x ∈ concat (cancel_queue s) ∨ x ∈ landed_in now s.

Lemma iteration_told now L R s p s' :
  Running L R s → run_iteration now s = (Ok p, s') → Told R [] s → Told R [] s' ∧ Forward (Forgotten now s) s s'.
Proof.
  intros HR E HT. unfold run_iteration in E.
  apply bind_ok in E as ([] & s1 & E1 & E). destruct (onward_receive now R [] s s1 E1 HT) as [HT1 F1].
  apply bind_ok in E as ([] & s2 & E2 & E). destruct (evictions_told now R [] s1 s2 E2 HT1) as [HT2 F2].
  apply bind_ok in E as ([] & s3 & E3 & E).
  destruct (receive_moves now L R s s1 HR E1) as [L1 HR1]. destruct (evictions_moves now L1 R s1 s2 HR1 E2) as [L2 HR2].
  destruct (reserve_told now L2 R s2 s3 HR2 E3 HT2) as [HT3 F3].
  apply bind_ok in E as ([] & s4 & E4 & E). destruct (handle_cancelled_forward R [] s3 s4 E4 HT3) as [HT4 F4].
  apply bind_ok in E as ([] & s5 & E5 & E). unfold check_for_completed_transfers in E5. unfold bind at 1, get in E5.
  destruct (sweep_forward now _ R [] s4 s5 E5 HT4) as [HT5 F5].
  assert (landed_in now s = landings now
    (OrderedDict.keys (filter (λ e, phase e.2 = TRANSFERRING) (DecodeScheduler.requests s4))) s4) as Hl.
  { unfold landed_in, bind. by rewrite E1, E2, E3, E4. }
  rewrite <- Hl in F5. clear Hl.
  destruct (reserve_moves now L2 R s2 s3 HR2 E3) as [L3 HR3]. destruct (cancellations_move L3 R s3 s4 HR3 E4) as [L4 HR4].
  destruct (transfers_move now L4 R s4 s5 HR4 E5) as [L5 HR5].
  assert (Aside s5 s') as A5.
  { apply bind_ok in E as (inputs & s6 & E6 & E). assert (Aside s5 s6) as A6.
    { apply decode_call_ok in E6 as (c & E6 & ->). apply (construct_batch_book now L5) in E6 as (ces & _ & Hst & _);
        [| |apply book_inflight, HR5|apply HR5].
      - apply aside_fields; try done. unfold config, TextBatchConstructor.config. simpl. by rewrite Hst.
      - pose proof (db_places _ _ _ _ (rn_books _ _ _ HR5)) as Hnd. unfold places in Hnd. by do 3 apply NoDup_app in Hnd as (_ & _ & Hnd). }
    apply bind_ok in E as ([] & s7 & E7 & E). apply (follows_run Aside) in E7; [|apply aside_stall].
    unfold bind at 1, get in E. assert (Aside s5 s7) as A7 by (by etransitivity). destruct (negb _).
    - by injection E as _ <-.
    - apply bind_ok in E as (n & s8 & E8 & E). injection E as _ <-. apply (follows_run Aside) in E8; [|apply aside_schedule].
      by etransitivity. }
  split; [eapply told_mute; [apply A5|done]|].
  assert (config s1 = config s ∧ ∀ x, x ∈ concat (cancel_queue s3) → x ∈ concat (cancel_queue s)) as [Hf Hc].
  { split; [apply F1|]. intros x Hx. apply F1, F2, F3, Hx. }
  apply (forward_then _ s s1); [eapply forward_weaken; [|exact F1]; by intros x []|].
  apply (forward_then _ s1 s2); [eapply forward_weaken; [|exact F2]; intros x Hx; left; by rewrite <- Hf|].
  apply (forward_then _ s2 s3); [eapply forward_weaken; [|exact F3]; by intros x []|].
  apply (forward_then _ s3 s4); [eapply forward_weaken; [|exact F4]; intros x Hx; right; left; by apply Hc|].
  apply (forward_then _ s4 s5); [eapply forward_weaken; [|exact F5]; intros x Hx; right; by right|].
  eapply forward_weaken; [|by apply aside_forward]. by intros x [].
Qed.

(** *** Sockets keep the order *)

(** Messages are only added after those sent before. *)
Definition Longer s s' : Prop := sent s `prefix_of` sent s'.
#[export] Instance longer_preorder : PreOrder Longer.
Proof. split; [intros s; unfold Longer; reflexivity|]. intros s1 s2 s3. unfold Longer. apply transitivity. Qed.

Abbreviation longer := (follows Longer).

Lemma longer_same f : (∀ s, sent (f s) = sent s) → longer (modify f).
Proof. intros Hf. apply follows_modify. intros s. unfold Longer. by rewrite Hf. Qed.
Lemma longer_send m dest : longer (send_request_nowait m dest).
Proof. apply follows_modify. intros s. by eexists. Qed.
Lemma longer_constructor {Y} (f : M TextBatchConstructor.t Y) : longer (on_constructor f).
Proof. intros s. unfold on_constructor. destruct (f _). unfold Longer. reflexivity. Qed.
Lemma longer_engine {Y} (f : M engine Y) : longer (on_engine f).
Proof. intros s. unfold on_engine, zoom. destruct (f _). unfold Longer. reflexivity. Qed.

Ltac longer_step :=
  first [ follow_step | apply longer_constructor | apply longer_engine | apply longer_send | (apply longer_same; intros; done) ].

Lemma longer_response m : longer (put_response m).
Proof. by apply longer_same. Qed.

Lemma longer_count i d : longer (add_count i d).
Proof. unfold add_count. repeat longer_step. Qed.

Lemma longer_reply now m : longer (handle_reply now m).
Proof.
  destruct m as [m|e]; [|apply longer_engine]. simpl. unfold handle_prefill_response, on_context, context_of, put_response, put_pending.
  repeat longer_step.
Qed.

Lemma longer_reserve_one now rid : longer (reserve_one now rid).
Proof.
  unfold reserve_one. apply follows_bind; [apply _|repeat longer_step|intros s]. apply follows_bind; [apply _|apply longer_constructor|intros i].
  apply follows_bind; [apply _|apply longer_constructor|intros _]. apply follows_bind; [apply _| |intros b].
  - apply follows_catch; [apply _| |].
    + apply follows_bind; [apply _|apply longer_constructor|intros e]. apply follows_bind; [apply _|apply longer_constructor|intros _].
      apply follows_ret, _.
    + intros e k Hk. destruct (decide _); [|done]. injection Hk as <-. apply follows_ret, _.
  - unfold put_pending, add_count, send_prefill_request, context_of, on_kv. repeat longer_step.
Qed.

Lemma longer_room l : longer (any_room l).
Proof. induction l as [|i l IH]; simpl; unfold on_kv; repeat first [longer_step | exact IH]. Qed.

Lemma longer_reserve_loop fuel now : longer (reserve_loop fuel now).
Proof.
  induction fuel as [|fuel IH]; simpl; repeat first [longer_step | apply longer_room | apply longer_reserve_one | exact IH].
Qed.

Lemma longer_reserve now : longer (reserve_memory_and_send_to_prefill now).
Proof.
  unfold reserve_memory_and_send_to_prefill. apply follows_bind; [apply _|repeat longer_step|intros s].
  destruct (drain_queue _ _) as [l rest]. unfold take_in. repeat first [longer_step | apply longer_reserve_loop].
Qed.

Lemma longer_cancelled rid : longer (handle_cancelled rid).
Proof. unfold handle_cancelled, put_response, context_of, put_pending, delete_pending, add_count, on_kv. repeat longer_step. Qed.

Lemma longer_evict rid : longer (evict rid).
Proof.
  unfold evict, pending_of, delete_pending, add_count, on_kv, _send_cancel_to_prefill, context_of, put_response.
  repeat first [longer_step | apply follows_catch; [apply _|apply longer_engine|]].
  intros e k Hk. destruct (decide _); [|done]. injection Hk as <-. apply follows_ret, _.
Qed.

Lemma longer_transfer now rid : longer (check_transfer now rid).
Proof. unfold check_transfer, pending_of, delete_pending, add_count, on_kv, context_of. repeat longer_step. Qed.

Lemma longer_iteration now : longer (run_iteration now).
Proof.
  unfold run_iteration, receive_replies, _evict_expired_requests, _handle_cancelled_requests, check_for_completed_transfers, check_stall, schedule.
  repeat first [ longer_step | apply longer_reply | apply longer_evict | apply longer_reserve | apply longer_cancelled
               | apply longer_transfer | apply follows_for_fold; [apply _|intros ? [? ?]] | apply longer_response ].
Qed.

End Asking.
End Asking.

(** ** The two nodes *)
Module Nodes.
Import ReplicaRequests TextBatchConstructor BatchFacts Conservation DecodeFacts PrefillFacts Asking.

Record t {B : Backend} `{KV : !KVCache, P : Pipeline, F : Floats, G : !GrammarBuilder, A : AdapterStore, TE : !TransferEngine} := mk {
  decode : DecodeScheduler.t;
  prefill : PrefillScheduler.t;
  (** how many of the messages of each the network has taken *)
  requests_read : nat;
  replies_read : nat
}.

Section Nodes.
Context {B : Backend} `{KV : !KVCache, P : Pipeline, F : Floats, G : !GrammarBuilder, A : AdapterStore,
  TE : !TransferEngine, X : !Executor, N : NumPy, FR : !KVFrame, EF : !ExecutorFrame, SF : !SyncFrame}.
(** The endpoint of the prefill node, and the identity its socket gives the decode node. *)
Context (address identity : string).
Implicit Types s : t.

Definition set_decode (d : DecodeScheduler.t) s : t := mk _ _ _ _ _ _ _ d (prefill s) (requests_read s) (replies_read s).
Definition set_prefill (p : PrefillScheduler.t) s : t := mk _ _ _ _ _ _ _ (decode s) p (requests_read s) (replies_read s).

(** The network takes the next request of the decode node: to this prefill node, or to
    another one. *)
Definition deliver_request '((dest, m) : string * RequestType_) s : t :=
  mk _ _ _ _ _ _ _ (decode s)
    (if decide (dest = address)
     then PrefillScheduler.set_inbox (PrefillScheduler.inbox (prefill s) ++ [(m, identity)]) (prefill s) else prefill s)
    (S (requests_read s)) (replies_read s).

(** It takes the next reply. *)
Definition deliver_reply '((m, dest) : ReplyType * string) s : t :=
  mk _ _ _ _ _ _ _
    (if decide (dest = identity)
     then DecodeScheduler.set_inbox (DecodeScheduler.inbox (decode s) ++ [m]) (decode s) else decode s)
    (prefill s) (requests_read s) (S (replies_read s)).

(** The runs of the two nodes: the requests [R] of the clients, with new ids, the
    cancellations [C], iterations in any order, the network, and what the caches, the
    pipelines and the transfer engines do in between. The decode node was told that the
    transfers of [W] are complete. *)
Inductive Paired : list Z → list Z → list Z → t → Prop :=
| paired_start c1 tg1 now k1 p1 l1 g1 e1 d c2 tg2 k2 p2 l2 g2 e2 p :
    check_config c1 = Ok tt → 0 ≤ data_parallel_degree c1 → DecodeScheduler.init c1 tg1 now k1 p1 l1 g1 e1 = Ok d →
    check_config c2 = Ok tt → 0 ≤ data_parallel_degree c2 → PrefillScheduler.init c2 tg2 k2 p2 l2 g2 e2 = Ok p →
    Paired [] [] [] (mk _ _ _ _ _ _ _ d p 0 0)
| paired_request R C W s r :
    Paired R C W s → Batch.request_id r ∉ R →
    Paired (Batch.request_id r :: R) C W
      (set_decode (DecodeScheduler.set_request_queue (DecodeScheduler.request_queue (decode s) ++ [r]) (decode s)) s)
| paired_cancel R C W s rids :
    Paired R C W s →
    Paired R (rids ++ C) W
      (set_decode (DecodeScheduler.set_cancel_queue (DecodeScheduler.cancel_queue (decode s) ++ [rids]) (decode s)) s)
| paired_decode R C W s now res d :
    Paired R C W s → DecodeScheduler.run_iteration now (decode s) = (Ok res, d) →
    Paired R C (landed_in now (decode s) ++ W) (set_decode d s)
| paired_prefill R C W s now res p :
    Paired R C W s → PrefillScheduler.run_iteration now (prefill s) = (Ok res, p) → Paired R C W (set_prefill p s)
| paired_deliver R C W s m :
    Paired R C W s → DecodeScheduler.sent (decode s) !! requests_read s = Some m → Paired R C W (deliver_request m s)
| paired_answer R C W s m :
    Paired R C W s → PrefillScheduler.sent (prefill s) !! replies_read s = Some m → Paired R C W (deliver_reply m s)
| paired_decode_engine R C W s e :
    Paired R C W s → Paired R C W (set_decode (DecodeScheduler.set_engine e (decode s)) s)
| paired_prefill_engine R C W s e :
    Paired R C W s → Paired R C W (set_prefill (PrefillScheduler.set_engine e (prefill s)) s)
| paired_decode_outside R C W s c :
    Paired R C W s → Same (DecodeScheduler.batch_constructor (decode s)) c →
    (∀ x, kv_contains x (kv_cache c) = kv_contains x (DecodeScheduler.kv (decode s))) →
    (∀ rid r, TextBatchConstructor.requests c !! rid = Some r → Batch.request_id r = rid) →
    Paired R C W (set_decode (DecodeScheduler.set_constructor c (decode s)) s)
| paired_prefill_outside R C W s c :
    Paired R C W s → Same (PrefillScheduler.batch_constructor (prefill s)) c →
    (∀ x, kv_contains x (kv_cache c) = kv_contains x (PrefillScheduler.kv (prefill s))) →
    (∀ rid r, TextBatchConstructor.requests c !! rid = Some r → Batch.request_id r = rid) →
    Paired R C W (set_prefill (PrefillScheduler.set_constructor c (prefill s)) s).

(** The prompts the network has taken. *)
Definition taken s : list Z := omap prompt_of (take (requests_read s) (DecodeScheduler.sent (decode s))).

Abbreviation reserved s := (OrderedDict.keys (DecodeScheduler.requests (decode s))).

(** What holds in every run. *)
Record Linked (R C W : list Z) s : Prop := {
  lk_decode : Decoding R (decode s);
  lk_told : Told R [] (decode s);
  lk_prefill : ∃ R' C' Q, Prefilling R' C' Q (prefill s) ∧ ∀ x, x ∈ R' → x ∈ taken s;
  lk_cancels x : x ∈ concat (DecodeScheduler.cancel_queue (decode s)) → x ∈ C;
  lk_reserved : decode_request_ttl_s (DecodeScheduler.config (decode s)) = None →
    ∀ x, x ∈ told (decode s) → x ∈ reserved s ∨ x ∈ C ∨ x ∈ W
}.

(** The decode node has changed, but for what it sent and reserved. *)
Lemma linked_decode R C R' C' W s d :
  Linked R C W s → Decoding R' d → Told R' [] d → DecodeScheduler.sent d = DecodeScheduler.sent (decode s) →
  DecodeScheduler.requests d = DecodeScheduler.requests (decode s) →
  (∀ x, x ∈ concat (DecodeScheduler.cancel_queue d) → x ∈ C') → DecodeScheduler.config d = DecodeScheduler.config (decode s) →
  (∀ x, x ∈ C → x ∈ C') → Linked R' C' W (set_decode d s).
Proof.
  intros [Hd Ht (R1 & C1 & Q & Hp & Ht1) Hc Hr] Hd' Ht' Es Er Hcq Ef HC. split; simpl; try done.
  - exists R1, C1, Q. split; [done|]. unfold taken. simpl. by rewrite Es.
  - unfold told. rewrite Ef, Es, Er. intros Hn x Hx. destruct (Hr Hn x Hx) as [|[|]]; auto.
Qed.

Lemma linked_prefill R C W s p :
  Linked R C W s → (∀ R' C' Q, Prefilling R' C' Q (prefill s) → ∃ Q', Prefilling R' C' Q' p) → Linked R C W (set_prefill p s).
Proof.
  intros [Hd Ht (R' & C' & Q & Hp & Ht') Hc Hr] HP. split; try done. destruct (HP R' C' Q Hp) as [Q' Hp']. by exists R', C', Q'.
Qed.

(** What is delivered to the prefill node is new to it. *)
Lemma deliver_linked R C W s m :
  Linked R C W s → DecodeScheduler.sent (decode s) !! requests_read s = Some m → Linked R C W (deliver_request m s).
Proof.
  destruct m as [dest m]. intros [Hd Ht (R' & C' & Q & Hp & Hin) Hc Hr] Hm. split; try done.
  assert (take (S (requests_read s)) (DecodeScheduler.sent (decode s)) =
    take (requests_read s) (DecodeScheduler.sent (decode s)) ++ [(dest, m)]) as Hk by (by apply take_S_r).
  assert (∀ x, x ∈ taken s → x ∈ taken (deliver_request (dest, m) s)) as Hmono.
  { intros x. unfold taken. simpl. rewrite Hk, omap_app, elem_of_app. by left. }
  simpl. destruct (decide (dest = address)) as [->|]; [|exists R', C', Q; split; [done|]; auto].
  destruct m as [q|e|rid].
  - exists (pq_id q :: R'), C', Q. split.
    + apply prefilling_request; [done| |].
      * intros Hq. pose proof (Hin _ Hq) as Ht1. pose proof (td_nodup _ _ _ Ht) as Hnd. apply NoDup_app in Hnd as (Hnd & _ & _).
        unfold told in Hnd. rewrite <- (take_drop (S (requests_read s)) (DecodeScheduler.sent (decode s))), Hk in Hnd.
        rewrite !omap_app in Hnd. apply NoDup_app in Hnd as (Hnd & _ & _). apply NoDup_app in Hnd as (_ & Hnd & _).
        apply (Hnd _ Ht1). simpl. by left.
      * eapply (td_named _ _ _ Ht). by eapply list_elem_of_lookup_2.
    + intros x [->|Hx]%elem_of_cons; [|auto]. unfold taken. simpl. rewrite Hk, omap_app, elem_of_app. right. by left.
  - exists R', C', Q. split; [by apply prefilling_connect|auto].
  - exists R', (rid :: C'), Q. split; [by apply prefilling_cancel|auto].
Qed.

Lemma decode_linked R C W s now res d :
  Linked R C W s → DecodeScheduler.run_iteration now (decode s) = (Ok res, d) →
  Linked R C (landed_in now (decode s) ++ W) (set_decode d s).
Proof.
  intros [Hd Ht (R' & C' & Q & Hp & Hin) Hc Hr] E. destruct (decoding_running R (decode s) Hd) as [L HR].
  destruct (iteration_told now L R (decode s) res d HR E Ht) as [Ht' [Hk Ht2 Hc2 Hf]]. split; simpl.
  - by eapply decoding_iteration.
  - done.
  - exists R', C', Q. split; [done|]. intros x Hx. specialize (Hin x Hx). revert Hin. unfold taken. simpl.
    pose proof (longer_iteration now (decode s)) as Hl. rewrite E in Hl. destruct Hl as [l Hl]. simpl in Hl. rewrite Hl.
    rewrite take_app, omap_app, elem_of_app. by left.
  - intros x Hx. by apply Hc, Hc2.
  - rewrite Hf. intros Hn x Hx. rewrite elem_of_app.
    assert (∀ y, Forgotten now (decode s) y → y ∈ C ∨ y ∈ landed_in now (decode s)) as Hg.
    { intros y [?|[Hy|Hy]]; [done|left; by apply Hc|by right]. }
    destruct (Ht2 x Hx) as [Hx'|[Hx'|Hx']]; [|by left|apply Hg in Hx'; tauto].
    destruct (Hr Hn x Hx') as [Hk'|[|]]; [|tauto..]. destruct (Hk x Hk') as [|Hx2]; [by left|]. apply Hg in Hx2. tauto.
Qed.

Lemma start_told c tg now k p l g e d : DecodeScheduler.init c tg now k p l g e = Ok d → Told [] [] d ∧
  DecodeScheduler.sent d = [] ∧ DecodeScheduler.cancel_queue d = [].
Proof.
  unfold DecodeScheduler.init. destruct (TextBatchConstructor.init _ _ _ _ _) as [c'|]; [|done]. intros [= <-].
  split; [|done]. split; simpl; [constructor|by intros x ?%elem_of_nil|by intros e' m ?%elem_of_nil].
Qed.

(** Fields that [Told] does not read. *)
Lemma told_other R R' (d d' : DecodeScheduler.t) :
  Told R [] d → DecodeScheduler.sent d' = DecodeScheduler.sent d → DecodeScheduler.pending_reqs d' = DecodeScheduler.pending_reqs d →
  DecodeScheduler.request_queue d' = DecodeScheduler.request_queue d → (∀ x, x ∈ R → x ∈ R') → Told R' [] d'.
Proof. intros [H1 H2 H3] Es Ep Eq HR. split; unfold told in *; rewrite ?Es, ?Ep, ?Eq; auto. Qed.

Lemma request_told R d r :
  Told R [] d → Batch.request_id r ∉ R →
  Told (Batch.request_id r :: R) [] (DecodeScheduler.set_request_queue (DecodeScheduler.request_queue d ++ [r]) d).
Proof.
  intros [H1 H2 H3] Hr. simpl in *.
  assert (told d ++ map Batch.request_id (DecodeScheduler.request_queue d ++ [r]) ++ DecodeScheduler.pending_reqs d ≡ₚ
    Batch.request_id r :: told d ++ map Batch.request_id (DecodeScheduler.request_queue d) ++ DecodeScheduler.pending_reqs d) as HP.
  { rewrite map_app, <- app_assoc. simpl. by rewrite <- !Permutation_middle. }
  split; simpl; [|intros x|exact H3].
  - change (NoDup (told d ++ map Batch.request_id (DecodeScheduler.request_queue d ++ [r]) ++ DecodeScheduler.pending_reqs d)).
    rewrite HP. constructor; [|done]. intros Hx. by apply Hr, H2.
  - change (x ∈ told d ++ map Batch.request_id (DecodeScheduler.request_queue d ++ [r]) ++ DecodeScheduler.pending_reqs d → x ∈ Batch.request_id r :: R).
    rewrite HP, !elem_of_cons. intros [->|Hx]; [by left|right; by apply H2].
Qed.

Lemma paired_linked R C W s : Paired R C W s → Linked R C W s.
Proof.
  induction 1 as [c1 tg1 now k1 p1 l1 g1 e1 d c2 tg2 k2 p2 l2 g2 e2 p H1 H2 E1 H3 H4 E2|R C W s r _ IH Hr|R C W s rids _ IH
    |R C W s now res d _ IH E|R C W s now res p _ IH E|R C W s m _ IH E|R C W s [m dest] _ IH E|R C W s e _ IH|R C W s e _ IH
    |R C W s c _ IH HS Hk Hi|R C W s c _ IH HS Hk Hi].
  - destruct (start_told _ _ _ _ _ _ _ _ _ E1) as (Ht & Es & Ec). split; simpl.
    + exact (decoding_start _ _ _ _ _ _ _ _ _ H1 H2 E1).
    + done.
    + exists [], [], []. split; [exact (prefilling_start _ _ _ _ _ _ _ _ H3 H4 E2)|]. by intros x ?%elem_of_nil.
    + rewrite Ec. by intros x ?%elem_of_nil.
    + unfold told. rewrite Es. by intros _ x ?%elem_of_nil.
  - eapply linked_decode; [exact IH|apply decoding_request; [apply IH|done]|apply request_told; [apply IH|done]|done..|apply IH|done|done].
  - eapply linked_decode; [exact IH|apply decoding_cancel, IH|eapply told_other; [apply IH|done..]|done..| |done|].
    + intros x. simpl. rewrite concat_app, !elem_of_app. simpl. rewrite app_nil_r. intros [Hx|Hx]; [right; by apply IH|by left].
    + intros x Hx. rewrite elem_of_app. by right.
  - by eapply decode_linked.
  - apply linked_prefill; [done|]. intros R' C' Q HP. eexists. by eapply prefilling_iteration.
  - by apply deliver_linked.
  - assert (Linked R C W (set_decode (decode (deliver_reply (m, dest) s)) s)) as [Hd Ht Hp Hc Hr]; [|by split].
    simpl. destruct (decide (dest = identity)); [|by destruct IH].
    eapply linked_decode; [exact IH|apply decoding_reply, IH|eapply told_other; [apply IH|done..]|done..|apply IH|done|done].
  - eapply linked_decode; [exact IH|apply decoding_engine, IH|eapply told_other; [apply IH|done..]|done..|apply IH|done|done].
  - apply linked_prefill; [done|]. intros R' C' Q HP. exists Q. by apply prefilling_engine.
  - eapply linked_decode; [exact IH|apply decoding_outside; [apply IH|done..]|eapply told_other; [apply IH|done..]|done..|apply IH| |done].
    unfold DecodeScheduler.config, TextBatchConstructor.config. simpl. by rewrite (same_settings _ _ HS).
  - apply linked_prefill; [done|]. intros R' C' Q HP. exists Q. by apply prefilling_outside.
Qed.

End Nodes.
End Nodes.
