(* ===== verification/NodesProperties.v ===== *)
(** * What the two nodes guarantee each other

    The decode and the prefill scheduler, run together, meet each other's assumptions; a
    transfer goes from blocks that are claimed on one node to blocks that are claimed on
    the other, for as long as its request is not cancelled; and a run in which one is. *)

From S2P Require Import Prelude Tokens Eos FreeQueue Pool Grammar Context Hashing Connector Manager ManagerFacts ManagerProperties CacheManager KVInterface Dict Budget Lora Batch BatchFacts Conservation Spending BatchErrors Planning BatchProperties Scheduler SchedulerProperties Disagg Frame PagedFrame Decode DecodeFacts DecodeProperties Prefill PrefillFacts PrefillProperties Nodes.

Module NodesProperties.
Import ReplicaRequests TextBatchConstructor BatchFacts Conservation DecodeFacts PrefillFacts PagedFrame Asking Nodes.

Section Statements.
Context {B : Backend} `{KV : !KVCache, P : Pipeline, F : Floats, G : !GrammarBuilder, A : AdapterStore,
  TE : !TransferEngine, X : !Executor, N : NumPy, FR : !KVFrame, EF : !ExecutorFrame, SF : !SyncFrame}.
Context (address identity : string).
Implicit Types s : Nodes.t.

(** C14: the two nodes meet each other's assumptions. Run together, the decode node is a
    decode node in use, and the prefill node a prefill node in use, whose prompts are ones
    that the decode node has sent; the decode node sends the prompt of a request at most
    once, of a request of a client that no longer waits. *)
Theorem nodes_meet_assumptions R C W s :
  Paired address identity R C W s →
  Decoding R (decode s) ∧ NoDup (told (decode s)) ∧
  (∀ x, x ∈ told (decode s) → x ∈ R ∧ x ∉ map Batch.request_id (DecodeScheduler.request_queue (decode s)) ∧
     x ∉ DecodeScheduler.pending_reqs (decode s)) ∧
  ∃ R' C' Q, Prefilling R' C' Q (prefill s) ∧ ∀ x, x ∈ R' → x ∈ told (decode s).
Proof.
  intros HP. destruct (paired_linked address identity R C W s HP) as [Hd [Hnd Hs _] (R' & C' & Q & Hp & Hin) _ _].
  simpl in *. split; [done|]. apply NoDup_app in Hnd as (Hnd & Hdis & _). split; [done|]. split.
  - intros x Hx. specialize (Hdis x Hx). rewrite elem_of_app in Hdis. split; [|tauto]. apply Hs. rewrite elem_of_app. by left.
  - exists R', C', Q. split; [done|]. intros x Hx. specialize (Hin x Hx). unfold told.
    rewrite <- (take_drop (requests_read s) (DecodeScheduler.sent (decode s))), omap_app, elem_of_app. by left.
Qed.

(** C15: a transfer reads and writes claimed blocks. Run together, on a decode node that
    does not expire requests, the request of a running transfer holds its claim on the
    prefill node, and, unless a client cancelled it, on the decode node until the transfer
    engine has told the decode node that the transfer is complete. *)
Theorem transfers_use_claimed_blocks R C W s x a :
  Paired address identity R C W s → decode_request_ttl_s (DecodeScheduler.config (decode s)) = None →
  (x, a) ∈ PrefillScheduler.active_transfers (prefill s) →
  kv_contains x (PrefillScheduler.kv (prefill s)) = true ∧
  (x ∉ C → x ∉ W → kv_contains x (DecodeScheduler.kv (decode s)) = true).
Proof.
  intros HP Ht Hx. destruct (paired_linked address identity R C W s HP) as [Hd _ (R' & C' & Q & Hp & Hin) _ Hr].
  destruct (prefilling_node R' C' Q _ Hp) as [L [[_ [_ _ [_ Hc] _ _ _]] Hs _]].
  apply (list_elem_of_fmap_2 fst) in Hx. split; [by apply Hc|]. intros HC HW.
  assert (x ∈ told (decode s)) as Htold.
  { assert (x ∈ taken s) as Hxt by (apply Hin, Hs; unfold PrefillFacts.places; rewrite !elem_of_app; tauto). unfold told.
    rewrite <- (take_drop (requests_read s) (DecodeScheduler.sent (decode s))), omap_app, elem_of_app. by left. }
  destruct (Hr Ht x Htold) as [Hk|[|]]; [|done..]. destruct (decoding_running R (decode s) Hd) as [L' [_ [_ Hcl] _]]. by apply Hcl.
Qed.

End Statements.
(** ** Two nodes on six pages each *)
#[local] Existing Instance HashProperties.toy_digest.
#[local] Existing Instance recording_backend.
#[local] Existing Instance LoraProperties.path_store.
#[local] Existing Instance BatchProperties.no_pipeline.
#[local] Existing Instance BatchProperties.rationals.
#[local] Existing Instance BatchProperties.no_builder.

(** An engine has a name, the peers it has met, and the transfers that have landed; a
    transfer is known by the blocks it writes. *)
#[local] Instance named_engine : TransferEngine := {|
  engine := string * gmap string string * list (list Z);
  transfer_req := list Z;
  engine_metadata := string;
  metadata_name m := m;
  te_metadata e := e.1.1;
  te_remote_connections e := e.1.2;
  te_connect m := modify (λ e, (e.1.1, <[m := m]> e.1.2, e.2));
  te_is_complete x := let! e := get in ret (bool_decide (x ∈ e.2));
  te_cleanup_transfer x := let! e := get in raise_if (negb (bool_decide (x ∈ e.2))) ValueError;
  te_initiate_send_transfer _ _ dst _ _ := ret dst;
  onload_synchronize _ := ret tt
|}.
#[local] Existing Instance PrefillProperties.one_token.
#[local] Existing Instance PrefillProperties.one_token_frame.
#[local] Instance named_engine_frame : SyncFrame.
Proof. by split. Qed.

Definition engine_named (n : string) : engine := (n, ∅, []).

Definition decode_node : DecodeScheduler.t :=
  match DecodeScheduler.init BatchProperties.small_config BatchProperties.zero_s BatchProperties.noon
          (BatchProperties.six_pages : cache) (tt : pipeline) None None (engine_named "decode") with
  | Ok s => s
  | Raise _ => DecodeScheduler.mk _ _ _ _ _ _ _ BatchProperties.fresh (engine_named "decode") [] [] [] ∅ BatchProperties.noon [] [] [] [] []
  end.
Definition prefill_node : PrefillScheduler.t :=
  match PrefillScheduler.init BatchProperties.small_config BatchProperties.zero_s
          (BatchProperties.six_pages : cache) (tt : pipeline) None None (engine_named "prefill") with
  | Ok s => s
  | Raise _ => PrefillScheduler.mk _ _ _ _ _ _ _ BatchProperties.fresh (engine_named "prefill") [] ∅ ∅ [] [] []
  end.

Abbreviation address := "prefill"%string.
Abbreviation identity := "decode"%string.

(** Steps of a run. *)
Definition decode_runs (s : Nodes.t) : Nodes.t := set_decode (BatchProperties.ran (DecodeScheduler.run_iteration BatchProperties.noon) (decode s)) s.
Definition prefill_runs (s : Nodes.t) : Nodes.t := set_prefill (BatchProperties.ran (PrefillScheduler.run_iteration BatchProperties.noon) (prefill s)) s.
Definition delivers (s : Nodes.t) : Nodes.t :=
  match DecodeScheduler.sent (decode s) !! requests_read s with Some m => deliver_request address identity m s | None => s end.
Definition asks (rid : Z) (s : Nodes.t) : Nodes.t :=
  set_decode (DecodeScheduler.set_request_queue (DecodeScheduler.request_queue (decode s) ++ [DecodeProperties.asks_prefill rid]) (decode s)) s.
Definition cancels (rid : Z) (s : Nodes.t) : Nodes.t :=
  set_decode (DecodeScheduler.set_cancel_queue (DecodeScheduler.cancel_queue (decode s) ++ [[rid]]) (decode s)) s.

Definition started : Nodes.t := Nodes.mk _ _ _ _ _ _ _ decode_node prefill_node 0 0.
(** The first request is reserved, sent and prefilled; its transfer runs. *)
Definition first_sent : Nodes.t := decode_runs (asks 1 started).
Definition first_runs : Nodes.t := prefill_runs (delivers (delivers first_sent)).
(** It is cancelled before its reply arrives, and two others are reserved. *)
Definition first_cancelled : Nodes.t := decode_runs (cancels 1 first_runs).
Definition others_reserved : Nodes.t := decode_runs (asks 3 (asks 2 first_cancelled)).

(** *** The steps are steps of a run *)

Abbreviation Run := (Paired address identity).

Lemma decode_node_init :
  DecodeScheduler.init BatchProperties.small_config BatchProperties.zero_s BatchProperties.noon
    (BatchProperties.six_pages : cache) (tt : pipeline) None None (engine_named "decode") = Ok decode_node.
Proof. reflexivity. Qed.
Lemma two_prefill_node_init :
  PrefillScheduler.init BatchProperties.small_config BatchProperties.zero_s
    (BatchProperties.six_pages : cache) (tt : pipeline) None None (engine_named "prefill") = Ok prefill_node.
Proof. reflexivity. Qed.

Lemma started_run : Run [] [] [] started.
Proof.
  eapply (paired_start address identity); [| |exact decode_node_init| | |exact two_prefill_node_init]; first [reflexivity | discriminate].
Qed.

Lemma asks_run R C W s rid : Run R C W s → rid ∉ R → Run (rid :: R) C W (asks rid s).
Proof. intros HP HR. exact (paired_request address identity R C W s (DecodeProperties.asks_prefill rid) HP HR). Qed.

Lemma cancels_run R C W s rid : Run R C W s → Run R (rid :: C) W (cancels rid s).
Proof. intros HP. exact (paired_cancel address identity R C W s [rid] HP). Qed.

Lemma decode_runs_run R C W s :
  Run R C W s → (DecodeScheduler.run_iteration BatchProperties.noon (decode s)).1 = Ok NO_PROGRESS →
  landed_in BatchProperties.noon (decode s) = [] → Run R C W (decode_runs s).
Proof.
  intros HP HE HW. apply BatchProperties.ran_run in HE. pose proof (paired_decode address identity R C W s _ _ _ HP HE) as H.
  by rewrite HW in H.
Qed.

Lemma prefill_runs_run R C W s :
  Run R C W s → (PrefillScheduler.run_iteration BatchProperties.noon (prefill s)).1 = Ok MADE_PROGRESS → Run R C W (prefill_runs s).
Proof. intros HP HE. apply BatchProperties.ran_run in HE. by eapply paired_prefill. Qed.

Lemma delivers_run R C W s : Run R C W s → Run R C W (delivers s).
Proof.
  intros HP. unfold delivers. destruct (DecodeScheduler.sent (decode s) !! requests_read s) as [m|] eqn:E; [|done].
  by apply paired_deliver.
Qed.

Lemma first_runs_run : Run [1] [] [] first_runs.
Proof.
  unfold first_runs. apply prefill_runs_run; [|vm_compute; reflexivity]. do 2 apply delivers_run.
  unfold first_sent. apply decode_runs_run; [|vm_compute; reflexivity|vm_compute; reflexivity].
  apply asks_run; [exact started_run|]. by intros ?%elem_of_nil.
Qed.

Lemma others_reserved_run : Run [3; 2; 1] [1] [] others_reserved.
Proof.
  unfold others_reserved. apply decode_runs_run; [|vm_compute; reflexivity|vm_compute; reflexivity].
  do 2 (apply asks_run; [|apply (bool_decide_unpack _); vm_compute; exact I]).
  unfold first_cancelled. apply decode_runs_run; [|vm_compute; reflexivity|vm_compute; reflexivity].
  apply cancels_run. exact first_runs_run.
Qed.

Lemma nodes_meet_assumptions_witness : Decoding [1] (decode first_runs) ∧ told (decode first_runs) = [1].
Proof.
  destruct (nodes_meet_assumptions address identity [1] [] [] first_runs first_runs_run) as (Hd & _).
  split; [exact Hd|vm_compute; reflexivity].
Defined.

(** The blocks the decode node reserved for the first request. *)
Definition first_blocks : transfer_req := [0; 1; 2].

(** The one entry of the dictionary. *)
Lemma first_transfer s dst :
  map (λ e, (e.1, at_transfer e.2)) (PrefillScheduler.active_transfers (prefill s)) = [(1, dst)] →
  ∃ a, (1, a) ∈ PrefillScheduler.active_transfers (prefill s).
Proof.
  destruct (PrefillScheduler.active_transfers (prefill s)) as [|[y a] l]; [done|]. intros [= -> _ _]. exists a. by left.
Qed.

Lemma transfers_use_claimed_blocks_witness :
  kv_contains 1 (PrefillScheduler.kv (prefill first_runs)) = true ∧ kv_contains 1 (DecodeScheduler.kv (decode first_runs)) = true.
Proof.
  destruct (first_transfer first_runs first_blocks) as [a Ha]; [vm_compute; reflexivity|].
  destruct (transfers_use_claimed_blocks address identity [1] [] [] first_runs 1 a first_runs_run) as [Hp Hd].
  - vm_compute. reflexivity.
  - exact Ha.
  - split; [exact Hp|]. apply Hd; by intros ?%elem_of_nil.
Defined.

(** A run of the two nodes in which a transfer that is not complete writes the blocks of a
    request that another client sent: the request it was started for was cancelled before
    the decode node read the reply of the prefill node, which had started the transfer by
    then, and gave its blocks back at once. *)
Example cancellation_reuses_blocks_under_transfer :
  ∃ s dst blocks, Run [3; 2; 1] [1] [] s ∧
    map (λ e, (e.1, at_transfer e.2)) (PrefillScheduler.active_transfers (prefill s)) = [(1, dst)] ∧
    (te_is_complete dst (PrefillScheduler.transfer_engine (prefill s))).1 = Ok false ∧
    (kv_get_req_blocks 3 (DecodeScheduler.kv (decode s))).1 = Ok blocks ∧
    ∃ b, b ∈ (dst : list Z) ∧ b ∈ blocks.
Proof.
  exists others_reserved, first_blocks, [2; 1; 0]. split; [exact others_reserved_run|].
  split; [vm_compute; reflexivity|]. split; [vm_compute; reflexivity|]. split; [vm_compute; reflexivity|].
  exists 0. split; apply (bool_decide_unpack _); vm_compute; exact I.
Qed.

End NodesProperties.
