(* ===== verification/Eplb.v ===== *)
(** * Balancing experts over GPUs (pipelines/lib/eplb_rebalance.py)

    From the load of each logical expert, which physical slots hold its copies: groups of
    experts are packed onto nodes, the most loaded experts are copied within their node,
    and the copies are packed onto its GPUs. An array of two dimensions is its width and
    its rows; weights and their arithmetic are a class, since no property depends on
    rounding (no weight is a NaN). The integers are far from the bounds of [int64]. *)

From S2P Require Import Prelude Tokens.

Class Weights := {
  weight : Type;
  w_zero : weight;
  w_add : weight → weight → weight;
  w_sum : list weight → weight;
  w_div : weight → Z → weight;
  w_ltb : weight → weight → bool
}.

Record array (T : Type) := mk_array { width : Z; rows : list (list T) }.
Arguments mk_array {T} width rows.
Arguments width {T} a.
Arguments rows {T} a.

Module Eplb.

(** ** Arrays *)

Definition num_rows {T} (a : array T) : Z := len (rows a).

(** [l[i]] where [i] is known to be an index *)
Definition at_ {T} (d : T) (l : list T) (i : Z) : T := default d (l !! Z.to_nat i).

(** [k] rows of [m] elements each *)
Definition chunks {T} (k m : nat) (l : list T) : list (list T) :=
  map (λ i, take m (drop (i * m) l)) (seq 0 k).

(** [a.reshape(-1, m)] *)
Definition reshape_cols {T} (m : Z) (a : array T) : M () (array T) :=
  let flat := concat (rows a) in
  raise_if ((m =? 0) || negb (len flat mod m =? 0)) ValueError;;
  ret (mk_array m (chunks (Z.to_nat (len flat / m)) (Z.to_nat m) flat)).

(** [a.reshape(n, -1)] *)
Definition reshape_rows {T} (n : Z) (a : array T) : M () (array T) :=
  let flat := concat (rows a) in
  raise_if ((n =? 0) || negb (len flat mod n =? 0)) ValueError;;
  ret (mk_array (len flat / n) (chunks (Z.to_nat n) (Z.to_nat (len flat / n)) flat)).

(** [np.take_along_axis(l, idx)], of one row *)
Definition take_along {T} (l : list T) (idx : list Z) : M () (list T) :=
  for_map idx (λ i, of_option IndexError (py_index l i)).

(** [np.put_along_axis(l, idx, values)], of one row *)
Definition put_along {T} (l : list T) (puts : list (Z * T)) : M () (list T) :=
  for_fold puts l (λ l '(i, x),
    if (- len l <=? i) && (i <? len l) then ret (list_set l (if i <? 0 then len l + i else i) x) else raise IndexError).

(** An operation of every row of two arrays *)
Definition map_rows {T} (f : list T → M () (list Z)) (w : Z) (a : array T) : M () (array Z) :=
  let! r := for_map (rows a) f in ret (mk_array w r).
Definition take_rows {T} (a : array T) (idx : array Z) : M () (array T) :=
  let! r := for_map (zip (rows a) (rows idx)) (λ '(l, i), take_along l i) in ret (mk_array (width idx) r).

Section Eplb.
Context `{Weights, NumPy}.

(** ** Packing *)

(** [np.argsort(-w, kind="stable")] *)
Fixpoint insert_desc (w : list weight) (i : Z) (l : list Z) : list Z :=
  match l with
  | [] => [i]
  | j :: l' => if w_ltb (at_ w_zero w i) (at_ w_zero w j) then j :: insert_desc w i l' else i :: l
  end.
Definition argsort_desc (w : list weight) : list Z := foldr (insert_desc w) [] (zrange 0 (len w)).

Record packing := mk_packing {
  pack_index : list Z;
  rank_in_pack : list Z;
  pack_weights : list weight;
  pack_items : list Z
}.

(** The first of the lightest packs with room *)
Definition lightest (size num_packs : Z) (s : packing) : option Z :=
  foldl (λ best p, if at_ 0 (pack_items s) p <? size then
      match best with
      | None => Some p
      | Some q => if w_ltb (at_ w_zero (pack_weights s) p) (at_ w_zero (pack_weights s) q) then Some p else best
      end else best) None (zrange 0 num_packs).

Definition pack_group (size num_packs : Z) (w : list weight) (s : packing) (group : Z) : M () packing :=
  let! pack := of_option ValueError (lightest size num_packs s) in
  py_assert (at_ 0 (pack_items s) pack <? size);;
  ret (mk_packing (list_set (pack_index s) group pack) (list_set (rank_in_pack s) group (at_ 0 (pack_items s) pack))
         (list_set (pack_weights s) pack (w_add (at_ w_zero (pack_weights s) pack) (at_ w_zero w group)))
         (list_set (pack_items s) pack (at_ 0 (pack_items s) pack + 1))).

Definition pack_row (size num_packs : Z) (w : list weight) : M () (list Z * list Z) :=
  let blank := repeat (-1) (length w) in
  let! s := for_fold (argsort_desc w)
    (mk_packing blank blank (repeat w_zero (Z.to_nat num_packs)) (repeat 0 (Z.to_nat num_packs)))
    (pack_group size num_packs w) in
  ret (pack_index s, rank_in_pack s).

Definition balanced_packing (a : array weight) (num_packs : Z) : M () (array Z * array Z) :=
  let num_groups := width a in
  raise_if (num_packs =? 0) ZeroDivisionError;;
  py_assert (num_groups mod num_packs =? 0);;
  let groups_per_pack := num_groups / num_packs in
  if groups_per_pack =? 1 then
    ret (mk_array num_groups (map (λ _, zrange 0 num_groups) (rows a)),
         mk_array num_groups (map (λ w, repeat 0 (length w)) (rows a)))
  else
    let! r := for_map (rows a) (pack_row groups_per_pack num_packs) in
    ret (mk_array num_groups r.*1, mk_array num_groups r.*2).

(** ** Copies *)

(** [np.argmax], of a row *)
Definition argmax (w : list weight) : option Z :=
  foldl (λ best i, match best with
    | None => Some i
    | Some j => if w_ltb (at_ w_zero w j) (at_ w_zero w i) then Some i else best
    end) None (zrange 0 (len w)).

Record copies := mk_copies { phy2log : list Z; rank : list Z; logcnt : list Z }.

(** Slot [i] goes to the expert with the highest load per copy. *)
Definition copy_expert (w : list weight) (s : copies) (i : Z) : M () copies :=
  let! e := of_option ValueError (argmax (zip_with w_div w (logcnt s))) in
  ret (mk_copies (list_set (phy2log s) i e) (list_set (rank s) i (at_ 0 (logcnt s) e))
         (list_set (logcnt s) e (at_ 0 (logcnt s) e + 1))).

Definition replicate_row (num_phy : Z) (w : list weight) : M () copies :=
  for_fold (zrange (len w) num_phy)
    (mk_copies (zrange 0 num_phy) (repeat 0 (Z.to_nat num_phy)) (repeat 1 (length w))) (copy_expert w).

Definition replicate_experts (a : array weight) (num_phy : Z) : M () (array Z * array Z * array Z) :=
  let num_log := width a in
  py_assert (num_phy - num_log >=? 0);;
  let! r := for_map (rows a) (replicate_row num_phy) in
  ret (mk_array num_phy (map phy2log r), mk_array num_phy (map rank r), mk_array num_log (map logcnt r)).

(** ** The hierarchy *)

Definition inverse_row (perm : list Z) : M () (list Z) :=
  put_along (np_empty (length perm)) (zip perm (zrange 0 (len perm))).
Definition _inverse (perm : array Z) : M () (array Z) := map_rows inverse_row (width perm) perm.

(** The group of an expert goes to a place among the groups, its experts in order. *)
Definition spread (group_size : Z) (places : list Z) : list Z :=
  concat (map (λ p, map (λ i, p * group_size + i) (zrange 0 group_size)) places).

Definition sum_groups (num_groups group_size : Z) (w : list weight) : list weight :=
  map w_sum (chunks (Z.to_nat num_groups) (Z.to_nat group_size) w).

(** [n] [//] [d] where [n] [%] [d] is asserted to be 0 *)
Definition exact_div (n d : Z) : M () Z :=
  raise_if (d =? 0) ZeroDivisionError;; py_assert (n mod d =? 0);; ret (n / d).

Definition add_rows (f : list Z → list Z → list Z) (a b : array Z) : array Z := mk_array (width a) (zip_with f (rows a) (rows b)).

Definition rebalance_experts_hierarchical (w : array weight) (num_physical_experts num_groups num_nodes num_gpus : Z)
    : M () (array Z * array Z * array Z) :=
  let num_layers := num_rows w in
  let num_logical_experts := width w in
  let! group_size := exact_div num_logical_experts num_groups in
  let! groups_per_node := exact_div num_groups num_nodes in
  let! gpus_per_node := exact_div num_gpus num_nodes in
  let! phy_experts_per_gpu := exact_div num_physical_experts num_gpus in
  (* groups to nodes *)
  let tokens_per_group := mk_array num_groups (map (sum_groups num_groups group_size) (rows w)) in
  let! '(group_pack_index, group_rank_in_pack) := balanced_packing tokens_per_group num_nodes in
  let places := add_rows (zip_with (λ p r, p * groups_per_node + r)) group_pack_index group_rank_in_pack in
  let log2mlog := mk_array num_logical_experts (map (spread group_size) (rows places)) in
  let! mlog2log := _inverse log2mlog in
  (* copies within a node *)
  let! by_node := take_rows w mlog2log in
  let experts_per_node := num_logical_experts / num_nodes in
  let! tokens_per_mlog := reshape_cols experts_per_node by_node in
  let! '(phy2mlog, phyrank, mlogcnt) := replicate_experts tokens_per_mlog (num_physical_experts / num_nodes) in
  (* copies to the GPUs of the node *)
  let per_copy := mk_array experts_per_node (zip_with (zip_with w_div) (rows tokens_per_mlog) (rows mlogcnt)) in
  let! tokens_per_phy := take_rows per_copy phy2mlog in
  let! '(pack_index, rank_in_pack) := balanced_packing tokens_per_phy gpus_per_node in
  let phy2pphy := add_rows (zip_with (λ p r, p * phy_experts_per_gpu + r)) pack_index rank_in_pack in
  let! pphy2phy := _inverse phy2pphy in
  let! pphy2mlog := take_rows phy2mlog pphy2phy in
  raise_if (experts_per_node =? 0) ZeroDivisionError;;
  let offset := mk_array (width pphy2mlog)
    (imap (λ t r, map (Z.add (Z.of_nat t mod num_nodes * experts_per_node)) r) (rows pphy2mlog)) in
  let! pphy2mlog := reshape_rows num_layers offset in
  let! pphy2log := take_rows mlog2log pphy2mlog in
  let! ranks := take_rows phyrank pphy2phy in
  let! pphyrank := reshape_rows num_layers ranks in
  let! by_layer := reshape_rows num_layers mlogcnt in
  let! logcnt := take_rows by_layer log2mlog in
  ret (pphy2log, pphyrank, logcnt).

(** ** The entry point *)

(** [a.max()] *)
Definition array_max (a : array Z) : option Z :=
  match concat (rows a) with [] => None | x :: l => Some (foldl Z.max x l) end.

(** The slots of each expert of a layer, in [maxlogcnt] columns *)
Definition slots_row (num_experts num_replicas maxlogcnt : Z) '((p2l, ranks) : list Z * list Z) : M () (list (list Z)) :=
  let! flat := put_along (repeat (-1) (Z.to_nat (num_experts * maxlogcnt)))
    (zip (zip_with (λ e r, e * maxlogcnt + r) p2l ranks) (zrange 0 num_replicas)) in
  ret (chunks (Z.to_nat num_experts) (Z.to_nat maxlogcnt) flat).

Definition rebalance_experts (w : array weight) (num_replicas num_groups num_nodes num_gpus : Z)
    : M () (array Z * list (list (list Z)) * array Z) :=
  raise_if (num_nodes =? 0) ZeroDivisionError;;
  let! '(p2l, ranks, counts) :=
    if num_groups mod num_nodes =? 0
    then rebalance_experts_hierarchical w num_replicas num_groups num_nodes num_gpus
    else rebalance_experts_hierarchical w num_replicas 1 1 num_gpus in
  let! maxlogcnt := of_option ValueError (array_max counts) in
  let! log2phy := for_map (zip (rows p2l) (rows ranks)) (slots_row (width w) num_replicas maxlogcnt) in
  ret (p2l, log2phy, counts).

End Eplb.
End Eplb.
