(* ===== verification/EplbFacts.v ===== *)
(** * The expert plan is consistent

    Packing gives every pack the same number of items and every place one item; copying
    gives every copy a slot of its own; and the maps of the plan are inverse to each
    other: the row of an expert lists exactly the slots that hold it. *)

From S2P Require Import Prelude Tokens Eplb.

Module EplbFacts.
Import Eplb.

(** ** Lists by index *)

Lemma at_lookup {T} d (l : list T) i x : l !! Z.to_nat i = Some x → at_ d l i = x.
Proof. unfold at_. by intros ->. Qed.
Lemma at_inside {T} d (l : list T) i : 0 ≤ i < len l → l !! Z.to_nat i = Some (at_ d l i).
Proof.
  intros Hi. destruct (lookup_lt_is_Some_2 l (Z.to_nat i)) as [x Hx]; [unfold len in Hi; lia|]. by rewrite Hx, (at_lookup d l i x).
Qed.
Lemma list_set_insert {T} (l : list T) i x : 0 ≤ i < len l → list_set l i x = <[Z.to_nat i := x]> l.
Proof. unfold list_set. intros Hi. try done. Qed.
Lemma at_set {T} d (l : list T) i x : 0 ≤ i < len l → at_ d (list_set l i x) i = x.
Proof.
  intros Hi. rewrite list_set_insert by done. apply at_lookup. apply list_lookup_insert_eq. unfold len in Hi. lia.
Qed.
Lemma at_set_ne {T} d (l : list T) i j x : 0 ≤ i < len l → 0 ≤ j → i ≠ j → at_ d (list_set l i x) j = at_ d l j.
Proof.
  intros Hi Hj Hne. rewrite list_set_insert by done. unfold at_. by rewrite list_lookup_insert_ne by lia.
Qed.
Lemma map_at {T} d (l : list T) : map (at_ d l) (zrange 0 (len l)) = l.
Proof.
  apply list_eq. intros i. destruct (l !! i) as [x|] eqn:E.
  - pose proof (lookup_lt_Some _ _ _ E). rewrite list_lookup_fmap. unfold zrange, len.
    rewrite list_lookup_fmap, lookup_seq_lt by lia. simpl. f_equal. apply at_lookup. rewrite <- E. f_equal. lia.
  - apply lookup_ge_None in E. apply lookup_ge_None. rewrite length_map. unfold zrange, len. rewrite length_fmap, length_seq. lia.
Qed.
Lemma at_zrange d n i : 0 ≤ i < n → at_ d (zrange 0 n) i = i.
Proof. intros Hi. apply at_lookup. unfold zrange. rewrite list_lookup_fmap, lookup_seq_lt by lia. simpl. f_equal. lia. Qed.
Lemma at_repeat {T} d (x : T) n i : 0 ≤ i < Z.of_nat n → at_ d (repeat x n) i = x.
Proof.
  intros Hi. apply at_lookup. revert i Hi. induction n as [|n IH]; intros i Hi; [lia|].
  destruct (Z.to_nat i) as [|j] eqn:Ej; [done|]. simpl. rewrite <- (IH (Z.of_nat j)) by lia. f_equal. lia.
Qed.
Lemma len_repeat {T} (x : T) n : len (repeat x n) = Z.of_nat n.
Proof. unfold len. by rewrite repeat_length. Qed.

(** ** Counted pairs *)

(** Each [i] with each number below its count. *)
Definition pairs_from (k : nat) (counts : list Z) : list (Z * Z) :=
  concat (imap (λ i c, map (pair (Z.of_nat (k + i))) (zrange 0 c)) counts).
Definition pairs := pairs_from 0.

Lemma pairs_from_cons k c counts : pairs_from k (c :: counts) = map (pair (Z.of_nat k)) (zrange 0 c) ++ pairs_from (S k) counts.
Proof.
  unfold pairs_from. simpl. rewrite Nat.add_0_r. f_equal. f_equal. apply imap_ext. intros i x _. simpl. do 3 f_equal. lia.
Qed.

Lemma zrange_snoc a b : a ≤ b → zrange a (b + 1) = zrange a b ++ [b].
Proof.
  intros Hab. unfold zrange. replace (Z.to_nat (b + 1 - a)) with (S (Z.to_nat (b - a))) by lia. rewrite seq_S, fmap_app. simpl.
  f_equal. f_equal. lia.
Qed.

Lemma pairs_incr k counts i c :
  counts !! i = Some c → 0 ≤ c → pairs_from k (<[i := c + 1]> counts) ≡ₚ (Z.of_nat (k + i), c) :: pairs_from k counts.
Proof.
  revert k i. induction counts as [|c0 counts IH]; intros k i Hi Hc; [done|]. destruct i as [|i]; simpl in *.
  - injection Hi as ->. rewrite !pairs_from_cons, zrange_snoc by done. rewrite map_app, <- app_assoc. simpl.
    rewrite Nat.add_0_r. by rewrite <- Permutation_middle.
  - rewrite !pairs_from_cons, (IH (S k) i Hi Hc). replace (S k + i)%nat with (k + S i)%nat by lia. by rewrite <- Permutation_middle.
Qed.

Lemma elem_of_pairs_from k counts e r :
  (e, r) ∈ pairs_from k counts ↔ Z.of_nat k ≤ e ∧ ∃ c, counts !! Z.to_nat (e - Z.of_nat k) = Some c ∧ 0 ≤ r < c.
Proof.
  revert k. induction counts as [|c0 counts IH]; intros k.
  - split; [by intros ?%elem_of_nil|]. by intros (_ & c & ? & _).
  - rewrite pairs_from_cons, elem_of_app, IH. split.
    + intros [Hx|(Hk & c & Hc & Hr)].
      * apply list_elem_of_fmap in Hx as (r' & [= -> ->] & Hr). apply elem_of_zrange in Hr. split; [lia|]. exists c0.
        replace (Z.of_nat k - Z.of_nat k) with 0 by lia. done.
      * split; [lia|]. exists c. split; [|done]. replace (Z.to_nat (e - Z.of_nat k)) with (S (Z.to_nat (e - Z.of_nat (S k)))) by lia. done.
    + intros (Hk & c & Hc & Hr). destruct (decide (e = Z.of_nat k)) as [->|Hne].
      * left. replace (Z.to_nat (Z.of_nat k - Z.of_nat k)) with 0%nat in Hc by lia. injection Hc as ->.
        apply list_elem_of_fmap. exists r. split; [done|]. by apply elem_of_zrange.
      * right. split; [lia|]. exists c. split; [|done]. by replace (Z.to_nat (e - Z.of_nat k)) with (S (Z.to_nat (e - Z.of_nat (S k)))) in Hc by lia.
Qed.

Lemma NoDup_pairs_from k counts : NoDup (pairs_from k counts).
Proof.
  revert k. induction counts as [|c counts IH]; intros k; [constructor|]. rewrite pairs_from_cons. apply NoDup_app. split_and!; [| |apply IH].
  - apply NoDup_fmap_2; [by intros ?? [=]|apply NoDup_zrange].
  - intros [e r] Hx Hy. apply list_elem_of_fmap in Hx as (r' & [= -> ->] & _). apply elem_of_pairs_from in Hy as [Hk _]. lia.
Qed.

Lemma len_pairs_from k counts : (∀ c, c ∈ counts → 0 ≤ c) → len (pairs_from k counts) = zsum counts.
Proof.
  revert k. induction counts as [|c counts IH]; intros k Hc; [done|]. rewrite pairs_from_cons, len_app, IH by (intros c' Hc'; apply Hc; by right).
  simpl. f_equal. unfold len. rewrite length_map. fold (len (zrange 0 c)). rewrite len_zrange by (apply Hc; by left). lia.
Qed.

(** Counts below their bound leave room; at the bound they are all equal. *)
Lemma counts_room size counts :
  (∀ c, c ∈ counts → c ≤ size) → zsum counts < size * len counts → ∃ p c, counts !! p = Some c ∧ c < size.
Proof.
  induction counts as [|c counts IH]; intros Hc Hs; [unfold len in Hs; simpl in Hs; lia|].
  destruct (decide (c < size)) as [Hlt|Hge]; [by exists 0%nat, c|]. rewrite len_cons in Hs. simpl in Hs.
  pose proof (Hc c (list_elem_of_here _ _)). destruct IH as (p & c' & Hp & Hc'); [intros; apply Hc; by right|nia|]. by exists (S p), c'.
Qed.
Lemma counts_full size counts :
  (∀ c, c ∈ counts → c ≤ size) → zsum counts = size * len counts → counts = repeat size (length counts).
Proof.
  intros Hc Hs. assert (∀ l, (∀ c, c ∈ l → c ≤ size) → zsum l ≤ size * len l) as Hle.
  { induction l as [|c l IH]; intros Hl; [unfold len; simpl; lia|]. rewrite len_cons. simpl.
    pose proof (Hl c (list_elem_of_here _ _)). pose proof (IH (λ c' Hc', Hl c' (list_elem_of_further _ _ _ Hc'))). nia. }
  induction counts as [|c counts IH]; [done|]. rewrite len_cons in Hs. simpl in *.
  pose proof (Hc c (list_elem_of_here _ _)). pose proof (Hle counts (λ c' Hc', Hc c' (list_elem_of_further _ _ _ Hc'))).
  f_equal; [nia|]. apply IH; [intros; apply Hc; by right|nia].
Qed.

(** ** Sorting *)
Section Weighted.
Context `{Weights, NumPy}.

Lemma insert_desc_perm w i l : insert_desc w i l ≡ₚ i :: l.
Proof.
  induction l as [|j l IH]; simpl; [done|]. destruct (w_ltb _ _); [|done]. rewrite IH. apply Permutation_swap.
Qed.

Lemma argsort_perm w : argsort_desc w ≡ₚ zrange 0 (len w).
Proof.
  unfold argsort_desc. generalize (zrange 0 (len w)). intros l. induction l as [|i l IH]; simpl; [done|].
  by rewrite insert_desc_perm, IH.
Qed.

(** The search for the best of a range finds one that qualifies. *)
Lemma best_found (ok : Z → bool) (better : Z → Z → bool) l best :
  (∀ q, best = Some q → ok q = true) → (best ≠ None ∨ ∃ p, p ∈ l ∧ ok p = true) →
  ∃ p, foldl (λ best p, if ok p then match best with None => Some p | Some q => if better p q then Some p else best end else best) best l = Some p
    ∧ ok p = true ∧ (best = Some p ∨ p ∈ l).
Proof.
  revert best. induction l as [|x l IH]; intros best Hb He; simpl.
  - destruct best as [q|]; [exists q; auto|]. destruct He as [|(p & Hp & _)]; [done|]. by apply elem_of_nil in Hp.
  - set (best' := if ok x then _ else best).
    assert (∀ q, best' = Some q → ok q = true ∧ (best = Some q ∨ q = x)) as Hb'.
    { intros q. unfold best'. destruct (ok x) eqn:Ex; [|intros Hq; split; [by apply Hb|by left]].
      destruct best as [b|]; [destruct (better x b)|]; intros [= <-]; auto. }
    destruct (IH best') as (p & Hp & Hok & Hin).
    + intros q Hq. by apply Hb'.
    + unfold best'. destruct He as [Hn|(p & [->|Hp]%elem_of_cons & Hok)].
      * left. destruct (ok x); [|done]. destruct best as [b|]; [|done]. by destruct (better x b).
      * left. rewrite Hok. destruct best as [b|]; [|done]. by destruct (better x b).
      * right. by exists p.
    + exists p. split; [done|]. split; [done|]. destruct Hin as [Hin|Hin]; [|right; by right].
      destruct (Hb' p Hin) as [_ [?| ->]]; [by left|right; by left].
Qed.

(** ** Packing *)

(** Items [done] have a place each, and no place is given twice. *)
Record Packed (size m n : Z) (done : list Z) (s : packing) : Prop := {
  pk_index : len (pack_index s) = n;
  pk_rank : len (rank_in_pack s) = n;
  pk_packs : len (pack_items s) = m;
  pk_counts c : c ∈ pack_items s → 0 ≤ c ≤ size;
  pk_places : map (λ g, (at_ 0 (pack_index s) g, at_ 0 (rank_in_pack s) g)) done ≡ₚ pairs (pack_items s)
}.

Lemma packed_size size m n done s : Packed size m n done s → len done = zsum (pack_items s).
Proof.
  intros [_ _ _ Hc HP]. rewrite <- (len_pairs_from 0 (pack_items s)) by (intros; by apply Hc). unfold len.
  fold pairs. by rewrite <- HP, length_map.
Qed.

Lemma pack_group_ok size m n w done s group :
  Packed size m n done s → 0 ≤ group < n → group ∉ done → (∀ x, x ∈ done → 0 ≤ x < n) → len done < size * m →
  ∃ s', pack_group size m w s group tt = (Ok s', tt) ∧ Packed size m n (done ++ [group]) s'.
Proof.
  intros HP Hg Hnew Hin Hlt. pose proof (packed_size _ _ _ _ _ HP) as Hsz. destruct HP as [Hi Hr Hp Hc Hpl].
  destruct (counts_room size (pack_items s)) as (p0 & c0 & Hp0 & Hc0); [intros; by apply Hc|by rewrite <- Hsz, Hp|].
  destruct (best_found (λ p, at_ 0 (pack_items s) p <? size)
    (λ p q, w_ltb (at_ w_zero (pack_weights s) p) (at_ w_zero (pack_weights s) q)) (zrange 0 m) None) as (p & Hl & Hok & [|Hpin]); [done| |done|].
  { right. exists (Z.of_nat p0). pose proof (lookup_lt_Some _ _ _ Hp0). rewrite elem_of_zrange. unfold len in Hp. split; [lia|].
    rewrite (at_lookup 0 _ _ c0) by (by rewrite Nat2Z.id). by apply Z.ltb_lt. }
  rewrite elem_of_zrange in Hpin. simpl in Hok.
  assert (pack_items s !! Z.to_nat p = Some (at_ 0 (pack_items s) p)) as Hlook by (apply at_inside; lia).
  assert (0 ≤ at_ 0 (pack_items s) p) as Hpos by (apply Hc; by eapply list_elem_of_lookup_2).
  unfold pack_group, lightest. unfold bind at 1. unfold of_option. rewrite Hl. unfold ret at 1.
  rewrite Hok. unfold bind, py_assert, raise_if. simpl. eexists. split; [reflexivity|].
  split; simpl; rewrite ?len_list_set; try done.
  - intros c Hcin. rewrite list_set_insert in Hcin by lia.
    apply list_elem_of_lookup in Hcin as [j Hj]. apply list_lookup_insert_Some in Hj as [(_ & <- & _)|[_ Hj]]; [lia|].
    apply Hc. by eapply list_elem_of_lookup_2.
  - rewrite map_app. simpl. rewrite !at_set by lia. rewrite (list_set_insert (pack_items s)) by lia. unfold pairs.
    rewrite (pairs_incr 0 _ _ _ Hlook Hpos). simpl. rewrite Z2Nat.id by lia. rewrite <- Permutation_cons_append. f_equiv.
    fold pairs. rewrite <- Hpl. apply reflexive_eq. apply map_ext_in. intros x Hx.
    assert (x ∈ done) as Hx' by (by apply list_elem_of_In). specialize (Hin x Hx').
    rewrite !at_set_ne; [done|lia|lia|by intros ->|lia|lia|by intros ->].
Qed.

Lemma pack_loop size m n w l done s :
  Packed size m n done s → NoDup (done ++ l) → (∀ x, x ∈ done ++ l → 0 ≤ x < n) → len (done ++ l) ≤ size * m →
  ∃ s', for_fold l s (pack_group size m w) tt = (Ok s', tt) ∧ Packed size m n (done ++ l) s'.
Proof.
  revert done s. induction l as [|g l IH]; intros done s HP Hnd Hin Hle.
  - exists s. split; [done|]. by rewrite app_nil_r.
  - destruct (pack_group_ok size m n w done s g HP) as (s1 & E1 & HP1).
    + apply Hin. rewrite elem_of_app. right. by left.
    + intros Hg. apply NoDup_app in Hnd as (_ & Hd & _). apply (Hd g Hg). by left.
    + intros x Hx. apply Hin. rewrite elem_of_app. by left.
    + rewrite len_app, len_cons in Hle. pose proof (len_nonneg l). lia.
    + replace (done ++ g :: l) with ((done ++ [g]) ++ l) in * by (by rewrite <- app_assoc).
      destruct (IH (done ++ [g]) s1 HP1 Hnd Hin Hle) as (s' & E' & HP'). exists s'. split; [|done]. simpl. unfold bind. by rewrite E1.
Qed.

Lemma pairs_blank m : pairs (repeat 0 m) = [].
Proof. unfold pairs. generalize 0%nat. induction m as [|m IH]; intros k; simpl; [done|]. by rewrite pairs_from_cons, IH. Qed.

Lemma zip_as_map (l l' : list Z) n : len l = n → len l' = n → zip l l' = map (λ g, (at_ 0 l g, at_ 0 l' g)) (zrange 0 n).
Proof.
  intros <- Hl. rewrite <- (map_at 0 l) at 1. rewrite <- (map_at 0 l') at 1. rewrite Hl.
  generalize (zrange 0 (len l)). intros k. induction k as [|x k IH]; [done|]. simpl. by rewrite IH.
Qed.

(** What a packing of [n] items into [m] packs of [size] promises: *)
Definition Packing (size m n : Z) (index ranks : list Z) : Prop :=
  len index = n ∧ len ranks = n ∧ zip index ranks ≡ₚ pairs (repeat size (Z.to_nat m)).

Lemma pack_row_ok size m w :
  0 ≤ size → 0 ≤ m → len w = size * m →
  ∃ index ranks, pack_row size m w tt = (Ok (index, ranks), tt) ∧ Packing size m (len w) index ranks.
Proof.
  intros Hs Hm Hn. unfold pack_row.
  pose proof (argsort_perm w) as Hperm.
  destruct (pack_loop size m (len w) w (argsort_desc w) []
    (mk_packing (repeat (-1) (length w)) (repeat (-1) (length w)) (repeat w_zero (Z.to_nat m)) (repeat 0 (Z.to_nat m)))) as (s & E & HP).
  - split; simpl; rewrite ?len_repeat; try (unfold len; lia).
    + intros c Hc. apply list_elem_of_In, repeat_spec in Hc as ->. lia.
    + by rewrite pairs_blank.
  - simpl. rewrite Hperm. apply NoDup_zrange.
  - intros x. simpl. rewrite Hperm. rewrite elem_of_zrange. lia.
  - simpl. unfold len. rewrite Hperm. fold (len (zrange 0 (len w))). rewrite len_zrange by apply len_nonneg. lia.
  - unfold bind. rewrite E. exists (pack_index s), (rank_in_pack s). split; [done|]. simpl in HP.
    pose proof (packed_size _ _ _ _ _ HP) as Hsz. destruct HP as [Hi Hr Hp Hc Hpl]. split_and!; [done|done|].
    rewrite (zip_as_map _ _ (len w)) by done. rewrite <- Hperm, Hpl.
    replace (pack_items s) with (repeat size (Z.to_nat m)); [done|]. rewrite (counts_full size (pack_items s)).
    + f_equal. unfold len in Hp. lia.
    + intros c Hcin. by apply Hc.
    + rewrite <- Hsz, Hp, <- Hn. unfold len. rewrite Hperm. fold (len (zrange 0 (len w))). rewrite len_zrange by apply len_nonneg. unfold len. lia.
Qed.

(** ** Copies *)

(** The first [i] slots hold a copy each of what the counts say. *)
Record Copied (num_log num_phy i : Z) (s : copies) : Prop := {
  cp_phy : len (phy2log s) = num_phy;
  cp_rank : len (rank s) = num_phy;
  cp_cnt : len (logcnt s) = num_log;
  cp_ones c : c ∈ logcnt s → 1 ≤ c;
  cp_slots : map (λ p, (at_ 0 (phy2log s) p, at_ 0 (rank s) p)) (zrange 0 i) ≡ₚ pairs (logcnt s)
}.

Lemma pairs_ones k n : pairs_from k (repeat 1 n) = map (λ p, (p, 0)) (zrange (Z.of_nat k) (Z.of_nat k + Z.of_nat n)).
Proof.
  revert k. induction n as [|n IH]; intros k; simpl.
  - by rewrite zrange_empty by lia.
  - rewrite pairs_from_cons, IH, (zrange_cons (Z.of_nat k)) by lia. simpl. f_equal. f_equal. f_equal; lia.
Qed.

Lemma copy_expert_ok num_log num_phy i w s :
  len w = num_log → 0 < num_log → 0 ≤ i < num_phy → Copied num_log num_phy i s →
  ∃ s', copy_expert w s i tt = (Ok s', tt) ∧ Copied num_log num_phy (i + 1) s'.
Proof.
  intros Hw Hpos Hi [Hp Hr Hc Hones Hs]. set (load := zip_with w_div w (logcnt s)).
  assert (len load = num_log) as Hload by (unfold load, len in *; rewrite length_zip_with; lia).
  destruct (best_found (λ _, true) (λ p q, w_ltb (at_ w_zero load q) (at_ w_zero load p)) (zrange 0 (len load)) None)
    as (e & He & _ & [|Hin]); [done| |done|].
  { right. exists 0. rewrite elem_of_zrange. split; [lia|done]. }
  simpl in He. apply elem_of_zrange in Hin.
  assert (logcnt s !! Z.to_nat e = Some (at_ 0 (logcnt s) e)) as Hlook by (apply at_inside; lia).
  pose proof (Hones _ (list_elem_of_lookup_2 _ _ _ Hlook)) as Hone.
  unfold copy_expert, argmax. fold load. rewrite He. unfold bind, of_option, ret. eexists. split; [reflexivity|].
  split; simpl; rewrite ?len_list_set; try done.
  - intros c Hcin. rewrite list_set_insert in Hcin by lia.
    apply list_elem_of_lookup in Hcin as [j Hj]. apply list_lookup_insert_Some in Hj as [(_ & <- & _)|[_ Hj]]; [lia|].
    apply Hones. by eapply list_elem_of_lookup_2.
  - rewrite zrange_snoc by lia. rewrite map_app. simpl. rewrite !at_set by lia. rewrite (list_set_insert (logcnt s)) by lia.
    unfold pairs. rewrite (pairs_incr 0 _ _ _ Hlook) by lia. simpl. rewrite Z2Nat.id by lia. rewrite <- Permutation_cons_append. f_equiv.
    fold pairs. rewrite <- Hs. apply reflexive_eq. apply map_ext_in. intros x Hx.
    assert (x ∈ zrange 0 i) as Hx' by (by apply list_elem_of_In). apply elem_of_zrange in Hx'. by rewrite !at_set_ne by lia.
Qed.

Lemma copy_loop num_log num_phy n i w s :
  len w = num_log → 0 < num_log → 0 ≤ i → i + Z.of_nat n = num_phy → Copied num_log num_phy i s →
  ∃ s', for_fold (zrange i num_phy) s (copy_expert w) tt = (Ok s', tt) ∧ Copied num_log num_phy num_phy s'.
Proof.
  intros Hw Hpos. revert i s. induction n as [|n IH]; intros i s Hi Hn HC.
  - rewrite zrange_empty by lia. exists s. split; [done|]. by replace num_phy with i at 2 by lia.
  - rewrite zrange_cons by lia. destruct (copy_expert_ok num_log num_phy i w s Hw Hpos) as (s1 & E1 & HC1); [lia|done|].
    destruct (IH (i + 1) s1) as (s' & E' & HC'); [lia|lia|done|]. exists s'. split; [|done]. simpl. unfold bind. by rewrite E1.
Qed.

(** What copying [num_log] experts to [num_phy] slots promises: *)
Definition Copying (num_log num_phy : Z) (s : copies) : Prop :=
  len (phy2log s) = num_phy ∧ len (rank s) = num_phy ∧ len (logcnt s) = num_log ∧
  (∀ c, c ∈ logcnt s → 1 ≤ c) ∧ zip (phy2log s) (rank s) ≡ₚ pairs (logcnt s).

Lemma replicate_row_ok w num_phy :
  0 < len w ≤ num_phy → ∃ s, replicate_row num_phy w tt = (Ok s, tt) ∧ Copying (len w) num_phy s.
Proof.
  intros Hw. unfold replicate_row.
  destruct (copy_loop (len w) num_phy (Z.to_nat (num_phy - len w)) (len w) w
    (mk_copies (zrange 0 num_phy) (repeat 0 (Z.to_nat num_phy)) (repeat 1 (length w)))) as (s & E & [Hp Hr Hc Hones Hs]); [done|lia..| |].
  - split; simpl; rewrite ?len_repeat, ?len_zrange by lia; try lia.
    + done.
    + intros c Hcin. apply list_elem_of_In, repeat_spec in Hcin as ->. lia.
    + unfold pairs. rewrite pairs_ones. simpl. apply reflexive_eq. apply map_ext_in. intros x Hx.
      assert (x ∈ zrange 0 (len w)) as Hx' by (by apply list_elem_of_In). apply elem_of_zrange in Hx'.
      rewrite at_zrange, at_repeat by lia. done.
  - exists s. split; [done|]. split_and!; try done. by rewrite (zip_as_map _ _ num_phy).
Qed.

(** ** Index arrays *)

Lemma put_along_ok {T} (d : T) l (puts : list (Z * T)) :
  (∀ i, i ∈ puts.*1 → 0 ≤ i < len l) → NoDup puts.*1 →
  ∃ l', put_along l puts tt = (Ok l', tt) ∧ len l' = len l ∧
    (∀ i x, (i, x) ∈ puts → at_ d l' i = x) ∧ ∀ i, 0 ≤ i → i ∉ puts.*1 → at_ d l' i = at_ d l i.
Proof.
  revert l. induction puts as [|[i x] puts IH]; intros l Hin Hnd.
  - exists l. split; [done|]. split; [done|]. split; [|done]. by intros i x ?%elem_of_nil.
  - simpl in Hnd. apply NoDup_cons in Hnd as [Hi Hnd]. assert (0 ≤ i < len l) as Hil by (apply Hin; by left).
    destruct (IH (list_set l i x)) as (l' & E & Hl & Hput & Hrest); [intros j Hj; rewrite len_list_set; apply Hin; by right|done|].
    exists l'. split_and!.
    + unfold put_along. simpl. unfold bind at 1. replace ((- len l <=? i) && (i <? len l)) with true by lia.
      replace (i <? 0) with false by lia. simpl. exact E.
    + by rewrite Hl, len_list_set.
    + intros j y [[= -> ->]|Hj]%elem_of_cons; [|by apply Hput]. rewrite Hrest by (done || lia). by apply at_set.
    + intros j Hj Hn. simpl in Hn. apply not_elem_of_cons in Hn as [Hne Hn]. rewrite Hrest by done. apply at_set_ne; [done|lia|done].
Qed.

Lemma zip_zrange (l : list Z) : zip l (zrange 0 (len l)) = map (λ j, (at_ 0 l j, j)) (zrange 0 (len l)).
Proof.
  rewrite <- (map_at 0 l) at 1. generalize (zrange 0 (len l)). intros k. induction k as [|x k IH]; [done|]. simpl. by rewrite IH.
Qed.

Lemma in_perm n perm i : perm ≡ₚ zrange 0 n → 0 ≤ i < len perm → 0 ≤ at_ 0 perm i < n.
Proof.
  intros HP Hi. assert (at_ 0 perm i ∈ perm) as Hin by (eapply list_elem_of_lookup_2; by apply at_inside).
  apply elem_of_zrange. by eapply elem_of_Permutation_proper.
Qed.

(** The inverse of a permutation *)
Definition Inverse (n : Z) (perm inv : list Z) : Prop :=
  len inv = n ∧ inv ≡ₚ zrange 0 n ∧ (∀ j, 0 ≤ j < n → at_ 0 inv (at_ 0 perm j) = j) ∧ ∀ i, 0 ≤ i < n → at_ 0 perm (at_ 0 inv i) = i.

Lemma inverse_row_ok n perm : 0 ≤ n → perm ≡ₚ zrange 0 n → ∃ inv, inverse_row perm tt = (Ok inv, tt) ∧ Inverse n perm inv.
Proof.
  intros Hn HP. assert (len perm = n) as Hlen.
  { unfold len. rewrite HP. fold (len (zrange 0 n)). rewrite len_zrange by done. lia. }
  assert (NoDup perm) as Hnd by (rewrite HP; apply NoDup_zrange).
  assert ((zip perm (zrange 0 n)).*1 = perm) as Hfst by (apply fst_zip; rewrite <- Hlen; unfold zrange, len; rewrite length_fmap, length_seq; lia).
  destruct (put_along_ok 0 (np_empty (length perm)) (zip perm (zrange 0 (len perm)))) as (inv & E & Hl & Hput & _).
  - rewrite Hlen, Hfst. intros i Hi. rewrite HP in Hi. apply elem_of_zrange in Hi. unfold len in *. rewrite length_np_empty. lia.
  - by rewrite Hlen, Hfst.
  - assert (∀ j, 0 ≤ j < n → at_ 0 inv (at_ 0 perm j) = j) as H1.
    { intros j Hj. apply Hput. rewrite zip_zrange. apply list_elem_of_fmap. exists j. split; [done|]. apply elem_of_zrange. lia. }
    assert (∀ i, 0 ≤ i < n → ∃ j, 0 ≤ j < n ∧ at_ 0 perm j = i) as Hsurj.
    { intros i Hi. assert (i ∈ perm) as Hin by (rewrite HP; by apply elem_of_zrange). apply list_elem_of_lookup in Hin as [j Hj].
      exists (Z.of_nat j). pose proof (lookup_lt_Some _ _ _ Hj). unfold len in Hlen. split; [lia|]. apply at_lookup. by rewrite Nat2Z.id. }
    assert (∀ i, 0 ≤ i < n → at_ 0 perm (at_ 0 inv i) = i) as H2.
    { intros i Hi. destruct (Hsurj i Hi) as (j & Hj & <-). by rewrite H1. }
    assert (len inv = n) as Hinv by (rewrite Hl; unfold len in *; rewrite length_np_empty; lia).
    exists inv. split; [exact E|]. split_and!; [done| |done|done].
    rewrite <- (map_at 0 inv), Hinv. apply NoDup_Permutation.
    + apply NoDup_fmap_2_strong; [|apply NoDup_zrange]. intros x y Hx Hy Hxy. apply elem_of_zrange in Hx, Hy.
      by rewrite <- (H2 x), <- (H2 y), Hxy.
    + apply NoDup_zrange.
    + intros x. rewrite list_elem_of_fmap. split.
      * intros (i & -> & Hi). apply elem_of_zrange in Hi. destruct (Hsurj i Hi) as (j & Hj & <-). rewrite H1 by done. by apply elem_of_zrange.
      * intros Hx. apply elem_of_zrange in Hx. exists (at_ 0 perm x). split; [by rewrite H1|]. apply elem_of_zrange.
        eapply in_perm; [done|lia].
Qed.

Lemma take_along_ok {T} (d : T) l idx :
  (∀ i, i ∈ idx → 0 ≤ i < len l) → take_along l idx tt = (Ok (map (at_ d l) idx), tt).
Proof.
  intros Hin. induction idx as [|i idx IH]; [done|]. unfold take_along in *. simpl. unfold bind at 1.
  assert (0 ≤ i < len l) as Hi by (apply Hin; by left). rewrite (py_index_inside l i Hi), (at_inside d l i Hi). simpl.
  unfold bind. rewrite IH by (intros; apply Hin; by right). done.
Qed.

(** ** Rows *)

Lemma for_map_ok {T U} (f : T → M () U) (Q : T → U → Prop) l :
  (∀ x, x ∈ l → ∃ y, f x tt = (Ok y, tt) ∧ Q x y) → ∃ ys, for_map l f tt = (Ok ys, tt) ∧ Forall2 Q l ys.
Proof.
  intros Hf. induction l as [|x l IH]; [by exists []|]. destruct (Hf x (list_elem_of_here _ _)) as (y & E & Hy).
  destruct IH as (ys & E' & Hys); [intros; apply Hf; by right|]. exists (y :: ys). split; [|by constructor].
  simpl. unfold bind. by rewrite E, E'.
Qed.

Lemma length_chunks {T} k m (l : list T) : length (chunks k m l) = k.
Proof. unfold chunks. by rewrite length_map, length_seq. Qed.
Lemma chunks_lookup {T} k m (l : list T) i : (i < k)%nat → chunks k m l !! i = Some (take m (drop (i * m) l)).
Proof. intros Hi. unfold chunks. by rewrite list_lookup_fmap, lookup_seq_lt. Qed.
Lemma chunks_size {T} k m (l : list T) r : length l = (k * m)%nat → r ∈ chunks k m l → length r = m.
Proof.
  intros Hl Hr. apply list_elem_of_lookup in Hr as [i Hi]. pose proof (lookup_lt_Some _ _ _ Hi) as Hk. rewrite length_chunks in Hk.
  rewrite chunks_lookup in Hi by done. injection Hi as <-. rewrite length_take, length_drop. nia.
Qed.

Lemma length_concat_rows {T} (ls : list (list T)) m : (∀ r, r ∈ ls → length r = m) → length (concat ls) = (length ls * m)%nat.
Proof.
  intros Hm. induction ls as [|r ls IH]; [done|]. simpl. rewrite length_app, IH by (intros; apply Hm; by right).
  rewrite (Hm r) by left. lia.
Qed.

Lemma drop_concat {T} (ls : list (list T)) m k : (∀ r, r ∈ ls → length r = m) → drop (k * m) (concat ls) = concat (drop k ls).
Proof.
  revert k. induction ls as [|r ls IH]; intros k Hm; simpl; [by rewrite !drop_nil|].
  assert (length r = m) as Hr by (apply Hm; by left). destruct k as [|k]; [done|]. simpl.
  rewrite drop_app_ge by lia. rewrite Hr. replace (m + k * m - m)%nat with (k * m)%nat by lia. apply IH. intros; apply Hm; by right.
Qed.
Lemma take_concat {T} (ls : list (list T)) m k : (∀ r, r ∈ ls → length r = m) → take (k * m) (concat ls) = concat (take k ls).
Proof.
  revert k. induction ls as [|r ls IH]; intros k Hm; simpl; [by rewrite !take_nil|].
  assert (length r = m) as Hr by (apply Hm; by left). destruct k as [|k]; [done|]. simpl.
  rewrite take_app_ge by lia. f_equal. rewrite Hr. replace (m + k * m - m)%nat with (k * m)%nat by lia. apply IH. intros; apply Hm; by right.
Qed.

(** Rows of rows *)
Lemma chunks_concat {T} k n m (ls : list (list T)) :
  (∀ r, r ∈ ls → length r = m) → chunks k (n * m) (concat ls) = map (@concat _) (chunks k n ls).
Proof.
  intros Hm. unfold chunks. rewrite map_map. apply map_ext. intros i. rewrite Nat.mul_assoc, drop_concat by done.
  apply take_concat. intros r Hr. apply Hm. apply (sublist_subseteq _ _ (sublist_drop ls (i * n))). exact Hr.
Qed.

(** All rows of an array are as long as it is wide. *)
Definition Shaped {T} (n w : Z) (a : array T) : Prop := width a = w ∧ len (rows a) = n ∧ ∀ r, r ∈ rows a → len r = w.

Lemma shaped_flat {T} n w (a : array T) : Shaped n w a → len (concat (rows a)) = n * w.
Proof.
  intros (_ & Hn & Hw). unfold len in *. rewrite (length_concat_rows _ (Z.to_nat w)).
  - destruct (rows a) as [|r l] eqn:E; [simpl in *; subst n; simpl; lia|]. specialize (Hw r (list_elem_of_here _ _)). nia.
  - intros r Hr. specialize (Hw r Hr). lia.
Qed.

Lemma reshape_cols_ok {T} n w k m (a : array T) :
  Shaped n w a → 0 < m → w = k * m → 0 ≤ k → ∃ a', reshape_cols m a tt = (Ok a', tt) ∧ Shaped (n * k) m a'.
Proof.
  intros HS Hm -> Hk. pose proof (shaped_flat _ _ _ HS) as Hf. destruct HS as (_ & Hn & _). pose proof (len_nonneg (rows a)).
  assert (0 ≤ n * k) by nia. unfold reshape_cols. replace (n * (k * m)) with ((n * k) * m) in Hf by lia. rewrite Hf.
  rewrite Z_mod_mult, Z_div_mult by lia. replace (m =? 0) with false by lia. simpl. eexists. split; [reflexivity|].
  split; [done|]. simpl. split; [unfold len; rewrite length_chunks; lia|]. intros r Hr.
  assert (length (concat (rows a)) = (Z.to_nat (n * k) * Z.to_nat m)%nat) as HL by (unfold len in Hf; nia).
  unfold len. rewrite (chunks_size _ _ _ _ HL Hr). lia.
Qed.

Lemma reshape_rows_ok {T} n k w (a : array T) :
  Shaped (n * k) w a → 0 < n → 0 ≤ k → 0 ≤ w →
  ∃ a', reshape_rows n a tt = (Ok a', tt) ∧ rows a' = map (@concat _) (chunks (Z.to_nat n) (Z.to_nat k) (rows a)) ∧ Shaped n (k * w) a'.
Proof.
  intros HS Hn Hk Hw. pose proof (shaped_flat _ _ _ HS) as Hf. destruct HS as (_ & Hr & Hrow). unfold reshape_rows.
  replace (n * k * w) with ((k * w) * n) in Hf by lia. rewrite Hf, Z_mod_mult, Z_div_mult by lia. replace (n =? 0) with false by lia. simpl.
  assert (∀ r, r ∈ rows a → length r = Z.to_nat w) as Hrow' by (intros r Hr'; specialize (Hrow r Hr'); unfold len in Hrow; lia).
  eexists. split; [reflexivity|]. simpl. split.
  - rewrite Z2Nat.inj_mul by lia. by apply chunks_concat.
  - split; [done|]. simpl. split; [unfold len; rewrite length_chunks; lia|]. intros r Hr'.
    assert (length (concat (rows a)) = (Z.to_nat n * Z.to_nat (k * w))%nat) as HL by (unfold len in Hf; nia).
    unfold len. rewrite (chunks_size _ _ _ _ HL Hr'). nia.
Qed.

(** ** Places *)

Lemma zrange_shift a n : map (Z.add a) (zrange 0 n) = zrange a (a + n).
Proof. unfold zrange. replace (a + n - a) with (n - 0) by lia. rewrite <- list_fmap_compose. by apply list_fmap_ext. Qed.

(** The places of [m] packs of [size], in order *)
Lemma pairs_flat size k m :
  0 ≤ size → map (λ '(p, r), p * size + r) (pairs_from k (repeat size m)) = zrange (Z.of_nat k * size) (Z.of_nat (k + m) * size).
Proof.
  intros Hs. revert k. induction m as [|m IH]; intros k; simpl.
  - by rewrite zrange_empty by nia.
  - rewrite pairs_from_cons, map_app, IH, map_map. rewrite (zrange_app (Z.of_nat k * size) (Z.of_nat k * size + size)) by nia.
    f_equal; [apply zrange_shift|f_equal; nia].
Qed.

Lemma places_perm size m n index ranks :
  0 ≤ size → 0 ≤ m → n = size * m → Packing size m n index ranks →
  zip_with (λ p r, p * size + r) index ranks ≡ₚ zrange 0 n.
Proof.
  intros Hs Hm -> (_ & _ & HP). replace (zip_with (λ p r, p * size + r) index ranks) with (map (λ '(p, r), p * size + r) (zip index ranks)).
  - rewrite HP. unfold pairs. rewrite pairs_flat by done. apply reflexive_eq. f_equal; lia.
  - clear HP. revert ranks. induction index as [|i index IH]; intros [|r ranks]; simpl; try done. by rewrite IH.
Qed.

Lemma spread_perm size m places : 0 ≤ size → 0 ≤ m → places ≡ₚ zrange 0 m → spread size places ≡ₚ zrange 0 (m * size).
Proof.
  intros Hs Hm HP. unfold spread. rewrite HP. clear HP.
  assert (∀ k n, concat (map (λ p, map (λ i, p * size + i) (zrange 0 size)) (map Z.of_nat (seq k n)))
    = zrange (Z.of_nat k * size) (Z.of_nat (k + n) * size)) as Hall.
  { intros k n. revert k. induction n as [|n IH]; intros k; simpl; [by rewrite zrange_empty by nia|].
    rewrite IH, zrange_shift. rewrite (zrange_app (Z.of_nat k * size) (Z.of_nat k * size + size) (Z.of_nat (k + S n) * size)) by nia.
    f_equal. f_equal; nia. }
  replace (zrange 0 m) with (map Z.of_nat (seq 0 (Z.to_nat m))).
  - rewrite Hall. apply reflexive_eq. f_equal; lia.
  - unfold zrange. replace (m - 0) with m by lia. apply map_ext. intros; lia.
Qed.

(** ** Arrays by row *)

Definition row {T} (a : array T) (t : Z) : list T := at_ [] (rows a) t.

Lemma shaped_row {T} n w (a : array T) t : Shaped n w a → 0 ≤ t < n → len (row a t) = w.
Proof. intros (_ & Hn & Hw) Ht. apply Hw. eapply list_elem_of_lookup_2. apply at_inside. lia. Qed.
Lemma shaped_intro {T} n w (a : array T) : width a = w → len (rows a) = n → (∀ t, 0 ≤ t < n → len (row a t) = w) → Shaped n w a.
Proof.
  intros Hw Hn Hr. split; [done|]. split; [done|]. intros r Hin. apply list_elem_of_lookup in Hin as [i Hi].
  pose proof (lookup_lt_Some _ _ _ Hi). rewrite <- (Hr (Z.of_nat i)) by (unfold len in Hn; lia). f_equal. symmetry. apply at_lookup. by rewrite Nat2Z.id.
Qed.

Lemma at_map {T U} d e (f : T → U) l t : 0 ≤ t < len l → at_ e (map f l) t = f (at_ d l t).
Proof. intros Ht. apply at_lookup. rewrite list_lookup_fmap. by rewrite (at_inside d). Qed.
Lemma at_zip_with {T U V} d e g (f : T → U → V) l l' t :
  0 ≤ t < len l → len l' = len l → at_ g (zip_with f l l') t = f (at_ d l t) (at_ e l' t).
Proof.
  intros Ht Hl. apply at_lookup. rewrite lookup_zip_with. rewrite (at_inside d) by done. simpl. by rewrite (at_inside e) by lia.
Qed.
Lemma len_map {T U} (f : T → U) l : len (map f l) = len l.
Proof. unfold len. by rewrite length_map. Qed.
Lemma len_zip_with {T U V} (f : T → U → V) l l' : len l' = len l → len (zip_with f l l') = len l.
Proof. unfold len. rewrite length_zip_with. lia. Qed.

Lemma for_map_rows {T U} (d : T) (e : U) (f : T → M () U) (Q : Z → U → Prop) l :
  (∀ t, 0 ≤ t < len l → ∃ y, f (at_ d l t) tt = (Ok y, tt) ∧ Q t y) →
  ∃ ys, for_map l f tt = (Ok ys, tt) ∧ len ys = len l ∧ ∀ t, 0 ≤ t < len l → Q t (at_ e ys t).
Proof.
  revert Q. induction l as [|x l IH]; intros Q Hf.
  - exists []. split; [done|]. split; [done|]. unfold len. simpl. lia.
  - rewrite len_cons in Hf. pose proof (len_nonneg l) as Hl. destruct (Hf 0) as (y & E & Hy); [lia|].
    destruct (IH (λ t, Q (t + 1))) as (ys & E' & Hn & Hys).
    + intros t Ht. destruct (Hf (t + 1)) as (y' & Ey & Hy'); [lia|]. exists y'. split; [|done]. rewrite <- Ey. f_equal. unfold at_.
      by replace (Z.to_nat (t + 1)) with (S (Z.to_nat t)) by lia.
    + exists (y :: ys). split_and!.
      * simpl. unfold bind. change (f x tt = (Ok y, tt)) in E. by rewrite E, E'.
      * by rewrite !len_cons, Hn.
      * intros t Ht. rewrite len_cons in Ht. destruct (decide (t = 0)) as [->|Hne]; [done|]. specialize (Hys (t - 1) ltac:(lia)).
        replace (t - 1 + 1) with t in Hys by lia. unfold at_ in *. by replace (Z.to_nat t) with (S (Z.to_nat (t - 1))) by lia.
Qed.

Lemma take_rows_ok {T} (d : T) n w m (a : array T) (idx : array Z) :
  Shaped n w a → Shaped n m idx → (∀ t i, 0 ≤ t < n → i ∈ row idx t → 0 ≤ i < w) →
  ∃ b, take_rows a idx tt = (Ok b, tt) ∧ Shaped n m b ∧ ∀ t, 0 ≤ t < n → row b t = map (at_ d (row a t)) (row idx t).
Proof.
  intros Ha Hi Hin. pose proof Ha as (_ & Hn & _). pose proof Hi as (Hm & Hn' & _). unfold take_rows.
  assert (len (zip (rows a) (rows idx)) = n) as Hz by (rewrite <- Hn; apply len_zip_with; lia).
  destruct (for_map_rows ([], []) [] (λ '(l, i), take_along l i) (λ t b, b = map (at_ d (row a t)) (row idx t)) (zip (rows a) (rows idx)))
    as (ys & E & Hl & Hys).
  - intros t Ht. rewrite (at_zip_with [] []) by lia. eexists. split; [|reflexivity]. apply take_along_ok. intros i Hii.
    fold (row a t). rewrite (shaped_row n w) by (done || lia). apply (Hin t); [lia|done].
  - rewrite Hz in *. unfold bind. rewrite E. eexists. split; [reflexivity|]. split; [|exact Hys].
    apply shaped_intro; [done|exact Hl|]. intros t Ht. unfold row at 1. simpl. rewrite Hys, len_map by done. by apply (shaped_row n).
Qed.

Lemma map_rows_ok {T} n w (f : list T → M () (list Z)) (Q : Z → list Z → Prop) (a : array T) :
  Shaped n w a → (∀ t, 0 ≤ t < n → ∃ y, f (row a t) tt = (Ok y, tt) ∧ len y = w ∧ Q t y) →
  ∃ b, map_rows f w a tt = (Ok b, tt) ∧ Shaped n w b ∧ ∀ t, 0 ≤ t < n → Q t (row b t).
Proof.
  intros (Hw & Hn & Hr) Hf. unfold map_rows. rewrite <- Hn in *.
  destruct (for_map_rows [] [] f (λ t y, len y = w ∧ Q t y) (rows a)) as (ys & E & Hl & Hys); [exact Hf|].
  unfold bind. rewrite E. eexists. split; [reflexivity|]. split.
  - apply shaped_intro; [done|exact Hl|]. intros t Ht. by apply Hys.
  - intros t Ht. by apply Hys.
Qed.

(** ** Packing and copying every row *)

Lemma packing_ones n : 0 ≤ n → Packing 1 n n (zrange 0 n) (repeat 0 (Z.to_nat n)).
Proof.
  intros Hn. split_and!; [rewrite len_zrange; lia|rewrite len_repeat; lia|].
  rewrite (zip_as_map _ _ n) by (rewrite ?len_zrange, ?len_repeat; lia). unfold pairs. rewrite pairs_ones.
  replace (Z.of_nat 0 + Z.of_nat (Z.to_nat n)) with n by lia. apply reflexive_eq. apply map_ext_in. intros x Hx.
  assert (x ∈ zrange 0 n) as Hx' by (by apply list_elem_of_In). apply elem_of_zrange in Hx'. rewrite at_zrange, at_repeat by lia. done.
Qed.

Lemma balanced_packing_ok n w size m a :
  Shaped n w a → 0 < m → 0 ≤ size → w = size * m →
  ∃ index ranks, balanced_packing a m tt = (Ok (index, ranks), tt) ∧ Shaped n w index ∧ Shaped n w ranks ∧
    ∀ t, 0 ≤ t < n → Packing size m w (row index t) (row ranks t).
Proof.
  intros HS Hm Hs Hw. pose proof HS as (Hwa & Hn & Hr). unfold balanced_packing. unfold bind at 1, raise_if.
  replace (m =? 0) with false by lia. unfold ret at 1. unfold bind at 1, py_assert, raise_if.
  rewrite Hwa, Hw, Z_mod_mult, Z_div_mult by lia. rewrite <- Hw. simpl. destruct (size =? 1) eqn:Es; simpl.
  - assert (w = m) as Hwm by lia. eexists _, _. split; [reflexivity|].
    assert (∀ t, 0 ≤ t < n → Packing size m w (row (mk_array w (map (λ _, zrange 0 w) (rows a))) t)
      (row (mk_array w (map (λ r, repeat 0 (length r)) (rows a))) t)) as HP.
    { intros t Ht. unfold row. simpl. rewrite !(at_map []) by lia. fold (row a t). pose proof (shaped_row _ _ _ _ HS Ht) as Hl.
      replace (length (row a t)) with (Z.to_nat w) by (unfold len in Hl; lia). replace size with 1 by lia. rewrite <- Hwm.
      apply packing_ones. unfold len in Hl. lia. }
    split_and!; [| |exact HP]; apply shaped_intro; try done; try (simpl; by rewrite len_map); intros t Ht; by apply HP.
  - destruct (for_map_rows [] ([], []) (pack_row size m) (λ t y, Packing size m w y.1 y.2) (rows a)) as (ys & E & Hl & Hys).
    + intros t Ht. fold (row a t). assert (len (row a t) = w) as Hrow by (apply (shaped_row n); [done|lia]).
      destruct (pack_row_ok size m (row a t)) as (i & r & E & HP); [done|lia|lia|]. exists (i, r). split; [exact E|]. by rewrite <- Hrow.
    + unfold bind. rewrite E. eexists _, _. split; [reflexivity|]. rewrite Hn in *.
      assert (∀ t, 0 ≤ t < n → Packing size m w (row (mk_array w ys.*1) t) (row (mk_array w ys.*2) t)) as HP.
      { intros t Ht. unfold row. simpl. rewrite !(at_map ([], [])) by lia. by apply Hys. }
      split_and!; [| |exact HP]; apply shaped_intro; try done; try (simpl; rewrite len_map; lia); intros t Ht; by apply HP.
Qed.

Lemma replicate_experts_ok n num_log num_phy a :
  Shaped n num_log a → 0 < num_log ≤ num_phy →
  ∃ p r c, replicate_experts a num_phy tt = (Ok (p, r, c), tt) ∧ Shaped n num_phy p ∧ Shaped n num_phy r ∧ Shaped n num_log c ∧
    ∀ t, 0 ≤ t < n → Copying num_log num_phy (mk_copies (row p t) (row r t) (row c t)).
Proof.
  intros HS Hl. pose proof HS as (Hwa & Hn & Hr). unfold replicate_experts. unfold bind at 1, py_assert, raise_if.
  rewrite Hwa. replace (num_phy - num_log >=? 0) with true by lia. simpl.
  destruct (for_map_rows [] (mk_copies [] [] []) (replicate_row num_phy) (λ t s, Copying num_log num_phy s) (rows a)) as (ys & E & Hly & Hys).
  - intros t Ht. fold (row a t). assert (len (row a t) = num_log) as Hrow by (apply (shaped_row n); [done|lia]).
    destruct (replicate_row_ok (row a t) num_phy) as (s & E & HC); [lia|]. exists s. split; [exact E|]. by rewrite <- Hrow.
  - unfold bind. rewrite E. eexists _, _, _. split; [reflexivity|]. rewrite Hn in *.
    assert (∀ t, 0 ≤ t < n → Copying num_log num_phy
      (mk_copies (row (mk_array num_phy (map phy2log ys)) t) (row (mk_array num_phy (map rank ys)) t) (row (mk_array num_log (map logcnt ys)) t))) as HC.
    { intros t Ht. unfold row. simpl. rewrite !(at_map (mk_copies [] [] [])) by lia. specialize (Hys t Ht).
      by destruct (at_ _ ys t). }
    split_and!; [| | |exact HC]; apply shaped_intro; try done; try (simpl; rewrite len_map; lia); intros t Ht; by apply HC.
Qed.

Lemma inverse_ok n w perm :
  0 ≤ w → Shaped n w perm → (∀ t, 0 ≤ t < n → row perm t ≡ₚ zrange 0 w) →
  ∃ inv, _inverse perm tt = (Ok inv, tt) ∧ Shaped n w inv ∧ ∀ t, 0 ≤ t < n → Inverse w (row perm t) (row inv t).
Proof.
  intros Hw HS HP. unfold _inverse. pose proof HS as (Hwp & _). rewrite Hwp. apply (map_rows_ok n w inverse_row (λ t, Inverse w (row perm t))); [done|]. intros t Ht.
  destruct (inverse_row_ok w (row perm t) Hw (HP t Ht)) as (inv & E & HI). exists inv. split_and!; [done|apply HI|done].
Qed.

(** ** One layer of nodes *)

Lemma pairs_from_shift k counts : pairs_from k counts = map (λ '(e, r), (Z.of_nat k + e, r)) (pairs counts).
Proof.
  unfold pairs. rewrite <- (Nat.add_0_r k) at 1. generalize 0%nat. induction counts as [|c counts IH]; intros j; [done|].
  rewrite !pairs_from_cons, map_app, map_map, <- IH. rewrite Nat.add_succ_r. f_equal. apply map_ext. intros r. f_equal. lia.
Qed.

Lemma pairs_from_app k c cs : pairs_from k (c ++ cs) = pairs_from k c ++ pairs_from (k + length c) cs.
Proof.
  revert k. induction c as [|x c IH]; intros k; simpl; [by rewrite Nat.add_0_r|]. rewrite !pairs_from_cons, IH, <- app_assoc. do 3 f_equal. lia.
Qed.

Lemma zip_shift k (m r : list Z) : zip (map (Z.add k) m) r = map (λ '(e, r), (k + e, r)) (zip m r).
Proof. revert r. induction m as [|x m IH]; intros [|y r]; simpl; try done. by rewrite IH. Qed.

(** The copies of each node, its experts numbered after those of the nodes before *)
Lemma pairs_concat w o (ms rs cs : list (list Z)) :
  length ms = length cs → length rs = length cs →
  (∀ n m r c, ms !! n = Some m → rs !! n = Some r → cs !! n = Some c →
    length c = w ∧ length m = length r ∧ zip m r ≡ₚ pairs_from ((o + n) * w) c) →
  zip (concat ms) (concat rs) ≡ₚ pairs_from (o * w) (concat cs).
Proof.
  revert o ms rs. induction cs as [|c cs IH]; intros o [|m ms] [|r rs] Hm Hr Hn; try discriminate; simpl; [done|].
  destruct (Hn 0%nat m r c) as (Hc & Hmr & HP); [done..|]. rewrite Nat.add_0_r in HP. rewrite zip_with_app by done. rewrite pairs_from_app, HP. f_equiv.
  replace (o * w + length c)%nat with (S o * w)%nat by lia. apply IH; [by injection Hm|by injection Hr|].
  intros n m' r' c' H1 H2 H3. destruct (Hn (S n) m' r' c') as (? & ? & HP'); [done..|]. split_and!; [done|done|].
  by replace (S o + n)%nat with (o + S n)%nat by lia.
Qed.

(** ** From nodes to layers *)

Lemma copying_entry num_log num_phy p r c i :
  Copying num_log num_phy (mk_copies p r c) → i ∈ p → 0 ≤ i < num_log.
Proof.
  intros (Hp & Hr & Hc & _ & HP) Hi. simpl in *. assert (i ∈ (zip p r).*1) as Hin by (rewrite fst_zip by (unfold len in *; lia); done).
  apply list_elem_of_fmap in Hin as ([e k] & -> & Hin). rewrite HP in Hin. apply elem_of_pairs_from in Hin as (He & x & Hx & _).
  apply lookup_lt_Some in Hx. simpl in *. unfold len in Hc. lia.
Qed.

Lemma reshaped_row {T} n k w (a a' : array T) l :
  Shaped n (k * w) a' → rows a' = map (@concat _) (chunks (Z.to_nat n) (Z.to_nat k) (rows a)) → 0 ≤ l < n →
  row a' l = concat (take (Z.to_nat k) (drop (Z.to_nat l * Z.to_nat k) (rows a))).
Proof.
  intros _ E Hl. unfold row. apply at_lookup. rewrite E, list_lookup_fmap, chunks_lookup by lia. done.
Qed.

Lemma layer_node {T} n k (a : array T) l i x :
  len (rows a) = n * k → 0 ≤ l < n → take (Z.to_nat k) (drop (Z.to_nat l * Z.to_nat k) (rows a)) !! i = Some x →
  (i < Z.to_nat k)%nat ∧ x = row a (l * k + Z.of_nat i).
Proof.
  intros Hn Hl Hx. apply lookup_take_Some in Hx as [Hx Hi]. split; [done|]. rewrite lookup_drop in Hx. symmetry. apply at_lookup.
  rewrite <- Hx. f_equal. nia.
Qed.

Lemma length_layer {T} n k (a : array T) l :
  0 ≤ k → len (rows a) = n * k → 0 ≤ l < n → length (take (Z.to_nat k) (drop (Z.to_nat l * Z.to_nat k) (rows a))) = Z.to_nat k.
Proof. intros Hk Hn Hl. rewrite length_take, length_drop. unfold len in Hn. nia. Qed.

(** The experts of a node are numbered after those of the nodes before it. *)
Definition offset_rows (num_nodes w : Z) (a : array Z) : array Z :=
  mk_array (width a) (imap (λ t r, map (Z.add (Z.of_nat t mod num_nodes * w)) r) (rows a)).

Lemma at_imap {T U} d e (f : nat → T → U) l t : 0 ≤ t < len l → at_ e (imap f l) t = f (Z.to_nat t) (at_ d l t).
Proof. intros Ht. apply at_lookup. rewrite list_lookup_imap. by rewrite (at_inside d). Qed.

Lemma offset_row num_nodes w a t :
  0 ≤ t < len (rows a) → row (offset_rows num_nodes w a) t = map (Z.add (t mod num_nodes * w)) (row a t).
Proof. intros Ht. unfold row. simpl. rewrite (at_imap []) by done. by rewrite Z2Nat.id by lia. Qed.
Lemma offset_shaped num_nodes w n m a : Shaped n m a → Shaped n m (offset_rows num_nodes w a).
Proof.
  intros HS. pose proof HS as (Hw & Hn & _). apply shaped_intro; [done|simpl; unfold len in *; by rewrite length_imap|].
  intros t Ht. rewrite offset_row, len_map by lia. by apply (shaped_row n).
Qed.

Lemma layer_of_nodes L N w m (a r c a' r' c' : array Z) l :
  0 < N → 0 ≤ w → 0 ≤ l < L →
  Shaped (L * N) m a → Shaped (L * N) m r → Shaped (L * N) w c →
  (∀ t, 0 ≤ t < L * N → Copying w m (mk_copies (row a t) (row r t) (row c t))) →
  Shaped L (N * m) a' → rows a' = map (@concat _) (chunks (Z.to_nat L) (Z.to_nat N) (rows (offset_rows N w a))) →
  Shaped L (N * m) r' → rows r' = map (@concat _) (chunks (Z.to_nat L) (Z.to_nat N) (rows r)) →
  Shaped L (N * w) c' → rows c' = map (@concat _) (chunks (Z.to_nat L) (Z.to_nat N) (rows c)) →
  Copying (N * w) (N * m) (mk_copies (row a' l) (row r' l) (row c' l)).
Proof.
  intros HN Hw Hl Ha Hr Hc HC Ha' Ea Hr' Er Hc' Ec.
  pose proof (offset_shaped N w _ _ _ Ha) as Ho. pose proof Ho as (_ & Hno & _). pose proof Hr as (_ & Hnr & _). pose proof Hc as (_ & Hnc & _). pose proof Ha as (_ & Hna & _).
  split_and!; simpl; [by apply (shaped_row L)..| |].
  - rewrite (reshaped_row _ _ _ _ _ _ Hc' Ec Hl). intros x Hx. apply list_elem_of_In, in_concat in Hx as (y & Hy & Hx).
    apply list_elem_of_In, list_elem_of_lookup in Hy as [i Hi]. apply (layer_node L) in Hi as [Hi ->]; [|done|done].
    destruct (HC (l * N + Z.of_nat i)) as (_ & _ & _ & Hones & _); [nia|]. by apply Hones, list_elem_of_In.
  - rewrite (reshaped_row _ _ _ _ _ _ Ha' Ea Hl), (reshaped_row _ _ _ _ _ _ Hr' Er Hl), (reshaped_row _ _ _ _ _ _ Hc' Ec Hl).
    apply (pairs_concat (Z.to_nat w) 0); [rewrite !(length_layer L) by (done || lia); done..|].
    intros i x y z Hx Hy Hz. apply (layer_node L) in Hx as [Hi ->], Hy as [_ ->], Hz as [_ ->]; [|done..].
    destruct (HC (l * N + Z.of_nat i)) as (H1 & H2 & H3 & _ & HP); [nia|]. simpl in *.
    rewrite offset_row by nia. replace ((l * N + Z.of_nat i) mod N) with (Z.of_nat i) by (rewrite Z.add_comm, Z_mod_plus_full, Z.mod_small; lia).
    rewrite length_map. unfold len in *. split_and!; [lia|lia|]. rewrite zip_shift, HP, pairs_from_shift. apply reflexive_eq. apply map_ext. intros [e k]. f_equal. nia.
Qed.

(** ** Relabelling *)

Lemma copying_relabel num_log num_phy m r c perm inv :
  perm ≡ₚ zrange 0 num_log → Inverse num_log perm inv → Copying num_log num_phy (mk_copies m r c) →
  Copying num_log num_phy (mk_copies (map (at_ 0 inv) m) r (map (at_ 0 c) perm)).
Proof.
  intros Hperm (Hinv & Hinvp & Hpi & Hip) (Hm & Hr & Hc & Hones & HP). simpl in *.
  assert (len perm = num_log) as Hlen.
  { unfold len in *. rewrite Hperm, <- Hinvp. done. }
  split_and!; simpl; rewrite ?len_map; [done|done|done| |].
  - intros x Hx. apply list_elem_of_fmap in Hx as (i & -> & Hi). rewrite Hperm in Hi. apply elem_of_zrange in Hi. apply Hones.
    eapply list_elem_of_lookup_2. apply at_inside. lia.
  - replace (zip (map (at_ 0 inv) m) r) with (map (λ '(e, k), (at_ 0 inv e, k)) (zip m r)).
    2:{ clear. revert r. induction m as [|x m IH]; intros [|y r]; simpl; try done. by rewrite IH. }
    rewrite HP. apply NoDup_Permutation.
    + apply NoDup_fmap_2_strong; [|apply NoDup_pairs_from]. intros [e k] [e' k'] He He' [= E ->].
      apply elem_of_pairs_from in He as (He0 & x & He & _), He' as (He0' & x' & He' & _). apply lookup_lt_Some in He, He'. unfold len in Hc. simpl in *.
      f_equal. rewrite <- (Hip e), <- (Hip e'), E by lia. done.
    + apply NoDup_pairs_from.
    + intros [e k]. unfold pairs. rewrite list_elem_of_fmap, elem_of_pairs_from. simpl. rewrite Z.sub_0_r. split.
      * intros ([i k'] & [= -> ->] & Hi). apply elem_of_pairs_from in Hi as (Hi0 & x & Hx & Hk). simpl in *. rewrite Z.sub_0_r in Hx.
        pose proof (lookup_lt_Some _ _ _ Hx) as Hi. unfold len in Hc. assert (0 ≤ at_ 0 inv i < num_log) as Hin by (apply (in_perm _ _ _ Hinvp); lia).
        split; [lia|]. exists x. split; [|done]. rewrite list_lookup_fmap, (at_inside 0 perm) by lia. simpl. by rewrite Hip, (at_lookup 0 c i x) by (lia || done).
      * intros (He & x & Hx & Hk). rewrite list_lookup_fmap in Hx. destruct (perm !! Z.to_nat e) as [i|] eqn:Ei; [|done]. injection Hx as Hx.
        pose proof (lookup_lt_Some _ _ _ Ei) as Hlt. apply (at_lookup 0) in Ei. unfold len in Hlen.
        assert (0 ≤ i < num_log) as Hi by (rewrite <- Ei; apply (in_perm _ _ _ Hperm); unfold len; lia).
        exists (i, k). rewrite <- Ei at 1. rewrite Hpi by lia. split; [done|]. apply elem_of_pairs_from. split; [simpl; lia|]. exists x. split; [|done].
        rewrite (at_inside 0 c) by lia. simpl. by rewrite Z.sub_0_r, Hx.
Qed.

(** ** The hierarchy *)

Lemma exact_div_ok d k : 0 < d → exact_div (d * k) d tt = (Ok k, tt).
Proof.
  intros Hd. unfold exact_div, bind, raise_if, py_assert, ret. replace (d =? 0) with false by lia.
  by rewrite Z.mul_comm, Z_mod_mult, Z_div_mult by lia.
Qed.

Lemma concat_lookup {T} (ls : list (list T)) m a b :
  (∀ r, r ∈ ls → length r = m) → (b < m)%nat → concat ls !! (a * m + b)%nat = (ls !! a) ≫= (.!! b).
Proof.
  revert a. induction ls as [|r ls IH]; intros a Hm Hb; [done|]. assert (length r = m) as Hr by (apply Hm; by left). simpl.
  destruct a as [|a]; simpl; [rewrite lookup_app_l by lia; done|]. rewrite lookup_app_r by lia.
  rewrite <- (IH a) by (done || (intros; apply Hm; by right)). f_equal. lia.
Qed.

Lemma at_concat {T} (d : T) ls m a b :
  (∀ r, r ∈ ls → len r = m) → 0 ≤ a → 0 ≤ b < m → at_ d (concat ls) (a * m + b) = at_ d (at_ [] ls a) b.
Proof.
  intros Hm Ha Hb. unfold at_ at 1. replace (Z.to_nat (a * m + b)) with (Z.to_nat a * Z.to_nat m + Z.to_nat b)%nat by nia.
  rewrite concat_lookup; [|intros r Hr; specialize (Hm r Hr); unfold len in Hm; lia|lia].
  unfold at_ at 2. by destruct (ls !! Z.to_nat a).
Qed.

Lemma at_spread gs places e :
  0 < gs → 0 ≤ e < len places * gs → at_ 0 (spread gs places) e = at_ 0 places (e / gs) * gs + e mod gs.
Proof.
  intros Hgs He. pose proof (Z.mod_pos_bound e gs Hgs). assert (0 ≤ e / gs < len places) as Hd.
  { split; [apply Z.div_pos; lia|apply Z.div_lt_upper_bound; lia]. }
  rewrite (Z.div_mod e gs) at 1 by lia. unfold spread. rewrite (Z.mul_comm gs), (at_concat 0); [|..|lia|done].
  - rewrite (at_map 0) by done. rewrite (at_map 0) by (rewrite len_zrange; lia). by rewrite at_zrange by lia.
  - intros r Hr. apply list_elem_of_fmap in Hr as (p & -> & _). rewrite len_map, len_zrange; lia.
Qed.

Lemma packing_rank size m n index ranks g :
  Packing size m n index ranks → 0 ≤ g < n → 0 ≤ at_ 0 index g < m ∧ 0 ≤ at_ 0 ranks g < size.
Proof.
  intros (Hi & Hr & HP) Hg. assert ((at_ 0 index g, at_ 0 ranks g) ∈ pairs (repeat size (Z.to_nat m))) as Hin.
  { rewrite <- HP, (zip_as_map _ _ n) by done. apply list_elem_of_fmap. exists g. split; [done|]. by apply elem_of_zrange. }
  apply elem_of_pairs_from in Hin as (H1 & c & Hc & Hk). pose proof (lookup_lt_Some _ _ _ Hc) as Hlt. rewrite repeat_length in Hlt.
  apply list_elem_of_lookup_2, list_elem_of_In, repeat_spec in Hc as ->. lia.
Qed.

(** The arrays of the first step *)
Definition places_of (gpn : Z) (gi gr : array Z) : array Z := add_rows (zip_with (λ p r, p * gpn + r)) gi gr.
Definition log2mlog_of (E gs gpn : Z) (gi gr : array Z) : array Z := mk_array E (map (spread gs) (rows (places_of gpn gi gr))).

Section Groups.
Context (L G N gs gpn : Z) (gi gr : array Z).
Context (Hgs : 0 < gs) (Hgpn : 0 ≤ gpn) (HN : 0 < N) (HG : G = gpn * N).
Context (Hgi : Shaped L G gi) (Hgr : Shaped L G gr).
Context (HP : ∀ l, 0 ≤ l < L → Packing gpn N G (row gi l) (row gr l)).

Lemma places_row l : 0 ≤ l < L → row (places_of gpn gi gr) l = zip_with (λ p r, p * gpn + r) (row gi l) (row gr l).
Proof. intros Hl. destruct Hgi as (_ & H1 & _), Hgr as (_ & H2 & _). unfold row. simpl. by rewrite (at_zip_with [] []) by lia. Qed.

Lemma len_places l : 0 ≤ l < L → len (row (places_of gpn gi gr) l) = G.
Proof. intros Hl. rewrite places_row by done. destruct (HP l Hl) as (H1 & H2 & _). by rewrite len_zip_with by lia. Qed.

Lemma log2mlog_row l : 0 ≤ l < L → row (log2mlog_of (G * gs) gs gpn gi gr) l = spread gs (row (places_of gpn gi gr) l).
Proof.
  intros Hl. unfold row at 1. simpl. rewrite (at_map []); [done|]. destruct Hgi as (_ & H1 & _), Hgr as (_ & H2 & _).
  rewrite len_zip_with; lia.
Qed.

Lemma log2mlog_perm l : 0 ≤ l < L → row (log2mlog_of (G * gs) gs gpn gi gr) l ≡ₚ zrange 0 (G * gs).
Proof.
  intros Hl. rewrite log2mlog_row by done. apply spread_perm; [lia|nia|]. rewrite places_row by done.
  by apply (places_perm gpn N G); [lia|lia|nia|apply HP].
Qed.

Lemma log2mlog_shaped : Shaped L (G * gs) (log2mlog_of (G * gs) gs gpn gi gr).
Proof.
  destruct Hgi as (_ & H1 & _), Hgr as (_ & H2 & _). apply shaped_intro; [done|simpl; rewrite len_map, len_zip_with; lia|].
  intros l Hl. unfold len. rewrite (log2mlog_perm l Hl). fold (len (zrange 0 (G * gs))). rewrite len_zrange; nia.
Qed.

(** An expert is numbered among those of its group's node. *)
Lemma log2mlog_node l e :
  0 ≤ l < L → 0 ≤ e < G * gs → at_ 0 (row (log2mlog_of (G * gs) gs gpn gi gr) l) e / (gpn * gs) = at_ 0 (row gi l) (e / gs).
Proof.
  intros Hl He. rewrite log2mlog_row, at_spread by (rewrite ?len_places; done). rewrite places_row by done.
  pose proof (Z.mod_pos_bound e gs Hgs). assert (0 ≤ e / gs < G) as Hd.
  { split; [apply Z.div_pos; lia|apply Z.div_lt_upper_bound; lia]. }
  destruct (HP l Hl) as (Hi1 & Hr1 & _). rewrite (at_zip_with 0 0) by lia. destruct (packing_rank _ _ _ _ _ _ (HP l Hl) Hd) as [Hi Hr].
  symmetry. apply (Z.div_unique _ _ _ (at_ 0 (row gr l) (e / gs) * gs + e mod gs)); [left; nia|ring].
Qed.
End Groups.

Lemma layer_at {T} n k (a : array T) l i :
  len (rows a) = n * k → 0 ≤ l < n → 0 ≤ i < k →
  at_ [] (take (Z.to_nat k) (drop (Z.to_nat l * Z.to_nat k) (rows a))) i = row a (l * k + i).
Proof.
  intros Hn Hl Hi. unfold at_, row, at_. rewrite lookup_take_lt by lia. rewrite lookup_drop. do 2 f_equal. nia.
Qed.

(** A slot holds an expert of its own node. *)
Lemma slot_node L N w m (a a' : array Z) l p :
  0 < N → 0 < w → 0 < m → 0 ≤ l < L → 0 ≤ p < N * m → Shaped (L * N) m a →
  (∀ t i, 0 ≤ t < L * N → i ∈ row a t → 0 ≤ i < w) →
  Shaped L (N * m) a' → rows a' = map (@concat _) (chunks (Z.to_nat L) (Z.to_nat N) (rows (offset_rows N w a))) →
  at_ 0 (row a' l) p / w = p / m.
Proof.
  intros HN Hw Hm Hl Hp Ha Hin Ha' Ea. pose proof (offset_shaped N w _ _ _ Ha) as (_ & Hno & Hro). pose proof Ha as (_ & Hna & _).
  rewrite (reshaped_row _ _ _ _ _ _ Ha' Ea Hl). pose proof (Z.mod_pos_bound p m Hm) as Hb.
  assert (0 ≤ p / m < N) as Hd by (split; [apply Z.div_pos; lia|apply Z.div_lt_upper_bound; lia]).
  rewrite (Z.div_mod p m) at 1 by lia. rewrite (Z.mul_comm m), (at_concat 0 _ m); [|..|lia|done].
  2:{ intros r Hr. apply Hro. apply list_elem_of_lookup in Hr as [i Hi]. apply (layer_node L) in Hi as [Hi ->]; [|done|done].
    eapply list_elem_of_lookup_2. apply at_inside. nia. }
  rewrite (layer_at L) by done. rewrite offset_row by nia. assert (len (row a (l * N + p / m)) = m) as Hlen by (apply (shaped_row (L * N)); [done|nia]).
  rewrite (at_map 0) by lia. replace ((l * N + p / m) mod N) with (p / m) by (rewrite Z.add_comm, Z_mod_plus_full, Z.mod_small; lia).
  assert (0 ≤ at_ 0 (row a (l * N + p / m)) (p mod m) < w) as Hx.
  { apply (Hin (l * N + p / m)); [nia|]. eapply list_elem_of_lookup_2. apply at_inside. lia. }
  symmetry. apply (Z.div_unique _ _ _ (at_ 0 (row a (l * N + p / m)) (p mod m))); [left; done|ring].
Qed.

(** What the hierarchy promises: the copies of every layer fill the slots, and the
    experts of a group are on the node the group was packed onto. *)
Record Hierarchy (L E P G N : Z) (p2l ranks counts : array Z) : Prop := {
  hi_p2l : Shaped L P p2l;
  hi_ranks : Shaped L P ranks;
  hi_counts : Shaped L E counts;
  hi_copies l : 0 ≤ l < L → Copying E P (mk_copies (row p2l l) (row ranks l) (row counts l));
  hi_groups l : 0 ≤ l < L → ∃ nodes places, Packing (G / N) N G nodes places ∧
    ∀ p, 0 ≤ p < P → p / (P / N) = at_ 0 nodes (at_ 0 (row p2l l) p / (E / G))
}.

Lemma sum_groups_len n k w : len (sum_groups n k w) = Z.of_nat (Z.to_nat n).
Proof. unfold sum_groups. rewrite len_map. unfold len. by rewrite length_chunks. Qed.

(** Reordering the copies of a node *)
Lemma copying_reorder num_log num_phy m r c inv :
  inv ≡ₚ zrange 0 num_phy → Copying num_log num_phy (mk_copies m r c) →
  Copying num_log num_phy (mk_copies (map (at_ 0 m) inv) (map (at_ 0 r) inv) c).
Proof.
  intros Hinv (Hm & Hr & Hc & Hones & HP). simpl in *.
  assert (len inv = num_phy) as Hl by (unfold len; rewrite Hinv; fold (len (zrange 0 num_phy)); rewrite len_zrange; unfold len in Hm; lia).
  split_and!; simpl; rewrite ?len_map; try done. rewrite <- HP, (zip_as_map m r num_phy) by done. rewrite <- Hinv.
  apply reflexive_eq. clear. induction inv as [|x inv IH]; simpl; [done|]. by rewrite IH.
Qed.

Lemma places_shaped_rows L G gpn (gi gr : array Z) : Shaped L G gi → Shaped L G gr → len (rows (places_of gpn gi gr)) = L.
Proof. intros (_ & H1 & _) (_ & H2 & _). simpl. rewrite len_zip_with; lia. Qed.

Lemma bind_then {S A B} (m : M S A) (f : A → M S B) s a s' r : m s = (Ok a, s') → f a s' = r → bind m f s = r.
Proof. intros E <-. unfold bind. by rewrite E. Qed.
Ltac go_on E := refine (bind_then _ _ _ _ _ _ E _); cbv beta iota zeta.

Section Hierarchical.
Context (L N gs gpn gpus ppg : Z) (w : array weight).
Context (HL : 0 < L) (HN : 0 < N) (Hgs : 0 < gs) (Hgpn : 0 < gpn) (Hgpus : 0 < gpus) (Hppg : 0 < ppg).
Context (Hw : Shaped L (gpn * N * gs) w) (Hroom : gpn * gs ≤ gpus * ppg).

(** Groups to nodes *)
Lemma groups_packed :
  ∃ gi gr, balanced_packing (mk_array (gpn * N) (map (sum_groups (gpn * N) gs) (rows w))) N tt = (Ok (gi, gr), tt) ∧
    Shaped L (gpn * N) gi ∧ Shaped L (gpn * N) gr ∧ ∀ l, 0 ≤ l < L → Packing gpn N (gpn * N) (row gi l) (row gr l).
Proof.
  pose proof Hw as (_ & Hn & _). apply balanced_packing_ok; [|lia..]. apply shaped_intro; [done|simpl; by rewrite len_map|].
  intros t Ht. unfold row. simpl. rewrite (at_map []), sum_groups_len by lia. nia.
Qed.

(** The copies of the nodes, in the order of the GPUs *)
Lemma copies_packed tokens :
  Shaped (L * N) (gpn * gs) tokens →
  ∃ m r c tp gi gr inv m' r', replicate_experts tokens (gpus * ppg) tt = (Ok (m, r, c), tt) ∧ Shaped (L * N) (gpn * gs) c ∧
    take_rows (mk_array (gpn * gs) (zip_with (zip_with w_div) (rows tokens) (rows c))) m tt = (Ok tp, tt) ∧
    balanced_packing tp gpus tt = (Ok (gi, gr), tt) ∧
    _inverse (add_rows (zip_with (λ p r, p * ppg + r)) gi gr) tt = (Ok inv, tt) ∧
    take_rows m inv tt = (Ok m', tt) ∧ take_rows r inv tt = (Ok r', tt) ∧
    Shaped (L * N) (gpus * ppg) m' ∧ Shaped (L * N) (gpus * ppg) r' ∧
    ∀ t, 0 ≤ t < L * N → Copying (gpn * gs) (gpus * ppg) (mk_copies (row m' t) (row r' t) (row c t)).
Proof.
  intros Ht. destruct (replicate_experts_ok (L * N) (gpn * gs) (gpus * ppg) tokens Ht) as (m & r & c & E & Hm & Hr & Hc & HC); [nia|].
  pose proof Ht as (_ & Hnt & _). pose proof Hc as (_ & Hnc & _).
  destruct (take_rows_ok w_zero (L * N) (gpn * gs) (gpus * ppg) (mk_array (gpn * gs) (zip_with (zip_with w_div) (rows tokens) (rows c))) m)
    as (tp & Etp & Htp & _); [|done| |].
  { apply shaped_intro; [done|simpl; rewrite len_zip_with; lia|]. intros t Hlt. unfold row. simpl. rewrite (at_zip_with [] []) by lia.
    fold (row tokens t) (row c t). rewrite len_zip_with; rewrite !(shaped_row (L * N) (gpn * gs)) by done; done. }
  { intros t i Hlt Hi. by apply (copying_entry _ _ _ _ _ _ (HC t Hlt)). }
  destruct (balanced_packing_ok (L * N) (gpus * ppg) ppg gpus tp Htp) as (gi & gr & Eb & Hgi & Hgr & HP); [lia..|].
  destruct (inverse_ok (L * N) (gpus * ppg) (add_rows (zip_with (λ p r, p * ppg + r)) gi gr)) as (inv & Ei & Hinv & HI); [nia| | |].
  { pose proof Hgi as (Hwi & _). apply shaped_intro; [done|by apply (places_shaped_rows (L * N) (gpus * ppg))|]. intros t Hlt. rewrite (places_row (L * N) (gpus * ppg) ppg gi gr) by done.
    destruct (HP t Hlt) as (? & ? & _). by rewrite len_zip_with by lia. }
  { intros t Hlt. rewrite (places_row (L * N) (gpus * ppg) ppg gi gr) by done. apply (places_perm ppg gpus); [lia|lia|lia|by apply HP]. }
  assert (∀ t i, 0 ≤ t < L * N → i ∈ row inv t → 0 ≤ i < gpus * ppg) as Hin.
  { intros t i Hlt Hi. destruct (HI t Hlt) as (_ & Hperm & _). rewrite Hperm in Hi. by apply elem_of_zrange. }
  destruct (take_rows_ok 0 (L * N) (gpus * ppg) (gpus * ppg) m inv) as (m' & Em & Hm' & Hmr); [done..|].
  destruct (take_rows_ok 0 (L * N) (gpus * ppg) (gpus * ppg) r inv) as (r' & Er & Hr' & Hrr); [done..|].
  exists m, r, c, tp, gi, gr, inv, m', r'. split_and!; try done.
  intros t Hlt. rewrite Hmr, Hrr by done. apply copying_reorder; [by apply HI|by apply HC].
Qed.
Lemma hierarchical_ok :
  ∃ p2l ranks counts,
    rebalance_experts_hierarchical w (N * gpus * ppg) (gpn * N) N (N * gpus) tt = (Ok (p2l, ranks, counts), tt) ∧
    Hierarchy L (gpn * N * gs) (N * gpus * ppg) (gpn * N) N p2l ranks counts.
Proof.
  pose proof Hw as (Hww & Hnw & _). destruct groups_packed as (gi & gr & Eg & Hgi & Hgr & HPg).
  pose proof (log2mlog_shaped L (gpn * N) N gs gpn gi gr ltac:(lia) ltac:(lia) ltac:(lia) ltac:(lia) Hgi Hgr HPg) as Hl2m.
  pose proof (log2mlog_perm L (gpn * N) N gs gpn gi gr ltac:(lia) ltac:(lia) ltac:(lia) ltac:(lia) Hgi Hgr HPg) as Hperm.
  destruct (inverse_ok L (gpn * N * gs) _ ltac:(nia) Hl2m Hperm) as (m2l & Em2l & Hm2l & HI).
  destruct (take_rows_ok w_zero L (gpn * N * gs) (gpn * N * gs) w m2l Hw Hm2l) as (bn & Ebn & Hbn & _).
  { intros t i Ht Hi. destruct (HI t Ht) as (_ & Hp & _). rewrite Hp in Hi. by apply elem_of_zrange. }
  destruct (reshape_cols_ok L (gpn * N * gs) N (gpn * gs) bn Hbn) as (tokens & Etok & Htok); [nia|lia|lia|].
  destruct (copies_packed tokens Htok) as (m & r & c & tp & ki & kr & inv & m' & r' & Er & Hc & Etp & Ek & Einv & Em' & Er' & Hm' & Hr' & HC).
  destruct (reshape_rows_ok L N (gpus * ppg) (offset_rows N (gpn * gs) m')) as (pm & Epm & Erow & Hpm); [by apply offset_shaped|lia|lia|nia|].
  destruct (reshape_rows_ok L N (gpus * ppg) r') as (pr & Epr & Erow' & Hpr); [done|lia|lia|nia|].
  destruct (reshape_rows_ok L N (gpn * gs) c) as (lc & Elc & Erow'' & Hlc); [done|lia|lia|nia|].
  assert (∀ l, 0 ≤ l < L → Copying (gpn * N * gs) (N * gpus * ppg) (mk_copies (row pm l) (row pr l) (row lc l))) as HCl.
  { intros l Hl. replace (gpn * N * gs) with (N * (gpn * gs)) by lia. rewrite <- Z.mul_assoc. apply (layer_of_nodes L N _ _ m' r' c); done || nia. }
  destruct (take_rows_ok 0 L (gpn * N * gs) (N * gpus * ppg) m2l pm) as (p2l & Ep2l & Hp2l & Hprow); [done|by rewrite <- Z.mul_assoc| |].
  { intros t i Ht Hi. by apply (copying_entry _ _ _ _ _ _ (HCl t Ht)). }
  destruct (take_rows_ok 0 L (gpn * N * gs) (gpn * N * gs) lc (log2mlog_of (gpn * N * gs) gs gpn gi gr)) as (cnt & Ecnt & Hcnt & Hcrow);
    [by replace (gpn * N * gs) with (N * (gpn * gs)) by lia|done| |].
  { intros t i Ht Hi. rewrite (Hperm t Ht) in Hi. by apply elem_of_zrange. }
  exists p2l, pr, cnt. split.
  - unfold rebalance_experts_hierarchical, num_rows. rewrite Hww, Hnw.
    replace (gpn * N * gs / N) with (gpn * gs) by (replace (gpn * N * gs) with (gpn * gs * N) by lia; by rewrite Z_div_mult by lia).
    replace (N * gpus * ppg / N) with (gpus * ppg) by (replace (N * gpus * ppg) with (gpus * ppg * N) by lia; by rewrite Z_div_mult by lia).
    go_on (exact_div_ok (gpn * N) gs ltac:(lia)). rewrite (Z.mul_comm gpn N) at 1. go_on (exact_div_ok N gpn HN). go_on (exact_div_ok N gpus HN).
    go_on (exact_div_ok (N * gpus) ppg ltac:(lia)). go_on Eg. go_on Em2l. go_on Ebn. go_on Etok. go_on Er. go_on Etp. go_on Ek. go_on Einv. go_on Em'.
    unfold raise_if. replace (gpn * gs =? 0) with false by lia. go_on Epm. go_on Ep2l. go_on Er'. go_on Epr. go_on Elc. go_on Ecnt. done.
  - split; [done|by rewrite <- Z.mul_assoc|done| |].
    + intros l Hl. rewrite Hprow, Hcrow by done. by apply copying_relabel; [apply Hperm|apply HI|apply HCl].
    + intros l Hl. exists (row gi l), (row gr l).
      replace (gpn * N / N) with gpn by (by rewrite Z_div_mult by lia). split; [by apply HPg|]. intros p Hp.
      replace (N * gpus * ppg / N) with (gpus * ppg) by (replace (N * gpus * ppg) with (gpus * ppg * N) by lia; by rewrite Z_div_mult by lia).
      replace (gpn * N * gs / (gpn * N)) with gs by (rewrite (Z.mul_comm _ gs), Z_div_mult by lia; done).
      pose proof (shaped_row _ _ _ _ Hpm Hl) as Hlen. rewrite Z.mul_assoc in Hlen.
      assert (0 ≤ at_ 0 (row pm l) p < gpn * N * gs) as Hin by (apply (copying_entry _ _ _ _ _ _ (HCl l Hl)); eapply list_elem_of_lookup_2; apply at_inside; lia).
      rewrite <- (slot_node L N (gpn * gs) (gpus * ppg) m' pm l p) by (done || nia || (intros t i Ht Hi; by apply (copying_entry _ _ _ _ _ _ (HC t Ht)))).
      destruct (HI l Hl) as (_ & Hinv & _ & Hback). rewrite Hprow, (at_map 0) by lia. rewrite <- (Hback (at_ 0 (row pm l) p)) at 1 by done.
      apply (log2mlog_node L (gpn * N) N gs gpn gi gr); try (done || lia).
      apply (in_perm _ _ _ Hinv). destruct (shaped_row _ _ _ _ Hm2l Hl). lia.
Qed.
End Hierarchical.

(** ** The slots of each expert *)

(** A layer of a plan: the row of an expert lists exactly the slots that hold it, and is
    padded with -1. *)
Record Plan (E P X : Z) (p2l counts : list Z) (slots : list (list Z)) : Prop := {
  pl_p2l : len p2l = P;
  pl_experts e : e ∈ p2l → 0 ≤ e < E;
  pl_counts : len counts = E;
  pl_copies c : c ∈ counts → 1 ≤ c ≤ X;
  pl_slots : len slots = E;
  pl_width e : 0 ≤ e < E → len (at_ [] slots e) = X;
  pl_holders e : 0 ≤ e < E →
    take (Z.to_nat (at_ 0 counts e)) (at_ [] slots e) ≡ₚ filter (λ p, at_ 0 p2l p = e) (zrange 0 P);
  pl_rest e : 0 ≤ e < E →
    drop (Z.to_nat (at_ 0 counts e)) (at_ [] slots e) = repeat (-1) (Z.to_nat (X - at_ 0 counts e))
}.

Section Slots.
Context (E P X : Z) (p2l ranks counts : list Z).
Context (HC : Copying E P (mk_copies p2l ranks counts)) (HX : ∀ c, c ∈ counts → c ≤ X) (HE : 0 < E) (HP : 0 ≤ P).

Lemma slot_copy p : 0 ≤ p < P → 0 ≤ at_ 0 p2l p < E ∧ 0 ≤ at_ 0 ranks p < at_ 0 counts (at_ 0 p2l p).
Proof.
  intros Hp. destruct HC as (H1 & H2 & H3 & _ & HZ). simpl in *.
  assert ((at_ 0 p2l p, at_ 0 ranks p) ∈ pairs counts) as Hin.
  { rewrite <- HZ, (zip_as_map _ _ P) by done. apply list_elem_of_fmap. exists p. split; [done|]. by apply elem_of_zrange. }
  apply elem_of_pairs_from in Hin as (He & c & Hc & Hr). simpl in *. rewrite Z.sub_0_r in Hc. pose proof (lookup_lt_Some _ _ _ Hc).
  unfold len in H3. split; [lia|]. by rewrite (at_lookup 0 counts _ c).
Qed.

Lemma copy_slot e r : 0 ≤ e < E → 0 ≤ r < at_ 0 counts e → ∃ p, 0 ≤ p < P ∧ at_ 0 p2l p = e ∧ at_ 0 ranks p = r.
Proof.
  intros He Hr. destruct HC as (H1 & H2 & H3 & _ & HZ). simpl in *.
  assert ((e, r) ∈ pairs counts) as Hin.
  { apply elem_of_pairs_from. simpl. split; [lia|]. exists (at_ 0 counts e). split; [|done]. rewrite Z.sub_0_r. apply at_inside. lia. }
  rewrite <- HZ, (zip_as_map _ _ P) in Hin by done. apply list_elem_of_fmap in Hin as (p & [= -> ->] & Hp). exists p. by apply elem_of_zrange in Hp.
Qed.

Lemma copy_inj p q : 0 ≤ p < P → 0 ≤ q < P → at_ 0 p2l p = at_ 0 p2l q → at_ 0 ranks p = at_ 0 ranks q → p = q.
Proof.
  intros Hp Hq He Hr. destruct HC as (H1 & H2 & _ & _ & HZ). simpl in *.
  assert (NoDup (zip p2l ranks)) as Hnd by (rewrite HZ; apply NoDup_pairs_from). rewrite (zip_as_map _ _ P) in Hnd by done.
  rewrite NoDup_alt in Hnd. assert (Z.to_nat p = Z.to_nat q) as Heq; [|lia].
  assert (∀ x, 0 ≤ x < P → zrange 0 P !! Z.to_nat x = Some x) as Hz.
  { intros x Hx. unfold zrange. rewrite list_lookup_fmap, lookup_seq_lt by lia. simpl. f_equal. lia. }
  apply (Hnd _ _ (at_ 0 p2l p, at_ 0 ranks p)); rewrite list_lookup_fmap, Hz by done; simpl; congruence.
Qed.

Lemma counts_bound e : 0 ≤ e < E → 1 ≤ at_ 0 counts e ≤ X.
Proof.
  intros He. destruct HC as (_ & _ & H3 & Hones & _). simpl in *. assert (at_ 0 counts e ∈ counts) as Hin.
  { eapply list_elem_of_lookup_2. apply at_inside. lia. }
  split; [by apply Hones|by apply HX].
Qed.

Lemma flat_slots :
  ∃ flat, put_along (repeat (-1) (Z.to_nat (E * X))) (zip (zip_with (λ e r, e * X + r) p2l ranks) (zrange 0 P)) tt = (Ok flat, tt) ∧
    len flat = E * X ∧ (∀ p, 0 ≤ p < P → at_ 0 flat (at_ 0 p2l p * X + at_ 0 ranks p) = p) ∧
    ∀ e r, 0 ≤ e < E → at_ 0 counts e ≤ r < X → at_ 0 flat (e * X + r) = -1.
Proof.
  destruct HC as (H1 & H2 & _). simpl in *. pose proof (counts_bound 0 ltac:(lia)) as HX0.
  assert (zip (zip_with (λ e r, e * X + r) p2l ranks) (zrange 0 P) = map (λ p, (at_ 0 p2l p * X + at_ 0 ranks p, p)) (zrange 0 P)) as Hz.
  { rewrite (zip_as_map _ _ P); [|rewrite len_zip_with; lia|rewrite len_zrange; lia]. apply map_ext_in. intros p Hp.
    assert (p ∈ zrange 0 P) as Hp' by (by apply list_elem_of_In). apply elem_of_zrange in Hp'.
    rewrite (at_zip_with 0 0), at_zrange by lia. done. }
  assert (∀ p e r, 0 ≤ p < P → 0 ≤ e → 0 ≤ r < X → at_ 0 p2l p * X + at_ 0 ranks p = e * X + r → at_ 0 p2l p = e ∧ at_ 0 ranks p = r) as Hinj.
  { intros p e r Hp He Hr Heq. destruct (slot_copy p Hp) as [Hpe Hpr]. pose proof (counts_bound _ Hpe).
    assert (at_ 0 p2l p = e) as Hpe' by (rewrite (Z.div_unique (e * X + r) X (at_ 0 p2l p) (at_ 0 ranks p)); [symmetry; apply (Z.div_unique _ _ _ r)|..]; lia).
    split; [done|]. rewrite Hpe' in Heq. lia. }
  rewrite Hz. destruct (put_along_ok 0 (repeat (-1) (Z.to_nat (E * X))) (map (λ p, (at_ 0 p2l p * X + at_ 0 ranks p, p)) (zrange 0 P)))
    as (flat & Ef & Hlen & Hput & Hrest).
  - intros i Hi. apply list_elem_of_fmap in Hi as ([i' p'] & -> & Hi). apply list_elem_of_fmap in Hi as (p & [= -> ->] & Hp).
    apply elem_of_zrange in Hp. destruct (slot_copy p Hp) as [Hpe Hpr]. pose proof (counts_bound _ Hpe). rewrite len_repeat. simpl. nia.
  - rewrite <- list_fmap_compose. apply NoDup_fmap_2_strong; [|apply NoDup_zrange]. intros p q Hp Hq Heq. apply elem_of_zrange in Hp, Hq.
    simpl in Heq. destruct (slot_copy q Hq) as [Hqe Hqr]. pose proof (counts_bound _ Hqe).
    destruct (Hinj p (at_ 0 p2l q) (at_ 0 ranks q) Hp) as [He Hr]; [lia|lia|exact Heq|]. by apply copy_inj.
  - exists flat. split; [done|]. rewrite len_repeat in Hlen. split; [nia|]. split.
    + intros p Hp. apply Hput. apply list_elem_of_fmap. exists p. split; [done|]. by apply elem_of_zrange.
    + intros e r He Hr. pose proof (counts_bound e He). rewrite Hrest; [apply at_repeat; nia|nia|]. intros Hi.
      apply list_elem_of_fmap in Hi as ([i' p'] & Hi' & Hi). apply list_elem_of_fmap in Hi as (p & [= -> ->] & Hp). apply elem_of_zrange in Hp.
      simpl in Hi'. destruct (Hinj p e r Hp ltac:(lia) ltac:(lia) (eq_sym Hi')) as [He' Hr']. destruct (slot_copy p Hp) as [_ Hpr]. rewrite He' in Hpr. lia.
Qed.

Lemma take_as_map c (l : list Z) : 0 ≤ c ≤ len l → take (Z.to_nat c) l = map (at_ 0 l) (zrange 0 c).
Proof.
  intros Hc. rewrite <- (map_at 0 l) at 1. rewrite (zrange_app 0 c (len l)) by lia. rewrite map_app. apply take_app_length'.
  rewrite length_map. unfold zrange. rewrite length_fmap, length_seq. lia.
Qed.

Lemma drop_as_map c (l : list Z) : 0 ≤ c ≤ len l → drop (Z.to_nat c) l = map (at_ 0 l) (zrange c (len l)).
Proof.
  intros Hc. rewrite <- (map_at 0 l) at 1. rewrite (zrange_app 0 c (len l)) by lia. rewrite map_app. apply drop_app_length'.
  rewrite length_map. unfold zrange. rewrite length_fmap, length_seq. lia.
Qed.

Lemma map_const (f : Z → Z) l x : (∀ i, i ∈ l → f i = x) → map f l = repeat x (length l).
Proof.
  intros Hf. induction l as [|i l IH]; [done|]. simpl. rewrite Hf by left. f_equal. apply IH. intros; apply Hf; by right.
Qed.

Lemma slots_row_ok : ∃ slots, slots_row E P X (p2l, ranks) tt = (Ok slots, tt) ∧ Plan E P X p2l counts slots.
Proof.
  destruct flat_slots as (flat & Ef & Hlen & Hput & Hrest). pose proof (counts_bound 0 ltac:(lia)) as HX0.
  exists (chunks (Z.to_nat E) (Z.to_nat X) flat). split.
  { unfold slots_row. by refine (bind_then _ _ _ _ _ _ Ef _). }
  assert (length flat = (Z.to_nat E * Z.to_nat X)%nat) as Hl by (unfold len in Hlen; nia).
  assert (∀ e, 0 ≤ e < E → at_ [] (chunks (Z.to_nat E) (Z.to_nat X) flat) e = take (Z.to_nat X) (drop (Z.to_nat e * Z.to_nat X) flat)) as Hrow.
  { intros e He. apply at_lookup. apply chunks_lookup. lia. }
  assert (∀ e, 0 ≤ e < E → len (take (Z.to_nat X) (drop (Z.to_nat e * Z.to_nat X) flat)) = X) as Hwide.
  { intros e He. unfold len. rewrite length_take, length_drop, Hl. nia. }
  assert (∀ e r, 0 ≤ e < E → 0 ≤ r < X → at_ 0 (take (Z.to_nat X) (drop (Z.to_nat e * Z.to_nat X) flat)) r = at_ 0 flat (e * X + r)) as Hcell.
  { intros e r He Hr. unfold at_. rewrite lookup_take_lt by lia. rewrite lookup_drop. do 2 f_equal. nia. }
  destruct HC as (H1 & H2 & H3 & Hones & HZ). simpl in *. split.
  - done.
  - intros e. apply (copying_entry _ _ _ _ _ _ HC).
  - done.
  - intros c Hc. split; [by apply Hones|by apply HX].
  - unfold len. rewrite length_chunks. lia.
  - intros e He. rewrite Hrow by done. by apply Hwide.
  - intros e He. rewrite Hrow by done. pose proof (counts_bound e He). rewrite take_as_map by (rewrite Hwide by done; lia).
    assert (∀ r, 0 ≤ r < at_ 0 counts e → ∃ p, 0 ≤ p < P ∧ at_ 0 p2l p = e ∧ at_ 0 ranks p = r ∧
      at_ 0 (take (Z.to_nat X) (drop (Z.to_nat e * Z.to_nat X) flat)) r = p) as Hcopy.
    { intros r Hr. destruct (copy_slot e r He Hr) as (p & Hp & <- & <-). exists p. rewrite Hcell by lia. auto. }
    apply NoDup_Permutation.
    + apply NoDup_fmap_2_strong; [|apply NoDup_zrange]. intros r s Hr Hs Heq. apply elem_of_zrange in Hr, Hs.
      destruct (Hcopy r Hr) as (p & _ & _ & <- & Ep), (Hcopy s Hs) as (q & _ & _ & <- & Eq). congruence.
    + apply NoDup_filter, NoDup_zrange.
    + intros p. rewrite list_elem_of_fmap, list_elem_of_filter, elem_of_zrange. split.
      * intros (r & -> & Hr). apply elem_of_zrange in Hr. by destruct (Hcopy r Hr) as (p & Hp & He' & _ & ->).
      * intros [He' Hp]. destruct (slot_copy p Hp) as [_ Hr]. rewrite He' in Hr. exists (at_ 0 ranks p). split; [|by apply elem_of_zrange].
        rewrite Hcell by lia. rewrite <- He'. by rewrite Hput.
  - intros e He. rewrite Hrow by done. pose proof (counts_bound e He). rewrite drop_as_map by (rewrite Hwide by done; lia).
    rewrite Hwide by done. rewrite (map_const _ _ (-1)).
    + f_equal. unfold zrange. by rewrite length_fmap, length_seq.
    + intros r Hr. apply elem_of_zrange in Hr. rewrite Hcell by lia. by apply Hrest.
Qed.
End Slots.

(** ** The entry point *)

Lemma array_max_bound a x : array_max a = Some x → ∀ c, c ∈ concat (rows a) → c ≤ x.
Proof.
  unfold array_max. destruct (concat (rows a)) as [|y l]; [done|]. intros [= <-].
  assert (∀ l m, m ≤ foldl Z.max m l ∧ ∀ c, c ∈ l → c ≤ foldl Z.max m l) as Hfold.
  { clear. induction l as [|z l IH]; intros m; simpl; [split; [lia|by intros c ?%elem_of_nil]|].
    destruct (IH (Z.max m z)) as [H1 H2]. split; [lia|]. intros c [->|Hc]%elem_of_cons; [lia|by apply H2]. }
  destruct (Hfold l y) as [H1 H2]. intros c [->|Hc]%elem_of_cons; [done|by apply H2].
Qed.

Lemma array_max_some n w (a : array Z) : 0 < n → 0 < w → Shaped n w a → ∃ x, array_max a = Some x.
Proof.
  intros Hn Hw Ha. pose proof (shaped_flat _ _ _ Ha) as Hl. unfold array_max. destruct (concat (rows a)) as [|x l]; [unfold len in Hl; simpl in Hl; nia|].
  by eexists.
Qed.

Lemma rows_concat {T} n w (a : array T) l c : Shaped n w a → 0 ≤ l < n → c ∈ row a l → c ∈ concat (rows a).
Proof.
  intros (_ & Hn & _) Hl Hc. apply list_elem_of_In, in_concat. exists (row a l). split; [|by apply list_elem_of_In].
  apply list_elem_of_In. eapply list_elem_of_lookup_2. apply at_inside. lia.
Qed.

Lemma divides a b : 0 < b → a mod b = 0 → a = b * (a / b).
Proof. intros Hb Ha. rewrite (Z.div_mod a b) at 1 by lia. lia. Qed.

Lemma hierarchy_runs L E P G N D (w : array weight) :
  Shaped L E w → 0 < L → 0 < E ≤ P → 0 < G → 0 < N → 0 < D → E mod G = 0 → G mod N = 0 → D mod N = 0 → P mod D = 0 →
  ∃ p2l ranks counts, rebalance_experts_hierarchical w P G N D tt = (Ok (p2l, ranks, counts), tt) ∧ Hierarchy L E P G N p2l ranks counts.
Proof.
  intros Hw HL HE HG HN HD H1 H2 H3 H4. apply divides in H1, H2, H3, H4; [|done..].
  set (gs := E / G) in *. set (gpn := G / N) in *. set (gpus := D / N) in *. set (ppg := P / D) in *.
  assert (0 < gs) by nia. assert (0 < gpn) by nia. assert (0 < gpus) by nia. assert (0 < ppg) by nia.
  clearbody gs gpn gpus ppg. subst D G E P. replace (N * gpn) with (gpn * N) in * by lia.
  apply hierarchical_ok; try done. nia.
Qed.

(** The plan of all layers: every expert has a slot, and the two maps are inverse. *)
Record Balanced (L E P G N : Z) (p2l : array Z) (log2phy : list (list (list Z))) (counts : array Z) : Prop := {
  bl_p2l : Shaped L P p2l;
  bl_counts : Shaped L E counts;
  bl_layers : len log2phy = L;
  bl_plan : ∃ X, array_max counts = Some X ∧ ∀ l, 0 ≤ l < L → Plan E P X (row p2l l) (row counts l) (at_ [] log2phy l);
  bl_groups l : G mod N = 0 → 0 ≤ l < L → ∃ nodes places, Packing (G / N) N G nodes places ∧
    ∀ p, 0 ≤ p < P → p / (P / N) = at_ 0 nodes (at_ 0 (row p2l l) p / (E / G))
}.

Lemma finish_ok L E P G N (w : array weight) p2l ranks counts :
  0 < L → 0 < E ≤ P → Shaped L E w → Hierarchy L E P G N p2l ranks counts →
  ∃ X log2phy, array_max counts = Some X ∧ for_map (zip (rows p2l) (rows ranks)) (slots_row (width w) P X) tt = (Ok log2phy, tt) ∧
    len log2phy = L ∧ ∀ l, 0 ≤ l < L → Plan E P X (row p2l l) (row counts l) (at_ [] log2phy l).
Proof.
  intros HL HE (Hww & _) [Hp Hr Hc HC _]. destruct (array_max_some L E counts) as [X HX]; [done|lia|done|].
  destruct Hp as (_ & Hlp & _), Hr as (_ & Hlr & _).
  assert (len (zip (rows p2l) (rows ranks)) = L) as Hz by (rewrite <- Hlp; apply len_zip_with; lia).
  destruct (for_map_rows ([], []) [] (slots_row (width w) P X) (λ l s, Plan E P X (row p2l l) (row counts l) s) (zip (rows p2l) (rows ranks)))
    as (log2phy & Ef & Hlen & HP).
  - intros l Hl. rewrite (at_zip_with [] []) by lia. fold (row p2l l) (row ranks l). rewrite Hww.
    apply (slots_row_ok E P X (row p2l l) (row ranks l) (row counts l)); [apply HC; lia| |lia|lia].
    intros c Hcin. apply (array_max_bound counts X HX). eapply rows_concat; [done| |done]. lia.
  - exists X, log2phy. rewrite Hz in *. split_and!; done.
Qed.

Lemma rebalance_ok L E P G N D (w : array weight) :
  Shaped L E w → 0 < L → 0 < E ≤ P → 0 < G → 0 < N → 0 < D → E mod G = 0 → P mod D = 0 → (G mod N = 0 → D mod N = 0) →
  ∃ p2l log2phy counts, rebalance_experts w P G N D tt = (Ok (p2l, log2phy, counts), tt) ∧ Balanced L E P G N p2l log2phy counts.
Proof.
  intros Hw HL HE HG HN HD H1 H2 H3. assert (∃ p2l ranks counts,
    (if G mod N =? 0 then rebalance_experts_hierarchical w P G N D else rebalance_experts_hierarchical w P 1 1 D) tt = (Ok (p2l, ranks, counts), tt) ∧
    (if G mod N =? 0 then Hierarchy L E P G N p2l ranks counts else Hierarchy L E P 1 1 p2l ranks counts)) as (p2l & ranks & counts & Eh & Hh).
  { destruct (G mod N =? 0) eqn:Em; [apply Z.eqb_eq in Em|]; apply hierarchy_runs; try done; try lia; auto using Z.mod_1_r. }
  assert (∃ g n, Hierarchy L E P g n p2l ranks counts) as (g & n & Hany) by (destruct (G mod N =? 0); eauto).
  destruct (finish_ok L E P g n w p2l ranks counts HL HE Hw Hany) as (X & log2phy & HX & Ef & Hlen & HPl).
  exists p2l, log2phy, counts. split.
  - unfold rebalance_experts. unfold bind at 1, raise_if. replace (N =? 0) with false by lia. cbv beta iota.
    go_on Eh. unfold bind at 1, of_option. rewrite HX. cbv beta iota. unfold ret at 1. go_on Ef. done.
  - split; [apply Hany|apply Hany|done|by exists X|]. intros l Hm Hl. rewrite Hm in Hh. simpl in Hh. by apply Hh.
Qed.

End Weighted.
End EplbFacts.
