(* ===== verification/EplbProperties.v ===== *)
(** * What the placement of experts guarantees

    Whatever the loads, a plan gives every expert a slot, keeps the two maps inverse to
    each other and the experts of a group on one node; and copying the most loaded
    expert first makes the highest load per copy as low as any other choice of copies. *)

From S2P Require Import Prelude Tokens Eplb EplbFacts.

(** The order of weights; division of a weight that is [w_ok] (not negative, say) does
    not increase with the divisor. Correctly rounded arithmetic satisfies these laws. *)
Class WeightLaws `{Weights} := {
  w_ok : weight → Prop;
  w_irrefl x : w_ltb x x = false;
  w_trans x y z : w_ltb x y = true → w_ltb y z = true → w_ltb x z = true;
  w_split x y z : w_ltb x z = true → w_ltb x y = true ∨ w_ltb y z = true;
  w_div_antitone x k l : w_ok x → 1 ≤ k ≤ l → w_ltb (w_div x k) (w_div x l) = false
}.

Module EplbProperties.
Import Eplb EplbFacts.

Section Optimal.
Context `{WL : WeightLaws}.

(** The load of a copy of expert [e] *)
Definition load (w : list weight) (counts : list Z) (e : Z) : weight := w_div (at_ w_zero w e) (at_ 0 counts e).

Lemma w_irrefl_split x y z : w_ltb x y = false → w_ltb y z = false → w_ltb x z = false.
Proof. intros Hxy Hyz. destruct (w_ltb x z) eqn:E; [|done]. destruct (w_split x y z E); congruence. Qed.

Lemma argmax_spec w e : argmax w = Some e → ∀ i, 0 ≤ i < len w → w_ltb (at_ w_zero w e) (at_ w_zero w i) = false.
Proof.
  intros He i Hi. unfold argmax in He.
  assert (∀ l best seen,
    (∀ b, best = Some b → ∀ k, k ∈ seen → w_ltb (at_ w_zero w b) (at_ w_zero w k) = false) → (best = None → seen = []) →
    foldl (λ best i, match best with None => Some i | Some j => if w_ltb (at_ w_zero w j) (at_ w_zero w i) then Some i else best end) best l = Some e →
    ∀ k, k ∈ seen ++ l → w_ltb (at_ w_zero w e) (at_ w_zero w k) = false) as Hfold.
  { clear -WL. induction l as [|x l IH]; intros best seen Hb Hn Hf k Hk; [rewrite app_nil_r in Hk; by apply (Hb e)|].
    replace (seen ++ x :: l) with ((seen ++ [x]) ++ l) in Hk by (by rewrite <- app_assoc).
    simpl in Hf. refine (IH _ (seen ++ [x]) _ _ Hf k Hk).
    - intros b Hbb j [Hj|Hj]%elem_of_app; [|apply list_elem_of_singleton in Hj as ->]; (destruct best as [q|];
        [|injection Hbb as <-; rewrite (Hn eq_refl) in *; try (by apply elem_of_nil in Hj); apply w_irrefl]);
        destruct (w_ltb (at_ w_zero w q) (at_ w_zero w x)) eqn:Eq; injection Hbb as <-; try done.
      + specialize (Hb q eq_refl j Hj). destruct (w_ltb (at_ w_zero w x) (at_ w_zero w j)) eqn:Exj; [|done]. by rewrite (w_trans _ _ _ Eq Exj) in Hb.
      + by apply (Hb q).
      + apply w_irrefl.
    - destruct best as [b|]; [by destruct (w_ltb _ _)|done]. }
  apply (Hfold (zrange 0 (len w)) None []); try done. simpl. by apply elem_of_zrange.
Qed.

Lemma argmax_found w : 0 < len w → ∃ e, argmax w = Some e ∧ 0 ≤ e < len w.
Proof.
  intros Hw. destruct (best_found (λ _, true) (λ p q, w_ltb (at_ w_zero w q) (at_ w_zero w p)) (zrange 0 (len w)) None) as (e & He & _ & [|Hin]);
    [done| |done|].
  - right. exists 0. rewrite elem_of_zrange. split; [lia|done].
  - exists e. split; [exact He|]. by apply elem_of_zrange.
Qed.
Lemma argmax_in w e : argmax w = Some e → 0 ≤ e < len w.
Proof.
  intros He. destruct w as [|x w]; [done|]. destruct (argmax_found (x :: w)) as (e' & He' & Hin); [rewrite len_cons; pose proof (len_nonneg w); lia|].
  congruence.
Qed.
Lemma copying_sum num_log num_phy s : Copying num_log num_phy s → zsum (logcnt s) = num_phy.
Proof.
  intros (Hp & Hr & _ & Hone & HP). rewrite <- (len_pairs_from 0 (logcnt s)) by (intros c Hc; specialize (Hone c Hc); lia).
  fold pairs. unfold len. rewrite <- HP. unfold len in *. rewrite length_zip_with. lia.
Qed.

(** Every expert with several copies had the highest load when the last was made. *)
Definition Greedy (w : list weight) (counts : list Z) : Prop :=
  ∀ j i, 0 ≤ j < len w → 0 ≤ i < len w → 1 < at_ 0 counts j →
  w_ltb (w_div (at_ w_zero w j) (at_ 0 counts j - 1)) (load w counts i) = false.

Lemma greedy_step w counts e :
  (∀ i, 0 ≤ i < len w → w_ok (at_ w_zero w i)) → len counts = len w → (∀ i, 0 ≤ i < len w → 1 ≤ at_ 0 counts i) → 0 ≤ e < len w →
  (∀ i, 0 ≤ i < len w → w_ltb (load w counts e) (load w counts i) = false) →
  Greedy w counts → Greedy w (list_set counts e (at_ 0 counts e + 1)).
Proof.
  intros Hok Hl Hone He Hmax HG j i Hj Hi Hcj. unfold load in *.
  assert (∀ x, w_ltb x (w_div (at_ w_zero w i) (at_ 0 counts i)) = false →
    w_ltb x (w_div (at_ w_zero w i) (at_ 0 (list_set counts e (at_ 0 counts e + 1)) i)) = false) as Hless.
  { intros x Hx. destruct (decide (i = e)) as [->|Hne]; [|by rewrite at_set_ne by lia]. rewrite at_set by lia.
    eapply w_irrefl_split; [exact Hx|]. apply w_div_antitone; [by apply Hok|]. specialize (Hone e He). lia. }
  apply Hless. destruct (decide (j = e)) as [->|Hne].
  - rewrite at_set by lia. replace (at_ 0 counts e + 1 - 1) with (at_ 0 counts e) by lia. by apply Hmax.
  - rewrite at_set_ne in * by lia. by apply HG.
Qed.

Lemma zsum_le (c c' : list Z) : len c = len c' → (∀ i, 0 ≤ i < len c → at_ 0 c i ≤ at_ 0 c' i) → zsum c ≤ zsum c'.
Proof.
  revert c'. induction c as [|x c IH]; intros [|x' c'] Hl Hle; [done|unfold len in Hl; simpl in Hl; lia..|].
  rewrite !len_cons in *. pose proof (len_nonneg c). pose proof (Hle 0 ltac:(lia)) as Hhd. unfold at_ in Hhd. simpl in *.
  assert (zsum c ≤ zsum c'); [|lia]. apply IH; [lia|]. intros i Hi. specialize (Hle (i + 1) ltac:(lia)). unfold at_ in *.
  by replace (Z.to_nat (i + 1)) with (S (Z.to_nat i)) in Hle by lia.
Qed.

Lemma zsum_set (c : list Z) i x : 0 ≤ i < len c → zsum (list_set c i x) = zsum c - at_ 0 c i + x.
Proof.
  intros Hi. rewrite list_set_insert by done. unfold at_. revert i Hi. induction c as [|y c IH]; intros i Hi; [unfold len in Hi; simpl in Hi; lia|].
  rewrite len_cons in Hi. destruct (decide (i = 0)) as [->|Hne]; [simpl; lia|].
  replace (Z.to_nat i) with (S (Z.to_nat (i - 1))) by lia. simpl. rewrite IH by lia. lia.
Qed.

(** No other choice of as many copies has a lower peak. *)
Lemma greedy_optimal w counts counts' e :
  (∀ i, 0 ≤ i < len w → w_ok (at_ w_zero w i)) → len counts = len w → len counts' = len w →
  (∀ i, 0 ≤ i < len w → 1 ≤ at_ 0 counts i) → (∀ i, 0 ≤ i < len w → 1 ≤ at_ 0 counts' i) → zsum counts' ≤ zsum counts → Greedy w counts →
  0 ≤ e < len w → ∃ j, 0 ≤ j < len w ∧ w_ltb (load w counts' j) (load w counts e) = false.
Proof.
  intros Hok Hl Hl' Hone Hone' Hsum HG He.
  destruct (decide (Exists (λ j, w_ltb (load w counts' j) (load w counts e) = false) (zrange 0 (len w)))) as [Hx|Hall].
  { apply Exists_exists in Hx as (j & Hj & Hx). exists j. by apply elem_of_zrange in Hj. }
  exfalso. assert (∀ j, 0 ≤ j < len w → w_ltb (load w counts' j) (load w counts e) = true) as Hlow.
  { intros j Hj. destruct (w_ltb _ _) eqn:E; [done|]. destruct Hall. apply Exists_exists. exists j. split; [by apply elem_of_zrange|done]. }
  assert (∀ j, 0 ≤ j < len w → at_ 0 counts j ≤ at_ 0 counts' j) as Hmore.
  { intros j Hj. destruct (decide (at_ 0 counts j ≤ at_ 0 counts' j)) as [|Hlt]; [done|exfalso]. pose proof (Hone' j Hj).
    pose proof (Hlow j Hj) as Hj'. unfold load at 1 in Hj'.
    rewrite (w_irrefl_split _ _ _ (w_div_antitone (at_ w_zero w j) (at_ 0 counts' j) (at_ 0 counts j - 1) (Hok j Hj) ltac:(lia)) (HG j e Hj He ltac:(lia))) in Hj'. done. }
  assert (at_ 0 counts e < at_ 0 counts' e) as Hstrict.
  { destruct (decide (at_ 0 counts e < at_ 0 counts' e)) as [|Hge]; [done|exfalso]. pose proof (Hlow e He) as Hx. unfold load in Hx.
    rewrite w_div_antitone in Hx; [done|by apply Hok|]. split; [by apply Hone'|lia]. }
  assert (zsum counts ≤ zsum (list_set counts' e (at_ 0 counts e))) as Hfin; [|rewrite zsum_set in Hfin by lia; lia].
  apply zsum_le; [rewrite len_list_set; lia|]. intros i Hi. destruct (decide (i = e)) as [->|Hne].
  - rewrite at_set by lia. lia.
  - rewrite at_set_ne by lia. apply Hmore. lia.
Qed.

Lemma for_fold_inv {T U} (I : U → Prop) (f : U → T → M () U) l s s' :
  (∀ s x s', I s → f s x tt = (Ok s', tt) → I s') → I s → for_fold l s f tt = (Ok s', tt) → I s'.
Proof.
  intros Hf. revert s. induction l as [|x l IH]; intros s Hs E; simpl in E; [by injection E as <-|].
  unfold bind in E. destruct (f s x tt) as [[s1|] []] eqn:E1; [|done]. by apply (IH s1); [apply (Hf s x)|].
Qed.

(** The state in which every copy so far was a copy of a most loaded expert *)
Definition GreedyState (w : list weight) (s : copies) : Prop :=
  len (logcnt s) = len w ∧ (∀ i, 0 ≤ i < len w → 1 ≤ at_ 0 (logcnt s) i) ∧ Greedy w (logcnt s).

Lemma copy_expert_greedy w s i s' :
  (∀ i, 0 ≤ i < len w → w_ok (at_ w_zero w i)) → GreedyState w s → copy_expert w s i tt = (Ok s', tt) → GreedyState w s'.
Proof.
  intros Hok (Hl & Hone & HG) E. unfold copy_expert, bind, of_option in E. destruct (argmax _) as [e|] eqn:Ee; [|done]. injection E as <-.
  assert (len (zip_with w_div w (logcnt s)) = len w) as Hz by (by apply len_zip_with).
  assert (∀ i, 0 ≤ i < len w → at_ w_zero (zip_with w_div w (logcnt s)) i = load w (logcnt s) i) as Hload.
  { intros j Hj. by apply (at_zip_with w_zero 0). }
  pose proof (argmax_in _ _ Ee) as He. rewrite Hz in He. split_and!; simpl.
  - by rewrite len_list_set.
  - intros j Hj. destruct (decide (j = e)) as [->|Hne]; [rewrite at_set by lia; specialize (Hone e He); lia|]. rewrite at_set_ne by lia. by apply Hone.
  - apply greedy_step; try done. intros j Hj. rewrite <- !Hload by done. apply argmax_spec; [done|]. by rewrite Hz.
Qed.

Lemma blank_greedy w p r : GreedyState w (mk_copies p r (repeat 1 (length w))).
Proof.
  split_and!; simpl; [by rewrite len_repeat|intros i Hi; rewrite at_repeat; unfold len in *; lia|].
  intros j i Hj Hi Hc. rewrite at_repeat in Hc by (unfold len in *; lia). lia.
Qed.

(** C38: Copying the experts with the highest load per copy is optimal: for all weights
    that are [w_ok], and any other choice of as many copies with one at least of every
    expert, some expert of that choice has a load per copy that no expert of the greedy
    choice exceeds. *)
Theorem replication_minimises_peak_load w num_phy :
  0 < len w ≤ num_phy → (∀ x, x ∈ w → w_ok x) →
  ∃ s, replicate_row num_phy w tt = (Ok s, tt) ∧ Copying (len w) num_phy s ∧
    ∀ counts', len counts' = len w → (∀ c, c ∈ counts' → 1 ≤ c) → zsum counts' = num_phy →
      ∃ j, 0 ≤ j < len w ∧ ∀ i, 0 ≤ i < len w → w_ltb (load w counts' j) (load w (logcnt s) i) = false.
Proof.
  intros Hw Hok. destruct (replicate_row_ok w num_phy Hw) as (s & E & HC). exists s. split; [done|]. split; [done|].
  assert (∀ i, 0 ≤ i < len w → w_ok (at_ w_zero w i)) as Hok'.
  { intros i Hi. apply Hok. eapply list_elem_of_lookup_2. by apply at_inside. }
  destruct (for_fold_inv (GreedyState w) (copy_expert w) _ _ _ (λ s x s', copy_expert_greedy w s x s' Hok') (blank_greedy w _ _) E) as (Hl & Hone & HG).
  intros counts' Hl' Hone' Hsum.
  destruct (argmax_found (zip_with w_div w (logcnt s))) as (e & Ee & He); [rewrite len_zip_with; lia|].
  rewrite len_zip_with in He by done.
  destruct (greedy_optimal w (logcnt s) counts' e) as (j & Hj & Hje); try done.
  - intros i Hi. apply Hone'. eapply list_elem_of_lookup_2. apply at_inside. lia.
  - rewrite (copying_sum _ _ _ HC). lia.
  - exists j. split; [done|]. intros i Hi. eapply w_irrefl_split; [exact Hje|].
    pose proof (argmax_spec _ _ Ee i) as Hmax. rewrite len_zip_with in Hmax by done. rewrite !(at_zip_with w_zero 0) in Hmax by lia. by apply Hmax.
Qed.
End Optimal.

(** C37: Whatever the loads and whatever the groups, a plan for [L] layers of [E] experts on
    [P] slots exists: every slot holds an expert, every expert has at least one slot, the
    counts are the numbers of slots of each expert, and its row of [log2phy] lists
    exactly those slots, then -1. When the groups divide over the nodes, so many groups
    go to each node, and the experts of a group are only on the node of their group. *)
Theorem rebalance_experts_correct `{Weights, NumPy} L E P G N D (w : array weight) :
  Shaped L E w → 0 < L → 0 < E ≤ P → 0 < G → 0 < N → 0 < D → E mod G = 0 → P mod D = 0 → (G mod N = 0 → D mod N = 0) →
  ∃ p2l log2phy counts, rebalance_experts w P G N D tt = (Ok (p2l, log2phy, counts), tt) ∧ Balanced L E P G N p2l log2phy counts.
Proof. intros. by apply rebalance_ok. Qed.

(** ** Integer loads *)

Definition int_weights : Weights :=
  {| weight := Z; w_zero := 0; w_add := Z.add; w_sum := zsum; w_div := Z.div; w_ltb := Z.ltb |}.

#[program] Definition int_laws : @WeightLaws int_weights := {| w_ok x := 0 ≤ x |}.
Next Obligation. intros. apply Z.ltb_irrefl. Qed.
Next Obligation. simpl. intros x y z ?%Z.ltb_lt ?%Z.ltb_lt. apply Z.ltb_lt. lia. Qed.
Next Obligation. simpl. intros x y z ?%Z.ltb_lt. destruct (Z.ltb_spec x y); [by left|right]. apply Z.ltb_lt. lia. Qed.
Next Obligation. simpl. intros x k l Hx Hk. apply Z.ltb_ge. apply Z.div_le_compat_l; lia. Qed.

Definition two_layers : array Z := mk_array 12
  [[90; 132; 40; 61; 104; 165; 39; 4; 73; 56; 183; 86]; [20; 107; 104; 64; 19; 197; 187; 157; 172; 86; 16; 27]].

(** Sixteen slots on eight GPUs of two nodes *)
Example two_layers_plan :
  (let '(r, _) := @rebalance_experts int_weights zeros_numpy two_layers 16 4 2 8 tt in
   match r with Ok (p2l, _, counts) => Some (rows p2l, rows counts) | Raise _ => None end)
  = Some ([[5; 6; 5; 7; 8; 4; 3; 4; 10; 9; 10; 2; 0; 1; 11; 1]; [7; 10; 6; 8; 6; 11; 8; 9; 2; 4; 5; 1; 5; 0; 3; 1]],
      [[1; 2; 1; 1; 2; 2; 1; 1; 1; 1; 2; 1]; [1; 2; 1; 1; 1; 2; 2; 1; 2; 1; 1; 1]]).
Proof. vm_compute. reflexivity. Qed.

Lemma rebalance_experts_correct_witness :
  ∃ p2l log2phy counts, @rebalance_experts int_weights zeros_numpy two_layers 16 4 2 8 tt = (Ok (p2l, log2phy, counts), tt) ∧
    @Balanced 2 12 16 4 2 p2l log2phy counts.
Proof.
  apply (@rebalance_experts_correct int_weights zeros_numpy 2 12 16 4 2 8 two_layers); try lia; try reflexivity.
  split; [reflexivity|]. split; [reflexivity|]. intros r Hr. apply elem_of_cons in Hr as [->|Hr]; [reflexivity|].
  apply list_elem_of_singleton in Hr as ->. reflexivity.
Defined.

Lemma replication_minimises_peak_load_witness :
  ∃ s, @replicate_row int_weights 6 [90; 132; 40; 61] tt = (Ok s, tt) ∧ Copying 4 6 s ∧
    ∀ counts', len counts' = 4 → (∀ c, c ∈ counts' → 1 ≤ c) → zsum counts' = 6 →
      ∃ j, 0 ≤ j < 4 ∧ ∀ i, 0 ≤ i < 4 → (@load int_weights [90; 132; 40; 61] counts' j <? @load int_weights [90; 132; 40; 61] (logcnt s) i) = false.
Proof.
  apply (@replication_minimises_peak_load int_weights int_laws [90; 132; 40; 61] 6); [vm_compute; by split|].
  intros x Hx. change (x ∈ ([90; 132; 40; 61] : list Z)) in Hx. change (0 ≤ x). repeat (apply elem_of_cons in Hx as [->|Hx]; [lia|]).
  by apply elem_of_nil in Hx.
Defined.

End EplbProperties.
