(* ===== verification/EplbStats.v ===== *)
(** * Expert load statistics and the placement made from them (pipelines/lib/eplb_stats.py)

    Devices count, per layer, how often each expert is chosen; a snapshot sums the counts
    over the devices, travels as a dictionary, and becomes the placement of the experts
    when a server starts. The device buffers are named objects, since captured graphs
    hold on to them. Strings read as integers ([int]) and nested lists read as arrays
    ([np.asarray]) are classes; locks, read-only flags and the log line are left out. *)

From S2P Require Import Prelude Tokens Hashing Dict Eplb.

(** ** Data read from JSON *)

Inductive pyval :=
| PNone
| PBool (b : bool)
| PInt (z : Z)
(** a float, by what [int] makes of it *)
| PFloat (i : outcome Z)
| PStr (s : string)
| PList (l : list pyval)
| PDict (d : list (string * pyval)).

Class Readers := {
  (** [int(s)] of a string *)
  int_of_str : string → option Z;
  (** [np.asarray(l, dtype=np.int64)]; [None] is an array that is not two-dimensional *)
  asarray : list pyval → outcome (option (array Z))
}.

(** [np.asarray] of integers in rows of one length *)
Class ReadersLaws `{Readers} := {
  asarray_rows w (rs : list (list Z)) :
    rs ≠ [] → (∀ r, r ∈ rs → len r = w ∧ ∀ x, x ∈ r → int64 x = true) →
    asarray (map (λ r, PList (map PInt r)) rs) = Ok (Some (mk_array w rs))
}.

Definition get_key (d : list (string * pyval)) (k : string) : option pyval := OrderedDict.lookup k d.
Definition lift {S T} (o : outcome T) : M S T := match o with Ok x => ret x | Raise e => raise e end.

(** [not isinstance(v, int) or isinstance(v, bool)] *)
Definition not_int (v : pyval) : bool := match v with PInt _ => false | _ => true end.

Section Int.
Context `{Readers}.

(** [int(v)] *)
Definition py_int (v : pyval) : outcome Z :=
  match v with
  | PInt z => Ok z
  | PBool b => Ok (if b then 1 else 0)
  | PFloat i => i
  | PStr s => match int_of_str s with Some z => Ok z | None => Raise ValueError end
  | PNone | PList _ | PDict _ => Raise TypeError
  end.

(** [for x in v] *)
Definition py_iter (v : pyval) : outcome (list pyval) :=
  match v with
  | PList l => Ok l
  | PDict d => Ok (map (λ '(k, _), PStr k) d)
  | PStr s => Ok (map (λ a, PStr (String a "")) (String.list_ascii_of_string s))
  | _ => Raise TypeError
  end.

(** [data[k]] *)
Definition subscript (d : list (string * pyval)) (k : string) : M () pyval := of_option KeyError (get_key d k).
End Int.

Module EplbStatsMetadata.

Record t := mk {
  num_layers : Z;
  num_moe_layers : Z;
  moe_layer_indices : list Z;
  num_logical_experts : Z;
  num_experts_per_token : Z
}.

(** The assertions of [__post_init__] *)
Definition valid (m : t) : bool :=
  (num_layers m >? 0) && (0 <? num_moe_layers m) && (num_moe_layers m <=? num_layers m)
  && (len (moe_layer_indices m) =? num_moe_layers m)
  && forallb (λ i, (0 <=? i) && (i <? num_layers m)) (moe_layer_indices m)
  && (num_logical_experts m >? 0) && (num_experts_per_token m >? 0)
  && (num_experts_per_token m <=? num_logical_experts m).

Definition init (a b : Z) (c : list Z) (d e : Z) : M () t :=
  let m := mk a b c d e in py_assert (valid m);; ret m.

Definition to_dict (m : t) : list (string * pyval) :=
  [("num_layers", PInt (num_layers m));
   ("num_moe_layers", PInt (num_moe_layers m));
   ("moe_layer_indices", PList (map PInt (moe_layer_indices m)));
   ("num_logical_experts", PInt (num_logical_experts m));
   ("num_experts_per_token", PInt (num_experts_per_token m))]%string.

Section FromDict.
Context `{Readers}.

Definition required (data : list (string * pyval)) (key : string) : M () unit :=
  match get_key data key with
  | None => raise ValueError
  | Some v => raise_if (not_int v) ValueError
  end.

(** [int(data[key])] *)
Definition int_at (data : list (string * pyval)) (key : string) : M () Z :=
  let! v := subscript data key in lift (py_int v).

Definition from_dict (data : list (string * pyval)) : M () t :=
  for_each ["num_logical_experts"; "num_experts_per_token"]%string (required data);;
  let! '(num_layers, num_moe_layers) :=
    match get_key data "num_layers" with
    | Some v =>
        let! num_layers := lift (py_int v) in
        let! num_moe_layers := lift (py_int (default (PInt num_layers) (get_key data "num_moe_layers"))) in
        ret (num_layers, num_moe_layers)
    | None => let! num_layers := int_at data "num_moe_layers" in ret (num_layers, num_layers)
    end in
  let! items := lift (py_iter (default (PList (map PInt (zrange 0 num_layers))) (get_key data "moe_layer_indices"))) in
  let! moe_layer_indices := for_map items (λ i, lift (py_int i)) in
  let! num_logical_experts := int_at data "num_logical_experts" in
  let! num_experts_per_token := int_at data "num_experts_per_token" in
  init num_layers num_moe_layers moe_layer_indices num_logical_experts num_experts_per_token.
End FromDict.
End EplbStatsMetadata.

Module EplbStatsSnapshot.

Record t := mk {
  metadata : EplbStatsMetadata.t;
  histogram : array Z;
  total_tokens : Z;
  total_routed_tokens : Z;
  hostname : option string
}.

(** [histogram] [None] is an array of another number of dimensions. *)
Definition init (m : EplbStatsMetadata.t) (histogram : option (array Z)) (total routed : Z) (host : option string) : M () t :=
  match histogram with
  | Some h =>
      py_assert ((Eplb.num_rows h =? EplbStatsMetadata.num_layers m) && (width h =? EplbStatsMetadata.num_logical_experts m));;
      py_assert (total >=? 0);;
      ret (mk m h total routed host)
  | None => raise AssertionError
  end.

Definition draft_candidate_tokens (s : t) : Z := Z.max 0 (total_routed_tokens s - total_tokens s).

(** The values are copied. *)
Definition from_array := init.

Definition to_dict (s : t) : list (string * pyval) :=
  [("metadata", PDict (EplbStatsMetadata.to_dict (metadata s)));
   ("histogram", PList (map (λ r, PList (map PInt r)) (rows (histogram s))));
   ("non_draft_tokens", PInt (total_tokens s));
   ("total_routed_tokens", PInt (total_routed_tokens s));
   ("hostname", match hostname s with Some h => PStr h | None => PNone end)]%string
  ++ (if draft_candidate_tokens s >? 0 then [("draft_candidate_tokens", PInt (draft_candidate_tokens s))]%string else []).

Section FromDict.
Context `{Readers}.

(** [np.asarray] with [TypeError] and [ValueError] turned into [ValueError] *)
Definition read_histogram (l : list pyval) : M () (option (array Z)) :=
  match asarray l with
  | Ok h => ret h
  | Raise TypeError | Raise ValueError => raise ValueError
  | Raise e => raise e
  end.

Definition from_dict (data : list (string * pyval)) : M () t :=
  for_each ["metadata"; "histogram"; "non_draft_tokens"; "hostname"]%string
    (λ key, raise_if (bool_decide (get_key data key = None)) ValueError);;
  let! metadata_data := subscript data "metadata" in
  let! metadata := match metadata_data with PDict d => EplbStatsMetadata.from_dict d | _ => raise ValueError end in
  let! histogram_data := subscript data "histogram" in
  let! histogram := match histogram_data with PList l => read_histogram l | _ => raise ValueError end in
  let! non_draft_tokens := subscript data "non_draft_tokens" in
  raise_if (not_int non_draft_tokens) ValueError;;
  let total_routed_tokens := default non_draft_tokens (get_key data "total_routed_tokens") in
  let! total := lift (py_int non_draft_tokens) in
  let! routed := lift (py_int total_routed_tokens) in
  from_array metadata histogram total routed None.
End FromDict.
End EplbStatsSnapshot.

(** ** Counting *)

Module EplbStatsAccumulator.

(** [heap]: the counters behind each buffer *)
Record t := mk_t {
  _metadata : EplbStatsMetadata.t;
  _layer_device_buffers : list (list Z);
  _total_tokens : Z;
  heap : gmap Z (list Z)
}.
Definition set_total (x : Z) (s : t) : t := mk_t (_metadata s) (_layer_device_buffers s) x (heap s).
Definition set_heap (h : gmap Z (list Z)) (s : t) : t := mk_t (_metadata s) (_layer_device_buffers s) (_total_tokens s) h.

Definition blank (m : EplbStatsMetadata.t) : list Z := repeat 0 (Z.to_nat (EplbStatsMetadata.num_logical_experts m)).

(** The buffer of layer [l] and device [d] is named by its place in layer-major order. *)
Definition init (m : EplbStatsMetadata.t) (num_devices : nat) : t :=
  let bufs := map (λ l, map (λ d, Z.of_nat (l * num_devices + d)) (seq 0 num_devices)) (seq 0 (Z.to_nat (EplbStatsMetadata.num_layers m))) in
  mk_t m bufs 0 (list_to_map (map (λ b, (b, blank m)) (concat bufs))).

Definition device_buffers (s : t) : list Z := concat (_layer_device_buffers s).

Definition record_batch_total_tokens (num_tokens : Z) : M t unit := modify (λ s, set_total (_total_tokens s + num_tokens) s).

(** Elementwise [int64] addition *)
Definition add64 (a b : Z) : Z := to_signed 64 (a + b).
Definition add_counts (a b : list Z) : list Z := zip_with add64 a b.
Definition to_numpy (s : t) (b : Z) : list Z := default (blank (_metadata s)) (heap s !! b).

(** [sum(b.to_numpy() for b in layer_bufs)], stored into a row of zeros *)
Definition sum_layer (s : t) (layer_bufs : list Z) : list Z := foldl add_counts (blank (_metadata s)) (map (to_numpy s) layer_bufs).
Definition row_sum (r : list Z) : Z := foldl add64 0 r.

Definition snapshot (hostname : option string) : M t EplbStatsSnapshot.t :=
  let! s := get in
  let histogram := map (sum_layer s) (_layer_device_buffers s) in
  let total := _total_tokens s in
  let nonzero := filter (λ x, 0 < x) (map row_sum histogram) in
  let top_k := EplbStatsMetadata.num_experts_per_token (_metadata s) in
  let routed := match nonzero with [] => total | x :: l => foldl Z.max x l / top_k end in
  lift (EplbStatsSnapshot.from_array (_metadata s) (Some (mk_array (EplbStatsMetadata.num_logical_experts (_metadata s)) histogram))
    total routed hostname tt).1.

(** The buffers are written in place. *)
Definition reset : M t unit :=
  modify (λ s, set_total 0 (set_heap (foldl (λ h b, <[b := blank (_metadata s)]> h) (heap s) (device_buffers s)) s)).

End EplbStatsAccumulator.

(** ** Placement *)

Module EplbPlacement.

Record t := mk {
  phy2log : array Z;
  (** [int32] *)
  log2phy : list (list (list Z));
  logcnt : array Z
}.

Definition num_phy (p : t) : Z := width (phy2log p).
Definition max_replicas (p : t) : M () Z := of_option ValueError (Eplb.array_max (logcnt p)).

(** [a.sum(axis=0)] of rows of [w] elements *)
Definition column_sums (w : Z) (rs : list (list Z)) : list Z :=
  foldl (zip_with EplbStatsAccumulator.add64) (repeat 0 (Z.to_nat w)) rs.

Definition to_int32 : Z → Z := to_signed 32.

Section Placement.
Context `{Weights, NumPy} (float64 : Z → weight).

(** [%] of Python, whose divisor is not zero *)
Definition py_mod (a b : Z) : M () Z := raise_if (b =? 0) ZeroDivisionError;; ret (a mod b).

(** [np.broadcast_to(x, (n,) + x.shape[1:])] of an array of one layer *)
Definition broadcast {T} (n : Z) (x : list T) : list T := concat (repeat x (Z.to_nat n)).

Definition from_snapshot (snap : EplbStatsSnapshot.t) (ep_size n_nodes n_groups eplb_replicas_per_gpu : Z) : M () t :=
  let h := EplbStatsSnapshot.histogram snap in
  let num_layers := Eplb.num_rows h in
  let num_log := width h in
  let! a := py_mod num_log ep_size in
  (if negb (a =? 0) then raise ValueError else let! b := py_mod num_log n_groups in raise_if (negb (b =? 0)) ValueError);;
  raise_if (eplb_replicas_per_gpu <? 0) ValueError;;
  let num_phy := num_log + eplb_replicas_per_gpu * ep_size in
  let weight_agg := mk_array num_log [map float64 (column_sums num_log (rows h))] in
  let! '(phy2log_u, log2phy_u, logcnt_u) := Eplb.rebalance_experts weight_agg num_phy n_groups n_nodes ep_size in
  ret (mk (mk_array num_phy (broadcast num_layers (rows phy2log_u)))
          (map (map (map to_int32)) (broadcast num_layers log2phy_u))
          (mk_array num_log (map (map to_int32) (broadcast num_layers (rows logcnt_u))))).
End Placement.

Definition identity (num_layers num_logical : Z) : t :=
  mk (mk_array num_logical (repeat (zrange 0 num_logical) (Z.to_nat num_layers)))
     (repeat (map (λ i, [to_int32 i]) (zrange 0 num_logical)) (Z.to_nat num_layers))
     (mk_array num_logical (repeat (repeat 1 (Z.to_nat num_logical)) (Z.to_nat num_layers))).

End EplbPlacement.
