(* ===== verification/EplbStatsProperties.v ===== *)
(** * What the expert statistics guarantee

    A snapshot that travels as a dictionary arrives as it was, except for its host; the
    counters add up to what the devices routed since the last reset; and the placement
    made from a snapshot is a plan, the same for every layer. *)

From S2P Require Import Prelude Tokens Hashing Dict Eplb EplbFacts EplbProperties EplbStats.

Module EplbStatsProperties.
Import Eplb EplbFacts.

(** ** Travelling as a dictionary *)

Section Roundtrip.
Context `{RL : ReadersLaws}.

Lemma ints_roundtrip (l : list Z) : for_map (map PInt l) (λ i, lift (py_int i)) tt = (Ok l, tt).
Proof. induction l as [|x l IH]; [done|]. simpl. unfold bind at 1. simpl. unfold bind. by rewrite IH. Qed.

Lemma metadata_roundtrip m : EplbStatsMetadata.valid m = true → EplbStatsMetadata.from_dict (EplbStatsMetadata.to_dict m) tt = (Ok m, tt).
Proof.
  intros Hv. unfold EplbStatsMetadata.from_dict.
  refine (bind_then _ _ _ _ _ _ (_ : _ = (Ok tt, tt)) _); [reflexivity|].
  refine (bind_then _ _ _ _ _ _ (_ : _ = (Ok (EplbStatsMetadata.num_layers m, EplbStatsMetadata.num_moe_layers m), tt)) _); [reflexivity|].
  refine (bind_then _ _ _ _ _ _ (_ : _ = (Ok (map PInt (EplbStatsMetadata.moe_layer_indices m)), tt)) _); [reflexivity|].
  refine (bind_then _ _ _ _ _ _ (ints_roundtrip _) _).
  refine (bind_then _ _ _ _ _ _ (_ : _ = (Ok (EplbStatsMetadata.num_logical_experts m), tt)) _); [reflexivity|].
  refine (bind_then _ _ _ _ _ _ (_ : _ = (Ok (EplbStatsMetadata.num_experts_per_token m), tt)) _); [reflexivity|].
  unfold EplbStatsMetadata.init. replace (EplbStatsMetadata.mk _ _ _ _ _) with m by (by destruct m). unfold bind, py_assert. by rewrite Hv.
Qed.

(** The snapshots the checks accept, with [int64] counts *)
Definition Valid (s : EplbStatsSnapshot.t) : Prop :=
  EplbStatsMetadata.valid (EplbStatsSnapshot.metadata s) = true ∧
  Shaped (EplbStatsMetadata.num_layers (EplbStatsSnapshot.metadata s)) (EplbStatsMetadata.num_logical_experts (EplbStatsSnapshot.metadata s))
    (EplbStatsSnapshot.histogram s) ∧
  (∀ r x, r ∈ rows (EplbStatsSnapshot.histogram s) → x ∈ r → int64 x = true) ∧
  0 ≤ EplbStatsSnapshot.total_tokens s.

Lemma histogram_read s : Valid s →
  EplbStatsSnapshot.read_histogram (map (λ r, PList (map PInt r)) (rows (EplbStatsSnapshot.histogram s))) tt = (Ok (Some (EplbStatsSnapshot.histogram s)), tt).
Proof.
  intros (Hv & (Hw & Hn & Hr) & H64 & _). unfold EplbStatsSnapshot.read_histogram.
  rewrite (asarray_rows (EplbStatsMetadata.num_logical_experts (EplbStatsSnapshot.metadata s))).
  - rewrite <- Hw. by destruct (EplbStatsSnapshot.histogram s).
  - intros E. rewrite E in Hn. unfold EplbStatsMetadata.valid in Hv. unfold len in Hn. simpl in Hn. lia.
  - intros r Hr'. split; [by apply Hr|]. intros x. by apply (H64 r).
Qed.

(** C12: A snapshot written as a dictionary and read back is the same snapshot without
    its [hostname], which the reader requires but drops. *)
Theorem snapshot_roundtrip s :
  Valid s →
  EplbStatsSnapshot.from_dict (EplbStatsSnapshot.to_dict s) tt =
    (Ok (EplbStatsSnapshot.mk (EplbStatsSnapshot.metadata s) (EplbStatsSnapshot.histogram s)
      (EplbStatsSnapshot.total_tokens s) (EplbStatsSnapshot.total_routed_tokens s) None), tt).
Proof.
  intros HV. pose proof (histogram_read s HV) as Hread. destruct HV as (Hv & (Hw & Hn & _) & _ & Ht). unfold EplbStatsSnapshot.from_dict.
  refine (bind_then _ _ _ _ _ _ (_ : _ = (Ok tt, tt)) _); [by destruct (EplbStatsSnapshot.hostname s)|].
  refine (bind_then _ _ _ _ _ _ (_ : _ = (Ok (PDict (EplbStatsMetadata.to_dict (EplbStatsSnapshot.metadata s))), tt)) _); [reflexivity|].
  refine (bind_then _ _ _ _ _ _ (metadata_roundtrip _ Hv) _).
  refine (bind_then _ _ _ _ _ _ (_ : _ = (Ok (PList (map (λ r, PList (map PInt r)) (rows (EplbStatsSnapshot.histogram s)))), tt)) _); [reflexivity|].
  refine (bind_then _ _ _ _ _ _ Hread _).
  refine (bind_then _ _ _ _ _ _ (_ : _ = (Ok (PInt (EplbStatsSnapshot.total_tokens s)), tt)) _); [reflexivity|].
  refine (bind_then _ _ _ _ _ _ (_ : _ = (Ok tt, tt)) _); [reflexivity|]. cbv zeta.
  refine (bind_then _ _ _ _ _ _ (_ : _ = (Ok (EplbStatsSnapshot.total_tokens s), tt)) _); [reflexivity|].
  refine (bind_then _ _ _ _ _ _ (_ : _ = (Ok (EplbStatsSnapshot.total_routed_tokens s), tt)) _); [reflexivity|].
  unfold EplbStatsSnapshot.from_array, EplbStatsSnapshot.init, num_rows, bind, py_assert. rewrite Hn, Hw, !Z.eqb_refl. simpl.
  by replace (EplbStatsSnapshot.total_tokens s >=? 0) with true by lia.
Qed.
End Roundtrip.

(** ** What the devices count *)

Module Counting.
Import EplbStatsMetadata EplbStatsAccumulator.

Section Run.
Context (m : EplbStatsMetadata.t) (nd : nat).
#[local] Abbreviation L := (num_layers m).
#[local] Abbreviation E := (num_logical_experts m).
#[local] Abbreviation K := (num_experts_per_token m).

(** A token routed on a device, with the experts chosen in each layer *)
Record token := mk_token { device : Z; experts : Z → list Z }.

(** In a layer with experts a token is sent to [K] of them; in the others to none. *)
Record TokenOk (t : token) : Prop := {
  tk_device : 0 ≤ device t < Z.of_nat nd;
  tk_moe l : l ∈ moe_layer_indices m → len (experts t l) = K ∧ NoDup (experts t l);
  tk_dense l : l ∉ moe_layer_indices m → experts t l = [];
  tk_range l e : e ∈ experts t l → 0 ≤ e < E
}.

Definition bump (r : list Z) (e : Z) : list Z := list_set r e (add64 (at_ 0 r e) 1).
Definition buffer (l d : Z) : Z := l * Z.of_nat nd + d.

(** The scatter-add of a token, layer by layer, into the buffers the graph holds *)
Definition count_layer (t : token) (h : gmap Z (list Z)) (l : Z) : gmap Z (list Z) :=
  <[buffer l (device t) := foldl bump (default [] (h !! buffer l (device t))) (experts t l)]> h.
Definition count_token (t : token) (s : EplbStatsAccumulator.t) : EplbStatsAccumulator.t :=
  set_heap (foldl (count_layer t) (heap s) (zrange 0 L)) s.

(** A run since the last reset: the tokens routed, newest first, and the total recorded.
    The counters of a layer do not overflow. *)
Inductive Run : list token → Z → EplbStatsAccumulator.t → Prop :=
| run_init : Run [] 0 (init m nd)
| run_token t ts total s : Run ts total s → TokenOk t → (len ts + 1) * K < 2 ^ 63 → Run (t :: ts) total (count_token t s)
| run_record n ts total s : Run ts total s → 0 ≤ n → Run ts (total + n) (record_batch_total_tokens n s).2
| run_reset ts total s : Run ts total s → Run [] 0 (reset s).2.

(** How often expert [e] was chosen in layer [l] *)
Definition chosen (l e : Z) (ts : list token) : Z := zsum (map (λ t, if decide (e ∈ experts t l) then 1 else 0) ts).
Definition chosen_on (d l e : Z) (ts : list token) : Z := chosen l e (filter (λ t, device t = d) ts).

Record Inv (ts : list token) (total : Z) (s : EplbStatsAccumulator.t) : Prop := {
  iv_meta : _metadata s = m;
  iv_bufs : _layer_device_buffers s = _layer_device_buffers (init m nd);
  iv_total : _total_tokens s = total;
  iv_pos : 0 ≤ total;
  iv_ok t : t ∈ ts → TokenOk t;
  iv_bound : len ts * K < 2 ^ 63;
  iv_cells l d : 0 ≤ l < L → 0 ≤ d < Z.of_nat nd → ∃ r, heap s !! buffer l d = Some r ∧ len r = E ∧
    ∀ e, 0 ≤ e < E → at_ 0 r e = chosen_on d l e ts
}.

Context (Hv : valid m = true).

Lemma valid_pos : 0 < L ∧ 0 < E ∧ 0 < K.
Proof. unfold valid in Hv. lia. Qed.

Lemma buffer_inj l d l' d' : 0 ≤ d < Z.of_nat nd → 0 ≤ d' < Z.of_nat nd → buffer l d = buffer l' d' → l = l' ∧ d = d'.
Proof. unfold buffer. intros Hd Hd' E. assert (l = l') by nia. subst. lia. Qed.

Lemma add64_small a b : 0 ≤ a → 0 ≤ b → a + b < 2 ^ 63 → add64 a b = a + b.
Proof. intros. unfold add64, to_signed. rewrite Z.mod_small by lia. by replace (a + b >=? 2 ^ (64 - 1)) with false by lia. Qed.

Lemma len_bumps r es : len (foldl bump r es) = len r.
Proof. revert r. induction es as [|x es IH]; intros r; [done|]. simpl. rewrite IH. apply len_list_set. Qed.

Lemma bump_other r es e : 0 ≤ e → (∀ x, x ∈ es → 0 ≤ x < len r) → e ∉ es → at_ 0 (foldl bump r es) e = at_ 0 r e.
Proof.
  intros He. revert r. induction es as [|x es IH]; intros r Hin Hn; [done|]. simpl. apply not_elem_of_cons in Hn as [Hne Hn].
  assert (0 ≤ x < len r) by (apply Hin; by left). rewrite IH; [unfold bump; apply at_set_ne; lia| |done].
  intros j Hj. unfold bump. rewrite len_list_set. apply Hin. by right.
Qed.

Lemma bump_one r es e :
  NoDup es → (∀ x, x ∈ es → 0 ≤ x < len r) → e ∈ es → 0 ≤ at_ 0 r e < 2 ^ 63 - 1 → at_ 0 (foldl bump r es) e = at_ 0 r e + 1.
Proof.
  revert r. induction es as [|x es IH]; intros r Hnd Hin He Hb; [by apply elem_of_nil in He|]. simpl. apply NoDup_cons in Hnd as [Hx Hnd].
  assert (0 ≤ x < len r) as Hxr by (apply Hin; by left).
  assert (∀ y, y ∈ es → 0 ≤ y < len (bump r x)) as Hin' by (intros j Hj; unfold bump; rewrite len_list_set; apply Hin; by right).
  destruct (decide (e = x)) as [->|Hne].
  - rewrite bump_other by (done || lia). unfold bump. rewrite at_set by done. apply add64_small; lia.
  - apply elem_of_cons in He as [?|He]; [done|]. pose proof (Hin e ltac:(by right)).
    assert (at_ 0 (bump r x) e = at_ 0 r e) as Hbe by (unfold bump; apply at_set_ne; lia). rewrite IH; rewrite ?Hbe; done.
Qed.

Lemma add64_small_counter x : 0 ≤ x < 2 ^ 63 - 1 → add64 x 1 = x + 1.
Proof. intros. apply add64_small; lia. Qed.

(** *** One token *)

Lemma count_layers t ls h l d :
  0 ≤ device t < Z.of_nat nd → 0 ≤ d < Z.of_nat nd → NoDup ls →
  foldl (count_layer t) h ls !! buffer l d =
    if decide (l ∈ ls ∧ d = device t) then Some (foldl bump (default [] (h !! buffer l d)) (experts t l)) else h !! buffer l d.
Proof.
  intros Ht Hd. revert h. induction ls as [|x ls IH]; intros h Hnd; cbn [foldl]; [rewrite decide_False; [done|by intros [?%elem_of_nil _]]|].
  apply NoDup_cons in Hnd as [Hx Hnd]. rewrite IH by done. unfold count_layer. destruct (decide (d = device t)) as [->|Hne].
  - destruct (decide (x = l)) as [->|Hxl].
    + rewrite decide_False by tauto. rewrite lookup_insert_eq, decide_True by (split; [by left|done]). done.
    + rewrite lookup_insert_ne by (intros Heq; by apply buffer_inj in Heq as [??]).
      destruct (decide (l ∈ ls ∧ device t = device t)) as [[Hin _]|Hn]; [rewrite decide_True; [done|split; [by right|done]]|].
      rewrite decide_False; [done|]. intros [[?|?]%elem_of_cons _]; [by subst|by apply Hn].
  - rewrite !decide_False by tauto. rewrite lookup_insert_ne; [done|]. intros Heq. apply buffer_inj in Heq as [_ ?]; [by subst|done..].
Qed.

Lemma chosen_cons l e t ts : chosen l e (t :: ts) = (if decide (e ∈ experts t l) then 1 else 0) + chosen l e ts.
Proof. done. Qed.
Lemma chosen_on_cons d l e t ts :
  chosen_on d l e (t :: ts) = (if decide (device t = d) then if decide (e ∈ experts t l) then 1 else 0 else 0) + chosen_on d l e ts.
Proof. unfold chosen_on. rewrite filter_cons. destruct (decide (device t = d)); [apply chosen_cons|lia]. Qed.
Lemma chosen_on_bounds d l e ts : 0 ≤ chosen_on d l e ts ≤ len ts.
Proof.
  induction ts as [|t ts IH]; [done|]. rewrite chosen_on_cons, len_cons. destruct (decide (device t = d)); [destruct (decide (e ∈ experts t l))|]; lia.
Qed.

Lemma inv_token t ts total s : Inv ts total s → TokenOk t → (len ts + 1) * K < 2 ^ 63 → Inv (t :: ts) total (count_token t s).
Proof.
  intros HI Ht HK. pose proof valid_pos as (_ & HE & HKp). destruct HI as [Hm Hb Htot Hpos Hok Hbound Hcells]. split; try done.
  - intros t' [->|Hin]%elem_of_cons; [done|by apply Hok].
  - rewrite len_cons. lia.
  - intros l d Hl Hd. destruct (Hcells l d Hl Hd) as (r & Hr & Hlen & Hat). simpl. rewrite count_layers by (apply Ht || done || apply NoDup_zrange).
    rewrite Hr. simpl. assert (∀ x, x ∈ experts t l → 0 ≤ x < len r) as Hin by (intros x Hx; rewrite Hlen; by apply (tk_range _ Ht l)).
    destruct (decide (l ∈ zrange 0 L ∧ d = device t)) as [[_ ->]|Hn].
    + eexists. split; [reflexivity|]. rewrite len_bumps. split; [done|]. intros e He. rewrite chosen_on_cons, decide_True by done. rewrite <- Hat by done.
      assert (NoDup (experts t l)) as Hnd.
      { destruct (decide (l ∈ moe_layer_indices m)); [by apply Ht|rewrite (tk_dense _ Ht l) by done; constructor]. }
      destruct (decide (e ∈ experts t l)) as [Hes|Hes]; [|rewrite bump_other by (done || lia); lia].
      pose proof (chosen_on_bounds (device t) l e ts). rewrite bump_one; try done; [lia|]. rewrite Hat by done. nia.
    + exists r. split; [done|]. split; [done|]. intros e He. rewrite chosen_on_cons, decide_False; [by rewrite Hat|].
      intros Heq. apply Hn. split; [by apply elem_of_zrange|done].
Qed.

Lemma init_buffers l d : 0 ≤ l < L → 0 ≤ d < Z.of_nat nd → buffer l d ∈ concat (_layer_device_buffers (init m nd)).
Proof.
  intros Hl Hd. apply list_elem_of_In, in_concat. exists (map (λ d, Z.of_nat (Z.to_nat l * nd + d)) (seq 0 nd)). split.
  - simpl. apply in_map_iff. exists (Z.to_nat l). split; [done|]. apply in_seq. lia.
  - apply in_map_iff. exists (Z.to_nat d). split; [unfold buffer; nia|]. apply in_seq. lia.
Qed.

Lemma blank_row : len (blank m) = E ∧ ∀ e, 0 ≤ e < E → at_ 0 (blank m) e = 0.
Proof. pose proof valid_pos. unfold blank. split; [rewrite len_repeat; lia|]. intros e He. apply at_repeat. lia. Qed.

Lemma reset_all (h : gmap Z (list Z)) bufs b : b ∈ bufs → foldl (λ h b, <[b := blank m]> h) h bufs !! b = Some (blank m).
Proof.
  assert (∀ bufs (h : gmap Z (list Z)), h !! b = Some (blank m) → foldl (λ h b, <[b := blank m]> h) h bufs !! b = Some (blank m)) as Hkeep.
  { clear. induction bufs as [|x bufs IH]; intros h Hh; [done|]. apply IH. destruct (decide (x = b)) as [->|Hne]; [apply lookup_insert_eq|by rewrite lookup_insert_ne]. }
  revert h. induction bufs as [|x bufs IH]; intros h Hb; [by apply elem_of_nil in Hb|]. simpl.
  apply elem_of_cons in Hb as [->|Hb]; [apply Hkeep, lookup_insert_eq|by apply IH].
Qed.

Lemma inv_blank s :
  _metadata s = m → _layer_device_buffers s = _layer_device_buffers (init m nd) → _total_tokens s = 0 →
  (∀ b, b ∈ concat (_layer_device_buffers (init m nd)) → heap s !! b = Some (blank m)) → Inv [] 0 s.
Proof.
  intros Hm Hb Ht Hh. split; try done.
  - by intros t ?%elem_of_nil.
  - intros l d Hl Hd. destruct blank_row as [Hlen Hat]. exists (blank m). split; [by apply Hh, init_buffers|]. split; [done|]. intros e He. by rewrite Hat.
Qed.

Lemma inv_run ts total s : Run ts total s → Inv ts total s.
Proof.
  intros HR. induction HR as [|t ts total s HR IH Ht HK|n ts total s HR IH Hn|ts total s HR IH].
  - apply inv_blank; try done. intros b Hb. simpl. apply elem_of_list_to_map_1'.
    + intros y Hy. apply list_elem_of_In, in_map_iff in Hy as (x & [= _ <-] & _). done.
    + apply list_elem_of_In, in_map_iff. exists b. split; [done|]. by apply list_elem_of_In.
  - by apply inv_token.
  - destruct IH as [Hm Hb Ht Hpos Hok Hbd Hc]. split; try done; simpl; lia.
  - destruct IH as [Hm Hb Ht Hpos Hok Hbd Hc]. apply inv_blank; try done. intros b Hin. simpl. rewrite Hm. apply reset_all.
    unfold device_buffers. by rewrite Hb.
Qed.

(** *** The snapshot *)

Lemma zsum_map_add {T} (f g : T → Z) l : zsum (map (λ x, f x + g x) l) = zsum (map f l) + zsum (map g l).
Proof. induction l as [|x l IH]; simpl; lia. Qed.
Lemma zsum_map_zero {T} (f : T → Z) l : (∀ x, x ∈ l → f x = 0) → zsum (map f l) = 0.
Proof. intros Hf. induction l as [|x l IH]; [done|]. simpl. rewrite Hf, IH by (left || (intros; apply Hf; by right)). done. Qed.
Lemma zsum_one (l : list Z) k x : NoDup l → k ∈ l → zsum (map (λ d, if decide (k = d) then x else 0) l) = x.
Proof.
  intros Hnd Hk. induction l as [|y l IH]; [by apply elem_of_nil in Hk|]. apply NoDup_cons in Hnd as [Hy Hnd]. simpl.
  destruct (decide (k = y)) as [->|Hne]; [|apply elem_of_cons in Hk as [?|Hk]; [done|]; by rewrite IH].
  rewrite zsum_map_zero; [lia|]. intros z Hz. rewrite decide_False; [done|]. by intros ->.
Qed.
Lemma zsum_members (l es : list Z) : NoDup l → NoDup es → (∀ e, e ∈ es → e ∈ l) → zsum (map (λ e, if decide (e ∈ es) then 1 else 0) l) = len es.
Proof.
  intros Hl. induction es as [|x es IH]; intros Hnd Hin.
  - apply zsum_map_zero. intros e _. rewrite decide_False; [done|apply not_elem_of_nil].
  - apply NoDup_cons in Hnd as [Hx Hnd]. transitivity (zsum (map (λ e, (if decide (x = e) then 1 else 0) + (if decide (e ∈ es) then 1 else 0)) l)).
    + f_equal. apply map_ext. intros e. destruct (decide (x = e)) as [->|Hne].
      * rewrite decide_True by left. by rewrite decide_False.
      * destruct (decide (e ∈ es)) as [He|He]; [rewrite decide_True by (by right); done|]. rewrite decide_False; [done|].
        intros [?|?]%elem_of_cons; [by subst|done].
    + rewrite zsum_map_add, zsum_one, IH, len_cons by (done || (intros; apply Hin; by right) || (apply Hin; by left)). lia.
Qed.

Lemma sum_devices l e ts : (∀ t, t ∈ ts → TokenOk t) → zsum (map (λ d, chosen_on d l e ts) (zrange 0 (Z.of_nat nd))) = chosen l e ts.
Proof.
  intros Hok. induction ts as [|t ts IH]; [by apply zsum_map_zero|]. rewrite chosen_cons, <- IH by (intros; apply Hok; by right).
  rewrite (map_ext _ (λ d, (if decide (device t = d) then if decide (e ∈ experts t l) then 1 else 0 else 0) + chosen_on d l e ts)) by (intros; apply chosen_on_cons).
  rewrite zsum_map_add. f_equal. apply zsum_one; [apply NoDup_zrange|]. apply elem_of_zrange. apply (Hok t). by left.
Qed.

Lemma sum_experts l ts : (∀ t, t ∈ ts → TokenOk t) →
  zsum (map (λ e, chosen l e ts) (zrange 0 E)) = if decide (l ∈ moe_layer_indices m) then K * len ts else 0.
Proof.
  intros Hok. induction ts as [|t ts IH].
  - rewrite zsum_map_zero by done. unfold len. simpl. case_decide; lia.
  - rewrite (map_ext _ (λ e, (if decide (e ∈ experts t l) then 1 else 0) + chosen l e ts)) by done. rewrite zsum_map_add, IH by (intros; apply Hok; by right).
    assert (TokenOk t) as Ht by (apply Hok; by left). rewrite zsum_members.
    + rewrite len_cons. case_decide as Hl; [destruct (tk_moe _ Ht l Hl) as [-> _]; lia|rewrite (tk_dense _ Ht l Hl); done].
    + apply NoDup_zrange.
    + destruct (decide (l ∈ moe_layer_indices m)) as [Hl|Hl]; [by apply (tk_moe _ Ht)|rewrite (tk_dense _ Ht l) by done; constructor].
    + intros e He. apply elem_of_zrange. by apply (tk_range _ Ht l).
Qed.

Lemma chosen_bounds l e ts : 0 ≤ chosen l e ts ≤ len ts.
Proof. induction ts as [|t ts IH]; [done|]. rewrite chosen_cons, len_cons. destruct (decide _); lia. Qed.

(** Adding the rows of the devices, none of which overflows *)
Lemma add_rows_exact rs r :
  len r = E → (∀ r', r' ∈ rs → len r' = E ∧ ∀ e, 0 ≤ e < E → 0 ≤ at_ 0 r' e) → (∀ e, 0 ≤ e < E → 0 ≤ at_ 0 r e) →
  (∀ e, 0 ≤ e < E → at_ 0 r e + zsum (map (λ r', at_ 0 r' e) rs) < 2 ^ 63) →
  len (foldl add_counts r rs) = E ∧ ∀ e, 0 ≤ e < E → at_ 0 (foldl add_counts r rs) e = at_ 0 r e + zsum (map (λ r', at_ 0 r' e) rs).
Proof.
  revert r. induction rs as [|r' rs IH]; intros r Hr Hrs Hpos Hb; simpl; [split; [done|intros; lia]|].
  destruct (Hrs r' (list_elem_of_here _ _)) as [Hr' Hpos'].
  assert (∀ e, 0 ≤ e < E → 0 ≤ zsum (map (λ r', at_ 0 r' e) rs)) as Hsum.
  { intros e He. assert (∀ r', r' ∈ rs → 0 ≤ at_ 0 r' e) as Hp by (intros; apply Hrs; [by right|done]). clear -Hp.
    induction rs as [|x rs IH]; [done|]. simpl. pose proof (Hp x (list_elem_of_here _ _)). assert (0 ≤ zsum (map (λ r', at_ 0 r' e) rs)); [|lia]. apply IH. intros; apply Hp; by right. }
  assert (∀ e, 0 ≤ e < E → at_ 0 (add_counts r r') e = at_ 0 r e + at_ 0 r' e) as Hadd.
  { intros e He. unfold add_counts. rewrite (at_zip_with 0 0) by lia. pose proof (Hpos e He). pose proof (Hpos' e He). pose proof (Hb e He) as Hbe. simpl in Hbe.
    pose proof (Hsum e He). apply add64_small; lia. }
  destruct (IH (add_counts r r')) as [Hlen Hat].
  - unfold add_counts. rewrite len_zip_with; lia.
  - intros x Hx. apply Hrs. by right.
  - intros e He. rewrite Hadd by done. pose proof (Hpos e He). pose proof (Hpos' e He). lia.
  - intros e He. rewrite Hadd by done. pose proof (Hb e He) as Hbe. simpl in Hbe. lia.
  - split; [done|]. intros e He. rewrite Hat, Hadd by done. lia.
Qed.

Lemma row_sum_exact r acc : 0 ≤ acc → (∀ x, x ∈ r → 0 ≤ x) → acc + zsum r < 2 ^ 63 → foldl add64 acc r = acc + zsum r.
Proof.
  revert acc. induction r as [|x r IH]; intros acc Ha Hp Hb; simpl in *; [lia|]. pose proof (Hp x (list_elem_of_here _ _)).
  assert (0 ≤ zsum r).
  { assert (∀ y, y ∈ r → 0 ≤ y) as Hr by (intros; apply Hp; by right). clear -Hr. induction r as [|y r IH]; [done|]. simpl.
    pose proof (Hr y (list_elem_of_here _ _)). assert (0 ≤ zsum r); [|lia]. apply IH. intros; apply Hr; by right. }
  rewrite add64_small by lia. rewrite IH; [lia|lia|intros; apply Hp; by right|lia].
Qed.

Lemma histogram_cells ts total s l : Inv ts total s → 0 ≤ l < L →
  ∃ bufs, _layer_device_buffers s !! Z.to_nat l = Some bufs ∧ len (sum_layer s bufs) = E ∧
    ∀ e, 0 ≤ e < E → at_ 0 (sum_layer s bufs) e = chosen l e ts.
Proof.
  intros HI Hl. pose proof valid_pos as (_ & HE & HKp). destruct HI as [Hm Hb _ _ Hok Hbound Hcells].
  exists (map (buffer l) (zrange 0 (Z.of_nat nd))). split.
  { rewrite Hb. simpl. rewrite list_lookup_fmap, lookup_seq_lt by lia. simpl. f_equal. unfold zrange.
    rewrite <- list_fmap_compose. replace (Z.to_nat (Z.of_nat nd - 0)) with nd by lia. apply map_ext. intros d. unfold buffer. simpl. lia. }
  assert (∀ d, d ∈ zrange 0 (Z.of_nat nd) → ∃ r, to_numpy s (buffer l d) = r ∧ len r = E ∧ ∀ e, 0 ≤ e < E → at_ 0 r e = chosen_on d l e ts) as Hc.
  { intros d Hd%elem_of_zrange. destruct (Hcells l d Hl Hd) as (r & Hr & Hlen & Hat). exists r. unfold to_numpy. by rewrite Hr. }
  destruct blank_row as [Hbl Hba]. assert (∀ e, 0 ≤ e < E →
    zsum (map (λ r, at_ 0 r e) (map (to_numpy s) (map (buffer l) (zrange 0 (Z.of_nat nd))))) = chosen l e ts) as Hsum.
  { intros e He. rewrite !map_map, <- (sum_devices l e ts Hok). f_equal. apply map_ext_in. intros d Hd%list_elem_of_In.
    destruct (Hc d Hd) as (r & -> & _ & Hat). by apply Hat. }
  unfold sum_layer. rewrite Hm. destruct (add_rows_exact (map (to_numpy s) (map (buffer l) (zrange 0 (Z.of_nat nd)))) (blank m)) as [Hlen Hat]; [done| | | |].
  - intros r Hr. rewrite map_map in Hr. apply list_elem_of_In, in_map_iff in Hr as (d & <- & Hd%list_elem_of_In). destruct (Hc d Hd) as (r & -> & Hlen & Hat).
    split; [done|]. intros e He. rewrite Hat by done. apply chosen_on_bounds.
  - intros e He. rewrite Hba; lia.
  - intros e He. rewrite Hba, Hsum by done. pose proof (chosen_bounds l e ts). nia.
  - split; [done|]. intros e He. by rewrite Hat, Hba, Hsum by done.
Qed.

Lemma row_total ts total s l (r : list Z) : Inv ts total s → len r = E → (∀ e, 0 ≤ e < E → at_ 0 r e = chosen l e ts) →
  row_sum r = if decide (l ∈ moe_layer_indices m) then K * len ts else 0.
Proof.
  intros HI Hlen Hat. rewrite <- (sum_experts l ts) by apply HI.
  assert (r = map (λ e, chosen l e ts) (zrange 0 E)) as ->.
  { rewrite <- (map_at 0 r) at 1. rewrite Hlen. apply map_ext_in. intros e He%list_elem_of_In. by apply Hat, elem_of_zrange. }
  assert (0 ≤ K * len ts < 2 ^ 63) as Hb by (pose proof (iv_bound _ _ _ HI); pose proof valid_pos; pose proof (len_nonneg ts); nia).
  unfold row_sum. rewrite row_sum_exact; [lia|lia| |].
  - intros x Hx. apply list_elem_of_In, in_map_iff in Hx as (e & <- & _). apply chosen_bounds.
  - rewrite sum_experts by apply HI. case_decide; lia.
Qed.

Lemma routed_count (ts : list token) total (sums : list Z) :
  0 < K → (∀ x, x ∈ sums → x = K * len ts ∨ x = 0) → (∃ x, x ∈ sums ∧ x = K * len ts) →
  match filter (λ x, 0 < x) sums with [] => total | x :: l => foldl Z.max x l / K end = if decide (ts = []) then total else len ts.
Proof.
  intros HK Hin (x0 & Hx0 & ->). destruct (decide (ts = [])) as [->|Hts].
  - replace (filter (λ x, 0 < x) sums) with ([] : list Z); [done|]. symmetry.
    clear Hx0. induction sums as [|y l IH]; [done|]. rewrite filter_cons_False.
    + apply IH. intros; apply Hin; by right.
    + destruct (Hin y (list_elem_of_here _ _)) as [->| ->]; unfold len; simpl; lia.
  - pose proof (len_pos ts Hts). assert (∀ y, y ∈ filter (λ x, 0 < x) sums → y = K * len ts) as Hf.
    { intros y [Hy Hyin]%list_elem_of_filter. destruct (Hin y Hyin); lia. }
    assert (K * len ts ∈ filter (λ x, 0 < x) sums) as Hne by (apply list_elem_of_filter; split; [nia|done]).
    destruct (filter (λ x, 0 < x) sums) as [|y l]; [by apply elem_of_nil in Hne|]. rewrite (Hf y) by left.
    assert (foldl Z.max (K * len ts) l = K * len ts) as ->.
    { assert (∀ z, z ∈ l → z = K * len ts) as Hl by (intros; apply Hf; by right). clear -Hl. induction l as [|z l IH]; [done|]. simpl.
      rewrite (Hl z) by left. rewrite Z.max_id. apply IH. intros; apply Hl; by right. }
    by rewrite Z.mul_comm, Z.div_mul by lia.
Qed.
End Run.

(** A snapshot reports what happened since the last reset: the tokens recorded, how
    often each expert was chosen in each layer over all devices, and, when a token was
    routed at all, the number of tokens routed. Taking it changes nothing. *)
Theorem snapshot_counts m nd ts total s host :
  EplbStatsMetadata.valid m = true → Run m nd ts total s →
  ∃ snap, snapshot host s = (Ok snap, s) ∧ EplbStatsSnapshot.total_tokens snap = total ∧
    EplbStatsSnapshot.total_routed_tokens snap = (if decide (ts = []) then total else len ts) ∧
    Shaped (num_layers m) (num_logical_experts m) (EplbStatsSnapshot.histogram snap) ∧
    ∀ l e, 0 ≤ l < num_layers m → 0 ≤ e < num_logical_experts m →
      at_ 0 (row (EplbStatsSnapshot.histogram snap) l) e = chosen l e ts.
Proof.
  intros Hv HR%inv_run; [|done]. pose proof (histogram_cells m nd Hv ts total s) as Hcells. pose proof HR as [Hm Hb Ht Hpos _ _ _].
  set (h := mk_array (num_logical_experts m) (map (sum_layer s) (_layer_device_buffers s))).
  pose proof (valid_pos m Hv) as (HL & HE & HK).
  assert (len (rows h) = num_layers m) as Hn by (simpl; rewrite Hb; unfold len; simpl; rewrite !length_map, length_seq; lia).
  assert (∀ l, 0 ≤ l < num_layers m → len (row h l) = num_logical_experts m ∧ ∀ e, 0 ≤ e < num_logical_experts m → at_ 0 (row h l) e = chosen l e ts) as Hrow.
  { intros l Hl. destruct (Hcells l HR Hl) as (bufs & Hbufs & Hlen & Hat).
    assert (row h l = sum_layer s bufs) as -> by (apply at_lookup; simpl; by rewrite list_lookup_fmap, Hbufs). done. }
  assert (Shaped (num_layers m) (num_logical_experts m) h) as HS by (apply shaped_intro; [done|done|intros l Hl; by apply Hrow]).
  unfold snapshot. refine (ex_intro _ (EplbStatsSnapshot.mk m h total (if decide (ts = []) then total else len ts) host) _).
  split; [|split_and!; [done|done|exact HS|intros l e Hl He; by apply (Hrow l Hl)]].
  refine (bind_then _ _ _ _ _ _ (_ : get s = (Ok s, s)) _); [done|]. cbv zeta. rewrite Hm, Ht. fold h.
  rewrite (routed_count m ts total (map row_sum (map (sum_layer s) (_layer_device_buffers s)))); [|done| |].
  - unfold EplbStatsSnapshot.from_array, EplbStatsSnapshot.init. unfold bind, py_assert, num_rows. rewrite Hn, !Z.eqb_refl. simpl.
    by replace (total >=? 0) with true by lia.
  - intros x Hx. apply list_elem_of_In, in_map_iff in Hx as (r & <- & Hr%list_elem_of_In).
    apply list_elem_of_lookup in Hr as [i Hi]. pose proof (lookup_lt_Some _ _ _ Hi) as Hlt. unfold len in Hn. simpl in Hn.
    assert (row h (Z.of_nat i) = r) as <- by (apply at_lookup; rewrite Nat2Z.id; exact Hi).
    rewrite (row_total m nd Hv ts total s (Z.of_nat i)); [case_decide; auto|done| |]; apply Hrow; lia.
  - assert (∃ l, l ∈ moe_layer_indices m ∧ 0 ≤ l < num_layers m) as (l & Hin & Hl).
    { unfold valid in Hv. rewrite !andb_true_iff in Hv. destruct Hv as (((((((_ & Hone) & _) & Hcount) & Hall) & _) & _) & _).
      apply Z.eqb_eq in Hcount. destruct (moe_layer_indices m) as [|l ls]; [unfold len in Hcount; simpl in Hcount; lia|]. exists l. split; [by left|].
      rewrite forallb_forall in Hall. specialize (Hall l (or_introl eq_refl)). lia. }
    exists (row_sum (row h l)). split.
    + apply list_elem_of_In, in_map_iff. exists (row h l). split; [done|]. apply list_elem_of_In. eapply list_elem_of_lookup_2. apply at_inside. lia.
    + rewrite (row_total m nd Hv ts total s l); [by rewrite decide_True|done| |]; by apply Hrow.
Qed.
End Counting.

(** ** The placement *)

Section Placement.
Context `{Weights, NumPy}.

Lemma at_broadcast {T} d (x : T) n l : 0 ≤ l < n → at_ d (EplbPlacement.broadcast n [x]) l = x.
Proof.
  intros Hl. assert (EplbPlacement.broadcast n [x] = repeat x (Z.to_nat n)) as ->.
  { unfold EplbPlacement.broadcast. induction (Z.to_nat n) as [|k IH]; [done|]. simpl. by rewrite IH. }
  apply at_repeat. lia.
Qed.
Lemma len_broadcast {T} (x : T) n : 0 ≤ n → len (EplbPlacement.broadcast n [x]) = n.
Proof.
  intros Hn. assert (EplbPlacement.broadcast n [x] = repeat x (Z.to_nat n)) as ->.
  { unfold EplbPlacement.broadcast. induction (Z.to_nat n) as [|k IH]; [done|]. simpl. by rewrite IH. }
  rewrite len_repeat. lia.
Qed.

Lemma single_row {T} w (a : array T) : Shaped 1 w a → ∃ r, rows a = [r] ∧ len r = w.
Proof.
  intros (_ & Hn & Hr). destruct (rows a) as [|r [|r' l]]; unfold len in Hn; simpl in Hn; try lia. exists r. split; [done|]. apply Hr. by left.
Qed.

Lemma int32_id x : - 2 ^ 31 ≤ x < 2 ^ 31 → EplbPlacement.to_int32 x = x.
Proof.
  intros Hx. unfold EplbPlacement.to_int32, to_signed. destruct (decide (0 ≤ x)).
  - rewrite Z.mod_small by lia. by replace (x >=? 2 ^ (32 - 1)) with false by lia.
  - rewrite (Z.mod_eq x (2 ^ 32)) by lia. replace (x / 2 ^ 32) with (-1) by (apply (Z.div_unique _ _ _ (x + 2 ^ 32)); lia).
    replace (x - 2 ^ 32 * -1 >=? 2 ^ (32 - 1)) with true by lia. lia.
Qed.
Lemma int32_row l : (∀ x, x ∈ l → - 2 ^ 31 ≤ x < 2 ^ 31) → map EplbPlacement.to_int32 l = l.
Proof. intros Hl. rewrite <- map_id. apply map_ext_in. intros x Hx%list_elem_of_In. by apply int32_id, Hl. Qed.

Lemma column_sums_len w rs : 0 ≤ w → (∀ r, r ∈ rs → len r = w) → len (EplbPlacement.column_sums w rs) = w.
Proof.
  intros Hw Hr. unfold EplbPlacement.column_sums. assert (len (repeat 0 (Z.to_nat w)) = w) as Hb by (rewrite len_repeat; lia).
  revert Hb. generalize (repeat 0 (Z.to_nat w)). induction rs as [|r rs IH]; intros acc Ha; [done|]. simpl.
  apply IH; [intros; apply Hr; by right|]. rewrite len_zip_with; [done|]. rewrite (Hr r) by left. lia.
Qed.

(** The numbers of a plan fit in 32 bits. *)
Lemma plan_counts_small E P X p2l counts slots : Plan E P X p2l counts slots → 0 ≤ P → X ∈ counts → X ≤ P.
Proof.
  intros HP HP0 HX. apply list_elem_of_lookup in HX as [i Hi]. pose proof (lookup_lt_Some _ _ _ Hi) as Hlt.
  pose proof (pl_counts _ _ _ _ _ _ HP) as Hc. unfold len in Hc. assert (0 ≤ Z.of_nat i < E) as Hr by lia.
  assert (at_ 0 counts (Z.of_nat i) = X) as Hat by (apply at_lookup; by rewrite Nat2Z.id).
  pose proof (pl_holders _ _ _ _ _ _ HP (Z.of_nat i) Hr) as Hh. rewrite Hat in Hh. apply Permutation_length in Hh.
  pose proof (pl_width _ _ _ _ _ _ HP (Z.of_nat i) Hr) as Hwd. unfold len in Hwd.
  pose proof (length_filter (λ p, at_ 0 p2l p = Z.of_nat i) (zrange 0 P)) as Hf. unfold zrange in Hf at 2. rewrite length_fmap, length_seq in Hf.
  rewrite length_take in Hh. lia.
Qed.

Lemma plan_slots_small E P X p2l counts slots e x :
  Plan E P X p2l counts slots → 0 ≤ e < E → x ∈ at_ [] slots e → -1 ≤ x < Z.max P 0.
Proof.
  intros HP He Hx. rewrite <- (take_drop (Z.to_nat (at_ 0 counts e)) (at_ [] slots e)) in Hx.
  rewrite (pl_rest _ _ _ _ _ _ HP e He), (pl_holders _ _ _ _ _ _ HP e He) in Hx. apply elem_of_app in Hx as [Hx|Hx].
  - apply list_elem_of_filter in Hx as [_ Hx%elem_of_zrange]. lia.
  - apply list_elem_of_In, repeat_spec in Hx. lia.
Qed.

Lemma plan_int32 E P X p2l counts slots :
  Plan E P X p2l counts slots → 0 ≤ P < 2 ^ 31 → X ∈ counts →
  map EplbPlacement.to_int32 counts = counts ∧ map (map EplbPlacement.to_int32) slots = slots.
Proof.
  intros HP HP31 HX. pose proof (plan_counts_small _ _ _ _ _ _ HP ltac:(lia) HX) as HXP. split.
  - apply int32_row. intros c Hc. pose proof (pl_copies _ _ _ _ _ _ HP c Hc). lia.
  - rewrite <- (map_id slots) at 2. apply map_ext_in. intros r Hr%list_elem_of_In. apply int32_row. intros x Hx.
    apply list_elem_of_lookup in Hr as [i Hi]. pose proof (lookup_lt_Some _ _ _ Hi) as Hlt. pose proof (pl_slots _ _ _ _ _ _ HP) as Hs. unfold len in Hs.
    assert (x ∈ at_ [] slots (Z.of_nat i)) as Hxi by (unfold at_; by rewrite Nat2Z.id, Hi).
    pose proof (plan_slots_small _ _ _ _ _ _ (Z.of_nat i) x HP ltac:(lia) Hxi). lia.
Qed.

(** The placement made from a snapshot is a plan of experts for [E + r * gpus] slots
    in every layer, and the same in all of them. *)
Theorem placement_is_plan (float64 : Z → weight) snap L E gpus N G r :
  Shaped L E (EplbStatsSnapshot.histogram snap) → 0 < L → 0 < E → 0 < gpus → E mod gpus = 0 → 0 < G → E mod G = 0 → 0 ≤ r → 0 < N →
  (G mod N = 0 → gpus mod N = 0) → E + r * gpus < 2 ^ 31 →
  ∃ p X, EplbPlacement.from_snapshot float64 snap gpus N G r tt = (Ok p, tt) ∧ EplbPlacement.num_phy p = E + r * gpus ∧
    len (rows (EplbPlacement.phy2log p)) = L ∧
    ∀ l, 0 ≤ l < L →
      Plan E (E + r * gpus) X (row (EplbPlacement.phy2log p) l) (row (EplbPlacement.logcnt p) l) (at_ [] (EplbPlacement.log2phy p) l) ∧
      row (EplbPlacement.phy2log p) l = row (EplbPlacement.phy2log p) 0.
Proof.
  intros (Hw & Hn & Hr) HL HE Hg HEg HG HEG Hr0 HN HGN H31.
  destruct (rebalance_ok 1 E (E + r * gpus) G N gpus (mk_array E [map float64 (EplbPlacement.column_sums E (rows (EplbStatsSnapshot.histogram snap)))]))
    as (p2l & l2p & cnt & Er & [Hp2l Hcnt Hlay (X & HX & HPl) _]); try done; try nia.
  { split; [done|]. split; [done|]. intros x ->%list_elem_of_singleton. rewrite len_map. apply column_sums_len; [lia|done]. }
  { by rewrite Z_mod_plus_full. }
  destruct (single_row _ _ Hp2l) as (rp & Ep & _), (single_row _ _ Hcnt) as (rc & Ec & _).
  assert (∃ s, l2p = [s]) as [s ->] by (destruct l2p as [|s [|s' l]]; unfold len in Hlay; simpl in Hlay; try lia; by exists s).
  specialize (HPl 0 ltac:(lia)). unfold row in HPl. rewrite Ep, Ec in HPl. unfold at_ in HPl. simpl in HPl.
  assert (X ∈ rc) as HXin.
  { unfold array_max in HX. rewrite Ec in HX. simpl in HX. rewrite app_nil_r in HX. destruct rc as [|c rc]; [done|]. injection HX as <-. clear.
    revert c. induction rc as [|d rc IH]; intros c; simpl; [by left|]. specialize (IH (Z.max c d)). apply elem_of_cons in IH as [->|IH]; [|by do 2 right].
    destruct (Z.max_spec c d) as [[_ ->]|[_ ->]]; [right; by left|by left]. }
  destruct (plan_int32 _ _ _ _ _ _ HPl ltac:(nia) HXin) as [Hc32 Hs32].
  eexists (EplbPlacement.mk _ _ _), X. split; [|split_and!].
  - unfold EplbPlacement.from_snapshot, num_rows. rewrite Hw, Hn. unfold EplbPlacement.py_mod.
    refine (bind_then _ _ _ _ _ _ (_ : _ = (Ok (E mod gpus), tt)) _); [unfold bind, raise_if; by replace (gpus =? 0) with false by lia|].
    rewrite HEg. simpl. refine (bind_then _ _ _ _ _ _ (_ : _ = (Ok tt, tt)) _).
    { unfold bind, raise_if. replace (G =? 0) with false by lia. simpl. by rewrite HEG. }
    unfold bind at 1, raise_if. replace (r <? 0) with false by lia. cbv beta iota zeta. unfold ret at 1.
    refine (bind_then _ _ _ _ _ _ Er _). cbv beta iota. reflexivity.
  - done.
  - simpl. rewrite Ep. apply len_broadcast. lia.
  - intros l Hl. unfold row. simpl. rewrite Ep, Ec, !at_broadcast by lia. split; [|done].
    rewrite !(at_map []) by (rewrite len_broadcast; lia). rewrite !at_broadcast by lia. by rewrite Hc32, Hs32.
Qed.

(** The placement that moves nothing *)
Lemma identity_is_plan L E l : 0 < E < 2 ^ 31 → 0 ≤ l < L →
  let p := EplbPlacement.identity L E in
  Plan E E 1 (row (EplbPlacement.phy2log p) l) (row (EplbPlacement.logcnt p) l) (at_ [] (EplbPlacement.log2phy p) l).
Proof.
  intros HE Hl p. unfold row, p, EplbPlacement.identity. simpl. rewrite !at_repeat by lia.
  assert (∀ e, 0 ≤ e < E → at_ [] (map (λ i, [EplbPlacement.to_int32 i]) (zrange 0 E)) e = [e]) as Hrow.
  { intros e He. rewrite (at_map 0) by (rewrite len_zrange; lia). rewrite at_zrange, int32_id by lia. done. }
  assert (∀ e, 0 ≤ e < E → at_ 0 (repeat 1 (Z.to_nat E)) e = 1) as Hone by (intros; apply at_repeat; lia).
  split.
  - rewrite len_zrange; lia.
  - intros e. apply elem_of_zrange.
  - rewrite len_repeat. lia.
  - intros c Hc%list_elem_of_In%repeat_spec. lia.
  - rewrite len_map, len_zrange; lia.
  - intros e He. by rewrite Hrow.
  - intros e He. rewrite Hrow, Hone by done. simpl. apply NoDup_Permutation; [apply NoDup_singleton|apply NoDup_filter, NoDup_zrange|].
    intros x. rewrite list_elem_of_singleton, list_elem_of_filter, elem_of_zrange. split.
    + intros ->. by rewrite at_zrange.
    + intros [Hx Hin]. by rewrite at_zrange in Hx.
  - intros e He. by rewrite Hrow, Hone.
Qed.
End Placement.

(** ** Instances *)

(** [np.asarray] of rows of integers, and [int] of no string *)
Definition ints_of (v : pyval) : option (list Z) :=
  match v with PList l => mapM (λ x, match x with PInt z => if int64 z then Some z else None | _ => None end) l | _ => None end.
Definition rows_of (l : list pyval) : outcome (option (array Z)) :=
  match mapM ints_of l with
  | Some (r :: rs) => if forallb (λ r', len r' =? len r) rs then Ok (Some (mk_array (len r) (r :: rs))) else Raise ValueError
  | Some [] => Ok None
  | None => Raise TypeError
  end.
Definition plain_readers : Readers := {| int_of_str _ := None; asarray := rows_of |}.

Lemma ints_of_row r : (∀ x, x ∈ r → int64 x = true) → ints_of (PList (map PInt r)) = Some r.
Proof.
  intros Hr. simpl. induction r as [|x r IH]; [done|]. simpl. rewrite Hr by left. simpl. by rewrite IH by (intros; apply Hr; by right).
Qed.

#[program] Definition plain_laws : @ReadersLaws plain_readers := {| asarray_rows := _ |}.
Next Obligation.
  intros w rs Hne Hr. simpl. unfold rows_of. assert (mapM ints_of (map (λ r, PList (map PInt r)) rs) = Some rs) as ->.
  { clear Hne. induction rs as [|r rs IH]; [done|]. cbn [map mapM]. simpl. destruct (Hr r (list_elem_of_here _ _)) as [_ H64].
    pose proof (ints_of_row r H64) as E. simpl in E. rewrite E. simpl. rewrite IH by (intros; apply Hr; by right). done. }
  destruct rs as [|r rs]; [done|]. destruct (Hr r (list_elem_of_here _ _)) as [Hw _]. rewrite Hw. replace (forallb _ rs) with true; [done|].
  symmetry. apply forallb_forall. intros r' Hin. apply Z.eqb_eq. apply Hr. right. by apply list_elem_of_In.
Qed.

Definition two_by_three : EplbStatsMetadata.t := EplbStatsMetadata.mk 2 1 [1] 3 2.
Definition sample : EplbStatsSnapshot.t := EplbStatsSnapshot.mk two_by_three (mk_array 3 [[0; 0; 0]; [4; 1; 3]]) 3 4 (Some "worker"%string).

Lemma snapshot_roundtrip_witness :
  @EplbStatsSnapshot.from_dict plain_readers (EplbStatsSnapshot.to_dict sample) tt =
    (Ok (EplbStatsSnapshot.mk two_by_three (mk_array 3 [[0; 0; 0]; [4; 1; 3]]) 3 4 None), tt).
Proof.
  apply (@snapshot_roundtrip plain_readers plain_laws sample). split; [reflexivity|]. split; [|split].
  - split; [reflexivity|]. split; [reflexivity|]. intros r Hr. repeat (apply elem_of_cons in Hr as [->|Hr]; [reflexivity|]). by apply elem_of_nil in Hr.
  - intros r x Hr Hx. repeat (apply elem_of_cons in Hr as [->|Hr];
      [repeat (apply elem_of_cons in Hx as [->|Hx]; [reflexivity|]); by apply elem_of_nil in Hx|]). by apply elem_of_nil in Hr.
  - simpl. lia.
Defined.

(** A token of the second device, then six recorded tokens *)
Definition one_token : Counting.token := Counting.mk_token 1 (λ l, if decide (l = 1) then [0; 2] else []).
Definition counted : EplbStatsAccumulator.t :=
  (EplbStatsAccumulator.record_batch_total_tokens 6 (Counting.count_token two_by_three 2 one_token (EplbStatsAccumulator.init two_by_three 2))).2.

Lemma one_token_ok : Counting.TokenOk two_by_three 2 one_token.
Proof.
  split.
  - simpl. lia.
  - intros l ->%list_elem_of_singleton. simpl. split; [done|]. by apply (bool_decide_unpack _).
  - intros l Hl. simpl. rewrite decide_False; [done|]. intros ->. apply Hl. by left.
  - intros l e. simpl. case_decide; [|by intros ?%elem_of_nil]. intros [->|[->|?%elem_of_nil]%elem_of_cons]%elem_of_cons; try done; lia.
Qed.

Lemma counted_run : Counting.Run two_by_three 2 [one_token] 6 counted.
Proof.
  apply (Counting.run_record two_by_three 2 6 [one_token] 0); [|lia]. apply (Counting.run_token two_by_three 2 one_token [] 0); [constructor|apply one_token_ok|reflexivity].
Qed.

Lemma snapshot_counts_witness :
  ∃ snap, EplbStatsAccumulator.snapshot None counted = (Ok snap, counted) ∧ EplbStatsSnapshot.total_tokens snap = 6 ∧
    EplbStatsSnapshot.total_routed_tokens snap = 1 ∧ Shaped 2 3 (EplbStatsSnapshot.histogram snap) ∧
    ∀ l e, 0 ≤ l < 2 → 0 ≤ e < 3 → at_ 0 (row (EplbStatsSnapshot.histogram snap) l) e = Counting.chosen l e [one_token].
Proof. apply (Counting.snapshot_counts two_by_three 2 [one_token] 6 counted None); [reflexivity|apply counted_run]. Defined.

Definition two_layer_snapshot : EplbStatsSnapshot.t :=
  EplbStatsSnapshot.mk (EplbStatsMetadata.mk 2 2 [0; 1] 12 2) EplbProperties.two_layers 0 0 None.

Lemma placement_is_plan_witness :
  ∃ p X, @EplbPlacement.from_snapshot EplbProperties.int_weights zeros_numpy (λ x, x) two_layer_snapshot 4 2 4 1 tt = (Ok p, tt) ∧
    EplbPlacement.num_phy p = 16 ∧ len (rows (EplbPlacement.phy2log p)) = 2 ∧
    ∀ l, 0 ≤ l < 2 → Plan 12 16 X (row (EplbPlacement.phy2log p) l) (row (EplbPlacement.logcnt p) l) (at_ [] (EplbPlacement.log2phy p) l) ∧
      row (EplbPlacement.phy2log p) l = row (EplbPlacement.phy2log p) 0.
Proof.
  apply (@placement_is_plan EplbProperties.int_weights zeros_numpy (λ x, x) two_layer_snapshot 2 12 4 2 4 1); try lia; try reflexivity.
  split; [reflexivity|]. split; [reflexivity|]. intros r Hr. repeat (apply elem_of_cons in Hr as [->|Hr]; [reflexivity|]). by apply elem_of_nil in Hr.
Defined.

End EplbStatsProperties.
