(* ===== verification/Jenga.v ===== *)
(** * The Jenga page pool (kv_cache/paged_kv_cache/jenga_block_pool.py, block_utils.py)

    Several caches with pages of different sizes share the bytes of one pool. A huge
    block is a number of pages of each cache, of which one cache at a time uses it. A
    little block is referred to by its cache and its page index, a huge block by its
    index; the four dictionaries of the pool keyed by cache are one dictionary of
    records. The null block of a cache, page 0, is with the others in [blocks]. *)

From S2P Require Import Prelude FreeQueue.

(** ** Blocks *)
Module HugeKVCacheBlock.

Record t := mk {
  _bid : Z;
  little_blocks : gmap string (list Z);
  little_block_type : option string;
  _prev : option Z;
  _next : option Z
}.
Definition fresh (i : Z) : t := mk i ∅ None None None.
Definition set_type (c : string) (b : t) : t := mk (_bid b) (little_blocks b) (Some c) (_prev b) (_next b).
Definition set_little (m : gmap string (list Z)) (b : t) : t := mk (_bid b) m (little_block_type b) (_prev b) (_next b).

#[global] Program Instance node : FreeListNode t := {|
  bid := _bid;
  prev_free_block := _prev;
  next_free_block := _next;
  set_prev x b := mk (_bid b) (little_blocks b) (little_block_type b) x (_next b);
  set_next x b := mk (_bid b) (little_blocks b) (little_block_type b) (_prev b) x;
  erase b := mk (_bid b) (little_blocks b) (little_block_type b) None None
|}.
Solve All Obligations with done.

End HugeKVCacheBlock.

Module LittleKVCacheBlock.

Record t := mk {
  _bid : Z;
  huge_block : Z;
  ref_cnt : Z;
  block_hash : option bytes;
  is_null : bool;
  _prev : option Z;
  _next : option Z
}.
Definition fresh (i h : Z) : t := mk i h 0 None false None None.
Definition null : t := mk 0 0 42 None true None None.
Definition set_ref_cnt (n : Z) (b : t) : t := mk (_bid b) (huge_block b) n (block_hash b) (is_null b) (_prev b) (_next b).
Definition set_hash (h : option bytes) (b : t) : t := mk (_bid b) (huge_block b) (ref_cnt b) h (is_null b) (_prev b) (_next b).

#[global] Program Instance node : FreeListNode t := {|
  bid := _bid;
  prev_free_block := _prev;
  next_free_block := _next;
  set_prev x b := mk (_bid b) (huge_block b) (ref_cnt b) (block_hash b) (is_null b) x (_next b);
  set_next x b := mk (_bid b) (huge_block b) (ref_cnt b) (block_hash b) (is_null b) (_prev b) x;
  erase b := mk (_bid b) (huge_block b) (ref_cnt b) (block_hash b) (is_null b) None None
|}.
Solve All Obligations with done.

End LittleKVCacheBlock.

(** ** Sizing *)

(** [reduce(lambda x, y: x * y // gcd(x, y), numbers)] *)
Definition lcm (numbers : list Z) : outcome Z :=
  match numbers with
  | [] => Raise TypeError
  | x :: l => Ok (foldl (λ x y, x * y / Z.gcd x y) x l)
  end.

Definition compute_jenga_ratios (available_bytes : Z) (cache_sizes : list (string * Z)) : outcome (Z * Z * list (string * Z)) :=
  if len cache_sizes =? 0 then Raise ValueError
  else if existsb (λ '(_, size), size <=? 0) cache_sizes then Raise ValueError
  else if available_bytes <=? 0 then Raise ValueError
  else match lcm cache_sizes.*2 with
    | Raise e => Raise e
    | Ok huge_page_bytes =>
        let num_huge_blocks := available_bytes / huge_page_bytes in
        if num_huge_blocks <? 2 then Raise ValueError
        else Ok (num_huge_blocks, huge_page_bytes, map (λ '(cache_id, size), (cache_id, huge_page_bytes / size)) cache_sizes)
    end.

Module JengaBlockPool.
Import HugeKVCacheBlock LittleKVCacheBlock.

(** The entry of one cache in [cache_ratios], [little_blocks] with
    [null_little_blocks], [free_little_blocks] and [prefix_caches] *)
Record cache := mk_cache {
  ratio : Z;
  blocks : gmap Z LittleKVCacheBlock.t;
  free : FreeQueue.queue;
  prefix : gmap bytes Z
}.
Definition set_blocks (x : gmap Z LittleKVCacheBlock.t) (c : cache) : cache := mk_cache (ratio c) x (free c) (prefix c).
Definition set_free (x : FreeQueue.queue) (c : cache) : cache := mk_cache (ratio c) (blocks c) x (prefix c).
Definition set_prefix (x : gmap bytes Z) (c : cache) : cache := mk_cache (ratio c) (blocks c) (free c) x.

(** [huge]: the objects, the null block 0 included; [huge_blocks]: the allocatable ones *)
Record t := mk {
  caches : gmap string cache;
  huge : gmap Z HugeKVCacheBlock.t;
  huge_blocks : list Z;
  free_huge_blocks : FreeQueue.queue
}.
Definition set_caches (x : gmap string cache) (p : t) : t := mk x (huge p) (huge_blocks p) (free_huge_blocks p).
Definition set_huge (x : gmap Z HugeKVCacheBlock.t) (p : t) : t := mk (caches p) x (huge_blocks p) (free_huge_blocks p).
Definition set_free_huge (x : FreeQueue.queue) (p : t) : t := mk (caches p) (huge p) (huge_blocks p) x.

(** *** Construction *)
Definition init_cache (num_huge_blocks ratio : Z) : cache :=
  mk_cache ratio
    (<[0 := LittleKVCacheBlock.null]>
      (list_to_map ((λ idx, (idx, LittleKVCacheBlock.fresh idx (idx / ratio))) <$> zrange ratio (ratio * num_huge_blocks))))
    FreeQueue.no_queue ∅.

Definition init_huge (cache_ratios : gmap string Z) (h : Z) : HugeKVCacheBlock.t :=
  HugeKVCacheBlock.set_little
    (if h =? 0 then (λ _, [0]) <$> cache_ratios else (λ ratio, zrange (h * ratio) (h * ratio + ratio)) <$> cache_ratios)
    (HugeKVCacheBlock.fresh h).

Definition init (num_huge_blocks : Z) (cache_ratios : list (string * Z)) : outcome t :=
  if num_huge_blocks <? 2 then Raise ValueError
  else if len cache_ratios =? 0 then Raise ValueError
  else if existsb (λ '(_, ratio), ratio <=? 0) cache_ratios then Raise ValueError
  else
    let ratios := list_to_map cache_ratios in
    let blocks := zrange 1 num_huge_blocks in
    let s := (FreeQueue.init blocks
      (FreeQueue.mkst (list_to_map ((λ h, (h, init_huge ratios h)) <$> zrange 0 num_huge_blocks)) FreeQueue.no_queue)).2 in
    Ok (mk (init_cache num_huge_blocks <$> ratios) (FreeQueue.heap s) blocks (FreeQueue.q s)).

(** *** The objects and the queues *)
Definition cache_of (c : string) : M t cache := let! p := get in of_option KeyError (caches p !! c).
Definition on_cache (c : string) (f : cache → cache) : M t unit := modify (λ p, set_caches (alter f c (caches p)) p).

Definition block (c : string) (r : Z) : M t LittleKVCacheBlock.t :=
  let! x := cache_of c in of_option AttributeError (blocks x !! r).
Definition on_block (c : string) (r : Z) (f : LittleKVCacheBlock.t → LittleKVCacheBlock.t) : M t unit :=
  on_cache c (λ x, set_blocks (alter f r (blocks x)) x).
Definition huge_at (h : Z) : M t HugeKVCacheBlock.t := let! p := get in of_option AttributeError (huge p !! h).

(** A call into [free_little_blocks[c]] *)
Definition in_free {A} (c : string) (m : M (FreeQueue.st LittleKVCacheBlock.t) A) : M t A :=
  let! x := cache_of c in
  zoom (λ _, FreeQueue.mkst (blocks x) (free x))
    (λ s p, set_caches (<[c := set_free (FreeQueue.q s) (set_blocks (FreeQueue.heap s) x)]> (caches p)) p) m.
(** A call into [free_huge_blocks] *)
Definition in_huge {A} (m : M (FreeQueue.st HugeKVCacheBlock.t) A) : M t A :=
  zoom (λ p, FreeQueue.mkst (huge p) (free_huge_blocks p))
    (λ s p, set_free_huge (FreeQueue.q s) (set_huge (FreeQueue.heap s) p)) m.

(** [HugeKVCacheBlock.ref_cnt] *)
Definition huge_ref_cnt (b : HugeKVCacheBlock.t) : M t Z :=
  match little_block_type b with
  | None => ret 0
  | Some c =>
      let! l := of_option KeyError (little_blocks b !! c) in
      for_fold l 0 (λ n r, let! x := block c r in ret (n + ref_cnt x))
  end.

(** *** Operations *)

Definition uncommit_block (c : string) (r : Z) : M t unit :=
  let! b := block c r in
  match block_hash b with
  | None => ret tt
  | Some h =>
      let! x := cache_of c in
      raise_if (bool_decide (prefix x !! h = None)) KeyError;;
      on_cache c (λ x, set_prefix (delete h (prefix x)) x);;
      on_block c r (set_hash None)
  end.

Definition _claim_huge_block (h : Z) (cache_id : string) : M t unit :=
  let! b := huge_at h in
  let! n := huge_ref_cnt b in
  py_assert (n =? 0);;
  let! p := get in
  when (FreeQueue.contains b (free_huge_blocks p)) (in_huge (FreeQueue.remove h));;
  match little_block_type b with
  | Some prev_type =>
      when (negb (bool_decide (prev_type = cache_id)))
        (let! l := of_option KeyError (little_blocks b !! prev_type) in for_each l (uncommit_block prev_type))
  | None => ret tt
  end;;
  modify (λ p, set_huge (alter (set_type cache_id) h (huge p)) p);;
  let! l := of_option KeyError (little_blocks b !! cache_id) in
  for_each l (λ r, in_free cache_id (FreeQueue.append r)).

Definition alloc_block (cache_id : string) : M t Z :=
  let! x := cache_of cache_id in
  when (FreeQueue.length (free x) =? 0)
    (let! p := get in
     raise_if (FreeQueue.length (free_huge_blocks p) =? 0) InsufficientBlocksError;;
     let! h := in_huge FreeQueue.popleft in
     _claim_huge_block h cache_id);;
  let! r := in_free cache_id FreeQueue.popleft in
  uncommit_block cache_id r;;
  on_block cache_id r (λ b, set_ref_cnt (ref_cnt b + 1) b);;
  ret r.

Definition commit_into_prefix_cache (h : bytes) (c : string) (r : Z) : M t unit :=
  let! b := block c r in
  py_assert (negb (is_null b));;
  py_assert (bool_decide (block_hash b = None));;
  let! x := cache_of c in
  py_assert (bool_decide (prefix x !! h = None));;
  on_cache c (λ x, set_prefix (<[h := r]> (prefix x)) x);;
  on_block c r (set_hash (Some h)).

Definition free_block (c : string) (r : Z) : M t unit :=
  let! b := block c r in
  if is_null b then ret tt else
  on_block c r (λ b, set_ref_cnt (ref_cnt b - 1) b);;
  let! b := block c r in
  py_assert (0 <=? ref_cnt b);;
  when (ref_cnt b =? 0)
    (in_free c (FreeQueue.append r);;
     let! hb := huge_at (huge_block b) in
     let! n := huge_ref_cnt hb in
     when (n =? 0)
       (py_assert (bool_decide (little_block_type hb = Some c));;
        let! l := of_option KeyError (little_blocks hb !! c) in
        for_each l (λ r, in_free c (FreeQueue.remove r));;
        in_huge (FreeQueue.append (huge_block b)))).

Definition touch (c : string) (r : Z) : M t unit :=
  let! b := block c r in
  let! hb := huge_at (huge_block b) in
  py_assert (bool_decide (little_block_type hb = Some c));;
  when (ref_cnt b =? 0)
    (let! p := get in
     when (FreeQueue.contains hb (free_huge_blocks p)) (_claim_huge_block (huge_block b) c);;
     in_free c (FreeQueue.remove r));;
  on_block c r (λ b, set_ref_cnt (ref_cnt b + 1) b).

Definition get_or_commit_into_prefix_cache (h : bytes) (c : string) (r : Z) : M t (option Z) :=
  let! b := block c r in
  py_assert (negb (is_null b));;
  let! x := cache_of c in
  match prefix x !! h with
  | Some r' =>
      let! b' := block c r' in
      if LittleKVCacheBlock._bid b =? LittleKVCacheBlock._bid b' then ret None else
      touch c r';;
      let! b := block c r in
      py_assert (bool_decide (block_hash b = None));;
      free_block c r;;
      ret (Some r')
  | None => commit_into_prefix_cache h c r;; ret None
  end.

Definition num_free_blocks (c : string) : M t Z :=
  let! x := cache_of c in
  let! p := get in
  ret (FreeQueue.length (free_huge_blocks p) * ratio x + FreeQueue.length (free x)).

(** The order in which a dictionary is read does not show in the result. *)
Definition reset_prefix_cache : M t (gmap string Z) :=
  let! p := get in
  for_fold (map_to_list (caches p)) ∅ (λ purged '(c, x),
    let! unreferenced := for_fold (map_to_list (prefix x)) [] (λ acc '(h, r),
      let! b := block c r in ret (if ref_cnt b =? 0 then acc ++ [h] else acc)) in
    for_each unreferenced (λ h,
      let! x := cache_of c in
      let! r := of_option KeyError (prefix x !! h) in
      on_cache c (λ x, set_prefix (delete h (prefix x)) x);;
      on_block c r (set_hash None));;
    ret (<[c := len unreferenced]> purged)).

End JengaBlockPool.
