(* ===== verification/JengaFacts.v ===== *)
(** * The Jenga pool against lists and functions

    [Abs]: a pool represents an abstract state, in which each queue is a list and each
    block's fields are functions of its name; every primitive step of the pool's code is
    a step of that state. *)

From S2P Require Import Prelude FreeQueue Jenga.

Module JengaAbs.
Import HugeKVCacheBlock LittleKVCacheBlock JengaBlockPool.

(** ** The abstract state *)

Record acache := mk_acache {
  afl : list Z;
  arc : Z → Z;
  ahs : Z → option bytes;
  apc : gmap bytes Z
}.
Record abs := mk_abs { ty : Z → option string; fh : list Z; ca : string → acache }.

Definition upd `{EqDecision A} {T} (f : A → T) (x : A) (v : T) : A → T := λ y, if decide (y = x) then v else f y.
Lemma upd_eq `{EqDecision A} {T} (f : A → T) x v : upd f x v x = v.
Proof. unfold upd. by rewrite decide_True. Qed.
Lemma upd_ne `{EqDecision A} {T} (f : A → T) x v y : y ≠ x → upd f x v y = f y.
Proof. intros. unfold upd. by rewrite decide_False. Qed.

Definition set_ca (c : string) (x : acache) (a : abs) : abs := mk_abs (ty a) (fh a) (upd (ca a) c x).
Definition set_fh (l : list Z) (a : abs) : abs := mk_abs (ty a) l (ca a).
Definition set_ty (h : Z) (c : string) (a : abs) : abs := mk_abs (upd (ty a) h (Some c)) (fh a) (ca a).
Definition with_fl (l : list Z) (x : acache) : acache := mk_acache l (arc x) (ahs x) (apc x).
Definition with_rc (r n : Z) (x : acache) : acache := mk_acache (afl x) (upd (arc x) r n) (ahs x) (apc x).
Definition with_hs (r : Z) (h : option bytes) (x : acache) : acache := mk_acache (afl x) (arc x) (upd (ahs x) r h) (apc x).
Definition with_pc (m : gmap bytes Z) (x : acache) : acache := mk_acache (afl x) (arc x) (ahs x) m.

Lemma ca_set c x a : ca (set_ca c x a) c = x.
Proof. apply upd_eq. Qed.
Lemma ca_set_ne c c' x a : c' ≠ c → ca (set_ca c x a) c' = ca a c'.
Proof. apply upd_ne. Qed.

(** The pages of cache [c] with ratio [k] in huge block [h] *)
Definition pages (h k : Z) : list Z := zrange (h * k) (h * k + k).

Section Abs.
Context (n : Z) (K : gmap string Z).

(** The names of the blocks of a cache of ratio [k] *)
Definition named (k i : Z) : Prop := i = 0 ∨ k ≤ i < k * n.

Record CacheAbs (k : Z) (x : cache) (ac : acache) : Prop := {
  cc_ratio : ratio x = k;
  cc_repr : FreeQueue.Repr (FreeQueue.mkst (blocks x) (free x)) (afl ac);
  cc_prefix : prefix x = apc ac;
  cc_blocks i : match blocks x !! i with
    | Some b => named k i ∧ huge_block b = i / k ∧ is_null b = bool_decide (i = 0) ∧ ref_cnt b = arc ac i ∧ block_hash b = ahs ac i
    | None => ¬ named k i
    end
}.

Record Abs (p : t) (a : abs) : Prop := {
  ab_repr : FreeQueue.Repr (FreeQueue.mkst (huge p) (free_huge_blocks p)) (fh a);
  ab_huge h : match huge p !! h with
    | Some b => 0 ≤ h < n ∧ little_block_type b = ty a h ∧
        (1 ≤ h → ∀ c k, K !! c = Some k → little_blocks b !! c = Some (pages h k))
    | None => ¬ 0 ≤ h < n
    end;
  ab_cache c : match K !! c, caches p !! c with
    | Some k, Some x => CacheAbs k x (ca a c)
    | None, None => True
    | _, _ => False
    end;
  ab_list : huge_blocks p = zrange 1 n
}.

Context (HK : ∀ c k, K !! c = Some k → 0 < k) (Hn : 2 ≤ n).
Implicit Types (p : t) (a : abs).

Lemma abs_cache p a c k : Abs p a → K !! c = Some k → ∃ x, caches p !! c = Some x ∧ CacheAbs k x (ca a c).
Proof. intros HA Hk. pose proof (ab_cache _ _ HA c) as Hc. rewrite Hk in Hc. destruct (caches p !! c) as [x|]; [by exists x|done]. Qed.

Lemma abs_set_cache p a c k x ac :
  Abs p a → K !! c = Some k → CacheAbs k x ac → Abs (set_caches (<[c := x]> (caches p)) p) (set_ca c ac a).
Proof.
  intros HA Hk Hx. split; try apply HA. intros c'. simpl. destruct (decide (c' = c)) as [->|Hne].
  - rewrite Hk, lookup_insert_eq, upd_eq. done.
  - rewrite lookup_insert_ne, upd_ne by done. apply HA.
Qed.

Lemma cache_of_run p a c k :
  Abs p a → K !! c = Some k → ∃ x, cache_of c p = (Ok x, p) ∧ caches p !! c = Some x ∧ CacheAbs k x (ca a c).
Proof.
  intros HA Hk. destruct (abs_cache p a c k HA Hk) as (x & Hx & HC). exists x. unfold cache_of, bind, get. by rewrite Hx.
Qed.

Lemma cache_block k x ac i : CacheAbs k x ac → named k i →
  ∃ b, blocks x !! i = Some b ∧ LittleKVCacheBlock._bid b = i ∧ huge_block b = i / k ∧ is_null b = bool_decide (i = 0) ∧
    ref_cnt b = arc ac i ∧ block_hash b = ahs ac i.
Proof.
  intros HC Hi. pose proof (cc_blocks _ _ _ HC i) as Hb. destruct (blocks x !! i) as [b|] eqn:E; [|done].
  exists b. destruct Hb as (_ & Hb). split; [done|]. split; [|done]. apply (FreeQueue.repr_ids _ _ (cc_repr _ _ _ HC) i b E).
Qed.

Lemma pool_block_run p a c k i : Abs p a → K !! c = Some k → named k i →
  ∃ b, block c i p = (Ok b, p) ∧ LittleKVCacheBlock._bid b = i ∧ huge_block b = i / k ∧ is_null b = bool_decide (i = 0) ∧
    ref_cnt b = arc (ca a c) i ∧ block_hash b = ahs (ca a c) i.
Proof.
  intros HA Hk Hi. destruct (cache_of_run p a c k HA Hk) as (x & E & _ & HC).
  destruct (cache_block k x _ i HC Hi) as (b & Hb & Hrest). exists b. split; [|done].
  unfold block. rewrite (bind_run _ _ _ _ _ E). by rewrite Hb.
Qed.

Lemma pool_huge_run p a h : Abs p a → 1 ≤ h < n →
  ∃ b, huge_at h p = (Ok b, p) ∧ HugeKVCacheBlock._bid b = h ∧ little_block_type b = ty a h ∧
    (∀ c k, K !! c = Some k → little_blocks b !! c = Some (pages h k)) ∧
    FreeQueue.contains b (free_huge_blocks p) = bool_decide (h ∈ fh a).
Proof.
  intros HA Hh. pose proof (ab_huge _ _ HA h) as Hb. destruct (huge p !! h) as [b|] eqn:E; [|lia]. destruct Hb as (_ & Ht & Hl).
  assert (HugeKVCacheBlock._bid b = h) as Hid by apply (FreeQueue.repr_ids _ _ (ab_repr _ _ HA) h b E).
  exists b. unfold huge_at, bind, get. rewrite E. split_and!; try done; [apply Hl; lia|].
  unfold FreeQueue.contains. simpl. rewrite Hid. pose proof (FreeQueue.repr_free _ _ (ab_repr _ _ HA)) as Hf. simpl in Hf. rewrite Hf.
  apply bool_decide_ext. apply elem_of_list_to_set.
Qed.

Lemma free_huge_length p a : Abs p a → FreeQueue.length (free_huge_blocks p) = len (fh a).
Proof. intros HA. exact (FreeQueue.repr_num _ _ (ab_repr _ _ HA)). Qed.
Lemma free_length p a c k x : Abs p a → K !! c = Some k → caches p !! c = Some x → FreeQueue.length (free x) = len (afl (ca a c)).
Proof.
  intros HA Hk Hx. destruct (abs_cache p a c k HA Hk) as (x' & Hx' & HC). assert (x' = x) as -> by congruence.
  exact (FreeQueue.repr_num _ _ (cc_repr _ _ _ HC)).
Qed.

(** ** Changing a block *)

Lemma on_block_run p a c k r (f : LittleKVCacheBlock.t → LittleKVCacheBlock.t) ac :
  Abs p a → K !! c = Some k →
  (∀ b, _prev (f b) = _prev b ∧ _next (f b) = _next b ∧ LittleKVCacheBlock._bid (f b) = LittleKVCacheBlock._bid b ∧ huge_block (f b) = huge_block b ∧ is_null (f b) = is_null b) →
  (∀ b, ref_cnt b = arc (ca a c) r → block_hash b = ahs (ca a c) r → ref_cnt (f b) = arc ac r ∧ block_hash (f b) = ahs ac r) →
  afl ac = afl (ca a c) → apc ac = apc (ca a c) → (∀ i, i ≠ r → arc ac i = arc (ca a c) i ∧ ahs ac i = ahs (ca a c) i) →
  ∃ p', on_block c r f p = (Ok tt, p') ∧ Abs p' (set_ca c ac a).
Proof.
  intros HA Hk Hf Hr Hfl Hpc Hne. destruct (abs_cache p a c k HA Hk) as (x & Hx & HC).
  exists (set_caches (<[c := set_blocks (alter f r (blocks x)) x]> (caches p)) p). split.
  - unfold on_block, on_cache, modify. do 2 f_equal. apply map_eq. intros c'. destruct (decide (c' = c)) as [->|Hc].
    + by rewrite lookup_alter_eq, lookup_insert_eq, Hx.
    + by rewrite lookup_alter_ne, lookup_insert_ne.
  - apply abs_set_cache with k; [done|done|]. destruct HC as [Hrat Hrep Hpre Hblk]. split; simpl; [done| |by rewrite Hpc|].
    + rewrite Hfl. apply (FreeQueue.Repr_alter f r (FreeQueue.mkst (blocks x) (free x))); [|done]. intros b. destruct (Hf b) as (? & ? & ? & _). done.
    + intros i. rewrite lookup_alter. specialize (Hblk i). destruct (decide (r = i)) as [<-|Hi].
      * destruct (blocks x !! r) as [b|]; simpl; [|exact Hblk]. destruct Hblk as (Hnm & Hh & Hnul & Hrc & Hhs).
        destruct (Hf b) as (_ & _ & _ & -> & ->). destruct (Hr b Hrc Hhs). done.
      * destruct (blocks x !! i) as [b|]; [|exact Hblk]. destruct (Hne i) as [-> ->]; done.
Qed.

Lemma set_rc_run p a c k r m (f : LittleKVCacheBlock.t → Z) :
  Abs p a → K !! c = Some k → (∀ b, ref_cnt b = arc (ca a c) r → f b = m) →
  ∃ p', on_block c r (λ b, set_ref_cnt (f b) b) p = (Ok tt, p') ∧ Abs p' (set_ca c (with_rc r m (ca a c)) a).
Proof.
  intros HA Hk Hf. apply on_block_run with k; try done.
  - intros b Hb Hh. simpl. rewrite upd_eq. split; [by apply Hf|done].
  - intros i Hi. simpl. by rewrite upd_ne.
Qed.

Lemma set_hs_run p a c k r h :
  Abs p a → K !! c = Some k → ∃ p', on_block c r (set_hash h) p = (Ok tt, p') ∧ Abs p' (set_ca c (with_hs r h (ca a c)) a).
Proof.
  intros HA Hk. apply on_block_run with k; try done.
  - intros b Hb Hh. simpl. by rewrite upd_eq.
  - intros i Hi. simpl. by rewrite upd_ne.
Qed.

Lemma set_pc_run p a (c : string) (k : Z) (f : gmap bytes Z → gmap bytes Z) :
  Abs p a → K !! c = Some k →
  ∃ p', on_cache c (λ x, set_prefix (f (prefix x)) x) p = (Ok tt, p') ∧ Abs p' (set_ca c (with_pc (f (apc (ca a c))) (ca a c)) a).
Proof.
  intros HA Hk. destruct (abs_cache p a c k HA Hk) as (x & Hx & HC).
  exists (set_caches (<[c := set_prefix (f (prefix x)) x]> (caches p)) p). split.
  - unfold on_cache, modify. do 2 f_equal. apply map_eq. intros c'. destruct (decide (c' = c)) as [->|Hc].
    + by rewrite lookup_alter_eq, lookup_insert_eq, Hx.
    + by rewrite lookup_alter_ne, lookup_insert_ne.
  - apply abs_set_cache with k; [done|done|]. destruct HC as [Hrat Hrep Hpre Hblk]. split; simpl; try done. by rewrite Hpre.
Qed.

Lemma set_type_run p a h c :
  Abs p a → ∃ p', modify (λ p, set_huge (alter (set_type c) h (huge p)) p) p = (Ok tt, p') ∧ Abs p' (set_ty h c a).
Proof.
  intros HA. eexists. split; [reflexivity|]. destruct HA as [Hrep Hhuge Hcache Hlist]. split; simpl; try done.
  - by apply (FreeQueue.Repr_alter (set_type c) h (FreeQueue.mkst (huge p) (free_huge_blocks p))).
  - intros h'. rewrite lookup_alter. specialize (Hhuge h'). destruct (decide (h = h')) as [<-|Hh].
    + destruct (huge p !! h) as [b|]; simpl; [|exact Hhuge]. rewrite upd_eq. naive_solver.
    + destruct (huge p !! h') as [b|]; [|exact Hhuge]. by rewrite upd_ne.
Qed.

(** ** The queues *)

Lemma cache_blocks_payload k x ac h l q :
  CacheAbs k x ac → FreeQueue.payload h = FreeQueue.payload (blocks x) → FreeQueue.Repr (FreeQueue.mkst h q) l →
  CacheAbs k (set_free q (set_blocks h x)) (with_fl l ac).
Proof.
  intros [Hrat Hrep Hpre Hblk] Hp Hr. split; simpl; try done. intros i. specialize (Hblk i).
  assert (erase <$> h !! i = erase <$> blocks x !! i) as E by (rewrite <- !lookup_fmap; exact (f_equal (.!! i) Hp)).
  destruct (h !! i) as [b|], (blocks x !! i) as [b'|]; try done. injection E as E1 E2 E3 E4 E5. rewrite E2, E3, E4, E5. done.
Qed.

Lemma in_free_op p a c k {T} (m : M (FreeQueue.st LittleKVCacheBlock.t) T) y l :
  Abs p a → K !! c = Some k →
  (∀ s, (∀ i, is_Some (FreeQueue.heap s !! i) ↔ named k i) → FreeQueue.Repr s (afl (ca a c)) →
     ∃ s', m s = (Ok y, s') ∧ FreeQueue.payload (FreeQueue.heap s') = FreeQueue.payload (FreeQueue.heap s) ∧ FreeQueue.Repr s' l) →
  ∃ p', in_free c m p = (Ok y, p') ∧ Abs p' (set_ca c (with_fl l (ca a c)) a).
Proof.
  intros HA Hk Hm. destruct (cache_of_run p a c k HA Hk) as (x & E & Hx & HC).
  destruct (Hm (FreeQueue.mkst (blocks x) (free x))) as ([h q] & Em & Hp & Hr).
  - intros i. pose proof (cc_blocks _ _ _ HC i) as Hb. simpl. destruct (blocks x !! i); [split; [naive_solver|done]|].
    split; [by intros [? [=]]|done].
  - apply HC.
  - eexists. split.
    + unfold in_free. rewrite (bind_run _ _ _ _ _ E). unfold zoom. rewrite Em. reflexivity.
    + simpl. apply abs_set_cache with k; [done|done|]. by apply cache_blocks_payload.
Qed.

Lemma free_remove_run p a c k r : Abs p a → K !! c = Some k → r ∈ afl (ca a c) →
  ∃ p', in_free c (FreeQueue.remove r) p = (Ok tt, p') ∧ Abs p' (set_ca c (with_fl (filter (λ x, x ≠ r) (afl (ca a c))) (ca a c)) a).
Proof.
  intros HA Hk Hr. apply in_free_op with k; [done|done|]. intros s _ HR. apply list_elem_of_split in Hr as (l1 & l2 & E). rewrite E in *.
  destruct (FreeQueue.remove_run _ _ _ _ HR) as (s' & Er & Hh & HR'). exists s'. split; [done|].
  rewrite Deque.filter_ne_middle by apply (FreeQueue.repr_nodup _ _ HR). split; [|done]. rewrite Hh. apply FreeQueue.payload_unlinked.
Qed.

Lemma free_append_run p a c k r : Abs p a → K !! c = Some k → r ∉ afl (ca a c) → named k r →
  ∃ p', in_free c (FreeQueue.append r) p = (Ok tt, p') ∧ Abs p' (set_ca c (with_fl (afl (ca a c) ++ [r]) (ca a c)) a).
Proof.
  intros HA Hk Hr Hi. apply in_free_op with k; [done|done|]. intros s Hdom HR.
  destruct (FreeQueue.append_run _ _ _ HR Hr) as (s' & Er & Hh & HR'); [by apply Hdom|]. exists s'. split; [done|]. split; [|done].
  rewrite Hh. apply FreeQueue.payload_linked_last.
Qed.

Lemma free_pop_run p a c k r l : Abs p a → K !! c = Some k → afl (ca a c) = r :: l →
  ∃ p', in_free c FreeQueue.popleft p = (Ok r, p') ∧ Abs p' (set_ca c (with_fl l (ca a c)) a).
Proof.
  intros HA Hk E. apply in_free_op with k; [done|done|]. intros s _ HR. rewrite E in HR.
  destruct (FreeQueue.popleft_run _ _ HR) as (s' & Er & Hh & HR'). exists s'. split; [done|]. split; [|done]. rewrite Hh. apply FreeQueue.payload_unlinked.
Qed.

Lemma in_huge_op p a {T} (m : M (FreeQueue.st HugeKVCacheBlock.t) T) y l :
  Abs p a →
  (∀ s, (∀ i, is_Some (FreeQueue.heap s !! i) ↔ 0 ≤ i < n) → FreeQueue.Repr s (fh a) →
     ∃ s', m s = (Ok y, s') ∧ FreeQueue.payload (FreeQueue.heap s') = FreeQueue.payload (FreeQueue.heap s) ∧ FreeQueue.Repr s' l) →
  ∃ p', in_huge m p = (Ok y, p') ∧ Abs p' (set_fh l a).
Proof.
  intros [Hrep Hhuge Hcache Hlist] Hm. destruct (Hm (FreeQueue.mkst (huge p) (free_huge_blocks p))) as ([h q] & Em & Hp & Hr); [|done|].
  - intros i. pose proof (Hhuge i) as Hb. simpl. destruct (huge p !! i); [split; [naive_solver|done]|]. split; [by intros [? [=]]|done].
  - eexists. split; [unfold in_huge, zoom; rewrite Em; reflexivity|]. split; simpl; try done. intros i. specialize (Hhuge i).
    assert (erase <$> h !! i = erase <$> huge p !! i) as E by (rewrite <- !lookup_fmap; exact (f_equal (.!! i) Hp)).
    destruct (h !! i) as [b|], (huge p !! i) as [b'|]; try done. injection E as E1 E2 E3. by rewrite E2, E3.
Qed.

Lemma huge_remove_run p a h : Abs p a → h ∈ fh a →
  ∃ p', in_huge (FreeQueue.remove h) p = (Ok tt, p') ∧ Abs p' (set_fh (filter (λ x, x ≠ h) (fh a)) a).
Proof.
  intros HA Hr. apply in_huge_op; [done|]. intros s _ HR. apply list_elem_of_split in Hr as (l1 & l2 & E). rewrite E in *.
  destruct (FreeQueue.remove_run _ _ _ _ HR) as (s' & Er & Hh & HR'). exists s'. split; [done|].
  rewrite Deque.filter_ne_middle by apply (FreeQueue.repr_nodup _ _ HR). split; [|done]. rewrite Hh. apply FreeQueue.payload_unlinked.
Qed.

Lemma huge_append_run p a h : Abs p a → h ∉ fh a → 0 ≤ h < n →
  ∃ p', in_huge (FreeQueue.append h) p = (Ok tt, p') ∧ Abs p' (set_fh (fh a ++ [h]) a).
Proof.
  intros HA Hr Hi. apply in_huge_op; [done|]. intros s Hdom HR.
  destruct (FreeQueue.append_run _ _ _ HR Hr) as (s' & Er & Hh & HR'); [by apply Hdom|]. exists s'. split; [done|]. split; [|done].
  rewrite Hh. apply FreeQueue.payload_linked_last.
Qed.

Lemma huge_pop_run p a h l : Abs p a → fh a = h :: l →
  ∃ p', in_huge FreeQueue.popleft p = (Ok h, p') ∧ Abs p' (set_fh l a).
Proof.
  intros HA E. apply in_huge_op; [done|]. intros s _ HR. rewrite E in HR.
  destruct (FreeQueue.popleft_run _ _ HR) as (s' & Er & Hh & HR'). exists s'. split; [done|]. split; [|done]. rewrite Hh. apply FreeQueue.payload_unlinked.
Qed.

(** ** Reference counts of huge blocks *)

Lemma filter_id {T} (P : T → Prop) `{∀ x, Decision (P x)} (l : list T) : (∀ x, x ∈ l → P x) → filter P l = l.
Proof.
  intros Hl. induction l as [|x l IH]; [done|]. rewrite filter_cons_True by (apply Hl; by left). f_equal. apply IH. intros; apply Hl; by right.
Qed.

Lemma pages_named h k i : 1 ≤ h < n → 0 < k → i ∈ pages h k → k ≤ i < k * n ∧ i / k = h.
Proof.
  intros Hh Hk Hi. apply elem_of_zrange in Hi. split; [nia|]. symmetry. apply (Z.div_unique _ _ _ (i - h * k)); lia.
Qed.
Lemma named_page k i : 0 < k → k ≤ i < k * n → 1 ≤ i / k < n ∧ i ∈ pages (i / k) k.
Proof.
  intros Hk Hi. pose proof (Z.div_mod i k ltac:(lia)). pose proof (Z.mod_pos_bound i k Hk). split; [nia|]. apply elem_of_zrange. nia.
Qed.

Lemma sum_pages p a c k l acc : Abs p a → K !! c = Some k → (∀ i, i ∈ l → named k i) →
  for_fold l acc (λ n r, let! x := block c r in ret (n + ref_cnt x)) p = (Ok (acc + zsum (map (arc (ca a c)) l)), p).
Proof.
  intros HA Hk. revert acc. induction l as [|i l IH]; intros acc Hl; simpl; [by rewrite Z.add_0_r|].
  destruct (pool_block_run p a c k i HA Hk) as (b & E & _ & _ & _ & Hrc & _); [apply Hl; by left|].
  unfold bind at 1. rewrite (bind_run _ _ _ _ _ E). unfold ret at 1. rewrite IH by (intros; apply Hl; by right). do 2 f_equal. lia.
Qed.

Lemma huge_ref_run p a h b : Abs p a → 1 ≤ h < n → (∀ c, ty a h = Some c → is_Some (K !! c)) →
  little_block_type b = ty a h → (∀ c k, K !! c = Some k → little_blocks b !! c = Some (pages h k)) →
  huge_ref_cnt b p = (Ok (match ty a h with
    | None => 0
    | Some c => match K !! c with Some k => zsum (map (arc (ca a c)) (pages h k)) | None => 0 end end), p).
Proof.
  intros HA Hh Hty Ht Hl. unfold huge_ref_cnt. rewrite Ht. destruct (ty a h) as [c|] eqn:E; [|done].
  destruct (Hty c eq_refl) as [k Hk]. rewrite Hk, (Hl c k Hk). unfold bind at 1, of_option, ret at 1.
  rewrite (sum_pages p a c k); [done..|]. intros i Hi. right. by destruct (pages_named h k i Hh (HK c k Hk) Hi).
Qed.

Lemma zsum_zero (f : Z → Z) l : (∀ i, i ∈ l → 0 ≤ f i) → zsum (map f l) = 0 ↔ ∀ i, i ∈ l → f i = 0.
Proof.
  induction l as [|x l IH]; intros Hf; simpl; [split; [by intros _ i ?%elem_of_nil|done]|].
  assert (0 ≤ zsum (map f l)) as Hpos.
  { assert (∀ i, i ∈ l → 0 ≤ f i) as Hl by (intros; apply Hf; by right). clear -Hl. induction l as [|y l IH]; [done|]. simpl.
    pose proof (Hl y (list_elem_of_here _ _)). assert (0 ≤ zsum (map f l)); [|lia]. apply IH. intros; apply Hl; by right. }
  pose proof (Hf x (list_elem_of_here _ _)). split.
  - intros Hs i [->|Hi]%elem_of_cons; [lia|]. apply IH; [intros; apply Hf; by right|lia|done].
  - intros Hz. assert (zsum (map f l) = 0) as ->; [|rewrite Hz by left; done]. apply IH; [intros; apply Hf; by right|]. intros; apply Hz; by right.
Qed.

(** ** Uncommitting *)

(** The prefix cache of [c] holds exactly the committed pages. *)
Definition Consistent (c : string) (k : Z) (a : abs) : Prop :=
  ∀ x i, apc (ca a c) !! x = Some i ↔ k ≤ i < k * n ∧ ahs (ca a c) i = Some x.

Record Uncommitted (c : string) (l : list Z) (a a' : abs) : Prop := {
  un_ty : ty a' = ty a;
  un_fh : fh a' = fh a;
  un_other c' : c' ≠ c → ca a' c' = ca a c';
  un_fl : afl (ca a' c) = afl (ca a c);
  un_rc : arc (ca a' c) = arc (ca a c);
  un_hs i : ahs (ca a' c) i = if decide (i ∈ l) then None else ahs (ca a c) i;
  un_pc x i : apc (ca a' c) !! x = Some i ↔ apc (ca a c) !! x = Some i ∧ i ∉ l
}.

Lemma uncommitted_consistent c k l a a' : Uncommitted c l a a' → Consistent c k a → Consistent c k a'.
Proof. intros HU HC x i. rewrite (un_pc _ _ _ _ HU), (un_hs _ _ _ _ HU), (HC x i). case_decide; naive_solver. Qed.

Lemma pool_uncommit_run p a c k i : Abs p a → K !! c = Some k → k ≤ i < k * n → Consistent c k a →
  ∃ p' a', uncommit_block c i p = (Ok tt, p') ∧ Abs p' a' ∧ Uncommitted c [i] a a'.
Proof.
  intros HA Hk Hi HC. destruct (pool_block_run p a c k i HA Hk) as (b & E & _ & _ & _ & _ & Hh); [by right|].
  unfold uncommit_block. setoid_rewrite (bind_run _ _ _ _ _ E). rewrite Hh. destruct (ahs (ca a c) i) as [x|] eqn:Ex.
  - assert (apc (ca a c) !! x = Some i) as Hx by (by apply HC).
    destruct (cache_of_run p a c k HA Hk) as (y & Ey & _ & HCy). setoid_rewrite (bind_run _ _ _ _ _ Ey).
    rewrite (cc_prefix _ _ _ HCy), Hx. rewrite bool_decide_eq_false_2 by done.
    destruct (set_pc_run p a c k (delete x) HA Hk) as (p1 & E1 & HA1).
    destruct (set_hs_run p1 _ c k i None HA1 Hk) as (p2 & E2 & HA2). rewrite ca_set in HA2.
    exists p2, (set_ca c (with_hs i None (with_pc (delete x (apc (ca a c))) (ca a c))) a). split; [|split].
    + unfold bind at 1, raise_if, ret at 1. by rewrite (bind_run _ _ _ _ _ E1).
    + assert (∀ u v b0, Abs p2 (set_ca c u (set_ca c v b0)) → Abs p2 (set_ca c u b0)) as Hset; [|by eapply Hset].
      clear. intros u v b0 [H1 H2 H3 H4]. split; try done. intros c'. specialize (H3 c'). simpl in *. unfold upd in *. by destruct (decide (c' = c)).
    + split; try done; simpl.
      * intros c' Hne. by rewrite upd_ne.
      * by rewrite upd_eq.
      * by rewrite upd_eq.
      * intros j. rewrite upd_eq. simpl. unfold upd. destruct (decide (j = i)) as [->|Hne]; [by rewrite decide_True by left|].
        rewrite decide_False; [done|]. by intros ->%list_elem_of_singleton.
      * intros y' j. rewrite upd_eq. simpl. rewrite lookup_delete_Some, list_elem_of_singleton. split.
        -- intros [Hne Hj]. split; [done|]. intros ->. apply Hne. apply HC in Hj as [_ Hj]. congruence.
        -- intros [Hj Hne]. split; [|done]. intros ->. congruence.
  - exists p, a. split; [done|]. split; [done|]. split; try done.
    + intros j. case_decide as Hj; [|done]. by apply list_elem_of_singleton in Hj as ->.
    + intros y j. split; [|by intros [? _]]. intros Hj. split; [done|]. intros ->%list_elem_of_singleton. apply HC in Hj as [_ Hj]. congruence.
Qed.

Lemma uncommit_loop p a c k l : Abs p a → K !! c = Some k → (∀ i, i ∈ l → k ≤ i < k * n) → Consistent c k a →
  ∃ p' a', for_each l (uncommit_block c) p = (Ok tt, p') ∧ Abs p' a' ∧ Uncommitted c l a a'.
Proof.
  revert p a. induction l as [|i l IH]; intros p a HA Hk Hl HC.
  - exists p, a. split; [done|]. split; [done|]. split; try done.
    intros x i. split; [intros ?; split; [done|apply not_elem_of_nil]|by intros [? _]].
  - destruct (pool_uncommit_run p a c k i HA Hk) as (p1 & a1 & E1 & HA1 & HU1); [apply Hl; by left|done|].
    destruct (IH p1 a1 HA1 Hk) as (p2 & a2 & E2 & HA2 & HU2); [intros; apply Hl; by right|by eapply uncommitted_consistent|].
    exists p2, a2. split; [simpl; by rewrite (bind_run _ _ _ _ _ E1)|]. split; [done|].
    destruct HU1 as [T1 F1 O1 L1 R1 H1 P1], HU2 as [T2 F2 O2 L2 R2 H2 P2]. split; try congruence.
    + intros c' Hne. by rewrite O2, O1.
    + intros j. rewrite H2, H1. destruct (decide (j ∈ l)) as [Hj|Hj]; [by rewrite decide_True by (by right)|].
      destruct (decide (j ∈ [i])) as [Hji|Hji]; [apply list_elem_of_singleton in Hji as ->; by rewrite decide_True by left|].
      rewrite decide_False; [done|]. rewrite elem_of_cons. intros [->|?]; [|done]. apply Hji. by left.
    + intros x j. rewrite P2, P1, !not_elem_of_cons. pose proof (not_elem_of_nil j). tauto.
Qed.

(** ** Putting pages in circulation and taking them out *)

Lemma append_loop p a c k l : Abs p a → K !! c = Some k → (∀ i, i ∈ l → named k i ∧ i ∉ afl (ca a c)) → NoDup l →
  ∃ p' a', for_each l (λ r, in_free c (FreeQueue.append r)) p = (Ok tt, p') ∧ Abs p' a' ∧
    ty a' = ty a ∧ fh a' = fh a ∧ (∀ c', c' ≠ c → ca a' c' = ca a c') ∧ ca a' c = with_fl (afl (ca a c) ++ l) (ca a c).
Proof.
  revert p a. induction l as [|i l IH]; intros p a HA Hk Hl Hnd.
  - exists p, a. split_and!; try done. rewrite app_nil_r. by destruct (ca a c).
  - apply NoDup_cons in Hnd as [Hi Hnd]. destruct (Hl i (list_elem_of_here _ _)) as [Hn1 Hn2].
    destruct (free_append_run p a c k i HA Hk Hn2 Hn1) as (p1 & E1 & HA1).
    destruct (IH p1 _ HA1 Hk) as (p2 & a2 & E2 & HA2 & T & F & O & C); [|done|].
    { intros j Hj. destruct (Hl j (list_elem_of_further _ _ _ Hj)). split; [done|]. rewrite ca_set. simpl. rewrite elem_of_app, list_elem_of_singleton.
      intros [?| ->]; done. }
    exists p2, a2. split; [simpl; by rewrite (bind_run _ _ _ _ _ E1)|]. split; [done|]. rewrite ca_set in C. simpl in *. split_and!; try done.
    + intros c' Hne. rewrite O by done. by rewrite upd_ne.
    + rewrite C. by rewrite <- app_assoc.
Qed.

Lemma remove_loop p a c k l : Abs p a → K !! c = Some k → (∀ i, i ∈ l → i ∈ afl (ca a c)) → NoDup l →
  ∃ p' a', for_each l (λ r, in_free c (FreeQueue.remove r)) p = (Ok tt, p') ∧ Abs p' a' ∧
    ty a' = ty a ∧ fh a' = fh a ∧ (∀ c', c' ≠ c → ca a' c' = ca a c') ∧ ca a' c = with_fl (filter (λ x, x ∉ l) (afl (ca a c))) (ca a c).
Proof.
  revert p a. induction l as [|i l IH]; intros p a HA Hk Hl Hnd.
  - exists p, a. split_and!; try done. rewrite filter_id; [by destruct (ca a c)|]. intros x _. apply not_elem_of_nil.
  - apply NoDup_cons in Hnd as [Hi Hnd].
    destruct (free_remove_run p a c k i HA Hk) as (p1 & E1 & HA1); [apply Hl; by left|].
    destruct (IH p1 _ HA1 Hk) as (p2 & a2 & E2 & HA2 & T & F & O & C); [|done|].
    { intros j Hj. rewrite ca_set. simpl. apply list_elem_of_filter. split; [by intros ->|apply Hl; by right]. }
    exists p2, a2. split; [simpl; by rewrite (bind_run _ _ _ _ _ E1)|]. split; [done|]. rewrite ca_set in C. simpl in *. split_and!; try done.
    + intros c' Hne. rewrite O by done. by rewrite upd_ne.
    + rewrite C. unfold with_fl. simpl. f_equal. rewrite list_filter_filter. apply list_filter_iff. intros x. rewrite not_elem_of_cons. tauto.
Qed.

(** ** Claiming a huge block *)

Record Claimable (h : Z) (c : string) (k : Z) (a : abs) : Prop := {
  cl_range : 1 ≤ h < n;
  cl_cache : K !! c = Some k;
  cl_known c0 : ty a h = Some c0 → is_Some (K !! c0);
  cl_idle c0 k0 i : ty a h = Some c0 → K !! c0 = Some k0 → i ∈ pages h k0 → arc (ca a c0) i = 0;
  cl_out i : i ∈ pages h k → i ∉ afl (ca a c);
  cl_consistent c0 k0 : K !! c0 = Some k0 → Consistent c0 k0 a
}.

(** The pages of huge block [h] that another cache than [c] used before *)
Definition evicted (h : Z) (c : string) (a : abs) (c' : string) (i : Z) : Prop :=
  c' ≠ c ∧ ty a h = Some c' ∧ ∃ k', K !! c' = Some k' ∧ i ∈ pages h k'.
#[global] Instance evicted_dec h c a c' i : Decision (evicted h c a c' i).
Proof.
  unfold evicted. destruct (K !! c') as [k'|] eqn:E.
  - destruct (decide (c' ≠ c ∧ ty a h = Some c' ∧ i ∈ pages h k')) as [Hy|Hn'].
    + left. destruct Hy as (? & ? & ?). split_and!; [done|done|]. by exists k'.
    + right. intros (? & ? & k0 & Hk0 & ?). apply Hn'. simplify_eq. done.
  - right. by intros (_ & _ & k' & [=] & _).
Defined.

Record Claimed (h : Z) (c : string) (k : Z) (a a' : abs) : Prop := {
  cd_ty h' : ty a' h' = if decide (h' = h) then Some c else ty a h';
  cd_fh : fh a' = filter (λ x, x ≠ h) (fh a);
  cd_fl c' : afl (ca a' c') = if decide (c' = c) then afl (ca a c) ++ pages h k else afl (ca a c');
  cd_rc c' i : arc (ca a' c') i = arc (ca a c') i;
  cd_hs c' i : ahs (ca a' c') i = if decide (evicted h c a c' i) then None else ahs (ca a c') i;
  cd_pc c' x i : apc (ca a' c') !! x = Some i ↔ apc (ca a c') !! x = Some i ∧ ¬ evicted h c a c' i
}.

Lemma pool_evict_run p a h c k b : Abs p a → Claimable h c k a →
  little_block_type b = ty a h → (∀ c k, K !! c = Some k → little_blocks b !! c = Some (pages h k)) →
  ∃ p' a', match little_block_type b with
    | Some prev_type => when (negb (bool_decide (prev_type = c)))
        (let! l := of_option KeyError (little_blocks b !! prev_type) in for_each l (uncommit_block prev_type))
    | None => ret tt end p = (Ok tt, p') ∧ Abs p' a' ∧ ty a' = ty a ∧ fh a' = fh a ∧
    (∀ c', afl (ca a' c') = afl (ca a c') ∧ arc (ca a' c') = arc (ca a c')) ∧
    (∀ c' i, ahs (ca a' c') i = if decide (evicted h c a c' i) then None else ahs (ca a c') i) ∧
    ∀ c' x i, apc (ca a' c') !! x = Some i ↔ apc (ca a c') !! x = Some i ∧ ¬ evicted h c a c' i.
Proof.
  intros HA HC Ht Hl. rewrite Ht. assert ((∀ c' i, ¬ evicted h c a c' i) → ∃ p' a', (Ok tt, p) = (Ok tt, p') ∧ Abs p' a' ∧ ty a' = ty a ∧ fh a' = fh a ∧
    (∀ c', afl (ca a' c') = afl (ca a c') ∧ arc (ca a' c') = arc (ca a c')) ∧
    (∀ c' i, ahs (ca a' c') i = if decide (evicted h c a c' i) then None else ahs (ca a c') i) ∧
    ∀ c' x i, apc (ca a' c') !! x = Some i ↔ apc (ca a c') !! x = Some i ∧ ¬ evicted h c a c' i) as Hnone.
  { intros Hno. exists p, a. split_and!; try done; [intros c' i; by rewrite decide_False|intros c' x i; split; [done|by intros [? _]]]. }
  destruct (ty a h) as [c0|] eqn:E; [|apply Hnone; by intros c' i (_ & ? & _); congruence].
  destruct (decide (c0 = c)) as [->|Hne]; [rewrite bool_decide_eq_true_2 by done; apply Hnone; intros c' i (Hc & ? & _); congruence|].
  rewrite bool_decide_eq_false_2 by done. simpl. destruct (cl_known _ _ _ _ HC c0 E) as [k0 Hk0]. rewrite (Hl c0 k0 Hk0).
  unfold bind at 1, of_option, ret at 1. destruct (uncommit_loop p a c0 k0 (pages h k0) HA Hk0) as (p' & a' & Eu & HA' & HU).
  { intros i Hi. by destruct (pages_named h k0 i (cl_range _ _ _ _ HC) (HK c0 k0 Hk0) Hi). }
  { by apply HC. }
  assert (∀ c' i, evicted h c a c' i ↔ c' = c0 ∧ i ∈ pages h k0) as Hev.
  { intros c' i. unfold evicted. rewrite E. split; [intros (_ & [= <-] & k' & Hk' & Hi); simplify_eq; done|]. intros [-> Hi]. split_and!; [done|done|by exists k0]. }
  exists p', a'. destruct HU as [T F O L R Hh P]. split_and!; try done.
  - intros c'. destruct (decide (c' = c0)) as [->|Hc']; [done|]. by rewrite O.
  - intros c' i. destruct (decide (c' = c0)) as [->|Hc'].
    + rewrite Hh. destruct (decide (i ∈ pages h k0)) as [Hi|Hi]; [rewrite decide_True by (by rewrite Hev); done|].
      rewrite decide_False; [done|]. rewrite Hev. tauto.
    + rewrite O by done. rewrite decide_False; [done|]. rewrite Hev. tauto.
  - intros c' x i. rewrite Hev. destruct (decide (c' = c0)) as [->|Hc']; [rewrite P; tauto|]. rewrite O by done. tauto.
Qed.

Lemma abs_filter_fh p a h : Abs p a → h ∉ fh a → Abs p (set_fh (filter (λ x, x ≠ h) (fh a)) a).
Proof. intros [H1 H2 H3 H4] Hh. split; try done. simpl. rewrite filter_id; [done|]. by intros x Hx ->. Qed.

Lemma pool_claim_run p a h c k : Abs p a → Claimable h c k a →
  ∃ p' a', _claim_huge_block h c p = (Ok tt, p') ∧ Abs p' a' ∧ Claimed h c k a a'.
Proof.
  intros HA HC. pose proof (cl_range _ _ _ _ HC) as Hh. pose proof (cl_cache _ _ _ _ HC) as Hk.
  destruct (pool_huge_run p a h HA Hh) as (b & Eb & _ & Ht & Hl & Hin). unfold _claim_huge_block. setoid_rewrite (bind_run _ _ _ _ _ Eb).
  pose proof (huge_ref_run p a h b HA Hh (cl_known _ _ _ _ HC) Ht Hl) as Er. setoid_rewrite (bind_run _ _ _ _ _ Er).
  assert (match ty a h with None => 0 | Some c => match K !! c with Some k => zsum (map (arc (ca a c)) (pages h k)) | None => 0 end end = 0) as ->.
  { destruct (ty a h) as [c0|] eqn:E0; [|done]. destruct (K !! c0) as [k0|] eqn:E1; [|done].
    assert (∀ i, i ∈ pages h k0 → arc (ca a c0) i = 0) as Hz by (intros i Hi; by eapply (cl_idle _ _ _ _ HC)).
    apply zsum_zero; [|done]. intros i Hi. rewrite Hz; done. }
  assert (∃ p1, when (FreeQueue.contains b (free_huge_blocks p)) (in_huge (FreeQueue.remove h)) p = (Ok tt, p1) ∧
    Abs p1 (set_fh (filter (λ x, x ≠ h) (fh a)) a)) as (p1 & E1 & HA1).
  { rewrite Hin. destruct (decide (h ∈ fh a)) as [Hf|Hf]; [rewrite bool_decide_eq_true_2 by done; by apply huge_remove_run|].
    rewrite bool_decide_eq_false_2 by done. exists p. split; [done|]. by apply abs_filter_fh. }
  destruct (pool_evict_run p1 _ h c k b HA1) as (p2 & a2 & E2 & HA2 & T2 & F2 & L2 & H2 & P2); [by destruct HC|exact Ht|exact Hl|].
  destruct (set_type_run p2 a2 h c HA2) as (p3 & E3 & HA3).
  destruct (append_loop p3 _ c k (pages h k) HA3 Hk) as (p4 & a4 & E4 & HA4 & T4 & F4 & O4 & C4).
  { intros i Hi. split; [right; by destruct (pages_named h k i Hh (HK c k Hk) Hi)|]. simpl. destruct (L2 c) as [-> _]. by apply HC. }
  { apply NoDup_zrange. }
  simpl in *. exists p4, a4. split; [|split; [done|]].
  - setoid_rewrite (bind_run _ _ _ _ _ (eq_refl : py_assert true p = (Ok tt, p))). setoid_rewrite (bind_run _ _ _ _ _ (eq_refl : get p = (Ok p, p))).
    setoid_rewrite (bind_run _ _ _ _ _ E1). setoid_rewrite (bind_run _ _ _ _ _ E2). setoid_rewrite (bind_run _ _ _ _ _ E3).
    rewrite (Hl c k Hk). unfold bind at 1, of_option, ret at 1. exact E4.
  - change (∀ c' i, ahs (ca a2 c') i = if decide (evicted h c a c' i) then None else ahs (ca a c') i) in H2.
    change (∀ c' x i, apc (ca a2 c') !! x = Some i ↔ apc (ca a c') !! x = Some i ∧ ¬ evicted h c a c' i) in P2. split.
    + intros h'. rewrite T4. unfold upd. by rewrite T2.
    + by rewrite F4, F2.
    + intros c'. destruct (decide (c' = c)) as [->|Hne]; [rewrite C4; simpl; by destruct (L2 c) as [-> _]|]. rewrite O4 by done. by destruct (L2 c') as [-> _].
    + intros c' i. destruct (decide (c' = c)) as [->|Hne]; [rewrite C4; simpl; by destruct (L2 c) as [_ ->]|]. rewrite O4 by done. by destruct (L2 c') as [_ ->].
    + intros c' i. rewrite <- H2. destruct (decide (c' = c)) as [->|Hne]; [by rewrite C4|]. by rewrite O4.
    + intros c' x i. rewrite <- P2. destruct (decide (c' = c)) as [->|Hne]; [by rewrite C4|]. by rewrite O4.
Qed.

(** ** The invariant

    [owned] are the references held outside the pool. A huge block is parked exactly
    when it is idle, except for [ex], which a call in progress has claimed. *)

Definition refs (c : string) (i : Z) (owned : gmultiset (string * Z)) : Z := Z.of_nat (multiplicity (c, i) owned).

Definition idle (h : Z) (a : abs) : Prop := ∀ c k i, ty a h = Some c → K !! c = Some k → i ∈ pages h k → arc (ca a c) i = 0.

Record Inv (ex : option Z) (a : abs) (owned : gmultiset (string * Z)) : Prop := {
  iv_fh h : ex ≠ Some h → h ∈ fh a ↔ 1 ≤ h < n ∧ idle h a;
  iv_ex h : ex = Some h → h ∉ fh a ∧ 1 ≤ h < n ∧ idle h a;
  iv_ty h c : ty a h = Some c → is_Some (K !! c);
  iv_fl c k i : K !! c = Some k → i ∈ afl (ca a c) ↔ k ≤ i < k * n ∧ ty a (i / k) = Some c ∧ i / k ∉ fh a ∧ arc (ca a c) i = 0;
  iv_rc c k i : K !! c = Some k → k ≤ i < k * n →
    arc (ca a c) i = refs c i owned ∧ (ty a (i / k) ≠ Some c → arc (ca a c) i = 0 ∧ ahs (ca a c) i = None);
  iv_cons c k : K !! c = Some k → Consistent c k a;
  iv_own c i : (c, i) ∈ owned → ∃ k, K !! c = Some k ∧ k ≤ i < k * n
}.

Lemma pool_refs_nonneg c i owned : 0 ≤ refs c i owned.
Proof. unfold refs. lia. Qed.
Lemma pool_refs_add c i owned : refs c i ({[+ (c, i) +]} ⊎ owned) = refs c i owned + 1.
Proof. unfold refs. rewrite multiplicity_disj_union, multiplicity_singleton_eq. lia. Qed.
Lemma pool_refs_add_ne c i c' i' owned : (c', i') ≠ (c, i) → refs c' i' ({[+ (c, i) +]} ⊎ owned) = refs c' i' owned.
Proof. intros. unfold refs. rewrite multiplicity_disj_union, multiplicity_singleton_ne by done. lia. Qed.
Lemma refs_owned c i owned : (c, i) ∈ owned ↔ 0 < refs c i owned.
Proof. unfold refs. rewrite elem_of_multiplicity. lia. Qed.

Lemma page_of c k i : K !! c = Some k → k ≤ i < k * n → i ∈ pages (i / k) k.
Proof. intros Hk Hi. apply named_page; [by eapply HK|done]. Qed.

Lemma inv_used ex a owned c k i : Inv ex a owned → K !! c = Some k → k ≤ i < k * n → 0 < arc (ca a c) i → ty a (i / k) = Some c.
Proof.
  intros HI Hk Hi Hr. destruct (iv_rc _ _ _ HI c k i Hk Hi) as [_ Ht]. destruct (decide (ty a (i / k) = Some c)) as [|Hne]; [done|].
  destruct (Ht Hne). lia.
Qed.

(** The blocks in use and the committed ones have their huge block. *)
Lemma inv_committed ex a owned c k i x : Inv ex a owned → K !! c = Some k → k ≤ i < k * n → ahs (ca a c) i = Some x → ty a (i / k) = Some c.
Proof.
  intros HI Hk Hi Hx. destruct (iv_rc _ _ _ HI c k i Hk Hi) as [_ Ht]. destruct (decide (ty a (i / k) = Some c)) as [|Hne]; [done|].
  destruct (Ht Hne). congruence.
Qed.

Lemma inv_claimable a owned h c k : Inv None a owned → h ∈ fh a → K !! c = Some k → Claimable h c k a.
Proof.
  intros HI Hh Hk. destruct (proj1 (iv_fh _ _ _ HI h ltac:(done)) Hh) as [Hr Hidle]. split; try done.
  - intros c0. apply HI.
  - intros i Hi Hin. apply (iv_fl _ _ _ HI c k i Hk) in Hin as (_ & _ & Hn' & _). destruct (pages_named h k i Hr (HK c k Hk) Hi) as [_ E].
    by rewrite E in Hn'.
  - intros c0 k0 Hk0. by apply (iv_cons _ _ _ HI).
Qed.

Lemma claimed_pop h c k l a a' : NoDup (fh a) → fh a = h :: l → Claimed h c k (set_fh l a) a' → Claimed h c k a a'.
Proof.
  intros Hnd E [T F L R H P]. split; try done. rewrite F, E. simpl. rewrite filter_cons_False by naive_solver. done.
Qed.

Lemma inv_claimed a a' owned h c k :
  Inv None a owned → h ∈ fh a → K !! c = Some k → Claimed h c k a a' → Inv (Some h) a' owned.
Proof.
  intros HI Hh Hk [T F L R Hs P]. destruct (proj1 (iv_fh _ _ _ HI h ltac:(done)) Hh) as [Hr Hidle].
  assert (∀ x, x ∈ fh a' ↔ x ∈ fh a ∧ x ≠ h) as HF by (intros x; rewrite F, list_elem_of_filter; tauto).
  assert (∀ c' k' i, K !! c' = Some k' → k' ≤ i < k' * n → i / k' = h → arc (ca a c') i = 0 ∧ (ty a h ≠ Some c' → ahs (ca a c') i = None)) as Hzero.
  { intros c' k' i Hk' Hi E. destruct (iv_rc _ _ _ HI c' k' i Hk' Hi) as [_ Ht]. rewrite E in Ht. split; [|by intros Hty; apply Ht].
    destruct (decide (ty a h = Some c')) as [Hty|Hty]; [|by apply Ht]. eapply Hidle; [done|done|]. rewrite <- E. by apply (page_of c'). }
  split.
  - intros h' Hne. assert (h' ≠ h) as Hne' by congruence. rewrite HF. rewrite (iv_fh _ _ _ HI h') by done. unfold idle.
    rewrite T, decide_False by done. setoid_rewrite R. tauto.
  - intros h' [= <-]. rewrite HF. split_and!; [tauto|lia..|]. intros c' k' i. rewrite T, decide_True by done. intros [= <-] Hk' Hi. rewrite R.
    destruct (pages_named h k' i Hr (HK _ _ Hk') Hi) as [Hi' E]. by apply (Hzero c k' i).
  - intros h' c'. rewrite T. case_decide; [intros [= <-]; by exists k|]. apply HI.
  - intros c' k' i Hk'. rewrite L, R, T, HF. pose proof (iv_fl _ _ _ HI c' k' i Hk') as Hfl.
    destruct (decide (c' = c)) as [->|Hc].
    + assert (k' = k) as -> by congruence. rewrite elem_of_app, Hfl. split.
      * intros [(Hi & Hty & Hn' & Hz)|Hi].
        -- destruct (decide (i / k = h)) as [E|E]; [by rewrite E in Hn'|tauto].
        -- destruct (pages_named h k i Hr (HK c k Hk) Hi) as [Hi' E]. rewrite decide_True by done. split_and!; [lia..|done|tauto|]. by apply (Hzero c k i).
      * intros (Hi & Hty & Hn' & Hz). destruct (decide (i / k = h)) as [E|E]; [right; rewrite <- E; by apply (page_of c)|left; tauto].
    + rewrite Hfl. split.
      * intros (Hi & Hty & Hn' & Hz). assert (i / k' ≠ h) by (by intros E; rewrite E in Hn'). rewrite decide_False by done. tauto.
      * intros (Hi & Hty & Hn' & Hz). destruct (decide (i / k' = h)) as [E|E]; [congruence|tauto].
  - intros c' k' i Hk' Hi. destruct (iv_rc _ _ _ HI c' k' i Hk' Hi) as [Hrc Ht]. rewrite R, Hs, T. split; [done|].
    destruct (decide (i / k' = h)) as [E|E].
    + intros Hc. destruct (Hzero c' k' i Hk' Hi E) as [Hz Hh']. split; [done|]. case_decide as Hev; [done|]. apply Hh'. intros Hty. apply Hev.
      split_and!; [congruence|done|]. exists k'. split; [done|]. rewrite <- E. by apply (page_of c').
    + intros Hty. destruct (Ht Hty) as [-> ->]. split; [done|]. by case_decide.
  - intros c' k' Hk' x i. rewrite P, Hs, (iv_cons _ _ _ HI c' k' Hk' x i). case_decide; [split; [tauto|by intros [_ ?]]|tauto].
  - apply HI.
Qed.

(** *** Taking and giving back references *)

(** Only the cache [c] changes. *)
Definition OnlyCache (c : string) (a a' : abs) : Prop := ty a' = ty a ∧ fh a' = fh a ∧ ∀ c', c' ≠ c → ca a' c' = ca a c'.

Lemma idle_only c k r a a' h : OnlyCache c a a' → K !! c = Some k → (∀ i, i ≠ r → arc (ca a' c) i = arc (ca a c) i) →
  h ≠ r / k → k ≤ r < k * n → 1 ≤ h < n → idle h a' ↔ idle h a.
Proof.
  intros (T & F & O) Hk Hr Hh Hrr Hhr. unfold idle. rewrite T.
  assert (∀ c' k' i, K !! c' = Some k' → i ∈ pages h k' → arc (ca a' c') i = arc (ca a c') i) as E.
  { intros c' k' i Hk' Hi. destruct (decide (c' = c)) as [->|Hne]; [|by rewrite O]. apply Hr. intros ->. assert (k' = k) as -> by congruence.
    by destruct (pages_named h k r Hhr (HK c k Hk) Hi). }
  split; intros H c' k' i Hty Hk' Hi; [rewrite <- (E c' k' i Hk' Hi)|rewrite (E c' k' i Hk' Hi)]; by apply (H c' k').
Qed.

Lemma inv_acquire ex a a' owned c k r :
  Inv ex a owned → K !! c = Some k → r ∈ afl (ca a c) → (∀ h, ex = Some h → h = r / k) → OnlyCache c a a' →
  (∀ i, i ∈ afl (ca a' c) ↔ i ∈ afl (ca a c) ∧ i ≠ r) → (∀ i, arc (ca a' c) i = if decide (i = r) then 1 else arc (ca a c) i) →
  (∀ i, i ≠ r → ahs (ca a' c) i = ahs (ca a c) i) → Consistent c k a' →
  Inv None a' ({[+ (c, r) +]} ⊎ owned).
Proof.
  intros HI Hk Hr Hex HO Hfl Hrc Hhs Hcons. pose proof HO as (T & F & O).
  destruct (proj1 (iv_fl _ _ _ HI c k r Hk) Hr) as (Hrr & Hty & Hnf & Hz). destruct (named_page k r (HK c k Hk) Hrr) as [Hhr Hpage]. split.
  - intros h _. rewrite F. destruct (decide (h = r / k)) as [->|Hne].
    + split; [done|]. intros [_ Hidle]. specialize (Hidle c k r). rewrite T in Hidle. rewrite Hrc, decide_True in Hidle by done. by discriminate Hidle.
    + rewrite (iv_fh _ _ _ HI h) by (intros E; apply Hne; by apply Hex). split; intros [Hh Hidle]; (split; [done|]);
        (eapply (idle_only c k r a a' h); [done|done| |done|done|done|done]); intros i Hi; by rewrite Hrc, decide_False.
  - done.
  - rewrite T. apply HI.
  - intros c' k' i Hk'. rewrite T, F. destruct (decide (c' = c)) as [->|Hne]; [|rewrite O by done; by apply HI].
    assert (k' = k) as -> by congruence. rewrite Hfl, Hrc, (iv_fl _ _ _ HI c k i Hk). case_decide as Hi; [subst i; split; [by intros [_ ?]|lia]|tauto].
  - intros c' k' i Hk' Hi. rewrite T. destruct (iv_rc _ _ _ HI c' k' i Hk' Hi) as [Hrf Hn']. destruct (decide (c' = c)) as [->|Hne].
    + assert (k' = k) as -> by congruence. rewrite Hrc. case_decide as Hir.
      * subst i. rewrite pool_refs_add. split; [lia|done].
      * rewrite pool_refs_add_ne, Hhs by congruence. done.
    + rewrite O, pool_refs_add_ne by congruence. done.
  - intros c' k' Hk'. destruct (decide (c' = c)) as [->|Hne]; [by assert (k' = k) as -> by congruence|].
    intros x i. rewrite O by done. by apply (iv_cons _ _ _ HI).
  - intros c' i. rewrite gmultiset_elem_of_disj_union, gmultiset_elem_of_singleton. intros [[= -> ->]|Ho]; [by exists k|by apply (iv_own _ _ _ HI)].
Qed.

Lemma inv_more ex a a' owned c k r :
  Inv ex a owned → K !! c = Some k → k ≤ r < k * n → 0 < arc (ca a c) r → OnlyCache c a a' → afl (ca a' c) = afl (ca a c) →
  (∀ i, arc (ca a' c) i = if decide (i = r) then arc (ca a c) r + 1 else arc (ca a c) i) →
  ahs (ca a' c) = ahs (ca a c) → apc (ca a' c) = apc (ca a c) → Inv ex a' ({[+ (c, r) +]} ⊎ owned).
Proof.
  intros HI Hk Hrr Hpos HO Hfl Hrc Hhs Hpc. pose proof HO as (T & F & O). pose proof (inv_used _ _ _ _ _ _ HI Hk Hrr Hpos) as Hty.
  assert (∀ c' i, arc (ca a' c') i = 0 ↔ arc (ca a c') i = 0) as Hzero.
  { intros c' i. destruct (decide (c' = c)) as [->|Hne]; [|by rewrite O]. rewrite Hrc. case_decide as Hi; [subst i; lia|done]. }
  assert (∀ h, idle h a' ↔ idle h a) as Hidle by (intros h; unfold idle; rewrite T; setoid_rewrite Hzero; done). split.
  - intros h Hh. rewrite F, Hidle. by apply HI.
  - intros h Hh. rewrite F, Hidle. by apply HI.
  - rewrite T. apply HI.
  - intros c' k' i Hk'. rewrite T, F, Hzero. destruct (decide (c' = c)) as [->|Hne]; [rewrite Hfl|rewrite O by done]; by apply HI.
  - intros c' k' i Hk' Hi. rewrite T. destruct (iv_rc _ _ _ HI c' k' i Hk' Hi) as [Hrf Hn']. destruct (decide (c' = c)) as [->|Hne].
    + assert (k' = k) as -> by congruence. rewrite Hrc, Hhs. case_decide as Hir.
      * subst i. rewrite pool_refs_add. split; [lia|done].
      * rewrite pool_refs_add_ne by congruence. done.
    + rewrite O, pool_refs_add_ne by congruence. done.
  - intros c' k' Hk' x i. destruct (decide (c' = c)) as [->|Hne]; [rewrite Hhs, Hpc|rewrite O by done]; by apply (iv_cons _ _ _ HI).
  - intros c' i. rewrite gmultiset_elem_of_disj_union, gmultiset_elem_of_singleton. intros [[= -> ->]|Ho]; [by exists k|by apply (iv_own _ _ _ HI)].
Qed.

Lemma inv_release a a' owned c k r :
  Inv None a ({[+ (c, r) +]} ⊎ owned) → K !! c = Some k → k ≤ r < k * n → OnlyCache c a a' →
  (∀ i, i ∈ afl (ca a' c) ↔ i ∈ afl (ca a c) ∨ i = r ∧ arc (ca a c) r = 1) →
  (∀ i, arc (ca a' c) i = if decide (i = r) then arc (ca a c) r - 1 else arc (ca a c) i) →
  ahs (ca a' c) = ahs (ca a c) → apc (ca a' c) = apc (ca a c) →
  (idle (r / k) a' → Inv (Some (r / k)) a' owned) ∧ (¬ idle (r / k) a' → Inv None a' owned).
Proof.
  intros HI Hk Hrr HO Hfl Hrc Hhs Hpc. pose proof HO as (T & F & O). destruct (named_page k r (HK c k Hk) Hrr) as [Hhr Hpage].
  destruct (iv_rc _ _ _ HI c k r Hk Hrr) as [Hrf _]. rewrite pool_refs_add in Hrf. pose proof (pool_refs_nonneg c r owned) as Hnn.
  pose proof (inv_used _ _ _ _ _ _ HI Hk Hrr ltac:(lia)) as Hty.
  assert (r / k ∉ fh a) as Hnf.
  { rewrite (iv_fh _ _ _ HI) by done. intros [_ Hidle]. rewrite (Hidle c k r) in Hrf by done. lia. }
  assert (∀ h, h ≠ r / k → h ∈ fh a' ↔ 1 ≤ h < n ∧ idle h a') as Hfh.
  { intros h Hne. rewrite F, (iv_fh _ _ _ HI h) by done. split; intros [Hh Hidle]; (split; [done|]);
      (eapply (idle_only c k r a a' h); [done|done| |done|done|done|done]); intros i Hi; by rewrite Hrc, decide_False. }
  assert (∀ ex, (∀ h, ex ≠ Some h → h ∈ fh a' ↔ 1 ≤ h < n ∧ idle h a') → (∀ h, ex = Some h → h ∉ fh a' ∧ 1 ≤ h < n ∧ idle h a') → Inv ex a' owned) as Hall.
  { intros ex H1 H2. split; [done|done|rewrite T; apply HI| | | |].
    - intros c' k' i Hk'. rewrite T, F. destruct (decide (c' = c)) as [->|Hne]; [|rewrite O by done; by apply HI].
      assert (k' = k) as -> by congruence. rewrite Hfl, Hrc, (iv_fl _ _ _ HI c k i Hk). case_decide as Hi; [subst i|naive_solver]. split.
      + intros [(_ & _ & _ & ?)|[_ ?]]; [lia|]. split_and!; [lia..|done|done|lia].
      + intros (_ & _ & _ & ?). right. split; [done|lia].
    - intros c' k' i Hk' Hi. rewrite T. destruct (iv_rc _ _ _ HI c' k' i Hk' Hi) as [Hrf' Hn']. destruct (decide (c' = c)) as [->|Hne].
      + assert (k' = k) as -> by congruence. rewrite Hrc, Hhs. case_decide as Hir; [subst i; split; [lia|done]|]. rewrite pool_refs_add_ne in Hrf' by congruence. done.
      + rewrite O by done. rewrite pool_refs_add_ne in Hrf' by congruence. done.
    - intros c' k' Hk' x i. destruct (decide (c' = c)) as [->|Hne]; [rewrite Hhs, Hpc|rewrite O by done]; by apply (iv_cons _ _ _ HI).
    - intros c' i Ho. apply (iv_own _ _ _ HI). apply gmultiset_elem_of_disj_union. by right. }
  split; intros Hidle; apply Hall.
  - intros h Hne. apply Hfh. congruence.
  - intros h [= <-]. rewrite F. done.
  - intros h _. destruct (decide (h = r / k)) as [->|Hne]; [|by apply Hfh]. rewrite F. tauto.
  - done.
Qed.

Lemma inv_park a a' owned h c k :
  Inv (Some h) a owned → ty a h = Some c → K !! c = Some k → ty a' = ty a → fh a' = fh a ++ [h] →
  (∀ c', c' ≠ c → ca a' c' = ca a c') → ca a' c = with_fl (filter (λ x, x ∉ pages h k) (afl (ca a c))) (ca a c) → Inv None a' owned.
Proof.
  intros HI Hty Hk T F O C. destruct (iv_ex _ _ _ HI h eq_refl) as (Hnf & Hhr & Hidle).
  assert (∀ c', arc (ca a' c') = arc (ca a c') ∧ ahs (ca a' c') = ahs (ca a c') ∧ apc (ca a' c') = apc (ca a c')) as Hsame.
  { intros c'. destruct (decide (c' = c)) as [->|Hne]; [by rewrite C|by rewrite O]. }
  assert (∀ h', idle h' a' ↔ idle h' a) as Hid.
  { intros h'. unfold idle. rewrite T. split; intros H' c' k' i ? ? ?; destruct (Hsame c') as [E _]; [rewrite <- E|rewrite E]; by apply (H' c' k'). } split.
  - intros h' _. rewrite F, elem_of_app, list_elem_of_singleton, Hid. destruct (decide (h' = h)) as [->|Hne]; [naive_solver|].
    rewrite (iv_fh _ _ _ HI h') by congruence. tauto.
  - done.
  - rewrite T. apply HI.
  - intros c' k' i Hk'. rewrite T, F, not_elem_of_app, list_elem_of_singleton. destruct (Hsame c') as [-> _]. pose proof (iv_fl _ _ _ HI c' k' i Hk') as Hfl.
    destruct (decide (c' = c)) as [->|Hne].
    + assert (k' = k) as -> by congruence. rewrite C. simpl. rewrite list_elem_of_filter, Hfl. split.
      * intros (Hni & Hi & ? & ? & ?). split_and!; try done; [lia..|]. intros E. apply Hni. rewrite <- E. by apply (page_of c).
      * intros (Hi & ? & [? Hne] & ?). split_and!; try done; [|lia..]. intros Hp. apply Hne. by destruct (pages_named h k i Hhr (HK c k Hk) Hp).
    + rewrite O by done. rewrite Hfl. split; [|naive_solver]. intros (Hi & Ht & ? & ?). split_and!; try done; [lia..|]. intros E. congruence.
  - intros c' k' i Hk' Hi. rewrite T. destruct (Hsame c') as (-> & -> & _). by apply (iv_rc _ _ _ HI).
  - intros c' k' Hk' x i. destruct (Hsame c') as (_ & -> & ->). by apply (iv_cons _ _ _ HI).
  - apply HI.
Qed.

(** *** Changing what is committed *)

Lemma inv_hashes ex a a' owned c k :
  Inv ex a owned → K !! c = Some k → OnlyCache c a a' → afl (ca a' c) = afl (ca a c) → arc (ca a' c) = arc (ca a c) → Consistent c k a' →
  (∀ i, k ≤ i < k * n → ty a (i / k) ≠ Some c → ahs (ca a' c) i = None) → Inv ex a' owned.
Proof.
  intros HI Hk (T & F & O) Hfl Hrc Hcons Hhs. assert (∀ c', afl (ca a' c') = afl (ca a c') ∧ arc (ca a' c') = arc (ca a c')) as Hsame.
  { intros c'. destruct (decide (c' = c)) as [->|Hne]; [done|by rewrite O]. }
  assert (∀ h', idle h' a' ↔ idle h' a) as Hid.
  { intros h'. unfold idle. rewrite T. split; intros H' c' k' i ? ? ?; destruct (Hsame c') as [_ E]; [rewrite <- E|rewrite E]; by apply (H' c' k'). } split.
  - intros h Hh. rewrite F, Hid. by apply HI.
  - intros h Hh. rewrite F, Hid. by apply HI.
  - rewrite T. apply HI.
  - intros c' k' i Hk'. rewrite T, F. destruct (Hsame c') as [-> ->]. by apply HI.
  - intros c' k' i Hk' Hi. rewrite T. destruct (Hsame c') as [_ ->]. destruct (iv_rc _ _ _ HI c' k' i Hk' Hi) as [Hrf Hn'].
    split; [done|]. intros Ht. destruct (Hn' Ht) as [? ?]. split; [done|].
    destruct (decide (c' = c)) as [->|Hne]; [assert (k' = k) as -> by congruence; by apply Hhs|by rewrite O].
  - intros c' k' Hk'. destruct (decide (c' = c)) as [->|Hne]; [by assert (k' = k) as -> by congruence|].
    intros x i. rewrite O by done. by apply (iv_cons _ _ _ HI).
  - apply HI.
Qed.

(** ** The operations *)

(** A pool in a valid state, with the references [owned] outside it *)
Record Pool (p : t) (a : abs) (owned : gmultiset (string * Z)) : Prop := {
  po_abs : Abs p a;
  po_inv : Inv None a owned
}.
(** Nothing is committed or evicted. *)
Definition SameHashes (a a' : abs) : Prop := ∀ c, (∀ i, ahs (ca a' c) i = ahs (ca a c) i) ∧ ∀ x, apc (ca a' c) !! x = apc (ca a c) !! x.
(** The pages in circulation of [c], and the parked huge blocks *)
Definition spare (c : string) (a : abs) : Z := len (afl (ca a c)).
Definition parked (a : abs) : Z := len (fh a).

Lemma same_hashes_refl a : SameHashes a a.
Proof. done. Qed.
Lemma same_hashes_trans a1 a2 a3 : SameHashes a1 a2 → SameHashes a2 a3 → SameHashes a1 a3.
Proof. intros H1 H2 c. destruct (H1 c) as [H3 H4], (H2 c) as [H5 H6]. split; intros; [by rewrite H5|by rewrite H6]. Qed.
Lemma same_hashes_consistent c k a a' : SameHashes a a' → Consistent c k a → Consistent c k a'.
Proof. intros HS HC x i. destruct (HS c) as [H1 H2]. by rewrite H1, H2. Qed.

Lemma abs_fl_nodup p a c k : Abs p a → K !! c = Some k → NoDup (afl (ca a c)).
Proof. intros HA Hk. destruct (abs_cache p a c k HA Hk) as (x & _ & HC). apply (FreeQueue.repr_nodup _ _ (cc_repr _ _ _ HC)). Qed.
Lemma abs_fh_nodup p a : Abs p a → NoDup (fh a).
Proof. intros HA. apply (FreeQueue.repr_nodup _ _ (ab_repr _ _ HA)). Qed.

Lemma zero_not_named k i : 0 < k → k ≤ i → bool_decide (i = 0) = false.
Proof. intros. apply bool_decide_eq_false_2. lia. Qed.

(** *** Handing a page out *)

Lemma take_run p a c k r l ex owned :
  Abs p a → Inv ex a owned → K !! c = Some k → afl (ca a c) = r :: l → (∀ h, ex = Some h → h = r / k) →
  ∃ p' a', (let! r := in_free c FreeQueue.popleft in uncommit_block c r;; on_block c r (λ b, set_ref_cnt (ref_cnt b + 1) b);; ret r) p
      = (Ok r, p') ∧
    Pool p' a' ({[+ (c, r) +]} ⊎ owned) ∧ OnlyCache c a a' ∧ afl (ca a' c) = l ∧ arc (ca a' c) r = 1 ∧ arc (ca a c) r = 0 ∧ k ≤ r < k * n ∧
    ∀ i, ahs (ca a' c) i = if decide (i = r) then None else ahs (ca a c) i.
Proof.
  intros HA HI Hk E Hex. assert (r ∈ afl (ca a c)) as Hr by (rewrite E; by left).
  destruct (proj1 (iv_fl _ _ _ HI c k r Hk) Hr) as (Hrr & Hty & Hnf & Hz).
  destruct (free_pop_run p a c k r l HA Hk E) as (p1 & E1 & HA1).
  destruct (pool_uncommit_run p1 _ c k r HA1 Hk Hrr) as (p2 & a2 & E2 & HA2 & [T2 F2 O2 L2 R2 H2 P2]).
  { intros x i. rewrite ca_set. by apply (iv_cons _ _ _ HI). }
  rewrite ca_set in *. simpl in *.
  destruct (set_rc_run p2 a2 c k r 1 (λ b, ref_cnt b + 1) HA2 Hk) as (p3 & E3 & HA3).
  { intros b ->. by rewrite R2, Hz. }
  assert (OnlyCache c a (set_ca c (with_rc r 1 (ca a2 c)) a2)) as HO.
  { split_and!; try done. intros c' Hne. rewrite ca_set_ne, O2 by done. by rewrite upd_ne. }
  assert (∀ i, ahs (ca (set_ca c (with_rc r 1 (ca a2 c)) a2) c) i = if decide (i = r) then None else ahs (ca a c) i) as Hh.
  { intros i. rewrite ca_set. simpl. rewrite H2. apply decide_ext. apply list_elem_of_singleton. }
  exists p3, (set_ca c (with_rc r 1 (ca a2 c)) a2). split; [|split; [split; [done|]|]].
  - by rewrite (bind_run _ _ _ _ _ E1), (bind_run _ _ _ _ _ E2), (bind_run _ _ _ _ _ E3).
  - apply inv_acquire with ex a k; try done.
    + intros i. rewrite ca_set. simpl. rewrite L2. pose proof (abs_fl_nodup p a c k HA Hk) as Hnd. rewrite E in Hnd |- *.
      apply NoDup_cons in Hnd as [Hnd _]. rewrite elem_of_cons. split; [|tauto]. intros Hi. split; [by right|]. by intros ->.
    + intros i. rewrite ca_set. simpl. rewrite R2. unfold upd. case_decide as Hi; [done|]. done.
    + intros i Hi. rewrite Hh. by rewrite decide_False.
    + intros x i. rewrite Hh, ca_set. simpl. rewrite P2, list_elem_of_singleton, (iv_cons _ _ _ HI c k Hk x i). case_decide; naive_solver.
  - rewrite ca_set. simpl. rewrite upd_eq, L2. split_and!; try done; [lia..|]. by rewrite ca_set in Hh.
Qed.

(** Where the page that [alloc_block] hands out comes from *)
Record Taken (c : string) (k : Z) (a a' : abs) : Prop := {
  tk_spare c' : c' ≠ c → spare c' a' = spare c' a;
  tk_supply : (0 < spare c a ∧ spare c a' = spare c a - 1 ∧ parked a' = parked a) ∨
    (spare c a = 0 ∧ spare c a' = k - 1 ∧ parked a' = parked a - 1)
}.

(** The first parked huge block goes to the cache that ran out of pages. *)
Lemma grow_run p a owned c k h lh : Pool p a owned → K !! c = Some k → fh a = h :: lh →
  ∃ p' a', (let! h := in_huge FreeQueue.popleft in _claim_huge_block h c) p = (Ok tt, p') ∧ Abs p' a' ∧
    Claimable h c k a ∧ Claimed h c k a a' ∧ Inv (Some h) a' owned.
Proof.
  intros [HA HI] Hk Eh. assert (h ∈ fh a) as Hh by (rewrite Eh; by left). pose proof (inv_claimable a owned h c k HI Hh Hk) as HCl.
  destruct (huge_pop_run p a h lh HA Eh) as (p1 & E1 & HA1).
  destruct (pool_claim_run p1 (set_fh lh a) h c k HA1) as (p2 & a2 & E2 & HA2 & HCd); [by destruct HCl|].
  apply (claimed_pop h c k lh a a2 (abs_fh_nodup p a HA) Eh) in HCd.
  exists p2, a2. split; [by rewrite (bind_run _ _ _ _ _ E1)|]. split; [done|]. split; [done|]. split; [done|]. by apply (inv_claimed a a2 owned h c k).
Qed.

Lemma claimed_owned a a' owned h c k c' i : Inv None a owned → Claimable h c k a → Claimed h c k a a' → (c', i) ∈ owned → ahs (ca a' c') i = ahs (ca a c') i.
Proof.
  intros HI HCl HCd Hown. destruct (iv_own _ _ _ HI c' i Hown) as (k' & Hk' & Hi'). destruct (iv_rc _ _ _ HI c' k' i Hk' Hi') as [Hrc _].
  apply refs_owned in Hown. rewrite (cd_hs _ _ _ _ _ HCd). rewrite decide_False; [done|].
  intros (_ & Hty & k0 & Hk0 & Hin). assert (k0 = k') as -> by congruence. rewrite (cl_idle _ _ _ _ HCl c' k' i) in Hrc by done. lia.
Qed.

Lemma pool_alloc_run p a owned c k : Pool p a owned → K !! c = Some k →
  (spare c a = 0 ∧ parked a = 0 ∧ alloc_block c p = (Raise InsufficientBlocksError, p)) ∨
  ∃ r p' a', alloc_block c p = (Ok r, p') ∧ Pool p' a' ({[+ (c, r) +]} ⊎ owned) ∧ (c, r) ∉ owned ∧ k ≤ r < k * n ∧
    ahs (ca a' c) r = None ∧ (∀ c' i y, ahs (ca a' c') i = Some y → ahs (ca a c') i = Some y) ∧
    (∀ c' i, (c', i) ∈ owned → ahs (ca a' c') i = ahs (ca a c') i) ∧ Taken c k a a'.
Proof.
  intros [HA HI] Hk. pose proof (HK c k Hk) as Hkp. destruct (cache_of_run p a c k HA Hk) as (x & Ex & Hx & HC).
  unfold alloc_block. setoid_rewrite (bind_run _ _ _ _ _ Ex). rewrite (free_length p a c k x HA Hk Hx).
  assert (∀ r, k ≤ r < k * n → arc (ca a c) r = 0 → (c, r) ∉ owned) as Hfresh.
  { intros r Hr Hz. rewrite refs_owned. destruct (iv_rc _ _ _ HI c k r Hk Hr) as [<- _]. lia. }
  destruct (afl (ca a c)) as [|r l] eqn:E.
  - unfold when. simpl. rewrite bind_assoc. setoid_rewrite (bind_run _ _ _ _ _ (eq_refl : get p = (Ok p, p))). rewrite (free_huge_length p a HA).
    destruct (fh a) as [|h lh] eqn:Eh.
    + left. unfold spare, parked. rewrite E, Eh. done.
    + right. destruct (grow_run p a owned c k h lh (Build_Pool _ _ _ HA HI) Hk Eh) as (p2 & a2 & E2 & HA2 & HCl & HCd & HI2).
      rewrite (proj2 (Z.eqb_neq (len (h :: lh)) 0)) by (rewrite len_cons; pose proof (len_nonneg lh); lia).
      pose proof (cl_range _ _ _ _ HCl) as Hhr.
      assert (pages h k = h * k :: zrange (h * k + 1) (h * k + k)) as Ep by (apply zrange_cons; lia).
      pose proof (cd_fl _ _ _ _ _ HCd c) as Hfl. rewrite decide_True, E, Ep in Hfl by done.
      destruct (take_run p2 a2 c k (h * k) _ (Some h) owned HA2 HI2 Hk Hfl) as (p3 & a3 & E3 & HP3 & (T3 & F3 & O3) & Hfl3 & _ & Hz3 & Hr3 & Hh3).
      { intros h' [= <-]. rewrite Z.div_mul; lia. }
      exists (h * k), p3, a3. split; [|split; [done|split; [|split; [done|split; [|split; [|split]]]]]].
      * rewrite bind_assoc. setoid_rewrite (bind_run _ _ _ _ _ (eq_refl : raise_if false _ p = (Ok tt, p))).
        rewrite (bind_run _ _ _ _ _ E2). exact E3.
      * apply Hfresh; [done|]. by rewrite <- (cd_rc _ _ _ _ _ HCd).
      * by rewrite Hh3, decide_True.
      * intros c' i y. destruct (decide (c' = c)) as [->|Hne]; [rewrite Hh3; case_decide; [done|]|rewrite O3 by done]; rewrite (cd_hs _ _ _ _ _ HCd); by case_decide.
      * intros c' i Hown. rewrite <- (claimed_owned a a2 owned h c k c' i HI HCl HCd Hown).
        destruct (decide (c' = c)) as [->|Hne]; [|by rewrite O3]. rewrite Hh3, decide_False; [done|]. intros ->.
        apply refs_owned in Hown. destruct (iv_rc _ _ _ HI2 c k (h * k) Hk Hr3) as [Hrc _]. lia.
      * split; unfold spare, parked.
        -- intros c' Hne. rewrite O3 by done. rewrite (cd_fl _ _ _ _ _ HCd). by rewrite decide_False.
        -- right. rewrite E, Hfl3, F3, (cd_fh _ _ _ _ _ HCd), Eh. split_and!; [done|rewrite len_zrange; lia|].
           pose proof (abs_fh_nodup p a HA) as Hnd. rewrite Eh in Hnd. apply NoDup_cons in Hnd as [Hnd _].
           rewrite filter_cons_False by naive_solver. rewrite filter_id by (by intros y Hy ->). rewrite len_cons. lia.
  - right. rewrite (proj2 (Z.eqb_neq (len (r :: l)) 0)) by (rewrite len_cons; pose proof (len_nonneg l); lia).
    destruct (take_run p a c k r l None owned HA HI Hk E) as (p3 & a3 & E3 & HP3 & (T3 & F3 & O3) & Hfl3 & _ & Hz3 & Hr3 & Hh3); [done|].
    exists r, p3, a3. split; [exact E3|split; [done|split; [by apply Hfresh|split; [done|split; [by rewrite Hh3, decide_True|split; [|split]]]]]].
    + intros c' i y. destruct (decide (c' = c)) as [->|Hne]; [rewrite Hh3; by case_decide|by rewrite O3].
    + intros c' i Hown. destruct (decide (c' = c)) as [->|Hne]; [|by rewrite O3]. rewrite Hh3, decide_False; [done|]. intros ->. by apply Hfresh in Hown.
    + split; unfold spare, parked; [intros c' Hne; by rewrite O3|]. left. rewrite E, Hfl3, F3, len_cons. pose proof (len_nonneg l). lia.
Qed.

(** *** Taking a reference *)

Lemma only_hashes c a a' : OnlyCache c a a' → (∀ i, ahs (ca a' c) i = ahs (ca a c) i) → (∀ x, apc (ca a' c) !! x = apc (ca a c) !! x) → SameHashes a a'.
Proof. intros (_ & _ & O) H1 H2 c'. destruct (decide (c' = c)) as [->|Hne]; [done|by rewrite O]. Qed.

Lemma revive_run p a c k r ex owned :
  Abs p a → Inv ex a owned → K !! c = Some k → r ∈ afl (ca a c) → (∀ h, ex = Some h → h = r / k) →
  ∃ p' a', (in_free c (FreeQueue.remove r);; on_block c r (λ b, set_ref_cnt (ref_cnt b + 1) b)) p = (Ok tt, p') ∧
    Pool p' a' ({[+ (c, r) +]} ⊎ owned) ∧ SameHashes a a' ∧ ty a' = ty a.
Proof.
  intros HA HI Hk Hr Hex. destruct (proj1 (iv_fl _ _ _ HI c k r Hk) Hr) as (Hrr & Hty & Hnf & Hz).
  destruct (free_remove_run p a c k r HA Hk Hr) as (p1 & E1 & HA1).
  destruct (set_rc_run p1 _ c k r 1 (λ b, ref_cnt b + 1) HA1 Hk) as (p2 & E2 & HA2).
  { intros b ->. rewrite ca_set. simpl. by rewrite Hz. }
  rewrite ca_set in HA2. match type of HA2 with Abs _ ?x => set (a2 := x) in * end.
  assert (OnlyCache c a a2) as HO by (split_and!; try done; intros c' Hne; unfold a2; by rewrite !ca_set_ne).
  assert (SameHashes a a2) as HS by (apply (only_hashes c); [done|intros i; unfold a2; by rewrite ca_set..]).
  exists p2, a2. split; [by rewrite (bind_run _ _ _ _ _ E1)|]. split; [|done]. split; [done|].
  apply inv_acquire with ex a k; try done.
  - intros i. unfold a2. rewrite ca_set. simpl. rewrite list_elem_of_filter. tauto.
  - intros i. unfold a2. by rewrite ca_set.
  - intros i _. apply (HS c).
  - apply (same_hashes_consistent c k a); [done|]. by apply (iv_cons _ _ _ HI).
Qed.

Lemma claimed_own a a' h c k : ty a h = Some c → Claimed h c k a a' → SameHashes a a' ∧ ∀ h', ty a' h' = ty a h'.
Proof.
  intros Hty [T F L R H P]. assert (∀ c' i, ¬ evicted h c a c' i) as Hno by (intros c' i (Hne & E & _); congruence). split.
  - intros c'. split; [intros i; by rewrite H, decide_False|]. intros x. apply option_eq. intros i. rewrite P. split; [tauto|done].
  - intros h'. rewrite T. by case_decide as Hh; [subst|].
Qed.

Lemma pool_touch_run p a owned c k r :
  Pool p a owned → K !! c = Some k → k ≤ r < k * n → ty a (r / k) = Some c →
  ∃ p' a', touch c r p = (Ok tt, p') ∧ Pool p' a' ({[+ (c, r) +]} ⊎ owned) ∧ SameHashes a a' ∧ ∀ h, ty a' h = ty a h.
Proof.
  intros [HA HI] Hk Hr Hty. destruct (named_page k r (HK c k Hk) Hr) as [Hh Hpage].
  destruct (pool_block_run p a c k r HA Hk) as (b & Eb & _ & Ehb & _ & Erc & _); [by right|].
  destruct (pool_huge_run p a (r / k) HA Hh) as (hb & Eh & _ & Et & _ & Hin).
  unfold touch. setoid_rewrite (bind_run _ _ _ _ _ Eb). rewrite Ehb. setoid_rewrite (bind_run _ _ _ _ _ Eh).
  rewrite Et, bool_decide_eq_true_2 by done. setoid_rewrite (bind_run _ _ _ _ _ (eq_refl : py_assert true p = (Ok tt, p))). rewrite Erc.
  destruct (decide (arc (ca a c) r = 0)) as [Hz|Hz].
  - rewrite (proj2 (Z.eqb_eq _ 0)) by done. unfold when at 1. rewrite bind_assoc. setoid_rewrite (bind_run _ _ _ _ _ (eq_refl : get p = (Ok p, p))).
    rewrite Hin, bind_assoc. destruct (decide (r / k ∈ fh a)) as [Hf|Hf].
    + rewrite bool_decide_eq_true_2 by done. destruct (pool_claim_run p a (r / k) c k HA) as (p1 & a1 & E1 & HA1 & HCd); [by apply (inv_claimable a owned)|].
      pose proof (inv_claimed a a1 owned (r / k) c k HI Hf Hk HCd) as HI1. destruct (claimed_own a a1 (r / k) c k Hty HCd) as [HS1 HT1].
      destruct (revive_run p1 a1 c k r (Some (r / k)) owned HA1 HI1 Hk) as (p2 & a2 & E2 & HP2 & HS2 & HT2); [|by intros h [= <-]|].
      { rewrite (cd_fl _ _ _ _ _ HCd). rewrite decide_True by done. apply elem_of_app. by right. }
      exists p2, a2. split; [unfold when; rewrite (bind_run _ _ _ _ _ E1); exact E2|]. split; [done|].
      split; [by apply (same_hashes_trans a a1)|]. by rewrite HT2.
    + rewrite bool_decide_eq_false_2 by done. destruct (revive_run p a c k r None owned HA HI Hk) as (p2 & a2 & E2 & HP2 & HS2 & HT2); [|done|].
      { apply (iv_fl _ _ _ HI c k r Hk). done. }
      exists p2, a2. split; [exact E2|]. split; [done|]. split; [done|]. by rewrite HT2.
  - rewrite (proj2 (Z.eqb_neq _ 0)) by done. setoid_rewrite (bind_run _ _ _ _ _ (eq_refl : when false _ p = (Ok tt, p))).
    destruct (iv_rc _ _ _ HI c k r Hk Hr) as [Hrf _]. pose proof (pool_refs_nonneg c r owned).
    destruct (set_rc_run p a c k r (arc (ca a c) r + 1) (λ b, ref_cnt b + 1) HA Hk) as (p1 & E1 & HA1); [by intros b' ->|].
    match type of HA1 with Abs _ ?x => set (a1 := x) in * end.
    assert (OnlyCache c a a1) as HO by (split_and!; try done; intros c' Hne; unfold a1; by rewrite ca_set_ne).
    assert (SameHashes a a1) as HS by (apply (only_hashes c); [done|intros i; unfold a1; by rewrite ca_set..]).
    exists p1, a1. split; [exact E1|]. split; [|done]. split; [done|].
    apply inv_more with a k; try done; [lia|unfold a1; rewrite ca_set..]; done.
Qed.

(** *** Giving a reference back *)

Lemma free_null p a c k : Abs p a → K !! c = Some k → free_block c 0 p = (Ok tt, p).
Proof.
  intros HA Hk. destruct (pool_block_run p a c k 0 HA Hk) as (b & Eb & _ & _ & En & _); [by left|].
  unfold free_block. setoid_rewrite (bind_run _ _ _ _ _ Eb). by rewrite En.
Qed.

(** The last reference to a page of an idle huge block parks the huge block. *)
Lemma park_run p a owned c k h hb :
  Abs p a → Inv (Some h) a owned → K !! c = Some k → ty a h = Some c → little_block_type hb = ty a h →
  (∀ c k, K !! c = Some k → little_blocks hb !! c = Some (pages h k)) →
  ∃ p' a', (py_assert (bool_decide (little_block_type hb = Some c));;
    let! l := of_option KeyError (little_blocks hb !! c) in
    for_each l (λ r, in_free c (FreeQueue.remove r));; in_huge (FreeQueue.append h)) p = (Ok tt, p') ∧
    Pool p' a' owned ∧ SameHashes a a' ∧ ty a' = ty a.
Proof.
  intros HA HI Hk Hty Et Hl. destruct (iv_ex _ _ _ HI h eq_refl) as (Hnf & Hhr & Hidle).
  rewrite Et, bool_decide_eq_true_2 by done. setoid_rewrite (bind_run _ _ _ _ _ (eq_refl : py_assert true p = (Ok tt, p))). rewrite (Hl c k Hk).
  setoid_rewrite (bind_run _ _ _ _ _ (eq_refl : of_option KeyError (Some _) p = (Ok _, p))).
  destruct (remove_loop p a c k (pages h k) HA Hk) as (p1 & a1 & E1 & HA1 & T1 & F1 & O1 & C1); [|apply NoDup_zrange|].
  { intros i Hi. destruct (pages_named h k i Hhr (HK c k Hk) Hi) as [Hi' E]. apply (iv_fl _ _ _ HI c k i Hk). rewrite E.
    split_and!; [lia..|done|done|]. by apply (Hidle c k). }
  destruct (huge_append_run p1 a1 h HA1) as (p2 & E2 & HA2); [by rewrite F1|lia|].
  exists p2, (set_fh (fh a1 ++ [h]) a1). split; [rewrite (bind_run _ _ _ _ _ E1); exact E2|]. split; [|split; [|done]].
  - split; [done|]. apply inv_park with a h c k; try done. simpl. by rewrite F1.
  - intros c'. simpl. destruct (decide (c' = c)) as [->|Hne]; [by rewrite C1|by rewrite O1].
Qed.

Lemma count_idle a c k h : K !! c = Some k → ty a h = Some c → (∀ i, i ∈ pages h k → 0 ≤ arc (ca a c) i) →
  zsum (map (arc (ca a c)) (pages h k)) = 0 ↔ idle h a.
Proof.
  intros Hk Hty Hpos. rewrite zsum_zero by done. unfold idle. rewrite Hty. split; [intros H c' k' i [= <-] Hk' Hi|intros H i Hi; by apply (H c k)].
  assert (k' = k) as -> by congruence. by apply H.
Qed.

Lemma free_run p a owned c k r :
  Pool p a ({[+ (c, r) +]} ⊎ owned) → K !! c = Some k →
  ∃ p' a', free_block c r p = (Ok tt, p') ∧ Pool p' a' owned ∧ SameHashes a a' ∧ ty a' = ty a.
Proof.
  intros [HA HI] Hk. assert (k ≤ r < k * n) as Hr.
  { destruct (iv_own _ _ _ HI c r) as (k' & Hk' & Hr); [|by assert (k' = k) as -> by congruence].
    apply gmultiset_elem_of_disj_union. left. by apply gmultiset_elem_of_singleton. }
  pose proof (HK c k Hk) as Hkp. destruct (named_page k r Hkp Hr) as [Hh Hpage].
  destruct (iv_rc _ _ _ HI c k r Hk Hr) as [Hrf _]. rewrite pool_refs_add in Hrf. pose proof (pool_refs_nonneg c r owned) as Hnn.
  pose proof (inv_used _ _ _ _ _ _ HI Hk Hr ltac:(lia)) as Hty.
  destruct (pool_block_run p a c k r HA Hk) as (b & Eb & _ & _ & Enul & _); [by right|].
  unfold free_block. setoid_rewrite (bind_run _ _ _ _ _ Eb). rewrite Enul, (zero_not_named k r) by lia.
  destruct (set_rc_run p a c k r (arc (ca a c) r - 1) (λ b, ref_cnt b - 1) HA Hk) as (p1 & E1 & HA1); [by intros b' ->|].
  setoid_rewrite (bind_run _ _ _ _ _ E1). match type of HA1 with Abs _ ?x => set (a1 := x) in * end.
  destruct (pool_block_run p1 a1 c k r HA1 Hk) as (b1 & Eb1 & _ & Ehb & _ & Erc & _); [by right|].
  setoid_rewrite (bind_run _ _ _ _ _ Eb1).
  assert (ref_cnt b1 = arc (ca a c) r - 1) as Ec by (rewrite Erc; unfold a1; rewrite ca_set; simpl; by rewrite upd_eq).
  rewrite Ec, (proj2 (Z.leb_le 0 _)) by lia. setoid_rewrite (bind_run _ _ _ _ _ (eq_refl : py_assert true p1 = (Ok tt, p1))).
  assert (OnlyCache c a a1) as HO1 by (split_and!; try done; intros c' Hne; unfold a1; by rewrite ca_set_ne).
  assert (SameHashes a a1) as HS1 by (apply (only_hashes c); [done|intros i; unfold a1; by rewrite ca_set..]).
  destruct (decide (arc (ca a c) r = 1)) as [Hz|Hz].
  - rewrite (proj2 (Z.eqb_eq _ 0)) by lia. unfold when at 1.
    destruct (free_append_run p1 a1 c k r HA1 Hk) as (p2 & E2 & HA2); [|by right|].
    { unfold a1. rewrite ca_set. simpl. rewrite (iv_fl _ _ _ HI c k r Hk). lia. }
    rewrite (bind_run _ _ _ _ _ E2). match type of HA2 with Abs _ ?x => set (a2 := x) in * end.
    assert (ca a2 c = with_fl (afl (ca a c) ++ [r]) (ca a1 c)) as Ea2 by (unfold a2; rewrite ca_set; unfold a1; by rewrite ca_set).
    assert (OnlyCache c a a2) as HO2 by (split_and!; try done; intros c' Hne; unfold a2; rewrite ca_set_ne by done; by apply HO1).
    assert (SameHashes a a2) as HS2 by (apply (only_hashes c); [done|intros i; rewrite Ea2; apply (HS1 c)..]).
    assert (arc (ca a2 c) = arc (ca a1 c)) as Erc2 by (by rewrite Ea2).
    destruct (inv_release a a2 owned c k r HI Hk Hr HO2) as [Hidle Hbusy].
    { intros i. rewrite Ea2. simpl. rewrite elem_of_app, list_elem_of_singleton. naive_solver. }
    { intros i. rewrite Erc2. unfold a1. rewrite ca_set. done. }
    { rewrite Ea2. unfold a1. by rewrite ca_set. }
    { rewrite Ea2. unfold a1. by rewrite ca_set. }
    destruct (pool_huge_run p2 a2 (r / k) HA2 Hh) as (hb & Eh & _ & Et & Hl & _). rewrite Ehb. setoid_rewrite (bind_run _ _ _ _ _ Eh).
    pose proof (huge_ref_run p2 a2 (r / k) hb HA2 Hh) as Er. change (ty a2) with (ty a) in *. rewrite Hty, Hk in Er.
    rewrite (bind_run _ _ _ _ _ (Er (λ c' Ec', ltac:(injection Ec' as <-; by exists k)) (eq_trans Et Hty) Hl)). clear Er.
    assert (zsum (map (arc (ca a2 c)) (pages (r / k) k)) = 0 ↔ idle (r / k) a2) as Hsum.
    { apply count_idle; [done|done|]. intros i Hi. destruct (pages_named (r / k) k i Hh Hkp Hi) as [Hi' _]. rewrite Erc2. unfold a1. rewrite ca_set. simpl.
      destruct (decide (i = r)) as [->|Hne]; [rewrite upd_eq; lia|rewrite upd_ne by done]. destruct (iv_rc _ _ _ HI c k i Hk Hi') as [-> _]. apply pool_refs_nonneg. }
    destruct (decide (zsum (map (arc (ca a2 c)) (pages (r / k) k)) = 0)) as [Hs|Hs].
    + rewrite (proj2 (Z.eqb_eq _ 0)) by done. apply Hsum in Hs.
      destruct (park_run p2 a2 owned c k (r / k) hb HA2 (Hidle Hs) Hk Hty Et Hl) as (p3 & a3 & E3 & HP3 & HS3 & HT3).
      exists p3, a3. split; [exact E3|]. split; [done|]. split; [by apply (same_hashes_trans a a2)|]. by rewrite HT3.
    + rewrite (proj2 (Z.eqb_neq _ 0)) by done. exists p2, a2. split; [done|]. split; [|done]. split; [done|]. apply Hbusy. by rewrite <- Hsum.
  - rewrite (proj2 (Z.eqb_neq _ 0)) by lia. exists p1, a1. split; [done|]. split; [|done]. split; [done|].
    destruct (inv_release a a1 owned c k r HI Hk Hr HO1) as [_ Hbusy].
    { intros i. unfold a1. rewrite ca_set. simpl. naive_solver. }
    { intros i. unfold a1. by rewrite ca_set. }
    { unfold a1. by rewrite ca_set. }
    { unfold a1. by rewrite ca_set. }
    apply Hbusy. intros Hidle. specialize (Hidle c k r Hty Hk Hpage). unfold a1 in Hidle. rewrite ca_set in Hidle. simpl in Hidle. rewrite upd_eq in Hidle. lia.
Qed.

(** *** Publishing a page *)

Record Committed (c : string) (r : Z) (x : bytes) (a a' : abs) : Prop := {
  cm_only : OnlyCache c a a';
  cm_same : afl (ca a' c) = afl (ca a c) ∧ arc (ca a' c) = arc (ca a c);
  cm_hs i : ahs (ca a' c) i = if decide (i = r) then Some x else ahs (ca a c) i;
  cm_pc y : apc (ca a' c) !! y = if decide (y = x) then Some r else apc (ca a c) !! y
}.

Lemma pool_commit_run p a owned c k r x :
  Pool p a owned → K !! c = Some k → k ≤ r < k * n → ty a (r / k) = Some c → ahs (ca a c) r = None → apc (ca a c) !! x = None →
  ∃ p' a', commit_into_prefix_cache x c r p = (Ok tt, p') ∧ Pool p' a' owned ∧ Committed c r x a a'.
Proof.
  intros [HA HI] Hk Hr Hty Hh Hx. pose proof (HK c k Hk) as Hkp.
  destruct (pool_block_run p a c k r HA Hk) as (b & Eb & _ & _ & Enul & _ & Ehs); [by right|].
  unfold commit_into_prefix_cache. mstep Eb. rewrite Enul, (zero_not_named k r), Ehs, Hh by lia.
  mstep (eq_refl : py_assert true p = (Ok tt, p)). rewrite bool_decide_eq_true_2 by done. mstep (eq_refl : py_assert true p = (Ok tt, p)).
  destruct (cache_of_run p a c k HA Hk) as (y & Ey & _ & HC). mstep Ey. rewrite (cc_prefix _ _ _ HC), Hx, bool_decide_eq_true_2 by done.
  mstep (eq_refl : py_assert true p = (Ok tt, p)).
  destruct (set_pc_run p a c k (insert x r) HA Hk) as (p1 & E1 & HA1). mstep E1.
  destruct (set_hs_run p1 _ c k r (Some x) HA1 Hk) as (p2 & E2 & HA2). rewrite E2. rewrite ca_set in HA2.
  match type of HA2 with Abs _ ?x => set (a2 := x) in * end.
  assert (Committed c r x a a2) as HCm.
  { split; [split_and!; try done; intros c' Hne; unfold a2; by rewrite !ca_set_ne|unfold a2; by rewrite ca_set|unfold a2; by rewrite ca_set|].
    intros z. unfold a2. rewrite ca_set. simpl. destruct (decide (z = x)) as [->|Hz]; [apply lookup_insert_eq|by apply lookup_insert_ne]. }
  exists p2, a2. split; [done|]. split; [|done]. split; [done|]. destruct HCm as [HO [Hfl Hrc] Hhs Hpc].
  apply inv_hashes with a c k; try done.
  - intros z i. rewrite Hpc, Hhs. pose proof (iv_cons _ _ _ HI c k Hk) as Hcons.
    destruct (decide (z = x)) as [->|Hz], (decide (i = r)) as [->|Hi]; [naive_solver| | |by apply Hcons].
    + split; [congruence|]. intros [Hi' Hs]. assert (apc (ca a c) !! x = Some i) by (by apply Hcons). congruence.
    + split; [|intros [_ [= ->]]; done]. intros [_ Hs]%Hcons. congruence.
  - intros i Hi Hne. rewrite Hhs. rewrite decide_False by congruence. by apply (iv_rc _ _ _ HI c k i Hk Hi).
Qed.

(** The page the request keeps serves the hash: its own, or the page that already
    served it, whose reference replaces the one given back. *)
Lemma get_or_commit_run p a owned c k r x :
  Pool p a ({[+ (c, r) +]} ⊎ owned) → K !! c = Some k → ahs (ca a c) r = None ∨ apc (ca a c) !! x = Some r →
  ∃ o p' a', get_or_commit_into_prefix_cache x c r p = (Ok o, p') ∧
    Pool p' a' ({[+ (c, default r o) +]} ⊎ owned) ∧ (∀ r', o = Some r' → apc (ca a c) !! x = Some r') ∧
    (SameHashes a a' ∧ apc (ca a c) !! x = Some (default r o) ∨ apc (ca a c) !! x = None ∧ o = None ∧ Committed c r x a a').
Proof.
  intros HP Hk Hor. pose proof HP as [HA HI]. assert (k ≤ r < k * n) as Hr.
  { destruct (iv_own _ _ _ HI c r) as (k' & Hk' & Hr); [|by assert (k' = k) as -> by congruence].
    apply gmultiset_elem_of_disj_union. left. by apply gmultiset_elem_of_singleton. }
  pose proof (HK c k Hk) as Hkp. destruct (iv_rc _ _ _ HI c k r Hk Hr) as [Hrf _]. rewrite pool_refs_add in Hrf. pose proof (pool_refs_nonneg c r owned).
  pose proof (inv_used _ _ _ _ _ _ HI Hk Hr ltac:(lia)) as Hty.
  destruct (pool_block_run p a c k r HA Hk) as (b & Eb & Eid & _ & Enul & _); [by right|].
  unfold get_or_commit_into_prefix_cache. mstep Eb. rewrite Enul, (zero_not_named k r) by lia. mstep (eq_refl : py_assert true p = (Ok tt, p)).
  destruct (cache_of_run p a c k HA Hk) as (y & Ey & _ & HC). mstep Ey. rewrite (cc_prefix _ _ _ HC).
  destruct (apc (ca a c) !! x) as [r'|] eqn:Ex.
  - destruct (proj1 (iv_cons _ _ _ HI c k Hk x r') Ex) as [Hr' Hs'].
    destruct (pool_block_run p a c k r' HA Hk) as (b' & Eb' & Eid' & _); [by right|]. mstep Eb'. rewrite Eid, Eid'.
    destruct (decide (r = r')) as [->|Hne].
    + rewrite Z.eqb_refl. exists None, p, a. split_and!; [done|done|done|]. by left.
    + rewrite (proj2 (Z.eqb_neq _ _)) by done. destruct Hor as [Hnone|]; [|congruence].
      destruct (pool_touch_run p a _ c k r' HP Hk Hr') as (p1 & a1 & E1 & HP1 & HS1 & _); [by eapply inv_committed|]. mstep E1.
      destruct (pool_block_run p1 a1 c k r (po_abs _ _ _ HP1) Hk) as (b1 & Eb1 & _ & _ & _ & _ & Ehs1); [by right|]. mstep Eb1.
      rewrite Ehs1. rewrite (proj1 (HS1 c)), Hnone. rewrite bool_decide_eq_true_2 by done. mstep (eq_refl : py_assert true p1 = (Ok tt, p1)).
      replace ({[+ (c, r') +]} ⊎ ({[+ (c, r) +]} ⊎ owned)) with ({[+ (c, r) +]} ⊎ ({[+ (c, r') +]} ⊎ owned)) in HP1 by multiset_solver.
      destruct (free_run p1 a1 _ c k r HP1 Hk) as (p2 & a2 & E2 & HP2 & HS2 & _). mstep E2.
      exists (Some r'), p2, a2. split_and!; [done|done|by intros ? [= <-]|]. left. split; [by apply (same_hashes_trans a a1)|done].
  - destruct Hor as [Hnone|]; [|done]. destruct (pool_commit_run p a _ c k r x HP Hk Hr Hty Hnone Ex) as (p1 & a1 & E1 & HP1 & HC1). mstep E1.
    exists None, p1, a1. split_and!; [done|done|done|]. by right.
Qed.

(** *** Counting *)

Lemma num_free_run p a owned c k : Pool p a owned → K !! c = Some k → num_free_blocks c p = (Ok (parked a * k + spare c a), p).
Proof.
  intros [HA HI] Hk. destruct (cache_of_run p a c k HA Hk) as (x & Ex & Hx & HC). unfold num_free_blocks. mstep Ex.
  mstep (eq_refl : get p = (Ok p, p)). rewrite (free_huge_length p a HA), (free_length p a c k x HA Hk Hx), (cc_ratio _ _ _ HC). done.
Qed.

(** *** Dropping the commits of unreferenced pages *)

Definition unreferenced (ac : acache) : list bytes := (filter (λ hr : bytes * Z, arc ac hr.2 = 0) (map_to_list (apc ac))).*1.

Lemma unreferenced_run p a c k l acc :
  Abs p a → K !! c = Some k → (∀ h r, (h, r) ∈ l → named k r) →
  for_fold l acc (λ acc '(h, r), let! b := block c r in ret (if ref_cnt b =? 0 then acc ++ [h] else acc)) p =
    (Ok (acc ++ (filter (λ hr : bytes * Z, arc (ca a c) hr.2 = 0) l).*1), p).
Proof.
  intros HA Hk. revert acc. induction l as [|[h r] l IH]; intros acc Hl; [simpl; by rewrite app_nil_r|].
  destruct (pool_block_run p a c k r HA Hk) as (b & Eb & _ & _ & _ & Erc & _); [apply (Hl h); by left|].
  cbn [for_fold]. unfold bind at 1. rewrite (bind_run _ _ _ _ _ Eb). unfold ret at 1. rewrite IH by (intros; eapply Hl; by right).
  rewrite Erc. destruct (decide (arc (ca a c) r = 0)) as [Hz|Hz].
  - rewrite filter_cons_True, (proj2 (Z.eqb_eq _ _)) by done. simpl. by rewrite <- app_assoc.
  - rewrite filter_cons_False, (proj2 (Z.eqb_neq _ _)) by done. done.
Qed.

Record Dropped (c : string) (k : Z) (l : list bytes) (a a' : abs) : Prop := {
  dr_only : OnlyCache c a a';
  dr_same : afl (ca a' c) = afl (ca a c) ∧ arc (ca a' c) = arc (ca a c);
  dr_hs i x : ahs (ca a' c) i = Some x → ahs (ca a c) i = Some x;
  dr_pc x : apc (ca a' c) !! x = if decide (x ∈ l) then None else apc (ca a c) !! x;
  dr_cons : Consistent c k a'
}.

Lemma pool_drop_run p a c k l :
  Abs p a → K !! c = Some k → Consistent c k a → NoDup l → (∀ x, x ∈ l → is_Some (apc (ca a c) !! x)) →
  ∃ p' a', for_each l (λ h, let! x := cache_of c in let! r := of_option KeyError (prefix x !! h) in
      on_cache c (λ x, set_prefix (delete h (prefix x)) x);; on_block c r (set_hash None)) p = (Ok tt, p') ∧
    Abs p' a' ∧ Dropped c k l a a'.
Proof.
  revert p a. induction l as [|x l IH]; intros p a HA Hk HC Hnd Hl.
  - exists p, a. split; [done|]. split; [done|]. by split.
  - apply NoDup_cons in Hnd as [Hx Hnd]. destruct (Hl x (list_elem_of_here _ _)) as [r Hr].
    destruct (cache_of_run p a c k HA Hk) as (y & Ey & _ & HCy).
    destruct (set_pc_run p a c k (delete x) HA Hk) as (p1 & E1 & HA1).
    destruct (set_hs_run p1 _ c k r None HA1 Hk) as (p2 & E2 & HA2). rewrite ca_set in HA2.
    match type of HA2 with Abs _ ?x => set (a2 := x) in * end.
    assert (ca a2 c = with_hs r None (with_pc (delete x (apc (ca a c))) (ca a c))) as Ea2 by (unfold a2; by rewrite ca_set).
    assert (OnlyCache c a a2) as [T2 [F2 O2]] by (split_and!; try done; intros c' Hne; unfold a2; by rewrite !ca_set_ne).
    assert (Consistent c k a2) as HC2.
    { intros z i. rewrite Ea2. simpl. pose proof (HC z i) as Hz. pose proof (HC x r) as Hxr. unfold upd.
      destruct (decide (z = x)) as [->|Hne]; [rewrite lookup_delete_eq|rewrite lookup_delete_ne by done]; destruct (decide (i = r)) as [->|Hi]; naive_solver. }
    destruct (IH p2 a2 HA2 Hk HC2 Hnd) as (p3 & a3 & E3 & HA3 & [(T3 & F3 & O3) [L3 R3] H3 P3 C3]).
    { intros z Hz. rewrite Ea2. simpl. rewrite lookup_delete_ne by congruence. apply Hl. by right. }
    exists p3, a3. split; [|split; [done|split]].
    + cbn [for_each]. unfold bind at 1. rewrite (bind_run _ _ _ _ _ Ey), (cc_prefix _ _ _ HCy), Hr.
      mstep (eq_refl : of_option KeyError (Some r) p = (Ok r, p)). rewrite (bind_run _ _ _ _ _ E1), E2. exact E3.
    + split_and!; [congruence..|]. intros c' Hne. by rewrite O3, O2.
    + rewrite L3, R3, Ea2. done.
    + intros i z Hz%H3. rewrite Ea2 in Hz. simpl in Hz. unfold upd in Hz. by case_decide.
    + intros z. rewrite P3, Ea2. simpl. destruct (decide (z = x)) as [->|Hne].
      * rewrite lookup_delete_eq. rewrite (decide_True (P := x ∈ x :: l)) by left. by case_decide.
      * rewrite lookup_delete_ne by done. apply decide_ext. rewrite elem_of_cons. naive_solver.
    + done.
Qed.

(** What [reset_prefix_cache] leaves of the caches [cs] *)
Record Reset (cs : list string) (a a' : abs) : Prop := {
  rs_ty : ty a' = ty a;
  rs_fh : fh a' = fh a;
  rs_same c : afl (ca a' c) = afl (ca a c) ∧ arc (ca a' c) = arc (ca a c);
  rs_pc c x : apc (ca a' c) !! x = if decide (c ∈ cs ∧ x ∈ unreferenced (ca a c)) then None else apc (ca a c) !! x;
  rs_other c : c ∉ cs → ca a' c = ca a c
}.

Lemma unreferenced_spec ac x : x ∈ unreferenced ac ↔ ∃ r, apc ac !! x = Some r ∧ arc ac r = 0.
Proof.
  unfold unreferenced. rewrite list_elem_of_fmap. split.
  - intros ([y r] & -> & [Hz Hr]%list_elem_of_filter). apply elem_of_map_to_list in Hr. by exists r.
  - intros (r & Hr & Hz). exists (x, r). split; [done|]. apply list_elem_of_filter. split; [done|]. by apply elem_of_map_to_list.
Qed.
Lemma unreferenced_nodup ac : NoDup (unreferenced ac).
Proof.
  unfold unreferenced. eapply sublist_NoDup; [apply (NoDup_fst_map_to_list (apc ac))|]. apply fmap_sublist, sublist_filter.
Qed.

Lemma reset_loop l p a owned (m : gmap string Z) :
  Pool p a owned → NoDup l.*1 → (∀ c x, (c, x) ∈ l → is_Some (K !! c) ∧ prefix x = apc (ca a c)) →
  ∃ (m' : gmap string Z) p' a', for_fold l m (λ purged '(c, x),
      let! unreferenced := for_fold (map_to_list (prefix x)) [] (λ acc '(h, r),
        let! b := block c r in ret (if ref_cnt b =? 0 then acc ++ [h] else acc)) in
      for_each unreferenced (λ h, let! x := cache_of c in let! r := of_option KeyError (prefix x !! h) in
        on_cache c (λ x, set_prefix (delete h (prefix x)) x);; on_block c r (set_hash None));;
      ret (<[c := len unreferenced]> purged)) p = (Ok m', p') ∧
    Pool p' a' owned ∧ Reset l.*1 a a' ∧ ∀ c, m' !! c = if decide (c ∈ l.*1) then Some (len (unreferenced (ca a c))) else m !! c.
Proof.
  revert p a m. induction l as [|[c x] l IH]; intros p a m [HA HI] Hnd Hl.
  - exists m, p, a. split; [done|]. split; [done|]. split; [|done]. by split.
  - apply NoDup_cons in Hnd as [Hc Hnd]. destruct (Hl c x (list_elem_of_here _ _)) as [[k Hk] Hx].
    pose proof (iv_cons _ _ _ HI c k Hk) as HC.
    assert (∀ h r, (h, r) ∈ map_to_list (prefix x) → named k r) as Hnm.
    { intros h r Hr%elem_of_map_to_list. rewrite Hx in Hr. right. by apply HC in Hr as [? _]. }
    pose proof (unreferenced_run p a c k _ [] HA Hk Hnm) as Eu. rewrite app_nil_l, Hx in Eu. fold (unreferenced (ca a c)) in Eu.
    destruct (pool_drop_run p a c k (unreferenced (ca a c)) HA Hk HC (unreferenced_nodup _)) as (p1 & a1 & E1 & HA1 & [HO [L1 R1] H1 P1 C1]).
    { intros y Hy. apply unreferenced_spec in Hy as (r & Hr & _). by exists r. }
    pose proof HO as (T1 & F1 & O1).
    destruct (IH p1 a1 (<[c := len (unreferenced (ca a c))]> m)) as (m2 & p2 & a2 & E2 & HP2 & [T2 F2 S2 P2 N2] & M2); [|done| |].
    { split; [done|]. apply inv_hashes with a c k; try done. intros i Hi Hne. destruct (ahs (ca a1 c) i) as [y|] eqn:Ey; [|done].
      apply H1 in Ey. by rewrite (proj2 (proj2 (iv_rc _ _ _ HI c k i Hk Hi) Hne)) in Ey. }
    { intros c' x' Hin. destruct (Hl c' x' (list_elem_of_further _ _ _ Hin)) as [? Hx']. split; [done|]. rewrite O1; [done|].
      intros ->. apply Hc. apply list_elem_of_fmap. by exists (c, x'). }
    exists m2, p2, a2. split; [|split; [done|split; [split|]]].
    + cbn [for_fold]. unfold bind at 1. rewrite (bind_run _ _ _ _ _ (eq_trans (f_equal (λ q, for_fold (map_to_list q) [] _ p) Hx) Eu)).
      rewrite (bind_run _ _ _ _ _ E1). exact E2.
    + congruence.
    + congruence.
    + intros c'. destruct (S2 c') as [-> ->]. destruct (decide (c' = c)) as [->|Hne]; [done|by rewrite O1].
    + intros c' y. rewrite P2. cbn [fmap list_fmap fst]. destruct (decide (c' = c)) as [->|Hne].
      * rewrite decide_False by tauto. rewrite P1. apply decide_ext. rewrite elem_of_cons. tauto.
      * rewrite O1 by done. apply decide_ext. rewrite elem_of_cons. tauto.
    + intros c' Hn'. cbn [fmap list_fmap fst] in Hn'. apply not_elem_of_cons in Hn' as [Hne Hn']. by rewrite N2, O1.
    + intros c'. rewrite M2. cbn [fmap list_fmap fst]. destruct (decide (c' = c)) as [->|Hne].
      * rewrite (decide_False (P := c ∈ l.*1)) by done. rewrite decide_True by left. apply lookup_insert_eq.
      * rewrite O1, lookup_insert_ne by done. apply decide_ext. rewrite elem_of_cons. tauto.
Qed.

Lemma pool_reset_run p a owned : Pool p a owned →
  ∃ m p' a', reset_prefix_cache p = (Ok m, p') ∧ Pool p' a' owned ∧ Reset (map_to_list K).*1 a a' ∧
    ∀ c k, K !! c = Some k → m !! c = Some (len (unreferenced (ca a c))).
Proof.
  intros HP. pose proof HP as [HA HI]. assert (∀ c, c ∈ (map_to_list (caches p)).*1 ↔ c ∈ (map_to_list K).*1) as Hdom.
  { intros c. rewrite !list_elem_of_fmap. pose proof (ab_cache _ _ HA c) as Hc. split; intros ([c' y] & -> & Hy%elem_of_map_to_list); simpl in *;
      rewrite Hy in Hc; [destruct (K !! c') eqn:E|destruct (caches p !! c') eqn:E]; try done; eexists (c', _); (split; [done|]); by apply elem_of_map_to_list. }
  destruct (reset_loop (map_to_list (caches p)) p a owned ∅ HP) as (m & p' & a' & E & HP' & [T F S P N] & M).
  - apply NoDup_fst_map_to_list.
  - intros c x Hx%elem_of_map_to_list. pose proof (ab_cache _ _ HA c) as Hc. rewrite Hx in Hc. destruct (K !! c) as [k|]; [|done].
    split; [done|]. apply (cc_prefix _ _ _ Hc).
  - exists m, p', a'. split; [exact E|]. split; [done|]. split; [split; try done|].
    + intros c x. rewrite P. apply decide_ext. by rewrite Hdom.
    + intros c Hc. apply N. by rewrite Hdom.
    + intros c k Hk. rewrite M, decide_True; [done|]. apply Hdom. apply list_elem_of_fmap. exists (c, k). split; [done|]. by apply elem_of_map_to_list.
Qed.

(** ** Construction *)

Lemma lookup_table {B} (f : Z → B) (lo hi i : Z) :
  list_to_map (M := gmap Z B) ((λ j, (j, f j)) <$> zrange lo hi) !! i = if decide (lo ≤ i < hi) then Some (f i) else None.
Proof.
  case_decide as Hi.
  - apply elem_of_list_to_map_1.
    + rewrite <- list_fmap_compose. rewrite list_fmap_id. apply NoDup_zrange.
    + apply list_elem_of_fmap. exists i. split; [done|]. by apply elem_of_zrange.
  - apply not_elem_of_list_to_map_1. rewrite <- list_fmap_compose, list_fmap_id. by rewrite elem_of_zrange.
Qed.

Definition empty_cache : acache := mk_acache [] (λ i, if decide (i = 0) then 42 else 0) (λ _, None) ∅.
Definition empty : abs := mk_abs (λ _, None) (zrange 1 n) (λ _, empty_cache).

Lemma init_cache_abs k : 0 < k → CacheAbs k (init_cache n k) empty_cache.
Proof.
  intros Hk. assert (∀ i, blocks (init_cache n k) !! i = if decide (i = 0) then Some LittleKVCacheBlock.null
    else if decide (k ≤ i < k * n) then Some (LittleKVCacheBlock.fresh i (i / k)) else None) as Hb.
  { intros i. unfold init_cache. simpl. destruct (decide (i = 0)) as [->|Hi]; [apply lookup_insert_eq|]. rewrite lookup_insert_ne by done.
    apply (lookup_table (λ i, LittleKVCacheBlock.fresh i (i / k))). }
  split; try done.
  - split; simpl; try done; [apply NoDup_nil_2| |].
    + split; [by intros [|] ? ? ?|]. intros r b Hr _. rewrite Hb in Hr. repeat case_decide; by simplify_eq.
    + intros r b Hr. rewrite Hb in Hr. repeat case_decide; by simplify_eq.
  - intros i. rewrite Hb. unfold named. destruct (decide (i = 0)) as [->|Hi].
    + split; [by left|]. done.
    + destruct (decide (k ≤ i < k * n)) as [Hr|Hr]; [|tauto]. split; [by right|]. simpl. rewrite bool_decide_eq_false_2, decide_False by done. done.
Qed.

Lemma empty_inv : Inv None empty ∅.
Proof.
  split; try done.
  - intros h _. simpl. rewrite elem_of_zrange. split; [|by intros [? _]]. intros Hh. split; [done|]. by intros c k i [=].
  - intros c k i Hk. simpl. split; [by intros ?%elem_of_nil|]. by intros (_ & [=] & _).
  - intros c k i Hk Hi. simpl. pose proof (HK c k Hk). rewrite decide_False by lia. done.
  - intros c k Hk x i. simpl. split; [by intros []%lookup_empty_Some|]. by intros [_ [=]].
  - intros c i Hi. by apply gmultiset_not_elem_of_empty in Hi.
Qed.

End Abs.

(** ** A new pool *)

Definition caches_of (cache_ratios : list (string * Z)) : gmap string Z := list_to_map cache_ratios.

Lemma pool_init_run n ratios p : init n ratios = Ok p →
  2 ≤ n ∧ (∀ c k, caches_of ratios !! c = Some k → 0 < k) ∧ Pool n (caches_of ratios) p (empty n) ∅.
Proof.
  unfold init. destruct (Z.ltb_spec n 2) as [|Hn]; [done|]. destruct (len ratios =? 0); [done|].
  destruct (existsb _ ratios) eqn:Ex; [done|]. intros [= <-].
  assert (∀ c k, caches_of ratios !! c = Some k → 0 < k) as HK.
  { intros c k Hk%elem_of_list_to_map_2. rewrite <- not_true_iff_false, existsb_exists in Ex.
    destruct (Z.leb_spec k 0) as [Hle|]; [|done]. destruct Ex. exists (c, k). split; [by apply list_elem_of_In|]. by apply Z.leb_le. }
  split; [done|]. split; [done|]. split; [|by apply empty_inv].
  set (K := caches_of ratios) in *.
  set (s0 := FreeQueue.mkst (list_to_map (M := gmap Z HugeKVCacheBlock.t) ((λ h, (h, init_huge K h)) <$> zrange 0 n)) FreeQueue.no_queue).
  assert (∀ h, FreeQueue.heap s0 !! h = if decide (0 ≤ h < n) then Some (init_huge K h) else None) as Hh by (intros h; apply lookup_table).
  destruct (FreeQueue.init_run s0 (zrange 1 n)) as (s & Es & Hp & HR).
  - apply NoDup_zrange.
  - intros h b Hb. rewrite Hh in Hb. case_decide; by simplify_eq.
  - intros h b Hb. rewrite Hh in Hb. case_decide; by simplify_eq.
  - intros h Hr%elem_of_zrange. rewrite Hh, decide_True by lia. by eexists.
  - change (list_to_map ratios) with K. fold s0. rewrite Es. destruct s as [hs q]. simpl in *. split; simpl; try done.
    + intros h. assert (erase <$> hs !! h = erase <$> FreeQueue.heap s0 !! h) as E
        by (rewrite <- !lookup_fmap; exact (f_equal (.!! h) Hp)).
      rewrite Hh in E. destruct (decide (0 ≤ h < n)) as [Hr|Hr], (hs !! h) as [b|]; try done. injection E as E1 E2 E3.
      rewrite E2, E3. split; [done|]. split; [done|]. intros H1 c k Hk. simpl. rewrite (proj2 (Z.eqb_neq h 0)) by lia.
      by rewrite lookup_fmap, Hk.
    + intros c. rewrite lookup_fmap. destruct (K !! c) as [k|] eqn:Hk; [|done]. simpl. apply init_cache_abs. by eapply HK.
Qed.

End JengaAbs.
