(* ===== verification/JengaProperties.v ===== *)
(** * What the Jenga pool guarantees

    Runs of the pool's operations, as its callers make them; the pages in use never
    share bytes, the reference counts are the references held, no call fails for
    another reason than a full pool, and the count of free pages is exact. *)

From S2P Require Import Prelude FreeQueue Jenga JengaFacts.

Module JengaPoolSpec.
Import HugeKVCacheBlock LittleKVCacheBlock JengaBlockPool JengaAbs.

(** ** Runs

    A caller holds a multiset of references; it returns one only if it holds it, and
    publishes a page only if it is uncommitted or already serves that hash. *)

Definition committed (p : t) (c : string) (x : bytes) (r : Z) : Prop :=
  ∃ y, caches p !! c = Some y ∧ prefix y !! x = Some r.

Definition state : Type := t * gmultiset (string * Z).

Inductive step : state → state → Prop :=
  | step_alloc c r p p' owned :
      alloc_block c p = (Ok r, p') → step (p, owned) (p', {[+ (c, r) +]} ⊎ owned)
  | step_touch c x r p p' owned :
      committed p c x r → touch c r p = (Ok tt, p') → step (p, owned) (p', {[+ (c, r) +]} ⊎ owned)
  | step_free c r p p' owned :
      free_block c r p = (Ok tt, p') → step (p, {[+ (c, r) +]} ⊎ owned) (p', owned)
  | step_commit c x r b o p p' owned :
      block c r p = (Ok b, p) → block_hash b = None ∨ committed p c x r →
      get_or_commit_into_prefix_cache x c r p = (Ok o, p') →
      step (p, {[+ (c, r) +]} ⊎ owned) (p', {[+ (c, default r o) +]} ⊎ owned)
  | step_reset m p p' owned :
      reset_prefix_cache p = (Ok m, p') → step (p, owned) (p', owned).

Definition reachable (n : Z) (ratios : list (string * Z)) (s : state) : Prop :=
  ∃ p0, init n ratios = Ok p0 ∧ rtc step (p0, ∅) s.

(** ** The invariant of the runs *)

Definition Good (n : Z) (K : gmap string Z) (s : state) : Prop := ∃ a, Pool n K s.1 a s.2.

Section Runs.
Context (n : Z) (K : gmap string Z).
Context (HK : ∀ c k, K !! c = Some k → 0 < k) (Hn : 2 ≤ n).
Implicit Types (p : t) (a : abs) (owned : gmultiset (string * Z)).

Lemma known_cache p a c x : Abs n K p a → caches p !! c = Some x → ∃ k, K !! c = Some k ∧ CacheAbs n k x (ca a c).
Proof. intros HA Hx. pose proof (ab_cache _ _ _ _ HA c) as Hc. rewrite Hx in Hc. destruct (K !! c) as [k|]; [by exists k|done]. Qed.

Lemma block_known p a c r b : Abs n K p a → block c r p = (Ok b, p) →
  ∃ k, K !! c = Some k ∧ named n k r ∧ block_hash b = ahs (ca a c) r ∧ ref_cnt b = arc (ca a c) r.
Proof.
  intros HA. unfold block, cache_of, bind, get. destruct (caches p !! c) as [x|] eqn:Hx; [|done]. simpl.
  destruct (blocks x !! r) as [b'|] eqn:Hb; [|done]. intros [= <-]. destruct (known_cache p a c x HA Hx) as (k & Hk & HC).
  exists k. pose proof (cc_blocks _ _ _ _ HC r) as Hr. rewrite Hb in Hr. naive_solver.
Qed.

Lemma committed_page p a owned c x r : Pool n K p a owned → committed p c x r →
  ∃ k, K !! c = Some k ∧ k ≤ r < k * n ∧ ahs (ca a c) r = Some x ∧ ty a (r / k) = Some c.
Proof.
  intros [HA HI] (y & Hy & Hx). destruct (known_cache p a c y HA Hy) as (k & Hk & HC).
  rewrite (cc_prefix _ _ _ _ HC) in Hx. destruct (proj1 (iv_cons _ _ _ _ _ HI c k Hk x r) Hx) as [Hr Hh]. exists k. split_and!; [done|lia..|done|].
  by eapply inv_committed.
Qed.

Lemma owned_page p a owned c r : Pool n K p a owned → (c, r) ∈ owned → ∃ k, K !! c = Some k ∧ k ≤ r < k * n ∧ ty a (r / k) = Some c.
Proof.
  intros [HA HI] Ho. destruct (iv_own _ _ _ _ _ HI c r Ho) as (k & Hk & Hr). exists k. split; [done|]. split; [done|].
  destruct (iv_rc _ _ _ _ _ HI c k r Hk Hr) as [Hrc _]. apply refs_owned in Ho. eapply inv_used; try done. lia.
Qed.

Lemma cache_known_op {A} (m : cache → M t A) c p v p' : (let! x := cache_of c in m x) p = (Ok v, p') → is_Some (caches p !! c).
Proof. unfold cache_of, bind, get. destruct (caches p !! c); [done|by intros [=]]. Qed.

Lemma caches_known p a c : Abs n K p a → is_Some (caches p !! c) → is_Some (K !! c).
Proof. intros HA [x Hx]. destruct (known_cache p a c x HA Hx) as (k & Hk & _). by exists k. Qed.

Lemma step_good s s' : Good n K s → step s s' → Good n K s'.
Proof.
  intros [a HP] Hs. destruct Hs as [c r p p' owned E|c x r p p' owned Hx E|c r p p' owned E|c x r b o p p' owned Eb Hor E|m p p' owned E]; simpl in HP |- *;
    pose proof HP as [HA HI].
  - destruct (caches_known p a c HA (cache_known_op _ _ _ _ _ E)) as [k Hk].
    destruct (pool_alloc_run n K HK Hn p a owned c k HP Hk) as [(_ & _ & E')|(r' & p1 & a1 & E' & HP1 & _)]; rewrite E' in E; [done|]. simplify_eq. by exists a1.
  - destruct (committed_page p a owned c x r HP Hx) as (k & Hk & Hr & _ & Hty).
    destruct (pool_touch_run n K HK Hn p a owned c k r HP Hk Hr Hty) as (p1 & a1 & E1 & HP1 & _). rewrite E1 in E. simplify_eq. by exists a1.
  - destruct (owned_page p a _ c r HP) as (k & Hk & _); [apply gmultiset_elem_of_disj_union; left; by apply gmultiset_elem_of_singleton|].
    destruct (free_run n K HK Hn p a owned c k r HP Hk) as (p1 & a1 & E1 & HP1 & _). rewrite E1 in E. simplify_eq. by exists a1.
  - destruct (block_known p a c r b HA Eb) as (k & Hk & _ & Hh & _).
    destruct (get_or_commit_run n K HK Hn p a owned c k r x HP Hk) as (o' & p1 & a1 & E1 & HP1 & _).
    { destruct Hor as [Hb|(y & Hy & Hx)]; [left; congruence|right]. destruct (known_cache p a c y HA Hy) as (k' & _ & HC). by rewrite <- (cc_prefix _ _ _ _ HC). }
    rewrite E1 in E. simplify_eq. by exists a1.
  - destruct (pool_reset_run n K p a owned HP) as (m' & p1 & a1 & E1 & HP1 & _). rewrite E1 in E. simplify_eq. by exists a1.
Qed.
End Runs.

Lemma reachable_good n ratios s : reachable n ratios s →
  2 ≤ n ∧ (∀ c k, caches_of ratios !! c = Some k → 0 < k) ∧ Good n (caches_of ratios) s.
Proof.
  intros (p0 & E & Hs). destruct (pool_init_run n ratios p0 E) as (Hn & HK & HP). split; [done|]. split; [done|].
  assert (Good n (caches_of ratios) (p0, ∅)) as HG by (by exists (empty n)).
  revert HG. induction Hs as [|s1 s2 s3 Hstep _ IH]; intros HG; [done|]. apply IH. by eapply step_good.
Qed.

(** ** Sizes *)

Lemma lcm_fold l x : 0 < x → (∀ y, y ∈ l → 0 < y) →
  let m := foldl (λ x y, x * y / Z.gcd x y) x l in
  0 < m ∧ (x | m) ∧ (∀ y, y ∈ l → (y | m)) ∧ ∀ z, (x | z) → (∀ y, y ∈ l → (y | z)) → (m | z).
Proof.
  revert x. induction l as [|y l IH]; intros x Hx Hl; simpl.
  - split_and!; [done|done|by intros y ?%elem_of_nil|done].
  - assert (0 < y) as Hy by (apply Hl; by left).
    assert (x * y / Z.gcd x y = Z.lcm x y) as ->.
    { unfold Z.lcm. rewrite Z.divide_div_mul_exact; [|by intros ?%Z.gcd_eq_0_l; lia|apply Z.gcd_divide_r].
      assert (0 < Z.gcd x y) by (pose proof (Z.gcd_nonneg x y); assert (Z.gcd x y ≠ 0) by (intros ?%Z.gcd_eq_0_l; lia); lia).
      pose proof (Z.div_pos y (Z.gcd x y)). rewrite Z.abs_eq; [done|]. nia. }
    assert (0 < Z.lcm x y) by (pose proof (Z.lcm_nonneg x y); assert (Z.lcm x y ≠ 0) by (intros ?%Z.lcm_eq_0; lia); lia).
    destruct (IH (Z.lcm x y)) as (Hm & Hd & Hall & Hleast); [done|intros; apply Hl; by right|]. split_and!; [done| | |].
    + etrans; [apply Z.divide_lcm_l|exact Hd].
    + intros z [->|Hz]%elem_of_cons; [|by apply Hall]. etrans; [apply Z.divide_lcm_r|exact Hd].
    + intros z Hxz Hz. apply Hleast; [|intros; apply Hz; by right]. apply Z.lcm_least; [done|]. apply Hz. by left.
Qed.

(** The huge page is the least that every page size divides, and as many huge pages
    as fit are cut. *)
Record Sized (available : Z) (sizes : list (string * Z)) (n H : Z) (ratios : list (string * Z)) : Prop := {
  sz_pos : 0 < H;
  sz_huge : 2 ≤ n ∧ n * H ≤ available < (n + 1) * H;
  sz_ratios c : caches_of ratios !! c = (λ size, H / size) <$> caches_of sizes !! c;
  sz_tile c s : (c, s) ∈ sizes → 0 < s ∧ (s | H) ∧ H / s * s = H;
  sz_least z : (∀ c s, (c, s) ∈ sizes → (s | z)) → (H | z)
}.

Lemma ratios_sized available sizes n H ratios : compute_jenga_ratios available sizes = Ok (n, H, ratios) → Sized available sizes n H ratios.
Proof.
  unfold compute_jenga_ratios. destruct (Z.eqb_spec (len sizes) 0) as [|Hne]; [done|]. destruct (existsb _ sizes) eqn:Ex; [done|].
  destruct (Z.leb_spec available 0) as [|Ha]; [done|]. destruct sizes as [|[c0 s0] l]; [done|].
  assert (∀ c s, (c, s) ∈ (c0, s0) :: l → 0 < s) as Hpos.
  { intros c s Hin. rewrite <- not_true_iff_false, existsb_exists in Ex. destruct (Z.leb_spec s 0) as [Hle|]; [|done].
    destruct Ex. exists (c, s). split; [by apply list_elem_of_In|]. by apply Z.leb_le. }
  destruct (lcm_fold (snd <$> l) s0) as (Hm & Hd & Hall & Hleast); [apply (Hpos c0); by left| |].
  { intros y ([c s] & -> & Hin)%list_elem_of_fmap. apply (Hpos c). by right. }
  unfold lcm. cbn [fmap list_fmap snd]. set (m := foldl _ s0 (snd <$> l)) in *.
  destruct (Z.ltb_spec (available / m) 2) as [|H2]; [done|]. intros [= <- <- <-].
  assert (∀ c s, (c, s) ∈ (c0, s0) :: l → (s | m)) as Hdiv.
  { intros c s [[= -> ->]|Hin]%elem_of_cons; [done|]. apply Hall. apply list_elem_of_fmap. by exists (c, s). }
  split; [done| | | |].
  - split; [done|]. pose proof (Z.div_mod available m). pose proof (Z.mod_pos_bound available m). nia.
  - intros c. unfold caches_of. rewrite <- lookup_fmap. rewrite <- list_to_map_fmap. do 2 f_equal.
    apply (list_fmap_ext (λ '(cache_id, size), (cache_id, m / size)) (prod_map id (λ size, m / size)) ((c0, s0) :: l)). by intros _ [? ?] _.
  - intros c s Hin. split; [by eapply Hpos|]. split; [by eapply Hdiv|]. destruct (Hdiv c s Hin) as [q Hq].
    rewrite Hq, Z.div_mul; [done|]. pose proof (Hpos c s Hin). lia.
  - intros z Hz. apply Hleast; [apply (Hz c0); by left|]. intros y ([c s] & -> & Hin)%list_elem_of_fmap. apply (Hz c). by right.
Qed.

(** ** Live pages *)

(** A page whose bytes somebody may read: referenced, or able to serve its hash *)
Definition live (p : t) (owned : gmultiset (string * Z)) (c : string) (r : Z) : Prop := (c, r) ∈ owned ∨ ∃ x, committed p c x r.

Lemma live_page n K p a owned c r : Pool n K p a owned → live p owned c r → ∃ k, K !! c = Some k ∧ k ≤ r < k * n ∧ ty a (r / k) = Some c.
Proof.
  intros HP [Ho|[x Hx]]; [by eapply owned_page|]. destruct (committed_page n K p a owned c x r HP Hx) as (k & ? & ? & _ & ?). by exists k.
Qed.

(** The bytes of a page lie inside its huge block. *)
Lemma page_bytes H k s r : 0 < s → 0 < k → H = k * s → r / k * H ≤ r * s ∧ (r + 1) * s ≤ (r / k + 1) * H.
Proof. intros Hs Hk ->. pose proof (Z.div_mod r k). pose proof (Z.mod_pos_bound r k). nia. Qed.

(** C4: Two different pages that are in use or cached, of the same cache or of
    different ones, never share a byte of the slab, and every one lies inside it, past
    the null block. *)
Theorem live_pages_disjoint available sizes n H ratios p owned c r s c' r' s' :
  compute_jenga_ratios available sizes = Ok (n, H, ratios) → reachable n ratios (p, owned) →
  live p owned c r → live p owned c' r' → (c, r) ≠ (c', r') →
  caches_of sizes !! c = Some s → caches_of sizes !! c' = Some s' →
  H ≤ r * s ∧ (r + 1) * s ≤ n * H ≤ available ∧ ((r + 1) * s ≤ r' * s' ∨ (r' + 1) * s' ≤ r * s).
Proof.
  intros HS%ratios_sized (Hn & HK & a & HP)%reachable_good Hl Hl' Hne Hs Hs'. simpl in HP. destruct HS as [HH [_ Hav] Hrat Htile _].
  destruct (live_page n _ p a owned c r HP Hl) as (k & Hk & Hr & Hty). destruct (live_page n _ p a owned c' r' HP Hl') as (k' & Hk' & Hr' & Hty').
  destruct (Htile c s) as (Hsp & _ & Hm); [by apply elem_of_list_to_map_2|]. destruct (Htile c' s') as (Hsp' & _ & Hm'); [by apply elem_of_list_to_map_2|].
  pose proof (Hrat c) as Ek. pose proof (Hrat c') as Ek'. rewrite Hk, Hs in Ek. rewrite Hk', Hs' in Ek'. injection Ek as Ek. injection Ek' as Ek'.
  rewrite <- Ek in Hm. rewrite <- Ek' in Hm'. pose proof (HK c k Hk). pose proof (HK c' k' Hk').
  destruct (page_bytes H k s r) as [Hb1 Hb2]; [lia..|]. destruct (page_bytes H k' s' r') as [Hb1' Hb2']; [lia..|].
  destruct (named_page n Hn k r) as [Hh _]; [lia..|]. split; [nia|]. split; [nia|].
  destruct (decide (c = c')) as [->|Hc].
  - assert (k' = k) as -> by congruence. assert (s' = s) as -> by congruence. assert (r ≠ r') by congruence. nia.
  - assert (r / k ≠ r' / k') as Hd by congruence. nia.
Qed.

(** A concrete run: two caches whose pages are two and three bytes, a page of each. *)
Definition small_pool : t := match init 4 [("a", 3); ("b", 2)]%string with Ok p => p | Raise _ => mk ∅ ∅ [] FreeQueue.no_queue end.
Definition pool_a : t := (alloc_block "a" small_pool).2.
Definition pool_ab : t := (alloc_block "b" pool_a).2.
Definition both : gmultiset (string * Z) := {[+ ("b"%string, 4) +]} ⊎ ({[+ ("a"%string, 3) +]} ⊎ ∅).

Lemma run_result {S A} (m : M S A) s v : (m s).1 = Ok v → m s = (Ok v, (m s).2).
Proof. intros <-. apply surjective_pairing. Qed.

Lemma small_reachable : reachable 4 [("a", 3); ("b", 2)]%string (pool_ab, both).
Proof.
  exists small_pool. split; [vm_compute; reflexivity|].
  eapply rtc_l; [apply (step_alloc "a" 3); apply run_result; vm_compute; reflexivity|].
  eapply rtc_l; [apply (step_alloc "b" 4); apply run_result; vm_compute; reflexivity|]. apply rtc_refl.
Qed.

Lemma both_live c r : (c, r) ∈ both → live pool_ab both c r.
Proof. by left. Qed.
Lemma in_both c r : (c, r) = ("a"%string, 3) ∨ (c, r) = ("b"%string, 4) → (c, r) ∈ both.
Proof. unfold both. rewrite !gmultiset_elem_of_disj_union, !gmultiset_elem_of_singleton. tauto. Qed.

Lemma live_pages_disjoint_witness :
  6 ≤ 3 * 2 ∧ (3 + 1) * 2 ≤ 4 * 6 ≤ 27 ∧ ((3 + 1) * 2 ≤ 4 * 3 ∨ (4 + 1) * 3 ≤ 3 * 2).
Proof.
  apply (live_pages_disjoint 27 [("a", 2); ("b", 3)]%string 4 6 [("a", 3); ("b", 2)]%string pool_ab both "a" 3 2 "b" 4 3).
  - vm_compute. reflexivity.
  - exact small_reachable.
  - apply both_live, in_both. by left.
  - apply both_live, in_both. by right.
  - discriminate.
  - vm_compute. reflexivity.
  - vm_compute. reflexivity.
Defined.

(** ** Reference counts and failures *)

(** In every run a page's reference count is the number of references its callers
    hold, and the huge block of a referenced page carries its cache's pages. *)
Theorem reference_counts_exact n ratios p owned c r b h :
  reachable n ratios (p, owned) → block c r p = (Ok b, p) → r ≠ 0 → huge p !! huge_block b = Some h →
  ref_cnt b = Z.of_nat (multiplicity (c, r) owned) ∧ (0 < ref_cnt b → little_block_type h = Some c).
Proof.
  intros (Hn & HK & a & HP)%reachable_good Hb Hr Hh. simpl in HP. pose proof HP as [HA HI].
  destruct (block_known n _ p a c r b HA Hb) as (k & Hk & Hnm & _ & Erc).
  unfold block, cache_of, bind, get in Hb. destruct (abs_cache _ _ p a c k HA Hk) as (x & Hx & HC). rewrite Hx in Hb. simpl in Hb.
  destruct (blocks x !! r) as [b'|] eqn:Ex; [|done]. injection Hb as <-. pose proof (cc_blocks _ _ _ _ HC r) as Hc. rewrite Ex in Hc.
  destruct Hc as ([?|Hrr] & Ehb & _); [done|]. destruct (iv_rc _ _ _ _ _ HI c k r Hk Hrr) as [Hrc _]. split; [rewrite Erc; exact Hrc|].
  intros Hpos. rewrite Erc in Hpos. pose proof (ab_huge _ _ _ _ HA (huge_block b')) as Hty. rewrite Hh in Hty. destruct Hty as (_ & -> & _).
  rewrite Ehb. eapply inv_used; done.
Qed.

Lemma block_pure c r p : (block c r p).2 = p.
Proof. unfold block, cache_of, bind, get. destruct (caches p !! c) as [x|]; [|done]. simpl. by destruct (blocks x !! r). Qed.

Definition page_b : LittleKVCacheBlock.t := LittleKVCacheBlock.mk 4 2 1 None false None None.
Lemma page_b_at : block "b" 4 pool_ab = (Ok page_b, pool_ab).
Proof.
  assert ((block "b" 4 pool_ab).1 = Ok page_b) as E by (vm_compute; reflexivity).
  rewrite (surjective_pairing (block _ _ _)), E, block_pure. done.
Qed.
Definition huge_b : HugeKVCacheBlock.t := default (HugeKVCacheBlock.fresh 0) (huge pool_ab !! 2).
Lemma huge_b_at : huge pool_ab !! huge_block page_b = Some huge_b.
Proof. vm_compute. reflexivity. Qed.

Lemma reference_counts_exact_witness :
  ref_cnt page_b = Z.of_nat (multiplicity ("b"%string, 4) both) ∧ (0 < ref_cnt page_b → little_block_type huge_b = Some "b"%string).
Proof.
  apply (reference_counts_exact 4 [("a", 3); ("b", 2)]%string pool_ab both "b" 4 page_b huge_b).
  - exact small_reachable.
  - exact page_b_at.
  - discriminate.
  - exact huge_b_at.
Defined.

(** C9: In every run no call of the pool fails for another reason than a full pool:
    handing out a page fails exactly when no page is free, a cached page can always be
    touched, a held reference can always be given back, publishing a held page always
    leaves the hash served, and the caches can always be reset. *)
Theorem pool_calls_succeed n ratios p owned :
  reachable n ratios (p, owned) →
  (∀ c, is_Some (caches_of ratios !! c) →
     (∃ r p', alloc_block c p = (Ok r, p')) ∨
     num_free_blocks c p = (Ok 0, p) ∧ alloc_block c p = (Raise InsufficientBlocksError, p)) ∧
  (∀ c x r, committed p c x r → ∃ p', touch c r p = (Ok tt, p')) ∧
  (∀ c r, (c, r) ∈ owned → ∃ p', free_block c r p = (Ok tt, p')) ∧
  (∀ c r x b, (c, r) ∈ owned → block c r p = (Ok b, p) → block_hash b = None ∨ committed p c x r →
     ∃ o p', get_or_commit_into_prefix_cache x c r p = (Ok o, p') ∧ committed p' c x (default r o)) ∧
  ∃ m p', reset_prefix_cache p = (Ok m, p').
Proof.
  intros (Hn & HK & a & HP)%reachable_good. simpl in HP. pose proof HP as [HA HI].
  assert (∀ c r, (c, r) ∈ owned → ∃ o, owned = {[+ (c, r) +]} ⊎ o) as Hsplit.
  { intros c r Ho. exists (owned ∖ {[+ (c, r) +]}). apply gmultiset_disj_union_difference. by apply gmultiset_singleton_subseteq_l. }
  split_and!.
  - intros c [k Hk]. destruct (pool_alloc_run n _ HK Hn p a owned c k HP Hk) as [(Hs & Hf & E)|(r & p1 & a1 & E & _)]; [right|left; by exists r, p1].
    split; [|done]. rewrite (num_free_run n _ p a owned c k HP Hk), Hs, Hf. do 2 f_equal.
  - intros c x r Hx. destruct (committed_page n _ p a owned c x r HP Hx) as (k & Hk & Hr & _ & Hty).
    destruct (pool_touch_run n _ HK Hn p a owned c k r HP Hk Hr Hty) as (p1 & _ & E & _). by exists p1.
  - intros c r Ho. destruct (owned_page n _ p a owned c r HP Ho) as (k & Hk & _). destruct (Hsplit c r Ho) as [o ->].
    destruct (free_run n _ HK Hn p a o c k r HP Hk) as (p1 & _ & E & _). by exists p1.
  - intros c r x b Ho Hb Hor. destruct (block_known n _ p a c r b HA Hb) as (k & Hk & _ & Hh & _). destruct (Hsplit c r Ho) as [o ->].
    destruct (get_or_commit_run n _ HK Hn p a o c k r x HP Hk) as (v & p1 & a1 & E & HP1 & _ & Hserve).
    { destruct Hor as [?|(y & Hy & Hx)]; [left; congruence|right]. destruct (known_cache n _ p a c y HA Hy) as (k' & _ & HC). by rewrite <- (cc_prefix _ _ _ _ HC). }
    exists v, p1. split; [exact E|]. destruct (abs_cache _ _ p1 a1 c k (po_abs _ _ _ _ _ HP1) Hk) as (y & Hy & HC). exists y. split; [done|].
    rewrite (cc_prefix _ _ _ _ HC). destruct Hserve as [[HS Hx]|(_ & -> & HCm)]; [by rewrite (proj2 (HS c))|].
    by rewrite (cm_pc _ _ _ _ _ HCm), decide_True.
  - destruct (pool_reset_run n _ p a owned HP) as (m & p1 & _ & E & _). by exists m, p1.
Qed.

Lemma pool_calls_succeed_witness : ∃ p', free_block "b" 4 pool_ab = (Ok tt, p').
Proof.
  apply (pool_calls_succeed 4 [("a", 3); ("b", 2)]%string pool_ab both small_reachable).
  apply in_both. by right.
Defined.

(** ** The count of free pages *)

Lemma for_map_snoc {S A B} (f : A → M S B) l x s vs s1 v s2 :
  for_map l f s = (Ok vs, s1) → f x s1 = (Ok v, s2) → for_map (l ++ [x]) f s = (Ok (vs ++ [v]), s2).
Proof.
  revert s vs. induction l as [|y l IH]; intros s vs; simpl.
  - intros [= <- <-] E. by rewrite (bind_run _ _ _ _ _ E).
  - intros (w & s' & Ew & (ws & s'' & Ews & [= <- <-])%bind_ok)%bind_ok E.
    rewrite (bind_run _ _ _ _ _ Ew). by rewrite (bind_run _ _ _ _ _ (IH s' ws Ews E)).
Qed.

Lemma alloc_many n K p a owned c k m :
  (∀ c k, K !! c = Some k → 0 < k) → 2 ≤ n → Pool n K p a owned → K !! c = Some k → (m : Z) = parked a * k + spare c a →
  ∃ rs p', for_map (zrange 0 m) (λ _, alloc_block c) p = (Ok rs, p') ∧
    alloc_block c p' = (Raise InsufficientBlocksError, p') ∧ NoDup rs ∧ ∀ r, r ∈ rs → (c, r) ∉ owned.
Proof.
  intros HK Hn HP Hk Hm. pose proof (HK c k Hk) as Hkp. assert (0 ≤ parked a ∧ 0 ≤ spare c a) as [Hp0 Hs0] by (split; apply len_nonneg).
  assert (∀ j, 0 ≤ j → j ≤ m → ∃ rs p' a' owned', for_map (zrange 0 j) (λ _, alloc_block c) p = (Ok rs, p') ∧
    Pool n K p' a' owned' ∧ parked a' * k + spare c a' = m - j ∧ NoDup rs ∧
    ∀ r, ((c, r) ∈ owned → (c, r) ∈ owned') ∧ (r ∈ rs → (c, r) ∉ owned ∧ (c, r) ∈ owned')) as Hloop.
  { refine (natlike_ind _ _ _); [intros _|intros j Hj0 IH Hj].
    - exists [], p, a, owned. split_and!; [done|done|lia|apply NoDup_nil_2|]. intros r. split; [done|by intros ?%elem_of_nil].
    - destruct IH as (rs & p1 & a1 & o1 & E1 & HP1 & Hc & Hnd & Ho); [lia|].
      pose proof (len_nonneg (fh a1)). pose proof (len_nonneg (afl (ca a1 c))).
      destruct (pool_alloc_run n K HK Hn p1 a1 o1 c k HP1 Hk) as [(Hs & Hf & _)|(r & p2 & a2 & E2 & HP2 & Hfresh & _ & _ & _ & _ & [_ Htk])].
      { rewrite Hs, Hf in Hc. lia. }
      exists (rs ++ [r]), p2, a2, ({[+ (c, r) +]} ⊎ o1). split_and!.
      + rewrite (zrange_app 0 j (Z.succ j)) by lia. rewrite (zrange_cons j (Z.succ j)), (zrange_empty (j + 1)) by lia. by apply (for_map_snoc _ _ _ _ _ p1).
      + done.
      + destruct Htk as [(_ & -> & ->)|(Hz & -> & ->)]; rewrite ?Hz in *; lia.
      + apply NoDup_app. split_and!; [done| |apply NoDup_singleton]. intros r' Hr' ->%list_elem_of_singleton. by destruct (proj2 (Ho r) Hr').
      + intros r'. destruct (Ho r') as [Ho1 Ho2]. rewrite elem_of_app, list_elem_of_singleton, gmultiset_elem_of_disj_union, gmultiset_elem_of_singleton.
        split; [by right; apply Ho1|]. intros [Hr'| ->]; [split; [|right]; by apply Ho2|]. split; [|by left].
        intros Hin. by apply Ho1 in Hin. }
  destruct (Hloop m) as (rs & p' & a' & o' & E & HP' & Hc & Hnd & Ho); [nia|done|].
  exists rs, p'. split; [done|]. split; [|split; [done|]; intros r Hr; by apply Ho].
  destruct (pool_alloc_run n K HK Hn p' a' o' c k HP' Hk) as [(_ & _ & E')|(r2 & p2 & a2 & _ & _ & _ & _ & _ & _ & _ & [_ Htk])]; [done|].
  pose proof (len_nonneg (fh a')). pose proof (len_nonneg (afl (ca a' c))). pose proof (len_nonneg (fh a2)). unfold parked, spare in *.
  exfalso. destruct Htk as [(? & _ & _)|(_ & _ & ?)]; nia.
Qed.

(** [num_free_blocks] counts exactly: in every run, that many pages of the cache
    can be handed out one after the other, all different and none of them held, and the
    next call fails. *)
Theorem num_free_blocks_exact n ratios p owned c m p' :
  reachable n ratios (p, owned) → num_free_blocks c p = (Ok m, p') →
  p' = p ∧ ∃ rs p1, for_map (zrange 0 m) (λ _, alloc_block c) p = (Ok rs, p1) ∧
    alloc_block c p1 = (Raise InsufficientBlocksError, p1) ∧ NoDup rs ∧ ∀ r, r ∈ rs → (c, r) ∉ owned.
Proof.
  intros (Hn & HK & a & HP)%reachable_good E. simpl in HP. destruct (caches_known n _ p a c (po_abs _ _ _ _ _ HP) (cache_known_op _ _ _ _ _ E)) as [k Hk].
  rewrite (num_free_run n _ p a owned c k HP Hk) in E. injection E as <- <-. split; [done|]. by eapply alloc_many.
Qed.

Lemma num_free_blocks_exact_witness : ∃ rs p1, for_map (zrange 0 5) (λ _, alloc_block "a") pool_ab = (Ok rs, p1) ∧
    alloc_block "a" p1 = (Raise InsufficientBlocksError, p1) ∧ NoDup rs ∧ ∀ r, r ∈ rs → ("a"%string, r) ∉ both.
Proof.
  apply (num_free_blocks_exact 4 [("a", 3); ("b", 2)]%string pool_ab both "a" 5 (num_free_blocks "a" pool_ab).2 small_reachable).
  apply run_result. vm_compute. reflexivity.
Defined.

End JengaPoolSpec.
