(* ===== verification/JengaManager.v ===== *)
(** * The Jenga block manager (kv_cache/paged_kv_cache/jenga_block_manager.py)

    Several caches ("leaves") share the pools of Jenga.v, one pool per replica. Leaves
    with the same attention pattern form a group, whose coordinator finds and claims
    prefix-cache hits. A dictionary in insertion order is the list of its keys with a
    finite map; a request's rows are lists of page indices, 0 the null page. Methods
    that change the request's context run on a [world], as in Manager.v. *)

From S2P Require Import Prelude Tokens FreeQueue Context Hashing Connector Manager Jenga.

(** ** Attention groups (nn/kv_cache/cache_params.py) *)
Module KVCacheGroupId.

Inductive kind := Full | SlidingWindow.
#[global] Instance kind_eq_dec : EqDecision kind.
Proof. solve_decision. Defined.

Record t := mk { type : kind; window_size : Z }.
#[global] Instance eq_dec : EqDecision t.
Proof. solve_decision. Defined.

Definition make (type : kind) (window_size : Z) : outcome t :=
  match type with
  | Full => if negb (window_size =? -1) then Raise ValueError else Ok (mk type window_size)
  | SlidingWindow => if window_size <=? 0 then Raise ValueError else Ok (mk type window_size)
  end.
Definition is_sliding_window (g : t) : bool := bool_decide (type g = SlidingWindow).
Definition is_full (g : t) : bool := bool_decide (type g = Full).
Definition full : t := mk Full (-1).

End KVCacheGroupId.

(** ** Coordinators *)
Module KVGroupCoordinator.
Import JengaBlockPool.

Inductive t :=
  | FullKVGroupCoordinator (leaf_ids : list string) (group_id : KVCacheGroupId.t)
  | SlidingWindowKVGroupCoordinator (leaf_ids : list string) (group_id : KVCacheGroupId.t) (window_size page_size : Z).

Definition leaf_ids (g : t) : list string :=
  match g with FullKVGroupCoordinator l _ | SlidingWindowKVGroupCoordinator l _ _ _ => l end.
Definition group_id (g : t) : KVCacheGroupId.t :=
  match g with FullKVGroupCoordinator _ i | SlidingWindowKVGroupCoordinator _ i _ _ => i end.

Definition create_kv_group_coordinator (leaf_ids : list string) (group_id : KVCacheGroupId.t) (page_size : Z) : t :=
  if KVCacheGroupId.is_sliding_window group_id
  then SlidingWindowKVGroupCoordinator leaf_ids group_id (KVCacheGroupId.window_size group_id) page_size
  else FullKVGroupCoordinator leaf_ids group_id.

(** [all(f(x) for x in l)] *)
Fixpoint for_all {S A} (l : list A) (f : A → M S bool) : M S bool :=
  match l with
  | [] => ret true
  | x :: l => let! b := f x in if b then for_all l f else ret false
  end.

Definition is_in_prefix_cache (g : t) (block_hash : bytes) : M JengaBlockPool.t bool :=
  for_all (leaf_ids g) (λ leaf_id,
    let! x := cache_of leaf_id in ret (bool_decide (is_Some (prefix x !! block_hash)))).

Definition _blocks_in_window (group_id : KVCacheGroupId.t) (page_size : Z) : Z :=
  ceildiv (KVCacheGroupId.window_size group_id - 1) page_size.

Fixpoint full_hit (g : t) (num_hit_blocks : Z) (desired_hashes : list bytes) : M JengaBlockPool.t Z :=
  match desired_hashes with
  | [] => ret num_hit_blocks
  | block_hash :: l =>
      let! b := is_in_prefix_cache g block_hash in
      if negb b then ret num_hit_blocks else full_hit g (num_hit_blocks + 1) l
  end.

(** The loop over [range(len(desired_hashes) - 1, -1, -1)] *)
Fixpoint window_hit (g : t) (blocks_in_window run : Z) (l : list (Z * bytes)) : M JengaBlockPool.t Z :=
  match l with
  | [] => ret run
  | (idx, block_hash) :: l =>
      let! b := is_in_prefix_cache g block_hash in
      if negb b then window_hit g blocks_in_window 0 l else
      let run := run + 1 in
      if blocks_in_window <=? run then ret (idx + run) else window_hit g blocks_in_window run l
  end.

Definition longest_cache_hit (g : t) (desired_hashes : list bytes) : M JengaBlockPool.t Z :=
  match g with
  | FullKVGroupCoordinator _ _ => full_hit g 0 desired_hashes
  | SlidingWindowKVGroupCoordinator _ group_id _ page_size =>
      let blocks_in_window := _blocks_in_window group_id page_size in
      if blocks_in_window =? 0 then ret (len desired_hashes) else
      window_hit g blocks_in_window 0 (rev (zip (zrange 0 (len desired_hashes)) desired_hashes))
  end.

Definition claim_one (rows : gmap string (list Z)) (block_hash : bytes) (leaf_id : string) : M JengaBlockPool.t (gmap string (list Z)) :=
  let! x := cache_of leaf_id in
  let! block := of_option KeyError (prefix x !! block_hash) in
  touch leaf_id block;;
  ret (alter (λ row, row ++ [block]) leaf_id rows).

Definition claim_hit_blocks (g : t) (desired_hashes : list bytes) : M JengaBlockPool.t (gmap string (list Z)) :=
  match g with
  | FullKVGroupCoordinator leaf_ids _ =>
      for_fold desired_hashes (list_to_map ((λ leaf_id, (leaf_id, [])) <$> leaf_ids)) (λ rows block_hash,
        for_fold leaf_ids rows (λ rows leaf_id, claim_one rows block_hash leaf_id))
  | SlidingWindowKVGroupCoordinator leaf_ids group_id _ page_size =>
      let low := Z.max 0 (len desired_hashes - _blocks_in_window group_id page_size) in
      let! b := for_all (slice_from desired_hashes low) (is_in_prefix_cache g) in
      let low := if b then low else len desired_hashes in
      let! rows := for_map leaf_ids (λ leaf_id,
        let! _ := cache_of leaf_id in ret (leaf_id, repeat 0 (Z.to_nat low))) in
      for_fold (slice_from desired_hashes low) (list_to_map rows) (λ rows block_hash,
        for_fold leaf_ids rows (λ rows leaf_id, claim_one rows block_hash leaf_id))
  end.

(** The rows are the request's own lists: state, with the pool. *)
Record slot := mk_slot { pool : JengaBlockPool.t; rows : gmap string (list Z) }.
Definition on_pool {A} (m : M JengaBlockPool.t A) : M slot A := zoom pool (λ p s, mk_slot p (rows s)) m.

(** The loop over [range(first_needed - 1, -1, -1)], from its [idx] on *)
Fixpoint null_below (leaf_id : string) (l : list Z) : M slot unit :=
  match l with
  | [] => ret tt
  | idx :: l =>
      let! s := get in
      let! req_blocks := of_option KeyError (rows s !! leaf_id) in
      let! r := of_option IndexError (py_index req_blocks idx) in
      let! b := on_pool (block leaf_id r) in
      if LittleKVCacheBlock.is_null b then ret tt else
      on_pool (free_block leaf_id r);;
      modify (λ s, mk_slot (pool s) (alter (λ row, list_set row idx 0) leaf_id (rows s)));;
      null_below leaf_id l
  end.

Definition null_pad_blocks (g : t) (num_committed_blocks : Z) : M slot unit :=
  match g with
  | FullKVGroupCoordinator _ _ => ret tt
  | SlidingWindowKVGroupCoordinator leaf_ids group_id _ page_size =>
      let first_needed := Z.max 0 (num_committed_blocks - _blocks_in_window group_id page_size) in
      for_each leaf_ids (λ leaf_id,
        let! s := get in
        let! _ := of_option KeyError (rows s !! leaf_id) in
        let! _ := on_pool (cache_of leaf_id) in
        null_below leaf_id (rev (zrange 0 first_needed)))
  end.

End KVGroupCoordinator.

(** ** The manager *)
Module JengaBlockManager.

Record KVLeaf := kv_leaf { group_id : KVCacheGroupId.t; req_to_blocks : gmap Z (list Z) }.
Record KVLeafInfo := kv_leaf_info { ratio : Z; info_group_id : KVCacheGroupId.t }.

(** [_leaves] and [_groups] are dictionaries, with [leaf_ids] the order of the first;
    the second is the list of its values, each carrying its key. *)
Record t := mk {
  _block_size : Z;
  _enable_prefix_caching : bool;
  _kv_hash_algo : BlockHash.KVHashAlgo;
  _kv_hash_seed : option bytes;
  _max_num_input_tokens : option Z;
  _num_draft_tokens : Z;
  _num_draft_tokens_per_step : Z;
  _metrics : Metrics.t;
  pools : list JengaBlockPool.t;
  leaf_ids : list string;
  _leaves : gmap string KVLeaf;
  _groups : list KVGroupCoordinator.t;
  _req_to_hashes : gmap Z (list bytes);
  _req_to_committed_idx : gmap Z Z;
  _req_to_replica : gmap Z Z
}.

Section Manager.
Context `{Digest} {B : Backend}.
Implicit Types m : t.

(** *** Field updates *)
Definition set_metrics (x : Metrics.t) m : t :=
  mk (_block_size m) (_enable_prefix_caching m) (_kv_hash_algo m) (_kv_hash_seed m) (_max_num_input_tokens m) (_num_draft_tokens m)
    (_num_draft_tokens_per_step m) x (pools m) (leaf_ids m) (_leaves m) (_groups m) (_req_to_hashes m) (_req_to_committed_idx m) (_req_to_replica m).
Definition set_pools (x : list JengaBlockPool.t) m : t :=
  mk (_block_size m) (_enable_prefix_caching m) (_kv_hash_algo m) (_kv_hash_seed m) (_max_num_input_tokens m) (_num_draft_tokens m)
    (_num_draft_tokens_per_step m) (_metrics m) x (leaf_ids m) (_leaves m) (_groups m) (_req_to_hashes m) (_req_to_committed_idx m) (_req_to_replica m).
Definition set_leaves (x : gmap string KVLeaf) m : t :=
  mk (_block_size m) (_enable_prefix_caching m) (_kv_hash_algo m) (_kv_hash_seed m) (_max_num_input_tokens m) (_num_draft_tokens m)
    (_num_draft_tokens_per_step m) (_metrics m) (pools m) (leaf_ids m) x (_groups m) (_req_to_hashes m) (_req_to_committed_idx m) (_req_to_replica m).
Definition set_hashes (x : gmap Z (list bytes)) m : t :=
  mk (_block_size m) (_enable_prefix_caching m) (_kv_hash_algo m) (_kv_hash_seed m) (_max_num_input_tokens m) (_num_draft_tokens m)
    (_num_draft_tokens_per_step m) (_metrics m) (pools m) (leaf_ids m) (_leaves m) (_groups m) x (_req_to_committed_idx m) (_req_to_replica m).
Definition set_committed (x : gmap Z Z) m : t :=
  mk (_block_size m) (_enable_prefix_caching m) (_kv_hash_algo m) (_kv_hash_seed m) (_max_num_input_tokens m) (_num_draft_tokens m)
    (_num_draft_tokens_per_step m) (_metrics m) (pools m) (leaf_ids m) (_leaves m) (_groups m) (_req_to_hashes m) x (_req_to_replica m).
Definition set_replicas (x : gmap Z Z) m : t :=
  mk (_block_size m) (_enable_prefix_caching m) (_kv_hash_algo m) (_kv_hash_seed m) (_max_num_input_tokens m) (_num_draft_tokens m)
    (_num_draft_tokens_per_step m) (_metrics m) (pools m) (leaf_ids m) (_leaves m) (_groups m) (_req_to_hashes m) (_req_to_committed_idx m) x.

Definition count (x : Metrics.t) : M t unit := modify (λ m, set_metrics (Metrics.add (_metrics m) x) m).

(** *** Construction *)

(** [dict.fromkeys(l)]: the different elements, in order of their first appearance *)
Fixpoint dedup {A} `{EqDecision A} (seen l : list A) : list A :=
  match l with
  | [] => []
  | x :: l => if bool_decide (x ∈ seen) then dedup seen l else x :: dedup (x :: seen) l
  end.

Fixpoint new_pools (n : nat) (num_huge_blocks : Z) (ratios : list (string * Z)) : outcome (list JengaBlockPool.t) :=
  match n with
  | O => Ok []
  | S n => match JengaBlockPool.init num_huge_blocks ratios with
      | Raise e => Raise e
      | Ok p => match new_pools n num_huge_blocks ratios with Raise e => Raise e | Ok l => Ok (p :: l) end
      end
  end.

Definition init (leaf_infos : list (string * KVLeafInfo)) (num_huge_blocks block_size : Z) (enable_prefix_caching : bool)
    (num_replicas : Z) (kv_hash_algo : BlockHash.KVHashAlgo) (kv_hash_seed : option bytes) (max_num_input_tokens : option Z)
    (num_draft_tokens num_draft_tokens_per_step : Z) : outcome t :=
  let ratios := (λ '(leaf_id, leaf), (leaf_id, ratio leaf)) <$> leaf_infos in
  match new_pools (Z.to_nat num_replicas) num_huge_blocks ratios with
  | Raise e => Raise e
  | Ok pools =>
      let leaves := (λ '(leaf_id, leaf), (leaf_id, kv_leaf (info_group_id leaf) ∅)) <$> leaf_infos in
      let group_ids := dedup [] ((λ '(_, leaf), group_id leaf) <$> leaves) in
      Ok (mk block_size enable_prefix_caching kv_hash_algo kv_hash_seed max_num_input_tokens num_draft_tokens
            num_draft_tokens_per_step Metrics.zero pools leaf_infos.*1 (list_to_map leaves)
            ((λ g, KVGroupCoordinator.create_kv_group_coordinator
               (filter (λ x : string * KVLeaf, group_id x.2 = g) leaves).*1 g block_size) <$> group_ids)
            ∅ ∅ ∅)
  end.

(** *** The leaves' rows and the pools *)

Definition leaf_at (leaf_id : string) : M t KVLeaf := let! m := get in of_option KeyError (_leaves m !! leaf_id).
(** [leaf.req_to_blocks[rid]] *)
Definition row (leaf_id : string) (rid : Z) : M t (list Z) :=
  let! leaf := leaf_at leaf_id in of_option KeyError (req_to_blocks leaf !! rid).
Definition on_leaf (leaf_id : string) (f : gmap Z (list Z) → gmap Z (list Z)) : M t unit :=
  modify (λ m, set_leaves (alter (λ leaf, kv_leaf (group_id leaf) (f (req_to_blocks leaf))) leaf_id (_leaves m)) m).
Definition put_row (leaf_id : string) (rid : Z) (l : list Z) : M t unit := on_leaf leaf_id (insert rid l).
(** [for leaf in self._leaves.values()] *)
Definition for_leaves (f : string → M t unit) : M t unit := let! m := get in for_each (leaf_ids m) f.

Definition on_pool {A} (i : Z) (p : M JengaBlockPool.t A) : M t A := λ m,
  match py_index (pools m) i with
  | None => (Raise IndexError, m)
  | Some x => let '(r, x') := p x in (r, set_pools (<[BlockManager.position i (len (pools m)) := x']> (pools m)) m)
  end.
Definition pool_at (i : Z) : M t JengaBlockPool.t := on_pool i get.

(** *** The life of a request *)

Definition claim (rid replica_idx : Z) : M t unit :=
  let! m := get in
  match _req_to_replica m !! rid with
  | Some _ => raise ValueError
  | None =>
      modify (λ m, set_replicas (<[rid := replica_idx]> (_req_to_replica m)) m);;
      modify (λ m, set_hashes (<[rid := []]> (_req_to_hashes m)) m);;
      modify (λ m, set_committed (<[rid := 0]> (_req_to_committed_idx m)) m);;
      for_leaves (λ leaf_id, put_row leaf_id rid [])
  end.

Definition contains (rid : Z) : M t bool := let! m := get in ret (bool_decide (is_Some (_req_to_replica m !! rid))).

Definition _replica_of (rid : Z) : M t Z := let! m := get in of_option ValueError (_req_to_replica m !! rid).

(** [del d[rid]] *)
Definition del {V} (d : t → gmap Z V) (put : gmap Z V → t → t) (rid : Z) : M t unit :=
  let! m := get in
  raise_if (bool_decide (d m !! rid = None)) KeyError;;
  modify (λ m, put (delete rid (d m)) m).

Definition release (rid : Z) : M t unit :=
  let! replica_idx := _replica_of rid in
  let! _ := pool_at replica_idx in
  for_leaves (λ leaf_id,
    let! l := row leaf_id rid in
    on_leaf leaf_id (delete rid);;
    for_each (rev l) (λ block, on_pool replica_idx (JengaBlockPool.free_block leaf_id block)));;
  del _req_to_replica set_replicas rid;;
  del _req_to_hashes set_hashes rid;;
  del _req_to_committed_idx set_committed rid.

(** *** Occupancy *)

Definition huge_block_count (replica_idx : Z) : M t BlockCount.t :=
  let! pool := pool_at replica_idx in
  ret (BlockCount.mk (FreeQueue.length (JengaBlockPool.free_huge_blocks pool)) (len (JengaBlockPool.huge_blocks pool))).

Definition cache_ratio (pool : JengaBlockPool.t) (leaf_id : string) : M t Z :=
  of_option KeyError (JengaBlockPool.ratio <$> JengaBlockPool.caches pool !! leaf_id).

Definition little_block_count (replica_idx : Z) : M t (list (string * BlockCount.t)) :=
  let! pool := pool_at replica_idx in
  let total_huge_blocks := len (JengaBlockPool.huge_blocks pool) in
  let! m := get in
  for_map (leaf_ids m) (λ leaf_id,
    let! n := on_pool replica_idx (JengaBlockPool.num_free_blocks leaf_id) in
    let! k := cache_ratio pool leaf_id in
    ret (leaf_id, BlockCount.mk n (total_huge_blocks * k))).

Definition get_req_blocks_per_leaf (rid : Z) : M t (list (string * list Z)) :=
  let! replica_idx := _replica_of rid in
  let! m := get in
  for_map (leaf_ids m) (λ leaf_id,
    let! l := row leaf_id rid in
    let! bids := for_map l (λ r, let! b := on_pool replica_idx (JengaBlockPool.block leaf_id r) in ret (LittleKVCacheBlock._bid b)) in
    ret (leaf_id, bids)).

Definition _huge_blocks_for_demand (pool : JengaBlockPool.t) (demand : list (string * Z)) (free_little_blocks : option (gmap string Z)) : M t Z :=
  for_fold demand 0 (λ num_huge_blocks '(leaf_id, num_pages),
    let already_free := match free_little_blocks with Some d => default 0 (d !! leaf_id) | None => 0 end in
    let shortfall := num_pages - already_free in
    if 0 <? shortfall then let! k := cache_ratio pool leaf_id in ret (num_huge_blocks + ceildiv shortfall k)
    else ret num_huge_blocks).

Definition _check_admission (pool : JengaBlockPool.t) (demand : list (string * Z)) : M t unit :=
  let! num_huge_blocks_needed := _huge_blocks_for_demand pool demand
    (Some ((λ x, FreeQueue.length (JengaBlockPool.free x)) <$> JengaBlockPool.caches pool)) in
  raise_if (FreeQueue.length (JengaBlockPool.free_huge_blocks pool) <? num_huge_blocks_needed) InsufficientBlocksError.

(** *** The longest request that fits *)

Definition _blocks_demanded (seq_len : Z) : M t (list (string * Z)) :=
  let! m := get in
  for_map (leaf_ids m) (λ leaf_id,
    let! leaf := leaf_at leaf_id in
    let num_blocks := ceildiv seq_len (_block_size m) in
    ret (leaf_id, if KVCacheGroupId.is_sliding_window (group_id leaf)
                  then Z.min num_blocks (ceildiv (KVCacheGroupId.window_size (group_id leaf)) (_block_size m)) else num_blocks)).

Definition _fits_in_cache (seq_len : Z) : M t bool :=
  let! pool := pool_at 0 in
  let! demand := _blocks_demanded seq_len in
  let! needed := _huge_blocks_for_demand pool demand None in
  let! c := huge_block_count 0 in
  ret (needed <=? BlockCount.total c).

(** [bisect_left(range(n), True, key=f)], from [lo] to [hi] *)
Fixpoint bisect_left (fuel : nat) (f : Z → M t bool) (lo hi : Z) : M t Z :=
  match fuel with
  | O => raise OutOfFuel
  | S fuel =>
      if negb (lo <? hi) then ret lo else
      let mid := (lo + hi) / 2 in
      let! b := f mid in
      if b then bisect_left fuel f lo mid else bisect_left fuel f (mid + 1) hi
  end.

(** [max(l)] *)
Definition py_max (l : list Z) : M t Z :=
  match l with [] => raise ValueError | x :: l => ret (foldl Z.max x l) end.

Definition effective_max_seq_length : M t (option Z) :=
  let! c := huge_block_count 0 in
  let! m := get in
  let! pool := pool_at 0 in
  let! k := py_max ((λ '(_, x), JengaBlockPool.ratio x) <$> map_to_list (JengaBlockPool.caches pool)) in
  let upper_bound := BlockCount.total c * _block_size m * k in
  let search_space := upper_bound + 2 in
  let! idx := bisect_left (S (Z.to_nat search_space)) (λ seq_len, let! b := _fits_in_cache seq_len in ret (negb b)) 0 search_space in
  ret (if idx <? search_space then Some (idx - 1) else None).

Definition reset_prefix_cache : M t unit :=
  let! m := get in
  for_each (zrange 0 (len (pools m))) (λ i, let! _ := on_pool i JengaBlockPool.reset_prefix_cache in ret tt).

Definition reset_metrics : M t unit := modify (set_metrics Metrics.zero).

(** *** Methods that read or change the request's context *)

Record world := mk_world { mgr : t; ctx : Ctx.t B }.
Definition on_mgr {A} (x : M t A) : M world A := zoom mgr (λ m w, mk_world m (ctx w)) x.
Definition on_ctx {A} (x : M (Ctx.t B) A) : M world A := zoom ctx (λ c w, mk_world (mgr w) c) x.
Definition tokens : M world TokenBuffer.t := let! w := get in ret (TextContext.tokens (Ctx.base (ctx w))).
Definition request_id (w : world) : Z := TextContext.request_id (Ctx.base (ctx w)).

(** [self._req_to_hashes[rid]] and [self._req_to_committed_idx[rid]] *)
Definition hashes_of (rid : Z) : M t (list bytes) := let! m := get in of_option KeyError (_req_to_hashes m !! rid).
Definition committed_idx_of (rid : Z) : M t Z := let! m := get in of_option KeyError (_req_to_committed_idx m !! rid).
Definition put_committed (rid i : Z) : M t unit := modify (λ m, set_committed (<[rid := i]> (_req_to_committed_idx m)) m).

Definition seq_len (max_num_input_tokens : option Z) : M world Z :=
  let! w := get in
  on_ctx (Ctx.on_base (_compute_seq_len (_num_draft_tokens (mgr w)) (_num_draft_tokens_per_step (mgr w)) max_num_input_tokens)).

Definition _num_blocks_to_allocate (leaf_id : string) : M world Z :=
  let! w := get in
  let! l := on_mgr (row leaf_id (request_id w)) in
  let! seq_len := seq_len (_max_num_input_tokens (mgr w)) in
  let num_required_blocks := ceildiv seq_len (_block_size (mgr w)) in
  ret (Z.max (num_required_blocks - len l) 0).

Definition _num_filled_blocks : M world Z :=
  let! w := get in
  let c := Ctx.base (ctx w) in
  let num_realized_tokens := TokenBuffer.length (TextContext.tokens c) - TextContext.pending_future_count c in
  ret (Z.min (TokenBuffer.processed_length (TextContext.tokens c)) num_realized_tokens / _block_size (mgr w)).

Definition _compute_hashes_for_request : M world (list bytes) :=
  let! w := get in
  let rid := request_id w in
  let! hashes := on_mgr (hashes_of rid) in
  let! new_hashes := on_ctx (BlockHashes.compute_block_hashes hashes (_block_size (mgr w)) (_kv_hash_algo (mgr w)) (_kv_hash_seed (mgr w))) in
  on_mgr (modify (λ m, set_hashes (<[rid := hashes ++ new_hashes]> (_req_to_hashes m)) m));;
  ret (hashes ++ new_hashes).

(** *** Prefix-cache hits *)

(** One pass over the window groups *)
Definition shrink (replica_idx : Z) (windowed : list KVGroupCoordinator.t) (desired_hashes : list bytes) : M t (list bytes) :=
  for_fold windowed desired_hashes (λ desired_hashes window_group,
    let! num_hit_blocks := on_pool replica_idx (KVGroupCoordinator.longest_cache_hit window_group desired_hashes) in
    ret (slice_to desired_hashes num_hit_blocks)).

Fixpoint agree (fuel : nat) (replica_idx : Z) (windowed : list KVGroupCoordinator.t) (desired_hashes : list bytes) : M t (list bytes) :=
  match fuel with
  | O => raise OutOfFuel
  | S fuel =>
      if bool_decide (windowed = []) || bool_decide (desired_hashes = []) then ret desired_hashes else
      let old_num_hit_blocks := len desired_hashes in
      let! desired_hashes := shrink replica_idx windowed desired_hashes in
      let shrank := len desired_hashes <? old_num_hit_blocks in
      if negb shrank || (len windowed =? 1) then ret desired_hashes else agree fuel replica_idx windowed desired_hashes
  end.

(** The hits every group can serve *)
Definition common_hit (replica_idx : Z) (desired_hashes : list bytes) : M t (list bytes) :=
  let! m := get in
  let! desired_hashes :=
    match List.find (λ g, bool_decide (KVGroupCoordinator.group_id g = KVCacheGroupId.full)) (_groups m) with
    | Some g =>
        let! num_hit_blocks := on_pool replica_idx (KVGroupCoordinator.longest_cache_hit g desired_hashes) in
        ret (slice_to desired_hashes num_hit_blocks)
    | None => ret desired_hashes
    end in
  let windowed := filter (λ g, KVCacheGroupId.is_sliding_window (KVGroupCoordinator.group_id g) = true) (_groups m) in
  agree (S (length desired_hashes)) replica_idx windowed desired_hashes.

Definition _find_longest_prefix_cache_hit (rid replica_idx : Z) : M t (gmap string (list Z) * Z) :=
  let! committed_idx := committed_idx_of rid in
  let! m := get in
  let num_committed_blocks := committed_idx / _block_size m in
  let! hashes := hashes_of rid in
  let! desired_hashes := common_hit replica_idx (slice_from hashes num_committed_blocks) in
  let! hit_blocks := for_fold (_groups m) ∅ (λ hit_blocks g,
    let! rows := on_pool replica_idx (KVGroupCoordinator.claim_hit_blocks g desired_hashes) in
    ret (rows ∪ hit_blocks)) in
  ret (hit_blocks, len desired_hashes).

Definition _release_uncommitted_blocks (replica_idx : Z) : M world unit :=
  let! w := get in
  let rid := request_id w in
  let! _ := on_mgr (pool_at replica_idx) in
  let! committed_idx := on_mgr (committed_idx_of rid) in
  let num_committed_blocks := committed_idx / _block_size (mgr w) in
  on_mgr (for_leaves (λ leaf_id,
    let! req_blocks := row leaf_id rid in
    py_assert (num_committed_blocks <=? len req_blocks);;
    for_each (zrange 0 (len req_blocks - num_committed_blocks)) (λ _,
      let! l := row leaf_id rid in
      let! block := of_option IndexError (last l) in
      put_row leaf_id rid (removelast l);;
      on_pool replica_idx (JengaBlockPool.free_block leaf_id block))));;
  let! b := tokens in
  let delta := TokenBuffer.processed_length b - committed_idx in
  if 0 <? delta then on_ctx (Ctx.on_tokens (TokenBuffer.rewind_processing delta))
  else when (delta <? 0) (on_ctx (Ctx.on_tokens (TokenBuffer.skip_processing (- delta)))).

Definition _reuse_blocks_from_prefix_cache (replica_idx : Z) : M world Z :=
  let! w := get in
  let rid := request_id w in
  if negb (_enable_prefix_caching (mgr w)) then ret 0 else
  let! b := tokens in
  raise_if (negb (TokenBuffer.processed_length b =? 0)) ValueError;;
  let! _ := _compute_hashes_for_request in
  let! '(hit_blocks, num_hit_blocks) := on_mgr (_find_longest_prefix_cache_hit rid replica_idx) in
  on_mgr (count (Metrics.mk 0 (num_hit_blocks * _block_size (mgr w)) num_hit_blocks 0 0));;
  on_ctx (Ctx.on_base (modify (TextContext.set_cached (Some (num_hit_blocks * _block_size (mgr w))))));;
  if num_hit_blocks =? 0 then ret 0 else
  _release_uncommitted_blocks replica_idx;;
  on_mgr (for_each (map_to_list hit_blocks) (λ '(leaf_id, blocks),
    let! l := row leaf_id rid in put_row leaf_id rid (l ++ blocks)));;
  let! committed_idx := on_mgr (committed_idx_of rid) in
  let committed_idx := committed_idx + num_hit_blocks * _block_size (mgr w) in
  on_mgr (put_committed rid committed_idx);;
  let! b := tokens in
  let skip_amount := committed_idx - TokenBuffer.processed_length b in
  on_ctx (Ctx.on_tokens (TokenBuffer.skip_processing skip_amount));;
  let! b := tokens in
  py_assert (1 <=? TokenBuffer.active_length b);;
  ret skip_amount.

(** *** Allocation *)

Definition draw (leaf_id : string) (rid replica_idx : Z) : M t unit :=
  let! block := on_pool replica_idx (JengaBlockPool.alloc_block leaf_id) in
  let! l := row leaf_id rid in
  put_row leaf_id rid (l ++ [block]).

Definition alloc : M world unit :=
  let! w := get in
  let rid := request_id w in
  let! replica_idx := on_mgr (_replica_of rid) in
  let! b := tokens in
  when (TokenBuffer.processed_length b =? 0) (let! _ := _reuse_blocks_from_prefix_cache replica_idx in ret tt);;
  let! b := tokens in
  on_mgr (count (Metrics.mk (TokenBuffer.active_length b) 0 0 0 0));;
  let! pool := on_mgr (pool_at replica_idx) in
  let! demand := for_map (leaf_ids (mgr w)) (λ leaf_id, let! n := _num_blocks_to_allocate leaf_id in ret (leaf_id, n)) in
  on_mgr (_check_admission pool demand);;
  on_mgr (for_each demand (λ '(leaf_id, num_new_blocks),
    let! _ := row leaf_id rid in
    for_each (zrange 0 num_new_blocks) (λ _, draw leaf_id rid replica_idx))).

Definition alloc_dummy (replica_idx : Z) : M world unit :=
  let! w := get in
  let rid := request_id w in
  on_mgr (claim rid replica_idx);;
  let! pool := on_mgr (pool_at replica_idx) in
  let! seq_len := seq_len None in
  let num_required_blocks := ceildiv seq_len (_block_size (mgr w)) in
  on_mgr (for_leaves (λ leaf_id,
    let! _ := of_option KeyError (JengaBlockPool.caches pool !! leaf_id) in
    put_row leaf_id rid (repeat 0 (Z.to_nat num_required_blocks)))).

(** *** Recording what a forward wrote *)

Definition commit_one (leaf_id : string) (rid replica_idx : Z) (req_hashes : list bytes) (block_idx : Z) : M t unit :=
  let! req_blocks := row leaf_id rid in
  let! block := of_option IndexError (py_index req_blocks block_idx) in
  let! block_hash := of_option IndexError (py_index req_hashes block_idx) in
  let! twin := on_pool replica_idx (JengaBlockPool.get_or_commit_into_prefix_cache block_hash leaf_id block) in
  match twin with
  | None => ret tt
  | Some twin => put_row leaf_id rid (<[BlockManager.position block_idx (len req_blocks) := twin]> req_blocks)
  end.

Definition _commit_blocks_into_prefix_cache (replica_idx : Z) : M world unit :=
  let! w := get in
  let rid := request_id w in
  let! req_hashes := _compute_hashes_for_request in
  let! committed_idx := on_mgr (committed_idx_of rid) in
  let first_block := committed_idx / _block_size (mgr w) in
  let! num_filled_blocks := _num_filled_blocks in
  let last_block := Z.min num_filled_blocks (len req_hashes) in
  on_mgr (for_leaves (λ leaf_id,
    let! _ := row leaf_id rid in
    for_each (zrange first_block last_block) (commit_one leaf_id rid replica_idx req_hashes)));;
  on_mgr (put_committed rid (last_block * _block_size (mgr w))).

(** [null_pad_blocks] mutates the request's lists in the leaves' dictionaries. *)
Definition rows_of (rid : Z) m : gmap string (list Z) := omap (λ leaf, req_to_blocks leaf !! rid) (_leaves m).
Definition put_rows (rid : Z) (rows : gmap string (list Z)) m : t :=
  set_leaves (map_imap (λ leaf_id leaf,
    Some match rows !! leaf_id with Some l => kv_leaf (group_id leaf) (<[rid := l]> (req_to_blocks leaf)) | None => leaf end) (_leaves m)) m.
Definition on_rows {A} (rid replica_idx : Z) (f : M KVGroupCoordinator.slot A) : M t A := λ m,
  match py_index (pools m) replica_idx with
  | None => (Raise IndexError, m)
  | Some p =>
      let '(r, s) := f (KVGroupCoordinator.mk_slot p (rows_of rid m)) in
      (r, put_rows rid (KVGroupCoordinator.rows s)
            (set_pools (<[BlockManager.position replica_idx (len (pools m)) := KVGroupCoordinator.pool s]> (pools m)) m))
  end.

Definition step : M world unit :=
  let! w := get in
  let rid := request_id w in
  let! replica_idx := on_mgr (_replica_of rid) in
  let! _ := on_mgr (pool_at replica_idx) in
  when (_enable_prefix_caching (mgr w)) (_commit_blocks_into_prefix_cache replica_idx);;
  on_mgr (for_leaves (λ leaf_id, let! _ := row leaf_id rid in ret tt));;
  let! num_filled_blocks := _num_filled_blocks in
  on_mgr (for_each (_groups (mgr w)) (λ g, on_rows rid replica_idx (KVGroupCoordinator.null_pad_blocks g num_filled_blocks))).

End Manager.
End JengaBlockManager.
