(* ===== verification/JengaHits.v ===== *)
(** * Prefix-cache hits of several attention groups

    [serves]: what a group needs cached to resume after a number of blocks. The
    coordinators' scans find the largest such number, and the manager's passes over the
    groups the largest that all of them can serve. *)

From S2P Require Import Prelude Tokens FreeQueue Context Hashing Connector Manager Jenga JengaManager.

Module JengaHits.
Import JengaBlockPool KVGroupCoordinator.

(** ** What a group can serve *)

(** Every cache of the group has the hash. *)
Definition holds (p : JengaBlockPool.t) (leaves : list string) (h : bytes) : bool :=
  forallb (λ c, match caches p !! c with Some x => bool_decide (is_Some (prefix x !! h)) | None => false end) leaves.

(** The first block the group's attention still reads when it resumes after [h] blocks *)
Definition first_needed (g : KVGroupCoordinator.t) (h : Z) : Z :=
  match g with
  | FullKVGroupCoordinator _ _ => 0
  | SlidingWindowKVGroupCoordinator _ group_id _ page_size => Z.max 0 (h - _blocks_in_window group_id page_size)
  end.

Definition serves (p : JengaBlockPool.t) (hashes : list bytes) (g : KVGroupCoordinator.t) (h : Z) : Prop :=
  0 ≤ h ≤ len hashes ∧ ∀ i x, first_needed g h ≤ i < h → hashes !! Z.to_nat i = Some x → holds p (leaf_ids g) x = true.

(** A coordinator as [create_kv_group_coordinator] makes it, over caches the pool has *)
Definition coordinator_ok (p : JengaBlockPool.t) (g : KVGroupCoordinator.t) : Prop :=
  (∀ c, c ∈ leaf_ids g → is_Some (caches p !! c)) ∧
  match g with
  | FullKVGroupCoordinator _ _ => True
  | SlidingWindowKVGroupCoordinator _ group_id _ page_size => 0 ≤ _blocks_in_window group_id page_size
  end.

Lemma for_all_run {S A} (l : list A) (f : A → M S bool) (g : A → bool) s :
  (∀ x, x ∈ l → f x s = (Ok (g x), s)) → for_all l f s = (Ok (forallb g l), s).
Proof.
  induction l as [|x l IH]; intros Hl; [done|]. simpl. rewrite (bind_run _ _ _ _ _ (Hl x (list_elem_of_here _ _))).
  destruct (g x); [|done]. apply IH. intros; apply Hl; by right.
Qed.

Lemma in_cache_run p g h : coordinator_ok p g → is_in_prefix_cache g h p = (Ok (holds p (leaf_ids g) h), p).
Proof.
  intros [Hl _]. apply for_all_run. intros c Hc. destruct (Hl c Hc) as [x Hx]. unfold cache_of, bind, get. by rewrite Hx.
Qed.

(** ** One group *)

Lemma serves_zero p hashes g : serves p hashes g 0.
Proof. split; [pose proof (len_nonneg hashes); lia|]. intros i x Hi. destruct g; simpl in Hi; lia. Qed.

Lemma first_nonneg g h : 0 ≤ first_needed g h.
Proof. destruct g; simpl; lia. Qed.

Lemma serves_take p hashes g n h : serves p (take (Z.to_nat n) hashes) g h → 0 ≤ n → serves p hashes g h.
Proof.
  intros [[H0 Hle] Hall] Hn. unfold len in Hle. rewrite length_take in Hle. split; [unfold len; lia|]. intros i x Hi Hx. apply (Hall i x Hi).
  pose proof (first_nonneg g h). rewrite lookup_take, decide_True by lia. done.
Qed.
Lemma take_serves p hashes g n h : serves p hashes g h → h ≤ n → serves p (take (Z.to_nat n) hashes) g h.
Proof.
  intros [[H0 Hle] Hall] Hn. unfold len in Hle. split; [unfold len; rewrite length_take; lia|]. intros i x Hi Hx. apply (Hall i x Hi).
  rewrite lookup_take in Hx. by case_decide.
Qed.

Lemma full_run p leaves id k hashes :
  coordinator_ok p (FullKVGroupCoordinator leaves id) →
  ∃ h, full_hit (FullKVGroupCoordinator leaves id) k hashes p = (Ok (k + h), p) ∧ serves p hashes (FullKVGroupCoordinator leaves id) h ∧
    ∀ h', serves p hashes (FullKVGroupCoordinator leaves id) h' → h' ≤ h.
Proof.
  intros Hok. revert k. induction hashes as [|x hashes IH]; intros k.
  - exists 0. rewrite Z.add_0_r. split; [done|]. split; [apply serves_zero|]. intros h' [[_ Hle] _]. done.
  - cbn [full_hit]. rewrite (bind_run _ _ _ _ _ (in_cache_run p _ x Hok)). destruct (holds p (leaf_ids _) x) eqn:E.
    + destruct (IH (k + 1)) as (h & Eh & [[H0 Hle] Hall] & Hmax). exists (h + 1).
      split; [simpl; rewrite Eh; do 2 f_equal; lia|]. split.
      * split; [rewrite len_cons; lia|]. intros i y Hi Hy. simpl in Hi. destruct (decide (i = 0)) as [->|Hne]; [simpl in Hy; simplify_eq; done|].
        apply (Hall (i - 1)); [simpl; lia|]. replace (Z.to_nat i) with (S (Z.to_nat (i - 1))) in Hy by lia. done.
      * intros h' [[H0' Hle'] Hall']. destruct (decide (h' = 0)) as [->|Hne]; [lia|]. assert (h' - 1 ≤ h); [|lia]. apply Hmax.
        rewrite len_cons in Hle'. split; [lia|]. intros i y Hi Hy. simpl in Hi. apply (Hall' (i + 1)); [simpl; lia|].
        replace (Z.to_nat (i + 1)) with (S (Z.to_nat i)) by lia. done.
    + exists 0. rewrite Z.add_0_r. split; [done|]. split; [apply serves_zero|]. intros h' [[H0 Hle] Hall].
      destruct (decide (h' ≤ 0)); [done|]. rewrite (Hall 0 x) in E; [done|simpl; lia|done].
Qed.

(** The scan from the right: [run] blocks from [idx] on are cached, and no more than
    [idx + run] can be served unless fewer than [run + idx] are. *)
Lemma window_run p leaves id w ps hashes k run :
  let g := SlidingWindowKVGroupCoordinator leaves id w ps in
  let b := _blocks_in_window id ps in
  coordinator_ok p g → 0 < b → 0 ≤ run < b → k + run ≤ len hashes → 0 ≤ k →
  (∀ i x, k ≤ i < k + run → hashes !! Z.to_nat i = Some x → holds p leaves x = true) →
  (∀ h, serves p hashes g h → h ≤ k + run) →
  ∃ h, window_hit g b run (rev (zip (zrange 0 k) (take (Z.to_nat k) hashes))) p = (Ok h, p) ∧ serves p hashes g h ∧
    ∀ h', serves p hashes g h' → h' ≤ h.
Proof.
  intros g b Hok Hb Hrun Hlen Hk. revert run Hrun Hlen. pattern k. revert k Hk. refine (natlike_ind _ _ _).
  - intros run Hrun Hlen Hcached Hmax. exists run. split; [done|]. split; [|intros h' Hh'; apply Hmax in Hh'; lia].
    split; [lia|]. intros i x Hi Hx. apply (Hcached i x); [|done]. simpl in Hi. unfold g in Hi. simpl in Hi. fold b in Hi. lia.
  - intros k Hk IH run Hrun Hlen Hcached Hmax.
    destruct (hashes !! Z.to_nat k) as [x|] eqn:Ex; [|apply lookup_ge_None in Ex; unfold len in *; lia].
    assert (rev (zip (zrange 0 (Z.succ k)) (take (Z.to_nat (Z.succ k)) hashes)) = (k, x) :: rev (zip (zrange 0 k) (take (Z.to_nat k) hashes))) as ->.
    { rewrite (zrange_app 0 k (Z.succ k)), (zrange_cons k), (zrange_empty (k + 1)), Z2Nat.inj_succ, (take_S_r _ _ x) by (done || lia).
      assert (length (zrange 0 k) = length (take (Z.to_nat k) hashes)) as El.
      { pose proof (len_zrange 0 k ltac:(lia)) as Ez. unfold len in Ez. rewrite length_take. unfold len in Hlen. lia. }
      rewrite zip_with_app by done. by rewrite rev_app_distr. }
    cbn [window_hit]. rewrite (bind_run _ _ _ _ _ (in_cache_run p g x Hok)). change (leaf_ids g) with leaves.
    destruct (holds p leaves x) eqn:Ehx; simpl.
    + assert (∀ i y, k ≤ i < k + (run + 1) → hashes !! Z.to_nat i = Some y → holds p leaves y = true) as Hc'.
      { intros i y Hi Hy. destruct (decide (i = k)) as [->|]; [congruence|]. apply (Hcached i y); [lia|done]. }
      destruct (Z.leb_spec b (run + 1)) as [Hfull|Hshort].
      * exists (k + (run + 1)). split; [done|]. split; [|intros h' Hh'; apply Hmax in Hh'; lia]. split; [lia|].
        intros i y Hi Hy. apply (Hc' i y); [|done]. unfold g in Hi. simpl in Hi. fold b in Hi. lia.
      * apply IH; [lia|lia|done|]. intros h Hh. apply Hmax in Hh. lia.
    + destruct (IH 0) as (h & Eh & Hs & Hm); [lia|lia|intros i y Hi; lia| |by exists h].
      intros h Hh. destruct (Z.le_gt_cases h (k + 0)) as [|Hgt]; [done|]. exfalso. pose proof (Hmax h Hh) as Hle. destruct Hh as [_ Hall].
      assert (holds p leaves x = true); [|congruence]. apply (Hall k x); [|done]. unfold g. simpl. fold b. lia.
Qed.

(** The scan finds the most blocks the group can serve. *)
Lemma hit_run p g hashes : coordinator_ok p g →
  ∃ h, longest_cache_hit g hashes p = (Ok h, p) ∧ serves p hashes g h ∧ ∀ h', serves p hashes g h' → h' ≤ h.
Proof.
  intros Hok. destruct g as [leaves id|leaves id w ps].
  - destruct (full_run p leaves id 0 hashes Hok) as (h & E & Hs). by exists h.
  - simpl. pose proof Hok as [_ Hb]. destruct (Z.eqb_spec (_blocks_in_window id ps) 0) as [Hz|Hz].
    + exists (len hashes). split; [done|]. split; [|by intros h' [[_ ?] _]]. split; [pose proof (len_nonneg hashes); lia|].
      intros i x Hi. simpl in Hi. rewrite Hz in Hi. lia.
    + pose proof (len_nonneg hashes).
      pose proof (window_run p leaves id w ps hashes (len hashes) 0) as Hw. cbv zeta in Hw.
      rewrite (take_ge hashes) in Hw by (unfold len; lia). apply Hw; [done|lia|lia|lia|done|intros i x Hi; lia|]. intros h [[_ Hle] _]. lia.
Qed.

(** ** Several groups *)

Lemma serves_full_le p hashes leaves id h h' :
  serves p hashes (FullKVGroupCoordinator leaves id) h → 0 ≤ h' ≤ h → serves p hashes (FullKVGroupCoordinator leaves id) h'.
Proof. intros [[H0 Hle] Hall] Hh. split; [lia|]. intros i x Hi. apply Hall. simpl in *. lia. Qed.

Lemma len_take {A} (l : list A) h : 0 ≤ h ≤ len l → len (take (Z.to_nat h) l) = h.
Proof. unfold len. intros Hh. rewrite length_take. lia. Qed.
Lemma take_take_le {A} (l : list A) h h' : 0 ≤ h' ≤ h → take (Z.to_nat h') (take (Z.to_nat h) l) = take (Z.to_nat h') l.
Proof. intros Hh. rewrite take_take. f_equal. lia. Qed.

Section Groups.
Context `{Digest} {B : Backend}.
Import JengaBlockManager.
Context (i : Z) (p : JengaBlockPool.t) (m : t) (Hp : py_index (pools m) i = Some p).

Lemma on_pool_read {A} (f : M JengaBlockPool.t A) v : f p = (Ok v, p) → on_pool i f m = (Ok v, m).
Proof.
  intros E. unfold on_pool. rewrite Hp, E. f_equal. unfold py_index in Hp. set (j := if i <? 0 then len (pools m) + i else i) in *.
  destruct (_ || _); [done|]. change (BlockManager.position i (len (pools m))) with (Z.to_nat j). rewrite list_insert_id by done. by destruct m.
Qed.

(** The most that all of [gs] can serve *)
Record Best (gs : list KVGroupCoordinator.t) (hashes : list bytes) (h : Z) : Prop := {
  bt_range : 0 ≤ h ≤ len hashes;
  bt_serves g : g ∈ gs → serves p hashes g h;
  bt_most h' : 0 ≤ h' ≤ len hashes → (∀ g, g ∈ gs → serves p hashes g h') → h' ≤ h
}.

Lemma shrink_run gs hashes : (∀ g, g ∈ gs → coordinator_ok p g) →
  ∃ h, shrink i gs hashes m = (Ok (take (Z.to_nat h) hashes), m) ∧ 0 ≤ h ≤ len hashes ∧
    (∀ h', 0 ≤ h' ≤ len hashes → (∀ g, g ∈ gs → serves p hashes g h') → h' ≤ h) ∧
    ((h = len hashes ∨ ∃ g, gs = [g]) → ∀ g, g ∈ gs → serves p hashes g h).
Proof.
  unfold shrink. revert hashes. induction gs as [|g gs IH]; intros hashes Hok.
  - exists (len hashes). split; [|split; [pose proof (len_nonneg hashes); lia|split; [by intros h' [_ ?]|by intros _ g ?%elem_of_nil]]].
    simpl. unfold len. rewrite Nat2Z.id. by rewrite take_ge.
  - destruct (hit_run p g hashes (Hok g (list_elem_of_here _ _))) as (h1 & E1 & Hs1 & Hm1). pose proof Hs1 as [Hr1 _].
    destruct (IH (take (Z.to_nat h1) hashes)) as (h2 & E2 & Hr2 & Hm2 & Hall2); [intros; apply Hok; by right|]. rewrite len_take in Hr2, Hm2, Hall2 by done.
    exists h2. split; [|split; [lia|split]].
    + cbn [for_fold]. unfold bind at 1. rewrite (bind_run _ _ _ _ _ (on_pool_read _ _ E1)). unfold ret at 1. rewrite slice_to_inside, E2 by done.
      by rewrite take_take_le.
    + intros h' Hh' Hs'. pose proof (Hm1 h' (Hs' g (list_elem_of_here _ _))). apply Hm2; [lia|]. intros g' Hg'. apply take_serves; [|done].
      apply Hs'. by right.
    + intros Hor g' [->|Hg']%elem_of_cons.
      * assert (h2 = h1) as ->; [|done]. destruct Hor as [->|[g' [= _ ->]]]; [lia|]. simpl in E2. injection E2 as E2.
        assert (len (take (Z.to_nat h1) hashes) = h2) as El by (rewrite E2, take_take_le, len_take by lia; done). by rewrite len_take in El.
      * destruct Hor as [->|[g0 [= _ ->]]]; [|by apply elem_of_nil in Hg']. assert (h1 = len hashes) as -> by lia.
        eapply serves_take; [apply Hall2; [by left|done]|lia].
Qed.

Lemma agree_run fuel gs hashes : (∀ g, g ∈ gs → coordinator_ok p g) → (length hashes < fuel)%nat →
  ∃ h, agree fuel i gs hashes m = (Ok (take (Z.to_nat h) hashes), m) ∧ Best gs hashes h.
Proof.
  intros Hok. revert hashes. induction fuel as [|fuel IH]; intros hashes Hfuel; [lia|]. cbn [agree].
  assert (take (Z.to_nat (len hashes)) hashes = hashes) as Htake by (unfold len; rewrite Nat2Z.id; by apply take_ge).
  pose proof (len_nonneg hashes) as Hlen. destruct (decide (gs = [])) as [->|Hgs].
  { exists (len hashes). rewrite Htake. split; [done|]. split; [lia|by intros g ?%elem_of_nil|by intros h' [_ ?]]. }
  rewrite bool_decide_eq_false_2 by done. destruct (decide (hashes = [])) as [->|Hne].
  { exists 0. split; [done|]. split; [done|intros; apply serves_zero|by intros h' [_ ?]]. }
  rewrite bool_decide_eq_false_2 by done. simpl. destruct (shrink_run gs hashes Hok) as (h1 & E1 & Hr1 & Hm1 & Hs1).
  rewrite (bind_run _ _ _ _ _ E1), len_take by done. destruct (Z.ltb_spec h1 (len hashes)) as [Hlt|Hge]; simpl.
  - destruct (Z.eqb_spec (len gs) 1) as [Hone|Hmany].
    + exists h1. split; [done|]. split; [done| |done]. apply Hs1. right. destruct gs as [|g [|g' gs]]; [done|by exists g|].
      rewrite !len_cons in Hone. pose proof (len_nonneg gs). lia.
    + destruct (IH (take (Z.to_nat h1) hashes)) as (h2 & E2 & [Hr2 Hs2 Hm2]); [unfold len in *; rewrite length_take; lia|].
      rewrite len_take in Hr2, Hm2 by done. exists h2. rewrite E2, take_take_le by done. split; [done|]. split; [lia| |].
      * intros g Hg. by eapply serves_take; [apply Hs2|lia].
      * intros h' Hh' Hs'. pose proof (Hm1 h' Hh' Hs'). apply Hm2; [lia|]. intros g Hg. apply take_serves; [by apply Hs'|done].
  - assert (h1 = len hashes) as -> by lia. exists (len hashes). split; [done|]. split; [done|apply Hs1; by left|done].
Qed.

(** The groups of a manager: one coordinator for each id, of its kind *)
Record GroupsOk (gs : list KVGroupCoordinator.t) : Prop := {
  gr_ok g : g ∈ gs → coordinator_ok p g;
  gr_kind g : g ∈ gs → match g with
    | FullKVGroupCoordinator _ id => id = KVCacheGroupId.full
    | SlidingWindowKVGroupCoordinator _ id _ _ => KVCacheGroupId.is_sliding_window id = true
    end;
  gr_nodup : NoDup (KVGroupCoordinator.group_id <$> gs)
}.

Lemma same_group gs g g' : GroupsOk gs → g ∈ gs → g' ∈ gs → KVGroupCoordinator.group_id g = KVGroupCoordinator.group_id g' → g = g'.
Proof.
  intros HG Hg Hg' E. apply list_elem_of_lookup in Hg as [j Hj]. apply list_elem_of_lookup in Hg' as [j' Hj'].
  assert (j = j') as ->; [|congruence]. eapply (NoDup_lookup _ _ _ _ (gr_nodup _ HG)); rewrite list_lookup_fmap, ?Hj, ?Hj'; simpl; [done|by rewrite E].
Qed.

Lemma common_run hashes : GroupsOk (_groups m) → ∃ h, common_hit i hashes m = (Ok (take (Z.to_nat h) hashes), m) ∧ Best (_groups m) hashes h.
Proof.
  intros HG. unfold common_hit. unfold bind at 1, get.
  set (windowed := filter _ (_groups m)). assert (∀ g, g ∈ windowed → coordinator_ok p g) as Hw.
  { intros g [_ Hg]%list_elem_of_filter. by apply HG. }
  assert (∀ g, g ∈ _groups m → g ∈ windowed ∨ ∃ leaves, g = FullKVGroupCoordinator leaves KVCacheGroupId.full) as Hkind.
  { intros g Hg. pose proof (gr_kind _ HG g Hg) as Hk. destruct g as [leaves id|leaves id w ps]; [right; exists leaves; by rewrite Hk|].
    left. by apply list_elem_of_filter. }
  destruct (List.find _ (_groups m)) as [g|] eqn:Ef.
  - apply find_some in Ef as [Hg%list_elem_of_In Hid%bool_decide_eq_true]. 
    destruct (hit_run p g hashes (gr_ok _ HG g Hg)) as (h1 & E1 & Hs1 & Hm1). pose proof Hs1 as [Hr1 _].
    rewrite bind_assoc, (bind_run _ _ _ _ _ (on_pool_read _ _ E1)). unfold bind at 1, ret at 1. rewrite slice_to_inside by done.
    destruct (agree_run (S (length (take (Z.to_nat h1) hashes))) windowed (take (Z.to_nat h1) hashes) Hw ltac:(lia)) as (h2 & E2 & [Hr2 Hs2 Hm2]).
    rewrite len_take in Hr2, Hm2 by done. exists h2. rewrite E2, take_take_le by done. split; [done|]. split; [lia| |].
    + intros g' Hg'. destruct (Hkind g' Hg') as [Hgw|[leaves ->]]; [by eapply serves_take; [apply Hs2|lia]|].
      assert (FullKVGroupCoordinator leaves KVCacheGroupId.full = g) as <- by (by apply (same_group (_groups m))).
      eapply serves_full_le; [exact Hs1|done].
    + intros h' Hh' Hs'. pose proof (Hm1 h' (Hs' g Hg)). apply Hm2; [lia|]. intros g' [_ Hg']%list_elem_of_filter. apply take_serves; [by apply Hs'|done].
  - assert (∀ g, g ∈ _groups m → g ∈ windowed) as Hall.
    { intros g Hg. destruct (Hkind g Hg) as [|[leaves ->]]; [done|]. apply list_elem_of_In in Hg. pose proof (find_none _ _ Ef _ Hg) as Hn. done. }
    unfold bind at 1, ret at 1. destruct (agree_run (S (length hashes)) windowed hashes Hw ltac:(lia)) as (h2 & E2 & [Hr2 Hs2 Hm2]).
    exists h2. split; [done|]. split; [done|intros g Hg; by apply Hs2, Hall|]. intros h' Hh' Hs'. apply Hm2; [done|].
    intros g [_ Hg]%list_elem_of_filter. by apply Hs'.
Qed.
End Groups.

End JengaHits.
