(* ===== verification/JengaManagerFacts.v ===== *)
(** * The invariant of the Jenga block manager

    [JengaStep]: what one request's calls on a pool do, seen by everybody else who holds
    pages there. [JengaOwnership]: the references held in the requests' rows, and the
    invariant that ties them to the pools' reference counts. *)

From S2P Require Import Prelude Tokens FreeQueue Context Hashing Connector Manager ManagerFacts Jenga JengaFacts JengaProperties JengaManager JengaHits.

(** ** One party's steps on a pool *)
Module JengaStep.
Import HugeKVCacheBlock LittleKVCacheBlock JengaBlockPool JengaAbs JengaPoolSpec.

(** The hash a page can serve *)
Definition hash_of (p : t) (c : string) (r : Z) : option bytes :=
  match caches p !! c with
  | Some x => match blocks x !! r with Some b => block_hash b | None => None end
  | None => None
  end.
(** The pages in circulation of a cache, and the parked huge blocks *)
Definition spare_pages (p : t) (c : string) : Z := match caches p !! c with Some x => FreeQueue.length (free x) | None => 0 end.
Definition parked_blocks (p : t) : Z := FreeQueue.length (free_huge_blocks p).

Section Step.
Context (n : Z) (K : gmap string Z).
Context (HK : ∀ c k, K !! c = Some k → 0 < k) (Hn : 2 ≤ n).
Implicit Types (p : t) (a : abs) (owned own others : gmultiset (string * Z)).

Lemma hash_abs p a c k r : Abs n K p a → K !! c = Some k → named n k r → hash_of p c r = ahs (ca a c) r.
Proof.
  intros HA Hk Hr. destruct (abs_cache n K p a c k HA Hk) as (x & Hx & HC). unfold hash_of. rewrite Hx.
  by destruct (cache_block n k x _ r HC Hr) as (b & -> & _ & _ & _ & _ & ->).
Qed.
Lemma hash_unknown p a c r : Abs n K p a → (∀ k, K !! c = Some k → ¬ named n k r) → hash_of p c r = None.
Proof.
  intros HA Hr. unfold hash_of. destruct (caches p !! c) as [x|] eqn:Hx; [|done]. destruct (known_cache n K p a c x HA Hx) as (k & Hk & HC).
  pose proof (cc_blocks _ _ _ _ HC r) as Hb. destruct (blocks x !! r); [|done]. destruct Hb as [Hb _]. by destruct (Hr k Hk Hb).
Qed.
Lemma spare_abs p a c k : Abs n K p a → K !! c = Some k → spare_pages p c = spare c a.
Proof.
  intros HA Hk. destruct (abs_cache n K p a c k HA Hk) as (x & Hx & _). unfold spare_pages. rewrite Hx. by apply (free_length n K p a c k).
Qed.
Lemma parked_abs p a : Abs n K p a → parked_blocks p = parked a.
Proof. apply free_huge_length. Qed.
Lemma named_dec k r : Decision (named n k r).
Proof. unfold named. apply _. Qed.

Lemma same_hash p p' a a' : Abs n K p a → Abs n K p' a' → SameHashes a a' → ∀ c r, hash_of p' c r = hash_of p c r.
Proof.
  intros HA HA' HS c r. destruct (K !! c) as [k|] eqn:Hk.
  - destruct (named_dec k r) as [Hr|Hr].
    + rewrite (hash_abs p' a' c k r), (hash_abs p a c k r) by done. apply HS.
    + assert (∀ k', K !! c = Some k' → ¬ named n k' r) as Hno by (intros k' Hk'; by simplify_eq). by rewrite (hash_unknown p' a'), (hash_unknown p a).
  - assert (∀ k', K !! c = Some k' → ¬ named n k' r) as Hno by (intros k' Hk'; by simplify_eq). by rewrite (hash_unknown p' a'), (hash_unknown p a).
Qed.
Lemma committed_abs p a c k x r : Abs n K p a → K !! c = Some k → committed p c x r ↔ apc (ca a c) !! x = Some r.
Proof.
  intros HA Hk. destruct (abs_cache n K p a c k HA Hk) as (y & Hy & HC). rewrite <- (cc_prefix _ _ _ _ HC). split; [|by exists y].
  intros (y' & Hy' & Hx). by simplify_eq.
Qed.
Lemma committed_known p a c x r : Abs n K p a → committed p c x r → is_Some (K !! c).
Proof. intros HA (y & Hy & _). destruct (known_cache n K p a c y HA Hy) as (k & Hk & _). by exists k. Qed.
Lemma same_committed p p' a a' : Abs n K p a → Abs n K p' a' → SameHashes a a' → ∀ c x r, committed p' c x r ↔ committed p c x r.
Proof.
  intros HA HA' HS c x r. destruct (K !! c) as [k|] eqn:Hk.
  - rewrite (committed_abs p' a' c k), (committed_abs p a c k) by done. by rewrite (proj2 (HS c)).
  - split; intros Hc; eapply committed_known in Hc as [? ?]; try done; congruence.
Qed.

(** The caller trades the references [own] for [own'] while others hold [others]:
    their uncommitted pages stay uncommitted and out of the caller's hands. *)
Record JStep (p : t) own others (p' : t) own' : Prop := {
  js_pool : ∃ a, Pool n K p' a (own' ⊎ others);
  js_fresh c r : (c, r) ∈ others → (c, r) ∉ own → hash_of p c r = None → hash_of p' c r = None ∧ (c, r) ∉ own'
}.

Lemma jstep_refl p a own others : Pool n K p a (own ⊎ others) → JStep p own others p own.
Proof. intros HP. split; [by exists a|done]. Qed.
Lemma jstep_trans p1 p2 p3 own1 own2 own3 others : JStep p1 own1 others p2 own2 → JStep p2 own2 others p3 own3 → JStep p1 own1 others p3 own3.
Proof.
  intros [HP1 Hf1] [HP2 Hf2]. split; [done|]. intros c r Ho Hn1 Hh. destruct (Hf1 c r Ho Hn1 Hh). by apply Hf2.
Qed.

Lemma jenga_massoc (X Y W : gmultiset (string * Z)) : X ⊎ Y ⊎ W = X ⊎ (Y ⊎ W).
Proof. by rewrite (assoc_L disj_union). Qed.

Lemma jalloc p a own others c k : Pool n K p a (own ⊎ others) → K !! c = Some k →
  (spare_pages p c = 0 ∧ parked_blocks p = 0 ∧ alloc_block c p = (Raise InsufficientBlocksError, p)) ∨
  ∃ r p', alloc_block c p = (Ok r, p') ∧ JStep p own others p' ({[+ (c, r) +]} ⊎ own) ∧ r ≠ 0 ∧ (c, r) ∉ own ⊎ others ∧
    hash_of p' c r = None ∧ (∀ c' i, (c', i) ∈ own ⊎ others → hash_of p' c' i = hash_of p c' i) ∧
    (∀ c', c' ≠ c → is_Some (K !! c') → spare_pages p' c' = spare_pages p c') ∧
    ((0 < spare_pages p c ∧ spare_pages p' c = spare_pages p c - 1 ∧ parked_blocks p' = parked_blocks p) ∨
     (spare_pages p c = 0 ∧ spare_pages p' c = k - 1 ∧ parked_blocks p' = parked_blocks p - 1)).
Proof.
  intros HP Hk. pose proof HP as [HA HI]. rewrite (spare_abs p a c k), (parked_abs p a) by done.
  destruct (pool_alloc_run n K HK Hn p a _ c k HP Hk) as [?|(r & p' & a' & E & HP' & Hf & Hr & Hh & _ & Hkeep & [Hs Htk])]; [by left|right].
  pose proof HP' as [HA' _]. pose proof (HK c k Hk). exists r, p'.
  assert (∀ c' i, (c', i) ∈ own ⊎ others → hash_of p' c' i = hash_of p c' i) as Hsame.
  { intros c' i Ho. destruct (iv_own _ _ _ _ _ HI c' i Ho) as (k' & Hk' & Hi).
    rewrite (hash_abs p' a' c' k'), (hash_abs p a c' k') by (first [done|by right]). by apply Hkeep. }
  split; [done|]. split; [|split; [lia|split; [done|split; [|split; [done|split]]]]].
  - split; [exists a'; by rewrite jenga_massoc|]. intros c' i Ho Hno Hz. rewrite Hsame by (apply gmultiset_elem_of_disj_union; by right). split; [done|].
    rewrite gmultiset_elem_of_disj_union, gmultiset_elem_of_singleton. intros [[= -> ->]|?]; [|done]. apply Hf. apply gmultiset_elem_of_disj_union. by right.
  - rewrite (hash_abs p' a' c k) by (first [done|by right]). done.
  - intros c' Hne [k' Hk']. rewrite (spare_abs p' a' c' k'), (spare_abs p a c' k') by done. by apply Hs.
  - by rewrite (spare_abs p' a' c k), (parked_abs p' a').
Qed.

Lemma jtouch p a own others c x r : Pool n K p a (own ⊎ others) → committed p c x r →
  ∃ p', touch c r p = (Ok tt, p') ∧ JStep p own others p' ({[+ (c, r) +]} ⊎ own) ∧ r ≠ 0 ∧
    (∀ c i, hash_of p' c i = hash_of p c i) ∧ ∀ c x i, committed p' c x i ↔ committed p c x i.
Proof.
  intros HP Hx. destruct (committed_page n K p a _ c x r HP Hx) as (k & Hk & Hr & Hh & Hty). pose proof (HK c k Hk).
  destruct (pool_touch_run n K HK Hn p a _ c k r HP Hk Hr Hty) as (p' & a' & E & HP' & HS & _).
  pose proof (same_hash p p' a a' (po_abs _ _ _ _ _ HP) (po_abs _ _ _ _ _ HP') HS) as Hsame.
  exists p'. split; [done|]. split; [|split; [lia|split; [done|]]]; [|by apply (same_committed p p' a a'); [apply HP|apply HP'|]].
  split; [exists a'; by rewrite jenga_massoc|]. intros c' i Ho Hno Hz. rewrite Hsame. split; [done|].
  rewrite gmultiset_elem_of_disj_union, gmultiset_elem_of_singleton. intros [[= -> ->]|?]; [|done].
  rewrite (hash_abs p a c k), Hh in Hz; [done|apply HP|done|by right].
Qed.

Lemma jfree p a own others c r : Pool n K p a (({[+ (c, r) +]} ⊎ own) ⊎ others) → is_Some (K !! c) →
  ∃ p', free_block c r p = (Ok tt, p') ∧ JStep p ({[+ (c, r) +]} ⊎ own) others p' own ∧ (∀ c i, hash_of p' c i = hash_of p c i).
Proof.
  intros HP [k Hk]. pose proof HP as [HA _]. rewrite jenga_massoc in HP.
  destruct (free_run n K HK Hn p a _ c k r HP Hk) as (p' & a' & E & HP' & HS & _).
  pose proof (same_hash p p' a a' HA (po_abs _ _ _ _ _ HP') HS) as Hsame. exists p'. split; [done|]. split; [|done].
  split; [by exists a'|]. intros c' i Ho Hno Hz. rewrite Hsame. split; [done|]. rewrite gmultiset_elem_of_disj_union in Hno. tauto.
Qed.

(** [r] is the caller's alone. *)
Lemma jcommit p a own others c r x :
  Pool n K p a (({[+ (c, r) +]} ⊎ own) ⊎ others) → is_Some (K !! c) → hash_of p c r = None → (c, r) ∉ others → r ≠ 0 →
  ∃ o p', get_or_commit_into_prefix_cache x c r p = (Ok o, p') ∧
    JStep p ({[+ (c, r) +]} ⊎ own) others p' ({[+ (c, default r o) +]} ⊎ own) ∧ default r o ≠ 0 ∧
    hash_of p' c (default r o) = Some x ∧ ∀ c' i y, hash_of p c' i = Some y → hash_of p' c' i = Some y.
Proof.
  intros HP [k Hk] Hh Hno Hr0. pose proof HP as [HA HI]. rewrite jenga_massoc in HP.
  assert (k ≤ r < k * n) as Hr.
  { destruct (iv_own _ _ _ _ _ HI c r) as (k' & Hk' & Hr); [|by simplify_eq]. do 2 (apply gmultiset_elem_of_disj_union; left). by apply gmultiset_elem_of_singleton. }
  pose proof (HK c k Hk). rewrite (hash_abs p a c k) in Hh by (first [done|by right]).
  destruct (get_or_commit_run n K HK Hn p a _ c k r x HP Hk (or_introl Hh)) as (o & p' & a' & E & HP' & Ho & Hserve). pose proof HP' as [HA' HI'].
  assert (∀ r', o = Some r' → k ≤ r' < k * n ∧ ahs (ca a c) r' = Some x) as Htwin.
  { intros r' ->. by apply (iv_cons _ _ _ _ _ HI c k Hk x r'), Ho. }
  assert (k ≤ default r o < k * n) as Hr' by (destruct o as [r'|]; [by apply Htwin|done]).
  assert (∀ c' i, (c', i) ≠ (c, default r o) → hash_of p' c' i = hash_of p c' i) as Hsame.
  { destruct Hserve as [[HS _]|(Hx & -> & [(_ & _ & O) _ Hcm _])]; [intros c' i _; by apply (same_hash p p' a a')|]. simpl. intros c' i Hne.
    destruct (K !! c') as [k'|] eqn:Hk'; [destruct (named_dec k' i) as [Hi|Hi]|].
    - rewrite (hash_abs p' a' c' k'), (hash_abs p a c' k') by done. destruct (decide (c' = c)) as [->|Hc]; [|by rewrite O]. rewrite Hcm, decide_False; [done|congruence].
    - assert (∀ k0, K !! c' = Some k0 → ¬ named n k0 i) as Hno0 by (intros k0 Hk0; by simplify_eq).
      by rewrite (hash_unknown p' a'), (hash_unknown p a).
    - assert (∀ k0, K !! c' = Some k0 → ¬ named n k0 i) as Hno0 by (intros k0 Hk0; by simplify_eq).
      by rewrite (hash_unknown p' a'), (hash_unknown p a). }
  assert (hash_of p' c (default r o) = Some x) as Hhx.
  { rewrite (hash_abs p' a' c k) by (first [done|by right]). destruct Hserve as [[HS Hx]|(Hx & -> & HCm)].
    - rewrite (proj1 (HS c)). by apply (iv_cons _ _ _ _ _ HI c k Hk x).
    - rewrite (cm_hs _ _ _ _ _ HCm). by rewrite decide_True. }
  assert (∀ c' i y, hash_of p c' i = Some y → hash_of p' c' i = Some y) as Hmono.
  { intros c' i y Hy. destruct Hserve as [[HS _]|(_ & -> & _)]; [by rewrite (same_hash p p' a a')|]. simpl in *.
    rewrite Hsame; [done|]. intros [= -> ->]. rewrite (hash_abs p a c k), Hh in Hy by (first [done|by right]). done. }
  exists o, p'. split; [done|]. split; [|split; [lia|done]]. split; [exists a'; by rewrite jenga_massoc|].
  intros c' i Hin Hn' Hz. assert ((c', i) ≠ (c, default r o)) as Hne.
  { intros [= -> ->]. destruct o as [r'|]; simpl in *; [|done]. destruct (Htwin r' eq_refl) as [? Hs]. rewrite (hash_abs p a c k), Hs in Hz by (first [done|by right]). done. }
  rewrite Hsame by done. split; [done|]. rewrite gmultiset_elem_of_disj_union, gmultiset_elem_of_singleton in Hn' |- *. tauto.
Qed.

(** References the caller holds and does not use can count as another party's. *)
Lemma jframe p own extra others p' own' : JStep p own (extra ⊎ others) p' own' → JStep p (own ⊎ extra) others p' (own' ⊎ extra).
Proof.
  intros [[a HP] Hf]. split; [exists a; by rewrite jenga_massoc|]. intros c r Ho Hno Hh. rewrite gmultiset_elem_of_disj_union in Hno.
  destruct (Hf c r) as [? Hn']; [apply gmultiset_elem_of_disj_union; by right|tauto|done|]. split; [done|]. rewrite gmultiset_elem_of_disj_union. tauto.
Qed.

Lemma jreset p a owned : Pool n K p a owned →
  ∃ m p' a', reset_prefix_cache p = (Ok m, p') ∧ Pool n K p' a' owned ∧ ∀ c r, r ≠ 0 → hash_of p c r = None → hash_of p' c r = None.
Proof.
  intros HP. destruct (pool_reset_run n K p a owned HP) as (m & p' & a' & E & HP' & [_ _ _ P _] & _). exists m, p', a'. split; [done|]. split; [done|].
  intros c r Hr0 Hz. pose proof HP as [HA HI]. pose proof HP' as [HA' HI']. destruct (K !! c) as [k|] eqn:Hk; [destruct (named_dec k r) as [Hr|Hr]|].
  - rewrite (hash_abs p a c k) in Hz by done. rewrite (hash_abs p' a' c k) by done. destruct Hr as [?|Hr]; [done|].
    destruct (ahs (ca a' c) r) as [x|] eqn:Ex; [|done]. assert (apc (ca a' c) !! x = Some r) as Hx by (by apply (iv_cons _ _ _ _ _ HI' c k Hk)).
    rewrite P in Hx. case_decide; [done|]. apply (iv_cons _ _ _ _ _ HI c k Hk) in Hx as [_ ?]. congruence.
  - apply (hash_unknown p' a'); [done|]. intros k0 Hk0. by simplify_eq.
  - apply (hash_unknown p' a'); [done|]. intros k0 Hk0. by simplify_eq.
Qed.
End Step.
End JengaStep.

(** ** Who holds what *)
Module JengaOwnership.
Import JengaStep JengaBlockManager.
#[local] Abbreviation Pool := JengaAbs.Pool.

(** The references of a row, of a request's rows, and of the requests of a replica;
    the null page is nobody's. *)
Definition cl (c : string) (l : list Z) : gmultiset (string * Z) := list_to_set_disj ((λ r, (c, r)) <$> filter (λ r, r ≠ 0) l).
Definition pg (L : list string) (f : string → list Z) : gmultiset (string * Z) := foldr (λ c X, cl c (f c) ⊎ X) ∅ L.
Definition hsum (L : list string) (rows : Z → string → list Z) (i : Z) (D : list (Z * Z)) : gmultiset (string * Z) :=
  foldr (λ '(rid, j) X, if decide (j = i) then pg L (rows rid) ⊎ X else X) ∅ D.
Definition held (L : list string) (reps : gmap Z Z) (rows : Z → string → list Z) (i : Z) : gmultiset (string * Z) := hsum L rows i (map_to_list reps).

Lemma cl_app c l1 l2 : cl c (l1 ++ l2) = cl c l1 ⊎ cl c l2.
Proof. unfold cl. by rewrite filter_app, fmap_app, list_to_set_disj_app. Qed.
Lemma cl_elem c l c' r : (c', r) ∈ cl c l ↔ c' = c ∧ r ≠ 0 ∧ r ∈ l.
Proof.
  unfold cl. rewrite elem_of_list_to_set_disj, list_elem_of_fmap. split.
  - intros (x & [= -> ->] & [? ?]%list_elem_of_filter). done.
  - intros (-> & ? & ?). exists r. split; [done|]. by apply list_elem_of_filter.
Qed.
Lemma cl_one c r : r ≠ 0 → cl c [r] = {[+ (c, r) +]}.
Proof. intros Hr. unfold cl. rewrite filter_cons_True by done. simpl. multiset_solver. Qed.
Lemma cl_zero c : cl c [0] = ∅.
Proof. unfold cl. by rewrite filter_cons_False by naive_solver. Qed.
Lemma cl_zeros c n : cl c (repeat 0 n) = ∅.
Proof. induction n as [|n IH]; [done|]. change (repeat 0 (S n)) with ([0] ++ repeat 0 n). rewrite cl_app, cl_zero, IH. multiset_solver. Qed.
Lemma cl_rev c l : cl c (rev l) = cl c l.
Proof. unfold cl. by rewrite <- Permutation_rev. Qed.
Lemma cl_set c l j r r' : l !! j = Some r → ∃ X, cl c l = cl c [r] ⊎ X ∧ cl c (<[j := r']> l) = cl c [r'] ⊎ X.
Proof.
  intros Hj. exists (cl c (take j l) ⊎ cl c (drop (S j) l)). split.
  - rewrite <- (take_drop_middle l j r Hj) at 1. change (r :: drop (S j) l) with ([r] ++ drop (S j) l). rewrite !cl_app. multiset_solver.
  - rewrite insert_take_drop by (by eapply lookup_lt_Some). change (r' :: drop (S j) l) with ([r'] ++ drop (S j) l). rewrite !cl_app. multiset_solver.
Qed.

Lemma pg_ext L f f' : (∀ c, c ∈ L → f' c = f c) → pg L f' = pg L f.
Proof.
  induction L as [|c L IH]; intros Hf; [done|]. simpl. rewrite Hf by left. f_equal. apply IH. intros; apply Hf; by right.
Qed.
Lemma pg_split L f c : NoDup L → c ∈ L → ∃ X, ∀ f', (∀ c', c' ≠ c → f' c' = f c') → pg L f' = cl c (f' c) ⊎ X.
Proof.
  induction L as [|c0 L IH]; intros Hnd Hc; [by apply elem_of_nil in Hc|]. apply NoDup_cons in Hnd as [Hc0 Hnd].
  destruct (decide (c0 = c)) as [->|Hne].
  - exists (pg L f). intros f' Hf. simpl. f_equal. apply pg_ext. intros c' Hc'. apply Hf. by intros ->.
  - apply elem_of_cons in Hc as [->|Hc]; [done|]. destruct (IH Hnd Hc) as [X HX]. exists (cl c0 (f c0) ⊎ X). intros f' Hf. simpl.
    rewrite (HX f' Hf), (Hf c0 Hne). multiset_solver.
Qed.
Lemma pg_elem L f c r : (c, r) ∈ pg L f ↔ c ∈ L ∧ r ≠ 0 ∧ r ∈ f c.
Proof.
  induction L as [|c0 L IH]; simpl; [rewrite elem_of_nil; multiset_solver|].
  rewrite gmultiset_elem_of_disj_union, IH, cl_elem, elem_of_cons. naive_solver.
Qed.
Lemma pg_empty L : pg L (λ _, []) = ∅.
Proof. induction L as [|c L IH]; [done|]. simpl. rewrite IH. done. Qed.

Lemma hsum_perm L rows i D D' : D ≡ₚ D' → hsum L rows i D = hsum L rows i D'.
Proof.
  induction 1 as [|[rid j] D D' _ IH|[rid j] [rid' j'] D|D1 D2 D3 _ IH1 _ IH2]; simpl; [done|by rewrite IH| |congruence].
  do 2 case_decide; multiset_solver.
Qed.
Lemma hsum_ext L rows rows' i D : (∀ rid j, (rid, j) ∈ D → ∀ c, c ∈ L → rows' rid c = rows rid c) → hsum L rows' i D = hsum L rows i D.
Proof.
  induction D as [|[rid j] D IH]; intros Hr; [done|]. simpl. rewrite IH by (intros; eapply Hr; [by right|done]).
  case_decide; [|done]. f_equal. apply pg_ext. apply (Hr rid j). by left.
Qed.
Lemma held_split L reps rows rid i : reps !! rid = Some i → held L reps rows i = pg L (rows rid) ⊎ held L (delete rid reps) rows i.
Proof.
  intros Hr. unfold held. rewrite (hsum_perm L rows i (map_to_list reps) ((rid, i) :: map_to_list (delete rid reps))) by by rewrite map_to_list_delete.
  simpl. by rewrite decide_True.
Qed.
Lemma held_away L reps rows rid i j : reps !! rid = Some j → j ≠ i → held L reps rows i = held L (delete rid reps) rows i.
Proof.
  intros Hr Hne. unfold held. rewrite (hsum_perm L rows i (map_to_list reps) ((rid, j) :: map_to_list (delete rid reps))) by by rewrite map_to_list_delete.
  simpl. by rewrite decide_False.
Qed.
Lemma held_ext L reps rows rows' i : (∀ rid, is_Some (reps !! rid) → ∀ c, c ∈ L → rows' rid c = rows rid c) → held L reps rows' i = held L reps rows i.
Proof. intros Hr. apply hsum_ext. intros rid j Hj%elem_of_map_to_list. apply Hr. by exists j. Qed.
Lemma held_elem L reps rows i rid c r : reps !! rid = Some i → c ∈ L → r ≠ 0 → r ∈ rows rid c → (c, r) ∈ held L reps rows i.
Proof.
  intros Hr Hc H0 Hin. rewrite (held_split L reps rows rid i Hr). apply gmultiset_elem_of_disj_union. left. by apply pg_elem.
Qed.

(** The huge blocks that [j] more pages take from the parked ones *)
Definition need (k s j : Z) : Z := ceildiv (Z.max 0 (j - s)) k.

Lemma ceildiv_step a k : 0 < k → ceildiv (a + k) k = ceildiv a k + 1.
Proof. intros Hk. unfold ceildiv. replace (a + k) with (a + (-1) * (- k)) by lia. rewrite Z.div_add by lia. lia. Qed.
Lemma ceildiv_nonneg a k : 0 < k → 0 ≤ a → 0 ≤ ceildiv a k.
Proof. intros Hk Ha. unfold ceildiv. pose proof (Z.div_mod a (- k)). pose proof (Z.mod_neg_bound a (- k)). nia. Qed.
Lemma ceildiv_small a k : 0 < a ≤ k → ceildiv a k = 1.
Proof. intros Ha. unfold ceildiv. pose proof (Z.div_mod a (- k)). pose proof (Z.mod_neg_bound a (- k)). nia. Qed.
Lemma need_nonneg k s j : 0 < k → 0 ≤ need k s j.
Proof. intros. apply ceildiv_nonneg; lia. Qed.
Lemma need_spare k s j : 0 < s → need k s (j + 1) = need k (s - 1) j.
Proof. intros. unfold need. f_equal. lia. Qed.
Lemma need_grow k j : 0 < k → 0 ≤ j → need k 0 (j + 1) = need k (k - 1) j + 1.
Proof.
  intros Hk Hj. unfold need. destruct (Z.le_gt_cases (j + 1) k).
  - rewrite (Z.max_l 0 (j - (k - 1))), (ceildiv_small (Z.max 0 (j + 1 - 0))) by lia. unfold ceildiv. by rewrite Z.div_0_l by lia.
  - rewrite <- ceildiv_step by done. f_equal. lia.
Qed.

Section Owned.
Context `{Digest} {B : Backend} (n : Z) (K : gmap string Z).
Context (HK : ∀ c k, K !! c = Some k → 0 < k) (Hn : 2 ≤ n).
Implicit Types (m : t) (p : JengaBlockPool.t) (own others extra : gmultiset (string * Z)).

Definition row_opt m (c : string) (rid : Z) : option (list Z) := _leaves m !! c ≫= λ leaf, req_to_blocks leaf !! rid.
Definition rw m (rid : Z) (c : string) : list Z := default [] (row_opt m c rid).
(** All that the calls on rows and pools leave alone *)
Definition frame m : t := set_metrics Metrics.zero (set_pools [] (set_leaves ∅ m)).
Definition kinds m : gmap string KVCacheGroupId.t := group_id <$> _leaves m.

(** The coordinators: one for each group of leaves *)
Record GroupsStatic (L : list string) (gs : list KVGroupCoordinator.t) : Prop := {
  gs_leaves : (gs ≫= KVGroupCoordinator.leaf_ids) ≡ₚ L;
  gs_kind g : g ∈ gs → match g with
    | KVGroupCoordinator.FullKVGroupCoordinator _ id => id = KVCacheGroupId.full
    | KVGroupCoordinator.SlidingWindowKVGroupCoordinator _ id _ page_size =>
        KVCacheGroupId.is_sliding_window id = true ∧ 0 ≤ KVGroupCoordinator._blocks_in_window id page_size
    end;
  gs_nodup : NoDup (KVGroupCoordinator.group_id <$> gs)
}.

(** The settings of a manager *)
Record Static m : Prop := {
  st_groups : GroupsStatic (leaf_ids m) (_groups m);
  st_block : 0 < _block_size m;
  st_nodup : NoDup (leaf_ids m);
  st_leaves c : c ∈ leaf_ids m ↔ is_Some (_leaves m !! c);
  st_caches c : c ∈ leaf_ids m → is_Some (K !! c)
}.

Lemma frame_eq {A} (f : t → A) m m' : frame m' = frame m → (∀ m, f (frame m) = f m) → f m' = f m.
Proof. intros E Hf. by rewrite <- (Hf m'), E, Hf. Qed.

(** All that no call on a claimed request changes *)
Definition core m : t := set_hashes ∅ (set_committed ∅ (frame m)).
Lemma core_eq {A} (f : t → A) m m' : core m' = core m → (∀ m, f (core m) = f m) → f m' = f m.
Proof. intros E Hf. by rewrite <- (Hf m'), E, Hf. Qed.
Lemma frame_core m m' : frame m' = frame m → core m' = core m.
Proof. unfold core. by intros ->. Qed.

Lemma static_fields m m' : leaf_ids m' = leaf_ids m → _groups m' = _groups m → _block_size m' = _block_size m → kinds m' = kinds m → Static m → Static m'.
Proof.
  intros El Eg Eb Ek [HG H1 H2 H3 H4]. split; rewrite ?El, ?Eg, ?Eb; try done.
  intros c. rewrite H3. assert (kinds m' !! c = kinds m !! c) as Ec by by rewrite Ek. unfold kinds in Ec. rewrite !lookup_fmap in Ec.
  destruct (_leaves m' !! c), (_leaves m !! c); simpl in Ec; try done; split; (done || by intros [? ?]).
Qed.
Lemma static_same m m' : core m' = core m → kinds m' = kinds m → Static m → Static m'.
Proof.
  intros E Ek. apply static_fields; [by apply (core_eq leaf_ids)|by apply (core_eq _groups)|by apply (core_eq _block_size)|done].
Qed.

(** One call on the request [rid] of replica [i] *)
Record Move m m' (rid i : Z) p p' : Prop := {
  mv_frame : frame m' = frame m;
  mv_kinds : kinds m' = kinds m;
  mv_pools : pools m' = <[Z.to_nat i := p']> (pools m);
  mv_others rid' c : rid' ≠ rid → row_opt m' c rid' = row_opt m c rid';
  mv_rows c : c ∈ leaf_ids m → is_Some (row_opt m c rid) → is_Some (row_opt m' c rid)
}.

Lemma move_trans m1 m2 m3 rid i p1 p2 p3 : Move m1 m2 rid i p1 p2 → Move m2 m3 rid i p2 p3 → Move m1 m3 rid i p1 p3.
Proof.
  intros [F1 K1 P1 O1 R1] [F2 K2 P2 O2 R2]. split; [congruence|congruence|by rewrite P2, P1, list_insert_insert_eq| |].
  - intros rid' c Hne. by rewrite O2, O1.
  - intros c Hc Hs. apply R2; [by rewrite (frame_eq leaf_ids m1 m2)|by apply R1].
Qed.
Lemma move_refl m rid i p : pools m !! Z.to_nat i = Some p → Move m m rid i p p.
Proof. intros Hp. split; try done. by rewrite list_insert_id. Qed.

(** The request's place: its replica's pool, its rows *)
Record At m (rid i : Z) p : Prop := {
  at_static : Static m;
  at_index : 0 ≤ i;
  at_pool : pools m !! Z.to_nat i = Some p;
  at_rows c : c ∈ leaf_ids m → is_Some (row_opt m c rid)
}.

Lemma move_ids m m' rid i p p' : Move m m' rid i p p' → leaf_ids m' = leaf_ids m.
Proof. intros HM. apply (frame_eq leaf_ids); [apply HM|done]. Qed.
Lemma move_at m m' rid i p p' : Move m m' rid i p p' → At m rid i p → At m' rid i p'.
Proof.
  intros HM [HS Hi Hp Hr]. pose proof HM as [F1 K1 P1 O1 R1]. split; [by eapply static_same; [apply frame_core|..]|done| |].
  - rewrite P1. apply list_lookup_insert_eq. by eapply lookup_lt_Some.
  - intros c. rewrite (move_ids _ _ _ _ _ _ HM). intros Hc. apply R1; [done|]. by apply Hr.
Qed.

Lemma row_run m c rid l : row_opt m c rid = Some l → row c rid m = (Ok l, m).
Proof.
  unfold row_opt, row, leaf_at, bind, get. destruct (_leaves m !! c) as [leaf|]; [|done]. simpl. intros E. by rewrite E.
Qed.
Lemma at_row m rid i p c : At m rid i p → c ∈ leaf_ids m → row c rid m = (Ok (rw m rid c), m) ∧ row_opt m c rid = Some (rw m rid c).
Proof.
  intros HA Hc. destruct (at_rows _ _ _ _ HA c Hc) as [l Hl]. unfold rw. rewrite Hl. split; [by apply row_run|done].
Qed.

(** Writing a row *)
Definition putm (c : string) (rid : Z) (l : list Z) m : t := (put_row c rid l m).2.
Lemma jenga_put_run c rid l m : put_row c rid l m = (Ok tt, putm c rid l m).
Proof. done. Qed.
Lemma put_row_opt m c rid l c' rid' : is_Some (_leaves m !! c) →
  row_opt (putm c rid l m) c' rid' = if decide (c' = c ∧ rid' = rid) then Some l else row_opt m c' rid'.
Proof.
  intros [leaf Hl]. unfold row_opt, putm, put_row, on_leaf, modify. simpl. destruct (decide (c' = c)) as [->|Hc].
  - rewrite lookup_alter_eq, Hl. simpl. destruct (decide (rid' = rid)) as [->|Hr].
    + rewrite lookup_insert_eq. by rewrite decide_True.
    + rewrite lookup_insert_ne by done. rewrite decide_False by tauto. done.
  - rewrite lookup_alter_ne by done. rewrite decide_False by tauto. done.
Qed.
Lemma put_kinds m c rid l : kinds (putm c rid l m) = kinds m.
Proof.
  unfold kinds, putm, put_row, on_leaf, modify. simpl. apply map_eq. intros c'. rewrite !lookup_fmap. destruct (decide (c' = c)) as [->|Hc].
  - rewrite lookup_alter_eq. by destruct (_leaves m !! c).
  - by rewrite lookup_alter_ne.
Qed.

Lemma at_leaf m rid i p c : At m rid i p → c ∈ leaf_ids m → is_Some (_leaves m !! c).
Proof. intros HA Hc. by apply (st_leaves _ (at_static _ _ _ _ HA)). Qed.
Lemma put_rw m rid i p c l c' : At m rid i p → c ∈ leaf_ids m → rw (putm c rid l m) rid c' = if decide (c' = c) then l else rw m rid c'.
Proof.
  intros HA Hc. unfold rw. rewrite put_row_opt by by eapply at_leaf. destruct (decide (c' = c)) as [->|Hne]; [by rewrite decide_True|].
  rewrite decide_False; [done|tauto].
Qed.
Lemma put_move m rid i p c l : At m rid i p → c ∈ leaf_ids m → Move m (putm c rid l m) rid i p p.
Proof.
  intros HA Hc. pose proof (at_leaf m rid i p c HA Hc) as Hl. split; [done|apply put_kinds| | |].
  - simpl. rewrite list_insert_id; [done|apply HA].
  - intros rid' c' Hne. rewrite put_row_opt by done. rewrite decide_False; [done|tauto].
  - intros c' _ Hs. rewrite put_row_opt by done. by case_decide.
Qed.
(** Rewriting one row changes one part of the references. *)
Lemma put_pg m rid i p c l : At m rid i p → c ∈ leaf_ids m →
  ∃ X, pg (leaf_ids m) (rw m rid) = cl c (rw m rid c) ⊎ X ∧ pg (leaf_ids m) (rw (putm c rid l m) rid) = cl c l ⊎ X.
Proof.
  intros HA Hc. destruct (pg_split (leaf_ids m) (rw m rid) c) as [X HX]; [apply (st_nodup _ (at_static _ _ _ _ HA))|done|].
  exists X. rewrite (HX (rw m rid)) by done. split; [done|]. rewrite HX.
  - by rewrite (put_rw m rid i p), decide_True.
  - intros c' Hne. by rewrite (put_rw m rid i p), decide_False.
Qed.

(** A call on the pool *)
Lemma pool_run {A} m rid i p (f : M JengaBlockPool.t A) r p' : At m rid i p → f p = (r, p') →
  ∃ m', on_pool i f m = (r, m') ∧ Move m m' rid i p p' ∧ (∀ c, rw m' rid c = rw m rid c).
Proof.
  intros [_ Hi Hp _] E. exists (set_pools (<[Z.to_nat i := p']> (pools m)) m). split; [|by split].
  unfold on_pool. rewrite (Ownership.py_index_pools (pools m) i p Hi Hp), E. unfold BlockManager.position.
  rewrite (proj2 (Z.ltb_ge i 0)) by done. done.
Qed.
Lemma jenga_pool_at_run m rid i p : At m rid i p → pool_at i m = (Ok p, m).
Proof.
  intros HA. unfold pool_at. destruct HA as [_ Hi Hp _].
  apply (JengaHits.on_pool_read i p m); [by apply Ownership.py_index_pools|done].
Qed.

(** *** Drawing pages *)

(** A page of one slot, not yet published *)
Definition Private p (tot : gmultiset (string * Z)) (c : string) (r : Z) : Prop := hash_of p c r = None ∧ multiplicity (c, r) tot = 1%nat.
Definition Keeps p tot p' tot' : Prop := ∀ c r, Private p tot c r → Private p' tot' c r.
(** What the request's rows gained at the end is private. *)
Definition Extends m m' rid p' tot' : Prop :=
  ∀ c, ∃ l, rw m' rid c = rw m rid c ++ l ∧ ∀ r, r ∈ l → r ≠ 0 ∧ Private p' tot' c r.

Lemma private_in p tot c r : Private p tot c r → (c, r) ∈ tot.
Proof. intros [_ Hm]. apply elem_of_multiplicity. lia. Qed.

Lemma draw_run m rid i p a others c k :
  At m rid i p → Pool n K p a (pg (leaf_ids m) (rw m rid) ⊎ others) → c ∈ leaf_ids m → K !! c = Some k →
  (0 < spare_pages p c ∨ 0 < parked_blocks p) →
  ∃ r m' p', draw c rid i m = (Ok tt, m') ∧ Move m m' rid i p p' ∧
    JStep n K p (pg (leaf_ids m) (rw m rid)) others p' (pg (leaf_ids m) (rw m' rid)) ∧
    (∀ c', rw m' rid c' = if decide (c' = c) then rw m rid c ++ [r] else rw m rid c') ∧ r ≠ 0 ∧
    Private p' (pg (leaf_ids m) (rw m' rid) ⊎ others) c r ∧
    Keeps p (pg (leaf_ids m) (rw m rid) ⊎ others) p' (pg (leaf_ids m) (rw m' rid) ⊎ others) ∧
    (∀ c', c' ≠ c → c' ∈ leaf_ids m → spare_pages p' c' = spare_pages p c') ∧
    ((0 < spare_pages p c ∧ spare_pages p' c = spare_pages p c - 1 ∧ parked_blocks p' = parked_blocks p) ∨
     (spare_pages p c = 0 ∧ spare_pages p' c = k - 1 ∧ parked_blocks p' = parked_blocks p - 1)).
Proof.
  intros HA HP Hc Hk Hfree. destruct (jalloc n K HK Hn p a _ others c k HP Hk) as [(? & ? & _)|(r & p' & E & HJ & Hr & Hnew & Hz & Hsame & Hs & Htk)]; [lia|].
  destruct (pool_run m rid i p _ _ _ HA E) as (m1 & E1 & HM1 & Hrw1). pose proof (move_at _ _ _ _ _ _ HM1 HA) as HA1. pose proof (move_ids _ _ _ _ _ _ HM1) as Hid.
  assert (c ∈ leaf_ids m1) as Hc1 by by rewrite Hid.
  destruct (put_pg m1 rid i p' c (rw m1 rid c ++ [r]) HA1 Hc1) as (X & HX1 & HX2). rewrite Hid in HX1, HX2. set (m2 := putm c rid (rw m1 rid c ++ [r]) m1) in *.
  assert (pg (leaf_ids m) (rw m2 rid) = {[+ (c, r) +]} ⊎ pg (leaf_ids m) (rw m rid)) as Hpg.
  { rewrite HX2, cl_app, cl_one by done. rewrite (pg_ext _ (rw m1 rid) (rw m rid)) by (intros; by rewrite Hrw1). rewrite HX1. multiset_solver. }
  assert (Move m m2 rid i p p') as HM by (apply (move_trans m m1 m2 rid i p p' p'); [done|by apply put_move]).
  exists r, m2, p'. split; [|split; [done|split; [by rewrite Hpg|split; [|split; [done|split; [|split; [|split]]]]]]].
  - unfold draw. rewrite (bind_run _ _ _ _ _ E1). destruct (at_row m1 rid i p' c HA1 Hc1) as [Er _]. rewrite (bind_run _ _ _ _ _ Er). done.
  - intros c'. unfold m2. rewrite (put_rw m1 rid i p') by done. by rewrite !Hrw1.
  - split; [done|]. rewrite Hpg, jenga_massoc, multiplicity_disj_union, multiplicity_singleton_eq. apply not_elem_of_multiplicity in Hnew. lia.
  - intros c' r' [Hh Hm']. assert ((c', r') ∈ pg (leaf_ids m) (rw m rid) ⊎ others) as Hin by (apply elem_of_multiplicity; lia).
    split; [by rewrite Hsame|]. rewrite Hpg, jenga_massoc, multiplicity_disj_union, multiplicity_singleton_ne by (intros [= -> ->]; done). lia.
  - intros c' Hne Hc'. apply Hs; [done|]. by apply (st_caches _ (at_static _ _ _ _ HA)).
  - done.
Qed.

Lemma keeps_trans p1 p2 p3 t1 t2 t3 : Keeps p1 t1 p2 t2 → Keeps p2 t2 p3 t3 → Keeps p1 t1 p3 t3.
Proof. intros H1 H2 c r Hp. by apply H2, H1. Qed.

Lemma draw_loop (l0 : list Z) m rid i p a others c k :
  At m rid i p → Pool n K p a (pg (leaf_ids m) (rw m rid) ⊎ others) → c ∈ leaf_ids m → K !! c = Some k →
  need k (spare_pages p c) (len l0) ≤ parked_blocks p →
  ∃ l m' p', for_each l0 (λ _, draw c rid i) m = (Ok tt, m') ∧ Move m m' rid i p p' ∧
    JStep n K p (pg (leaf_ids m) (rw m rid)) others p' (pg (leaf_ids m) (rw m' rid)) ∧
    (∀ c', rw m' rid c' = if decide (c' = c) then rw m rid c ++ l else rw m rid c') ∧ len l = len l0 ∧
    (∀ r, r ∈ l → r ≠ 0 ∧ Private p' (pg (leaf_ids m) (rw m' rid) ⊎ others) c r) ∧
    Keeps p (pg (leaf_ids m) (rw m rid) ⊎ others) p' (pg (leaf_ids m) (rw m' rid) ⊎ others) ∧
    (∀ c', c' ≠ c → c' ∈ leaf_ids m → spare_pages p' c' = spare_pages p c') ∧
    parked_blocks p' = parked_blocks p - need k (spare_pages p c) (len l0).
Proof.
  revert m p a. induction l0 as [|x l0 IH]; intros m p a HA HP Hc Hk Hneed; pose proof (HK c k Hk) as Hkp.
  - exists [], m, p. split; [done|]. split; [apply move_refl; apply HA|]. split; [by eapply jstep_refl|]. split_and!; try done.
    + intros c'. case_decide as Hc'; [subst; by rewrite app_nil_r|done].
    + intros r Hr. by apply elem_of_nil in Hr.
    + by intros c' r'.
    + assert (0 ≤ spare_pages p c) as Hs0.
      { destruct HP as [HPA _]. rewrite (spare_abs n K p a c k) by done. apply len_nonneg. }
      unfold need. rewrite Z.max_l by (unfold len; simpl; lia). unfold ceildiv. rewrite Z.div_0_l by lia. lia.
  - rewrite len_cons in *. pose proof (len_nonneg l0) as Hl0.
    assert (0 ≤ spare_pages p c) as Hs0.
    { destruct HP as [HPA _]. rewrite (spare_abs n K p a c k) by done. apply len_nonneg. }
    assert (0 < spare_pages p c ∨ 0 < parked_blocks p) as Hfree.
    { destruct (decide (0 < spare_pages p c)); [by left|right]. replace (spare_pages p c) with 0 in Hneed by lia.
      rewrite need_grow in Hneed by done. pose proof (need_nonneg k (k - 1) (len l0) Hkp). lia. }
    destruct (draw_run m rid i p a others c k HA HP Hc Hk Hfree) as (r & m1 & p1 & E1 & HM1 & HJ1 & Hrw1 & Hr & Hpr & Hkeep1 & Hsp1 & Htk).
    pose proof (move_ids _ _ _ _ _ _ HM1) as Hid. destruct (js_pool _ _ _ _ _ _ _ HJ1) as [a1 HP1]. rewrite <- Hid in HP1.
    assert (need k (spare_pages p1 c) (len l0) = need k (spare_pages p c) (len l0 + 1) + (parked_blocks p1 - parked_blocks p)) as En.
    { destruct Htk as [(Hs & -> & ->)|(Hs & -> & ->)]; [rewrite need_spare by done; lia|]. rewrite Hs, need_grow by done. lia. }
    destruct (IH m1 p1 a1) as (l & m2 & p2 & E2 & HM2 & HJ2 & Hrw2 & Hl & Hpr2 & Hkeep2 & Hsp2 & Hpk2);
      [by eapply move_at|done|by rewrite Hid|done|rewrite En; lia|]. rewrite Hid in *.
    exists (r :: l), m2, p2. split; [simpl; by rewrite (bind_run _ _ _ _ _ E1)|]. split; [by eapply move_trans|]. split; [by eapply jstep_trans|]. split_and!.
    + intros c'. rewrite Hrw2, !Hrw1. case_decide; [|done]. rewrite decide_True by done. by rewrite <- app_assoc.
    + by rewrite len_cons, Hl.
    + intros r' [->|Hr']%elem_of_cons; [split; [done|by apply Hkeep2]|by apply Hpr2].
    + by eapply keeps_trans.
    + intros c' Hne Hc'. rewrite Hsp2, Hsp1 by done. done.
    + rewrite Hpk2, En. lia.
Qed.

(** *** Admission *)

Definition ratio_of (c : string) : Z := default 1 (K !! c).
Definition total_need p (D : list (string * Z)) : Z := zsum (map (λ '(c, j), need (ratio_of c) (spare_pages p c) j) D).

Lemma total_need_cons p c j D : total_need p ((c, j) :: D) = need (ratio_of c) (spare_pages p c) j + total_need p D.
Proof. done. Qed.

Lemma spare_nonneg p a own c : Pool n K p a own → 0 ≤ spare_pages p c.
Proof.
  intros [HA _]. destruct (K !! c) as [k|] eqn:Hk; [rewrite (spare_abs n K p a c k) by done; apply len_nonneg|].
  unfold spare_pages. destruct (JengaBlockPool.caches p !! c) as [x|] eqn:Hx; [|done].
  destruct (JengaPoolSpec.known_cache n K p a c x HA Hx) as (k & Hk' & _). congruence.
Qed.

Lemma extends_trans m1 m2 m3 rid p2 p3 t2 t3 : Extends m1 m2 rid p2 t2 → Keeps p2 t2 p3 t3 → Extends m2 m3 rid p3 t3 → Extends m1 m3 rid p3 t3.
Proof.
  intros H1 HKe H2 c. destruct (H1 c) as (l1 & E1 & P1), (H2 c) as (l2 & E2 & P2). exists (l1 ++ l2). rewrite E2, E1, <- app_assoc. split; [done|].
  intros r [Hr|Hr]%elem_of_app; [|by apply P2]. destruct (P1 r Hr). split; [done|by apply HKe].
Qed.
Lemma extends_refl m rid p tot : Extends m m rid p tot.
Proof. intros c. exists []. rewrite app_nil_r. split; [done|]. by intros r ?%elem_of_nil. Qed.

Lemma demand_loop D m rid i p a others :
  At m rid i p → Pool n K p a (pg (leaf_ids m) (rw m rid) ⊎ others) → NoDup D.*1 → (∀ c, c ∈ D.*1 → c ∈ leaf_ids m) →
  total_need p D ≤ parked_blocks p →
  ∃ m' p', for_each D (λ '(c, j), let! _ := row c rid in for_each (zrange 0 j) (λ _, draw c rid i)) m = (Ok tt, m') ∧ Move m m' rid i p p' ∧
    JStep n K p (pg (leaf_ids m) (rw m rid)) others p' (pg (leaf_ids m) (rw m' rid)) ∧
    Extends m m' rid p' (pg (leaf_ids m) (rw m' rid) ⊎ others) ∧
    Keeps p (pg (leaf_ids m) (rw m rid) ⊎ others) p' (pg (leaf_ids m) (rw m' rid) ⊎ others) ∧
    (∀ c j, (c, j) ∈ D → len (rw m' rid c) = len (rw m rid c) + Z.max 0 j) ∧ (∀ c, c ∉ D.*1 → rw m' rid c = rw m rid c).
Proof.
  revert m p a. induction D as [|[c j] D IH]; intros m p a HA HP Hnd Hin Hneed.
  - exists m, p. split; [done|]. split; [apply move_refl; apply HA|]. split; [by eapply jstep_refl|]. split; [apply extends_refl|]. split; [by intros c r|].
    split; [|done]. intros c j Hcj. by apply elem_of_nil in Hcj.
  - apply NoDup_cons in Hnd as [Hc Hnd]. assert (c ∈ leaf_ids m) as HcL by (apply Hin; by left).
    destruct (st_caches _ (at_static _ _ _ _ HA) c HcL) as [k Hk]. pose proof (HK c k Hk) as Hkp.
    assert (len (zrange 0 j) = Z.max 0 j) as Hlj by (destruct (Z.le_gt_cases 0 j); [rewrite len_zrange; lia|rewrite zrange_empty by lia; unfold len; simpl; lia]).
    pose proof (spare_nonneg p a _ c HP) as Hs.
    assert (need k (spare_pages p c) (Z.max 0 j) = need k (spare_pages p c) j) as Hnj by (unfold need; f_equal; lia).
    assert (ratio_of c = k) as Ek by (unfold ratio_of; by rewrite Hk).
    assert (∀ D', (∀ c, c ∈ D'.*1 → is_Some (K !! c)) → 0 ≤ total_need p D') as Hpos.
    { induction D' as [|[c' j'] D' IHD]; intros HD; [done|]. rewrite total_need_cons. destruct (HD c') as [k' Hk']; [by left|].
      assert (0 ≤ total_need p D') by (apply IHD; intros; apply HD; by right).
      assert (0 ≤ need (ratio_of c') (spare_pages p c') j') by (apply need_nonneg; unfold ratio_of; rewrite Hk'; by eapply HK). lia. }
    assert (0 ≤ total_need p D) as HposD by (apply Hpos; intros c' Hc'; apply (st_caches _ (at_static _ _ _ _ HA)), Hin; by right).
    rewrite total_need_cons, Ek in Hneed.
    destruct (draw_loop (zrange 0 j) m rid i p a others c k HA HP HcL Hk) as (l & m1 & p1 & E1 & HM1 & HJ1 & Hrw1 & Hl & Hpr & Hkeep1 & Hsp1 & Hpk1); [rewrite Hlj, Hnj; lia|].
    rewrite Hlj, ?Hnj in *. pose proof (move_ids _ _ _ _ _ _ HM1) as Hid. destruct (js_pool _ _ _ _ _ _ _ HJ1) as [a1 HP1]. rewrite <- Hid in HP1.
    assert (total_need p1 D = total_need p D) as Etn.
    { unfold total_need. f_equal. apply map_ext_in. intros [c' j'] Hcj. f_equal. apply list_elem_of_In in Hcj.
      apply Hsp1; [|apply Hin; right; apply list_elem_of_fmap; by exists (c', j')]. intros ->. apply Hc. apply list_elem_of_fmap. by exists (c, j'). }
    destruct (IH m1 p1 a1) as (m2 & p2 & E2 & HM2 & HJ2 & HX2 & Hkeep2 & Hlen2 & Hrest2); [by eapply move_at|done|done| |rewrite Etn; lia|].
    { intros c' Hc'. rewrite Hid. apply Hin. by right. }
    rewrite Hid in *. exists m2, p2. split; [|split; [by eapply move_trans|split; [by eapply jstep_trans|split; [|split; [by eapply keeps_trans|]]]]].
    + cbn [for_each]. unfold bind at 1. destruct (at_row m rid i p c HA HcL) as [Er _]. rewrite (bind_run _ _ _ _ _ Er), E1. exact E2.
    + apply (extends_trans m m1 m2 rid p1 p2 (pg (leaf_ids m) (rw m1 rid) ⊎ others)); [|exact Hkeep2|done]. intros c'. rewrite Hrw1. destruct (decide (c' = c)) as [->|Hne]; [by exists l|].
      exists []. rewrite app_nil_r. split; [done|]. by intros r ?%elem_of_nil.
    + split.
      * intros c' j' [[= -> ->]|Hcj]%elem_of_cons.
        -- rewrite Hrest2, Hrw1, decide_True, len_app by done. lia.
        -- rewrite (Hlen2 c' j' Hcj), Hrw1. rewrite decide_False; [done|]. intros ->. apply Hc. apply list_elem_of_fmap. by exists (c, j').
      * intros c' [Hne Hc']%not_elem_of_cons. by rewrite Hrest2, Hrw1, decide_False.
Qed.

(** The check compares the demand's huge blocks with the parked ones, before any page
    is drawn. *)
Lemma admission_run p a own D m :
  Pool n K p a own → (∀ c, c ∈ D.*1 → is_Some (K !! c)) →
  _check_admission p D m = (if parked_blocks p <? total_need p D then Raise InsufficientBlocksError else Ok tt, m).
Proof.
  intros HP HD. unfold _check_admission, _huge_blocks_for_demand.
  assert (∀ acc, for_fold D acc (λ num_huge_blocks '(leaf_id, num_pages),
    let already_free := match Some ((λ x, FreeQueue.length (JengaBlockPool.free x)) <$> JengaBlockPool.caches p) with Some d => default 0 (d !! leaf_id) | None => 0 end in
    let shortfall := num_pages - already_free in
    if 0 <? shortfall then let! k := cache_ratio p leaf_id in ret (num_huge_blocks + ceildiv shortfall k) else ret num_huge_blocks) m
    = (Ok (acc + total_need p D), m)) as Hfold.
  { induction D as [|[c j] D IH]; intros acc; [by rewrite Z.add_0_r|]. cbn [for_fold]. unfold bind at 1.
    destruct (HD c) as [k Hk]; [by left|]. destruct HP as [HA HI]. destruct (JengaAbs.abs_cache n K p a c k HA Hk) as (x & Hx & HC).
    assert (default 0 (((λ x, FreeQueue.length (JengaBlockPool.free x)) <$> JengaBlockPool.caches p) !! c) = spare_pages p c) as ->
      by (unfold spare_pages; by rewrite lookup_fmap, Hx).
    assert (total_need p ((c, j) :: D) = need k (spare_pages p c) j + total_need p D) as -> by (rewrite total_need_cons; unfold ratio_of; by rewrite Hk).
    assert (∀ acc, for_fold D acc _ m = _) as IH' by (intros acc'; apply IH; intros; apply HD; by right). cbv zeta in IH'.
    destruct (Z.ltb_spec 0 (j - spare_pages p c)).
    - unfold cache_ratio. rewrite Hx. simpl. unfold bind, ret. rewrite IH', (JengaAbs.cc_ratio _ _ _ _ HC). unfold need. rewrite Z.max_r by lia. do 2 f_equal. lia.
    - unfold ret. rewrite IH'. do 2 f_equal. unfold need. rewrite Z.max_l by lia. unfold ceildiv. rewrite Z.div_0_l; [lia|]. pose proof (HK c k Hk). lia. }
  rewrite (bind_run _ _ _ _ _ (Hfold 0)). rewrite Z.add_0_l. unfold raise_if, parked_blocks. by destruct (_ <? _).
Qed.

(** ** The invariant *)

(** From its committed blocks on, a request's pages are its own, unpublished. *)
Definition TailOk (caching : bool) p (tot : gmultiset (string * Z)) (k : Z) (L : list string) (rows : string → list Z) : Prop :=
  ∀ c, c ∈ L → k ≤ len (rows c) ∧
    ∀ (j : nat) r, k ≤ Z.of_nat j → rows c !! j = Some r → r = 0 ∧ caching = false ∨ r ≠ 0 ∧ Private p tot c r.

Definition held_of m : Z → gmultiset (string * Z) := held (leaf_ids m) (_req_to_replica m) (rw m).
(** What the others hold *)
Definition rest m (rid i : Z) : gmultiset (string * Z) := held (leaf_ids m) (delete rid (_req_to_replica m)) (rw m) i.

Record ReqOk m (rid i : Z) : Prop := {
  rq_replica : 0 ≤ i < len (pools m);
  rq_hashes : is_Some (_req_to_hashes m !! rid);
  rq_rows c : c ∈ leaf_ids m → is_Some (row_opt m c rid);
  rq_tail : ∃ k, 0 ≤ k ∧ _req_to_committed_idx m !! rid = Some (k * _block_size m) ∧
    ∀ p, pools m !! Z.to_nat i = Some p → TailOk (_enable_prefix_caching m) p (held_of m i) k (leaf_ids m) (rw m rid)
}.

Record MInv m : Prop := {
  mi_static : Static m;
  mi_pools i p : 0 ≤ i → pools m !! Z.to_nat i = Some p → ∃ a, Pool n K p a (held_of m i);
  mi_reqs rid i : _req_to_replica m !! rid = Some i → ReqOk m rid i
}.

(** The same, but for one request *)
Record MInvBut (rid : Z) m : Prop := {
  mb_static : Static m;
  mb_pools i p : 0 ≤ i → pools m !! Z.to_nat i = Some p → ∃ a, Pool n K p a (held_of m i);
  mb_reqs rid' i : rid' ≠ rid → _req_to_replica m !! rid' = Some i → ReqOk m rid' i
}.
Lemma minv_but rid m : MInv m → MInvBut rid m.
Proof. intros [H1 H2 H3]. split; [done|done|]. intros rid' i _. apply H3. Qed.
Lemma but_minv rid m : MInvBut rid m → (∀ i, _req_to_replica m !! rid = Some i → ReqOk m rid i) → MInv m.
Proof. intros [H1 H2 H3] HR. split; [done|done|]. intros rid' i Hr. destruct (decide (rid' = rid)) as [->|Hne]; [by apply HR|by apply H3]. Qed.

Lemma held_of_split m rid i : _req_to_replica m !! rid = Some i → held_of m i = pg (leaf_ids m) (rw m rid) ⊎ rest m rid i.
Proof. apply held_split. Qed.

Record Change m m' (rid i : Z) p p' : Prop := {
  ch_core : core m' = core m;
  ch_kinds : kinds m' = kinds m;
  ch_pools : pools m' = <[Z.to_nat i := p']> (pools m);
  ch_rows rid' c : rid' ≠ rid → row_opt m' c rid' = row_opt m c rid';
  ch_hashes rid' : rid' ≠ rid → _req_to_hashes m' !! rid' = _req_to_hashes m !! rid';
  ch_committed rid' : rid' ≠ rid → _req_to_committed_idx m' !! rid' = _req_to_committed_idx m !! rid'
}.

Lemma move_change m m' rid i p p' : Move m m' rid i p p' → Change m m' rid i p p'.
Proof.
  intros [F1 K1 P1 O1 R1]. split; try done; [by apply frame_core|intros rid' _..].
  - by rewrite (frame_eq _req_to_hashes m m').
  - by rewrite (frame_eq _req_to_committed_idx m m').
Qed.
Lemma change_trans m1 m2 m3 rid i p1 p2 p3 : Change m1 m2 rid i p1 p2 → Change m2 m3 rid i p2 p3 → Change m1 m3 rid i p1 p3.
Proof.
  intros [F1 K1 P1 O1 H1 C1] [F2 K2 P2 O2 H2 C2]. split; [congruence|congruence|by rewrite P2, P1, list_insert_insert_eq|..].
  - intros rid' c Hne. by rewrite O2, O1.
  - intros rid' Hne. by rewrite H2, H1.
  - intros rid' Hne. by rewrite C2, C1.
Qed.

Lemma change_core {A} (f : t → A) m m' rid i p p' : Change m m' rid i p p' → (∀ m, f (core m) = f m) → f m' = f m.
Proof. intros HC. apply core_eq, HC. Qed.

Lemma rest_change m m' rid i p p' i' : Change m m' rid i p p' → rest m' rid i' = rest m rid i'.
Proof.
  intros HC. unfold rest. rewrite (change_core leaf_ids m m' rid i p p' HC), (change_core _req_to_replica m m' rid i p p' HC) by done.
  apply held_ext. intros rid' Hr c _. unfold rw. rewrite (ch_rows _ _ _ _ _ _ HC); [done|]. intros ->. rewrite lookup_delete_eq in Hr. by destruct Hr.
Qed.

(** Whatever one request does to its replica's pool, the others keep their pages. *)
Lemma minv_change m m' rid i p p' :
  MInv m → _req_to_replica m !! rid = Some i → pools m !! Z.to_nat i = Some p → Change m m' rid i p p' →
  JStep n K p (pg (leaf_ids m) (rw m rid)) (rest m rid i) p' (pg (leaf_ids m) (rw m' rid)) →
  MInvBut rid m' ∧ pools m' !! Z.to_nat i = Some p' ∧ held_of m' i = pg (leaf_ids m) (rw m' rid) ⊎ rest m rid i.
Proof.
  intros [HS HP HR] Hrid Hp HC HJ. pose proof (HR rid i Hrid) as [Hi _ _ _].
  pose proof (change_core leaf_ids _ _ _ _ _ _ HC ltac:(done)) as EL. pose proof (change_core _req_to_replica _ _ _ _ _ _ HC ltac:(done)) as ER.
  pose proof (change_core _block_size _ _ _ _ _ _ HC ltac:(done)) as EB. pose proof (change_core _enable_prefix_caching _ _ _ _ _ _ HC ltac:(done)) as EC.
  pose proof (ch_pools _ _ _ _ _ _ HC) as EP.
  assert (held_of m' i = pg (leaf_ids m) (rw m' rid) ⊎ rest m rid i) as Hheld.
  { rewrite (held_of_split m' rid i) by by rewrite ER. by rewrite EL, (rest_change m m' rid i p p' i HC). }
  assert (∀ i', i' ≠ i → held_of m' i' = held_of m i') as Haway.
  { intros i' Hne. unfold held_of. rewrite (held_away _ (_req_to_replica m') _ rid i' i), (held_away _ (_req_to_replica m) _ rid i' i) by (by rewrite ?ER). exact (rest_change m m' rid i p p' i' HC). }
  assert (pools m' !! Z.to_nat i = Some p') as Hp' by (rewrite EP; apply list_lookup_insert_eq; by eapply lookup_lt_Some).
  split; [split|done].
  - eapply static_same; [apply HC|apply HC|done].
  - intros i' q Hi' Hq. destruct (decide (i' = i)) as [->|Hne].
    + rewrite Hp' in Hq. injection Hq as <-. rewrite Hheld. apply HJ.
    + rewrite EP, list_lookup_insert_ne in Hq by lia. rewrite Haway by done. by apply HP.
  - intros rid' i' Hne Hr'. rewrite ER in Hr'.
    destruct (HR rid' i' Hr') as [Hi' Hh' Hrow (k & Hk0 & Hk & Htail)]. split.
    + rewrite EP. unfold len. rewrite length_insert. exact Hi'.
    + by rewrite (ch_hashes _ _ _ _ _ _ HC).
    + intros c. rewrite EL, (ch_rows _ _ _ _ _ _ HC) by done. apply Hrow.
    + exists k. split; [done|]. rewrite (ch_committed _ _ _ _ _ _ HC), EB, EC, EL by done. split; [done|]. intros q Hq c Hc.
      assert (rw m' rid' c = rw m rid' c) as -> by (unfold rw; by rewrite (ch_rows _ _ _ _ _ _ HC)).
      destruct (decide (i' = i)) as [->|Hni].
      * rewrite Hp' in Hq. injection Hq as <-. destruct (Htail p Hp c Hc) as [Hle Hj]. split; [done|]. intros j r Hkj Hrj.
        destruct (Hj j r Hkj Hrj) as [?|[Hr0 [Hz Hm]]]; [by left|right]. split; [done|]. rewrite Hheld. rewrite (held_of_split m rid i Hrid) in Hm.
        assert ((c, r) ∈ rest m rid i) as Hin.
        { apply (held_elem _ _ _ i rid'); [by rewrite lookup_delete_ne|done|done|]. by apply list_elem_of_lookup_2 in Hrj. }
        rewrite multiplicity_disj_union in Hm. pose proof (proj1 (elem_of_multiplicity _ _) Hin).
        destruct (js_fresh _ _ _ _ _ _ _ HJ c r Hin) as [Hz' Hno]; [apply not_elem_of_multiplicity; lia|done|]. apply not_elem_of_multiplicity in Hno.
        split; [done|]. rewrite multiplicity_disj_union. lia.
      * assert (0 ≤ i ∧ 0 ≤ i') by lia. rewrite EP, list_lookup_insert_ne in Hq by lia. rewrite Haway by done. by apply Htail.
Qed.

(** *** Claiming, releasing and resetting *)

Lemma put_all L' m rid (f : string → list Z) : (∀ c, c ∈ L' → is_Some (_leaves m !! c)) →
  ∃ m', for_each L' (λ c, put_row c rid (f c)) m = (Ok tt, m') ∧ frame m' = frame m ∧ kinds m' = kinds m ∧ pools m' = pools m ∧
    ∀ c rid', row_opt m' c rid' = if decide (rid' = rid ∧ c ∈ L') then Some (f c) else row_opt m c rid'.
Proof.
  revert m. induction L' as [|c L' IH]; intros m HL.
  - exists m. split_and!; try done. intros c rid'. rewrite decide_False; [done|]. by intros [_ ?%elem_of_nil].
  - assert (is_Some (_leaves m !! c)) as Hc by (apply HL; by left). simpl. rewrite (bind_run _ _ _ _ _ (jenga_put_run c rid (f c) m)).
    destruct (IH (putm c rid (f c) m)) as (m' & E & F & Ks & P & R).
    { intros c' Hc'. assert (kinds (putm c rid (f c) m) !! c' = kinds m !! c') as Ek by by rewrite put_kinds. unfold kinds in Ek.
      rewrite !lookup_fmap in Ek. destruct (HL c') as [leaf Hl]; [by right|]. rewrite Hl in Ek. by destruct (_leaves (putm c rid (f c) m) !! c'). }
    exists m'. split; [done|]. split; [by rewrite F|]. split; [by rewrite Ks, put_kinds|]. split; [by rewrite P|].
    intros c' rid'. rewrite R, put_row_opt by done. pose proof (elem_of_cons L' c' c) as Hcons.
    destruct (decide (rid' = rid ∧ c' ∈ L')) as [[-> Hc']|Hno]; [by rewrite decide_True by tauto|].
    destruct (decide (c' = c ∧ rid' = rid)) as [[-> ->]|Hno']; [by rewrite decide_True by tauto|]. rewrite decide_False; [done|tauto].
Qed.

Lemma pg_nil L f : (∀ c, c ∈ L → f c = []) → pg L f = ∅.
Proof. intros Hf. rewrite (pg_ext L (λ _, []) f); [apply pg_empty|done]. Qed.

(** A request's entry appears or disappears while it holds nothing. *)
Lemma held_fresh L reps rows i rid j : reps !! rid = None → (∀ c, c ∈ L → rows rid c = []) → held L (<[rid := j]> reps) rows i = held L reps rows i.
Proof.
  intros Hr Hrows. destruct (decide (j = i)) as [->|Hne].
  - rewrite (held_split L _ rows rid i) by apply lookup_insert_eq. rewrite delete_insert_id by done. rewrite pg_nil by done. multiset_solver.
  - rewrite (held_away L _ rows rid i j) by (done || apply lookup_insert_eq). by rewrite delete_insert_id.
Qed.

(** The manager with request [rid] registered, before its rows are created *)
Definition registered m (rid i : Z) : t :=
  set_committed (<[rid := 0]> (_req_to_committed_idx m)) (set_hashes (<[rid := []]> (_req_to_hashes m)) (set_replicas (<[rid := i]> (_req_to_replica m)) m)).

Lemma jenga_claim_run m rid i : MInv m → 0 ≤ i < len (pools m) →
  match _req_to_replica m !! rid with
  | Some _ => claim rid i m = (Raise ValueError, m)
  | None => ∃ m', claim rid i m = (Ok tt, m') ∧ MInv m' ∧ _req_to_replica m' !! rid = Some i ∧ pools m' = pools m ∧
      frame m' = frame (registered m rid i) ∧ ∀ c, c ∈ leaf_ids m → rw m' rid c = []
  end.
Proof.
  intros HI Hi. unfold claim. mstep (eq_refl : get m = (Ok m, m)). destruct (_req_to_replica m !! rid) as [j|] eqn:Hr; [done|]. pose proof HI as [HS HP HR].
  set (m1 := registered m rid i).
  destruct (put_all (leaf_ids m) m1 rid (λ _, [])) as (m' & E & F & Ks & P & R); [intros c Hc; by apply (st_leaves _ HS)|].
  exists m'. split.
  { change (for_leaves (λ leaf_id, put_row leaf_id rid []) m1 = (Ok tt, m')). unfold for_leaves. exact E. }
  pose proof (frame_eq leaf_ids m1 m' F ltac:(done)) as EL. pose proof (frame_eq _req_to_replica m1 m' F ltac:(done)) as ER.
  pose proof (frame_eq _req_to_hashes m1 m' F ltac:(done)) as EH. pose proof (frame_eq _req_to_committed_idx m1 m' F ltac:(done)) as EC.
  pose proof (frame_eq _block_size m1 m' F ltac:(done)) as EB. pose proof (frame_eq _enable_prefix_caching m1 m' F ltac:(done)) as Ec.
  simpl in EL, ER, EH, EC, EB, Ec, P.
  assert (∀ c, c ∈ leaf_ids m → rw m' rid c = []) as Hempty by (intros c Hc; unfold rw; by rewrite R, decide_True).
  assert (∀ rid' c, rid' ≠ rid → row_opt m' c rid' = row_opt m c rid') as Hrows by (intros rid' c Hne; rewrite R, decide_False by tauto; done).
  assert (∀ i', held_of m' i' = held_of m i') as Hheld.
  { intros i'. unfold held_of. rewrite EL, ER, held_fresh by done. apply held_ext. intros rid' Hs c _. unfold rw. rewrite Hrows; [done|]. intros ->. rewrite Hr in Hs. by destruct Hs. }
  split; [|split; [by rewrite ER, lookup_insert_eq|done]]. split.
  - apply (static_fields m); [done|by apply (frame_eq _groups m1)|done|by rewrite Ks|done].
  - intros i' p Hi' Hp. rewrite Hheld. apply HP; [done|]. by rewrite <- P.
  - intros rid' i' Hr'. rewrite ER in Hr'. destruct (decide (rid' = rid)) as [->|Hne].
    + rewrite lookup_insert_eq in Hr'. injection Hr' as <-. split; [by rewrite P|rewrite EH; by rewrite lookup_insert_eq| |].
      * intros c Hc. rewrite EL in Hc. rewrite R, decide_True; done.
      * exists 0. rewrite EC, lookup_insert_eq. split; [done|]. split; [done|]. intros p _ c Hc. rewrite EL in Hc. rewrite Hempty by done.
        split; [done|]. by intros [|j] r.
    + rewrite lookup_insert_ne in Hr' by done. destruct (HR rid' i' Hr') as [Q1 Q2 Q3 (k & Hk0 & Hk & Ht)]. split.
      * by rewrite P.
      * by rewrite EH, lookup_insert_ne.
      * intros c. rewrite EL, Hrows by done. apply Q3.
      * exists k. rewrite EC, lookup_insert_ne, EB, Ec, EL by done. split; [done|]. split; [done|]. intros p Hp. rewrite P in Hp. rewrite Hheld.
        intros c Hc. unfold rw. rewrite Hrows by done. by apply (Ht p Hp).
Qed.

Lemma pool_each {X} (l : list X) (f : X → M JengaBlockPool.t unit) m i p : 0 ≤ i → pools m !! Z.to_nat i = Some p →
  for_each l (λ x, on_pool i (f x)) m = ((for_each l f p).1, set_pools (<[Z.to_nat i := (for_each l f p).2]> (pools m)) m).
Proof.
  intros Hi. revert m p. induction l as [|x l IH]; intros m p Hp; simpl.
  - rewrite list_insert_id by done. by destruct m.
  - unfold bind. assert (on_pool i (f x) m = ((f x p).1, set_pools (<[Z.to_nat i := (f x p).2]> (pools m)) m)) as ->.
    { unfold on_pool. rewrite (Ownership.py_index_pools (pools m) i p Hi Hp). unfold BlockManager.position.
      rewrite (proj2 (Z.ltb_ge i 0)) by done. by destruct (f x p). }
    destruct (f x p) as [[[]|e] p1]; simpl; [|done]. rewrite (IH _ p1); simpl; [by rewrite list_insert_insert_eq|].
    apply list_lookup_insert_eq. by eapply lookup_lt_Some.
Qed.

Lemma jfree_row l p a own others c : Pool n K p a ((cl c l ⊎ own) ⊎ others) → is_Some (K !! c) →
  ∃ p', for_each l (JengaBlockPool.free_block c) p = (Ok tt, p') ∧ JStep n K p (cl c l ⊎ own) others p' own ∧ ∀ c i, hash_of p' c i = hash_of p c i.
Proof.
  intros HP Hk. revert p a HP. induction l as [|r l IH]; intros p a HP.
  - exists p. split; [done|]. assert (cl c [] ⊎ own = own) as E by (unfold cl; simpl; multiset_solver). rewrite E in *. split; [by eapply jstep_refl|done].
  - change (r :: l) with ([r] ++ l) in *. rewrite cl_app in *. destruct (decide (r = 0)) as [->|Hr].
    + rewrite cl_zero in *. assert (∅ ⊎ cl c l ⊎ own = cl c l ⊎ own) as E by multiset_solver. rewrite E in *.
      destruct (IH p a HP) as (p' & E' & HJ). exists p'. split; [|done]. destruct Hk as [k Hk].
      simpl. by rewrite (bind_run _ _ _ _ _ (JengaAbs.free_null n K p a c k (JengaAbs.po_abs _ _ _ _ _ HP) Hk)).
    + rewrite cl_one in * by done. assert ({[+ (c, r) +]} ⊎ cl c l ⊎ own = {[+ (c, r) +]} ⊎ (cl c l ⊎ own)) as E by multiset_solver. rewrite E in *.
      destruct (jfree n K HK Hn p a (cl c l ⊎ own) others c r HP Hk) as (p1 & E1 & HJ1 & Hh1). destruct (js_pool _ _ _ _ _ _ _ HJ1) as [a1 HP1].
      destruct (IH p1 a1 HP1) as (p2 & E2 & HJ2 & Hh2). exists p2. split; [simpl; by rewrite (bind_run _ _ _ _ _ E1)|].
      split; [by eapply jstep_trans|]. intros c' i. by rewrite Hh2, Hh1.
Qed.

Lemma on_leaf_delete c rid m : is_Some (_leaves m !! c) → ∃ m', on_leaf c (delete rid) m = (Ok tt, m') ∧ frame m' = frame m ∧ kinds m' = kinds m ∧
  pools m' = pools m ∧ ∀ c' rid', row_opt m' c' rid' = if decide (c' = c ∧ rid' = rid) then None else row_opt m c' rid'.
Proof.
  intros [leaf Hl]. eexists. split; [reflexivity|]. split; [done|]. split; [|split; [done|]].
  - unfold kinds. simpl. apply map_eq. intros c'. rewrite !lookup_fmap. destruct (decide (c' = c)) as [->|Hc].
    + rewrite lookup_alter_eq. by destruct (_leaves m !! c).
    + by rewrite lookup_alter_ne.
  - intros c' rid'. unfold row_opt. simpl. destruct (decide (c' = c)) as [->|Hc].
    + rewrite lookup_alter_eq, Hl. simpl. destruct (decide (rid' = rid)) as [->|Hr].
      * rewrite lookup_delete_eq. by rewrite decide_True.
      * rewrite lookup_delete_ne by done. rewrite decide_False by tauto. done.
    + rewrite lookup_alter_ne by done. rewrite decide_False by tauto. done.
Qed.

Lemma kinds_leaf m m' c : kinds m' = kinds m → is_Some (_leaves m !! c) → is_Some (_leaves m' !! c).
Proof.
  intros Ek [leaf Hl]. assert (kinds m' !! c = kinds m !! c) as Ec by by rewrite Ek. unfold kinds in Ec. rewrite !lookup_fmap, Hl in Ec.
  by destruct (_leaves m' !! c).
Qed.

Definition release_leaf (rid i : Z) (leaf_id : string) : M t unit :=
  let! l := row leaf_id rid in
  on_leaf leaf_id (delete rid);;
  for_each (rev l) (λ block, on_pool i (JengaBlockPool.free_block leaf_id block)).

Lemma jenga_release_loop L' m rid i p a f others :
  0 ≤ i → pools m !! Z.to_nat i = Some p → NoDup L' → (∀ c, c ∈ L' → is_Some (K !! c) ∧ is_Some (_leaves m !! c) ∧ row_opt m c rid = Some (f c)) →
  Pool n K p a (pg L' f ⊎ others) →
  ∃ m' p', for_each L' (release_leaf rid i) m = (Ok tt, m') ∧ Change m m' rid i p p' ∧ frame m' = frame m ∧ JStep n K p (pg L' f) others p' ∅ ∧
    (∀ c, row_opt m' c rid = if decide (c ∈ L') then None else row_opt m c rid).
Proof.
  intros Hi. revert m p a. induction L' as [|c L' IH]; intros m p a Hp Hnd HL HP.
  - exists m, p. split; [done|]. split; [split; try done; by rewrite list_insert_id|]. split; [done|]. split; [by eapply jstep_refl|done].
  - apply NoDup_cons in Hnd as [Hc Hnd]. destruct (HL c (list_elem_of_here _ _)) as (Hk & Hl & Hrow).
    destruct (on_leaf_delete c rid m Hl) as (m1 & E1 & F1 & K1 & P1 & R1). simpl in HP. rewrite <- (cl_rev c (f c)) in HP.
    destruct (jfree_row (rev (f c)) p a (pg L' f) others c HP Hk) as (p2 & E2 & HJ2 & _). destruct (js_pool _ _ _ _ _ _ _ HJ2) as [a2 HP2].
    set (m2 := set_pools (<[Z.to_nat i := p2]> (pools m1)) m1).
    assert (release_leaf rid i c m = (Ok tt, m2)) as Erl.
    { unfold release_leaf. rewrite (bind_run _ _ _ _ _ (row_run m c rid _ Hrow)), (bind_run _ _ _ _ _ E1).
      rewrite (pool_each _ _ m1 i p Hi) by by rewrite P1. by rewrite E2. }
    destruct (IH m2 p2 a2) as (m3 & p3 & E3 & HC3 & F3 & HJ3 & R3); [|done| |done|].
    { unfold m2. simpl. rewrite P1. apply list_lookup_insert_eq. by eapply lookup_lt_Some. }
    { intros c' Hc'. destruct (HL c' (list_elem_of_further _ _ _ Hc')) as (Hk' & Hl' & Hrow'). split; [done|]. split; [by apply (kinds_leaf m)|].
      change (row_opt m1 c' rid = Some (f c')). rewrite R1. rewrite decide_False; [done|]. intros [-> _]. done. }
    exists m3, p3. split; [simpl; by rewrite (bind_run _ _ _ _ _ Erl)|]. split; [|split; [by rewrite F3|split]].
    + apply (change_trans m m2 m3 rid i p p2 p3); [|done]. split.
      * apply frame_core. by transitivity (frame m1).
      * done.
      * unfold m2. simpl. by rewrite P1.
      * intros rid' c' Hne. change (row_opt m1 c' rid' = row_opt m c' rid'). rewrite R1. rewrite decide_False; [done|tauto].
      * intros rid' _. change (_req_to_hashes m1 !! rid' = _req_to_hashes m !! rid'). by rewrite (frame_eq _req_to_hashes m m1).
      * intros rid' _. change (_req_to_committed_idx m1 !! rid' = _req_to_committed_idx m !! rid'). by rewrite (frame_eq _req_to_committed_idx m m1).
    + simpl. rewrite <- (cl_rev c (f c)). by eapply jstep_trans.
    + intros c'. rewrite R3. change (row_opt m2 c' rid) with (row_opt m1 c' rid). rewrite R1. pose proof (elem_of_cons L' c' c) as Hcons.
      destruct (decide (c' ∈ L')) as [Hin|Hout]; [by rewrite decide_True by tauto|].
      destruct (decide (c' = c ∧ rid = rid)) as [[-> _]|Hne]; [by rewrite decide_True by tauto|]. rewrite decide_False; [done|tauto].
Qed.

(** The manager without a request *)
Definition dropped (rid : Z) m : t :=
  set_committed (delete rid (_req_to_committed_idx m)) (set_hashes (delete rid (_req_to_hashes m)) (set_replicas (delete rid (_req_to_replica m)) m)).

Lemma minv_drop rid m : MInvBut rid m → (∀ c, c ∈ leaf_ids m → rw m rid c = []) → MInv (dropped rid m).
Proof.
  intros [HS HP HR] Hempty. assert (∀ i, held_of (dropped rid m) i = held_of m i) as Hheld.
  { intros i. unfold held_of. destruct (_req_to_replica m !! rid) as [j|] eqn:Hr; [|unfold dropped; simpl; by rewrite delete_id by done].
    destruct (decide (j = i)) as [->|Hne].
    - rewrite (held_split (leaf_ids m) _ (rw m) rid i Hr), pg_nil by done. simpl. change (rw (dropped rid m)) with (rw m). multiset_solver.
    - by rewrite (held_away (leaf_ids m) _ (rw m) rid i j Hr Hne). }
  split; [by apply (static_fields m)|intros i p Hi Hp; rewrite Hheld; by apply HP|]. intros rid' i Hr. simpl in Hr.
  destruct (decide (rid' = rid)) as [->|Hne]; [by rewrite lookup_delete_eq in Hr|]. rewrite lookup_delete_ne in Hr by done.
  destruct (HR rid' i Hne Hr) as [Q1 Q2 Q3 (k & Hk0 & Hk & Ht)]. split; [done|simpl; by rewrite lookup_delete_ne|done|].
  exists k. split; [done|]. split; [simpl; by rewrite lookup_delete_ne|]. intros p Hp. rewrite Hheld. by apply Ht.
Qed.

Lemma del_run {V} (d : t → gmap Z V) (put : gmap Z V → t → t) rid m : is_Some (d m !! rid) → del d put rid m = (Ok tt, put (delete rid (d m)) m).
Proof. intros [v Hv]. unfold del, bind, get. rewrite Hv. done. Qed.

Lemma replica_run m rid i : _req_to_replica m !! rid = Some i → _replica_of rid m = (Ok i, m).
Proof. intros Hr. unfold _replica_of, bind, get. by rewrite Hr. Qed.
Lemma jenga_unclaimed_run m rid : _req_to_replica m !! rid = None → _replica_of rid m = (Raise ValueError, m).
Proof. intros Hr. unfold _replica_of, bind, get. by rewrite Hr. Qed.
Lemma for_leaves_run f m : for_leaves f m = for_each (leaf_ids m) f m.
Proof. done. Qed.

Lemma jenga_release_run m rid : MInv m →
  match _req_to_replica m !! rid with
  | None => release rid m = (Raise ValueError, m)
  | Some i => ∃ m', release rid m = (Ok tt, m') ∧ MInv m' ∧ _req_to_replica m' = delete rid (_req_to_replica m)
  end.
Proof.
  intros HI. destruct (_req_to_replica m !! rid) as [i|] eqn:Hr; [|unfold release; unfold bind at 1; by rewrite jenga_unclaimed_run].
  pose proof HI as [HS HP HR]. destruct (HR rid i Hr) as [Hi Hh Hrows (k & _ & Hk & _)].
  destruct (lookup_lt_is_Some_2 (pools m) (Z.to_nat i)) as [p Hp]; [unfold len in Hi; lia|]. destruct (HP i p) as [a Ha]; [lia|done|].
  rewrite (held_of_split m rid i Hr) in Ha.
  assert (At m rid i p) as HA by (split; [done|lia|done|done]).
  destruct (jenga_release_loop (leaf_ids m) m rid i p a (rw m rid) (rest m rid i)) as (m1 & p1 & E1 & HC1 & F1 & HJ1 & R1); [lia|done|by apply HS| |done|].
  { intros c Hc. split; [by apply (st_caches _ HS)|]. split; [by apply (st_leaves _ HS)|]. by apply (at_row m rid i p c HA Hc). }
  assert (∀ c, c ∈ leaf_ids m → rw m1 rid c = []) as Hempty by (intros c Hc; unfold rw; rewrite R1; by rewrite decide_True).
  pose proof (frame_eq leaf_ids m m1 F1 ltac:(done)) as EL. pose proof (frame_eq _req_to_replica m m1 F1 ltac:(done)) as ER.
  exists (dropped rid m1). split; [|split].
  - unfold release. rewrite (bind_run _ _ _ _ _ (replica_run m rid i Hr)), (bind_run _ _ _ _ _ (jenga_pool_at_run m rid i p HA)).
    rewrite (bind_run _ _ _ _ _ (eq_trans (for_leaves_run (release_leaf rid i) m) E1)).
    assert (is_Some (_req_to_replica m1 !! rid)) as Hr1 by (rewrite ER, Hr; by eexists).
    assert (is_Some (_req_to_hashes m1 !! rid)) as Hh1 by (by rewrite (frame_eq _req_to_hashes m m1)).
    assert (is_Some (_req_to_committed_idx m1 !! rid)) as Hc1 by (rewrite (frame_eq _req_to_committed_idx m m1), Hk by done; by eexists).
    rewrite (bind_run _ _ _ _ _ (del_run _ set_replicas rid m1 Hr1)), (bind_run _ _ _ _ _ (del_run _ set_hashes rid (set_replicas (delete rid (_req_to_replica m1)) m1) Hh1)).
    exact (del_run _req_to_committed_idx set_committed rid (set_hashes (delete rid (_req_to_hashes m1)) (set_replicas (delete rid (_req_to_replica m1)) m1)) Hc1).
  - apply minv_drop; [|by rewrite EL]. destruct (minv_change m m1 rid i p p1 HI Hr Hp HC1) as [HB _]; [|done].
    by rewrite (pg_nil (leaf_ids m) (rw m1 rid)).
  - simpl. by rewrite ER.
Qed.

Lemma reset_one m i p : MInv m → 0 ≤ i → pools m !! Z.to_nat i = Some p →
  ∃ m', (let! _ := on_pool i JengaBlockPool.reset_prefix_cache in ret tt) m = (Ok tt, m') ∧ MInv m' ∧
    len (pools m') = len (pools m) ∧ _req_to_replica m' = _req_to_replica m.
Proof.
  intros [HS HP HR] Hi Hp. destruct (HP i p Hi Hp) as [a Ha]. destruct (jreset n K p a _ Ha) as (v & p' & a' & E & HP' & Hz).
  exists (set_pools (<[Z.to_nat i := p']> (pools m)) m). split.
  { unfold bind, on_pool. rewrite (Ownership.py_index_pools (pools m) i p Hi Hp), E. unfold BlockManager.position. by rewrite (proj2 (Z.ltb_ge i 0)). }
  assert (len (<[Z.to_nat i := p']> (pools m)) = len (pools m)) as El by (unfold len; by rewrite length_insert).
  split; [|done]. split; [by apply (static_fields m)| |].
  - intros i' q Hi' Hq. change (held_of (set_pools _ m) i') with (held_of m i'). simpl in Hq. destruct (decide (i' = i)) as [->|Hne].
    + rewrite list_lookup_insert_eq in Hq by (by eapply lookup_lt_Some). injection Hq as <-. by exists a'.
    + rewrite list_lookup_insert_ne in Hq by lia. by apply HP.
  - intros rid i' Hr. destruct (HR rid i' Hr) as [Q1 Q2 Q3 (k & Hk0 & Hk & Ht)]. split; [simpl; by rewrite El|done|done|]. exists k. split; [done|]. split; [done|].
    intros q Hq c Hc. change (held_of (set_pools _ m) i') with (held_of m i'). simpl in Hq. destruct (decide (i' = i)) as [->|Hne].
    + rewrite list_lookup_insert_eq in Hq by (by eapply lookup_lt_Some). injection Hq as <-. destruct (Ht p Hp c Hc) as [Hle Hj]. split; [done|].
      intros j r Hkj Hrj. destruct (Hj j r Hkj Hrj) as [?|[Hr0 [Hh Hm]]]; [by left|right]. split; [done|]. split; [by apply Hz|done].
    + rewrite list_lookup_insert_ne in Hq by lia. by apply (Ht q).
Qed.

Lemma jenga_reset_run m : MInv m → ∃ m', reset_prefix_cache m = (Ok tt, m') ∧ MInv m' ∧ _req_to_replica m' = _req_to_replica m.
Proof.
  intros HI. unfold reset_prefix_cache. mstep (eq_refl : get m = (Ok m, m)).
  assert (∀ l m0, MInv m0 → len (pools m0) = len (pools m) → (∀ i, i ∈ l → 0 ≤ i < len (pools m)) →
    ∃ m', for_each l (λ i, let! _ := on_pool i JengaBlockPool.reset_prefix_cache in ret tt) m0 = (Ok tt, m') ∧ MInv m' ∧ _req_to_replica m' = _req_to_replica m0) as Hloop.
  { induction l as [|i l IH]; intros m0 H0 Hl Hin; [by exists m0|]. pose proof (Hin i (list_elem_of_here _ _)) as Hi.
    destruct (lookup_lt_is_Some_2 (pools m0) (Z.to_nat i)) as [p Hp]; [unfold len in *; lia|].
    destruct (reset_one m0 i p H0) as (m1 & E1 & H1 & Hl1 & HR1); [lia|done|].
    destruct (IH m1 H1) as (m2 & E2 & H2 & HR2); [congruence|intros; apply Hin; by right|]. exists m2. split; [simpl; by rewrite (bind_run _ _ _ _ _ E1)|].
    split; [done|congruence]. }
  apply Hloop; [done|done|]. intros i Hi%elem_of_zrange. done.
Qed.

(** *** Allocating *)

Lemma minv_metrics x m : MInv m → MInv (set_metrics x m).
Proof.
  intros [HS HP HR]. split; [by apply (static_fields m)|done|]. intros rid i Hr. destruct (HR rid i Hr) as [Q1 Q2 Q3 Q4]. by split.
Qed.

(** The slots the request's next forward needs *)
Definition slots m (max_num_input_tokens : option Z) (c : TextContext.t B) : Z :=
  TokenBuffer.processed_length (TextContext.tokens c)
  + match max_num_input_tokens with Some k => Z.min (TokenBuffer.active_length (TextContext.tokens c)) k | None => TokenBuffer.active_length (TextContext.tokens c) end
  + (len (maybe_accepted_draft_tokens (Ownership.drafts c)) + 2 * _num_draft_tokens m + 1
     + (if (_num_draft_tokens m >? 0) && (_num_draft_tokens_per_step m =? _num_draft_tokens m) then 1 else 0)
     - Z.max 1 (TextContext.pending_future_count c)).
Definition pages_wanted m (x : Ctx.t B) : Z := ceildiv (slots m (_max_num_input_tokens m) (Ctx.base x)) (_block_size m).

(** The context, but for the speculative state that reading it creates *)
Definition SpecOnly (x x' : Ctx.t B) : Prop := x' = x ∨ x' = Ctx.set_base (Ownership.with_spec (Ctx.base x)) x.

Lemma spec_only_trans x x' x'' : SpecOnly x x' → SpecOnly x' x'' → SpecOnly x x''.
Proof.
  intros [->| ->] [->| ->]; try (by left); try (by right). right. rewrite Ownership.base_set_base, Ownership.set_base_twice, Ownership.with_spec_idem. done.
Qed.
Lemma spec_only_same x x' m k : SpecOnly x x' → Ctx.tokens x' = Ctx.tokens x ∧
  TextContext.request_id (Ctx.base x') = TextContext.request_id (Ctx.base x) ∧ slots m k (Ctx.base x') = slots m k (Ctx.base x) ∧
  TextContext.pending_future_count (Ctx.base x') = TextContext.pending_future_count (Ctx.base x).
Proof.
  intros [->| ->]; [done|]. unfold Ctx.tokens. rewrite Ownership.base_set_base. by destruct (Ctx.base x).
Qed.

Lemma jenga_on_mgr_run {A} (f : M t A) (w : world) r m' : f (mgr w) = (r, m') → on_mgr f w = (r, mk_world m' (ctx w)).
Proof. intros E. unfold on_mgr, zoom. by rewrite E. Qed.
Lemma jenga_on_ctx_run {A} (f : M (Ctx.t B) A) (w : world) r x' : f (ctx w) = (r, x') → on_ctx f w = (r, mk_world (mgr w) x').
Proof. intros E. unfold on_ctx, zoom. by rewrite E. Qed.

Lemma jenga_seq_len_run m x k : seq_len k (mk_world m x) = (Ok (slots m k (Ctx.base x)), mk_world m (Ctx.set_base (Ownership.with_spec (Ctx.base x)) x)).
Proof.
  unfold seq_len. mstep (eq_refl : get (mk_world m x) = (Ok (mk_world m x), mk_world m x)). simpl.
  apply (jenga_on_ctx_run _ (mk_world m x)), Ownership.on_base_run. unfold _compute_seq_len. mstep (eq_refl : get (Ctx.base x) = (Ok (Ctx.base x), Ctx.base x)).
  by mstep (Ownership.spec_state_run (Ctx.base x)).
Qed.

Definition demand_of m (x : Ctx.t B) : list (string * Z) :=
  (λ c, (c, Z.max (pages_wanted m x - len (rw m (TextContext.request_id (Ctx.base x)) c)) 0)) <$> leaf_ids m.

Lemma demand_run m x i p : At m (TextContext.request_id (Ctx.base x)) i p →
  ∃ x', for_map (leaf_ids m) (λ leaf_id, let! n := _num_blocks_to_allocate leaf_id in ret (leaf_id, n)) (mk_world m x) = (Ok (demand_of m x), mk_world m x') ∧ SpecOnly x x'.
Proof.
  intros HA. unfold demand_of. assert (∀ c, c ∈ leaf_ids m → c ∈ leaf_ids m) as HL by done. revert HL. generalize (leaf_ids m) at 1 3 4 as L.
  intros L. revert x HA. induction L as [|c L IH]; intros x HA HL; [by exists x; split; [|left]|].
  set (x1 := Ctx.set_base (Ownership.with_spec (Ctx.base x)) x). assert (SpecOnly x x1) as HS by by right.
  destruct (spec_only_same x x1 m (_max_num_input_tokens m) HS) as (_ & Hid & Hsl & _).
  assert (_num_blocks_to_allocate c (mk_world m x) = (Ok (Z.max (pages_wanted m x - len (rw m (TextContext.request_id (Ctx.base x)) c)) 0), mk_world m x1)) as E1.
  { unfold _num_blocks_to_allocate. mstep (eq_refl : get (mk_world m x) = (Ok (mk_world m x), mk_world m x)).
    destruct (at_row m _ i p c HA (HL c (list_elem_of_here _ _))) as [Er _]. mstep (jenga_on_mgr_run _ (mk_world m x) _ _ Er). by mstep (jenga_seq_len_run m x (_max_num_input_tokens m)). }
  destruct (IH x1) as (x2 & E2 & HS2); [by rewrite Hid|intros; apply HL; by right|]. exists x2. split; [|by eapply spec_only_trans].
  assert (pages_wanted m x1 = pages_wanted m x) as Hpw by (unfold pages_wanted; by rewrite Hsl). rewrite Hid, Hpw in E2.
  cbn [for_map]. unfold bind at 1. rewrite (bind_run _ _ _ _ _ E1). unfold ret at 1. rewrite (bind_run _ _ _ _ _ E2).
  done.
Qed.

(** [alloc] after the prefix-cache lookup *)
Definition draws (rid replica_idx : Z) (L : list string) : M world unit :=
  let! b := tokens in
  on_mgr (count (Metrics.mk (TokenBuffer.active_length b) 0 0 0 0));;
  let! pool := on_mgr (pool_at replica_idx) in
  let! demand := for_map L (λ leaf_id, let! n := _num_blocks_to_allocate leaf_id in ret (leaf_id, n)) in
  on_mgr (_check_admission pool demand);;
  on_mgr (for_each demand (λ '(leaf_id, num_new_blocks),
    let! _ := row leaf_id rid in
    for_each (zrange 0 num_new_blocks) (λ _, draw leaf_id rid replica_idx))).

(** What a request holds after an allocation that succeeded *)
Record Provided m m' (x : Ctx.t B) : Prop := {
  pv_length c : c ∈ leaf_ids m → len (rw m' (TextContext.request_id (Ctx.base x)) c) = Z.max (len (rw m (TextContext.request_id (Ctx.base x)) c)) (pages_wanted m x);
  pv_prefix c : rw m (TextContext.request_id (Ctx.base x)) c `prefix_of` rw m' (TextContext.request_id (Ctx.base x)) c;
  pv_rest : frame m' = frame m ∧ kinds m' = kinds m;
  pv_others rid c : rid ≠ TextContext.request_id (Ctx.base x) → row_opt m' c rid = row_opt m c rid
}.

Lemma at_of m rid i : MInv m → _req_to_replica m !! rid = Some i → ∃ p a, At m rid i p ∧ pools m !! Z.to_nat i = Some p ∧ Pool n K p a (pg (leaf_ids m) (rw m rid) ⊎ rest m rid i).
Proof.
  intros [HS HP HR] Hr. destruct (HR rid i Hr) as [Hi Hh Hrows _].
  destruct (lookup_lt_is_Some_2 (pools m) (Z.to_nat i)) as [p Hp]; [unfold len in Hi; lia|]. destruct (HP i p) as [a Ha]; [lia|done|].
  rewrite (held_of_split m rid i Hr) in Ha. exists p, a. split; [|done]. split; [done|lia|done|done].
Qed.

Lemma tail_extends m m' rid p p' caching tot tot' k L :
  TailOk caching p tot k L (rw m rid) → Extends m m' rid p' tot' → Keeps p tot p' tot' → TailOk caching p' tot' k L (rw m' rid).
Proof.
  intros HT HE HKe c Hc. destruct (HT c Hc) as [Hle Hj]. destruct (HE c) as (l & -> & Hl). split; [rewrite len_app; pose proof (len_nonneg l); lia|].
  intros j r Hkj [Hr|[Hge Hr]]%lookup_app_Some.
  - destruct (Hj j r Hkj Hr) as [?|[? ?]]; [by left|right]. split; [done|by apply HKe].
  - right. apply Hl. by eapply list_elem_of_lookup_2.
Qed.

Lemma draws_run m x i : let rid := TextContext.request_id (Ctx.base x) in
  MInv m → _req_to_replica m !! rid = Some i →
  ∃ r m' x', draws rid i (leaf_ids m) (mk_world m x) = (r, mk_world m' x') ∧ SpecOnly x x' ∧ MInv m' ∧
    ((r = Raise InsufficientBlocksError ∧ (∃ p, pools m !! Z.to_nat i = Some p ∧ parked_blocks p < total_need p (demand_of m x)) ∧ ∃ mt, m' = set_metrics mt m) ∨
     (r = Ok tt ∧ Provided m m' x ∧ (∃ p, pools m !! Z.to_nat i = Some p ∧ total_need p (demand_of m x) ≤ parked_blocks p))).
Proof.
  intros rid HI Hr. destruct (at_of m rid i HI Hr) as (p & a & HA & Hp & HP).
  unfold draws. mstep (eq_refl : tokens (mk_world m x) = (Ok (TextContext.tokens (Ctx.base x)), mk_world m x)).
  set (m1 := set_metrics (Metrics.add (_metrics m) (Metrics.mk (TokenBuffer.active_length (TextContext.tokens (Ctx.base x))) 0 0 0 0)) m).
  mstep (jenga_on_mgr_run (count (Metrics.mk (TokenBuffer.active_length (TextContext.tokens (Ctx.base x))) 0 0 0 0)) (mk_world m x) (Ok tt) m1 eq_refl).
  assert (MInv m1) as HI1 by by apply minv_metrics. destruct HA as [HS Hi _ Hrows].
  assert (At m1 rid i p) as HA1 by (split; [apply HI1|done|done|exact Hrows]).
  mstep (jenga_on_mgr_run _ (mk_world m1 x) _ _ (jenga_pool_at_run m1 rid i p HA1)). destruct (demand_run m1 x i p HA1) as (x' & E2 & HSp). simpl.
  change (leaf_ids m) with (leaf_ids m1). mstep E2. change (demand_of m1 x) with (demand_of m x). set (D := demand_of m x).
  assert (∀ c, c ∈ D.*1 → c ∈ leaf_ids m) as HD.
  { intros c. unfold D, demand_of. rewrite <- list_fmap_compose. intros (c' & -> & ?)%list_elem_of_fmap. done. }
  assert (_check_admission p D m1 = _) as E3 by (apply (admission_run p a _ D m1 HP); intros c Hc; by apply (st_caches _ HS), HD).
  destruct (Z.ltb_spec (parked_blocks p) (total_need p D)) as [Hno|Hyes].
  - exists (Raise InsufficientBlocksError), m1, x'. unfold bind at 1. rewrite (jenga_on_mgr_run _ (mk_world m1 x') _ _ E3). split; [done|]. split; [done|]. split; [done|].
    left. split; [done|]. split; [by exists p|by eexists].
  - mstep (jenga_on_mgr_run _ (mk_world m1 x') _ _ E3). simpl.
    assert (NoDup D.*1) as Hnd by (unfold D, demand_of; rewrite <- list_fmap_compose, list_fmap_id; apply HS).
    destruct (demand_loop D m1 rid i p a (rest m rid i) HA1 HP Hnd HD Hyes) as (m2 & p2 & E4 & HM & HJ & HX & HKe & Hlen & Hrest).
    exists (Ok tt), m2, x'. rewrite (jenga_on_mgr_run _ (mk_world m1 x') _ _ E4). split; [done|]. split; [done|].
    pose proof (move_change _ _ _ _ _ _ HM) as HC. destruct (minv_change m1 m2 rid i p p2 HI1 Hr Hp HC HJ) as (HB & Hp2 & Hh2).
    assert (∀ c, c ∈ leaf_ids m → len (rw m2 rid c) = Z.max (len (rw m rid c)) (pages_wanted m x)) as Hl.
    { intros c Hc. rewrite (Hlen c (Z.max (pages_wanted m x - len (rw m rid c)) 0)); [change (rw m1 rid c) with (rw m rid c); lia|].
      apply list_elem_of_fmap. by exists c. }
    split; [|right; split; [done|split; [split|by exists p]]].
    + apply (but_minv rid); [done|]. intros j Hj. assert (j = i) as -> by (rewrite (change_core _req_to_replica _ _ _ _ _ _ HC) in Hj by done; simpl in Hj; congruence).
      destruct (mi_reqs _ HI1 rid i Hr) as [Q1 Q2 Q3 (k & Hk0 & Hk & Ht)]. split.
      * rewrite (ch_pools _ _ _ _ _ _ HC). unfold len in *. by rewrite length_insert.
      * by rewrite (frame_eq _req_to_hashes m1 m2) by (done || apply HM).
      * intros c. rewrite (move_ids _ _ _ _ _ _ HM). intros Hc. apply (mv_rows _ _ _ _ _ _ HM); [done|by apply Q3].
      * exists k. split; [done|]. rewrite (frame_eq _req_to_committed_idx m1 m2), (frame_eq _block_size m1 m2), (frame_eq _enable_prefix_caching m1 m2), (move_ids _ _ _ _ _ _ HM) by (done || apply HM).
        split; [done|]. intros q Hq. rewrite Hp2 in Hq. injection Hq as <-. rewrite Hh2. eapply (tail_extends m1 m2); [|exact HX|exact HKe].
        specialize (Ht p Hp). by rewrite (held_of_split m1 rid i Hr) in Ht.
    + exact Hl.
    + intros c. fold rid. destruct (HX c) as (l & -> & _). by exists l.
    + exact (conj (mv_frame _ _ _ _ _ _ HM) (mv_kinds _ _ _ _ _ _ HM)).
    + intros rid' c Hne. exact (ch_rows _ _ _ _ _ _ HC rid' c Hne).
Qed.

(** *** Claiming a hit *)

(** The pages of a map of rows *)
Definition pgm (L : list string) (R : gmap string (list Z)) : gmultiset (string * Z) := pg L (λ c, default [] (R !! c)).
Definition Cached p (L : list string) (x : bytes) : Prop := ∀ c, c ∈ L → ∃ r, JengaPoolSpec.committed p c x r.

(** A party that only takes references *)
Record Took p own others p' own' : Prop := {
  to_step : JStep n K p own others p' own';
  to_cached c x r : JengaPoolSpec.committed p' c x r ↔ JengaPoolSpec.committed p c x r
}.
Lemma took_refl p a own others : Pool n K p a (own ⊎ others) → Took p own others p own.
Proof. intros HP. split; [by eapply jstep_refl|done]. Qed.
Lemma took_trans p1 p2 p3 own1 own2 own3 others : Took p1 own1 others p2 own2 → Took p2 own2 others p3 own3 → Took p1 own1 others p3 own3.
Proof. intros [J1 C1] [J2 C2]. split; [by eapply jstep_trans|]. intros c x r. by rewrite C2, C1. Qed.

Lemma pg_perm L L' f : L ≡ₚ L' → pg L f = pg L' f.
Proof. induction 1 as [|c L L' _ IH|c c' L|L1 L2 L3 _ IH1 _ IH2]; simpl; [done|by rewrite IH|multiset_solver|congruence]. Qed.
Lemma pg_app L L' f : pg (L ++ L') f = pg L f ⊎ pg L' f.
Proof. induction L as [|c L IH]; simpl; [multiset_solver|]. rewrite IH. multiset_solver. Qed.

Lemma claim_one_run p a own others L R c x :
  Pool n K p a ((pgm L R ⊎ own) ⊎ others) → NoDup L → c ∈ L → is_Some (R !! c) → Cached p L x →
  ∃ r p', KVGroupCoordinator.claim_one R x c p = (Ok (alter (λ row, row ++ [r]) c R), p') ∧
    Took p (pgm L R ⊎ own) others p' (pgm L (alter (λ row, row ++ [r]) c R) ⊎ own).
Proof.
  intros HP Hnd Hc [l Hl] Hx. destruct (Hx c Hc) as [r Hr]. pose proof Hr as (y & Hy & Hyx).
  destruct (jtouch n K HK Hn p a (pgm L R ⊎ own) others c x r HP Hr) as (p' & E & HJ & Hr0 & _ & Hcm). exists r, p'. split.
  - unfold KVGroupCoordinator.claim_one. unfold bind at 1. unfold JengaBlockPool.cache_of, bind at 1, get. rewrite Hy. simpl.
    unfold bind at 1. rewrite Hyx. simpl. by rewrite (bind_run _ _ _ _ _ E).
  - split; [|done]. assert (pgm L (alter (λ row, row ++ [r]) c R) ⊎ own = {[+ (c, r) +]} ⊎ (pgm L R ⊎ own)) as ->; [|done].
    destruct (pg_split L (λ c, default [] (R !! c)) c Hnd Hc) as [X HX]. unfold pgm. rewrite (HX (λ c, default [] (R !! c))) by done.
    rewrite HX by (intros c' Hne; by rewrite lookup_alter_ne). rewrite lookup_alter_eq, Hl. simpl. rewrite cl_app, cl_one by done. multiset_solver.
Qed.

Lemma claim_inner l p a own others L R x :
  Pool n K p a ((pgm L R ⊎ own) ⊎ others) → NoDup L → NoDup l → (∀ c, c ∈ l → c ∈ L) → (∀ c, c ∈ L → is_Some (R !! c)) → Cached p L x →
  ∃ R' p', for_fold l R (λ rows leaf_id, KVGroupCoordinator.claim_one rows x leaf_id) p = (Ok R', p') ∧
    Took p (pgm L R ⊎ own) others p' (pgm L R' ⊎ own) ∧ dom R' = dom R ∧
    ∀ c, len (default [] (R' !! c)) = len (default [] (R !! c)) + (if decide (c ∈ l) then 1 else 0).
Proof.
  revert p a R. induction l as [|c l IH]; intros p a R HP HndL Hnd HlL HR Hx.
  - exists R, p. split; [done|]. split; [by eapply took_refl|]. split; [done|]. intros c. rewrite decide_False by apply not_elem_of_nil. lia.
  - apply NoDup_cons in Hnd as [Hc Hnd]. assert (c ∈ L) as HcL by (apply HlL; by left).
    destruct (claim_one_run p a own others L R c x HP HndL HcL (HR c HcL) Hx) as (r & p1 & E1 & HT1). destruct (js_pool _ _ _ _ _ _ _ (to_step _ _ _ _ _ HT1)) as [a1 HP1].
    destruct (IH p1 a1 _ HP1 HndL Hnd) as (R2 & p2 & E2 & HT2 & Hd2 & Hl2).
    { intros c' Hc'. apply HlL. by right. }
    { intros c' Hc'. destruct (decide (c' = c)) as [->|Hne]; [rewrite lookup_alter_eq; apply fmap_is_Some|rewrite lookup_alter_ne by done]; by apply HR. }
    { intros c' Hc'. destruct (Hx c' Hc') as [r' Hr']. exists r'. by apply (to_cached _ _ _ _ _ HT1). }
    exists R2, p2. split; [simpl; by rewrite (bind_run _ _ _ _ _ E1)|]. split; [by eapply took_trans|]. split; [by rewrite Hd2, dom_alter_L|].
    intros c'. rewrite Hl2. destruct (decide (c' = c)) as [->|Hne].
    + rewrite lookup_alter_eq. destruct (HR c HcL) as [l0 ->]. simpl. rewrite decide_False, decide_True by (done || by left). rewrite len_app. unfold len. simpl. lia.
    + rewrite lookup_alter_ne by done. f_equal. apply decide_ext. rewrite elem_of_cons. naive_solver.
Qed.

Lemma claim_loop hs p a own others L R :
  Pool n K p a ((pgm L R ⊎ own) ⊎ others) → NoDup L → (∀ c, c ∈ L → is_Some (R !! c)) → (∀ x, x ∈ hs → Cached p L x) →
  ∃ R' p', for_fold hs R (λ rows x, for_fold L rows (λ rows leaf_id, KVGroupCoordinator.claim_one rows x leaf_id)) p = (Ok R', p') ∧
    Took p (pgm L R ⊎ own) others p' (pgm L R' ⊎ own) ∧ dom R' = dom R ∧
    ∀ c, c ∈ L → len (default [] (R' !! c)) = len (default [] (R !! c)) + len hs.
Proof.
  revert p a R. induction hs as [|x hs IH]; intros p a R HP HndL HR Hx.
  - exists R, p. split; [done|]. split; [by eapply took_refl|]. split; [done|]. intros c _. change (len []) with 0. lia.
  - destruct (claim_inner L p a own others L R x HP HndL HndL) as (R1 & p1 & E1 & HT1 & Hd1 & Hl1); [done|done|apply Hx; by left|].
    destruct (js_pool _ _ _ _ _ _ _ (to_step _ _ _ _ _ HT1)) as [a1 HP1].
    destruct (IH p1 a1 R1 HP1 HndL) as (R2 & p2 & E2 & HT2 & Hd2 & Hl2).
    { intros c Hc. apply elem_of_dom. rewrite Hd1. apply elem_of_dom. by apply HR. }
    { intros y Hy c Hc. destruct (Hx y (list_elem_of_further _ _ _ Hy) c Hc) as [r Hr]. exists r. by apply (to_cached _ _ _ _ _ HT1). }
    exists R2, p2. split; [simpl; by rewrite (bind_run _ _ _ _ _ E1)|]. split; [by eapply took_trans|]. split; [congruence|].
    intros c Hc. rewrite Hl2, Hl1, decide_True, len_cons by done. lia.
Qed.

Lemma holds_cached p a own L x : Pool n K p a own → JengaHits.holds p L x = true → Cached p L x.
Proof.
  intros HP Hh c Hc. unfold JengaHits.holds in Hh. rewrite forallb_forall in Hh. specialize (Hh c (proj1 (list_elem_of_In _ _) Hc)).
  destruct (JengaBlockPool.caches p !! c) as [y|] eqn:Hy; [|done]. apply bool_decide_eq_true in Hh as [r Hr]. by exists r, y.
Qed.

(** The rows a claim starts from: [low] null pages for each leaf *)
Lemma rows_init (z : list Z) L : let R0 := list_to_map (M := gmap string (list Z)) ((λ c, (c, z)) <$> L) in
  dom R0 = list_to_set L ∧ ∀ c, c ∈ L → R0 !! c = Some z.
Proof.
  intros R0. split.
  - unfold R0. rewrite dom_list_to_map_L, <- list_fmap_compose, list_fmap_id. done.
  - intros c Hc. unfold R0. induction L as [|c0 L IH]; [by apply elem_of_nil in Hc|]. simpl. destruct (decide (c0 = c)) as [->|Hne]; [apply lookup_insert_eq|].
    rewrite lookup_insert_ne by done. apply IH. by apply elem_of_cons in Hc as [->|].
Qed.
Lemma pgm_nulls L R k : (∀ c, c ∈ L → R !! c = Some (repeat 0 k)) → pgm L R = ∅.
Proof.
  unfold pgm. induction L as [|c L IH]; intros HL; [done|]. simpl. rewrite HL by left. simpl. rewrite cl_zeros, IH by (intros; apply HL; by right). multiset_solver.
Qed.
Lemma lookup_slice_from {A} (l : list A) low x : 0 ≤ low ≤ len l → x ∈ slice_from l low → ∃ i, low ≤ i ∧ l !! Z.to_nat i = Some x.
Proof.
  intros Hlow Hx. rewrite slice_from_inside in Hx by done. apply list_elem_of_lookup in Hx as [j Hj]. rewrite lookup_drop in Hj.
  exists (low + Z.of_nat j). split; [lia|]. by replace (Z.to_nat (low + Z.of_nat j)) with (Z.to_nat low + j)%nat by lia.
Qed.

Lemma claim_from L hashes low p a own others :
  Pool n K p a (own ⊎ others) → NoDup L → 0 ≤ low ≤ len hashes → (∀ i x, low ≤ i → hashes !! Z.to_nat i = Some x → JengaHits.holds p L x = true) →
  ∃ R p', for_fold (slice_from hashes low) (list_to_map ((λ c, (c, repeat 0 (Z.to_nat low))) <$> L)) (λ rows x,
      for_fold L rows (λ rows leaf_id, KVGroupCoordinator.claim_one rows x leaf_id)) p = (Ok R, p') ∧
    Took p own others p' (pgm L R ⊎ own) ∧ dom R = list_to_set L ∧ ∀ c, c ∈ L → len (default [] (R !! c)) = len hashes.
Proof.
  intros HP Hnd Hlow Hheld. destruct (rows_init (repeat 0 (Z.to_nat low)) L) as [Hd0 H0]. set (R0 := list_to_map _) in *.
  pose proof (pgm_nulls L R0 _ H0) as Hnone. destruct (claim_loop (slice_from hashes low) p a own others L R0) as (R & p' & E & HT & Hd & Hl).
  - rewrite Hnone. by replace (∅ ⊎ own) with own by multiset_solver.
  - done.
  - intros c Hc. rewrite H0 by done. by eexists.
  - intros x Hx. eapply holds_cached; [done|]. destruct (lookup_slice_from hashes low x Hlow Hx) as (i & Hi & Hix). by apply (Hheld i).
  - exists R, p'. split; [done|]. split; [by rewrite Hnone, (left_id_L ∅ disj_union) in HT|]. split; [congruence|].
    intros c Hc. rewrite Hl, H0 by done. simpl. rewrite slice_from_inside by done. unfold len in *. rewrite length_drop, repeat_length. lia.
Qed.

Lemma null_rows_run L low p : (∀ c, c ∈ L → is_Some (JengaBlockPool.caches p !! c)) →
  for_map L (λ leaf_id, let! _ := JengaBlockPool.cache_of leaf_id in ret (leaf_id, repeat 0 (Z.to_nat low))) p = (Ok ((λ c, (c, repeat 0 (Z.to_nat low))) <$> L), p).
Proof.
  intros Hknown. induction L as [|c l IH]; [done|]. destruct (Hknown c) as [x Hx]; [by left|]. cbn [for_map]. unfold bind at 1.
  assert (JengaBlockPool.cache_of c p = (Ok x, p)) as Ec by (unfold JengaBlockPool.cache_of, bind, get; by rewrite Hx).
  rewrite (bind_run _ _ _ _ _ Ec). unfold ret at 1. rewrite (bind_run _ _ _ _ _ (IH ltac:(intros; apply Hknown; by right))). done.
Qed.

Lemma group_claim_run g hashes p a own others :
  Pool n K p a (own ⊎ others) → JengaHits.coordinator_ok p g → NoDup (KVGroupCoordinator.leaf_ids g) → JengaHits.serves p hashes g (len hashes) →
  ∃ R p', KVGroupCoordinator.claim_hit_blocks g hashes p = (Ok R, p') ∧ Took p own others p' (pgm (KVGroupCoordinator.leaf_ids g) R ⊎ own) ∧
    dom R = list_to_set (KVGroupCoordinator.leaf_ids g) ∧ ∀ c, c ∈ KVGroupCoordinator.leaf_ids g → len (default [] (R !! c)) = len hashes.
Proof.
  intros HP Hok Hnd [_ Hs]. pose proof (len_nonneg hashes) as Hlen.
  assert (∀ low, 0 ≤ low → JengaHits.first_needed g (len hashes) ≤ low → ∀ i x, low ≤ i → hashes !! Z.to_nat i = Some x → JengaHits.holds p (KVGroupCoordinator.leaf_ids g) x = true) as Hheld.
  { intros low H0 Hlow i x Hi Hx. apply (Hs i x); [|done]. apply lookup_lt_Some in Hx. unfold len in *. lia. }
  destruct g as [leaves id|leaves id w ps]; simpl in *.
  - pose proof (claim_from leaves hashes 0 p a own others HP Hnd) as Hrun. rewrite slice_from_inside in Hrun by lia. simpl in Hrun. rewrite drop_0 in Hrun.
    apply Hrun; [lia|]. by apply Hheld.
  - set (b := KVGroupCoordinator._blocks_in_window id ps) in *. set (low := Z.max 0 (len hashes - b)) in *.
    pose proof Hok as [Hknown Hb]. simpl in Hknown, Hb. fold b in Hb. assert (0 ≤ low ≤ len hashes) as Hlow by (unfold low; lia).
    rewrite (bind_run _ _ _ _ _ (JengaHits.for_all_run _ _ (JengaHits.holds p leaves) p (λ x _, JengaHits.in_cache_run p _ x Hok))).
    assert (forallb (JengaHits.holds p leaves) (slice_from hashes low) = true) as ->.
    { apply forallb_forall. intros x Hx%list_elem_of_In. destruct (lookup_slice_from hashes low x Hlow Hx) as (i & Hi & Hix). apply (Hheld low) with i; lia || done. }
    rewrite (bind_run _ _ _ _ _ (null_rows_run leaves low p Hknown)). apply (claim_from leaves hashes low p a); [done|done|done|]. apply Hheld; [lia|done].
Qed.

Lemma pgm_union L L' R R' : (∀ c, c ∈ L → is_Some (R !! c)) → (∀ c, c ∈ L' → R !! c = None) → pgm (L ++ L') (R ∪ R') = pgm L R ⊎ pgm L' R'.
Proof.
  intros HL HL'. unfold pgm. rewrite pg_app. f_equal; apply pg_ext; intros c Hc; f_equal.
  - destruct (HL c Hc) as [v Hv]. rewrite Hv. by apply lookup_union_Some_l.
  - by rewrite lookup_union_r by by apply HL'.
Qed.

(** All the groups, one after the other *)
Lemma groups_claim gs done acc hashes p a own others :
  Pool n K p a ((pgm done acc ⊎ own) ⊎ others) → NoDup ((gs ≫= KVGroupCoordinator.leaf_ids) ++ done) → dom acc = list_to_set done →
  (∀ c, c ∈ done → len (default [] (acc !! c)) = len hashes) →
  (∀ g, g ∈ gs → (∀ p', (∀ c x r, JengaPoolSpec.committed p' c x r ↔ JengaPoolSpec.committed p c x r) → (∀ c, is_Some (K !! c) → is_Some (JengaBlockPool.caches p' !! c)) →
    JengaHits.coordinator_ok p' g ∧ JengaHits.serves p' hashes g (len hashes))) →
  ∃ R p', for_fold gs acc (λ hit_blocks g, let! rows := KVGroupCoordinator.claim_hit_blocks g hashes in ret (rows ∪ hit_blocks)) p = (Ok R, p') ∧
    Took p (pgm done acc ⊎ own) others p' (pgm ((gs ≫= KVGroupCoordinator.leaf_ids) ++ done) R ⊎ own) ∧
    dom R = list_to_set ((gs ≫= KVGroupCoordinator.leaf_ids) ++ done) ∧
    ∀ c, c ∈ (gs ≫= KVGroupCoordinator.leaf_ids) ++ done → len (default [] (R !! c)) = len hashes.
Proof.
  revert done acc p a. induction gs as [|g gs IH]; intros done acc p a HP Hnd Hdom Hlen Hg.
  - exists acc, p. split; [reflexivity|]. split; [by eapply took_refl|done].
  - simpl in Hnd. rewrite <- app_assoc in Hnd. apply NoDup_app in Hnd as (Hndg & Hdis & Hnd).
    assert (∀ c, is_Some (K !! c) → is_Some (JengaBlockPool.caches p !! c)) as Hknown.
    { intros c [k Hk]. destruct HP as [HPA _]. destruct (JengaAbs.abs_cache n K p a c k HPA Hk) as (x & -> & _). by eexists. }
    destruct (Hg g (list_elem_of_here _ _) p) as [Hok Hs]; [by intros|done|].
    destruct (group_claim_run g hashes p a (pgm done acc ⊎ own) others HP Hok Hndg Hs) as (R1 & p1 & E1 & HT1 & Hd1 & Hl1).
    assert (pgm (KVGroupCoordinator.leaf_ids g ++ done) (R1 ∪ acc) = pgm (KVGroupCoordinator.leaf_ids g) R1 ⊎ pgm done acc) as Hpg.
    { apply pgm_union.
      - intros c Hc. apply elem_of_dom. rewrite Hd1. by apply elem_of_list_to_set.
      - intros c Hc. apply not_elem_of_dom. rewrite Hd1, elem_of_list_to_set. intros Hc'. apply (Hdis c Hc'). apply elem_of_app. by right. }
    assert (pgm (KVGroupCoordinator.leaf_ids g ++ done) (R1 ∪ acc) ⊎ own = pgm (KVGroupCoordinator.leaf_ids g) R1 ⊎ (pgm done acc ⊎ own)) as Hpgo by (rewrite Hpg; multiset_solver).
    destruct (js_pool _ _ _ _ _ _ _ (to_step _ _ _ _ _ HT1)) as [a1 HP1].
    destruct (IH (KVGroupCoordinator.leaf_ids g ++ done) (R1 ∪ acc) p1 a1) as (R2 & p2 & E2 & HT2 & Hd2 & Hl2).
    + by rewrite Hpgo.
    + apply NoDup_app in Hnd as (Hnd1 & Hd12 & Hnd2). apply NoDup_app. split; [done|]. split.
      * intros c Hc. rewrite elem_of_app. intros [Hc'|Hc']; [|by apply (Hd12 c)]. apply (Hdis c Hc'). apply elem_of_app. by left.
      * apply NoDup_app. split; [done|]. split; [|done]. intros c Hc Hc'. apply (Hdis c Hc). apply elem_of_app. by right.
    + rewrite dom_union_L, Hd1, Hdom. by rewrite list_to_set_app_L.
    + intros c [Hc|Hc]%elem_of_app.
      * rewrite <- (Hl1 c Hc). assert (is_Some (R1 !! c)) as [v Hv] by (apply elem_of_dom; rewrite Hd1; by apply elem_of_list_to_set).
        rewrite Hv. by rewrite (lookup_union_Some_l _ _ _ _ Hv).
      * rewrite lookup_union_r; [by apply Hlen|]. apply not_elem_of_dom. rewrite Hd1, elem_of_list_to_set. intros Hc'. apply (Hdis c Hc'). apply elem_of_app. by right.
    + intros g' Hg' p' Hc' Hk'. apply Hg; [by right| |done]. intros c x r. rewrite Hc'. apply (to_cached _ _ _ _ _ HT1).
    + assert (∀ (P : list string → Prop), (∀ l l', l ≡ₚ l' → P l → P l') → P ((gs ≫= KVGroupCoordinator.leaf_ids) ++ KVGroupCoordinator.leaf_ids g ++ done) →
        P (((g :: gs) ≫= KVGroupCoordinator.leaf_ids) ++ done)) as Hperm.
      { intros P HPp HP0. eapply HPp; [|exact HP0]. simpl. by rewrite !app_assoc, (Permutation_app_comm (KVGroupCoordinator.leaf_ids g)). }
      exists R2, p2. split; [|split; [|split]].
      * cbn [for_fold]. unfold bind at 1. rewrite (bind_run _ _ _ _ _ E1). exact E2.
      * apply (took_trans p p1 p2 _ (pgm (KVGroupCoordinator.leaf_ids g) R1 ⊎ (pgm done acc ⊎ own))); [exact HT1|]. rewrite Hpgo in HT2.
        apply (Hperm (λ l, Took p1 _ others p2 (pgm l R2 ⊎ own))); [|exact HT2]. intros l l' Hl. unfold pgm. by rewrite (pg_perm l l').
      * apply (Hperm (λ l, dom R2 = list_to_set l)); [|exact Hd2]. intros l l' Hl ->. by apply list_to_set_perm_L.
      * apply (Hperm (λ l, ∀ c, c ∈ l → len (default [] (R2 !! c)) = len hashes)); [|exact Hl2]. intros l l' Hl H1 c Hc. apply H1. by rewrite Hl.
Qed.

Lemma holds_iff p L x : JengaHits.holds p L x = true ↔ Cached p L x.
Proof.
  unfold JengaHits.holds. rewrite forallb_forall. split.
  - intros Hh c Hc. specialize (Hh c (proj1 (list_elem_of_In _ _) Hc)). destruct (JengaBlockPool.caches p !! c) as [y|] eqn:Hy; [|done].
    apply bool_decide_eq_true in Hh as [r Hr]. by exists r, y.
  - intros Hc c Hin%list_elem_of_In. destruct (Hc c Hin) as (r & y & Hy & Hr). rewrite Hy. apply bool_decide_eq_true. by exists r.
Qed.

Lemma groups_ok m p a own : Static m → Pool n K p a own → JengaHits.GroupsOk p (_groups m).
Proof.
  intros HS [HA _]. pose proof (st_groups _ HS) as [HL Hk Hnd]. split; [|intros g Hg; specialize (Hk g Hg); destruct g; [done|tauto]|done].
  intros g Hg. split.
  - intros c Hc. destruct (st_caches _ HS c) as [k Hkc].
    { rewrite <- HL. apply list_elem_of_bind. by exists g. }
    destruct (JengaAbs.abs_cache n K p a c k HA Hkc) as (x & -> & _). by eexists.
  - specialize (Hk g Hg). destruct g; [done|tauto].
Qed.

Lemma bind_failed {S A C} (f : M S A) (g : A → M S C) s s' e : f s = (Raise e, s') → bind f g s = (Raise e, s').
Proof. unfold bind. by intros ->. Qed.

Lemma pool_fold {X Y} (l : list X) (b : Y) (f : X → M JengaBlockPool.t Y) (g : Y → Y → Y) m i p : 0 ≤ i → pools m !! Z.to_nat i = Some p →
  for_fold l b (λ b x, let! v := on_pool i (f x) in ret (g v b)) m =
    ((for_fold l b (λ b x, let! v := f x in ret (g v b)) p).1, set_pools (<[Z.to_nat i := (for_fold l b (λ b x, let! v := f x in ret (g v b)) p).2]> (pools m)) m).
Proof.
  intros Hi. revert m p b. induction l as [|x l IH]; intros m p b Hp; cbn [for_fold].
  - unfold ret. simpl. rewrite list_insert_id by done. by destruct m.
  - assert (on_pool i (f x) m = ((f x p).1, set_pools (<[Z.to_nat i := (f x p).2]> (pools m)) m)) as Eo.
    { unfold on_pool. rewrite (Ownership.py_index_pools (pools m) i p Hi Hp). unfold BlockManager.position.
      rewrite (proj2 (Z.ltb_ge i 0)) by done. by destruct (f x p). }
    destruct (f x p) as [[v|e] p1] eqn:Ef; simpl in Eo.
    + assert ((let! v := on_pool i (f x) in ret (g v b)) m = (Ok (g v b), set_pools (<[Z.to_nat i := p1]> (pools m)) m)) as E1 by by rewrite (bind_run _ _ _ _ _ Eo).
      assert ((let! v := f x in ret (g v b)) p = (Ok (g v b), p1)) as E2 by by rewrite (bind_run _ _ _ _ _ Ef).
      rewrite (bind_run _ _ _ _ _ E1), (bind_run _ _ _ _ _ E2), (IH _ p1); simpl; [by rewrite list_insert_insert_eq|].
      apply list_lookup_insert_eq. by eapply lookup_lt_Some.
    + by rewrite !(bind_failed _ _ _ _ _ (bind_failed _ _ _ _ _ Eo)), !(bind_failed _ _ _ _ _ (bind_failed _ _ _ _ _ Ef)).
Qed.

Lemma committed_run m rid k : _req_to_committed_idx m !! rid = Some k → committed_idx_of rid m = (Ok k, m).
Proof. intros E. unfold committed_idx_of, bind, get. by rewrite E. Qed.
Lemma jenga_hashes_of_run m rid hs : _req_to_hashes m !! rid = Some hs → hashes_of rid m = (Ok hs, m).
Proof. intros E. unfold hashes_of, bind, get. by rewrite E. Qed.

Lemma find_run m rid i p a others k hs :
  At m rid i p → Pool n K p a (pg (leaf_ids m) (rw m rid) ⊎ others) → 0 ≤ k → _req_to_committed_idx m !! rid = Some (k * _block_size m) →
  _req_to_hashes m !! rid = Some hs →
  ∃ h R p', _find_longest_prefix_cache_hit rid i m = (Ok (R, h), set_pools (<[Z.to_nat i := p']> (pools m)) m) ∧
    Took p (pg (leaf_ids m) (rw m rid)) others p' (pgm (leaf_ids m) R ⊎ pg (leaf_ids m) (rw m rid)) ∧ dom R = list_to_set (leaf_ids m) ∧
    (∀ c, c ∈ leaf_ids m → len (default [] (R !! c)) = h) ∧ JengaHits.Best p (_groups m) (slice_from hs k) h.
Proof.
  intros HA HP Hk Hc Hh. pose proof HA as [HS Hi Hp _]. pose proof (st_block _ HS) as Hbs. pose proof (groups_ok m p a _ HS HP) as HG.
  destruct (JengaHits.common_run i p m (Ownership.py_index_pools _ _ _ Hi Hp) (slice_from hs k) HG) as (h & E1 & HB). pose proof (JengaHits.bt_range _ _ _ _ HB) as Hh0.
  set (desired := take (Z.to_nat h) (slice_from hs k)) in *. assert (len desired = h) as Hd by by apply JengaHits.len_take.
  destruct (groups_claim (_groups m) [] ∅ desired p a (pg (leaf_ids m) (rw m rid)) others) as (R & p' & E2 & HT & Hdom & Hlen).
  - assert (pgm [] ∅ ⊎ pg (leaf_ids m) (rw m rid) = pg (leaf_ids m) (rw m rid)) as -> by (unfold pgm; simpl; multiset_solver). done.
  - rewrite app_nil_r, (gs_leaves _ _ (st_groups _ HS)). apply HS.
  - by rewrite dom_empty_L.
  - intros c Hc0. by apply elem_of_nil in Hc0.
  - intros g Hg p1 Hcm Hkn. destruct (JengaHits.gr_ok _ _ HG g Hg) as [Hknown Hb]. split.
    + split; [|done]. intros c Hcg. apply Hkn, (st_caches _ HS). rewrite <- (gs_leaves _ _ (st_groups _ HS)). apply list_elem_of_bind. by exists g.
    + destruct (JengaHits.take_serves p (slice_from hs k) g h h (JengaHits.bt_serves _ _ _ _ HB g Hg) ltac:(done)) as [Hr Hs]. rewrite Hd. split; [done|].
      intros j x Hj Hx. apply holds_iff. intros c Hcg. destruct (proj1 (holds_iff p _ x) (Hs j x Hj Hx) c Hcg) as [r Hr']. exists r. by apply Hcm.
  - rewrite app_nil_r in HT, Hdom, Hlen. exists h, R, p'. split; [|split; [|split; [|split; [|done]]]].
    + unfold _find_longest_prefix_cache_hit. mstep (committed_run m rid _ Hc). mstep (eq_refl : get m = (Ok m, m)). cbv zeta.
      mstep (jenga_hashes_of_run m rid hs Hh). rewrite Z.div_mul by lia. mstep E1. fold desired.
      unfold bind at 1. rewrite (pool_fold (_groups m) ∅ (λ g, KVGroupCoordinator.claim_hit_blocks g desired) (∪) m i p Hi Hp), E2. simpl. unfold ret. by rewrite Hd.
    + assert (pgm [] ∅ ⊎ pg (leaf_ids m) (rw m rid) = pg (leaf_ids m) (rw m rid)) as E0 by (unfold pgm; simpl; multiset_solver). rewrite E0 in HT.
      unfold pgm in HT |- *. by rewrite (pg_perm _ _ _ (gs_leaves _ _ (st_groups _ HS))) in HT.
    + rewrite Hdom. apply list_to_set_perm_L, HS.
    + intros c Hcl. rewrite Hlen; [done|]. by rewrite (gs_leaves _ _ (st_groups _ HS)).
Qed.

(** *** Dropping the uncommitted pages *)

Definition pop (leaf_id : string) (rid i : Z) : M t unit :=
  let! l := row leaf_id rid in
  let! block := of_option IndexError (last l) in
  put_row leaf_id rid (removelast l);;
  on_pool i (JengaBlockPool.free_block leaf_id block).

Lemma pop_run m rid i p a extra others c l r :
  At m rid i p → Pool n K p a ((pg (leaf_ids m) (rw m rid) ⊎ extra) ⊎ others) → c ∈ leaf_ids m → rw m rid c = l ++ [r] →
  ∃ m' p', pop c rid i m = (Ok tt, m') ∧ Move m m' rid i p p' ∧
    JStep n K p (pg (leaf_ids m) (rw m rid) ⊎ extra) others p' (pg (leaf_ids m) (rw m' rid) ⊎ extra) ∧
    ∀ c', rw m' rid c' = if decide (c' = c) then l else rw m rid c'.
Proof.
  intros HA HP Hc Hrow. destruct (at_row m rid i p c HA Hc) as [Er _]. rewrite Hrow in Er. set (m1 := putm c rid l m).
  pose proof (put_move m rid i p c l HA Hc) as HM1. pose proof (move_at _ _ _ _ _ _ HM1 HA) as HA1.
  destruct (put_pg m rid i p c l HA Hc) as (X & HX1 & HX2). rewrite Hrow, cl_app in HX1. fold m1 in HX2.
  assert (pg (leaf_ids m) (rw m rid) ⊎ extra = cl c [r] ⊎ (pg (leaf_ids m) (rw m1 rid) ⊎ extra)) as Hpg by (rewrite HX1, HX2; multiset_solver).
  rewrite Hpg in HP. destruct (jfree_row [r] p a (pg (leaf_ids m) (rw m1 rid) ⊎ extra) others c HP) as (p' & E2 & HJ & _); [by apply (st_caches _ (at_static _ _ _ _ HA))|].
  simpl in E2. assert (JengaBlockPool.free_block c r p = (Ok tt, p')) as E2'.
  { unfold bind, ret in E2. destruct (JengaBlockPool.free_block c r p) as [[[]|e] q]; congruence. }
  destruct (pool_run m1 rid i p _ _ _ HA1 E2') as (m2 & E3 & HM2 & Hrw2). exists m2, p'. split; [|split; [by eapply move_trans|split]].
  - unfold pop. mstep Er. rewrite last_snoc. mstep (eq_refl : of_option IndexError (Some r) m = (Ok r, m)). rewrite removelast_last.
    mstep (jenga_put_run c rid l m). exact E3.
  - rewrite Hpg. by rewrite (pg_ext _ (rw m1 rid) (rw m2 rid)) by (intros; apply Hrw2).
  - intros c'. rewrite Hrw2. by apply (put_rw m rid i p).
Qed.

Lemma jenga_pop_loop (l0 : list Z) m rid i p a extra others c pre suf :
  At m rid i p → Pool n K p a ((pg (leaf_ids m) (rw m rid) ⊎ extra) ⊎ others) → c ∈ leaf_ids m → rw m rid c = pre ++ suf → length suf = length l0 →
  ∃ m' p', for_each l0 (λ _, pop c rid i) m = (Ok tt, m') ∧ Move m m' rid i p p' ∧
    JStep n K p (pg (leaf_ids m) (rw m rid) ⊎ extra) others p' (pg (leaf_ids m) (rw m' rid) ⊎ extra) ∧
    ∀ c', rw m' rid c' = if decide (c' = c) then pre else rw m rid c'.
Proof.
  revert m p a suf. induction l0 as [|x l0 IH]; intros m p a suf HA HP Hc Hrow Hlen.
  - apply nil_length_inv in Hlen as ->. rewrite app_nil_r in Hrow. exists m, p. split; [done|]. split; [apply move_refl, HA|]. split; [by eapply jstep_refl|].
    intros c'. case_decide; [by subst|done].
  - destruct suf as [|r suf' _] using rev_ind; [done|].
    rewrite app_assoc in Hrow. rewrite length_app in Hlen. simpl in Hlen.
    destruct (pop_run m rid i p a extra others c _ _ HA HP Hc Hrow) as (m1 & p1 & E1 & HM1 & HJ1 & Hrw1).
    pose proof (move_ids _ _ _ _ _ _ HM1) as Hid. destruct (js_pool _ _ _ _ _ _ _ HJ1) as [a1 HP1]. rewrite <- Hid in HP1.
    destruct (IH m1 p1 a1 suf') as (m2 & p2 & E2 & HM2 & HJ2 & Hrw2); [by eapply move_at|done|by rewrite Hid|by rewrite Hrw1, decide_True|lia|]. rewrite Hid in *.
    exists m2, p2. split; [simpl; by rewrite (bind_run _ _ _ _ _ E1)|]. split; [by eapply move_trans|]. split; [by eapply jstep_trans|].
    intros c'. rewrite Hrw2, Hrw1. by case_decide.
Qed.

Definition drop_tail (rid i k : Z) (leaf_id : string) : M t unit :=
  let! req_blocks := row leaf_id rid in
  py_assert (k <=? len req_blocks);;
  for_each (zrange 0 (len req_blocks - k)) (λ _, pop leaf_id rid i).

Lemma drop_tails l m rid i p a extra others k :
  At m rid i p → Pool n K p a ((pg (leaf_ids m) (rw m rid) ⊎ extra) ⊎ others) → NoDup l → 0 ≤ k → (∀ c, c ∈ l → c ∈ leaf_ids m ∧ k ≤ len (rw m rid c)) →
  ∃ m' p', for_each l (drop_tail rid i k) m = (Ok tt, m') ∧ Move m m' rid i p p' ∧
    JStep n K p (pg (leaf_ids m) (rw m rid) ⊎ extra) others p' (pg (leaf_ids m) (rw m' rid) ⊎ extra) ∧
    ∀ c', rw m' rid c' = if decide (c' ∈ l) then take (Z.to_nat k) (rw m rid c') else rw m rid c'.
Proof.
  revert m p a. induction l as [|c l IH]; intros m p a HA HP Hnd Hk Hl.
  - exists m, p. split; [done|]. split; [apply move_refl, HA|]. split; [by eapply jstep_refl|done].
  - apply NoDup_cons in Hnd as [Hc Hnd]. destruct (Hl c (list_elem_of_here _ _)) as [HcL Hle].
    assert (length (drop (Z.to_nat k) (rw m rid c)) = length (zrange 0 (len (rw m rid c) - k))) as Hlen.
    { pose proof (len_zrange 0 (len (rw m rid c) - k) ltac:(lia)) as Ez. unfold len in *. rewrite length_drop. lia. }
    destruct (jenga_pop_loop (zrange 0 (len (rw m rid c) - k)) m rid i p a extra others c (take (Z.to_nat k) (rw m rid c)) (drop (Z.to_nat k) (rw m rid c)))
      as (m1 & p1 & E1 & HM1 & HJ1 & Hrw1); [done|done|done|by rewrite take_drop|done|].
    pose proof (move_ids _ _ _ _ _ _ HM1) as Hid. destruct (js_pool _ _ _ _ _ _ _ HJ1) as [a1 HP1]. rewrite <- Hid in HP1.
    destruct (IH m1 p1 a1) as (m2 & p2 & E2 & HM2 & HJ2 & Hrw2); [by eapply move_at|done|done|done| |].
    { intros c' Hc'. destruct (Hl c' (list_elem_of_further _ _ _ Hc')). rewrite Hid, Hrw1, decide_False by (by intros ->). done. }
    rewrite Hid in *. exists m2, p2. split; [|split; [by eapply move_trans|split; [by eapply jstep_trans|]]].
    + simpl. unfold bind at 1, drop_tail at 1. destruct (at_row m rid i p c HA HcL) as [Er _]. rewrite (bind_run _ _ _ _ _ Er), (proj2 (Z.leb_le k _)) by done.
      rewrite (bind_run _ _ _ _ _ (eq_refl : py_assert true m = (Ok tt, m))), E1. exact E2.
    + intros c'. rewrite Hrw2, Hrw1. destruct (decide (c' = c)) as [->|Hne].
      * rewrite (decide_False (P := c ∈ l)) by done. by rewrite decide_True by left.
      * apply decide_ext. rewrite elem_of_cons. tauto.
Qed.

(** *** Adopting a hit *)

Lemma pg_add L f g : pg L (λ c, f c ++ g c) = pg L f ⊎ pg L g.
Proof. induction L as [|c L IH]; simpl; [multiset_solver|]. rewrite cl_app, IH. multiset_solver. Qed.

Definition extend (rid : Z) : string * list Z → M t unit := λ '(leaf_id, blocks), let! l := row leaf_id rid in put_row leaf_id rid (l ++ blocks).

Lemma extend_loop D m rid i p :
  At m rid i p → NoDup D.*1 → (∀ c, c ∈ D.*1 → c ∈ leaf_ids m) →
  ∃ m', for_each D (extend rid) m = (Ok tt, m') ∧ Move m m' rid i p p ∧
    (∀ c l, (c, l) ∈ D → rw m' rid c = rw m rid c ++ l) ∧ (∀ c, c ∉ D.*1 → rw m' rid c = rw m rid c).
Proof.
  revert m. induction D as [|[c l] D IH]; intros m HA Hnd Hin.
  - exists m. split; [done|]. split; [apply move_refl, HA|]. split; [|done]. intros c l Hcl. by apply elem_of_nil in Hcl.
  - apply NoDup_cons in Hnd as [Hc Hnd]. assert (c ∈ leaf_ids m) as HcL by (apply Hin; by left).
    pose proof (put_move m rid i p c (rw m rid c ++ l) HA HcL) as HM1. pose proof (move_ids _ _ _ _ _ _ HM1) as Hid.
    destruct (IH (putm c rid (rw m rid c ++ l) m)) as (m2 & E2 & HM2 & Hl2 & Hrest2); [by eapply move_at|done| |].
    { intros c' Hc'. rewrite Hid. apply Hin. by right. }
    exists m2. split; [|split; [by eapply move_trans|split]].
    + cbn [for_each]. unfold bind at 1, extend at 1. destruct (at_row m rid i p c HA HcL) as [Er _]. rewrite (bind_run _ _ _ _ _ Er), jenga_put_run. exact E2.
    + intros c' l' [[= -> ->]|Hcl]%elem_of_cons; [by rewrite Hrest2, (put_rw m rid i p), decide_True|].
      rewrite (Hl2 c' l' Hcl), (put_rw m rid i p), decide_False; [done| |done..]. intros ->. apply Hc. apply list_elem_of_fmap. by exists (c, l').
    + intros c' [Hne Hc']%not_elem_of_cons. by rewrite Hrest2, (put_rw m rid i p), decide_False.
Qed.

Lemma extend_run R m rid i p : At m rid i p → dom R = list_to_set (leaf_ids m) →
  ∃ m', for_each (map_to_list R) (extend rid) m = (Ok tt, m') ∧ Move m m' rid i p p ∧
    ∀ c, c ∈ leaf_ids m → rw m' rid c = rw m rid c ++ default [] (R !! c).
Proof.
  intros HA Hdom. destruct (extend_loop (map_to_list R) m rid i p HA) as (m' & E & HM & Hl & _); [apply NoDup_fst_map_to_list| |].
  - intros c ([? l] & -> & Hl%elem_of_map_to_list)%list_elem_of_fmap. apply (elem_of_list_to_set (C := gset string)). rewrite <- Hdom. by apply elem_of_dom_2 in Hl.
  - exists m'. split; [done|]. split; [done|]. intros c Hc. assert (is_Some (R !! c)) as [l Hcl] by (apply elem_of_dom; rewrite Hdom; by apply elem_of_list_to_set).
    rewrite Hcl. by apply Hl, elem_of_map_to_list.
Qed.

Lemma change_refl m rid i p : pools m !! Z.to_nat i = Some p → Change m m rid i p p.
Proof. intros Hp. split; try done. by rewrite list_insert_id. Qed.
Lemma change_metrics x m rid i p : pools m !! Z.to_nat i = Some p → Change m (set_metrics x m) rid i p p.
Proof. intros Hp. split; try done. simpl. by rewrite list_insert_id. Qed.
Lemma change_hashes hs m rid i p : pools m !! Z.to_nat i = Some p → Change m (set_hashes (<[rid := hs]> (_req_to_hashes m)) m) rid i p p.
Proof. intros Hp. split; try done; simpl; [by rewrite list_insert_id|]. intros rid' Hne. by rewrite lookup_insert_ne. Qed.
Lemma change_committed k m rid i p : pools m !! Z.to_nat i = Some p → Change m (set_committed (<[rid := k]> (_req_to_committed_idx m)) m) rid i p p.
Proof. intros Hp. split; try done; simpl; [by rewrite list_insert_id|]. intros rid' Hne. by rewrite lookup_insert_ne. Qed.
Lemma change_pool m rid i p p' : Change m (set_pools (<[Z.to_nat i := p']> (pools m)) m) rid i p p'.
Proof. done. Qed.

Lemma at_change m m' rid i p p' : Change m m' rid i p p' → At m rid i p → (∀ c, c ∈ leaf_ids m → is_Some (row_opt m' c rid)) → At m' rid i p'.
Proof.
  intros HC [HS Hi Hp _] Hrow. split; [eapply static_same; [apply HC|apply HC|done]|done| |].
  - rewrite (ch_pools _ _ _ _ _ _ HC). apply list_lookup_insert_eq. by eapply lookup_lt_Some.
  - intros c. rewrite (change_core leaf_ids _ _ _ _ _ _ HC) by done. apply Hrow.
Qed.

(** A party that only takes references leaves the unpublished pages unpublished. *)
Lemma took_fresh p a own others p' own' c r : Pool n K p a (own ⊎ others) → Took p own others p' own' → r ≠ 0 → hash_of p c r = None → hash_of p' c r = None.
Proof.
  intros [HA HI] [[[a' HP'] _] Hcm] Hr0 Hz. pose proof HP' as [HA' HI']. destruct (K !! c) as [k|] eqn:Hk; [destruct (named_dec n k r) as [Hr|Hr]|].
  - rewrite (hash_abs n K p a c k) in Hz by done. rewrite (hash_abs n K p' a' c k) by done. destruct Hr as [?|Hr]; [done|].
    destruct (JengaAbs.ahs (JengaAbs.ca a' c) r) as [x|] eqn:Ex; [|done].
    assert (JengaPoolSpec.committed p' c x r) as Hx by (apply (committed_abs n K p' a' c k); [done|done|]; by apply (JengaAbs.iv_cons _ _ _ _ _ HI' c k Hk)).
    apply Hcm, (committed_abs n K p a c k), (JengaAbs.iv_cons _ _ _ _ _ HI c k Hk) in Hx as [_ ?]; [congruence|done|done].
  - apply (hash_unknown n K p' a'); [done|]. intros k0 Hk0. by simplify_eq.
  - apply (hash_unknown n K p' a'); [done|]. intros k0 Hk0. by simplify_eq.
Qed.

Lemma compute_hashes_run m x hs : let rid := TextContext.request_id (Ctx.base x) in
  0 < _block_size m → _req_to_hashes m !! rid = Some hs → TokenBuffer.wf (Ctx.tokens x) → (∀ y, y ∈ TokenBuffer.all (Ctx.tokens x) → int64 y = true) →
  (∃ e, _compute_hashes_for_request (mk_world m x) = (Raise e, mk_world m x)) ∨
  ∃ hs', _compute_hashes_for_request (mk_world m x) = (Ok hs', mk_world (set_hashes (<[rid := hs']> (_req_to_hashes m)) m) x) ∧
    hs `prefix_of` hs' ∧ len hs' = Z.max (len hs) (Ownership.hashable x / _block_size m).
Proof.
  intros rid Hbs Hh Hwf H64. unfold _compute_hashes_for_request. mstep (eq_refl : get (mk_world m x) = (Ok (mk_world m x), mk_world m x)).
  change (request_id (mk_world m x)) with rid. mstep (jenga_on_mgr_run _ (mk_world m x) _ _ (jenga_hashes_of_run m rid hs Hh)). simpl.
  assert ((BlockHashes.compute_block_hashes hs (_block_size m) (_kv_hash_algo m) (_kv_hash_seed m) x).2 = x) as E2 by by rewrite HashFacts.compute_block_hashes_run.
  destruct (BlockHashes.compute_block_hashes hs (_block_size m) (_kv_hash_algo m) (_kv_hash_seed m) x) as [o x'] eqn:Ec. simpl in E2. subst x'.
  pose proof (jenga_on_ctx_run _ (mk_world m x) _ _ Ec) as E. destruct o as [new|e]; [right|left; exists e; exact (bind_failed _ _ _ _ _ E)].
  exists (hs ++ new). split; [by mstep E|]. split; [by exists new|]. rewrite len_app.
  apply (Ownership.len_block_hashes _ _ (_kv_hash_algo m) (_kv_hash_seed m) x); [done|done|done|]. by rewrite Ec.
Qed.

Lemma pool_comm p (a : JengaAbs.abs) own extra others : Pool n K p a ((own ⊎ extra) ⊎ others) → Pool n K p a ((extra ⊎ own) ⊎ others).
Proof. by rewrite (comm_L disj_union own extra). Qed.

Lemma jenga_release_uncommitted_run m x i p a extra others k : let rid := TextContext.request_id (Ctx.base x) in
  At m rid i p → Pool n K p a ((pg (leaf_ids m) (rw m rid) ⊎ extra) ⊎ others) → _req_to_committed_idx m !! rid = Some (k * _block_size m) → 0 ≤ k →
  (∀ c, c ∈ leaf_ids m → k ≤ len (rw m rid c)) → TokenBuffer.wf (Ctx.tokens x) →
  k * _block_size m + TokenBuffer._processing_offset (Ctx.tokens x) < Range.end_ (TokenBuffer._processing_range (Ctx.tokens x)) →
  ∃ m' p', _release_uncommitted_blocks i (mk_world m x) = (Ok tt, mk_world m' (Ownership.with_tokens (Ownership.start_at (k * _block_size m) (Ctx.tokens x)) x)) ∧
    Move m m' rid i p p' ∧ JStep n K p (pg (leaf_ids m) (rw m rid) ⊎ extra) others p' (pg (leaf_ids m) (rw m' rid) ⊎ extra) ∧
    ∀ c, c ∈ leaf_ids m → rw m' rid c = take (Z.to_nat k) (rw m rid c).
Proof.
  intros rid HA HP Hk Hk0 Hle Hwf He. pose proof (st_block _ (at_static _ _ _ _ HA)) as Hbs.
  destruct (drop_tails (leaf_ids m) m rid i p a extra others k HA HP) as (m' & p' & E & HM & HJ & Hrw); [apply (st_nodup _ (at_static _ _ _ _ HA))|done|by auto|].
  exists m', p'. split; [|split; [done|split; [done|intros c Hc; by rewrite Hrw, decide_True]]].
  unfold _release_uncommitted_blocks. mstep (eq_refl : get (mk_world m x) = (Ok (mk_world m x), mk_world m x)). change (request_id (mk_world m x)) with rid.
  mstep (jenga_on_mgr_run _ (mk_world m x) _ _ (jenga_pool_at_run m rid i p HA)). mstep (jenga_on_mgr_run _ (mk_world m x) _ _ (committed_run m rid _ Hk)). simpl.
  rewrite Z.div_mul by lia. cbv zeta. mstep (jenga_on_mgr_run _ (mk_world m x) _ _ (eq_trans (for_leaves_run (drop_tail rid i k) m) E)). simpl.
  mstep (eq_refl : tokens (mk_world m' x) = (Ok (Ctx.tokens x), mk_world m' x)).
  pose proof (Ownership.adjust_run (k * _block_size m) (Ctx.tokens x) Hwf ltac:(nia) He) as EA. cbv zeta in EA. rewrite Z.gtb_ltb in EA.
  assert (∀ f : M TokenBuffer.t unit, f (Ctx.tokens x) = (Ok tt, Ownership.start_at (k * _block_size m) (Ctx.tokens x)) →
    on_ctx (Ctx.on_tokens f) (mk_world m' x) = (Ok tt, mk_world m' (Ownership.with_tokens (Ownership.start_at (k * _block_size m) (Ctx.tokens x)) x))) as Hf.
  { intros f Ef. by apply (jenga_on_ctx_run _ (mk_world m' x)), Ownership.with_tokens_run. }
  destruct (0 <? _); [by apply Hf|]. destruct (_ <? 0); simpl in *; [by apply Hf|].
  injection EA as EA. rewrite <- EA. unfold Ownership.with_tokens, ret. do 2 f_equal. by destruct x as [[]|[[]]].
Qed.

(** What looking for a prefix leaves when [h] more blocks were found *)
Record Reused m m' (x x' : Ctx.t B) (rid i : Z) (hs : list bytes) (k h : Z) : Prop := {
  ru_minv : MInv m';
  ru_change : ∃ p p', pools m !! Z.to_nat i = Some p ∧ Change m m' rid i p p' ∧
    ∃ hs', _req_to_hashes m' !! rid = Some hs' ∧ hs `prefix_of` hs' ∧ JengaHits.Best p (_groups m) (slice_from hs' k) h;
  ru_committed : _req_to_committed_idx m' !! rid = Some ((k + h) * _block_size m);
  ru_rows c : c ∈ leaf_ids m → if decide (h = 0) then rw m' rid c = rw m rid c
    else ∃ l, rw m' rid c = take (Z.to_nat k) (rw m rid c) ++ l ∧ len l = h;
  ru_tokens : Ctx.tokens x' = if decide (h = 0) then Ctx.tokens x else Ownership.start_at ((k + h) * _block_size m) (Ctx.tokens x);
  ru_cached : TextContext.cached_prefix_length (Ctx.base x') = Some (h * _block_size m)
}.

Lemma set_cached_run v x : Ctx.on_base (modify (TextContext.set_cached v)) x = (Ok tt, Ctx.set_base (TextContext.set_cached v (Ctx.base x)) x).
Proof. by apply Ownership.on_base_run. Qed.

(** A change that leaves the request's rows and what it committed keeps the invariant. *)
Lemma minv_kept m m' rid i p p' own' : MInv m → _req_to_replica m !! rid = Some i → pools m !! Z.to_nat i = Some p → Change m m' rid i p p' →
  (∀ c, c ∈ leaf_ids m → row_opt m' c rid = row_opt m c rid) → own' = pg (leaf_ids m) (rw m rid) → Took p (pg (leaf_ids m) (rw m rid)) (rest m rid i) p' own' →
  is_Some (_req_to_hashes m' !! rid) → _req_to_committed_idx m' !! rid = _req_to_committed_idx m !! rid → MInv m'.
Proof.
  intros HI Hr Hp HC Hrow -> HT Hh Hk. destruct (at_of m rid i HI Hr) as (p0 & a & HA & Hp0 & HP). simplify_eq.
  assert (∀ c, c ∈ leaf_ids m → rw m' rid c = rw m rid c) as Hrw by (intros c Hc; unfold rw; by rewrite Hrow).
  assert (pg (leaf_ids m) (rw m' rid) = pg (leaf_ids m) (rw m rid)) as Hpg by by apply pg_ext.
  destruct (minv_change m m' rid i p p' HI Hr Hp HC) as (HB & Hp' & Hheld); [rewrite Hpg; apply HT|].
  apply (but_minv rid); [done|]. intros j Hj. assert (j = i) as -> by (rewrite (change_core _req_to_replica _ _ _ _ _ _ HC) in Hj by done; congruence).
  destruct (mi_reqs _ HI rid i Hr) as [Q1 Q2 Q3 (k & Hk0 & Hki & Ht)].
  pose proof (change_core leaf_ids _ _ _ _ _ _ HC ltac:(done)) as EL. split.
  - rewrite (ch_pools _ _ _ _ _ _ HC). unfold len in *. by rewrite length_insert.
  - done.
  - intros c. rewrite EL. intros Hc. rewrite Hrow by done. by apply Q3.
  - exists k. split; [done|]. rewrite Hk, (change_core _block_size _ _ _ _ _ _ HC), (change_core _enable_prefix_caching _ _ _ _ _ _ HC), EL by done.
    split; [done|]. intros q Hq. assert (q = p') as -> by congruence. rewrite Hheld, Hpg. intros c Hc. rewrite Hrw by done.
    destruct (Ht p Hp c Hc) as [Hle Hj']. split; [done|]. intros j' r Hkj Hrj. destruct (Hj' j' r Hkj Hrj) as [?|[Hr0 [Hz Hm]]]; [by left|right].
    split; [done|]. split; [by eapply took_fresh|]. by rewrite <- (held_of_split m rid i Hr).
Qed.

(** A request all of whose pages are committed *)
Lemma minv_adopted m m' rid i p p' k : MInv m → _req_to_replica m !! rid = Some i → pools m !! Z.to_nat i = Some p → Change m m' rid i p p' →
  JStep n K p (pg (leaf_ids m) (rw m rid)) (rest m rid i) p' (pg (leaf_ids m) (rw m' rid)) →
  (∀ c, c ∈ leaf_ids m → is_Some (row_opt m' c rid) ∧ len (rw m' rid c) = k) → 0 ≤ k →
  is_Some (_req_to_hashes m' !! rid) → _req_to_committed_idx m' !! rid = Some (k * _block_size m) → MInv m'.
Proof.
  intros HI Hr Hp HC HJ Hrow Hk0 Hh Hk. destruct (minv_change m m' rid i p p' HI Hr Hp HC HJ) as (HB & Hp' & _).
  apply (but_minv rid); [done|]. intros j Hj. assert (j = i) as -> by (rewrite (change_core _req_to_replica _ _ _ _ _ _ HC) in Hj by done; congruence).
  pose proof (change_core leaf_ids _ _ _ _ _ _ HC ltac:(done)) as EL. destruct (mi_reqs _ HI rid i Hr) as [Q1 _ _ _]. split.
  - rewrite (ch_pools _ _ _ _ _ _ HC). unfold len in *. by rewrite length_insert.
  - done.
  - intros c. rewrite EL. intros Hc. by apply Hrow.
  - exists k. rewrite (change_core _block_size _ _ _ _ _ _ HC) by done. split; [done|]. split; [done|]. intros q Hq c. rewrite EL. intros Hc. destruct (Hrow c Hc) as [_ Hl]. split; [lia|].
    intros j' r Hkj Hrj%lookup_lt_Some. unfold len in Hl. lia.
Qed.

(** Adopting [h] pages found for the request, the references of [R] in hand *)
Definition adopt (rid i h : Z) (R : gmap string (list Z)) (block_size : Z) : M world Z :=
  _release_uncommitted_blocks i;;
  on_mgr (for_each (map_to_list R) (extend rid));;
  let! committed_idx := on_mgr (committed_idx_of rid) in
  let committed_idx := committed_idx + h * block_size in
  on_mgr (put_committed rid committed_idx);;
  let! b := tokens in
  let skip_amount := committed_idx - TokenBuffer.processed_length b in
  on_ctx (Ctx.on_tokens (TokenBuffer.skip_processing skip_amount));;
  let! b := tokens in
  py_assert (1 <=? TokenBuffer.active_length b);;
  ret skip_amount.

Lemma jenga_adopt_run m x i p a others R k h : let rid := TextContext.request_id (Ctx.base x) in
  At m rid i p → Pool n K p a ((pg (leaf_ids m) (rw m rid) ⊎ pgm (leaf_ids m) R) ⊎ others) → dom R = list_to_set (leaf_ids m) →
  _req_to_committed_idx m !! rid = Some (k * _block_size m) → 0 ≤ k → 0 ≤ h → (∀ c, c ∈ leaf_ids m → k ≤ len (rw m rid c)) → TokenBuffer.wf (Ctx.tokens x) →
  (k + h) * _block_size m + TokenBuffer._processing_offset (Ctx.tokens x) < Range.end_ (TokenBuffer._processing_range (Ctx.tokens x)) →
  ∃ m' p', adopt rid i h R (_block_size m) (mk_world m x) =
      (Ok (h * _block_size m), mk_world m' (Ownership.with_tokens (Ownership.start_at ((k + h) * _block_size m) (Ctx.tokens x)) x)) ∧
    Change m m' rid i p p' ∧ _req_to_hashes m' = _req_to_hashes m ∧ _req_to_committed_idx m' !! rid = Some ((k + h) * _block_size m) ∧
    JStep n K p (pg (leaf_ids m) (rw m rid) ⊎ pgm (leaf_ids m) R) others p' (pg (leaf_ids m) (rw m' rid)) ∧
    ∀ c, c ∈ leaf_ids m → is_Some (row_opt m' c rid) ∧ rw m' rid c = take (Z.to_nat k) (rw m rid c) ++ default [] (R !! c).
Proof.
  intros rid HA HP Hdom Hk Hk0 Hh0 Hle Hwf He. pose proof (st_block _ (at_static _ _ _ _ HA)) as Hbs.
  destruct (jenga_release_uncommitted_run m x i p a _ others k HA HP Hk Hk0 Hle Hwf ltac:(nia)) as (m1 & p1 & E1 & HM1 & HJ1 & Hrw1). fold rid in E1, HM1, HJ1, Hrw1.
  pose proof (move_at _ _ _ _ _ _ HM1 HA) as HA1. pose proof (move_ids _ _ _ _ _ _ HM1) as Hid.
  destruct (extend_run R m1 rid i p1 HA1) as (m2 & E2 & HM2 & Hrw2); [by rewrite Hid|]. rewrite Hid in Hrw2. pose proof (move_at _ _ _ _ _ _ HM2 HA1) as HA2.
  pose proof (move_trans _ _ _ _ _ _ _ _ HM1 HM2) as HM.
  assert (_req_to_committed_idx m2 !! rid = Some (k * _block_size m)) as Hk2 by (by rewrite (frame_eq _req_to_committed_idx m m2) by (done || apply HM)).
  set (m3 := set_committed (<[rid := k * _block_size m + h * _block_size m]> (_req_to_committed_idx m2)) m2).
  pose proof (change_committed (k * _block_size m + h * _block_size m) m2 rid i p1 (at_pool _ _ _ _ HA2)) as HC3.
  exists m3, p1. split; [|split; [|split; [|split; [|split]]]].
  - unfold adopt. mstep E1. mstep (jenga_on_mgr_run _ (mk_world m1 (Ownership.with_tokens (Ownership.start_at (k * _block_size m) (Ctx.tokens x)) x)) _ _ E2). simpl.
    set (x1 := Ownership.with_tokens (Ownership.start_at (k * _block_size m) (Ctx.tokens x)) x).
    mstep (jenga_on_mgr_run _ (mk_world m2 x1) _ _ (committed_run m2 rid _ Hk2)). simpl.
    mstep (jenga_on_mgr_run (put_committed rid (k * _block_size m + h * _block_size m)) (mk_world m2 x1) _ _ (eq_refl : _ = (Ok tt, m3))). simpl.
    set (b1 := Ownership.start_at (k * _block_size m) (Ctx.tokens x)) in *. assert (Ctx.tokens x1 = b1) as Et by apply Ownership.tokens_with.
    assert (tokens (mk_world m3 x1) = (Ok b1, mk_world m3 x1)) as Et1 by (by rewrite <- Et). mstep Et1.
    assert (TokenBuffer.wf b1) as Hwf1 by (apply Ownership.start_at_wf; [done|nia|nia]).
    pose proof (Ownership.skip_to (k * _block_size m + h * _block_size m) b1 Hwf1 ltac:(unfold TokenBuffer.processed_length; simpl; nia) ltac:(simpl; nia)) as Esk.
    assert (Ctx.on_tokens (TokenBuffer.skip_processing (k * _block_size m + h * _block_size m - TokenBuffer.processed_length b1)) x1 =
      (Ok tt, Ownership.with_tokens (Ownership.start_at ((k + h) * _block_size m) (Ctx.tokens x)) x)) as E4.
    { rewrite <- Et in Esk at 2. rewrite (Ownership.with_tokens_run _ x1 _ _ Esk). unfold x1, b1. rewrite Ownership.with_tokens_twice, Ownership.start_at_twice. do 3 f_equal. lia. }
    mstep (jenga_on_ctx_run _ (mk_world m3 x1) _ _ E4). simpl. set (x2 := Ownership.with_tokens (Ownership.start_at ((k + h) * _block_size m) (Ctx.tokens x)) x).
    mstep (eq_refl : tokens (mk_world m3 x2) = (Ok (Ctx.tokens x2), mk_world m3 x2)). unfold x2 at 1. rewrite Ownership.tokens_with.
    rewrite (proj2 (Z.leb_le 1 _)) by (unfold TokenBuffer.active_length, Range.length; simpl; lia). mstep (eq_refl : py_assert true (mk_world m3 x2) = (Ok tt, mk_world m3 x2)).
    unfold ret, TokenBuffer.processed_length. simpl. do 2 f_equal. lia.
  - eapply change_trans; [apply (move_change _ _ _ _ _ _ HM)|exact HC3].
  - simpl. by apply (frame_eq _req_to_hashes m m2); [apply HM|].
  - simpl. rewrite lookup_insert_eq. f_equal. lia.
  - assert (pg (leaf_ids m) (rw m3 rid) = pg (leaf_ids m) (rw m1 rid) ⊎ pgm (leaf_ids m) R) as ->; [|done].
    unfold pgm. rewrite <- pg_add. apply pg_ext. exact Hrw2.
  - intros c Hc. split; [apply (at_rows _ _ _ _ HA2); by rewrite (move_ids _ _ _ _ _ _ HM)|]. change (rw m3 rid c) with (rw m2 rid c). by rewrite Hrw2, Hrw1.
Qed.

Lemma slice_from_past {A} (l : list A) k : len l ≤ k → slice_from l k = [].
Proof.
  intros Hk. pose proof (len_nonneg l). unfold slice_from, slice. rewrite (clamp_index_id (len l) (len l)) by lia.
  assert (clamp_index (len l) k = len l) as -> by (unfold clamp_index; rewrite (proj2 (Z.ltb_ge k 0)) by lia; lia). by rewrite Z.sub_diag.
Qed.

Lemma took_comm p own own' others p' extra : Took p own others p' (extra ⊎ own') → Took p own others p' (own' ⊎ extra).
Proof. by rewrite (comm_L disj_union extra own'). Qed.

(** What the caller guarantees of a request's tokens *)
Record TokensOk m (x : Ctx.t B) (hs : list bytes) : Prop := {
  tk_wf : TokenBuffer.wf (Ctx.tokens x);
  tk_int y : y ∈ TokenBuffer.all (Ctx.tokens x) → int64 y = true;
  tk_hashes : len hs * _block_size m ≤ Ownership.hashable x;
  tk_room : Ownership.hashable x + TokenBuffer._processing_offset (Ctx.tokens x) < Range.end_ (TokenBuffer._processing_range (Ctx.tokens x))
}.

Lemma jenga_reuse_run m x i (hs : list bytes) k : let rid := TextContext.request_id (Ctx.base x) in
  MInv m → _req_to_replica m !! rid = Some i → _enable_prefix_caching m = true → TokensOk m x hs → TokenBuffer.processed_length (Ctx.tokens x) = 0 →
  _req_to_hashes m !! rid = Some hs → _req_to_committed_idx m !! rid = Some (k * _block_size m) → 0 ≤ k →
  (∃ e, _reuse_blocks_from_prefix_cache i (mk_world m x) = (Raise e, mk_world m x)) ∨
  ∃ m' x' h, _reuse_blocks_from_prefix_cache i (mk_world m x) = (Ok (h * _block_size m), mk_world m' x') ∧ Reused m m' x x' rid i hs k h ∧
    TextContext.request_id (Ctx.base x') = rid.
Proof.
  intros rid HI Hr Hca [Hwf H64 Hhs Hroom] Hp0 Hh Hk Hk0. destruct (at_of m rid i HI Hr) as (p & a & HA & Hp & HP).
  pose proof (mi_static _ HI) as HS. pose proof (st_block _ HS) as Hbs.
  unfold _reuse_blocks_from_prefix_cache. mstep (eq_refl : get (mk_world m x) = (Ok (mk_world m x), mk_world m x)). change (request_id (mk_world m x)) with rid.
  simpl. rewrite Hca. simpl. mstep (eq_refl : tokens (mk_world m x) = (Ok (Ctx.tokens x), mk_world m x)). rewrite Hp0. simpl.
  mstep (eq_refl : raise_if false ValueError (mk_world m x) = (Ok tt, mk_world m x)).
  destruct (compute_hashes_run m x hs Hbs Hh Hwf H64) as [[e E1]|(hs' & E1 & Hpre & Hlen)]; [left; exists e; exact (bind_failed _ _ _ _ _ E1)|right]. fold rid in E1.
  mstep E1. set (m1 := set_hashes (<[rid := hs']> (_req_to_hashes m)) m) in *. pose proof (change_hashes hs' m rid i p Hp) as HC1. fold m1 in HC1.
  assert (At m1 rid i p) as HA1 by (by apply (at_change m m1 rid i p p HC1 HA), HA).
  destruct (find_run m1 rid i p a (rest m rid i) k hs' HA1 HP Hk0 Hk (lookup_insert_eq _ _ _)) as (h & R & p' & E2 & HT & Hdom & Hlen2 & HB).
  pose proof (JengaHits.bt_range _ _ _ _ HB) as Hh0. mstep (jenga_on_mgr_run _ (mk_world m1 x) _ _ E2). simpl.
  set (m2 := set_metrics (Metrics.add (_metrics m) (Metrics.mk 0 (h * _block_size m) h 0 0)) (set_pools (<[Z.to_nat i := p']> (pools m1)) m1)).
  mstep (jenga_on_mgr_run (count (Metrics.mk 0 (h * _block_size m) h 0 0)) (mk_world (set_pools (<[Z.to_nat i := p']> (pools m)) m1) x) _ _ (eq_refl : _ = (Ok tt, m2))). simpl.
  set (x1 := Ctx.set_base (TextContext.set_cached (Some (h * _block_size m)) (Ctx.base x)) x).
  mstep (jenga_on_ctx_run _ (mk_world m2 x) _ _ (set_cached_run (Some (h * _block_size m)) x)). fold x1. simpl.
  assert (Ctx.tokens x1 = Ctx.tokens x) as Ext by (unfold x1, Ctx.tokens; rewrite Ownership.base_set_base; by destruct (Ctx.base x)).
  assert (TextContext.request_id (Ctx.base x1) = rid) as Exr by (unfold x1; rewrite Ownership.base_set_base; by destruct (Ctx.base x)).
  assert (TextContext.cached_prefix_length (Ctx.base x1) = Some (h * _block_size m)) as Exc by (unfold x1; rewrite Ownership.base_set_base; by destruct (Ctx.base x)).
  assert (Change m m2 rid i p p') as HC2.
  { eapply change_trans; [exact HC1|]. eapply change_trans; [apply change_pool|]. apply change_metrics. simpl. apply list_lookup_insert_eq. by eapply lookup_lt_Some. }
  assert (∃ p p'0, pools m !! Z.to_nat i = Some p ∧ Change m m2 rid i p p'0 ∧ ∃ hs', _req_to_hashes m2 !! rid = Some hs' ∧ hs `prefix_of` hs' ∧
    JengaHits.Best p (_groups m) (slice_from hs' k) h) as Hch.
  { exists p, p'. split; [done|]. split; [done|]. exists hs'. simpl. by rewrite lookup_insert_eq. }
  destruct (Z.eqb_spec h 0) as [->|Hne].
  - exists m2, x1, 0. split; [done|]. split; [|done]. split; try done; [|by rewrite Z.add_0_r].
    apply (minv_kept m m2 rid i p p' (pgm (leaf_ids m) R ⊎ pg (leaf_ids m) (rw m rid))); try done; [|by eexists; apply lookup_insert_eq].
    assert (pgm (leaf_ids m) R = ∅) as ->; [|multiset_solver]. apply pg_nil. intros c Hc. apply nil_length_inv. specialize (Hlen2 c Hc). unfold len in Hlen2. lia.
  - assert (At m2 rid i p') as HA2 by (by apply (at_change m m2 rid i p p' HC2 HA), HA). apply took_comm in HT. destruct (js_pool _ _ _ _ _ _ _ (to_step _ _ _ _ _ HT)) as [a2 HP2].
    assert ((k + h) * _block_size m ≤ Ownership.hashable x) as Hend.
    { assert (k + h ≤ len hs') as Hkh.
      { destruct (Z.le_gt_cases k (len hs')); [rewrite slice_from_inside in Hh0 by lia; unfold len in *; rewrite length_drop in Hh0; lia|].
        exfalso. rewrite slice_from_past in Hh0 by lia. change (len []) with 0 in Hh0. lia. }
      rewrite Hlen in Hkh. pose proof (Z.mul_div_le (Ownership.hashable x) (_block_size m) Hbs). nia. }
    destruct (rq_tail _ _ _ (mi_reqs _ HI rid i Hr)) as (k' & _ & Hk' & Htail). rewrite Hk in Hk'. injection Hk' as Hk'. assert (k' = k) as Ek by nia. subst k'.
    destruct (jenga_adopt_run m2 x1 i p' a2 (rest m rid i) R k h) as (m3 & p3 & E3 & HC3 & Hhs3 & Hk3 & HJ3 & Hrw3); rewrite ?Exr, ?Ext in *; try done; [lia| | |].
    { intros c Hc. apply (Htail p Hp c Hc). }
    { change (_block_size m2) with (_block_size m). lia. }
    change (_block_size m2) with (_block_size m) in E3, HC3, Hk3. exists m3, (Ownership.with_tokens (Ownership.start_at ((k + h) * _block_size m) (Ctx.tokens x)) x1), h.
    split; [exact E3|]. split; [|by rewrite Ownership.request_id_with].
    pose proof (change_trans _ _ _ _ _ _ _ _ HC2 HC3) as HC. destruct Hch as (? & ? & ? & ? & hs0 & Eh0 & _). split.
    + apply (minv_adopted m m3 rid i p p3 (k + h) HI Hr Hp HC).
      * eapply jstep_trans; [apply HT|exact HJ3].
      * intros c Hc. destruct (Hrw3 c Hc) as [? ->]. split; [done|]. change (rw m2 rid c) with (rw m rid c).
        destruct (Htail p Hp c Hc) as [Hle _]. rewrite len_app, (Hlen2 c Hc). unfold len in *. rewrite length_take. lia.
      * lia.
      * rewrite Hhs3, Eh0. by eexists.
      * done.
    + exists p, p3. split; [done|]. split; [done|]. exists hs'. rewrite Hhs3. simpl. by rewrite lookup_insert_eq.
    + done.
    + intros c Hc. rewrite decide_False by done. exists (default [] (R !! c)). split; [by apply Hrw3|by apply Hlen2].
    + rewrite decide_False by done. by rewrite Ownership.tokens_with.
    + unfold Ownership.with_tokens. rewrite Ownership.base_set_base. by destruct (Ctx.base x1).
Qed.

(** What an allocation finds when it starts to draw: the request as it was, or with a
    prefix of [h] more blocks *)
Definition Looked m (x : Ctx.t B) m1 x1 i : Prop := let rid := TextContext.request_id (Ctx.base x) in
  (m1 = m ∧ x1 = x ∧ (TokenBuffer.processed_length (Ctx.tokens x) ≠ 0 ∨ _enable_prefix_caching m = false)) ∨
  (TokenBuffer.processed_length (Ctx.tokens x) = 0 ∧ _enable_prefix_caching m = true ∧ ∃ hs k h,
    _req_to_hashes m !! rid = Some hs ∧ _req_to_committed_idx m !! rid = Some (k * _block_size m) ∧ 0 ≤ k ∧ Reused m m1 x x1 rid i hs k h).

Lemma looked_same m x m1 x1 i : MInv m → Looked m x m1 x1 i → MInv m1 ∧ core m1 = core m ∧
  (∀ rid' c, rid' ≠ TextContext.request_id (Ctx.base x) → row_opt m1 c rid' = row_opt m c rid').
Proof.
  intros HI [(-> & -> & _)|(_ & _ & hs & k & h & _ & _ & _ & HR)]; [done|]. split; [apply HR|].
  destruct (ru_change _ _ _ _ _ _ _ _ _ HR) as (p & p' & _ & HC & _). split; apply HC.
Qed.

Lemma jenga_alloc_run m x i : let rid := TextContext.request_id (Ctx.base x) in
  MInv m → _req_to_replica m !! rid = Some i →
  (TokenBuffer.processed_length (Ctx.tokens x) = 0 → _enable_prefix_caching m = true → ∀ hs, _req_to_hashes m !! rid = Some hs → TokensOk m x hs) →
  (∃ e, alloc (mk_world m x) = (Raise e, mk_world m x) ∧ _enable_prefix_caching m = true) ∨
  ∃ r m1 x1 m' x', alloc (mk_world m x) = (r, mk_world m' x') ∧ Looked m x m1 x1 i ∧ TextContext.request_id (Ctx.base x1) = rid ∧ SpecOnly x1 x' ∧ MInv m' ∧
    ((r = Raise InsufficientBlocksError ∧ (∃ p, pools m1 !! Z.to_nat i = Some p ∧ parked_blocks p < total_need p (demand_of m1 x1)) ∧ ∃ mt, m' = set_metrics mt m1) ∨
     (r = Ok tt ∧ Provided m1 m' x1 ∧ (∃ p, pools m1 !! Z.to_nat i = Some p ∧ total_need p (demand_of m1 x1) ≤ parked_blocks p))).
Proof.
  intros rid HI Hr Htk. unfold alloc. mstep (eq_refl : get (mk_world m x) = (Ok (mk_world m x), mk_world m x)). change (request_id (mk_world m x)) with rid.
  mstep (jenga_on_mgr_run _ (mk_world m x) _ _ (replica_run m rid i Hr)). simpl. mstep (eq_refl : tokens (mk_world m x) = (Ok (Ctx.tokens x), mk_world m x)).
  assert (∀ m1 x1, Looked m x m1 x1 i → TextContext.request_id (Ctx.base x1) = rid →
    when (TokenBuffer.processed_length (Ctx.tokens x) =? 0) (let! _ := _reuse_blocks_from_prefix_cache i in ret tt) (mk_world m x) = (Ok tt, mk_world m1 x1) →
    ∃ r m' x', (when (TokenBuffer.processed_length (Ctx.tokens x) =? 0) (let! _ := _reuse_blocks_from_prefix_cache i in ret tt);; draws rid i (leaf_ids m)) (mk_world m x)
        = (r, mk_world m' x') ∧ SpecOnly x1 x' ∧ MInv m' ∧
      ((r = Raise InsufficientBlocksError ∧ (∃ p, pools m1 !! Z.to_nat i = Some p ∧ parked_blocks p < total_need p (demand_of m1 x1)) ∧ ∃ mt, m' = set_metrics mt m1) ∨
       (r = Ok tt ∧ Provided m1 m' x1 ∧ (∃ p, pools m1 !! Z.to_nat i = Some p ∧ total_need p (demand_of m1 x1) ≤ parked_blocks p)))) as Hgo.
  { intros m1 x1 HL Hid E1. destruct (looked_same m x m1 x1 i HI HL) as (HI1 & Hc1 & _).
    assert (_req_to_replica m1 !! TextContext.request_id (Ctx.base x1) = Some i) as Hr1 by (by rewrite (core_eq _req_to_replica m m1 Hc1 ltac:(done)), Hid).
    destruct (draws_run m1 x1 i HI1 Hr1) as (r & m' & x' & E2 & HSp & HI' & Hres). exists r, m', x'. split; [|done].
    rewrite (bind_run _ _ _ _ _ E1), <- (core_eq leaf_ids m m1 Hc1 ltac:(done)), <- Hid. exact E2. }
  revert Hgo. destruct (Z.eqb_spec (TokenBuffer.processed_length (Ctx.tokens x)) 0) as [Hz|Hnz]; intros Hgo.
  2:{ right. destruct (Hgo m x) as (r & m' & x' & E & ?); [left; do 2 (split; [done|]); tauto|done|done|]. exists r, m, x, m', x'. split; [exact E|]. split; [left; do 2 (split; [done|]); tauto|done]. }
  destruct (_enable_prefix_caching m) eqn:Hca.
  2:{ right. assert (_reuse_blocks_from_prefix_cache i (mk_world m x) = (Ok 0, mk_world m x)) as E0.
      { unfold _reuse_blocks_from_prefix_cache. mstep (eq_refl : get (mk_world m x) = (Ok (mk_world m x), mk_world m x)). simpl. by rewrite Hca. }
      destruct (Hgo m x) as (r & m' & x' & E & ?); [left; do 2 (split; [done|]); tauto|done|simpl; by mstep E0|]. exists r, m, x, m', x'. split; [exact E|]. split; [left; do 2 (split; [done|]); tauto|done]. }
  destruct (mi_reqs _ HI rid i Hr) as [_ [hs Hh] _ (k & Hk0 & Hk & _)].
  destruct (jenga_reuse_run m x i hs k HI Hr Hca (Htk Hz eq_refl hs Hh) Hz Hh Hk Hk0) as [[e E]|(m1 & x1 & h & E & HR & Hid)].
  - left. exists e. split; [exact (bind_failed _ _ _ _ _ (bind_failed _ _ _ _ _ E))|done].
  - right. assert (Looked m x m1 x1 i) as HL by (right; do 2 (split; [done|]); by exists hs, k, h).
    destruct (Hgo m1 x1 HL Hid) as (r & m' & x' & E' & ?); [simpl; by mstep E|]. by exists r, m1, x1, m', x'.
Qed.

(** *** Publishing *)

(** From [κ c] on, the pages of the row of [c] are the request's own, unpublished. *)
Definition TailAt p (tot : gmultiset (string * Z)) (κ : string → Z) (L : list string) (rows : string → list Z) : Prop :=
  ∀ c (j : nat) r, c ∈ L → κ c ≤ Z.of_nat j → rows c !! j = Some r → r ≠ 0 ∧ Private p tot c r.

Lemma cl_twice c l (j j' : nat) r : r ≠ 0 → l !! j = Some r → l !! j' = Some r → j ≠ j' → (2 ≤ multiplicity (c, r) (cl c l))%nat.
Proof.
  intros Hr. revert j j'. assert (∀ j j' : nat, l !! j = Some r → l !! j' = Some r → (j < j')%nat → (2 ≤ multiplicity (c, r) (cl c l))%nat) as Hlt.
  { intros j j' Hj Hj' Hlt. rewrite <- (take_drop_middle l j r Hj). change (r :: drop (S j) l) with ([r] ++ drop (S j) l). rewrite !cl_app, cl_one by done.
    assert ((c, r) ∈ cl c (drop (S j) l)) as Hin.
    { apply cl_elem. split; [done|]. split; [done|]. apply list_elem_of_lookup. exists (j' - S j)%nat. rewrite lookup_drop. by replace (S j + (j' - S j))%nat with j' by lia. }
    apply (proj1 (elem_of_multiplicity _ _)) in Hin. rewrite !multiplicity_disj_union, multiplicity_singleton_eq. lia. }
  intros j j' Hj Hj' Hne. destruct (Nat.lt_trichotomy j j') as [?|[?|?]]; [by apply (Hlt j j')|done|by apply (Hlt j' j)].
Qed.

Lemma private_once p L rows others c (j j' : nat) r : NoDup L → c ∈ L → Private p (pg L rows ⊎ others) c r → r ≠ 0 → rows c !! j = Some r → rows c !! j' = Some r → j = j'.
Proof.
  intros Hnd Hc [_ Hm] Hr Hj Hj'. destruct (decide (j = j')) as [|Hne]; [done|]. exfalso. pose proof (cl_twice c (rows c) j j' r Hr Hj Hj' Hne) as H2.
  destruct (pg_split L rows c Hnd Hc) as [X HX]. rewrite (HX rows), !multiplicity_disj_union in Hm by done. lia.
Qed.

Lemma jenga_commit_one_run m rid i p a others c (j : nat) r hs x κ :
  At m rid i p → Pool n K p a (pg (leaf_ids m) (rw m rid) ⊎ others) → c ∈ leaf_ids m → rw m rid c !! j = Some r → hs !! j = Some x → κ c = Z.of_nat j →
  TailAt p (pg (leaf_ids m) (rw m rid) ⊎ others) κ (leaf_ids m) (rw m rid) →
  ∃ m' p' r', commit_one c rid i hs (Z.of_nat j) m = (Ok tt, m') ∧ Move m m' rid i p p' ∧
    JStep n K p (pg (leaf_ids m) (rw m rid)) others p' (pg (leaf_ids m) (rw m' rid)) ∧ r' ≠ 0 ∧ hash_of p' c r' = Some x ∧
    (∀ c', rw m' rid c' = if decide (c' = c) then <[j := r']> (rw m rid c) else rw m rid c') ∧
    TailAt p' (pg (leaf_ids m) (rw m' rid) ⊎ others) (λ c', if decide (c' = c) then Z.of_nat j + 1 else κ c') (leaf_ids m) (rw m' rid) ∧
    ∀ c' i y, hash_of p c' i = Some y → hash_of p' c' i = Some y.
Proof.
  intros HA HP Hc Hj Hx Hκ HT. destruct (HT c j r Hc ltac:(lia) Hj) as [Hr0 Hpr]. pose proof (st_nodup _ (at_static _ _ _ _ HA)) as Hnd.
  destruct (pg_split (leaf_ids m) (rw m rid) c Hnd Hc) as [Y HY]. destruct (cl_set c (rw m rid c) j r 0 Hj) as (X & HX & _).
  rewrite cl_one in HX by done. assert (pg (leaf_ids m) (rw m rid) = {[+ (c, r) +]} ⊎ (X ⊎ Y)) as Hpg by (rewrite (HY (rw m rid)), HX by done; multiset_solver).
  assert ((c, r) ∉ (X ⊎ Y) ⊎ others) as Hno.
  { destruct Hpr as [_ Hm]. rewrite Hpg in Hm. apply not_elem_of_multiplicity. rewrite !multiplicity_disj_union, multiplicity_singleton_eq in Hm. rewrite !multiplicity_disj_union. lia. }
  destruct (jcommit n K HK Hn p a ∅ ((X ⊎ Y) ⊎ others) c r x) as (o & p' & E & HJ & Hr' & Hh' & Hmono); [|by apply (st_caches _ (at_static _ _ _ _ HA))|apply Hpr|done|done|].
  { rewrite Hpg in HP. by rewrite (right_id_L ∅ disj_union), <- jenga_massoc. }
  rewrite !(right_id_L ∅ disj_union) in HJ. set (r' := default r o) in *. pose proof HJ as [_ Hfresh].
  destruct (pool_run m rid i p _ _ _ HA E) as (m1 & E1 & HM1 & Hrw1). pose proof (move_at _ _ _ _ _ _ HM1 HA) as HA1. pose proof (move_ids _ _ _ _ _ _ HM1) as Hid.
  assert (∃ m2, commit_one c rid i hs (Z.of_nat j) m = (Ok tt, m2) ∧ Move m m2 rid i p p' ∧ ∀ c', rw m2 rid c' = if decide (c' = c) then <[j := r']> (rw m rid c) else rw m rid c')
    as (m2 & E2 & HM2 & Hrw2).
  { assert (py_index (rw m rid c) (Z.of_nat j) = Some r) as Ei by (apply Ownership.py_index_pools; [lia|by rewrite Nat2Z.id]).
    assert (py_index hs (Z.of_nat j) = Some x) as Ex by (apply Ownership.py_index_pools; [lia|by rewrite Nat2Z.id]).
    destruct (at_row m rid i p c HA Hc) as [Er _]. unfold commit_one. rewrite (bind_run _ _ _ _ _ Er), Ei.
    rewrite (bind_run _ _ _ _ _ (eq_refl : of_option IndexError (Some r) m = (Ok r, m))), Ex, (bind_run _ _ _ _ _ (eq_refl : of_option IndexError (Some x) m = (Ok x, m))).
    rewrite (bind_run _ _ _ _ _ E1). destruct o as [twin|]; simpl in r'.
    - unfold BlockManager.position. rewrite (proj2 (Z.ltb_ge (Z.of_nat j) 0)), Nat2Z.id by lia. eexists. split; [apply jenga_put_run|]. assert (c ∈ leaf_ids m1) as Hc1 by by rewrite Hid.
      split; [eapply move_trans; [exact HM1|by apply put_move]|]. intros c'. rewrite (put_rw m1 rid i p') by done. by rewrite Hrw1.
    - exists m1. split; [done|]. split; [done|]. intros c'. rewrite Hrw1. case_decide as Hd; [|done]. subst c'. by rewrite list_insert_id. }
  assert (pg (leaf_ids m) (rw m2 rid) = {[+ (c, r') +]} ⊎ (X ⊎ Y)) as Hpg2.
  { rewrite (HY (rw m2 rid)) by (intros c' Hne; by rewrite Hrw2, decide_False). rewrite Hrw2, decide_True by done.
    destruct (cl_set c (rw m rid c) j r r' Hj) as (X' & HX' & ->). rewrite cl_one in HX' |- * by done. rewrite HX in HX'. apply (inj (disj_union _)) in HX' as <-. multiset_solver. }
  exists m2, p', r'. split; [done|]. split; [done|]. split; [rewrite Hpg, Hpg2; by apply jframe|]. split; [done|]. split; [done|]. split; [done|]. split; [|done].
  intros c' j' r0 Hc' Hκ' Hj'. rewrite Hrw2 in Hj'.
  assert (rw m rid c' !! j' = Some r0 ∧ (c', r0) ≠ (c, r)) as [Hold Hne].
  { case_decide as Hd; [subst c'|split; [done|congruence]]. rewrite list_lookup_insert_ne in Hj' by lia. split; [done|]. intros [= ->].
    pose proof (private_once p (leaf_ids m) (rw m rid) others c j j' r Hnd Hc Hpr Hr0 Hj Hj'). lia. }
  destruct (HT c' j' r0 Hc') as [Hr00 [Hz Hm]]; [case_decide; [subst; lia|done]|done|]. split; [done|].
  assert ((c', r0) ∈ (X ⊎ Y) ⊎ others) as Hin.
  { apply elem_of_multiplicity. rewrite Hpg, !multiplicity_disj_union, (multiplicity_singleton_ne (c', r0)) in Hm by done. rewrite !multiplicity_disj_union. lia. }
  destruct (Hfresh c' r0 Hin) as [Hz' Hne']; [by rewrite gmultiset_elem_of_singleton|done|]. split; [done|].
  rewrite gmultiset_elem_of_singleton in Hne'. rewrite Hpg in Hm. rewrite Hpg2. rewrite !multiplicity_disj_union, (multiplicity_singleton_ne (c', r0)) in Hm |- * by done. lia.
Qed.

(** The pages of [c] from [f] to [l] are published under the request's hashes. *)
Definition Published p (rows : string → list Z) (hs : list bytes) (c : string) (f l : Z) : Prop :=
  ∀ j : nat, f ≤ Z.of_nat j < l → ∃ r x, rows c !! j = Some r ∧ hs !! j = Some x ∧ r ≠ 0 ∧ hash_of p c r = Some x.
Definition HashKept p p' : Prop := ∀ c i y, hash_of p c i = Some y → hash_of p' c i = Some y.
(** The row of [c] but for the entries from [f] to [l] *)
Definition RowKept (rows rows' : string → list Z) (c : string) (f l : Z) : Prop :=
  len (rows' c) = len (rows c) ∧ ∀ j : nat, ¬ (f ≤ Z.of_nat j < l) → rows' c !! j = rows c !! j.

Lemma published_kept p p' rows rows' hs c f l : Published p rows hs c f l → HashKept p p' → (∀ j : nat, f ≤ Z.of_nat j < l → rows' c !! j = rows c !! j) →
  Published p' rows' hs c f l.
Proof.
  intros HP Hk Hr j Hj. destruct (HP j Hj) as (r & x & H1 & H2 & H3 & H4). exists r, x. rewrite Hr by done. split; [done|]. split; [done|]. split; [done|by apply Hk].
Qed.
Lemma tail_at_ext p tot κ κ' L rows : (∀ c, c ∈ L → κ c ≤ κ' c) → TailAt p tot κ L rows → TailAt p tot κ' L rows.
Proof. intros Hk HT c j r Hc Hj. specialize (Hk c Hc). apply HT; [done|lia]. Qed.

Lemma commit_leaf_run (cnt : nat) (f : Z) m rid i p a others c hs κ :
  At m rid i p → Pool n K p a (pg (leaf_ids m) (rw m rid) ⊎ others) → c ∈ leaf_ids m → 0 ≤ f → f + Z.of_nat cnt ≤ len (rw m rid c) → f + Z.of_nat cnt ≤ len hs → κ c = f →
  TailAt p (pg (leaf_ids m) (rw m rid) ⊎ others) κ (leaf_ids m) (rw m rid) →
  ∃ m' p', for_each (zrange f (f + Z.of_nat cnt)) (commit_one c rid i hs) m = (Ok tt, m') ∧ Move m m' rid i p p' ∧
    JStep n K p (pg (leaf_ids m) (rw m rid)) others p' (pg (leaf_ids m) (rw m' rid)) ∧
    TailAt p' (pg (leaf_ids m) (rw m' rid) ⊎ others) (λ c', if decide (c' = c) then f + Z.of_nat cnt else κ c') (leaf_ids m) (rw m' rid) ∧
    (∀ c', c' ≠ c → rw m' rid c' = rw m rid c') ∧ RowKept (rw m rid) (rw m' rid) c f (f + Z.of_nat cnt) ∧
    Published p' (rw m' rid) hs c f (f + Z.of_nat cnt) ∧ HashKept p p'.
Proof.
  revert f m p a κ. induction cnt as [|cnt IH]; intros f m p a κ HA HP Hc Hf Hlr Hlh Hκ HT.
  - rewrite zrange_empty by lia. exists m, p. split; [done|]. split; [apply move_refl, HA|]. split; [by eapply jstep_refl|].
    split; [eapply tail_at_ext; [|exact HT]; intros c' _; simpl; case_decide; [subst; lia|lia]|]. split; [done|]. split; [done|]. split; [intros j; lia|by intros c' i' y].
  - rewrite zrange_cons by lia. destruct (lookup_lt_is_Some_2 (rw m rid c) (Z.to_nat f)) as [r Hr]; [unfold len in *; lia|].
    destruct (lookup_lt_is_Some_2 hs (Z.to_nat f)) as [x Hx]; [unfold len in *; lia|].
    destruct (jenga_commit_one_run m rid i p a others c (Z.to_nat f) r hs x κ HA HP Hc Hr Hx) as (m1 & p1 & r' & E1 & HM1 & HJ1 & Hr' & Hh' & Hrw1 & HT1 & Hk1); [lia|done|].
    rewrite Z2Nat.id in E1, HT1 by done. pose proof (move_ids _ _ _ _ _ _ HM1) as Hid. destruct (js_pool _ _ _ _ _ _ _ HJ1) as [a1 HP1].
    assert (len (rw m1 rid c) = len (rw m rid c)) as Hl1 by (rewrite Hrw1, decide_True by done; unfold len; by rewrite length_insert).
    destruct (IH (f + 1) m1 p1 a1 (λ c', if decide (c' = c) then f + 1 else κ c')) as (m2 & p2 & E2 & HM2 & HJ2 & HT2 & Ho2 & [Hlen2 Hrow2] & Hpub2 & Hk2);
      rewrite ?Hid, ?Hl1; try done; try lia; [by eapply move_at|by simpl; rewrite decide_True|]. rewrite Hid in *.
    replace (f + 1 + Z.of_nat cnt) with (f + Z.of_nat (S cnt)) in * by lia. exists m2, p2. split; [|split; [by eapply move_trans|split; [by eapply jstep_trans|split; [|split; [|split; [|split]]]]]].
    + cbn [for_each]. rewrite (bind_run _ _ _ _ _ E1). exact E2.
    + eapply tail_at_ext; [|exact HT2]. intros c' _. simpl. by repeat case_decide.
    + intros c' Hne. by rewrite Ho2, Hrw1, decide_False.
    + split; [congruence|]. intros j Hj. rewrite Hrow2, Hrw1, decide_True by (done || lia). rewrite list_lookup_insert_ne; [done|lia].
    + intros j Hj. destruct (decide (j = Z.to_nat f)) as [->|Hne]; [|apply Hpub2; lia]. exists r', x. rewrite Hrow2, Hrw1, decide_True by (done || lia).
      split; [apply list_lookup_insert_eq; by eapply lookup_lt_Some|]. split; [done|]. split; [done|by apply Hk2].
    + intros c' i' y Hy. by apply Hk2, Hk1.
Qed.

Lemma commit_leaves_run L' (f l : Z) m rid i p a others hs κ :
  At m rid i p → Pool n K p a (pg (leaf_ids m) (rw m rid) ⊎ others) → NoDup L' → 0 ≤ f ≤ l → l ≤ len hs →
  (∀ c, c ∈ L' → c ∈ leaf_ids m ∧ l ≤ len (rw m rid c) ∧ κ c = f) → TailAt p (pg (leaf_ids m) (rw m rid) ⊎ others) κ (leaf_ids m) (rw m rid) →
  ∃ m' p', for_each L' (λ c, let! _ := row c rid in for_each (zrange f l) (commit_one c rid i hs)) m = (Ok tt, m') ∧ Move m m' rid i p p' ∧
    JStep n K p (pg (leaf_ids m) (rw m rid)) others p' (pg (leaf_ids m) (rw m' rid)) ∧
    TailAt p' (pg (leaf_ids m) (rw m' rid) ⊎ others) (λ c, if decide (c ∈ L') then l else κ c) (leaf_ids m) (rw m' rid) ∧
    (∀ c, c ∉ L' → rw m' rid c = rw m rid c) ∧ (∀ c, c ∈ L' → RowKept (rw m rid) (rw m' rid) c f l ∧ Published p' (rw m' rid) hs c f l) ∧ HashKept p p'.
Proof.
  revert m p a κ. induction L' as [|c L' IH]; intros m p a κ HA HP Hnd Hfl Hl HL HT.
  - exists m, p. split; [done|]. split; [apply move_refl, HA|]. split; [by eapply jstep_refl|]. split; [done|]. split; [done|]. split; [|by intros c i' y].
    intros c Hc. by apply elem_of_nil in Hc.
  - apply NoDup_cons in Hnd as [Hc Hnd]. destruct (HL c (list_elem_of_here _ _)) as (HcL & Hlc & Hκ).
    destruct (commit_leaf_run (Z.to_nat (l - f)) f m rid i p a others c hs κ) as (m1 & p1 & E1 & HM1 & HJ1 & HT1 & Ho1 & Hrow1 & Hpub1 & Hk1);
      rewrite ?Z2Nat.id by lia; replace (f + (l - f)) with l in * by lia; try done; [lia|]. rewrite Z2Nat.id in * by lia. replace (f + (l - f)) with l in * by lia.
    pose proof (move_ids _ _ _ _ _ _ HM1) as Hid. destruct (js_pool _ _ _ _ _ _ _ HJ1) as [a1 HP1].
    destruct (IH m1 p1 a1 (λ c', if decide (c' = c) then l else κ c')) as (m2 & p2 & E2 & HM2 & HJ2 & HT2 & Ho2 & Hin2 & Hk2); rewrite ?Hid; try done; [by eapply move_at| |].
    { intros c' Hc'. destruct (HL c' (list_elem_of_further _ _ _ Hc')) as (? & ? & ?). assert (c' ≠ c) as Hne by (by intros ->). rewrite decide_False, Ho1 by done. done. }
    rewrite Hid in *. exists m2, p2. split; [|split; [by eapply move_trans|split; [by eapply jstep_trans|split; [|split; [|split]]]]].
    + cbn [for_each]. unfold bind at 1. destruct (at_row m rid i p c HA HcL) as [Er _]. rewrite (bind_run _ _ _ _ _ Er), E1. exact E2.
    + eapply tail_at_ext; [|exact HT2]. intros c' _. simpl. pose proof (elem_of_cons L' c' c) as Hcons.
      destruct (decide (c' ∈ L')); [by rewrite decide_True by tauto|]. case_decide; [by rewrite decide_True by tauto|]. rewrite decide_False by tauto. done.
    + intros c' [Hne Hc']%not_elem_of_cons. by rewrite Ho2, Ho1.
    + intros c' [->|Hc']%elem_of_cons.
      * specialize (Ho2 c Hc). destruct Hrow1 as [Hl1 Hj1]. split; [split; [by rewrite Ho2|intros j Hj; rewrite Ho2; by apply Hj1]|].
        eapply published_kept; [exact Hpub1|done|]. intros j _. by rewrite Ho2.
      * assert (c' ≠ c) as Hne by (by intros ->). destruct (Hin2 c' Hc') as [[Hl2 Hj2] Hpub]. split; [|done]. split; [by rewrite Hl2, Ho1|]. intros j Hj. by rewrite Hj2, Ho1.
    + intros c' i' y Hy. by apply Hk2, Hk1.
Qed.

(** The blocks whose tokens are all computed *)
Definition filled m (x : Ctx.t B) : Z :=
  Z.min (TokenBuffer.processed_length (Ctx.tokens x)) (TokenBuffer.length (Ctx.tokens x) - TextContext.pending_future_count (Ctx.base x)) / _block_size m.

Lemma filled_run m x : _num_filled_blocks (mk_world m x) = (Ok (filled m x), mk_world m x).
Proof. done. Qed.
Lemma filled_hashable m x : 0 < _block_size m → Ownership.token_left x → filled m x ≤ Ownership.hashable x / _block_size m.
Proof. intros Hbs Hl. unfold filled, Ownership.hashable, Ownership.token_left in *. apply Z.div_le_mono; lia. Qed.

(** What publishing leaves *)
Record Committed m m' (x : Ctx.t B) (i : Z) (hs : list bytes) (k : Z) : Prop := {
  cm_minv : MInv m';
  cm_change : ∃ p p', pools m !! Z.to_nat i = Some p ∧ pools m' !! Z.to_nat i = Some p' ∧ Change m m' (TextContext.request_id (Ctx.base x)) i p p' ∧
    ∃ hs', _req_to_hashes m' !! TextContext.request_id (Ctx.base x) = Some hs' ∧ hs `prefix_of` hs' ∧
      ∀ c, c ∈ leaf_ids m → RowKept (rw m (TextContext.request_id (Ctx.base x))) (rw m' (TextContext.request_id (Ctx.base x))) c k (filled m x) ∧
        Published p' (rw m' (TextContext.request_id (Ctx.base x))) hs' c k (filled m x);
  cm_committed : _req_to_committed_idx m' !! TextContext.request_id (Ctx.base x) = Some (filled m x * _block_size m)
}.

Lemma jenga_commit_run m x i hs k : let rid := TextContext.request_id (Ctx.base x) in
  MInv m → _req_to_replica m !! rid = Some i → _enable_prefix_caching m = true → TokenBuffer.wf (Ctx.tokens x) →
  (∀ y, y ∈ TokenBuffer.all (Ctx.tokens x) → int64 y = true) → Ownership.token_left x →
  _req_to_hashes m !! rid = Some hs → _req_to_committed_idx m !! rid = Some (k * _block_size m) → 0 ≤ k ≤ filled m x →
  (∀ c, c ∈ leaf_ids m → filled m x ≤ len (rw m rid c)) →
  (∃ e, _commit_blocks_into_prefix_cache i (mk_world m x) = (Raise e, mk_world m x)) ∨
  ∃ m', _commit_blocks_into_prefix_cache i (mk_world m x) = (Ok tt, mk_world m' x) ∧ Committed m m' x i hs k.
Proof.
  intros rid HI Hr Hca Hwf H64 Hleft Hh Hk Hkf Hrows. destruct (at_of m rid i HI Hr) as (p & a & HA & Hp & HP).
  pose proof (mi_static _ HI) as HS. pose proof (st_block _ HS) as Hbs.
  unfold _commit_blocks_into_prefix_cache. mstep (eq_refl : get (mk_world m x) = (Ok (mk_world m x), mk_world m x)). change (request_id (mk_world m x)) with rid.
  destruct (compute_hashes_run m x hs Hbs Hh Hwf H64) as [[e E1]|(hs' & E1 & Hpre & Hlen)]; [left; exists e; exact (bind_failed _ _ _ _ _ E1)|right]. fold rid in E1.
  mstep E1. set (m1 := set_hashes (<[rid := hs']> (_req_to_hashes m)) m) in *. pose proof (change_hashes hs' m rid i p Hp) as HC1. fold m1 in HC1.
  assert (At m1 rid i p) as HA1 by (by apply (at_change m m1 rid i p p HC1 HA), HA). simpl.
  mstep (jenga_on_mgr_run _ (mk_world m1 x) _ _ (committed_run m1 rid _ Hk)). simpl. rewrite Z.div_mul by lia. cbv zeta. mstep (filled_run m1 x).
  change (filled m1 x) with (filled m x). pose proof (filled_hashable m x Hbs Hleft) as Hfh. rewrite Z.min_l by lia.
  destruct (mi_reqs _ HI rid i Hr) as [Q1 _ Q3 (k' & _ & Hk' & Htail)]. rewrite Hk in Hk'. injection Hk' as Hk'. assert (k' = k) as Ek by nia. subst k'.
  destruct (commit_leaves_run (leaf_ids m) k (filled m x) m1 rid i p a (rest m rid i) hs' (λ _, k)) as (m2 & p2 & E2 & HM2 & HJ2 & HT2 & _ & Hin2 & Hk2);
    [done|exact HP|apply HS|lia|lia|intros c Hc; split; [done|split; [by apply Hrows|done]]| |].
  { intros c j r Hc Hj Hrj. destruct (Htail p Hp c Hc) as [_ Ht]. destruct (Ht j r Hj Hrj) as [[_ ?]|[? Hpr]]; [congruence|]. split; [done|].
    by rewrite (held_of_split m rid i Hr) in Hpr. }
  mstep (jenga_on_mgr_run _ (mk_world m1 x) _ _ (eq_trans (for_leaves_run (λ c, let! _ := row c rid in for_each (zrange k (filled m x)) (commit_one c rid i hs')) m1) E2)). simpl.
  set (m3 := set_committed (<[rid := filled m x * _block_size m]> (_req_to_committed_idx m2)) m2). exists m3. split; [done|].
  pose proof (move_at _ _ _ _ _ _ HM2 HA1) as HA2. pose proof (change_committed (filled m x * _block_size m) m2 rid i p2 (at_pool _ _ _ _ HA2)) as HC3.
  pose proof (change_trans _ _ _ _ _ _ _ _ HC1 (change_trans _ _ _ _ _ _ _ _ (move_change _ _ _ _ _ _ HM2) HC3)) as HC. fold m3 in HC.
  destruct (minv_change m m3 rid i p p2 HI Hr Hp HC HJ2) as (HB & Hp3 & Hheld).
  assert (_req_to_hashes m3 !! rid = Some hs') as Hh3 by (simpl; rewrite (frame_eq _req_to_hashes m1 m2) by (done || apply HM2); simpl; apply lookup_insert_eq).
  pose proof (change_core leaf_ids _ _ _ _ _ _ HC ltac:(done)) as EL. split.
  - apply (but_minv rid); [done|]. intros j Hj. assert (j = i) as -> by (rewrite (change_core _req_to_replica _ _ _ _ _ _ HC) in Hj by done; congruence). split.
    + rewrite (ch_pools _ _ _ _ _ _ HC). unfold len in *. by rewrite length_insert.
    + by rewrite Hh3.
    + intros c. rewrite EL. intros Hc. apply (at_rows _ _ _ _ HA2). by rewrite (move_ids _ _ _ _ _ _ HM2).
    + exists (filled m x). split; [lia|]. rewrite (change_core _block_size _ _ _ _ _ _ HC) by done. split; [simpl; apply lookup_insert_eq|].
      intros q Hq c. rewrite EL. intros Hc. assert (q = p2) as -> by congruence. destruct (Hin2 c Hc) as [[Hl _] _].
      change (rw m3 rid c) with (rw m2 rid c). rewrite Hl. split; [by apply Hrows|]. intros j' r Hkj Hrj. right. rewrite Hheld. apply (HT2 c j' r Hc); [by rewrite decide_True|done].
  - exists p, p2. split; [done|]. split; [done|]. split; [done|]. exists hs'. split; [done|]. split; [done|]. exact Hin2.
  - simpl. apply lookup_insert_eq.
Qed.

(** *** Nulling pages no window needs any more *)

(** The slots [R] gave up pages below [first]. *)
Record Nulled (L : list string) (first : Z) p (R : gmap string (list Z)) others p' (R' : gmap string (list Z)) : Prop := {
  nu_step : JStep n K p (pgm L R) others p' (pgm L R');
  nu_hash c r : hash_of p' c r = hash_of p c r;
  nu_sub : pgm L R' ⊆ pgm L R;
  nu_rows c l : R !! c = Some l → ∃ l', R' !! c = Some l' ∧ len l' = len l ∧ ∀ j : nat, l' !! j = l !! j ∨ Z.of_nat j < first ∧ l' !! j = Some 0
}.
Lemma nulled_refl L first p a R others : Pool n K p a (pgm L R ⊎ others) → Nulled L first p R others p R.
Proof. intros HP. split; [by eapply jstep_refl|done|done|]. intros c l Hl. exists l. split; [done|]. split; [done|]. by left. Qed.
Lemma nulled_trans L first p1 p2 p3 R1 R2 R3 others : Nulled L first p1 R1 others p2 R2 → Nulled L first p2 R2 others p3 R3 → Nulled L first p1 R1 others p3 R3.
Proof.
  intros [J1 H1 S1 Ro1] [J2 H2 S2 Ro2]. split; [by eapply jstep_trans|intros c r; by rewrite H2|by etrans|]. intros c l Hl.
  destruct (Ro1 c l Hl) as (l1 & E1 & Hl1 & Hj1). destruct (Ro2 c l1 E1) as (l2 & E2 & Hl2 & Hj2). exists l2. split; [done|]. split; [congruence|].
  intros j. destruct (Hj2 j) as [->|?]; [apply Hj1|by right].
Qed.

Lemma on_slot_run {A} (f : M JengaBlockPool.t A) p R r p' : f p = (r, p') →
  KVGroupCoordinator.on_pool f (KVGroupCoordinator.mk_slot p R) = (r, KVGroupCoordinator.mk_slot p' R).
Proof. intros E. unfold KVGroupCoordinator.on_pool, zoom. simpl. by rewrite E. Qed.

Lemma null_one_run L first p a R others c l idx r : Pool n K p a (pgm L R ⊎ others) → NoDup L → c ∈ L → R !! c = Some l → l !! Z.to_nat idx = Some r → r ≠ 0 → 0 ≤ idx < first →
  ∃ p', JengaBlockPool.free_block c r p = (Ok tt, p') ∧ Nulled L first p R others p' (alter (λ row, list_set row idx 0) c R).
Proof.
  intros HP Hnd Hc Hl Hr Hr0 Hidx. set (R1 := alter (λ row, list_set row idx 0) c R). assert (idx < len l) as Hidl by (apply lookup_lt_Some in Hr; unfold len; lia).
  assert (list_set l idx 0 = <[Z.to_nat idx := 0]> l) as Eset by done.
  assert (R1 !! c = Some (<[Z.to_nat idx := 0]> l)) as HR1 by (unfold R1; by rewrite lookup_alter_eq, Hl, <- Eset).
  destruct (cl_set c l (Z.to_nat idx) r 0 Hr) as (X & HX & HX'). rewrite cl_one in HX by done. rewrite cl_zero in HX'.
  destruct (pg_split L (λ c, default [] (R !! c)) c Hnd Hc) as [Y HY].
  assert (pgm L R = {[+ (c, r) +]} ⊎ pgm L R1) as Hpg.
  { unfold pgm. rewrite (HY (λ c, default [] (R !! c))), (HY (λ c, default [] (R1 !! c))); [|intros c' Hne; unfold R1; by rewrite lookup_alter_ne|done].
    rewrite HR1, Hl. simpl. rewrite HX, HX'. multiset_solver. }
  assert (is_Some (K !! c)) as HKc.
  { destruct HP as [_ HI]. destruct (JengaAbs.iv_own _ _ _ _ _ HI c r) as (k & Hk & _); [|by exists k]. rewrite Hpg. multiset_solver. }
  rewrite Hpg in HP. destruct (jfree n K HK Hn p a (pgm L R1) others c r HP HKc) as (p' & E & HJ & Hh). exists p'. split; [done|]. split; [by rewrite Hpg|done|rewrite Hpg; multiset_solver|].
  intros c' l' Hl'. destruct (decide (c' = c)) as [->|Hne]; [|exists l'; unfold R1; rewrite lookup_alter_ne by done; split; [done|]; split; [done|]; by left].
  assert (l' = l) as -> by congruence. exists (<[Z.to_nat idx := 0]> l). split; [done|]. split; [unfold len; by rewrite length_insert|]. intros j.
  destruct (decide (j = Z.to_nat idx)) as [->|Hj]; [right; split; [lia|apply list_lookup_insert_eq; unfold len in *; lia]|left; by rewrite list_lookup_insert_ne].
Qed.

Lemma null_below_run idxs L first p a R others c l : Pool n K p a (pgm L R ⊎ others) → NoDup L → c ∈ L → R !! c = Some l → first ≤ len l → (∀ idx, idx ∈ idxs → 0 ≤ idx < first) →
  (∀ c, c ∈ L → is_Some (K !! c)) →
  ∃ p' R', KVGroupCoordinator.null_below c idxs (KVGroupCoordinator.mk_slot p R) = (Ok tt, KVGroupCoordinator.mk_slot p' R') ∧ Nulled L first p R others p' R'.
Proof.
  revert p a R l. induction idxs as [|idx idxs IH]; intros p a R l HP Hnd Hc Hl Hfirst Hidx HL; [exists p, R; split; [done|by eapply nulled_refl]|].
  pose proof (Hidx idx (list_elem_of_here _ _)) as Hi. destruct (lookup_lt_is_Some_2 l (Z.to_nat idx)) as [r Hr]; [unfold len in *; lia|]. destruct (HL c Hc) as [k Hk].
  assert (JengaAbs.named n k r) as Hnr.
  { destruct (decide (r = 0)) as [->|Hr0]; [by left|]. destruct HP as [_ HI]. destruct (JengaAbs.iv_own _ _ _ _ _ HI c r) as (k' & Hk' & ?); [|right; by simplify_eq].
    apply gmultiset_elem_of_disj_union. left. apply pg_elem. rewrite Hl. split; [done|]. split; [done|]. by eapply list_elem_of_lookup_2. }
  destruct (JengaAbs.pool_block_run n K p a c k r (JengaAbs.po_abs _ _ _ _ _ HP) Hk Hnr) as (b & Eb & _ & _ & En & _).
  cbn [KVGroupCoordinator.null_below]. set (s := KVGroupCoordinator.mk_slot p R). mstep (eq_refl : get s = (Ok s, s)). simpl. rewrite Hl.
  mstep (eq_refl : of_option KeyError (Some l) s = (Ok l, s)). rewrite (Ownership.py_index_pools l idx r) by (done || lia).
  mstep (eq_refl : of_option IndexError (Some r) s = (Ok r, s)). mstep (on_slot_run (JengaBlockPool.block c r) p R _ _ Eb). rewrite En.
  destruct (decide (r = 0)) as [->|Hr0]; [rewrite bool_decide_true by done; exists p, R; split; [done|by eapply nulled_refl]|]. rewrite bool_decide_false by done.
  destruct (null_one_run L first p a R others c l idx r HP Hnd Hc Hl Hr Hr0 Hi) as (p1 & E1 & HN1). mstep (on_slot_run _ p R _ _ E1).
  destruct (js_pool _ _ _ _ _ _ _ (nu_step _ _ _ _ _ _ _ HN1)) as [a1 HP1]. destruct (nu_rows _ _ _ _ _ _ _ HN1 c l Hl) as (l1 & Hl1 & Hlen1 & _).
  destruct (IH p1 a1 _ l1 HP1 Hnd Hc Hl1) as (p2 & R2 & E2 & HN2); [lia|intros; apply Hidx; by right|done|]. exists p2, R2. split; [exact E2|by eapply nulled_trans].
Qed.

Lemma null_leaves_run L' L first p a R others : Pool n K p a (pgm L R ⊎ others) → NoDup L → (∀ c, c ∈ L' → c ∈ L ∧ ∃ l, R !! c = Some l ∧ first ≤ len l) → (∀ c, c ∈ L → is_Some (K !! c)) →
  ∃ p' R', for_each L' (λ leaf_id,
      let! s := get in
      let! _ := of_option KeyError (KVGroupCoordinator.rows s !! leaf_id) in
      let! _ := KVGroupCoordinator.on_pool (JengaBlockPool.cache_of leaf_id) in
      KVGroupCoordinator.null_below leaf_id (rev (zrange 0 first))) (KVGroupCoordinator.mk_slot p R) = (Ok tt, KVGroupCoordinator.mk_slot p' R') ∧
    Nulled L first p R others p' R'.
Proof.
  revert p a R. induction L' as [|c L' IH]; intros p a R HP Hnd HL' HL; [exists p, R; split; [done|by eapply nulled_refl]|].
  destruct (HL' c (list_elem_of_here _ _)) as (Hc & l & Hl & Hfirst). destruct (HL c Hc) as [k Hk].
  destruct (JengaAbs.cache_of_run n K p a c k (JengaAbs.po_abs _ _ _ _ _ HP) Hk) as (x & Ex & _).
  destruct (null_below_run (rev (zrange 0 first)) L first p a R others c l HP Hnd Hc Hl Hfirst) as (p1 & R1 & E1 & HN1); [|done|].
  { intros idx Hi. apply elem_of_zrange. by rewrite list_elem_of_In, <- in_rev, <- list_elem_of_In in Hi. }
  destruct (js_pool _ _ _ _ _ _ _ (nu_step _ _ _ _ _ _ _ HN1)) as [a1 HP1].
  destruct (IH p1 a1 R1 HP1 Hnd) as (p2 & R2 & E2 & HN2); [|done|].
  { intros c' Hc'. destruct (HL' c' (list_elem_of_further _ _ _ Hc')) as (? & l' & Hl' & Hf'). split; [done|].
    destruct (nu_rows _ _ _ _ _ _ _ HN1 c' l' Hl') as (l1 & ? & ? & _). exists l1. split; [done|lia]. }
  exists p2, R2. split; [|by eapply nulled_trans]. cbn [for_each]. erewrite bind_run; [exact E2|]. set (s := KVGroupCoordinator.mk_slot p R) in *.
  mstep (eq_refl : get s = (Ok s, s)). simpl. rewrite Hl. mstep (eq_refl : of_option KeyError (Some l) s = (Ok l, s)). mstep (on_slot_run _ p R _ _ Ex). exact E1.
Qed.

Lemma null_pad_run g L num p a R others : Pool n K p a (pgm L R ⊎ others) → NoDup L → (∀ c, c ∈ KVGroupCoordinator.leaf_ids g → c ∈ L) →
  (∀ c, c ∈ L → ∃ l, R !! c = Some l ∧ num ≤ len l) → 0 ≤ num → JengaHits.coordinator_ok p g → (∀ c, c ∈ L → is_Some (K !! c)) →
  ∃ p' R', KVGroupCoordinator.null_pad_blocks g num (KVGroupCoordinator.mk_slot p R) = (Ok tt, KVGroupCoordinator.mk_slot p' R') ∧ Nulled L num p R others p' R'.
Proof.
  intros HP Hnd Hg HR Hnum [_ Hb] HL. destruct g as [leaves id|leaves id w ps]; simpl in *; [exists p, R; split; [done|by eapply nulled_refl]|].
  set (first := Z.max 0 (num - KVGroupCoordinator._blocks_in_window id ps)). assert (first ≤ num) as Hfirst by lia.
  destruct (null_leaves_run leaves L first p a R others HP Hnd) as (p' & R' & E & [HJ Hh Hs Hr]); [|done|].
  { intros c Hc. split; [by apply Hg|]. destruct (HR c (Hg c Hc)) as (l & ? & ?). exists l. split; [done|lia]. }
  exists p', R'. split; [exact E|]. split; [done|done|done|]. intros c l Hl. destruct (Hr c l Hl) as (l' & ? & ? & Hj). exists l'. split; [done|]. split; [done|].
  intros j. destruct (Hj j) as [?|[? ?]]; [by left|right; split; [lia|done]].
Qed.

Lemma rows_of_lookup m rid c : rows_of rid m !! c = row_opt m c rid.
Proof. unfold rows_of, row_opt. by rewrite lookup_omap. Qed.
Lemma put_rows_opt m rid R c rid' : row_opt (put_rows rid R m) c rid' =
  if decide (rid' = rid) then match _leaves m !! c, R !! c with Some _, Some l => Some l | _, _ => row_opt m c rid end else row_opt m c rid'.
Proof.
  unfold row_opt, put_rows. simpl. rewrite map_lookup_imap. destruct (_leaves m !! c) as [leaf|]; simpl; [|by case_decide].
  destruct (R !! c) as [l|]; simpl; [|by case_decide; subst]. case_decide; [subst; by rewrite lookup_insert_eq|by rewrite lookup_insert_ne].
Qed.
Lemma put_rows_kinds m rid R : kinds (put_rows rid R m) = kinds m.
Proof.
  unfold kinds, put_rows. simpl. apply map_eq. intros c. rewrite !lookup_fmap, map_lookup_imap. destruct (_leaves m !! c); [|done]. simpl. by destruct (R !! c).
Qed.
Lemma rows_of_pg m rid : pgm (leaf_ids m) (rows_of rid m) = pg (leaf_ids m) (rw m rid).
Proof. apply pg_ext. intros c _. by rewrite rows_of_lookup. Qed.

Lemma on_rows_run (f : M KVGroupCoordinator.slot unit) m rid i p p' R' first others : At m rid i p →
  f (KVGroupCoordinator.mk_slot p (rows_of rid m)) = (Ok tt, KVGroupCoordinator.mk_slot p' R') → Nulled (leaf_ids m) first p (rows_of rid m) others p' R' →
  ∃ m', on_rows rid i f m = (Ok tt, m') ∧ Move m m' rid i p p' ∧ Nulled (leaf_ids m) first p (rows_of rid m) others p' (rows_of rid m').
Proof.
  intros [HS Hi Hp Hrow] E HN. set (m1 := set_pools (<[Z.to_nat i := p']> (pools m)) m). exists (put_rows rid R' m1).
  assert (∀ c l, rows_of rid m !! c = Some l → rows_of rid (put_rows rid R' m1) !! c = R' !! c) as Hsame.
  { intros c l Hl. destruct (nu_rows _ _ _ _ _ _ _ HN c l Hl) as (l' & Hl' & _). rewrite rows_of_lookup, put_rows_opt, decide_True by done. simpl.
    rewrite rows_of_lookup in Hl. unfold row_opt in Hl. destruct (_leaves m !! c); [|done]. by rewrite Hl'. }
  split; [|split; [split|]].
  - unfold on_rows. rewrite (Ownership.py_index_pools (pools m) i p Hi Hp), E. unfold BlockManager.position. by rewrite (proj2 (Z.ltb_ge i 0)).
  - done.
  - by rewrite put_rows_kinds.
  - done.
  - intros rid' c Hne. rewrite put_rows_opt, decide_False by done. done.
  - intros c _ [l Hl]. rewrite <- rows_of_lookup in Hl. rewrite <- rows_of_lookup, (Hsame c l Hl). destruct (nu_rows _ _ _ _ _ _ _ HN c l Hl) as (l' & -> & _). by eexists.
  - destruct HN as [HJ Hh Hsub Hr]. assert (pgm (leaf_ids m) (rows_of rid (put_rows rid R' m1)) = pgm (leaf_ids m) R') as Hpg.
    { apply pg_ext. intros c Hc. destruct (Hrow c Hc) as [l Hl]. rewrite <- rows_of_lookup in Hl. by rewrite (Hsame c l Hl). }
    split; [by rewrite Hpg|done|by rewrite Hpg|]. intros c l Hl. rewrite (Hsame c l Hl). by apply Hr.
Qed.

Lemma null_groups_run gs num m rid i p a others : At m rid i p → Pool n K p a (pg (leaf_ids m) (rw m rid) ⊎ others) → (∀ g, g ∈ gs → g ∈ _groups m) →
  (∀ c, c ∈ leaf_ids m → num ≤ len (rw m rid c)) → 0 ≤ num →
  ∃ m' p', for_each gs (λ g, on_rows rid i (KVGroupCoordinator.null_pad_blocks g num)) m = (Ok tt, m') ∧ Move m m' rid i p p' ∧
    Nulled (leaf_ids m) num p (rows_of rid m) others p' (rows_of rid m').
Proof.
  revert m p a. induction gs as [|g gs IH]; intros m p a HA HP Hgs Hlen Hnum.
  - exists m, p. split; [done|]. split; [apply move_refl, HA|]. eapply nulled_refl. by rewrite rows_of_pg.
  - pose proof (at_static _ _ _ _ HA) as HS. pose proof (Hgs g (list_elem_of_here _ _)) as Hg.
    destruct (null_pad_run g (leaf_ids m) num p a (rows_of rid m) others) as (p1 & R1 & E1 & HN1); [by rewrite rows_of_pg|apply HS| | |done| |apply HS|].
    { intros c Hc. rewrite <- (gs_leaves _ _ (st_groups _ HS)). apply list_elem_of_bind. by exists g. }
    { intros c Hc. destruct (at_row m rid i p c HA Hc) as [_ Er]. exists (rw m rid c). rewrite rows_of_lookup. split; [done|by apply Hlen]. }
    { by apply (JengaHits.gr_ok p (_groups m) (groups_ok m p a _ HS HP)). }
    destruct (on_rows_run _ m rid i p p1 R1 num others HA E1 HN1) as (m1 & E2 & HM1 & HN2). pose proof (move_ids _ _ _ _ _ _ HM1) as Hid.
    pose proof HN2 as [HJ2 _ _ Hr2]. destruct (js_pool _ _ _ _ _ _ _ HJ2) as [a1 HP1].
    destruct (IH m1 p1 a1) as (m2 & p2 & E3 & HM2 & HN3); [by eapply move_at|by rewrite <- rows_of_pg, Hid| | |done|].
    { intros g' Hg'. rewrite (frame_eq _groups m m1) by (done || apply HM1). apply Hgs. by right. }
    { intros c. rewrite Hid. intros Hc. destruct (at_row m rid i p c HA Hc) as [_ Er]. rewrite <- rows_of_lookup in Er.
      destruct (Hr2 c _ Er) as (l' & Hl' & Hlen' & _). rewrite rows_of_lookup in Hl'. unfold rw at 1. rewrite Hl'. simpl. rewrite Hlen'. by apply Hlen. }
    rewrite Hid in HN3. exists m2, p2. split; [cbn [for_each]; by rewrite (bind_run _ _ _ _ _ E2)|]. split; [by eapply move_trans|by eapply nulled_trans].
Qed.

Lemma nulled_minv m m' rid i p p' num k : MInv m → _req_to_replica m !! rid = Some i → pools m !! Z.to_nat i = Some p → Move m m' rid i p p' →
  Nulled (leaf_ids m) num p (rows_of rid m) (rest m rid i) p' (rows_of rid m') → _req_to_committed_idx m !! rid = Some (k * _block_size m) →
  (_enable_prefix_caching m = true → num ≤ k) → MInv m'.
Proof.
  intros HI Hr Hp HM [HJ Hh Hsub Hrows] Hk Hnum. destruct (at_of m rid i HI Hr) as (p0 & a & HA & Hp0 & HP). assert (p0 = p) as -> by congruence.
  pose proof (mi_static _ HI) as HS. pose proof (st_block _ HS) as Hbs. pose proof (move_ids _ _ _ _ _ _ HM) as Hid. pose proof (move_change _ _ _ _ _ _ HM) as HC.
  assert (pgm (leaf_ids m) (rows_of rid m') = pg (leaf_ids m) (rw m' rid)) as Hpg' by (rewrite <- Hid; apply rows_of_pg). rewrite rows_of_pg, Hpg' in *.
  destruct (minv_change m m' rid i p p' HI Hr Hp HC HJ) as (HB & Hp' & Hheld). apply (but_minv rid); [done|]. intros j Hj.
  assert (j = i) as -> by (rewrite (change_core _req_to_replica _ _ _ _ _ _ HC) in Hj by done; congruence).
  destruct (mi_reqs _ HI rid i Hr) as [Q1 Q2 Q3 (k' & Hk0 & Hk' & Htail)]. rewrite Hk in Hk'. injection Hk' as Hk'. assert (k' = k) as Ek by nia. subst k'. split.
  - rewrite (ch_pools _ _ _ _ _ _ HC). unfold len in *. by rewrite length_insert.
  - by rewrite (frame_eq _req_to_hashes m m') by (done || apply HM).
  - intros c. rewrite Hid. intros Hc. apply (mv_rows _ _ _ _ _ _ HM); [done|by apply Q3].
  - exists k. split; [done|]. rewrite (frame_eq _req_to_committed_idx m m'), (frame_eq _block_size m m'), (frame_eq _enable_prefix_caching m m'), Hid by (done || apply HM).
    split; [done|]. intros q Hq c Hc. assert (q = p') as -> by congruence. destruct (Htail p Hp c Hc) as [Hle Ht].
    destruct (at_row m rid i p c HA Hc) as [_ Er]. rewrite <- rows_of_lookup in Er. destruct (Hrows c _ Er) as (l' & Hl' & Hlen & Hj').
    rewrite rows_of_lookup in Hl'. assert (rw m' rid c = l') as El by (unfold rw; by rewrite Hl'). rewrite El, Hlen. split; [done|]. intros j r Hkj Hrj.
    destruct (Hj' j) as [Ej|[Hlt Ej]]; rewrite Ej in Hrj.
    + destruct (Ht j r Hkj Hrj) as [?|[Hr0 [Hz Hm]]]; [by left|right]. split; [done|]. split; [by rewrite Hh|].
      assert ((c, r) ∈ pg (leaf_ids m) (rw m' rid)) as Hin.
      { apply pg_elem. rewrite El. split; [done|]. split; [done|]. rewrite <- Ej in Hrj. by eapply list_elem_of_lookup_2. }
      rewrite Hheld, multiplicity_disj_union. rewrite (held_of_split m rid i Hr), multiplicity_disj_union in Hm. specialize (Hsub (c, r)).
      apply (proj1 (elem_of_multiplicity _ _)) in Hin. lia.
    + injection Hrj as <-. left. split; [done|]. destruct (_enable_prefix_caching m); [|done]. specialize (Hnum eq_refl). lia.
Qed.

(** What one [step] leaves *)
Record Stepped m m' (x : Ctx.t B) (i k : Z) : Prop := {
  sp_minv : MInv m';
  sp_core : core m' = core m;
  sp_others rid c : rid ≠ TextContext.request_id (Ctx.base x) → row_opt m' c rid = row_opt m c rid;
  sp_committed : _enable_prefix_caching m = true → _req_to_committed_idx m' !! TextContext.request_id (Ctx.base x) = Some (filled m x * _block_size m);
  sp_rows c : c ∈ leaf_ids m → len (rw m' (TextContext.request_id (Ctx.base x)) c) = len (rw m (TextContext.request_id (Ctx.base x)) c) ∧
    ∀ j : nat, filled m x ≤ Z.of_nat j → rw m' (TextContext.request_id (Ctx.base x)) c !! j = rw m (TextContext.request_id (Ctx.base x)) c !! j;
  sp_published : _enable_prefix_caching m = true → ∃ p' hs', pools m' !! Z.to_nat i = Some p' ∧
    _req_to_hashes m' !! TextContext.request_id (Ctx.base x) = Some hs' ∧
    ∀ c (j : nat), c ∈ leaf_ids m → k ≤ Z.of_nat j < filled m x → ∃ r y, rw m' (TextContext.request_id (Ctx.base x)) c !! j = Some r ∧
      hs' !! j = Some y ∧ (r = 0 ∨ hash_of p' c r = Some y)
}.

(** What the caller guarantees of a step *)
Record StepOk m (x : Ctx.t B) (k : Z) : Prop := {
  so_wf : TokenBuffer.wf (Ctx.tokens x);
  so_int y : y ∈ TokenBuffer.all (Ctx.tokens x) → int64 y = true;
  so_left : Ownership.token_left x;
  so_filled : k ≤ filled m x;
  so_rows c : c ∈ leaf_ids m → filled m x ≤ len (rw m (TextContext.request_id (Ctx.base x)) c)
}.

Lemma check_rows L m rid i p : At m rid i p → (∀ c, c ∈ L → c ∈ leaf_ids m) → for_each L (λ leaf_id, let! _ := row leaf_id rid in ret tt) m = (Ok tt, m).
Proof.
  intros HA. induction L as [|c L IH]; intros HL; [done|]. cbn [for_each]. destruct (at_row m rid i p c HA (HL c (list_elem_of_here _ _))) as [Er _].
  erewrite bind_run; [apply IH; intros; apply HL; by right|]. by rewrite (bind_run _ _ _ _ _ Er).
Qed.

(** The padding that ends a step *)
Lemma padding_run m x i k : let rid := TextContext.request_id (Ctx.base x) in
  MInv m → _req_to_replica m !! rid = Some i → _req_to_committed_idx m !! rid = Some (k * _block_size m) → (_enable_prefix_caching m = true → filled m x ≤ k) →
  0 ≤ filled m x → (∀ c, c ∈ leaf_ids m → filled m x ≤ len (rw m rid c)) →
  ∃ m' p p', (on_mgr (for_leaves (λ leaf_id, let! _ := row leaf_id rid in ret tt));;
     let! num_filled_blocks := _num_filled_blocks in
     on_mgr (for_each (_groups m) (λ g, on_rows rid i (KVGroupCoordinator.null_pad_blocks g num_filled_blocks)))) (mk_world m x) = (Ok tt, mk_world m' x) ∧
    MInv m' ∧ Move m m' rid i p p' ∧ pools m !! Z.to_nat i = Some p ∧ Nulled (leaf_ids m) (filled m x) p (rows_of rid m) (rest m rid i) p' (rows_of rid m').
Proof.
  intros rid HI Hr Hk Hca Hf Hrows. destruct (at_of m rid i HI Hr) as (p & a & HA & Hp & HP).
  destruct (null_groups_run (_groups m) (filled m x) m rid i p a (rest m rid i) HA HP) as (m' & p' & E & HM & HN); [done|done|done|].
  exists m', p, p'. split; [|split; [by eapply nulled_minv|done]].
  mstep (jenga_on_mgr_run _ (mk_world m x) _ _ (eq_trans (for_leaves_run (λ c, let! _ := row c rid in ret tt) m) (check_rows (leaf_ids m) m rid i p HA (λ c Hc, Hc)))). simpl.
  mstep (filled_run m x). exact (jenga_on_mgr_run _ (mk_world m x) _ _ E).
Qed.

Lemma nulled_row m m' rid i p p' num others c : At m rid i p → Nulled (leaf_ids m) num p (rows_of rid m) others p' (rows_of rid m') → c ∈ leaf_ids m →
  len (rw m' rid c) = len (rw m rid c) ∧ ∀ j : nat, rw m' rid c !! j = rw m rid c !! j ∨ Z.of_nat j < num ∧ rw m' rid c !! j = Some 0.
Proof.
  intros HA HN Hc. destruct (at_row m rid i p c HA Hc) as [_ Er]. rewrite <- rows_of_lookup in Er. destruct (nu_rows _ _ _ _ _ _ _ HN c _ Er) as (l' & Hl' & Hlen & Hj).
  rewrite rows_of_lookup in Hl'. assert (rw m' rid c = l') as -> by (unfold rw; by rewrite Hl'). done.
Qed.

Lemma jenga_step_run m x i k : let rid := TextContext.request_id (Ctx.base x) in
  MInv m → _req_to_replica m !! rid = Some i → _req_to_committed_idx m !! rid = Some (k * _block_size m) → 0 ≤ k → StepOk m x k →
  (∃ e, _enable_prefix_caching m = true ∧ step (mk_world m x) = (Raise e, mk_world m x)) ∨ ∃ m', step (mk_world m x) = (Ok tt, mk_world m' x) ∧ Stepped m m' x i k.
Proof.
  intros rid HI Hr Hk Hk0 [Hwf H64 Hleft Hkf Hrows]. destruct (at_of m rid i HI Hr) as (p & a & HA & Hp & HP). destruct (rq_hashes _ _ _ (mi_reqs _ HI rid i Hr)) as [hs Hh].
  unfold step. mstep (eq_refl : get (mk_world m x) = (Ok (mk_world m x), mk_world m x)). change (request_id (mk_world m x)) with rid.
  mstep (jenga_on_mgr_run _ (mk_world m x) _ _ (replica_run m rid i Hr)). simpl. mstep (jenga_on_mgr_run _ (mk_world m x) _ _ (jenga_pool_at_run m rid i p HA)). simpl.
  destruct (_enable_prefix_caching m) eqn:Hca; simpl.
  - destruct (jenga_commit_run m x i hs k HI Hr Hca Hwf H64 Hleft Hh Hk ltac:(lia) Hrows) as [[e E]|(m1 & E & [HI1 (p0 & p1 & Hp0 & Hp1 & HC1 & hs' & Hh' & _ & Hpub) Hk1])];
      [left; exists e; split; [done|exact (bind_failed _ _ _ _ _ E)]|right]. fold rid in HC1, Hh', Hpub, Hk1. mstep E.
    pose proof (change_core leaf_ids _ _ _ _ _ _ HC1 ltac:(done)) as EL. pose proof (change_core _block_size _ _ _ _ _ _ HC1 ltac:(done)) as EB.
    pose proof (change_core _groups _ _ _ _ _ _ HC1 ltac:(done)) as EG. assert (filled m1 x = filled m x) as Ef by (unfold filled; by rewrite EB).
    assert (_req_to_replica m1 !! rid = Some i) as Hr1 by (by rewrite (change_core _req_to_replica _ _ _ _ _ _ HC1)).
    destruct (padding_run m1 x i (filled m x) HI1 Hr1) as (m2 & q & q' & E2 & HI2 & HM2 & Hq & HN2); fold rid; rewrite ?EL, ?EB, ?Ef; [done|done|lia| |].
    { intros c Hc. destruct (Hpub c Hc) as [[-> _] _]. by apply Hrows. }
    fold rid in E2, HM2, HN2. rewrite Ef, EL in HN2. rewrite EG in E2. exists m2. split; [exact E2|]. assert (q = p1) as -> by congruence.
    destruct (at_of m1 rid i HI1 Hr1) as (p2 & _ & HA1 & Hp2 & _). assert (p2 = p1) as -> by congruence. rewrite <- EL in HN2.
    split; fold rid.
    + done.
    + etrans; [apply frame_core, HM2|apply HC1].
    + intros rid' c Hne. by rewrite (mv_others _ _ _ _ _ _ HM2), (ch_rows _ _ _ _ _ _ HC1).
    + intros _. by rewrite (frame_eq _req_to_committed_idx m1 m2) by (done || apply HM2).
    + intros c Hc. destruct (Hpub c Hc) as [[Hl Hj] _]. rewrite <- EL in Hc. destruct (nulled_row m1 m2 rid i p1 q' _ _ c HA1 HN2 Hc) as [Hl2 Hj2].
      split; [by rewrite Hl2|]. intros j Hfj. destruct (Hj2 j) as [->|[? _]]; [apply Hj; lia|lia].
    + intros _. exists q', hs'. split; [rewrite (mv_pools _ _ _ _ _ _ HM2); apply list_lookup_insert_eq; by eapply lookup_lt_Some|].
      split; [by rewrite (frame_eq _req_to_hashes m1 m2) by (done || apply HM2)|]. intros c j Hc Hj. destruct (Hpub c Hc) as [_ Hpj]. destruct (Hpj j Hj) as (r & y & Hrj & Hy & _ & Hry).
      rewrite <- EL in Hc. destruct (nulled_row m1 m2 rid i p1 q' _ _ c HA1 HN2 Hc) as [_ Hj2]. destruct (Hj2 j) as [Ej|[_ Ej]].
      * exists r, y. rewrite Ej. split; [done|]. split; [done|]. right. by rewrite (nu_hash _ _ _ _ _ _ _ HN2).
      * exists 0, y. rewrite Ej. split; [done|]. split; [done|]. by left.
  - right. destruct (padding_run m x i k HI Hr Hk) as (m2 & q & q' & E2 & HI2 & HM2 & Hq & HN2); fold rid; [congruence|lia|done|]. fold rid in E2, HM2, HN2.
    exists m2. split; [exact E2|]. assert (q = p) as -> by congruence. split; fold rid; [done|apply frame_core, HM2|intros rid' c Hne; by apply (mv_others _ _ _ _ _ _ HM2)|congruence| |congruence].
    intros c Hc. destruct (nulled_row m m2 rid i p q' _ _ c HA HN2 Hc) as [Hl2 Hj2]. split; [done|]. intros j Hfj. destruct (Hj2 j) as [->|[? _]]; [done|lia].
Qed.
End Owned.

(** ** The initial manager *)

Lemma dedup_spec {A} `{EqDecision A} (seen l : list A) : NoDup (dedup seen l) ∧ ∀ x, x ∈ dedup seen l ↔ x ∈ l ∧ x ∉ seen.
Proof.
  revert seen. induction l as [|y l IH]; intros seen; simpl.
  - split; [apply NoDup_nil_2|]. intros x. rewrite !elem_of_nil. tauto.
  - case_bool_decide as Hy.
    + destruct (IH seen) as [Hnd Hin]. split; [done|]. intros x. rewrite Hin, elem_of_cons. split; [tauto|]. intros [[->|?] ?]; [done|tauto].
    + destruct (IH (y :: seen)) as [Hnd Hin]. split.
      * apply NoDup_cons. split; [|done]. rewrite Hin, elem_of_cons. tauto.
      * intros x. rewrite !elem_of_cons, Hin, elem_of_cons. split; [intros [->|[? ?]]; tauto|]. intros [[->|?] ?]; [by left|]. destruct (decide (x = y)); [by left|right; tauto].
Qed.

Lemma bind_ext_in {A C} (f g : A → list C) (l : list A) : (∀ x, x ∈ l → f x = g x) → l ≫= f = l ≫= g.
Proof. induction l as [|x l IH]; intros Hfg; [done|]. simpl. rewrite Hfg by left. f_equal. apply IH. intros; apply Hfg; by right. Qed.

Lemma bind_fmap {A C D} (f : C → D) (g : A → list C) (l : list A) : f <$> (l ≫= g) = l ≫= λ x, f <$> g x.
Proof. induction l as [|x l IH]; [done|]. simpl. rewrite fmap_app. by f_equal. Qed.

(** The classes of a list under [f], one after the other *)
Lemma classes_perm {A C} `{EqDecision C} (f : A → C) (ds : list C) (l : list A) : NoDup ds → (∀ x, x ∈ l → f x ∈ ds) →
  (ds ≫= λ d, filter (λ x, f x = d) l) ≡ₚ l.
Proof.
  revert l. induction ds as [|d ds IH]; intros l Hnd Hl.
  - destruct l as [|x l]; [done|]. specialize (Hl x (list_elem_of_here _ _)). by apply elem_of_nil in Hl.
  - apply NoDup_cons in Hnd as [Hd Hnd]. simpl. transitivity (filter (λ x, f x = d) l ++ filter (λ x, ¬ f x = d) l); [|apply filter_app_complement].
    apply Permutation_app_head. rewrite (bind_ext_in _ (λ d', filter (λ x, f x = d') (filter (λ x, ¬ f x = d) l))).
    + apply IH; [done|]. intros x [Hx Hin]%list_elem_of_filter. apply Hl in Hin. by apply elem_of_cons in Hin as [?|?].
    + intros d' Hd'. rewrite list_filter_filter_l; [done|]. intros x -> ->. done.
Qed.

Section Init.
Context `{Digest} {B : Backend}.

(** A group's id, as its constructor checks it *)
Definition group_ok (g : KVCacheGroupId.t) : Prop := KVCacheGroupId.make (KVCacheGroupId.type g) (KVCacheGroupId.window_size g) = Ok g.
Definition ratios_of (leaf_infos : list (string * KVLeafInfo)) : list (string * Z) := (λ '(leaf_id, leaf), (leaf_id, ratio leaf)) <$> leaf_infos.

Lemma new_pools_run k n ratios ps : new_pools k n ratios = Ok ps → length ps = k ∧ ∀ p, p ∈ ps → JengaBlockPool.init n ratios = Ok p.
Proof.
  revert ps. induction k as [|k IH]; intros ps; simpl.
  - intros [= <-]. split; [done|]. intros p Hp. by apply elem_of_nil in Hp.
  - destruct (JengaBlockPool.init n ratios) as [p|e] eqn:E; [|done]. destruct (new_pools k n ratios) as [l|e] eqn:El; [|done]. intros [= <-].
    destruct (IH l eq_refl) as [Hl Hin]. split; [simpl; by rewrite Hl|]. intros q [->|Hq]%elem_of_cons; [done|]. rewrite <- E. by rewrite E; apply Hin.
Qed.

Lemma group_kind g leaves bs : group_ok g → 0 < bs → let co := KVGroupCoordinator.create_kv_group_coordinator leaves g bs in
  match co with
  | KVGroupCoordinator.FullKVGroupCoordinator _ id => id = KVCacheGroupId.full
  | KVGroupCoordinator.SlidingWindowKVGroupCoordinator _ id _ page_size =>
      KVCacheGroupId.is_sliding_window id = true ∧ 0 ≤ KVGroupCoordinator._blocks_in_window id page_size
  end ∧ KVGroupCoordinator.leaf_ids co = leaves ∧ KVGroupCoordinator.group_id co = g.
Proof.
  intros Hg Hbs. unfold KVGroupCoordinator.create_kv_group_coordinator, group_ok, KVCacheGroupId.make in *. destruct g as [[|] w]; simpl in *.
  - destruct (Z.eqb_spec w (-1)) as [->|]; done.
  - destruct (Z.leb_spec w 0) as [|Hw]; [done|]. split; [|done]. split; [done|]. unfold KVGroupCoordinator._blocks_in_window. simpl. pose proof (ceildiv_spec (w - 1) bs Hbs). nia.
Qed.

Lemma groups_static (leaves : list (string * KVLeaf)) bs : 0 < bs → (∀ c leaf, (c, leaf) ∈ leaves → group_ok (group_id leaf)) →
  GroupsStatic leaves.*1 ((λ g, KVGroupCoordinator.create_kv_group_coordinator (filter (λ x : string * KVLeaf, group_id x.2 = g) leaves).*1 g bs)
    <$> dedup [] ((λ '(_, leaf), group_id leaf) <$> leaves)).
Proof.
  intros Hbs Hok. set (gids := (λ '(_, leaf), group_id leaf) <$> leaves). destruct (dedup_spec [] gids) as [Hnd Hin].
  assert (∀ g, g ∈ dedup [] gids → group_ok g) as Hgok.
  { intros g [Hg _]%Hin. apply list_elem_of_fmap in Hg as ([c leaf] & -> & Hc). by eapply Hok. }
  split.
  - rewrite list_fmap_bind. rewrite (bind_ext_in _ (λ g, fst <$> filter (λ x : string * KVLeaf, group_id x.2 = g) leaves)).
    + rewrite <- bind_fmap. apply fmap_Permutation, classes_perm; [done|]. intros [c leaf] Hx. apply Hin. split; [|by apply not_elem_of_nil].
      apply list_elem_of_fmap. by exists (c, leaf).
    + intros g Hg. unfold compose. by apply (group_kind g _ bs (Hgok g Hg) Hbs).
  - intros co (g & -> & Hg)%list_elem_of_fmap. apply (group_kind g _ bs (Hgok g Hg) Hbs).
  - rewrite <- list_fmap_compose. assert ((KVGroupCoordinator.group_id ∘ λ g, KVGroupCoordinator.create_kv_group_coordinator
      (filter (λ x : string * KVLeaf, group_id x.2 = g) leaves).*1 g bs) <$> dedup [] gids = dedup [] gids) as ->; [|done].
    transitivity (id <$> dedup [] gids); [|apply list_fmap_id]. apply list_fmap_ext. intros i g Hg%list_elem_of_lookup_2. by apply (group_kind g _ bs (Hgok g Hg) Hbs).
Qed.

Lemma leaves_lookup {V} (l : list (string * V)) c : is_Some (list_to_map (M := gmap string V) l !! c) ↔ c ∈ l.*1.
Proof. rewrite <- elem_of_dom, dom_list_to_map_L. apply elem_of_list_to_set. Qed.

Lemma jenga_init_run leaf_infos n bs caching reps algo seed limit draft per_step (m : t) :
  init leaf_infos n bs caching reps algo seed limit draft per_step = Ok m → 1 ≤ reps → 0 < bs → NoDup leaf_infos.*1 →
  (∀ c leaf, (c, leaf) ∈ leaf_infos → group_ok (info_group_id leaf)) →
  let K := JengaAbs.caches_of (ratios_of leaf_infos) in
  2 ≤ n ∧ (∀ c k, K !! c = Some k → 0 < k) ∧ MInv n K m ∧ len (pools m) = reps ∧ _req_to_replica m = ∅ ∧ leaf_ids m = leaf_infos.*1 ∧
    _block_size m = bs ∧ _enable_prefix_caching m = caching.
Proof.
  intros E Hreps Hbs Hnd Hok K. unfold init in E. fold (ratios_of leaf_infos) in E. destruct (new_pools _ n _) as [ps|e] eqn:Ep; [|done].
  destruct (new_pools_run _ _ _ _ Ep) as [Hl Hps]. injection E as E.
  destruct ps as [|p0 ps']; [simpl in Hl; lia|]. pose proof (Hps p0 (list_elem_of_here _ _)) as E0. destruct (JengaAbs.pool_init_run _ _ _ E0) as (Hn & HK & _).
  set (leaves := (λ '(leaf_id, leaf), (leaf_id, kv_leaf (info_group_id leaf) ∅)) <$> leaf_infos) in *.
  assert (leaves.*1 = leaf_infos.*1) as Hids.
  { unfold leaves. rewrite <- list_fmap_compose. apply list_fmap_ext. by intros _ [] _. }
  assert ((ratios_of leaf_infos).*1 = leaf_infos.*1) as Hrids.
  { unfold ratios_of. rewrite <- list_fmap_compose. apply list_fmap_ext. by intros _ [] _. }
  split; [done|]. split; [done|]. split; [|subst m; simpl; split; [unfold len; rewrite Hl; lia|done]]. subst m. split; simpl.
  - split; simpl.
    + rewrite <- Hids. apply groups_static; [done|]. intros c leaf Hc. unfold leaves in Hc. apply list_elem_of_fmap in Hc as ([c' info] & [= -> ->] & Hc). by eapply Hok.
    + done.
    + done.
    + intros c. rewrite leaves_lookup. by rewrite Hids.
    + intros c Hc. unfold K, JengaAbs.caches_of. rewrite leaves_lookup. by rewrite Hrids.
  - intros i p Hi Hp. destruct (JengaAbs.pool_init_run _ _ _ (Hps p (list_elem_of_lookup_2 _ _ _ Hp))) as (_ & _ & HP). by eexists.
  - intros rid i Hr. by rewrite lookup_empty in Hr.
Qed.
End Init.
End JengaOwnership.
