(* ===== verification/JengaCapacity.v ===== *)
(** * The longest request the Jenga caches can hold

    [effective_max_seq_length] searches by bisection for the largest length whose
    estimated demand fits the pool. Against what [alloc] does for a first request on an
    empty pool: every length it serves is promised, and a promised length is served
    unless some sliding window is shorter. A last example: a promised length that
    [alloc] rejects. *)

From S2P Require Import Prelude Tokens Eos Grammar FreeQueue Context Hashing Connector Manager ManagerFacts Jenga JengaFacts JengaProperties JengaManager JengaHits JengaManagerFacts.

Module JengaCapacity.
Import JengaBlockManager JengaOwnership.

Section Capacity.
Context `{Digest} {B : Backend} (n : Z) (K : gmap string Z).
Context (HK : ∀ c k, K !! c = Some k → 0 < k).
Implicit Types (m : t) (p : JengaBlockPool.t).

(** The pages a leaf holds for [s] tokens, and the huge blocks of all leaves *)
Definition leaf_pages m (s : Z) (c : string) : Z :=
  match _leaves m !! c with
  | Some leaf => if KVCacheGroupId.is_sliding_window (group_id leaf)
      then Z.min (ceildiv s (_block_size m)) (ceildiv (KVCacheGroupId.window_size (group_id leaf)) (_block_size m)) else ceildiv s (_block_size m)
  | None => 0
  end.
Definition blocks_needed m (L : list string) (s : Z) : Z := zsum (map (λ c, need (ratio_of K c) 0 (leaf_pages m s c)) L).
Definition fits m p (s : Z) : Prop := blocks_needed m (leaf_ids m) s ≤ len (JengaBlockPool.huge_blocks p).

Lemma capacity_ceildiv_mono a b k : 0 < k → a ≤ b → ceildiv a k ≤ ceildiv b k.
Proof. intros Hk Hab. pose proof (ceildiv_spec a k Hk). pose proof (ceildiv_spec b k Hk). nia. Qed.
Lemma need_mono k j j' : 0 < k → j ≤ j' → need k 0 j ≤ need k 0 j'.
Proof. intros Hk Hj. apply capacity_ceildiv_mono; lia. Qed.
Lemma need_le k j t : 0 < k → need k 0 j ≤ t → j ≤ t * k.
Proof. intros Hk Hn. unfold need in Hn. pose proof (ceildiv_spec (Z.max 0 (j - 0)) k Hk). nia. Qed.
Lemma need_pages k j : 0 < k → need k 0 j = if 0 <? j then ceildiv j k else 0.
Proof.
  intros Hk. unfold need. destruct (Z.ltb_spec 0 j); [by rewrite Z.sub_0_r, Z.max_r by lia|]. rewrite Z.max_l by lia. unfold ceildiv. by rewrite Z.div_0_l by lia.
Qed.

Lemma pages_mono m c s s' : 0 < _block_size m → s ≤ s' → leaf_pages m s c ≤ leaf_pages m s' c.
Proof.
  intros Hbs Hs. unfold leaf_pages. pose proof (capacity_ceildiv_mono s s' _ Hbs Hs). destruct (_leaves m !! c); [|done]. case_match; lia.
Qed.
Lemma ratio_pos c : is_Some (K !! c) → 0 < ratio_of K c.
Proof. intros [k Hk]. unfold ratio_of. rewrite Hk. by eapply HK. Qed.
Lemma needed_cons m c L s : blocks_needed m (c :: L) s = need (ratio_of K c) 0 (leaf_pages m s c) + blocks_needed m L s.
Proof. done. Qed.
Lemma needed_mono m L s s' : 0 < _block_size m → (∀ c, c ∈ L → is_Some (K !! c)) → s ≤ s' → blocks_needed m L s ≤ blocks_needed m L s'.
Proof.
  intros Hbs HL Hs. induction L as [|c L IH]; [done|]. rewrite !needed_cons. pose proof (ratio_pos c (HL c (list_elem_of_here _ _))) as Hr.
  pose proof (need_mono _ _ _ Hr (pages_mono m c s s' Hbs Hs)). assert (blocks_needed m L s ≤ blocks_needed m L s'); [apply IH; intros; apply HL; by right|lia].
Qed.
Lemma needed_part m L s c : (∀ c, c ∈ L → is_Some (K !! c)) → c ∈ L → need (ratio_of K c) 0 (leaf_pages m s c) ≤ blocks_needed m L s.
Proof.
  intros HL. assert (∀ L', (∀ c, c ∈ L' → is_Some (K !! c)) → 0 ≤ blocks_needed m L' s) as Hpos.
  { induction L' as [|c' L' IH]; intros HL'; [done|]. rewrite needed_cons. pose proof (need_nonneg (ratio_of K c') 0 (leaf_pages m s c') (ratio_pos c' (HL' c' (list_elem_of_here _ _)))).
    assert (0 ≤ blocks_needed m L' s); [apply IH; intros; apply HL'; by right|lia]. }
  induction L as [|c' L IH]; intros Hc; [by apply elem_of_nil in Hc|]. rewrite needed_cons. assert (∀ c, c ∈ L → is_Some (K !! c)) as HL' by (intros; apply HL; by right).
  pose proof (need_nonneg (ratio_of K c') 0 (leaf_pages m s c') (ratio_pos c' (HL c' (list_elem_of_here _ _)))).
  pose proof (Hpos L HL'). apply elem_of_cons in Hc as [->|Hc]; [lia|]. specialize (IH HL' Hc). lia.
Qed.

(** ** Evaluating one length *)

Lemma demanded_run m s : (∀ c, c ∈ leaf_ids m → is_Some (_leaves m !! c)) →
  _blocks_demanded s m = (Ok ((λ c, (c, leaf_pages m s c)) <$> leaf_ids m), m).
Proof.
  intros HL. unfold _blocks_demanded. mstep (eq_refl : get m = (Ok m, m)). revert HL. generalize (leaf_ids m). intros L. induction L as [|c L IH]; intros HL; [done|].
  destruct (HL c (list_elem_of_here _ _)) as [leaf Hl]. cbn [for_map]. erewrite bind_run.
  2:{ unfold leaf_at, bind, get. rewrite Hl. reflexivity. }
  rewrite (bind_run _ _ _ _ _ (IH (λ c' Hc', HL c' (list_elem_of_further _ _ _ Hc')))). unfold leaf_pages. simpl. by rewrite Hl.
Qed.

Lemma capacity_huge_run p a own m (L : list string) (f : string → Z) : JengaAbs.Pool n K p a own → (∀ c, c ∈ L → is_Some (K !! c)) →
  _huge_blocks_for_demand p ((λ c, (c, f c)) <$> L) None m = (Ok (zsum (map (λ c, need (ratio_of K c) 0 (f c)) L)), m).
Proof.
  intros [HA _] HL. unfold _huge_blocks_for_demand.
  assert (∀ acc, for_fold ((λ c, (c, f c)) <$> L) acc (λ num_huge_blocks '(leaf_id, num_pages),
    let already_free := match (None : option (gmap string Z)) with Some d => default 0 (d !! leaf_id) | None => 0 end in
    let shortfall := num_pages - already_free in
    if 0 <? shortfall then let! k := cache_ratio p leaf_id in ret (num_huge_blocks + ceildiv shortfall k) else ret num_huge_blocks) m
    = (Ok (acc + zsum (map (λ c, need (ratio_of K c) 0 (f c)) L)), m)) as Hfold; [|etrans; [exact (Hfold 0)|by rewrite Z.add_0_l]].
  induction L as [|c L IH]; intros acc; [by rewrite Z.add_0_r|]. destruct (HL c (list_elem_of_here _ _)) as [k Hk].
  destruct (JengaAbs.abs_cache n K p a c k HA Hk) as (x & Hx & HC). pose proof (HK c k Hk) as Hkp. cbn [fmap list_fmap for_fold map]. cbv zeta. rewrite Z.sub_0_r.
  assert (zsum (need (ratio_of K c) 0 (f c) :: map (λ c, need (ratio_of K c) 0 (f c)) L) = need k 0 (f c) + zsum (map (λ c, need (ratio_of K c) 0 (f c)) L)) as ->
    by (unfold ratio_of at 1; by rewrite Hk).
  rewrite need_pages by done. assert (∀ c, c ∈ L → is_Some (K !! c)) as HL' by (intros; apply HL; by right). destruct (0 <? f c).
  - assert ((let! k := cache_ratio p c in ret (acc + ceildiv (f c) k)) m = (Ok (acc + ceildiv (f c) k), m)) as E1.
    { unfold cache_ratio. rewrite Hx. simpl. unfold bind, ret. by rewrite (JengaAbs.cc_ratio _ _ _ _ HC). }
    rewrite (bind_run _ _ _ _ _ E1), (IH HL'). do 2 f_equal. lia.
  - rewrite (bind_run _ _ _ _ _ (eq_refl : ret acc m = (Ok acc, m))), (IH HL'). do 2 f_equal.
Qed.

(** ** The search *)

Lemma pool_zero m p : pools m !! 0%nat = Some p → pool_at 0 m = (Ok p, m).
Proof.
  intros Hp. apply (JengaHits.on_pool_read 0 p m); [|done]. by apply (Ownership.py_index_pools (pools m) 0 p).
Qed.
Lemma capacity_count_run m p : pools m !! 0%nat = Some p →
  huge_block_count 0 m = (Ok (BlockCount.mk (FreeQueue.length (JengaBlockPool.free_huge_blocks p)) (len (JengaBlockPool.huge_blocks p))), m).
Proof. intros Hp. unfold huge_block_count. by mstep (pool_zero m p Hp). Qed.

Lemma fits_run m p a own s : Static K m → pools m !! 0%nat = Some p → JengaAbs.Pool n K p a own →
  _fits_in_cache s m = (Ok (blocks_needed m (leaf_ids m) s <=? len (JengaBlockPool.huge_blocks p)), m).
Proof.
  intros HS Hp HP. unfold _fits_in_cache. mstep (pool_zero m p Hp). mstep (demanded_run m s (λ c Hc, proj1 (st_leaves _ _ HS c) Hc)).
  mstep (capacity_huge_run p a own m (leaf_ids m) (leaf_pages m s) HP (st_caches _ _ HS)). by mstep (capacity_count_run m p Hp).
Qed.

(** The bisection finds the first length of the range at which [b] turns true. *)
Lemma bisect_run fuel (f : Z → M t bool) (b : Z → bool) lo hi m :
  (Z.to_nat (hi - lo) < fuel)%nat → lo ≤ hi → (∀ x, f x m = (Ok (b x), m)) → (∀ x y, x ≤ y → b x = true → b y = true) →
  ∃ r, bisect_left fuel f lo hi m = (Ok r, m) ∧ lo ≤ r ≤ hi ∧ (∀ x, lo ≤ x < r → b x = false) ∧ (r < hi → b r = true).
Proof.
  revert lo hi. induction fuel as [|fuel IH]; intros lo hi Hfuel Hle Hf Hb; [lia|]. simpl.
  destruct (Z.ltb_spec lo hi) as [Hlt|Hge]; simpl; [|exists lo; split; [done|]; split; [lia|]; split; [lia|lia]].
  assert (lo ≤ (lo + hi) / 2 < hi) as Hmid by (split; [apply Z.div_le_lower_bound; lia|apply Z.div_lt_upper_bound; lia]). set (mid := (lo + hi) / 2) in *.
  rewrite (bind_run _ _ _ _ _ (Hf mid)). destruct (b mid) eqn:Em.
  - destruct (IH lo mid) as (r & E & Hr & Hlow & Htop); [lia|lia|done|done|]. exists r. split; [done|]. split; [lia|]. split; [done|]. intros _.
    destruct (decide (r = mid)) as [->|]; [done|apply Htop; lia].
  - destruct (IH (mid + 1) hi) as (r & E & Hr & Hlow & Htop); [lia|lia|done|done|]. exists r. split; [done|]. split; [lia|]. split; [|done].
    intros x Hx. destruct (Z.le_gt_cases x mid); [|apply Hlow; lia]. destruct (b x) eqn:Ex; [|done]. by rewrite (Hb x mid) in Em.
Qed.

Lemma foldl_max l z : z ≤ foldl Z.max z l ∧ ∀ x, x ∈ l → x ≤ foldl Z.max z l.
Proof.
  revert z. induction l as [|y l IH]; intros z; simpl; [split; [lia|intros x Hx; by apply elem_of_nil in Hx]|]. destruct (IH (Z.max z y)) as [Hz Hl].
  split; [lia|]. intros x [->|Hx]%elem_of_cons; [lia|by apply Hl].
Qed.
Lemma py_max_run l m : l ≠ [] → ∃ k, py_max l m = (Ok k, m) ∧ ∀ x, x ∈ l → x ≤ k.
Proof.
  destruct l as [|z l]; [done|]. intros _. exists (foldl Z.max z l). split; [done|]. destruct (foldl_max l z) as [Hz Hl]. intros x [->|Hx]%elem_of_cons; [done|by apply Hl].
Qed.

(** Past the ceiling of the search no leaf's demand grows. *)
Lemma pages_plateau m s c k top : 0 < _block_size m → 0 ≤ top → leaf_pages m (top * _block_size m * k + 1) c ≤ top * ratio_of K c → ratio_of K c ≤ k →
  top * _block_size m * k + 1 ≤ s → leaf_pages m s c = leaf_pages m (top * _block_size m * k + 1) c.
Proof.
  intros Hbs Htop Hle Hk Hs. unfold leaf_pages in *. destruct (_leaves m !! c) as [leaf|]; [|done].
  pose proof (capacity_ceildiv_mono _ _ _ Hbs Hs). pose proof (ceildiv_spec (top * _block_size m * k + 1) _ Hbs).
  assert (top * k < ceildiv (top * _block_size m * k + 1) (_block_size m)) by nia. assert (top * ratio_of K c ≤ top * k) by nia.
  destruct (KVCacheGroupId.is_sliding_window (group_id leaf)); lia.
Qed.

Lemma needed_plateau m s k top : 0 < _block_size m → 0 ≤ top → (∀ c, c ∈ leaf_ids m → is_Some (K !! c) ∧ ratio_of K c ≤ k) →
  blocks_needed m (leaf_ids m) (top * _block_size m * k + 1) ≤ top → top * _block_size m * k + 1 ≤ s →
  blocks_needed m (leaf_ids m) s = blocks_needed m (leaf_ids m) (top * _block_size m * k + 1).
Proof.
  intros Hbs Htop HL Hfit Hs. unfold blocks_needed. f_equal. apply map_ext_in. intros c Hc%list_elem_of_In. f_equal. destruct (HL c Hc) as [Hkc Hle].
  apply pages_plateau; try done. apply need_le; [by apply ratio_pos|]. etrans; [|exact Hfit]. apply needed_part; [|done]. intros c' Hc'. by apply HL.
Qed.
Lemma needed_zero m : 0 < _block_size m → (∀ c, c ∈ leaf_ids m → is_Some (K !! c)) → blocks_needed m (leaf_ids m) 0 ≤ 0.
Proof.
  intros Hbs. unfold blocks_needed. generalize (leaf_ids m). intros L. induction L as [|c L IH]; intros HL; [done|]. cbn [map].
  assert (leaf_pages m 0 c ≤ 0) as Hp.
  { unfold leaf_pages. assert (ceildiv 0 (_block_size m) = 0) as -> by (unfold ceildiv; by rewrite Z.div_0_l by lia). destruct (_leaves m !! c); [|done]. case_match; lia. }
  assert (need (ratio_of K c) 0 (leaf_pages m 0 c) = 0) as E0 by (rewrite need_pages by (apply ratio_pos, HL; by left); by rewrite (proj2 (Z.ltb_ge 0 _))).
  change (need (ratio_of K c) 0 (leaf_pages m 0 c) + zsum (map (λ c, need (ratio_of K c) 0 (leaf_pages m 0 c)) L) ≤ 0).
  rewrite E0. apply IH. intros; apply HL; by right.
Qed.

Lemma ratios_max m p a own : JengaAbs.Pool n K p a own → (∀ c, c ∈ leaf_ids m → is_Some (K !! c)) → leaf_ids m ≠ [] →
  ∃ k, py_max ((λ '(_, x), JengaBlockPool.ratio x) <$> map_to_list (JengaBlockPool.caches p)) m = (Ok k, m) ∧ 0 < k ∧ ∀ c, c ∈ leaf_ids m → ratio_of K c ≤ k.
Proof.
  intros [HA _] HL Hne. set (l := (λ '(_, x), JengaBlockPool.ratio x) <$> map_to_list (JengaBlockPool.caches p)).
  assert (∀ c, c ∈ leaf_ids m → ratio_of K c ∈ l) as Hin.
  { intros c Hc. destruct (HL c Hc) as [k Hk]. destruct (JengaAbs.abs_cache n K p a c k HA Hk) as (x & Hx & HC). unfold ratio_of. rewrite Hk. simpl.
    rewrite <- (JengaAbs.cc_ratio _ _ _ _ HC). apply list_elem_of_fmap. exists (c, x). split; [done|]. by apply elem_of_map_to_list. }
  destruct (leaf_ids m) as [|c0 L] eqn:EL; [done|]. assert (l ≠ []) as Hl.
  { intros E. specialize (Hin c0 (list_elem_of_here _ _)). rewrite E in Hin. by apply elem_of_nil in Hin. }
  destruct (py_max_run l m Hl) as (k & E & Hk). exists k. split; [done|]. split; [|intros c Hc; by apply Hk, Hin].
  pose proof (ratio_pos c0 (HL c0 (list_elem_of_here _ _))). specialize (Hk _ (Hin c0 (list_elem_of_here _ _))). lia.
Qed.

Lemma effective_run m p a own : Static K m → pools m !! 0%nat = Some p → JengaAbs.Pool n K p a own → leaf_ids m ≠ [] →
  ∃ o, effective_max_seq_length m = (Ok o, m) ∧
    match o with Some s => 0 ≤ s ∧ ∀ s', 0 ≤ s' → fits m p s' ↔ s' ≤ s | None => ∀ s', 0 ≤ s' → fits m p s' end.
Proof.
  intros HS Hp HP Hne. pose proof (st_block _ _ HS) as Hbs. pose proof (st_caches _ _ HS) as HL. unfold effective_max_seq_length.
  mstep (capacity_count_run m p Hp). mstep (eq_refl : get m = (Ok m, m)). mstep (pool_zero m p Hp). destruct (ratios_max m p a own HP HL Hne) as (k & Ek & Hk0 & Hk).
  mstep Ek. simpl. set (top := len (JengaBlockPool.huge_blocks p)). assert (0 ≤ top) as Htop by apply len_nonneg.
  assert (0 ≤ top * _block_size m * k) as Hub by (apply Z.mul_nonneg_nonneg; [apply Z.mul_nonneg_nonneg|]; lia). set (space := top * _block_size m * k + 2).
  set (b := λ s, negb (blocks_needed m (leaf_ids m) s <=? top)).
  destruct (bisect_run (S (Z.to_nat space)) (λ seq_len, let! b := _fits_in_cache seq_len in ret (negb b)) b 0 space m) as (r & E & Hr & Hlow & Htopr); [lia|unfold space; lia| | |].
  { intros s. by mstep (fits_run m p a own s HS Hp HP). }
  { intros s s' Hs. unfold b. rewrite !negb_true_iff, !Z.leb_gt. pose proof (needed_mono m (leaf_ids m) s s' Hbs HL Hs). lia. }
  assert (∀ s, 0 ≤ s < r → fits m p s) as Hfits by (intros s Hs; specialize (Hlow s Hs); unfold b in Hlow; apply negb_false_iff, Z.leb_le in Hlow; exact Hlow).
  exists (if r <? space then Some (r - 1) else None). split; [by mstep E|]. destruct (Z.ltb_spec r space) as [Hlt|Hge].
  - specialize (Htopr Hlt). unfold b in Htopr. apply negb_true_iff, Z.leb_gt in Htopr. assert (0 < r) as Hr0.
    { destruct (decide (r = 0)) as [->|]; [|lia]. pose proof (needed_zero m Hbs HL). lia. }
    split; [lia|]. intros s' Hs'. split; [|intros; apply Hfits; lia]. intros Hf. destruct (Z.le_gt_cases s' (r - 1)); [done|].
    pose proof (needed_mono m (leaf_ids m) r s' Hbs HL ltac:(lia)). unfold fits in Hf. fold top in Hf. lia.
  - intros s' Hs'. destruct (Z.le_gt_cases s' (top * _block_size m * k + 1)); [apply Hfits; unfold space in *; lia|]. unfold fits. fold top.
    assert (blocks_needed m (leaf_ids m) (top * _block_size m * k + 1) ≤ top) as Hf by (apply (Hfits (top * _block_size m * k + 1)); unfold space in *; lia).
    rewrite (needed_plateau m s' k top); [done|done|done| |done|lia]. intros c Hc. split; [by apply HL|by apply Hk].
Qed.
End Capacity.

(** ** A first request on an empty pool *)
Section FirstRequest.
Import JengaStep.
Context `{Digest} {B : Backend}.
Implicit Types (m : t) (p : JengaBlockPool.t) (infos : list (string * KVLeafInfo)).

(** The huge blocks [k] pages of every cache take when nothing is free in part *)
Definition huge_demand infos (k : Z) : Z := zsum (map (λ '(_, leaf), ceildiv k (ratio leaf)) infos).

Lemma ratio_info infos c leaf : NoDup infos.*1 → (c, leaf) ∈ infos → JengaAbs.caches_of (ratios_of infos) !! c = Some (ratio leaf).
Proof.
  intros Hnd Hc. apply elem_of_list_to_map_1.
  - unfold ratios_of. rewrite <- list_fmap_compose. erewrite list_fmap_ext; [exact Hnd|by intros ? [] _].
  - unfold ratios_of. apply list_elem_of_fmap. by exists (c, leaf).
Qed.

(** A new pool: nothing in part, every huge block but the null one parked *)
Lemma new_pool infos n p : JengaBlockPool.init n (ratios_of infos) = Ok p →
  2 ≤ n ∧ parked_blocks p = n - 1 ∧ len (JengaBlockPool.huge_blocks p) = n - 1 ∧
  ∀ c k, JengaAbs.caches_of (ratios_of infos) !! c = Some k → 0 < k ∧ spare_pages p c = 0.
Proof.
  intros E. destruct (JengaAbs.pool_init_run _ _ _ E) as (Hn & HK & [HA _]). split; [done|]. split; [|split].
  - rewrite (parked_abs _ _ _ _ HA). apply (len_zrange 1 n). lia.
  - rewrite (JengaAbs.ab_list _ _ _ _ HA). apply (len_zrange 1 n). lia.
  - intros c k Hk. split; [by eapply HK|]. by rewrite (spare_abs _ _ _ _ _ _ HA Hk).
Qed.

Lemma need_all k j : 0 < k → 0 ≤ j → need k 0 j = ceildiv j k.
Proof. intros Hk Hj. unfold need. by rewrite Z.sub_0_r, Z.max_r. Qed.

Lemma zsum_fmap {X Y} (f : Y → Z) (g : X → Y) l : zsum (map f (g <$> l)) = zsum (map (λ x, f (g x)) l).
Proof. induction l as [|x l IH]; [done|]. simpl. by rewrite <- IH. Qed.
Lemma zsum_map_le {X} (f g : X → Z) l : (∀ x, x ∈ l → f x ≤ g x) → zsum (map f l) ≤ zsum (map g l).
Proof.
  induction l as [|x l IH]; intros Hle; [done|]. simpl. pose proof (Hle x (list_elem_of_here _ _)).
  assert (zsum (map f l) ≤ zsum (map g l)); [apply IH; intros; apply Hle; by right|lia].
Qed.

Lemma first_pool infos n bs reps algo seed limit draft per_step m0 :
  init infos n bs false reps algo seed limit draft per_step = Ok m0 → 1 ≤ reps →
  ∃ p, pools m0 !! 0%nat = Some p ∧ len (JengaBlockPool.huge_blocks p) = n - 1.
Proof.
  intros E Hreps. unfold init in E. fold (ratios_of infos) in E. destruct (new_pools _ n _) as [ps|?] eqn:Ep; [|done].
  destruct (new_pools_run _ _ _ _ Ep) as [Hl Hps]. injection E as <-. destruct (lookup_lt_is_Some_2 ps 0) as [p Hp]; [lia|].
  exists p. split; [done|]. apply (new_pool infos). by apply Hps, (list_elem_of_lookup_2 _ _ _ Hp).
Qed.

(** What the manager and its rows are once the request is claimed *)
Lemma claimed_run infos n bs reps algo seed limit draft per_step m0 rid i :
  init infos n bs false reps algo seed limit draft per_step = Ok m0 → 1 ≤ reps → 0 < bs → NoDup infos.*1 →
  (∀ c leaf, (c, leaf) ∈ infos → group_ok (info_group_id leaf)) → 0 ≤ i < reps →
  let K := JengaAbs.caches_of (ratios_of infos) in
  ∃ m p, claim rid i m0 = (Ok tt, m) ∧ MInv n K m ∧ _req_to_replica m !! rid = Some i ∧ _enable_prefix_caching m = false ∧
    pools m !! Z.to_nat i = Some p ∧ JengaBlockPool.init n (ratios_of infos) = Ok p ∧ leaf_ids m = infos.*1 ∧ _block_size m = bs ∧
    (∀ c, slots m (_max_num_input_tokens m) c = slots m0 limit c) ∧ ∀ c, c ∈ infos.*1 → rw m rid c = [].
Proof.
  intros E Hreps Hbs Hnd Hok Hi K. destruct (jenga_init_run _ _ _ _ _ _ _ _ _ _ _ E Hreps Hbs Hnd Hok) as (Hn & HK & HI & Hlp & Hr0 & Hids & Hb & Hca).
  pose proof (jenga_claim_run n K HK Hn m0 rid i HI ltac:(by rewrite Hlp)) as Hc. rewrite Hr0, lookup_empty in Hc.
  destruct Hc as (m & Em & HIm & Hr & Hp & F & Hrows). rewrite Hids in Hrows.
  unfold init in E. fold (ratios_of infos) in E. destruct (new_pools _ n _) as [ps|?] eqn:Ep; [|done]. destruct (new_pools_run _ _ _ _ Ep) as [Hl Hps].
  injection E as E. assert (pools m0 = ps) as Eps by by subst m0. assert (_max_num_input_tokens m0 = limit) as El by by subst m0. clear E.
  destruct (lookup_lt_is_Some_2 ps (Z.to_nat i)) as [p Hpi]; [lia|]. exists m, p.
  split; [done|]. split; [done|]. split; [done|].
  split; [by rewrite (frame_eq _enable_prefix_caching (registered m0 rid i) m F ltac:(done))|].
  split; [by rewrite Hp, Eps|]. split; [by apply Hps, (list_elem_of_lookup_2 _ _ _ Hpi)|].
  split; [by rewrite (frame_eq leaf_ids (registered m0 rid i) m F ltac:(done))|].
  split; [by rewrite (frame_eq _block_size (registered m0 rid i) m F ltac:(done))|]. split; [|done].
  intros c. unfold slots. rewrite (frame_eq _max_num_input_tokens (registered m0 rid i) m F ltac:(done)),
    (frame_eq _num_draft_tokens (registered m0 rid i) m F ltac:(done)), (frame_eq _num_draft_tokens_per_step (registered m0 rid i) m F ltac:(done)).
  by rewrite <- El.
Qed.

(** Its allocation succeeds exactly when the pool has the huge blocks for a page of every
    cache for every block of the request. *)
Lemma first_alloc_run infos n bs reps algo seed limit draft per_step m0 i (x : Ctx.t B) :
  init infos n bs false reps algo seed limit draft per_step = Ok m0 → 1 ≤ reps → 0 < bs → NoDup infos.*1 →
  (∀ c leaf, (c, leaf) ∈ infos → group_ok (info_group_id leaf)) → 0 ≤ i < reps → 0 ≤ slots m0 limit (Ctx.base x) →
  ∃ r w, alloc (mk_world (claim (TextContext.request_id (Ctx.base x)) i m0).2 x) = (r, w) ∧
    (r = Ok tt ∨ r = Raise InsufficientBlocksError) ∧
    (r = Ok tt ↔ huge_demand infos (ceildiv (slots m0 limit (Ctx.base x)) bs) ≤ n - 1).
Proof.
  intros E Hreps Hbs Hnd Hok Hi Hs. set (rid := TextContext.request_id (Ctx.base x)). set (s := slots m0 limit (Ctx.base x)) in *.
  destruct (claimed_run _ _ _ _ _ _ _ _ _ _ rid i E Hreps Hbs Hnd Hok Hi) as (m & p & Em & HI & Hr & Hca & Hp & Hpi & Hids & Hb & Hsl & Hrows).
  destruct (new_pool _ _ _ Hpi) as (Hn & Hpark & _ & Hspare). rewrite Em. cbn [snd].
  assert (total_need (JengaAbs.caches_of (ratios_of infos)) p (demand_of m x) = huge_demand infos (ceildiv s bs)) as Hneed.
  { assert (0 ≤ ceildiv s bs) as Hk0 by by apply ceildiv_nonneg. unfold total_need, demand_of, huge_demand, pages_wanted. rewrite Hids, Hb, Hsl. fold rid s.
    rewrite !zsum_fmap. f_equal. apply map_ext_in. intros [c leaf] Hc%list_elem_of_In. simpl.
    pose proof (ratio_info infos c leaf Hnd Hc) as Hrat. destruct (Hspare c _ Hrat) as [Hpos ->].
    rewrite Hrows by (apply list_elem_of_fmap; by exists (c, leaf)). change (len []) with 0.
    rewrite Z.sub_0_r, Z.max_l by lia. unfold ratio_of. rewrite Hrat. by apply need_all. }
  destruct (jenga_init_run _ _ _ _ _ _ _ _ _ _ _ E Hreps Hbs Hnd Hok) as (_ & HK & _).
  destruct (jenga_alloc_run n _ HK Hn m x i HI Hr) as [(e & _ & ?)|(r & m1 & x1 & m' & x' & Ea & HL & _ & _ & _ & Hres)]; [by rewrite Hca| |].
  - congruence.
  - destruct HL as [(-> & -> & _)|(_ & Hca' & _)]; [|congruence]. exists r, (mk_world m' x'). split; [exact Ea|].
    destruct Hres as [(-> & (p' & Hp' & Hlt) & _)|(-> & _ & p' & Hp' & Hle)]; assert (p' = p) as -> by congruence; rewrite Hneed, Hpark in *.
    + split; [by right|]. split; [done|lia].
    + split; [by left|]. done.
Qed.

(** What the estimate counts for a cache, against what an allocation asks for it *)
Lemma estimate_info infos n bs reps algo seed limit draft per_step m0 c leaf s :
  init infos n bs false reps algo seed limit draft per_step = Ok m0 → NoDup infos.*1 → (c, leaf) ∈ infos →
  leaf_pages m0 s c = if KVCacheGroupId.is_sliding_window (info_group_id leaf)
    then Z.min (ceildiv s bs) (ceildiv (KVCacheGroupId.window_size (info_group_id leaf)) bs) else ceildiv s bs.
Proof.
  intros E Hnd Hc. unfold init in E. destruct (new_pools _ n _) as [ps|?]; [|done]. injection E as <-. unfold leaf_pages. simpl.
  set (leaves := (λ '(leaf_id, leaf), (leaf_id, kv_leaf (info_group_id leaf) ∅)) <$> infos).
  assert (list_to_map (M := gmap string KVLeaf) leaves !! c = Some (kv_leaf (info_group_id leaf) ∅)) as ->; [|done].
  apply elem_of_list_to_map_1.
  - unfold leaves. rewrite <- list_fmap_compose. erewrite list_fmap_ext; [exact Hnd|by intros ? [] _].
  - unfold leaves. apply list_elem_of_fmap. by exists (c, leaf).
Qed.

Lemma needed_info infos n bs reps algo seed limit draft per_step m0 s :
  init infos n bs false reps algo seed limit draft per_step = Ok m0 → 1 ≤ reps → 0 < bs → NoDup infos.*1 →
  (∀ c leaf, (c, leaf) ∈ infos → group_ok (info_group_id leaf)) → 0 ≤ s →
  let K := JengaAbs.caches_of (ratios_of infos) in
  blocks_needed K m0 (leaf_ids m0) s ≤ huge_demand infos (ceildiv s bs) ∧
  ((∀ c leaf, (c, leaf) ∈ infos → KVCacheGroupId.is_sliding_window (info_group_id leaf) = true →
      ceildiv s bs ≤ ceildiv (KVCacheGroupId.window_size (info_group_id leaf)) bs) →
   blocks_needed K m0 (leaf_ids m0) s = huge_demand infos (ceildiv s bs)).
Proof.
  intros E Hreps Hbs Hnd Hok Hs K. destruct (jenga_init_run _ _ _ _ _ _ _ _ _ _ _ E Hreps Hbs Hnd Hok) as (_ & HK & _ & _ & _ & Hids & _).
  assert (0 ≤ ceildiv s bs) as Hk0 by by apply ceildiv_nonneg. unfold blocks_needed, huge_demand. rewrite Hids, zsum_fmap.
  assert (∀ c leaf, (c, leaf) ∈ infos → 0 < ratio leaf ∧ ratio_of K c = ratio leaf) as Hrat.
  { intros c leaf Hc. pose proof (ratio_info infos c leaf Hnd Hc) as Hr. split; [by eapply HK|]. unfold ratio_of, K. by rewrite Hr. }
  split.
  - apply zsum_map_le. intros [c leaf] Hc. simpl. destruct (Hrat c leaf Hc) as [Hpos ->].
    rewrite <- (need_all (ratio leaf) (ceildiv s bs)) by done. apply need_mono; [done|].
    rewrite (estimate_info _ _ _ _ _ _ _ _ _ _ _ _ s E Hnd Hc). case_match; lia.
  - intros Hw. f_equal. apply map_ext_in. intros [c leaf] Hc%list_elem_of_In. simpl. destruct (Hrat c leaf Hc) as [Hpos ->].
    rewrite <- (need_all (ratio leaf) (ceildiv s bs)) by done. f_equal.
    rewrite (estimate_info _ _ _ _ _ _ _ _ _ _ _ _ s E Hnd Hc). destruct (KVCacheGroupId.is_sliding_window _) eqn:Ew; [|done].
    pose proof (Hw c leaf Hc Ew). lia.
Qed.

(** With a cache of full attention some length does not fit. *)
Lemma full_leaf_bounded infos n bs reps algo seed limit draft per_step m0 c leaf :
  init infos n bs false reps algo seed limit draft per_step = Ok m0 → 1 ≤ reps → 0 < bs → NoDup infos.*1 →
  (∀ c leaf, (c, leaf) ∈ infos → group_ok (info_group_id leaf)) →
  (c, leaf) ∈ infos → KVCacheGroupId.is_sliding_window (info_group_id leaf) = false →
  let K := JengaAbs.caches_of (ratios_of infos) in ∃ s, 0 ≤ s ∧ n - 1 < blocks_needed K m0 (leaf_ids m0) s.
Proof.
  intros E Hreps Hbs Hnd Hok Hc Hw K. destruct (jenga_init_run _ _ _ _ _ _ _ _ _ _ _ E Hreps Hbs Hnd Hok) as (Hn & HK & HI & _ & _ & Hids & _).
  pose proof (ratio_info infos c leaf Hnd Hc) as Hr. pose proof (HK c _ Hr) as Hpos. exists (n * ratio leaf * bs). split; [nia|].
  assert (ceildiv (n * ratio leaf * bs) bs = n * ratio leaf) as Ep by (pose proof (ceildiv_spec (n * ratio leaf * bs) bs Hbs); nia).
  assert (need (ratio_of K c) 0 (leaf_pages m0 (n * ratio leaf * bs) c) = n) as En.
  { rewrite (estimate_info _ _ _ _ _ _ _ _ _ _ _ _ _ E Hnd Hc), Hw, Ep. unfold ratio_of, K. rewrite Hr. simpl.
    rewrite need_all by nia. pose proof (ceildiv_spec (n * ratio leaf) (ratio leaf) Hpos). nia. }
  assert (need (ratio_of K c) 0 (leaf_pages m0 (n * ratio leaf * bs) c) ≤ blocks_needed K m0 (leaf_ids m0) (n * ratio leaf * bs)); [|lia].
  apply (needed_part K HK); [apply (st_caches _ _ (mi_static _ _ _ HI))|]. rewrite Hids. apply list_elem_of_fmap. by exists (c, leaf).
Qed.
End FirstRequest.

Section Statements.
Context `{Digest} {B : Backend}.

(** C8: The length the manager promises bounds what its pool can serve, from above. Make
    a manager without prefix caching (an empty pool has no prefix to give): any distinct
    caches, any groups the constructor of a group id builds, any sizes. Claim a request
    and allocate for it; its next forward needs [s] slots. The allocation returns or
    raises [InsufficientBlocksError], and it returns exactly when the pool's huge blocks
    are enough for a page of every cache for every block of [s] slots. When it returns,
    [s] is within the promised length. Conversely a promised length is served provided no
    sliding window is shorter, in blocks, than the request: the promise counts a window's
    blocks at most, an allocation every block up to [s], so for a longer request it can
    be wrong, and [promised_length_is_rejected] is such a request. No bound at all is
    promised only when every cache is a sliding window. *)
Theorem promised_length_bounds_the_empty_pool infos n bs reps algo seed limit draft per_step (m0 : t) i (x : Ctx.t B) :
  init infos n bs false reps algo seed limit draft per_step = Ok m0 → 1 ≤ reps → 0 < bs → infos ≠ [] → NoDup infos.*1 →
  (∀ c leaf, (c, leaf) ∈ infos → group_ok (info_group_id leaf)) → 0 ≤ i < reps →
  let s := slots m0 limit (Ctx.base x) in 0 ≤ s →
  ∃ o r w, effective_max_seq_length m0 = (Ok o, m0) ∧
    alloc (mk_world (claim (TextContext.request_id (Ctx.base x)) i m0).2 x) = (r, w) ∧
    (r = Ok tt ∨ r = Raise InsufficientBlocksError) ∧
    (r = Ok tt ↔ huge_demand infos (ceildiv s bs) ≤ n - 1) ∧
    let promised := match o with Some l => s ≤ l | None => True end in
    (r = Ok tt → promised) ∧
    (promised → (∀ c leaf, (c, leaf) ∈ infos → KVCacheGroupId.is_sliding_window (info_group_id leaf) = true →
       ceildiv s bs ≤ ceildiv (KVCacheGroupId.window_size (info_group_id leaf)) bs) → r = Ok tt) ∧
    (o = None → ∀ c leaf, (c, leaf) ∈ infos → KVCacheGroupId.is_sliding_window (info_group_id leaf) = true).
Proof.
  intros E Hreps Hbs Hne Hnd Hok Hi s Hs. destruct (jenga_init_run _ _ _ _ _ _ _ _ _ _ _ E Hreps Hbs Hnd Hok) as (_ & HK & HI & Hlp & _ & Hids & _).
  destruct (first_alloc_run _ _ _ _ _ _ _ _ _ _ i x E Hreps Hbs Hnd Hok Hi Hs) as (r & w & Ea & Hr & Hfit). fold s in Hfit.
  destruct (first_pool _ _ _ _ _ _ _ _ _ _ E Hreps) as (p & Hp & Hlen).
  destruct (mi_pools _ _ _ HI 0 p ltac:(lia) Hp) as [a HP].
  destruct (effective_run n _ HK m0 p a _ (mi_static _ _ _ HI) Hp HP) as (o & Eo & Ho); [rewrite Hids; by destruct infos|].
  destruct (needed_info _ _ _ _ _ _ _ _ _ _ s E Hreps Hbs Hnd Hok Hs) as [Hle Heq]. unfold fits in Ho. rewrite Hlen in Ho.
  exists o, r, w. split; [done|]. split; [done|]. split; [done|]. split; [done|]. cbv zeta. split; [|split].
  - intros Hok'%Hfit. destruct o as [l|]; [|done]. apply Ho; [done|lia].
  - intros Hpr Hw%Heq. apply Hfit. rewrite <- Hw. destruct o as [l|]; [by apply Ho|by apply Ho].
  - intros -> c leaf Hc. apply not_false_iff_true. intros Hw.
    destruct (full_leaf_bounded _ _ _ _ _ _ _ _ _ _ c leaf E Hreps Hbs Hnd Hok Hc Hw) as (s' & Hs' & Hlt). specialize (Ho s' Hs'). lia.
Qed.
End Statements.

(** ** Two small managers *)
#[local] Existing Instance HashProperties.toy_digest.
#[local] Existing Instance recording_backend.

Definition window (w : Z) : KVCacheGroupId.t := KVCacheGroupId.mk KVCacheGroupId.SlidingWindow w.
Definition no_manager : t := mk 0 false BlockHash.ahash64 None None 0 0 Metrics.zero [] [] ∅ [] ∅ ∅ ∅.
Definition manager (leaf_infos : list (string * KVLeafInfo)) (n bs : Z) (caching : bool) : t :=
  match init leaf_infos n bs caching 1 BlockHash.ahash64 None None 0 0 with Ok m => m | Raise _ => no_manager end.

(** A full-attention cache of one page to the huge block and a window cache of two *)
Definition two_leaves : list (string * KVLeafInfo) := [("full", kv_leaf_info 1 KVCacheGroupId.full); ("window", kv_leaf_info 2 (window 3))]%string.
Definition two_caches : t := manager two_leaves 9 2 true.

Lemma two_caches_init : init two_leaves 9 2 true 1 BlockHash.ahash64 None None 0 0 = Ok two_caches.
Proof. vm_compute. reflexivity. Qed.
Lemma two_groups_ok c leaf : (c, leaf) ∈ two_leaves → group_ok (info_group_id leaf).
Proof. unfold two_leaves. rewrite !elem_of_cons, elem_of_nil. by intros [[= _ ->]|[[= _ ->]|[]]]. Qed.
Lemma two_leaves_nodup : NoDup two_leaves.*1.
Proof. apply (bool_decide_unpack _). vm_compute. exact I. Qed.
Lemma two_caches_good : (∀ c k, JengaAbs.caches_of (ratios_of two_leaves) !! c = Some k → 0 < k) ∧ MInv 9 (JengaAbs.caches_of (ratios_of two_leaves)) two_caches.
Proof. destruct (jenga_init_run _ _ _ _ _ _ _ _ _ _ _ two_caches_init) as (_ & HK & HI & _); [lia|lia|exact two_leaves_nodup|exact two_groups_ok|done]. Qed.

(** A single window cache of one huge block: a window of four tokens, pages of four *)
Definition one_window : t := manager [("window"%string, kv_leaf_info 1 (window 4))] 2 4 false.
Definition six_tokens : Ctx.t recording_backend :=
  Ctx.Text (TextContext.mk recording_backend 0 16
    (TokenBuffer.mk [1; 2; 3; 4; 5; 6] (Range.mk 0 6) 0 (Range.mk 6 6) 6 6 false)
    (EOSTracker.init {[ 7 ]} [] []) (Some 100) 0 None None
    GrammarEnforcement.default_state None ACTIVE ∅ true false None None 0).

(** Without prefix caching the same caches promise fourteen tokens, and serve six. *)
Definition uncached : t := manager two_leaves 9 2 false.
Lemma promised_length_bounds_the_empty_pool_witness :
  ∃ o r w, effective_max_seq_length uncached = (Ok o, uncached) ∧ alloc (mk_world (claim 0 0 uncached).2 six_tokens) = (r, w) ∧
    o = Some 14 ∧ r = Ok tt ∧ huge_demand two_leaves 3 ≤ 8.
Proof.
  destruct (promised_length_bounds_the_empty_pool two_leaves 9 2 1 BlockHash.ahash64 None None 0 0 uncached 0 six_tokens)
    as (o & r & w & E & Ea & _ & Hr & _).
  - vm_compute. reflexivity.
  - lia.
  - lia.
  - discriminate.
  - exact two_leaves_nodup.
  - exact two_groups_ok.
  - lia.
  - vm_compute. discriminate.
  - change (TextContext.request_id (Ctx.base six_tokens)) with 0 in Ea. exists o, r, w. split; [exact E|]. split; [exact Ea|].
    assert ((effective_max_seq_length uncached).1 = Ok (Some 14)) as Eo by (vm_compute; reflexivity). rewrite E in Eo. injection Eo as ->.
    assert ((alloc (mk_world (claim 0 0 uncached).2 six_tokens)).1 = Ok tt) as Er by (vm_compute; reflexivity). rewrite Ea in Er. cbn [fst] in Er.
    split; [reflexivity|]. split; [exact Er|]. by apply Hr in Er.
Defined.

(** The manager promises lengths it does not serve. Its estimate counts one page for
    a window of one page, an allocation a page for every block of the request: the
    manager of one window cache and one huge block reports no bound on the length,
    and rejects a first request of six tokens on the empty pool. *)
Theorem promised_length_is_rejected :
  (effective_max_seq_length one_window).1 = Ok None ∧
  (alloc (mk_world (claim 0 0 one_window).2 six_tokens)).1 = Raise InsufficientBlocksError.
Proof. split; vm_compute; reflexivity. Qed.

End JengaCapacity.
