(* ===== verification/JengaManagerProperties.v ===== *)
(** * Properties of the Jenga block manager

    [JengaTrace]: a whole run of the manager, as the calls the scheduler makes. The
    theorems: over any run the pools' books balance and no two slots share what a
    request still writes; a prefix hit is the longest every group can serve; an
    allocation gives every cache its pages or draws none; a step publishes what was
    computed. *)

From S2P Require Import Prelude Tokens Grammar FreeQueue Context Hashing Connector Manager ManagerFacts Jenga JengaFacts JengaProperties JengaManager JengaHits JengaManagerFacts JengaCapacity ManagerProperties.

(** ** Runs of the manager *)
Module JengaTrace.
Import JengaStep JengaBlockManager JengaOwnership.

Section Trace.
Context `{Digest} {B : Backend} (n : Z) (K : gmap string Z).
Context (HK : ∀ c k, K !! c = Some k → 0 < k) (Hn : 2 ≤ n).
Implicit Types m : t.

Inductive call :=
| Claim (rid i : Z)
| Alloc (x : Ctx.t B)
| Step (x : Ctx.t B)
| Release (rid : Z)
| Reset
| ResetMetrics.

Definition in_world {A} (f : M world A) (x : Ctx.t B) : M t A := λ m, let '(r, w) := f (mk_world m x) in (r, mgr w).
Definition exec (e : call) : M t unit :=
  match e with
  | Claim rid i => claim rid i
  | Alloc x => in_world alloc x
  | Step x => in_world step x
  | Release rid => release rid
  | Reset => reset_prefix_cache
  | ResetMetrics => reset_metrics
  end.

(** A run goes on after a call that raised. *)
Definition replay (es : list call) m : t := foldl (λ m e, (exec e m).2) m es.

(** What the caller guarantees: replicas exist; a request that starts over has a token
    to process past every hashable block; one given to [step] has processed no more
    than its pages hold and no less than it committed. *)
Definition admitted (e : call) m : Prop :=
  match e with
  | Claim _ i => 0 ≤ i < len (pools m)
  | Alloc x => let rid := TextContext.request_id (Ctx.base x) in
      TokenBuffer.processed_length (Ctx.tokens x) = 0 → _enable_prefix_caching m = true → ∀ hs, _req_to_hashes m !! rid = Some hs → TokensOk m x hs
  | Step x => let rid := TextContext.request_id (Ctx.base x) in
      ∀ k, _req_to_committed_idx m !! rid = Some (k * _block_size m) → StepOk m x k
  | _ => True
  end.
Fixpoint admissible (es : list call) m : Prop :=
  match es with [] => True | e :: es => admitted e m ∧ admissible es (exec e m).2 end.

#[local] Abbreviation Good := (MInv n K).

Lemma jenga_unclaimed_world {A} (f : world → Z → M world A) x m : _req_to_replica m !! TextContext.request_id (Ctx.base x) = None →
  (let! w := get in let! i := on_mgr (_replica_of (request_id w)) in f w i) (mk_world m x) = (Raise ValueError, mk_world m x).
Proof. intros Hr. unfold bind, get, request_id, on_mgr, zoom. simpl. by rewrite jenga_unclaimed_run. Qed.

Lemma good_alloc m x : Good m → admitted (Alloc x) m → Good (in_world alloc x m).2.
Proof.
  intros HI Ha. unfold in_world. destruct (_req_to_replica m !! TextContext.request_id (Ctx.base x)) as [i|] eqn:Hr.
  - destruct (jenga_alloc_run n K HK Hn m x i HI Hr Ha) as [(e & E & _)|(r & m1 & x1 & m' & x' & E & _ & _ & _ & HI' & _)]; by rewrite E.
  - assert (alloc (mk_world m x) = (Raise ValueError, mk_world m x)) as E by by apply (jenga_unclaimed_world (λ w i, _)). by rewrite E.
Qed.
Lemma jenga_good_step m x : Good m → admitted (Step x) m → Good (in_world step x m).2.
Proof.
  intros HI Ha. unfold in_world. destruct (_req_to_replica m !! TextContext.request_id (Ctx.base x)) as [i|] eqn:Hr.
  - destruct (rq_tail _ _ _ (mi_reqs _ _ _ HI _ i Hr)) as (k & Hk0 & Hk & _).
    destruct (jenga_step_run n K HK Hn m x i k HI Hr Hk Hk0 (Ha k Hk)) as [(e & _ & E)|(m' & E & HS)]; rewrite E; [done|apply HS].
  - assert (step (mk_world m x) = (Raise ValueError, mk_world m x)) as E by by apply (jenga_unclaimed_world (λ w i, _)). by rewrite E.
Qed.
Lemma jenga_good_exec e m : Good m → admitted e m → Good (exec e m).2.
Proof.
  intros HI Ha. destruct e as [rid i|x|x|rid| |]; simpl in *.
  - pose proof (jenga_claim_run n K HK Hn m rid i HI Ha) as Hc. destruct (_req_to_replica m !! rid); [by rewrite Hc|]. by destruct Hc as (m' & -> & ? & _).
  - by apply good_alloc.
  - by apply jenga_good_step.
  - pose proof (jenga_release_run n K HK Hn m rid HI) as Hc. destruct (_req_to_replica m !! rid); [|by rewrite Hc]. by destruct Hc as (m' & -> & ? & _).
  - by destruct (jenga_reset_run n K m HI) as (m' & -> & ? & _).
  - by apply minv_metrics.
Qed.
Lemma jenga_good_replay es m : Good m → admissible es m → Good (replay es m).
Proof. revert m. induction es as [|e es IH]; intros m HI; [done|]. intros [Ha Has]. by apply IH; [apply jenga_good_exec|]. Qed.

(** The slots of a page *)
Lemma held_rows m rid i : _req_to_replica m !! rid = Some i → ∃ X, held_of m i = pg (leaf_ids m) (rw m rid) ⊎ X ∧
  ∀ rid', rid' ≠ rid → _req_to_replica m !! rid' = Some i → ∃ Y, X = pg (leaf_ids m) (rw m rid') ⊎ Y.
Proof.
  intros Hr. exists (rest m rid i). split; [by apply held_of_split|]. intros rid' Hne Hr'. eexists. apply held_split. by rewrite lookup_delete_ne.
Qed.
End Trace.
End JengaTrace.

(** ** The theorems *)
Module JengaManagerProperties.
Import JengaStep JengaBlockManager JengaOwnership JengaTrace.

Section Statements.
Context `{Digest} {B : Backend}.
Implicit Types m : t.

(** C2: The manager never leaks a page, gives it back twice or lets two caches share
    memory. Start it with distinct caches, groups the constructor of a group id builds, at
    least one replica, a positive block size; make any admissible sequence of claim,
    allocate, step, release (twice or unclaimed, too), reset; calls that raise are caught.
    Admissible, conditions on the caller that the manager does not check: a claim names an
    existing replica; a request that starts over under prefix caching has a well-formed
    buffer of 64-bit tokens with one left past its hashable blocks, none hashed beyond
    these; one given to step has such a buffer, a token or placeholder left, as many blocks
    filled as it committed, and in every cache a page for each block filled (a step on
    pages never allocated is not covered). Then on every replica the reference count of
    every page but the null page is the number of slots for it in the replica's rows, and
    pages of two caches in any rows lie in different huge blocks. *)
Theorem jenga_books_balance leaf_infos n bs caching reps algo seed limit draft per_step m0 es i p :
  init leaf_infos n bs caching reps algo seed limit draft per_step = Ok m0 → 1 ≤ reps → 0 < bs → NoDup leaf_infos.*1 →
  (∀ c leaf, (c, leaf) ∈ leaf_infos → group_ok (info_group_id leaf)) → admissible es m0 →
  let m := replay es m0 in
  let ratios := JengaAbs.caches_of (ratios_of leaf_infos) in
  0 ≤ i → pools m !! Z.to_nat i = Some p →
  (∀ c r b, JengaBlockPool.block c r p = (Ok b, p) → r ≠ 0 → LittleKVCacheBlock.ref_cnt b = Z.of_nat (multiplicity (c, r) (held_of m i))) ∧
  (∀ c c' r r' k k', (c, r) ∈ held_of m i → (c', r') ∈ held_of m i → ratios !! c = Some k → ratios !! c' = Some k' → c ≠ c' → r / k ≠ r' / k').
Proof.
  intros E Hreps Hbs Hnd Hok Has m ratios Hi Hp. destruct (jenga_init_run _ _ _ _ _ _ _ _ _ _ _ E Hreps Hbs Hnd Hok) as (Hn & HK & HI & _).
  destruct (mi_pools _ _ _ (jenga_good_replay n _ HK Hn es m0 HI Has) i p Hi Hp) as [a HP]. fold m in HP. pose proof HP as [HA HIn]. split.
  - intros c r b Hb Hr. destruct (JengaPoolSpec.block_known n _ p a c r b HA Hb) as (k & Hk & [?|Hrange] & _ & ->); [done|].
    by apply (JengaAbs.iv_rc _ _ _ _ _ HIn c k r Hk).
  - intros c c' r r' k k' Ho Ho' Hk Hk' Hne. destruct (JengaPoolSpec.owned_page n _ p a _ c r HP Ho) as (k1 & Hk1 & _ & Ht).
    destruct (JengaPoolSpec.owned_page n _ p a _ c' r' HP Ho') as (k2 & Hk2 & _ & Ht'). assert (k1 = k) as -> by (unfold ratios in *; congruence).
    assert (k2 = k') as -> by (unfold ratios in *; congruence). intros Heq. rewrite Heq in Ht. congruence.
Qed.

(** C3: Nobody else can see a page a request still writes. In every state a run reaches,
    a page past the blocks a request committed is in one slot only, of that request,
    and no cache serves it under any hash. *)
Theorem jenga_unpublished_pages_are_private n K es m0 rid i k p c (j : nat) r :
  (∀ c k, K !! c = Some k → 0 < k) → 2 ≤ n → MInv n K m0 → admissible es m0 →
  let m := replay es m0 in
  _req_to_replica m !! rid = Some i → pools m !! Z.to_nat i = Some p → _req_to_committed_idx m !! rid = Some (k * _block_size m) →
  c ∈ leaf_ids m → k ≤ Z.of_nat j → rw m rid c !! j = Some r → r ≠ 0 →
  (∀ x, ¬ JengaPoolSpec.committed p c x r) ∧
  ∀ rid' (j' : nat), _req_to_replica m !! rid' = Some i → rw m rid' c !! j' = Some r → rid' = rid ∧ j' = j.
Proof.
  intros HK Hn HI0 Has m Hr Hp Hk Hc Hj Hrj Hr0. pose proof (jenga_good_replay n K HK Hn es m0 HI0 Has) as HI. fold m in HI.
  pose proof (mi_static _ _ _ HI) as HS. pose proof (st_block _ _ HS) as Hbs.
  destruct (rq_tail _ _ _ (mi_reqs _ _ _ HI rid i Hr)) as (k' & _ & Hk' & Ht). rewrite Hk in Hk'. injection Hk' as Hk'. assert (k' = k) as Ek by nia. subst k'.
  destruct (Ht p Hp c Hc) as [_ Htail]. destruct (Htail j r Hj Hrj) as [[? _]|[_ [Hz Hm]]]; [done|].
  assert (0 ≤ i) as Hi by apply (rq_replica _ _ _ (mi_reqs _ _ _ HI rid i Hr)).
  destruct (mi_pools _ _ _ HI i p Hi Hp) as [a HP]. split.
  - intros x Hx. destruct (JengaPoolSpec.committed_page n K p a _ c x r HP Hx) as (kc & Hkc & Hrr & Hh & _).
    rewrite (hash_abs n K p a c kc) in Hz; [congruence|apply HP|done|by right].
  - destruct (held_rows m rid i Hr) as (X & HX & Hothers). intros rid' j' Hr' Hj'. assert ((c, r) ∈ pg (leaf_ids m) (rw m rid)) as Hmine.
    { apply pg_elem. split; [done|]. split; [done|]. by eapply list_elem_of_lookup_2. }
    apply (proj1 (elem_of_multiplicity _ _)) in Hmine. destruct (decide (rid' = rid)) as [->|Hne].
    + split; [done|]. rewrite HX in Hm. eapply (private_once p (leaf_ids m) (rw m rid) X c); [apply HS|done|by split|done|done|done].
    + destruct (Hothers rid' Hne Hr') as [Y HY]. assert ((c, r) ∈ pg (leaf_ids m) (rw m rid')) as Hhis.
      { apply pg_elem. split; [done|]. split; [done|]. by eapply list_elem_of_lookup_2. }
      apply (proj1 (elem_of_multiplicity _ _)) in Hhis. rewrite HX, HY, !multiplicity_disj_union in Hm. lia.
Qed.

(** C5: A prefix hit is the longest every attention group can serve. Looking a new
    request up either raises while hashing, and then nothing changed, or it hashes
    every hashable block and adopts [h] blocks: every group serves the [h] blocks (a
    full group has all of them cached for all its leaves, a window group those its
    window still reads), and no longer prefix is served by all. A hit drops the
    uncommitted pages, leaves every row with exactly the committed and the adopted
    blocks, and moves the tokens past them; a miss leaves rows and tokens alone. *)
Theorem jenga_prefix_hit_is_longest n K m x i (hs : list bytes) k p :
  let rid := TextContext.request_id (Ctx.base x) in
  (∀ c k, K !! c = Some k → 0 < k) → 2 ≤ n → MInv n K m → _req_to_replica m !! rid = Some i → pools m !! Z.to_nat i = Some p →
  _enable_prefix_caching m = true → TokensOk m x hs → TokenBuffer.processed_length (Ctx.tokens x) = 0 →
  _req_to_hashes m !! rid = Some hs → _req_to_committed_idx m !! rid = Some (k * _block_size m) → 0 ≤ k →
  (∃ e, _reuse_blocks_from_prefix_cache i (mk_world m x) = (Raise e, mk_world m x)) ∨
  ∃ m' x' h hs', _reuse_blocks_from_prefix_cache i (mk_world m x) = (Ok (h * _block_size m), mk_world m' x') ∧ MInv n K m' ∧
    _req_to_hashes m' !! rid = Some hs' ∧ hs `prefix_of` hs' ∧ 0 ≤ h ≤ len (slice_from hs' k) ∧
    (∀ g, g ∈ _groups m → JengaHits.serves p (slice_from hs' k) g h) ∧
    (∀ h', 0 ≤ h' ≤ len (slice_from hs' k) → (∀ g, g ∈ _groups m → JengaHits.serves p (slice_from hs' k) g h') → h' ≤ h) ∧
    _req_to_committed_idx m' !! rid = Some ((k + h) * _block_size m) ∧
    (∀ c, c ∈ leaf_ids m → if decide (h = 0) then rw m' rid c = rw m rid c else take (Z.to_nat k) (rw m rid c) `prefix_of` rw m' rid c ∧ len (rw m' rid c) = k + h) ∧
    Ctx.tokens x' = (if decide (h = 0) then Ctx.tokens x else Ownership.start_at ((k + h) * _block_size m) (Ctx.tokens x)) ∧
    (∀ rid' c, rid' ≠ rid → rw m' rid' c = rw m rid' c).
Proof.
  intros rid HK Hn HI Hr Hp Hca Htk H0 Hh Hk Hk0. destruct (jenga_reuse_run n K HK Hn m x i hs k HI Hr Hca Htk H0 Hh Hk Hk0) as [?|(m' & x' & h & E & [HI' Hch Hk' Hrows Htok _] & _)]; [by left|right].
  destruct Hch as (p0 & p' & Hp0 & HC & hs' & Hh' & Hpre & [Hrange Hserves Hmost]). assert (p0 = p) as -> by congruence.
  exists m', x', h, hs'. split_and!; try done; try apply Hrange.
  - intros c Hc. specialize (Hrows c Hc). case_decide; [done|]. destruct Hrows as (l & El & Hl). fold rid in El. rewrite El. split; [by exists l|].
    destruct (rq_tail _ _ _ (mi_reqs _ _ _ HI rid i Hr)) as (k' & _ & Hk'' & Ht). rewrite Hk in Hk''. injection Hk'' as Hk''.
    pose proof (st_block _ _ (mi_static _ _ _ HI)) as Hbs. assert (k' = k) as Ek by nia. subst k'. destruct (Ht p Hp c Hc) as [Hle _].
    rewrite len_app, Hl. fold rid in Hle. unfold len in *. rewrite length_take. lia.
  - intros rid' c Hne. unfold rw. by rewrite (ch_rows _ _ _ _ _ _ HC).
Qed.

(** C6: An allocation gives every cache its pages or draws none. It raises while hashing
    and changes nothing; or, from the state [m1] it reaches after the prefix lookup, it
    succeeds exactly when the huge blocks its caches' shortfalls take fit in the parked
    ones: then every cache's row grew at the end to the pages of the next forward's
    slots (or kept a longer row); otherwise it raises [InsufficientBlocksError] and no
    row and no pool changed since [m1]. Other requests' rows never change. *)
Theorem jenga_alloc_all_or_nothing n K m x i :
  let rid := TextContext.request_id (Ctx.base x) in
  (∀ c k, K !! c = Some k → 0 < k) → 2 ≤ n → MInv n K m → _req_to_replica m !! rid = Some i → admitted (Alloc x) m →
  (∃ e, alloc (mk_world m x) = (Raise e, mk_world m x)) ∨
  ∃ r m1 x1 m' x' p, alloc (mk_world m x) = (r, mk_world m' x') ∧ Looked n K m x m1 x1 i ∧ pools m1 !! Z.to_nat i = Some p ∧ MInv n K m' ∧
    (∀ rid' c, rid' ≠ rid → rw m' rid' c = rw m rid' c) ∧
    match r with
    | Ok _ => total_need K p (demand_of m1 x1) ≤ parked_blocks p ∧
        ∀ c, c ∈ leaf_ids m → rw m1 rid c `prefix_of` rw m' rid c ∧ len (rw m' rid c) = Z.max (len (rw m1 rid c)) (pages_wanted m1 x1)
    | Raise e => e = InsufficientBlocksError ∧ parked_blocks p < total_need K p (demand_of m1 x1) ∧ pools m' = pools m1 ∧ ∀ c, rw m' rid c = rw m1 rid c
    end.
Proof.
  intros rid HK Hn HI Hr Ha. destruct (jenga_alloc_run n K HK Hn m x i HI Hr Ha) as [(e & ? & _)|(r & m1 & x1 & m' & x' & E & HL & Hid & _ & HI' & Hres)]; [left; by exists e|right].
  fold rid in Hid. destruct (looked_same n K m x m1 x1 i HI HL) as (_ & Hc1 & Ho1). fold rid in Ho1.
  destruct Hres as [(-> & (p & Hp & Hlt) & mt & ->)|(-> & [Hlen Hpre Hcore Ho] & p & Hp & Hle)]; rewrite ?Hid in *.
  - exists (Raise InsufficientBlocksError), m1, x1, (set_metrics mt m1), x', p. split_and!; try done. intros rid' c Hne. unfold rw. change (row_opt (set_metrics mt m1) c rid') with (row_opt m1 c rid'). by rewrite Ho1.
  - exists (Ok tt), m1, x1, m', x', p. split_and!; try done; [intros rid' c Hne; unfold rw; by rewrite Ho, Ho1|].
    intros c Hc. split; [apply Hpre|]. apply Hlen. by rewrite (core_eq leaf_ids m m1 Hc1).
Qed.

(** C7: A step publishes what was computed and touches nothing beyond. It raises while
    hashing, and then nothing changed; or every block filled since the last step is,
    for every cache, in the prefix cache under the request's own hash for that position
    (unless its window has passed it and the slot is the null page), the committed
    length is the filled prefix, and every page from there on, and every other
    request's row, is as it was. *)
Theorem jenga_step_publishes n K m x i k :
  let rid := TextContext.request_id (Ctx.base x) in
  (∀ c k, K !! c = Some k → 0 < k) → 2 ≤ n → MInv n K m → _req_to_replica m !! rid = Some i →
  _req_to_committed_idx m !! rid = Some (k * _block_size m) → 0 ≤ k → StepOk m x k →
  (∃ e, _enable_prefix_caching m = true ∧ step (mk_world m x) = (Raise e, mk_world m x)) ∨
  ∃ m', step (mk_world m x) = (Ok tt, mk_world m' x) ∧ MInv n K m' ∧
    (∀ rid' c, rid' ≠ rid → rw m' rid' c = rw m rid' c) ∧
    (∀ c, c ∈ leaf_ids m → len (rw m' rid c) = len (rw m rid c) ∧ ∀ j : nat, filled m x ≤ Z.of_nat j → rw m' rid c !! j = rw m rid c !! j) ∧
    (_enable_prefix_caching m = true → _req_to_committed_idx m' !! rid = Some (filled m x * _block_size m) ∧
       ∃ p' hs', pools m' !! Z.to_nat i = Some p' ∧ _req_to_hashes m' !! rid = Some hs' ∧
       ∀ c (j : nat), c ∈ leaf_ids m → k ≤ Z.of_nat j < filled m x →
         ∃ r y, rw m' rid c !! j = Some r ∧ hs' !! j = Some y ∧ (r = 0 ∨ JengaPoolSpec.committed p' c y r)).
Proof.
  intros rid HK Hn HI Hr Hk Hk0 Hok. destruct (jenga_step_run n K HK Hn m x i k HI Hr Hk Hk0 Hok) as [?|(m' & E & [HI' Hcore Ho Hcm Hrows Hpub])]; [by left|right].
  exists m'. split; [done|]. split; [done|]. split; [intros rid' c Hne; unfold rw; by rewrite Ho|]. split; [done|]. intros Hca. split; [by apply Hcm|].
  destruct (Hpub Hca) as (p' & hs' & Hp' & Hh' & Hj). exists p', hs'. split; [done|]. split; [done|]. intros c j Hc Hjk. destruct (Hj c j Hc Hjk) as (r & y & Hrj & Hy & Hor).
  exists r, y. split; [done|]. split; [done|]. destruct (decide (r = 0)) as [|Hr0]; [by left|right]. destruct Hor as [?|Hry]; [done|].
  assert (_req_to_replica m' !! rid = Some i) as Hr' by (by rewrite (core_eq _req_to_replica m m' Hcore)).
  destruct (at_of n K m' rid i HI' Hr') as (q & a & HA & Hq & HP). assert (q = p') as -> by congruence.
  assert (c ∈ leaf_ids m') as Hc' by (by rewrite (core_eq leaf_ids m m' Hcore)).
  destruct (JengaAbs.iv_own _ _ _ _ _ (JengaAbs.po_inv _ _ _ _ _ HP) c r) as (kc & Hkc & Hrange).
  { apply gmultiset_elem_of_disj_union. left. apply pg_elem. split; [done|]. split; [done|]. by eapply list_elem_of_lookup_2. }
  rewrite (hash_abs n K p' a c kc) in Hry by (first [apply HP|done|by right]).
  apply (committed_abs n K p' a c kc); [apply HP|done|]. by apply (JengaAbs.iv_cons _ _ _ _ _ (JengaAbs.po_inv _ _ _ _ _ HP) c kc Hkc).
Qed.
End Statements.

(** *** Two requests with one prompt over a full-attention cache and a window cache *)
#[local] Existing Instance HashProperties.toy_digest.
#[local] Existing Instance recording_backend.
Import JengaCapacity.

Definition prompt : Z → Z → Ctx.t recording_backend := ManagerProperties.prompt.
Definition serving : list call := [Claim 0 0; Alloc (prompt 0 0); Step (prompt 0 4); Claim 1 0].
Definition rest_of_run : list call := [Alloc (prompt 1 0); Step (prompt 1 4); Release 0; Release 0; Reset; ResetMetrics].

Lemma prompt_tokens m rid (hs : list bytes) : _block_size m = 2 → len hs ≤ 2 → TokensOk m (prompt rid 0) hs.
Proof.
  intros Hbs Hl. destruct (ManagerProperties.prompt_good rid 0) as [Hwf H64]; [lia|]. split; [exact Hwf| | |].
  - intros y Hy. rewrite forallb_forall in H64. by apply H64, list_elem_of_In.
  - rewrite Hbs. change (Ownership.hashable (prompt rid 0)) with 4. lia.
  - vm_compute. reflexivity.
Qed.
Lemma step_ok m rid k0 : _block_size m = 2 → _req_to_committed_idx m !! rid = Some (k0 * 2) → k0 ≤ 2 → (∀ c, c ∈ leaf_ids m → 2 ≤ len (rw m rid c)) →
  ∀ k, _req_to_committed_idx m !! rid = Some (k * _block_size m) → StepOk m (prompt rid 4) k.
Proof.
  intros Hbs Hk0 Hle Hrows k Hk. rewrite Hk0, Hbs in Hk. injection Hk as Hk. assert (k = k0) as -> by lia.
  destruct (ManagerProperties.prompt_good rid 4) as [Hwf H64]; [lia|]. assert (filled m (prompt rid 4) = 2) as Hf by (unfold filled; rewrite Hbs; reflexivity).
  split; [exact Hwf| |by left|lia|intros c Hc; rewrite Hf; by apply Hrows].
  intros y Hy. rewrite forallb_forall in H64. by apply H64, list_elem_of_In.
Qed.
Lemma rows_check m rid : forallb (λ c, 2 <=? len (rw m rid c)) (leaf_ids m) = true → ∀ c, c ∈ leaf_ids m → 2 ≤ len (rw m rid c).
Proof. rewrite forallb_forall. intros Hf c Hc%list_elem_of_In. by apply Z.leb_le, Hf. Qed.

Lemma run_admissible : admissible (serving ++ rest_of_run) two_caches.
Proof.
  split; [vm_compute; split; [discriminate|reflexivity]|].
  split; [intros _ _ hs Hh; apply prompt_tokens; [reflexivity|]; assert (hs = []) as -> by (vm_compute in Hh; by injection Hh); done|].
  split; [refine (step_ok _ 0 0 _ _ _ _); [vm_compute; reflexivity|vm_compute; reflexivity|lia|apply rows_check; vm_compute; reflexivity]|].
  split; [vm_compute; split; [discriminate|reflexivity]|].
  split; [intros _ _ hs Hh; apply prompt_tokens; [vm_compute; reflexivity|]; assert (hs = []) as -> by (vm_compute in Hh; by injection Hh); done|].
  split; [refine (step_ok _ 1 2 _ _ _ _); [vm_compute; reflexivity|vm_compute; reflexivity|lia|apply rows_check; vm_compute; reflexivity]|].
  do 4 (split; [exact I|]). exact I.
Qed.

(** The first replica's pool *)
Definition pool0 (m : t) : JengaBlockPool.t := default (JengaBlockPool.mk ∅ ∅ [] FreeQueue.no_queue) (pools m !! 0%nat).

Lemma jenga_admissible_app l1 l2 (m : t) : admissible (l1 ++ l2) m → admissible l1 m ∧ admissible l2 (replay l1 m).
Proof. revert m. induction l1 as [|e l1 IH]; intros m; [done|]. intros [He Hl]. simpl. destruct (IH _ Hl). by split_and!. Qed.
Definition served : t := replay serving two_caches.
Lemma jenga_serving_admissible : admissible serving two_caches.
Proof. by apply (jenga_admissible_app serving rest_of_run), run_admissible. Qed.
#[local] Abbreviation ratios := (JengaAbs.caches_of (ratios_of two_leaves)).
Lemma jenga_served_good : MInv 9 ratios served.
Proof. apply (jenga_good_replay 9 ratios (proj1 two_caches_good) ltac:(lia)); [apply two_caches_good|exact jenga_serving_admissible]. Qed.

(** Two requests hold the first page of the full cache at once: the second one has
    adopted what the first one published. *)
Definition shared : t := replay (serving ++ take 2 rest_of_run) two_caches.
Lemma shared_admissible : admissible (serving ++ take 2 rest_of_run) two_caches.
Proof. by apply (jenga_admissible_app _ (drop 2 rest_of_run)), run_admissible. Qed.

Lemma jenga_books_balance_witness : ∃ b,
  JengaBlockPool.block "full" 1 (pool0 shared) = (Ok b, pool0 shared) ∧ LittleKVCacheBlock.ref_cnt b = 2 ∧
  LittleKVCacheBlock.ref_cnt b = Z.of_nat (multiplicity ("full"%string, 1) (held_of shared 0)).
Proof.
  let r := eval vm_compute in (JengaBlockPool.block "full" 1 (pool0 shared)).1 in match r with Ok ?b => exists b end.
  split; [vm_compute; reflexivity|]. split; [reflexivity|].
  refine (proj1 (jenga_books_balance two_leaves 9 2 true 1 BlockHash.ahash64 None None 0 0 two_caches (serving ++ take 2 rest_of_run) 0 (pool0 shared)
    two_caches_init _ _ two_leaves_nodup two_groups_ok shared_admissible _ _) "full"%string 1 _ _ _).
  - lia.
  - lia.
  - lia.
  - vm_compute. reflexivity.
  - vm_compute. reflexivity.
  - discriminate.
Defined.

Lemma jenga_unpublished_pages_are_private_witness :
  (∀ x, ¬ JengaPoolSpec.committed (pool0 served) "full" x 3) ∧
  ∀ rid' (j' : nat), _req_to_replica served !! rid' = Some 0 → rw served rid' "full" !! j' = Some 3 → rid' = 0 ∧ j' = 2%nat.
Proof.
  refine (jenga_unpublished_pages_are_private 9 ratios serving two_caches 0 0 2 (pool0 served) "full" 2 3 (proj1 two_caches_good) _ (proj2 two_caches_good) jenga_serving_admissible _ _ _ _ _ _ _).
  - lia.
  - vm_compute. reflexivity.
  - vm_compute. reflexivity.
  - vm_compute. reflexivity.
  - vm_compute. left.
  - lia.
  - vm_compute. reflexivity.
  - discriminate.
Defined.

(** The second request adopts both hashable blocks. *)
Lemma jenga_prefix_hit_is_longest_witness :
  ∃ m' x', _reuse_blocks_from_prefix_cache 0 (mk_world served (prompt 1 0)) = (Ok 4, mk_world m' x') ∧ MInv 9 ratios m'.
Proof.
  assert ((_reuse_blocks_from_prefix_cache 0 (mk_world served (prompt 1 0))).1 = Ok 4) as Ev by (vm_compute; reflexivity).
  destruct (jenga_prefix_hit_is_longest 9 ratios served (prompt 1 0) 0 [] 0 (pool0 served)) as [[e E]|(m' & x' & h & hs' & E & HI & _)].
  - exact (proj1 two_caches_good).
  - lia.
  - exact jenga_served_good.
  - vm_compute. reflexivity.
  - vm_compute. reflexivity.
  - vm_compute. reflexivity.
  - apply prompt_tokens; [vm_compute; reflexivity|done].
  - vm_compute. reflexivity.
  - vm_compute. reflexivity.
  - vm_compute. reflexivity.
  - lia.
  - rewrite E in Ev. discriminate Ev.
  - rewrite E in Ev. cbn [fst] in Ev. injection Ev as Ev. exists m', x'. rewrite <- Ev. split; [exact E|exact HI].
Defined.

Lemma jenga_alloc_all_or_nothing_witness :
  ∃ m' x', alloc (mk_world served (prompt 1 0)) = (Ok tt, mk_world m' x') ∧ MInv 9 ratios m'.
Proof.
  assert ((alloc (mk_world served (prompt 1 0))).1 = Ok tt) as Ev by (vm_compute; reflexivity).
  destruct (jenga_alloc_all_or_nothing 9 ratios served (prompt 1 0) 0) as [[e E]|(r & m1 & x1 & m' & x' & p & E & _ & _ & HI & _)].
  - exact (proj1 two_caches_good).
  - lia.
  - exact jenga_served_good.
  - vm_compute. reflexivity.
  - exact (proj1 (proj2 (jenga_admissible_app serving rest_of_run two_caches run_admissible))).
  - rewrite E in Ev. discriminate Ev.
  - rewrite E in Ev. cbn [fst] in Ev. exists m', x'. rewrite <- Ev. split; [exact E|exact HI].
Defined.

Lemma jenga_step_publishes_witness :
  let m := replay (take 2 serving) two_caches in ∃ m', step (mk_world m (prompt 0 4)) = (Ok tt, mk_world m' (prompt 0 4)) ∧ MInv 9 ratios m'.
Proof.
  intros m. destruct (jenga_admissible_app (take 2 serving) (drop 2 serving) two_caches jenga_serving_admissible) as [Ha [Hs _]].
  assert ((step (mk_world m (prompt 0 4))).1 = Ok tt) as Ev by (vm_compute; reflexivity).
  destruct (jenga_step_publishes 9 ratios m (prompt 0 4) 0 0) as [(e & _ & E)|(m' & E & HI & _)].
  - exact (proj1 two_caches_good).
  - lia.
  - apply (jenga_good_replay 9 ratios (proj1 two_caches_good) ltac:(lia)); [apply two_caches_good|exact Ha].
  - vm_compute. reflexivity.
  - vm_compute. reflexivity.
  - lia.
  - apply Hs. vm_compute. reflexivity.
  - rewrite E in Ev. discriminate Ev.
  - exists m'. split; [exact E|exact HI].
Defined.

End JengaManagerProperties.
