(* ===== verification/JengaCacheManager.v ===== *)
(** * The Jenga KV cache manager (kv_cache/paged_kv_cache/jenga_cache_manager.py)

    [JengaKVCacheManager] is the block manager of JengaManager.v with the methods that
    turn a batch of requests into what the attention kernels read: a lookup table for
    each leaf and the cache lengths. In Python it inherits the block manager; here it
    holds one. Device buffers and their copies are outside the model, their sizes are
    not. [jenga_kv_cache] is the cache as the scheduler sees it. *)

From S2P Require Import Prelude Tokens FreeQueue Pool Grammar Context Hashing Connector Manager CacheManager KVInterface Jenga JengaManager.

(** [split_into_groups(x, groups)] of nn/kv_cache/data_parallelism_utils.py *)
Definition split_into_groups {A} (x : list A) (groups : Z) : outcome (list (list A)) :=
  if groups =? 0 then Raise ZeroDivisionError else
  let num_items_per_group := ceildiv (len x) groups in
  Ok ((λ i, slice x (i * num_items_per_group) ((i + 1) * num_items_per_group)) <$> zrange 0 groups).

(** [min(l)] *)
Definition py_min {S} (l : list Z) : M S Z :=
  match l with [] => raise ValueError | x :: l => ret (foldl Z.min x l) end.

(** [row[:n] = entries] on a row of [cols] zeros: one entry fills the slice, another
    number than the slice has is an error. *)
Definition assign_prefix {S} (cols n : Z) (entries : list Z) : M S (list Z) :=
  let width := len (slice_to (repeat 0 (Z.to_nat cols)) n) in
  let rest := repeat 0 (Z.to_nat (cols - width)) in
  if len entries =? width then ret (entries ++ rest) else
  match entries with
  | [x] => ret (repeat x (Z.to_nat width) ++ rest)
  | _ => raise ValueError
  end.

(** [KVCacheAssignments], with a table for each leaf *)
Record LeafAssignments := leaf_assignments {
  leaf_cache_lengths : list Z;
  leaf_lookup_tables : list (string * list (list Z));
  leaf_dispatch : BatchCharacteristics
}.

Module JengaKVCacheManager.

Record t := mk {
  params : KVCacheParams;
  _leaf_infos : list (string * JengaBlockManager.KVLeafInfo);
  _num_huge_blocks : Z;
  _max_batch_size : Z;
  _max_num_input_tokens : option Z;
  blocks : JengaBlockManager.t
}.

Definition set_blocks (x : JengaBlockManager.t) (m : t) : t :=
  mk (params m) (_leaf_infos m) (_num_huge_blocks m) (_max_batch_size m) (_max_num_input_tokens m) x.

Definition leaf_pages (num_huge_blocks : Z) (info : JengaBlockManager.KVLeafInfo) : Z :=
  JengaBlockManager.ratio info * num_huge_blocks.
(** [max(leaf_info.ratio * num_huge_blocks for ...)] *)
Definition max_lut_size (num_huge_blocks : Z) (leaf_infos : list (string * JengaBlockManager.KVLeafInfo)) : option Z :=
  match (λ x, leaf_pages num_huge_blocks x.2) <$> leaf_infos with [] => None | x :: l => Some (foldl Z.max x l) end.

Section Manager.
Context `{Digest} {B : Backend}.
Implicit Types m : t.

(** [__init__]; [connector] says whether the parameters name a KV connector. *)
Definition init (params : KVCacheParams) (connector : bool) (leaf_infos : list (string * JengaBlockManager.KVLeafInfo))
    (num_huge_blocks max_batch_size : Z) (max_num_input_tokens : option Z) : outcome t :=
  if connector then Raise ValueError else
  match split_into_groups (zrange 0 (n_devices params)) (data_parallel_degree params) with
  | Raise e => Raise e
  | Ok devices_per_replica =>
      if negb (forallb (λ ds, negb (len ds =? 0)) devices_per_replica) then Raise IndexError else
      if bool_decide (max_lut_size num_huge_blocks leaf_infos = None) && negb (len devices_per_replica =? 0) then Raise ValueError else
      match JengaBlockManager.init leaf_infos num_huge_blocks (page_size params) (params_enable_prefix_caching params)
              (data_parallel_degree params) (params_kv_hash_algo params) (params_kv_hash_seed params) max_num_input_tokens
              (num_draft_tokens params) (num_draft_tokens_per_step params) with
      | Raise e => Raise e
      | Ok b => Ok (mk params leaf_infos num_huge_blocks max_batch_size max_num_input_tokens b)
      end
  end.

(** [create]; [leaves] is what it reads of the parameters' leaves: the bytes of a page
    and the attention group. The ratios come in the leaves' order. *)
Definition create (params : KVCacheParams) (connector : bool) (leaves : list (string * (Z * KVCacheGroupId.t)))
    (available_bytes max_batch_size : Z) (max_num_input_tokens : option Z) : outcome t :=
  match compute_jenga_ratios available_bytes ((λ '(leaf_id, (bytes_per_page, _)), (leaf_id, bytes_per_page)) <$> leaves) with
  | Raise e => Raise e
  | Ok (num_huge_blocks, _, ratios) =>
      match split_into_groups (zrange 0 (n_devices params)) (data_parallel_degree params) with
      | Raise e => Raise e
      | Ok _ =>
          init params connector
            (zip_with (λ '(leaf_id, (_, group_id)) ratio, (leaf_id, JengaBlockManager.kv_leaf_info ratio group_id)) leaves ratios.*2)
            num_huge_blocks max_batch_size max_num_input_tokens
      end
  end.

Definition on_blocks {A} (f : M JengaBlockManager.t A) : M t A := zoom blocks set_blocks f.

(** ** The kernels' inputs *)

Definition seq_len (c : TextContext.t B) : M t Z :=
  let! m := get in
  read (_compute_seq_len (num_draft_tokens (params m)) (num_draft_tokens_per_step (params m)) (_max_num_input_tokens m)) c.
Definition get_req_blocks_per_leaf (rid : Z) : M t (list (string * list Z)) :=
  on_blocks (JengaBlockManager.get_req_blocks_per_leaf rid).

(** The requests all have their blocks; returns the longest sequence. *)
Definition check_one (max_seq_len : Z) (c : TextContext.t B) : M t Z :=
  let! seq_len := seq_len c in
  let! blocks_per_leaf := get_req_blocks_per_leaf (TextContext.request_id c) in
  let! num_blocks := py_min (len <$> blocks_per_leaf.*2) in
  let! m := get in
  raise_if (seq_len >? num_blocks * page_size (params m)) ValueError;;
  ret (Z.max max_seq_len seq_len).
Definition check_blocks (batch : list (TextContext.t B)) : M t Z := for_fold batch 0 check_one.

Definition lut_pages (max_seq_len : Z) (max_cache_length : option Z) : M t Z :=
  let! m := get in
  let required_num_pages := ceildiv max_seq_len (page_size (params m)) in
  match max_cache_length with
  | None => ret required_num_pages
  | Some n =>
      raise_if (n <? 1) ValueError;;
      let lut_num_pages := ceildiv n (page_size (params m)) in
      raise_if (lut_num_pages <? required_num_pages) ValueError;;
      ret lut_num_pages
  end.

Definition check_leaves (lut_num_pages : Z) : M t unit :=
  let! m := get in
  for_each (_leaf_infos m) (λ '(_, info),
    raise_if (KVCacheGroupId.is_full (JengaBlockManager.info_group_id info) && (lut_num_pages >? leaf_pages (_num_huge_blocks m) info)) ValueError).

(** [_PersistentKVDeviceInputBuffers.view] of the buffers [create] sized *)
Definition view (batch_size lut_num_pages : Z) : M t unit :=
  let! m := get in
  for_each (_leaf_infos m) (λ _,
    _contiguous_prefix_2d (_max_batch_size m * _padded_lut_cols (default 0 (max_lut_size (_num_huge_blocks m) (_leaf_infos m))))
      batch_size (_padded_lut_cols lut_num_pages)).

(** A request's row in each leaf's table, and its cache length *)
Definition leaf_row (cols num_required_blocks : Z) (x : string * list Z) : M t (string * list Z) :=
  let '(leaf_id, blocks) := x in
  py_assert (num_required_blocks <=? len blocks);;
  let! m := get in
  let! _ := of_option KeyError (list_to_map (M := gmap string JengaBlockManager.KVLeafInfo) (_leaf_infos m) !! leaf_id) in
  let! entries := for_map (slice_to blocks num_required_blocks) uint32 in
  let! row := assign_prefix cols num_required_blocks entries in
  ret (leaf_id, row).

Definition lut_rows (cols : Z) (c : TextContext.t B) : M t (list (string * list Z) * Z) :=
  let! m := get in
  let! seq_len := seq_len c in
  let num_required_blocks := ceildiv seq_len (page_size (params m)) in
  let! blocks_per_leaf := get_req_blocks_per_leaf (TextContext.request_id c) in
  let! rows := for_map blocks_per_leaf (leaf_row cols num_required_blocks) in
  let! s := read TextContext.spec_decoding_state c in
  let! cache_length := uint32 (TokenBuffer.processed_length (TextContext.tokens c) + len (maybe_accepted_draft_tokens s)) in
  ret (rows, cache_length).

(** The batch's longest query and longest valid cache *)
Definition max_lengths (batch : list (TextContext.t B)) : M t (Z * Z) :=
  let! m := get in
  for_fold batch (0, 0) (λ '(max_prompt_len, max_cached_len) c,
    let! prompt := prompt_tokens_for_context c in
    let! cached := cache_valid_length_for_context c (num_draft_tokens (params m)) in
    ret (Z.max max_prompt_len prompt, Z.max max_cached_len cached)).

(** A leaf's table: the requests' rows, zeros where a request set none *)
Definition leaf_table (cols : Z) (rows : list (list (string * list Z))) (leaf_id : string) : list (list Z) :=
  (λ r, default (repeat 0 (Z.to_nat cols)) (list_to_map (M := gmap string (list Z)) r !! leaf_id)) <$> rows.

Definition _compute_kv_cache_assignments (batch : list (TextContext.t B)) (max_cache_length : option Z)
    (bc : option BatchCharacteristics) : M t LeafAssignments :=
  let! max_seq_len := check_blocks batch in
  let! lut_num_pages := lut_pages max_seq_len max_cache_length in
  let! m := get in
  raise_if (len batch >? _max_batch_size m) ValueError;;
  check_leaves lut_num_pages;;
  let cols := _padded_lut_cols lut_num_pages in
  view (len batch) lut_num_pages;;
  let! rows := for_map batch (lut_rows cols) in
  let! '(max_prompt_len, max_cached_len) := max_lengths batch in
  let real := batch_characteristics (len batch) max_prompt_len max_cached_len in
  let! shape := match bc with
    | None => ret real
    | Some bc =>
        raise_if ((batch_size real >? batch_size bc) || (max_prompt_len >? max_prompt_length bc)
                  || (max_cached_len >? max_cache_valid_length bc)) ValueError;;
        ret bc
    end in
  let! _ := uint32 (max_prompt_length shape) in
  let! _ := uint32 (max_cache_valid_length shape) in
  ret (leaf_assignments rows.*2 ((λ '(leaf_id, _), (leaf_id, leaf_table cols rows.*1 leaf_id)) <$> _leaf_infos m) shape).

(** [runtime_inputs], up to [build_runtime_inputs] of the parameters *)
Definition runtime_inputs (batches : list (list (TextContext.t B))) (max_cache_length : option Z)
    (bc : option BatchCharacteristics) : M t (list LeafAssignments) :=
  let! m := get in
  raise_if (negb (len batches =? data_parallel_degree (params m))) ValueError;;
  for_map batches (λ ctxs, _compute_kv_cache_assignments ctxs max_cache_length bc).

(** ** The rest of the interface *)

Definition get_metrics_aggregated m : Metrics.t := JengaBlockManager._metrics (blocks m).
Definition block_count (replica_idx : Z) : M t BlockCount.t := on_blocks (JengaBlockManager.huge_block_count replica_idx).
Definition pending_transfers_exist (replica_idx : Z) : M t bool := ret false.
Definition poll_transfers : M t unit := ret tt.
Definition host_block_count_of (replica_idx : Z) : M t BlockCount.t := ret (BlockCount.mk 0 0).
Definition disk_block_count_of (replica_idx : Z) : M t BlockCount.t := ret (BlockCount.mk 0 0).
Definition get_prefix_cache_hit_counts : M (t * Ctx.t B) (list PrefixCacheHits.t) := raise NotImplementedError.
Definition get_req_blocks (rid : Z) : M t (list Z) := raise NotImplementedError.

(** The inherited methods *)
Definition contains (rid : Z) m : bool := bool_decide (is_Some (JengaBlockManager._req_to_replica (blocks m) !! rid)).
Definition claim (rid replica_idx : Z) : M t unit := on_blocks (JengaBlockManager.claim rid replica_idx).
Definition release (rid : Z) : M t unit := on_blocks (JengaBlockManager.release rid).
Definition on_request {A} (f : M JengaBlockManager.world A) : M (t * Ctx.t B) A := λ s,
  let '(r, w) := f (JengaBlockManager.mk_world (blocks s.1) s.2) in
  (r, (set_blocks (JengaBlockManager.mgr w) s.1, JengaBlockManager.ctx w)).
Definition alloc : M (t * Ctx.t B) unit := on_request JengaBlockManager.alloc.
Definition step : M (t * Ctx.t B) unit := on_request JengaBlockManager.step.

End Manager.
End JengaKVCacheManager.

(** ** As the scheduler sees it: an allocation's onload is complete when it returns *)
Section Interface.
Context `{Digest} {B : Backend}.

#[export] Instance jenga_kv_cache : KVCache | 20 := {|
  cache := JengaKVCacheManager.t;
  onload := unit;
  onload_complete _ _ := true;
  kv_page_size k := page_size (JengaKVCacheManager.params k);
  kv_contains := JengaKVCacheManager.contains;
  kv_claim := JengaKVCacheManager.claim;
  kv_release := JengaKVCacheManager.release;
  kv_alloc := JengaKVCacheManager.alloc;
  kv_get_req_blocks := JengaKVCacheManager.get_req_blocks;
  kv_block_count := JengaKVCacheManager.block_count;
  kv_pending_transfers_exist := JengaKVCacheManager.pending_transfers_exist;
  kv_prefix_cache_hit_counts := JengaKVCacheManager.get_prefix_cache_hit_counts
|}.
End Interface.
