(* ===== verification/JengaInterface.v ===== *)
(** * The Jenga cache keeps the scheduler's contract

    [jenga_kv_cache_laws] and [jenga_kv_frame]: the laws of KVInterface.v and Frame.v,
    which the theorems on batches, schedulers and nodes are proved from, hold of the
    Jenga manager in every state. *)

From S2P Require Import Prelude Tokens Eos FreeQueue Pool Grammar Context Hashing Connector Manager ManagerFacts ManagerProperties CacheManager KVInterface Dict Budget Lora Batch BatchFacts Conservation Scheduler Frame PagedFrame Jenga JengaManager JengaCacheManager.

Module JengaInterface.
Import PagedLaws Frame JengaBlockManager.

(** ** Exceptions *)
Section Avoids.
Context `{Digest} {B : Backend}.

Lemma jenga_on_pool_avoids {A} i (f : M JengaBlockPool.t A) : avoids InsufficientBlocksError f → avoids InsufficientBlocksError (on_pool i f).
Proof. intros Hf m. unfold on_pool. destruct (py_index _ i) as [p|]; [|done]. specialize (Hf p). by destruct (f p). Qed.
Lemma for_fold_avoids {S A C} (l : list C) (z : A) (f : A → C → M S A) :
  (∀ a x, avoids InsufficientBlocksError (f a x)) → avoids InsufficientBlocksError (for_fold l z f).
Proof. intros Hf. revert z. induction l as [|x l IH]; intros z; [apply avoids_ret|]. apply avoids_bind; [apply Hf|apply IH]. Qed.

Lemma ref_cnt_avoids b : avoids InsufficientBlocksError (JengaBlockPool.huge_ref_cnt b).
Proof. unfold JengaBlockPool.huge_ref_cnt, JengaBlockPool.block, JengaBlockPool.cache_of. solve_avoids. apply for_fold_avoids. solve_avoids. Qed.
Lemma free_avoids c r : avoids InsufficientBlocksError (JengaBlockPool.free_block c r).
Proof.
  unfold JengaBlockPool.free_block, JengaBlockPool.on_block, JengaBlockPool.on_cache, JengaBlockPool.huge_at, JengaBlockPool.block,
    JengaBlockPool.in_free, JengaBlockPool.in_huge, JengaBlockPool.cache_of.
  solve_avoids; first [apply ref_cnt_avoids | unfold FreeQueue.append, FreeQueue.remove; solve_avoids].
Qed.

Lemma claim_avoids rid i : avoids InsufficientBlocksError (claim rid i).
Proof. unfold claim, for_leaves, put_row, on_leaf. solve_avoids. Qed.
Lemma release_avoids rid : avoids InsufficientBlocksError (release rid).
Proof.
  unfold release, _replica_of, pool_at, for_leaves, row, leaf_at, on_leaf, del.
  solve_avoids; apply jenga_on_pool_avoids; first [apply avoids_get | apply free_avoids].
Qed.
End Avoids.

(** ** An allocation keeps the request and the claims *)
Section Keeps.
Context `{Digest} {B : Backend}.
Context (R : gmap Z Z).

Definition Claims (m : t) : Prop := _req_to_replica m = R.
Abbreviation keeps_claims f := (preserves Claims f).

Lemma jenga_claims_modify f : (∀ m, _req_to_replica (f m) = _req_to_replica m) → keeps_claims (modify f).
Proof. intros Hf m Hm. unfold Claims. simpl. by rewrite Hf. Qed.
Lemma jenga_claims_pool {A} i (f : M JengaBlockPool.t A) : keeps_claims (on_pool i f).
Proof. intros m Hm. unfold on_pool. destruct (py_index _ i); [|done]. by destruct (f _). Qed.

Ltac walk := repeat first [ walk_step | apply jenga_claims_pool | (apply jenga_claims_modify; intros; done) ].

Lemma claims_row c rid : keeps_claims (row c rid).
Proof. unfold row, leaf_at. walk. Qed.
Lemma claims_put c rid l : keeps_claims (put_row c rid l).
Proof. unfold put_row, on_leaf. walk. Qed.
Lemma claims_leaves f : (∀ c, keeps_claims (f c)) → keeps_claims (for_leaves f).
Proof. intros Hf. unfold for_leaves. walk. apply Hf. Qed.
Lemma jenga_claims_hashes_of rid : keeps_claims (hashes_of rid).
Proof. unfold hashes_of. walk. Qed.
Lemma jenga_claims_committed_of rid : keeps_claims (committed_idx_of rid).
Proof. unfold committed_idx_of. walk. Qed.
Lemma jenga_claims_replica_of rid : keeps_claims (_replica_of rid).
Proof. unfold _replica_of. walk. Qed.

Lemma claims_agree fuel i gs l : keeps_claims (agree fuel i gs l).
Proof. revert l. induction fuel as [|fuel IH]; intros l; simpl; unfold shrink; walk. apply IH. Qed.
Lemma jenga_claims_find rid i : keeps_claims (_find_longest_prefix_cache_hit rid i).
Proof.
  unfold _find_longest_prefix_cache_hit, common_hit.
  walk; first [apply jenga_claims_committed_of | apply jenga_claims_hashes_of | apply claims_agree].
Qed.
Lemma claims_ratio p c : keeps_claims (cache_ratio p c).
Proof. unfold cache_ratio. walk. Qed.
Lemma claims_admission p d : keeps_claims (_check_admission p d).
Proof. unfold _check_admission, _huge_blocks_for_demand. walk. apply claims_ratio. Qed.
Lemma claims_draw c rid i : keeps_claims (draw c rid i).
Proof. unfold draw. walk; first [apply claims_row | apply claims_put]. Qed.

(** With the request's context, of which the call keeps [I] *)
Context (I : Ctx.t B → Prop).
Definition WClaims (w : world) : Prop := Claims (mgr w) ∧ I (ctx w).

Lemma jenga_world_mgr {A} (f : M t A) : keeps_claims f → preserves WClaims (on_mgr f).
Proof. intros Hf [m x] [Hm Hx]. unfold on_mgr, zoom. simpl in *. specialize (Hf m Hm). by destruct (f m). Qed.
Lemma jenga_world_ctx {A} (f : M (Ctx.t B) A) : preserves I f → preserves WClaims (on_ctx f).
Proof. intros Hf [m x] [Hm Hx]. unfold on_ctx, zoom. simpl in *. specialize (Hf x Hx). by destruct (f x). Qed.

(** What [alloc] does to the context *)
Context (I_hashes : ∀ ex bs algo seed, preserves I (BlockHashes.compute_block_hashes ex bs algo seed)).
Context (I_rewind : ∀ d, preserves I (Ctx.on_tokens (TokenBuffer.rewind_processing d))).
Context (I_skip : ∀ d, preserves I (Ctx.on_tokens (TokenBuffer.skip_processing d))).
Context (I_cached : ∀ v, preserves I (Ctx.on_base (modify (TextContext.set_cached v)))).
Context (I_seq_len : ∀ a b l, preserves I (Ctx.on_base (_compute_seq_len a b l))).

Ltac walk_world :=
  repeat first
    [ apply jenga_world_mgr | (apply jenga_world_ctx; first [apply I_hashes | apply I_rewind | apply I_skip | apply I_cached | apply I_seq_len])
    | walk_step | apply claims_row | apply claims_put | apply jenga_claims_hashes_of | apply jenga_claims_committed_of | apply jenga_claims_replica_of
    | apply jenga_claims_find | apply claims_admission | apply claims_draw | apply claims_leaves | apply jenga_claims_pool
    | (apply jenga_claims_modify; intros; done) ].

Lemma world_alloc : preserves WClaims alloc.
Proof.
  unfold alloc, _reuse_blocks_from_prefix_cache, _compute_hashes_for_request, _release_uncommitted_blocks,
    _num_blocks_to_allocate, seq_len, tokens, pool_at, count, put_committed.
  walk_world.
Qed.
End Keeps.

(** ** The instances *)
Section Instances.
Context `{Digest} {B : Backend}.

Lemma alloc_keeps (R : gmap Z Z) (I : Ctx.t B → Prop) k x :
  preserves (WClaims R I) alloc → _req_to_replica (JengaKVCacheManager.blocks k) = R → I x →
  _req_to_replica (JengaKVCacheManager.blocks (JengaKVCacheManager.alloc (k, x)).2.1) = R ∧ I (JengaKVCacheManager.alloc (k, x)).2.2.
Proof.
  intros Ha HR HI. unfold JengaKVCacheManager.alloc, JengaKVCacheManager.on_request. simpl.
  specialize (Ha (mk_world (JengaKVCacheManager.blocks k) x) (conj HR HI)). by destruct (alloc _).
Qed.

Lemma jenga_kept_alloc R rid b : preserves (WClaims R (Kept rid b)) alloc.
Proof.
  apply world_alloc; [apply kept_hashes|apply kept_rewind|apply kept_skip|apply kept_cached|].
  intros n l lim. apply kept_base. intros c. unfold _compute_seq_len, bind, get. by rewrite Ownership.spec_state_run.
Qed.
Definition Same (rid : Z) (x : Ctx.t B) : Prop := TextContext.request_id (Ctx.base x) = rid.
Lemma same_keeps {A} rid (f : M (Ctx.t B) A) :
  (∀ x, TextContext.request_id (Ctx.base (f x).2) = TextContext.request_id (Ctx.base x)) → preserves (Same rid) f.
Proof. intros Hf x Hx. unfold Same. by rewrite Hf. Qed.
Lemma same_alloc R rid : preserves (WClaims R (Same rid)) alloc.
Proof.
  apply world_alloc; intros; apply same_keeps; intros x.
  - apply PagedFrame.hashes_same.
  - apply PagedFrame.tokens_same.
  - apply PagedFrame.tokens_same.
  - by apply PagedFrame.base_same.
  - apply PagedFrame.base_same. intros c. unfold _compute_seq_len, bind, get. by rewrite Ownership.spec_state_run.
Qed.

#[export] Instance jenga_kv_cache_laws : @KVCacheLaws B jenga_kv_cache | 20.
Proof.
  split.
  - intros k x Hx. by apply (alloc_keeps _ _ k x (jenga_kept_alloc _ (TextContext.request_id (Ctx.base x)) (TokenBuffer.actively_chunked (Ctx.tokens x))) eq_refl).
  - intros rid i. apply avoids_zoom, claim_avoids.
  - intros rid. apply avoids_zoom, release_avoids.
  - intros i s. done.
  - intros i. apply avoids_zoom. unfold huge_block_count, pool_at. apply avoids_bind; [apply jenga_on_pool_avoids, avoids_get|by intros p s].
Qed.

(** The claims of others *)
Lemma claims_only (f : M t unit) k x : (∀ R, preserves (Claims R) f) →
  JengaKVCacheManager.contains x (JengaKVCacheManager.on_blocks f k).2 = JengaKVCacheManager.contains x k.
Proof.
  intros Hf. specialize (Hf _ (JengaKVCacheManager.blocks k) eq_refl). unfold JengaKVCacheManager.on_blocks, zoom. destruct (f _) as [o b].
  simpl in *. unfold JengaKVCacheManager.contains. simpl. by rewrite Hf.
Qed.

(** Whether [x] has claimed blocks *)
Definition Claimed (x : Z) (b : bool) (m : t) : Prop := bool_decide (is_Some (_req_to_replica m !! x)) = b.

Lemma claimed_modify x b f : (∀ m, _req_to_replica (f m) !! x = _req_to_replica m !! x) → preserves (Claimed x b) (modify f).
Proof. intros Hf m Hm. unfold Claimed. simpl. by rewrite Hf. Qed.
Lemma claimed_claims {A} x b (f : M t A) : (∀ R, preserves (Claims R) f) → preserves (Claimed x b) f.
Proof. intros Hf m Hm. unfold Claimed. by rewrite (Hf _ m eq_refl). Qed.
Lemma claimed_claim x b rid i : x ≠ rid → preserves (Claimed x b) (claim rid i).
Proof.
  intros Hx. unfold claim. apply preserves_bind_get. intros m _. destruct (_ !! rid); [apply preserves_raise|].
  repeat (apply preserves_bind; [apply claimed_modify; intros m'; simpl; by rewrite ?lookup_insert_ne|intros _]).
  apply claimed_claims. intros R. apply claims_leaves. intros c. apply claims_put.
Qed.
Lemma claimed_release x b rid : x ≠ rid → preserves (Claimed x b) (release rid).
Proof.
  intros Hx. unfold release, pool_at, del, on_leaf. repeat first
    [ walk_step | (apply claimed_claims; intros; apply jenga_claims_replica_of) | (apply claimed_claims; intros; apply jenga_claims_pool)
    | (apply claimed_modify; intros; simpl; by rewrite ?lookup_delete_ne)
    | (apply claimed_claims; intros; apply claims_leaves; intros) | apply claims_row | apply jenga_claims_pool | (apply jenga_claims_modify; intros; done) ].
Qed.

Lemma contains_claimed (f : M t unit) k x : (∀ b, preserves (Claimed x b) f) →
  JengaKVCacheManager.contains x (JengaKVCacheManager.on_blocks f k).2 = JengaKVCacheManager.contains x k.
Proof.
  intros Hf. specialize (Hf _ (JengaKVCacheManager.blocks k) eq_refl). unfold JengaKVCacheManager.on_blocks, zoom. destruct (f _) as [o b].
  simpl in *. exact Hf.
Qed.

Lemma claim_claims rid i m m' : claim rid i m = (Ok tt, m') → is_Some (_req_to_replica m' !! rid).
Proof.
  unfold claim, bind, get. destruct (_req_to_replica m !! rid); [done|]. simpl. set (m1 := set_committed _ _).
  assert (preserves (Claims (_req_to_replica m1)) (for_leaves (λ leaf_id, put_row leaf_id rid []))) as HC.
  { apply claims_leaves. intros c. apply claims_put. }
  specialize (HC m1 eq_refl). intros E. rewrite E in HC. unfold Claims in HC. simpl in HC. rewrite HC, lookup_insert_eq. by eexists.
Qed.

#[export] Instance jenga_kv_frame : @KVFrame B jenga_kv_cache | 20.
Proof.
  split; simpl.
  - intros rid i k x Hx. apply contains_claimed. intros b. by apply claimed_claim.
  - intros rid i k k' E. unfold JengaKVCacheManager.claim, JengaKVCacheManager.on_blocks, zoom in E.
    destruct (claim rid i _) as [o b] eqn:Ec. injection E as -> <-. apply claim_claims in Ec. unfold JengaKVCacheManager.contains. by apply bool_decide_eq_true.
  - intros rid k x Hx. apply contains_claimed. intros b. by apply claimed_release.
  - done.
  - done.
  - intros i k x. unfold JengaKVCacheManager.block_count, JengaKVCacheManager.on_blocks, zoom, huge_block_count, pool_at, bind.
    pose proof (jenga_claims_pool (_req_to_replica (JengaKVCacheManager.blocks k)) i get _ eq_refl) as HC. unfold Claims in HC.
    destruct (on_pool i get _) as [[p|e] m]; simpl in *; unfold JengaKVCacheManager.contains; simpl; by rewrite HC.
  - done.
  - intros k c x. unfold JengaKVCacheManager.contains. by rewrite (proj1 (alloc_keeps _ _ k c (same_alloc _ _) eq_refl eq_refl)).
  - done.
  - intros k c. exact (proj2 (alloc_keeps _ _ k c (same_alloc _ _) eq_refl eq_refl)).
  - done.
Qed.
End Instances.
End JengaInterface.
