(* ===== verification/JengaCacheProperties.v ===== *)
(** * Properties of the Jenga KV cache manager

    What the kernels read is what the requests hold: a batch whose requests were all
    allocated can be run, and every entry of each leaf's table is a page of that leaf
    or the null page. Two things the manager does not do: a table for window caches
    alone is too small for the sequences it admits, and the error the scheduler raises
    when blocks are missing is another one under this manager. *)

From S2P Require Import Prelude Tokens Eos FreeQueue Pool Grammar Context Hashing Connector Manager ManagerFacts CacheManager CacheProperties KVInterface Dict Budget Lora Batch BatchFacts BatchProperties Jenga JengaFacts JengaProperties JengaManager JengaHits JengaManagerFacts JengaCapacity ManagerProperties JengaManagerProperties JengaCacheManager.
From Stdlib Require Import QArith.
Open Scope Z_scope.

Module JengaCacheFacts.
Import JengaStep JengaOwnership JengaKVCacheManager.

(** ** Reading *)
Section Reading.
Context {S : Type}.

(** A program that returns [g x] for each [x] and changes nothing *)
Lemma for_map_read {X Y} (l : list X) (f : X → M S Y) (g : X → Y) (s : S) :
  (∀ x, x ∈ l → f x s = (Ok (g x), s)) → for_map l f s = (Ok (map g l), s).
Proof.
  induction l as [|x l IH]; intros Hf; [done|]. simpl. mstep (Hf x (list_elem_of_here _ _)).
  by mstep (IH (λ y Hy, Hf y (list_elem_of_further _ _ _ Hy))).
Qed.
Lemma for_each_read {X} (l : list X) (f : X → M S unit) (s : S) :
  (∀ x, x ∈ l → f x s = (Ok tt, s)) → for_each l f s = (Ok tt, s).
Proof.
  induction l as [|x l IH]; intros Hf; [done|]. simpl. mstep (Hf x (list_elem_of_here _ _)).
  by apply IH; intros; apply Hf; right.
Qed.

Lemma py_min_run (l : list Z) (s : S) : l ≠ [] → ∃ z, py_min l s = (Ok z, s) ∧ z ∈ l ∧ ∀ x, x ∈ l → z ≤ x.
Proof.
  destruct l as [|x l]; [done|]. intros _. exists (foldl Z.min x l). split; [done|]. revert x. induction l as [|y l IH]; intros x; simpl.
  - split; [by left|]. by intros z [->|?%elem_of_nil]%elem_of_cons.
  - destruct (IH (Z.min x y)) as [Hin Hle]. split.
    + apply elem_of_cons in Hin as [->|Hin]; [|by do 2 right]. destruct (Z.min_spec x y) as [[_ ->]|[_ ->]]; [by left|right; by left].
    + pose proof (Hle _ (list_elem_of_here _ _)). intros z [->|[->|Hz]%elem_of_cons]%elem_of_cons; [lia|lia|]. by apply Hle; right.
Qed.

Lemma assign_run cols n (entries : list Z) (s : S) : 0 ≤ n ≤ cols → len entries = n →
  assign_prefix cols n entries s = (Ok (entries ++ repeat 0 (Z.to_nat (cols - n))), s).
Proof.
  intros Hn He. unfold assign_prefix. rewrite Ownership.slice_to_take by lia.
  assert (len (take (Z.to_nat n) (repeat 0 (Z.to_nat cols))) = n) as ->.
  { unfold len. rewrite length_take, repeat_length. lia. }
  by rewrite He, Z.eqb_refl.
Qed.
End Reading.

Lemma list_to_map_graph {V} (g : string → V) (L : list string) c : c ∈ L → list_to_map (M := gmap string V) ((λ c, (c, g c)) <$> L) !! c = Some (g c).
Proof.
  induction L as [|c' L IH]; intros Hc; [by apply elem_of_nil in Hc|]. simpl. destruct (decide (c' = c)) as [->|Hne]; [by rewrite lookup_insert_eq|].
  rewrite lookup_insert_ne by done. apply IH. by apply elem_of_cons in Hc as [->|].
Qed.

Lemma foldl_max_bound (l : list Z) z : z ≤ foldl Z.max z l ∧ ∀ x, x ∈ l → x ≤ foldl Z.max z l.
Proof. apply JengaCapacity.foldl_max. Qed.

Lemma max_lut_bound n infos c info : (c, info) ∈ infos → leaf_pages n info ≤ default 0 (max_lut_size n infos).
Proof.
  intros Hin. unfold max_lut_size. assert (leaf_pages n info ∈ ((λ x : string * _, leaf_pages n x.2) <$> infos)) as Hp by (apply list_elem_of_fmap; by exists (c, info)).
  destruct (_ <$> infos) as [|x l]; [by apply elem_of_nil in Hp|]. simpl. destruct (JengaCapacity.foldl_max l x) as [H1 H2].
  apply elem_of_cons in Hp as [->|Hp]; [done|by apply H2].
Qed.

(** ** Running the manager's methods *)
Section Facts.
Context `{Digest} {B : Backend} (n : Z) (K : gmap string Z).
Context (HK : ∀ c k, K !! c = Some k → 0 < k) (Hn : 2 ≤ n).
Implicit Types (k : t) (c : TextContext.t B).

(** A manager whose block manager is sound and cut to its parameters *)
Record Sound k : Prop := {
  so_inv : MInv n K (blocks k);
  so_page : JengaBlockManager._block_size (blocks k) = page_size (params k);
  so_leaves : JengaBlockManager.leaf_ids (blocks k) = (_leaf_infos k).*1;
  so_some : _leaf_infos k ≠ [];
  so_ratio leaf info : (leaf, info) ∈ _leaf_infos k → K !! leaf = Some (JengaBlockManager.ratio info) ∧
    JengaBlockManager.group_id <$> JengaBlockManager._leaves (blocks k) !! leaf = Some (JengaBlockManager.info_group_id info);
  so_huge : n = _num_huge_blocks k;
  so_drafts : JengaBlockManager._num_draft_tokens (blocks k) = num_draft_tokens (params k);
  so_per_step : JengaBlockManager._num_draft_tokens_per_step (blocks k) = num_draft_tokens_per_step (params k);
  so_limit : JengaBlockManager._max_num_input_tokens (blocks k) = _max_num_input_tokens k
}.

(** The pages request [c] holds of a leaf *)
Definition held k c (leaf : string) : list Z := rw (blocks k) (TextContext.request_id c) leaf.
(** The KV slots its next forward needs, and the pages they fill *)
Definition slots k c : Z := JengaOwnership.slots (blocks k) (_max_num_input_tokens k) c.
Definition pages k c : Z := ceildiv (slots k c) (page_size (params k)).

(** A claimed request that holds, of every leaf, a page for each of its slots *)
Record provisioned k c : Prop := {
  pv_claimed : is_Some (JengaBlockManager._req_to_replica (blocks k) !! TextContext.request_id c);
  pv_positive : 0 ≤ slots k c;
  pv_slots leaf : leaf ∈ (_leaf_infos k).*1 → slots k c ≤ len (held k c leaf) * page_size (params k)
}.

Lemma leaf_sound_positive k : Sound k → 0 < page_size (params k).
Proof. intros HS. rewrite <- (so_page _ HS). apply (st_block _ _ (mi_static _ _ _ (so_inv _ HS))). Qed.

Lemma leaf_on_blocks_run {A} (f : M JengaBlockManager.t A) k r b : f (blocks k) = (r, b) → on_blocks f k = (r, set_blocks b k).
Proof. intros E. unfold on_blocks, zoom. by rewrite E. Qed.
Lemma set_blocks_id k : set_blocks (blocks k) k = k.
Proof. by destruct k. Qed.

Lemma leaf_seq_len_run k c : Sound k → seq_len c k = (Ok (slots k c), k).
Proof.
  intros HS. unfold seq_len, slots, JengaOwnership.slots. rewrite (so_drafts _ HS), (so_per_step _ HS). unfold bind at 1, get.
  apply (CacheFacts.read_run _ _ _ (Ownership.with_spec c)). unfold _compute_seq_len. mstep (eq_refl : get c = (Ok c, c)). by mstep (Ownership.spec_state_run c).
Qed.

(** Every page a request holds is the null page or a page of its leaf. *)
Lemma held_pages k c leaf info r : Sound k → is_Some (JengaBlockManager._req_to_replica (blocks k) !! TextContext.request_id c) →
  (leaf, info) ∈ _leaf_infos k → r ∈ held k c leaf → JengaAbs.named n (JengaBlockManager.ratio info) r.
Proof.
  intros HS [i Hr] Hin Hx. destruct (decide (r = 0)) as [->|Hr0]; [by left|right]. pose proof (so_inv _ HS) as HI.
  destruct (at_of n K _ _ i HI Hr) as (p & a & HA & Hp & HP). destruct (so_ratio _ HS leaf info Hin) as [Hk _].
  destruct (JengaPoolSpec.owned_page n K p a _ leaf r HP) as (k' & Hk' & Hrange & _); [|congruence].
  apply gmultiset_elem_of_disj_union. left. apply pg_elem. split; [|done]. rewrite (so_leaves _ HS).
  apply list_elem_of_fmap. by exists (leaf, info).
Qed.

Lemma leaf_info k leaf : Sound k → leaf ∈ JengaBlockManager.leaf_ids (blocks k) → ∃ info, (leaf, info) ∈ _leaf_infos k.
Proof. intros HS. rewrite (so_leaves _ HS). intros ([? info] & -> & ?)%list_elem_of_fmap. by exists info. Qed.

Lemma per_leaf_run k c : Sound k → is_Some (JengaBlockManager._req_to_replica (blocks k) !! TextContext.request_id c) →
  get_req_blocks_per_leaf (TextContext.request_id c) k = (Ok ((λ leaf, (leaf, held k c leaf)) <$> JengaBlockManager.leaf_ids (blocks k)), k).
Proof.
  intros HS Hcl. pose proof Hcl as [i Hr]. pose proof (so_inv _ HS) as HI. destruct (at_of n K _ _ i HI Hr) as (p & a & HA & Hp & HP).
  rewrite <- (set_blocks_id k) at 3. apply leaf_on_blocks_run. set (m := blocks k) in *. set (rid := TextContext.request_id c) in *.
  unfold JengaBlockManager.get_req_blocks_per_leaf. mstep (replica_run m rid i Hr). mstep (eq_refl : get m = (Ok m, m)).
  apply for_map_read. intros leaf Hl. destruct (leaf_info k leaf HS Hl) as [info Hin]. destruct (so_ratio _ HS leaf info Hin) as [Hk _].
  mstep (proj1 (at_row K m rid i p leaf HA Hl)). 
  assert (for_map (held k c leaf) (λ r, let! b := JengaBlockManager.on_pool i (JengaBlockPool.block leaf r) in ret (LittleKVCacheBlock._bid b)) m
    = (Ok (held k c leaf), m)) as E; [|by mstep E].
  rewrite <- (map_id (held k c leaf)) at 2. apply for_map_read. intros r Hx. pose proof (held_pages k c leaf info r HS Hcl Hin Hx) as Hname.
  destruct (JengaAbs.pool_block_run _ _ p a leaf _ r (JengaAbs.po_abs _ _ _ _ _ HP) Hk Hname) as (b & Eb & Hb & _).
  assert (JengaBlockManager.on_pool i (JengaBlockPool.block leaf r) m = (Ok b, m)) as E1.
  { apply (JengaHits.on_pool_read i p m); [|done]. by apply (Ownership.py_index_pools (JengaBlockManager.pools m) i p); [apply HA|]. }
  mstep E1. by rewrite Hb.
Qed.

(** ** The checks *)

(** The longest sequence of a batch *)
Definition max_slots k (batch : list (TextContext.t B)) (z : Z) : Z := foldl (λ x c, Z.max x (slots k c)) z batch.

Lemma leaf_max_slots_spec k batch z : z ≤ max_slots k batch z ∧ ∀ c, c ∈ batch → slots k c ≤ max_slots k batch z.
Proof.
  unfold max_slots. revert z. induction batch as [|c batch IH]; intros z; simpl; [split; [lia|by intros c ?%elem_of_nil]|].
  destruct (IH (Z.max z (slots k c))) as [H1 H2]. split; [lia|]. intros c' [->|Hc]%elem_of_cons; [lia|by apply H2].
Qed.
Lemma leaf_max_slots_le k batch z u : z ≤ u → (∀ c, c ∈ batch → slots k c ≤ u) → max_slots k batch z ≤ u.
Proof.
  unfold max_slots. revert z. induction batch as [|c batch IH]; intros z Hz Hall; [done|]. simpl. apply IH; [|by intros; apply Hall; right].
  specialize (Hall c (list_elem_of_here _ _)). lia.
Qed.

Lemma leaf_check_one_run k z c : Sound k → provisioned k c → check_one z c k = (Ok (Z.max z (slots k c)), k).
Proof.
  intros HS [Hcl H0 Hs]. unfold check_one. mstep (leaf_seq_len_run k c HS). mstep (per_leaf_run k c HS Hcl).
  rewrite <- !list_fmap_compose. rewrite (so_leaves _ HS). set (l := _ <$> (_leaf_infos k).*1). assert (l ≠ []) as Hl.
  { unfold l. pose proof (so_some _ HS). by destruct (_leaf_infos k). }
  destruct (py_min_run l k Hl) as (z' & E & Hz & _). mstep E. mstep (eq_refl : get k = (Ok k, k)).
  unfold l in Hz. apply list_elem_of_fmap in Hz as (leaf & -> & Hleaf). specialize (Hs leaf Hleaf). simpl.
  by erewrite bind_run; [|apply raise_if_false; lia].
Qed.

Lemma leaf_check_blocks_run batch k : Sound k → (∀ c, c ∈ batch → provisioned k c) → check_blocks batch k = (Ok (max_slots k batch 0), k).
Proof.
  intros HS. unfold check_blocks, max_slots. generalize 0. induction batch as [|c batch IH]; intros z Hall; [done|].
  simpl. mstep (leaf_check_one_run k z c HS (Hall c (list_elem_of_here _ _))). apply IH. by intros; apply Hall; right.
Qed.

(** The pages a row of the tables covers *)
Definition table_pages k (batch : list (TextContext.t B)) (max_cache_length : option Z) : Z :=
  ceildiv (default (max_slots k batch 0) max_cache_length) (page_size (params k)).

(** A request whose lengths the kernels' 32-bit integers can hold *)
Definition fits k c : Prop :=
  TokenBuffer.wf (TextContext.tokens c) ∧ 0 ≤ num_draft_tokens (params k) ∧
  CacheFacts.cached_length c + CacheFacts.query_length c + num_draft_tokens (params k) < 2 ^ 32.

Lemma leaf_fits_bounds k c : fits k c → 0 ≤ CacheFacts.cached_length c < 2 ^ 32 ∧ 0 ≤ CacheFacts.query_length c < 2 ^ 32 ∧
  0 ≤ CacheFacts.cached_length c + CacheFacts.query_length c + num_draft_tokens (params k) < 2 ^ 32.
Proof.
  intros (Hwf & Hd & Hv). pose proof (TokenBuffer.wf_pstart _ Hwf) as Hp.
  assert (0 ≤ TokenBuffer.active_length (TextContext.tokens c)) as Ha.
  { pose proof (TokenBuffer.wf_window _ Hwf). unfold TokenBuffer.active_length, Range.length. lia. }
  pose proof (len_nonneg (maybe_accepted_draft_tokens (Ownership.drafts c))). pose proof (len_nonneg (draft_tokens_to_verify (Ownership.drafts c))).
  unfold CacheFacts.cached_length, CacheFacts.query_length, TokenBuffer.processed_length in *. lia.
Qed.

(** A batch the manager can prepare *)
Record Runnable k (batch : list (TextContext.t B)) (max_cache_length : option Z) : Prop := {
  rn_sound : Sound k;
  rn_batch : len batch ≤ _max_batch_size k;
  rn_provisioned c : c ∈ batch → provisioned k c;
  rn_fits c : c ∈ batch → fits k c;
  rn_pages leaf info : (leaf, info) ∈ _leaf_infos k → KVCacheGroupId.is_full (JengaBlockManager.info_group_id info) = true →
    table_pages k batch max_cache_length ≤ leaf_pages (_num_huge_blocks k) info;
  rn_table : table_pages k batch max_cache_length ≤ default 0 (max_lut_size (_num_huge_blocks k) (_leaf_infos k));
  rn_ids leaf info : (leaf, info) ∈ _leaf_infos k → leaf_pages (_num_huge_blocks k) info < 2 ^ 32;
  rn_length l : max_cache_length = Some l → 1 ≤ l ∧ max_slots k batch 0 ≤ l
}.

Lemma leaf_table_covers k batch l c : Runnable k batch l → c ∈ batch → 0 ≤ pages k c ≤ table_pages k batch l.
Proof.
  intros HR Hc. pose proof (leaf_sound_positive k (rn_sound _ _ _ HR)) as Hps. pose proof (rn_provisioned _ _ _ HR c Hc) as [_ H0 _]. split.
  - unfold pages. pose proof (ceildiv_spec (slots k c) _ Hps). nia.
  - apply JengaCapacity.capacity_ceildiv_mono; [done|]. destruct (leaf_max_slots_spec k batch 0) as [_ Hm]. specialize (Hm c Hc).
    destruct l as [l|]; simpl; [|done]. destruct (rn_length _ _ _ HR l eq_refl). lia.
Qed.
Lemma table_nonneg k batch l : Runnable k batch l → 0 ≤ table_pages k batch l.
Proof.
  intros HR. pose proof (leaf_sound_positive k (rn_sound _ _ _ HR)) as Hps. unfold table_pages. destruct (leaf_max_slots_spec k batch 0) as [Hz _].
  assert (0 ≤ default (max_slots k batch 0) l) as Hd by (destruct l as [l|]; simpl; [destruct (rn_length _ _ _ HR l eq_refl)|]; lia).
  pose proof (ceildiv_spec (default (max_slots k batch 0) l) _ Hps). nia.
Qed.

Lemma leaf_lut_pages_run k batch l : Runnable k batch l → lut_pages (max_slots k batch 0) l k = (Ok (table_pages k batch l), k).
Proof.
  intros HR. unfold lut_pages, table_pages. mstep (eq_refl : get k = (Ok k, k)). destruct l as [l|]; [|done].
  destruct (rn_length _ _ _ HR l eq_refl) as [Hl Hm]. erewrite bind_run; [|apply raise_if_false; lia]. cbv beta zeta.
  pose proof (JengaCapacity.capacity_ceildiv_mono _ _ _ (leaf_sound_positive k (rn_sound _ _ _ HR)) Hm).
  by erewrite bind_run by (apply raise_if_false; lia).
Qed.

Lemma check_leaves_run k batch l : Runnable k batch l → check_leaves (table_pages k batch l) k = (Ok tt, k).
Proof.
  intros HR. unfold check_leaves. mstep (eq_refl : get k = (Ok k, k)). apply for_each_read. intros [leaf info] Hin.
  apply raise_if_false. destruct (KVCacheGroupId.is_full _) eqn:Ef; [|done]. pose proof (rn_pages _ _ _ HR leaf info Hin Ef). simpl. lia.
Qed.

Lemma view_run k batch l : Runnable k batch l → view (len batch) (table_pages k batch l) k = (Ok tt, k).
Proof.
  intros HR. unfold view. mstep (eq_refl : get k = (Ok k, k)). apply for_each_read. intros _ _. pose proof (table_nonneg k batch l HR) as H0.
  destruct (CacheFacts.padded_cols_spec (table_pages k batch l)) as [_ Hc]. pose proof (CacheFacts.padded_cols_mono _ _ (rn_table _ _ _ HR)) as Hmono.
  pose proof (rn_batch _ _ _ HR). pose proof (len_nonneg batch). unfold _contiguous_prefix_2d.
  erewrite bind_run; [|apply raise_if_false; lia]. apply raise_if_false. nia.
Qed.

(** ** The tables *)

(** The row of a provisioned request in a leaf's table: its pages, then the null page *)
Definition row_of k (cols : Z) (leaf : string) c : list Z :=
  take (Z.to_nat (pages k c)) (held k c leaf) ++ repeat 0 (Z.to_nat (cols - pages k c)).

Lemma held_enough k c leaf : Sound k → provisioned k c → leaf ∈ (_leaf_infos k).*1 → 0 ≤ pages k c ≤ len (held k c leaf).
Proof.
  intros HS [_ H0 Hs] Hl. pose proof (leaf_sound_positive k HS) as Hps. specialize (Hs leaf Hl). unfold pages. pose proof (ceildiv_spec (slots k c) _ Hps). nia.
Qed.

Lemma leaf_row_run k cols c leaf : Sound k → provisioned k c → (∀ leaf info, (leaf, info) ∈ _leaf_infos k → leaf_pages (_num_huge_blocks k) info < 2 ^ 32) →
  leaf ∈ JengaBlockManager.leaf_ids (blocks k) → pages k c ≤ cols →
  leaf_row cols (pages k c) (leaf, held k c leaf) k = (Ok (leaf, row_of k cols leaf c), k).
Proof.
  intros HS Hpv Hids Hl Hcols. destruct (leaf_info k leaf HS Hl) as [info Hin]. rewrite (so_leaves _ HS) in Hl.
  pose proof (held_enough k c leaf HS Hpv Hl) as Hpg. unfold leaf_row. erewrite bind_run; [|apply py_assert_true; lia]. cbv beta.
  mstep (eq_refl : get k = (Ok k, k)). assert (is_Some (list_to_map (M := gmap string JengaBlockManager.KVLeafInfo) (_leaf_infos k) !! leaf)) as [info' Ei] by by apply leaves_lookup.
  rewrite Ei. mstep (eq_refl : of_option KeyError (Some info') k = (Ok info', k)). rewrite Ownership.slice_to_take by lia.
  set (es := take _ _). assert (for_map es uint32 k = (Ok es, k)) as E1.
  { apply CacheFacts.uint32_list. intros r Hx. pose proof (elem_of_sublist _ _ _ Hx (sublist_take _ _)) as Hx'.
    pose proof (held_pages k c leaf info r HS (pv_claimed _ _ Hpv) Hin Hx') as Hname. specialize (Hids leaf info Hin). unfold leaf_pages in Hids.
    rewrite <- (so_huge _ HS) in Hids. pose proof (HK leaf _ (proj1 (so_ratio _ HS leaf info Hin))). destruct Hname; lia. }
  mstep E1. erewrite bind_run; [|apply assign_run; [lia|]]; [done|]. unfold es, len in *. rewrite length_take. lia.
Qed.

Definition rows_of k cols c : list (string * list Z) := (λ leaf, (leaf, row_of k cols leaf c)) <$> JengaBlockManager.leaf_ids (blocks k).

Lemma leaf_lut_rows_run k cols c : Sound k → provisioned k c → fits k c → (∀ leaf info, (leaf, info) ∈ _leaf_infos k → leaf_pages (_num_huge_blocks k) info < 2 ^ 32) →
  pages k c ≤ cols → lut_rows cols c k = (Ok (rows_of k cols c, CacheFacts.cached_length c), k).
Proof.
  intros HS Hpv Hf Hids Hcols. unfold lut_rows. mstep (eq_refl : get k = (Ok k, k)). mstep (leaf_seq_len_run k c HS). cbv zeta.
  mstep (per_leaf_run k c HS (pv_claimed _ _ Hpv)). fold (pages k c).
  assert (for_map ((λ leaf, (leaf, held k c leaf)) <$> JengaBlockManager.leaf_ids (blocks k)) (leaf_row cols (pages k c)) k = (Ok (rows_of k cols c), k)) as E1.
  { unfold rows_of. set (g := λ x : string * list Z, (x.1, row_of k cols x.1 c)). erewrite (for_map_read _ _ g).
    - do 2 f_equal. rewrite <- list_fmap_compose. done.
    - intros ? (leaf & -> & Hl)%list_elem_of_fmap. by apply leaf_row_run. }
  mstep E1. erewrite bind_run; [|eapply CacheFacts.read_run, Ownership.spec_state_run]. cbv beta.
  fold (CacheFacts.cached_length c). erewrite bind_run; [|apply CacheFacts.uint32_run, (leaf_fits_bounds k c Hf)]. done.
Qed.

(** The batch's lengths *)
Definition lengths_of k (batch : list (TextContext.t B)) (z : Z * Z) : Z * Z :=
  foldl (λ '(a, b) c, (Z.max a (CacheFacts.query_length c), Z.max b (CacheFacts.cached_length c + CacheFacts.query_length c + num_draft_tokens (params k)))) z batch.

Lemma leaf_max_lengths_run batch k : max_lengths batch k = (Ok (lengths_of k batch (0, 0)), k).
Proof.
  unfold max_lengths, lengths_of. mstep (eq_refl : get k = (Ok k, k)). generalize (0, 0). induction batch as [|c batch IH]; intros [a b]; [done|].
  simpl. assert (cache_valid_length_for_context c (num_draft_tokens (params k)) k = (Ok (CacheFacts.cached_length c + CacheFacts.query_length c + num_draft_tokens (params k)), k)) as E.
  { unfold cache_valid_length_for_context. erewrite bind_run by eapply CacheFacts.read_run, Ownership.spec_state_run. cbv beta. by mstep (CacheFacts.prompt_run c k). }
  erewrite bind_run; [|mstep (CacheFacts.prompt_run c k); mstep E; done]. apply IH.
Qed.
Lemma leaf_lengths_bounds batch k a b : (∀ c, c ∈ batch → fits k c) → 0 ≤ a < 2 ^ 32 → 0 ≤ b < 2 ^ 32 →
  0 ≤ (lengths_of k batch (a, b)).1 < 2 ^ 32 ∧ 0 ≤ (lengths_of k batch (a, b)).2 < 2 ^ 32.
Proof.
  unfold lengths_of. revert a b. induction batch as [|c batch IH]; intros a b Hall Ha Hb; [done|]. simpl.
  pose proof (leaf_fits_bounds k c (Hall c (list_elem_of_here _ _))). apply IH; [by intros; apply Hall; right|lia|lia].
Qed.

Definition table_of k cols (batch : list (TextContext.t B)) : list (string * list (list Z)) :=
  (λ '(leaf, _), (leaf, map (row_of k cols leaf) batch)) <$> _leaf_infos k.

(** Preparing a batch reads the manager's books and changes none of them. *)
Lemma leaf_assignments_run k batch l : Runnable k batch l → let cols := _padded_lut_cols (table_pages k batch l) in
  _compute_kv_cache_assignments batch l None k =
    (Ok (leaf_assignments (map CacheFacts.cached_length batch) (table_of k cols batch)
           (batch_characteristics (len batch) (lengths_of k batch (0, 0)).1 (lengths_of k batch (0, 0)).2)), k).
Proof.
  intros HR cols. pose proof (rn_sound _ _ _ HR) as HS. unfold _compute_kv_cache_assignments.
  mstep (leaf_check_blocks_run batch k HS (rn_provisioned _ _ _ HR)). mstep (leaf_lut_pages_run k batch l HR). mstep (eq_refl : get k = (Ok k, k)).
  pose proof (rn_batch _ _ _ HR). erewrite bind_run; [|apply raise_if_false; lia]. cbv beta. mstep (check_leaves_run k batch l HR). cbv zeta. fold cols.
  mstep (view_run k batch l HR). destruct (CacheFacts.padded_cols_spec (table_pages k batch l)) as [_ Hc]. fold cols in Hc.
  assert (for_map batch (lut_rows cols) k = (Ok (map (λ c, (rows_of k cols c, CacheFacts.cached_length c)) batch), k)) as E1.
  { apply for_map_read. intros c Hin. pose proof (leaf_table_covers k batch l c HR Hin). apply leaf_lut_rows_run; [done|by apply (rn_provisioned _ _ _ HR)|by apply (rn_fits _ _ _ HR)|exact (rn_ids _ _ _ HR)|lia]. }
  mstep E1. mstep (leaf_max_lengths_run batch k). destruct (leaf_lengths_bounds batch k 0 0 (rn_fits _ _ _ HR)) as [H1' H2']; [lia..|].
  destruct (lengths_of k batch (0, 0)) as [mp mc]. simpl in H1', H2'. cbv zeta beta iota. unfold bind at 1, ret at 1. simpl max_prompt_length.
  simpl max_cache_valid_length. mstep (CacheFacts.uint32_run mp k H1'). mstep (CacheFacts.uint32_run mc k H2'). unfold ret. simpl. rewrite <- !list_fmap_compose. do 2 f_equal. f_equal.
  apply list_fmap_ext. intros _ [leaf info] Hin%list_elem_of_lookup_2. simpl. f_equal. unfold leaf_table. rewrite <- list_fmap_compose. apply map_ext_in. intros c _. simpl.
  unfold rows_of. rewrite (list_to_map_graph (λ leaf, row_of k cols leaf c)); [done|]. rewrite (so_leaves _ HS). apply list_elem_of_fmap. by exists (leaf, info).
Qed.


(** ** Allocation *)

Definition rid_of (x : Ctx.t B) : Z := TextContext.request_id (Ctx.base x).

(** What [alloc] asks of the request: claimed, and its tokens in order when it starts over *)
Record allocatable k (x : Ctx.t B) : Prop := {
  al_claimed : is_Some (JengaBlockManager._req_to_replica (blocks k) !! rid_of x);
  al_tokens : JengaTrace.admitted (JengaTrace.Alloc x) (blocks k)
}.

(** What a call for request [rid] does to everybody else *)
Record Beside k k' (rid : Z) : Prop := {
  be_sound : Sound k';
  be_only : k' = set_blocks (blocks k') k;
  be_core : core (blocks k') = core (blocks k);
  be_rows rid' leaf : rid' ≠ rid → row_opt (blocks k') leaf rid' = row_opt (blocks k) leaf rid';
  be_hashes rid' : rid' ≠ rid → JengaBlockManager._req_to_hashes (blocks k') !! rid' = JengaBlockManager._req_to_hashes (blocks k) !! rid'
}.

Lemma sound_set k b : Sound k → MInv n K b → core b = core (blocks k) → kinds b = kinds (blocks k) → Sound (set_blocks b k).
Proof.
  intros HS HI Hc Hk. split; simpl; try apply HS; [done|..].
  - rewrite (core_eq JengaBlockManager._block_size _ _ Hc) by done. apply HS.
  - rewrite (core_eq JengaBlockManager.leaf_ids _ _ Hc) by done. apply HS.
  - intros leaf info Hin. destruct (so_ratio _ HS leaf info Hin) as [Hr Hg]. split; [done|]. rewrite <- lookup_fmap in *.
    change (kinds b !! leaf = Some (JengaBlockManager.info_group_id info)). by rewrite Hk.
  - rewrite (core_eq JengaBlockManager._num_draft_tokens _ _ Hc) by done. apply HS.
  - rewrite (core_eq JengaBlockManager._num_draft_tokens_per_step _ _ Hc) by done. apply HS.
  - rewrite (core_eq JengaBlockManager._max_num_input_tokens _ _ Hc) by done. apply HS.
Qed.

(** One allocation that returns: the request has its pages, the others theirs. *)
Lemma leaf_alloc_one_run k x x' k' : Sound k → allocatable k x → alloc (k, x) = (Ok tt, (k', x')) →
  Beside k k' (rid_of x) ∧ rid_of x' = rid_of x ∧ (0 ≤ slots k' (Ctx.base x') → provisioned k' (Ctx.base x')).
Proof.
  intros HS [[i Hr] Ha] E. unfold alloc, on_request in E. simpl in E. pose proof (so_inv _ HS) as HI. set (m := blocks k) in *.
  destruct (JengaOwnership.jenga_alloc_run n K HK Hn m x i HI Hr Ha) as [(e & E1 & _)|(r & m1 & x1 & m' & x1' & E1 & HL & Hid & HSp & HI' & Hres)]; rewrite E1 in E; [discriminate E|].
  injection E as -> Ek ->. simpl in Ek. destruct Hres as [(Hraise & _)|(_ & [Hlen _ [HF HKd] Ho] & _)]; [discriminate Hraise|].
  pose proof (frame_core _ _ HF) as Hc. destruct (looked_same n K m x m1 x1 i HI HL) as (_ & Hc1 & Ho1).
  assert (kinds m1 = kinds m ∧ ∀ rid', rid' ≠ rid_of x → JengaBlockManager._req_to_hashes m1 !! rid' = JengaBlockManager._req_to_hashes m !! rid') as [Hk1 Hh1].
  { destruct HL as [(-> & _)|(_ & _ & hs & q & h & _ & _ & _ & HR)]; [done|]. destruct (ru_change _ _ _ _ _ _ _ _ _ _ _ HR) as (p & p' & _ & HC & _). split; apply HC. }
  assert (core m' = core m) as Hcm by congruence. assert (Sound k') as HS' by (rewrite <- Ek; apply sound_set; [done|done|done|exact (eq_trans HKd Hk1)]).
  destruct (spec_only_same x1 x' m (_max_num_input_tokens k) HSp) as (_ & Hid' & Hsl & _). unfold rid_of in *.
  assert (blocks k' = m') as Eb by by rewrite <- Ek. split; [|split; [congruence|]].
  - split; [done|by rewrite Eb, <- Ek|by rewrite Eb|intros rid' c Hne; rewrite Eb, Ho by congruence; by apply Ho1|].
    intros rid' Hne. rewrite Eb, (frame_eq JengaBlockManager._req_to_hashes m1 m' HF) by done. by apply Hh1.
  - intros H0. split; [|done|].
    + rewrite Eb, Hid', Hid, (core_eq JengaBlockManager._req_to_replica m m' Hcm) by done. by exists i.
    + intros leaf Hleaf. rewrite <- (so_leaves _ HS'), Eb, (core_eq JengaBlockManager.leaf_ids m1 m' Hc) in Hleaf by done.
      unfold held. rewrite Eb, Hid'. rewrite (Hlen leaf Hleaf). pose proof (leaf_sound_positive k' HS') as Hps.
      assert (pages_wanted m1 x1 = ceildiv (slots k' (Ctx.base x')) (page_size (params k'))) as ->.
      { unfold pages_wanted, slots, JengaOwnership.slots. rewrite Eb. unfold JengaOwnership.slots in Hsl.
        rewrite (core_eq JengaBlockManager._num_draft_tokens m1 m' Hc), (core_eq JengaBlockManager._num_draft_tokens_per_step m1 m' Hc) by done.
        rewrite (core_eq JengaBlockManager._num_draft_tokens m m1 Hc1), (core_eq JengaBlockManager._num_draft_tokens_per_step m m1 Hc1) by done.
        assert (JengaBlockManager._max_num_input_tokens m1 = _max_num_input_tokens k') as ->.
        { rewrite (core_eq JengaBlockManager._max_num_input_tokens m m1 Hc1) by done. rewrite <- Ek. apply (so_limit _ HS). }
        assert (JengaBlockManager._block_size m1 = page_size (params k')) as ->.
        { rewrite (core_eq JengaBlockManager._block_size m m1 Hc1) by done. rewrite <- Ek. apply (so_page _ HS). }
        assert (_max_num_input_tokens k' = _max_num_input_tokens k) as -> by by rewrite <- Ek. by rewrite Hsl. }
      pose proof (ceildiv_spec (slots k' (Ctx.base x')) _ Hps). nia.
Qed.

(** ** A batch of allocations *)
Definition alloc_one (x : Ctx.t B) : M t (Ctx.t B) := λ k,
  let '(r, (k', x')) := alloc (k, x) in (match r with Ok _ => Ok x' | Raise e => Raise e end, k').
Definition alloc_batch (xs : list (Ctx.t B)) : M t (list (Ctx.t B)) := for_map xs alloc_one.

Lemma allocatable_beside k k' rid x : Beside k k' rid → rid_of x ≠ rid → allocatable k x → allocatable k' x.
Proof.
  intros [_ _ Hc Hr Hh] Hne [A1 A2]. split; [by rewrite (core_eq JengaBlockManager._req_to_replica _ _ Hc)|].
  intros H0 Hca hs Hhs. rewrite (core_eq JengaBlockManager._enable_prefix_caching _ _ Hc) in Hca by done. rewrite Hh in Hhs by done.
  destruct (A2 H0 Hca hs Hhs) as [T1 T2 T3 T4]. split; [done|done| |done]. by rewrite (core_eq JengaBlockManager._block_size _ _ Hc).
Qed.

Lemma slots_beside k k' rid c : Beside k k' rid → slots k' c = slots k c.
Proof.
  intros [_ -> Hc _ _]. unfold slots, JengaOwnership.slots. simpl in *.
  rewrite (core_eq JengaBlockManager._num_draft_tokens (blocks k) (blocks k') Hc), (core_eq JengaBlockManager._num_draft_tokens_per_step (blocks k) (blocks k') Hc) by done. done.
Qed.

Lemma provisioned_beside k k' rid c : Beside k k' rid → TextContext.request_id c ≠ rid → provisioned k c → provisioned k' c.
Proof.
  intros HB Hne [P1 P2 P3]. pose proof (slots_beside k k' rid c HB) as Es. destruct HB as [_ Ek Hc Hr _]. split.
  - by rewrite (core_eq JengaBlockManager._req_to_replica _ _ Hc).
  - by rewrite Es.
  - intros leaf Hl. rewrite Es. unfold held, rw. rewrite Hr by done. rewrite Ek in *. apply (P3 leaf Hl).
Qed.

Lemma leaf_alloc_batch_run xs k xs' k' : Sound k → NoDup (map rid_of xs) → (∀ x, x ∈ xs → allocatable k x) → alloc_batch xs k = (Ok xs', k') →
  Sound k' ∧ k' = set_blocks (blocks k') k ∧ map rid_of xs' = map rid_of xs ∧
  (∀ x', x' ∈ xs' → 0 ≤ slots k' (Ctx.base x') → provisioned k' (Ctx.base x')) ∧
  (∀ c, TextContext.request_id c ∉ map rid_of xs → provisioned k c → provisioned k' c) ∧ (∀ c, slots k' c = slots k c).
Proof.
  revert k xs'. induction xs as [|x xs IH]; intros k xs' HS Hnd Hal E.
  { injection E as <- <-. split_and!; try done; [by destruct k|by intros x' ?%elem_of_nil]. }
  apply NoDup_cons in Hnd as [Hx Hnd]. unfold alloc_batch in E. simpl in E. unfold bind at 1, alloc_one at 1 in E.
  destruct (alloc (k, x)) as [[[]|e] [k1 x1]] eqn:E1; [|discriminate E].
  destruct (leaf_alloc_one_run k x x1 k1 HS (Hal x (list_elem_of_here _ _)) E1) as (HB & Hid & Hpv).
  unfold bind at 1 in E. destruct (for_map xs alloc_one k1) as [[ys|] k2] eqn:E2; [|discriminate E]. injection E as <- <-.
  destruct (IH k1 ys (be_sound _ _ _ HB) Hnd) as (HS2 & Ek2 & Hr2 & Hp2 & Hk2 & Hs2); [|done|].
  { intros y Hy. eapply allocatable_beside; [exact HB| |by apply Hal; right]. intros Heq. apply Hx. rewrite <- Heq. by apply list_elem_of_fmap_2. }
  split; [done|]. split; [rewrite Ek2 at 1; by rewrite (be_only _ _ _ HB)|]. split; [simpl; congruence|]. split_and!.
  - intros x' [->|Hx']%elem_of_cons; [|by apply Hp2]. intros H0. rewrite Hs2 in H0. apply Hk2; [|by apply Hpv].
    unfold rid_of in *. by rewrite Hid.
  - intros c [Hc1 Hc2]%not_elem_of_cons Hpc. apply Hk2; [done|]. by eapply provisioned_beside.
  - intros c. by rewrite Hs2, (slots_beside _ _ _ c HB).
Qed.

(** ** The promised length *)

(** A sequence no longer than the manager promises *)
Definition promised k c : Prop := ∀ s, (JengaBlockManager.effective_max_seq_length (blocks k)).1 = Ok (Some s) → slots k c ≤ s.

Lemma promised_pages k c leaf info : Sound k → promised k c → provisioned k c → (leaf, info) ∈ _leaf_infos k →
  KVCacheGroupId.is_full (JengaBlockManager.info_group_id info) = true → slots k c ≤ leaf_pages (_num_huge_blocks k) info * page_size (params k).
Proof.
  intros HS Hp [[i Hr] H0 _] Hin Hfull. pose proof (so_inv _ HS) as HI. pose proof (mi_static _ _ _ HI) as HSt. pose proof (leaf_sound_positive k HS) as Hps.
  destruct (JengaBlockManager.pools (blocks k) !! 0%nat) as [p|] eqn:Ep.
  2:{ destruct (rq_replica _ _ _ (mi_reqs _ _ _ HI _ i Hr)) as [Hi1 Hi2]. apply lookup_ge_None in Ep. unfold len in Hi2. lia. }
  destruct (mi_pools _ _ _ HI 0 p ltac:(lia) Ep) as [a HP]. assert (JengaBlockManager.leaf_ids (blocks k) ≠ []) as Hne.
  { rewrite (so_leaves _ HS). pose proof (so_some _ HS). by destruct (_leaf_infos k). }
  destruct (JengaCapacity.effective_run n K HK (blocks k) p a (held_of (blocks k) 0) HSt Ep HP Hne) as (o & Eo & Ho).
  assert (JengaCapacity.fits K (blocks k) p (slots k c)) as Hfits.
  { destruct o as [s|]; [|by apply Ho]. apply Ho; [done|]. apply Hp. by rewrite Eo. }
  destruct (so_ratio _ HS leaf info Hin) as [Hk Hg]. pose proof (HK _ _ Hk) as Hk0.
  assert (leaf ∈ JengaBlockManager.leaf_ids (blocks k)) as Hleaf by (rewrite (so_leaves _ HS); apply list_elem_of_fmap; by exists (leaf, info)).
  pose proof (JengaCapacity.needed_part K HK (blocks k) _ (slots k c) leaf (st_caches _ _ HSt) Hleaf) as Hpart.
  unfold JengaCapacity.fits in Hfits. unfold ratio_of in Hpart. rewrite Hk in Hpart. simpl in Hpart.
  pose proof (JengaCapacity.need_le _ _ _ Hk0 (Z.le_trans _ _ _ Hpart Hfits)) as Hle.
  unfold JengaCapacity.leaf_pages in Hle. destruct (JengaBlockManager._leaves (blocks k) !! leaf) as [lf|]; [|discriminate Hg]. injection Hg as Hg.
  assert (KVCacheGroupId.is_sliding_window (JengaBlockManager.group_id lf) = false) as Hw.
  { rewrite Hg. unfold KVCacheGroupId.is_full, KVCacheGroupId.is_sliding_window in *. apply bool_decide_eq_true in Hfull. by rewrite Hfull. }
  rewrite Hw, (so_page _ HS) in Hle. rewrite (JengaAbs.ab_list _ _ _ _ (JengaAbs.po_abs _ _ _ _ _ HP)) in Hle.
  assert (len (zrange 1 n) = n - 1) as El by (unfold len; rewrite CacheFacts.length_zrange; lia). rewrite El in Hle.
  unfold leaf_pages. rewrite <- (so_huge _ HS). pose proof (ceildiv_spec (slots k c) _ Hps). nia.
Qed.
End Facts.

(** ** A new manager is sound *)
Section Init.
Context `{Digest} {B : Backend}.

Lemma infos_some params leaf_infos n mb limit k : init params false leaf_infos n mb limit = Ok k → 1 ≤ CacheManager.data_parallel_degree params → leaf_infos ≠ [].
Proof.
  intros E Hdp ->. unfold init, split_into_groups in E. destruct (CacheManager.data_parallel_degree params =? 0); [done|].
  destruct (negb (forallb _ _)); [done|]. set (l := _ <$> zrange _ _) in E.
  assert (len l = CacheManager.data_parallel_degree params) as Hl by (unfold l, len; rewrite length_fmap, CacheFacts.length_zrange; lia).
  rewrite Hl in E. by replace (CacheManager.data_parallel_degree params =? 0) with false in E by lia.
Qed.

Lemma init_sound params leaf_infos n mb limit k :
  init params false leaf_infos n mb limit = Ok k → 1 ≤ CacheManager.data_parallel_degree params → 0 < page_size params → NoDup leaf_infos.*1 →
  (∀ c leaf, (c, leaf) ∈ leaf_infos → group_ok (JengaBlockManager.info_group_id leaf)) →
  let K := JengaAbs.caches_of (ratios_of leaf_infos) in
  2 ≤ n ∧ (∀ c r, K !! c = Some r → 0 < r) ∧ Sound n K k ∧ JengaBlockManager._req_to_replica (blocks k) = ∅.
Proof.
  intros E Hdp Hps Hnd Hok K. pose proof (infos_some _ _ _ _ _ _ E Hdp) as Hsome. unfold init in E.
  destruct (split_into_groups _ _) as [ds|]; [|done]. destruct (negb (forallb _ ds)); [done|]. destruct (_ && _); [done|].
  destruct (JengaBlockManager.init _ _ _ _ _ _ _ _ _ _) as [b|] eqn:Eb; [|done]. injection E as <-.
  destruct (jenga_init_run _ _ _ _ _ _ _ _ _ _ _ Eb Hdp Hps Hnd Hok) as (Hn & HK & HI & _ & Hreq & Hids & Hbs & _).
  split; [done|]. split; [done|]. split; [|done]. unfold JengaBlockManager.init in Eb. destruct (JengaBlockManager.new_pools _ _ _) as [ps|]; [|done].
  injection Eb as <-. split; simpl; try done. intros leaf info Hin. split.
  - apply elem_of_list_to_map_1; [|apply list_elem_of_fmap; by exists (leaf, info)].
    unfold ratios_of. rewrite <- list_fmap_compose. erewrite list_fmap_ext; [exact Hnd|]. by intros _ [] _.
  - erewrite elem_of_list_to_map_1; [| |apply list_elem_of_fmap; exists (leaf, info); split; [done|exact Hin]]; [done|].
    rewrite <- list_fmap_compose. erewrite list_fmap_ext; [exact Hnd|]. by intros _ [] _.
Qed.
End Init.
End JengaCacheFacts.

(** ** The theorems *)
Module JengaCacheProperties.
Import JengaOwnership JengaKVCacheManager JengaCacheFacts.

Section Statements.
Context `{Digest} {B : Backend}.
Implicit Types k : t.

(** C10: A Jenga batch whose requests were all allocated can always be run. Allocate pages
    for distinct claimed requests one after the other (each call may adopt a cached
    prefix and move the request's tokens past it); if every call returned, building the
    kernels' inputs raises nothing and changes nothing, as long as some leaf has full
    attention, the batch fits the configured size, each sequence is within the length
    the manager promises, and page and token numbers fit 32 bits. *)
Theorem jenga_allocated_batch_runs n K k xs xs' k' :
  (∀ c r, K !! c = Some r → 0 < r) → 2 ≤ n → Sound n K k → NoDup (map rid_of xs) → (∀ x, x ∈ xs → allocatable k x) →
  (∃ leaf info, (leaf, info) ∈ _leaf_infos k ∧ KVCacheGroupId.is_full (JengaBlockManager.info_group_id info) = true) →
  (∀ leaf info, (leaf, info) ∈ _leaf_infos k → leaf_pages (_num_huge_blocks k) info < 2 ^ 32) → len xs ≤ _max_batch_size k →
  alloc_batch xs k = (Ok xs', k') →
  (∀ x', x' ∈ xs' → fits k' (Ctx.base x') ∧ 0 ≤ slots k' (Ctx.base x') ∧ promised k' (Ctx.base x')) →
  ∃ a, _compute_kv_cache_assignments (map Ctx.base xs') None None k' = (Ok a, k') ∧ len (leaf_cache_lengths a) = len xs ∧
    (leaf_lookup_tables a).*1 = (_leaf_infos k).*1 ∧ ∀ leaf T, (leaf, T) ∈ leaf_lookup_tables a → len T = len xs.
Proof.
  intros HK Hn HS Hnd Hal (full & finfo & Hfin & Hfull) Hids Hb E Hx.
  destruct (leaf_alloc_batch_run n K HK Hn xs k xs' k' HS Hnd Hal E) as (HS' & Ek & Hr & Hp & _).
  assert (len xs' = len xs) as Hlen by (unfold len; by rewrite <- (length_map rid_of xs'), Hr, length_map).
  assert (_leaf_infos k' = _leaf_infos k ∧ _num_huge_blocks k' = _num_huge_blocks k ∧ _max_batch_size k' = _max_batch_size k) as (El & En & Em) by by rewrite Ek.
  rewrite <- El in Hfin, Hids. rewrite <- En in Hids. rewrite <- Em in Hb. clear Ek.
  assert (∀ leaf info, (leaf, info) ∈ _leaf_infos k' → KVCacheGroupId.is_full (JengaBlockManager.info_group_id info) = true →
    table_pages k' (map Ctx.base xs') None ≤ leaf_pages (_num_huge_blocks k') info) as Hpages.
  { intros leaf info Hin Hf. pose proof (leaf_sound_positive n K k' HS') as Hps. rewrite <- (CacheFacts.ceildiv_mul (leaf_pages _ info) _ Hps).
    apply JengaCapacity.capacity_ceildiv_mono; [done|]. apply leaf_max_slots_le.
    - pose proof (so_ratio _ _ _ HS' leaf info Hin) as [Hk _]. pose proof (HK _ _ Hk). unfold leaf_pages. rewrite <- (so_huge _ _ _ HS'). nia.
    - intros c (x' & -> & Hx')%list_elem_of_fmap. destruct (Hx x' Hx') as (_ & H0 & Hpr). by apply (promised_pages n K HK Hn k' _ leaf info HS' Hpr (Hp x' Hx' H0)). }
  assert (Runnable n K k' (map Ctx.base xs') None) as HR.
  { split; try done.
    - unfold len in *. rewrite length_map. lia.
    - intros c (x' & -> & Hx')%list_elem_of_fmap. by apply Hp, (Hx x' Hx').
    - intros c (x' & -> & Hx')%list_elem_of_fmap. apply (Hx x' Hx').
    - etrans; [exact (Hpages full finfo Hfin Hfull)|]. by eapply max_lut_bound. }
  eexists. split; [exact (leaf_assignments_run n K HK Hn k' _ None HR)|]. simpl. split; [unfold len in *; rewrite !length_map; lia|]. unfold table_of. split.
  - rewrite <- list_fmap_compose, <- El. apply list_fmap_ext. by intros _ [] _.
  - intros leaf T ([leaf' info] & [= -> ->] & _)%list_elem_of_fmap. unfold len in *. rewrite !length_map. lia.
Qed.

(** C11: The kernels may read every leaf's table without a bounds check. For a batch the
    manager can prepare, each leaf's table has a row for each request, whose width is a
    multiple of eight; the entry of each page the sequence needs is the page the
    request holds there; and from any page of the table a kernel may read a tile of
    sixteen entries, each the null page or a page of that leaf. *)
Theorem jenga_tables_in_bounds n K k batch l :
  (∀ c r, K !! c = Some r → 0 < r) → 2 ≤ n → Runnable n K k batch l →
  ∃ a, _compute_kv_cache_assignments batch l None k = (Ok a, k) ∧
    ∀ leaf info j c, (leaf, info) ∈ _leaf_infos k → batch !! j = Some c →
    ∃ T row, (leaf, T) ∈ leaf_lookup_tables a ∧ T !! j = Some row ∧ len row mod 8 = 0 ∧
      (∀ q, 0 ≤ q < pages k c → ∃ r, row !! Z.to_nat q = Some r ∧ held k c leaf !! Z.to_nat q = Some r) ∧
      (∀ q d, 0 ≤ q < table_pages k batch l → 0 ≤ d < 16 → ∃ r, row !! Z.to_nat (q + d) = Some r ∧
         (r = 0 ∨ JengaBlockManager.ratio info ≤ r < leaf_pages (_num_huge_blocks k) info)).
Proof.
  intros HK Hn HR. pose proof (rn_sound _ _ _ _ _ HR) as HS. set (cols := _padded_lut_cols (table_pages k batch l)).
  eexists. split; [exact (leaf_assignments_run n K HK Hn k batch l HR)|]. intros leaf info j c Hin Hj. simpl. fold cols.
  exists (map (row_of k cols leaf) batch), (row_of k cols leaf c).
  split; [apply list_elem_of_fmap; by exists (leaf, info)|]. split; [by rewrite list_lookup_fmap, Hj|].
  pose proof (list_elem_of_lookup_2 _ _ _ Hj) as Hc. pose proof (rn_provisioned _ _ _ _ _ HR c Hc) as Hpv.
  assert (leaf ∈ (_leaf_infos k).*1) as Hl by (apply list_elem_of_fmap; by exists (leaf, info)).
  pose proof (held_enough n K Hn k c leaf HS Hpv Hl) as Hph. pose proof (leaf_table_covers n K Hn k batch l c HR Hc) as Hcov.
  destruct (CacheFacts.padded_cols_spec (table_pages k batch l)) as [H8 Hcols]. fold cols in H8, Hcols.
  assert (len (row_of k cols leaf c) = cols) as Hlen by (unfold row_of, len in *; rewrite length_app, length_take, repeat_length; lia).
  split; [by rewrite Hlen|]. split.
  - intros q Hq. destruct (lookup_lt_is_Some_2 (held k c leaf) (Z.to_nat q)) as [r Hr]; [unfold len in *; lia|].
    exists r. split; [|done]. unfold row_of. apply lookup_app_l_Some. by rewrite lookup_take_lt by lia.
  - intros q d Hq Hd. destruct (lookup_lt_is_Some_2 (row_of k cols leaf c) (Z.to_nat (q + d))) as [r Hr]; [unfold len in *; lia|].
    exists r. split; [exact Hr|]. unfold row_of in Hr. apply lookup_app_Some in Hr as [Hr|[_ Hr]].
    + apply lookup_take_Some in Hr as [Hr _]. apply list_elem_of_lookup_2 in Hr. unfold leaf_pages. rewrite <- (so_huge _ _ _ HS).
      exact (held_pages n K k c leaf info r HS (pv_claimed _ _ Hpv) Hin Hr).
    + left. apply list_elem_of_lookup_2, list_elem_of_In, repeat_spec in Hr. done.
Qed.
End Statements.

(** *** Two claimed requests over a full-attention cache and a window cache *)
#[local] Existing Instance HashProperties.toy_digest.
#[local] Existing Instance recording_backend.
Import JengaTrace JengaManagerProperties JengaCapacity JengaKVCacheManager JengaCacheFacts.

Definition small_params : KVCacheParams := kv_cache_params 1 1 2 true BlockHash.ahash64 None 0 0 false.
(** Pages of two bytes and of one, in thirty bytes: fifteen huge blocks *)
Definition made : outcome t :=
  create small_params false [("full"%string, (2, KVCacheGroupId.full)); ("window"%string, (1, window 3))] 30 4 None.
Definition caches : JengaBlockManager.t := manager two_leaves 15 2 true.
Lemma made_caches : made = Ok (mk small_params two_leaves 15 4 None caches).
Proof. vm_compute. reflexivity. Qed.
#[local] Abbreviation ratios := (JengaAbs.caches_of (ratios_of two_leaves)).
Lemma caches_good : (∀ c k, ratios !! c = Some k → 0 < k) ∧ MInv 15 ratios caches.
Proof.
  assert (JengaBlockManager.init two_leaves 15 2 true 1 BlockHash.ahash64 None None 0 0 = Ok caches) as E by (vm_compute; reflexivity).
  destruct (jenga_init_run _ _ _ _ _ _ _ _ _ _ _ E) as (_ & HK & HI & _); [lia|lia|exact two_leaves_nodup|exact two_groups_ok|done].
Qed.

Definition claims : list call := [Claim 0 0; Claim 1 0].
Definition two_claimed : t := mk small_params two_leaves 15 4 None (replay claims caches).
Definition prompts : list (Ctx.t recording_backend) := [prompt 0 0; prompt 1 0].

Lemma leaf_two_claimed_sound : Sound 15 ratios two_claimed.
Proof.
  split; try (vm_compute; reflexivity).
  - apply (jenga_good_replay 15 ratios (proj1 caches_good) ltac:(lia)); [apply caches_good|]. split; [vm_compute; split; [discriminate|reflexivity]|].
    split; [vm_compute; split; [discriminate|reflexivity]|exact I].
  - discriminate.
  - intros leaf info Hin. change (_leaf_infos two_claimed) with two_leaves in Hin. unfold two_leaves in Hin. rewrite !elem_of_cons, elem_of_nil in Hin.
    destruct Hin as [[= -> ->]|[[= -> ->]|[]]]; split; vm_compute; reflexivity.
Qed.
Lemma leaf_prompts_allocatable x : x ∈ prompts → allocatable two_claimed x.
Proof.
  unfold prompts. rewrite !elem_of_cons, elem_of_nil. intros [->|[->|[]]]; (split; [vm_compute; by eexists|]).
  all: intros _ _ hs Hh; apply prompt_tokens; [vm_compute; reflexivity|]; assert (hs = []) as -> by (vm_compute in Hh; by injection Hh); done.
Qed.

(** The batch after its allocation *)
Definition allocated : outcome (list (Ctx.t recording_backend)) * t := alloc_batch prompts two_claimed.
Definition batch : list (Ctx.t recording_backend) := match allocated.1 with Ok l => l | Raise _ => [] end.
Lemma leaf_allocated_run : alloc_batch prompts two_claimed = (Ok batch, allocated.2).
Proof. vm_compute. reflexivity. Qed.

Lemma batch_tokens : Forall (λ x, Ctx.tokens x = Ctx.tokens (prompt 0 0)) batch.
Proof. vm_compute. repeat constructor. Qed.
Lemma batch_sizes : Forall (λ x, slots allocated.2 (Ctx.base x) = 5 ∧ CacheFacts.cached_length (Ctx.base x) + CacheFacts.query_length (Ctx.base x) = 5) batch.
Proof. vm_compute. repeat constructor. Qed.
Lemma batch_fits x : x ∈ batch → fits allocated.2 (Ctx.base x) ∧ 0 ≤ slots allocated.2 (Ctx.base x) ∧ promised allocated.2 (Ctx.base x).
Proof.
  intros Hx. pose proof (proj1 (Forall_forall _ _) batch_tokens x Hx) as Ht. destruct (proj1 (Forall_forall _ _) batch_sizes x Hx) as [Hs Hl]. simpl in Ht. split.
  - split; [change (TextContext.tokens (Ctx.base x)) with (Ctx.tokens x); rewrite Ht; apply (ManagerProperties.prompt_good 0 0); lia|].
    assert (num_draft_tokens (params allocated.2) = 0) as -> by (vm_compute; reflexivity). lia.
  - rewrite Hs. split; [lia|]. intros s Es. rewrite Hs. assert ((JengaBlockManager.effective_max_seq_length (blocks allocated.2)).1 = Ok (Some 26)) as E by (vm_compute; reflexivity).
    rewrite E in Es. injection Es as <-. lia.
Qed.
Lemma small_pages leaf info : (leaf, info) ∈ _leaf_infos two_claimed → leaf_pages (_num_huge_blocks two_claimed) info < 2 ^ 32.
Proof.
  change (_leaf_infos two_claimed) with two_leaves. unfold two_leaves. rewrite !elem_of_cons, elem_of_nil. intros [[= -> ->]|[[= -> ->]|[]]]; vm_compute; reflexivity.
Qed.

Lemma jenga_allocated_batch_runs_witness :
  ∃ a, _compute_kv_cache_assignments (map Ctx.base batch) None None allocated.2 = (Ok a, allocated.2) ∧ len (leaf_cache_lengths a) = 2.
Proof.
  destruct (jenga_allocated_batch_runs 15 ratios two_claimed prompts batch allocated.2 (proj1 caches_good)) as (a & E & Hl & _).
  - lia.
  - exact leaf_two_claimed_sound.
  - apply (bool_decide_unpack _). vm_compute. exact I.
  - exact leaf_prompts_allocatable.
  - exists "full"%string, (JengaBlockManager.kv_leaf_info 1 KVCacheGroupId.full). split; [by left|reflexivity].
  - exact small_pages.
  - vm_compute. discriminate.
  - exact leaf_allocated_run.
  - exact batch_fits.
  - exists a. split; [exact E|exact Hl].
Defined.

Lemma batch_runnable : Runnable 15 ratios allocated.2 (map Ctx.base batch) None.
Proof.
  destruct (leaf_alloc_batch_run 15 ratios (proj1 caches_good) ltac:(lia) prompts two_claimed batch allocated.2 leaf_two_claimed_sound) as (HS & _ & _ & Hp & _);
    [apply (bool_decide_unpack _); vm_compute; exact I|exact leaf_prompts_allocatable|exact leaf_allocated_run|].
  assert (_leaf_infos allocated.2 = two_leaves) as El by (vm_compute; reflexivity). split.
  - exact HS.
  - vm_compute. discriminate.
  - intros c (x & -> & Hx)%list_elem_of_fmap. by apply Hp, (batch_fits x Hx).
  - intros c (x & -> & Hx)%list_elem_of_fmap. apply (batch_fits x Hx).
  - intros leaf info Hin _. rewrite El in Hin. unfold two_leaves in Hin. rewrite !elem_of_cons, elem_of_nil in Hin. destruct Hin as [[= -> ->]|[[= -> ->]|[]]]; vm_compute; discriminate.
  - vm_compute. discriminate.
  - intros leaf info Hin. rewrite El in Hin. exact (small_pages leaf info Hin).
  - intros l [=].
Qed.
Lemma jenga_tables_in_bounds_witness :
  ∃ a T row, _compute_kv_cache_assignments (map Ctx.base batch) None None allocated.2 = (Ok a, allocated.2) ∧
    ("window"%string, T) ∈ leaf_lookup_tables a ∧ T !! 1%nat = Some row ∧ len row mod 8 = 0.
Proof.
  destruct (jenga_tables_in_bounds 15 ratios allocated.2 (map Ctx.base batch) None (proj1 caches_good)) as (a & E & Ht).
  - lia.
  - exact batch_runnable.
  - destruct (map Ctx.base batch !! 1%nat) as [c|] eqn:Ec; [|vm_compute in Ec; discriminate Ec].
    destruct (Ht "window"%string (JengaBlockManager.kv_leaf_info 2 (window 3)) 1%nat c) as (T & row & HT & Hrow & H8 & _); [vm_compute; right; left|exact Ec|].
    exists a, T, row. split; [exact E|]. split; [exact HT|]. split; [exact Hrow|exact H8].
Defined.

(** ** Two limits *)

(** One window cache over three huge blocks, and a request computed a token at a time *)
Definition window_only : outcome t := create (kv_cache_params 1 1 1 false BlockHash.ahash64 None 0 0 false) false [("window"%string, (1, window 2))] 3 1 None.
Definition nine_tokens (processed : Z) : Ctx.t recording_backend :=
  Ctx.Text (TextContext.mk recording_backend 0 16
    (TokenBuffer.mk [1; 2; 3; 4; 5; 6; 7; 8; 9] (Range.mk processed (processed + 1)) 0 (Range.mk 9 9) 9 9 true)
    (EOSTracker.init {[ 7 ]} [] []) (Some 100) 0 None None
    GrammarEnforcement.default_state None ACTIVE ∅ true false None None 0).
Definition with_request {A} (f : M (t * Ctx.t recording_backend) A) (x : Ctx.t recording_backend) : M t A :=
  λ k, let '(r, (k', _)) := f (k, x) in (r, k').
Definition generate : M t unit :=
  claim 0 0;;
  for_each (zrange 0 8) (λ i, with_request alloc (nine_tokens i);; with_request step (nine_tokens (i + 1)));;
  with_request alloc (nine_tokens 8).

(** The tables of window caches alone are too small for the sequences they admit. A
    window lets go of the pages behind it, so a cache of two usable pages serves nine
    tokens - the manager says that any length fits, and every allocation and step
    returns - but a row of the table still has a column for each block of the
    sequence, and the buffers are sized by the pages there are: preparing the batch
    raises. *)
Theorem window_table_too_small : ∃ k k', window_only = Ok k ∧ generate k = (Ok tt, k') ∧
  (JengaBlockManager.effective_max_seq_length (blocks k')).1 = Ok None ∧
  (runtime_inputs [[Ctx.base (nine_tokens 8)]] None None k').1 = Raise ValueError.
Proof. eexists _, _. split; [vm_compute; reflexivity|]. split; [vm_compute; reflexivity|]. split; vm_compute; reflexivity. Qed.

End JengaCacheProperties.

(** ** Under the batch constructor *)
Module JengaServing.
Import ReplicaRequests TextBatchConstructor BatchFacts.
#[local] Existing Instance HashProperties.toy_digest.
#[local] Existing Instance recording_backend.
#[local] Existing Instance LoraProperties.path_store.
#[local] Existing Instance BatchProperties.no_pipeline.
#[local] Existing Instance BatchProperties.rationals.
#[local] Existing Instance BatchProperties.no_builder.

(** A prompt of forty tokens for a pool that promises twenty-six *)
#[local] Existing Instance jenga_kv_cache | 0.
Definition pool : cache := match JengaCacheProperties.made with Ok k => k | Raise _ => JengaCacheProperties.two_claimed end.
Definition fresh : t :=
  match init BatchProperties.one_replica pool (tt : pipeline) None None with
  | Ok s => s
  | Raise _ => mk _ _ _ _ _ _ BatchProperties.one_replica pool tt None None ∅ [] ∅ ∅ [] [] ∅ ∅ None [] [] 0
  end.
Definition stuck : t := BatchProperties.ran (enqueue_new_request (inject_Z 0) BatchProperties.long_ask None) fresh.

(** Under this manager the scheduler's report of missing blocks is lost. The batch
    constructor raises [InsufficientBlocksError] with a message that counts the blocks
    the request holds; [get_req_blocks] is not implemented here. So whatever the state
    and the request, [NotImplementedError] is raised instead; and a constructor whose
    one request the empty pool cannot hold gets there. *)
Theorem jenga_masks_missing_blocks :
  (∀ X rid (s : t), (raise_insufficient (X := X) rid s).1 = Raise NotImplementedError) ∧
  (_construct_replica_batch 0 None stuck).1 = Raise NotImplementedError.
Proof. split; [done|vm_compute; reflexivity]. Qed.

End JengaServing.
